(* ===== verification/_CoqProject ===== *)
-Q . S2P
Prelude.v
GoLang.v
GoFacts.v
Paths.v
PartName.v
Sha.v
Api.v
Events.v
Names.v
LcView.v
LcChoose.v
LcIntents.v
LcState.v
LcExample.v
LcStep.v
LcDecide.v
LcFrame.v
LcStepFacts.v
LcMachine.v
LcTerminal.v
LcCommands.v
LcPass.v
LcIntentsFacts.v
LcNonces.v
LcChooseFacts.v
NamesFacts.v
Ledger.v
LedgerFacts.v
LedgerSafe.v
LedgerAdmit.v
Delivery.v
KV.v
Subjects.v
Topology.v
Layout.v
Settle.v
SettleFacts.v
Stream.v
StreamOps.v
StreamRuns.v
StreamFacts.v
Slots.v
Routing.v
TopologyFacts.v
Validated.v
Membus.v
MembusFacts.v
Records.v
RecordsFacts.v
RecordsSafe.v
Pacer.v
Breaker.v
RankScore.v
GoFloat.v
Quality.v
Sizes.v
Release.v
Languages.v
Rank.v
Coverage.v
Identity.v
IssueNumbers.v
Accept.v
Media.v
Evaluate.v
ImportRules.v
ImportChecks.v
ImportPlanning.v
ImportFacts.v
ImportParts.v
Importing.v
ImportMachine.v
ImportTasks.v
EvaluateFacts.v
Approved.v
Bands.v
AdmitSlots.v
AdmitFacts.v
Admission.v
AdmissionFacts.v
