(* ===== verification/Prelude.v ===== *)
(** * Clustarr, verified: header and shared library

    Clustarr is a Kubernetes-native media manager: a manager process plans what
    to search, download, import and repair, agents do the work, and the two meet
    over a message bus and through key/value records.  This library models the
    parts of it that decide: what becomes of a grabbed release, which work may
    be in flight, who may write which record, and how fast new work is let in.
    Go files are named from the root of the repository.

    ** The program's parts and where they are modelled

    - A grab's lifecycle (src/app/grab/lifecycle).  One pass of [Decide]
      (plan.go) over the entries of one item: each entry is a state machine
      ([step], transitions.go) that reads the engine's transfer record, the
      import's record and the release index, mutates the entry and emits
      commands; sets (parts.go), supersession (supersede.go), annotations
      (intents.go, converge.go) and the choice of client and engine (choose.go)
      hang off it.  [LcView]: constants, the view of a pass and the transfer
      record's reading; [LcChoose], [LcIntents]: choose.go and the annotation
      parser; [LcState]: the decider's state and its readers and senders as
      computations of the monad [M]; [LcStep]: every row of the machine and the
      part sets; [LcDecide]: the loops of [Decide].  The state is a [Cell]: the
      decider [cD] and the entry [cE] its method mutates through its pointer.
    - API types (src/api, src/pkg/events/schema) in [Api]: the structs, enums
      and methods those parts read, field by field.
    - Deterministic names (src/pkg/names) in [Names], over SHA-1 in [Sha].
    - The dispatch ledger (src/app/dispatch) in [Ledger]: the leader's book of
      which dispatches are in flight per durable, its admission (admit.go),
      waking (wake.go), rebuild and audit (ledger.go) and its detector of
      durables nobody serves (unattended.go).  [LedgerFacts] has the system: any
      sequence of its methods.  [Delivery] is the delivery book (delivery.go).
    - Keys, subjects and consumers (src/pkg/events, src/pkg/agentdomain) in
      [Events] and [Subjects]: every builder of a subject or a key, and the
      filters' match.  The broker's layout (topology.go, records.go) in
      [Topology]: the specs, [Validate], [ForSingleNode] with its byte budget,
      the lookups; [Layout]: the production layout [Default].
    - Envelopes and settlement (envelope.go, errors.go, requeue.go) in [Settle]:
      an envelope's headers, the errors a handler answers with, and what becomes
      of the delivery.
    - The in-memory message bus (src/pkg/events/membus).  [Stream] (stream.go):
      one stream's operations over a heap of messages, since deliveries keep
      their message's pointer after the stream dropped it; [StreamOps]: the
      effect of each as an equation; [StreamRuns]: the operations as the
      inductive [sop], and [run], any sequence of them.  [Slots] (membus.go):
      the handler slots of a subscription.  [Membus] (membus.go, admin.go,
      pull.go, records.go): the bus, which publishes, delivers, settles,
      requeues and dead-letters over its streams, and ensures and retires
      topologies; [MembusFacts.bop] is the system, any sequence of these.
    - A key/value bucket in [KV]: the contract of [events.KV] (bus.go) as the
      class [KV] with the laws [KVLaws], and the in-memory bucket
      (membus/kv.go), which is shown there to obey them.
    - The record protocol (src/pkg/records) in [Records]: the loop's requests
      and withdrawals, the workers' claims, deferrals, answers and seeds, and the
      agents' own writes, over any bucket of the class; and its admission pacer
      (pacer.go) in [Pacer].
    - The circuit breaker (src/pkg/ratelimit/breaker.go) in [Breaker].
    - Which release is taken.  The rank score (src/pkg/rankscore) in
      [RankScore]; the quality ladders, a profile's tiers and whether a release
      replaces a file (src/pkg/quality) in [Quality], its sizes and bitrates
      (sizes.go, bitrate.go) in [Sizes], over the language's float64 in
      [GoFloat]; releases, parsed titles, rejections and decisions
      (src/api/common, src/pkg/release, src/pkg/decision/reasons.go, bands.go,
      types.go) in [Release]; languages (src/pkg/lang,
      src/pkg/quality/catalogue/languages.go) in [Languages]; the order of the
      candidates (src/pkg/decision/rank.go, score.go) in [Rank]; the episodes a
      release covers through a scene table (identity_scene.go) in [Coverage];
      whether it is the item's (identity.go, identity_nonvideo.go) in [Identity];
      the checks of it and of what the item has (checks.go, size.go,
      audiolanguage.go, audiopolicy.go, dub.go) in [Accept]; donors and
      [Evaluate] with its two halves (donor.go, evaluate.go) in [Evaluate].

    - What an import takes of a completed download.  The MediaFiles it meets and
      their probes (src/api/catalog/v1alpha1, mediainfo_transcoded.go) in
      [Media], paths (path/filepath, src/pkg/fsops/under.go) in [Paths], part
      numbers (src/pkg/release/part.go) in [PartName]; of
      src/app/import/importplan: the agent's records, the refusals and their
      classes, the candidates, films in parts, names and texts (classify.go,
      messages.go, mapping.go, join.go, naming.go, src/pkg/k8s/text.go) in
      [ImportRules]; a file against those it would replace (content.go,
      mapping.go, [gate] of plan.go) in [ImportChecks]; [planFrom] and
      [planDonor] in [ImportPlanning]; the planner's phases and its [Decide] in
      [Importing], computations over a [planner], the summary and the decision.

    - Which transcodes may start (src/app/transcode/admission).  [AdmitSlots]:
      the view of a file (fileview.go), the slot scheduler (admit.go), the class
      a file dispatches to (class.go), what Plex's streams leave of the Intel GPU
      (videolease.go), the graft slots (graft.go), with the records they read.
      [Admission]: the ledger of what is in flight, granted, held and directed,
      a [Ledger] per process: observing files (ledger.go), grants (grants.go),
      pools (pools.go), each profile's window (window.go), the pass over all of
      them ([Pass], pass.go) and the quorum read (rebuild.go).
      [AdmissionFacts.aop] is the system, any sequence of its methods.

    They meet so: [Evaluate] judges the releases of a search, an agent running
    its release half and the manager its item-state half; [Rank] puts the
    approved in order, by scores of [RankScore]; the one taken becomes an entry;
    [Decide] books a command under a sequence number; the ledger admits its
    dispatch and holds a slot for it; the agent answers through the record
    protocol, over a bucket; the answer frees the slot and is what the next pass
    of [Decide] reads.

    A completed entry's import is [Importing.Decide]'s: it owes the agent an
    inspect, then an execute of the plan the inspection comes to, and its
    verdict is what [LcStep.importStep] acts on, imported, blocklisted or failed.

    An imported file's transcode waits for admission: the loop observes its
    status into [Admission], a pass grants it a place or a slot of a class, and
    its planner acts on the grant it takes.

    Dispatches, answers and proposals travel as envelopes on the bus, on the
    subjects and durables of the layout.

    ** How the code is modelled

    [GoLang] is the Go vocabulary: [int64] and [int32] with their wrap-around,
    times as nanoseconds, strings as bytes, the functions of the standard
    library the files call; what depends on the Unicode tables, on JSON, or on a
    map's iteration order is a class, so theorems hold for every instance.
    Likewise the third-party code and the patterns that read text: [TextTables]
    (normal forms of titles), [TagParser] (language tags), [Patterns] (the title
    parser, the custom format catalogue), [Quote] (quoting) and [FloatToInt] (a
    conversion the language leaves open), [WireTime] (a time's text form, which
    reads back for the years it can write); the example instances at the end of
    [Identity] and [Evaluate] serve the witnesses.
    Methods that change their receiver are computations of the state monad [M];
    [wp] is its weakest precondition and [keeps] its relational frames, whose
    rules the proofs apply.  A method that holds its receiver's lock is one
    step.  Where a lock is dropped between two sections, the sections are
    definitions of their own; between the bucket calls of [Records], [env] is
    whatever other processes do.  Errors are values: [None], or the right of a
    sum.  [Admission]'s methods take the ledger and the clock's reading and give
    the ledger after them; what wakes the loop is kept as the list of calls made,
    and a channel that is full drops the wake.  Its runs observe views of
    objects, whose names ([named]) do not change while their UID lives.
    Slices are lists; where the code mutates through an alias that a later
    read sees, the model passes the shared state ([entries_now] of a set's
    entries; [Records.update] of [mutate]'s copy).

    ** What the theorems show

    - The lifecycle ([LcMachine], [LcTerminal], [LcCommands], [LcPass],
      [LcNonces], [LcIntentsFacts], [LcChooseFacts]): [step]
      implements a small machine of phases; an entry leaves a working phase and a
      tombstone is dropped only on the evidence the rules name; a pass keeps
      every live entry, never lets an ended one live again, sends each entry at
      most one command under a fresh sequence number, and books a command for
      every working entry; failures are classed and searched again as owed;
      annotations are parsed back as they are printed and handled once.
    - The ledger ([LedgerSafe], [LedgerAdmit]): it refines a
      table of slots, one operation at a time; a dispatch stays in flight until
      it is answered, forgotten, lapses or the audit finds it ended; no book
      outgrows its budget; a reservation never published leaves no trace;
      re-downloads come first; a rebuild reads exactly what status shows;
      durables turn unattended on evidence of two minutes.
    - [Delivery]: a dead letter is not undone by a late report.
    - [KV]: one update per revision.  [RecordsFacts], [RecordsSafe]: every
      operation of the record protocol is atomic, whatever others do meanwhile;
      so the first answer stands, sequence numbers do not fall, verdicts mean
      what workers take them to mean, and an undisturbed loop ends at once.
    - [Pacer]: slots of a class are spaced by its interval, and a key keeps its
      slot.  [Breaker]: it is its counting specification, probes a recovering
      dependency at the rate it answers, and recovers.
    - [RankScore]: adding the rules' bonuses orders as the rules do one by one,
      and a score is spelled out as it was made.  [Quality]: the ladders name
      each quality once, and upgrades end.  [Rank]: the order is the one stable
      sort, and [Bands]: so it is for what [Evaluate] approves.
    - [Coverage]: a release is read through the scene table first and literally
      second, by each numbering.  [Identity]: a movie or an episode is taken on
      the evidence named and on no other; [IssueNumbers]: issues are compared by
      value.  [EvaluateFacts]: the two halves apart say what one pass says,
      whatever the agent knew of the item.  [Approved]: what a release shows when
      it is approved, and only then.  [Bands]: the reasons of a decision, and the
      band of the results they put it in.
    - The import planner.  [ImportFacts]: an approved plan places and recycles
      only inside the root folder (a donor's apart), each file past every check,
      and a transcoded file is replaced by an automatic grab only under the
      exceptions the gate names.  [ImportParts]: the best file fills each item,
      no two files go to one path or one item, and joining a film's parts loses
      none.  [ImportMachine]: no import stalls; a release is blocklisted only
      after an attempt that failed, and never for a person's import; retries are
      three.
      [ImportTasks]: tasks go out at fresh sequence numbers, an execute with its
      inspection's plan; an imported entry materialises what was placed.
    - Transcode admission.  [AdmitFacts]: exactly the slots the order and the
      limits name are admitted, the classes predicted are those admission then
      takes, and graft slots go to the oldest donors.  [AdmissionFacts], over
      every sequence of the ledger's methods: a pass stays within the slots of
      each class and profile and within each window, fills the window, and
      answers every file that competes; a grant is issued once and ends only in
      the ways named; a file's view never goes back, but for a late view of a
      deleted predecessor; the next pass comes in time.
    - One stream ([StreamFacts]), over every sequence of its operations: a
      delivery budget is never exceeded, a settled delivery is final, a stored
      message stays until the code says it goes, an identifier is stored once a
      window, a work queue's message has one holder, unsettled deliveries stay
      within their cap, repeated claims hand out all that is ready and nothing
      is stuck otherwise, and the stream holds what it counts, within its limit.
      [Slots]: a subscription's handlers are bounded, late ones included.
    - The bus ([MembusFacts]): each of its operations comes to a script of its
      streams' own, named with its order and its branches, so the streams keep
      all of that; what is published can be read back; a refused delivery is
      copied before it is given up, one handed back is settled against a copy or
      not at all; an ensured topology is there whole.  [SettleFacts]: what each error does to a
      delivery; envelopes read back; copies have identifiers of their own.
    - The layout ([Routing], [TopologyFacts], [Validated]): each subject has one
      stream and each task one durable; held messages wait for the broker;
      a topology cut down to a node fits it; [Validate] accepts exactly the
      well-formed.
    - [Events], [NamesFacts]: keys are valid and read back; names are
      valid, within Kubernetes' bounds.

    Each theorem with hypotheses has a witness, at a concrete input.  Lemmas
    named here show where the code, or a comment of it, promises more than it
    does ([LcNonces.invalid_priority_is_silent],
    [LedgerAdmit.answered_dispatch_returns], [LedgerAdmit.failed_reads_unattend],
    [RecordsSafe.update_lowers_seq], [Breaker.stale_success_probes],
    [Quality.upgrades_may_cycle], [Rank.unknown_size_hides_order],
    [Rank.clock_splits_ties], [StreamFacts.aged_stream_refuses],
    [StreamFacts.late_nak_strands], [Validated.probe_hides_depth],
    [PartName.adjacent_part_hidden], [ImportTasks.held_import_ignores_its_execute],
    [ImportTasks.retry_of_flying_execute_is_not_waited_out],
    [AdmitFacts.duplicate_keys_depend_on_order],
    [EvaluateFacts.halves_part], [ImportMachine.fault_after_transient],
    [AdmissionFacts.open_counts_differ],
    [AdmissionFacts.late_predecessor_frees_slot]).

    ** Bounds and fuel

    Loops over slices and maps are structural.  [dec_loop] has one step of fuel
    per binary digit, more than the decimal digits it prints ([GoFacts]).
    [group_loop] has a step per character, [round_log10] one per power of ten
    up to 2^31, [co_split] one per character of a credit.  [Records.attempts] has the code's own bound, [CASAttempts].  Sequence
    numbers and counters are [int64] with wrap-around where the code adds to
    them ([nextSeq_fresh], [budgetOf]); a bucket's revisions, a stream's
    sequence numbers and its attempts are unbounded; admission's counts of slots
    are [int32] with wrap-around, and its theorems ask for fewer files than
    overflow one.  [scale_loop] has a turn
    per stream and one more: each turn but the last floors one stream at least
    ([TopologyFacts.single_node_fits] shows it ends).

    ** What is not modelled, and why

    Metrics, logs and the filing of Kubernetes Events, which change no state the
    code reads back.  The controllers around these parts read and write the API
    server and call the functions modelled here.  The NATS bus, which the in-memory bus is kept equal
    to, the torrent and
    usenet engines, indexer, subtitle and metadata clients and everything around
    ffmpeg are I/O over third-party code.  Release parsing is built on Go's
    regular expressions.  Generated code (deepcopy, apply configurations, templ
    views) repeats its source.

    Of an import: the agent, which walks, probes, links and recycles files.

    Of transcode admission: what a pass is given, the pools held ([Holding]
    reads their Jobs), the node reports and Plex's lease; its gauges; and the
    sweep of tasks and durables, which only calls the broker.  A rebuild is
    modelled undisturbed; each observation it makes is a step of the system, so
    the theorems hold with others' calls between them.

    Of the in-memory bus: the timers of its goroutines (a pass of the consume
    loop is a step), the waiting of Close and Drain, watchers, request and reply
    (rpc.go), and the objects of an object store.

    Left for later: movies released in parts (parts.go), a profile's making from
    its resource (FromCRD), the remediation planners, the transcode planner, the
    indexers' limits. *)

From Stdlib Require Export ZArith Lia.
From stdpp Require Export base tactics numbers gmap strings list option.

Open Scope Z_scope.

(** ** Functional record update

    [r <| f := v |>] is the record [r] with field [f] replaced, the model of
    the Go assignment [r.f = v].  A record type gives an [Eta] instance, its
    constructor applied to its own projections; [derive_setter] abstracts one
    projection of it. *)

Class Eta (R : Type) := eta_of : R -> R.
Class Setter {R T : Type} (p : R -> T) := upd : (T -> T) -> R -> R.

Ltac derive_setter :=
  lazymatch goal with
  | |- @Setter ?R ?T ?p =>
      let f := fresh "f" in let r := fresh "r" in
      intros f r;
      let t := eval hnf in (@eta_of R _ r) in
      let ab := eval pattern (p r) in t in
      lazymatch ab with
      | ?g _ => let u := eval cbv beta in (g (f (p r))) in exact u
      end
  end.

Declare Scope upd_scope.
Delimit Scope upd_scope with upd.
Notation "r <| p := v |>" := (@upd _ _ p _ (fun _ => v) r)
  (at level 1, left associativity, format "r  <| p  :=  v |>") : upd_scope.
Notation "r <| p ::= f |>" := (@upd _ _ p _ f r)
  (at level 1, left associativity, format "r  <| p  ::=  f |>") : upd_scope.
Open Scope upd_scope.

(** ** A state monad

    The program's planners are methods on a mutable receiver.  [M S A] is a
    computation over the state [S] that answers an [A]. *)

Definition M (S A : Type) : Type := S -> A * S.

Definition ret {S A} (a : A) : M S A := fun s => (a, s).
Definition bind {S A B} (m : M S A) (k : A -> M S B) : M S B :=
  fun s => let '(a, s') := m s in k a s'.
Definition gets {S A} (f : S -> A) : M S A := fun s => (f s, s).
Definition modify {S} (f : S -> S) : M S unit := fun s => (tt, f s).
Definition when {S} (b : bool) (m : M S unit) : M S unit :=
  if b then m else ret tt.

Declare Scope monad_scope.
Delimit Scope monad_scope with monad.
Notation "x <- m ;; k" := (bind m (fun x => k))
  (at level 100, m at next level, right associativity) : monad_scope.
Notation "m ;; k" := (bind m (fun _ => k))
  (at level 100, right associativity) : monad_scope.

(** ** Weakest preconditions

    [wp m Q s]: running [m] in [s] answers [a] in a state [s'] with [Q a s'].
    The rules are used by [wp_step], which walks a computation. *)

Definition wp {S A} (m : M S A) (Q : A -> S -> Prop) (s : S) : Prop :=
  Q (fst (m s)) (snd (m s)).

Section WP.
Context {S A B : Type}.
Implicit Types s : S.

Lemma wp_ret (a : A) (Q : A -> S -> Prop) s : Q a s -> wp (ret a) Q s.
Proof. done. Qed.

Lemma wp_bind (m : M S A) (k : A -> M S B) Q s :
  wp m (fun a => wp (k a) Q) s -> wp (bind m k) Q s.
Proof. unfold wp, bind. by destruct (m s). Qed.

Lemma wp_gets (f : S -> A) Q s : Q (f s) s -> wp (gets f) Q s.
Proof. done. Qed.

Lemma wp_modify (f : S -> S) Q s : Q tt (f s) -> wp (modify f) Q s.
Proof. done. Qed.

Lemma wp_when (b : bool) (m : M S unit) Q s :
  (b = true -> wp m Q s) -> (b = false -> Q tt s) -> wp (when b m) Q s.
Proof. destruct b; intros H1 H2; [by apply H1 | by apply H2]. Qed.

Lemma wp_mono (m : M S A) (P Q : A -> S -> Prop) s :
  wp m P s -> (forall a s', P a s' -> Q a s') -> wp m Q s.
Proof. unfold wp. auto. Qed.

Lemma wp_and (m : M S A) (P Q : A -> S -> Prop) s :
  wp m P s -> wp m Q s -> wp m (fun a s' => P a s' /\ Q a s') s.
Proof. unfold wp. auto. Qed.

(** A postcondition that holds of every outcome. *)
Lemma wp_any (m : M S A) (Q : A -> S -> Prop) s : (forall a s', Q a s') -> wp m Q s.
Proof. unfold wp. auto. Qed.

Lemma wp_iff (m : M S A) (Q : A -> S -> Prop) s : wp m Q s <-> Q (fst (m s)) (snd (m s)).
Proof. done. Qed.

Lemma wp_run (m : M S A) (Q : A -> S -> Prop) s a s' :
  wp m Q s -> m s = (a, s') -> Q a s'.
Proof. unfold wp. intros H E. by rewrite E in H. Qed.
End WP.

(** ** Relational frames

    [keeps R m]: whatever state [m] runs in, [R] relates it to the state it
    leaves.  For a preorder [R] the rule of sequencing is transitivity, so a
    frame of a long computation follows from those of its primitive steps;
    [keeps] proves it with the hints of the database of that name. *)

Definition keeps {S A} (R : S -> S -> Prop) (m : M S A) : Prop :=
  forall s, R s (snd (m s)).

(** [keeps_one R R1 m]: a computation made of [R]-steps and at most one
    [R1]-step; [R1] absorbs [R] on both sides. *)
Class Absorbs {S} (R R1 : S -> S -> Prop) := {
  absorb_sub : forall s t, R s t -> R1 s t;
  absorb_l : forall s t u, R s t -> R1 t u -> R1 s u;
  absorb_r : forall s t u, R1 s t -> R t u -> R1 s u;
}.

Section Keeps.
Context {S A B : Type} (R : S -> S -> Prop).

Lemma keeps_ret `{!Reflexive R} (a : A) : keeps R (ret a).
Proof. by intros s. Qed.

Lemma keeps_gets `{!Reflexive R} (f : S -> A) : keeps R (gets f).
Proof. by intros s. Qed.

Lemma keeps_modify (f : S -> S) : (forall s, R s (f s)) -> keeps R (modify f).
Proof. by intros H s. Qed.

Lemma keeps_bind `{!Transitive R} (m : M S A) (k : A -> M S B) :
  keeps R m -> (forall a, keeps R (k a)) -> keeps R (bind m k).
Proof.
  intros Hm Hk s. unfold bind. specialize (Hm s). destruct (m s) as [a s'].
  etransitivity; [exact Hm | apply Hk].
Qed.

Lemma keeps_when `{!Reflexive R} (b : bool) (m : M S unit) : keeps R m -> keeps R (when b m).
Proof. intros Hm s. destruct b; [apply Hm | cbn; reflexivity]. Qed.

Lemma keeps_bind_l (R1 : S -> S -> Prop) `{!Absorbs R R1} (m : M S A) (k : A -> M S B) :
  keeps R m -> (forall a, keeps R1 (k a)) -> keeps R1 (bind m k).
Proof.
  intros Hm Hk s. unfold bind. specialize (Hm s). destruct (m s) as [a s'].
  eapply absorb_l; [exact Hm | apply Hk].
Qed.

Lemma keeps_bind_r (R1 : S -> S -> Prop) `{!Absorbs R R1} (m : M S A) (k : A -> M S B) :
  keeps R1 m -> (forall a, keeps R (k a)) -> keeps R1 (bind m k).
Proof.
  intros Hm Hk s. unfold bind. specialize (Hm s). destruct (m s) as [a s'].
  eapply absorb_r; [exact Hm | apply Hk].
Qed.

Lemma keeps_sub (R1 : S -> S -> Prop) `{!Absorbs R R1} (m : M S A) :
  keeps R m -> keeps R1 m.
Proof. intros Hm s. apply (absorb_sub (R := R)), Hm. Qed.

Lemma wp_keeps (m : M S A) (Q : A -> S -> Prop) s :
  keeps R m -> (forall a s', R s s' -> Q a s') -> wp m Q s.
Proof. intros Hm HQ. apply HQ, Hm. Qed.
End Keeps.

Create HintDb keeps.
#[export] Hint Resolve keeps_ret keeps_gets : keeps.

(** Case analysis on whatever a computation branches on. *)
Ltac keeps_step :=
  intros;
  lazymatch goal with
  | |- keeps _ (bind _ _) => apply keeps_bind; [try typeclasses eauto | |]
  | |- keeps _ (ret _) => apply keeps_ret; try typeclasses eauto
  | |- keeps _ (gets _) => apply keeps_gets; try typeclasses eauto
  | |- keeps _ (when _ _) => apply keeps_when; [try typeclasses eauto |]
  | |- keeps _ (match ?x with _ => _ end) => destruct x
  | |- keeps _ (let '(_, _) := ?x in _) => destruct x
  end.

Ltac keeps := repeat first [solve [eauto 2 with keeps typeclass_instances] | keeps_step].

(** ** Booleans and case analysis *)

Ltac bools :=
  repeat match goal with
  | H : _ && _ = true |- _ => apply andb_prop in H; destruct H
  | H : _ || _ = false |- _ => apply orb_false_elim in H; destruct H
  | H : negb _ = true |- _ => apply negb_true_iff in H
  | H : negb _ = false |- _ => apply negb_false_iff in H
  | H : bool_decide _ = true |- _ => apply bool_decide_eq_true in H
  | H : bool_decide _ = false |- _ => apply bool_decide_eq_false in H
  | H : String.eqb _ _ = true |- _ => apply String.eqb_eq in H
  | H : String.eqb _ _ = false |- _ => apply String.eqb_neq in H
  | H : (_ =? _) = true |- _ => apply Z.eqb_eq in H
  | H : (_ =? _) = false |- _ => apply Z.eqb_neq in H
  | H : (_ <? _) = true |- _ => apply Z.ltb_lt in H
  | H : (_ <? _) = false |- _ => apply Z.ltb_ge in H
  | H : (_ <=? _) = true |- _ => apply Z.leb_le in H
  | H : (_ <=? _) = false |- _ => apply Z.leb_gt in H
  end.

(** ** Walking a computation

    [wp_step] applies a rule of [wp], or splits on a branch; an operation that
    is not one of the monad's is left, for its lemma of the form
    [(forall s', fact about s' -> Q a s') -> wp m Q s].  [wp] is opaque, so that
    such a lemma applies to the operation and to nothing its proof goal
    unfolds to. *)

#[global] Opaque wp.

Ltac wp_step :=
  lazymatch goal with
  | |- wp (bind _ _) _ _ => apply wp_bind
  | |- wp (ret _) _ _ => apply wp_ret
  | |- wp (gets _) _ _ => apply wp_gets
  | |- wp (modify _) _ _ => apply wp_modify
  | |- wp (when _ _) _ _ => apply wp_when; intros
  | |- wp (match ?x with _ => _ end) _ _ => destruct x eqn:?
  | |- wp (let '(_, _) := ?x in _) _ _ => destruct x eqn:?
  end.

Lemma run_bind {S A B} (m : M S A) (k : A -> M S B) s :
  bind m k s = k (fst (m s)) (snd (m s)).
Proof. unfold bind. by destruct (m s). Qed.

Lemma run_answer {S A} (m : M S A) s a : fst (m s) = a -> m s = (a, snd (m s)).
Proof. intros <-. apply surjective_pairing. Qed.
