(* ===== verification/GoLang.v ===== *)
(** * The Go vocabulary the program is written in

    Fixed-width integers, [time.Time] and [time.Duration], and the functions
    of the standard [strings], [unicode/utf8], [fmt] and [encoding/hex]
    packages that the modelled files call.

    A Go string is a byte string, here Stdlib's [string] (a list of 8-bit
    [ascii]).  The functions of [strings] that consult the Unicode tables do so
    only for bytes above 127; that part is the class [Unicode], an argument of
    the definitions that need it. *)

From S2P Require Import Prelude.
From Stdlib Require Import Ascii Sorted.

(** ** Fixed-width integers *)

Definition two_p63 : Z := 9223372036854775808.
Definition two_p31 : Z := 2147483648.

(** Two's-complement wrap-around of [int64] and [int32]. *)
Definition wrap64 (z : Z) : Z := (z + two_p63) mod (2 * two_p63) - two_p63.
Definition wrap32 (z : Z) : Z := (z + two_p31) mod (2 * two_p31) - two_p31.

Definition MaxInt64 : Z := two_p63 - 1.
Definition MinInt64 : Z := - two_p63.
Definition MinInt32 : Z := - two_p31.

Definition is_int64 (z : Z) : Prop := MinInt64 <= z <= MaxInt64.
Definition is_int32 (z : Z) : Prop := - two_p31 <= z < two_p31.

Lemma wrap64_id z : is_int64 z -> wrap64 z = z.
Proof.
  unfold is_int64, wrap64, MinInt64, MaxInt64, two_p63. intros.
  rewrite Z.mod_small; lia.
Qed.

Lemma wrap64_range z : is_int64 (wrap64 z).
Proof.
  unfold is_int64, wrap64, MinInt64, MaxInt64, two_p63.
  pose proof (Z.mod_pos_bound (z + 9223372036854775808) (2 * 9223372036854775808)).
  lia.
Qed.

Lemma wrap32_id z : is_int32 z -> wrap32 z = z.
Proof.
  unfold is_int32, wrap32, two_p31. intros. rewrite Z.mod_small; lia.
Qed.

Lemma wrap32_range z : is_int32 (wrap32 z).
Proof.
  unfold is_int32, wrap32, two_p31.
  pose proof (Z.mod_pos_bound (z + 2147483648) (2 * 2147483648)). lia.
Qed.

(** ** Time

    A [time.Time] is a count of nanoseconds since Go's zero time, 1 January of
    year 1 UTC, so [IsZero] is [t = 0] and every [.UTC()] is the identity.  A
    [time.Duration] is an [int64] of nanoseconds; [Time.Sub] saturates. *)

Abbreviation Time := Z (only parsing).
Abbreviation Duration := Z (only parsing).

Definition Nanosecond : Duration := 1.
Definition Microsecond : Duration := 1000.
Definition Millisecond : Duration := 1000000.
Definition Second : Duration := 1000000000.
Definition Minute : Duration := 60000000000.
Definition Hour : Duration := 3600000000000.

(** Seconds from the zero time to the Unix epoch ([time.unixToInternal]). *)
Definition unixToInternal : Z := 62135596800.

Definition IsZero (t : Time) : bool := t =? 0.
Definition UnixMilli (t : Time) : Z := wrap64 (t / Millisecond - unixToInternal * 1000).
Definition Add (t : Time) (d : Duration) : Time := t + d.
Definition Sub (t u : Time) : Duration := Z.max MinInt64 (Z.min MaxInt64 (t - u)).
Definition Before (t u : Time) : bool := t <? u.
Definition After (t u : Time) : bool := u <? t.
Definition Equal (t u : Time) : bool := t =? u.

Lemma Sub_exact t u : is_int64 (t - u) -> Sub t u = t - u.
Proof. unfold Sub, is_int64. lia. Qed.

(** Comparing a saturated difference with a representable duration is
    comparing the difference itself. *)
Lemma Sub_lt t u d : is_int64 d -> d <> MaxInt64 -> d <> MinInt64 ->
  (Sub t u < d <-> t - u < d).
Proof. unfold Sub, is_int64, MaxInt64, MinInt64, two_p63. lia. Qed.

Lemma Sub_gt t u d : is_int64 d -> d <> MaxInt64 -> d <> MinInt64 ->
  (d < Sub t u <-> d < t - u).
Proof. unfold Sub, is_int64, MaxInt64, MinInt64, two_p63. lia. Qed.

(** ** Characters *)

Definition byte_of (a : ascii) : Z := Z.of_N (N_of_ascii a).
Definition ascii_of (z : Z) : ascii := ascii_of_N (Z.to_N z).

Definition in_range (lo hi : Z) (a : ascii) : bool :=
  (lo <=? byte_of a) && (byte_of a <=? hi).

Definition is_digit : ascii -> bool := in_range 48 57.
Definition is_upper : ascii -> bool := in_range 65 90.
Definition is_lower : ascii -> bool := in_range 97 122.
Definition is_alnum (a : ascii) : bool := is_digit a || is_upper a || is_lower a.

Definition lower_ascii (a : ascii) : ascii :=
  if is_upper a then ascii_of (byte_of a + 32) else a.

(** [strings.asciiSpace]: tab, newline, vertical tab, form feed, carriage
    return and space. *)
Definition ascii_space (a : ascii) : bool :=
  in_range 9 13 a || (byte_of a =? 32).

(** [utf8.RuneStart]: not a continuation byte. *)
Definition RuneStart (a : ascii) : bool := negb (Z.land (byte_of a) 192 =? 128).

(** ** Strings *)

Fixpoint str_map (f : ascii -> ascii) (s : string) : string :=
  match s with
  | EmptyString => EmptyString
  | String a s' => String (f a) (str_map f s')
  end.

Fixpoint str_forall (p : ascii -> bool) (s : string) : bool :=
  match s with
  | EmptyString => true
  | String a s' => p a && str_forall p s'
  end.

Fixpoint str_take (n : nat) (s : string) : string :=
  match n, s with
  | S k, String a s' => String a (str_take k s')
  | _, _ => EmptyString
  end.

Fixpoint str_drop (n : nat) (s : string) : string :=
  match n, s with
  | S k, String _ s' => str_drop k s'
  | _, _ => s
  end.

Definition str_nonempty (s : string) : bool :=
  match s with EmptyString => false | _ => true end.

Definition is_ASCII (s : string) : bool := str_forall (in_range 0 127) s.

(** *** Lemmas on strings *)

Lemma app_cons a s t : String a s +:+ t = String a (s +:+ t).
Proof. reflexivity. Qed.

Lemma app_empty t : "" +:+ t = t.
Proof. reflexivity. Qed.

Lemma str_app_nil s : s +:+ "" = s.
Proof. induction s as [| a s IH]; [done |]. by rewrite app_cons, IH. Qed.

Lemma str_forall_app p s t : str_forall p (s +:+ t) = str_forall p s && str_forall p t.
Proof. induction s as [| a s IH]; [done |]. rewrite app_cons. cbn. by rewrite IH, andb_assoc. Qed.

Lemma str_forall_impl (p q : ascii -> bool) s :
  (forall a, p a = true -> q a = true) -> str_forall p s = true -> str_forall q s = true.
Proof. intros Hpq. induction s as [| a s IH]; [done |]. cbn. intros. bools. by rewrite Hpq, IH. Qed.

Lemma str_take_app s t : str_take (String.length s) (s +:+ t) = s.
Proof.
  induction s as [| a s IH]; [by destruct t |].
  rewrite app_cons. cbn. by rewrite IH.
Qed.

Lemma str_drop_app s a t : str_drop (S (String.length s)) (s +:+ String a t) = t.
Proof.
  induction s as [| b s IH]; [by destruct t |].
  rewrite app_cons. cbn [String.length str_drop]. exact IH.
Qed.

Lemma str_length_app s t : String.length (s +:+ t) = (String.length s + String.length t)%nat.
Proof.
  induction s as [| a s IH]; [done |].
  rewrite app_cons. cbn. by rewrite IH.
Qed.

(** What the [strings] functions do with a string that holds a byte above
    127: the Unicode tables, which are data, not code of the program. *)
Class Unicode := {
  unicode_ToLower : string -> string;
  unicode_EqualFold : string -> string -> bool;
  unicode_Fields : string -> list string;
  unicode_TrimSpace : string -> string;
}.

(** A table for evaluating definitions over ASCII text. *)
Definition ascii_unicode : Unicode := {|
  unicode_ToLower := fun s => s; unicode_EqualFold := String.eqb;
  unicode_Fields := fun s => [s]; unicode_TrimSpace := fun s => s |}.

(** [strings.FieldsFunc] for a predicate that holds of ASCII bytes only. *)
Fixpoint fields_func (p : ascii -> bool) (s : string) : list string :=
  match s with
  | EmptyString => []
  | String a s' =>
      if p a then fields_func p s'
      else match s' with
           | EmptyString => [String a EmptyString]
           | String b _ =>
               if p b then String a EmptyString :: fields_func p s'
               else match fields_func p s' with
                    | w :: ws => String a w :: ws
                    | [] => [String a EmptyString]
                    end
           end
  end.

Section Strings.
Context `{Unicode}.

(** [strings.ToLower]. *)
Definition ToLower (s : string) : string :=
  if is_ASCII s then str_map lower_ascii s else unicode_ToLower s.

(** [strings.EqualFold]. *)
Definition EqualFold (s t : string) : bool :=
  if is_ASCII s && is_ASCII t
  then String.eqb (str_map lower_ascii s) (str_map lower_ascii t)
  else unicode_EqualFold s t.

(** [strings.Fields]. *)
Definition Fields (s : string) : list string :=
  if is_ASCII s then fields_func ascii_space s else unicode_Fields s.
End Strings.

(** [strings.Cut] at a one-byte separator. *)
Fixpoint Cut (c : ascii) (s : string) : string * string * bool :=
  match s with
  | EmptyString => (EmptyString, EmptyString, false)
  | String a s' =>
      if Ascii.eqb a c then (EmptyString, s', true)
      else let '(b, r, ok) := Cut c s' in
           if ok then (String a b, r, true) else (s, EmptyString, false)
  end.

(** [strings.Split] at a one-byte separator. *)
Fixpoint Split (c : ascii) (s : string) : list string :=
  match s with
  | EmptyString => [EmptyString]
  | String a s' =>
      if Ascii.eqb a c then EmptyString :: Split c s'
      else match Split c s' with
           | w :: ws => String a w :: ws
           | [] => [String a EmptyString]
           end
  end.

(** [strings.LastIndex] of a one-byte string; [None] is -1. *)
Fixpoint LastIndex (c : ascii) (s : string) : option nat :=
  match s with
  | EmptyString => None
  | String a s' =>
      match LastIndex c s' with
      | Some i => Some (S i)
      | None => if Ascii.eqb a c then Some O else None
      end
  end.

Definition HasPrefix (s p : string) : bool := String.prefix p s.
Definition TrimPrefix (s p : string) : string :=
  if HasPrefix s p then str_drop (String.length p) s else s.

(** [strings.TrimRight] and [strings.TrimLeft] of a set of ASCII bytes. *)
Fixpoint TrimRight (p : ascii -> bool) (s : string) : string :=
  match s with
  | EmptyString => EmptyString
  | String a s' =>
      match TrimRight p s' with
      | EmptyString => if p a then EmptyString else String a EmptyString
      | r => String a r
      end
  end.

Fixpoint TrimLeft (p : ascii -> bool) (s : string) : string :=
  match s with
  | String a s' => if p a then TrimLeft p s' else s
  | EmptyString => EmptyString
  end.

Definition Trim (p : ascii -> bool) (s : string) : string := TrimRight p (TrimLeft p s).

(** [strings.TrimSpace]. *)
Definition TrimSpace `{Unicode} (s : string) : string :=
  if is_ASCII s then Trim ascii_space s else unicode_TrimSpace s.

(** [strings.Join]. *)
Fixpoint Join (l : list string) (sep : string) : string :=
  match l with
  | [] => EmptyString
  | [s] => s
  | s :: l' => s +:+ sep +:+ Join l' sep
  end.

(** ** Cutting on a rune boundary

    The loop [for n > 0 && !utf8.RuneStart(s[n]) { n-- }] that lifecycle's
    [clampString], dispatch's [clamp] and records' [clip] each hold. *)
Fixpoint rune_floor (s : string) (n : nat) : nat :=
  match n with
  | O => O
  | S k => match String.get n s with
           | Some b => if RuneStart b then n else rune_floor s k
           | None => n
           end
  end.

(** ** Decimal numbers ([fmt]'s %d) *)

Definition digit (n : Z) : ascii := ascii_of (48 + n).

(** The digit loop shared by [strconv] and the program's own [itoa]: the low
    digit first, written towards the front.  [n] has at most [log2 n + 1]
    decimal digits, so that much fuel runs the loop to its end. *)
Fixpoint dec_loop (fuel : nat) (n : Z) (acc : string) : string :=
  match fuel with
  | O => acc
  | S k => if 0 <? n then dec_loop k (n / 10) (String (digit (n mod 10)) acc) else acc
  end.

Definition dec_fuel (n : Z) : nat := S (Z.to_nat (Z.log2 n)).

Definition fmt_d (n : Z) : string :=
  if n =? 0 then "0"
  else if n <? 0 then String "-" (dec_loop (dec_fuel (- n)) (- n) "")
  else dec_loop (dec_fuel n) n "".

(** ** [time.Duration.String] *)

(** [fmtFrac]: the fraction of [v] over [10^prec], trailing zeros (and then
    the point) omitted; the rest of [v]. *)
Fixpoint fmtFrac_loop (prec : nat) (v : Z) (print : bool) (acc : string) : bool * string * Z :=
  match prec with
  | O => (print, acc, v)
  | S k =>
      let d := v mod 10 in
      let print := print || negb (d =? 0) in
      fmtFrac_loop k (v / 10) print (if print then String (digit d) acc else acc)
  end.

Definition fmtFrac (v : Z) (prec : nat) (acc : string) : string * Z :=
  let '(print, acc, v) := fmtFrac_loop prec v false acc in
  (if print then String "." acc else acc, v).

Definition micro_sign : string := String (ascii_of 194) (String (ascii_of 181) "").

Definition Duration_String (d : Duration) : string :=
  let u := Z.abs d in
  let body :=
    if u <? Second then
      if u =? 0 then "0s"
      else
        let '(prec, unit) :=
          if u <? Microsecond then (0%nat, "ns")
          else if u <? Millisecond then (3%nat, micro_sign +:+ "s")
          else (6%nat, "ms") in
        let '(s, v) := fmtFrac u prec unit in
        fmt_d v +:+ s
    else
      let '(s, v) := fmtFrac u 9 "s" in
      let s := fmt_d (v mod 60) +:+ s in
      let v := v / 60 in
      if 0 <? v then
        let s := fmt_d (v mod 60) +:+ String "m" s in
        let v := v / 60 in
        if 0 <? v then fmt_d v +:+ String "h" s else s
      else s
  in if d <? 0 then String "-" body else body.

Example Duration_String_day : Duration_String (24 * Hour) = "24h0m0s".
Proof. vm_compute. reflexivity. Qed.
Example Duration_String_frac : Duration_String (Minute + 1500 * Millisecond) = "1m1.5s".
Proof. vm_compute. reflexivity. Qed.
Example Duration_String_ms : Duration_String (1500 * Microsecond) = "1.5ms".
Proof. vm_compute. reflexivity. Qed.

(** ** [encoding/hex] *)

Definition hex_digit (n : Z) : ascii :=
  if n <? 10 then ascii_of (48 + n) else ascii_of (87 + n).

Fixpoint hex_encode (l : list Z) : string :=
  match l with
  | [] => EmptyString
  | b :: l' => String (hex_digit (b / 16)) (String (hex_digit (b mod 16)) (hex_encode l'))
  end.

Fixpoint bytes_of (s : string) : list Z :=
  match s with
  | EmptyString => []
  | String a s' => byte_of a :: bytes_of s'
  end.

(** [hex.fromHexChar]: both cases are read. *)
Definition hex_val (a : ascii) : option Z :=
  if in_range 48 57 a then Some (byte_of a - 48)
  else if in_range 97 102 a then Some (byte_of a - 87)
  else if in_range 65 70 a then Some (byte_of a - 55)
  else None.

(** [hex.DecodeString], [None] for its error. *)
Fixpoint hex_decode (s : string) : option (list Z) :=
  match s with
  | EmptyString => Some []
  | String _ EmptyString => None
  | String h (String l s') =>
      match hex_val h, hex_val l, hex_decode s' with
      | Some a, Some b, Some r => Some (16 * a + b :: r)
      | _, _, _ => None
      end
  end.

(** ** [errors]

    An error is known by the sentinels its chain wraps, which is what
    [errors.Is] asks of it. *)
Definition errors_Is {E : Type} `{EqDecision E} (chain : list E) (target : E) : bool :=
  bool_decide (target ∈ chain).

(** ** [hash/fnv]: 32-bit FNV-1a *)
Definition fnv32a (s : string) : Z :=
  fold_left (fun h b => Z.lxor h b * 16777619 mod (2 * two_p31)) (bytes_of s) 2166136261.

(** ** Maps

    A Go map's iteration order is unspecified.  [RangeOrder] is one choice of
    it, an argument of the definitions that range over a map where the order
    shows; a theorem about them holds for every choice. *)
Class RangeOrder := {
  range : forall {K V : Type} `{Countable K}, gmap K V -> list (K * V);
  range_perm : forall {K V : Type} `{Countable K} (m : gmap K V), range m ≡ₚ map_to_list m;
}.

(** The order stdpp lists a map in, for evaluating definitions. *)
Definition map_order : RangeOrder := {|
  range := fun K V _ _ m => map_to_list m;
  range_perm := fun K V _ _ m => Permutation_refl _;
|}.

(** ** Sorting *)

(** [sort.SliceStable]'s insertion sort: each element in turn moves left past
    the ones it is less than.  [sorted] is kept last element first. *)
Fixpoint sink {A} (lt : A -> A -> bool) (x : A) (sorted : list A) : list A :=
  match sorted with
  | [] => [x]
  | y :: sorted' => if lt x y then y :: sink lt x sorted' else x :: sorted
  end.

Definition SliceStable {A} (lt : A -> A -> bool) (l : list A) : list A :=
  rev (fold_left (fun sorted x => sink lt x sorted) l []).

(** [x] and [y] tie. *)
Definition tied {A} (lt : A -> A -> bool) (x y : A) : bool := negb (lt x y) && negb (lt y x).

(** A stable sort of [l]: nothing follows what it is less than, and what ties
    keeps its order. *)
Definition stable_sort_of {A} (lt : A -> A -> bool) (l out : list A) : Prop :=
  out ≡ₚ l /\ StronglySorted (fun x y => lt y x = false) out /\
  forall x, x ∈ l -> List.filter (tied lt x) out = List.filter (tied lt x) l.
