(* ===== verification/GoFacts.v ===== *)
(** * Facts about the Go vocabulary

    What several components use of decimal numbers, separators, rune
    boundaries and hexadecimal. *)

From stdpp Require Import sorting.
From S2P Require Import Prelude GoLang.
From Stdlib Require Import Ascii.

(** ** Decimal numbers *)

(** A run of decimal digits. *)
Definition digits (s : string) : Prop := str_forall is_digit s = true.

Lemma digit_spec d : 0 <= d < 10 -> is_digit (digit d) = true /\ byte_of (digit d) - 48 = d.
Proof.
  intros Hd. assert (d ∈ seqZ 0 10) as Hin by (apply elem_of_seqZ; lia).
  vm_compute in Hin. repeat (apply elem_of_cons in Hin as [-> | Hin]; [by vm_compute |]).
  by apply not_elem_of_nil in Hin.
Qed.

Lemma dec_loop_digits fuel n acc : 0 <= n -> digits acc -> digits (dec_loop fuel n acc).
Proof.
  revert n acc. induction fuel as [| k IH]; intros n acc Hn Ha; cbn [dec_loop]; [done |].
  destruct (0 <? n); [| done]. apply IH; [apply Z.div_pos; lia |].
  unfold digits. cbn. pose proof (Z.mod_pos_bound n 10).
  destruct (digit_spec (n mod 10)) as [Hd _]; [lia |]. by rewrite Hd.
Qed.

Lemma dec_loop_nonempty fuel n acc : 0 < n -> dec_loop (S fuel) n acc <> "".
Proof.
  assert (forall k m b a, dec_loop k m (String b a) <> "") as Hne.
  { induction k as [| k IH]; intros m b a; cbn [dec_loop]; [done |]. destruct (0 <? m); [apply IH | done]. }
  intros Hn. cbn [dec_loop]. destruct (0 <? n) eqn:E; bools; [apply Hne | lia].
Qed.

(** ** The last separator *)

Lemma LastIndex_digits s : digits s -> LastIndex "-" s = None.
Proof.
  unfold digits. induction s as [| a s IH]; [done |]. cbn. intros Hs. bools. rewrite IH by done.
  destruct (Ascii.eqb a "-") eqn:E; [| done]. apply Ascii.eqb_eq in E as ->. done.
Qed.

Lemma LastIndex_app s t : digits t -> LastIndex "-" (s +:+ String "-" t) = Some (String.length s).
Proof.
  intros Ht. induction s as [| a s IH].
  - change ("" +:+ String "-" t) with (String "-" t). cbn. by rewrite LastIndex_digits.
  - change (String a s +:+ String "-" t) with (String a (s +:+ String "-" t)). cbn. by rewrite IH.
Qed.

(** ** Rune boundaries *)

Definition rune_start_at (s : string) (i : nat) : Prop :=
  exists b, String.get i s = Some b /\ RuneStart b = true.

Lemma rune_floor_spec s n :
  (n < String.length s)%nat ->
  (rune_floor s n <= n)%nat /\
  (rune_floor s n = 0%nat \/ rune_start_at s (rune_floor s n)) /\
  forall i, (rune_floor s n < i <= n)%nat -> ~ rune_start_at s i.
Proof.
  induction n as [| k IH]; intros Hn; cbn [rune_floor].
  - split; [lia |]. split; [by left |]. lia.
  - destruct (String.get (S k) s) as [b |] eqn:Eb.
    + destruct (RuneStart b) eqn:Er.
      * split; [lia |]. split; [right; by exists b | lia].
      * destruct IH as (H1 & H2 & H3); [lia |]. split; [lia |]. split; [done |].
        intros i Hi (b' & Hb' & Hr). destruct (decide (i = S k)) as [-> | Hne]; [congruence |].
        apply (H3 i); [lia | by exists b'].
    + exfalso. revert Hn Eb. generalize (S k). clear. induction s as [| a s IH]; cbn; [lia |].
      intros [| n] Hn; [done |]. cbn. apply IH. lia.
Qed.


(** ** Decimal numbers read back *)

(** The value of a digit string, [n] the value of the digits before it. *)
Fixpoint dec_val (s : string) (n : Z) : Z :=
  match s with
  | EmptyString => n
  | String a s' => dec_val s' (10 * n + (byte_of a - 48))
  end.

Lemma dec_loop_val fuel n acc : 0 <= n < 10 ^ Z.of_nat fuel ->
  dec_val (dec_loop fuel n acc) 0 = dec_val acc n.
Proof.
  revert n acc. induction fuel as [| k IH]; intros n acc Hn.
  - cbn in *. by replace n with 0 by lia.
  - cbn [dec_loop]. destruct (0 <? n) eqn:E; bools; [| by replace n with 0 by lia].
    pose proof (Z.mod_pos_bound n 10). pose proof (Z.div_mod n 10).
    destruct (digit_spec (n mod 10)) as [_ Hv]; [lia |].
    rewrite Nat2Z.inj_succ, Z.pow_succ_r in Hn by lia.
    rewrite IH; [| split; [apply Z.div_pos | apply Z.div_lt_upper_bound]; lia].
    cbn [dec_val]. rewrite Hv. f_equal. lia.
Qed.

Lemma dec_fuel_enough n : 0 < n -> n < 10 ^ Z.of_nat (dec_fuel n).
Proof.
  intros Hn. unfold dec_fuel. pose proof (Z.log2_spec n Hn) as [_ H].
  rewrite Nat2Z.inj_succ, Z2Nat.id by apply Z.log2_nonneg.
  eapply Z.lt_le_trans; [exact H |]. apply Z.pow_le_mono_l. lia.
Qed.

Lemma fmt_d_digits n : 0 <= n -> digits (fmt_d n).
Proof.
  intros Hn. unfold fmt_d. destruct (n =? 0) eqn:E; [done |]. bools.
  replace (n <? 0) with false by lia. by apply dec_loop_digits.
Qed.

Lemma fmt_d_val n : 0 <= n -> dec_val (fmt_d n) 0 = n.
Proof.
  intros Hn. unfold fmt_d. destruct (n =? 0) eqn:E; bools; [by subst |].
  replace (n <? 0) with false by lia.
  rewrite dec_loop_val; [done |]. split; [done |]. apply dec_fuel_enough. lia.
Qed.

Lemma fmt_d_inj n m : 0 <= n -> 0 <= m -> fmt_d n = fmt_d m -> n = m.
Proof. intros Hn Hm H. rewrite <- (fmt_d_val n), <- (fmt_d_val m) by done. by rewrite H. Qed.

(** ** Strings joined by a separator *)

(** [s] does not hold the separator [c]. *)
Definition no_sep (c : ascii) (s : string) : Prop :=
  str_forall (fun a => negb (Ascii.eqb a c)) s = true.

Lemma no_sep_impl (p : ascii -> bool) c s :
  p c = false -> str_forall p s = true -> no_sep c s.
Proof.
  intros Hc. apply str_forall_impl. intros a Ha. destruct (Ascii.eqb a c) eqn:E; [| done].
  apply Ascii.eqb_eq in E as ->. congruence.
Qed.

Lemma Split_last c s : no_sep c s -> Split c s = [s].
Proof.
  unfold no_sep. induction s as [| a s IH]; [done |]. cbn. intros Hs. bools.
  destruct (Ascii.eqb a c); [done |]. by rewrite IH.
Qed.

Lemma Split_sep c s t : no_sep c s -> Split c (s +:+ String c t) = s :: Split c t.
Proof.
  unfold no_sep. intros Hs. induction s as [| a s IH].
  - change ("" +:+ String c t) with (String c t). cbn. by rewrite Ascii.eqb_refl.
  - cbn in Hs. bools. rewrite app_cons. cbn. destruct (Ascii.eqb a c); [done |]. by rewrite IH.
Qed.

Lemma Split_nonempty c s : Split c s <> [].
Proof. destruct s as [| a s]; [done |]. cbn. case_match; [done |]. by case_match. Qed.

Lemma Split_no_sep c s : Forall (no_sep c) (Split c s).
Proof.
  induction s as [| a s IH]; [by repeat constructor |]. cbn. destruct (Ascii.eqb a c) eqn:E; [by constructor |].
  unfold no_sep in *. destruct (Split c s) as [| w ws]; [repeat constructor; cbn; by rewrite E |].
  apply list.Forall_cons in IH as [Hw Hws]. constructor; [| done]. cbn. by rewrite E, Hw.
Qed.

Lemma split_app c s t : Split c (s +:+ String c t) = Split c s ++ Split c t.
Proof.
  induction s as [| a s IH].
  - change ("" +:+ String c t) with (String c t). cbn. by rewrite Ascii.eqb_refl.
  - rewrite app_cons. cbn [Split]. rewrite IH. destruct (Ascii.eqb a c); [done |].
    pose proof (Split_nonempty c s). by destruct (Split c s).
Qed.

(** A joined list of parts splits back. *)
Lemma Split_Join c l : l <> [] -> Forall (no_sep c) l -> Split c (Join l (String c EmptyString)) = l.
Proof.
  induction l as [| x l IH]; [done |]. intros _ Hl. apply list.Forall_cons in Hl as [Hx Hl].
  destruct l as [| y l]; [by apply Split_last |].
  change (Join (x :: y :: l) (String c "")) with (x +:+ String c (Join (y :: l) (String c ""))).
  rewrite Split_sep by done. by rewrite IH.
Qed.

Lemma Cut_sep c s t : no_sep c s -> Cut c (s +:+ String c t) = (s, t, true).
Proof.
  unfold no_sep. intros Hs. induction s as [| a s IH].
  - change ("" +:+ String c t) with (String c t). cbn. by rewrite Ascii.eqb_refl.
  - cbn in Hs. bools. rewrite app_cons. cbn. destruct (Ascii.eqb a c); [done |]. by rewrite IH.
Qed.

Lemma Cut_last c s : no_sep c s -> Cut c s = (s, "", false).
Proof.
  unfold no_sep. induction s as [| a s IH]; [done |]. cbn. intros Hs. bools.
  destruct (Ascii.eqb a c); [done |]. by rewrite IH.
Qed.

(** A run of digits after a dash is told from what precedes it. *)
Lemma dash_digits_inj s s' t t' : digits t -> digits t' ->
  s +:+ String "-" t = s' +:+ String "-" t' -> s = s' /\ t = t'.
Proof.
  intros Ht Ht' H. pose proof (LastIndex_app s t Ht) as HL. rewrite H, LastIndex_app in HL by done.
  injection HL as HL. split.
  - by rewrite <- (str_take_app s (String "-" t)), <- (str_take_app s' (String "-" t')), HL, H.
  - by rewrite <- (str_drop_app s "-" t), <- (str_drop_app s' "-" t'), HL, H.
Qed.

Lemma app_inj_l p s t : p +:+ s = p +:+ t -> s = t.
Proof. induction p as [| a p IH]; [done |]. rewrite !app_cons. intros [= H]. by apply IH. Qed.

Lemma str_app_assoc s t u : (s +:+ t) +:+ u = s +:+ t +:+ u.
Proof. induction s as [| a s IH]; [done |]. by rewrite !app_cons, IH. Qed.

(** What [Cut] answers. *)
Lemma Cut_inv c s a b two : Cut c s = (a, b, two) ->
  if two then s = a +:+ String c b else s = a /\ b = "".
Proof.
  revert a b two. induction s as [| x s IH]; intros a b two; cbn.
  { by intros [= <- <- <-]. }
  destruct (Ascii.eqb x c) eqn:Ex.
  { intros [= <- <- <-]. apply Ascii.eqb_eq in Ex. by subst. }
  destruct (Cut c s) as [[a' b'] ok] eqn:Ec. specialize (IH _ _ _ eq_refl).
  destruct ok; intros [= <- <- <-]; [by rewrite IH, app_cons | done].
Qed.

(** ** The order of strings *)

Lemma ascii_compare_N a b : Ascii.compare a b = (N_of_ascii a ?= N_of_ascii b)%N.
Proof. reflexivity. Qed.

Lemma string_ltb_irrefl s : String.ltb s s = false.
Proof.
  unfold String.ltb. induction s as [| a s IH]; [done |]. cbn [String.compare].
  rewrite ascii_compare_N, N.compare_refl. exact IH.
Qed.

Lemma string_ltb_trans s t u : String.ltb s t = true -> String.ltb t u = true -> String.ltb s u = true.
Proof.
  unfold String.ltb. revert t u. induction s as [| a s IH]; intros [| b t] [| c u]; try done.
  cbn [String.compare]. rewrite !ascii_compare_N.
  destruct (N.compare_spec (N_of_ascii a) (N_of_ascii b)) as [E1 | L1 | G1]; try done;
    destruct (N.compare_spec (N_of_ascii b) (N_of_ascii c)) as [E2 | L2 | G2]; try done;
    destruct (N.compare_spec (N_of_ascii a) (N_of_ascii c)) as [E3 | L3 | G3]; try done; try lia.
  apply IH.
Qed.

Lemma string_ltb_total s t : s <> t -> String.ltb s t = true \/ String.ltb t s = true.
Proof.
  unfold String.ltb. revert t. induction s as [| a s IH]; intros [| b t] Hne; try done; try tauto.
  cbn [String.compare]. rewrite !ascii_compare_N, (N.compare_antisym (N_of_ascii a)).
  destruct (N.compare_spec (N_of_ascii a) (N_of_ascii b)) as [E | L | G]; cbn; try tauto.
  apply IH. intros ->. apply Hne. f_equal. by rewrite <- (ascii_N_embedding a), E, ascii_N_embedding.
Qed.

(** ** Stable sorting *)

Lemma StronglySorted_rev {A} (R : A -> A -> Prop) l :
  StronglySorted R l -> StronglySorted (fun x y => R y x) (rev l).
Proof.
  induction 1 as [| x l _ IH Hx]; cbn; [constructor |]. apply StronglySorted_app_2; [| done | by repeat constructor].
  intros y z Hy ->%list_elem_of_singleton. rewrite list.Forall_forall in Hx. apply Hx.
  apply list_elem_of_In. apply list_elem_of_In in Hy. by apply in_rev.
Qed.

Lemma filter_rev {A} (p : A -> bool) l : List.filter p (rev l) = rev (List.filter p l).
Proof. induction l as [| x l IH]; cbn; [done |]. rewrite List.filter_app, IH. cbn. destruct (p x); cbn; by rewrite ?app_nil_r. Qed.

Lemma sink_perm {A} (lt : A -> A -> bool) x s : sink lt x s ≡ₚ x :: s.
Proof. induction s as [| y s IH]; cbn; [done |]. destruct (lt x y); [| done]. rewrite IH. constructor. Qed.

(** [lt] orders the elements that satisfy [P], up to ties. *)
Section stable.
Context {A : Type} (lt : A -> A -> bool) (P : A -> Prop).
Hypothesis lt_asym : forall x y, P x -> P y -> lt x y = true -> lt y x = false.
Hypothesis lt_cotrans : forall x y z, P x -> P y -> P z -> lt x z = true -> lt x y = true \/ lt y z = true.

Lemma lt_irrefl x : P x -> lt x x = false.
Proof using lt_asym. intros Hx. destruct (lt x x) eqn:E; [| done]. pose proof (lt_asym x x Hx Hx E). congruence. Qed.

Lemma le_trans x y z : P x -> P y -> P z -> lt y x = false -> lt z y = false -> lt z x = false.
Proof using lt_cotrans.
  intros Px Py Pz Hxy Hyz. destruct (lt z x) eqn:E; [| done].
  destruct (lt_cotrans z y x Pz Py Px E); congruence.
Qed.

(** What ties is in the same place. *)
Lemma tied_eq x y z : P x -> P y -> P z -> tied lt x y = true -> tied lt z x = tied lt z y.
Proof using lt_cotrans.
  unfold tied. intros Px Py Pz Hxy. bools.
  assert (forall u v, P u -> P v -> lt u v = false -> lt v u = false -> lt z u = true -> lt z v = true) as Hl.
  { intros u v Pu Pv Huv Hvu Hz. destruct (lt_cotrans z v u Pz Pv Pu Hz); congruence. }
  assert (forall u v, P u -> P v -> lt u v = false -> lt v u = false -> lt u z = true -> lt v z = true) as Hr.
  { intros u v Pu Pv Huv Hvu Hz. destruct (lt_cotrans u v z Pu Pv Pz Hz); congruence. }
  f_equal; f_equal; apply eq_true_iff_eq; split; eauto.
Qed.

Lemma sink_sorted x s : P x -> Forall P s -> StronglySorted (fun y z => lt y z = false) s ->
  StronglySorted (fun y z => lt y z = false) (sink lt x s).
Proof using lt_asym lt_cotrans.
  intros Px HP Hs. induction Hs as [| y s Hs IH Hy]; cbn; [by repeat constructor |]. inversion HP as [| ? ? Py Ps]; subst.
  destruct (lt x y) eqn:E.
  - constructor; [by apply IH |]. rewrite (sink_perm lt x s). constructor; [by apply lt_asym | done].
  - constructor; [by constructor |]. constructor; [done |]. rewrite list.Forall_forall in *.
    intros z Hz. apply (le_trans z y x); auto.
Qed.

Lemma sink_ties x z s : P x -> P z -> Forall P s ->
  List.filter (tied lt z) (sink lt x s) = List.filter (tied lt z) (x :: s).
Proof using lt_asym lt_cotrans.
  intros Px Pz HP. induction HP as [| y s Py Ps IH]; cbn [sink]; [done |]. destruct (lt x y) eqn:E; [| done].
  cbn [List.filter] in IH |- *. rewrite IH. destruct (tied lt z x) eqn:Ex, (tied lt z y) eqn:Ey; try done. exfalso.
  pose proof (tied_eq z x y Pz Px Py Ex) as Hy. unfold tied in Ey, Hy. rewrite E in Hy. cbn in Hy.
  rewrite andb_false_r, andb_comm, Ey in Hy. done.
Qed.

Lemma SliceStable_from l s : Forall P l -> Forall P s -> StronglySorted (fun y z => lt y z = false) s ->
  let s' := fold_left (fun sorted x => sink lt x sorted) l s in
  s' ≡ₚ l ++ s /\ StronglySorted (fun y z => lt y z = false) s' /\
  forall z, P z -> List.filter (tied lt z) s' = List.filter (tied lt z) (rev l ++ s).
Proof using lt_asym lt_cotrans.
  intros HP. revert s. induction HP as [| x l Px Pl IH]; intros s Ps Hs; cbn; [done |].
  assert (Forall P (sink lt x s)) as Ps' by (rewrite (sink_perm lt x s); by constructor).
  destruct (IH _ Ps' (sink_sorted x s Px Ps Hs)) as (Hp & Hsort & Hf). split_and!; [| done |].
  - rewrite Hp, (sink_perm lt x s). symmetry. apply Permutation_middle.
  - intros z Pz. rewrite (Hf z Pz), <- (assoc_L (++)), 2!List.filter_app. f_equal. by apply sink_ties.
Qed.

Lemma SliceStable_sorts l : Forall P l -> stable_sort_of lt l (SliceStable lt l).
Proof using lt_asym lt_cotrans.
  intros HP. destruct (SliceStable_from l [] HP) as (Hp & Hs & Hf); [constructor | constructor |].
  unfold SliceStable. split_and!.
  - etrans; [symmetry; apply Permutation_rev |]. by rewrite Hp, app_nil_r.
  - by apply StronglySorted_rev in Hs.
  - intros x Hx. rewrite filter_rev, Hf, app_nil_r, filter_rev, rev_involutive; [done |].
    rewrite list.Forall_forall in HP. by apply HP.
Qed.

(** There is one stable sort. *)
Lemma stable_sort_unique l m n : Forall P l -> stable_sort_of lt l m -> stable_sort_of lt l n -> m = n.
Proof using lt_asym lt_cotrans.
  intros HP (Hpm & Hsm & Hfm) (Hpn & Hsn & Hfn).
  assert (forall x, P x -> x ∈ m \/ x ∈ n -> List.filter (tied lt x) m = List.filter (tied lt x) n) as Hf.
  { intros x _ Hx. rewrite Hpm, Hpn in Hx. rewrite Hfm, Hfn; tauto. }
  assert (Forall P m) as Pm by by rewrite Hpm. assert (Forall P n) as Pn by by rewrite Hpn.
  clear Hfm Hfn Hpm Hpn HP l. revert n Hsn Pn Hf.
  induction Hsm as [| x m Hsm IH Hx]; intros n Hsn Pn Hf.
  { destruct n as [| y n]; [done |]. inversion Pn as [| ? ? Py ?]; subst.
    specialize (Hf y Py ltac:(right; constructor)). cbn in Hf. unfold tied in Hf. by rewrite lt_irrefl in Hf. }
  inversion Pm as [| ? ? Px Pm']; subst. rewrite list.Forall_forall in Hx.
  pose proof (Hf x Px ltac:(left; constructor)) as Hfx. cbn in Hfx.
  assert (tied lt x x = true) as Hxx by (unfold tied; by rewrite lt_irrefl). rewrite Hxx in Hfx.
  destruct n as [| y n]; [done |]. inversion Pn as [| ? ? Py Pn']; subst.
  inversion Hsn as [| ? ? Hsn' Hy]; subst. rewrite list.Forall_forall in Hy.
  assert (forall (u v : A) (k : list A), u = v \/ u ∈ k -> P v -> (forall w, w ∈ k -> lt w v = false) -> lt u v = false) as Hmin.
  { intros u v k [-> | Hu] Pv Hk; [by apply lt_irrefl | by apply Hk]. }
  assert (x ∈ y :: n) as Hxn.
  { assert (In x (List.filter (tied lt x) (y :: n))) as Hin by (rewrite <- Hfx; by left).
    apply filter_In in Hin as [Hin _]. by apply list_elem_of_In. }
  assert (y ∈ x :: m) as Hym.
  { pose proof (Hf y Py ltac:(right; constructor)) as Hfy.
    assert (In y (List.filter (tied lt y) (x :: m))) as Hin.
    { rewrite Hfy. cbn. unfold tied at 1. rewrite lt_irrefl by done. by left. }
    apply filter_In in Hin as [Hin _]. by apply list_elem_of_In. }
  rewrite elem_of_cons in Hxn, Hym.
  assert (tied lt x y = true) as Hxy.
  { unfold tied. rewrite (Hmin x y n), (Hmin y x m) by (done || tauto). done. }
  cbn in Hfx. rewrite Hxy in Hfx. injection Hfx as <- _. f_equal. apply IH; [done | done | done |].
  intros z Pz Hz. specialize (Hf z Pz). rewrite !elem_of_cons in Hf. cbn in Hf.
  destruct (tied lt z x); [| tauto]. assert (x :: List.filter (tied lt z) m = x :: List.filter (tied lt z) n) as E by tauto.
  by injection E.
Qed.
End stable.
