(* ===== verification/Paths.v ===== *)
(** * Paths: names of files

    [path/filepath] on Unix, as far as the code uses it, over the elements of a
    path; and src/pkg/fsops/under.go, which tells what lies inside a folder. *)

From S2P Require Import Prelude GoLang GoFacts.
From Stdlib Require Import Ascii.

Definition slash : ascii := "/"%char.

(** [filepath.IsAbs]. *)
Definition IsAbs (p : string) : bool := HasPrefix p "/".

(** One element of a path read onto those before it, the last one first. *)
Definition push (rooted : bool) (acc : list string) (c : string) : list string :=
  if String.eqb c "" || String.eqb c "." then acc
  else if String.eqb c ".." then
    match acc with
    | x :: acc' => if String.eqb x ".." then ".." :: acc else acc'
    | [] => if rooted then [] else [".."]
    end
  else c :: acc.

(** The elements [filepath.Clean] leaves. *)
Definition elements (p : string) : list string := rev (fold_left (push (IsAbs p)) (Split slash p) []).

Definition Clean (p : string) : string :=
  if IsAbs p then "/" +:+ Join (elements p) "/"
  else match elements p with [] => "." | e => Join e "/" end.

(** [filepath.Join]. *)
Definition path_join (l : list string) : string :=
  match List.filter str_nonempty l with [] => "" | l => Clean (Join l "/") end.

(** [filepath.Base]. *)
Definition Base (p : string) : string :=
  if String.eqb p "" then "."
  else
    let p := TrimRight (fun a => Ascii.eqb a slash) p in
    if String.eqb p "" then "/" else List.last (Split slash p) "".

(** [filepath.Ext]. *)
Definition Ext (p : string) : string :=
  let b := List.last (Split slash p) "" in
  match LastIndex "." b with Some i => str_drop i b | None => "" end.

(** [strings.TrimSuffix]. *)
Definition HasSuffix (s suf : string) : bool :=
  Nat.leb (String.length suf) (String.length s) && String.eqb (str_drop (String.length s - String.length suf) s) suf.
Definition TrimSuffix (s suf : string) : string :=
  if HasSuffix s suf then str_take (String.length s - String.length suf) s else s.

(** The elements of two paths past their common ones. *)
Fixpoint past_common (b t : list string) : list string * list string :=
  match b, t with
  | x :: b', y :: t' => if String.eqb x y then past_common b' t' else (b, t)
  | _, _ => (b, t)
  end.

(** [filepath.Rel]; [None] is its error. *)
Definition Rel (base targ : string) : option string :=
  let b := Clean base in
  let t := Clean targ in
  if String.eqb t b then Some "."
  else if negb (Bool.eqb (IsAbs b) (IsAbs t)) then None
  else
    let '(rb, rt) := past_common (elements b) (if String.eqb t "." then ["."] else elements t) in
    match rb with
    | [] => Some (Join rt "/")
    | x :: _ =>
        if String.eqb x ".." && negb (bool_decide (rt = [])) then None
        else Some (Join (map (fun _ => "..") rb ++ rt) "/")
    end.

(** [StrictlyUnder] (under.go). *)
Definition StrictlyUnder (path root : string) : bool :=
  if negb (IsAbs path) || negb (IsAbs root) then false
  else
    match Rel (Clean root) (Clean path) with
    | None => false
    | Some rel =>
        if String.eqb rel "." || String.eqb rel ".." then false
        else negb (HasPrefix rel "../")
    end.

Example Clean_dots : Clean "/data/./movies//Heat/../Alien/" = "/data/movies/Alien". Proof. reflexivity. Qed.
Example Clean_up : Clean "a/../../b" = "../b". Proof. reflexivity. Qed.
Example Clean_root : Clean "/../.." = "/". Proof. reflexivity. Qed.
Example Clean_empty : Clean "" = ".". Proof. reflexivity. Qed.
Example Rel_down : Rel "/data" "/data/movies/Heat" = Some "movies/Heat". Proof. reflexivity. Qed.
Example Rel_up : Rel "/data/movies" "/data/tv/Lost" = Some "../tv/Lost". Proof. reflexivity. Qed.
Example Rel_mixed : Rel "data" "/data" = None. Proof. reflexivity. Qed.
Example Ext_dots : Ext "/a.b/Heat.1995.mkv" = ".mkv". Proof. reflexivity. Qed.
Example Base_slash : Base "/a/b/" = "b". Proof. reflexivity. Qed.

(** ** Elements *)

(** An element of a clean path. *)
Definition plain (c : string) : Prop := c <> "" /\ c <> "." /\ no_sep slash c.

Lemma push_plain rooted acc c : Forall plain acc -> no_sep slash c -> Forall plain (push rooted acc c).
Proof.
  intros Ha Hc. unfold push.
  destruct (String.eqb_spec c ""), (String.eqb_spec c "."); cbn; try done.
  destruct (String.eqb_spec c ".."); [| by constructor].
  subst c. assert (plain "..") as Hd by by split_and!.
  destruct acc as [| x acc]; [destruct rooted; by repeat constructor |].
  inversion Ha; subst. destruct (String.eqb x ".."); [by constructor | done].
Qed.

Lemma elements_plain p : Forall plain (elements p).
Proof.
  unfold elements. apply Forall_rev. generalize (Split_no_sep slash p).
  assert (Forall plain ([] : list string)) as Hacc by constructor. revert Hacc.
  generalize ([] : list string). induction (Split slash p) as [| c l IH]; intros acc Hacc Hl; [done |].
  inversion Hl; subst. cbn. apply IH; [by apply push_plain | done].
Qed.

Lemma push_rooted acc c : ".." ∉ acc -> ".." ∉ push true acc c.
Proof.
  unfold push. intros Ha. destruct (_ || _); [done |].
  destruct (String.eqb_spec c "..").
  - destruct acc as [| x acc]; [done |]. destruct (String.eqb_spec x ".."); set_solver.
  - rewrite not_elem_of_cons. by split; [congruence |].
Qed.

(** A rooted path never leads above its root. *)
Lemma elements_rooted p : IsAbs p = true -> ".." ∉ elements p.
Proof.
  intros Hp. unfold elements. rewrite Hp, list_elem_of_In, <- in_rev, <- list_elem_of_In.
  assert (".." ∉ ([] : list string)) as Hacc by set_solver. revert Hacc.
  generalize ([] : list string). induction (Split slash p) as [| c l IH]; intros acc Hacc; [done |].
  apply IH. by apply push_rooted.
Qed.

(** What begins with [p] is [p] and the rest. *)
Lemma HasPrefix_iff s p : HasPrefix s p = true <-> exists t, s = p +:+ t.
Proof.
  unfold HasPrefix. revert s. induction p as [| b p IH]; intros s.
  - split; [by exists s | by destruct s].
  - destruct s as [| a s]; [split; [done | by intros [? [=]]] |]. cbn [String.prefix].
    destruct (ascii_dec b a) as [<- | Hn].
    + rewrite IH. split; intros [t E]; exists t; [by rewrite app_cons, E |]. rewrite app_cons in E. by injection E.
    + split; [done |]. intros [t E]. rewrite app_cons in E. injection E. congruence.
Qed.

Lemma IsAbs_slash p : IsAbs p = true <-> exists q, p = String slash q.
Proof. apply HasPrefix_iff. Qed.

Lemma fold_plain rooted l acc : (rooted = true -> ".." ∉ l) -> (forall c, c ∈ l -> plain c) -> rooted = true ->
  fold_left (push rooted) l acc = rev l ++ acc.
Proof.
  intros Hd Hp ->. specialize (Hd eq_refl). revert acc. induction l as [| c l IH]; intros acc; [done |].
  cbn. rewrite <- app_assoc. cbn. rewrite <- IH by set_solver. f_equal.
  destruct (Hp c) as (H1 & H2 & _); [set_solver |]. unfold push.
  rewrite (proj2 (String.eqb_neq _ _) H1), (proj2 (String.eqb_neq _ _) H2). cbn.
  destruct (String.eqb_spec c ".."); [set_solver | done].
Qed.

(** Cleaning a rooted path again changes nothing. *)
Lemma elements_Clean p : IsAbs p = true -> IsAbs (Clean p) = true /\ elements (Clean p) = elements p.
Proof.
  intros Hp. unfold Clean. rewrite Hp. set (e := elements p).
  assert (IsAbs ("/" +:+ Join e "/") = true) as Ha by by apply IsAbs_slash; eexists.
  split; [done |]. unfold elements. rewrite Ha.
  change ("/" +:+ Join e "/") with (String slash (Join e "/")). cbn [Split Ascii.eqb].
  assert (Ascii.eqb slash slash = true) as -> by done. cbn [fold_left].
  change (push true [] "") with ([] : list string).
  destruct (decide (e = [])) as [-> |]; [done |].
  rewrite Split_Join; [| done |].
  - rewrite fold_plain; [by rewrite app_nil_r, rev_involutive | | | done].
    + intros _. by apply elements_rooted.
    + intros c. apply list.Forall_forall, elements_plain.
  - eapply list.Forall_impl; [apply elements_plain | by intros c (_ & _ & H)].
Qed.

Lemma past_common_spec b t : exists pre, b = pre ++ fst (past_common b t) /\ t = pre ++ snd (past_common b t).
Proof.
  revert t. induction b as [| x b IH]; intros t; [by exists [] |].
  destruct t as [| y t]; [by exists [] |]. cbn. destruct (String.eqb_spec x y) as [-> |]; [| by exists []].
  destruct (IH t) as (pre & E1 & E2). exists (y :: pre). cbn. by split; f_equal.
Qed.

Lemma past_common_prefix b rest : past_common b (b ++ rest) = ([], rest).
Proof. induction b as [| x b IH]; [by destruct rest |]. cbn. by rewrite String.eqb_refl. Qed.

Lemma Join_elements_ne e : e <> [] -> Forall plain e -> ".." ∉ e ->
  Join e "/" <> "." /\ Join e "/" <> ".." /\ HasPrefix (Join e "/") "../" = false.
Proof.
  intros Hne Hp Hd. assert (Split slash (Join e "/") = e) as Hs.
  { apply Split_Join; [done |]. eapply list.Forall_impl; [exact Hp | by intros c (_ & _ & H)]. }
  split_and!.
  - intros E. rewrite E in Hs. cbn in Hs. subst e. inversion Hp as [| ? ? (_ & H & _)]. done.
  - intros E. rewrite E in Hs. cbn in Hs. subst e. set_solver.
  - destruct (HasPrefix (Join e "/") "../") eqn:E; [| done]. exfalso.
    assert (exists t, Join e "/" = "../" +:+ t) as [t Et].
    { by apply HasPrefix_iff in E. }
    rewrite Et in Hs. cbn in Hs. subst e. set_solver.
Qed.

(** What lies strictly inside a folder: both are absolute, and the path's
    elements are the folder's, and some more. *)
Definition inside (path root : string) : Prop :=
  HasPrefix path "/" = true /\ HasPrefix root "/" = true /\ exists rest, rest <> [] /\ elements path = elements root ++ rest.

Lemma StrictlyUnder_iff path root : StrictlyUnder path root = true <-> inside path root.
Proof.
  change (StrictlyUnder path root = true <->
    IsAbs path = true /\ IsAbs root = true /\ exists rest, rest <> [] /\ elements path = elements root ++ rest).
  unfold StrictlyUnder. destruct (IsAbs path) eqn:Hp, (IsAbs root) eqn:Hr; cbn [negb orb];
    [| split; [done | by intros (? & ? & _)] ..].
  destruct (elements_Clean path Hp) as [Hap Ep]. destruct (elements_Clean root Hr) as [Har Er].
  destruct (elements_Clean _ Hap) as [Hap2 Ep2]. destruct (elements_Clean _ Har) as [Har2 Er2].
  unfold Rel. rewrite Hap2, Har2. cbn [Bool.eqb negb].
  assert (Clean (Clean path) <> ".") as Hnd.
  { intros E. rewrite E in Hap2. done. }
  rewrite (proj2 (String.eqb_neq _ _) Hnd), Er2, Ep2, Er, Ep.
  destruct (String.eqb_spec (Clean (Clean path)) (Clean (Clean root))) as [E |].
  - split; [done |]. intros (_ & _ & rest & Hne & Erest).
    assert (elements path = elements root) as E2 by by rewrite <- Ep, <- Ep2, E, Er2.
    rewrite E2 in Erest. rewrite <- (app_nil_r (elements root)) in Erest at 1. apply app_inv_head in Erest. by subst.
  - destruct (past_common_spec (elements root) (elements path)) as (pre & Eb & Et).
    destruct (past_common (elements root) (elements path)) as [rb rt] eqn:Epc. cbn in Eb, Et.
    destruct rb as [| x rb].
    + rewrite app_nil_r in Eb. subst pre.
      assert (rt <> []) as Hrt.
      { intros ->. rewrite app_nil_r in Et. apply n. unfold Clean at 1 3. rewrite Hap, Har, Ep, Er. congruence. }
      destruct (Join_elements_ne rt) as (H1 & H2 & H3); [done | | |].
      { pose proof (elements_plain path) as H. rewrite Et in H. by apply Forall_app in H as [_ H]. }
      { pose proof (elements_rooted path Hp) as H. rewrite Et in H. set_solver. }
      rewrite (proj2 (String.eqb_neq _ _) H1), (proj2 (String.eqb_neq _ _) H2), H3. cbn.
      split; [intros _; by eauto | done].
    + split.
      * destruct (String.eqb x ".." && negb (bool_decide (rt = []))); [done |]. cbn [map app].
        intros H. exfalso. destruct (map (fun _ => "..") rb ++ rt) as [| y l]; [done |].
        assert (HasPrefix ("../" +:+ Join (y :: l) "/") "../" = true) as E by (apply HasPrefix_iff; by eexists).
        change (Join (".." :: y :: l) "/") with ("../" +:+ Join (y :: l) "/") in H. rewrite E in H. done.
      * intros (_ & _ & rest & Hne & Erest). rewrite Erest, past_common_prefix in Epc. done.
Qed.

(** What lies under a folder that lies under another lies under that one. *)
Lemma StrictlyUnder_trans a b c : StrictlyUnder a b = true -> StrictlyUnder b c = true -> StrictlyUnder a c = true.
Proof.
  rewrite !StrictlyUnder_iff. intros (Ha & _ & r1 & H1 & E1) (_ & Hc & r2 & H2 & E2). split_and!; [done | done |].
  exists (r2 ++ r1). split; [by destruct r2 |]. by rewrite E1, E2, app_assoc.
Qed.
