(* ===== verification/PartName.v ===== *)
(** * PartName: the part a name carries

    src/pkg/release/part.go: the last token of a name that numbers a part of a
    film, as the code's regular expression reads it. *)

From S2P Require Import Prelude GoLang GoFacts.
From Stdlib Require Import Ascii.

(** The case-insensitive match of one lower-case letter, with the two letters
    beyond ASCII that fold onto s and k (U+017F, U+212A). *)
Definition fold_char (c : ascii) (s : string) : option string :=
  match s with
  | EmptyString => None
  | String a t =>
      if Ascii.eqb (lower_ascii a) c then Some t
      else
        match t with
        | String b t' =>
            if Ascii.eqb c "s" && (byte_of a =? 197) && (byte_of b =? 191) then Some t'
            else
              match t' with
              | String d t'' =>
                  if Ascii.eqb c "k" && (byte_of a =? 226) && (byte_of b =? 132) && (byte_of d =? 170) then Some t'' else None
              | EmptyString => None
              end
        | EmptyString => None
        end
  end.

Fixpoint fold_word (w s : string) : option string :=
  match w with
  | EmptyString => Some s
  | String c w => match fold_char c s with Some s => fold_word w s | None => None end
  end.

Definition lead_char (a : ascii) : bool := existsb (Ascii.eqb a) [" "; "."; "_"; "-"; "["; "("]%char.
Definition gap_char (a : ascii) : bool := existsb (Ascii.eqb a) [" "; "."; "_"; "-"]%char.
Definition trail_char (a : ascii) : bool := existsb (Ascii.eqb a) [" "; "."; "_"; "-"; "]"; ")"]%char.

(** What follows the word: a separator, a zero, the number and what ends the
    token; the number, the end and the rest. *)
Definition part_tail (s : string) : option (Z * string * string) :=
  let s := match s with String a t => if gap_char a then t else s | EmptyString => s end in
  let s := match s with String a t => if Ascii.eqb a "0" then t else s | EmptyString => s end in
  match s with
  | EmptyString => None
  | String a t =>
      if negb (in_range 49 57 a) then None
      else
        match t with
        | EmptyString => Some (byte_of a - 48, "", "")
        | String b t' => if trail_char b then Some (byte_of a - 48, String b "", t') else None
        end
  end.

Fixpoint part_words (ws : list string) (s : string) : option (Z * string * string) :=
  match ws with
  | [] => None
  | w :: ws =>
      match (match fold_word w s with Some t => part_tail t | None => None end) with
      | Some r => Some r
      | None => part_words ws s
      end
  end.
Definition part_body : string -> option (Z * string * string) := part_words ["part"; "pt"; "cd"; "disc"; "disk"].

(** The first match in [s]: how many bytes it begins after, its leading
    separator, its number, its trailing one and the rest; [first] at the start
    of the name. *)
Fixpoint find_part (first : bool) (s : string) : option (nat * string * Z * string * string) :=
  match (if first then part_body s else None) with
  | Some (n, trail, rest) => Some (O, "", n, trail, rest)
  | None =>
      match s with
      | EmptyString => None
      | String a t =>
          match (if lead_char a then part_body t else None) with
          | Some (n, trail, rest) => Some (O, String a "", n, trail, rest)
          | None =>
              match find_part false t with
              | Some (k, lead, n, trail, rest) => Some (S k, lead, n, trail, rest)
              | None => None
              end
          end
      end
  end.

(** The last of the matches, where it begins, and what follows it.  Each match
    takes two bytes at least, so a match per byte is enough. *)
Fixpoint last_part (fuel : nat) (name : string) (first : bool) (s : string) : option (nat * string * Z * string * string) :=
  match fuel with
  | O => None
  | S fuel =>
      match find_part first s with
      | None => None
      | Some (k, lead, n, trail, rest) =>
          match last_part fuel name false rest with
          | Some r => Some r
          | None => Some ((String.length name - String.length s + k)%nat, lead, n, trail, rest)
          end
      end
  end.

(** [PartOf]: the name without the token, and the part. *)
Definition PartOf (name : string) : option (string * Z) :=
  match last_part (S (String.length name)) name true name with
  | None => None
  | Some (i, lead, n, trail, rest) =>
      let keep := if negb (String.eqb lead "") && negb (String.eqb trail "") then lead else "" in
      Some (str_take i name +:+ keep +:+ rest, n)
  end.

Example PartOf_movie : PartOf "28.Up.1984.Part1.1080p.BluRay" = Some ("28.Up.1984.1080p.BluRay", 1). Proof. reflexivity. Qed.
Example PartOf_disc : PartOf "Film (DISC 2)" = Some ("Film (", 2). Proof. reflexivity. Qed.
Example PartOf_last : PartOf "Che.Part.1.2008.CD2" = Some ("Che.Part.1.2008", 2). Proof. reflexivity. Qed.
Example PartOf_start : PartOf "pt03.mkv" = Some ("mkv", 3). Proof. reflexivity. Qed.
Example PartOf_word : PartOf "Department 7" = None. Proof. reflexivity. Qed.

(** Two tokens side by side share their separator, which the first one takes:
    the last one is not read. *)
Lemma adjacent_part_hidden : PartOf "Che.Part.1.CD2" = Some ("Che.CD2", 1).
Proof. reflexivity. Qed.

(** ** Parts are numbered 1 to 9 *)

Lemma part_tail_range s n t r : part_tail s = Some (n, t, r) -> 1 <= n <= 9.
Proof.
  unfold part_tail. repeat (case_match; try done); intros [= <- <- <-]; unfold in_range in *; bools; lia.
Qed.

Lemma part_words_range ws s n t r : part_words ws s = Some (n, t, r) -> 1 <= n <= 9.
Proof.
  induction ws as [| w ws IH]; [done |]. cbn. destruct (fold_word w s) as [s' |]; [| done].
  destruct (part_tail s') as [[[m u] v] |] eqn:E; [| done]. intros [= <- <- <-]. by eapply part_tail_range.
Qed.

Lemma find_part_range first s k l n t r : find_part first s = Some (k, l, n, t, r) -> 1 <= n <= 9.
Proof.
  revert first k. induction s as [| a s IH]; intros first k; cbn [find_part].
  - by destruct first.
  - destruct (if first then _ else _) as [[[m u] v] |] eqn:E.
    { intros [= <- <- <- <- <-]. destruct first; [| done]. by eapply part_words_range. }
    destruct (if lead_char a then _ else _) as [[[m u] v] |] eqn:E2.
    { intros [= <- <- <- <- <-]. destruct (lead_char a); [| done]. by eapply part_words_range. }
    destruct (find_part false s) as [[[[[k' l'] m] u] v] |] eqn:E3; [| done].
    intros [= <- <- <- <- <-]. by eapply IH.
Qed.

Lemma last_part_range fuel name first s i l n t r : last_part fuel name first s = Some (i, l, n, t, r) -> 1 <= n <= 9.
Proof.
  revert first s. induction fuel as [| fuel IH]; intros first s; [done |]. cbn [last_part].
  destruct (find_part first s) as [[[[[k l'] m'] t'] r'] |] eqn:Ef; [| done].
  destruct (last_part fuel name false r') as [x |] eqn:El.
  - intros [= ->]. by eapply IH.
  - intros [= <- <- <- <- <-]. by eapply find_part_range.
Qed.

Lemma PartOf_range name base n : PartOf name = Some (base, n) -> 1 <= n <= 9.
Proof.
  unfold PartOf. destruct (last_part _ name true name) as [[[[[i l] m] t] r] |] eqn:E; [| done]. intros [= _ <-].
  by eapply last_part_range.
Qed.
