(* ===== verification/Sha.v ===== *)
(** * SHA-1 and SHA-256

    [crypto/sha1] and [crypto/sha256] as FIPS 180-4 defines them, over lists of
    bytes.  [names.HashSuffix] and [names.HashOrdinal] hash with SHA-1;
    [lifecycle.hashOf] and [v1alpha1.HandledNonce] with SHA-256. *)

From S2P Require Import Prelude GoLang.
From Stdlib Require Import Ascii.

(** ** 32-bit words *)

Definition w32 (z : Z) : Z := z mod 4294967296.
Definition add32 (x y : Z) : Z := w32 (x + y).
Definition not32 (x : Z) : Z := Z.lxor x 4294967295.
Definition rotl (n x : Z) : Z := Z.lor (w32 (Z.shiftl x n)) (Z.shiftr x (32 - n)).
Definition rotr (n x : Z) : Z := rotl (32 - n) x.

(** [n] bytes of [z], big-endian. *)
Fixpoint be_bytes (n : nat) (z : Z) : list Z :=
  match n with
  | O => []
  | S k => Z.shiftr z (8 * Z.of_nat k) mod 256 :: be_bytes k z
  end.

Definition be_combine (l : list Z) : Z := fold_left (fun a b => 256 * a + b) l 0.

(** ** Padding and blocks *)

Definition pad (m : list Z) : list Z :=
  let l := length m in
  let z := Z.to_nat ((55 - Z.of_nat l) mod 64) in
  m ++ 128 :: repeat 0 z ++ be_bytes 8 (8 * Z.of_nat l).

Fixpoint words (m : list Z) : list Z :=
  match m with
  | a :: b :: c :: d :: m' => be_combine [a; b; c; d] :: words m'
  | _ => []
  end.

(** Message schedules hold the newest word first, so word [t-k] of the
    standard is the [k-1]-th of the list. *)
Definition back (k : nat) (w : list Z) : Z := nth (k - 1) w 0.

Fixpoint expand (f : list Z -> Z) (n : nat) (w : list Z) : list Z :=
  match n with
  | O => w
  | S k => expand f k (f w :: w)
  end.

Fixpoint blocks {A} (compress : A -> list Z -> A) (fuel : nat) (ws : list Z) (h : A) : A :=
  match fuel, ws with
  | S k, _ :: _ => blocks compress k (drop 16 ws) (compress h (take 16 ws))
  | _, _ => h
  end.

Definition digest {A} (compress : A -> list Z -> A) (h : A) (m : list Z) : A :=
  let ws := words (pad m) in blocks compress (length ws) ws h.

(** ** SHA-1 *)

Record H5 := mkH5 { h0 : Z; h1 : Z; h2 : Z; h3 : Z; h4 : Z }.

Definition sha1_init : H5 := mkH5 1732584193 4023233417 2562383102 271733878 3285377520.

Definition sha1_word (w : list Z) : Z :=
  rotl 1 (Z.lxor (Z.lxor (back 3 w) (back 8 w)) (Z.lxor (back 14 w) (back 16 w))).

Definition sha1_f (t : nat) (b c d : Z) : Z :=
  if (t <? 20)%nat then Z.lor (Z.land b c) (Z.land (not32 b) d)
  else if (t <? 40)%nat then Z.lxor b (Z.lxor c d)
  else if (t <? 60)%nat then Z.lor (Z.land b c) (Z.lor (Z.land b d) (Z.land c d))
  else Z.lxor b (Z.lxor c d).

Definition sha1_k (t : nat) : Z :=
  if (t <? 20)%nat then 1518500249 else if (t <? 40)%nat then 1859775393
  else if (t <? 60)%nat then 2400959708 else 3395469782.

Fixpoint sha1_rounds (t : nat) (ws : list Z) (h : H5) : H5 :=
  match ws with
  | [] => h
  | w :: ws' =>
      let '(mkH5 a b c d e) := h in
      let x := add32 (add32 (rotl 5 a) (sha1_f t b c d)) (add32 e (add32 (sha1_k t) w)) in
      sha1_rounds (S t) ws' (mkH5 x a (rotl 30 b) c d)
  end.

Definition sha1_compress (h : H5) (block : list Z) : H5 :=
  let w := rev (expand sha1_word 64 (rev block)) in
  let r := sha1_rounds 0 w h in
  mkH5 (add32 (h0 h) (h0 r)) (add32 (h1 h) (h1 r)) (add32 (h2 h) (h2 r))
       (add32 (h3 h) (h3 r)) (add32 (h4 h) (h4 r)).

(** [sha1.Sum]: 20 bytes. *)
Definition sha1 (m : list Z) : list Z :=
  let h := digest sha1_compress sha1_init m in
  be_bytes 4 (h0 h) ++ be_bytes 4 (h1 h) ++ be_bytes 4 (h2 h) ++ be_bytes 4 (h3 h) ++ be_bytes 4 (h4 h).

(** ** SHA-256 *)

Definition sha256_k : list Z := [
    1116352408; 1899447441; 3049323471; 3921009573;
    961987163; 1508970993; 2453635748; 2870763221;
    3624381080; 310598401; 607225278; 1426881987;
    1925078388; 2162078206; 2614888103; 3248222580;
    3835390401; 4022224774; 264347078; 604807628;
    770255983; 1249150122; 1555081692; 1996064986;
    2554220882; 2821834349; 2952996808; 3210313671;
    3336571891; 3584528711; 113926993; 338241895;
    666307205; 773529912; 1294757372; 1396182291;
    1695183700; 1986661051; 2177026350; 2456956037;
    2730485921; 2820302411; 3259730800; 3345764771;
    3516065817; 3600352804; 4094571909; 275423344;
    430227734; 506948616; 659060556; 883997877;
    958139571; 1322822218; 1537002063; 1747873779;
    1955562222; 2024104815; 2227730452; 2361852424;
    2428436474; 2756734187; 3204031479; 3329325298].

Definition sha256_init : list Z := [
    1779033703; 3144134277; 1013904242; 2773480762;
    1359893119; 2600822924; 528734635; 1541459225].

Definition bsig0 (x : Z) : Z := Z.lxor (rotr 2 x) (Z.lxor (rotr 13 x) (rotr 22 x)).
Definition bsig1 (x : Z) : Z := Z.lxor (rotr 6 x) (Z.lxor (rotr 11 x) (rotr 25 x)).
Definition ssig0 (x : Z) : Z := Z.lxor (rotr 7 x) (Z.lxor (rotr 18 x) (Z.shiftr x 3)).
Definition ssig1 (x : Z) : Z := Z.lxor (rotr 17 x) (Z.lxor (rotr 19 x) (Z.shiftr x 10)).

Definition sha256_word (w : list Z) : Z :=
  add32 (add32 (ssig1 (back 2 w)) (back 7 w)) (add32 (ssig0 (back 15 w)) (back 16 w)).

Definition sha256_round (h : list Z) (kw : Z * Z) : list Z :=
  match h with
  | [a; b; c; d; e; f; g; hh] =>
      let ch := Z.lxor (Z.land e f) (Z.land (not32 e) g) in
      let maj := Z.lxor (Z.land a b) (Z.lxor (Z.land a c) (Z.land b c)) in
      let t1 := add32 (add32 hh (bsig1 e)) (add32 ch (add32 (fst kw) (snd kw))) in
      [add32 t1 (add32 (bsig0 a) maj); a; b; c; add32 d t1; e; f; g]
  | _ => h
  end.

Definition sha256_compress (h : list Z) (block : list Z) : list Z :=
  let w := rev (expand sha256_word 48 (rev block)) in
  zip_with add32 h (fold_left sha256_round (zip sha256_k w) h).

(** [sha256.Sum256]: 32 bytes. *)
Definition sha256 (m : list Z) : list Z :=
  concat (map (be_bytes 4) (digest sha256_compress sha256_init m)).

(** The standard's test vectors. *)
Example sha1_abc : hex_encode (sha1 (bytes_of "abc")) = "a9993e364706816aba3e25717850c26c9cd0d89d".
Proof. vm_compute. reflexivity. Qed.
Example sha256_abc : hex_encode (sha256 (bytes_of "abc")) =
  "ba7816bf8f01cfea414140de5dae2223b00361a396177a9cb410ff61f20015ad".
Proof. vm_compute. reflexivity. Qed.
Example sha1_two_blocks :
  hex_encode (sha1 (bytes_of "abcdbcdecdefdefgefghfghighijhijkijkljklmklmnlmnomnopnopq")) =
  "84983e441c3bd26ebaae4aa1f95129e5e54670f1".
Proof. vm_compute. reflexivity. Qed.
Example sha256_empty : hex_encode (sha256 []) =
  "e3b0c44298fc1c149afbf4c8996fb92427ae41e4649b934ca495991b7852b855".
Proof. vm_compute. reflexivity. Qed.
