(* ===== verification/Api.v ===== *)
(** * The API types a grab is made of

    [api/common/v1alpha1], [api/catalog/v1alpha1] and [pkg/events/schema]: the
    enumerations, structs and small methods that a grab entry, a transfer
    record and an engine command are built from.

    A Go string enumeration is an inductive type with the constants of the
    source as constructors.  Where an empty or foreign string can reach the
    code (a record an engine wrote, which no CRD validation saw) the type has a
    constructor for it.  A Go pointer is an [option]; [metav1.Time] is
    [GoLang.Time]; a [resource.Quantity], which the code only carries, is its
    canonical string. *)

From S2P Require Import Prelude GoLang Sha.
From Stdlib Require Import Ascii.

(** ** api/common/v1alpha1 *)

(** [commonv1.Protocol]; the empty string is [ProtocolOther] of it. *)
Inductive Protocol :=
  | ProtocolTorrent
  | ProtocolUsenet
  | ProtocolOther (s : string).

#[export] Instance Protocol_eq_dec : EqDecision Protocol.
Proof. solve_decision. Defined.

Definition Protocol_string (p : Protocol) : string :=
  match p with
  | ProtocolTorrent => "torrent"
  | ProtocolUsenet => "usenet"
  | ProtocolOther s => s
  end.

(** [commonv1.DownloadPhase]; [DownloadPhaseUnset] is the empty string. *)
Inductive DownloadPhase :=
  | DownloadPhaseUnset
  | DownloadPhasePending
  | DownloadPhaseAssigned
  | DownloadPhaseQueued
  | DownloadPhaseDownloading
  | DownloadPhasePaused
  | DownloadPhaseCompleted
  | DownloadPhaseSeeding
  | DownloadPhaseImported
  | DownloadPhaseFailed
  | DownloadPhaseBlocklisted
  | DownloadPhaseRemoving.

#[export] Instance DownloadPhase_eq_dec : EqDecision DownloadPhase.
Proof. solve_decision. Defined.

(** [commonv1.DownloadStage], as a transfer record reports it; [DownloadStageUnset] is
    the empty string. *)
Inductive DownloadStage :=
  | DownloadStageUnset
  | DownloadStageFetchingMetadata
  | DownloadStageTransferring
  | DownloadStageVerifying
  | DownloadStageRepairing
  | DownloadStageExtracting
  | DownloadStagePublishing
  | DownloadStageSeeding
  | DownloadStageDone
  | DownloadStageOther (s : string).

#[export] Instance DownloadStage_eq_dec : EqDecision DownloadStage.
Proof. solve_decision. Defined.

(** [commonv1.DownloadFailureReason]; [DownloadFailureUnset] is the empty string. *)
Inductive DownloadFailureReason :=
  | DownloadFailureUnset
  | DownloadFailureNone
  | DownloadFailureMissingArticles
  | DownloadFailureDiskFull
  | DownloadFailureEncrypted
  | DownloadFailureStalled
  | DownloadFailureWriteError
  | DownloadFailureTimeout
  | DownloadFailureImportRejected
  | DownloadFailureImportExpired
  | DownloadFailureManual
  | DownloadFailurePayloadMismatch
  | DownloadFailurePayloadUnavailable
  | DownloadFailureReleaseRefused
  | DownloadFailureOther (s : string).

#[export] Instance DownloadFailureReason_eq_dec : EqDecision DownloadFailureReason.
Proof. solve_decision. Defined.

(** [string(reason)]. *)
Definition DownloadFailureReason_string (r : DownloadFailureReason) : string :=
  match r with
  | DownloadFailureUnset => ""
  | DownloadFailureNone => "none"
  | DownloadFailureMissingArticles => "missingArticles"
  | DownloadFailureDiskFull => "diskFull"
  | DownloadFailureEncrypted => "encrypted"
  | DownloadFailureStalled => "stalled"
  | DownloadFailureWriteError => "writeError"
  | DownloadFailureTimeout => "timeout"
  | DownloadFailureImportRejected => "importRejected"
  | DownloadFailureImportExpired => "importExpired"
  | DownloadFailureManual => "manual"
  | DownloadFailurePayloadMismatch => "payloadMismatch"
  | DownloadFailurePayloadUnavailable => "payloadUnavailable"
  | DownloadFailureReleaseRefused => "releaseRefused"
  | DownloadFailureOther s => s
  end.

(** [DownloadFailureReason.IsReleaseFault]. *)
Definition IsReleaseFault (r : DownloadFailureReason) : bool :=
  match r with
  | DownloadFailureMissingArticles | DownloadFailureEncrypted | DownloadFailureStalled
  | DownloadFailureTimeout | DownloadFailureImportRejected | DownloadFailureManual
  | DownloadFailurePayloadMismatch | DownloadFailurePayloadUnavailable => true
  | _ => false
  end.

(** [DownloadFailureReason.IsFailure]: set, and not none. *)
Definition IsFailure (r : DownloadFailureReason) : bool :=
  negb (bool_decide (r = DownloadFailureUnset)) && negb (bool_decide (r = DownloadFailureNone)).

(** [DownloadFailureReason.IsLocalFault]. *)
Definition IsLocalFault (r : DownloadFailureReason) : bool :=
  bool_decide (r = DownloadFailureDiskFull) || bool_decide (r = DownloadFailureWriteError).

(** [commonv1.DownloadPurpose] and [commonv1.DownloadPriority] stay strings: the
    code compares a purpose with "" and with another purpose, and carries a
    priority as the annotation spelled it. *)
Abbreviation DownloadPurpose := string (only parsing).
Definition DownloadPurposeAudioDonor : DownloadPurpose := "audioDonor".
Definition DownloadPriorityHigh : string := "high".
Definition DownloadPriorityNormal : string := "normal".
Definition DownloadPriorityLow : string := "low".

(** [commonv1.GrabSource]. *)
Inductive GrabSource :=
  | GrabSourceRSS
  | GrabSourceSearch
  | GrabSourceInteractive
  | GrabSourcePush
  | GrabSourceRedownload.

#[export] Instance GrabSource_eq_dec : EqDecision GrabSource.
Proof. solve_decision. Defined.

(** [downloadv1alpha1.HealthAction]; [HealthActionOther] is any other string. *)
Inductive HealthAction :=
  | HealthActionPause
  | HealthActionDelete
  | HealthActionOther (s : string).

#[export] Instance HealthAction_eq_dec : EqDecision HealthAction.
Proof. solve_decision. Defined.

(** [commonv1.ImportRejectionClass]; [ImportClassUnset] is the empty string. *)
Inductive ImportRejectionClass :=
  | ImportClassUnset
  | ImportClassTransient
  | ImportClassItemState
  | ImportClassNeedsPerson
  | ImportClassReleaseFault.

#[export] Instance ImportRejectionClass_eq_dec : EqDecision ImportRejectionClass.
Proof. solve_decision. Defined.

(** [commonv1.SeedCriteria]. *)
Record SeedCriteria := mkSeedCriteria {
  scRatio : option string;
  scSeedTime : option Duration;
  scPackSeedTime : option Duration;
  scInactiveTime : option Duration;
}.

(** [commonv1.IndexerDownload]. *)
Record IndexerDownload := mkIndexerDownload {
  idIndexerRef : string;
  idGUID : string;
  idURL : string;
}.

(** [commonv1.DownloadSource]. *)
Record DownloadSource := mkDownloadSource {
  dsMagnetURL : option string;
  dsTorrentURL : option string;
  dsNZBURL : option string;
  dsIndexerDownload : option IndexerDownload;
  dsExpectedInfoHash : option string;
}.

Definition no_source : DownloadSource := mkDownloadSource None None None None None.

(** [commonv1.Quality]. *)
Record Quality := mkQuality {
  qName : string;
  qSource : string;
  qResolution : Z;
  qModifier : string;
}.

(** [commonv1.Revision]. *)
Record Revision := mkRevision {
  rvVersion : Z;
  rvReal : Z;
  rvRepack : bool;
}.

(** [commonv1.MediaRef]. *)
Record MediaRef := mkMediaRef {
  mrKind : string;
  mrName : string;
  mrKeys : list string;
  mrTrack : string;
}.

(** ** api/catalog/v1alpha1 *)

(** [catalogv1alpha1.DeliveryPhase]. *)
Inductive DeliveryPhase :=
  | DeliveryWaiting
  | DeliveryPublished
  | DeliveryClaimed
  | DeliveryRetrying
  | DeliveryDeadLettered.

#[export] Instance DeliveryPhase_eq_dec : EqDecision DeliveryPhase.
Proof. solve_decision. Defined.

(** The reasons [DeliveryState.Reason] takes here. *)
Definition DeliveryReasonBudget : string := "Budget".
Definition DeliveryReasonNoAgent : string := "NoAgent".
Definition DeliveryReasonRebuilding : string := "Rebuilding".
Definition DeliveryReasonNak : string := "Nak".
Definition DeliveryReasonNoCapableAgent : string := "NoCapableAgent".
Definition DeliveryReasonEngineNotReady : string := "EngineNotReady".

(** [catalogv1alpha1.DeliveryState]. *)
Record DeliveryState := mkDeliveryState {
  dvState : DeliveryPhase;
  dvReason : string;
  dvMessage : string;
  dvAttempts : Z;
  dvLastNakAt : option Time;
  dvDeadLetteredAt : option Time;
}.

(** [catalogv1alpha1.Dispatch]. *)
Record Dispatch := mkDispatch {
  dpSeq : Z;
  dpAnsweredSeq : Z;
  dpDispatchedAt : Time;
  dpWithdrawn : bool;
  dpDestination : string;
  dpDelivery : option DeliveryState;
}.

#[export] Instance eta_Dispatch : Eta Dispatch :=
  fun r => mkDispatch (dpSeq r) (dpAnsweredSeq r) (dpDispatchedAt r) (dpWithdrawn r)
    (dpDestination r) (dpDelivery r).
#[export] Instance set_dpSeq : Setter dpSeq. Proof. derive_setter. Defined.
#[export] Instance set_dpAnsweredSeq : Setter dpAnsweredSeq. Proof. derive_setter. Defined.
#[export] Instance set_dpDispatchedAt : Setter dpDispatchedAt. Proof. derive_setter. Defined.
#[export] Instance set_dpWithdrawn : Setter dpWithdrawn. Proof. derive_setter. Defined.
#[export] Instance set_dpDestination : Setter dpDestination. Proof. derive_setter. Defined.
#[export] Instance set_dpDelivery : Setter dpDelivery. Proof. derive_setter. Defined.

(** [Dispatch.InFlight]; an entry holds its dispatch by value, so the nil
    receiver does not arise. *)
Definition InFlight (d : Dispatch) : bool := dpAnsweredSeq d <? dpSeq d.

(** [catalogv1alpha1.EntrySet]. *)
Record EntrySet := mkEntrySet {
  esID : string;
  esPart : Z;
  esOf : Z;
}.

(** [catalogv1alpha1.BlockScope]. *)
Inductive BlockScope :=
  | BlockScopeItem
  | BlockScopeGlobal.

#[export] Instance BlockScope_eq_dec : EqDecision BlockScope.
Proof. solve_decision. Defined.

(** [catalogv1alpha1.EntryBlock]. *)
Record EntryBlock := mkEntryBlock {
  ebScope : BlockScope;
  ebReason : DownloadFailureReason;
  ebSeq : Z;
  ebConfirmedAt : option Time;
}.

#[export] Instance eta_EntryBlock : Eta EntryBlock :=
  fun r => mkEntryBlock (ebScope r) (ebReason r) (ebSeq r) (ebConfirmedAt r).
#[export] Instance set_ebScope : Setter ebScope. Proof. derive_setter. Defined.
#[export] Instance set_ebReason : Setter ebReason. Proof. derive_setter. Defined.
#[export] Instance set_ebSeq : Setter ebSeq. Proof. derive_setter. Defined.
#[export] Instance set_ebConfirmedAt : Setter ebConfirmedAt. Proof. derive_setter. Defined.

(** [catalogv1alpha1.EpisodeNumber]. *)
Record EpisodeNumber := mkEpisodeNumber {
  enSeason : Z;
  enNumber : Z;
}.

#[export] Instance EpisodeNumber_eq_dec : EqDecision EpisodeNumber.
Proof. solve_decision. Defined.

(** [catalogv1alpha1.DownloadRelease]. *)
Record DownloadRelease := mkDownloadRelease {
  drTitle : string;
  drGUID : string;
  drIndexerRef : string;
  drIndexerName : string;
  drInfoHash : string;
  drProtocol : Protocol;
  drSizeBytes : Z;
  drQuality : Quality;
  drRevision : Revision;
  drFormatScore : Z;
  drLanguages : list string;
  drIndexerLanguages : list string;
  drReleaseGroup : string;
  drEdition : string;
}.

(** [catalogv1alpha1.ImportPhase]; [ImportPhaseUnset] is the empty string. *)
Inductive ImportPhase :=
  | ImportPhaseUnset
  | ImportPhasePending
  | ImportPhaseInspected
  | ImportPhaseApproved
  | ImportPhaseImported
  | ImportPhaseBlocked
  | ImportPhaseHeld
  | ImportPhaseExpired.

#[export] Instance ImportPhase_eq_dec : EqDecision ImportPhase.
Proof. solve_decision. Defined.

(** [catalogv1alpha1.DownloadImportSummary]. *)
Record DownloadImportSummary := mkDownloadImportSummary {
  isPhase : ImportPhase;
  isClass : ImportRejectionClass;
  isMessage : string;
  isAttempts : Z;
  isNextAttemptAt : option Time;
  isHeldSince : option Time;
  isImportedAt : option Time;
  isFiles : Z;
  isTarget : string;
  isOverride : bool;
  isDispatch : Dispatch;
}.

#[export] Instance eta_DownloadImportSummary : Eta DownloadImportSummary :=
  fun r => mkDownloadImportSummary (isPhase r) (isClass r) (isMessage r) (isAttempts r)
    (isNextAttemptAt r) (isHeldSince r) (isImportedAt r) (isFiles r) (isTarget r)
    (isOverride r) (isDispatch r).
#[export] Instance set_isPhase : Setter isPhase. Proof. derive_setter. Defined.
#[export] Instance set_isClass : Setter isClass. Proof. derive_setter. Defined.
#[export] Instance set_isMessage : Setter isMessage. Proof. derive_setter. Defined.
#[export] Instance set_isAttempts : Setter isAttempts. Proof. derive_setter. Defined.
#[export] Instance set_isNextAttemptAt : Setter isNextAttemptAt. Proof. derive_setter. Defined.
#[export] Instance set_isHeldSince : Setter isHeldSince. Proof. derive_setter. Defined.
#[export] Instance set_isImportedAt : Setter isImportedAt. Proof. derive_setter. Defined.
#[export] Instance set_isFiles : Setter isFiles. Proof. derive_setter. Defined.
#[export] Instance set_isTarget : Setter isTarget. Proof. derive_setter. Defined.
#[export] Instance set_isOverride : Setter isOverride. Proof. derive_setter. Defined.
#[export] Instance set_isDispatch : Setter isDispatch. Proof. derive_setter. Defined.

(** Go's zero values of the two. *)
Definition zero_Dispatch : Dispatch := mkDispatch 0 0 0 false "" None.
Definition zero_ImportSummary : DownloadImportSummary :=
  mkDownloadImportSummary ImportPhaseUnset ImportClassUnset "" 0 None None None 0 "" false zero_Dispatch.

(** [catalogv1alpha1.DownloadNonces]. *)
Record DownloadNonces := mkDownloadNonces {
  dnRemove : string;
  dnResume : string;
  dnImport : string;
  dnUnblock : string;
}.

#[export] Instance eta_DownloadNonces : Eta DownloadNonces :=
  fun r => mkDownloadNonces (dnRemove r) (dnResume r) (dnImport r) (dnUnblock r).
#[export] Instance set_dnRemove : Setter dnRemove. Proof. derive_setter. Defined.
#[export] Instance set_dnResume : Setter dnResume. Proof. derive_setter. Defined.
#[export] Instance set_dnImport : Setter dnImport. Proof. derive_setter. Defined.
#[export] Instance set_dnUnblock : Setter dnUnblock. Proof. derive_setter. Defined.

(** [catalogv1alpha1.DownloadEntry]: one grab of its owner. *)
Record DownloadEntry := mkDownloadEntry {
  eID : string;
  eUID : string;
  ePurpose : DownloadPurpose;
  eEpisodes : list EpisodeNumber;
  eIssues : list string;
  eRelease : DownloadRelease;
  eSource : DownloadSource;
  eClient : string;
  eEngine : string;
  eGrabbedBy : GrabSource;
  eGrabbedAt : Time;
  eManual : bool;
  eQualityProfileRef : string;
  eSeedCriteria : option SeedCriteria;
  eRemoveOnImport : bool;
  eRemoveDataOnDelete : bool;
  ePhase : DownloadPhase;
  eStage : DownloadStage;
  eFailureReason : DownloadFailureReason;
  eOutputPath : string;
  eStartedAt : option Time;
  eCompletedAt : option Time;
  eSeedGoalMetAt : option Time;
  eFailedAt : option Time;
  eImport : option DownloadImportSummary;
  eDispatch : Dispatch;
  eMessage : string;
  eBlock : option EntryBlock;
  eSet : option EntrySet;
}.

#[export] Instance eta_DownloadEntry : Eta DownloadEntry :=
  fun r => mkDownloadEntry (eID r) (eUID r) (ePurpose r) (eEpisodes r) (eIssues r)
    (eRelease r) (eSource r) (eClient r) (eEngine r) (eGrabbedBy r) (eGrabbedAt r)
    (eManual r) (eQualityProfileRef r) (eSeedCriteria r) (eRemoveOnImport r)
    (eRemoveDataOnDelete r) (ePhase r) (eStage r) (eFailureReason r) (eOutputPath r)
    (eStartedAt r) (eCompletedAt r) (eSeedGoalMetAt r) (eFailedAt r) (eImport r)
    (eDispatch r) (eMessage r) (eBlock r) (eSet r).
#[export] Instance set_eID : Setter eID. Proof. derive_setter. Defined.
#[export] Instance set_eUID : Setter eUID. Proof. derive_setter. Defined.
#[export] Instance set_ePurpose : Setter ePurpose. Proof. derive_setter. Defined.
#[export] Instance set_eEpisodes : Setter eEpisodes. Proof. derive_setter. Defined.
#[export] Instance set_eIssues : Setter eIssues. Proof. derive_setter. Defined.
#[export] Instance set_eRelease : Setter eRelease. Proof. derive_setter. Defined.
#[export] Instance set_eSource : Setter eSource. Proof. derive_setter. Defined.
#[export] Instance set_eClient : Setter eClient. Proof. derive_setter. Defined.
#[export] Instance set_eEngine : Setter eEngine. Proof. derive_setter. Defined.
#[export] Instance set_eGrabbedBy : Setter eGrabbedBy. Proof. derive_setter. Defined.
#[export] Instance set_eGrabbedAt : Setter eGrabbedAt. Proof. derive_setter. Defined.
#[export] Instance set_eManual : Setter eManual. Proof. derive_setter. Defined.
#[export] Instance set_eQualityProfileRef : Setter eQualityProfileRef. Proof. derive_setter. Defined.
#[export] Instance set_eSeedCriteria : Setter eSeedCriteria. Proof. derive_setter. Defined.
#[export] Instance set_eRemoveOnImport : Setter eRemoveOnImport. Proof. derive_setter. Defined.
#[export] Instance set_eRemoveDataOnDelete : Setter eRemoveDataOnDelete. Proof. derive_setter. Defined.
#[export] Instance set_ePhase : Setter ePhase. Proof. derive_setter. Defined.
#[export] Instance set_eStage : Setter eStage. Proof. derive_setter. Defined.
#[export] Instance set_eFailureReason : Setter eFailureReason. Proof. derive_setter. Defined.
#[export] Instance set_eOutputPath : Setter eOutputPath. Proof. derive_setter. Defined.
#[export] Instance set_eStartedAt : Setter eStartedAt. Proof. derive_setter. Defined.
#[export] Instance set_eCompletedAt : Setter eCompletedAt. Proof. derive_setter. Defined.
#[export] Instance set_eSeedGoalMetAt : Setter eSeedGoalMetAt. Proof. derive_setter. Defined.
#[export] Instance set_eFailedAt : Setter eFailedAt. Proof. derive_setter. Defined.
#[export] Instance set_eImport : Setter eImport. Proof. derive_setter. Defined.
#[export] Instance set_eDispatch : Setter eDispatch. Proof. derive_setter. Defined.
#[export] Instance set_eMessage : Setter eMessage. Proof. derive_setter. Defined.
#[export] Instance set_eBlock : Setter eBlock. Proof. derive_setter. Defined.
#[export] Instance set_eSet : Setter eSet. Proof. derive_setter. Defined.

(** [DownloadEntry.Pack]. *)
Definition Pack (e : DownloadEntry) : bool :=
  (1 <? length (eEpisodes e))%nat || (1 <? length (eIssues e))%nat.

(** *** Intent annotations and nonces *)

Definition AnnotationDownloadPaused : string := "download.clustarr.io/paused".
Definition AnnotationDownloadPriority : string := "download.clustarr.io/priority".
Definition AnnotationDownloadRemove : string := "download.clustarr.io/remove".
Definition AnnotationDownloadResume : string := "download.clustarr.io/resume".
Definition AnnotationDownloadImport : string := "download.clustarr.io/import".
Definition AnnotationDownloadUnblock : string := "download.clustarr.io/unblock".

(** [nonceRE], [^[A-Za-z0-9][A-Za-z0-9._-]{0,62}$]: [ValidNonce]. *)
Definition nonce_char (a : ascii) : bool :=
  is_alnum a || Ascii.eqb a "."%char || Ascii.eqb a "_"%char || Ascii.eqb a "-"%char.

Definition ValidNonce (v : string) : bool :=
  match v with
  | EmptyString => false
  | String a s => is_alnum a && str_forall nonce_char s && (String.length s <=? 62)%nat
  end.

(** [HandledNonce]. *)
Definition HandledNonce (v : string) : string :=
  if String.eqb v "" || ValidNonce v then v
  else "invalid-" +:+ hex_encode (take 8 (sha256 (bytes_of v))).

(** ** pkg/events/schema *)

(** [schema.Ref]. *)
Record Ref := mkRef {
  refNamespace : string;
  refName : string;
  refUID : string;
}.

(** [schema.ItemRef]; [irRef] is the embedded [Ref]. *)
Record ItemRef := mkItemRef {
  irKind : string;
  irRef : Ref;
}.

#[export] Instance Ref_eq_dec : EqDecision Ref.
Proof. solve_decision. Defined.
#[export] Instance ItemRef_eq_dec : EqDecision ItemRef.
Proof. solve_decision. Defined.

(** [ItemRef] is a map key in the program; its key here is the tuple of its
    four strings. *)
#[export] Instance ItemRef_countable : Countable ItemRef.
Proof.
  refine (inj_countable'
    (fun i => (irKind i, refNamespace (irRef i), refName (irRef i), refUID (irRef i)))
    (fun '(k, ns, n, u) => mkItemRef k (mkRef ns n u)) _).
  by intros [? []].
Defined.

Definition irNamespace (i : ItemRef) : string := refNamespace (irRef i).
Definition irName (i : ItemRef) : string := refName (irRef i).
Definition irUID (i : ItemRef) : string := refUID (irRef i).

Definition schema_BlockScopeGlobal : string := "*".

(** [schema.BlockScopeOf]. *)
Definition BlockScopeOf (item : ItemRef) : string :=
  irKind item +:+ "/" +:+ irNamespace item +:+ "/" +:+ irName item +:+ "/" +:+ irUID item.

(** [schema.EntryRef]. *)
Record EntryRef := mkEntryRef {
  erID : string;
  erUID : string;
}.

(** [schema.SetRef]. *)
Record SetRef := mkSetRef {
  srID : string;
  srPart : Z;
  srOf : Z;
}.

(** [schema.TransferClaim]: what a transfer was added under. *)
Record TransferClaim := mkTransferClaim {
  tcOwner : ItemRef;
  tcProviderID : string;
  tcEntry : EntryRef;
  tcInfoHash : string;
  tcIndexer : string;
  tcGUID : string;
  tcTitle : string;
  tcPurpose : DownloadPurpose;
  tcRemoveDataOnDelete : bool;
  tcImported : bool;
  tcSet : option SetRef;
}.

(** [schema.EpisodeNo]. *)
Record EpisodeNo := mkEpisodeNo {
  epSeason : Z;
  epNumber : Z;
}.

(** [schema.TransferSelection]. *)
Record TransferSelection := mkTransferSelection {
  tsEpisodes : list EpisodeNo;
  tsAbsolutes : list Z;
  tsAirDates : list string;
  tsIssues : list string;
}.

(** [schema.CommandRelease]. *)
Record CommandRelease := mkCommandRelease {
  crTitle : string;
  crGUID : string;
  crIndexerRef : string;
  crSizeBytes : Z;
}.

(** The [EngineCommand.Desired] constants. *)
Inductive EngineDesired :=
  | EngineDesiredPresent
  | EngineDesiredAbsent
  | EngineDesiredResync.

#[export] Instance EngineDesired_eq_dec : EqDecision EngineDesired.
Proof. solve_decision. Defined.

(** [schema.EngineCommand]: a transfer's whole desired state at a seq. *)
Record EngineCommand := mkEngineCommand {
  ecSeq : Z;
  ecOwner : ItemRef;
  ecEntry : EntryRef;
  ecDesired : EngineDesired;
  ecRemoveData : bool;
  ecProtocol : Protocol;
  ecSource : option DownloadSource;
  ecExpectedInfoHash : string;
  ecRelease : CommandRelease;
  ecCategory : string;
  ecSelection : option TransferSelection;
  ecPaused : bool;
  ecPriority : string;
  ecHealthOverride : string;
  ecSeedCriteria : option SeedCriteria;
  ecRemoveOnImport : bool;
  ecImported : bool;
  ecImportedAt : option Time;
  ecClaim : TransferClaim;
  ecResyncSeq : Z;
  ecDownloadID : string;
  ecIssuedAt : Time;
}.

#[export] Instance eta_EngineCommand : Eta EngineCommand :=
  fun r => mkEngineCommand (ecSeq r) (ecOwner r) (ecEntry r) (ecDesired r)
    (ecRemoveData r) (ecProtocol r) (ecSource r) (ecExpectedInfoHash r) (ecRelease r)
    (ecCategory r) (ecSelection r) (ecPaused r) (ecPriority r) (ecHealthOverride r)
    (ecSeedCriteria r) (ecRemoveOnImport r) (ecImported r) (ecImportedAt r) (ecClaim r)
    (ecResyncSeq r) (ecDownloadID r) (ecIssuedAt r).
#[export] Instance set_ecSeq : Setter ecSeq. Proof. derive_setter. Defined.
#[export] Instance set_ecOwner : Setter ecOwner. Proof. derive_setter. Defined.
#[export] Instance set_ecEntry : Setter ecEntry. Proof. derive_setter. Defined.
#[export] Instance set_ecDesired : Setter ecDesired. Proof. derive_setter. Defined.
#[export] Instance set_ecRemoveData : Setter ecRemoveData. Proof. derive_setter. Defined.
#[export] Instance set_ecProtocol : Setter ecProtocol. Proof. derive_setter. Defined.
#[export] Instance set_ecSource : Setter ecSource. Proof. derive_setter. Defined.
#[export] Instance set_ecExpectedInfoHash : Setter ecExpectedInfoHash. Proof. derive_setter. Defined.
#[export] Instance set_ecRelease : Setter ecRelease. Proof. derive_setter. Defined.
#[export] Instance set_ecCategory : Setter ecCategory. Proof. derive_setter. Defined.
#[export] Instance set_ecSelection : Setter ecSelection. Proof. derive_setter. Defined.
#[export] Instance set_ecPaused : Setter ecPaused. Proof. derive_setter. Defined.
#[export] Instance set_ecPriority : Setter ecPriority. Proof. derive_setter. Defined.
#[export] Instance set_ecHealthOverride : Setter ecHealthOverride. Proof. derive_setter. Defined.
#[export] Instance set_ecSeedCriteria : Setter ecSeedCriteria. Proof. derive_setter. Defined.
#[export] Instance set_ecRemoveOnImport : Setter ecRemoveOnImport. Proof. derive_setter. Defined.
#[export] Instance set_ecImported : Setter ecImported. Proof. derive_setter. Defined.
#[export] Instance set_ecImportedAt : Setter ecImportedAt. Proof. derive_setter. Defined.
#[export] Instance set_ecClaim : Setter ecClaim. Proof. derive_setter. Defined.
#[export] Instance set_ecResyncSeq : Setter ecResyncSeq. Proof. derive_setter. Defined.
#[export] Instance set_ecDownloadID : Setter ecDownloadID. Proof. derive_setter. Defined.
#[export] Instance set_ecIssuedAt : Setter ecIssuedAt. Proof. derive_setter. Defined.

(** [schema.TransferFile]. *)
Record TransferFile := mkTransferFile {
  tfPath : string;
  tfSizeBytes : Z;
  tfSkipped : bool;
}.

(** [schema.TransferHealth]. *)
Record TransferHealth := mkTransferHealth {
  thHealthPercent : Z;
  thCriticalHealthPercent : Z;
  thFailedArticles : Z;
  thTotalArticles : Z;
}.

(** [schema.TransferGrant]. *)
Record TransferGrant := mkTransferGrant {
  tgServer : string;
  tgConnections : Z;
}.

(** The [RecordHeader.State] of a transfer record. *)
Inductive TransferState :=
  | TransferStatePresent
  | TransferStateRemoved
  | TransferStateFailed
  | TransferStateOther (s : string).

#[export] Instance TransferState_eq_dec : EqDecision TransferState.
Proof. solve_decision. Defined.

(** [schema.RecordHeader], of a transfer record. *)
Record RecordHeader := mkRecordHeader {
  rhSchema : string;
  rhMediaFile : Ref;
  rhItem : option ItemRef;
  rhSub : string;
  rhSeq : Z;
  rhState : TransferState;
  rhRequestedAt : Time;
  rhClaimedAt : option Time;
  rhDeferredUntil : option Time;
  rhAnsweredAt : option Time;
  rhWriter : string;
  rhWriterVersion : string;
  rhFailure : string;
  rhTransient : bool;
  rhFailures : Z;
}.

(** [schema.TransferRecord]: an engine's report of one entry's transfer. *)
Record TransferRecord := mkTransferRecord {
  trHeader : RecordHeader;
  trEntry : EntryRef;
  trClaim : option TransferClaim;
  trClaimed : bool;
  trEngine : string;
  trBootID : string;
  trDownloadID : string;
  trStage : DownloadStage;
  trOutputPath : string;
  trContentRoot : string;
  trFiles : list TransferFile;
  trFilesTruncated : bool;
  trTotalBytes : Z;
  trRemainingBytes : Z;
  trDownloadedBytes : Z;
  trUploadedBytes : Z;
  trProgressPercent : Z;
  trRatioMilli : Z;
  trSeedTimeSeconds : Z;
  trSeeders : Z;
  trPeers : Z;
  trHealth : option TransferHealth;
  trIsEncrypted : bool;
  trCanMoveFiles : bool;
  trCanBeRemoved : bool;
  trSeedGoalReached : bool;
  trHealthPaused : bool;
  trWaitingTurn : bool;
  trGrant : option TransferGrant;
  trEngineFailureReason : DownloadFailureReason;
  trMessage : string;
  trStartedAt : option Time;
  trCompletedAt : option Time;
  trLastProgressAt : option Time;
  trAddedAt : Time;
  trDataRemoved : bool;
}.

#[export] Instance eta_TransferRecord : Eta TransferRecord :=
  fun r => mkTransferRecord (trHeader r) (trEntry r) (trClaim r) (trClaimed r)
    (trEngine r) (trBootID r) (trDownloadID r) (trStage r) (trOutputPath r)
    (trContentRoot r) (trFiles r) (trFilesTruncated r) (trTotalBytes r)
    (trRemainingBytes r) (trDownloadedBytes r) (trUploadedBytes r) (trProgressPercent r)
    (trRatioMilli r) (trSeedTimeSeconds r) (trSeeders r) (trPeers r) (trHealth r)
    (trIsEncrypted r) (trCanMoveFiles r) (trCanBeRemoved r) (trSeedGoalReached r)
    (trHealthPaused r) (trWaitingTurn r) (trGrant r) (trEngineFailureReason r)
    (trMessage r) (trStartedAt r) (trCompletedAt r) (trLastProgressAt r) (trAddedAt r)
    (trDataRemoved r).
#[export] Instance set_trHeader : Setter trHeader. Proof. derive_setter. Defined.
#[export] Instance set_trEntry : Setter trEntry. Proof. derive_setter. Defined.
#[export] Instance set_trClaim : Setter trClaim. Proof. derive_setter. Defined.
#[export] Instance set_trClaimed : Setter trClaimed. Proof. derive_setter. Defined.
#[export] Instance set_trEngine : Setter trEngine. Proof. derive_setter. Defined.
#[export] Instance set_trBootID : Setter trBootID. Proof. derive_setter. Defined.
#[export] Instance set_trDownloadID : Setter trDownloadID. Proof. derive_setter. Defined.
#[export] Instance set_trStage : Setter trStage. Proof. derive_setter. Defined.
#[export] Instance set_trOutputPath : Setter trOutputPath. Proof. derive_setter. Defined.
#[export] Instance set_trContentRoot : Setter trContentRoot. Proof. derive_setter. Defined.
#[export] Instance set_trFiles : Setter trFiles. Proof. derive_setter. Defined.
#[export] Instance set_trFilesTruncated : Setter trFilesTruncated. Proof. derive_setter. Defined.
#[export] Instance set_trTotalBytes : Setter trTotalBytes. Proof. derive_setter. Defined.
#[export] Instance set_trRemainingBytes : Setter trRemainingBytes. Proof. derive_setter. Defined.
#[export] Instance set_trDownloadedBytes : Setter trDownloadedBytes. Proof. derive_setter. Defined.
#[export] Instance set_trUploadedBytes : Setter trUploadedBytes. Proof. derive_setter. Defined.
#[export] Instance set_trProgressPercent : Setter trProgressPercent. Proof. derive_setter. Defined.
#[export] Instance set_trRatioMilli : Setter trRatioMilli. Proof. derive_setter. Defined.
#[export] Instance set_trSeedTimeSeconds : Setter trSeedTimeSeconds. Proof. derive_setter. Defined.
#[export] Instance set_trSeeders : Setter trSeeders. Proof. derive_setter. Defined.
#[export] Instance set_trPeers : Setter trPeers. Proof. derive_setter. Defined.
#[export] Instance set_trHealth : Setter trHealth. Proof. derive_setter. Defined.
#[export] Instance set_trIsEncrypted : Setter trIsEncrypted. Proof. derive_setter. Defined.
#[export] Instance set_trCanMoveFiles : Setter trCanMoveFiles. Proof. derive_setter. Defined.
#[export] Instance set_trCanBeRemoved : Setter trCanBeRemoved. Proof. derive_setter. Defined.
#[export] Instance set_trSeedGoalReached : Setter trSeedGoalReached. Proof. derive_setter. Defined.
#[export] Instance set_trHealthPaused : Setter trHealthPaused. Proof. derive_setter. Defined.
#[export] Instance set_trWaitingTurn : Setter trWaitingTurn. Proof. derive_setter. Defined.
#[export] Instance set_trGrant : Setter trGrant. Proof. derive_setter. Defined.
#[export] Instance set_trEngineFailureReason : Setter trEngineFailureReason. Proof. derive_setter. Defined.
#[export] Instance set_trMessage : Setter trMessage. Proof. derive_setter. Defined.
#[export] Instance set_trStartedAt : Setter trStartedAt. Proof. derive_setter. Defined.
#[export] Instance set_trCompletedAt : Setter trCompletedAt. Proof. derive_setter. Defined.
#[export] Instance set_trLastProgressAt : Setter trLastProgressAt. Proof. derive_setter. Defined.
#[export] Instance set_trAddedAt : Setter trAddedAt. Proof. derive_setter. Defined.
#[export] Instance set_trDataRemoved : Setter trDataRemoved. Proof. derive_setter. Defined.

(** The promoted header fields. *)
Definition trSeq (r : TransferRecord) : Z := rhSeq (trHeader r).
Definition trState (r : TransferRecord) : TransferState := rhState (trHeader r).

(** [schema.DownloadEvent], a history record. *)
Record DownloadEvent := mkDownloadEvent {
  evDownloadRef : Ref;
  evMedia : MediaRef;
  evAction : string;
  evClientRef : option Ref;
  evClientID : string;
  evProtocol : Protocol;
  evTitle : string;
  evInfoHash : string;
  evSizeBytes : Z;
  evReason : string;
  evOutputPath : string;
  evPurpose : string;
  evAt : Time;
}.

(** [schema.BlocklistRequest]. *)
Record BlocklistRequest := mkBlocklistRequest {
  brOp : string;
  brScope : string;
  brInfoHash : string;
  brIndexer : string;
  brGUID : string;
  brTitle : string;
  brProtocol : string;
  brReason : string;
  brEntryID : string;
  brSeq : Z;
  brBlockedAt : Time;
  brUntil : Time;
  brLimit : Z;
  brOffset : Z;
}.

Definition BlocklistOpBlock : string := "block".
Definition BlocklistOpUnblock : string := "unblock".
