(* ===== verification/Events.v ===== *)
(** * Events: the broker's keys, subjects and durables

    src/pkg/events: [KVKeyToken] and its inverse (kvkey.go), the engine family's
    subjects and durables (agents.go), what a consumer spec and a consumer's
    state hold (topology.go, consumerstate.go) and the classes of a request's
    error (serve.go); src/pkg/agentdomain: the table of agent domains. *)

From S2P Require Import Prelude GoLang GoFacts.
From Stdlib Require Import Ascii.

(** ** Key tokens (kvkey.go) *)

(** The loop of [KVKeyToken]. *)
Fixpoint token_bytes (s : string) : string :=
  match s with
  | EmptyString => EmptyString
  | String c s' =>
      if is_alnum c then String c (token_bytes s')
      else if Ascii.eqb c "-" then String "-" (String "-" (token_bytes s'))
      else String "-" (hex_encode [byte_of c] +:+ token_bytes s')
  end.

Definition KVKeyToken (s : string) : string :=
  if String.eqb s "" then "-0" else token_bytes s.

Definition RecordKey (uid : string) : string := KVKeyToken uid.
Definition RecordSubKey (uid sub : string) : string := KVKeyToken uid +:+ "." +:+ KVKeyToken sub.

(** The errors [ParseKVKeyToken] returns, one per [errors.New] or [fmt.Errorf]. *)
Inductive key_error :=
  | KeyEmpty
  | KeyHex (tok : string)
  | KeyByte (tok : string) (c : ascii) (i : Z)
  | KeyNotCanonical (tok s : string).

Definition push (c : ascii) (r : string + key_error) : string + key_error :=
  match r with inl s => inl (String c s) | inr e => inr e end.

(** The loop of [ParseKVKeyToken]: [rest] is [tok[i:]]. *)
Fixpoint parse_token (tok : string) (i : Z) (rest : string) : string + key_error :=
  match rest with
  | EmptyString => inl EmptyString
  | String c t =>
      if is_alnum c then push c (parse_token tok (i + 1) t)
      else match t with
           | EmptyString => inr (KeyByte tok c i)
           | String d t' =>
               if Ascii.eqb c "-" && Ascii.eqb d "-" then push "-" (parse_token tok (i + 2) t')
               else match t' with
                    | EmptyString => inr (KeyByte tok c i)
                    | String e t'' =>
                        if Ascii.eqb c "-" then
                          match hex_decode (String d (String e EmptyString)) with
                          | Some (v :: _) => push (ascii_of v) (parse_token tok (i + 3) t'')
                          | _ => inr (KeyHex tok)
                          end
                        else inr (KeyByte tok c i)
                    end
           end
  end.

Definition ParseKVKeyToken (tok : string) : string + key_error :=
  if String.eqb tok "-0" then inl ""
  else if String.eqb tok "" then inr KeyEmpty
  else match parse_token tok 0 tok with
       | inr e => inr e
       | inl s => if String.eqb (KVKeyToken s) tok then inl s else inr (KeyNotCanonical tok s)
       end.

Fixpoint contains_dots (s : string) : bool :=
  match s with
  | String a (String b _ as s') => (Ascii.eqb a "." && Ascii.eqb b ".") || contains_dots s'
  | _ => false
  end.

Definition kv_char (c : ascii) : bool :=
  is_alnum c || Ascii.eqb c "-" || Ascii.eqb c "/" || Ascii.eqb c "_" || Ascii.eqb c "="
  || Ascii.eqb c ".".

Fixpoint last_is (c : ascii) (s : string) : bool :=
  match s with
  | EmptyString => false
  | String a EmptyString => Ascii.eqb a c
  | String _ s' => last_is c s'
  end.

Definition first_is (c : ascii) (s : string) : bool :=
  match s with String a _ => Ascii.eqb a c | EmptyString => false end.

Definition ValidKVKey (s : string) : bool :=
  if String.eqb s "" then false
  else if first_is "." s || last_is "." s then false
  else if contains_dots s then false
  else str_forall kv_char s.

(** ** The engine family (agents.go) *)

Definition EngineConsumerPrefix : string := "grab-engine-".
Definition StreamWorkEngine : string := "CLUSTARR_WORK_ENGINE".
Definition SampleFrequencyEngine : string := "100%".

Definition engineSubjectPrefix (client : string) (ordinal : Z) : string :=
  "clustarr.work.engine." +:+ KVKeyToken client +:+ "." +:+ fmt_d ordinal.

Definition WorkEngineSubject (client : string) (ordinal : Z) (entryUID : string) : string :=
  engineSubjectPrefix client ordinal +:+ "." +:+ KVKeyToken entryUID.

Definition WorkEngineResyncSubject (client : string) (ordinal : Z) : string :=
  engineSubjectPrefix client ordinal +:+ "._resync".

Definition WorkEngineIDSubject (client : string) (ordinal : Z) (downloadID : string) : string :=
  engineSubjectPrefix client ordinal +:+ "._id-" +:+ KVKeyToken downloadID.

Definition EngineConsumerName (client : string) (ordinal : Z) : string :=
  EngineConsumerPrefix +:+ KVKeyToken client +:+ "-" +:+ fmt_d ordinal.

(** ** Consumers (topology.go, consumerstate.go) *)

(** [ConsumerSpec]. *)
Record ConsumerSpec := mkConsumerSpec {
  csName : string;
  csStream : string;
  csDescription : string;
  csFilters : list string;
  csAckWait : Duration;
  csMaxDeliver : Z;
  csBackOff : list Duration;
  csMaxAckPending : Z;
  csSlots : Z;
  csHeartbeat : Duration;
  csHandlerTimeout : Duration;
  csSampleFrequency : string;
  csDispatched : bool;
  csRequeueOnStop : bool;
}.

#[export] Instance eta_ConsumerSpec : Eta ConsumerSpec :=
  fun c => mkConsumerSpec (csName c) (csStream c) (csDescription c) (csFilters c) (csAckWait c)
    (csMaxDeliver c) (csBackOff c) (csMaxAckPending c) (csSlots c) (csHeartbeat c)
    (csHandlerTimeout c) (csSampleFrequency c) (csDispatched c) (csRequeueOnStop c).
#[export] Instance set_csName : Setter csName. Proof. derive_setter. Defined.

(** ** Streams, buckets and object stores (topology.go, records.go) *)

Inductive Retention := RetentionLimits | RetentionInterest | RetentionWorkQueue.
Inductive Storage := StorageFile | StorageMemory.
Inductive DiscardPolicy := DiscardOld | DiscardNew.

#[export] Instance Retention_eq_dec : EqDecision Retention.
Proof. solve_decision. Defined.
#[export] Instance Storage_eq_dec : EqDecision Storage.
Proof. solve_decision. Defined.
#[export] Instance DiscardPolicy_eq_dec : EqDecision DiscardPolicy.
Proof. solve_decision. Defined.

(** [StreamSpec]. *)
Record StreamSpec := mkStreamSpec {
  ssName : string;
  ssDescription : string;
  ssSubjects : list string;
  ssRetention : Retention;
  ssStorage : Storage;
  ssDiscard : DiscardPolicy;
  ssMaxAge : Duration;
  ssMaxBytes : Z;
  ssDuplicates : Duration;
  ssReplicas : Z;
  ssDenyDelete : bool;
  ssCompression : bool;
  ssAllowMsgSchedules : bool;
  ssDurable : bool;
}.

#[export] Instance eta_StreamSpec : Eta StreamSpec :=
  fun s => mkStreamSpec (ssName s) (ssDescription s) (ssSubjects s) (ssRetention s) (ssStorage s)
    (ssDiscard s) (ssMaxAge s) (ssMaxBytes s) (ssDuplicates s) (ssReplicas s) (ssDenyDelete s)
    (ssCompression s) (ssAllowMsgSchedules s) (ssDurable s).
#[export] Instance set_ssStorage : Setter ssStorage. Proof. derive_setter. Defined.
#[export] Instance set_ssMaxBytes : Setter ssMaxBytes. Proof. derive_setter. Defined.
#[export] Instance set_ssReplicas : Setter ssReplicas. Proof. derive_setter. Defined.
#[export] Instance set_ssDenyDelete : Setter ssDenyDelete. Proof. derive_setter. Defined.
#[export] Instance set_ssCompression : Setter ssCompression. Proof. derive_setter. Defined.
#[export] Instance set_ssDurable : Setter ssDurable. Proof. derive_setter. Defined.

(** [BucketSpec]. *)
Record BucketSpec := mkBucketSpec {
  bsName : string;
  bsDescription : string;
  bsTTL : Duration;
  bsHistory : Z;
  bsStorage : Storage;
  bsReplicas : Z;
  bsLimitMarkerTTL : Duration;
  bsDurable : bool;
  bsRecords : bool;
  bsMaxBytes : Z;
  bsMaxValueSize : Z;
}.

#[export] Instance eta_BucketSpec : Eta BucketSpec :=
  fun b => mkBucketSpec (bsName b) (bsDescription b) (bsTTL b) (bsHistory b) (bsStorage b)
    (bsReplicas b) (bsLimitMarkerTTL b) (bsDurable b) (bsRecords b) (bsMaxBytes b) (bsMaxValueSize b).
#[export] Instance set_bsTTL : Setter bsTTL. Proof. derive_setter. Defined.
#[export] Instance set_bsStorage : Setter bsStorage. Proof. derive_setter. Defined.
#[export] Instance set_bsReplicas : Setter bsReplicas. Proof. derive_setter. Defined.
#[export] Instance set_bsDurable : Setter bsDurable. Proof. derive_setter. Defined.
#[export] Instance set_bsRecords : Setter bsRecords. Proof. derive_setter. Defined.
#[export] Instance set_bsMaxBytes : Setter bsMaxBytes. Proof. derive_setter. Defined.
#[export] Instance set_bsMaxValueSize : Setter bsMaxValueSize. Proof. derive_setter. Defined.

(** [ObjectStoreSpec]. *)
Record ObjectStoreSpec := mkObjectStoreSpec {
  osName : string;
  osDescription : string;
  osStorage : Storage;
  osMaxBytes : Z;
  osReplicas : Z;
  osMaxAge : Duration;
  osMetadata : gmap string string;
  osChunkSize : Z;
}.

#[export] Instance eta_ObjectStoreSpec : Eta ObjectStoreSpec :=
  fun o => mkObjectStoreSpec (osName o) (osDescription o) (osStorage o) (osMaxBytes o)
    (osReplicas o) (osMaxAge o) (osMetadata o) (osChunkSize o).
#[export] Instance set_osReplicas : Setter osReplicas. Proof. derive_setter. Defined.

(** [RetiredConsumer]. *)
Record RetiredConsumer := mkRetired { rcStream : string; rcDurable : string; rcPurge : string }.

(** [Topology]. *)
Record Topology := mkTopology {
  Streams : list StreamSpec;
  Consumers : list ConsumerSpec;
  Buckets : list BucketSpec;
  ObjectStores : list ObjectStoreSpec;
  Retired : list RetiredConsumer;
}.

#[export] Instance eta_Topology : Eta Topology :=
  fun t => mkTopology (Streams t) (Consumers t) (Buckets t) (ObjectStores t) (Retired t).
#[export] Instance set_Streams : Setter Streams. Proof. derive_setter. Defined.
#[export] Instance set_Consumers : Setter Consumers. Proof. derive_setter. Defined.
#[export] Instance set_Buckets : Setter Buckets. Proof. derive_setter. Defined.
#[export] Instance set_ObjectStores : Setter ObjectStores. Proof. derive_setter. Defined.

Fixpoint find_consumer (l : list ConsumerSpec) (name : string) : option ConsumerSpec :=
  match l with
  | [] => None
  | c :: l' => if String.eqb (csName c) name then Some c else find_consumer l' name
  end.

(** [Topology.Consumer]; [None] is its [false]. *)
Definition Consumer (t : Topology) (name : string) : option ConsumerSpec :=
  find_consumer (Consumers t) name.

Definition EngineConsumer (client : string) (ordinal : Z) : ConsumerSpec :=
  {| csName := EngineConsumerName client ordinal;
     csStream := StreamWorkEngine;
     csDescription := "One engine instance's commands.";
     csFilters := [engineSubjectPrefix client ordinal +:+ ".>"];
     csAckWait := 2 * Minute;
     csMaxDeliver := 20;
     csBackOff := [10 * Second; Minute; 5 * Minute; 15 * Minute];
     csMaxAckPending := 256;
     csSlots := 4;
     csHandlerTimeout := 2 * Minute;
     csHeartbeat := 30 * Second;
     csSampleFrequency := SampleFrequencyEngine;
     csDispatched := true;
     csRequeueOnStop := false |}.

(** [DefaultAckWait] (bus.go). *)
Definition DefaultAckWait : Duration := 30 * Second.

(** [ConsumerState]; [csPending] and [csAckPending] are [uint64]. *)
Record ConsumerState := mkConsumerState {
  stPending : Z;
  stAckPending : Z;
  stWaiting : Z;
  stMaxAckPending : Z;
  stObservedAt : Time;
}.

(** [ConsumerState.Lag]: [uint64] addition. *)
Definition Lag (s : ConsumerState) : Z := (stPending s + stAckPending s) mod (2 * two_p63).

(** ** Request errors (serve.go) *)

(** The sentinels [ClassifyRequestError] asks [errors.Is] about. *)
Inductive RequestError :=
  | ErrNoResponders
  | ErrResponderBusy
  | ErrTransient
  | DeadlineExceeded
  | NatsErrTimeout.

#[export] Instance RequestError_eq_dec : EqDecision RequestError.
Proof. solve_decision. Defined.

Inductive RequestErrorClass :=
  | RequestOK
  | RequestNoResponders
  | RequestBusy
  | RequestTimeout
  | RequestOther.

(** [None] is a nil error. *)
Definition ClassifyRequestError (err : option (list RequestError)) : RequestErrorClass :=
  match err with
  | None => RequestOK
  | Some e =>
      if errors_Is e ErrNoResponders then RequestNoResponders
      else if errors_Is e ErrResponderBusy || errors_Is e ErrTransient then RequestBusy
      else if errors_Is e DeadlineExceeded || errors_Is e NatsErrTimeout then RequestTimeout
      else RequestOther
  end.

(** ** Agent domains (src/pkg/agentdomain) *)

Record Domain := mkDomain {
  dmName : string;
  dmAutoscaled : bool;
  dmMinReplicas : Z;
  dmConsumers : list string;
  dmServes : list string;
  dmPerNode : bool;
}.

(** The durables and RPC verbs the table names (subjects.go, probe.go,
    agents.go). *)
Definition ConsumerCatalogSearchHigh : string := "catalog-search-high".
Definition ConsumerCatalogSearchNorm : string := "catalog-search-normal".
Definition ConsumerCatalogArtworkRender : string := "catalog-artwork-render".
Definition ConsumerCatalogRSSMatcher : string := "catalog-rss-matcher".
Definition ConsumerCatalogMetadata : string := "catalog-metadata".
Definition ConsumerCatalogArtworkFetch : string := "catalog-artwork-fetch".
Definition ConsumerCatalogMarkers : string := "catalog-markers".
Definition ConsumerImportScan : string := "import-scan".
Definition ConsumerImportFile : string := "import-fileimport".
Definition ConsumerImportList : string := "import-list".
Definition ConsumerImportRecycle : string := "import-recycle".
Definition ConsumerImportProbeHigh : string := "import-probe-high".
Definition ConsumerImportProbeLow : string := "import-probe-low".
Definition ConsumerIndexRSS : string := "index-rss".
Definition ConsumerCaptionFetchHigh : string := "caption-fetch-high".
Definition ConsumerCaptionFetchNormal : string := "caption-fetch-normal".
Definition ConsumerMarkersAnalyze : string := "markers-analyze".
Definition RPCIndexSearch : string := "clustarr.rpc.index.search".
Definition RPCIndexDownload : string := "clustarr.rpc.index.download".
Definition RPCIndexQuery : string := "clustarr.rpc.index.query".
Definition RPCIndexBlocklist : string := "clustarr.rpc.index.blocklist".
Definition RPCMetadataLookup : string := "clustarr.rpc.catalog.metadata.lookup".
Definition RPCMetadataSearch : string := "clustarr.rpc.catalog.metadata.search".
Definition RPCMetadataResolve : string := "clustarr.rpc.catalog.metadata.resolve".
Definition RPCMetadataExtras : string := "clustarr.rpc.catalog.metadata.extras".

Definition StreamAdvisories : string := "CLUSTARR_ADVISORIES".

Definition Domains : list Domain := [
  mkDomain "catalog" true 0
    [ConsumerCatalogSearchHigh; ConsumerCatalogSearchNorm; ConsumerCatalogArtworkRender] [] false;
  mkDomain "events" true 1 [ConsumerCatalogRSSMatcher] [] false;
  mkDomain "metadata" false 0
    [ConsumerCatalogMetadata; ConsumerCatalogArtworkFetch; ConsumerCatalogMarkers]
    [RPCMetadataLookup; RPCMetadataSearch; RPCMetadataResolve; RPCMetadataExtras] false;
  mkDomain "import" true 0
    [ConsumerImportScan; ConsumerImportFile; ConsumerImportList; ConsumerImportRecycle;
     ConsumerImportProbeHigh; ConsumerImportProbeLow] [] false;
  mkDomain "index" false 0 [ConsumerIndexRSS]
    [RPCIndexSearch; RPCIndexDownload; RPCIndexQuery; RPCIndexBlocklist] false;
  mkDomain "caption" true 0 [ConsumerCaptionFetchHigh; ConsumerCaptionFetchNormal] [] false;
  mkDomain "torrent-engine" false 0 [] [] false;
  mkDomain "usenet-engine" false 0 [] [] false;
  mkDomain "markers" true 0 [ConsumerMarkersAnalyze] [] true ].

(** [ServedBy]: the first domain that serves the verb. *)
Fixpoint served_by (l : list Domain) (subject : string) : option string :=
  match l with
  | [] => None
  | d :: l' =>
      if existsb (fun v => String.eqb v subject) (dmServes d) then Some (dmName d)
      else served_by l' subject
  end.

Definition ServedBy (subject : string) : option string := served_by Domains subject.

(** [ParseKVKeyToken] is the exact inverse of [KVKeyToken]; what the builders
    join is a key the broker accepts; engine durables are named injectively. *)

(** ** The escape of one byte *)

(** Every byte's two hex digits are alphanumeric and read back as the byte. *)
Lemma escape_byte c : exists h l,
  hex_encode [byte_of c] = String h (String l EmptyString) /\
  is_alnum h = true /\ is_alnum l = true /\
  hex_decode (String h (String l EmptyString)) = Some [byte_of c].
Proof.
  exists (hex_digit (byte_of c / 16)), (hex_digit (byte_of c mod 16)).
  split; [done |]. destruct c as [[] [] [] [] [] [] [] []]; vm_compute; auto.
Qed.

Lemma ascii_of_byte c : ascii_of (byte_of c) = c.
Proof. unfold ascii_of, byte_of. by rewrite N2Z.id, ascii_N_embedding. Qed.

Lemma alnum_not_dash c : is_alnum c = true -> Ascii.eqb c "-" = false.
Proof. destruct (Ascii.eqb c "-") eqn:E; [| done]. by apply Ascii.eqb_eq in E as ->. Qed.

Definition token_char (c : ascii) : bool := is_alnum c || Ascii.eqb c "-".

(** The three shapes a byte's token takes. *)
Lemma token_bytes_cons c s :
  (is_alnum c = true /\ token_bytes (String c s) = String c (token_bytes s)) \/
  (c = "-"%char /\ token_bytes (String c s) = String "-" (String "-" (token_bytes s))) \/
  (is_alnum c = false /\ c <> "-"%char /\ exists h l, is_alnum h = true /\ is_alnum l = true /\
    hex_decode (String h (String l EmptyString)) = Some [byte_of c] /\
    token_bytes (String c s) = String "-" (String h (String l (token_bytes s)))).
Proof.
  cbn [token_bytes]. destruct (is_alnum c) eqn:Ea; [by left |].
  destruct (Ascii.eqb c "-") eqn:Ed.
  - apply Ascii.eqb_eq in Ed as ->. right. left. done.
  - apply Ascii.eqb_neq in Ed. right. right. split; [done |]. split; [done |].
    destruct (escape_byte c) as (h & l & -> & Hh & Hl & Hd). exists h, l. by repeat split.
Qed.

Lemma token_bytes_chars s : str_forall token_char (token_bytes s) = true.
Proof.
  induction s as [| c s IH]; [done |].
  destruct (token_bytes_cons c s) as [[Ha ->] | [[-> ->] | (Ha & Hd & h & l & Hh & Hl & _ & ->)]];
    cbn; rewrite IH; unfold token_char; rewrite ?Ha, ?Hh, ?Hl; done.
Qed.

Lemma KVKeyToken_chars s : str_forall token_char (KVKeyToken s) = true.
Proof. unfold KVKeyToken. case_match; [done | apply token_bytes_chars]. Qed.

Lemma KVKeyToken_nonempty s : KVKeyToken s <> "".
Proof.
  unfold KVKeyToken. destruct (String.eqb s "") eqn:E; [done |]. bools.
  destruct s as [| c s]; [done |].
  by destruct (token_bytes_cons c s) as [[_ ->] | [[_ ->] | (_ & _ & h & l & _ & _ & _ & ->)]].
Qed.

(** ** The inverse *)

Lemma parse_token_bytes tok i s : parse_token tok i (token_bytes s) = inl s.
Proof.
  revert i. induction s as [| c s IH]; intros i; [done |].
  destruct (token_bytes_cons c s) as [[Ha ->] | [[-> ->] | (Ha & Hd & h & l & Hh & Hl & Hv & ->)]];
    cbn [parse_token]; rewrite ?IH.
  - by rewrite Ha.
  - done.
  - change (is_alnum "-") with false. change (Ascii.eqb "-" "-") with true. cbv iota.
    rewrite (alnum_not_dash h Hh), andb_false_r, Hv, ?IH, ascii_of_byte. done.
Qed.

Lemma token_bytes_not_empty_token s : s <> "" -> token_bytes s <> "-0".
Proof.
  destruct s as [| c s]; [done |]. intros _ H.
  destruct (token_bytes_cons c s) as [[Ha E] | [[-> E] | (_ & _ & h & l & _ & _ & _ & E)]];
    rewrite E in H; inversion H; subst; done.
Qed.

Lemma Parse_KVKeyToken s : ParseKVKeyToken (KVKeyToken s) = inl s.
Proof.
  unfold ParseKVKeyToken. destruct (String.eqb s "") eqn:E; bools; [by subst |].
  assert (KVKeyToken s = token_bytes s) as Ht by (unfold KVKeyToken; by destruct s).
  pose proof (KVKeyToken_nonempty s) as Hne. rewrite Ht in *.
  pose proof (token_bytes_not_empty_token s E) as Hz.
  apply String.eqb_neq in Hz as ->. apply String.eqb_neq in Hne as ->.
  rewrite parse_token_bytes, Ht, String.eqb_refl. done.
Qed.

Lemma Parse_is_KVKeyToken tok s : ParseKVKeyToken tok = inl s -> KVKeyToken s = tok.
Proof.
  unfold ParseKVKeyToken. destruct (String.eqb tok "-0") eqn:E0; [bools; intros [= <-]; by subst |].
  destruct (String.eqb tok "") eqn:E1; [done |].
  destruct (parse_token tok 0 tok) as [s' |]; [| done].
  destruct (String.eqb (KVKeyToken s') tok) eqn:E; [| done]. bools. intros [= <-]. done.
Qed.

Lemma KVKeyToken_inj s t : KVKeyToken s = KVKeyToken t -> s = t.
Proof.
  intros H. pose proof (Parse_KVKeyToken s) as Hs. rewrite H, Parse_KVKeyToken in Hs. congruence.
Qed.

(** ** Tokens hold no separator *)

Lemma token_no_sep c s : token_char c = false -> no_sep c (KVKeyToken s).
Proof. intros Hc. apply (no_sep_impl token_char); [done | apply KVKeyToken_chars]. Qed.

Lemma digits_no_sep c n : is_digit c = false -> 0 <= n -> no_sep c (fmt_d n).
Proof. intros Hc Hn. apply (no_sep_impl is_digit); [done | by apply fmt_d_digits]. Qed.

(** A key of token characters and inner dots, none doubled. *)
Lemma token_kv s : str_forall token_char s = true -> str_forall kv_char s = true.
Proof.
  apply str_forall_impl. intros c Hc. unfold token_char in Hc. unfold kv_char.
  apply orb_true_iff in Hc as [-> | ->]; [done |]. by rewrite orb_true_r.
Qed.

Lemma token_no_dots s : str_forall token_char s = true ->
  first_is "." s = false /\ last_is "." s = false /\ contains_dots s = false.
Proof.
  induction s as [| c s IH]; [done |]. cbn [str_forall]. intros Hs. bools.
  assert (Ascii.eqb c "." = false) as Hc.
  { destruct (Ascii.eqb c ".") eqn:E; [| done]. by apply Ascii.eqb_eq in E as ->. }
  destruct IH as (H1 & H2 & H3); [done |]. cbn. rewrite Hc. destruct s; [done |].
  by rewrite H2, H3.
Qed.

Lemma contains_dots_join s t : str_forall token_char s = true -> s <> "" ->
  first_is "." t = false -> contains_dots t = false -> t <> "" ->
  contains_dots (s +:+ String "." t) = false.
Proof.
  intros Hs Hne Hf Ht Htn. induction s as [| c s IH]; [done |].
  cbn [str_forall] in Hs. bools. rewrite app_cons.
  assert (Ascii.eqb c "." = false) as Hc.
  { destruct (Ascii.eqb c ".") eqn:E; [| done]. by apply Ascii.eqb_eq in E as ->. }
  destruct s as [| d s].
  - change ("" +:+ String "." t) with (String "." t). destruct t as [| e t]; [done |].
    cbn in *. rewrite Hc, Hf. rewrite Hf in Ht. exact Ht.
  - rewrite app_cons in *. cbn. rewrite Hc. apply IH; [done | done].
Qed.

Lemma last_is_app c s t : t <> "" -> last_is c (s +:+ t) = last_is c t.
Proof.
  intros Ht. induction s as [| a s IH]; [done |]. rewrite app_cons. cbn. rewrite IH.
  destruct (s +:+ t) eqn:E; [| done]. destruct s; [by subst | done].
Qed.

(** Round trip and canonicity: [ParseKVKeyToken] answers [s] exactly for
    the token [KVKeyToken] builds from [s], and an error for every other
    string, so a key read back names one id and no two ids share a key. *)
Theorem ParseKVKeyToken_spec (tok s : string) :
  ParseKVKeyToken tok = inl s <-> tok = KVKeyToken s.
Proof.
  split; [intros H; symmetry; by apply Parse_is_KVKeyToken |].
  intros ->. apply Parse_KVKeyToken.
Qed.

(** Whatever the ids (an unconstrained map of a resource's spec among
    them), the keys built from them are keys the broker accepts on put and on
    delete. *)
Theorem record_keys_valid (uid sub : string) :
  ValidKVKey (RecordKey uid) = true /\ ValidKVKey (RecordSubKey uid sub) = true.
Proof.
  pose proof (KVKeyToken_chars uid) as Hu. pose proof (KVKeyToken_nonempty uid) as Hun.
  pose proof (KVKeyToken_chars sub) as Hs. pose proof (KVKeyToken_nonempty sub) as Hsn.
  destruct (token_no_dots _ Hu) as (U1 & U2 & U3). destruct (token_no_dots _ Hs) as (S1 & S2 & S3).
  unfold ValidKVKey, RecordKey, RecordSubKey.
  change ("." +:+ KVKeyToken sub) with (String "." (KVKeyToken sub)).
  split.
  - rewrite U1, U2, U3. apply String.eqb_neq in Hun as ->. by apply token_kv.
  - rewrite last_is_app, contains_dots_join, str_forall_app by done.
    destruct (KVKeyToken uid) as [| c u] eqn:E; [done |]. rewrite app_cons. cbn in U1 |- *. rewrite U1.
    destruct (KVKeyToken sub) eqn:Es; [done |]. cbn [last_is] in S2 |- *. rewrite S2.
    rewrite (token_kv _ Hs), andb_true_r. exact (token_kv _ Hu).
Qed.

(** ** The engine family's addresses *)

Lemma engine_subject_split client ordinal t : 0 <= ordinal ->
  Split "." (engineSubjectPrefix client ordinal +:+ String "." t) =
  "clustarr" :: "work" :: "engine" :: KVKeyToken client :: fmt_d ordinal :: Split "." t.
Proof.
  intros Ho. unfold engineSubjectPrefix.
  replace (("clustarr.work.engine." +:+ KVKeyToken client +:+ "." +:+ fmt_d ordinal) +:+ String "." t)
    with ("clustarr" +:+ String "." ("work" +:+ String "." ("engine" +:+ String "."
      (KVKeyToken client +:+ String "." (fmt_d ordinal +:+ String "." t)))))
    by (cbn; by rewrite !str_app_assoc).
  rewrite !Split_sep; [done | by apply digits_no_sep | by apply token_no_sep | done..].
Qed.

Lemma engine_name_inj c c' o o' : 0 <= o -> 0 <= o' ->
  EngineConsumerName c o = EngineConsumerName c' o' -> c = c' /\ o = o'.
Proof.
  intros Ho Ho' H. unfold EngineConsumerName in H. apply app_inj_l in H.
  apply (dash_digits_inj _ _ (fmt_d o) (fmt_d o')) in H as [Hc Hf]; [| by apply fmt_d_digits..].
  split; [by apply KVKeyToken_inj | by apply fmt_d_inj].
Qed.

(** Two subjects of the family agree only in client, ordinal and last token. *)
Lemma engine_subject_inj c c' o o' t t' : 0 <= o -> 0 <= o' -> no_sep "." t -> no_sep "." t' ->
  engineSubjectPrefix c o +:+ String "." t = engineSubjectPrefix c' o' +:+ String "." t' ->
  c = c' /\ o = o' /\ t = t'.
Proof.
  intros Ho Ho' Ht Ht' H. apply (f_equal (Split ".")) in H.
  rewrite !engine_subject_split, !Split_last in H by done. injection H as H1 H2 H3.
  split; [by apply KVKeyToken_inj |]. split; [by apply fmt_d_inj | done].
Qed.

(** No token holds the underscore that opens the other commands' last token. *)
Lemma token_not_underscore s t : KVKeyToken s <> String "_" t.
Proof. intros H. pose proof (KVKeyToken_chars s) as Hs. rewrite H in Hs. done. Qed.

Lemma id_token_no_dot s : no_sep "." ("_id-" +:+ KVKeyToken s).
Proof. unfold no_sep. rewrite str_forall_app. exact (token_no_sep "." s eq_refl). Qed.

(** The engine family's addresses never collide: a durable names one
    client's one ordinal, and a command's subject one client, ordinal and
    entry, told apart from the resync command's and from a removal by download
    id. *)
Theorem engine_addresses_injective (c c' : string) (o o' : Z) (u u' : string) :
  0 <= o < two_p31 -> 0 <= o' < two_p31 ->
  (EngineConsumerName c o = EngineConsumerName c' o' -> c = c' /\ o = o') /\
  (WorkEngineSubject c o u = WorkEngineSubject c' o' u' -> c = c' /\ o = o' /\ u = u') /\
  (WorkEngineIDSubject c o u = WorkEngineIDSubject c' o' u' -> c = c' /\ o = o' /\ u = u') /\
  WorkEngineSubject c o u <> WorkEngineResyncSubject c' o' /\
  WorkEngineSubject c o u <> WorkEngineIDSubject c' o' u' /\
  WorkEngineIDSubject c o u <> WorkEngineResyncSubject c' o'.
Proof.
  intros Ho Ho'. pose proof (token_no_sep "." u eq_refl) as Hu.
  pose proof (token_no_sep "." u' eq_refl) as Hu'.
  unfold WorkEngineSubject, WorkEngineIDSubject, WorkEngineResyncSubject.
  change ("." +:+ KVKeyToken u) with (String "." (KVKeyToken u)).
  change ("." +:+ KVKeyToken u') with (String "." (KVKeyToken u')).
  change ("._id-" +:+ KVKeyToken u) with (String "." ("_id-" +:+ KVKeyToken u)).
  change ("._id-" +:+ KVKeyToken u') with (String "." ("_id-" +:+ KVKeyToken u')).
  split; [apply engine_name_inj; lia |].
  assert (forall t t', no_sep "." t -> no_sep "." t' ->
    engineSubjectPrefix c o +:+ String "." t = engineSubjectPrefix c' o' +:+ String "." t' ->
    c = c' /\ o = o' /\ t = t') as Hinj by (intros; apply engine_subject_inj; (done || lia)).
  split; [| split; [| repeat split]].
  - intros H. apply Hinj in H as (? & ? & ?); [| done..]. auto using KVKeyToken_inj.
  - intros H. apply Hinj in H as (? & ? & H); [| apply id_token_no_dot..].
    apply app_inj_l in H. auto using KVKeyToken_inj.
  - intros H. apply Hinj in H as (_ & _ & H); [| done..]. by apply token_not_underscore in H.
  - intros H. apply Hinj in H as (_ & _ & H); [| done | apply id_token_no_dot].
    by apply token_not_underscore in H.
  - intros H. apply Hinj in H as (_ & _ & H); [| apply id_token_no_dot | done]. done.
Qed.

Lemma engine_addresses_injective_witness :
  EngineConsumerName "a-b" 3 = "grab-engine-a--b-3" /\
  (WorkEngineSubject "a.b" 3 "u" = WorkEngineSubject "a.b" 3 "v" -> "u" = "v") /\
  WorkEngineSubject "a.b" 3 "u" <> WorkEngineResyncSubject "a.b" 3.
Proof.
  split; [reflexivity |].
  destruct (engine_addresses_injective "a.b" "a.b" 3 3 "u" "v") as (_ & H & _ & H' & _);
    [by vm_compute.. |].
  split; [intros E; apply H in E; apply E | exact H'].
Defined.
