(* ===== verification/Names.v ===== *)
(** * pkg/names: deterministic object names

    [NormalizeName], the digest-suffixed names built on it, and the ordinal a
    key hashes to. *)

From S2P Require Import Prelude GoLang Sha.
From Stdlib Require Import Ascii.

Definition MaxNameLength : nat := 253.
Definition MaxLabelValueLength : nat := 63.
Definition HashSuffixLength : nat := 10.

(** ** The regular expressions *)

(** A byte of [nonNameRunes], [[^a-z0-9.-]]: every byte of a multi-byte rune is
    one, so a run of such runes is a run of such bytes. *)
Definition name_char (a : ascii) : bool :=
  is_lower a || is_digit a || Ascii.eqb a "."%char || Ascii.eqb a "-"%char.

Definition sep_char (a : ascii) : bool := Ascii.eqb a "."%char || Ascii.eqb a "-"%char.

(** [nonNameRunes.ReplaceAllString(s, "-")]: each maximal run becomes one
    dash; [inrun] says that the byte before belongs to a run. *)
Fixpoint replace_nonName (inrun : bool) (s : string) : string :=
  match s with
  | EmptyString => EmptyString
  | String a s' =>
      if name_char a then String a (replace_nonName false s')
      else if inrun then replace_nonName true s'
      else String "-" (replace_nonName true s')
  end.

(** The replacement of one match of [dottedRuns]. *)
Definition dotted_run (run : string) : string :=
  if String.eqb run "." then run else "-".

(** A maximal run of separators; [dottedRuns] matches it when it holds a dot. *)
Definition flush_run (run : string) : string :=
  match run with
  | EmptyString => EmptyString
  | _ => if str_forall (fun a => negb (Ascii.eqb a "."%char)) run then run else dotted_run run
  end.

(** [dottedRuns.ReplaceAllStringFunc(s, ...)], [run] the separators read. *)
Fixpoint replace_dotted (run s : string) : string :=
  match s with
  | EmptyString => flush_run run
  | String a s' =>
      if sep_char a then replace_dotted (run +:+ String a EmptyString) s'
      else flush_run run +:+ String a (replace_dotted EmptyString s')
  end.

Section Names.
Context `{Unicode}.

Definition NormalizeName (s : string) : string :=
  let s := ToLower (TrimSpace s) in
  let s := replace_nonName false s in
  let s := replace_dotted EmptyString s in
  Trim sep_char s.

Definition HashSuffix (parts : list string) : string :=
  str_take HashSuffixLength (hex_encode (sha1 (bytes_of (Join parts "|")))).

Definition DeterministicName (target : string) (maxLen : Z) (parts : list string) : string :=
  let maxLen := if (maxLen <=? 0) || (Z.of_nat MaxNameLength <? maxLen)
                then Z.of_nat MaxNameLength else maxLen in
  let suffix := HashSuffix parts in
  let budget := maxLen - Z.of_nat (String.length suffix) - 1 in
  if budget <? 1 then suffix
  else
    let prefix := NormalizeName target in
    let prefix := if String.eqb prefix "" then "x" else prefix in
    let prefix := if budget <? Z.of_nat (String.length prefix)
                  then TrimRight sep_char (str_take (Z.to_nat budget) prefix) else prefix in
    let prefix := if String.eqb prefix "" then "x" else prefix in
    prefix +:+ "-" +:+ suffix.

Definition ChildName (target : string) (parts : list string) : string :=
  DeterministicName target (Z.of_nat MaxNameLength) parts.

Definition LabelSafeName (target : string) (parts : list string) : string :=
  DeterministicName target (Z.of_nat MaxLabelValueLength) parts.
End Names.

(** [HashOrdinal]: the first eight bytes of the digest, big-endian, modulo the
    replicas. *)
Definition HashOrdinal (replicas : Z) (parts : list string) : Z :=
  if replicas <=? 1 then 0
  else be_combine (take 8 (sha1 (bytes_of (Join parts "|")))) mod replicas.
