(* ===== verification/LcView.v ===== *)
(** * app/grab/lifecycle: the planner's vocabulary

    The constants ([constants.go]), the block scopes ([scope.go]) and the
    types [Decide] reads and answers ([view.go]). *)

From S2P Require Import Prelude GoLang Api.

(** ** constants.go: timings *)

Definition BlockQuarantine : Duration := Hour.
Definition RefusedHold : Duration := 24 * Hour.
Definition EngineTeardownTimeout : Duration := 10 * Minute.
Definition ResyncSettle : Duration := 2 * Minute.
Definition BlocklistTTL : Duration := 90 * 24 * Hour.
Definition ImportHoldRetention : Duration := 24 * Hour.
Definition RedownloadWindow : Duration := 24 * Hour.
Definition EngineRecordFresh : Duration := 2 * Minute.
Definition StallTimeout : Duration := 24 * Hour.
Definition RepublishWindow : Duration := 50 * Minute.
Definition RepublishEvery : Duration := 5 * Minute.
Definition MaxEntryMessage : nat := 1024.

(** ** constants.go: history actions, Event reasons and recorders *)

Definition ActionGrabbed : string := "grabbed".
Definition ActionCompleted : string := "completed".
Definition ActionSeedGoalMet : string := "seedGoalMet".
Definition ActionImported : string := "imported".
Definition ActionFailed : string := "failed".
Definition ActionBlocklisted : string := "blocklisted".
Definition ActionRemoved : string := "removed".

Definition RecorderDownloads : string := "downloads".

Definition ReasonDownloadAddFailed : string := "DownloadAddFailed".
Definition ReasonEngineGone : string := "EngineGone".
Definition ReasonSeedingLost : string := "SeedingLost".
Definition ReasonCommandRetrying : string := "CommandRetrying".
Definition ReasonInvalidAnnotation : string := "InvalidAnnotation".
Definition ReasonNothingToRemove : string := "NothingToRemove".
Definition ReasonNothingToResume : string := "NothingToResume".
Definition ReasonTransferOwnerGone : string := "TransferOwnerGone".
Definition ReasonSupersededByPack : string := "SupersededByPack".

Definition EventNormal : string := "Normal".
Definition EventWarning : string := "Warning".

(** [nextSeq]: above the record's and the status's, and never below the
    clock's millisecond.  Both increments are [int64] ones. *)
Definition nextSeq (recordSeq statusSeq : Z) (now : Time) : Z :=
  Z.max (Z.max (wrap64 (recordSeq + 1)) (wrap64 (statusSeq + 1))) (UnixMilli now).

(** [NextSeq] of transitions.go, the exported name. *)
Definition NextSeq (recordSeq statusSeq : Z) (now : Time) : Z := nextSeq recordSeq statusSeq now.

(** ** scope.go *)

Definition ScopeFor (reason : DownloadFailureReason) : BlockScope :=
  match reason with
  | DownloadFailureEncrypted | DownloadFailurePayloadMismatch
  | DownloadFailureMissingArticles => BlockScopeGlobal
  | _ => BlockScopeItem
  end.

Definition scopeString (scope : BlockScope) (owner : ItemRef) : string :=
  match scope with
  | BlockScopeGlobal => schema_BlockScopeGlobal
  | BlockScopeItem => BlockScopeOf owner
  end.

(** ** view.go: what Decide reads *)

(** A DownloadClient, as the stage reads it. *)
Record Client := mkClient {
  clName : string;
  clUID : string;
  clProtocol : Protocol;
  clEnabled : bool;
  clPriority : Z;
  clReplicas : Z;
  clRemoveCompleted : bool;
  clStallTimeout : Duration;
  clDownloadTimeout : Duration;
  clHealthAction : HealthAction;
  clSeed : option SeedCriteria;
  clCategories : gmap string string;
  clResyncSeq : Z;
}.

(** Go's zero [Client], what a map lookup that misses answers. *)
Definition zero_Client : Client :=
  mkClient "" "" (ProtocolOther "") false 0 0 false 0 0 (HealthActionOther "") None ∅ 0.

(** An engine instance, from its record. *)
Record Engine := mkEngine {
  enName : string;
  enClient : string;
  enOrdinal : Z;
  enReady : bool;
  enReattached : bool;
  enBootID : string;
  enResyncSeq : Z;
  enActive : Z;
  enQueued : Z;
  enAt : Time;
  enReattachedAt : Time;
}.

Definition zero_Engine : Engine := mkEngine "" "" 0 false false "" 0 0 0 0 0.

(** A transfer record and its KV revision. *)
Record Transfer := mkTransfer {
  tRecord : TransferRecord;
  tRevision : Z;
}.

(** download.clustarr.io/import. *)
Record ImportIntent := mkImportIntent {
  iiNonce : string;
  iiID : string;
  iiTarget : option ItemRef;
  iiTargetKey : string;
  iiOverride : bool;
}.

#[export] Instance eta_ImportIntent : Eta ImportIntent :=
  fun r => mkImportIntent (iiNonce r) (iiID r) (iiTarget r) (iiTargetKey r)
    (iiOverride r).
#[export] Instance set_iiNonce : Setter iiNonce. Proof. derive_setter. Defined.
#[export] Instance set_iiID : Setter iiID. Proof. derive_setter. Defined.
#[export] Instance set_iiTarget : Setter iiTarget. Proof. derive_setter. Defined.
#[export] Instance set_iiTargetKey : Setter iiTargetKey. Proof. derive_setter. Defined.
#[export] Instance set_iiOverride : Setter iiOverride. Proof. derive_setter. Defined.

(** download.clustarr.io/remove. *)
Record RemoveIntent := mkRemoveIntent {
  riNonce : string;
  riID : string;
  riData : bool;
  riBlocklist : bool;
}.

#[export] Instance eta_RemoveIntent : Eta RemoveIntent :=
  fun r => mkRemoveIntent (riNonce r) (riID r) (riData r) (riBlocklist r).
#[export] Instance set_riNonce : Setter riNonce. Proof. derive_setter. Defined.
#[export] Instance set_riID : Setter riID. Proof. derive_setter. Defined.
#[export] Instance set_riData : Setter riData. Proof. derive_setter. Defined.
#[export] Instance set_riBlocklist : Setter riBlocklist. Proof. derive_setter. Defined.

(** download.clustarr.io/resume. *)
Record ResumeIntent := mkResumeIntent {
  reNonce : string;
  reID : string;
}.

(** download.clustarr.io/unblock. *)
Record UnblockIntent := mkUnblockIntent {
  uiNonce : string;
  uiInfoHash : string;
  uiIndexer : string;
  uiGUID : string;
  uiGlobal : bool;
}.

#[export] Instance eta_UnblockIntent : Eta UnblockIntent :=
  fun r => mkUnblockIntent (uiNonce r) (uiInfoHash r) (uiIndexer r) (uiGUID r)
    (uiGlobal r).
#[export] Instance set_uiNonce : Setter uiNonce. Proof. derive_setter. Defined.
#[export] Instance set_uiInfoHash : Setter uiInfoHash. Proof. derive_setter. Defined.
#[export] Instance set_uiIndexer : Setter uiIndexer. Proof. derive_setter. Defined.
#[export] Instance set_uiGUID : Setter uiGUID. Proof. derive_setter. Defined.
#[export] Instance set_uiGlobal : Setter uiGlobal. Proof. derive_setter. Defined.

(** An annotation value that did not parse. *)
Record InvalidIntent := mkInvalidIntent {
  ivAnnotation : string;
  ivValue : string;
  ivReason : string;
}.

(** What the owner's download annotations ask; [inRaw] is the unexported [raw]. *)
Record Intents := mkIntents {
  inPaused : gmap string bool;
  inPriority : gmap string string;
  inRemove : option RemoveIntent;
  inResume : option ResumeIntent;
  inImport : option ImportIntent;
  inUnblock : option UnblockIntent;
  inInvalid : list InvalidIntent;
  inRaw : gmap string string;
}.

#[export] Instance eta_Intents : Eta Intents :=
  fun r => mkIntents (inPaused r) (inPriority r) (inRemove r) (inResume r) (inImport r)
    (inUnblock r) (inInvalid r) (inRaw r).
#[export] Instance set_inPaused : Setter inPaused. Proof. derive_setter. Defined.
#[export] Instance set_inPriority : Setter inPriority. Proof. derive_setter. Defined.
#[export] Instance set_inRemove : Setter inRemove. Proof. derive_setter. Defined.
#[export] Instance set_inResume : Setter inResume. Proof. derive_setter. Defined.
#[export] Instance set_inImport : Setter inImport. Proof. derive_setter. Defined.
#[export] Instance set_inUnblock : Setter inUnblock. Proof. derive_setter. Defined.
#[export] Instance set_inInvalid : Setter inInvalid. Proof. derive_setter. Defined.
#[export] Instance set_inRaw : Setter inRaw. Proof. derive_setter. Defined.

(** The desired state a seq carried, by hash. *)
Record IssuedCommand := mkIssuedCommand {
  icSeq : Z;
  icHash : string;
  icAt : Time;
}.

(** The release index's answer to a block or unblock call. *)
Record BlockReply := mkBlockReply {
  bpSeq : Z;
  bpApplied : bool;
  bpStale : bool;
  bpAt : Time;
}.

(** importplan's outcome for one entry. *)
Inductive ImportVerdict :=
  | ImportNone
  | ImportImported
  | ImportReleaseFault
  | ImportHeld
  | ImportExpired
  | ImportRetry.

#[export] Instance ImportVerdict_eq_dec : EqDecision ImportVerdict.
Proof. solve_decision. Defined.

(** [catalogv1alpha1.ImportSource]. *)
Record ImportSource := mkImportSource {
  imDownloadRef : string;
  imReleaseTitle : string;
  imIndexerName : string;
  imProtocol : Protocol;
  imImportedAt : Time;
  imManual : bool;
  imInfoHash : string;
}.

(** [schema.FrozenFields]. *)
Record FrozenFields := mkFrozenFields {
  ffQuality : option Quality;
  ffRevision : option Revision;
  ffReleaseType : string;
  ffReleaseGroup : string;
  ffEdition : option string;
  ffLanguages : list string;
  ffFormatScore : option Z;
  ffMatchedFormats : list string;
  ffProfileHash : string;
  ffOriginal : option bool;
  ffTrack : string;
}.

(** [schema.MediaFileBasis]. *)
Record MediaFileBasis := mkMediaFileBasis {
  mbName : string;
  mbUID : string;
  mbResourceVersion : string;
  mbPath : string;
  mbSpecHash : string;
}.

(** Materialises one placed file's MediaFile spec. *)
Record ApplyMediaFile := mkApplyMediaFile {
  amName : string;
  amRV : string;
  amRef : MediaRef;
  amPath : string;
  amSizeBytes : Z;
  amModTime : Time;
  amFrozen : FrozenFields;
  amFrom : ImportSource;
}.

(** One MediaFile apply, one delete, or files to remove. *)
Record Materialise := mkMaterialise {
  mtApply : option ApplyMediaFile;
  mtDelete : option MediaFileBasis;
  mtRemove : list string;
}.

(** ** The import tasks (src/pkg/events/schema/imports.go) *)

Definition ImportSubInspect : string := "inspect".
Definition ImportSubExecute : string := "execute".

Definition ImportModeHardlink : string := "hardlink".
Definition ImportModeMove : string := "move".
Definition ImportModeCopy : string := "copy".

(** [schema.ImportPart]: one more part of a set. *)
Record ImportPart := mkImportPart {
  ipPart : Z;
  ipEntry : EntryRef;
  ipTitle : string;
  ipContentRoot : string;
  ipOutputPath : string;
  ipFiles : list TransferFile;
}.

(** [schema.ImportInspectTask]. *)
Record ImportInspectTask := mkImportInspectTask {
  itSeq : Z;
  itOwner : ItemRef;
  itEntry : EntryRef;
  itContentRoot : string;
  itOutputPath : string;
  itFiles : list TransferFile;
  itRelease : CommandRelease;
  itProtocol : Protocol;
  itTargets : list ItemRef;
  itEpisodes : list EpisodeNo;
  itIssues : list string;
  itQualityProfile : string;
  itPurpose : DownloadPurpose;
  itGrabbedBy : GrabSource;
  itManual : bool;
  itOverride : bool;
  itTargetOverride : option ItemRef;
  itPart : Z;
  itParts : list ImportPart;
}.

(** [schema.ImportMove]: places one file. *)
Record ImportMove := mkImportMove {
  mvSource : string;
  mvDest : string;
  mvTarget : ItemRef;
  mvKeys : list string;
  mvMediaFileName : string;
  mvFrozen : FrozenFields;
  mvJoin : list string;
}.

(** [schema.DonorPlan]. *)
Record DonorPlan := mkDonorPlan {
  dpnSource : string;
  dpnDir : string;
  dpnDest : string;
  dpnAnchor : string;
  dpnLanguages : list string;
}.

(** [schema.ImportPlan]: what the import planner approved. *)
Record ImportPlan := mkImportPlan {
  ipnMode : string;
  ipnMoves : list ImportMove;
  ipnReplaces : list MediaFileBasis;
  ipnDonor : option DonorPlan;
  ipnRootFolder : string;
  ipnRecycleBin : string;
  ipnMinFreeBytes : Z;
}.

(** [schema.ImportExecuteTask]. *)
Record ImportExecuteTask := mkImportExecuteTask {
  xtSeq : Z;
  xtOwner : ItemRef;
  xtEntry : EntryRef;
  xtPlan : ImportPlan;
}.

(** [Task any]: the task a dispatch carries. *)
Inductive ImportTask :=
  | NoTask
  | InspectTask (t : ImportInspectTask)
  | ExecuteTask (t : ImportExecuteTask).

(** One inspect or execute task owed. *)
Record ImportDispatch := mkImportDispatch {
  imdEntryUID : string;
  imdPhase : string;
  imdSeq : Z;
  imdSubject : string;
  imdMsgID : string;
  imdTask : ImportTask;
  imdRepublish : bool;
}.

#[export] Instance eta_ImportDispatch : Eta ImportDispatch :=
  fun r => mkImportDispatch (imdEntryUID r) (imdPhase r) (imdSeq r) (imdSubject r)
    (imdMsgID r) (imdTask r) (imdRepublish r).
#[export] Instance set_imdEntryUID : Setter imdEntryUID. Proof. derive_setter. Defined.
#[export] Instance set_imdPhase : Setter imdPhase. Proof. derive_setter. Defined.
#[export] Instance set_imdSeq : Setter imdSeq. Proof. derive_setter. Defined.
#[export] Instance set_imdSubject : Setter imdSubject. Proof. derive_setter. Defined.
#[export] Instance set_imdMsgID : Setter imdMsgID. Proof. derive_setter. Defined.
#[export] Instance set_imdTask : Setter imdTask. Proof. derive_setter. Defined.
#[export] Instance set_imdRepublish : Setter imdRepublish. Proof. derive_setter. Defined.

(** importplan's decision for one Completed entry. *)
Record ImportDecision := mkImportDecision {
  idSummary : DownloadImportSummary;
  idDispatch : option ImportDispatch;
  idMaterialise : list Materialise;
  idVerdict : ImportVerdict;
  idClass : ImportRejectionClass;
  idAnswered : Z;
  idDue : Time;
}.

(** Everything [Decide] reads for one owner. *)
Record View := mkView {
  vOwner : ItemRef;
  vProviderID : string;
  vProviderVerified : bool;
  vKind : string;
  vNow : Time;
  vDeleting : bool;
  vMonitored : bool;
  vHasFile : bool;
  vEntryCap : Z;
  vStored : list DownloadEntry;
  vNonces : DownloadNonces;
  vIntents : Intents;
  vNewEntries : list DownloadEntry;
  vTransfers : gmap string Transfer;
  vUnclaimed : list Transfer;
  vClients : list Client;
  vEngines : gmap string Engine;
  vFiles : gmap string Z;
  vImport : gmap string ImportDecision;
  vBlocks : gmap string BlockReply;
  vUnblocked : gmap string bool;
  vSearched : gmap ItemRef Time;
  vUnmonitored : gmap ItemRef bool;
  vSatisfied : gmap ItemRef bool;
  vCovered : gmap string (list ItemRef);
  vRemoved : gmap string bool;
  vIssued : gmap string IssuedCommand;
  vStillWants : option (TransferClaim -> bool * string);
  vIndexerClient : gmap string string;
}.

#[export] Instance eta_View : Eta View :=
  fun r => mkView (vOwner r) (vProviderID r) (vProviderVerified r) (vKind r) (vNow r)
    (vDeleting r) (vMonitored r) (vHasFile r) (vEntryCap r) (vStored r) (vNonces r)
    (vIntents r) (vNewEntries r) (vTransfers r) (vUnclaimed r) (vClients r) (vEngines r)
    (vFiles r) (vImport r) (vBlocks r) (vUnblocked r) (vSearched r) (vUnmonitored r)
    (vSatisfied r) (vCovered r) (vRemoved r) (vIssued r) (vStillWants r)
    (vIndexerClient r).
#[export] Instance set_vOwner : Setter vOwner. Proof. derive_setter. Defined.
#[export] Instance set_vProviderID : Setter vProviderID. Proof. derive_setter. Defined.
#[export] Instance set_vProviderVerified : Setter vProviderVerified. Proof. derive_setter. Defined.
#[export] Instance set_vKind : Setter vKind. Proof. derive_setter. Defined.
#[export] Instance set_vNow : Setter vNow. Proof. derive_setter. Defined.
#[export] Instance set_vDeleting : Setter vDeleting. Proof. derive_setter. Defined.
#[export] Instance set_vMonitored : Setter vMonitored. Proof. derive_setter. Defined.
#[export] Instance set_vHasFile : Setter vHasFile. Proof. derive_setter. Defined.
#[export] Instance set_vEntryCap : Setter vEntryCap. Proof. derive_setter. Defined.
#[export] Instance set_vStored : Setter vStored. Proof. derive_setter. Defined.
#[export] Instance set_vNonces : Setter vNonces. Proof. derive_setter. Defined.
#[export] Instance set_vIntents : Setter vIntents. Proof. derive_setter. Defined.
#[export] Instance set_vNewEntries : Setter vNewEntries. Proof. derive_setter. Defined.
#[export] Instance set_vTransfers : Setter vTransfers. Proof. derive_setter. Defined.
#[export] Instance set_vUnclaimed : Setter vUnclaimed. Proof. derive_setter. Defined.
#[export] Instance set_vClients : Setter vClients. Proof. derive_setter. Defined.
#[export] Instance set_vEngines : Setter vEngines. Proof. derive_setter. Defined.
#[export] Instance set_vFiles : Setter vFiles. Proof. derive_setter. Defined.
#[export] Instance set_vImport : Setter vImport. Proof. derive_setter. Defined.
#[export] Instance set_vBlocks : Setter vBlocks. Proof. derive_setter. Defined.
#[export] Instance set_vUnblocked : Setter vUnblocked. Proof. derive_setter. Defined.
#[export] Instance set_vSearched : Setter vSearched. Proof. derive_setter. Defined.
#[export] Instance set_vUnmonitored : Setter vUnmonitored. Proof. derive_setter. Defined.
#[export] Instance set_vSatisfied : Setter vSatisfied. Proof. derive_setter. Defined.
#[export] Instance set_vCovered : Setter vCovered. Proof. derive_setter. Defined.
#[export] Instance set_vRemoved : Setter vRemoved. Proof. derive_setter. Defined.
#[export] Instance set_vIssued : Setter vIssued. Proof. derive_setter. Defined.
#[export] Instance set_vStillWants : Setter vStillWants. Proof. derive_setter. Defined.
#[export] Instance set_vIndexerClient : Setter vIndexerClient. Proof. derive_setter. Defined.

(** A Go [map] read that misses answers the zero value. *)
Definition map_true {K} `{Countable K} (m : gmap K bool) (k : K) : bool := default false (m !! k).
Definition map_str {K} `{Countable K} (m : gmap K string) (k : K) : string := default "" (m !! k).
Definition map_int {K} `{Countable K} (m : gmap K Z) (k : K) : Z := default 0 (m !! k).

(** ** view.go: what Decide answers *)

(** One engine command owed; Subject and MsgID are the stage's to render. *)
Record Command := mkCommand {
  cEngine : string;
  cClient : string;
  cOrdinal : Z;
  cBootID : string;
  cSubject : string;
  cMsgID : string;
  cCmd : EngineCommand;
  cRetry : bool;
}.

#[export] Instance eta_Command : Eta Command :=
  fun r => mkCommand (cEngine r) (cClient r) (cOrdinal r) (cBootID r) (cSubject r)
    (cMsgID r) (cCmd r) (cRetry r).
#[export] Instance set_cEngine : Setter cEngine. Proof. derive_setter. Defined.
#[export] Instance set_cClient : Setter cClient. Proof. derive_setter. Defined.
#[export] Instance set_cOrdinal : Setter cOrdinal. Proof. derive_setter. Defined.
#[export] Instance set_cBootID : Setter cBootID. Proof. derive_setter. Defined.
#[export] Instance set_cSubject : Setter cSubject. Proof. derive_setter. Defined.
#[export] Instance set_cMsgID : Setter cMsgID. Proof. derive_setter. Defined.
#[export] Instance set_cCmd : Setter cCmd. Proof. derive_setter. Defined.
#[export] Instance set_cRetry : Setter cRetry. Proof. derive_setter. Defined.

(** One owed blocklist call. *)
Record BlockCall := mkBlockCall {
  bcEntryUID : string;
  bcNonce : string;
  bcReq : BlocklistRequest;
}.

(** A direct-source grab to count. *)
Record DirectGrab := mkDirectGrab {
  dgIndexerRef : string;
  dgEntryUID : string;
  dgAt : Time;
}.

(** One Kubernetes Event the plan owes. *)
Record Event := mkEvent {
  evnRecorder : string;
  evnType : string;
  evnReason : string;
  evnMessage : string;
  evnOn : option ItemRef;
}.

(** [Decide]'s answer. *)
Record Plan := mkPlan {
  pEntries : list DownloadEntry;
  pPhase : DownloadPhase;
  pNonces : DownloadNonces;
  pCommands : list Command;
  pBlocks : list BlockCall;
  pRemovals : list string;
  pImports : list ImportDispatch;
  pMaterialise : list Materialise;
  pHistory : list DownloadEvent;
  pEvents : list Event;
  pRedownloads : list ItemRef;
  pDirectGrabs : list DirectGrab;
  pFinalizer : option bool;
  pIssued : gmap string IssuedCommand;
  pDue : Time;
}.

#[export] Instance eta_Plan : Eta Plan :=
  fun r => mkPlan (pEntries r) (pPhase r) (pNonces r) (pCommands r) (pBlocks r)
    (pRemovals r) (pImports r) (pMaterialise r) (pHistory r) (pEvents r)
    (pRedownloads r) (pDirectGrabs r) (pFinalizer r) (pIssued r) (pDue r).
#[export] Instance set_pEntries : Setter pEntries. Proof. derive_setter. Defined.
#[export] Instance set_pPhase : Setter pPhase. Proof. derive_setter. Defined.
#[export] Instance set_pNonces : Setter pNonces. Proof. derive_setter. Defined.
#[export] Instance set_pCommands : Setter pCommands. Proof. derive_setter. Defined.
#[export] Instance set_pBlocks : Setter pBlocks. Proof. derive_setter. Defined.
#[export] Instance set_pRemovals : Setter pRemovals. Proof. derive_setter. Defined.
#[export] Instance set_pImports : Setter pImports. Proof. derive_setter. Defined.
#[export] Instance set_pMaterialise : Setter pMaterialise. Proof. derive_setter. Defined.
#[export] Instance set_pHistory : Setter pHistory. Proof. derive_setter. Defined.
#[export] Instance set_pEvents : Setter pEvents. Proof. derive_setter. Defined.
#[export] Instance set_pRedownloads : Setter pRedownloads. Proof. derive_setter. Defined.
#[export] Instance set_pDirectGrabs : Setter pDirectGrabs. Proof. derive_setter. Defined.
#[export] Instance set_pFinalizer : Setter pFinalizer. Proof. derive_setter. Defined.
#[export] Instance set_pIssued : Setter pIssued. Proof. derive_setter. Defined.
#[export] Instance set_pDue : Setter pDue. Proof. derive_setter. Defined.

Definition zero_Plan : Plan :=
  mkPlan [] DownloadPhaseUnset (mkDownloadNonces "" "" "" "") [] [] [] [] [] [] [] [] [] None ∅ 0.

(** Code outside the repository that the planner calls: [json.Marshal] of an
    [EngineCommand] (its Quantity and Duration fields are marshalled by
    k8s.io/apimachinery), read only through the hash of its result. *)
Class Marshal := { json_EngineCommand : EngineCommand -> string }.
