(* ===== verification/LcChoose.v ===== *)
(** * app/grab/lifecycle/choose.go: the client and the engine of a grab

    Which DownloadClient takes a grab, which of its engine instances, and the
    names of both; [splitEngine] and [clampString] of plan.go are here too,
    being their inverses and helpers. *)

From S2P Require Import Prelude GoLang Sha Api Names LcView.
From Stdlib Require Import Ascii.

(** ** Definitions *)

(** [itoa].  Negation is [int32]'s; the 12-byte buffer holds every digit. *)
Definition itoa (n : Z) : string :=
  if n =? 0 then "0"
  else
    let neg := n <? 0 in
    let n := if neg then wrap32 (- n) else n in
    let s := dec_loop 12 n EmptyString in
    if neg then String "-" s else s.

Definition EngineName (client : string) (ordinal : Z) : string :=
  client +:+ "-" +:+ itoa ordinal.

(** The digit scan of [splitEngine], in [int32]; [None] is its early return. *)
Fixpoint scan_digits (s : string) (n : Z) : option Z :=
  match s with
  | EmptyString => Some n
  | String r s' =>
      if is_digit r then scan_digits s' (wrap32 (n * 10 + (byte_of r - 48))) else None
  end.

(** [splitEngine]: the client, the ordinal, and whether the name parsed. *)
Definition splitEngine (engine : string) : string * Z * bool :=
  match LastIndex "-"%char engine with
  | None | Some O => (EmptyString, 0, false)
  | Some i =>
      if Nat.eqb i (String.length engine - 1) then (EmptyString, 0, false)
      else match scan_digits (str_drop (S i) engine) 0 with
           | Some n => (str_take i engine, n, true)
           | None => (EmptyString, 0, false)
           end
  end.

(** [engineReady]. *)
Definition engineReady (e : Engine) (now : Time) : bool :=
  enReady e && negb (IsZero (enAt e)) && (Sub now (enAt e) <=? EngineRecordFresh).

Definition eligible (protocol : Protocol) (c : Client) : bool :=
  clEnabled c && bool_decide (clProtocol c = protocol).

(** The comparison of [ChooseClient]'s loop. *)
Definition better_client (c best : Client) : bool :=
  (clPriority c <? clPriority best)
  || ((clPriority c =? clPriority best) && String.ltb (clName c) (clName best)).

Definition choose_step (protocol : Protocol) (best : option Client) (c : Client) : option Client :=
  if negb (eligible protocol c) then best
  else match best with
       | None => Some c
       | Some b => if better_client c b then Some c else best
       end.

(** [ChooseClient]; [None] is [ok = false]. *)
Definition ChooseClient (clients : list Client) (protocol : Protocol)
    (indexerClientRef : string) : option Client :=
  let named :=
    if String.eqb indexerClientRef "" then None
    else List.find (fun c => String.eqb (clName c) indexerClientRef && eligible protocol c) clients in
  match named with
  | Some c => Some c
  | None => fold_left (choose_step protocol) clients None
  end.

(** One turn of [ChooseOrdinal]'s loop over [best] and [bestLoad]. *)
Definition ordinal_step (c : Client) (engines : gmap string Engine) (hashed : Z) (now : Time)
    (acc : Z * Z) (o : Z) : Z * Z :=
  let '(best, bestLoad) := acc in
  match engines !! EngineName (clName c) o with
  | None => acc
  | Some e =>
      if negb (engineReady e now) then acc
      else
        let load := wrap32 (enActive e + enQueued e) in
        if (best <? 0) || (load <? bestLoad) then (o, load)
        else if (load =? bestLoad) && (o =? hashed) then (o, bestLoad)
        else acc
  end.

Definition replicas_of (c : Client) : Z :=
  match clProtocol c with
  | ProtocolUsenet => 1
  | _ => Z.max (clReplicas c) 1
  end.

(** [ChooseOrdinal]: the ordinal, and whether an instance is Ready. *)
Definition ChooseOrdinal (c : Client) (engines : gmap string Engine)
    (infoHash guid : string) (now : Time) : Z * bool :=
  let replicas := replicas_of c in
  let hashed := HashOrdinal replicas [infoHash; guid] in
  let '(best, _) := fold_left (ordinal_step c engines hashed now) (seqZ 0 replicas) (-1, 0) in
  (best, 0 <=? best).

Section Ids.
Context `{Unicode}.

Definition EntryID (target : string) (purpose : DownloadPurpose) (guid : string) : string :=
  if negb (String.eqb purpose "") then ChildName target [purpose; guid]
  else ChildName target [guid].

Definition OverrideEntryID (id uid : string) : string :=
  ChildName id ["override"; uid].
End Ids.

(** [clampString]: at most [n] bytes of [s], cut on a rune boundary. *)
Definition clampString (s : string) (n : nat) : string :=
  if (String.length s <=? n)%nat then s else str_take (rune_floor s n) s.
