(* ===== verification/LcIntents.v ===== *)
(** * app/grab/lifecycle/intents.go: the owner's download annotations

    Parsing of the six annotations into [Intents], and the nonce bookkeeping
    that makes each one-shot annotation act once. *)

From S2P Require Import Prelude GoLang Sha Api LcView.
From Stdlib Require Import Ascii.

(** ** Definitions *)

(** [fields]: split on commas, spaces, tabs and newlines. *)
Definition fields_sep (a : ascii) : bool :=
  Ascii.eqb a ","%char || Ascii.eqb a " "%char
  || (byte_of a =? 9) || (byte_of a =? 10).
Definition fields (v : string) : list string := fields_func fields_sep v.

Section Intents.
Context `{Unicode}.

(** [kindName]. *)
Definition kindName (k : string) : string :=
  let l := ToLower k in
  if String.eqb l "movie" then "Movie"
  else if String.eqb l "series" then "Series"
  else if String.eqb l "episode" then "Episode"
  else if String.eqb l "album" then "Album"
  else if String.eqb l "book" then "Book"
  else if String.eqb l "audiobook" then "Audiobook"
  else if String.eqb l "comic" then "Comic"
  else if String.eqb l "issue" then "Issue"
  else k.

(** The token loops of [parseOneShot]; [inr] is the reason of an early
    return. *)
Fixpoint remove_tokens (r : RemoveIntent) (rest : list string) : RemoveIntent + string :=
  match rest with
  | [] => inl r
  | t :: rest' =>
      if String.eqb t "data" then remove_tokens (r <| riData := true |>) rest'
      else if String.eqb t "blocklist" then remove_tokens (r <| riBlocklist := true |>) rest'
      else inr "remove takes only data and blocklist after the id"
  end.

Fixpoint import_tokens (im : ImportIntent) (rest : list string) : ImportIntent + string :=
  match rest with
  | [] => inl im
  | t :: rest' =>
      if String.eqb t "override" then import_tokens (im <| iiOverride := true |>) rest'
      else if HasPrefix t "target=" then
        match Split "/"%char (TrimPrefix t "target=") with
        | [p0; p1] =>
            if String.eqb p0 "" || String.eqb p1 "" then inr "target wants <kind>/<name>[/<key>]"
            else import_tokens
                   (im <| iiTarget := Some (mkItemRef (kindName p0) (mkRef "" p1 "")) |>) rest'
        | [p0; p1; p2] =>
            if String.eqb p0 "" || String.eqb p1 "" then inr "target wants <kind>/<name>[/<key>]"
            else import_tokens
                   (im <| iiTarget := Some (mkItemRef (kindName p0) (mkRef "" p1 "")) |>
                       <| iiTargetKey := p2 |>) rest'
        | _ => inr "target wants <kind>/<name>[/<key>]"
        end
      else inr "import takes only target=<kind>/<name>[/<key>] and override after the id"
  end.

Fixpoint unblock_tokens (u : UnblockIntent) (rest : list string) : UnblockIntent + string :=
  match rest with
  | [] => inl u
  | t :: rest' =>
      if String.eqb t "global" then unblock_tokens (u <| uiGlobal := true |>) rest'
      else inr "unblock takes only global after the release"
  end.

(** The release an unblock names: an info hash, or an indexer and a guid. *)
Definition unblock_release (nonce id : string) : UnblockIntent + string :=
  let '(indexer, guid, ok) := Cut "/"%char id in
  if ok then
    if String.eqb indexer "" || String.eqb guid ""
    then inr "unblock wants <infoHash> or <indexer>/<guid>"
    else inl (mkUnblockIntent nonce "" indexer guid false)
  else inl (mkUnblockIntent nonce (ToLower id) "" "" false).

(** [parseOneShot]: the intents with [a]'s set, and why [v] is invalid or
    "". *)
Definition parseOneShot (i : Intents) (a v : string) : Intents * string :=
  match Fields v with
  | nonce :: id :: rest =>
      if negb (ValidNonce nonce)
      then (i, "the nonce is not ^[A-Za-z0-9][A-Za-z0-9._-]{0,62}$")
      else if String.eqb a AnnotationDownloadRemove then
        match remove_tokens (mkRemoveIntent nonce id false false) rest with
        | inl r => (i <| inRemove := Some r |>, "")
        | inr why => (i, why)
        end
      else if String.eqb a AnnotationDownloadResume then
        match rest with
        | _ :: _ => (i, "resume takes only <nonce> <id>")
        | [] => (i <| inResume := Some (mkResumeIntent nonce id) |>, "")
        end
      else if String.eqb a AnnotationDownloadImport then
        match import_tokens (mkImportIntent nonce id None "" false) rest with
        | inl im => (i <| inImport := Some im |>, "")
        | inr why => (i, why)
        end
      else if String.eqb a AnnotationDownloadUnblock then
        match unblock_release nonce id with
        | inr why => (i, why)
        | inl u => match unblock_tokens u rest with
                   | inl u => (i <| inUnblock := Some u |>, "")
                   | inr why => (i, why)
                   end
        end
      else (i, "")
  | _ => (i, "wants <nonce> <id> ...")
  end.

(** One [<id>=<priority>] of the priority annotation [v]. *)
Definition parse_priority (v : string) (i : Intents) (kv : string) : Intents :=
  let '(id, p, ok) := Cut "="%char kv in
  let known := String.eqb p DownloadPriorityHigh || String.eqb p DownloadPriorityNormal
               || String.eqb p DownloadPriorityLow in
  if negb (ok && known) || String.eqb id "" then
    i <| inInvalid ::= fun l => l ++ [mkInvalidIntent AnnotationDownloadPriority v
                                        "priority wants <id>=high|normal|low"] |>
  else i <| inPriority ::= <[id := p]> |>.

(** One turn of [ParseIntents]' loop over the one-shot annotations. *)
Definition parse_one (annotations : gmap string string) (i : Intents) (a : string) : Intents :=
  match annotations !! a with
  | None => i
  | Some v =>
      if String.eqb v "" then i
      else
        let i := i <| inRaw ::= <[a := v]> |> in
        let '(i, reason) := parseOneShot i a v in
        if String.eqb reason "" then i
        else i <| inInvalid ::= fun l => l ++ [mkInvalidIntent a v reason] |>
  end.

Definition one_shots : list string :=
  [AnnotationDownloadRemove; AnnotationDownloadResume;
   AnnotationDownloadImport; AnnotationDownloadUnblock].

Definition no_intents : Intents := mkIntents ∅ ∅ None None None None [] ∅.

(** [ParseIntents]. *)
Definition ParseIntents (annotations : gmap string string) : Intents :=
  let i := no_intents in
  let v := map_str annotations AnnotationDownloadPaused in
  let i := if String.eqb v "" then i
           else i <| inPaused := fold_left (fun m id => <[id := true]> m) (fields v) ∅ |> in
  let v := map_str annotations AnnotationDownloadPriority in
  let i := if String.eqb v "" then i else fold_left (parse_priority v) (fields v) i in
  fold_left (parse_one annotations) one_shots i.
End Intents.

(** The nonce of the intent [a] parsed to, if it did. *)
Definition parsed_nonce (i : Intents) (a : string) : option string :=
  if String.eqb a AnnotationDownloadRemove then riNonce <$> inRemove i
  else if String.eqb a AnnotationDownloadResume then reNonce <$> inResume i
  else if String.eqb a AnnotationDownloadImport then iiNonce <$> inImport i
  else if String.eqb a AnnotationDownloadUnblock then uiNonce <$> inUnblock i
  else None.

(** [Intents.NonceKey]. *)
Definition NonceKey (i : Intents) (a : string) : string :=
  let v := map_str (inRaw i) a in
  if String.eqb v "" then ""
  else match parsed_nonce i a with
       | Some n => n
       | None => HandledNonce v
       end.

(** [Intents.pending]. *)
Definition pending (i : Intents) (a recorded : string) : bool :=
  let k := NonceKey i a in
  negb (String.eqb k "") && negb (String.eqb k recorded).

(** [nonceField]: the [downloadNonces] field an annotation records into, read
    and written; [None] is Go's nil pointer. *)
Definition nonceField (n : DownloadNonces) (a : string) : option string :=
  if String.eqb a AnnotationDownloadRemove then Some (dnRemove n)
  else if String.eqb a AnnotationDownloadResume then Some (dnResume n)
  else if String.eqb a AnnotationDownloadImport then Some (dnImport n)
  else if String.eqb a AnnotationDownloadUnblock then Some (dnUnblock n)
  else None.

Definition set_nonceField (n : DownloadNonces) (a v : string) : DownloadNonces :=
  if String.eqb a AnnotationDownloadRemove then n <| dnRemove := v |>
  else if String.eqb a AnnotationDownloadResume then n <| dnResume := v |>
  else if String.eqb a AnnotationDownloadImport then n <| dnImport := v |>
  else if String.eqb a AnnotationDownloadUnblock then n <| dnUnblock := v |>
  else n.
