(* ===== verification/LcState.v ===== *)
(** * app/grab/lifecycle: the decider and its commands

    [decider] of plan.go with the pure readers ([live], [imported],
    [activePhase], [engineGone], ...), the plan's bookkeeping ([at], [event],
    [history]) and the commands: [desired], [issue], [emit] and [owe].

    A method on [d *decider] that takes [e *DownloadEntry] is a computation over
    a [Cell]: the decider and the entry the pointer names.  Its view [v] and
    clock are constant during a [Decide], so they are arguments.  [dAll] is
    [d.all] and [dCur] the index the entry has in it: in the program [e] points
    into that slice, so [entries_now] reads it through the pointer. *)

From S2P Require Import Prelude GoLang Sha Api Names LcView LcChoose LcIntents.
From Stdlib Require Import Ascii.

(** ** plan.go: readers *)

Definition live (e : DownloadEntry) : bool :=
  match ePhase e with
  | DownloadPhaseRemoving | DownloadPhaseFailed | DownloadPhaseBlocklisted => false
  | _ => true
  end.

Definition hasEntry (entries : list DownloadEntry) (id uid : string) : bool :=
  existsb (fun e => (negb (String.eqb id "") && String.eqb (eID e) id)
                    || (negb (String.eqb uid "") && String.eqb (eUID e) uid)) entries.

(** [findEntry]; [None] is -1. *)
Fixpoint findEntry (entries : list DownloadEntry) (id : string) : option nat :=
  match entries with
  | [] => None
  | e :: es => if String.eqb (eID e) id then Some O else S <$> findEntry es id
  end.

Definition nonTerminal (e : DownloadEntry) : bool :=
  match isPhase <$> eImport e with
  | Some ImportPhaseHeld | Some ImportPhaseExpired | Some ImportPhaseImported => false
  | _ =>
      match ePhase e with
      | DownloadPhaseImported | DownloadPhaseFailed
      | DownloadPhaseBlocklisted | DownloadPhaseRemoving => false
      | _ => true
      end
  end.

(** The comparison and one turn of [activePhase]'s loop. *)
Definition grabbed_before (e best : DownloadEntry) : bool :=
  Before (eGrabbedAt e) (eGrabbedAt best)
  || (Equal (eGrabbedAt e) (eGrabbedAt best) && String.ltb (eID e) (eID best)).

Definition counts_active (e : DownloadEntry) : bool :=
  nonTerminal e && negb (String.eqb (ePurpose e) DownloadPurposeAudioDonor).

Definition active_step (best : option DownloadEntry) (e : DownloadEntry) : option DownloadEntry :=
  if negb (counts_active e) then best
  else match best with
       | None => Some e
       | Some b => if grabbed_before e b then Some e else best
       end.

Definition activePhase (entries : list DownloadEntry) : DownloadPhase :=
  match fold_left active_step entries None with
  | None => DownloadPhaseUnset
  | Some b => ePhase b
  end.

(** [imported]: the import finished, which [toImported] stamps. *)
Definition imported (e : DownloadEntry) : bool :=
  match eImport e with
  | Some i => bool_decide (isPhase i = ImportPhaseImported) && bool_decide (is_Some (isImportedAt i))
  | None => false
  end.

(** [heldAtBoot]. *)
Definition heldAtBoot (rec : option TransferRecord) (eng : Engine) : bool :=
  match rec with
  | None => false
  | Some r => negb (bool_decide (trState r = TransferStateRemoved))
              && (String.eqb (enBootID eng) "" || String.eqb (trBootID r) (enBootID eng))
  end.

(** [Decide]'s [d.clients]: the view's clients by name. *)
Definition clients_by_name (cs : list Client) : gmap string Client :=
  fold_left (fun m c => <[clName c := c]> m) cs ∅.

(** ** The decider *)

Record decider := mk_decider {
  dPlan : Plan;
  dUnblocked : option (DownloadEntry -> bool);
  dAll : list DownloadEntry;
  dCur : nat;
}.

#[export] Instance eta_decider : Eta decider :=
  fun r => mk_decider (dPlan r) (dUnblocked r) (dAll r) (dCur r).
#[export] Instance set_dPlan : Setter dPlan. Proof. derive_setter. Defined.
#[export] Instance set_dUnblocked : Setter dUnblocked. Proof. derive_setter. Defined.
#[export] Instance set_dAll : Setter dAll. Proof. derive_setter. Defined.
#[export] Instance set_dCur : Setter dCur. Proof. derive_setter. Defined.

Record Cell := mkCell { cD : decider; cE : DownloadEntry }.

#[export] Instance eta_Cell : Eta Cell := fun r => mkCell (cD r) (cE r).
#[export] Instance set_cD : Setter cD. Proof. derive_setter. Defined.
#[export] Instance set_cE : Setter cE. Proof. derive_setter. Defined.

(** Reading [*e], assigning its fields, and running the decider's own
    bookkeeping. *)
Definition getE : M Cell DownloadEntry := gets cE.
Definition getD : M Cell decider := gets cD.
Definition onE (f : DownloadEntry -> DownloadEntry) : M Cell unit := modify (upd (p := cE) f).
Definition onD (f : decider -> decider) : M Cell unit := modify (upd (p := cD) f).
Definition put {T} (p : DownloadEntry -> T) {_ : Setter p} (x : T) : M Cell unit :=
  onE (fun e => e <| p := x |>).

(** [d.plan.P = append(d.plan.P, xs...)]. *)
Definition addP {T} (p : Plan -> list T) {_ : Setter p} (xs : list T) (d : decider) : decider :=
  d <| dPlan ::= fun pl => pl <| p ::= fun l => l ++ xs |> |>.

(** [d.all] as the code reads it while a step holds [e = &d.all[dCur]]. *)
Definition entries_now (s : Cell) : list DownloadEntry :=
  <[dCur (cD s) := cE s]> (dAll (cD s)).

(** The last element of a command list marked a retry. *)
Fixpoint retry_last (cs : list Command) : list Command :=
  match cs with
  | [] => []
  | [c] => [c <| cRetry := true |>]
  | c :: cs' => c :: retry_last cs'
  end.

Section Decider.
Context `{Unicode} `{Marshal}.
Variable v : View.

Definition d_now : Time := vNow v.
Definition d_clients : gmap string Client := clients_by_name (vClients v).

(** *** The plan's bookkeeping *)

(** [d.at]. *)
Definition d_at (t : Time) (d : decider) : decider :=
  if IsZero t then d
  else
    let t := if After t d_now then t else Add d_now Second in
    let due := pDue (dPlan d) in
    if IsZero due || Before t due then d <| dPlan ::= fun p => p <| pDue := t |> |> else d.

(** [d.event]. *)
Definition d_event (typ reason msg : string) : decider -> decider :=
  addP pEvents [mkEvent RecorderDownloads typ reason msg None].

(** [d.history]. *)
Definition d_history (e : DownloadEntry) (action reason : string) : decider -> decider :=
  addP pHistory [{|
    evDownloadRef := mkRef (irNamespace (vOwner v)) (eID e) (eUID e);
    evMedia := mkMediaRef (vKind v) (irName (vOwner v)) [] "";
    evAction := action;
    evClientRef := if String.eqb (eClient e) "" then None
                   else Some (mkRef (irNamespace (vOwner v)) (eClient e) "");
    evClientID := "";
    evProtocol := drProtocol (eRelease e);
    evTitle := drTitle (eRelease e);
    evInfoHash := drInfoHash (eRelease e);
    evSizeBytes := drSizeBytes (eRelease e);
    evReason := reason;
    evOutputPath := eOutputPath e;
    evPurpose := ePurpose e;
    evAt := d_now |}].

(** [d.recordOf]. *)
Definition recordOf (e : DownloadEntry) : option TransferRecord :=
  tRecord <$> vTransfers v !! eUID e.

(** [d.engineOf]. *)
Definition engineOf (e : DownloadEntry) : option Engine :=
  if String.eqb (eEngine e) "" then None else vEngines v !! eEngine e.

(** [d.engineGone]: the reason, when no engine will act on [e]'s commands. *)
Definition engineGone (e : DownloadEntry) : option string :=
  if String.eqb (eEngine e) "" then Some "the entry was never assigned to an engine"
  else match d_clients !! eClient e with
       | None => Some ("DownloadClient " +:+ eClient e +:+ " no longer exists")
       | Some c =>
           let '(_, ordinal, ok) := splitEngine (eEngine e) in
           if ok && (Z.max (clReplicas c) 1 <=? ordinal)
           then Some ("engine " +:+ eEngine e +:+ " is past its DownloadClient's replicas")
           else match engineOf e with
                | Some eng => if engineReady eng d_now then None
                              else Some ("engine " +:+ eEngine e +:+ " is not ready")
                | None => Some ("engine " +:+ eEngine e +:+ " is not ready")
                end
       end.

(** [d.settled]: whether the engine re-attached and finished the asked
    resync [ResyncSettle] ago, and when it settled (settles). *)
Definition d_settled (e : DownloadEntry) (d : decider) : bool * Time * decider :=
  match engineOf e with
  | None => (false, 0, d)
  | Some eng =>
      if negb (enReattached eng) || IsZero (enReattachedAt eng) then (false, 0, d)
      else match d_clients !! eClient e with
           | None => (false, 0, d)
           | Some c =>
               if enResyncSeq eng <? clResyncSeq c then (false, 0, d)
               else
                 let at_ := Add (enReattachedAt eng) ResyncSettle in
                 if Before d_now at_ then (false, at_, d_at at_ d) else (true, at_, d)
           end
  end.

Definition settled (e : DownloadEntry) : M Cell (bool * Time) :=
  fun s => let '(r, d) := d_settled e (cD s) in (r, s <| cD := d |>).

(** [d.observe]: incorporate the transfer record. *)
Definition observe_dispatch (rec : TransferRecord) (p : Dispatch) : Dispatch :=
  let p := if dpSeq p <? trSeq rec then p <| dpSeq := trSeq rec |> else p in
  let p := if dpAnsweredSeq p <? trSeq rec then p <| dpAnsweredSeq := trSeq rec |> else p in
  if negb (InFlight p) then p <| dpDelivery := None |> else p.

Definition first_set (old new : option Time) : option Time :=
  match new, old with
  | Some t, None => Some t
  | _, _ => old
  end.

Definition observe (rec : option TransferRecord) : M Cell unit :=
  match rec with
  | None => ret tt
  | Some rec =>
      (onE (fun e => e <| eDispatch ::= observe_dispatch rec |>);;
       when (negb (bool_decide (trStage rec = DownloadStageUnset))) (put eStage (trStage rec));;
       when (negb (String.eqb (trOutputPath rec) ""))
         (put eOutputPath (clampString (trOutputPath rec) 4096));;
       onE (fun e => e <| eStartedAt ::= fun t => first_set t (trStartedAt rec) |>);;
       onE (fun e => e <| eCompletedAt ::= fun t => first_set t (trCompletedAt rec) |>);;
       e <- getE;;
       when (trSeedGoalReached rec && negb (bool_decide (is_Some (eSeedGoalMetAt e))))
         (put eSeedGoalMetAt (Some d_now);;
          e <- getE;; onD (d_history e ActionSeedGoalMet ""));;
       e <- getE;;
       when (negb (String.eqb (trMessage rec) "") && live e)
         (put eMessage (clampString (trMessage rec) MaxEntryMessage)))%monad
  end.

(** *** Commands *)

(** [d.claimOf]. *)
Definition claimOf (e : DownloadEntry) : TransferClaim := {|
  tcOwner := vOwner v;
  tcProviderID := vProviderID v;
  tcEntry := mkEntryRef (eID e) (eUID e);
  tcInfoHash := drInfoHash (eRelease e);
  tcIndexer := drIndexerRef (eRelease e);
  tcGUID := drGUID (eRelease e);
  tcTitle := drTitle (eRelease e);
  tcPurpose := ePurpose e;
  tcRemoveDataOnDelete := eRemoveDataOnDelete e;
  tcImported := imported e;
  tcSet := (fun s => mkSetRef (esID s) (esPart s) (esOf s)) <$> eSet e |}.

(** [d.desired]: the transfer's whole desired state; it reads the plan for
    the resume nonce this pass handled. *)
Definition desired (d : decider) (e : DownloadEntry) : EngineCommand :=
  let want := if live e then EngineDesiredPresent else EngineDesiredAbsent in
  let c := d_clients !! eClient e in
  {| ecSeq := 0;
     ecOwner := vOwner v;
     ecEntry := mkEntryRef (eID e) (eUID e);
     ecDesired := want;
     ecRemoveData := if live e then false else eRemoveDataOnDelete e;
     ecProtocol := drProtocol (eRelease e);
     ecSource := Some (eSource e);
     ecExpectedInfoHash := match dsExpectedInfoHash (eSource e) with
                           | Some h => h
                           | None => drInfoHash (eRelease e)
                           end;
     ecRelease := mkCommandRelease (drTitle (eRelease e)) (drGUID (eRelease e))
                    (drIndexerRef (eRelease e)) (drSizeBytes (eRelease e));
     ecCategory := match c with
                   | Some c => map_str (clCategories c) (vKind v)
                   | None => ""
                   end;
     ecSelection :=
       match eEpisodes e, eIssues e with
       | [], [] => None
       | eps, iss => Some (mkTransferSelection
                             (map (fun n => mkEpisodeNo (enSeason n) (enNumber n)) eps) [] [] iss)
       end;
     ecPaused := map_true (inPaused (vIntents v)) (eID e);
     ecPriority := map_str (inPriority (vIntents v)) (eID e);
     ecHealthOverride :=
       match inResume (vIntents v) with
       | Some r => if String.eqb (reID r) (eID e)
                      && String.eqb (dnResume (pNonces (dPlan d))) (reNonce r)
                   then reNonce r else ""
       | None => ""
       end;
     ecSeedCriteria := match eSeedCriteria e, c with
                       | Some sc, _ => Some sc
                       | None, Some c => clSeed c
                       | None, None => None
                       end;
     ecRemoveOnImport := eRemoveOnImport e;
     ecImported := imported e;
     ecImportedAt := eImport e ≫= isImportedAt;
     ecClaim := claimOf e;
     ecResyncSeq := 0;
     ecDownloadID := "";
     ecIssuedAt := 0 |}.

(** [hashOf]: everything but the seq and the issue time. *)
Definition hashOf (cmd : EngineCommand) : string :=
  hex_encode (take 12 (sha256 (bytes_of
    (json_EngineCommand (cmd <| ecSeq := 0 |> <| ecIssuedAt := 0 |>))))).

(** [d.emit]: render [e]'s command at its dispatch seq. *)
Definition command_of (d : decider) (e : DownloadEntry) (rec : option TransferRecord)
    (retry : bool) : Command :=
  let cmd := (desired d e) <| ecSeq := dpSeq (eDispatch e) |>
                           <| ecIssuedAt := dpDispatchedAt (eDispatch e) |> in
  let '(client, ordinal, _) := splitEngine (eEngine e) in
  let bootID := match engineOf e with
                | Some eng =>
                    if negb (String.eqb (enBootID eng) "")
                       && negb (match rec with
                                | Some r => String.eqb (trBootID r) (enBootID eng)
                                | None => false
                                end)
                    then enBootID eng else ""
                | None => ""
                end in
  mkCommand (eEngine e) client ordinal bootID "" "" cmd retry.

Definition emit (rec : option TransferRecord) (retry : bool) : M Cell unit :=
  (e <- getE;;
   d <- getD;;
   let c := command_of d e rec retry in
   onD (addP pCommands [c]);;
   onD (fun d => d <| dPlan ::= fun p => p <| pIssued ::=
          <[eUID e := mkIssuedCommand (ecSeq (cCmd c)) (hashOf (cCmd c)) d_now]> |> |>);;
   onD (d_at (Add d_now RepublishEvery)))%monad.

(** [d.issue]: publish [e]'s desired state at a new seq. *)
Definition issue : M Cell unit :=
  (e <- getE;;
   if String.eqb (eEngine e) "" then
     onE (fun e => e <| eDispatch ::= fun p => p <| dpDispatchedAt := d_now |> |>)
   else
     let rec := recordOf e in
     let recSeq := match rec with Some r => trSeq r | None => 0 end in
     let seq := nextSeq recSeq (dpSeq (eDispatch e)) d_now in
     onE (fun e => e <| eDispatch ::= fun p =>
            p <| dpSeq := seq |> <| dpDispatchedAt := d_now |> <| dpDestination := eEngine e |>
              <| dpDelivery := Some (mkDeliveryState DeliveryPublished "" "" 0 None None) |> |>);;
     emit rec false)%monad.

(** [d.plan.Commands[len(d.plan.Commands)-1].Retry = true]. *)
Definition mark_last_retry (d : decider) : decider :=
  d <| dPlan ::= fun p => p <| pCommands ::= retry_last |> |>.

(** [d.owe]: keep [e]'s command delivered. *)
Definition owe : M Cell unit :=
  (e <- getE;;
   d <- getD;;
   if String.eqb (eEngine e) "" then ret tt
   else
     let rec := recordOf e in
     let hash := hashOf (desired d e) in
     let keep book := onD (fun d => d <| dPlan ::= fun p =>
                             p <| pIssued ::= <[eUID e := book]> |> |>) in
     if match pIssued (dPlan d) !! eUID e with
        | Some issued => icSeq issued =? dpSeq (eDispatch e)
        | None => false
        end then ret tt
     else
       let answered := match rec with
                       | Some r => dpSeq (eDispatch e) <=? trSeq r
                       | None => false
                       end in
       let removed := match rec with
                      | Some r => bool_decide (trState r = TransferStateRemoved)
                      | None => false
                      end in
       match vIssued v !! eUID e with
       | Some book =>
           if negb (icSeq book =? dpSeq (eDispatch e)) then
             (if answered && negb (live e) && removed then ret tt else issue)
           else if negb (String.eqb (icHash book) hash) then issue
           else if answered then keep book
           else if Sub d_now (dpDispatchedAt (eDispatch e)) <? RepublishWindow then
             if negb (IsZero (icAt book)) && (Sub d_now (icAt book) <? RepublishEvery) then
               (keep book;; onD (d_at (Add (icAt book) RepublishEvery)))
             else emit rec false
           else
             (onD (d_event EventWarning ReasonCommandRetrying
                     ("the command to " +:+ eEngine e +:+ " for " +:+ eID e
                      +:+ " was not acknowledged in time; issuing it again"));;
              issue;;
              onD mark_last_retry)
       | None => if answered && negb (live e) && removed then ret tt else issue
       end)%monad.
End Decider.
