(* ===== verification/LcExample.v ===== *)
(** * One owner's grab, in the concrete

    The inputs the lifecycle's theorems are exercised on: a movie with one
    torrent grab on the engine [bt-0], its client, its engine record and its
    transfer record, each varied by record update where a theorem needs it. *)

From S2P Require Import Prelude GoLang Sha Api Names LcView LcChoose LcIntents LcState.
From Stdlib Require Import Ascii.

(** Unicode beyond ASCII as the identity, and a marshaller that tells the
    commands of the examples apart. *)
#[export] Instance ex_unicode : Unicode := {|
  unicode_ToLower := fun s => s;
  unicode_EqualFold := String.eqb;
  unicode_Fields := fun s => [s];
  unicode_TrimSpace := fun s => s |}.

#[export] Instance ex_marshal : Marshal := {|
  json_EngineCommand := fun c =>
    erUID (ecEntry c) +:+ match ecDesired c with EngineDesiredPresent => "+" | _ => "-" end |}.

Definition ex_t0 : Time := (unixToInternal + 1700000000) * 1000000000.
Definition ex_min (n : Z) : Time := ex_t0 + n * Minute.

Definition ex_owner : ItemRef := mkItemRef "Movie" (mkRef "media" "heat" "owner-1").

Definition ex_release (guid : string) : DownloadRelease :=
  mkDownloadRelease "Heat.1995.1080p" guid "idx" "idx" "abc" ProtocolTorrent 4000
    (mkQuality "Bluray-1080p" "bluray" 1080 "none") (mkRevision 1 0 false) 0 [] [] "GRP" "".

Definition ex_client : Client :=
  mkClient "bt" "client-1" ProtocolTorrent true 1 1 false 0 0 HealthActionPause None ∅ 0.

Definition ex_engine : Engine :=
  mkEngine "bt-0" "bt" 0 true true "boot" 0 1 0 (ex_min 10) (ex_min 0).

Definition ex_entry : DownloadEntry := {|
  eID := "heat-1"; eUID := "uid-1"; ePurpose := ""; eEpisodes := []; eIssues := [];
  eRelease := ex_release "guid-1";
  eSource := mkDownloadSource (Some "magnet:?xt=urn:btih:abc") None None None None;
  eClient := "bt"; eEngine := "bt-0"; eGrabbedBy := GrabSourceSearch; eGrabbedAt := ex_t0;
  eManual := false; eQualityProfileRef := "hd"; eSeedCriteria := None;
  eRemoveOnImport := false; eRemoveDataOnDelete := false;
  ePhase := DownloadPhaseDownloading; eStage := DownloadStageTransferring;
  eFailureReason := DownloadFailureUnset; eOutputPath := "/data/heat";
  eStartedAt := Some ex_t0; eCompletedAt := None; eSeedGoalMetAt := None; eFailedAt := None;
  eImport := None;
  eDispatch := mkDispatch 1700000000000 1700000000000 ex_t0 false "bt-0" None;
  eMessage := ""; eBlock := None; eSet := None |}.

Definition ex_header : RecordHeader :=
  mkRecordHeader "download.Transfer.v1" (mkRef "" "" "") (Some ex_owner) "" 1700000000000
    TransferStatePresent 0 None None None "" "" "" false 0.

Definition ex_record : TransferRecord := {|
  trHeader := ex_header; trEntry := mkEntryRef "heat-1" "uid-1"; trClaim := None;
  trClaimed := true; trEngine := "bt-0"; trBootID := "boot"; trDownloadID := "abc";
  trStage := DownloadStageTransferring; trOutputPath := "/data/heat"; trContentRoot := "";
  trFiles := []; trFilesTruncated := false; trTotalBytes := 4000; trRemainingBytes := 2000;
  trDownloadedBytes := 2000; trUploadedBytes := 0; trProgressPercent := 50; trRatioMilli := 0;
  trSeedTimeSeconds := 0; trSeeders := 3; trPeers := 4; trHealth := None; trIsEncrypted := false;
  trCanMoveFiles := true; trCanBeRemoved := false; trSeedGoalReached := false;
  trHealthPaused := false; trWaitingTurn := false; trGrant := None;
  trEngineFailureReason := DownloadFailureUnset; trMessage := "";
  trStartedAt := Some ex_t0; trCompletedAt := None; trLastProgressAt := Some (ex_min 9);
  trAddedAt := ex_t0; trDataRemoved := false |}.

Definition ex_intents : Intents := mkIntents ∅ ∅ None None None None [] ∅.

Definition ex_view : View := {|
  vOwner := ex_owner; vProviderID := "949"; vProviderVerified := true; vKind := "movie";
  vNow := ex_min 10; vDeleting := false; vMonitored := true; vHasFile := false; vEntryCap := 20;
  vStored := [ex_entry]; vNonces := mkDownloadNonces "" "" "" ""; vIntents := ex_intents;
  vNewEntries := []; vTransfers := {[ "uid-1" := mkTransfer ex_record 7 ]}; vUnclaimed := [];
  vClients := [ex_client]; vEngines := {[ "bt-0" := ex_engine ]}; vFiles := ∅; vImport := ∅;
  vBlocks := ∅; vUnblocked := ∅; vSearched := ∅; vUnmonitored := ∅; vSatisfied := ∅;
  vCovered := ∅; vRemoved := ∅; vIssued := ∅; vStillWants := None; vIndexerClient := ∅ |}.

Definition ex_plan : Plan := zero_Plan.

(** The cell a step of [e] starts from when [e] is the owner's only entry. *)
Definition ex_cell (e : DownloadEntry) : Cell := mkCell (mk_decider ex_plan None [e] 0) e.

(** The engine's record, failed for [reason]. *)
Definition ex_failed (reason : DownloadFailureReason) : TransferRecord :=
  ex_record <| trEngineFailureReason := reason |>.

Definition ex_with (r : TransferRecord) : View :=
  ex_view <| vTransfers := {[ "uid-1" := mkTransfer r 8 ]} |>.
