(* ===== verification/LcStep.v ===== *)
(** * app/grab/lifecycle/transitions.go and parts.go: one entry's step

    [step] runs one entry's row of the state machine over a [Cell] and answers
    whether the entry stays.  A set's parts (a movie released in several
    files) read one another through [entries_now]. *)

From S2P Require Import Prelude GoLang Sha Api Names LcView LcChoose LcIntents LcState.
From Stdlib Require Import Ascii.

(** ** transitions.go: pure parts *)

(** [isDirect]. *)
Definition isDirect (src : DownloadSource) : bool :=
  match dsIndexerDownload src with
  | Some _ => false
  | None => bool_decide (is_Some (dsMagnetURL src)) || bool_decide (is_Some (dsTorrentURL src))
            || bool_decide (is_Some (dsNZBURL src))
  end.

(** [healthMessage]. *)
Definition healthMessage (rec : TransferRecord) : string :=
  match trHealth rec with
  | Some h => "paused: article health " +:+ fmt_d (thHealthPercent h)
              +:+ "% is below the floor (critical " +:+ fmt_d (thCriticalHealthPercent h)
              +:+ "%); resume it to continue"
  | None => "paused: article health is below the floor; resume it to continue"
  end.

(** [phaseOfStage]. *)
Definition phaseOfStage (stage : DownloadStage) (cur : DownloadPhase) : DownloadPhase :=
  match stage with
  | DownloadStageFetchingMetadata => DownloadPhaseQueued
  | DownloadStageTransferring | DownloadStageVerifying | DownloadStageRepairing
  | DownloadStageExtracting | DownloadStagePublishing => DownloadPhaseDownloading
  | DownloadStageDone | DownloadStageSeeding => DownloadPhaseCompleted
  | DownloadStageUnset | DownloadStageOther _ =>
      match cur with
      | DownloadPhasePaused | DownloadPhaseUnset => DownloadPhaseAssigned
      | _ => cur
      end
  end.

(** [afterImport]. *)
Definition afterImport (e : DownloadEntry) : DownloadPhase :=
  if bool_decide (drProtocol (eRelease e) = ProtocolTorrent)
  then DownloadPhaseSeeding else DownloadPhaseImported.

(** [filesLanded]. *)
Definition filesLanded (want have : Z) : bool := (want <=? 0) || (want <=? have).

Definition rec_failed (rec : TransferRecord) : bool :=
  bool_decide (trState rec = TransferStateFailed).

(** [Importable]. *)
Definition Importable (e : DownloadEntry) (rec : option TransferRecord) : bool :=
  match ePhase e with
  | DownloadPhaseCompleted => true
  | DownloadPhaseAssigned | DownloadPhaseQueued | DownloadPhaseDownloading =>
      negb (imported e)
      && match rec with
         | Some r => bool_decide (phaseOfStage (trStage r) (ePhase e) = DownloadPhaseCompleted)
                     && negb (rec_failed r) && negb (IsFailure (trEngineFailureReason r))
         | None => false
         end
  | _ => false
  end.

(** ** parts.go *)

Definition setWaiting : string := "waiting for the set's other parts".

(** [s.Set != nil && s.Set.ID == set.ID]. *)
Definition in_set (set : EntrySet) (s : DownloadEntry) : bool :=
  match eSet s with
  | Some t => String.eqb (esID t) (esID set)
  | None => false
  end.

(** [setDone]: the parts that are done, and the set's size. *)
Definition setDone (entries : list DownloadEntry) (e : DownloadEntry)
    (rec : DownloadEntry -> option TransferRecord) : Z * Z :=
  match eSet e with
  | None => (0, 0)
  | Some set =>
      (Z.of_nat (length (List.filter (fun s => in_set set s && Importable s (rec s)) entries)),
       esOf set)
  end.

(** [SetReady]. *)
Definition SetReady (entries : list DownloadEntry) (e : DownloadEntry)
    (rec : DownloadEntry -> option TransferRecord) : bool :=
  let '(ndone, nof) := setDone entries e rec in (0 <? nof) && (ndone =? nof).

(** [d.sameSet], over the entries as the steps left them. *)
Definition sameSet (entries : list DownloadEntry) (e : DownloadEntry) : list DownloadEntry :=
  match eSet e with
  | None => []
  | Some set => List.filter (fun s => negb (String.eqb (eUID s) (eUID e)) && in_set set s) entries
  end.

Definition set_part (e : DownloadEntry) : Z := match eSet e with Some s => esPart s | None => 0 end.
Definition set_of (e : DownloadEntry) : Z := match eSet e with Some s => esOf s | None => 0 end.

(** Why one other part dooms the set; [None] while it does not. *)
Definition part_failure (s : DownloadEntry) : option string :=
  match ePhase s with
  | DownloadPhaseFailed | DownloadPhaseBlocklisted =>
      Some ("part " +:+ fmt_d (set_part s) +:+ " of its set failed")
  | DownloadPhaseRemoving =>
      if imported s then None
      else Some ("part " +:+ fmt_d (set_part s) +:+ " of its set is being removed")
  | _ => None
  end.

Fixpoint first_failure (others : list DownloadEntry) : option string :=
  match others with
  | [] => None
  | s :: rest => match part_failure s with
                 | Some why => Some why
                 | None => first_failure rest
                 end
  end.

(** [d.setFailure]; [None] is the empty reason. *)
Definition setFailure (entries : list DownloadEntry) (e : DownloadEntry) : option string :=
  match eSet e with
  | None => None
  | Some set =>
      if imported e then None
      else
        let others := sameSet entries e in
        match first_failure others with
        | Some why => Some why
        | None => if Z.of_nat (length others) + 1 <? esOf set
                  then Some "a part of its set is gone" else None
        end
  end.

(** [SameSet]. *)
Definition SameSet (e : DownloadEntry) (claim : TransferClaim) : bool :=
  match eSet e, tcSet claim with
  | Some s, Some c => String.eqb (esID s) (srID c)
  | _, _ => false
  end.

Section Step.
Context `{Unicode} `{Marshal}.
Variable v : View.

Abbreviation d_now := (d_now v).
Abbreviation d_at := (d_at v).
Abbreviation issue := (issue v).
Abbreviation owe := (owe v).

Definition history (action reason : string) : M Cell unit :=
  (e <- getE;; onD (d_history v e action reason))%monad.
Definition at_ (t : Time) : M Cell unit := onD (d_at t).
Definition event (typ reason msg : string) : M Cell unit := onD (d_event typ reason msg).

(** *** Transitions *)

(** [d.failedNow]. *)
Definition failedNow : M Cell unit :=
  onE (fun e => e <| eFailedAt ::= fun t => match t with None => Some d_now | _ => t end |>).

(** [d.toRemoving]. *)
Definition toRemoving (why : string) : M Cell unit :=
  (e <- getE;;
   if bool_decide (ePhase e = DownloadPhaseRemoving) then ret tt
   else
     (put ePhase DownloadPhaseRemoving;;
      put eMessage (clampString ("removing: " +:+ why) MaxEntryMessage);;
      issue))%monad.

(** [d.toFailed]. *)
Definition toFailed (reason : DownloadFailureReason) (msg : string) : M Cell unit :=
  (put ePhase DownloadPhaseFailed;;
   put eFailureReason reason;;
   put eMessage (clampString msg MaxEntryMessage);;
   failedNow;;
   issue;;
   history ActionFailed (DownloadFailureReason_string reason))%monad.

(** [d.toBlocklisted]. *)
Definition toBlocklisted (reason : DownloadFailureReason) (msg : string) : M Cell unit :=
  (e <- getE;;
   let prev := match eBlock e with Some b => ebSeq b | None => 0 end in
   put ePhase DownloadPhaseBlocklisted;;
   put eFailureReason reason;;
   put eMessage (clampString msg MaxEntryMessage);;
   failedNow;;
   put eBlock (Some (mkEntryBlock (ScopeFor reason) reason (nextSeq 0 prev d_now) None));;
   issue;;
   history ActionFailed (DownloadFailureReason_string reason);;
   history ActionBlocklisted (DownloadFailureReason_string reason))%monad.

(** [d.toImported]. *)
Definition toImported : M Cell unit :=
  (onE (fun e => e <| eImport ::= fun i =>
     let i := default zero_ImportSummary i in
     let i := i <| isPhase := ImportPhaseImported |> in
     Some (match isImportedAt i with
           | None => i <| isImportedAt := Some d_now |>
           | Some _ => i
           end) |>);;
   onE (fun e => e <| ePhase := afterImport e |>);;
   put eMessage "";;
   issue;;
   history ActionImported "")%monad.

(** [d.waiting]. *)
Definition waiting (reason msg : string) : M Cell unit :=
  onE (fun e => e <| eDispatch ::= fun p =>
    p <| dpDelivery := Some (mkDeliveryState DeliveryWaiting reason (clampString msg 256) 0 None None) |> |>).

(** *** Pending *)

(** The client [d.pending] settles on: the entry's own while it is enabled
    and of the release's protocol, else [ChooseClient]'s. *)
Definition pending_client (e : DownloadEntry) : option Client :=
  let pinned :=
    if String.eqb (eClient e) "" then None
    else match d_clients v !! eClient e with
         | Some c => if eligible (drProtocol (eRelease e)) c then Some c else None
         | None => None
         end in
  match pinned with
  | Some c => Some c
  | None => ChooseClient (vClients v) (drProtocol (eRelease e))
              (map_str (vIndexerClient v) (drIndexerRef (eRelease e)))
  end.

Definition d_pending : M Cell bool :=
  (put ePhase DownloadPhasePending;;
   e <- getE;;
   es <- gets entries_now;;
   match setFailure es e with
   | Some why => toRemoving why;; ret true
   | None =>
       match pending_client e with
       | None =>
           let msg := clampString ("waiting for an enabled "
                        +:+ Protocol_string (drProtocol (eRelease e)) +:+ " DownloadClient")
                        MaxEntryMessage in
           put eMessage msg;;
           waiting DeliveryReasonNoCapableAgent msg;;
           at_ (Add d_now Minute);;
           ret true
       | Some c =>
           let '(ordinal, ok) := ChooseOrdinal c (vEngines v)
                                   (drInfoHash (eRelease e)) (drGUID (eRelease e)) d_now in
           if negb ok then
             let msg := clampString ("waiting for an engine of DownloadClient "
                          +:+ clName c +:+ " to be ready") MaxEntryMessage in
             (put eMessage msg;;
              waiting DeliveryReasonEngineNotReady msg;;
              at_ (Add d_now RepublishEvery);;
              ret true)
           else
             (put eClient (clName c);;
              put eEngine (EngineName (clName c) ordinal);;
              put ePhase DownloadPhaseAssigned;;
              put eMessage "";;
              onE (fun e => e <| eGrabbedAt ::= fun t => if IsZero t then d_now else t |>);;
              issue;;
              history ActionGrabbed "";;
              e <- getE;;
              when (isDirect (eSource e) && negb (String.eqb (drIndexerRef (eRelease e)) ""))
                (onD (addP pDirectGrabs
                   [mkDirectGrab (drIndexerRef (eRelease e)) (eUID e) (eGrabbedAt e)]));;
              ret true)
       end
   end)%monad.

(** *** Failure of a transfer *)

(** The reason [d.failed] acts on: no reason is taken as a local fault. *)
Definition failed_reason (rec : TransferRecord) : DownloadFailureReason :=
  if IsFailure (trEngineFailureReason rec) then trEngineFailureReason rec
  else DownloadFailureWriteError.

Definition d_failed (rec : TransferRecord) : M Cell bool :=
  let reason := failed_reason rec in
  let rs := DownloadFailureReason_string reason in
  (e <- getE;;
   when (bool_decide (trStage rec = DownloadStageUnset)
         && (bool_decide (ePhase e = DownloadPhaseAssigned)
             || bool_decide (ePhase e = DownloadPhasePending)))
     (event EventWarning ReasonDownloadAddFailed
        ("the engine could not add " +:+ eID e +:+ ": " +:+ clampString (trMessage rec) 512));;
   if bool_decide (reason = DownloadFailurePayloadUnavailable) && imported e then
     (event EventWarning ReasonSeedingLost
        ("the payload of " +:+ eID e +:+ " can no longer be fetched to seed it; dropping the entry");;
      history ActionRemoved rs;;
      ret false)
   else if IsReleaseFault reason then
     (toBlocklisted reason ("the engine reported " +:+ rs);; ret true)
   else
     (toFailed reason ("the engine reported " +:+ rs);; ret true))%monad.

(** *** Stall and timeout *)

Definition stall_limit (c : Client) : Duration :=
  if (clStallTimeout c =? 0) && bool_decide (clProtocol c = ProtocolTorrent)
  then StallTimeout else clStallTimeout c.

Definition last_progress (rec : TransferRecord) : Time :=
  match trLastProgressAt rec, trStartedAt rec with
  | Some t, _ => t
  | None, Some t => t
  | None, None => trAddedAt rec
  end.

(** The stall clock of [d.stalled]. *)
Definition d_no_progress (rec : TransferRecord) (c : Client) : M Cell bool :=
  (let st := stall_limit c in
   let last := last_progress rec in
   if (0 <? st) && negb (trWaitingTurn rec) && negb (IsZero last) then
     (if st <? Sub d_now last then
        (toBlocklisted DownloadFailureStalled ("no progress for " +:+ Duration_String st);;
         ret true)
      else (at_ (Add last st);; ret false))
   else ret false)%monad.

(** The download timeout of [d.stalled]. *)
Definition d_timed_out (rec : TransferRecord) (c : Client) : M Cell bool :=
  match trStartedAt rec with
  | Some started =>
      if 0 <? clDownloadTimeout c then
        (if clDownloadTimeout c <? Sub d_now started then
           (toBlocklisted DownloadFailureTimeout
              ("not finished within " +:+ Duration_String (clDownloadTimeout c));;
            ret true)
         else (at_ (Add started (clDownloadTimeout c));; ret false))%monad
      else ret false
  | None => ret false
  end.

(** [d.stalled]. *)
Definition d_stalled (rec : TransferRecord) (c : Client) : M Cell bool :=
  (e <- getE;;
   if map_true (inPaused (vIntents v)) (eID e) then ret false
   else
     dead <- d_no_progress rec c;;
     if dead : bool then ret true else d_timed_out rec c)%monad.

(** *** Import *)

Definition importStep : M Cell bool :=
  (e <- getE;;
   let landed files := filesLanded files (map_int (vFiles v) (eID e)) in
   match vImport v !! eUID e with
   | None =>
       if imported e && landed (match eImport e with Some i => isFiles i | None => 0 end)
       then (toImported;; ret true) else ret false
   | Some dec =>
       let sum := idSummary dec in
       put eImport (Some sum);;
       match idDispatch dec with
       | Some dd => onD (addP pImports [dd <| imdEntryUID := eUID e |>])
       | None => ret tt
       end;;
       onD (addP pMaterialise (idMaterialise dec));;
       at_ (idDue dec);;
       match idVerdict dec with
       | ImportImported =>
           if landed (isFiles sum) then (toImported;; ret true) else ret false
       | ImportReleaseFault =>
           toBlocklisted DownloadFailureImportRejected (clampString (isMessage sum) 512);; ret true
       | ImportExpired =>
           toFailed DownloadFailureImportExpired
             ("the held import expired after " +:+ Duration_String ImportHoldRetention);; ret true
       | _ => ret false
       end
   end)%monad.

(** The closed fence a follower's import summary carries. *)
Definition closed_fence : Dispatch :=
  let seq := nextSeq 0 0 d_now in mkDispatch seq seq d_now false "" None.

(** [d.setImport]. *)
Definition setImport : M Cell bool :=
  (e <- getE;;
   es <- gets entries_now;;
   if negb (set_part e =? 1) then
     (if existsb (fun s => (set_part s =? 1) && imported s) (sameSet es e) then
        (onE (fun e => e <| eImport ::= fun i =>
           match i with
           | None => Some (zero_ImportSummary <| isDispatch := closed_fence |>)
           | Some _ => i
           end |>);;
         toImported;;
         ret true)
      else
        (put eMessage "waiting for part 1 to import the set";; ret false))
   else
     let '(ndone, nof) := setDone es e (recordOf v) in
     if ndone <? nof then
       (put eMessage (clampString (setWaiting +:+ ": " +:+ fmt_d ndone +:+ " of " +:+ fmt_d nof
                                   +:+ " downloaded") MaxEntryMessage);;
        ret false)
     else
       (when (HasPrefix (eMessage e) setWaiting) (put eMessage "");;
        importStep))%monad.

(** *** Live: Assigned through Seeding *)

(** The phase a healthy record gives [e]. *)
Definition live_phase (rec : TransferRecord) (e : DownloadEntry) : DownloadPhase :=
  if trHealthPaused rec then DownloadPhasePaused
  else if map_true (inPaused (vIntents v)) (eID e) then DownloadPhasePaused
  else if imported e then afterImport e
  else
    let p := phaseOfStage (trStage rec) (ePhase e) in
    if bool_decide (p = DownloadPhaseDownloading) && trWaitingTurn rec
    then DownloadPhaseQueued else p.

(** What the live phase owes after it was set; true ends the pass. *)
Definition live_effects (rec : TransferRecord) (c : Client) : M Cell bool :=
  (e <- getE;;
   match ePhase e with
   | DownloadPhaseQueued | DownloadPhaseDownloading => d_stalled rec c
   | DownloadPhaseCompleted =>
       when (negb (bool_decide (is_Some (eCompletedAt e))))
         (put eCompletedAt (Some d_now);; history ActionCompleted "");;
       (if bool_decide (is_Some (eSet e)) then setImport else importStep)
   | DownloadPhaseSeeding =>
       if trSeedGoalReached rec && (eRemoveOnImport e || clRemoveCompleted c)
       then (toRemoving "the seed goal is met";; ret true) else ret false
   | DownloadPhaseImported =>
       if eRemoveOnImport e || clRemoveCompleted c
       then (toRemoving "imported";; ret true) else ret false
   | _ => ret false
   end)%monad.

(** The rows of a live entry its engine holds, or reports failed. *)
Definition live_held (rec : TransferRecord) (c : Client) : M Cell bool :=
  (if rec_failed rec || IsFailure (trEngineFailureReason rec) then d_failed rec
   else if trHealthPaused rec && bool_decide (clHealthAction c = HealthActionDelete) then
     (toBlocklisted DownloadFailureMissingArticles
        "the release's article health fell below the floor";;
      ret true)
   else
     (e <- getE;;
      put ePhase (live_phase rec e);;
      when (trHealthPaused rec) (put eMessage (clampString (healthMessage rec) MaxEntryMessage));;
      ended <- live_effects rec c;;
      if ended : bool then ret true else (owe;; ret true)))%monad.

(** The rows of a live entry its engine does not hold at its boot. *)
Definition live_not_held (rec : option TransferRecord) : M Cell bool :=
  (e <- getE;;
   r <- settled v e;;
   let '(ok, settledAt) := (r : bool * Time) in
   if ok && negb (After (dpDispatchedAt (eDispatch e)) settledAt) then
     (put eMessage "the engine holds no transfer for this entry; adding it again";;
      issue;;
      ret true)
   else match rec with
        | Some r => if rec_failed r then d_failed r else (owe;; ret true)
        | None => owe;; ret true
        end)%monad.

Definition d_live (rec : option TransferRecord) : M Cell bool :=
  (e <- getE;;
   es <- gets entries_now;;
   let c := default zero_Client (d_clients v !! eClient e) in
   let eng := default zero_Engine (engineOf v e) in
   match setFailure es e with
   | Some why => toRemoving why;; ret true
   | None =>
       if negb (bool_decide (is_Some (d_clients v !! eClient e)))
          && bool_decide (ePhase e = DownloadPhaseAssigned) && negb (heldAtBoot rec eng) then
         (put eClient "";; put eEngine "";; d_pending)
       else
         match rec with
         | Some r =>
             if bool_decide (trState r = TransferStateRemoved) && (dpSeq (eDispatch e) <=? trSeq r) then
               (put eMessage "the engine's transfer for this entry went to another grab of it; adding it again";;
                issue;;
                ret true)
             else if heldAtBoot rec eng then live_held r c
             else live_not_held rec
         | None => live_not_held rec
         end
   end)%monad.

(** *** Removal *)

(** [d.transferGone]: positive evidence that the transfer is gone. *)
Definition transferGone (rec : option TransferRecord) : M Cell bool :=
  (e <- getE;;
   if String.eqb (eEngine e) "" then ret true
   else if match rec with
           | Some r => bool_decide (trState r = TransferStateRemoved) && (dpSeq (eDispatch e) <=? trSeq r)
           | None => false
           end then ret true
   else
     r <- settled v e;;
     if fst (r : bool * Time) && negb (heldAtBoot rec (default zero_Engine (engineOf v e)))
        && negb (InFlight (eDispatch e)) then ret true
     else
       match engineGone v e with
       | None => ret false
       | Some why =>
           let end_ := Add (dpDispatchedAt (eDispatch e)) EngineTeardownTimeout in
           if Before d_now end_ then (at_ end_;; ret false)
           else
             (event EventWarning ReasonEngineGone
                (eEngine e +:+ ": " +:+ why +:+ " for " +:+ Duration_String EngineTeardownTimeout
                 +:+ "; dropping " +:+ eID e +:+ " on its behalf");;
              ret true)
       end)%monad.

(** [d.finishRemoval]. *)
Definition finishRemoval : M Cell bool :=
  (e <- getE;;
   if eRemoveDataOnDelete e && negb (String.eqb (eOutputPath e) "")
      && negb (map_true (vRemoved v) (eOutputPath e)) then
     (onD (addP pRemovals [eOutputPath e]);;
      at_ (Add d_now Second);;
      ret true)
   else
     (history ActionRemoved (DownloadFailureReason_string (eFailureReason e));; ret false))%monad.

(** [d.removing]. *)
Definition removing (rec : option TransferRecord) : M Cell bool :=
  (gone <- transferGone rec;;
   if gone : bool then finishRemoval else (owe;; ret true))%monad.

(** [d.confirmBlock], of an entry whose block is [b]. *)
Definition block_confirmed_by (e : DownloadEntry) (b : EntryBlock) : option BlockReply :=
  match vBlocks v !! eUID e with
  | Some r => if (bpSeq r =? ebSeq b) && (bpApplied r || bpStale r) then Some r else None
  | None => None
  end.

Definition confirmBlock (b : EntryBlock) : M Cell bool :=
  (e <- getE;;
   match ebConfirmedAt b with
   | Some _ => ret true
   | None =>
       match block_confirmed_by e b with
       | Some r =>
           let at0 := if IsZero (bpAt r) then d_now else bpAt r in
           (put eBlock (Some (b <| ebConfirmedAt := Some at0 |>));; ret true)
       | None =>
           let blockedAt := if IsZero (dpDispatchedAt (eDispatch e)) then d_now
                            else dpDispatchedAt (eDispatch e) in
           (onD (addP pBlocks [mkBlockCall (eUID e) "" {|
              brOp := BlocklistOpBlock;
              brScope := scopeString (ebScope b) (vOwner v);
              brInfoHash := drInfoHash (eRelease e);
              brIndexer := drIndexerRef (eRelease e);
              brGUID := drGUID (eRelease e);
              brTitle := drTitle (eRelease e);
              brProtocol := Protocol_string (drProtocol (eRelease e));
              brReason := DownloadFailureReason_string (ebReason b);
              brEntryID := eID e;
              brSeq := ebSeq b;
              brBlockedAt := blockedAt;
              brUntil := Add blockedAt BlocklistTTL;
              brLimit := 0;
              brOffset := 0 |}]);;
            at_ (Add d_now RepublishEvery);;
            ret false)
       end
   end)%monad.

(** *** Redownload (R25) *)

Definition failed_at (e : DownloadEntry) : Time :=
  match eFailedAt e with
  | Some t => t
  | None => dpDispatchedAt (eDispatch e)
  end.

Definition no_redownload (e : DownloadEntry) : bool :=
  bool_decide (ePhase e = DownloadPhaseFailed)
  && (IsLocalFault (eFailureReason e)
      || bool_decide (eFailureReason e = DownloadFailureImportExpired)
      || bool_decide (eFailureReason e = DownloadFailureUnset)).

Definition covered_items (e : DownloadEntry) : list ItemRef :=
  match vCovered v !! eUID e with
  | Some (i :: l) => i :: l
  | _ => [vOwner v]
  end.

(** A covered item whose search is owed for a failure at [failedAt]. *)
Definition owes_search (failedAt : Time) (it : ItemRef) : bool :=
  negb (map_true (vUnmonitored v) it || map_true (vSatisfied v) it
        || (bool_decide (it = vOwner v) && negb (vMonitored v)))
  && match vSearched v !! it with
     | Some s => Before s failedAt
     | None => true
     end.

(** [d.redownload]. *)
Definition redownload : M Cell bool :=
  (e <- getE;;
   if no_redownload e then ret false
   else
     let failedAt := failed_at e in
     if IsZero failedAt || (RedownloadWindow <=? Sub d_now failedAt) then ret false
     else
       let owed := List.filter (owes_search failedAt) (covered_items e) in
       onD (addP pRedownloads owed);;
       match owed with
       | [] => ret false
       | _ => at_ (Add failedAt RedownloadWindow);; ret true
       end)%monad.

(** *** Terminal: Failed and Blocklisted *)

(** The end of the tombstone's hold, when one stands. *)
Definition tombstone_until (e : DownloadEntry) : option Time :=
  match ePhase e with
  | DownloadPhaseBlocklisted =>
      match eBlock e ≫= ebConfirmedAt with
      | Some t => Some (Add t BlockQuarantine)
      | None => None
      end
  | DownloadPhaseFailed =>
      if bool_decide (eFailureReason e = DownloadFailureReleaseRefused)
      then Some (Add (failed_at e) RefusedHold) else None
  | _ => None
  end.

Definition terminal_drop (confirmed keep : bool) : M Cell bool :=
  if negb confirmed || keep then ret true
  else
    (e <- getE;;
     match tombstone_until e with
     | Some end_ => if Before d_now end_ then (at_ end_;; ret true) else finishRemoval
     | None => finishRemoval
     end)%monad.

Definition terminal (rec : option TransferRecord) : M Cell bool :=
  (e <- getE;;
   d <- getD;;
   if match dUnblocked d with Some f => f e | None => false end then
     (put eBlock None;;
      gone <- transferGone rec;;
      if gone : bool then finishRemoval else (owe;; ret true))
   else
     confirmed <- (match ePhase e, eBlock e with
                   | DownloadPhaseBlocklisted, Some b => confirmBlock b
                   | _, _ => ret true
                   end);;
     keep <- redownload;;
     gone <- transferGone rec;;
     if negb (gone : bool) then (owe;; ret true)
     else terminal_drop confirmed keep)%monad.

(** *** step *)

Definition step : M Cell bool :=
  (e <- getE;;
   let rec := recordOf v e in
   observe v rec;;
   e <- getE;;
   match ePhase e with
   | DownloadPhaseUnset | DownloadPhasePending => d_pending
   | DownloadPhaseRemoving => removing rec
   | DownloadPhaseFailed | DownloadPhaseBlocklisted => terminal rec
   | _ => d_live rec
   end)%monad.
End Step.
