(* ===== verification/LcDecide.v ===== *)
(** * app/grab/lifecycle: Decide

    The whole pass over one owner's entries: the one-shot intents
    (converge.go), the singles a season pack supersedes (supersede.go), the
    steps, the transfers no entry claims (converge.go) and [Decide] (plan.go).
    These run over the entry slice and the decider together. *)

From S2P Require Import Prelude GoLang Sha Api Names LcView LcChoose LcIntents LcState LcStep.
From Stdlib Require Import Ascii.

(** The entry slice and the decider. *)
Record Pass := mkPass { psEntries : list DownloadEntry; psD : decider }.

#[export] Instance eta_Pass : Eta Pass := fun r => mkPass (psEntries r) (psD r).
#[export] Instance set_psEntries : Setter psEntries. Proof. derive_setter. Defined.
#[export] Instance set_psD : Setter psD. Proof. derive_setter. Defined.

(** A method called on [&entries[i]] before [d.all] is set. *)
Definition run_at (i : nat) (m : M Cell unit) (p : Pass) : Pass :=
  match psEntries p !! i with
  | None => p
  | Some e =>
      let s := snd (m (mkCell (psD p) e)) in
      mkPass (<[i := cE s]> (psEntries p)) (cD s)
  end.

(** ** supersede.go *)

(** [transferring]. *)
Definition transferring (e : DownloadEntry) : bool :=
  match ePhase e with
  | DownloadPhaseUnset | DownloadPhasePending | DownloadPhaseAssigned | DownloadPhaseQueued
  | DownloadPhaseDownloading | DownloadPhasePaused => true
  | _ => false
  end.

(** A pack that supersedes singles, and a single [s] it supersedes. *)
Definition superseding (p : DownloadEntry) : bool :=
  Pack p && String.eqb (ePurpose p) "" && nonTerminal p.

Definition superseded_by (p s : DownloadEntry) : bool :=
  String.eqb (ePurpose s) "" && negb (eManual s)
  && match eEpisodes s with
     | [n] => bool_decide (n ∈ eEpisodes p)
     | _ => false
     end
  && transferring s && negb (After (eGrabbedAt s) (eGrabbedAt p)).

Section Decide.
Context `{Unicode} `{Marshal}.
Variable v : View.

Abbreviation d_now := (d_now v).

Definition supersede_one (i : nat) (p : DownloadEntry) (ps : Pass) (j : nat) : Pass :=
  match psEntries ps !! j with
  | Some s =>
      if Nat.eqb j i || negb (superseded_by p s) then ps
      else
        run_at j
          (put eRemoveDataOnDelete true;;
           toRemoving v ("superseded by the season pack " +:+ drTitle (eRelease p));;
           event EventNormal ReasonSupersededByPack
             ("removing " +:+ drTitle (eRelease s) +:+ ": the season pack "
              +:+ drTitle (eRelease p) +:+ " replaces it"))%monad ps
  | None => ps
  end.

Definition supersede_pack (ps : Pass) (i : nat) : Pass :=
  match psEntries ps !! i with
  | Some p =>
      if negb (superseding p) then ps
      else fold_left (supersede_one i p) (seq 0 (length (psEntries ps))) ps
  | None => ps
  end.

(** [d.supersede]. *)
Definition supersede (ps : Pass) : Pass :=
  fold_left supersede_pack (seq 0 (length (psEntries ps))) ps.

(** ** converge.go: the one-shot intents *)

Definition psEvent (typ reason msg : string) (ps : Pass) : Pass :=
  ps <| psD ::= d_event typ reason msg |>.

Definition psNonces (f : DownloadNonces -> DownloadNonces) (ps : Pass) : Pass :=
  ps <| psD ::= fun d => d <| dPlan ::= fun p => p <| pNonces ::= f |> |> |>.

Definition nonces (ps : Pass) : DownloadNonces := pNonces (dPlan (psD ps)).

(** One invalid annotation: recorded once, with a Warning. *)
Definition intent_invalid (ps : Pass) (inv : InvalidIntent) : Pass :=
  let a := ivAnnotation inv in
  match nonceField (nonces ps) a with
  | None => ps
  | Some rec =>
      if negb (pending (vIntents v) a rec) then ps
      else
        psEvent EventWarning ReasonInvalidAnnotation (a +:+ ": " +:+ ivReason inv)
          (psNonces (fun n => set_nonceField n a (NonceKey (vIntents v) a)) ps)
  end.

Definition intent_remove (ps : Pass) : Pass :=
  match inRemove (vIntents v) with
  | Some r =>
      if negb (pending (vIntents v) AnnotationDownloadRemove (dnRemove (nonces ps))) then ps
      else
        let ps := psNonces (fun n => n <| dnRemove := riNonce r |>) ps in
        match findEntry (psEntries ps) (riID r) with
        | None => psEvent EventNormal ReasonNothingToRemove
                    ("no download " +:+ riID r +:+ " to remove") ps
        | Some i =>
            run_at i
              (put eRemoveDataOnDelete (riData r);;
               e <- getE;;
               if riBlocklist r && negb (bool_decide (ePhase e = DownloadPhaseBlocklisted))
               then toBlocklisted v DownloadFailureManual "removed and blocklisted by a person"
               else if live e then toRemoving v "removed by a person"
               else issue v)%monad ps
        end
  | None => ps
  end.

Definition intent_resume (ps : Pass) : Pass :=
  match inResume (vIntents v) with
  | Some r =>
      if negb (pending (vIntents v) AnnotationDownloadResume (dnResume (nonces ps))) then ps
      else
        let ps := psNonces (fun n => n <| dnResume := reNonce r |>) ps in
        let target := i ← findEntry (psEntries ps) (reID r);
                      e ← psEntries ps !! i;
                      if live e then Some i else None in
        match target with
        | None => psEvent EventNormal ReasonNothingToResume
                    ("no live download " +:+ reID r +:+ " to resume") ps
        | Some i => run_at i (issue v) ps
        end
  | None => ps
  end.

Definition intent_import (ps : Pass) : Pass :=
  match inImport (vIntents v) with
  | Some r =>
      if negb (pending (vIntents v) AnnotationDownloadImport (dnImport (nonces ps))) then ps
      else
        let ps := psNonces (fun n => n <| dnImport := iiNonce r |>) ps in
        match findEntry (psEntries ps) (iiID r) with
        | None => psEvent EventWarning ReasonInvalidAnnotation
                    ("download.clustarr.io/import names no download " +:+ iiID r) ps
        | Some _ => ps
        end
  | None => ps
  end.

(** The tombstones a confirmed unblock releases. *)
Definition unblocks (u : UnblockIntent) (e : DownloadEntry) : bool :=
  if negb (bool_decide (ePhase e = DownloadPhaseBlocklisted)) then false
  else if negb (String.eqb (uiInfoHash u) "")
  then EqualFold (drInfoHash (eRelease e)) (uiInfoHash u)
  else String.eqb (drIndexerRef (eRelease e)) (uiIndexer u)
       && String.eqb (drGUID (eRelease e)) (uiGUID u).

Definition intent_unblock (ps : Pass) : Pass :=
  match inUnblock (vIntents v) with
  | Some u =>
      if negb (pending (vIntents v) AnnotationDownloadUnblock (dnUnblock (nonces ps))) then ps
      else if map_true (vUnblocked v) (uiNonce u) then
        (psNonces (fun n => n <| dnUnblock := uiNonce u |>) ps)
          <| psD ::= fun d => d <| dUnblocked := Some (unblocks u) |> |>
      else
        let scope := if uiGlobal u then schema_BlockScopeGlobal else BlockScopeOf (vOwner v) in
        ps <| psD ::= fun d =>
          d_at v (Add d_now RepublishEvery)
            (addP pBlocks [mkBlockCall "" (uiNonce u) {|
               brOp := BlocklistOpUnblock;
               brScope := scope;
               brInfoHash := uiInfoHash u;
               brIndexer := uiIndexer u;
               brGUID := uiGUID u;
               brTitle := ""; brProtocol := ""; brReason := ""; brEntryID := "";
               brSeq := nextSeq 0 0 d_now;
               brBlockedAt := d_now;
               brUntil := 0; brLimit := 0; brOffset := 0 |}] d) |>
  | None => ps
  end.

(** [d.intents]. *)
Definition intents (ps : Pass) : Pass :=
  intent_unblock (intent_import (intent_resume (intent_remove
    (fold_left intent_invalid (inInvalid (vIntents v)) ps)))).

(** ** converge.go: the transfers no entry claims *)

(** [d.stillWants]: whether the owner wants the claim, and why not. *)
Definition stillWants (claim : TransferClaim) (rec : TransferRecord)
    (entries : list DownloadEntry) : bool * string :=
  if tcImported claim && negb (trSeedGoalReached rec) && vMonitored v
  then (true, "its seed goal is not met")
  else match vStillWants v with
       | Some f => f claim
       | None =>
           if negb (vMonitored v) then (false, "the owner is not monitored")
           else if existsb (fun e => String.eqb (ePurpose e) (tcPurpose claim) && live e
                                     && negb (SameSet e claim)) entries
           then (false, "the owner has another grab of it in flight")
           else if vHasFile v then (false, "the owner has a file")
           else (true, "")
       end.

(** [d.removeUnclaimed]. *)
Definition removeUnclaimed (rec : TransferRecord) (claim : TransferClaim) (why : string)
    (d : decider) : decider :=
  let '(client, ordinal, _) := splitEngine (trEngine rec) in
  let cmd := {|
    ecSeq := wrap64 (trSeq rec + 1);
    ecOwner := tcOwner claim;
    ecEntry := tcEntry claim;
    ecDesired := EngineDesiredAbsent;
    ecRemoveData := tcRemoveDataOnDelete claim;
    ecProtocol := ProtocolOther "";
    ecSource := None;
    ecExpectedInfoHash := "";
    ecRelease := mkCommandRelease (tcTitle claim) (tcGUID claim) (tcIndexer claim) 0;
    ecCategory := ""; ecSelection := None; ecPaused := false; ecPriority := "";
    ecHealthOverride := ""; ecSeedCriteria := None; ecRemoveOnImport := false;
    ecImported := false; ecImportedAt := None;
    ecClaim := claim;
    ecResyncSeq := 0; ecDownloadID := "";
    ecIssuedAt := d_now |} in
  let bootID := match vEngines v !! trEngine rec with
                | Some eng => if negb (String.eqb (enBootID eng) "")
                                 && negb (String.eqb (enBootID eng) (trBootID rec))
                              then enBootID eng else ""
                | None => ""
                end in
  d_at v (Add d_now RepublishEvery)
    (d_event EventNormal ReasonTransferOwnerGone
       ("removing the transfer " +:+ erID (tcEntry claim) +:+ " on " +:+ trEngine rec +:+ ": " +:+ why)
       (addP pCommands [mkCommand (trEngine rec) client ordinal bootID "" "" cmd false] d)).

(** [sourceOf]. *)
Definition sourceOf (claim : TransferClaim) : option DownloadSource :=
  if negb (String.eqb (tcIndexer claim) "") && negb (String.eqb (tcGUID claim) "") then
    Some (mkDownloadSource None None None
            (Some (mkIndexerDownload (tcIndexer claim) (tcGUID claim) "")) None)
  else if negb (String.eqb (tcInfoHash claim) "") then
    Some (mkDownloadSource (Some ("magnet:?xt=urn:btih:" +:+ ToLower (tcInfoHash claim)))
            None None None None)
  else None.

(** [d.recreate]; [None] is [ok = false]. *)
Definition recreate (rec : TransferRecord) (claim : TransferClaim) : option DownloadEntry :=
  let '(clientName, _, ok) := splitEngine (trEngine rec) in
  if negb ok then None
  else
    c ← d_clients v !! clientName;
    src ← sourceOf claim;
    let e := {|
      eID := erID (tcEntry claim);
      eUID := erUID (tcEntry claim);
      ePurpose := tcPurpose claim;
      eEpisodes := []; eIssues := [];
      eRelease := mkDownloadRelease (clampString (tcTitle claim) 512) (tcGUID claim)
                    (tcIndexer claim) "" (ToLower (tcInfoHash claim)) (clProtocol c) 0
                    (mkQuality "" "" 0 "") (mkRevision 0 0 false) 0 [] [] "" "";
      eSource := src;
      eClient := clName c;
      eEngine := trEngine rec;
      eGrabbedBy := GrabSourcePush;
      eGrabbedAt := if IsZero (trAddedAt rec) then d_now else trAddedAt rec;
      eManual := false;
      eQualityProfileRef := "";
      eSeedCriteria := None;
      eRemoveOnImport := false;
      eRemoveDataOnDelete := tcRemoveDataOnDelete claim;
      ePhase := phaseOfStage (trStage rec) DownloadPhaseAssigned;
      eStage := DownloadStageUnset;
      eFailureReason := DownloadFailureUnset;
      eOutputPath := "";
      eStartedAt := None; eCompletedAt := None; eSeedGoalMetAt := None; eFailedAt := None;
      eImport := None;
      eDispatch := zero_Dispatch;
      eMessage := "re-created from its transfer's claim";
      eBlock := None;
      eSet := (fun s => mkEntrySet (srID s) (srPart s) (srOf s)) <$> tcSet claim |} in
    let e := if tcImported claim then
               let seq := nextSeq 0 0 d_now in
               let e := e <| eImport := Some (zero_ImportSummary
                              <| isPhase := ImportPhaseImported |>
                              <| isImportedAt := Some d_now |>
                              <| isDispatch := mkDispatch seq seq d_now false "" None |>) |> in
               e <| ePhase := afterImport e |>
             else e in
    Some (e <| eDispatch ::= fun p => p <| dpSeq := trSeq rec |> <| dpAnsweredSeq := trSeq rec |> |>).

(** The same owner: its UID, or after a restore its name with an equal or
    absent provider id. *)
Definition same_owner (claim : TransferClaim) : bool :=
  String.eqb (irUID (tcOwner claim)) (irUID (vOwner v))
  || (String.eqb (irName (tcOwner claim)) (irName (vOwner v))
      && (String.eqb (tcProviderID claim) "" || String.eqb (vProviderID v) ""
          || String.eqb (tcProviderID claim) (vProviderID v))).

(** The entry cap leaves no room. *)
Definition at_cap (entries : list DownloadEntry) : bool :=
  (0 <? vEntryCap v) && (vEntryCap v <=? Z.of_nat (length entries)).

(** A record [converge] judges: claimed by nobody, present or failed. *)
Definition judged (rec : TransferRecord) : bool :=
  negb (trClaimed rec)
  && (bool_decide (trState rec = TransferStatePresent) || rec_failed rec).

(** One transfer of [d.converge]'s loop. *)
Definition converge_one (ps : Pass) (t : Transfer) : Pass :=
  let rec := tRecord t in
  match trClaim rec with
  | None => ps
  | Some claim =>
      if negb (judged rec) then ps
      else if hasEntry (psEntries ps) "" (erUID (tcEntry claim)) then ps
      else if negb (same_owner claim) then
        (if vProviderVerified v then
           ps <| psD ::= removeUnclaimed rec claim
             ("the transfer's owner is another item now (provider id " +:+ tcProviderID claim
              +:+ " against " +:+ vProviderID v +:+ ")") |>
         else ps)
      else if rec_failed rec then
        ps <| psD ::= removeUnclaimed rec claim "the transfer failed and no grab of it claims it" |>
      else
        let '(wanted, why) := stillWants claim rec (psEntries ps) in
        if negb wanted || vDeleting v || at_cap (psEntries ps) then
          ps <| psD ::= removeUnclaimed rec claim
            (if String.eqb why "" then "the owner no longer wants it" else why) |>
        else match recreate rec claim with
             | None => ps
             | Some e =>
                 let s := snd (issue v (mkCell (psD ps) e)) in
                 mkPass (psEntries ps ++ [cE s]) (cD s)
             end
  end.

(** [d.converge]. *)
Definition converge (ps : Pass) : Pass := fold_left converge_one (vUnclaimed v) ps.

(** ** plan.go: Decide *)

(** The grab stage's entries admitted beside the stored ones. *)
Definition admit_one (entries : list DownloadEntry) (ne : DownloadEntry) : list DownloadEntry :=
  if hasEntry entries (eID ne) (eUID ne) || at_cap entries then entries
  else entries ++ [if bool_decide (ePhase ne = DownloadPhaseUnset)
                   then ne <| ePhase := DownloadPhasePending |> else ne].

Definition admitted : list DownloadEntry :=
  if vDeleting v then vStored v else fold_left admit_one (vNewEntries v) (vStored v).

Definition init_decider : decider :=
  mk_decider (zero_Plan <| pNonces := vNonces v |>) None [] 0.

(** The owner's deletion moves every live entry to Removing. *)
Definition delete_one (ps : Pass) (i : nat) : Pass :=
  match psEntries ps !! i with
  | Some e => if live e then run_at i (toRemoving v "the owner is being deleted") ps else ps
  | None => ps
  end.

Definition deleting (ps : Pass) : Pass :=
  if vDeleting v then fold_left delete_one (seq 0 (length (psEntries ps))) ps else ps.

(** The step loop: [d.all] holds the entries as the steps leave them; the
    kept ones are collected. *)
Definition step_one (acc : list DownloadEntry * decider) (i : nat) : list DownloadEntry * decider :=
  let '(kept, d) := acc in
  match dAll d !! i with
  | None => acc
  | Some e =>
      let '(stays, s) := step v (mkCell (d <| dCur := i |>) e) in
      let d := (cD s) <| dAll ::= <[i := cE s]> |> in
      (if stays : bool then kept ++ [cE s] else kept, d)
  end.

Definition steps (ps : Pass) : Pass :=
  let d := (psD ps) <| dAll := psEntries ps |> in
  let '(kept, d) := fold_left step_one (seq 0 (length (psEntries ps))) ([], d) in
  mkPass kept d.

(** The entries and the decider before the step loop. *)
Definition prepared : Pass :=
  deleting (supersede (intents (mkPass admitted init_decider))).

Definition decided : Pass := converge (steps prepared).

(** [Decide]. *)
Definition Decide : Plan :=
  let kept := psEntries decided in
  (dPlan (psD decided))
    <| pEntries := kept |>
    <| pPhase := activePhase kept |>
    <| pFinalizer := Some (negb (bool_decide (kept = []))) |>.
End Decide.
