(* ===== verification/LcFrame.v ===== *)
(** * What a step leaves alone

    Every write of a step is one of four: a write to the entry that keeps its
    identity, a write to the decider that only extends the plan's effects, the
    due time, and the instant settled.  [StepFrame] is the interface a relation
    on cells offers for them; a relation with that interface holds across every
    computation of the lifecycle up to [step].  The instances are the frame of
    a step and the lower bound of the plan's due time. *)

From S2P Require Import Prelude GoLang Sha Api Names LcView LcChoose LcIntents LcState LcStep.

(** ** The writes *)

(** The identity of an entry: what no step ever writes. *)
Definition same_identity (e e' : DownloadEntry) : Prop :=
  eID e' = eID e /\ eUID e' = eUID e /\ ePurpose e' = ePurpose e /\
  eEpisodes e' = eEpisodes e /\ eIssues e' = eIssues e /\ eRelease e' = eRelease e /\
  eSource e' = eSource e /\ eManual e' = eManual e /\ eSet e' = eSet e /\
  eSeedCriteria e' = eSeedCriteria e /\ eRemoveOnImport e' = eRemoveOnImport e.

(** What a step keeps of the decider: the nonces, the unblock predicate and the
    entry slice; removals and redownloads are only appended. *)
Definition same_decider (d d' : decider) : Prop :=
  pNonces (dPlan d') = pNonces (dPlan d) /\ dUnblocked d' = dUnblocked d /\
  dAll d' = dAll d /\ dCur d' = dCur d /\
  pRedownloads (dPlan d) `prefix_of` pRedownloads (dPlan d') /\
  pRemovals (dPlan d) `prefix_of` pRemovals (dPlan d').

#[export] Instance same_identity_pre : PreOrder same_identity.
Proof.
  split.
  - intros e. repeat split.
  - intros e1 e2 e3 H1 H2. unfold same_identity in *. destruct_and!. repeat split; congruence.
Qed.

#[export] Instance same_decider_pre : PreOrder same_decider.
Proof.
  split.
  - intros d. repeat split; reflexivity.
  - intros d1 d2 d3 H1 H2. unfold same_decider in *. destruct_and!.
    repeat split; first [congruence | by etransitivity].
Qed.

(** A failed or blocklisted entry whose failure may start a search. *)
Definition redownloadable (v : View) (e : DownloadEntry) : Prop :=
  no_redownload e = false /\ IsZero (failed_at e) = false /\
  Sub (vNow v) (failed_at e) < RedownloadWindow.

Class StepFrame (v : View) (R : Cell -> Cell -> Prop) := {
  sf_pre :: PreOrder R;
  sf_onE f : (forall e, same_identity e (f e)) -> keeps R (onE f);
  sf_onD f : (forall d, same_decider d (f d)) ->
             (forall d, pDue (dPlan (f d)) = pDue (dPlan d) /\
                        pRedownloads (dPlan (f d)) = pRedownloads (dPlan d)) -> keeps R (onD f);
  sf_at t : keeps R (onD (d_at v t));
  sf_redownloads e : redownloadable v e ->
    keeps R (onD (addP pRedownloads (List.filter (owes_search v (failed_at e)) (covered_items v e))));
}.

(** Discharges the side conditions of [sf_onE] and [sf_onD]. *)
Ltac frame_write :=
  intros; unfold same_identity, same_decider; cbn;
  repeat split; first [reflexivity | by apply prefix_app_r].

#[export] Hint Extern 1 (keeps _ (put _ _)) => unfold put; apply sf_onE; frame_write : keeps.
#[export] Hint Extern 1 (keeps _ (onE _)) => apply sf_onE; frame_write : keeps.
#[export] Hint Extern 1 (keeps _ (onD (d_at _ _))) => apply sf_at : keeps.
#[export] Hint Extern 2 (keeps _ (onD _)) => apply sf_onD; frame_write : keeps.

Lemma keeps_getE (R : Cell -> Cell -> Prop) `{!Reflexive R} : keeps R getE.
Proof. by intros s. Qed.
Lemma keeps_getD (R : Cell -> Cell -> Prop) `{!Reflexive R} : keeps R getD.
Proof. by intros s. Qed.
#[export] Hint Extern 1 (keeps _ getE) => apply keeps_getE; typeclasses eauto : keeps.
#[export] Hint Extern 1 (keeps _ getD) => apply keeps_getD; typeclasses eauto : keeps.

Section Steps.
Context `{Unicode} `{Marshal} (v : View) (R : Cell -> Cell -> Prop) `{!StepFrame v R}.

Lemma keeps_at t : keeps R (at_ v t).
Proof. apply sf_at. Qed.
Lemma keeps_event a b c : keeps R (event a b c).
Proof. unfold event, d_event. keeps. Qed.
Lemma keeps_history a b : keeps R (history v a b).
Proof. unfold history, d_history. keeps. Qed.
Hint Resolve keeps_at keeps_event keeps_history : keeps.

Lemma settled_run e s :
  snd (settled v e s) = s \/ exists t, snd (settled v e s) = s <| cD ::= d_at v t |>.
Proof.
  destruct s as [d e0]. unfold settled, d_settled.
  repeat case_match; cbn; simplify_eq; eauto.
Qed.

Lemma keeps_settled e : keeps R (settled v e).
Proof.
  intros s. destruct (settled_run e s) as [-> | [t ->]]; [reflexivity | apply (sf_at t)].
Qed.
Hint Resolve keeps_settled : keeps.

Lemma keeps_observe rec : keeps R (observe v rec).
Proof. unfold observe, d_history. keeps. Qed.
Lemma keeps_emit rec retry : keeps R (emit v rec retry).
Proof. unfold emit. keeps. Qed.
Hint Resolve keeps_emit keeps_observe : keeps.
Lemma keeps_issue : keeps R (issue v).
Proof. unfold issue. keeps. Qed.
Hint Resolve keeps_issue : keeps.
Lemma keeps_owe : keeps R (owe v).
Proof. unfold owe, d_event, mark_last_retry. keeps. Qed.
Hint Resolve keeps_owe : keeps.

Lemma keeps_toRemoving why : keeps R (toRemoving v why).
Proof. unfold toRemoving. keeps. Qed.
Lemma keeps_toFailed reason msg : keeps R (toFailed v reason msg).
Proof. unfold toFailed, failedNow. keeps. Qed.
Lemma keeps_toBlocklisted reason msg : keeps R (toBlocklisted v reason msg).
Proof. unfold toBlocklisted, failedNow. keeps. Qed.
Lemma keeps_toImported : keeps R (toImported v).
Proof. unfold toImported. keeps. Qed.
Hint Resolve keeps_toRemoving keeps_toFailed keeps_toBlocklisted keeps_toImported : keeps.

Lemma keeps_pending : keeps R (d_pending v).
Proof. unfold d_pending, waiting. keeps. Qed.
Lemma keeps_failed rec : keeps R (d_failed v rec).
Proof. unfold d_failed. keeps. Qed.
Lemma keeps_stalled rec c : keeps R (d_stalled v rec c).
Proof. unfold d_stalled, d_no_progress, d_timed_out. keeps. Qed.
Lemma keeps_importStep : keeps R (importStep v).
Proof. unfold importStep. keeps. Qed.
Hint Resolve keeps_pending keeps_failed keeps_stalled keeps_importStep : keeps.
Lemma keeps_setImport : keeps R (setImport v).
Proof. unfold setImport. keeps. Qed.
Hint Resolve keeps_setImport : keeps.
Lemma keeps_live_effects rec c : keeps R (live_effects v rec c).
Proof. unfold live_effects. keeps. Qed.
Hint Resolve keeps_live_effects : keeps.
Lemma keeps_live_held rec c : keeps R (live_held v rec c).
Proof. unfold live_held. keeps. Qed.
Lemma keeps_live_not_held rec : keeps R (live_not_held v rec).
Proof. unfold live_not_held. keeps. Qed.
Hint Resolve keeps_live_held keeps_live_not_held : keeps.
Lemma keeps_live rec : keeps R (d_live v rec).
Proof. unfold d_live. keeps. Qed.

Lemma keeps_transferGone rec : keeps R (transferGone v rec).
Proof. unfold transferGone. keeps. Qed.
Lemma keeps_finishRemoval : keeps R (finishRemoval v).
Proof. unfold finishRemoval. keeps. Qed.
Lemma keeps_confirmBlock b : keeps R (confirmBlock v b).
Proof. unfold confirmBlock. keeps. Qed.
Lemma keeps_redownload : keeps R (redownload v).
Proof.
  unfold redownload. apply keeps_bind; [typeclasses eauto | keeps |]. intros e.
  destruct (no_redownload e) eqn:En; [keeps |].
  destruct (_ || _) eqn:Ew; [keeps |]. bools.
  apply keeps_bind; [typeclasses eauto | by apply sf_redownloads |]. intros ?. keeps.
Qed.
Hint Resolve keeps_live keeps_transferGone keeps_finishRemoval keeps_confirmBlock
  keeps_redownload : keeps.
Lemma keeps_removing rec : keeps R (removing v rec).
Proof. unfold removing. keeps. Qed.
Lemma keeps_terminal rec : keeps R (terminal v rec).
Proof. unfold terminal, terminal_drop. keeps. Qed.
Hint Resolve keeps_removing keeps_terminal : keeps.
Lemma keeps_step : keeps R (step v).
Proof. unfold step. keeps. Qed.
End Steps.

#[export] Hint Resolve keeps_at keeps_event keeps_history keeps_settled
  keeps_observe keeps_issue keeps_owe keeps_toRemoving keeps_toFailed keeps_toBlocklisted
  keeps_toImported keeps_pending keeps_failed keeps_live keeps_transferGone keeps_finishRemoval
  keeps_confirmBlock keeps_redownload keeps_removing keeps_terminal keeps_step : keeps.

(** ** The frame of a step *)

Definition frame (s s' : Cell) : Prop :=
  same_identity (cE s) (cE s') /\ same_decider (cD s) (cD s').

#[export] Instance frame_pre : PreOrder frame.
Proof.
  unfold frame. split; [intros s; split; reflexivity |].
  intros s t u [] []. split; by etransitivity.
Qed.

(** The writes of the frame, which no view enters. *)
Lemma frame_onE f : (forall e, same_identity e (f e)) -> keeps frame (onE f).
Proof. intros Hf [d e]. split; [apply Hf | reflexivity]. Qed.
Lemma frame_onD f : (forall d, same_decider d (f d)) -> keeps frame (onD f).
Proof. intros Hf [d e]. split; [reflexivity | apply Hf]. Qed.

#[export] Hint Extern 0 (keeps frame (put _ _)) => unfold put; apply frame_onE; frame_write : keeps.
#[export] Hint Extern 0 (keeps frame (event _ _ _)) =>
  unfold event, d_event; apply frame_onD; frame_write : keeps.

Lemma d_at_run v t d :
  d_at v t d = d \/
  exists t', d_at v t d = d <| dPlan ::= fun p => p <| pDue := t' |> |> /\ vNow v < t'.
Proof.
  unfold d_at, d_now, After, Add, Second. destruct (IsZero t); [by left |].
  destruct (_ || _); [right | by left].
  destruct (vNow v <? t) eqn:E; bools; eexists; (split; [reflexivity | lia]).
Qed.

#[export] Instance frame_step v : StepFrame v frame.
Proof.
  split.
  - exact _.
  - apply frame_onE.
  - intros f Hf _. by apply frame_onD.
  - intros t [d e]. split; [reflexivity |]. cbn.
    destruct (d_at_run v t d) as [-> | (t' & -> & _)]; [reflexivity | frame_write].
  - intros e _. apply frame_onD. frame_write.
Qed.

(** ** What every plan promises: its due time is in the future, and every search
    it asks for is owed *)

Definition due_ok (v : View) (d : decider) : Prop :=
  pDue (dPlan d) = 0 \/ vNow v < pDue (dPlan d).

(** A failure of a recent grab owes the item's search. *)
Definition owed (v : View) (it : ItemRef) : Prop :=
  exists e, redownloadable v e /\ it ∈ covered_items v e /\ owes_search v (failed_at e) it = true.

Definition plan_ok (v : View) (d : decider) : Prop :=
  due_ok v d /\ forall it, it ∈ pRedownloads (dPlan d) -> owed v it.

Definition keeps_ok (v : View) (s s' : Cell) : Prop := plan_ok v (cD s) -> plan_ok v (cD s').

Lemma plan_ok_eq v d d' :
  pDue (dPlan d') = pDue (dPlan d) -> pRedownloads (dPlan d') = pRedownloads (dPlan d) ->
  plan_ok v d -> plan_ok v d'.
Proof. unfold plan_ok, due_ok. by intros -> ->. Qed.

Lemma plan_ok_at v t d : plan_ok v d -> plan_ok v (d_at v t d).
Proof.
  destruct (d_at_run v t d) as [-> | (t' & -> & ?)]; [done |]. intros [_ Hr].
  split; [by right | exact Hr].
Qed.

#[export] Instance ok_step v : StepFrame v (keeps_ok v).
Proof.
  unfold keeps_ok. split.
  - split; [by intros s | intros s t u H1 H2 H3; auto].
  - by intros f Hf [d e].
  - intros f _ Hf [d e]. by apply plan_ok_eq; apply Hf.
  - intros t [d e]. apply plan_ok_at.
  - intros e He [d e']. cbn. intros [Hd Hr]. split; [exact Hd |]. cbn.
    intros it [Hit | Hit]%elem_of_app; [by apply Hr |].
    apply list_elem_of_In, List.filter_In in Hit as [Hin Hs].
    exists e. split; [done |]. split; [by apply list_elem_of_In | done].
Qed.
