(* ===== verification/LcStepFacts.v ===== *)
(** * The state machine of one entry

    What [step] does to an entry's status: the abstract phase machine it
    refines, the evidence every removal needs, the quarantine of a tombstone
    and the command a live entry is owed. *)

From S2P Require Import Prelude GoLang Sha Api Names LcView LcChoose LcIntents LcState LcStep LcFrame LcExample.

(** ** Status: what only the transitions write *)

Definition status (e : DownloadEntry) :=
  (ePhase e, eFailureReason e, eImport e, eBlock e, eFailedAt e,
   (eEngine e, eClient e, eRemoveDataOnDelete e, eGrabbedAt e)).

Definition keeps_status (s s' : Cell) : Prop :=
  status (cE s') = status (cE s) /\ same_identity (cE s) (cE s').

#[export] Instance keeps_status_pre : PreOrder keeps_status.
Proof.
  unfold keeps_status. split; [intros s; split; reflexivity |].
  intros s t u [] []. split; [congruence | by etransitivity].
Qed.

Lemma keeps_status_onE f :
  (forall e, status (f e) = status e /\ same_identity e (f e)) -> keeps keeps_status (onE f).
Proof. intros Hf [d e]. apply Hf. Qed.

Lemma keeps_status_onD f : keeps keeps_status (onD f).
Proof. by intros [d e]. Qed.

(** The status facts of a state [s'] related to [s], as rewriting rules. *)
Ltac status_split H :=
  let Hs := fresh "Hst" in let Hi := fresh "Hid" in
  destruct H as [Hs Hi]; unfold status in Hs; unfold same_identity in Hi; cbn in Hs, Hi;
  simplify_eq; destruct_and!.

Local Hint Extern 1 (keeps keeps_status (put _ _)) =>
  unfold put; apply keeps_status_onE; intros; split; [reflexivity | by repeat split] : keeps.
Local Hint Extern 1 (keeps keeps_status (onE _)) =>
  apply keeps_status_onE; intros; split; [reflexivity | by repeat split] : keeps.
Local Hint Resolve keeps_status_onD : keeps.
Local Hint Extern 1 (keeps keeps_status getE) => apply keeps_gets; typeclasses eauto : keeps.
Local Hint Extern 1 (keeps keeps_status getD) => apply keeps_gets; typeclasses eauto : keeps.

Section Status.
Context `{Unicode} `{Marshal} (v : View).

Lemma status_observe rec : keeps keeps_status (observe v rec).
Proof. unfold observe. keeps. Qed.
Lemma status_emit rec b : keeps keeps_status (emit v rec b).
Proof. unfold emit. keeps. Qed.
Hint Resolve status_emit : keeps.
Lemma status_issue : keeps keeps_status (issue v).
Proof. unfold issue. keeps. Qed.
Hint Resolve status_issue : keeps.
Lemma status_owe : keeps keeps_status (owe v).
Proof. unfold owe. keeps. Qed.
Lemma status_at t : keeps keeps_status (at_ v t).
Proof. unfold at_. keeps. Qed.
Lemma status_event a b c : keeps keeps_status (event a b c).
Proof. unfold event. keeps. Qed.
Lemma status_history a b : keeps keeps_status (history v a b).
Proof. unfold history. keeps. Qed.
Lemma status_settled e : keeps keeps_status (settled v e).
Proof.
  intros s. destruct (settled_run v e s) as [-> | [t ->]]; [reflexivity | by destruct s].
Qed.
End Status.

(** Walks a computation of the lifecycle, stopping at its operations. *)
Ltac lc_step :=
  first
    [ wp_step
    | lazymatch goal with
      | |- wp getE _ _ => apply wp_gets
      | |- wp getD _ _ => apply wp_gets
      | |- wp (put _ _) _ _ => apply wp_modify
      | |- wp (onE _) _ _ => apply wp_modify
      | |- wp (onD _) _ _ => apply wp_modify
      end ].
Ltac lc := repeat lc_step.

(** ** The transitions' effect on the status *)

(** [s'] holds the entry of [s], its status now that of [e']. *)
Definition reaches (e' : DownloadEntry) (s s' : Cell) : Prop :=
  status (cE s') = status e' /\ same_identity (cE s) (cE s').

Definition removing_e (e : DownloadEntry) : DownloadEntry := e <| ePhase := DownloadPhaseRemoving |>.

Definition stamp_failed (now : Time) (e : DownloadEntry) : DownloadEntry :=
  e <| eFailedAt ::= fun t => match t with None => Some now | _ => t end |>.

Definition failed_e (now : Time) (reason : DownloadFailureReason) (e : DownloadEntry) : DownloadEntry :=
  stamp_failed now (e <| ePhase := DownloadPhaseFailed |> <| eFailureReason := reason |>).

Definition block_seq (e : DownloadEntry) (now : Time) : Z :=
  nextSeq 0 (match eBlock e with Some b => ebSeq b | None => 0 end) now.

Definition blocklisted_e (now : Time) (reason : DownloadFailureReason) (e : DownloadEntry) : DownloadEntry :=
  (stamp_failed now (e <| ePhase := DownloadPhaseBlocklisted |> <| eFailureReason := reason |>))
    <| eBlock := Some (mkEntryBlock (ScopeFor reason) reason (block_seq e now) None) |>.

Definition imported_e (now : Time) (e : DownloadEntry) : DownloadEntry :=
  let e := e <| eImport ::= fun i =>
    let i := (default zero_ImportSummary i) <| isPhase := ImportPhaseImported |> in
    Some (match isImportedAt i with None => i <| isImportedAt := Some now |> | Some _ => i end) |> in
  e <| ePhase := afterImport e |>.

Lemma imported_e_imported now e : imported (imported_e now e) = true.
Proof.
  unfold imported, imported_e. cbn. destruct (eImport e) as [i |]; cbn; [| done].
  destruct (isImportedAt i) eqn:E; cbn; [| done]. rewrite E. by rewrite bool_decide_true.
Qed.

Lemma imported_e_phase now e : ePhase (imported_e now e) = afterImport e.
Proof. reflexivity. Qed.

Section Transitions.
Context `{Unicode} `{Marshal} (v : View).

(** A computation that keeps the status, consumed in a [wp] goal. *)
Lemma wp_status {A} (m : M Cell A) Q s :
  keeps keeps_status m -> (forall a s', keeps_status s s' -> Q a s') -> wp m Q s.
Proof. apply wp_keeps. Qed.

Lemma wp_issue (Q : unit -> Cell -> Prop) s :
  (forall s', keeps_status s s' -> Q tt s') -> wp (issue v) Q s.
Proof. intros HQ. eapply wp_status; [apply status_issue |]. intros [] s'. apply HQ. Qed.

Lemma wp_toRemoving why (Q : unit -> Cell -> Prop) s :
  (forall s', reaches (removing_e (cE s)) s s' -> Q tt s') -> wp (toRemoving v why) Q s.
Proof.
  intros HQ. unfold toRemoving. lc.
  - bools. apply HQ. split; [| reflexivity].
    unfold status, removing_e. cbn. by rewrite Heqb.
  - apply wp_issue. intros s' [Hs Hi]. apply HQ. split; [exact Hs | exact Hi].
Qed.

Lemma wp_history a b (Q : unit -> Cell -> Prop) s :
  (forall s', keeps_status s s' -> Q tt s') -> wp (history v a b) Q s.
Proof. intros HQ. eapply wp_status; [apply status_history |]. intros [] s'. apply HQ. Qed.

Lemma wp_toFailed reason msg (Q : unit -> Cell -> Prop) s :
  (forall s', reaches (failed_e (vNow v) reason (cE s)) s s' -> Q tt s') ->
  wp (toFailed v reason msg) Q s.
Proof.
  intros HQ. unfold toFailed, failedNow. lc. apply wp_issue. intros s1 [Hs1 Hi1].
  apply wp_history. intros s2 [Hs2 Hi2]. apply HQ.
  split; [by rewrite Hs2, Hs1 | etransitivity; [exact Hi1 | exact Hi2]].
Qed.

Lemma wp_toBlocklisted reason msg (Q : unit -> Cell -> Prop) s :
  (forall s', reaches (blocklisted_e (vNow v) reason (cE s)) s s' -> Q tt s') ->
  wp (toBlocklisted v reason msg) Q s.
Proof.
  intros HQ. unfold toBlocklisted, failedNow. lc. apply wp_issue. intros s1 [Hs1 Hi1].
  lc. apply wp_history. intros s2 [Hs2 Hi2].
  apply wp_history. intros s3 [Hs3 Hi3]. apply HQ.
  split; [by rewrite Hs3, Hs2, Hs1 |].
  etransitivity; [exact Hi1 | etransitivity; [exact Hi2 | exact Hi3]].
Qed.

Lemma wp_toImported (Q : unit -> Cell -> Prop) s :
  (forall s', reaches (imported_e (vNow v) (cE s)) s s' -> Q tt s') -> wp (toImported v) Q s.
Proof.
  intros HQ. unfold toImported. lc. apply wp_issue. intros s1 [Hs1 Hi1].
  apply wp_history. intros s2 [Hs2 Hi2]. apply HQ.
  split; [by rewrite Hs2, Hs1 | etransitivity; [exact Hi1 | exact Hi2]].
Qed.
End Transitions.

(** ** A live entry leaves only on positive evidence *)

(** The client a live entry's rows read; Go's zero client when it is gone. *)
Definition client_of (v : View) (e : DownloadEntry) : Client :=
  default zero_Client (d_clients v !! eClient e).

Definition remove_after (v : View) (e : DownloadEntry) : bool :=
  eRemoveOnImport e || clRemoveCompleted (client_of v e).

(** The grounds on which the state machine takes a live entry's transfer down
    (doc.go, "Data safety"): a dead part set, a failure the record reports, the
    health floor, a stall, a timeout, importplan's verdict, a met seed goal or
    a finished import.  [es] are the owner's entries, [rec] the entry's
    transfer record. *)
Inductive evidence (v : View) (es : list DownloadEntry) (e : DownloadEntry)
    (rec : option TransferRecord) : Prop :=
  | ev_set why : setFailure es e = Some why -> evidence v es e rec
  | ev_failure r : rec = Some r ->
      rec_failed r || IsFailure (trEngineFailureReason r) = true -> evidence v es e rec
  | ev_health r : rec = Some r -> trHealthPaused r = true ->
      clHealthAction (client_of v e) = HealthActionDelete -> evidence v es e rec
  | ev_stalled r : rec = Some r -> trWaitingTurn r = false ->
      0 < stall_limit (client_of v e) -> last_progress r <> 0 ->
      stall_limit (client_of v e) < Sub (vNow v) (last_progress r) -> evidence v es e rec
  | ev_timeout r t : rec = Some r -> trStartedAt r = Some t ->
      0 < clDownloadTimeout (client_of v e) < Sub (vNow v) t -> evidence v es e rec
  | ev_verdict dec : vImport v !! eUID e = Some dec ->
      idVerdict dec = ImportReleaseFault \/ idVerdict dec = ImportExpired -> evidence v es e rec
  | ev_seeded r : rec = Some r -> live_phase v r e = DownloadPhaseSeeding ->
      trSeedGoalReached r = true -> remove_after v e = true -> evidence v es e rec
  | ev_imported r : rec = Some r -> live_phase v r e = DownloadPhaseImported ->
      remove_after v e = true -> evidence v es e rec.

Lemma live_status e e' : status e = status e' -> live e = live e'.
Proof.
  unfold status, live. intros E.
  assert (ePhase e = ePhase e') as -> by congruence. done.
Qed.

Lemma imported_status e e' : status e = status e' -> imported e = imported e'.
Proof.
  unfold status, imported. intros E.
  assert (eImport e = eImport e') as -> by congruence. done.
Qed.

Lemma sameSet_insert i e e' l :
  eUID e' = eUID e -> eSet e' = eSet e -> sameSet (<[i:=e']> l) e' = sameSet (<[i:=e]> l) e.
Proof.
  unfold sameSet. intros HU HS. rewrite HS, HU. destruct (eSet e) as [set |]; [| done].
  revert i. induction l as [| x l IH]; intros [| i]; cbn; rewrite ?HU, ?String.eqb_refl;
    [done.. |].
  destruct (_ && _); by rewrite IH.
Qed.

Lemma setFailure_insert i e e' l :
  eUID e' = eUID e -> eSet e' = eSet e -> imported e' = imported e ->
  setFailure (<[i:=e']> l) e' = setFailure (<[i:=e]> l) e.
Proof.
  intros HU HS HI. unfold setFailure. rewrite (sameSet_insert i e e' l HU HS), HS, HI. done.
Qed.

(** The set's verdict on an entry does not change while its step runs. *)
Lemma setFailure_now s s' :
  same_identity (cE s) (cE s') -> imported (cE s') = imported (cE s) ->
  same_decider (cD s) (cD s') ->
  setFailure (entries_now s') (cE s') = setFailure (entries_now s) (cE s).
Proof.
  unfold same_identity, same_decider, entries_now. intros Hi HI Hd. destruct_and!.
  replace (dCur (cD s')) with (dCur (cD s)) by congruence.
  replace (dAll (cD s')) with (dAll (cD s)) by congruence.
  apply setFailure_insert; congruence.
Qed.

Section Evidence.
Context `{Unicode} `{Marshal} (v : View) (E : Prop).

(** [E] follows if the computation ends the entry's life. *)
Definition ends (b : bool) (s' : Cell) : Prop := b = false \/ live (cE s') = false -> E.

Lemma live_of s s' : keeps_status s s' -> live (cE s) = true -> live (cE s') = true.
Proof. intros [Hs _] <-. by apply live_status. Qed.

Lemma ends_true s : live (cE s) = true -> ends true s.
Proof. intros Hl [? | Hd]; [done | congruence]. Qed.

Lemma wp_owe_live s : live (cE s) = true -> wp (owe v) (fun _ => ends true) s.
Proof.
  intros Hl. eapply wp_status; [apply status_owe |]. intros ? s' Hs.
  by apply ends_true, (live_of _ _ Hs).
Qed.

Lemma wp_issue_live s : live (cE s) = true -> wp (issue v) (fun _ => ends true) s.
Proof.
  intros Hl. eapply wp_status; [apply status_issue |]. intros ? s' Hs.
  by apply ends_true, (live_of _ _ Hs).
Qed.

Definition pending_cell (s : Cell) : Cell :=
  s <| cE ::= fun e => e <| ePhase := DownloadPhasePending |> |>.

Lemma wp_pending s :
  (forall why, setFailure (entries_now (pending_cell s)) (cE (pending_cell s)) = Some why -> E) ->
  wp (d_pending v) ends s.
Proof.
  intros HE. unfold d_pending, waiting. lc.
  - apply wp_any. intros. lc. intros _. eauto.
  - eapply wp_status; [apply status_at |]. intros ? s' Hs. lc.
    by apply ends_true, (live_of _ _ Hs).
  - apply wp_issue. intros s1 Hs1. lc. apply wp_history. intros s2 Hs2. lc.
    all: apply ends_true; cbn; apply (live_of s1); [exact Hs2 |]; by apply (live_of _ _ Hs1).
  - eapply wp_status; [apply status_at |]. intros ? s' Hs. lc.
    by apply ends_true, (live_of _ _ Hs).
Qed.

Lemma wp_failed rec s : E -> wp (d_failed v rec) ends s.
Proof. intros HE. apply wp_any. by intros ? ? _. Qed.

(** The two clocks of [d_stalled] end the entry, or leave its status. *)
Definition clock (s : Cell) (b : bool) (s' : Cell) : Prop :=
  (b = true -> E) /\ (b = false -> keeps_status s s').

Lemma wp_no_progress rec c s :
  (trWaitingTurn rec = false -> 0 < stall_limit c -> last_progress rec <> 0 ->
   stall_limit c < Sub (vNow v) (last_progress rec) -> E) ->
  wp (d_no_progress v rec c) (clock s) s.
Proof.
  intros HE. unfold d_no_progress, IsZero, LcState.d_now. lc; bools.
  - apply wp_any. intros. lc. split; [intros _ | done]. apply HE; auto.
  - eapply wp_status; [apply status_at |]. intros ? s2 Hs2. lc. by split.
  - by split.
Qed.

Lemma wp_timed_out rec c s :
  (forall t, trStartedAt rec = Some t -> 0 < clDownloadTimeout c < Sub (vNow v) t -> E) ->
  wp (d_timed_out v rec c) (clock s) s.
Proof.
  intros HE. unfold d_timed_out, LcState.d_now. lc; bools.
  - apply wp_any. intros. lc. split; [intros _ | done]. eapply HE; eauto.
  - eapply wp_status; [apply status_at |]. intros ? s2 Hs2. lc. by split.
  - by split.
  - by split.
Qed.

Lemma wp_stalled rec c s :
  (trWaitingTurn rec = false -> 0 < stall_limit c -> last_progress rec <> 0 ->
   stall_limit c < Sub (vNow v) (last_progress rec) -> E) ->
  (forall t, trStartedAt rec = Some t -> 0 < clDownloadTimeout c < Sub (vNow v) t -> E) ->
  wp (d_stalled v rec c) (clock s) s.
Proof.
  intros H1 H2. unfold d_stalled. lc; [by split |].
  eapply wp_mono; [by apply wp_no_progress |]. intros [] s1 [Ht Hf]; lc; [by split |].
  eapply wp_mono; [by apply wp_timed_out |]. intros b s2 [Ht' Hf'].
  split; [done |]. intros Hb. etransitivity; [apply Hf | apply Hf']; done.
Qed.

(** The import steps leave the entry live, but for a verdict. *)
Definition ends_live (b : bool) (s' : Cell) : Prop := live (cE s') = false -> E.

Lemma live_imported_e now e : live (imported_e now e) = true.
Proof. unfold live. rewrite imported_e_phase. unfold afterImport. by case_bool_decide. Qed.

Lemma wp_imported_live (Q : unit -> Cell -> Prop) s :
  (forall s', live (cE s') = true -> Q tt s') -> wp (toImported v) Q s.
Proof.
  intros HQ. apply wp_toImported. intros s' [Hs _]. apply HQ.
  by rewrite (live_status _ _ Hs), live_imported_e.
Qed.

Lemma ends_live_of b s : live (cE s) = true -> ends_live b s.
Proof. intros Hl Hd. congruence. Qed.

Lemma wp_importStep s :
  live (cE s) = true ->
  (forall dec, vImport v !! eUID (cE s) = Some dec ->
     idVerdict dec = ImportReleaseFault \/ idVerdict dec = ImportExpired -> E) ->
  wp (importStep v) ends_live s.
Proof.
  intros Hl HE. unfold importStep. lc; try by apply ends_live_of.
  all: try (eapply wp_status; [apply status_at |]; intros ? s1 Hs1; lc;
    try (apply ends_live_of; by apply (live_of _ _ Hs1))).
  all: try (apply wp_imported_live; intros s' Hs'; lc; by apply ends_live_of).
  all: apply wp_any; intros; lc; intros _; eauto.
Qed.

Lemma wp_setImport s :
  live (cE s) = true ->
  (forall dec, vImport v !! eUID (cE s) = Some dec ->
     idVerdict dec = ImportReleaseFault \/ idVerdict dec = ImportExpired -> E) ->
  wp (setImport v) ends_live s.
Proof.
  intros Hl HE. unfold setImport. lc.
  all: first [by apply ends_live_of | by apply wp_importStep
             | apply wp_imported_live; intros s' Hs'; lc; by apply ends_live_of].
Qed.

Lemma wp_live_effects rec c s :
  live (cE s) = true ->
  (forall dec, vImport v !! eUID (cE s) = Some dec ->
     idVerdict dec = ImportReleaseFault \/ idVerdict dec = ImportExpired -> E) ->
  (trWaitingTurn rec = false -> 0 < stall_limit c -> last_progress rec <> 0 ->
   stall_limit c < Sub (vNow v) (last_progress rec) -> E) ->
  (forall t, trStartedAt rec = Some t -> 0 < clDownloadTimeout c < Sub (vNow v) t -> E) ->
  (ePhase (cE s) = DownloadPhaseSeeding -> trSeedGoalReached rec = true ->
   eRemoveOnImport (cE s) || clRemoveCompleted c = true -> E) ->
  (ePhase (cE s) = DownloadPhaseImported -> eRemoveOnImport (cE s) || clRemoveCompleted c = true -> E) ->
  wp (live_effects v rec c) ends_live s.
Proof.
  intros Hl HI HS HT HG HD. unfold live_effects. lc.
  all: try (by apply ends_live_of).
  all: try (eapply wp_mono; [exact (wp_stalled _ _ _ HS HT) |]; intros [] s' [Ht Hf];
    [intros _; by apply Ht | apply ends_live_of, (live_of _ _ (Hf eq_refl) Hl)]).
  all: try (by apply wp_setImport).
  all: try (by apply wp_importStep).
  all: try (apply wp_any; intros; lc; intros _; bools; by eauto).
  all: apply wp_history; intros s1 Hs1; pose proof (live_of _ _ Hs1 Hl) as Hl1; lc.
  all: destruct Hs1 as [_ (? & HU & _)]; cbn in HU.
  all: first [apply wp_setImport | apply wp_importStep]; [done | by rewrite HU].
Qed.
End Evidence.

Section LiveEvidence.
Context `{Unicode} `{Marshal} (v : View).

(** The evidence against the entry of a cell. *)
Definition against (s : Cell) (rec : option TransferRecord) : Prop :=
  evidence v (entries_now s) (cE s) rec.

Lemma live_phase_live rec e : live e = true -> live (e <| ePhase := live_phase v rec e |>) = true.
Proof.
  unfold live, live_phase, afterImport, phaseOfStage. cbn.
  intros Hl. repeat case_match; done.
Qed.

Lemma wp_live_held r s :
  live (cE s) = true ->
  wp (live_held v r (client_of v (cE s))) (ends (against s (Some r))) s.
Proof.
  intros Hl. unfold live_held.
  pose proof (live_phase_live r (cE s) Hl) as Hl1.
  assert (forall s1, keeps_status (s <| cE ::= fun e => e <| ePhase := live_phase v r (cE s) |> |>) s1 ->
    wp (live_effects v r (client_of v (cE s)))
      (fun ended => wp (if ended : bool then ret true else (owe v;; ret true)%monad)
         (ends (against s (Some r)))) s1) as Heff.
  { intros s1 Hs1.
    pose proof (live_of _ _ Hs1 Hl1) as Hl2.
    destruct Hs1 as [Hst Hid]. unfold status, same_identity in *. cbn in Hst, Hid.
    destruct Hid as (_ & HU & _ & _ & _ & _ & _ & _ & _ & _ & HR).
    assert (ePhase (cE s1) = live_phase v r (cE s)) as Hp by congruence. clear Hst.
    eapply wp_mono.
    - apply (wp_live_effects v (against s (Some r))); [done | ..].
      + intros dec. rewrite HU. intros. by eapply ev_verdict.
      + intros. by eapply ev_stalled.
      + intros. by eapply ev_timeout.
      + rewrite Hp, HR. intros. by eapply ev_seeded.
      + rewrite Hp, HR. intros. by eapply ev_imported.
    - intros [] s2 Hs2; lc.
      + intros [|Hd]; [done | by apply Hs2].
      + destruct (live (cE s2)) eqn:Hl3.
        * eapply wp_mono; [by apply wp_owe_live |]. intros [] s3 Hs3. by lc.
        * apply wp_any. intros. lc. intros _. by apply Hs2. }
  lc; bools.
  - apply wp_failed. eapply ev_failure; [done |]. by rewrite Heqb.
  - apply wp_any. intros. lc. intros _. by eapply ev_health.
  - apply Heff. split; [reflexivity | by repeat split].
  - apply Heff. reflexivity.
Qed.

Lemma wp_live_not_held rec s :
  live (cE s) = true -> wp (live_not_held v rec) (ends (against s rec)) s.
Proof.
  intros Hl. unfold live_not_held. lc.
  eapply wp_status; [apply status_settled |]. intros r s1 Hs1.
  pose proof (live_of _ _ Hs1 Hl) as Hl1. destruct r as [ok settledAt]. lc.
  - eapply wp_mono; [by apply wp_issue_live |]. intros [] s3 Hs3. by lc.
  - apply wp_failed. eapply ev_failure; [done |]. by rewrite Heqb0.
  - eapply wp_mono; [by apply wp_owe_live |]. intros [] s3 Hs3. by lc.
  - eapply wp_mono; [by apply wp_owe_live |]. intros [] s3 Hs3. by lc.
Qed.

Lemma wp_d_live rec s :
  live (cE s) = true -> wp (d_live v rec) (ends (against s rec)) s.
Proof.
  intros Hl. unfold d_live. lc.
  - apply wp_any. intros. lc. intros _. by eapply ev_set.
  - apply wp_pending. intros why Hw. eapply (ev_set _ _ _ _ why).
    rewrite <- Hw. symmetry. unfold pending_cell, entries_now. by apply setFailure_insert.
  - eapply wp_mono; [by apply wp_issue_live |]. intros [] s3 Hs3. by lc.
  - by apply wp_live_held.
  - by apply wp_live_not_held.
  - by apply wp_live_not_held.
Qed.

Lemma evidence_status es es' e e' rec :
  status e' = status e -> same_identity e e' -> setFailure es' e' = setFailure es e ->
  evidence v es' e' rec -> evidence v es e rec.
Proof.
  intros Hst Hid Hset. pose proof (imported_status _ _ Hst) as Himp.
  assert (afterImport e' = afterImport e) as HA.
  { unfold afterImport. by replace (eRelease e') with (eRelease e) by (symmetry; apply Hid). }
  unfold status, same_identity in *. destruct_and!.
  assert (client_of v e' = client_of v e) as Hc by (unfold client_of; congruence).
  assert (remove_after v e' = remove_after v e) as Hr by (unfold remove_after; congruence).
  assert (forall r, live_phase v r e' = live_phase v r e) as HP.
  { intros r. unfold live_phase. rewrite Himp, HA.
    replace (eID e') with (eID e) by congruence.
    by replace (ePhase e') with (ePhase e) by congruence. }
  intros Hev. destruct Hev as [why Hw | r Hrec Hf | | | | dec Hd Hv | |].
  - apply (ev_set _ _ _ _ why). congruence.
  - by eapply ev_failure.
  - eapply ev_health; [done.. |]. by rewrite <- Hc.
  - eapply ev_stalled; rewrite <- ?Hc; done.
  - eapply ev_timeout; rewrite <- ?Hc; done.
  - apply (ev_verdict _ _ _ _ dec); [congruence | done].
  - eapply ev_seeded; rewrite <- ?HP, <- ?Hr; done.
  - eapply ev_imported; rewrite <- ?HP, <- ?Hr; done.
Qed.

Lemma step_evidence s :
  live (cE s) = true ->
  wp (step v) (ends (against s (recordOf v (cE s)))) s.
Proof.
  intros Hl. unfold step. lc.
  eapply wp_mono; [apply wp_and;
    [eapply wp_keeps; [apply status_observe | by intros ? ? Hk; exact Hk]
    | eapply wp_keeps; [apply (keeps_observe v frame) | by intros ? ? Hk; exact Hk]] |].
  intros [] s1 [Hst [_ Hdec]].
  assert (against s1 (recordOf v (cE s)) -> against s (recordOf v (cE s))) as Hev.
  { apply evidence_status; try apply Hst. apply setFailure_now; [apply Hst | | done].
    apply imported_status, Hst. }
  pose proof (live_of _ _ Hst Hl) as Hl1.
  lc; try (by unfold live in Hl1; rewrite Heqd in Hl1).
  all: apply (wp_mono _ (ends (against s1 (recordOf v (cE s)))));
    [| intros b s2 Hs2 Hend; apply Hev; by apply Hs2].
  all: try by apply wp_d_live.
  all: apply wp_pending; intros why Hw; eapply (ev_set _ _ _ _ why);
    rewrite <- Hw; symmetry; unfold pending_cell, entries_now; by apply setFailure_insert.
Qed.
End LiveEvidence.

(** ** Properties *)

(** C32.  Data safety: a live entry is dropped, or moved to Removing, Failed or
    Blocklisted, by a step only on positive evidence against it (a doomed part
    set, a failure its engine reported, the health floor, a stall or a timeout
    measured on its record, importplan's verdict, a met seed goal or a finished
    import).  With none, whatever record is missing or late, it stays live. *)
Theorem live_leaves_on_evidence `{Unicode} `{Marshal} (v : View) s keep s' :
  live (cE s) = true -> step v s = (keep, s') ->
  keep = false \/ live (cE s') = false ->
  evidence v (entries_now s) (cE s) (recordOf v (cE s)).
Proof. intros Hl Hs He. exact (wp_run _ _ _ _ _ (step_evidence v s Hl) Hs He). Qed.

Lemma live_leaves_on_evidence_witness :
  let v := ex_with (ex_failed DownloadFailureStalled) in
  let s := ex_cell ex_entry in
  ePhase (cE (snd (step v s))) = DownloadPhaseBlocklisted /\
  evidence v (entries_now s) (cE s) (recordOf v (cE s)).
Proof.
  intros v s. split; [vm_compute; reflexivity |].
  apply (live_leaves_on_evidence v s (fst (step v s)) (snd (step v s))).
  - reflexivity.
  - apply surjective_pairing.
  - right. vm_compute. reflexivity.
Defined.
