(* ===== verification/LcMachine.v ===== *)
(** * The abstract phase machine of an entry

    [machine] is the specification of one pass over an entry: its phase and
    whether its import finished.  [step] refines it on every view, and the
    whole pass ([LcPass]) composes it with the owner's intents. *)

From S2P Require Import Prelude GoLang Sha Api Names LcView LcChoose LcIntents LcState LcStep LcFrame.
From S2P Require Import LcExample LcStepFacts.

(** ** Specification *)

(** Waiting for an engine, working, ended. *)
Definition waits (p : DownloadPhase) : bool :=
  match p with DownloadPhaseUnset | DownloadPhasePending => true | _ => false end.

Definition ended (p : DownloadPhase) : bool :=
  match p with
  | DownloadPhaseRemoving | DownloadPhaseFailed | DownloadPhaseBlocklisted => true
  | _ => false
  end.

Definition works (p : DownloadPhase) : bool := negb (waits p) && negb (ended p).

(** The phase, and whether the import finished. *)
Definition Abs : Type := DownloadPhase * bool.
Definition abs (e : DownloadEntry) : Abs := (ePhase e, imported e).

Inductive machine : Abs -> Abs -> Prop :=
  | m_wait p i : waits p = true \/ p = DownloadPhaseAssigned ->
      machine (p, i) (DownloadPhasePending, i)
  | m_assign p i : waits p = true \/ p = DownloadPhaseAssigned ->
      machine (p, i) (DownloadPhaseAssigned, i)
  | m_remove p i : ended p = false -> machine (p, i) (DownloadPhaseRemoving, i)
  | m_stay p i : waits p = false -> machine (p, i) (p, i)
  | m_pause p i : works p = true -> machine (p, i) (DownloadPhasePaused, i)
  | m_resume : machine (DownloadPhasePaused, false) (DownloadPhaseAssigned, false)
  | m_transfer p q : works p = true -> q = DownloadPhaseQueued \/ q = DownloadPhaseDownloading ->
      machine (p, false) (q, false)
  | m_complete p i : works p = true -> machine (p, false) (DownloadPhaseCompleted, i)
  | m_import p q i : works p = true -> q = DownloadPhaseSeeding \/ q = DownloadPhaseImported ->
      machine (p, i) (q, true)
  | m_end p q i j : works p = true -> q = DownloadPhaseFailed \/ q = DownloadPhaseBlocklisted ->
      (i = true -> j = true) -> machine (p, i) (q, j).

(** ** Its consequences *)

Lemma machine_ended p i q j : machine (p, i) (q, j) -> ended p = true -> q = p.
Proof.
  intros Hm He. inversion Hm; subst; try done; unfold works in *;
    destruct p; cbn in *; intuition congruence.
Qed.

Lemma machine_imported p i q j : machine (p, i) (q, j) -> i = true -> j = true.
Proof. inversion 1; subst; intros; try done; auto. Qed.

(** ** Reading it off a computation *)

Lemma abs_status e e' : status e' = status e -> abs e' = abs e.
Proof.
  intros Hs. unfold abs. rewrite (imported_status _ _ Hs).
  unfold status in Hs. by replace (ePhase e') with (ePhase e) by congruence.
Qed.

Section Machine.
Context `{Unicode} `{Marshal} (v : View) (p : DownloadPhase) (i : bool).

(** Every outcome is a transition from [(p, i)]. *)
Definition from (s' : Cell) : Prop := machine (p, i) (abs (cE s')).

Lemma from_status s s' : keeps_status s s' -> from s -> from s'.
Proof. intros [Hs _]. unfold from. by rewrite (abs_status _ _ Hs). Qed.

Lemma wp_from_keeps {A} (m : M Cell A) Q s :
  keeps keeps_status m -> (forall x s', from s' -> Q x s') -> from s -> wp m Q s.
Proof.
  intros Hm HQ Hf. eapply wp_status; [exact Hm |]. intros x s' Hs. by apply HQ, (from_status s).
Qed.

Lemma wp_from_removing why (Q : unit -> Cell -> Prop) s :
  ended p = false -> i = imported (cE s) ->
  (forall s', from s' -> Q tt s') -> wp (toRemoving v why) Q s.
Proof.
  intros Ha Hi HQ. apply wp_toRemoving. intros s' [Hs _]. apply HQ.
  unfold from. rewrite (abs_status _ _ Hs). rewrite Hi. by apply m_remove.
Qed.

Lemma wp_from_end reason msg (Q : unit -> Cell -> Prop) s :
  works p = true -> from s -> (forall s', from s' -> Q tt s') ->
  wp (toFailed v reason msg) Q s /\ wp (toBlocklisted v reason msg) Q s.
Proof.
  intros Ha Hf HQ. pose proof (machine_imported _ _ _ _ Hf) as Hi.
  split; [apply wp_toFailed | apply wp_toBlocklisted]; intros s' [Hs _]; apply HQ;
    unfold from; rewrite (abs_status _ _ Hs); (apply m_end; [done | cbn; auto | exact Hi]).
Qed.

Lemma wp_from_imported (Q : unit -> Cell -> Prop) s :
  works p = true -> (forall s', from s' -> Q tt s') -> wp (toImported v) Q s.
Proof.
  intros Ha HQ.
  apply wp_toImported. intros s' [Hs _]. apply HQ.
  unfold from. rewrite (abs_status _ _ Hs). unfold abs. rewrite imported_e_imported.
  apply m_import; [done |]. cbn. unfold afterImport. case_bool_decide; auto.
Qed.

(** Waiting: from Unset, Pending, or an Assigned entry whose client is gone. *)
Lemma wp_from_pending s :
  waits p = true \/ p = DownloadPhaseAssigned -> i = imported (cE s) ->
  wp (d_pending v) (fun _ => from) s.
Proof.
  intros Ha Hi.
  assert (ended p = false) as He by (destruct Ha as [Ha | ->]; [by destruct p | done]).
  unfold d_pending, waiting. lc.
  - apply wp_from_removing; [done | done |]. intros. by lc.
  - apply wp_from_keeps; [apply status_at | intros; by lc |].
    unfold from. rewrite Hi. by apply m_wait.
  - apply wp_issue. intros s1 Hs1. lc. apply wp_history. intros s2 Hs2.
    assert (from s2).
    { apply (from_status _ _ Hs2), (from_status _ _ Hs1).
      unfold from. rewrite Hi. by apply m_assign. }
    lc; done.
  - apply wp_from_keeps; [apply status_at | intros; by lc |].
    unfold from. rewrite Hi. by apply m_wait.
Qed.

(** Working entries. *)
Hypothesis Ha : works p = true.

(** Operations that keep the status, and the ends of a working entry. *)
Ltac mach :=
  repeat first
    [ lc_step
    | lazymatch goal with
      | |- wp (event _ _ _) _ _ => apply wp_from_keeps; [apply status_event | intros | assumption]
      | |- wp (history _ _ _) _ _ => apply wp_from_keeps; [apply status_history | intros | assumption]
      | |- wp (at_ _ _) _ _ => apply wp_from_keeps; [apply status_at | intros | assumption]
      | |- wp (owe _) _ _ => apply wp_from_keeps; [apply status_owe | intros | assumption]
      | |- wp (issue _) _ _ => apply wp_from_keeps; [apply status_issue | intros | assumption]
      | |- wp (settled _ _) _ _ => apply wp_from_keeps; [apply status_settled | intros | assumption]
      | |- wp (toBlocklisted _ _ _) _ _ => refine (proj2 (wp_from_end _ _ _ _ _ _ _)); [assumption | assumption | intros]
      | |- wp (toFailed _ _ _) _ _ => refine (proj1 (wp_from_end _ _ _ _ _ _ _)); [assumption | assumption | intros]
      | |- wp (toImported _) _ _ => apply wp_from_imported; [assumption | intros]
      | |- from _ => assumption
      end ].

Lemma wp_from_failed rec s : from s -> wp (d_failed v rec) (fun _ => from) s.
Proof. intros Hf. unfold d_failed. mach. Qed.

Lemma wp_from_stalled rec c (Q : bool -> Cell -> Prop) s :
  from s -> (forall b s', from s' -> Q b s') -> wp (d_stalled v rec c) Q s.
Proof.
  intros Hf HQ. unfold d_stalled, d_no_progress, d_timed_out. mach; auto.
Qed.

(** A write of other fields than the status. *)
Lemma from_write f s :
  (forall e, status (f e) = status e) -> from s -> from (s <| cE ::= f |>).
Proof.
  intros Hf Hs. unfold from in *. change (cE (s <| cE ::= f |>)) with (f (cE s)).
  by rewrite (abs_status _ _ (Hf (cE s))).
Qed.

(** importplan's summary may read imported before [toImported] stamps it; a
    Completed entry's import was not finished. *)
Lemma wp_from_importStep s :
  i = false -> ePhase (cE s) = DownloadPhaseCompleted -> from s -> wp (importStep v) (fun _ => from) s.
Proof.
  intros Hi Hp Hf. unfold importStep. mach.
  all: apply wp_from_keeps; [apply status_at | intros |
    unfold from, abs; cbn; rewrite Hp, Hi; by apply m_complete].
  all: mach.
Qed.

Lemma wp_from_setImport s :
  i = false -> ePhase (cE s) = DownloadPhaseCompleted -> from s ->
  wp (setImport v) (fun _ => from) s.
Proof. intros Hi Hp Hf. unfold setImport. mach; by apply wp_from_importStep. Qed.

(** The phase a healthy record gives keeps to the machine. *)
Lemma from_live_phase r e :
  p = ePhase e -> i = imported e -> machine (p, i) (live_phase v r e, i).
Proof.
  intros Hp Hi. unfold live_phase. rewrite <- Hi, <- Hp.
  destruct (trHealthPaused r); [by apply m_pause |].
  case_match; [by apply m_pause |].
  destruct i; [apply m_import; [done |]; unfold afterImport; case_bool_decide; auto |].
  assert (machine (p, false) (p, false)) as Hstay.
  { apply m_stay. unfold works in Ha. by bools. }
  case_match eqn:E; [apply m_transfer; auto |].
  unfold phaseOfStage in *. unfold works in Ha.
  destruct (trStage r); first [by apply m_transfer; auto | by apply m_complete | idtac].
  all: destruct p; try done; exact m_resume.
Qed.

Lemma wp_from_live_effects r c s :
  (ePhase (cE s) = DownloadPhaseCompleted -> i = false) ->
  imported (cE s) = i -> from s -> wp (live_effects v r c) (fun _ => from) s.
Proof.
  intros Hc Hi Hf. unfold live_effects. lc.
  all: try assumption.
  all: try (by apply wp_from_stalled).
  all: try (apply wp_from_removing; [unfold works in Ha; by bools | done | intros; by mach]).
  all: try (by apply wp_from_setImport; auto).
  all: try (by apply wp_from_importStep; auto).
  all: eapply wp_status; [apply status_history |]; intros ? s1 Hs1.
  all: assert (from s1) as Hf1 by (apply (from_status _ _ Hs1); exact Hf).
  all: assert (ePhase (cE s1) = DownloadPhaseCompleted) as Hp1
    by (destruct Hs1 as [Hs1 _]; apply abs_status in Hs1; unfold abs in Hs1; cbn in Hs1; congruence).
  all: mach; first [by apply wp_from_setImport; auto | by apply wp_from_importStep; auto].
Qed.

Lemma live_phase_completed r e : live_phase v r e = DownloadPhaseCompleted -> imported e = false.
Proof.
  unfold live_phase, afterImport. repeat case_match; done.
Qed.

Lemma wp_from_live_held r c s :
  p = ePhase (cE s) -> i = imported (cE s) -> from s ->
  wp (live_held v r c) (fun _ => from) s.
Proof.
  intros Hp Hi Hf. unfold live_held. mach; [by apply wp_from_failed | ..].
  all: apply (wp_mono _ (fun _ => from)); [| by intros b s1 Hf1; mach].
  all: apply wp_from_live_effects; [| done |].
  all: try (cbn; rewrite Hi; apply live_phase_completed).
  all: unfold from, abs; cbn -[live_phase imported].
  all: change (imported _) with (imported (cE s)); rewrite <- Hi; by apply from_live_phase.
Qed.

Lemma wp_from_live_not_held rec s :
  from s -> wp (live_not_held v rec) (fun _ => from) s.
Proof. intros Hf. unfold live_not_held. mach; by apply wp_from_failed. Qed.

Lemma wp_from_live rec s :
  p = ePhase (cE s) -> i = imported (cE s) -> from s -> wp (d_live v rec) (fun _ => from) s.
Proof.
  intros Hp Hi Hf. unfold d_live. lc.
  - apply wp_from_removing; [unfold works in Ha; by bools | done | intros; by lc].
  - apply wp_from_pending; [bools; right; congruence | exact Hi].
  - mach.
  - by apply wp_from_live_held.
  - by apply wp_from_live_not_held.
  - by apply wp_from_live_not_held.
Qed.
End Machine.

Section Ended.
Context `{Unicode} `{Marshal} (v : View).

(** Removing and the tombstones keep the phase and the import. *)
Definition keeps_abs (s s' : Cell) : Prop := abs (cE s') = abs (cE s).

#[local] Instance keeps_abs_pre : PreOrder keeps_abs.
Proof. unfold keeps_abs. split; [by intros s | intros s t u; congruence]. Qed.

Lemma keeps_abs_of {A} (m : M Cell A) : keeps keeps_status m -> keeps keeps_abs m.
Proof. intros Hm s. apply abs_status, Hm. Qed.

Lemma keeps_abs_onE f : (forall e, abs (f e) = abs e) -> keeps keeps_abs (onE f).
Proof. intros Hf [d e]. apply Hf. Qed.
Lemma keeps_abs_onD f : keeps keeps_abs (onD f).
Proof. by intros [d e]. Qed.
Lemma keeps_abs_getE : keeps keeps_abs getE.
Proof. by intros [d e]. Qed.
Lemma keeps_abs_getD : keeps keeps_abs getD.
Proof. by intros [d e]. Qed.
Hint Resolve keeps_abs_onD keeps_abs_getE keeps_abs_getD : keeps.
Hint Extern 1 (keeps keeps_abs (put _ _)) =>
  unfold put; apply keeps_abs_onE; intros; reflexivity : keeps.

Lemma abs_at t : keeps keeps_abs (at_ v t).
Proof. apply keeps_abs_of, status_at. Qed.
Lemma abs_event a b c : keeps keeps_abs (event a b c).
Proof. apply keeps_abs_of, status_event. Qed.
Lemma abs_history a b : keeps keeps_abs (history v a b).
Proof. apply keeps_abs_of, status_history. Qed.
Lemma abs_owe : keeps keeps_abs (owe v).
Proof. apply keeps_abs_of, status_owe. Qed.
Lemma abs_settled e : keeps keeps_abs (settled v e).
Proof. apply keeps_abs_of, status_settled. Qed.
Hint Resolve abs_at abs_event abs_history abs_owe abs_settled : keeps.

Lemma abs_transferGone rec : keeps keeps_abs (transferGone v rec).
Proof. unfold transferGone. keeps. Qed.
Lemma abs_finishRemoval : keeps keeps_abs (finishRemoval v).
Proof. unfold finishRemoval. keeps. Qed.
Lemma abs_confirmBlock b : keeps keeps_abs (confirmBlock v b).
Proof. unfold confirmBlock. keeps. Qed.
Lemma abs_redownload : keeps keeps_abs (redownload v).
Proof. unfold redownload. keeps. Qed.
Hint Resolve abs_transferGone abs_finishRemoval abs_confirmBlock abs_redownload : keeps.
Lemma abs_removing rec : keeps keeps_abs (removing v rec).
Proof. unfold removing. keeps. Qed.
Lemma abs_terminal rec : keeps keeps_abs (terminal v rec).
Proof. unfold terminal, terminal_drop. keeps. Qed.

Lemma machine_keeps s s' :
  ended (ePhase (cE s)) = true -> keeps_abs s s' -> machine (abs (cE s)) (abs (cE s')).
Proof.
  unfold keeps_abs. intros He ->. apply m_stay. by destruct (ePhase (cE s)).
Qed.

Lemma step_machine s : wp (step v) (fun _ s' => machine (abs (cE s)) (abs (cE s'))) s.
Proof.
  unfold step. lc. eapply wp_status; [apply status_observe |]. intros [] s1 Hs1.
  rewrite <- (abs_status _ _ (proj1 Hs1)).
  lc; unfold abs at 1.
  all: try (apply wp_from_pending; [left; by rewrite Heqd | done]).
  all: try (apply wp_from_live; [by rewrite Heqd | done | done |];
    unfold from, abs; rewrite Heqd; by apply m_stay).
  all: change (ePhase (cE s1), imported (cE s1)) with (abs (cE s1)).
  all: eapply wp_keeps; [first [apply abs_removing | apply abs_terminal] |];
    intros b s2 Hs2; apply (machine_keeps s1 s2); [by rewrite Heqd | exact Hs2].
Qed.
End Ended.

(** ** Properties *)

(** C25.  Refinement: whatever the view, the plan so far and the entry, one step
    moves the entry's phase and its finished-import flag along a transition of
    the abstract machine. *)
Theorem step_refines_machine `{Unicode} `{Marshal} (v : View) (s : Cell) :
  machine (abs (cE s)) (abs (cE (snd (step v s)))).
Proof.
  exact (wp_run (step v) (fun _ s' => machine (abs (cE s)) (abs (cE s'))) s _ _
    (step_machine v s) (surjective_pairing _)).
Qed.
