(* ===== verification/LcTerminal.v ===== *)
(** * Removal and the tombstones

    What has to be true before an entry leaves the owner's status: its transfer
    is gone, its bytes are removed when that was asked, and a Blocklisted or
    refused tombstone stood for its whole hold, so no answer computed before the
    block can grab the release again. *)

From S2P Require Import Prelude GoLang Sha Api Names LcView LcChoose LcIntents LcState LcStep LcFrame.
From S2P Require Import LcExample LcStepFacts.

(** ** The grounds of a drop *)

(** Positive evidence that no engine holds the transfer. *)
Inductive gone (v : View) (e : DownloadEntry) (rec : option TransferRecord) : Prop :=
  | gone_unassigned : eEngine e = "" -> gone v e rec
  | gone_removed r : rec = Some r -> trState r = TransferStateRemoved ->
      dpSeq (eDispatch e) <= trSeq r -> gone v e rec
  | gone_settled d : fst (fst (d_settled v e d)) = true ->
      heldAtBoot rec (default zero_Engine (engineOf v e)) = false ->
      InFlight (eDispatch e) = false -> gone v e rec
  | gone_engine why : engineGone v e = Some why ->
      Add (dpDispatchedAt (eDispatch e)) EngineTeardownTimeout <= vNow v -> gone v e rec.

Definition data_done (v : View) (e : DownloadEntry) : Prop :=
  eRemoveDataOnDelete e = true -> eOutputPath e <> "" -> map_true (vRemoved v) (eOutputPath e) = true.

(** The tombstone's hold is over. *)
Definition hold_over (v : View) (e : DownloadEntry) : Prop :=
  (ePhase e = DownloadPhaseBlocklisted -> forall b, eBlock e = Some b ->
     exists t, ebConfirmedAt b = Some t /\ Add t BlockQuarantine <= vNow v) /\
  (ePhase e = DownloadPhaseFailed -> eFailureReason e = DownloadFailureReleaseRefused ->
     Add (failed_at e) RefusedHold <= vNow v).

(** A redownload search stands owed. *)
Definition search_owed (v : View) (e : DownloadEntry) : bool :=
  negb (no_redownload e)
  && negb (IsZero (failed_at e) || (RedownloadWindow <=? Sub (vNow v) (failed_at e)))
  && match List.filter (owes_search v (failed_at e)) (covered_items v e) with [] => false | _ => true end.

(** [e] as the pass drops it. *)
Inductive dropped (v : View) (unblocked : bool) (e : DownloadEntry) (rec : option TransferRecord) : Prop :=
  | drop_seeding_lost r : rec = Some r -> failed_reason r = DownloadFailurePayloadUnavailable ->
      imported e = true -> dropped v unblocked e rec
  | drop_removed : ePhase e = DownloadPhaseRemoving -> gone v e rec -> data_done v e ->
      dropped v unblocked e rec
  | drop_unblocked : live e = false -> unblocked = true -> gone v e rec -> data_done v e ->
      dropped v unblocked e rec
  | drop_tombstone : live e = false -> gone v e rec -> data_done v e -> hold_over v e ->
      search_owed v e = false -> dropped v unblocked e rec.

Section Drop.
Context `{Unicode} `{Marshal} (v : View).

(** ** Computations that leave the entry alone *)

Definition same_entry (s s' : Cell) : Prop := cE s' = cE s.

#[local] Instance same_entry_pre : PreOrder same_entry.
Proof. unfold same_entry. split; [by intros s | intros s t u; congruence]. Qed.

Lemma same_entry_onD f : keeps same_entry (onD f).
Proof. by intros [d e]. Qed.
Lemma same_entry_getE : keeps same_entry getE.
Proof. by intros [d e]. Qed.
Hint Resolve same_entry_onD same_entry_getE : keeps.
Lemma same_entry_at t : keeps same_entry (at_ v t).
Proof. unfold at_. keeps. Qed.
Lemma same_entry_event a b c : keeps same_entry (event a b c).
Proof. unfold event. keeps. Qed.
Lemma same_entry_history a b : keeps same_entry (history v a b).
Proof. unfold history. keeps. Qed.
Hint Resolve same_entry_at same_entry_event same_entry_history : keeps.

Lemma wp_same {A} (m : M Cell A) Q s :
  keeps same_entry m -> (forall a s', cE s' = cE s -> Q a s') -> wp m Q s.
Proof. exact (wp_keeps same_entry m Q s). Qed.

Lemma wp_settled e (Q : bool * Time -> Cell -> Prop) s :
  (forall s', cE s' = cE s -> Q (fst (d_settled v e (cD s))) s') -> wp (settled v e) Q s.
Proof.
  intros HQ. apply wp_iff. unfold settled. specialize (HQ (s <| cD := snd (d_settled v e (cD s)) |>)).
  destruct (d_settled v e (cD s)) as [r d]. by apply HQ.
Qed.

Lemma wp_transferGone rec s :
  wp (transferGone v rec)
    (fun b s' => cE s' = cE s /\ (b = true -> gone v (cE s) rec)) s.
Proof.
  unfold transferGone. lc.
  - bools. split; [done |]. intros _. by apply gone_unassigned.
  - destruct rec as [r |]; [| done]. bools. split; [done |]. intros _. by eapply gone_removed.
  - apply wp_settled. intros s1 Hs1. lc; bools.
    + split; [done |]. intros _. by eapply gone_settled.
    + apply wp_same; [apply same_entry_at |]. intros ? s2 Hs2. lc. by split; [congruence |].
    + apply wp_same; [apply same_entry_event |]. intros ? s2 Hs2. lc.
      split; [congruence |]. intros _. eapply gone_engine; [done |].
      unfold Before, LcState.d_now in *. by bools.
    + by split.
Qed.

Lemma wp_finishRemoval s :
  wp (finishRemoval v) (fun b s' => cE s' = cE s /\ (b = false -> data_done v (cE s))) s.
Proof.
  unfold finishRemoval. lc.
  - apply wp_same; [apply same_entry_at |]. intros ? s2 Hs2. lc. by split.
  - apply wp_same; [apply same_entry_history |]. intros ? s2 Hs2. lc. split; [done |].
    intros _ Hr Hp. rewrite Hr in *. cbn in *.
    apply String.eqb_neq in Hp. rewrite Hp in *. cbn in *. by bools.
Qed.

Lemma wp_redownload s :
  wp (redownload v) (fun b s' => cE s' = cE s /\ b = search_owed v (cE s)) s.
Proof.
  unfold redownload, search_owed, LcState.d_now. by lc.
Qed.

(** [confirmBlock] answers that the block is confirmed, and writes when. *)
Lemma wp_confirmBlock b s :
  eBlock (cE s) = Some b ->
  wp (confirmBlock v b)
    (fun c s' => ePhase (cE s') = ePhase (cE s) /\
      (c = true -> exists b' t, eBlock (cE s') = Some b' /\ ebConfirmedAt b' = Some t)) s.
Proof.
  intros Hb. unfold confirmBlock. lc.
  - split; [done |]. intros _. eauto.
  - split; [done |]. intros _. cbn. eauto.
  - apply wp_same; [apply same_entry_at |]. intros ? s2 Hs2. lc. by rewrite Hs2.
Qed.

(** A computation's answer [false] is a drop. *)
Definition drops (u : bool) (rec : option TransferRecord) (b : bool) (s' : Cell) : Prop :=
  b = false -> dropped v u (cE s') rec.

Lemma wp_keep {A} u rec (m : M Cell A) s : wp (m;; ret true)%monad (drops u rec) s.
Proof. lc. apply wp_any. intros. by lc. Qed.

Lemma wp_removing_drops u rec s :
  ePhase (cE s) = DownloadPhaseRemoving -> wp (removing v rec) (drops u rec) s.
Proof.
  intros Hp. unfold removing. lc.
  eapply wp_mono; [apply wp_transferGone |]. intros b s1 [Hs1 Hg].
  destruct b; [| apply wp_keep].
  eapply wp_mono; [apply wp_finishRemoval |]. intros b s2 [Hs2 Hd] ->.
  rewrite Hs2, Hs1 in *. apply drop_removed; auto.
Qed.

Lemma hold_over_tombstone e :
  (ePhase e = DownloadPhaseBlocklisted -> forall b, eBlock e = Some b -> is_Some (ebConfirmedAt b)) ->
  (forall t, tombstone_until e = Some t -> t <= vNow v) -> hold_over v e.
Proof.
  unfold tombstone_until. intros Hc Ht. split.
  - intros Hp b Hb. destruct (Hc Hp b Hb) as [t Hbt]. exists t. split; [done |].
    apply Ht. by rewrite Hp, Hb; cbn; rewrite Hbt.
  - intros Hp Hr. apply Ht. by rewrite Hp, Hr, bool_decide_true.
Qed.

Lemma wp_terminal_drop u rec confirmed keep s :
  live (cE s) = false -> gone v (cE s) rec -> keep = search_owed v (cE s) ->
  (confirmed = true -> ePhase (cE s) = DownloadPhaseBlocklisted ->
     forall b, eBlock (cE s) = Some b -> is_Some (ebConfirmedAt b)) ->
  wp (terminal_drop v confirmed keep) (drops u rec) s.
Proof.
  intros Hl Hg Hk Hc. unfold terminal_drop. lc; bools; [done | | |].
  - apply wp_same; [apply same_entry_at |]. intros ? s2 Hs2. by lc.
  - eapply wp_mono; [apply wp_finishRemoval |]. intros b s2 [Hs2 Hd] ->. rewrite Hs2.
    apply drop_tombstone; auto; [| congruence]. apply hold_over_tombstone; [auto |].
    intros ? [= <-]%(transitivity (eq_sym Heqo)). unfold Before, LcState.d_now in *. by bools.
  - eapply wp_mono; [apply wp_finishRemoval |]. intros b s2 [Hs2 Hd] ->. rewrite Hs2.
    apply drop_tombstone; auto; [| congruence]. apply hold_over_tombstone; [auto |].
    by rewrite Heqo.
Qed.

Definition unblocked_now (s : Cell) : bool :=
  match dUnblocked (cD s) with Some f => f (cE s) | None => false end.

Lemma wp_terminal_drops rec s :
  ePhase (cE s) = DownloadPhaseFailed \/ ePhase (cE s) = DownloadPhaseBlocklisted ->
  wp (terminal v rec) (drops (unblocked_now s) rec) s.
Proof.
  intros Hp. unfold terminal, unblocked_now.
  assert (forall s1, ePhase (cE s1) = ePhase (cE s) -> live (cE s1) = false) as Hlive.
  { intros s1 Hs1. unfold live. rewrite Hs1. by destruct Hp as [-> | ->]. }
  apply wp_bind, wp_gets, wp_bind, wp_gets.
  set (u := match dUnblocked (cD s) with Some f => f (cE s) | None => false end).
  destruct u eqn:Eu.
  - lc. eapply wp_mono; [apply wp_transferGone |]. intros b s1 [Hs1 Hg].
    destruct b; [| apply wp_keep].
    eapply wp_mono; [apply wp_finishRemoval |]. intros b s2 [Hs2 Hd] ->.
    apply drop_unblocked; rewrite ?Hs2, ?Hs1 in *; auto.
  - apply wp_bind.
    apply (wp_mono _ (fun c s1 => ePhase (cE s1) = ePhase (cE s) /\
      (c = true -> ePhase (cE s1) = DownloadPhaseBlocklisted ->
         forall b, eBlock (cE s1) = Some b -> is_Some (ebConfirmedAt b)))).
    + lc; try (split; [congruence |]; intros; congruence).
      eapply wp_mono; [by apply wp_confirmBlock |]. intros c s1 [Hs1 Hc].
      split; [congruence |]. intros Hct _ b Hb. destruct (Hc Hct) as (b' & t & Hb' & Ht).
      assert (b = b') as -> by congruence. by exists t.
    + intros c s1 [Hs1 Hc]. apply wp_bind.
      eapply wp_mono; [apply wp_redownload |]. intros k s2 [Hs2 Hk]. apply wp_bind.
      eapply wp_mono; [apply wp_transferGone |]. intros g s3 [Hs3 Hg].
      destruct g; [| apply wp_keep]. rewrite <- Hs2 in Hk, Hc, Hs1. rewrite <- Hs3 in *.
      apply wp_terminal_drop; auto.
Qed.

Lemma wp_lost r s :
  wp (d_failed v r) (fun b s' => b = false ->
    failed_reason r = DownloadFailurePayloadUnavailable /\ imported (cE s') = true) s.
Proof.
  unfold d_failed.
  repeat first
    [ lc_step
    | lazymatch goal with
      | |- wp (event _ _ _) _ _ => apply wp_same; [apply same_entry_event | intros ? ? ?]
      | |- wp (history _ _ _) _ _ => apply wp_same; [apply same_entry_history | intros ? ? ?]
      end ].
  all: try (apply wp_any; intros; by lc).
  all: intros _; bools; split; [done | congruence].
Qed.

(** A computation whose last word is [ret true]. *)
Lemma wp_pending_true s : wp (d_pending v) (fun b _ => b = true) s.
Proof. unfold d_pending. repeat first [lc_step | apply wp_any; intros]; done. Qed.

Lemma wp_live_drops u rec s : wp (d_live v rec) (drops u rec) s.
Proof.
  assert (forall r s1, rec = Some r -> wp (d_failed v r) (drops u rec) s1) as Hf.
  { intros r s1 Hr. eapply wp_mono; [apply wp_lost |]. intros b s2 Hd Hb.
    destruct (Hd Hb). by eapply drop_seeding_lost. }
  unfold d_live, live_held, live_not_held. lc.
  all: try (by apply Hf).
  all: try (eapply wp_mono; [apply wp_pending_true |]; by intros b s1 ->).
  all: repeat first [lc_step | by apply Hf | apply wp_any; intros].
  all: by intros ?.
Qed.
End Drop.

(** ** Properties *)

(** C33.  No entry leaves the status early: a step drops an entry only when its
    seeding was lost for good, or, for one in Removing, Failed or Blocklisted,
    on positive evidence that its transfer is gone, with its payload removed
    when that was asked; a tombstone no person unblocked is dropped only an
    hour after its block was confirmed (a day after a refusal), with no
    redownload search owed. *)
Theorem drop_is_justified `{Unicode} `{Marshal} (v : View) s s' :
  step v s = (false, s') ->
  let rec := recordOf v (cE s) in
  dropped v (unblocked_now (snd (observe v rec s))) (cE s') rec.
Proof.
  intros Hs rec. refine (wp_run (step v) (drops v _ rec) s _ _ _ Hs eq_refl).
  unfold step. apply wp_bind, wp_gets, wp_bind, wp_iff. fold rec.
  set (s1 := snd (observe v rec s)). lc.
  all: try (eapply wp_mono; [apply wp_pending_true |]; by intros b s2 ->).
  all: first [apply wp_live_drops | by apply wp_removing_drops
             | apply wp_terminal_drops; by auto].
Qed.

(** A tombstone whose block was confirmed an hour and a minute ago. *)
Definition ex_tombstone : DownloadEntry :=
  ex_entry <| ePhase := DownloadPhaseBlocklisted |> <| eEngine := "" |> <| eClient := "" |>
    <| eFailureReason := DownloadFailureImportRejected |> <| eFailedAt := Some (ex_min (-61)) |>
    <| eBlock := Some (mkEntryBlock BlockScopeItem DownloadFailureImportRejected 7
                         (Some (ex_min (-61)))) |>.

Definition ex_searched : View :=
  ex_view <| vTransfers := ∅ |> <| vSearched := {[ ex_owner := ex_min (-50) ]} |>.

Lemma drop_is_justified_witness :
  let s := ex_cell ex_tombstone in
  let e := cE (snd (step ex_searched s)) in
  fst (step ex_searched s) = false /\
  dropped ex_searched (unblocked_now (snd (observe ex_searched None s))) e None.
Proof.
  split; [vm_compute; reflexivity |].
  apply (drop_is_justified ex_searched (ex_cell ex_tombstone)).
  apply run_answer. vm_compute. reflexivity.
Defined.
