(* ===== verification/LcCommands.v ===== *)
(** * The engine commands of a step

    A transfer has one desired state and one sequence number.  A step sends at
    most one command for its entry; the command renders the desired state the
    step leaves the entry in, at the entry's dispatch seq, and the book records
    it.  Sequence numbers only grow while they stay below [MaxInt64]. *)

From S2P Require Import Prelude GoLang Sha Api Names LcView LcChoose LcIntents LcState LcStep LcFrame.
From S2P Require Import LcExample LcStepFacts LcMachine LcTerminal.

(** ** Sequence numbers *)

Lemma UnixMilli_range t : is_int64 (UnixMilli t).
Proof. apply wrap64_range. Qed.

Lemma nextSeq_above r s now :
  is_int64 r -> is_int64 s -> r < MaxInt64 -> s < MaxInt64 ->
  r < nextSeq r s now /\ s < nextSeq r s now /\ UnixMilli now <= nextSeq r s now /\
  is_int64 (nextSeq r s now).
Proof.
  intros Hr Hs Hr' Hs'. pose proof (UnixMilli_range now). unfold nextSeq.
  unfold is_int64, MaxInt64, MinInt64, two_p63 in *.
  rewrite !wrap64_id by (unfold is_int64, MaxInt64, MinInt64, two_p63; lia). lia.
Qed.

(** ** Observing a record *)

Definition cell_seq (s : Cell) : Z := dpSeq (eDispatch (cE s)).

(** A sequence number the counter can still be raised from. *)
Definition seq_room (z : Z) : Prop := is_int64 z /\ z < MaxInt64.

Lemma observe_dispatch_seq r p : dpSeq (observe_dispatch r p) = Z.max (dpSeq p) (trSeq r).
Proof.
  unfold observe_dispatch. destruct (dpSeq p <? trSeq r) eqn:E; bools;
    repeat case_match; cbn; lia.
Qed.

Section Commands.
Context `{Unicode} `{Marshal} (v : View).

(** The cell the step started in. *)
Variable s0 : Cell.

Definition commands (s : Cell) : list Command := pCommands (dPlan (cD s)).

(** Nothing was sent yet. *)
Definition quiet (s : Cell) : Prop :=
  commands s = commands s0 /\ eUID (cE s) = eUID (cE s0) /\ cell_seq s0 <= cell_seq s /\ seq_room (cell_seq s).

(** The book holds the entry's dispatch seq. *)
Definition booked (s : Cell) : Prop :=
  exists b, pIssued (dPlan (cD s)) !! eUID (cE s) = Some b /\ icSeq b = cell_seq s.

(** [c] is the desired state of the cell's entry. *)
Definition renders (s : Cell) (c : Command) : Prop :=
  ecSeq (cCmd c) = cell_seq s /\ cEngine c = eEngine (cE s) /\ eEngine (cE s) <> "" /\
  ecEntry (cCmd c) = mkEntryRef (eID (cE s)) (eUID (cE s)) /\
  ecDesired (cCmd c) = (if live (cE s) then EngineDesiredPresent else EngineDesiredAbsent) /\
  ecRemoveData (cCmd c) = negb (live (cE s)) && eRemoveDataOnDelete (cE s) /\
  ecImported (cCmd c) = imported (cE s) /\ booked s /\ cell_seq s0 <= cell_seq s.

Definition sent (s : Cell) : Prop :=
  exists c, commands s = commands s0 ++ [c] /\ renders s c.

Definition sends (s : Cell) : Prop := quiet s \/ sent s.

(** ** Computations that send nothing and leave the entry alone *)

Definition still (s s' : Cell) : Prop :=
  cE s' = cE s /\ commands s' = commands s /\ pIssued (dPlan (cD s')) = pIssued (dPlan (cD s)).

#[local] Instance still_pre : PreOrder still.
Proof.
  unfold still. split; [by intros s |]. intros s t u ? ?. destruct_and!.
  repeat split; congruence.
Qed.

Lemma still_quiet s s' : still s s' -> quiet s -> quiet s'.
Proof. unfold still, quiet, cell_seq. intros (-> & -> & _). auto. Qed.

Lemma still_sent s s' : still s s' -> sent s -> sent s'.
Proof.
  unfold still, sent, renders, booked, cell_seq. intros (-> & -> & ->). auto.
Qed.

Lemma still_booked s s' : still s s' -> booked s -> booked s'.
Proof. unfold still, booked, cell_seq. intros (-> & _ & ->). auto. Qed.

Lemma still_at t : keeps still (at_ v t).
Proof.
  intros [d e]. unfold still, commands. cbn -[d_at].
  destruct (d_at_run v t d) as [-> | (t' & -> & _)]; by repeat split.
Qed.
Lemma still_event a b c : keeps still (event a b c).
Proof. intros [d e]. by repeat split. Qed.
Lemma still_history a b : keeps still (history v a b).
Proof. intros [d e]. by repeat split. Qed.
Lemma still_settled e : keeps still (settled v e).
Proof.
  intros s. destruct (settled_run v e s) as [-> | [t ->]]; [reflexivity |].
  apply (still_at t).
Qed.

Lemma wp_still {A} (m : M Cell A) Q s :
  keeps still m -> (forall a s', still s s' -> Q a s') -> wp m Q s.
Proof. exact (wp_keeps still m Q s). Qed.

Lemma wp_quiet {A} (m : M Cell A) Q s :
  keeps still m -> quiet s -> (forall a s', quiet s' -> Q a s') -> wp m Q s.
Proof.
  intros Hm Hq HQ. apply wp_still; [done |]. intros a s' Hs. by apply HQ, (still_quiet s).
Qed.

Lemma wp_sent {A} (m : M Cell A) Q s :
  keeps still m -> sent s -> (forall a s', sent s' -> Q a s') -> wp m Q s.
Proof.
  intros Hm Hq HQ. apply wp_still; [done |]. intros a s' Hs. by apply HQ, (still_sent s).
Qed.

(** A write of the entry that keeps its UID and dispatch seq. *)
Lemma quiet_write f s :
  (forall e, eUID (f e) = eUID e /\ dpSeq (eDispatch (f e)) = dpSeq (eDispatch e)) ->
  quiet s -> quiet (s <| cE ::= f |>).
Proof.
  intros Hf. destruct (Hf (cE s)) as [H1 H2]. destruct s as [d e].
  unfold quiet, commands, cell_seq in *. cbn in *. by rewrite H1, H2.
Qed.

(** ** Sending *)

Lemma recordOf_seq rec :
  (forall t, vTransfers v !! eUID (cE s0) = Some t -> seq_room (trSeq (tRecord t))) ->
  forall s, quiet s -> recordOf v (cE s) = rec ->
  seq_room (match rec with Some r => trSeq r | None => 0 end).
Proof.
  unfold recordOf. intros Hr s (_ & -> & _) <-.
  destruct (vTransfers v !! eUID (cE s0)) as [t |] eqn:E; cbn; [by apply Hr |].
  unfold seq_room, is_int64, MaxInt64, MinInt64, two_p63. lia.
Qed.

(** The dispatch seq every step starts from. *)
Hypothesis Hroom : forall t, vTransfers v !! eUID (cE s0) = Some t -> seq_room (trSeq (tRecord t)).

Lemma emit_run rec retry s :
  let c := command_of v (cD s) (cE s) rec retry in
  snd (emit v rec retry s) =
  mkCell (d_at v (Add (vNow v) RepublishEvery)
    ((addP pCommands [c] (cD s)) <| dPlan ::= fun p => p <| pIssued ::=
       <[eUID (cE s) := mkIssuedCommand (ecSeq (cCmd c)) (hashOf (cCmd c)) (vNow v)]> |> |>)) (cE s).
Proof. by destruct s. Qed.

Lemma command_of_renders d e rec retry s :
  cE s = e -> eEngine e <> "" -> booked s -> cell_seq s0 <= cell_seq s ->
  renders s (command_of v d e rec retry).
Proof.
  intros <- Hn Hb Hs. unfold renders, command_of. destruct (splitEngine _) as [[c o] ok].
  cbn -[live]. do 5 (split; [done |]). split; [by destruct (live _) | done].
Qed.

Lemma wp_emit rec retry (Q : unit -> Cell -> Prop) s :
  commands s = commands s0 -> eEngine (cE s) <> "" -> cell_seq s0 <= cell_seq s ->
  (forall s', cE s' = cE s -> sent s' -> booked s' -> Q tt s') -> wp (emit v rec retry) Q s.
Proof.
  intros Hc Hn Hs HQ. apply wp_iff. rewrite emit_run.
  set (c := command_of v (cD s) (cE s) rec retry).
  assert (ecSeq (cCmd c) = cell_seq s) as Hseq.
  { unfold c, command_of. by destruct (splitEngine _) as [[? ?] ?]. }
  set (d1 := (addP pCommands [c] (cD s)) <| dPlan ::= _ |>).
  assert (still (mkCell d1 (cE s)) (mkCell (d_at v (Add (vNow v) RepublishEvery) d1) (cE s))) as Hst
    by exact (still_at _ (mkCell d1 (cE s))).
  assert (booked (mkCell d1 (cE s))) as Hb.
  { unfold booked, d1. cbn. eexists. split; [apply lookup_insert_eq | exact Hseq]. }
  assert (sent (mkCell d1 (cE s))) as Hsent.
  { exists c. split; [unfold commands in *; cbn; by rewrite Hc |].
    by apply command_of_renders. }
  apply HQ; [done | by eapply still_sent | by eapply still_booked].
Qed.

(** [issue]: a command at a fresh seq, or only the time without an engine. *)
Lemma wp_issue_sends (Q : unit -> Cell -> Prop) s :
  quiet s ->
  (forall s', sends s' -> (eEngine (cE s) <> "" -> sent s' /\ booked s') -> Q tt s') ->
  wp (issue v) Q s.
Proof.
  intros Hq HQ. unfold issue. lc; bools.
  - apply HQ; [| done]. left. by apply quiet_write.
  - pose proof Hq as (Hc & _ & Hle & Hs).
    pose proof (recordOf_seq _ Hroom s Hq eq_refl) as Hr.
    destruct (nextSeq_above _ (cell_seq s) (vNow v) (proj1 Hr) (proj1 Hs) (proj2 Hr) (proj2 Hs))
      as (_ & Hn & _).
    apply wp_emit; [done | done | unfold cell_seq in *; cbn; unfold LcState.d_now; lia |].
    intros s' _ Hsent Hb. apply HQ; [by right | by split].
Qed.

(** The last command marked a retry. *)
Lemma retry_last_snoc l c : retry_last (l ++ [c]) = l ++ [c <| cRetry := true |>].
Proof.
  induction l as [| x l IH]; [done |]. cbn [app retry_last]. rewrite IH. by destruct l.
Qed.

Lemma mark_sent s : sent s -> sent (s <| cD ::= mark_last_retry |>).
Proof.
  intros (c & Hc & Hr). exists (c <| cRetry := true |>). split.
  - unfold commands, mark_last_retry in *. cbn. by rewrite Hc, retry_last_snoc.
  - exact Hr.
Qed.

(** The book of an owed command carried over. *)
Definition keep_book (b : IssuedCommand) (s : Cell) : Cell :=
  s <| cD ::= fun d => d <| dPlan ::= fun p => p <| pIssued ::= <[eUID (cE s) := b]> |> |> |>.

Lemma keep_quiet b s : quiet s -> quiet (keep_book b s).
Proof. done. Qed.

Lemma keep_booked b s : icSeq b = cell_seq s -> booked (keep_book b s).
Proof.
  intros Hb. exists b. split; [| exact Hb]. unfold keep_book. cbn. apply lookup_insert_eq.
Qed.

(** [owe]: an entry with an engine and not booked yet has its command sent or
    its book kept; a finished removal owes nothing. *)
Lemma wp_owe_sends (Q : unit -> Cell -> Prop) s :
  quiet s ->
  (forall s', sends s' -> (eEngine (cE s) <> "" -> live (cE s) = true -> booked s') -> Q tt s') ->
  wp (owe v) Q s.
Proof.
  intros Hq HQ. pose proof Hq as (Hc & _ & Hle & _).
  assert (wp (issue v) Q s) as Hissue.
  { apply wp_issue_sends; [done |]. intros s' Hs Hb. apply HQ; [done |].
    intros Hn _. by apply Hb. }
  assert (quiet s -> (live (cE s) = true -> booked s) -> Q tt s) as Hquiet.
  { intros Hqs Hb. apply HQ; [by left | auto]. }
  unfold owe. lc; bools; try done.
  - apply HQ; [by left | done].
  - apply Hquiet; [done |]. intros _. case_match; [| done]. bools. by eexists.
  - apply Hquiet; [done | congruence].
  - apply HQ; [by left; apply keep_quiet | intros _ _; by apply keep_booked].
  - apply HQ; [left; eapply still_quiet; [apply (still_at _ (keep_book i s)) |]; by apply keep_quiet
              | intros _ _; eapply still_booked; [apply (still_at _ (keep_book i s)) |];
                by apply keep_booked].
  - apply wp_emit; [done | done | done |]. intros s' _ Hs Hb. apply HQ; [by right | auto].
  - apply wp_issue_sends; [done |]. intros s' _ Hb.
    destruct (Hb Heqb) as [Hs1 Hb1]. lc. apply HQ; [right; by apply mark_sent | auto].
  - apply Hquiet; [done | congruence].
Qed.

(** ** What a step leaves: one command, or a quiet cell whose entry, when it
    works on an engine and stays, is booked *)

Definition final (b : bool) (s : Cell) : Prop :=
  sent s \/
  quiet s /\ (b = true -> ended (ePhase (cE s0)) = false -> works (ePhase (cE s)) = true ->
              eEngine (cE s) <> "" -> booked s).

Definition ends_or_quiet (b : bool) (s : Cell) : Prop := if b then final true s else quiet s.

Lemma final_still b s s' : still s s' -> final b s -> final b s'.
Proof.
  intros Hs [Hf | [Hq Hb]]; [left; by apply (still_sent s) |].
  right. split; [by apply (still_quiet s) |]. pose proof Hs as (He & _ & _).
  rewrite He. intros. apply (still_booked s); auto.
Qed.

Lemma wp_final {A} (m : M Cell A) b Q s :
  keeps still m -> final b s -> (forall a s', final b s' -> Q a s') -> wp m Q s.
Proof.
  intros Hm Hq HQ. apply wp_still; [done |]. intros a s' Hs. by apply HQ, (final_still b s).
Qed.

Lemma final_idle b s :
  quiet s -> works (ePhase (cE s)) = false \/ ended (ePhase (cE s0)) = true -> final b s.
Proof. intros Hq Hw. right. split; [done |]. intros. destruct Hw; congruence. Qed.

Lemma wp_issue_final b (Q : unit -> Cell -> Prop) s :
  quiet s -> (forall s', final b s' -> Q tt s') -> wp (issue v) Q s.
Proof.
  intros Hq HQ. destruct (String.eqb (eEngine (cE s)) "") eqn:E.
  - unfold issue. apply wp_bind, wp_gets. rewrite E. apply wp_modify, HQ. bools.
    right. split; [by apply quiet_write | done].
  - bools. apply wp_issue_sends; [done |]. intros s' _ Hb. apply HQ. left. by apply Hb.
Qed.

Lemma wp_owe_final b (Q : unit -> Cell -> Prop) s :
  quiet s -> (forall s', final b s' -> Q tt s') -> wp (owe v) Q s.
Proof.
  intros Hq HQ.
  apply (wp_mono _ (fun _ s' =>
    (sends s' /\ (eEngine (cE s) <> "" -> live (cE s) = true -> booked s')) /\
    (status (cE s') = status (cE s) /\ True))).
  - apply wp_and; [apply wp_owe_sends; [done |]; auto |].
    eapply wp_status; [apply status_owe |]. intros ? s' [Hs _]. by split.
  - intros [] s' [[[Hs | Hs] Hb] [Hst _]]; apply HQ; [| by left].
    right. split; [done |]. unfold status in Hst. intros _ _ Hw Hn.
    apply Hb; [congruence |]. unfold live. replace (ePhase (cE s)) with (ePhase (cE s')) by congruence.
    unfold works in Hw. by destruct (ePhase (cE s')).
Qed.

(** Walks a computation: quiet until it sends, final afterwards. *)
Ltac send_step :=
  first
    [ lc_step
    | match goal with a : unit |- _ => destruct a end
    | lazymatch goal with
      | |- wp (issue _) _ _ => apply (wp_issue_final true); [| intros]
      | |- wp (owe _) _ _ => apply (wp_owe_final true); [| intros]
      | Hf : final _ ?s |- wp (history _ _ _) _ ?s => apply (wp_final _ _ _ _ (still_history _ _) Hf); intros
      | |- wp (event _ _ _) _ _ => apply wp_quiet; [apply still_event | | intros]
      | |- wp (at_ _ _) _ _ => apply wp_quiet; [apply still_at | | intros]
      | |- wp (history _ _ _) _ _ => apply wp_quiet; [apply still_history | | intros]
      | |- wp (settled _ _) _ _ => apply wp_quiet; [apply still_settled | | intros]
      | |- quiet _ => first [assumption | by repeat apply quiet_write]
      | |- final _ _ => first [assumption | by left; assumption]
      end ].
Ltac send := repeat send_step.

Lemma wp_removing_final why (Q : unit -> Cell -> Prop) s :
  quiet s -> (forall s', final true s' -> Q tt s') -> wp (toRemoving v why) Q s.
Proof.
  intros Hq HQ. unfold toRemoving. send; [| auto].
  bools. apply HQ, final_idle; [done |]. left. by rewrite Heqb.
Qed.

Lemma wp_failed_final reason msg (Q : unit -> Cell -> Prop) s :
  quiet s -> (forall s', final true s' -> Q tt s') -> wp (toFailed v reason msg) Q s.
Proof. intros Hq HQ. unfold toFailed, failedNow. send; auto. Qed.

Lemma wp_blocklisted_final reason msg (Q : unit -> Cell -> Prop) s :
  quiet s -> (forall s', final true s' -> Q tt s') -> wp (toBlocklisted v reason msg) Q s.
Proof. intros Hq HQ. unfold toBlocklisted, failedNow. send; auto. Qed.

Lemma wp_imported_final (Q : unit -> Cell -> Prop) s :
  quiet s -> (forall s', final true s' -> Q tt s') -> wp (toImported v) Q s.
Proof. intros Hq HQ. unfold toImported. send; auto. Qed.

Ltac cmds_step :=
  first
    [ send_step
    | lazymatch goal with
      | |- wp (toRemoving _ _) _ _ => apply wp_removing_final; [| intros]
      | |- wp (toFailed _ _ _) _ _ => apply wp_failed_final; [| intros]
      | |- wp (toBlocklisted _ _ _) _ _ => apply wp_blocklisted_final; [| intros]
      | |- wp (toImported _) _ _ => apply wp_imported_final; [| intros]
      end ].
Ltac cmds := repeat cmds_step.

Lemma wp_pending_final s : quiet s -> wp (d_pending v) final s.
Proof.
  intros Hq. unfold d_pending, waiting.
  repeat first
    [ lazymatch goal with
      | |- wp (at_ _ _) _ _ => apply (wp_final _ true);
          [apply still_at | apply final_idle; [by repeat apply quiet_write | by left] | intros]
      end
    | cmds_step ].
  all: try (by eapply final_still; [| eassumption]).
Qed.

Lemma wp_failed_report_final rec s : quiet s -> wp (d_failed v rec) final s.
Proof.
  intros Hq. unfold d_failed. cmds.
  all: by right.
Qed.

Lemma wp_stalled_final rec c s : quiet s -> wp (d_stalled v rec c) ends_or_quiet s.
Proof. intros Hq. unfold d_stalled, d_no_progress, d_timed_out. cmds; by cbn. Qed.

Lemma wp_importStep_final s : quiet s -> wp (importStep v) ends_or_quiet s.
Proof. intros Hq. unfold importStep. cmds; by cbn. Qed.

Lemma wp_setImport_final s : quiet s -> wp (setImport v) ends_or_quiet s.
Proof.
  intros Hq. unfold setImport. cmds.
  all: first [by cbn | apply wp_importStep_final; cmds].
Qed.

Lemma wp_live_effects_final rec c s : quiet s -> wp (live_effects v rec c) ends_or_quiet s.
Proof.
  intros Hq. unfold live_effects. cmds.
  all: first [by cbn | apply wp_importStep_final; by cmds | apply wp_setImport_final; by cmds
             | by apply wp_stalled_final].
Qed.

Lemma wp_live_held_final rec c s : quiet s -> wp (live_held v rec c) final s.
Proof.
  intros Hq. unfold live_held. cmds; try (by apply wp_failed_report_final).
  all: eapply wp_mono; [apply wp_live_effects_final; by cmds | intros [] s1 Hs1; by cmds].
Qed.

Lemma wp_live_not_held_final rec s : quiet s -> wp (live_not_held v rec) final s.
Proof. intros Hq. unfold live_not_held. cmds; by apply wp_failed_report_final. Qed.

Lemma wp_live_final rec s : quiet s -> wp (d_live v rec) final s.
Proof.
  intros Hq. unfold d_live. cmds.
  all: first [apply wp_pending_final; by cmds | by apply wp_live_held_final
             | by apply wp_live_not_held_final].
Qed.

(** Removing and the tombstones. *)
Lemma quiet_transferGone rec (Q : bool -> Cell -> Prop) s :
  quiet s -> (forall b s', quiet s' -> Q b s') -> wp (transferGone v rec) Q s.
Proof. intros Hq HQ. unfold transferGone. cmds; auto. Qed.

Lemma quiet_finishRemoval s : quiet s -> wp (finishRemoval v) (fun _ => quiet) s.
Proof. intros Hq. unfold finishRemoval. cmds. Qed.

Hypothesis Hended : ended (ePhase (cE s0)) = true.

Lemma final_ended b s : quiet s -> final b s.
Proof. intros Hq. apply final_idle; auto. Qed.

Lemma wp_finish_final s : quiet s -> wp (finishRemoval v) final s.
Proof.
  intros Hq. eapply wp_mono; [by apply quiet_finishRemoval |]. intros b s'. apply final_ended.
Qed.

Lemma wp_removing_step_final rec s : quiet s -> wp (removing v rec) final s.
Proof.
  intros Hq. unfold removing. lc. apply quiet_transferGone; [done |]. intros [] s1 Hs1.
  - by apply wp_finish_final.
  - by cmds.
Qed.

Lemma wp_terminal_final rec s : quiet s -> wp (terminal v rec) final s.
Proof.
  intros Hq. unfold terminal, terminal_drop, confirmBlock, redownload.
  repeat first
    [ cmds_step
    | lazymatch goal with
      | |- wp (transferGone _ _) _ _ => apply quiet_transferGone; [| intros]
      | |- wp (finishRemoval _) _ _ => apply wp_finish_final
      | |- final _ _ => apply final_ended
      end ].
Qed.
End Commands.

Section StepCommands.
Context `{Unicode} `{Marshal} (v : View) (s0 : Cell).

(** The entry's dispatch seq and its record's have room above them. *)
Definition room : Prop :=
  seq_room (cell_seq s0) /\
  forall t, vTransfers v !! eUID (cE s0) = Some t -> seq_room (trSeq (tRecord t)).

Hypothesis Hroom : room.

Lemma quiet_refl : quiet s0 s0.
Proof. unfold quiet. split; [done |]. split; [done |]. split; [lia | apply Hroom]. Qed.

Lemma wp_observe_quiet (Q : unit -> Cell -> Prop) :
  (forall s', quiet s0 s' -> Q tt s') -> wp (observe v (recordOf v (cE s0))) Q s0.
Proof.
  intros HQ. destruct (recordOf v (cE s0)) as [r |] eqn:Er; [| apply wp_ret, HQ, quiet_refl].
  assert (seq_room (trSeq r)) as Hr.
  { unfold recordOf in Er. destruct (vTransfers v !! eUID (cE s0)) as [t |] eqn:Et; [| done].
    simplify_eq/=. by apply (proj2 Hroom). }
  cbn [observe]. apply wp_bind, wp_modify.
  set (s1 := s0 <| cE ::= _ |>).
  assert (quiet s0 s1) as Hq.
  { pose proof (proj1 Hroom) as Hr0. unfold quiet, cell_seq in *. cbn.
    rewrite observe_dispatch_seq. unfold seq_room, is_int64 in *.
    repeat split; lia. }
  clearbody s1.
  repeat first
    [ lc_step
    | match goal with a : unit |- _ => destruct a end
    | lazymatch goal with
      | |- Q _ _ => apply HQ
      | |- quiet _ _ => first [assumption | by repeat apply quiet_write]
      end ].
Qed.

Lemma wp_step_final : wp (step v) (final s0) s0.
Proof.
  unfold step. apply wp_bind, wp_gets, wp_bind.
  eapply wp_mono; [apply wp_and; [by apply (wp_observe_quiet (fun _ => quiet s0)) |
    eapply wp_keeps; [apply status_observe | by intros ? ? Hk; exact Hk]] |].
  intros [] s1 [Hq [Hst _]].
  assert (ePhase (cE s1) = ePhase (cE s0)) as Hp by (unfold status in Hst; congruence).
  lc.
  all: first
    [ apply wp_pending_final; [apply Hroom | exact Hq]
    | apply wp_live_final; [apply Hroom | exact Hq]
    | apply wp_removing_step_final; [apply Hroom | by rewrite <- Hp | exact Hq]
    | apply wp_terminal_final; [apply Hroom | by rewrite <- Hp | exact Hq] ].
Qed.
End StepCommands.

(** ** Properties *)

(** Sequence numbers never restart: below the [int64] maximum, [nextSeq] is
    above the record's seq, above the status's, at or above the clock's
    millisecond, and still an [int64]. *)
Theorem nextSeq_fresh recordSeq statusSeq now :
  seq_room recordSeq -> seq_room statusSeq ->
  let seq := nextSeq recordSeq statusSeq now in
  recordSeq < seq /\ statusSeq < seq /\ UnixMilli now <= seq /\ is_int64 seq.
Proof. intros [] []. by apply nextSeq_above. Qed.

Lemma nextSeq_fresh_witness :
  41 < nextSeq 41 7 ex_t0 /\ 7 < nextSeq 41 7 ex_t0 /\ UnixMilli ex_t0 <= nextSeq 41 7 ex_t0 /\
  is_int64 (nextSeq 41 7 ex_t0).
Proof. apply nextSeq_fresh; by vm_compute. Defined.

(** A step appends at most one command to the plan.  The one it appends
    carries the desired state the step leaves its entry in (present exactly
    while the entry is live), to the entry's engine, at the entry's dispatch
    seq, which did not go back and which the book records. *)
Theorem step_sends_at_most_one `{Unicode} `{Marshal} (v : View) (s : Cell) :
  room v s ->
  let s' := snd (step v s) in
  cell_seq s <= cell_seq s' /\
  (commands s' = commands s \/ exists c, commands s' = commands s ++ [c] /\ renders s s' c).
Proof.
  intros Hr s'. pose proof (wp_step_final v s Hr) as Hf. apply wp_iff in Hf. fold s' in Hf.
  destruct Hf as [(c & Hc & Hs) | [(Hc & _ & Hle & _) _]].
  - split; [apply Hs | right; by exists c].
  - by split; [| left].
Qed.

Lemma step_sends_at_most_one_witness :
  let s := ex_cell ex_entry in
  room ex_view s /\ length (commands (snd (step ex_view s))) = 1%nat /\
  cell_seq s <= cell_seq (snd (step ex_view s)).
Proof.
  assert (room ex_view (ex_cell ex_entry)) as Hr.
  { split; [by vm_compute |]. intros t [= <-]. by vm_compute. }
  split; [exact Hr |]. split; [vm_compute; reflexivity |].
  apply (step_sends_at_most_one ex_view (ex_cell ex_entry) Hr).
Defined.

(** No transfer is forgotten: an entry that works on an engine after its
    step, and stays, is in the pass's book at its dispatch seq, whatever its
    record and the last pass's book said. *)
Theorem working_entry_is_booked `{Unicode} `{Marshal} (v : View) (s s' : Cell) :
  room v s -> step v s = (true, s') ->
  works (ePhase (cE s')) = true -> eEngine (cE s') <> "" -> booked s'.
Proof.
  intros Hr Hs Hw Hn. pose proof (wp_run _ _ _ _ _ (wp_step_final v s Hr) Hs) as Hf.
  destruct Hf as [(c & _ & Hc) | [_ Hb]]; [apply Hc |].
  apply Hb; auto. destruct (ended (ePhase (cE s))) eqn:E; [| done].
  pose proof (wp_run _ _ _ _ _ (step_machine v s) Hs) as Hm. cbn in Hm.
  rewrite (machine_ended _ _ _ _ Hm E) in Hw. unfold works in Hw. by rewrite E, andb_false_r in Hw.
Qed.

Lemma working_entry_is_booked_witness :
  let s' := snd (step ex_view (ex_cell ex_entry)) in
  ePhase (cE s') = DownloadPhaseDownloading /\ booked s'.
Proof.
  assert (room ex_view (ex_cell ex_entry)) as Hr.
  { split; [by vm_compute |]. intros t [= <-]. by vm_compute. }
  split; [vm_compute; reflexivity |].
  apply (working_entry_is_booked ex_view (ex_cell ex_entry)); [exact Hr | ..].
  - apply run_answer. vm_compute. reflexivity.
  - vm_compute. reflexivity.
  - vm_compute. discriminate.
Defined.
