(* ===== verification/LcPass.v ===== *)
(** * The whole pass

    [Decide] runs the owner's intents, the supersessions, the owner's deletion,
    the steps and the unclaimed transfers over one slice.  Each phase before the
    steps maps the entries one to one; the step loop keeps some of what it
    steps; converge appends.  The lemmas here lift a relation on entries, or an
    invariant of the decider, from the operations to the pass. *)

From S2P Require Import Prelude GoLang Sha Api Names LcView LcChoose LcIntents LcState LcStep LcDecide LcFrame LcExample.
From S2P Require Import LcStepFacts LcMachine LcTerminal.

(** ** Lifting through the phases before the steps *)

Section Lift.
Context `{Unicode} `{Marshal} (v : View).
(** A relation on entries and one on deciders, both preorders. *)
Context (R : DownloadEntry -> DownloadEntry -> Prop) (RD : decider -> decider -> Prop).
Context `{!PreOrder R} `{!PreOrder RD}.

Definition rel_cell (s s' : Cell) : Prop := R (cE s) (cE s') /\ RD (cD s) (cD s').

Definition rel_pass (p p' : Pass) : Prop :=
  Forall2 R (psEntries p) (psEntries p') /\ RD (psD p) (psD p').

#[export] Instance rel_pass_pre : PreOrder rel_pass.
Proof.
  split.
  - intros p. split; reflexivity.
  - intros p q r [] []. split; by etransitivity.
Qed.

Lemma run_at_rel i m p :
  (forall e, psEntries p !! i = Some e -> rel_cell (mkCell (psD p) e) (snd (m (mkCell (psD p) e)))) ->
  rel_pass p (run_at i m p).
Proof.
  intros Hm. unfold run_at. destruct (psEntries p !! i) as [e |] eqn:E; [| reflexivity].
  destruct (Hm e eq_refl) as [HE HD]. cbn in HE, HD. split; [| exact HD]. cbn.
  rewrite <- (list_insert_id (psEntries p) i e E) at 1.
  apply Forall2_insert; [reflexivity | exact HE].
Qed.

Lemma on_psD_rel f p : RD (psD p) (f (psD p)) -> rel_pass p (p <| psD ::= f |>).
Proof. intros Hf. split; [reflexivity | exact Hf]. Qed.

Lemma fold_rel {A} (f : Pass -> A -> Pass) l p :
  (forall q a, a ∈ l -> rel_pass p q -> rel_pass q (f q a)) -> rel_pass p (fold_left f l p).
Proof.
  revert p. induction l as [| a l IH]; intros p Hf; [reflexivity |]. cbn.
  assert (rel_pass p (f p a)) as Hpa by (apply Hf; [left | reflexivity]).
  etransitivity; [exact Hpa |]. apply IH. intros q b Hb Hq. apply Hf; [by right |].
  by etransitivity.
Qed.
End Lift.

(** ** The step loop *)

Section Loop.
Context `{Unicode} `{Marshal} (v : View) (P : decider -> Prop).

(** The outcome [r] of stepping [e] in some decider where [P] holds. *)
Definition stepped (e : DownloadEntry) (r : DownloadEntry * bool) : Prop :=
  exists d d', P d /\ step v (mkCell d e) = (snd r, mkCell d' (fst r)).

Definition kept_of (rs : list (DownloadEntry * bool)) : list DownloadEntry :=
  (List.filter snd rs).*1.

Hypothesis P_at : forall d i, P d -> P (d <| dCur := i |>).
Hypothesis P_all : forall d i e, P d -> P (d <| dAll ::= <[i := e]> |>).
Hypothesis P_step : forall s, P (cD s) -> P (cD (snd (step v s))).

Lemma step_one_inv es done rest kept d :
  es = done ++ rest ->
  P d -> length (dAll d) = length es -> drop (length done) (dAll d) = rest ->
  exists rs, Forall2 stepped rest rs /\
    (exists d', P d' /\ fold_left (step_one v) (seq (length done) (length rest)) (kept, d) =
                (kept ++ kept_of rs, d')).
Proof.
  revert done kept d. induction rest as [| e rest IH]; intros done kept d -> HP Hlen Hdrop.
  - exists []. split; [constructor |]. exists d. cbn. by rewrite app_nil_r.
  - assert (dAll d !! length done = Some e) as He.
    { rewrite <- (Nat.add_0_r (length done)), <- lookup_drop, Hdrop. done. }
    cbn [length seq fold_left]. unfold step_one at 2. rewrite He.
    destruct (step v (mkCell (d <| dCur := length done |>) e)) as [b s'] eqn:Es.
    assert (P (cD s')) as HP'.
    { replace s' with (snd (step v (mkCell (d <| dCur := length done |>) e))) by by rewrite Es.
      apply P_step, P_at, HP. }
    set (d1 := (cD s') <| dAll ::= _ |>).
    assert (dAll (cD s') = dAll d) as Hall.
    { replace s' with (snd (step v (mkCell (d <| dCur := length done |>) e))) by by rewrite Es.
      by apply (keeps_step v frame). }
    assert (Hd1 : dAll d1 = <[length done := cE s']> (dAll d)) by (unfold d1; cbn; by rewrite Hall).
    destruct (IH (done ++ [e]) (if b then kept ++ [cE s'] else kept) d1) as (rs & Hrs & d2 & HP2 & Hf).
    { by rewrite <- app_assoc. }
    { by apply P_all. }
    { rewrite Hd1, length_insert, Hlen. by rewrite !length_app. }
    { rewrite length_app, Hd1. cbn. rewrite drop_insert_lt by lia.
      by rewrite <- drop_drop, Hdrop. }
    exists ((cE s', b) :: rs). split.
    { constructor; [| done]. exists (d <| dCur := length done |>), (cD s').
      split; [by apply P_at |]. rewrite Es. by destruct s'. }
    exists d2. split; [done |]. rewrite length_app, Nat.add_1_r in Hf. rewrite Hf.
    f_equal. unfold kept_of. cbn. destruct b; cbn; [by rewrite <- app_assoc | done].
Qed.

Lemma steps_spec ps :
  P ((psD ps) <| dAll := psEntries ps |>) ->
  exists rs, Forall2 stepped (psEntries ps) rs /\
    psEntries (steps v ps) = kept_of rs /\ P (psD (steps v ps)).
Proof.
  intros HP.
  destruct (step_one_inv (psEntries ps) [] (psEntries ps) [] _ eq_refl HP eq_refl eq_refl)
    as (rs & Hrs & d' & HP' & Hf).
  exists rs. unfold steps. cbn [length] in Hf. rewrite Hf. cbn. auto.
Qed.
End Loop.

(** ** What the phases before the steps do to an entry *)

(** [p], a season pack, replaces the single [e]; by immutable fields. *)
Definition supersedes (p e : DownloadEntry) : Prop :=
  Pack p = true /\ ePurpose p = "" /\ ePurpose e = "" /\ eManual e = false /\
  exists n, eEpisodes e = [n] /\ n ∈ eEpisodes p.

(** The owner's reasons to take an entry down, whatever its transfer does. *)
Definition withdrawn (v : View) (e : DownloadEntry) : Prop :=
  vDeleting v = true \/
  (exists r, inRemove (vIntents v) = Some r /\ riID r = eID e) \/
  (exists p, p ∈ admitted v /\ supersedes p e).

(** One transition of the pass: the machine's, or a person's blocklisting. *)
Definition move (a b : Abs) : Prop := machine a b \/ b = (DownloadPhaseBlocklisted, snd a).

Definition prep (v : View) (e e' : DownloadEntry) : Prop :=
  same_identity e e' /\ rtc move (abs e) (abs e') /\ (status e' = status e \/ withdrawn v e).

Lemma withdrawn_identity v e e' : same_identity e e' -> withdrawn v e' -> withdrawn v e.
Proof.
  unfold withdrawn, supersedes, same_identity. intros Hi Hw. destruct_and!.
  destruct Hw as [Hd | [(r & Hr & Hid) | (p & Hp & Hs)]]; [by left | right; left | right; right].
  - exists r. split; [done | congruence].
  - exists p. split; [done |].
    replace (ePurpose e) with (ePurpose e') by congruence.
    replace (eManual e) with (eManual e') by congruence.
    by replace (eEpisodes e) with (eEpisodes e') by congruence.
Qed.

#[export] Instance prep_pre v : PreOrder (prep v).
Proof.
  split.
  - intros e. split; [reflexivity |]. split; [reflexivity | by left].
  - intros e1 e2 e3 (I1 & M1 & S1) (I2 & M2 & S2).
    split; [by etransitivity |]. split; [by etransitivity |].
    destruct S1 as [S1 | S1]; [| by right].
    destruct S2 as [S2 | S2]; [left; congruence |]. right. by apply (withdrawn_identity v e1 e2).
Qed.

Section Prepared.
Context `{Unicode} `{Marshal} (v : View).

Definition ok_kept (d d' : decider) : Prop := plan_ok v d -> plan_ok v d'.

#[export] Instance ok_kept_pre : PreOrder ok_kept.
Proof. unfold ok_kept. split; [by intros d | intros d1 d2 d3; auto]. Qed.

Abbreviation prep_cell := (rel_cell (prep v) ok_kept).
Abbreviation prep_pass := (rel_pass (prep v) ok_kept).

Lemma prep_status s s' : keeps_status s s' -> prep v (cE s) (cE s').
Proof.
  intros [Hs Hi]. split; [exact Hi |]. rewrite (abs_status _ _ Hs).
  split; [reflexivity | by left].
Qed.

(** A computation moves the entry as [wp] says and keeps the plan's
    promises. *)
Lemma prep_cell_of (m : M Cell unit) s :
  keeps (keeps_ok v) m -> wp m (fun _ s' => prep v (cE s) (cE s')) s ->
  prep_cell s (snd (m s)).
Proof. intros Hd Hm. apply wp_iff in Hm. split; [exact Hm | apply Hd]. Qed.

Lemma prep_issue s : prep_cell s (snd (issue v s)).
Proof.
  apply prep_cell_of; [keeps |]. eapply wp_status; [apply status_issue |].
  intros ? s'. apply prep_status.
Qed.

Lemma wp_prep_removing why (Q : unit -> Cell -> Prop) s :
  live (cE s) = true -> withdrawn v (cE s) ->
  (forall s', prep v (cE s) (cE s') -> Q tt s') -> wp (toRemoving v why) Q s.
Proof.
  intros Hl Hw HQ. apply wp_toRemoving. intros s' [Hs Hi]. apply HQ.
  split; [exact Hi |]. split; [| by right]. rewrite (abs_status _ _ Hs).
  apply rtc_once. left. apply m_remove. unfold live in Hl. by destruct (ePhase (cE s)).
Qed.

Lemma wp_prep_blocklisted reason msg (Q : unit -> Cell -> Prop) s :
  withdrawn v (cE s) -> (forall s', prep v (cE s) (cE s') -> Q tt s') ->
  wp (toBlocklisted v reason msg) Q s.
Proof.
  intros Hw HQ. apply wp_toBlocklisted. intros s' [Hs Hi]. apply HQ.
  split; [exact Hi |]. split; [| by right]. rewrite (abs_status _ _ Hs).
  apply rtc_once. by right.
Qed.

Lemma prep_data e b : withdrawn v e -> prep v e (e <| eRemoveDataOnDelete := b |>).
Proof. intros Hw. split; [by repeat split |]. split; [reflexivity | by right]. Qed.

(** Decider-only writes. *)
Lemma ok_kept_plan (f : decider -> decider) d :
  pDue (dPlan (f d)) = pDue (dPlan d) -> pRedownloads (dPlan (f d)) = pRedownloads (dPlan d) ->
  ok_kept d (f d).
Proof. exact (plan_ok_eq v d (f d)). Qed.

Lemma psD_prep f p : (forall d, ok_kept d (f d)) -> prep_pass p (p <| psD ::= f |>).
Proof. intros Hf. apply on_psD_rel; [exact _.. | apply Hf]. Qed.

Lemma psEvent_prep a b c p : prep_pass p (psEvent a b c p).
Proof. apply psD_prep. intros d. by apply (ok_kept_plan (d_event a b c)). Qed.

Lemma psNonces_prep f p : prep_pass p (psNonces f p).
Proof. apply psD_prep. intros d. by apply (ok_kept_plan (fun d => d <| dPlan ::= fun p => p <| pNonces ::= f |> |>)). Qed.

Lemma findEntry_id es id i e : findEntry es id = Some i -> es !! i = Some e -> eID e = id.
Proof.
  revert i. induction es as [| x es IH]; intros i; [done |]. cbn [findEntry].
  destruct (String.eqb (eID x) id) eqn:E; bools.
  - intros [= <-] [= ->]. done.
  - destruct (findEntry es id) as [j |]; intros [= <-]. cbn. apply IH. done.
Qed.

Lemma intent_invalid_prep p a : prep_pass p (intent_invalid v p a).
Proof.
  unfold intent_invalid. destruct (nonceField _ _); [| reflexivity].
  destruct (negb _); [reflexivity |].
  etransitivity; [apply psNonces_prep | apply psEvent_prep].
Qed.

Lemma intent_remove_prep p : prep_pass p (intent_remove v p).
Proof.
  unfold intent_remove. destruct (inRemove (vIntents v)) as [r |] eqn:Er; [| reflexivity].
  destruct (negb _); [reflexivity |]. etransitivity; [apply psNonces_prep |].
  destruct (findEntry _ _) as [i |] eqn:Ei; [| apply psEvent_prep].
  apply run_at_rel; [exact _.. |]. intros e He.
  assert (withdrawn v e) as Hw.
  { right; left. exists r. split; [done |]. by rewrite (findEntry_id _ _ _ _ Ei He). }
  apply prep_cell_of; [keeps |]. lc; cbn in *.
  all: lazymatch goal with |- wp _ _ ?c => set (s1 := c) end.
  all: assert (prep v e (cE s1)) as Hs1 by by apply prep_data.
  - apply wp_prep_blocklisted; [done |]. intros s2 Hs2. by etransitivity.
  - apply wp_prep_removing; [done | done |]. intros s2 Hs2. by etransitivity.
  - eapply wp_status; [apply status_issue |]. intros ? s2 Hs2.
    etransitivity; [exact Hs1 | apply (prep_status _ _ Hs2)].
Qed.

Lemma intent_resume_prep p : prep_pass p (intent_resume v p).
Proof.
  unfold intent_resume. destruct (inResume (vIntents v)) as [r |]; [| reflexivity].
  destruct (negb _); [reflexivity |]. etransitivity; [apply psNonces_prep |].
  case_match; [| apply psEvent_prep].
  apply run_at_rel; [exact _.. |]. intros e He. apply prep_issue.
Qed.

Lemma intent_import_prep p : prep_pass p (intent_import v p).
Proof.
  unfold intent_import. destruct (inImport (vIntents v)) as [r |]; [| reflexivity].
  destruct (negb _); [reflexivity |]. etransitivity; [apply psNonces_prep |].
  case_match; [reflexivity | apply psEvent_prep].
Qed.

Lemma intent_unblock_prep p : prep_pass p (intent_unblock v p).
Proof.
  unfold intent_unblock. destruct (inUnblock (vIntents v)) as [r |]; [| reflexivity].
  destruct (negb _); [reflexivity |]. case_match.
  - etransitivity; [apply psNonces_prep |]. apply psD_prep. intros d. by apply ok_kept_plan.
  - apply psD_prep. intros d Hd. apply plan_ok_at. exact Hd.
Qed.

Lemma intents_prep p : prep_pass p (intents v p).
Proof.
  unfold intents.
  etransitivity; [| apply intent_unblock_prep]. etransitivity; [| apply intent_import_prep].
  etransitivity; [| apply intent_resume_prep]. etransitivity; [| apply intent_remove_prep].
  apply fold_rel; [exact _.. |]. intros q a _ _. apply intent_invalid_prep.
Qed.

(** A pass whose entries are the admitted ones by identity. *)
Definition identified (p : Pass) : Prop := Forall2 same_identity (admitted v) (psEntries p).

Lemma prep_identified p q : identified p -> prep_pass p q -> identified q.
Proof.
  intros Hp [Hq _]. unfold identified in *. etransitivity; [exact Hp |].
  eapply Forall2_impl; [| exact Hq]. by intros e e' [? _].
Qed.

Lemma superseded_withdrawn q p j s :
  identified q -> (exists p0, p0 ∈ admitted v /\ same_identity p0 p) ->
  psEntries q !! j = Some s -> superseding p = true -> superseded_by p s = true ->
  withdrawn v s /\ live s = true.
Proof.
  intros Hq (p0 & Hp0 & Hi) Hj Hp Hs. unfold superseding, superseded_by in *.
  destruct (eEpisodes s) as [| n []] eqn:En; bools; try done.
  split.
  - right; right. exists p0. split; [done |].
    unfold same_identity in Hi. destruct_and!. unfold supersedes, Pack in *.
    replace (eEpisodes p0) with (eEpisodes p) by congruence.
    replace (eIssues p0) with (eIssues p) by congruence.
    do 4 (split; [first [done | congruence] |]). by exists n.
  - unfold live, transferring in *. by destruct (ePhase s).
Qed.

Lemma supersede_one_prep i p q j :
  identified q -> (exists p0, p0 ∈ admitted v /\ same_identity p0 p) -> superseding p = true ->
  prep_pass q (supersede_one v i p q j).
Proof.
  intros Hq Hp Hs. unfold supersede_one.
  destruct (psEntries q !! j) as [s |] eqn:Ej; [| reflexivity].
  destruct (_ || _) eqn:Eb; [reflexivity |]. bools.
  destruct (superseded_withdrawn q p j s Hq Hp Ej Hs) as [Hw Hl]; [done |].
  apply run_at_rel; [exact _.. |]. intros e He. assert (e = s) as -> by congruence.
  apply prep_cell_of; [keeps |]. lc.
  lazymatch goal with |- wp _ _ ?c => set (s0 := c) end.
  assert (prep v s (cE s0)) as Hs0 by by apply prep_data.
  apply wp_prep_removing; [done | done |]. intros s1 Hs1.
  eapply wp_status; [apply status_event |]. intros ? s2 Hs2.
  etransitivity; [exact Hs0 |]. etransitivity; [exact Hs1 | apply (prep_status _ _ Hs2)].
Qed.

Lemma supersede_prep p : identified p -> prep_pass p (supersede v p).
Proof.
  intros Hp. apply fold_rel; [exact _.. |]. intros q i _ Hq.
  pose proof (prep_identified _ _ Hp Hq) as Hiq. unfold supersede_pack.
  destruct (psEntries q !! i) as [e |] eqn:Ei; [| reflexivity].
  destruct (negb (superseding e)) eqn:Es; [reflexivity |]. bools.
  apply fold_rel; [exact _.. |]. intros q1 j _ Hq1. apply supersede_one_prep; [| | done].
  - by eapply prep_identified.
  - destruct (Forall2_lookup_r _ _ _ _ _ Hiq Ei) as (p0 & Hp0 & Hi).
    exists p0. split; [by eapply list_elem_of_lookup_2 | done].
Qed.

Lemma deleting_prep p : prep_pass p (deleting v p).
Proof.
  unfold deleting. destruct (vDeleting v) eqn:Ed; [| reflexivity].
  apply fold_rel; [exact _.. |]. intros q i _ _. unfold delete_one.
  destruct (psEntries q !! i) as [e |] eqn:Ei; [| reflexivity].
  destruct (live e) eqn:El; [| reflexivity].
  apply run_at_rel; [exact _.. |]. intros e' He'. assert (e' = e) as -> by congruence.
  apply prep_cell_of; [keeps |].
  apply wp_prep_removing; [done | by left |]. auto.
Qed.

Lemma prepared_prep :
  prep_pass (mkPass (admitted v) (init_decider v)) (prepared v).
Proof.
  unfold prepared. etransitivity; [apply intents_prep |].
  etransitivity; [apply supersede_prep | apply deleting_prep].
  eapply prep_identified; [| apply intents_prep]. unfold identified. reflexivity.
Qed.
End Prepared.

(** ** The transfers no entry claims *)

(** [e'] re-adopts an unclaimed, present transfer of this owner. *)
Definition readopted `{Unicode} `{Marshal} (v : View) (e' : DownloadEntry) : Prop :=
  exists t claim e, t ∈ vUnclaimed v /\ trClaim (tRecord t) = Some claim /\
    judged (tRecord t) = true /\ rec_failed (tRecord t) = false /\
    same_owner v claim = true /\ vDeleting v = false /\
    recreate v (tRecord t) claim = Some e /\ same_identity e e' /\ status e' = status e.

Section Converge.
Context `{Unicode} `{Marshal} (v : View).

Lemma due_remove rec claim why d : plan_ok v d -> plan_ok v (removeUnclaimed v rec claim why d).
Proof.
  intros Hd. unfold removeUnclaimed. destruct (splitEngine _) as [[? ?] ?].
  apply plan_ok_at. exact Hd.
Qed.

Lemma recreate_uid rec claim e : recreate v rec claim = Some e -> eUID e = erUID (tcEntry claim).
Proof.
  unfold recreate. destruct (splitEngine _) as [[n o] []]; [cbn -[nextSeq] | done].
  destruct (d_clients v !! n); [cbn -[nextSeq] | done].
  destruct (sourceOf claim); [cbn -[nextSeq] | done].
  intros [= <-]. by destruct (tcImported claim).
Qed.

(** One transfer: the entries stay, or one is appended whose UID none has. *)
Lemma converge_one_spec p t :
  plan_ok v (psD p) -> t ∈ vUnclaimed v ->
  let q := converge_one v p t in
  plan_ok v (psD q) /\
  (psEntries q = psEntries p \/
   exists e', psEntries q = psEntries p ++ [e'] /\ readopted v e' /\
     at_cap v (psEntries p) = false /\ hasEntry (psEntries p) "" (eUID e') = false).
Proof.
  intros Hd Ht. unfold converge_one.
  destruct (trClaim (tRecord t)) as [claim |] eqn:Ec; [| by split; [| left]].
  destruct (negb (judged _)) eqn:Ej; [by split; [| left] |].
  destruct (hasEntry _ _ _) eqn:Eh; [by split; [| left] |].
  destruct (negb (same_owner _ _)) eqn:Eo.
  { destruct (vProviderVerified v); (split; [| by left]); [by apply due_remove | done]. }
  destruct (rec_failed _) eqn:Ef; [split; [by apply due_remove | by left] |].
  destruct (stillWants _ _ _ _) as [wanted why].
  destruct (_ || _) eqn:Ew; [split; [by apply due_remove | by left] |].
  destruct (recreate _ _ _) as [e |] eqn:Er; [| by split; [| left]].
  bools. destruct (status_issue v (mkCell (psD p) e)) as [Hst Hid]. cbn [cE] in Hst, Hid.
  split; [by apply (keeps_issue v (keeps_ok v) (mkCell (psD p) e)) |].
  right. exists (cE (snd (issue v (mkCell (psD p) e)))). split; [done |]. split.
  { exists t, claim, e. do 7 (split; [assumption |]). split; [exact Hid | exact Hst]. }
  split; [done |].
  replace (eUID _) with (erUID (tcEntry claim)); [done |].
  transitivity (eUID e); [| symmetry; apply Hid].
  symmetry. by apply (recreate_uid (tRecord t)).
Qed.

Lemma converge_spec p :
  plan_ok v (psD p) ->
  plan_ok v (psD (converge v p)) /\
  exists new, psEntries (converge v p) = psEntries p ++ new /\ Forall (readopted v) new.
Proof.
  unfold converge. intros Hd.
  assert (forall l q, (forall t, t ∈ l -> t ∈ vUnclaimed v) -> plan_ok v (psD q) ->
    plan_ok v (psD (fold_left (converge_one v) l q)) /\
    exists new, psEntries (fold_left (converge_one v) l q) = psEntries q ++ new /\
      Forall (readopted v) new) as Hfold; [| by apply Hfold].
  induction l as [| t l IH]; intros q Hl Hq; cbn.
  - split; [done |]. exists []. by rewrite app_nil_r.
  - destruct (converge_one_spec q t Hq) as [Hq' Hone]; [apply Hl; by left |].
    destruct (IH (converge_one v q t)) as [Hd' (new & Hnew & Hall)]; [| done |].
    { intros u Hu. apply Hl. by right. }
    split; [done |]. destruct Hone as [He | (e' & He & Hr & _)]; rewrite He in Hnew.
    + by exists new.
    + exists (e' :: new). rewrite Hnew, <- app_assoc. by split; [| constructor].
Qed.

(** ** Decide, entry by entry *)

Lemma init_due : plan_ok v (init_decider v).
Proof. split; [by left |]. intros it Hit. by apply not_elem_of_nil in Hit. Qed.

Lemma step_due s : plan_ok v (cD s) -> plan_ok v (cD (snd (step v s))).
Proof. apply (keeps_step v (keeps_ok v) s). Qed.

(** The step loop of the pass, and what comes of it. *)
Lemma decided_spec :
  exists rs new,
    Forall2 (stepped v (plan_ok v)) (psEntries (prepared v)) rs /\
    pEntries (Decide v) = kept_of rs ++ new /\ Forall (readopted v) new /\
    plan_ok v (psD (decided v)).
Proof.
  pose proof (proj2 (prepared_prep v) init_due) as Hd.
  destruct (steps_spec v (plan_ok v)) with (ps := prepared v) as (rs & Hrs & Hkept & Hd').
  { by intros d i. } { by intros d i e. } { apply step_due. } { exact Hd. }
  destruct (converge_spec (steps v (prepared v)) Hd') as [Hd2 (new & Hnew & Hall)].
  exists rs, new. split; [done |]. split; [| by split].
  unfold Decide. cbn. unfold decided. by rewrite Hnew, Hkept.
Qed.

Lemma elem_of_kept rs e : e ∈ kept_of rs <-> (e, true) ∈ rs.
Proof.
  unfold kept_of. rewrite list_elem_of_fmap. split.
  - intros ([x b] & -> & Hx). apply list_elem_of_In, List.filter_In in Hx as [Hx Hb].
    cbn in *. subst. by apply list_elem_of_In.
  - intros Hx. exists (e, true). split; [done |].
    apply list_elem_of_In, List.filter_In. by split; [apply list_elem_of_In |].
Qed.

(** The whole journey of an admitted entry through one pass. *)
Lemma stepped_prep P e r :
  stepped v P e r -> same_identity e (fst r) /\ machine (abs e) (abs (fst r)).
Proof.
  intros (d & d' & _ & Hs). split.
  - pose proof (keeps_step v frame (mkCell d e)) as [Hi _]. by rewrite Hs in Hi.
  - exact (wp_run _ _ _ _ _ (step_machine v (mkCell d e)) Hs).
Qed.

Lemma entry_descends e' :
  e' ∈ pEntries (Decide v) ->
  (exists e, e ∈ admitted v /\ same_identity e e' /\ rtc move (abs e) (abs e')) \/ readopted v e'.
Proof.
  destruct decided_spec as (rs & new & Hrs & -> & Hall & _).
  rewrite elem_of_app, elem_of_kept. intros [He | He].
  - left. apply list_elem_of_lookup_1 in He as [i Hi].
    destruct (Forall2_lookup_r _ _ _ _ _ Hrs Hi) as (e1 & He1 & Hs).
    destruct (Forall2_lookup_r _ _ _ _ _ (proj1 (prepared_prep v)) He1) as (e & He & Hi1 & Hm & _).
    apply stepped_prep in Hs as [Hi2 Hm2].
    exists e. split; [exact (list_elem_of_lookup_2 _ _ _ He) |].
    split; [etransitivity; [exact Hi1 | exact Hi2] |]. eapply rtc_r; [exact Hm | by left].
  - right. by apply (proj1 (List.Forall_forall _ _) Hall), list_elem_of_In.
Qed.
End Converge.

(** ** Ended entries over any number of passes *)

Lemma move_ended p i q j : move (p, i) (q, j) -> ended p = true -> ended q = true.
Proof.
  intros [Hm | [= -> ->]] He; [| done]. by rewrite (machine_ended _ _ _ _ Hm He).
Qed.

Lemma rtc_move_ended a b : rtc move a b -> ended (fst a) = true -> ended (fst b) = true.
Proof.
  induction 1 as [| [p i] [q j] c Hm _ IH]; [done |]. cbn. intros He. by apply IH, (move_ended p i q j).
Qed.

Lemma live_ended e : live e = negb (ended (ePhase e)).
Proof. unfold live. by destruct (ePhase e). Qed.

(** [v'] is a view of the same owner after [v]'s plan was applied; the grab [u]
    is not made again: no new entry and no unclaimed transfer carries its UID. *)
Definition next `{Unicode} `{Marshal} (u : string) (v v' : View) : Prop :=
  vStored v' = pEntries (Decide v) /\
  (forall e, e ∈ vNewEntries v -> eUID e <> u) /\
  (forall t c, t ∈ vUnclaimed v -> trClaim (tRecord t) = Some c -> erUID (tcEntry c) <> u).

Lemma admitted_elem v e :
  e ∈ admitted v -> e ∈ vStored v \/ exists ne, ne ∈ vNewEntries v /\ eUID e = eUID ne.
Proof.
  unfold admitted. destruct (vDeleting v); [by left |].
  generalize (vStored v) as es. induction (vNewEntries v) as [| ne l IH]; intros es; cbn; [by left |].
  intros He. destruct (IH _ He) as [Hs | (ne' & Hne & Hu)].
  - unfold admit_one in Hs. destruct (_ || _); [by left |].
    apply elem_of_app in Hs as [Hs | Hs]; [by left |].
    apply list_elem_of_singleton in Hs as ->. right. exists ne. split; [by left |].
    by case_bool_decide.
  - right. exists ne'. split; [by right | done].
Qed.

Lemma readopted_uid `{Unicode} `{Marshal} v e :
  readopted v e -> exists t c, t ∈ vUnclaimed v /\ trClaim (tRecord t) = Some c /\
                               eUID e = erUID (tcEntry c).
Proof.
  intros (t & c & e0 & Ht & Hc & _ & _ & _ & _ & Hr & Hi & _). exists t, c. do 2 (split; [done |]).
  rewrite <- (recreate_uid v _ _ _ Hr). apply Hi.
Qed.

(** ** Properties *)

(** The pass never asks to be run again in the past: the plan's due time is
    unset or strictly after the pass's clock. *)
Theorem Decide_due_in_future `{Unicode} `{Marshal} (v : View) :
  pDue (Decide v) = 0 \/ vNow v < pDue (Decide v).
Proof. destruct (decided_spec v) as (_ & _ & _ & _ & _ & Hd). apply Hd. Qed.

(** Every entry of the plan descends from one the pass admitted, with the
    same immutable fields and a phase reached along the abstract machine or a
    person's blocklisting; or it re-adopts a present transfer of the owner that
    nothing claimed. *)
Theorem Decide_entries_descend `{Unicode} `{Marshal} (v : View) e' :
  e' ∈ pEntries (Decide v) ->
  (exists e, e ∈ admitted v /\ same_identity e e' /\ rtc move (abs e) (abs e')) \/ readopted v e'.
Proof. apply entry_descends. Qed.

Lemma Decide_entries_descend_witness :
  exists e', e' ∈ pEntries (Decide ex_view) /\
    ((exists e, e ∈ admitted ex_view /\ same_identity e e' /\ rtc move (abs e) (abs e')) \/
     readopted ex_view e').
Proof.
  assert (pEntries (Decide ex_view) = [cE (snd (step ex_view (ex_cell ex_entry)))]) as E
    by (vm_compute; reflexivity).
  assert (exists e', e' ∈ pEntries (Decide ex_view)) as [e' He'].
  { rewrite E. eexists. apply list_elem_of_here. }
  exists e'. split; [exact He' | exact (Decide_entries_descend ex_view e' He')].
Defined.

(** C36.  Removal is final: once every entry of a grab is in Removing, Failed or
    Blocklisted, it is never live again, over any number of passes and whatever
    each pass observes, as long as no new grab carries its UID and no engine
    reports a transfer under that UID which no entry claims (a pass would adopt
    such a transfer again). *)
Theorem ended_forever `{Unicode} `{Marshal} (u : string) (v v' : View) :
  rtc (next u) v v' ->
  (forall e, e ∈ vStored v -> eUID e = u -> live e = false) ->
  forall e, e ∈ vStored v' -> eUID e = u -> live e = false.
Proof.
  induction 1 as [v | v v1 v' (Hst & Hne & Huc) _ IH]; [done |]. intros Hv. apply IH.
  intros e'. rewrite Hst. intros He' Hu.
  destruct (entry_descends v e' He') as [(e & He & Hi & Hm) | Hr].
  - assert (eUID e = u) as Hue by (destruct Hi as (_ & <- & _); done).
    destruct (admitted_elem v e He) as [Hs | (ne & Hin & Hu')]; [| by destruct (Hne ne Hin); congruence].
    pose proof (Hv e Hs Hue) as Hl. rewrite live_ended in *. bools.
    apply negb_false_iff. exact (rtc_move_ended _ _ Hm Hl).
  - destruct (readopted_uid v e' Hr) as (t & c & Ht & Hc & Huid). destruct (Huc t c Ht Hc). congruence.
Qed.

(** A failed entry, and the view of the pass after the one that keeps it. *)
Definition ex_ended : View :=
  ex_view <| vStored := [ex_entry <| ePhase := DownloadPhaseFailed |>
    <| eFailureReason := DownloadFailureDiskFull |> <| eFailedAt := Some ex_t0 |>] |>.
Definition ex_after : View := ex_ended <| vStored := pEntries (Decide ex_ended) |>.

Lemma ended_forever_witness :
  length (vStored ex_after) = 1%nat /\
  forall e, e ∈ vStored ex_after -> eUID e = "uid-1" -> live e = false.
Proof.
  split; [vm_compute; reflexivity |].
  apply (ended_forever "uid-1" ex_ended ex_after).
  - apply rtc_once. split; [reflexivity |]. split.
    + intros e He. by apply not_elem_of_nil in He.
    + intros t c Ht. by apply not_elem_of_nil in Ht.
  - intros e He _. apply list_elem_of_singleton in He as ->. reflexivity.
Defined.

(** ** Data safety of the pass *)

Lemma hasEntry_nil_uid es u : hasEntry es "" u = existsb (fun e => negb (String.eqb u "") && String.eqb (eUID e) u) es.
Proof. reflexivity. Qed.

Lemma stored_admitted v e : e ∈ vStored v -> e ∈ admitted v.
Proof.
  unfold admitted. destruct (vDeleting v); [done |]. intros He.
  assert (forall es, e ∈ es -> e ∈ fold_left (admit_one v) (vNewEntries v) es) as Hfold; [| by apply Hfold].
  induction (vNewEntries v) as [| ne l IH]; intros es Hes; cbn; [done |].
  apply IH. unfold admit_one. destruct (_ || _); [done |]. apply elem_of_app. by left.
Qed.

Lemma no_set_failure es e : eSet e = None -> setFailure es e = None.
Proof. unfold setFailure. by intros ->. Qed.

(** C1.  Data safety of the pass: a live entry outside a part set is live in the
    plan too, unless its owner withdrew it (deletion, a remove intent naming it,
    a season pack replacing it) or there is positive evidence against it. *)
Theorem Decide_keeps_live `{Unicode} `{Marshal} (v : View) e :
  e ∈ vStored v -> live e = true -> eSet e = None ->
  (exists e', e' ∈ pEntries (Decide v) /\ same_identity e e' /\ live e' = true) \/
  withdrawn v e \/ evidence v [] e (recordOf v e).
Proof.
  intros He Hl Hset. apply stored_admitted, list_elem_of_lookup_1 in He as [i Hi].
  destruct (decided_spec v) as (rs & new & Hrs & -> & _ & _).
  destruct (Forall2_lookup_l _ _ _ _ _ (proj1 (prepared_prep v)) Hi) as (e1 & He1 & Hid1 & _ & Hst1).
  destruct Hst1 as [Hst1 | Hw]; [| by right; left].
  destruct (Forall2_lookup_l _ _ _ _ _ Hrs He1) as ([e2 b] & Her & Hstep).
  pose proof (stepped_prep v _ _ _ Hstep) as [Hid2 _].
  destruct Hstep as (d & d' & _ & Hs). cbn [fst snd] in *.
  assert (live e1 = true) as Hl1 by by rewrite (live_status _ _ Hst1).
  pose proof (wp_run _ _ _ _ _ (step_evidence v (mkCell d e1) Hl1) Hs) as Hends.
  assert (b = false \/ live e2 = false -> evidence v [] e (recordOf v e)) as Hev.
  { intros Hb. specialize (Hends Hb). cbn [cE] in Hends.
    replace (recordOf v e) with (recordOf v e1)
      by (unfold recordOf; by replace (eUID e1) with (eUID e) by (symmetry; apply Hid1)).
    eapply evidence_status; [exact Hst1 | exact Hid1 | | exact Hends].
    rewrite !no_set_failure; [done | done |]. by rewrite (proj1 (proj2 (proj2 (proj2 (proj2 (proj2
      (proj2 (proj2 (proj2 Hid1))))))))). }
  destruct b; [| by right; right; apply Hev; left].
  destruct (live e2) eqn:Hl2; [| by right; right; apply Hev; right].
  left. exists e2. split; [| split; [etransitivity; [exact Hid1 | exact Hid2] | done]].
  apply elem_of_app. left. apply elem_of_kept. by eapply list_elem_of_lookup_2.
Qed.

Lemma Decide_keeps_live_witness :
  (exists e', e' ∈ pEntries (Decide ex_view) /\ same_identity ex_entry e' /\ live e' = true) \/
  withdrawn ex_view ex_entry \/ evidence ex_view [] ex_entry (recordOf ex_view ex_entry).
Proof.
  apply (Decide_keeps_live ex_view ex_entry); [| reflexivity..].
  apply list_elem_of_here.
Defined.

(** ** No two grabs share a UID, and the cap holds *)

Lemma hasEntry_uid es id u e : hasEntry es id u = false -> u <> "" -> e ∈ es -> eUID e <> u.
Proof.
  intros Hh Hu He Heq. unfold hasEntry in Hh.
  assert (existsb (fun e => (negb (String.eqb id "") && String.eqb (eID e) id)
            || (negb (String.eqb u "") && String.eqb (eUID e) u)) es = true) as Ht; [| congruence].
  apply existsb_exists. exists e. split; [by apply list_elem_of_In |].
  rewrite Heq, String.eqb_refl. apply String.eqb_neq in Hu. rewrite Hu. cbn. by rewrite orb_true_r.
Qed.

Lemma NoDup_snoc_uid es e :
  NoDup (eUID <$> es) -> (forall x, x ∈ es -> eUID x <> eUID e) -> NoDup (eUID <$> (es ++ [e])).
Proof.
  intros Hnd Hx. rewrite fmap_app, list.NoDup_app. split; [done |]. split; [| apply NoDup_singleton].
  intros u Hu Hu'. apply list_elem_of_fmap in Hu as (x & -> & Hin).
  apply list_elem_of_singleton in Hu'. by apply (Hx x Hin).
Qed.

Lemma admitted_nodup v :
  NoDup (eUID <$> vStored v) -> (forall e, e ∈ vNewEntries v -> eUID e <> "") ->
  NoDup (eUID <$> admitted v).
Proof.
  unfold admitted. destruct (vDeleting v); [done |].
  generalize (vStored v) as es. induction (vNewEntries v) as [| ne l IH]; intros es Hnd Hne; cbn; [done |].
  apply IH; [| intros e He; apply Hne; by right].
  unfold admit_one. destruct (_ || _) eqn:E; [done |]. bools.
  assert (eUID ne <> "") as Hu by (apply Hne; left).
  apply NoDup_snoc_uid; [done |]. intros x Hx. case_bool_decide; by eapply hasEntry_uid.
Qed.

Section Unique.
Context `{Unicode} `{Marshal} (v : View).

Lemma identity_uids es es' : Forall2 same_identity es es' -> eUID <$> es' = eUID <$> es.
Proof.
  induction 1 as [| x y l k Hxy _ IH]; [done |]. cbn. rewrite IH. f_equal. apply Hxy.
Qed.

Lemma kept_sublist rs : kept_of rs `sublist_of` rs.*1.
Proof.
  unfold kept_of. induction rs as [| [e []] rs IH]; cbn; [constructor | by apply sublist_skip |].
  by apply sublist_cons.
Qed.

Lemma steps_uids : exists l, l `sublist_of` (eUID <$> admitted v) /\
  eUID <$> psEntries (steps v (prepared v)) = l.
Proof.
  destruct (steps_spec v (fun _ => True)) with (ps := prepared v) as (rs & Hrs & Hkept & _); try done.
  eexists. split; [| reflexivity]. rewrite Hkept.
  rewrite <- (identity_uids (admitted v) (rs.*1)); [apply fmap_sublist, kept_sublist |].
  transitivity (psEntries (prepared v)).
  - eapply Forall2_impl; [| apply (proj1 (prepared_prep v))]. by intros ? ? [? _].
  - apply Forall2_fmap_r. eapply Forall2_impl; [| exact Hrs]. intros e r Hs.
    by apply stepped_prep in Hs as [? _].
Qed.

(** An invariant of the slice converge extends. *)
Lemma converge_ind (Q : list DownloadEntry -> Prop) p :
  plan_ok v (psD p) -> Q (psEntries p) ->
  (forall es e', Q es -> readopted v e' -> at_cap v es = false ->
     hasEntry es "" (eUID e') = false -> Q (es ++ [e'])) ->
  Q (psEntries (converge v p)).
Proof.
  intros Hd HQ Hstep. unfold converge.
  assert (forall l q, (forall t, t ∈ l -> t ∈ vUnclaimed v) -> plan_ok v (psD q) -> Q (psEntries q) ->
    Q (psEntries (fold_left (converge_one v) l q))) as Hfold; [| by apply Hfold].
  induction l as [| t l IH]; intros q Hl Hq HQq; cbn; [done |].
  destruct (converge_one_spec v q t Hq) as [Hq' Hone]; [apply Hl; by left |].
  apply IH; [intros u Hu; apply Hl; by right | done |].
  destruct Hone as [-> | (e' & -> & Hr & Hc & Hh)]; [done | by apply Hstep].
Qed.

Lemma steps_due : plan_ok v (psD (steps v (prepared v))).
Proof.
  destruct (steps_spec v (plan_ok v)) with (ps := prepared v) as (rs & _ & _ & Hd); [.. | done].
  - by intros d i.
  - by intros d i e.
  - apply step_due.
  - exact (proj2 (prepared_prep v) (init_due v)).
Qed.
End Unique.

Lemma admit_one_cap v n es ne :
  0 < vEntryCap v -> Z.of_nat (length es) <= n -> vEntryCap v <= n ->
  Z.of_nat (length (admit_one v es ne)) <= n.
Proof.
  intros Hc Hl Hn. unfold admit_one. destruct (_ || _) eqn:E; [done |].
  unfold at_cap in E. bools. rewrite length_app. cbn.
  apply andb_false_iff in H0 as [H0 | H0]; bools; lia.
Qed.

(** The pass keeps the status well formed: when the stored entries have
    distinct UIDs and every new entry and unclaimed claim has one, the plan's
    entries have distinct UIDs; under an entry cap the plan has at most the cap,
    or as many as were stored. *)
Theorem Decide_unique_and_capped `{Unicode} `{Marshal} (v : View) :
  NoDup (eUID <$> vStored v) ->
  (forall e, e ∈ vNewEntries v -> eUID e <> "") ->
  (forall t c, t ∈ vUnclaimed v -> trClaim (tRecord t) = Some c -> erUID (tcEntry c) <> "") ->
  NoDup (eUID <$> pEntries (Decide v)) /\
  (0 < vEntryCap v ->
   Z.of_nat (length (pEntries (Decide v))) <= Z.max (vEntryCap v) (Z.of_nat (length (vStored v)))).
Proof.
  intros Hnd Hne Hcl. change (pEntries (Decide v)) with (psEntries (converge v (steps v (prepared v)))).
  destruct (steps_uids v) as (l & Hl & Heq).
  split; [| intros Hcap]; apply converge_ind; try apply steps_due.
  - rewrite Heq. eapply sublist_NoDup; [| exact Hl]. by apply admitted_nodup.
  - intros es e' Hes Hr _ Hh. apply NoDup_snoc_uid; [done |]. intros x Hx.
    destruct (readopted_uid v e' Hr) as (t & c & Ht & Hc & Hu).
    eapply hasEntry_uid; [exact Hh | rewrite Hu; by eapply Hcl | done].
  - apply sublist_length in Hl. rewrite <- Heq, !length_fmap in Hl.
    assert (Z.of_nat (length (admitted v)) <= Z.max (vEntryCap v) (Z.of_nat (length (vStored v)))) as Ha;
      [| lia].
    unfold admitted. destruct (vDeleting v); [lia |].
    set (n := Z.max _ _). assert (Z.of_nat (length (vStored v)) <= n) as Hs by lia.
    assert (vEntryCap v <= n) as Hn by lia. clearbody n. revert Hs.
    generalize (vStored v) as es. clear -Hcap Hn.
    induction (vNewEntries v) as [| ne k IH]; intros es Hs; cbn; [done |].
    by apply IH, admit_one_cap.
  - intros es e' Hes _ Hc _. rewrite length_app. cbn. unfold at_cap in Hc.
    apply andb_false_iff in Hc as [Hc | Hc]; bools; lia.
Qed.

(** A second grab handed over with the stored one's UID is not admitted. *)
Definition ex_capped : View :=
  ex_view <| vNewEntries := [ex_entry <| eID := "heat-2" |>; ex_entry <| eID := "heat-3" |> <| eUID := "uid-3" |>] |>.

Lemma Decide_unique_and_capped_witness :
  length (pEntries (Decide ex_capped)) = 2%nat /\ NoDup (eUID <$> pEntries (Decide ex_capped)).
Proof.
  split; [vm_compute; reflexivity |]. apply (Decide_unique_and_capped ex_capped).
  - apply NoDup_singleton.
  - intros e He. repeat (apply elem_of_cons in He as [-> | He]; [done |]). by apply not_elem_of_nil in He.
  - intros t c Ht. by apply not_elem_of_nil in Ht.
Defined.

(** A failed transfer blames the release or this system; only the first is
    blocklisted, in the scope its reason has.  A search to replace a failed grab
    is asked for only where it is owed.  A part set imports through its first
    part, once every part is done. *)

(** ** A part set's import *)

Section SetImport.
Context `{Unicode} `{Marshal} (v : View).

Definition same_imports (s s' : Cell) : Prop :=
  pImports (dPlan (cD s')) = pImports (dPlan (cD s)) /\
  pMaterialise (dPlan (cD s')) = pMaterialise (dPlan (cD s)).

#[local] Instance same_imports_pre : PreOrder same_imports.
Proof. unfold same_imports. split; [by intros s |]. intros s t u [] []. split; congruence. Qed.

Lemma same_imports_onE f : keeps same_imports (onE f).
Proof. by intros [d e]. Qed.
Lemma same_imports_onD f :
  (forall d, pImports (dPlan (f d)) = pImports (dPlan d) /\
             pMaterialise (dPlan (f d)) = pMaterialise (dPlan d)) -> keeps same_imports (onD f).
Proof. intros Hf [d e]. apply Hf. Qed.
Lemma same_imports_at t : keeps same_imports (onD (d_at v t)).
Proof.
  intros [d e]. unfold same_imports. cbn -[d_at].
  by destruct (d_at_run v t d) as [-> | (t' & -> & _)].
Qed.
Hint Resolve same_imports_onE same_imports_at : keeps.
Hint Extern 1 (keeps same_imports (put _ _)) => unfold put; apply same_imports_onE : keeps.
Hint Extern 2 (keeps same_imports (onD _)) => apply same_imports_onD; intros; split; reflexivity : keeps.

Lemma same_imports_toImported : keeps same_imports (toImported v).
Proof. unfold toImported, issue, emit, history, d_history. keeps. Qed.
End SetImport.

(** ** How a failure is taken *)

(** What [d_failed] makes of the entry [e], failed for [reason]: whether it stays,
    and the entry it leaves. *)
Inductive failure_outcome (v : View) (reason : DownloadFailureReason) (e : DownloadEntry) :
    bool -> DownloadEntry -> Prop :=
  | fo_seeding_lost e' : reason = DownloadFailurePayloadUnavailable -> imported e = true ->
      status e' = status e -> failure_outcome v reason e false e'
  | fo_blocklisted e' : IsReleaseFault reason = true ->
      status e' = status (blocklisted_e (vNow v) reason e) -> ePhase e' = DownloadPhaseBlocklisted ->
      eBlock e' = Some (mkEntryBlock (ScopeFor reason) reason (block_seq e (vNow v)) None) ->
      failure_outcome v reason e true e'
  | fo_failed e' : IsReleaseFault reason = false ->
      status e' = status (failed_e (vNow v) reason e) -> ePhase e' = DownloadPhaseFailed ->
      eBlock e' = eBlock e -> failure_outcome v reason e true e'.

(** ** Properties *)

(** A failed transfer is classed by its reason, nothing else: a payload that
    can no longer be fetched for an imported entry drops it without blame; a
    release fault blocklists the release in the reason's scope, above any seq its
    block had; anything else, and a failure with no reason, only fails the
    entry. *)
Theorem failed_is_classed `{Unicode} `{Marshal} (v : View) (rec : TransferRecord) (s : Cell) :
  let '(keep, s') := d_failed v rec s in
  failure_outcome v (failed_reason rec) (cE s) keep (cE s').
Proof.
  destruct (d_failed v rec s) as [keep s'] eqn:Hs. revert Hs.
  set (reason := failed_reason rec).
  apply (wp_run _ (fun keep s' => failure_outcome v reason (cE s) keep (cE s'))).
  unfold d_failed. fold reason. apply wp_bind, wp_gets, wp_bind.
  apply (wp_mono _ (fun _ s1 => cE s1 = cE s)).
  { lc; [| done]. apply wp_same; [apply same_entry_event | auto]. }
  intros _ s1 Hs1. lc; bools.
  - apply wp_same; [apply same_entry_event |]. intros _ s2 Hs2. lc.
    apply wp_same; [apply same_entry_history |]. intros _ s3 Hs3. lc.
    apply fo_seeding_lost; congruence.
  - apply wp_toBlocklisted. intros s2 [Hst _]. lc. rewrite Hs1 in Hst.
    apply fo_blocklisted; [done | done | ..]; unfold status in Hst; cbn in Hst; congruence.
  - apply wp_toFailed. intros s2 [Hst _]. lc. rewrite Hs1 in Hst.
    apply fo_failed; [done | done | ..]; unfold status in Hst; cbn in Hst; congruence.
Qed.

(** A redownload search is asked for only where it is owed: of an item the
    failed grab covers, monitored and without its file, whose last search is
    older than a failure less than a day old that blames the release. *)
Theorem Decide_redownloads_owed `{Unicode} `{Marshal} (v : View) it :
  it ∈ pRedownloads (Decide v) ->
  map_true (vUnmonitored v) it = false /\ map_true (vSatisfied v) it = false /\
  (it = vOwner v -> vMonitored v = true) /\
  exists e, redownloadable v e /\ it ∈ covered_items v e /\
    forall t, vSearched v !! it = Some t -> t < failed_at e.
Proof.
  intros Hit. destruct (decided_spec v) as (_ & _ & _ & _ & _ & [_ Hr]).
  destruct (Hr it Hit) as (e & He & Hc & Ho). unfold owes_search in Ho. bools.
  do 2 (split; [done |]). split.
  { intros Hown. destruct (vMonitored v); [done |]. rewrite bool_decide_true in * by done. done. }
  exists e. split; [done |]. split; [done |]. intros t Ht. rewrite Ht in *. unfold Before in *. by bools.
Qed.

Definition ex_refused : View :=
  ex_view <| vTransfers := ∅ |> <| vStored := [ex_tombstone] |>.

Lemma Decide_redownloads_owed_witness :
  pRedownloads (Decide ex_refused) = [ex_owner] /\ map_true (vUnmonitored ex_refused) ex_owner = false.
Proof.
  assert (pRedownloads (Decide ex_refused) = [ex_owner]) as E by (vm_compute; reflexivity).
  split; [exact E |].
  apply (Decide_redownloads_owed ex_refused ex_owner). rewrite E. apply list_elem_of_here.
Defined.

(** A part set imports once, through its first part: [setImport] owes an
    import task or a MediaFile only for the part numbered 1, and only when every
    part of the set is done. *)
Theorem set_imports_through_part_one `{Unicode} `{Marshal} (v : View) (s : Cell) :
  let s' := snd (setImport v s) in
  let '(ndone, nof) := setDone (entries_now s) (cE s) (recordOf v) in
  (pImports (dPlan (cD s')) = pImports (dPlan (cD s)) /\
   pMaterialise (dPlan (cD s')) = pMaterialise (dPlan (cD s))) \/
  (set_part (cE s) = 1 /\ nof <= ndone).
Proof.
  intros s'. destruct (setDone _ _ _) as [ndone nof] eqn:Ed.
  assert (wp (setImport v) (fun _ s1 => same_imports s s1 \/ (set_part (cE s) = 1 /\ nof <= ndone)) s) as Hwp;
    [| by apply wp_iff in Hwp].
  unfold setImport. apply wp_bind, wp_gets, wp_bind, wp_gets. rewrite Ed.
  destruct (negb (set_part (cE s) =? 1)) eqn:Ep; bools.
  - lc; [| by left].
    eapply (wp_keeps same_imports); [apply same_imports_toImported |]. intros _ s1 Hs1. lc. left. exact Hs1.
  - destruct (ndone <? nof) eqn:En; bools; [lc; by left |].
    apply wp_any. by right.
Qed.
