(* ===== verification/LcIntentsFacts.v ===== *)
(** * The owner's annotations: parsing and acting once

    What a well-written annotation parses to, and the bookkeeping that makes a
    one-shot annotation act in exactly one pass. *)

From S2P Require Import Prelude GoLang Sha Api Names LcView LcChoose LcIntents LcState LcStep LcDecide.
From S2P Require Import LcFrame LcExample LcStepFacts LcMachine LcPass.
From Stdlib Require Import Ascii.

(** ** Words *)

(** A word: ASCII bytes, none of them a space. *)
Definition plain (a : ascii) : bool := in_range 0 127 a && negb (ascii_space a).
Definition word (w : string) : Prop := w <> "" /\ str_forall plain w = true.

Lemma plain_not_space w : str_forall plain w = true -> str_forall (fun a => negb (ascii_space a)) w = true.
Proof. apply str_forall_impl. intros a Ha. by apply andb_prop in Ha as [_ Ha]. Qed.

Lemma plain_ascii w : str_forall plain w = true -> is_ASCII w = true.
Proof. apply str_forall_impl. intros a Ha. by apply andb_prop in Ha as [Ha _]. Qed.

Lemma fields_func_word w rest :
  word w -> (rest = "" \/ exists r, rest = String " " r) ->
  fields_func ascii_space (w +:+ rest) = w :: fields_func ascii_space rest.
Proof.
  intros [Hne Hw%plain_not_space] Hrest. induction w as [| a w IH]; [done |]. cbn in Hw. bools.
  destruct w as [| b w].
  - rewrite app_cons, app_empty. cbn. rewrite H. by destruct Hrest as [-> | (r & ->)].
  - specialize (IH ltac:(done) H0). rewrite !app_cons in *. cbn in H0. bools.
    cbn [fields_func] in *. by rewrite H, H0 in *; rewrite IH.
Qed.

Lemma Fields_Join `{Unicode} ws : Forall word ws -> Fields (Join ws " ") = ws.
Proof.
  intros Hws. assert (is_ASCII (Join ws " ") = true /\ fields_func ascii_space (Join ws " ") = ws) as [Ha Hf];
    [| unfold Fields; by rewrite Ha].
  induction Hws as [| w ws Hw Hws [IHa IHf]]; [done |].
  destruct ws as [| w' ws].
  - cbn [Join]. split; [apply plain_ascii, Hw |].
    rewrite <- (str_app_nil w) at 1. rewrite fields_func_word; [done | done | by left].
  - change (Join (w :: w' :: ws) " ") with (w +:+ " " +:+ Join (w' :: ws) " "). split.
    + unfold is_ASCII in *. rewrite !str_forall_app, IHa.
      change (str_forall _ w) with (is_ASCII w). by rewrite (plain_ascii w) by apply Hw.
    + rewrite fields_func_word; [| done | by right; eexists].
      change (fields_func ascii_space (" " +:+ Join (w' :: ws) " "))
        with (fields_func ascii_space (Join (w' :: ws) " ")).
      by rewrite IHf.
Qed.

(** ** Splitting at a slash *)

Definition no_slash (s : string) : Prop := str_forall (fun a => negb (Ascii.eqb a "/")) s = true.

Lemma Cut_app s t : no_slash s -> Cut "/" (s +:+ "/" +:+ t) = (s, t, true).
Proof.
  unfold no_slash. induction s as [| a s IH]; [done |]. intros Hs. cbn in Hs. bools.
  rewrite app_cons. cbn. rewrite H. by rewrite IH.
Qed.

Lemma Cut_none s : no_slash s -> Cut "/" s = (s, "", false).
Proof.
  unfold no_slash. induction s as [| a s IH]; [done |]. cbn. intros Hs. bools.
  rewrite H. by rewrite IH.
Qed.

Lemma Split_none s : no_slash s -> Split "/" s = [s].
Proof.
  unfold no_slash. induction s as [| a s IH]; [done |]. cbn. intros Hs. bools.
  rewrite H. by rewrite IH.
Qed.

Lemma Split_app s t : no_slash s -> Split "/" (s +:+ "/" +:+ t) = s :: Split "/" t.
Proof.
  unfold no_slash. induction s as [| a s IH]; [done |]. intros Hs. cbn in Hs. bools.
  rewrite app_cons. cbn. rewrite H. by rewrite IH.
Qed.

Lemma TrimPrefix_app p s : TrimPrefix (p +:+ s) p = s /\ HasPrefix (p +:+ s) p = true.
Proof.
  assert (HasPrefix (p +:+ s) p = true) as Hp.
  { unfold HasPrefix. induction p as [| a p IH]; [by destruct s |]. rewrite app_cons. cbn.
    destruct (ascii_dec a a); [exact IH | done]. }
  split; [| done]. unfold TrimPrefix. rewrite Hp. clear Hp.
  induction p as [| a p IH]; [by destruct s | exact IH].
Qed.

(** ** Writing a one-shot annotation *)

Inductive OneShot :=
  | OSRemove (r : RemoveIntent)
  | OSResume (r : ResumeIntent)
  | OSImport (im : ImportIntent)
  | OSUnblock (u : UnblockIntent).

Definition os_annotation (o : OneShot) : string :=
  match o with
  | OSRemove _ => AnnotationDownloadRemove
  | OSResume _ => AnnotationDownloadResume
  | OSImport _ => AnnotationDownloadImport
  | OSUnblock _ => AnnotationDownloadUnblock
  end.

Definition target_token (t : ItemRef) (key : string) : string :=
  "target=" +:+ irKind t +:+ "/" +:+ irName t +:+ (if String.eqb key "" then "" else "/" +:+ key).

Definition unblock_token (u : UnblockIntent) : string :=
  if String.eqb (uiInfoHash u) "" then uiIndexer u +:+ "/" +:+ uiGUID u else uiInfoHash u.

Definition os_tokens (o : OneShot) : list string :=
  match o with
  | OSRemove r => [riNonce r; riID r] ++ (if riData r then ["data"] else [])
                  ++ (if riBlocklist r then ["blocklist"] else [])
  | OSResume r => [reNonce r; reID r]
  | OSImport im => [iiNonce im; iiID im]
                   ++ (match iiTarget im with Some t => [target_token t (iiTargetKey im)] | None => [] end)
                   ++ (if iiOverride im then ["override"] else [])
  | OSUnblock u => [uiNonce u; unblock_token u] ++ (if uiGlobal u then ["global"] else [])
  end.

Definition render (o : OneShot) : string := Join (os_tokens o) " ".

Definition install (o : OneShot) (i : Intents) : Intents :=
  match o with
  | OSRemove r => i <| inRemove := Some r |>
  | OSResume r => i <| inResume := Some r |>
  | OSImport im => i <| inImport := Some im |>
  | OSUnblock u => i <| inUnblock := Some u |>
  end.

Section Render.
Context `{Unicode}.

(** An intent its annotation can carry. *)
Definition target_ok (t : ItemRef) (key : string) : Prop :=
  kindName (irKind t) = irKind t /\ irRef t = mkRef "" (irName t) "" /\
  word (irKind t) /\ no_slash (irKind t) /\ word (irName t) /\ no_slash (irName t) /\
  str_forall plain key = true /\ no_slash key.

Definition os_ok (o : OneShot) : Prop :=
  match o with
  | OSRemove r => ValidNonce (riNonce r) = true /\ word (riID r)
  | OSResume r => ValidNonce (reNonce r) = true /\ word (reID r)
  | OSImport im => ValidNonce (iiNonce im) = true /\ word (iiID im) /\
      match iiTarget im with
      | Some t => target_ok t (iiTargetKey im)
      | None => iiTargetKey im = ""
      end
  | OSUnblock u => ValidNonce (uiNonce u) = true /\
      ((word (uiInfoHash u) /\ no_slash (uiInfoHash u) /\ ToLower (uiInfoHash u) = uiInfoHash u /\
        uiIndexer u = "" /\ uiGUID u = "") \/
       (uiInfoHash u = "" /\ word (uiIndexer u) /\ no_slash (uiIndexer u) /\ word (uiGUID u)))
  end.

Lemma nonce_word n : ValidNonce n = true -> word n.
Proof.
  destruct n as [| a n]; [done |]. unfold ValidNonce. intros Hn. bools. split; [done |].
  cbn. apply andb_true_intro. split.
  - revert H0. clear. by destruct a as [[] [] [] [] [] [] [] []].
  - revert H2. apply str_forall_impl. clear. intros a. by destruct a as [[] [] [] [] [] [] [] []].
Qed.

Lemma word_app_r a s t : str_forall plain (String a s) = true -> str_forall plain t = true ->
  word (String a s +:+ t).
Proof. intros Hs Ht. split; [done |]. by rewrite str_forall_app, Hs, Ht. Qed.

Lemma target_token_word t key : target_ok t key -> word (target_token t key).
Proof.
  intros (_ & _ & [_ Hk] & _ & [_ Hn] & _ & Hkey & _). unfold target_token.
  split; [done |]. rewrite !str_forall_app, Hk, Hn. destruct (String.eqb key ""); [done |].
  by rewrite str_forall_app, Hkey.
Qed.

Lemma unblock_pair_word u :
  uiInfoHash u = "" -> word (uiIndexer u) -> word (uiGUID u) -> word (unblock_token u).
Proof.
  unfold unblock_token. intros -> [Hn Hx] [_ Hg]. cbn.
  split; [by destruct (uiIndexer u) | by rewrite !str_forall_app, Hx, Hg].
Qed.

Lemma os_tokens_word o : os_ok o -> Forall word (os_tokens o).
Proof.
  destruct o as [r | r | im | u]; cbn; intros Hok; destruct_and!; destruct_or?; destruct_and?.
  all: repeat first
    [ apply Forall_nil_2 | apply Forall_cons_2 | apply Forall_app_2
    | by apply nonce_word | done | by apply target_token_word | case_match ].
  - unfold unblock_token. case_match; bools; [by destruct H2 |]. done.
  - by apply unblock_pair_word.
Qed.

(** The token loops read back the tokens. *)
Lemma remove_tokens_render n id d b :
  remove_tokens (mkRemoveIntent n id false false)
    ((if d : bool then ["data"] else []) ++ (if b : bool then ["blocklist"] else [])) =
  inl (mkRemoveIntent n id d b).
Proof. by destruct d, b. Qed.

Lemma unblock_tokens_render u g :
  uiGlobal u = false ->
  unblock_tokens u (if g : bool then ["global"] else []) = inl (u <| uiGlobal := g |>).
Proof. intros Hu. destruct g; [done |]. destruct u; cbn in *. by subst. Qed.

Lemma target_split t key :
  target_ok t key ->
  Split "/" (TrimPrefix (target_token t key) "target=") =
    irKind t :: irName t :: (if String.eqb key "" then [] else [key]) /\
  HasPrefix (target_token t key) "target=" = true /\
  String.eqb (target_token t key) "override" = false.
Proof.
  intros (_ & _ & _ & Hk & _ & Hn & _ & Hs). unfold target_token.
  destruct (TrimPrefix_app "target=" (irKind t +:+ "/" +:+ irName t +:+
    (if String.eqb key "" then "" else "/" +:+ key))) as [-> ->].
  split; [| by split]. rewrite Split_app by done. destruct (String.eqb key "").
  - rewrite str_app_nil. by rewrite Split_none.
  - rewrite Split_app by done. by rewrite Split_none.
Qed.

Lemma import_tokens_render im :
  match iiTarget im with Some t => target_ok t (iiTargetKey im) | None => iiTargetKey im = "" end ->
  import_tokens (mkImportIntent (iiNonce im) (iiID im) None "" false)
    ((match iiTarget im with Some t => [target_token t (iiTargetKey im)] | None => [] end)
     ++ (if iiOverride im then ["override"] else [])) = inl im.
Proof.
  destruct im as [n id [t |] key o]; cbn -[target_token HasPrefix TrimPrefix Split].
  - intros Ht. destruct (target_split t key Ht) as (Hs & Hp & Ho). rewrite Ho, Hp, Hs.
    destruct Ht as (Hk & Hr & [Hk0 _] & _ & [Hn0 _] & _).
    apply String.eqb_neq in Hk0, Hn0. rewrite Hk, <- Hr.
    destruct (String.eqb key "") eqn:Ek; rewrite Hk0, Hn0; bools; subst; destruct t; by destruct o.
  - intros ->. by destruct o.
Qed.

Lemma unblock_release_render u :
  os_ok (OSUnblock u) ->
  unblock_release (uiNonce u) (unblock_token u) = inl (u <| uiGlobal := false |>).
Proof.
  destruct u as [n h i g b]. unfold unblock_release, unblock_token. cbn -[Cut].
  intros [_ [([Hh _] & Hs & Hl & -> & ->) | (-> & [Hi _] & Hs & [Hg _])]].
  - apply String.eqb_neq in Hh. rewrite Hh, Cut_none by done. by rewrite Hl.
  - cbn -[Cut]. rewrite Cut_app by done. apply String.eqb_neq in Hi, Hg. by rewrite Hi, Hg.
Qed.
End Render.

(** ** Properties *)

(** Round trip: a one-shot annotation written from an intent (its nonce,
    its id or release, its flags and target) parses to that very intent, and
    reports nothing invalid. *)
Theorem parseOneShot_render `{Unicode} (i : Intents) (o : OneShot) :
  os_ok o -> parseOneShot i (os_annotation o) (render o) = (install o i, "").
Proof.
  intros Hok. unfold parseOneShot, render. rewrite Fields_Join by by apply os_tokens_word.
  destruct o as [r | r | im | u]; cbn [os_tokens app os_annotation].
  - destruct Hok as [-> _]. cbn -[remove_tokens]. rewrite remove_tokens_render. by destruct r.
  - destruct Hok as [-> _]. cbn. by destruct r.
  - destruct Hok as (-> & _ & Ht). cbn -[import_tokens]. by rewrite import_tokens_render.
  - pose proof (proj1 Hok) as ->. cbn -[unblock_release unblock_tokens].
    rewrite (unblock_release_render u Hok), unblock_tokens_render by done. by destruct u.
Qed.

Lemma parseOneShot_render_witness :
  let im := mkImportIntent "n1" "heat-1" (Some (mkItemRef "Episode" (mkRef "" "show" ""))) "s01e02" true in
  render (OSImport im) = "n1 heat-1 target=Episode/show/s01e02 override" /\
  parseOneShot no_intents AnnotationDownloadImport (render (OSImport im)) =
    (install (OSImport im) no_intents, "").
Proof.
  split; [reflexivity |]. apply (parseOneShot_render no_intents (OSImport _)).
  repeat split; first [reflexivity | discriminate].
Defined.
