(* ===== verification/LcNonces.v ===== *)
(** * A one-shot annotation acts once

    [downloadNonces] records the nonce of every annotation the pass handled.
    Whatever the annotations hold, after a pass none of them is pending (an
    unblock waits for its confirmation), and a pass none is pending for leaves
    the entries and the plan alone. *)

From S2P Require Import Prelude GoLang Sha Api Names LcView LcChoose LcIntents LcState LcStep LcDecide.
From S2P Require Import LcFrame LcExample LcStepFacts LcMachine LcPass.
From Stdlib Require Import Ascii.

(** ** What parsing guarantees *)

(** Annotation [a] parsed, or was reported, exactly if it has a value. *)
Definition accounted (i : Intents) (a : string) : Prop :=
  (is_Some (parsed_nonce i a) -> map_str (inRaw i) a <> "") /\
  (map_str (inRaw i) a <> "" ->
   is_Some (parsed_nonce i a) \/ exists inv, inv ∈ inInvalid i /\ ivAnnotation inv = a).

Definition one_shot (a : string) : Prop := a ∈ one_shots.

Lemma one_shot_cases a : one_shot a ->
  a = AnnotationDownloadRemove \/ a = AnnotationDownloadResume \/
  a = AnnotationDownloadImport \/ a = AnnotationDownloadUnblock.
Proof.
  unfold one_shot, one_shots. intros Ha.
  repeat (apply elem_of_cons in Ha as [Ha | Ha]; [tauto |]). by apply not_elem_of_nil in Ha.
Qed.

Section Parse.
Context `{Unicode}.

Lemma remove_tokens_reason r rest why : remove_tokens r rest = inr why -> why <> "".
Proof.
  revert r. induction rest as [| t rest IH]; intros r; cbn; [done |].
  repeat case_match; first [apply IH | by intros [= <-]].
Qed.

Lemma import_tokens_reason im rest why : import_tokens im rest = inr why -> why <> "".
Proof.
  revert im. induction rest as [| t rest IH]; intros im; cbn; [done |].
  repeat case_match; first [apply IH | by intros [= <-]].
Qed.

Lemma unblock_tokens_reason u rest why : unblock_tokens u rest = inr why -> why <> "".
Proof.
  revert u. induction rest as [| t rest IH]; intros u; cbn; [done |].
  case_match; [apply IH | by intros [= <-]].
Qed.

Lemma unblock_release_reason n id why : unblock_release n id = inr why -> why <> "".
Proof. unfold unblock_release. repeat case_match; by intros [= <-]. Qed.

(** The intents a one-shot value gives: only its own is set. *)
Lemma parseOneShot_sets i a v i' why :
  one_shot a -> parseOneShot i a v = (i', why) ->
  inRaw i' = inRaw i /\ inInvalid i' = inInvalid i /\
  (forall b, one_shot b -> b <> a -> parsed_nonce i' b = parsed_nonce i b) /\
  (why = "" -> is_Some (parsed_nonce i' a)).
Proof.
  intros Ha. unfold parseOneShot.
  assert (forall w, w <> "" -> (i, w) = (i', why) ->
    inRaw i' = inRaw i /\ inInvalid i' = inInvalid i /\
    (forall b, one_shot b -> b <> a -> parsed_nonce i' b = parsed_nonce i b) /\
    (why = "" -> is_Some (parsed_nonce i' a))) as Hbad by by intros w Hw [= <- <-].
  repeat case_match; try (by apply Hbad);
    try (apply Hbad; first [by eapply remove_tokens_reason | by eapply import_tokens_reason
           | by eapply unblock_tokens_reason | by eapply unblock_release_reason]).
  all: bools; subst; try (intros [= <- <-]; do 2 (split; [done |]); split; [| by eexists]).
  all: try (intros b Hb Hne; destruct (one_shot_cases b Hb) as [-> | [-> | [-> | ->]]]; done).
  destruct (one_shot_cases a Ha) as [-> | [-> | [-> | ->]]]; done.
Qed.

Lemma parse_one_accounted ann i a :
  one_shot a -> (forall b, one_shot b -> accounted i b) ->
  forall b, one_shot b -> accounted (parse_one ann i a) b.
Proof.
  intros Ha Hacc b Hb. unfold parse_one. destruct (ann !! a) as [w |]; [| by apply Hacc].
  destruct (String.eqb w "") eqn:Ew; [by apply Hacc |]. bools.
  set (i1 := i <| inRaw ::= <[a := w]> |>).
  destruct (parseOneShot i1 a w) as [i2 why] eqn:Ep.
  destruct (parseOneShot_sets i1 a w i2 why Ha Ep) as (Hraw & Hinv & Hoth & Hok).
  assert (map_str (inRaw i1) a = w) as Hmap by (unfold map_str, i1; cbn; by rewrite lookup_insert_eq).
  destruct (decide (b = a)) as [-> | Hne].
  - destruct (String.eqb why "") eqn:Ey; bools; unfold accounted; cbn; rewrite Hraw, Hmap.
    + split; [done |]. intros _. left. by apply Hok.
    + split; [done |]. intros _. right. eexists. split; [apply elem_of_app; right; apply list_elem_of_here |]. done.
  - assert (parsed_nonce i2 b = parsed_nonce i b) as Hpn by (rewrite Hoth by done; done).
    assert (map_str (inRaw i2) b = map_str (inRaw i) b) as Hmb.
    { rewrite Hraw. unfold map_str, i1. cbn. by rewrite lookup_insert_ne by congruence. }
    destruct (Hacc b Hb) as [H1 H2].
    destruct (String.eqb why ""); unfold accounted; cbn.
    + change (is_Some (parsed_nonce i2 b)) with (is_Some (parsed_nonce i2 b)). rewrite Hpn, Hmb, Hinv. by split.
    + replace (parsed_nonce (i2 <| inInvalid ::= _ |>) b) with (parsed_nonce i2 b) by done.
      rewrite Hpn, Hmb, Hinv. split; [exact H1 |].
      intros Hm. destruct (H2 Hm) as [? | (inv & Hin & Hia)]; [by left |].
      right. exists inv. split; [apply elem_of_app; by left | done].
Qed.

Lemma parse_priority_fold w l i :
  inRaw (fold_left (parse_priority w) l i) = inRaw i /\
  forall b, parsed_nonce (fold_left (parse_priority w) l i) b = parsed_nonce i b.
Proof.
  revert i. induction l as [| kv l IH]; intros i; cbn; [done |].
  destruct (IH (parse_priority w i kv)) as [-> Hb].
  assert (inRaw (parse_priority w i kv) = inRaw i /\
          forall b, parsed_nonce (parse_priority w i kv) b = parsed_nonce i b) as [-> Hp].
  { unfold parse_priority. destruct (Cut _ kv) as [[id p] ok]. by case_match. }
  split; [done |]. intros b. by rewrite Hb.
Qed.

Lemma ParseIntents_accounted ann a : one_shot a -> accounted (ParseIntents ann) a.
Proof.
  revert a. unfold ParseIntents. set (i0 := if String.eqb (map_str ann AnnotationDownloadPriority) "" then _ else _).
  assert (forall a, one_shot a -> accounted i0 a) as H0.
  { assert (inRaw i0 = ∅ /\ forall b, parsed_nonce i0 b = parsed_nonce no_intents b) as [Hr Hp].
    { unfold i0. repeat case_match; try done.
      all: match goal with |- inRaw (fold_left ?f ?l ?i) = _ /\ _ =>
             destruct (parse_priority_fold (map_str ann AnnotationDownloadPriority) l i) as [-> Hp] end.
      all: by split; [| intros b; rewrite Hp]. }
    intros a Ha. unfold accounted. rewrite Hr, Hp.
    split; [| by unfold map_str; rewrite lookup_empty].
    destruct (one_shot_cases a Ha) as [-> | [-> | [-> | ->]]]; cbn; by intros [? ?]. }
  clearbody i0.
  assert (forall l i, (forall b, b ∈ l -> one_shot b) -> (forall b, one_shot b -> accounted i b) ->
    forall a, one_shot a -> accounted (fold_left (parse_one ann) l i) a) as Hfold.
  { induction l as [| b l IH]; intros i Hl Hi; cbn; [done |]. apply IH; [intros c Hc; apply Hl; by right |].
    apply parse_one_accounted; [apply Hl; by left | done]. }
  by apply Hfold.
Qed.
End Parse.

(** ** The bookkeeping of a pass *)

Definition handled (i : Intents) (n : DownloadNonces) (a : string) : Prop :=
  forall rec, nonceField n a = Some rec -> pending i a rec = false.

Section Nonces.
Context `{Unicode} `{Marshal} (v : View).
Abbreviation iv := (vIntents v).

Hypothesis Hacc : forall a, one_shot a -> accounted iv a.

(** [n'] differs from [n] only where it records the annotation's own nonce. *)
Definition records (n n' : DownloadNonces) : Prop :=
  forall a, one_shot a ->
    nonceField n' a = nonceField n a \/ nonceField n' a = Some (NonceKey iv a).

#[local] Instance records_pre : PreOrder records.
Proof.
  split; [by intros n a; left |]. intros n1 n2 n3 H1 H2 a Ha.
  destruct (H2 a Ha) as [-> | ->]; [by apply H1 | by right].
Qed.

Lemma handled_records n n' a : one_shot a -> records n n' -> handled iv n a -> handled iv n' a.
Proof.
  intros Ha Hr Hh rec Hrec. destruct (Hr a Ha) as [E | E].
  - apply Hh. congruence.
  - assert (rec = NonceKey iv a) as -> by congruence. unfold pending.
    by rewrite String.eqb_refl, andb_false_r.
Qed.

Lemma nonceField_set n a b k : one_shot a ->
  nonceField (set_nonceField n a k) b = if String.eqb b a then Some k else nonceField n b.
Proof.
  intros Ha. unfold set_nonceField, nonceField.
  destruct (one_shot_cases a Ha) as [-> | [-> | [-> | ->]]]; cbn [String.eqb];
    repeat match goal with
    | |- context [String.eqb ?x ?y] => destruct (String.eqb x y) eqn:?
    end; bools; subst; try done; by destruct n.
Qed.

(** The nonce an intent records is its annotation's key. *)
Lemma parsed_key a k : one_shot a -> parsed_nonce iv a = Some k -> NonceKey iv a = k.
Proof.
  intros Ha Hk. unfold NonceKey. rewrite Hk.
  assert (map_str (inRaw iv) a <> "") as Hr by (apply (Hacc a Ha); by eexists).
  apply String.eqb_neq in Hr. by rewrite Hr.
Qed.

Lemma records_set n a : one_shot a -> records n (set_nonceField n a (NonceKey iv a)).
Proof.
  intros Ha b Hb. rewrite nonceField_set by done.
  destruct (String.eqb b a) eqn:E; bools; [subst; by right | by left].
Qed.

Lemma handled_set n a : one_shot a -> handled iv (set_nonceField n a (NonceKey iv a)) a.
Proof.
  intros Ha rec. rewrite nonceField_set by done. rewrite String.eqb_refl.
  intros [= <-]. unfold pending. by rewrite String.eqb_refl, andb_false_r.
Qed.

Lemma run_at_nonces i m p : keeps frame m -> nonces (run_at i m p) = nonces p.
Proof.
  intros Hm. unfold run_at, nonces. destruct (psEntries p !! i) as [e |]; [| done].
  by destruct (Hm (mkCell (psD p) e)) as [_ (Hn & _)].
Qed.

Lemma nonces_psEvent a b c p : nonces (psEvent a b c p) = nonces p.
Proof. done. Qed.

Lemma nonces_psNonces f p : nonces (psNonces f p) = f (nonces p).
Proof. done. Qed.

Lemma invalid_records p inv :
  records (nonces p) (nonces (intent_invalid v p inv)) /\
  handled iv (nonces (intent_invalid v p inv)) (ivAnnotation inv).
Proof.
  unfold intent_invalid. destruct (nonceField (nonces p) (ivAnnotation inv)) as [rec |] eqn:Ef.
  - assert (one_shot (ivAnnotation inv)) as Ha.
    { unfold nonceField in Ef. unfold one_shot, one_shots.
      repeat case_match; bools; simplify_eq; rewrite ?elem_of_cons; tauto. }
    destruct (negb _) eqn:Ep; bools.
    + split; [reflexivity |]. intros rec' Hrec. congruence.
    + rewrite nonces_psEvent, nonces_psNonces.
      split; [by apply records_set | by apply handled_set].
  - split; [reflexivity |]. intros rec Hrec. congruence.
Qed.

Lemma invalids_records l p :
  records (nonces p) (nonces (fold_left (intent_invalid v) l p)) /\
  forall inv, inv ∈ l -> one_shot (ivAnnotation inv) ->
    handled iv (nonces (fold_left (intent_invalid v) l p)) (ivAnnotation inv).
Proof.
  revert p. induction l as [| x l IH]; intros p; cbn.
  - split; [reflexivity |]. intros inv Hin. by apply not_elem_of_nil in Hin.
  - destruct (IH (intent_invalid v p x)) as [Hr Hh], (invalid_records p x) as [Hrx Hhx].
    split; [by etransitivity |]. intros inv [-> | Hin]%elem_of_cons Ha; [| by apply Hh].
    by eapply handled_records.
Qed.

(** What one intent does to the nonces: nothing when it is not pending, else
    it records its key. *)
Definition intent_records (a : string) (p q : Pass) : Prop :=
  records (nonces p) (nonces q) /\ (is_Some (parsed_nonce iv a) -> handled iv (nonces q) a).

Lemma not_pending_handled n a rec :
  nonceField n a = Some rec -> pending iv a rec = false -> handled iv n a.
Proof. intros Hn Hp rec' Hr. congruence. Qed.

Lemma intent_recorded a k p q :
  one_shot a -> parsed_nonce iv a = Some k ->
  nonces q = set_nonceField (nonces p) a k -> intent_records a p q.
Proof.
  intros Ha Hk Hq. rewrite <- (parsed_key a k Ha Hk) in Hq. unfold intent_records. rewrite Hq.
  split; [by apply records_set | intros _; by apply handled_set].
Qed.

Lemma intent_skipped a p :
  parsed_nonce iv a = None \/ handled iv (nonces p) a -> intent_records a p p.
Proof. intros Hp. split; [reflexivity |]. intros [k Hk]. destruct Hp; [congruence | done]. Qed.

Lemma remove_records p : intent_records AnnotationDownloadRemove p (intent_remove v p).
Proof.
  unfold intent_remove. destruct (inRemove iv) as [r |] eqn:Er.
  - destruct (negb (pending _ _ _)) eqn:Ep; bools.
    + apply intent_skipped. right. by eapply not_pending_handled.
    + apply (intent_recorded _ (riNonce r)); [by left | unfold parsed_nonce; cbn; by rewrite Er |].
      destruct (findEntry _ _); [| done]. rewrite run_at_nonces; [done |]. keeps.
  - apply intent_skipped. left. unfold parsed_nonce. cbn. by rewrite Er.
Qed.

Lemma resume_records p : intent_records AnnotationDownloadResume p (intent_resume v p).
Proof.
  unfold intent_resume. destruct (inResume iv) as [r |] eqn:Er.
  - destruct (negb (pending _ _ _)) eqn:Ep; bools.
    + apply intent_skipped. right. by eapply not_pending_handled.
    + apply (intent_recorded _ (reNonce r)); [by right; left | unfold parsed_nonce; cbn; by rewrite Er |].
      case_match; [| done]. rewrite run_at_nonces; [done |]. keeps.
  - apply intent_skipped. left. unfold parsed_nonce. cbn. by rewrite Er.
Qed.

Lemma import_records p : intent_records AnnotationDownloadImport p (intent_import v p).
Proof.
  unfold intent_import. destruct (inImport iv) as [r |] eqn:Er.
  - destruct (negb (pending _ _ _)) eqn:Ep; bools.
    + apply intent_skipped. right. by eapply not_pending_handled.
    + apply (intent_recorded _ (iiNonce r)); [by right; right; left | unfold parsed_nonce; cbn; by rewrite Er |].
      by case_match.
  - apply intent_skipped. left. unfold parsed_nonce. cbn. by rewrite Er.
Qed.

(** An unblock is recorded once the release index confirmed it. *)
Lemma unblock_records p :
  records (nonces p) (nonces (intent_unblock v p)) /\
  (forall u, inUnblock iv = Some u -> map_true (vUnblocked v) (uiNonce u) = true ->
     handled iv (nonces (intent_unblock v p)) AnnotationDownloadUnblock).
Proof.
  unfold intent_unblock. destruct (inUnblock iv) as [u |] eqn:Er; [| by split].
  destruct (negb (pending _ _ _)) eqn:Ep; bools.
  - split; [reflexivity |]. intros ? _ _. by eapply not_pending_handled.
  - destruct (map_true _ (uiNonce u)) eqn:Eu.
    + destruct (intent_recorded AnnotationDownloadUnblock (uiNonce u) p
        (psNonces (fun n => n <| dnUnblock := uiNonce u |>) p)) as [Hr Hh];
        [by right; right; right; left | unfold parsed_nonce; cbn; by rewrite Er | done |].
      split; [exact Hr |]. intros ? _ _. apply Hh. unfold parsed_nonce. cbn. by rewrite Er.
    + split; [| intros ? [= <-]; congruence].
      unfold nonces. cbn -[d_at]. lazymatch goal with |- context [d_at v ?t ?d] =>
        destruct (d_at_run v t d) as [-> | (t' & -> & _)] end; reflexivity.
Qed.
End Nonces.

(** ** The rest of the pass leaves the nonces alone *)

Section Rest.
Context `{Unicode} `{Marshal} (v : View).

Lemma nonces_fold {A} (f : Pass -> A -> Pass) l p :
  (forall q a, nonces (f q a) = nonces q) -> nonces (fold_left f l p) = nonces p.
Proof. intros Hf. revert p. induction l as [| a l IH]; intros p; cbn; [done |]. by rewrite IH. Qed.

Lemma supersede_nonces p : nonces (supersede v p) = nonces p.
Proof.
  apply nonces_fold. intros q i. unfold supersede_pack.
  destruct (psEntries q !! i) as [e |]; [| done]. destruct (negb _); [done |].
  apply nonces_fold. intros q1 j. unfold supersede_one.
  destruct (psEntries q1 !! j); [| done]. destruct (_ || _); [done |].
  apply run_at_nonces. keeps.
Qed.

Lemma deleting_nonces p : nonces (deleting v p) = nonces p.
Proof.
  unfold deleting. destruct (vDeleting v); [| done]. apply nonces_fold. intros q i.
  unfold delete_one. destruct (psEntries q !! i); [| done]. destruct (live _); [| done].
  apply run_at_nonces. keeps.
Qed.

Lemma steps_nonces p : nonces (steps v p) = nonces p.
Proof.
  destruct (steps_spec v (fun d => pNonces (dPlan d) = nonces p)) with (ps := p) as (rs & _ & _ & Hn);
    [by intros d i | by intros d i e | | done | exact Hn].
  intros s Hs. destruct (keeps_step v frame s) as [_ (Hn & _)]. by rewrite Hn.
Qed.

Lemma converge_nonces p : nonces (converge v p) = nonces p.
Proof.
  apply nonces_fold. intros q t. unfold converge_one.
  assert (forall rec claim why d, pNonces (dPlan (removeUnclaimed v rec claim why d)) = pNonces (dPlan d)) as Hr.
  { intros. unfold removeUnclaimed. destruct (splitEngine _) as [[? ?] ?].
    lazymatch goal with |- context [d_at v ?t ?d] =>
      destruct (d_at_run v t d) as [-> | (t' & -> & _)] end; reflexivity. }
  repeat case_match; unfold nonces; try done; try apply Hr.
  cbn [psD]. lazymatch goal with |- context [issue v ?s] =>
    destruct (keeps_issue v frame s) as [_ (Hn & _)] end. by rewrite Hn.
Qed.

Lemma Decide_nonces :
  pNonces (Decide v) = nonces (intents v (mkPass (admitted v) (init_decider v))).
Proof.
  change (pNonces (Decide v)) with (nonces (decided v)). unfold decided, prepared.
  by rewrite converge_nonces, steps_nonces, deleting_nonces, supersede_nonces.
Qed.

(** Every annotation with a value is handled, an unblock once confirmed. *)
Lemma intents_handled p a :
  (forall b, one_shot b -> accounted (vIntents v) b) -> one_shot a ->
  (forall u, a = AnnotationDownloadUnblock -> inUnblock (vIntents v) = Some u ->
     map_true (vUnblocked v) (uiNonce u) = true) ->
  handled (vIntents v) (nonces (intents v p)) a.
Proof.
  intros Hacc Ha Hu. unfold intents. set (p1 := fold_left _ _ p).
  pose proof (invalids_records v (inInvalid (vIntents v)) p) as [_ Hinv].
  destruct (remove_records v Hacc p1) as [R1 H1].
  destruct (resume_records v Hacc (intent_remove v p1)) as [R2 H2].
  destruct (import_records v Hacc (intent_resume v (intent_remove v p1))) as [R3 H3].
  destruct (unblock_records v Hacc (intent_import v (intent_resume v (intent_remove v p1)))) as [R4 H4].
  assert (forall n1 n2, records v n1 n2 -> handled (vIntents v) n1 a -> handled (vIntents v) n2 a) as Htr.
  { intros n1 n2 Hr. by apply handled_records. }
  destruct (String.eqb (map_str (inRaw (vIntents v)) a) "") eqn:Er; bools.
  { intros rec _. unfold pending, NonceKey. by rewrite Er. }
  destruct (proj2 (Hacc a Ha) Er) as [Hs | (inv & Hin & <-)].
  - destruct (one_shot_cases a Ha) as [-> | [-> | [-> | ->]]].
    + eapply Htr; [exact R4 |]. eapply Htr; [exact R3 |]. eapply Htr; [exact R2 |]. auto.
    + eapply Htr; [exact R4 |]. eapply Htr; [exact R3 |]. auto.
    + eapply Htr; [exact R4 |]. auto.
    + destruct Hs as [k Hk]. unfold parsed_nonce in Hk. cbn in Hk.
      destruct (inUnblock (vIntents v)) as [u |] eqn:Eu; [| done]. eapply H4; [done |]. by apply Hu.
  - eapply Htr; [exact R4 |]. eapply Htr; [exact R3 |]. eapply Htr; [exact R2 |].
    eapply Htr; [exact R1 |]. by apply Hinv.
Qed.
End Rest.

(** ** Properties *)

(** Every one-shot annotation is handled in the pass that sees it, valid or
    not: the plan's nonces leave none pending (an unblock only once the release
    index confirmed it). *)
Theorem Decide_handles_intents `{Unicode} `{Marshal} (v : View) annotations a :
  vIntents v = ParseIntents annotations -> one_shot a ->
  (forall u, a = AnnotationDownloadUnblock -> inUnblock (vIntents v) = Some u ->
     map_true (vUnblocked v) (uiNonce u) = true) ->
  exists n, nonceField (pNonces (Decide v)) a = Some n /\ pending (vIntents v) a n = false.
Proof.
  intros Hi Ha Hu. rewrite Decide_nonces.
  assert (handled (vIntents v) (nonces (intents v (mkPass (admitted v) (init_decider v)))) a) as Hh.
  { apply intents_handled; [| done | done]. intros b Hb. rewrite Hi. by apply ParseIntents_accounted. }
  destruct (nonceField _ a) as [n |] eqn:En; [exists n; split; [done | by apply Hh] |].
  by destruct (one_shot_cases a Ha) as [-> | [-> | [-> | ->]]].
Qed.

Definition ex_asked : View :=
  ex_view <| vIntents := ParseIntents {[ AnnotationDownloadRemove := "n1 heat-1 data";
                                         AnnotationDownloadResume := "n 2" ]} |>.

Lemma Decide_handles_intents_witness :
  dnRemove (pNonces (Decide ex_asked)) = "n1" /\
  exists n, nonceField (pNonces (Decide ex_asked)) AnnotationDownloadRemove = Some n /\
    pending (vIntents ex_asked) AnnotationDownloadRemove n = false.
Proof.
  split; [vm_compute; reflexivity |].
  eapply (Decide_handles_intents ex_asked); [reflexivity | by left | discriminate].
Defined.

(** A handled annotation never acts again: when no one-shot annotation is
    pending against the recorded nonces, the intents change neither an entry
    nor the plan. *)
Theorem handled_intents_do_nothing `{Unicode} `{Marshal} (v : View) p :
  (forall a, one_shot a -> handled (vIntents v) (nonces p) a) ->
  intents v p = p.
Proof.
  intros Hh.
  assert (forall a n, one_shot a -> nonceField (nonces p) a = Some n -> pending (vIntents v) a n = false)
    as Hp by (intros a n Ha; by apply Hh).
  unfold intents.
  assert (forall l, fold_left (intent_invalid v) l p = p) as ->.
  { induction l as [| inv l IH]; [done |]. cbn. replace (intent_invalid v p inv) with p; [done |].
    unfold intent_invalid. destruct (nonceField (nonces p) (ivAnnotation inv)) as [n |] eqn:En; [| done].
    rewrite (Hh (ivAnnotation inv)); [done | | done].
    unfold nonceField in En. unfold one_shot, one_shots.
    repeat case_match; bools; simplify_eq; rewrite ?elem_of_cons; tauto. }
  assert (intent_remove v p = p) as ->.
  { unfold intent_remove. case_match; [| done]. by rewrite (Hp AnnotationDownloadRemove) by (by left || done). }
  assert (intent_resume v p = p) as ->.
  { unfold intent_resume. case_match; [| done]. by rewrite (Hp AnnotationDownloadResume) by (done || (by right; left)). }
  assert (intent_import v p = p) as ->.
  { unfold intent_import. case_match; [| done]. by rewrite (Hp AnnotationDownloadImport) by (done || (by right; right; left)). }
  unfold intent_unblock. case_match; [| done].
  by rewrite (Hp AnnotationDownloadUnblock) by (done || (by right; right; right; left)).
Qed.

Lemma handled_intents_do_nothing_witness :
  let p := mkPass [ex_entry] (init_decider (ex_asked <| vNonces := pNonces (Decide ex_asked) |>)) in
  intents ex_asked p = p.
Proof.
  apply (handled_intents_do_nothing ex_asked). intros a Ha rec.
  destruct (one_shot_cases a Ha) as [-> | [-> | [-> | ->]]]; vm_compute; by intros [= <-].
Defined.

(** An invalid priority annotation is passed over in silence: whatever is
    invalid in it, the intents record no nonce, raise no event and change no
    entry for it. *)
Theorem invalid_priority_is_silent `{Unicode} `{Marshal} (v : View) p w :
  vIntents v = ParseIntents {[ AnnotationDownloadPriority := w ]} ->
  intents v p = p.
Proof.
  intros Hi. apply handled_intents_do_nothing. intros a Ha rec _. rewrite Hi.
  unfold pending, NonceKey.
  set (ann := {[ AnnotationDownloadPriority := w ]} : gmap string string).
  assert (forall i b, one_shot b -> parse_one ann i b = i) as Hskip.
  { intros i b Hb. unfold parse_one, ann. rewrite lookup_singleton_ne; [done |].
    by destruct (one_shot_cases b Hb) as [-> | [-> | [-> | ->]]]. }
  assert (map_str (inRaw (ParseIntents ann)) a = "") as ->; [| done].
  unfold ParseIntents, one_shots. cbn [fold_left].
  rewrite !Hskip by (unfold one_shot, one_shots; rewrite !elem_of_cons; tauto).
  assert (map_str ann AnnotationDownloadPaused = "") as ->
    by (unfold map_str, ann; by rewrite lookup_singleton_ne).
  cbn [String.eqb].
  case_match; [by unfold map_str; cbn; rewrite lookup_empty |].
  destruct (parse_priority_fold (map_str ann AnnotationDownloadPriority)
    (fields (map_str ann AnnotationDownloadPriority)) no_intents) as [-> _].
  unfold map_str; cbn; by rewrite lookup_empty.
Qed.

Lemma invalid_priority_is_silent_witness :
  let v := ex_view <| vIntents := ParseIntents {[ AnnotationDownloadPriority := "heat-1=urgent" ]} |> in
  let p := mkPass [ex_entry] (init_decider v) in
  length (inInvalid (vIntents v)) = 1%nat /\ intents v p = p.
Proof.
  split; [vm_compute; reflexivity |].
  eapply (invalid_priority_is_silent _ _ "heat-1=urgent"). reflexivity.
Defined.
