(* ===== verification/LcChooseFacts.v ===== *)
(** * Choosing a client and an engine; the active entry

    The selection loops keep a best candidate; one lemma about such loops gives
    the specification of [ChooseClient], of [ChooseOrdinal]'s least-loaded rule
    and of [activePhase].  [splitEngine] inverts [EngineName]. *)

From S2P Require Import Prelude GoLang GoFacts Sha Api Names LcView LcChoose LcIntents LcState LcExample.
From Stdlib Require Import Ascii.

(** ** A loop that keeps the best *)

Section Best.
Context {A : Type} (ok : A -> bool) (lt : A -> A -> bool).
Hypothesis lt_irrefl : forall x, lt x x = false.
Hypothesis lt_trans : forall x y z, lt x y = true -> lt y z = true -> lt x z = true.

Definition best_step (best : option A) (x : A) : option A :=
  if negb (ok x) then best
  else match best with None => Some x | Some b => if lt x b then Some x else best end.

(** The best of [l]: ok, listed, and nothing ok is before it. *)
Definition is_best (l : list A) (r : option A) : Prop :=
  match r with
  | Some b => b ∈ l /\ ok b = true /\ forall x, x ∈ l -> ok x = true -> lt x b = false
  | None => forall x, x ∈ l -> ok x = false
  end.

Lemma best_step_spec l r x : is_best l r -> is_best (l ++ [x]) (best_step r x).
Proof.
  unfold best_step. intros Hr. destruct (ok x) eqn:Hx; cbn.
  - destruct r as [b |]; cbn in *.
    + destruct Hr as (Hb & Hok & Hmin). destruct (lt x b) eqn:Hlt; cbn.
      * split; [apply elem_of_app; right; apply list_elem_of_here |]. split; [done |].
        intros y [Hy | ->%list_elem_of_singleton]%elem_of_app Hoky; [| apply lt_irrefl].
        destruct (lt y x) eqn:Hyx; [| done]. rewrite <- (Hmin y Hy Hoky). symmetry. by eapply lt_trans.
      * split; [apply elem_of_app; by left |]. split; [done |].
        intros y [Hy | ->%list_elem_of_singleton]%elem_of_app Hoky; [by apply Hmin | done].
    + split; [apply elem_of_app; right; apply list_elem_of_here |]. split; [done |].
      intros y [Hy | ->%list_elem_of_singleton]%elem_of_app Hoky; [| apply lt_irrefl].
      specialize (Hr y Hy). congruence.
  - destruct r as [b |]; cbn in *.
    + destruct Hr as (Hb & Hok & Hmin). split; [apply elem_of_app; by left |]. split; [done |].
      intros y [Hy | ->%list_elem_of_singleton]%elem_of_app Hoky; [by apply Hmin | congruence].
    + intros y [Hy | ->%list_elem_of_singleton]%elem_of_app; auto.
Qed.

Lemma best_fold_spec l : is_best l (fold_left best_step l None).
Proof.
  assert (forall k r, is_best k r -> is_best (k ++ l) (fold_left best_step l r)) as Hgen.
  { induction l as [| x l' IH]; intros k r Hr; cbn; [by rewrite app_nil_r |].
    replace (k ++ x :: l') with ((k ++ [x]) ++ l') by by rewrite <- app_assoc.
    by apply IH, best_step_spec. }
  apply (Hgen [] None). intros x Hx. by apply not_elem_of_nil in Hx.
Qed.
End Best.

(** ** Orders *)

(** Lexicographic on a number, then a name. *)
Definition lex (k1 : Z) (s1 : string) (k2 : Z) (s2 : string) : bool :=
  (k1 <? k2) || ((k1 =? k2) && String.ltb s1 s2).

Lemma lex_irrefl k s : lex k s k s = false.
Proof. unfold lex. by rewrite Z.ltb_irrefl, string_ltb_irrefl, andb_false_r. Qed.

Lemma lex_trans k1 s1 k2 s2 k3 s3 :
  lex k1 s1 k2 s2 = true -> lex k2 s2 k3 s3 = true -> lex k1 s1 k3 s3 = true.
Proof.
  unfold lex. intros H1%orb_prop H2%orb_prop. apply orb_true_intro.
  destruct H1 as [H1 | H1], H2 as [H2 | H2]; bools; try (left; apply Z.ltb_lt; lia).
  right. apply andb_true_intro. split; [apply Z.eqb_eq; lia | by eapply string_ltb_trans].
Qed.

(** ** ChooseClient *)

Lemma choose_step_best protocol b c :
  choose_step protocol b c = best_step (eligible protocol) better_client b c.
Proof. reflexivity. Qed.

Lemma better_client_order :
  (forall c, better_client c c = false) /\
  (forall c1 c2 c3, better_client c1 c2 = true -> better_client c2 c3 = true -> better_client c1 c3 = true).
Proof.
  split; [intros c; apply lex_irrefl | intros c1 c2 c3; apply lex_trans].
Qed.

(** The client the entry's indexer names, when it can take the grab. *)
Definition named_client (clients : list Client) (protocol : Protocol) (ref : string) (c : Client) : Prop :=
  ref <> "" /\ c ∈ clients /\ clName c = ref /\ eligible protocol c = true.

(** ** activePhase *)

Definition active_before (e b : DownloadEntry) : bool := grabbed_before e b.

Lemma grabbed_before_order :
  (forall e, grabbed_before e e = false) /\
  (forall e1 e2 e3, grabbed_before e1 e2 = true -> grabbed_before e2 e3 = true -> grabbed_before e1 e3 = true).
Proof.
  split; [intros e; apply lex_irrefl | intros e1 e2 e3; apply lex_trans].
Qed.

(** ** Properties *)

(** [ChooseClient] fails exactly when no client is enabled for the
    protocol.  Otherwise it takes such a client: the one the indexer names, or,
    when the indexer names none that can, one no other precedes by (priority,
    name). *)
Theorem ChooseClient_spec (clients : list Client) (protocol : Protocol) (ref : string) :
  match ChooseClient clients protocol ref with
  | Some c => c ∈ clients /\ eligible protocol c = true /\
      (named_client clients protocol ref c \/
       (~ (exists c', named_client clients protocol ref c')) /\
       forall c', c' ∈ clients -> eligible protocol c' = true -> better_client c' c = false)
  | None => forall c, c ∈ clients -> eligible protocol c = false
  end.
Proof.
  unfold ChooseClient.
  pose proof (best_fold_spec (eligible protocol) better_client (proj1 better_client_order)
    (proj2 better_client_order) clients) as Hbest.
  change (fold_left (best_step (eligible protocol) better_client) clients None)
    with (fold_left (choose_step protocol) clients None) in Hbest.
  set (named := if String.eqb ref "" then None else _).
  assert (match named with
          | Some c => named_client clients protocol ref c
          | None => ~ exists c, named_client clients protocol ref c
          end) as Hnamed.
  { unfold named. destruct (String.eqb ref "") eqn:Er; bools.
    - intros (c & Hne & _). done.
    - destruct (List.find _ clients) as [c |] eqn:Ef.
      + apply List.find_some in Ef as [Hin Hc]. bools.
        split; [done |]. split; [by apply list_elem_of_In |]. by split.
      + intros (c & _ & Hin & Hn & Hok).
        pose proof (List.find_none _ _ Ef c (proj1 (list_elem_of_In _ _) Hin)) as Hc. cbn in Hc.
        by rewrite Hn, String.eqb_refl, Hok in Hc. }
  destruct named as [c |].
  - pose proof Hnamed as (_ & Hin & _ & Hok). split; [done |]. split; [done |]. by left.
  - destruct (fold_left _ clients None) as [b |]; [| exact Hbest].
    destruct Hbest as (Hin & Hok & Hmin). split; [done |]. split; [done |]. right. by split.
Qed.

(** The owner's phase is that of its oldest active entry: [activePhase] is
    unset exactly when no entry counts as active (donors and held, expired or
    finished imports do not), else it is the phase of an active entry that no
    other precedes by (grabbedAt, id). *)
Theorem activePhase_oldest (entries : list DownloadEntry) :
  (activePhase entries = DownloadPhaseUnset /\ (forall e, e ∈ entries -> counts_active e = false)) \/
  exists e, e ∈ entries /\ counts_active e = true /\ activePhase entries = ePhase e /\
    forall e', e' ∈ entries -> counts_active e' = true -> grabbed_before e' e = false.
Proof.
  pose proof (best_fold_spec counts_active grabbed_before (proj1 grabbed_before_order)
    (proj2 grabbed_before_order) entries) as Hbest.
  unfold activePhase.
  change (fold_left (best_step counts_active grabbed_before) entries None)
    with (fold_left active_step entries None) in Hbest.
  destruct (fold_left active_step entries None) as [e |]; cbn in Hbest; [right | by left].
  destruct Hbest as (Hin & Hok & Hmin). exists e. by repeat split.
Qed.

(** ** ChooseOrdinal *)

Section Ordinal.
Context (c : Client) (engines : gmap string Engine) (hashed : Z) (now : Time).

(** The instance [o]'s load, when it is Ready. *)
Definition ready_load (o : Z) : option Z :=
  match engines !! EngineName (clName c) o with
  | Some e => if engineReady e now then Some (wrap32 (enActive e + enQueued e)) else None
  | None => None
  end.

(** [(best, load)] after the ordinals below [k]: nothing was Ready, or [best]
    is least loaded, the hashed one if that is, else the lowest. *)
Definition ordinal_inv (k : Z) (acc : Z * Z) : Prop :=
  let '(best, load) := acc in
  (best = -1 /\ forall o, 0 <= o < k -> ready_load o = None) \/
  (0 <= best < k /\ ready_load best = Some load /\
   (forall o l, 0 <= o < k -> ready_load o = Some l -> load <= l) /\
   (0 <= hashed < k -> ready_load hashed = Some load -> best = hashed) /\
   (best <> hashed -> forall o l, 0 <= o < best -> ready_load o = Some l -> load < l)).

Lemma ordinal_step_load k acc :
  ordinal_step c engines hashed now acc k =
  match ready_load k with
  | None => acc
  | Some load =>
      if (fst acc <? 0) || (load <? snd acc) then (k, load)
      else if (load =? snd acc) && (k =? hashed) then (k, snd acc) else acc
  end.
Proof.
  destruct acc as [best bl]. unfold ordinal_step, ready_load.
  destruct (engines !! _) as [e |]; [| done]. by destruct (engineReady e now).
Qed.

Lemma below_succ k o : 0 <= o < k + 1 -> o = k \/ 0 <= o < k.
Proof. lia. Qed.

(** An instance that is not Ready changes nothing. *)
Lemma ordinal_inv_skip k acc :
  0 <= k -> ready_load k = None -> ordinal_inv k acc -> ordinal_inv (k + 1) acc.
Proof.
  destruct acc as [best load]. intros Hk Hkn [[-> Hnone] | (Hb & Hbl & Hmin & Hh & Hlow)];
    [left | right].
  - split; [done |]. intros o [-> | Ho]%below_succ; auto.
  - split; [lia |]. split; [done |]. split; [| split]; [| | done].
    + intros o l' [-> | Ho]%below_succ Hl'; [congruence | by apply (Hmin o)].
    + intros [Hhk | Hhk]%below_succ Hhl; [congruence | by apply Hh].
Qed.

(** The first Ready instance, and one less loaded than the best, is taken. *)
Lemma ordinal_inv_take k l acc :
  0 <= k -> ready_load k = Some l -> ordinal_inv k acc -> fst acc < 0 \/ l < snd acc ->
  ordinal_inv (k + 1) (k, l).
Proof.
  destruct acc as [best load]. cbn. intros Hk Hkl Hinv Hless. right.
  assert (forall o l', 0 <= o < k -> ready_load o = Some l' -> l < l') as Hlt.
  { destruct Hinv as [[-> Hnone] | (Hb & _ & Hmin & _)]; intros o l' Ho Hl'.
    - by rewrite (Hnone o Ho) in Hl'.
    - specialize (Hmin o l' Ho Hl'). lia. }
  split; [lia |]. split; [done |]. split; [| split; [| by intros _]].
  - intros o l' [-> | Ho]%below_succ Hl'; [simplify_eq; lia |]. specialize (Hlt o l' Ho Hl'). lia.
  - intros [-> | Hhk]%below_succ Hhl; [done |]. specialize (Hlt hashed l Hhk Hhl). lia.
Qed.

(** At the best load only the hashed instance replaces the best. *)
Lemma ordinal_inv_tie k l acc :
  0 <= k -> ready_load k = Some l -> ordinal_inv k acc -> 0 <= fst acc -> snd acc <= l ->
  ordinal_inv (k + 1) (if (l =? snd acc) && (k =? hashed) then (k, snd acc) else acc).
Proof.
  destruct acc as [best load]. cbn. intros Hk Hkl Hinv Hb0 Hle.
  destruct Hinv as [[-> _] | (Hb & Hbl & Hmin & Hh & Hlow)]; [lia |].
  assert (forall o l', 0 <= o < k + 1 -> ready_load o = Some l' -> load <= l') as Hmin'.
  { intros o l' [-> | Ho]%below_succ Hl'; [simplify_eq; lia | by apply (Hmin o)]. }
  destruct ((l =? load) && (k =? hashed)) eqn:E; bools; right.
  - split; [lia |]. split; [congruence |]. by split.
  - split; [lia |]. split; [done |]. split; [done |]. split; [| done].
    intros [Hhk | Hhk]%below_succ Hhl; [| by apply Hh].
    assert (l = load) as -> by congruence. rewrite Hhk, !Z.eqb_refl in E. done.
Qed.

Lemma ordinal_step_inv k acc :
  0 <= k -> ordinal_inv k acc -> ordinal_inv (k + 1) (ordinal_step c engines hashed now acc k).
Proof.
  intros Hk Hinv. rewrite ordinal_step_load. destruct (ready_load k) as [l |] eqn:El.
  - destruct (_ || _) eqn:E.
    + apply orb_prop in E. eapply ordinal_inv_take; [done | done | exact Hinv |].
      destruct E; bools; [by left | by right].
    + bools. by apply ordinal_inv_tie.
  - by apply ordinal_inv_skip.
Qed.

Lemma ordinal_fold_inv n :
  0 <= n -> ordinal_inv n (fold_left (ordinal_step c engines hashed now) (seqZ 0 n) (-1, 0)).
Proof.
  revert n. apply natlike_ind.
  - left. split; [done |]. lia.
  - intros n Hn IH. rewrite <- Z.add_1_r, seqZ_app by lia. rewrite fold_left_app.
    by apply ordinal_step_inv.
Qed.
End Ordinal.

(** ** Engine names *)

Lemma dec_loop_scan fuel n acc :
  0 <= n < two_p31 -> n < 10 ^ Z.of_nat fuel ->
  scan_digits (dec_loop fuel n acc) 0 = scan_digits acc n.
Proof.
  revert n acc. induction fuel as [| k IH]; intros n acc Hn Hf.
  - cbn in *. by replace n with 0 by lia.
  - cbn [dec_loop]. destruct (0 <? n) eqn:E; bools; [| by replace n with 0 by lia].
    pose proof (Z.mod_pos_bound n 10). pose proof (Z.div_mod n 10).
    destruct (digit_spec (n mod 10)) as [Hd Hv]; [lia |].
    assert (n / 10 < 10 ^ Z.of_nat k).
    { rewrite Nat2Z.inj_succ, Z.pow_succ_r in Hf by lia. apply Z.div_lt_upper_bound; lia. }
    rewrite IH; [| split; [apply Z.div_pos; lia | apply Z.div_lt_upper_bound; unfold two_p31 in *; lia] | done].
    cbn [scan_digits]. rewrite Hd, Hv. f_equal.
    rewrite wrap32_id; [lia |]. unfold is_int32, two_p31 in *. lia.
Qed.

Lemma itoa_digits o : 0 <= o < two_p31 ->
  digits (itoa o) /\ itoa o <> "" /\ scan_digits (itoa o) 0 = Some o.
Proof.
  intros Ho. unfold itoa. destruct (o =? 0) eqn:E; bools; [by subst |].
  replace (o <? 0) with false by (symmetry; apply Z.ltb_ge; lia). cbv zeta.
  split; [by apply dec_loop_digits; [lia |] |]. split; [by apply dec_loop_nonempty; lia |].
  rewrite dec_loop_scan; [done | lia |]. unfold two_p31 in *. change (Z.of_nat 12) with 12. lia.
Qed.

(** ** Properties *)

(** [ChooseOrdinal] answers an instance exactly when one of the client's
    replicas is Ready, and then a Ready one of least load: the one the release
    hashes to when that is among them, else the lowest. *)
Theorem ChooseOrdinal_spec (c : Client) engines infoHash guid now :
  let n := replicas_of c in
  let hashed := HashOrdinal n [infoHash; guid] in
  let load := ready_load c engines now in
  let '(o, ok) := ChooseOrdinal c engines infoHash guid now in
  (ok = false /\ forall p, 0 <= p < n -> load p = None) \/
  (ok = true /\ 0 <= o < n /\ exists l, load o = Some l /\
    (forall p l', 0 <= p < n -> load p = Some l' -> l <= l') /\
    (0 <= hashed < n -> load hashed = Some l -> o = hashed) /\
    (o <> hashed -> forall p l', 0 <= p < o -> load p = Some l' -> l < l')).
Proof.
  intros n hashed load. unfold ChooseOrdinal.
  assert (0 <= n) as Hn by (unfold n, replicas_of; case_match; lia).
  pose proof (ordinal_fold_inv c engines hashed now n Hn) as Hinv.
  fold n hashed. destruct (fold_left _ _ _) as [o l]. cbn in Hinv.
  destruct Hinv as [[-> Hnone] | (Ho & Hl & Hrest)]; [left; by split | right].
  split; [apply Z.leb_le; lia |]. split; [done |]. exists l. by split.
Qed.

(** Round trip: [splitEngine] reads back the client and the ordinal that
    [EngineName] joined, for a named client and any [int32] ordinal. *)
Theorem splitEngine_EngineName (client : string) (ordinal : Z) :
  client <> "" -> 0 <= ordinal < two_p31 ->
  splitEngine (EngineName client ordinal) = (client, ordinal, true).
Proof.
  intros Hc Ho. destruct (itoa_digits ordinal Ho) as (Hd & Hne & Hs).
  unfold splitEngine, EngineName. change ("-" +:+ itoa ordinal) with (String "-" (itoa ordinal)).
  rewrite LastIndex_app, str_take_app, str_drop_app, Hs by done.
  destruct client as [| a client]; [done |]. cbn [String.length].
  replace (Nat.eqb _ _) with false; [done |]. symmetry. apply Nat.eqb_neq.
  rewrite str_length_app. cbn. destruct (itoa ordinal); [done |]. cbn. lia.
Qed.

Lemma splitEngine_EngineName_witness :
  EngineName "my-torrents" 12 = "my-torrents-12" /\
  splitEngine (EngineName "my-torrents" 12) = ("my-torrents", 12, true).
Proof.
  split; [reflexivity |]. apply splitEngine_EngineName; [discriminate |]. by vm_compute.
Defined.

(** ** clampString *)

(** [clampString] keeps a string that fits; else it cuts to at most [n]
    bytes, a prefix, at a rune boundary (the first cut-off byte starts a rune),
    and at the last such boundary. *)
Theorem clampString_spec (s : string) (n : nat) :
  (String.length s <= n /\ clampString s n = s)%nat \/
  exists k, (k <= n < String.length s)%nat /\ clampString s n = str_take k s /\
    (k = 0%nat \/ rune_start_at s k) /\ forall i, (k < i <= n)%nat -> ~ rune_start_at s i.
Proof.
  unfold clampString. destruct (String.length s <=? n)%nat eqn:E.
  - apply Nat.leb_le in E. by left.
  - apply Nat.leb_gt in E. right. exists (rune_floor s n).
    destruct (rune_floor_spec s n E) as (H1 & H2 & H3). by repeat split.
Qed.
