(* ===== verification/NamesFacts.v ===== *)
(** * Deterministic names are valid object names

    Whatever the target, and whatever Unicode's case tables do to it, the name
    built from it is an RFC 1123 subdomain within its budget, and ends in the
    digest that makes it unique. *)

From S2P Require Import Prelude GoLang Sha Names LcExample.
From Stdlib Require Import Ascii.

(** ** RFC 1123 subdomains: labels of lower-case alphanumerics and inner dashes,
    joined by dots *)

Definition lower_alnum (a : ascii) : bool := is_lower a || is_digit a.

(** At a label's start, after an alphanumeric, after a dash. *)
Inductive dns_state := Start | Alnum | Dash.

Fixpoint dns (q : dns_state) (s : string) : bool :=
  match s with
  | EmptyString => match q with Alnum => true | _ => false end
  | String a s' =>
      if lower_alnum a then dns Alnum s'
      else match q with
           | Start => false
           | Alnum => if Ascii.eqb a "-" then dns Dash s' else Ascii.eqb a "." && dns Start s'
           | Dash => Ascii.eqb a "-" && dns Dash s'
           end
  end.

Definition subdomain (s : string) : Prop := dns Start s = true.

Lemma dns_app q s t : dns q s = true -> dns q (s +:+ t) = dns Alnum t.
Proof.
  revert q. induction s as [| a s IH]; intros q; cbn [dns].
  - by destruct q.
  - change (String a s +:+ t) with (String a (s +:+ t)). cbn [dns].
    destruct (lower_alnum a); [apply IH |].
    destruct q; [done | destruct (Ascii.eqb a "-"); [apply IH |] |]; intros Hs; bools;
      rewrite ?H; by apply IH.
Qed.

(** ** Separator runs: one dot, or dashes *)

Fixpoint runs (q : dns_state) (s : string) : bool :=
  match s with
  | EmptyString => true
  | String a s' =>
      if lower_alnum a then runs Alnum s'
      else match q with
           | Alnum => if Ascii.eqb a "-" then runs Dash s' else Ascii.eqb a "." && runs Start s'
           | Dash => Ascii.eqb a "-" && runs Dash s'
           | Start => false
           end
  end.

(** The last byte of [s] is alphanumeric. *)
Fixpoint ends_alnum (s : string) : bool :=
  match s with
  | EmptyString => false
  | String a EmptyString => lower_alnum a
  | String _ s' => ends_alnum s'
  end.

Definition starts_alnum (s : string) : bool :=
  match s with String a _ => lower_alnum a | EmptyString => false end.

Lemma ends_alnum_cons a s : s <> "" -> ends_alnum (String a s) = ends_alnum s.
Proof. by destruct s. Qed.

Lemma runs_dns q s : runs q s = true -> ends_alnum s = true -> dns q s = true.
Proof.
  revert q. induction s as [| a s IH]; intros q; [done |]. intros Hr He.
  destruct (String.eqb s "") eqn:Es; bools; [subst; cbn in *; by rewrite He |].
  rewrite ends_alnum_cons in He by done. cbn [runs dns] in *.
  destruct (lower_alnum a); [by apply IH |].
  destruct q; [done | destruct (Ascii.eqb a "-"); [by apply IH |] |]; bools; rewrite H; by apply IH.
Qed.

Lemma runs_start s : runs Alnum s = true -> starts_alnum s = true -> runs Start s = true.
Proof. destruct s as [| a s]; [done |]. cbn. intros Hr Ha. by rewrite Ha in *. Qed.

(** ** The characters of a name *)

Lemma name_char_cases a :
  name_char a = true -> sep_char a = negb (lower_alnum a).
Proof. by destruct a as [[] [] [] [] [] [] [] []]. Qed.

Lemma sep_cases a : sep_char a = true -> lower_alnum a = false /\ (a = "."%char \/ a = "-"%char).
Proof.
  unfold sep_char. intros Hs%orb_prop. destruct Hs as [Hs%Ascii.eqb_eq | Hs%Ascii.eqb_eq]; subst; auto.
Qed.

Definition name_string (s : string) : Prop := str_forall name_char s = true.

Lemma replace_nonName_chars b s : name_string (replace_nonName b s).
Proof.
  unfold name_string. revert b. induction s as [| a s IH]; intros b; cbn; [done |].
  destruct (name_char a) eqn:E; cbn; [by rewrite E, IH | destruct b; cbn; by rewrite IH].
Qed.

Definition is_dash (a : ascii) : bool := Ascii.eqb a "-".

Lemma is_dash_eq a : is_dash a = true -> a = "-"%char.
Proof. apply Ascii.eqb_eq. Qed.

(** ** replace_dotted leaves one dot or dashes between alphanumerics *)

Lemma runs_dashes s t a : str_forall is_dash s = true -> lower_alnum a = true ->
  runs Dash (s +:+ String a t) = runs Alnum t.
Proof.
  intros Hs Ha. induction s as [| b s IH].
  - change ("" +:+ String a t) with (String a t). cbn. by rewrite Ha.
  - change (String b s +:+ String a t) with (String b (s +:+ String a t)).
    cbn in Hs. apply andb_prop in Hs as [Hb Hs]. apply is_dash_eq in Hb as ->. cbn. by apply IH.
Qed.

Lemma runs_dashes_end s : str_forall is_dash s = true -> runs Dash s = true.
Proof.
  induction s as [| b s IH]; [done |]. cbn. intros Hs. apply andb_prop in Hs as [Hb Hs].
  apply is_dash_eq in Hb as ->. cbn. by apply IH.
Qed.

(** A flushed run: nothing, a dot, or dashes. *)
Lemma flush_run_cases run : str_forall sep_char run = true ->
  flush_run run = "" \/ flush_run run = "." \/
  exists s, flush_run run = String "-" s /\ str_forall is_dash s = true.
Proof.
  intros Hr. destruct run as [| a run]; [by left | right]. unfold flush_run.
  destruct (str_forall (fun a => negb (Ascii.eqb a ".")) (String a run)) eqn:Ed.
  - right. assert (forall s, str_forall sep_char s = true ->
      str_forall (fun a => negb (Ascii.eqb a ".")) s = true -> str_forall is_dash s = true) as Hall.
    { induction s as [| b s IH]; [done |]. cbn. intros H1 H2. bools. rewrite IH by done.
      destruct (sep_cases b H1) as [_ [-> | ->]]; done. }
    pose proof (Hall _ Hr Ed) as Hd. cbn in Hd. apply andb_prop in Hd as [Ha Hd].
    apply is_dash_eq in Ha as ->. by exists run.
  - unfold dotted_run. destruct (String.eqb _ ".") eqn:E; bools; [by left | right; by exists ""].
Qed.

Lemma replace_dotted_runs run s :
  str_forall sep_char run = true -> name_string s -> runs Alnum (replace_dotted run s) = true.
Proof.
  unfold name_string. revert run. induction s as [| a s IH]; intros run Hrun Hs; cbn [replace_dotted].
  - destruct (flush_run_cases run Hrun) as [-> | [-> | (d & -> & Hd)]]; [done | done |].
    cbn. by apply runs_dashes_end.
  - cbn in Hs. apply andb_prop in Hs as [Ha Hs]. pose proof (name_char_cases a Ha) as Hsep.
    destruct (sep_char a) eqn:E.
    + apply IH; [| done]. rewrite str_forall_app, Hrun. cbn. by rewrite E.
    + symmetry in Hsep. apply negb_false_iff in Hsep.
      destruct (flush_run_cases run Hrun) as [-> | [-> | (d & -> & Hd)]].
      * change ("" +:+ ?x) with x. cbn. rewrite Hsep. by apply IH.
      * change ("." +:+ ?x) with (String "." x). cbn. rewrite Hsep. by apply IH.
      * change (String "-" d +:+ ?x) with (String "-" (d +:+ x)). cbn [runs lower_alnum].
        cbn. rewrite runs_dashes by done. by apply IH.
Qed.

Lemma replace_dotted_chars run s :
  str_forall sep_char run = true -> name_string s -> name_string (replace_dotted run s).
Proof.
  unfold name_string. revert run. induction s as [| a s IH]; intros run Hrun Hs; cbn [replace_dotted].
  - destruct (flush_run_cases run Hrun) as [-> | [-> | (d & -> & Hd)]]; [done | done |].
    cbn. revert Hd. apply str_forall_impl. by intros a ->%is_dash_eq.
  - cbn in Hs. apply andb_prop in Hs as [Ha Hs]. destruct (sep_char a) eqn:E.
    + apply IH; [| done]. rewrite str_forall_app, Hrun. cbn. by rewrite E.
    + rewrite str_forall_app. cbn. rewrite Ha, IH by done. rewrite andb_true_r.
      destruct (flush_run_cases run Hrun) as [-> | [-> | (d & -> & Hd)]]; [done | done |].
      cbn. revert Hd. apply str_forall_impl. by intros b ->%is_dash_eq.
Qed.

(** ** Trimming *)

Lemma TrimLeft_spec q s :
  runs q s = true -> name_string s ->
  runs Alnum (TrimLeft sep_char s) = true /\ name_string (TrimLeft sep_char s) /\
  (TrimLeft sep_char s <> "" -> starts_alnum (TrimLeft sep_char s) = true).
Proof.
  unfold name_string. revert q. induction s as [| a s IH]; intros q Hr Hn; [done |].
  cbn [TrimLeft]. pose proof Hn as Hn'. cbn in Hn'. apply andb_prop in Hn' as [Ha Hs].
  pose proof (name_char_cases a Ha) as Hsep. destruct (sep_char a) eqn:E.
  - symmetry in Hsep. apply negb_true_iff in Hsep. cbn [runs] in Hr. rewrite Hsep in Hr.
    destruct q; [done | destruct (Ascii.eqb a "-"); [by apply (IH Dash) |] |]; bools; by eapply IH.
  - symmetry in Hsep. apply negb_false_iff in Hsep. cbn [runs] in *. rewrite Hsep in *.
    split; [done |]. split; [done |]. by intros _.
Qed.

Lemma TrimRight_spec q s :
  runs q s = true -> name_string s ->
  runs q (TrimRight sep_char s) = true /\ name_string (TrimRight sep_char s) /\
  (String.length (TrimRight sep_char s) <= String.length s)%nat /\
  (TrimRight sep_char s <> "" -> ends_alnum (TrimRight sep_char s) = true) /\
  (starts_alnum s = true -> starts_alnum (TrimRight sep_char s) = true).
Proof.
  unfold name_string. revert q. induction s as [| a s IH]; intros q Hr Hn; [done |].
  cbn [TrimRight]. pose proof Hn as Hn'. cbn in Hn'. apply andb_prop in Hn' as [Ha Hs].
  pose proof (name_char_cases a Ha) as Hsep.
  assert (exists q', runs q' s = true /\ forall t, runs q' t = true -> runs q (String a t) = true)
    as (q' & Hq' & Hstep).
  { cbn [runs] in Hr |- *. destruct (lower_alnum a); [by eexists |].
    destruct q; [done | destruct (Ascii.eqb a "-"); [by eexists |] |]; bools; rewrite H; by eexists. }
  destruct (IH q' Hq' Hs) as (H1 & H2 & H3 & H4 & H5).
  destruct (TrimRight sep_char s) as [| b r] eqn:Et.
  - destruct (sep_char a) eqn:E.
    + do 2 (split; [done |]). split; [cbn; lia |]. split; [done |].
      symmetry in Hsep. apply negb_true_iff in Hsep. cbn. by rewrite Hsep.
    + symmetry in Hsep. apply negb_false_iff in Hsep. cbn. rewrite Hsep, Ha. repeat split; cbn; lia || done.
  - split; [by apply Hstep |]. split; [cbn in *; by rewrite Ha |]. split; [cbn in *; lia |].
    split; [| done]. intros _. rewrite ends_alnum_cons by done. by apply H4.
Qed.

Lemma str_take_runs q s n : runs q s = true -> runs q (str_take n s) = true.
Proof.
  revert q n. induction s as [| a s IH]; intros q [| n] Hr; try done. cbn [str_take runs] in *.
  destruct (lower_alnum a); [by apply IH |].
  destruct q; [done | destruct (Ascii.eqb a "-"); [by apply IH |] |]; bools; rewrite H; by apply IH.
Qed.

Lemma str_take_forall p s n : str_forall p s = true -> str_forall p (str_take n s) = true.
Proof.
  revert n. induction s as [| a s IH]; intros [| n] Hr; try done. cbn in *. bools. by rewrite H, IH.
Qed.

Lemma str_take_length s n : (String.length (str_take n s) <= n)%nat.
Proof. revert n. induction s as [| a s IH]; intros [| n]; cbn; try lia. specialize (IH n). lia. Qed.

(** ** The digest *)

Lemma hex_digit_alnum n : 0 <= n < 16 -> lower_alnum (hex_digit n) = true.
Proof.
  intros Hn. assert (n ∈ seqZ 0 16) as Hin by (apply elem_of_seqZ; lia).
  vm_compute in Hin. repeat (apply elem_of_cons in Hin as [-> | Hin]; [by vm_compute |]).
  by apply not_elem_of_nil in Hin.
Qed.

Lemma hex_encode_alnum l : Forall (fun b => 0 <= b < 256) l -> str_forall lower_alnum (hex_encode l) = true.
Proof.
  induction 1 as [| b l Hb _ IH]; [done |]. cbn.
  rewrite !hex_digit_alnum, IH; [done | apply Z.mod_pos_bound; lia |].
  split; [apply Z.div_pos; lia | apply Z.div_lt_upper_bound; lia].
Qed.

Lemma be_bytes_range n z : Forall (fun b => 0 <= b < 256) (be_bytes n z).
Proof. induction n; cbn; constructor; [apply Z.mod_pos_bound; lia | done]. Qed.

Lemma sha1_bytes m : Forall (fun b => 0 <= b < 256) (sha1 m) /\ length (sha1 m) = 20%nat.
Proof.
  unfold sha1. split; [| reflexivity]. repeat (apply Forall_app_2; [apply be_bytes_range |]).
  apply be_bytes_range.
Qed.

Lemma hex_encode_length l : String.length (hex_encode l) = (2 * length l)%nat.
Proof. induction l as [| b l IH]; [done |]. cbn. rewrite IH. lia. Qed.

Lemma str_take_exact s n : (n <= String.length s)%nat -> String.length (str_take n s) = n.
Proof.
  revert n. induction s as [| a s IH]; intros [| n]; cbn; try lia. intros Hn. rewrite IH; lia.
Qed.

Lemma HashSuffix_spec parts :
  String.length (HashSuffix parts) = HashSuffixLength /\ str_forall lower_alnum (HashSuffix parts) = true.
Proof.
  destruct (sha1_bytes (bytes_of (Join parts "|"))) as [Hr Hl]. unfold HashSuffix. split.
  - apply str_take_exact. rewrite hex_encode_length, Hl. cbv. lia.
  - by apply str_take_forall, hex_encode_alnum.
Qed.

Lemma alnum_dns q s : s <> "" -> str_forall lower_alnum s = true -> dns q s = true.
Proof.
  revert q. induction s as [| a s IH]; intros q Hne Hs; [done |]. cbn in *. bools. rewrite H.
  destruct (String.eqb s "") eqn:E; bools; [by subst | by apply IH].
Qed.

(** ** The prefix *)

(** A prefix: not empty, and a subdomain. *)
Definition good_prefix (s : string) : Prop :=
  runs Alnum s = true /\ name_string s /\ starts_alnum s = true /\ ends_alnum s = true.

Lemma good_prefix_subdomain s : good_prefix s -> subdomain s.
Proof. intros (Hr & _ & Hs & He). by apply runs_dns; [apply runs_start |]. Qed.

Section Prefix.
Context `{Unicode}.

Lemma NormalizeName_good s : NormalizeName s = "" \/ good_prefix (NormalizeName s).
Proof.
  unfold NormalizeName, Trim. set (r := replace_dotted _ _).
  assert (runs Alnum r = true /\ name_string r) as [Hr Hn].
  { unfold r. split; [apply replace_dotted_runs | apply replace_dotted_chars]; first [done | apply replace_nonName_chars]. }
  destruct (TrimLeft_spec Alnum r Hr Hn) as (H1 & H2 & H3).
  destruct (TrimRight_spec Alnum _ H1 H2) as (H4 & H5 & _ & H6 & H7).
  destruct (String.eqb (TrimRight sep_char (TrimLeft sep_char r)) "") eqn:E; bools; [by left | right].
  assert (TrimLeft sep_char r <> "") as Hl by (intros El; by rewrite El in E).
  by repeat split; [done | done | apply H7, H3 | apply H6].
Qed.

(** The prefix cut to the budget. *)
Lemma cut_good p budget :
  good_prefix p -> 0 < budget ->
  let q := if budget <? Z.of_nat (String.length p) then TrimRight sep_char (str_take (Z.to_nat budget) p) else p in
  good_prefix q /\ Z.of_nat (String.length q) <= budget.
Proof.
  intros Hp Hb. cbv zeta. destruct (budget <? Z.of_nat (String.length p)) eqn:E; bools; [| by split].
  destruct Hp as (Hr & Hn & Hs & He).
  assert (starts_alnum (str_take (Z.to_nat budget) p) = true) as Hts.
  { destruct p as [| a p]; [done |]. by replace (Z.to_nat budget) with (S (Z.to_nat budget - 1)) by lia. }
  destruct (TrimRight_spec Alnum (str_take (Z.to_nat budget) p)) as (H1 & H2 & H3 & H4 & H5);
    [by apply str_take_runs | by apply str_take_forall |].
  pose proof (str_take_length p (Z.to_nat budget)). split; [| lia].
  repeat split; [done | done | by apply H5 |]. apply H4. intros E0. by rewrite E0 in H5; specialize (H5 Hts).
Qed.
End Prefix.

(** ** Properties *)

(** A deterministic name is a valid object name: an RFC 1123 subdomain that
    ends in the digest of its parts and fits the budget asked for (253 when that
    is not positive or larger), but for a budget under 12, which only the digest
    fits or overruns. *)
Theorem DeterministicName_valid `{Unicode} (target : string) (maxLen : Z) (parts : list string) :
  let name := DeterministicName target maxLen parts in
  let max := if (maxLen <=? 0) || (253 <? maxLen) then 253 else maxLen in
  subdomain name /\
  (name = HashSuffix parts \/ exists prefix, name = prefix +:+ "-" +:+ HashSuffix parts) /\
  Z.of_nat (String.length name) <= Z.max max 10.
Proof.
  destruct (HashSuffix_spec parts) as [Hlen Hal].
  assert (HashSuffix parts <> "") as Hne by (intros E; by rewrite E in Hlen).
  unfold DeterministicName. change (Z.of_nat MaxNameLength) with 253. rewrite Hlen.
  change (Z.of_nat HashSuffixLength) with 10.
  set (max := if _ || _ then 253 else maxLen). cbv zeta.
  destruct (max - 10 - 1 <? 1) eqn:Eb; bools.
  { split; [by apply alnum_dns |]. split; [by left |]. rewrite Hlen. unfold HashSuffixLength. lia. }
  set (p := if String.eqb (NormalizeName target) "" then "x" else NormalizeName target).
  assert (good_prefix p) as Hp.
  { unfold p. destruct (NormalizeName_good target) as [-> | Hg]; [done |].
    destruct (String.eqb _ ""); done. }
  destruct (cut_good p (max - 10 - 1) Hp) as [Hq Hl]; [lia |].
  set (q := if _ <? _ then _ else p) in *.
  assert (String.eqb q "" = false) as ->.
  { apply String.eqb_neq. intros E. rewrite E in Hq. by destruct Hq as (_ & _ & Hs & _). }
  split; [| split].
  - unfold subdomain. rewrite (dns_app Start q) by by apply good_prefix_subdomain.
    change (dns Dash (HashSuffix parts) = true). by apply alnum_dns.
  - right. by exists q.
  - rewrite !str_length_app, Hlen. unfold HashSuffixLength. cbn [String.length]. lia.
Qed.

(** [HashOrdinal] names a replica: for any key it is an ordinal below the
    replica count, and 0 when there is at most one. *)
Theorem HashOrdinal_range (replicas : Z) (parts : list string) :
  0 <= HashOrdinal replicas parts < Z.max replicas 1.
Proof.
  unfold HashOrdinal. destruct (replicas <=? 1) eqn:E; bools; [lia |].
  pose proof (Z.mod_pos_bound (be_combine (take 8 (sha1 (bytes_of (Join parts "|"))))) replicas). lia.
Qed.
