(* ===== verification/Ledger.v ===== *)
(** * Ledger: admission of the manager's dispatches

    src/app/dispatch/ledger.go, admit.go, wake.go and unattended.go.  The
    [Ledger]'s methods are computations over its fields; each takes the lock for
    its whole body, so it is one step, except [rebuild], [audit] and [detect],
    whose parts between two locks are definitions of their own.  [l.now()] is
    an argument, one per reading. *)

From S2P Require Import Prelude GoLang Api Events.

Open Scope monad_scope.

(** ** Constants *)

Definition ReservationTTL : Duration := 60 * Second.
Definition UnattendedAfter : Duration := 2 * Minute.
Definition TickInterval : Duration := 10 * Second.
Definition WaitingTTL : Duration := 5 * Minute.
Definition AuditAge : Duration := 20 * Minute.
Definition BudgetRetry : Duration := 2 * Minute.
Definition FirstRetry : Duration := Minute.
Definition FirstTTL : Duration := 2 * Minute.
Definition wakeBuffer : nat := 512.

(** ** Data *)

(** [Key]. *)
Record Key := mkKey {
  kKind : string;
  kNamespace : string;
  kName : string;
  kSub : string;
}.

#[export] Instance Key_eq_dec : EqDecision Key.
Proof. solve_decision. Defined.

#[export] Instance Key_countable : Countable Key :=
  inj_countable' (fun k => (kKind k, kNamespace k, kName k, kSub k))
    (fun '(a, b, c, d) => mkKey a b c d) ltac:(by intros []).

(** [Key.String]. *)
Definition Key_String (k : Key) : string :=
  let s := kKind k +:+ "/" +:+ kNamespace k +:+ "/" +:+ kName k in
  if negb (String.eqb (kSub k) "") then s +:+ "#" +:+ kSub k else s.

(** [Outstanding]. *)
Record Outstanding := mkOutstanding { oKey : Key; oSeq : Z }.

(** A [Source] answers what status shows in flight, from the cache: a list of
    every dispatch, or, for a [KeyedSource], key by key.  Its implementations
    read the manager's cache, whose content at the time of the call is an
    argument: [None] is the call's error. *)
Inductive SourceKind := PlainSource | KeyedSource.

Record Cache := mkCache {
  cRebuild : string -> option (list Outstanding);
  cInFlight : string -> Key -> option (Z * bool);
}.

(** [slotState]. *)
Inductive slotState := reserved | published.

#[export] Instance slotState_eq_dec : EqDecision slotState.
Proof. solve_decision. Defined.

(** [slot]: [slPrev] is the dispatch a reservation supersedes.  No field of a
    slot is written after its creation, so its pointers are values here. *)
#[warnings="-register-all"]
Inductive slot := mkSlot {
  slSeq : Z;
  slState : slotState;
  slExpires : Time;
  slPrev : option slot;
  slAt : Time;
}.

(** [waitingEntry], [firstWait]. *)
Record waitingEntry := mkWaiting { weReason : string; weAt : Time }.
Record firstWait := mkFirst { fwSince : Time; fwSeen : Time }.

(** [attendance]. *)
Record attendance := mkAttendance {
  atKnown : bool;
  atLag : Z;
  atLagSince : Time;
  atStalled : bool;
  atAbsentSince : Time;
  atUnattended : bool;
}.

(** [Ledger], less its options and its lock. *)
Record Ledger := mkLedger {
  lSources : gmap string SourceKind;
  lRebuilt : bool;
  lBooks : gmap string (gmap Key slot);
  lWaiting : gmap string (gmap Key waitingEntry);
  lFirst : gmap string (gmap Key firstWait);
  lWakes : list Key;
  lAttendance : gmap string attendance;
  lUnserved : gmap string Time;
}.

#[export] Instance eta_attendance : Eta attendance :=
  fun a => mkAttendance (atKnown a) (atLag a) (atLagSince a) (atStalled a) (atAbsentSince a)
    (atUnattended a).
#[export] Instance set_atStalled : Setter atStalled. Proof. derive_setter. Defined.
#[export] Instance set_atAbsentSince : Setter atAbsentSince. Proof. derive_setter. Defined.
#[export] Instance set_atUnattended : Setter atUnattended. Proof. derive_setter. Defined.

#[export] Instance eta_Ledger : Eta Ledger :=
  fun l => mkLedger (lSources l) (lRebuilt l) (lBooks l) (lWaiting l) (lFirst l) (lWakes l)
    (lAttendance l) (lUnserved l).
#[export] Instance set_lSources : Setter lSources. Proof. derive_setter. Defined.
#[export] Instance set_lRebuilt : Setter lRebuilt. Proof. derive_setter. Defined.
#[export] Instance set_lBooks : Setter lBooks. Proof. derive_setter. Defined.
#[export] Instance set_lWaiting : Setter lWaiting. Proof. derive_setter. Defined.
#[export] Instance set_lFirst : Setter lFirst. Proof. derive_setter. Defined.
#[export] Instance set_lWakes : Setter lWakes. Proof. derive_setter. Defined.
#[export] Instance set_lAttendance : Setter lAttendance. Proof. derive_setter. Defined.
#[export] Instance set_lUnserved : Setter lUnserved. Proof. derive_setter. Defined.

(** [Decision]. *)
Record Decision := mkDecision {
  dcAdmitted : bool;
  dcReason : string;
  dcMessage : string;
  dcRetryAfter : Duration;
}.

Definition admitted_decision : Decision := mkDecision true "" "" 0.

(** [New]; [Register]. *)
Definition New : Ledger := mkLedger ∅ false ∅ ∅ ∅ [] ∅ ∅.

Definition Register (durable : string) (s : SourceKind) : M Ledger unit :=
  modify (fun l => l <| lSources ::= <[durable := s]> |>).

(** A nil map reads as an empty one. *)
Definition map_of {V} (m : gmap string (gmap Key V)) (durable : string) : gmap Key V :=
  default ∅ (m !! durable).

Definition rebuildable (l : Ledger) (durable : string) : bool :=
  match lSources l !! durable with Some _ => true | None => false end.

(** ** Budgets *)

Definition budgetOf (c : ConsumerSpec) : Z := wrap64 (2 * Z.max (csMaxAckPending c) 1).

Definition lapseAfter (c : ConsumerSpec) : Duration :=
  let ackWait := if csAckWait c <=? 0 then DefaultAckWait else csAckWait c in
  wrap64 (ackWait * Z.max (csMaxDeliver c) 1).

(** [Ledger.spec]: [None] for a durable outside the topology. *)
Definition spec (o : Topology) (durable : string) : option ConsumerSpec :=
  match Consumer o durable with
  | Some c => Some c
  | None =>
      if HasPrefix durable EngineConsumerPrefix
      then Some ((EngineConsumer "" 0) <| csName := durable |>)
      else None
  end.

Definition Budget (o : Topology) (durable : string) : Z :=
  match spec o durable with Some c => budgetOf c | None => 0 end.

(** ** Waking waiters (wake.go) *)

(** [slices.SortFunc] by time.  It is not stable, and its input is in the
    map's own order: every order of the keys of one time is one of the map's. *)
Fixpoint insert_at (w : Key * Time) (l : list (Key * Time)) : list (Key * Time) :=
  match l with
  | [] => [w]
  | v :: l' => if snd w <=? snd v then w :: l else v :: insert_at w l'
  end.

Definition sort_at (l : list (Key * Time)) : list (Key * Time) := foldr insert_at [] l.

(** The loop of [freedLocked]: up to [want] keys, while the channel has room. *)
Fixpoint send_wakes (want : nat) (ws : list Key) (q : list Key) : list Key :=
  match want, ws with
  | S n, k :: ws' => if (length q <? wakeBuffer)%nat then send_wakes n ws' (q ++ [k]) else q
  | _, _ => q
  end.

Section Wakes.
Context `{RangeOrder}.

Definition first_waiters (l : Ledger) (durable : string) : list (Key * Time) :=
  map (fun '(k, fw) => (k, fwSince fw)) (range (map_of (lFirst l) durable)).

Definition budget_waiters (l : Ledger) (durable : string) : list (Key * Time) :=
  map (fun '(k, w) => (k, weAt w))
    (List.filter (fun '(k, w) => bool_decide (map_of (lFirst l) durable !! k = None)
       && String.eqb (weReason w) DeliveryReasonBudget)
      (range (map_of (lWaiting l) durable))).

Definition freedLocked (durable : string) (n : nat) : M Ledger unit :=
  l <- gets id;;
  if (n =? 0)%nat then ret tt
  else if negb (rebuildable l durable) then ret tt
  else
    let firsts := sort_at (first_waiters l durable) in
    let routine := sort_at (budget_waiters l durable) in
    modify (fun l => l <| lWakes ::= send_wakes (2 * n) (map fst (firsts ++ routine)) |>).
End Wakes.

(** The one reader of [Wakes]. *)
Definition take_wake : M Ledger (option Key) :=
  q <- gets lWakes;;
  match q with
  | [] => ret None
  | k :: q' => modify (fun l => l <| lWakes := q' |>);; ret (Some k)
  end.

(** [firstWaitingLocked]. *)
Definition live_first (now : Time) (m : gmap Key firstWait) : gmap Key firstWait :=
  filter (fun '(_, fw) => Sub now (fwSeen fw) < FirstTTL) m.

Definition firstWaitingLocked (durable : string) (k : Key) (now : Time) : M Ledger Z :=
  modify (fun l => l <| lFirst ::= alter (live_first now) durable |>);;
  m <- gets (fun l => map_of (lFirst l) durable);;
  ret (Z.of_nat (size (delete k m))).

Definition markFirstLocked (durable : string) (k : Key) (now : Time) : M Ledger unit :=
  m <- gets (fun l => map_of (lFirst l) durable);;
  let since := match m !! k with Some fw => fwSince fw | None => now end in
  modify (fun l => l <| lFirst ::= <[durable := <[k := mkFirst since now]> m]> |>).

Definition budgetRetryLocked (durable : string) (k : Key) (first : bool) : M Ledger Duration :=
  l <- gets id;;
  ret (if negb (rebuildable l durable) then TickInterval
       else if first then FirstRetry
       else Z.quot (BudgetRetry * 3) 4
            + Z.quot (fnv32a (Key_String k) mod 1000 * BudgetRetry) 2000).

(** ** Books *)

Definition bookLocked (durable : string) : M Ledger (gmap Key slot) :=
  l <- gets id;;
  match lBooks l !! durable with
  | Some b => ret b
  | None => modify (fun l => l <| lBooks ::= <[durable := ∅]> |>);; ret ∅
  end.

(** A write [book[k] = s], or [delete(book, k)], through the map [bookLocked]
    answered. *)
Definition put_slot (durable : string) (k : Key) (s : slot) : M Ledger unit :=
  modify (fun l => l <| lBooks ::= alter <[k := s]> durable |>).
Definition drop_slot (durable : string) (k : Key) : M Ledger unit :=
  modify (fun l => l <| lBooks ::= alter (delete k) durable |>).

(** The loop of [lapseLocked] on one slot. *)
Fixpoint lapse_slot (now : Time) (s : slot) : option slot :=
  if negb (IsZero (slExpires s)) && negb (Before now (slExpires s)) then
    match slPrev s with
    | None => None
    | Some p => lapse_slot now p
    end
  else Some s.

Definition lapse_book (now : Time) (b : gmap Key slot) : gmap Key slot :=
  omap (lapse_slot now) b.

Section Operations.
Context (o : Topology) `{RangeOrder}.

(** [lapseLocked]: the slots of a book lapse independently of each other. *)
Definition lapseLocked (durable : string) (now : Time) : M Ledger unit :=
  book <- gets (fun l => map_of (lBooks l) durable);;
  modify (fun l => l <| lBooks ::= alter (lapse_book now) durable |>);;
  freedLocked durable (size book - size (lapse_book now book)).

Definition lapseWaitingLocked (durable : string) (now : Time) : M Ledger unit :=
  modify (fun l => l <| lWaiting ::= alter (filter (fun '(_, w) => Sub now (weAt w) < WaitingTTL)) durable |>).

Definition clearWaitingLocked (durable : string) (k : Key) : M Ledger unit :=
  modify (fun l => l <| lWaiting ::= alter (delete k) durable |>).

Definition unattendedLocked (l : Ledger) (durable : string) : bool :=
  match lAttendance l !! durable with Some a => atUnattended a | None => false end.

(** ** Admission (admit.go) *)

(** [admit]'s branch for [n >= limit]. *)
Definition refuse (durable : string) (k : Key) (n : Z) (first : bool) (now : Time) : M Ledger Decision :=
  when first (markFirstLocked durable k now);;
  un <- gets (fun l => unattendedLocked l durable);;
  if un : bool then
    ret (mkDecision false DeliveryReasonNoAgent
      ("no agent is taking " +:+ durable +:+ ": " +:+ fmt_d n +:+ " in flight") TickInterval)
  else
    r <- budgetRetryLocked durable k first;;
    ret (mkDecision false DeliveryReasonBudget
      ("waiting for " +:+ durable +:+ ": " +:+ fmt_d n +:+ " in flight") r).

(** [admit]'s last lines: the slot is reserved. *)
Definition reserve (durable : string) (k : Key) (sq : Z) (prev : option slot) (now : Time) :
    M Ledger Decision :=
  put_slot durable k (mkSlot sq reserved (Add now ReservationTTL) prev now);;
  clearWaitingLocked durable k;;
  modify (fun l => l <| lFirst ::= alter (delete k) durable |>);;
  ret admitted_decision.

Definition ledger_admit (durable : string) (k : Key) (sq : Z) (first : bool) (now : Time) : M Ledger Decision :=
  rb <- gets lRebuilt;;
  if negb rb then
    ret (mkDecision false DeliveryReasonRebuilding
      "waiting for the dispatch ledger to rebuild from status after a leader change" TickInterval)
  else match spec o durable with
  | None =>
      ret (mkDecision false DeliveryReasonBudget
        (durable +:+ " is not a durable of the topology") TickInterval)
  | Some c =>
      bookLocked durable;;
      lapseLocked durable now;;
      book <- gets (fun l => map_of (lBooks l) durable);;
      if (match book !! k with Some cur => sq <=? slSeq cur | None => false end) then
        clearWaitingLocked durable k;;
        ret admitted_decision
      else
        let prev := book !! k in
        let n := Z.of_nat (size book) - (match prev with Some _ => 1 | None => 0 end) in
        w <- (if first then ret 0 else firstWaitingLocked durable k now);;
        let limit := budgetOf c - w in
        if limit <=? n then refuse durable k n first now
        else reserve durable k sq prev now
  end.

Definition Admit (durable : string) (k : Key) (sq : Z) (now : Time) : M Ledger Decision :=
  ledger_admit durable k sq false now.
Definition AdmitFirst (durable : string) (k : Key) (sq : Z) (now : Time) : M Ledger Decision :=
  ledger_admit durable k sq true now.

(** ** The other operations (ledger.go) *)

(** [Published] reads the clock for [at], then for the expiry. *)
Definition Published (durable : string) (k : Key) (sq : Z) (now now' : Time) : M Ledger unit :=
  book <- bookLocked durable;;
  if (match book !! k with Some cur => sq <? slSeq cur | None => false end) then ret tt
  else
    l <- gets id;;
    let expires :=
      if rebuildable l durable then 0
      else match spec o durable with Some c => Add now' (lapseAfter c) | None => 0 end in
    put_slot durable k (mkSlot sq published expires None now);;
    clearWaitingLocked durable k.

Definition Answered (durable : string) (k : Key) (sq : Z) : M Ledger unit :=
  book <- bookLocked durable;;
  match book !! k with
  | Some cur => if slSeq cur <=? sq then drop_slot durable k;; freedLocked durable 1 else ret tt
  | None => ret tt
  end.

Definition Holds (l : Ledger) (durable : string) (k : Key) (sq : Z) : bool :=
  match map_of (lBooks l) durable !! k with Some cur => slSeq cur <=? sq | None => false end.

Definition Waiting (durable : string) (k : Key) (reason : string) (now : Time) : M Ledger unit :=
  w <- gets (fun l => map_of (lWaiting l) durable);;
  modify (fun l => l <| lWaiting ::= <[durable := <[k := mkWaiting reason now]> w]> |>).

(** Statements run in order over a list, as a [for ... range] does. *)
Fixpoint for_each {A} (l : list A) (f : A -> M Ledger unit) : M Ledger unit :=
  match l with
  | [] => ret tt
  | a :: l' => f a;; for_each l' f
  end.

Definition key_gone (kind namespace name : string) (k : Key) : bool :=
  String.eqb (kKind k) kind && String.eqb (kNamespace k) namespace && String.eqb (kName k) name.

Definition sweep {V} (p : Key -> bool) (m : gmap Key V) : gmap Key V :=
  filter (fun '(k, _) => p k = false) m.

Definition ForgetGone (kind namespace name : string) : M Ledger unit :=
  let p := key_gone kind namespace name in
  srcs <- gets (fun l => range (lSources l));;
  for_each srcs (fun '(durable, _) =>
    book <- gets (fun l => map_of (lBooks l) durable);;
    modify (fun l => l <| lBooks ::= alter (sweep p) durable |>
                       <| lWaiting ::= alter (sweep p) durable |>
                       <| lFirst ::= alter (sweep p) durable |>);;
    freedLocked durable (size book - size (sweep p book))).

Definition Forget (k : Key) : M Ledger unit :=
  bks <- gets (fun l => range (lBooks l));;
  for_each bks (fun '(durable, book) =>
    if (match book !! k with Some _ => true | None => false end) then
      drop_slot durable k;; freedLocked durable 1
    else ret tt);;
  modify (fun l => l <| lWaiting ::= fmap (delete k) |> <| lFirst ::= fmap (delete k) |>).

Definition WaitingCount (durable : string) (now : Time) : M Ledger nat :=
  lapseWaitingLocked durable now;;
  gets (fun l => size (map_of (lWaiting l) durable)).

Definition OutstandingCount (durable : string) (now : Time) : M Ledger nat :=
  bookLocked durable;;
  lapseLocked durable now;;
  gets (fun l => size (map_of (lBooks l) durable)).

(** ** Rebuilding from status *)

(** The loop over one source's dispatches; [clock i] is the [i]-th reading. *)
Definition rebuild_step (clock : nat -> Time) (acc : nat * gmap Key slot) (out : Outstanding) :
    nat * gmap Key slot :=
  let '(i, book) := acc in
  if (match book !! oKey out with Some cur => oSeq out <=? slSeq cur | None => false end) then acc
  else (S i, <[oKey out := mkSlot (oSeq out) published 0 None (clock i)]> book).

Definition rebuild_book (clock : nat -> Time) (outs : list Outstanding) : gmap Key slot :=
  snd (fold_left (rebuild_step clock) outs (0%nat, ∅)).

(** [rebuild] between its two locks: [None] is its error. *)
Fixpoint rebuild_read (c : Cache) (clock : string -> nat -> Time) (srcs : list (string * SourceKind)) :
    option (gmap string (gmap Key slot)) :=
  match srcs with
  | [] => Some ∅
  | (durable, _) :: srcs' =>
      match cRebuild c durable with
      | None => None
      | Some outs =>
          match rebuild_read c clock srcs' with
          | None => None
          | Some rest => Some (<[durable := rebuild_book (clock durable) outs]> rest)
          end
      end
  end.

Definition rebuild_write (fresh : gmap string (gmap Key slot)) : M Ledger unit :=
  modify (fun l => l <| lBooks ::= fun b => fresh ∪ b |> <| lRebuilt := true |>).

(** [rebuild] with nothing between its locks; it answers whether it did. *)
Definition rebuild (c : Cache) (clock : string -> nat -> Time) : M Ledger bool :=
  srcs <- gets (fun l => range (lSources l));;
  match rebuild_read c clock srcs with
  | None => ret false
  | Some fresh => rebuild_write fresh;; ret true
  end.

(** ** The audit *)

(** What [audit] notes under its first lock: each rebuildable durable's
    published slots stamped before the cutoff. *)
Definition stale_slots (cutoff : Time) (book : gmap Key slot) : list (Key * Z) :=
  map (fun '(k, s) => (k, slSeq s))
    (List.filter (fun '(_, s) => bool_decide (slState s = published) && Before (slAt s) cutoff)
      (range book)).

Definition audit_due (cutoff : Time) (l : Ledger) : list (string * SourceKind * list (Key * Z)) :=
  List.filter (fun '(_, slots) => negb (Nat.eqb (length slots) 0))
    (map (fun '(durable, s) => (durable, s, stale_slots cutoff (map_of (lBooks l) durable)))
      (range (lSources l))).

(** [inFlight]: what status shows; [None] is its error. *)
Fixpoint in_flight_keys (c : Cache) (durable : string) (keys : list Key) : option (gmap Key bool) :=
  match keys with
  | [] => Some ∅
  | k :: keys' =>
      match cInFlight c durable k, in_flight_keys c durable keys' with
      | Some (_, b), Some m => Some (<[k := b]> m)
      | _, _ => None
      end
  end.

Definition inFlight (c : Cache) (durable : string) (s : SourceKind) (keys : list Key) :
    option (gmap Key bool) :=
  match s with
  | KeyedSource => in_flight_keys c durable keys
  | PlainSource =>
      match cRebuild c durable with
      | None => None
      | Some outs => Some (foldr (fun out m => <[oKey out := true]> m) ∅ outs)
      end
  end.

Definition releases (cutoff : Time) (flying : gmap Key bool) (book : gmap Key slot) (st : Key * Z) : bool :=
  match book !! fst st with
  | Some sl => bool_decide (slState sl = published) && (slSeq sl =? snd st)
               && Before (slAt sl) cutoff && negb (default false (flying !! fst st))
  | None => false
  end.

(** What [audit] does under its second lock, of one durable: the keys it
    released. *)
Fixpoint audit_slots (durable : string) (cutoff : Time) (flying : gmap Key bool)
    (slots : list (Key * Z)) : M Ledger (list Key) :=
  match slots with
  | [] => ret []
  | st :: slots' =>
      book <- gets (fun l => map_of (lBooks l) durable);;
      if releases cutoff flying book st then
        drop_slot durable (fst st);;
        ks <- audit_slots durable cutoff flying slots';;
        ret (fst st :: ks)
      else audit_slots durable cutoff flying slots'
  end.

Definition audit_release (durable : string) (cutoff : Time) (flying : gmap Key bool)
    (slots : list (Key * Z)) : M Ledger (list Key) :=
  ks <- audit_slots durable cutoff flying slots;;
  freedLocked durable (length ks);;
  ret ks.

(** The Event's note, for a durable of which slots were released. *)
Fixpoint insert_string (s : string) (l : list string) : list string :=
  match l with
  | [] => [s]
  | t :: l' => if String.leb s t then s :: l else t :: insert_string s l'
  end.

Definition audit_note (durable : string) (released : list Key) : string :=
  let names := foldr insert_string [] (map Key_String released) in
  "released " +:+ fmt_d (Z.of_nat (length names)) +:+ " slots of " +:+ durable +:+
  " that no status shows in flight: " +:+ Join (take 5 names) ", ".

(** [audit] with nothing between its locks: the notes it records. *)
Fixpoint audit_each (c : Cache) (cutoff : Time) (due : list (string * SourceKind * list (Key * Z))) :
    M Ledger (list string) :=
  match due with
  | [] => ret []
  | (durable, s, slots) :: due' =>
      match inFlight c durable s (map fst slots) with
      | None => audit_each c cutoff due'
      | Some flying =>
          ks <- audit_release durable cutoff flying slots;;
          notes <- audit_each c cutoff due';;
          ret (if Nat.eqb (length ks) 0 then notes else audit_note durable ks :: notes)
      end
  end.

Definition audit (c : Cache) (now : Time) : M Ledger (list string) :=
  let cutoff := Add now (- AuditAge) in
  due <- gets (audit_due cutoff);;
  audit_each c cutoff due.

(** ** Unattended durables (unattended.go) *)

Definition ObserveRequest (subject : string) (err : option (list RequestError)) (now : Time) :
    M Ledger unit :=
  match ServedBy subject with
  | None => ret tt
  | Some domain =>
      match ClassifyRequestError err with
      | RequestNoResponders => modify (fun l => l <| lUnserved ::= <[domain := now]> |>)
      | RequestTimeout => ret tt
      | _ => modify (fun l => l <| lUnserved ::= delete domain |>)
      end
  end.

Definition unservedLocked (domain : string) (now : Time) : M Ledger bool :=
  u <- gets lUnserved;;
  match u !! domain with
  | None => ret false
  | Some last =>
      if 2 * UnattendedAfter <? Sub now last then
        modify (fun l => l <| lUnserved ::= delete domain |>);; ret false
      else ret true
  end.

(** [durableDomains]: a durable two domains list is the later one's. *)
Definition durableDomains : gmap string string :=
  fold_left (fun m d => fold_left (fun m c => <[c := dmName d]> m) (dmConsumers d) m) Domains ∅.

(** What [detect] reads before it locks: the consumer's state ([None] for an
    error or no reader) and its domain's presence ([None] without a reader,
    [Some None] for an error). *)
Record Reads := mkReads {
  rdState : option ConsumerState;
  rdPresence : option (option bool);
}.

Definition zero_attendance : attendance := mkAttendance false 0 0 false 0 false.

(** [detect]'s update of an [attendance] by a state that was read. *)
Definition see_state (now : Time) (st : ConsumerState) (a : attendance) : attendance :=
  let a := if negb (atKnown a) || negb (Lag st =? atLag a)
           then mkAttendance true (Lag st) now (atStalled a) (atAbsentSince a) (atUnattended a)
           else a in
  a <| atStalled := (0 <? stPending st) && (stWaiting st =? 0)
                    && (UnattendedAfter <=? Sub now (atLagSince a)) |>.

(** ... and by a presence that was read, or a verb found unserved. *)
Definition see_presence (now : Time) (absent : bool) (a : attendance) : attendance :=
  if absent && atKnown a && (0 <? atLag a) then
    (if IsZero (atAbsentSince a) then a <| atAbsentSince := now |> else a)
  else a <| atAbsentSince := 0 |>.

Definition no_agent (now : Time) (a : attendance) : bool :=
  negb (IsZero (atAbsentSince a)) && (UnattendedAfter <=? Sub now (atAbsentSince a)).

(** The domain's presence as [detect] reads it: absent, and the read's error. *)
Definition read_presence (domain : string) (rd : Reads) : bool * bool :=
  if String.eqb domain "" then (false, false)
  else match rdPresence rd with
       | None => (false, false)
       | Some None => (false, true)
       | Some (Some present) => (negb present, false)
       end.

Definition attend (now : Time) (rd : Reads) (absent prErr : bool) (a : attendance) : attendance :=
  let a := match rdState rd with Some st => see_state now st a | None => a end in
  let a := if prErr then a else see_presence now absent a in
  a <| atUnattended := atStalled a || no_agent now a |>.

Definition unattended_note (c : ConsumerSpec) (domain : string) (now : Time) (a : attendance) : string :=
  let why1 := if atStalled a then
      [fmt_d (atLag a) +:+ " pending with no pull open and no progress for " +:+ Duration_String UnattendedAfter]
    else [] in
  let why2 := if no_agent now a then
      ["no " +:+ domain +:+ " agent present for " +:+ Duration_String UnattendedAfter]
    else [] in
  csName c +:+ " is unattended: " +:+ Join (why1 ++ why2) "; ".

(** [detect]: the note of the Warning it records, if it records one. *)
Definition detect (c : ConsumerSpec) (domain : string) (rd : Reads) (now : Time) :
    M Ledger (option string) :=
  let '(absent, prErr) := read_presence domain rd in
  a <- gets (fun l => default zero_attendance (lAttendance l !! csName c));;
  un <- (if String.eqb domain "" then ret false else unservedLocked domain now);;
  let a' := attend now rd (absent || un) (prErr && negb un) a in
  modify (fun l => l <| lAttendance ::= <[csName c := a']> |>);;
  ret (if atUnattended a' && negb (atUnattended a)
       then Some (unattended_note c domain now a') else None).

(** [tick]: lapse every book, then detect every dispatched durable. *)
Fixpoint detect_each (reads : string -> Reads) (now : Time) (cs : list ConsumerSpec) :
    M Ledger (list string) :=
  match cs with
  | [] => ret []
  | c :: cs' =>
      if negb (csDispatched c) || String.eqb (csStream c) StreamAdvisories
      then detect_each reads now cs'
      else
        n <- detect c (default "" (durableDomains !! csName c)) (reads (csName c)) now;;
        WaitingCount (csName c) now;;
        ns <- detect_each reads now cs';;
        ret (match n with Some s => s :: ns | None => ns end)
  end.

Definition tick (reads : string -> Reads) (now : Time) : M Ledger (list string) :=
  bks <- gets (fun l => range (lBooks l));;
  for_each bks (fun '(durable, _) => lapseLocked durable now;; lapseWaitingLocked durable now);;
  detect_each reads now (Consumers o).
End Operations.
