(* ===== verification/LedgerFacts.v ===== *)
(** * The ledger's primitives and the effect of each operation on the books

    One rule per primitive, then, per operation, what it does to each durable's
    book: the lemmas the ledger's theorems share. *)

From S2P Require Import Prelude GoLang Api Events Ledger.

(** Every method that writes, as one operation; a step runs one of them at one
    time, in one order of the maps it ranges over. *)

Open Scope monad_scope.

(** ** Operations as steps *)

(** Every method that writes, and the locked halves of [rebuild] and [audit],
    with whatever they read between two locks.  [Start]'s loop and the planners
    are what chooses the next one. *)
Inductive Op :=
  | OAdmit (d : string) (k : Key) (sq : Z) (first : bool)
  | OPublished (d : string) (k : Key) (sq : Z)
  | OAnswered (d : string) (k : Key) (sq : Z)
  | OForgetGone (kind namespace name : string)
  | OForget (k : Key)
  | OWaiting (d : string) (k : Key) (reason : string)
  | OWaitingCount (d : string)
  | OOutstanding (d : string)
  | OObserve (subject : string) (err : option (list RequestError))
  | OTick (reads : string -> Reads)
  | OTakeWake
  | ORebuild (c : Cache) (clock : string -> nat -> Time) (srcs : list (string * SourceKind))
  | OAudit (d : string) (cutoff : Time) (flying : gmap Key bool) (slots : list (Key * Z)).

Definition done_ {A} (m : M Ledger A) : M Ledger unit := m;; ret tt.

Definition exec (o : Topology) (R : RangeOrder) (now now' : Time) (op : Op) : M Ledger unit :=
  match op with
  | OAdmit d k sq first => done_ (ledger_admit o d k sq first now)
  | OPublished d k sq => Published o d k sq now now'
  | OAnswered d k sq => Answered d k sq
  | OForgetGone kind namespace name => ForgetGone kind namespace name
  | OForget k => Forget k
  | OWaiting d k reason => Waiting d k reason now
  | OWaitingCount d => done_ (WaitingCount d now)
  | OOutstanding d => done_ (OutstandingCount d now)
  | OObserve subject err => ObserveRequest subject err now
  | OTick reads => done_ (tick o reads now)
  | OTakeWake => done_ take_wake
  | ORebuild c clock srcs =>
      match rebuild_read c clock srcs with Some fresh => rebuild_write fresh | None => ret tt end
  | OAudit d cutoff flying slots => done_ (audit_release d cutoff flying slots)
  end.

Inductive lstep (o : Topology) (now : Time) (l : Ledger) (op : Op) : Ledger -> Prop :=
  | lstep_exec (R : RangeOrder) now' : lstep o now l op (snd (exec o R now now' op l)).

(** What a manager can bring its ledger to: sources are registered, then any
    operation at any time. *)
Inductive reachable (o : Topology) : Ledger -> Prop :=
  | reach_new : reachable o New
  | reach_register l d s : reachable o l -> reachable o (snd (Register d s l))
  | reach_step l now op l' : reachable o l -> lstep o now l op l' -> reachable o l'.

(** ** An example ledger *)

Definition ex_durable : string := "catalog-search-normal".
Definition ex_key : Key := mkKey "Movie" "media" "heat" "search".
Definition ex_other : Key := mkKey "Movie" "media" "ronin" "search".

(** A durable with the least budget, two dispatches. *)
Definition ex_small : ConsumerSpec :=
  mkConsumerSpec ex_durable "CLUSTARR_WORK_CATALOG" "" [] Minute 5 [] 1 1 0 0 "" true false.
Definition ex_topology : Topology := mkTopology [] [ex_small] [] [] [].
Definition ex_now : Time := unixToInternal * Second.

(** Rebuilt, with [ex_key] in flight at seq 3. *)
Definition ex_cache : Cache := mkCache (fun _ => Some [mkOutstanding ex_key 3]) (fun _ _ => Some (3, true)).
Definition ex_registered : Ledger := snd (Register ex_durable PlainSource New).
Definition ex_run (op : Op) (now : Time) (l : Ledger) : Ledger :=
  snd (exec ex_topology map_order now now op l).
Definition ex_rebuild : Op :=
  ORebuild ex_cache (fun _ _ => ex_now) [(ex_durable, PlainSource)].
Definition ex_ledger : Ledger := ex_run ex_rebuild ex_now ex_registered.

Lemma ex_reachable : reachable ex_topology ex_ledger.
Proof.
  eapply reach_step; [apply reach_register, reach_new | apply (lstep_exec _ ex_now _ ex_rebuild map_order ex_now)].
Defined.

Open Scope monad_scope.

(** ** Maps of maps *)

Section Maps.
Context {V : Type}.
Implicit Types m : gmap string (gmap Key V).

Lemma map_of_alter_ne (f : gmap Key V -> gmap Key V) m d d' : d <> d' ->
  map_of (alter f d m) d' = map_of m d'.
Proof. intros Hd. unfold map_of. by rewrite lookup_alter_ne. Qed.

Lemma map_of_alter (f : gmap Key V -> gmap Key V) m d : f ∅ = ∅ ->
  map_of (alter f d m) d = f (map_of m d).
Proof. intros Hf. unfold map_of. rewrite lookup_alter_eq. by destruct (m !! d). Qed.

Lemma map_of_alter_in (f : gmap Key V -> gmap Key V) m d b : m !! d = Some b ->
  map_of (alter f d m) d = f (map_of m d).
Proof. intros Hb. unfold map_of. by rewrite lookup_alter_eq, Hb. Qed.

Lemma map_of_insert m d b : map_of (<[d := b]> m) d = b.
Proof. unfold map_of. by rewrite lookup_insert_eq. Qed.

Lemma map_of_insert_ne m d d' b : d <> d' -> map_of (<[d := b]> m) d' = map_of m d'.
Proof. intros Hd. unfold map_of. by rewrite lookup_insert_ne. Qed.

Lemma map_of_fmap (f : gmap Key V -> gmap Key V) m d : f ∅ = ∅ ->
  map_of (f <$> m) d = f (map_of m d).
Proof. intros Hf. unfold map_of. rewrite lookup_fmap. by destruct (m !! d). Qed.
End Maps.

(** The book of a durable, and the map [bookLocked] makes sure of. *)
Definition book (l : Ledger) (d : string) : gmap Key slot := map_of (lBooks l) d.

Definition with_book (d : string) (m : gmap string (gmap Key slot)) : gmap string (gmap Key slot) :=
  match m !! d with Some _ => m | None => <[d := ∅]> m end.

Lemma with_book_in d m : with_book d m !! d = Some (map_of m d).
Proof.
  unfold with_book, map_of. destruct (m !! d) eqn:E; [by rewrite E | by rewrite lookup_insert_eq].
Qed.

Lemma map_of_with_book d m d' : map_of (with_book d m) d' = map_of m d'.
Proof.
  unfold with_book, map_of. destruct (m !! d) eqn:E; [done |].
  destruct (decide (d = d')) as [<- | Hd]; [by rewrite lookup_insert_eq, E | by rewrite lookup_insert_ne].
Qed.

(** ** Rules of the primitives *)

Section Primitives.
Context {A : Type} (Q : A -> Ledger -> Prop) (Qu : unit -> Ledger -> Prop).
Implicit Types l : Ledger.

Lemma wp_bookLocked d (Qb : gmap Key slot -> Ledger -> Prop) l :
  Qb (book l d) (l <| lBooks := with_book d (lBooks l) |>) -> wp (bookLocked d) Qb l.
Proof.
  intros HQ. unfold bookLocked. apply wp_bind, wp_gets. unfold book, with_book, map_of, id in *.
  destruct (lBooks l !! d) eqn:E.
  - apply wp_ret. cbn in HQ. by destruct l.
  - apply wp_bind, wp_modify, wp_ret. exact HQ.
Qed.

Lemma wp_freedLocked `{RangeOrder} d n l :
  (forall ws, Qu tt (l <| lWakes := ws |>)) -> wp (freedLocked d n) Qu l.
Proof.
  intros HQ. assert (Qu tt l) as Hl by (specialize (HQ (lWakes l)); by destruct l).
  unfold freedLocked. apply wp_bind, wp_gets. repeat case_match; try (by apply wp_ret).
  apply wp_modify. apply HQ.
Qed.

Lemma wp_lapseLocked `{RangeOrder} d now l :
  (forall ws, Qu tt (l <| lBooks ::= alter (lapse_book now) d |> <| lWakes := ws |>)) ->
  wp (lapseLocked d now) Qu l.
Proof.
  intros HQ. unfold lapseLocked. apply wp_bind, wp_gets, wp_bind, wp_modify.
  apply wp_freedLocked. apply HQ.
Qed.

Lemma wp_markFirst d k now l :
  (forall f, Qu tt (l <| lFirst := f |>)) -> wp (markFirstLocked d k now) Qu l.
Proof. intros HQ. unfold markFirstLocked. apply wp_bind, wp_gets, wp_modify, HQ. Qed.

Lemma wp_budgetRetry d k first (Qd : Duration -> Ledger -> Prop) l :
  (forall r, Qd r l) -> wp (budgetRetryLocked d k first) Qd l.
Proof. intros HQ. unfold budgetRetryLocked. apply wp_bind, wp_gets, wp_ret, HQ. Qed.
End Primitives.

(** ** Lapsing *)

Lemma lapse_book_empty now : lapse_book now ∅ = ∅.
Proof. apply omap_empty. Qed.

Lemma lookup_lapse_book now b k : lapse_book now b !! k = b !! k ≫= lapse_slot now.
Proof. apply lookup_omap. Qed.

(** ** Admission *)

(** Whether a book already holds [k] at [sq] or later. *)
Definition holds_at (b : gmap Key slot) (k : Key) (sq : Z) : bool :=
  match b !! k with Some cur => sq <=? slSeq cur | None => false end.

(** The dispatches a book holds beside [k]'s. *)
Definition others (b : gmap Key slot) (k : Key) : Z := Z.of_nat (size (delete k b)).

(** The claims on the next slot that a routine [Admit] of [k] stands behind. *)
Definition claims (l : Ledger) (d : string) (k : Key) (now : Time) : Z :=
  Z.of_nat (size (delete k (live_first now (map_of (lFirst l) d)))).

Lemma others_count (b : gmap Key slot) k :
  Z.of_nat (size b) - match b !! k with Some _ => 1 | None => 0 end = others b k.
Proof.
  unfold others. destruct (b !! k) as [s |] eqn:E.
  - rewrite map_size_delete_Some by (by rewrite E).
    assert (size b <> 0%nat); [| lia]. intros Hz. apply map_size_empty_inv in Hz as ->. done.
  - by rewrite map_size_delete_None, Z.sub_0_r.
Qed.

Definition reservation (sq : Z) (now : Time) (prev : option slot) : slot :=
  mkSlot sq reserved (Add now ReservationTTL) prev now.

(** What no operation but [Register] and [rebuild] touches. *)
Definition framed (l l' : Ledger) : Prop := lSources l' = lSources l /\ lRebuilt l' = lRebuilt l.

Lemma framed_refl l : framed l l.
Proof. done. Qed.

(** The books other than [d]'s. *)
Definition books_but (d : string) (l l' : Ledger) : Prop :=
  forall d', d' <> d -> book l' d' = book l d'.

(** The three outcomes of an admission that is not refused outright. *)
Definition admit_outcome (o : Topology) (c : ConsumerSpec) d k sq (first : bool) now l
    (r : Decision) (b' : gmap Key slot) : Prop :=
  let b := lapse_book now (book l d) in
  let limit := budgetOf c - (if first then 0 else claims l d k now) in
  (holds_at b k sq = true /\ r = admitted_decision /\ b' = b) \/
  (holds_at b k sq = false /\ limit <= others b k /\ dcAdmitted r = false /\ b' = b /\
   dcReason r = if unattendedLocked l d then DeliveryReasonNoAgent else DeliveryReasonBudget) \/
  (holds_at b k sq = false /\ others b k < limit /\ r = admitted_decision /\
   b' = <[k := reservation sq now (b !! k)]> b).

(** A ledger whose book of [d] has lapsed; [lFirst] may have been pruned. *)
Record lapsed (d : string) (now : Time) (l l' : Ledger) : Prop := {
  lp_book : lBooks l' !! d = Some (lapse_book now (book l d));
  lp_other : books_but d l l';
  lp_frame : framed l l';
  lp_waiting : lWaiting l' = lWaiting l;
  lp_first : lFirst l' = lFirst l;
  lp_attendance : lAttendance l' = lAttendance l;
}.

Lemma book_in l d b : lBooks l !! d = Some b -> book l d = b.
Proof. unfold book, map_of. by intros ->. Qed.

Lemma wp_open `{RangeOrder} {A} d now (m : M Ledger A) (Q : A -> Ledger -> Prop) l :
  (forall l', lapsed d now l l' -> wp m Q l') ->
  wp (bookLocked d;; lapseLocked d now;; m) Q l.
Proof.
  intros HQ. apply wp_bind, wp_bookLocked, wp_bind, wp_lapseLocked. intros ws. apply HQ.
  split; try done.
  - cbv [upd set_lBooks set_lWakes eta_of eta_Ledger lBooks]. by rewrite lookup_alter_eq, with_book_in.
  - intros d' Hd. unfold book. cbv [upd set_lBooks set_lWakes eta_of eta_Ledger lBooks].
    rewrite map_of_alter_ne by done. apply map_of_with_book.
Qed.

(** A refusal for the budget, or for an unattended durable. *)
Definition refusal (o : Topology) d (l : Ledger) (r : Decision) : Prop :=
  dcAdmitted r = false /\
  dcReason r = (if unattendedLocked l d then DeliveryReasonNoAgent else DeliveryReasonBudget).

Lemma wp_refuse o d k n (first : bool) now (Q : Decision -> Ledger -> Prop) l :
  (forall r l', lBooks l' = lBooks l -> framed l l' ->
     (first = true -> exists fw, map_of (lFirst l') d !! k = Some fw /\ fwSeen fw = now) ->
     refusal o d l r -> Q r l') ->
  wp (refuse d k n first now) Q l.
Proof.
  intros HQ. unfold refuse. apply wp_bind, wp_when; intros ->.
  all: unfold markFirstLocked; repeat (wp_step || apply wp_budgetRetry; intros); apply HQ; try done.
  all: try (intros _; cbv [upd set_lFirst eta_of eta_Ledger lFirst];
    rewrite map_of_insert, lookup_insert_eq; by eauto).
  all: split; [done |]; match goal with Hu : _ = ?b |- _ =>
    change (unattendedLocked l d = b) in Hu; by rewrite Hu end.
Qed.

Lemma wp_reserve d k sq prev now (Q : Decision -> Ledger -> Prop) l b : lBooks l !! d = Some b ->
  (forall l', books_but d l l' -> framed l l' -> book l' d = <[k := reservation sq now prev]> b ->
     Q admitted_decision l') ->
  wp (reserve d k sq prev now) Q l.
Proof.
  intros Hb HQ. unfold reserve, put_slot, clearWaitingLocked. repeat wp_step. apply HQ; try done.
  - intros d' Hd. unfold book. cbv [upd set_lBooks set_lWaiting set_lFirst eta_of eta_Ledger lBooks].
    by rewrite map_of_alter_ne.
  - unfold book. cbv [upd set_lBooks set_lWaiting set_lFirst eta_of eta_Ledger lBooks].
    rewrite (map_of_alter_in _ _ _ _ Hb). by rewrite (book_in _ _ _ Hb : map_of _ _ = _).
Qed.

(** The claims counted by the routine admissions of other keys. *)
Lemma wp_firstWaiting d k now (Q : Z -> Ledger -> Prop) l :
  Q (claims l d k now) (l <| lFirst ::= alter (live_first now) d |>) ->
  wp (firstWaitingLocked d k now) Q l.
Proof.
  intros HQ. unfold firstWaitingLocked. apply wp_bind, wp_modify, wp_bind, wp_gets, wp_ret.
  unfold claims in HQ. cbv [upd set_lFirst eta_of eta_Ledger lFirst] in *.
  rewrite map_of_alter; [exact HQ |]. apply map_filter_empty.
Qed.

(** The three outcomes of an admission that is not refused outright: [b] is the
    book as it lapses at [now]. *)
Inductive admitting (o : Topology) (c : ConsumerSpec) d k sq (first : bool) now l
    (b : gmap Key slot) : Decision -> Ledger -> Prop :=
  | admitting_held l' :
      holds_at b k sq = true -> book l' d = b ->
      admitting o c d k sq first now l b admitted_decision l'
  | admitting_refused r l' :
      holds_at b k sq = false ->
      budgetOf c - (if first then 0 else claims l d k now) <= others b k ->
      refusal o d l r -> book l' d = b ->
      (first = true -> exists fw, map_of (lFirst l') d !! k = Some fw /\ fwSeen fw = now) ->
      admitting o c d k sq first now l b r l'
  | admitting_reserved l' :
      holds_at b k sq = false ->
      others b k < budgetOf c - (if first then 0 else claims l d k now) ->
      book l' d = <[k := reservation sq now (b !! k)]> b ->
      admitting o c d k sq first now l b admitted_decision l'.

Lemma books_but_trans d l1 l2 l3 : books_but d l1 l2 -> books_but d l2 l3 -> books_but d l1 l3.
Proof. intros H1 H2 d' Hd. by rewrite H2, H1. Qed.

Lemma books_but_eq d l l' : lBooks l' = lBooks l -> books_but d l l'.
Proof. intros H d' _. unfold book. by rewrite H. Qed.

Lemma framed_trans l1 l2 l3 : framed l1 l2 -> framed l2 l3 -> framed l1 l3.
Proof. intros [] []. split; congruence. Qed.

Lemma admit_spec `{RangeOrder} (o : Topology) c d k sq first now l :
  lRebuilt l = true -> spec o d = Some c ->
  wp (ledger_admit o d k sq first now) (fun r l' =>
    books_but d l l' /\ framed l l' /\
    admitting o c d k sq first now l (lapse_book now (book l d)) r l') l.
Proof.
  intros Hr Hc. unfold ledger_admit. apply wp_bind, wp_gets. rewrite Hr, Hc. cbn [negb].
  apply wp_open. intros l1 [Hb Hne Hf Hw Hfi Ha].
  apply wp_bind, wp_gets. change (map_of (lBooks l1) d) with (book l1 d).
  rewrite (book_in _ _ _ Hb). set (b := lapse_book now (book l d)) in *.
  change (match b !! k with Some cur => sq <=? slSeq cur | None => false end) with (holds_at b k sq).
  destruct (holds_at b k sq) eqn:Eh.
  { unfold clearWaitingLocked. repeat wp_step. split; [done |]. split; [done |].
    constructor; [done |]. exact (book_in _ _ _ Hb). }
  cbv zeta. rewrite others_count. apply wp_bind.
  assert (forall f w, w = (if first then 0 else claims l d k now) ->
    wp (if budgetOf c - w <=? others b k then refuse d k (others b k) first now
        else reserve d k sq (b !! k) now)
      (fun r l' => books_but d l l' /\ framed l l' /\ admitting o c d k sq first now l b r l')
      (l1 <| lFirst := f |>)) as Htail.
  { intros f w ->. case_match; bools.
    - apply (wp_refuse o). intros r l2 Hb2 Hf2 Hk Hre.
      split; [by eapply books_but_trans, books_but_eq |]. split; [by eapply framed_trans |].
      apply admitting_refused; [done | lia | | |done].
      + destruct Hre as [? Hre]. split; [done |]. rewrite Hre. unfold unattendedLocked. cbn. by rewrite Ha.
      + unfold book. rewrite Hb2. exact (book_in _ _ _ Hb).
    - eapply wp_reserve; [exact Hb |]. intros l2 Hb2 Hf2 Hbk.
      split; [by eapply books_but_trans |]. split; [by eapply framed_trans |].
      apply admitting_reserved; [done | lia | done]. }
  destruct first.
  - apply wp_ret. specialize (Htail (lFirst l1) 0 eq_refl). by destruct l1.
  - apply wp_firstWaiting. apply (Htail (alter (live_first now) d (lFirst l1))).
    unfold claims. by rewrite Hfi.
Qed.

Lemma admit_closed `{RangeOrder} (o : Topology) d k sq first now l :
  lRebuilt l = false \/ spec o d = None ->
  wp (ledger_admit o d k sq first now) (fun r l' => dcAdmitted r = false /\ l' = l) l.
Proof.
  intros Hc. unfold ledger_admit. apply wp_bind, wp_gets. destruct (lRebuilt l) eqn:Er; cbn [negb].
  - destruct Hc as [? | ->]; [done |]. by apply wp_ret.
  - by apply wp_ret.
Qed.

(** ** Lapsing, composed *)

Lemma lapse_slot_later now t s : now <= t -> lapse_slot now s ≫= lapse_slot t = lapse_slot t s.
Proof.
  intros Ht. revert s. fix IH 1. intros [sq st e p a]. cbn [lapse_slot slExpires slPrev].
  destruct (negb (IsZero e) && negb (Before now e)) eqn:E; [| done].
  assert (negb (Before t e) = true) as Hb.
  { apply andb_prop in E as [_ E]. unfold Before in *. bools. lia. }
  apply andb_prop in E as [-> _]. rewrite Hb. cbn.
  destruct p as [p |]; [apply IH | done].
Qed.

Lemma lapse_book_later now t b : now <= t -> lapse_book t (lapse_book now b) = lapse_book t b.
Proof.
  intros Ht. apply map_eq. intros k. rewrite !lookup_lapse_book.
  destruct (b !! k); [| done]. by apply lapse_slot_later.
Qed.

(** A reservation that lapsed is the slot it superseded, lapsed. *)
Lemma lapse_reservation sq now prev t : 0 <= now -> now + ReservationTTL <= t ->
  lapse_slot t (reservation sq now prev) = prev ≫= lapse_slot t.
Proof.
  intros Hn Ht. unfold reservation. cbn [lapse_slot slExpires slPrev]. unfold Add, IsZero, Before.
  unfold ReservationTTL, Second in *.
  replace (now + _ =? 0) with false by lia. replace (t <? _) with false by lia. by destruct prev.
Qed.

(** ** Frames of loops

    [sweeping f l l']: each durable's book is as it was or is what [f] leaves of
    it. *)
Definition sweeping (f : gmap Key slot -> gmap Key slot) (l l' : Ledger) : Prop :=
  framed l l' /\ forall d, book l' d = book l d \/ book l' d = f (book l d).

Class Idempotent (f : gmap Key slot -> gmap Key slot) := {
  idem : forall b, f (f b) = f b;
  idem_empty : f ∅ = ∅;
}.

#[export] Instance lapse_idem now : Idempotent (lapse_book now).
Proof. split; [intros b; by apply lapse_book_later | apply lapse_book_empty]. Qed.

#[export] Instance delete_idem k : Idempotent (delete k).
Proof. split; [intros b; apply delete_delete_eq | apply delete_empty]. Qed.

#[export] Instance sweep_idem p : Idempotent (sweep p).
Proof.
  split; [| apply map_filter_empty]. intros b. apply map_filter_id. intros k s Hk.
  apply map_lookup_filter_Some in Hk as [_ Hk]. exact Hk.
Qed.

#[export] Instance sweeping_refl f : Reflexive (sweeping f).
Proof. intros l. split; [done |]. intros d. by left. Qed.

#[export] Instance sweeping_trans f `{!Idempotent f} : Transitive (sweeping f).
Proof.
  intros l1 l2 l3 [F1 B1] [F2 B2]. split; [by eapply framed_trans |]. intros d.
  destruct (B1 d) as [E1 | E1], (B2 d) as [E2 | E2]; rewrite E1 in E2; auto.
  right. by rewrite E2, idem.
Qed.

Lemma wp_sub {S A} (R : S -> S -> Prop) (m : M S A) : (forall s, wp m (fun _ s' => R s s') s) -> keeps R m.
Proof. intros Hm s. exact (proj1 (wp_iff _ _ _) (Hm s)). Qed.

Section Sweeping.
Context `{RangeOrder} (f : gmap Key slot -> gmap Key slot) `{!Idempotent f}.

Lemma sweeping_same l l' : lBooks l' = lBooks l -> framed l l' -> sweeping f l l'.
Proof. intros Hb Hf. split; [done |]. intros d. left. unfold book. by rewrite Hb. Qed.

Lemma keeps_freed d n : keeps (sweeping f) (freedLocked d n).
Proof. apply wp_sub. intros l. apply wp_freedLocked. intros ws. by apply sweeping_same. Qed.

Lemma keeps_books d : keeps (sweeping f) (modify (fun l => l <| lBooks ::= alter f d |>)).
Proof.
  apply keeps_modify. intros l. split; [done |]. intros d'. unfold book.
  cbv [upd set_lBooks eta_of eta_Ledger lBooks].
  destruct (decide (d = d')) as [<- | Hd]; [right; apply map_of_alter, idem_empty | left; by apply map_of_alter_ne].
Qed.

Lemma keeps_elsewhere (g : Ledger -> Ledger) :
  (forall l, lBooks (g l) = lBooks l /\ framed l (g l)) -> keeps (sweeping f) (modify g).
Proof. intros Hg. apply keeps_modify. intros l. destruct (Hg l). by apply sweeping_same. Qed.

Lemma keeps_for_each {A} (xs : list A) (g : A -> M Ledger unit) :
  (forall x, keeps (sweeping f) (g x)) -> keeps (sweeping f) (for_each xs g).
Proof.
  intros Hg. induction xs as [| x xs IH]; cbn [for_each]; [apply keeps_ret; typeclasses eauto |].
  apply keeps_bind; [typeclasses eauto | apply Hg | intros _; apply IH].
Qed.
End Sweeping.
#[export] Hint Resolve keeps_freed keeps_books : keeps.

(** ** The other operations' frames *)

Section Frames.
Context (o : Topology) `{RangeOrder}.

(** An operation that writes no book. *)
Definition bookless (l l' : Ledger) : Prop := lBooks l' = lBooks l /\ framed l l'.

#[export] Instance bookless_refl : Reflexive bookless.
Proof. done. Qed.
#[export] Instance bookless_trans : Transitive bookless.
Proof. intros l1 l2 l3 [B1 F1] [B2 F2]. split; [congruence | by eapply framed_trans]. Qed.

#[export] Instance bookless_sweeping f `{!Idempotent f} : Absorbs bookless (sweeping f).
Proof.
  assert (forall l l', bookless l l' -> sweeping f l l') as Hs.
  { intros l l' [Hb Hf]. by apply sweeping_same. }
  split; [exact Hs | |]; intros l1 l2 l3 H1 H2.
  - etransitivity; [by apply Hs | exact H2].
  - etransitivity; [exact H1 | by apply Hs].
Qed.

Lemma keeps_bookless f `{!Idempotent f} {A} (m : M Ledger A) :
  keeps bookless m -> keeps (sweeping f) m.
Proof. apply (keeps_sub bookless (sweeping f)). Qed.

Lemma keeps_freed_bookless d n : keeps bookless (freedLocked d n).
Proof. apply wp_sub. intros l. by apply wp_freedLocked. Qed.

Lemma keeps_modify_bookless (g : Ledger -> Ledger) :
  (forall l, bookless l (g l)) -> keeps bookless (modify g).
Proof. apply keeps_modify. Qed.

Lemma keeps_lapseWaiting d now : keeps bookless (lapseWaitingLocked d now).
Proof. by apply keeps_modify. Qed.

Lemma keeps_detect c domain rd now : keeps bookless (detect c domain rd now).
Proof. unfold detect, unservedLocked. keeps; by apply keeps_modify. Qed.

Lemma keeps_detect_each reads now cs : keeps bookless (detect_each reads now cs).
Proof.
  induction cs as [| c cs IH]; cbn [detect_each]; [keeps |]. case_match; [exact IH |].
  apply keeps_bind; [typeclasses eauto | apply keeps_detect |]. intros n.
  unfold WaitingCount. keeps; auto using keeps_lapseWaiting.
Qed.

Lemma keeps_lapseLocked d now : keeps (sweeping (lapse_book now)) (lapseLocked d now).
Proof.
  apply wp_sub. intros l. apply wp_lapseLocked. intros ws. split; [done |]. intros d'. unfold book.
  cbv [upd set_lBooks set_lWakes eta_of eta_Ledger lBooks].
  destruct (decide (d = d')) as [<- | Hd]; [right; apply map_of_alter, lapse_book_empty |].
  left. by apply map_of_alter_ne.
Qed.

Lemma keeps_tick reads now : keeps (sweeping (lapse_book now)) (tick o reads now).
Proof.
  unfold tick. apply keeps_bind; [typeclasses eauto | apply keeps_gets; typeclasses eauto |].
  intros bks. apply keeps_bind; [typeclasses eauto | |].
  - apply keeps_for_each; [typeclasses eauto |]. intros [d b].
    apply keeps_bind; [typeclasses eauto | apply keeps_lapseLocked | intros _].
    apply keeps_bookless; [typeclasses eauto | apply keeps_lapseWaiting].
  - intros _. apply keeps_bookless; [typeclasses eauto | apply keeps_detect_each].
Qed.

Lemma keeps_Forget k : keeps (sweeping (delete k)) (Forget k).
Proof.
  unfold Forget. apply keeps_bind; [typeclasses eauto | apply keeps_gets; typeclasses eauto | intros bks].
  apply keeps_bind; [typeclasses eauto | |].
  - apply keeps_for_each; [typeclasses eauto |]. intros [d b]. case_match; [| apply keeps_ret; typeclasses eauto].
    apply keeps_bind; [typeclasses eauto | apply keeps_books; typeclasses eauto |].
    intros _. apply keeps_freed.
  - intros _. by apply keeps_elsewhere.
Qed.
End Frames.
