(* ===== verification/LedgerSafe.v ===== *)
(** * The ledger's safety: one key's machine, in-flight dispatches, budgets

    Whatever the order the operations interleave and a map is ranged over, each
    step takes each key of each durable through one rule of a small machine
    ([slot_step]).  From it: what a
    reachable ledger's slots look like, when a dispatch in flight can leave the
    ledger, and what makes a book grow. *)

From S2P Require Import Prelude GoLang Api Events Ledger LedgerFacts.

Open Scope monad_scope.

(** ** One key of one durable *)

Definition publication (sq : Z) (expires now : Time) : slot := mkSlot sq published expires None now.

(** The operations that lapse a durable's book. *)
Definition lapses (d : string) (op : Op) : bool :=
  match op with
  | OAdmit d' _ _ _ | OOutstanding d' => String.eqb d' d
  | OTick _ => true
  | _ => false
  end.

(** The machine of a key's slot; [reb] tells whether the durable is
    rebuildable. *)
Inductive slot_step (now : Time) (reb : bool) (d : string) (k : Key) :
    Op -> option slot -> option slot -> Prop :=
  | ss_stay op x : slot_step now reb d k op x x
  | ss_lapse op x : lapses d op = true -> slot_step now reb d k op x (x ≫= lapse_slot now)
  | ss_reserve sq first x :
      (forall s, x ≫= lapse_slot now = Some s -> slSeq s < sq) ->
      slot_step now reb d k (OAdmit d k sq first) x (Some (reservation sq now (x ≫= lapse_slot now)))
  | ss_publish sq expires x :
      (forall s, x = Some s -> slSeq s <= sq) -> (reb = true -> expires = 0) ->
      slot_step now reb d k (OPublished d k sq) x (Some (publication sq expires now))
  | ss_answer sq s : slSeq s <= sq -> slot_step now reb d k (OAnswered d k sq) (Some s) None
  | ss_forget x : slot_step now reb d k (OForget k) x None
  | ss_gone kind namespace name x :
      key_gone kind namespace name k = true ->
      slot_step now reb d k (OForgetGone kind namespace name) x None
  | ss_audit cutoff flying slots s :
      slState s = published -> slAt s < cutoff -> default false (flying !! k) = false ->
      (k, slSeq s) ∈ slots ->
      slot_step now reb d k (OAudit d cutoff flying slots) (Some s) None
  | ss_rebuild c clock srcs outs x :
      cRebuild c d = Some outs ->
      slot_step now reb d k (ORebuild c clock srcs) x (rebuild_book (clock d) outs !! k).

(** What each kind of frame says of one key. *)
Lemma sweeping_slot f l l' d k : sweeping f l l' ->
  book l' d !! k = book l d !! k \/ book l' d !! k = f (book l d) !! k.
Proof. intros [_ Hb]. destruct (Hb d) as [-> | ->]; auto. Qed.

Lemma bookless_slot l l' d k : bookless l l' -> book l' d !! k = book l d !! k.
Proof. intros [Hb _]. unfold book. by rewrite Hb. Qed.

Lemma lookup_sweep {V} p (m : gmap Key V) k :
  sweep p m !! k = if p k then None else m !! k.
Proof.
  unfold sweep. destruct (p k) eqn:E.
  - apply map_lookup_filter_None_2. right. intros v _. by rewrite E.
  - destruct (m !! k) as [v |] eqn:Ev.
    + by apply map_lookup_filter_Some_2.
    + apply map_lookup_filter_None_2. by left.
Qed.

Lemma delete_slot k k' (b : gmap Key slot) :
  delete k b !! k' = if decide (k = k') then None else b !! k'.
Proof. case_decide as E; [subst; apply lookup_delete_eq | by apply lookup_delete_ne]. Qed.

(** ** Each operation refines the machine *)

Definition refines (o : Topology) (now : Time) (op : Op) (l l' : Ledger) : Prop :=
  lSources l' = lSources l /\
  forall d k, slot_step now (rebuildable l d) d k op (book l d !! k) (book l' d !! k).

Lemma refines_bookless o now op l l' : bookless l l' -> refines o now op l l'.
Proof.
  intros Hb. split; [apply Hb |]. intros d k. rewrite (bookless_slot _ _ d k Hb). apply ss_stay.
Qed.

Lemma refines_books o now op l l' :
  lSources l' = lSources l -> (forall d, book l' d = book l d) -> refines o now op l l'.
Proof. intros Hs Hb. split; [done |]. intros d k. rewrite Hb. apply ss_stay. Qed.

(** A loop that leaves each book as it was or as [f] leaves it. *)
Lemma refines_sweeping o now op f l l' : sweeping f l l' ->
  (forall d k, slot_step now (rebuildable l d) d k op (book l d !! k) (f (book l d) !! k)) ->
  refines o now op l l'.
Proof.
  intros Hsw Hf. split; [apply Hsw |]. intros d k.
  destruct (sweeping_slot f l l' d k Hsw) as [-> | ->]; [apply ss_stay | apply Hf].
Qed.

Lemma wp_done {A} (m : M Ledger A) (Q : Ledger -> Prop) l :
  wp m (fun _ l' => Q l') l -> wp (done_ m) (fun _ l' => Q l') l.
Proof. intros H. apply wp_bind. eapply wp_mono; [exact H |]. intros a l' Hl. by apply wp_ret. Qed.

Lemma wp_of_keeps {A} R (m : M Ledger A) (Q : Ledger -> Prop) l :
  keeps R m -> (forall l', R l l' -> Q l') -> wp m (fun _ l' => Q l') l.
Proof. intros Hm HQ. eapply wp_keeps; [exact Hm |]. intros _. apply HQ. Qed.

Section Refinement.
Context (o : Topology) (R : RangeOrder) (now now' : Time).

Lemma refine_admit d k sq first l :
  wp (ledger_admit o d k sq first now) (fun _ l' => refines o now (OAdmit d k sq first) l l') l.
Proof.
  destruct (lRebuilt l) eqn:Er; [destruct (spec o d) as [c |] eqn:Ec |].
  2,3: eapply wp_mono; [apply admit_closed; auto |]; intros r l' [_ ->];
    by apply refines_bookless.
  eapply wp_mono; [by apply admit_spec |]. intros r l' (Hb & [Hs _] & Ha). split; [exact Hs |].
  intros d' k'. destruct (decide (d' = d)) as [-> | Hd]; [| rewrite Hb by done; apply ss_stay].
  assert (slot_step now (rebuildable l d) d k' (OAdmit d k sq first) (book l d !! k')
            (lapse_book now (book l d) !! k')) as Hl.
  { rewrite lookup_lapse_book. apply ss_lapse. cbn. apply String.eqb_refl. }
  destruct Ha as [l' _ E | r l' _ _ _ E _ | l' Hh _ E]; rewrite E; [exact Hl.. |].
  destruct (decide (k = k')) as [<- | Hk]; [| by rewrite lookup_insert_ne].
  rewrite lookup_insert_eq, lookup_lapse_book. apply ss_reserve. intros s Hs'.
  unfold holds_at in Hh. rewrite lookup_lapse_book, Hs' in Hh. by bools.
Qed.

Lemma refine_published d k sq l :
  wp (Published o d k sq now now') (fun _ l' => refines o now (OPublished d k sq) l l') l.
Proof.
  unfold Published. apply wp_bind, wp_bookLocked. cbv zeta.
  destruct (match book l d !! k with Some cur => sq <? slSeq cur | None => false end) eqn:E.
  { apply wp_ret, refines_books; [done |]. intros d'. apply map_of_with_book. }
  unfold put_slot, clearWaitingLocked. apply wp_bind, wp_gets, wp_bind, wp_modify, wp_modify.
  split; [done |]. intros d' k'. unfold book at 2.
  cbv [upd set_lBooks set_lWaiting eta_of eta_Ledger lBooks].
  destruct (decide (d' = d)) as [-> | Hd].
  - rewrite (map_of_alter_in _ _ _ _ (with_book_in d (lBooks l))), map_of_with_book.
    fold (book l d). destruct (decide (k = k')) as [<- | Hk]; [| rewrite lookup_insert_ne by done; apply ss_stay].
    rewrite lookup_insert_eq. apply ss_publish.
    + intros s Hs. rewrite Hs in E. by bools.
    + unfold rebuildable. cbn. by destruct (lSources l !! d).
  - rewrite map_of_alter_ne, map_of_with_book by done. apply ss_stay.
Qed.

Lemma refine_answered d k sq l :
  wp (Answered d k sq) (fun _ l' => refines o now (OAnswered d k sq) l l') l.
Proof.
  unfold Answered. apply wp_bind, wp_bookLocked.
  destruct (book l d !! k) as [cur |] eqn:E.
  2: { apply wp_ret, refines_books; [done |]. intros d'. apply map_of_with_book. }
  destruct (slSeq cur <=? sq) eqn:Es; bools.
  2: { apply wp_ret, refines_books; [done |]. intros d'. apply map_of_with_book. }
  unfold drop_slot. apply wp_bind, wp_modify, wp_freedLocked. intros ws. split; [done |].
  intros d' k'. unfold book at 2. cbv [upd set_lBooks set_lWakes eta_of eta_Ledger lBooks].
  destruct (decide (d' = d)) as [-> | Hd].
  - rewrite (map_of_alter_in _ _ _ _ (with_book_in d (lBooks l))), map_of_with_book.
    fold (book l d). rewrite delete_slot. case_decide as Hk; [subst k' | apply ss_stay].
    rewrite E. by apply ss_answer.
  - rewrite map_of_alter_ne, map_of_with_book by done. apply ss_stay.
Qed.

Lemma refine_forget k l : wp (Forget k) (fun _ l' => refines o now (OForget k) l l') l.
Proof.
  eapply wp_of_keeps; [apply keeps_Forget |]. intros l' Hsw.
  eapply refines_sweeping; [exact Hsw |]. intros d k'. rewrite delete_slot.
  case_decide as Hk; [subst; apply ss_forget | apply ss_stay].
Qed.

Lemma keeps_ForgetGone kind namespace name :
  keeps (sweeping (sweep (key_gone kind namespace name))) (ForgetGone kind namespace name).
Proof.
  unfold ForgetGone. cbv zeta.
  apply keeps_bind; [typeclasses eauto | apply keeps_gets; typeclasses eauto | intros srcs].
  apply keeps_for_each; [typeclasses eauto |]. intros [d s].
  apply keeps_bind; [typeclasses eauto | apply keeps_gets; typeclasses eauto | intros b].
  apply keeps_bind; [typeclasses eauto | | intros _; apply keeps_freed].
  apply keeps_modify. intros l. split; [done |]. intros d'. unfold book.
  cbv [upd set_lBooks set_lWaiting set_lFirst eta_of eta_Ledger lBooks].
  destruct (decide (d = d')) as [<- | Hd]; [right; apply map_of_alter, idem_empty | left; by apply map_of_alter_ne].
Qed.

Lemma refine_gone kind namespace name l :
  wp (ForgetGone kind namespace name) (fun _ l' => refines o now (OForgetGone kind namespace name) l l') l.
Proof.
  eapply wp_of_keeps; [apply keeps_ForgetGone |]. intros l' Hsw.
  eapply refines_sweeping; [exact Hsw |]. intros d k. rewrite lookup_sweep.
  case_match; [by apply ss_gone | apply ss_stay].
Qed.

Lemma refine_tick reads l : wp (tick o reads now) (fun _ l' => refines o now (OTick reads) l l') l.
Proof.
  eapply wp_of_keeps; [apply keeps_tick |]. intros l' Hsw.
  eapply refines_sweeping; [exact Hsw |]. intros d k. rewrite lookup_lapse_book. by apply ss_lapse.
Qed.

Lemma refine_outstanding d l :
  wp (OutstandingCount d now) (fun _ l' => refines o now (OOutstanding d) l l') l.
Proof.
  unfold OutstandingCount. apply wp_open. intros l1 Hl. apply wp_gets. destruct Hl as [Hb Hne Hf _ _ _].
  split; [apply Hf |]. intros d' k. destruct (decide (d' = d)) as [-> | Hd].
  - rewrite (book_in _ _ _ Hb), lookup_lapse_book. apply ss_lapse. cbn. apply String.eqb_refl.
  - rewrite Hne by done. apply ss_stay.
Qed.

(** The audit's second lock: each key it drops was noted, is still the published
    slot that was noted, and is in flight by no status. *)
Lemma wp_audit_slots d cutoff flying slots l :
  wp (audit_slots d cutoff flying slots)
    (fun _ l' => framed l l' /\ books_but d l l' /\ forall k,
       book l' d !! k = book l d !! k \/
       exists s, book l d !! k = Some s /\ book l' d !! k = None /\ slState s = published /\
         slAt s < cutoff /\ default false (flying !! k) = false /\ (k, slSeq s) ∈ slots) l.
Proof.
  revert l. induction slots as [| st slots IH]; intros l; cbn [audit_slots].
  { apply wp_ret. split; [done |]. split; [done |]. by left. }
  apply wp_bind, wp_gets. fold (book l d). destruct (releases cutoff flying (book l d) st) eqn:Er.
  - unfold drop_slot. apply wp_bind, wp_modify, wp_bind.
    eapply wp_mono; [apply IH |]. intros ks l' (Hf & Hb & Hk). apply wp_ret.
    split; [exact Hf |].
    assert (forall d', d' <> d -> book (l <| lBooks ::= alter (delete st.1) d |>) d' = book l d') as Hne.
    { intros d' Hd. unfold book. cbv [upd set_lBooks eta_of eta_Ledger lBooks]. by rewrite map_of_alter_ne. }
    assert (book (l <| lBooks ::= alter (delete st.1) d |>) d = delete st.1 (book l d)) as Hd.
    { unfold book. cbv [upd set_lBooks eta_of eta_Ledger lBooks]. by rewrite map_of_alter. }
    split; [intros d' Hd'; by rewrite Hb, Hne |]. intros k. specialize (Hk k). rewrite Hd, delete_slot in Hk.
    case_decide as Hst.
    + subst k. destruct Hk as [Hk | (s & Hs & _)]; [| done]. right. unfold releases in Er.
      destruct (book l d !! st.1) as [s |]; [| done]. bools. exists s.
      split; [done |]. split; [done |]. split; [done |]. unfold Before in *. bools.
      split; [lia |]. split; [done |]. destruct st as [k q]. cbn in *. subst q. apply list_elem_of_here.
    + destruct Hk as [Hk | (s & Hs & Hn & H1 & H2 & H3 & H4)]; [by left | right]. exists s.
      split_and!; try done. by apply list_elem_of_further.
  - eapply wp_mono; [apply IH |]. intros ks l' (Hf & Hb & Hk). split; [done |]. split; [done |].
    intros k. destruct (Hk k) as [? | (s & H1 & H2 & H3 & H4 & H5 & H6)]; [by left | right].
    exists s. split_and!; try done. by apply list_elem_of_further.
Qed.

Lemma refine_audit d cutoff flying slots l :
  wp (audit_release d cutoff flying slots)
    (fun _ l' => refines o now (OAudit d cutoff flying slots) l l') l.
Proof.
  unfold audit_release. apply wp_bind. eapply wp_mono; [apply wp_audit_slots |].
  intros ks l1 (Hf & Hb & Hk). apply wp_bind, wp_freedLocked. intros ws. apply wp_ret.
  split; [apply Hf |]. intros d' k. change (book (l1 <| lWakes := ws |>) d') with (book l1 d').
  destruct (decide (d' = d)) as [-> | Hd]; [| rewrite Hb by done; apply ss_stay].
  destruct (Hk k) as [-> | (s & -> & -> & H1 & H2 & H3 & H4)]; [apply ss_stay | by apply ss_audit].
Qed.

Lemma rebuild_read_lookup c clock srcs fresh d b :
  rebuild_read c clock srcs = Some fresh -> fresh !! d = Some b ->
  exists outs, cRebuild c d = Some outs /\ b = rebuild_book (clock d) outs.
Proof.
  revert fresh. induction srcs as [| [d' s] srcs IH]; intros fresh; cbn [rebuild_read].
  - intros [= <-]. by rewrite lookup_empty.
  - destruct (cRebuild c d') as [outs |] eqn:Eo; [| done].
    destruct (rebuild_read c clock srcs) as [rest |]; [| done]. intros [= <-] Hb.
    destruct (decide (d' = d)) as [<- | Hd].
    + rewrite lookup_insert_eq in Hb. injection Hb as <-. by exists outs.
    + rewrite lookup_insert_ne in Hb by done. by apply (IH rest).
Qed.

Lemma refine_rebuild c clock srcs l :
  wp (exec o R now now' (ORebuild c clock srcs)) (fun _ l' => refines o now (ORebuild c clock srcs) l l') l.
Proof.
  cbn [exec]. destruct (rebuild_read c clock srcs) as [fresh |] eqn:Er.
  2: { apply wp_ret. by apply refines_bookless. }
  unfold rebuild_write. apply wp_modify. split; [done |]. intros d k. unfold book at 2.
  cbv [upd set_lBooks set_lRebuilt eta_of eta_Ledger lBooks]. unfold map_of.
  destruct (fresh !! d) as [b |] eqn:Eb.
  - destruct (rebuild_read_lookup _ _ _ _ _ _ Er Eb) as (outs & Ho & ->).
    rewrite (lookup_union_Some_l _ _ _ _ Eb). by apply ss_rebuild.
  - rewrite lookup_union_r by done. apply ss_stay.
Qed.

Lemma refine_exec op l : wp (exec o R now now' op) (fun _ l' => refines o now op l l') l.
Proof.
  destruct op; try apply wp_done.
  - apply refine_admit.
  - apply refine_published.
  - apply refine_answered.
  - apply refine_gone.
  - apply refine_forget.
  - unfold exec, Waiting. apply wp_bind, wp_gets, wp_modify. by apply refines_bookless.
  - unfold WaitingCount, lapseWaitingLocked. apply wp_bind, wp_modify, wp_gets. by apply refines_bookless.
  - apply refine_outstanding.
  - unfold exec, ObserveRequest. repeat case_match; (apply wp_modify || apply wp_ret); by apply refines_bookless.
  - apply refine_tick.
  - unfold take_wake. apply wp_bind, wp_gets. case_match; [apply wp_ret | apply wp_bind, wp_modify, wp_ret];
      by apply refines_bookless.
  - apply refine_rebuild.
  - apply refine_audit.
Qed.
End Refinement.

Lemma lstep_slots o now l op l' : lstep o now l op l' -> forall d k,
  slot_step now (rebuildable l d) d k op (book l d !! k) (book l' d !! k).
Proof. intros [R now']. exact (proj2 (wp_run _ _ _ _ _ (refine_exec o R now now' op l) (surjective_pairing _))). Qed.

(** C24.  Refinement: whatever the interleaving and the order maps are ranged
    over, an operation of the ledger takes each key of each durable through one
    rule of the key's machine: its slot stays, lapses, is reserved over what it
    supersedes by a higher seq, is published at no lower a seq, or goes because
    it was answered, forgotten, audited away or replaced by a rebuild. *)
Theorem ledger_refines_slots (o : Topology) (now : Time) (l : Ledger) (op : Op) (l' : Ledger) :
  lstep o now l op l' -> forall d k,
  slot_step now (rebuildable l d) d k op (book l d !! k) (book l' d !! k).
Proof. apply lstep_slots. Qed.

Lemma ledger_refines_slots_witness :
  let op := OAdmit ex_durable ex_key 4 false in
  let l' := ex_run op ex_now ex_ledger in
  book l' ex_durable !! ex_key = Some (reservation 4 ex_now (Some (publication 3 0 ex_now))) /\
  slot_step ex_now (rebuildable ex_ledger ex_durable) ex_durable ex_key op
    (book ex_ledger ex_durable !! ex_key) (book l' ex_durable !! ex_key).
Proof.
  intros op l'. split; [vm_compute; reflexivity |].
  apply (ledger_refines_slots ex_topology ex_now ex_ledger op l').
  apply (lstep_exec _ ex_now _ op map_order ex_now).
Defined.

(** ** What a reachable ledger holds *)

(** A slot's chain: seqs descend along it, only reservations supersede, and a
    reservation expires. *)
Fixpoint chain (s : slot) : Prop :=
  match slPrev s with
  | None => True
  | Some p => slState s = reserved /\ slSeq p < slSeq s /\ chain p
  end.

Definition good_slot (x : option slot) : Prop := match x with Some s => chain s | None => True end.

Lemma good_lapse now x : good_slot x -> good_slot (x ≫= lapse_slot now).
Proof.
  destruct x as [s |]; [| done]. cbn. revert s. fix IH 1. intros [sq st e p a].
  cbn [lapse_slot slExpires slPrev]. destruct (negb _ && _); [| intros Hc; exact Hc].
  destruct p as [p |]; [| done]. cbn. intros (_ & _ & Hp). by apply IH.
Qed.

(** What [rebuild] makes of the dispatches read so far. *)
Definition rebuilt_from (outs : list Outstanding) (b : gmap Key slot) : Prop :=
  forall k, match b !! k with
            | None => forall out, out ∈ outs -> oKey out <> k
            | Some s => slState s = published /\ slPrev s = None /\ slExpires s = 0 /\
                        mkOutstanding k (slSeq s) ∈ outs /\
                        forall out, out ∈ outs -> oKey out = k -> oSeq out <= slSeq s
            end.

Lemma rebuild_step_from clock outs out acc : rebuilt_from outs (snd acc) ->
  rebuilt_from (outs ++ [out]) (snd (rebuild_step clock acc out)).
Proof.
  intros Hb k. destruct acc as [i b]. cbn [snd rebuild_step] in *. specialize (Hb k) as Hk.
  assert (forall s, b !! k = Some s -> oSeq out <= slSeq s \/ oKey out <> k ->
    slState s = published /\ slPrev s = None /\ slExpires s = 0 /\
    mkOutstanding k (slSeq s) ∈ outs ++ [out] /\
    forall x, x ∈ outs ++ [out] -> oKey x = k -> oSeq x <= slSeq s) as Hkeep.
  { intros s Es Hle. rewrite Es in Hk. destruct Hk as (H1 & H2 & H3 & H4 & H5).
    split_and!; try done; [apply elem_of_app; by left |].
    intros x [Hx | ->%list_elem_of_singleton]%elem_of_app; [by apply H5 |]. intros <-. by destruct Hle. }
  destruct (match b !! oKey out with Some cur => oSeq out <=? slSeq cur | None => false end) eqn:E; cbn [snd].
  - destruct (b !! k) as [s |] eqn:Es.
    + apply Hkeep; [done |]. destruct (decide (oKey out = k)) as [<- | Hne]; [left | by right].
      rewrite Es in E. by bools.
    + intros x [Hx | ->%list_elem_of_singleton]%elem_of_app; [by apply Hk |].
      intros <-. by rewrite Es in E.
  - destruct (decide (oKey out = k)) as [<- | Hne].
    + rewrite lookup_insert_eq. cbn. split_and!; try done.
      * apply elem_of_app. right. apply list_elem_of_singleton. by destruct out.
      * intros x [Hx | ->%list_elem_of_singleton]%elem_of_app; [| done]. intros Hxk.
        destruct (b !! oKey out) as [s |] eqn:Es; [| by destruct (Hk x Hx)].
        bools. destruct Hk as (_ & _ & _ & _ & Hk). specialize (Hk x Hx Hxk). lia.
    + rewrite lookup_insert_ne by done. destruct (b !! k) as [s |] eqn:Es; [apply Hkeep; auto |].
      intros x [Hx | ->%list_elem_of_singleton]%elem_of_app; [by apply Hk | done].
Qed.

Lemma rebuild_fold_from clock outs done_outs acc : rebuilt_from done_outs (snd acc) ->
  rebuilt_from (done_outs ++ outs) (snd (fold_left (rebuild_step clock) outs acc)).
Proof.
  revert done_outs acc. induction outs as [| out outs IH]; intros done_outs acc Ha; cbn [fold_left].
  - by rewrite app_nil_r.
  - replace (done_outs ++ out :: outs) with ((done_outs ++ [out]) ++ outs) by by rewrite <- app_assoc.
    by apply IH, rebuild_step_from.
Qed.

Lemma rebuild_book_from clock outs : rebuilt_from outs (rebuild_book clock outs).
Proof.
  apply (rebuild_fold_from clock outs [] (0%nat, ∅)). intros k. cbn. rewrite lookup_empty.
  intros out Hout. by apply not_elem_of_nil in Hout.
Qed.

Lemma good_rebuild clock outs k : good_slot (rebuild_book clock outs !! k).
Proof.
  pose proof (rebuild_book_from clock outs k) as Hk.
  destruct (rebuild_book clock outs !! k) as [s |]; [| done].
  destruct Hk as (_ & Hp & _). destruct s. cbn in *. by subst.
Qed.

Lemma good_step now reb d k op x y : slot_step now reb d k op x y -> good_slot x -> good_slot y.
Proof.
  intros [ | | sq first z Hlt | | | | | | ] Hx; try done.
  - by apply good_lapse.
  - pose proof (good_lapse now z Hx) as Hg. cbn. destruct (z ≫= lapse_slot now) as [p |]; [| done].
    split; [done |]. split; [by apply Hlt | exact Hg].
  - apply good_rebuild.
Qed.

Lemma reachable_good o l d k : reachable o l -> good_slot (book l d !! k).
Proof.
  intros Hr. revert d k. induction Hr as [| l d s _ IH | l now op l' _ IH Hs]; intros d' k.
  - unfold book, map_of, New. cbn. by rewrite lookup_empty.
  - apply IH.
  - eapply good_step; [by eapply lstep_slots | apply IH].
Qed.

(** ** A dispatch in flight *)

(** The chain carries the dispatch at [n]: published, and never to expire. *)
Fixpoint carries (n : Z) (s : slot) : bool :=
  (bool_decide (slState s = published) && (slSeq s =? n) && (slExpires s =? 0))
  || match slPrev s with Some p => carries n p | None => false end.

Lemma carries_lapse n now s : carries n s = true ->
  exists s', lapse_slot now s = Some s' /\ carries n s' = true.
Proof.
  revert s. fix IH 1. intros [sq st e p a] Hc. cbn [lapse_slot slExpires slPrev] in *.
  destruct (negb (IsZero e) && negb (Before now e)) eqn:E; [| eauto].
  cbn [carries slState slSeq slExpires slPrev] in Hc. apply orb_true_iff in Hc as [Hc | Hc].
  - bools. unfold IsZero in *. subst. done.
  - destruct p as [p |]; [by apply IH | done].
Qed.

Lemma carries_le n s : chain s -> carries n s = true -> n <= slSeq s.
Proof.
  revert s. fix IH 1. intros [sq st e p a]. cbn [chain carries slPrev slSeq slState slExpires].
  intros Hch Hc. apply orb_true_iff in Hc as [Hc | Hc]; [bools; lia |].
  destruct p as [p |]; [| done]. destruct Hch as (_ & Hlt & Hp). specialize (IH p Hp Hc). lia.
Qed.

(** A published slot supersedes nothing: what it carries is itself. *)
Lemma carries_published n s : chain s -> slState s = published -> carries n s = true -> slSeq s = n.
Proof.
  destruct s as [sq st e p a]. cbn. intros Hch -> Hc. apply orb_true_iff in Hc as [Hc | Hc]; [by bools |].
  destruct p; [by destruct Hch | done].
Qed.

(** What takes the dispatch of [k] at [n] out of a durable's book. *)
Definition ends (d : string) (k : Key) (n : Z) (op : Op) : Prop :=
  match op with
  | OPublished d' k' sq => d' = d /\ k' = k /\ n < sq
  | OAnswered d' k' sq => d' = d /\ k' = k /\ n <= sq
  | OForget k' => k' = k
  | OForgetGone kind namespace name => key_gone kind namespace name k = true
  | OAudit d' _ flying slots => d' = d /\ (k, n) ∈ slots /\ default false (flying !! k) = false
  | ORebuild c _ _ => exists outs, cRebuild c d = Some outs
  | _ => False
  end.

Lemma carries_step now d k op x y n s : slot_step now true d k op x y -> good_slot x ->
  x = Some s -> carries n s = true ->
  (exists s', y = Some s' /\ carries n s' = true) \/ ends d k n op.
Proof.
  intros Hst Hg -> Hc. inversion Hst as [ | | sq first z Hlt | sq e z Hle He | sq s0 Hle | | | cutoff flying slots s0 Hp Ha Hfl Hin | ]; subst.
  - eauto.
  - left. by apply carries_lapse.
  - left. destruct (carries_lapse n now s Hc) as (s' & Hs' & Hc'). cbn in *. rewrite Hs'.
    eexists. split; [done |]. cbn. by rewrite Hc'.
  - pose proof (carries_le n s Hg Hc). specialize (Hle s eq_refl). specialize (He eq_refl). subst e.
    destruct (decide (sq = n)) as [<- | Hne]; [left | right; cbn; split_and!; (done || lia)].
    eexists. split; [done |]. cbn. by rewrite Z.eqb_refl.
  - right. cbn. pose proof (carries_le n s Hg Hc). split_and!; (done || lia).
  - by right.
  - by right.
  - right. cbn. rewrite <- (carries_published n s) by done. done.
  - right. cbn. eauto.
Qed.

(** C34.  Nothing in flight is forgotten: on a durable rebuilt from status, a
    published dispatch stays in the ledger through every interleaving until it
    is answered at its seq or later, superseded by a later publish, its key or
    its CR is forgotten, the audit read that no status shows it in flight, or
    the book is rebuilt from status.  A refused or lapsed admission, a tick and
    every operation on another key leave it. *)
Theorem in_flight_until_ended (o : Topology) (now : Time) (l : Ledger) (op : Op) (l' : Ledger) d k n s :
  reachable o l -> rebuildable l d = true ->
  book l d !! k = Some s -> carries n s = true -> lstep o now l op l' ->
  (exists s', book l' d !! k = Some s' /\ carries n s' = true) \/ ends d k n op.
Proof.
  intros Hr Hd Hs Hc Hst. pose proof (lstep_slots o now l op l' Hst d k) as Hk. rewrite Hd in Hk.
  eapply carries_step; [exact Hk | by eapply reachable_good | exact Hs | exact Hc].
Qed.

Lemma in_flight_until_ended_witness :
  let op := OTick (fun _ => mkReads None None) in
  let l' := ex_run op (ex_now + 3600 * Second) ex_ledger in
  book l' ex_durable !! ex_key = Some (publication 3 0 ex_now) /\
  ((exists s', book l' ex_durable !! ex_key = Some s' /\ carries 3 s' = true) \/
   ends ex_durable ex_key 3 op).
Proof.
  intros op l'. split; [vm_compute; reflexivity |].
  apply (in_flight_until_ended ex_topology (ex_now + 3600 * Second) ex_ledger op l' ex_durable ex_key 3
    (publication 3 0 ex_now)).
  - apply ex_reachable.
  - vm_compute. reflexivity.
  - vm_compute. reflexivity.
  - reflexivity.
  - apply (lstep_exec _ (ex_now + 3600 * Second) _ op map_order (ex_now + 3600 * Second)).
Defined.
