(* ===== verification/LedgerAdmit.v ===== *)
(** * Admission, rebuilding and waking

    Budgets, reservations that cost nothing, the place of a redownload in the
    queue, what a rebuild reads and which waiters a freed slot wakes. *)

From S2P Require Import Prelude GoLang Api Events Ledger LedgerFacts LedgerSafe.
From Stdlib Require Import Sorted.

Open Scope monad_scope.

(** ** Budgets *)

Lemma size_le {V} (m m' : gmap Key V) :
  (forall k, m !! k = None -> m' !! k = None) -> (size m' <= size m)%nat.
Proof.
  intros Hk. rewrite <- !(size_dom (D := gset Key)). apply subseteq_size. intros k.
  rewrite !elem_of_dom. unfold is_Some. intros [v Hv]. destruct (m !! k) as [w |] eqn:E; [by eauto |].
  by rewrite (Hk k E) in Hv.
Qed.

(** The operations under which a key of [d] may enter the book. *)
Definition enters (d : string) (op : Op) : Prop :=
  match op with
  | OAdmit d' _ _ _ | OPublished d' _ _ => d' = d
  | ORebuild _ _ _ => True
  | _ => False
  end.

Lemma step_absent now reb d k op y : slot_step now reb d k op None y -> ~ enters d op -> y = None.
Proof. intros Hs Hn. inversion Hs; subst; cbn in *; done. Qed.

Lemma size_lapse now b : (size (lapse_book now b) <= size b)%nat.
Proof. apply size_le. intros k Hk. by rewrite lookup_lapse_book, Hk. Qed.

Lemma size_reserved (b : gmap Key slot) k s : Z.of_nat (size (<[k := s]> b)) = others b k + 1.
Proof.
  unfold others. rewrite <- insert_delete_eq, map_size_insert_None by apply lookup_delete_eq. lia.
Qed.

(** An admission leaves a book no larger than it was or than the budget. *)
Lemma admit_growth o d k sq first now l l' : lstep o now l (OAdmit d k sq first) l' ->
  (size (book l' d) <= size (book l d))%nat \/ Z.of_nat (size (book l' d)) <= Budget o d.
Proof.
  intros [R now']. cbn [exec]. unfold done_. rewrite run_bind. cbn [fst snd].
  pose proof (size_lapse now (book l d)) as Hl.
  destruct (lRebuilt l) eqn:Er; [destruct (spec o d) as [c |] eqn:Ec |].
  2,3: destruct (wp_run _ _ _ _ _ (admit_closed (H := R) o d k sq first now l ltac:(auto))
         (surjective_pairing _)) as [_ ->]; by left.
  destruct (wp_run _ _ _ _ _ (admit_spec (H := R) o c d k sq first now l Er Ec)
    (surjective_pairing _)) as (_ & _ & Ha). unfold Budget. rewrite Ec.
  destruct Ha as [l1 _ E | r l1 _ _ _ E _ | l1 _ Hlt E]; cbn; rewrite E; [by left.. | right].
  rewrite size_reserved. destruct first; [lia |]. unfold claims in Hlt. lia.
Qed.

(** The budget holds: an operation makes a durable's book larger only by
    an admission, and then the book is within the durable's budget; by the
    publish of a dispatch the ledger held no slot of; or by a rebuild from
    status. *)
Theorem books_within_budget (o : Topology) (now : Time) (l : Ledger) (op : Op) (l' : Ledger) d :
  lstep o now l op l' ->
  (size (book l' d) <= size (book l d))%nat \/
  (exists k sq first, op = OAdmit d k sq first /\ Z.of_nat (size (book l' d)) <= Budget o d) \/
  (exists k sq, op = OPublished d k sq /\ book l d !! k = None) \/
  (exists c clock srcs, op = ORebuild c clock srcs).
Proof.
  intros Hst. pose proof (lstep_slots o now l op l' Hst) as Hk.
  assert (~ enters d op -> (size (book l' d) <= size (book l d))%nat) as Hno.
  { intros Hn. apply size_le. intros k E. specialize (Hk d k). rewrite E in Hk. by eapply step_absent. }
  destruct op as [d' k sq first | d' k sq | | | | | | | | | | |]; try (left; apply Hno; cbn; tauto).
  - destruct (decide (d' = d)) as [-> | Hd]; [| left; by apply Hno].
    destruct (admit_growth _ _ _ _ _ _ _ _ Hst); [by left | right; left; eauto].
  - destruct (decide (d' = d)) as [-> | Hd]; [| left; by apply Hno].
    destruct (book l d !! k) as [s |] eqn:E; [left | right; right; left; eauto].
    apply size_le. intros k' E'. specialize (Hk d k'). rewrite E' in Hk. inversion Hk; subst; congruence.
  - right. right. right. eauto.
Qed.

Lemma books_within_budget_witness :
  let op := OAdmit ex_durable ex_other 7 false in
  let l' := ex_run op ex_now ex_ledger in
  size (book l' ex_durable) = 2%nat /\
  ((size (book l' ex_durable) <= size (book ex_ledger ex_durable))%nat \/
  (exists k sq first, op = OAdmit ex_durable k sq first /\
     Z.of_nat (size (book l' ex_durable)) <= Budget ex_topology ex_durable) \/
  (exists k sq, op = OPublished ex_durable k sq /\ book ex_ledger ex_durable !! k = None) \/
  (exists c clock srcs, op = ORebuild c clock srcs)).
Proof.
  intros op l'. split; [vm_compute; reflexivity |].
  apply (books_within_budget ex_topology ex_now ex_ledger op l' ex_durable).
  apply (lstep_exec _ ex_now _ op map_order ex_now).
Defined.

(** ** Reservations *)

(** A failed apply costs nothing: whatever [ledger_admit] answered, once its
    reservation has lapsed unpublished every book holds what it would hold had
    the planner never asked. *)
Theorem unpublished_admission_is_free `{RangeOrder} (o : Topology) d k sq first now t l :
  0 <= now -> now + ReservationTTL <= t ->
  forall d', lapse_book t (book (snd (ledger_admit o d k sq first now l)) d') = lapse_book t (book l d').
Proof.
  intros Hn Ht d'. assert (now <= t) as Hle by (unfold ReservationTTL, Second in Ht; lia).
  destruct (lRebuilt l) eqn:Er; [destruct (spec o d) as [c |] eqn:Ec |].
  2,3: by destruct (wp_run _ _ _ _ _ (admit_closed o d k sq first now l ltac:(auto))
         (surjective_pairing _)) as [_ ->].
  destruct (wp_run _ _ _ _ _ (admit_spec o c d k sq first now l Er Ec) (surjective_pairing _))
    as (Hb & _ & Ha).
  destruct (decide (d' = d)) as [-> | Hd]; [| by rewrite Hb].
  destruct Ha as [l1 _ E | r l1 _ _ _ E _ | l1 _ _ E]; rewrite E; [by apply lapse_book_later.. |].
  apply map_eq. intros k'. rewrite lookup_lapse_book. destruct (decide (k = k')) as [<- | Hk].
  - rewrite lookup_insert_eq.
    transitivity (lapse_book now (book l d) !! k ≫= lapse_slot t); [by apply lapse_reservation |].
    rewrite <- lookup_lapse_book. by rewrite lapse_book_later.
  - rewrite lookup_insert_ne, <- lookup_lapse_book by done. by rewrite lapse_book_later.
Qed.

Lemma unpublished_admission_is_free_witness :
  let l' := snd (ledger_admit (H := map_order) ex_topology ex_durable ex_key 4 false ex_now ex_ledger) in
  let t := ex_now + ReservationTTL in
  book l' ex_durable !! ex_key = Some (reservation 4 ex_now (Some (publication 3 0 ex_now))) /\
  lapse_book t (book l' ex_durable) = lapse_book t (book ex_ledger ex_durable).
Proof.
  intros l' t. split; [vm_compute; reflexivity |].
  apply (unpublished_admission_is_free (H := map_order)); [vm_compute; discriminate | apply Z.le_refl].
Defined.

(** ** Redownloads go first *)

Lemma claim_counts l d k1 k2 now fw : k1 <> k2 ->
  map_of (lFirst l) d !! k1 = Some fw -> Sub now (fwSeen fw) < FirstTTL -> 1 <= claims l d k2 now.
Proof.
  intros Hk Hf Ht. unfold claims.
  assert (delete k2 (live_first now (map_of (lFirst l) d)) !! k1 = Some fw) as Hin.
  { rewrite lookup_delete_ne by done. unfold live_first. by apply map_lookup_filter_Some_2. }
  destruct (size _) eqn:E; [| lia]. apply map_size_empty_inv in E. by rewrite E in Hin.
Qed.

(** A redownload goes ahead: a refused [AdmitFirst] leaves its key's claim,
    seen now; and while such a claim lives, of the one slot left the routine
    [Admit] of another key is refused and the claimant's next [AdmitFirst] is
    admitted. *)
Theorem redownload_first `{RangeOrder} (o : Topology) c d k1 k2 sq1 sq2 now l :
  lRebuilt l = true -> spec o d = Some c -> k1 <> k2 ->
  let b := lapse_book now (book l d) in
  let '(r1, l1) := AdmitFirst o d k1 sq1 now l in
  (dcAdmitted r1 = false -> exists fw, map_of (lFirst l1) d !! k1 = Some fw /\ fwSeen fw = now) /\
  (forall fw, map_of (lFirst l) d !! k1 = Some fw -> Sub now (fwSeen fw) < FirstTTL ->
   holds_at b k2 sq2 = false -> others b k1 < budgetOf c <= others b k2 + 1 ->
   dcAdmitted r1 = true /\ dcAdmitted (fst (Admit o d k2 sq2 now l)) = false).
Proof.
  intros Hr Hc Hk b. destruct (AdmitFirst o d k1 sq1 now l) as [r1 l1] eqn:E1.
  destruct (wp_run _ _ _ _ _ (admit_spec o c d k1 sq1 true now l Hr Hc) E1) as (_ & _ & Ha1).
  split.
  - intros Hd. destruct Ha1 as [l1 _ _ | r l1 _ _ _ _ Hf | l1 _ _ _]; [done | by apply Hf | done].
  - intros fw Hf Ht Hh [Hlt Hle]. pose proof (claim_counts _ _ _ _ _ _ Hk Hf Ht) as Hcl. split.
    + destruct Ha1 as [l1 _ _ | r l1 _ Hge _ _ _ | l1 _ _ _]; [done | fold b in Hge; lia | done].
    + destruct (wp_run _ _ _ _ _ (admit_spec o c d k2 sq2 false now l Hr Hc) (surjective_pairing _))
        as (_ & _ & Ha2). fold b in Ha2. unfold Admit.
      destruct Ha2 as [l2 Hh2 _ | r l2 _ _ [Hd _] _ _ | l2 _ Hlt2 _]; [congruence | done | lia].
Qed.

(** [ex_other] waits through [AdmitFirst] while the budget of two is spent; the
    next slot is its. *)
Definition ex_full : Ledger :=
  ex_run (OAdmit ex_durable ex_other 5 true) ex_now
    (ex_run (OPublished ex_durable (mkKey "Movie" "media" "thief" "search") 9) ex_now ex_ledger).
Definition ex_freed : Ledger := ex_run (OAnswered ex_durable ex_key 3) ex_now ex_full.

Lemma redownload_first_witness :
  dcAdmitted (fst (AdmitFirst (H := map_order) ex_topology ex_durable ex_other 5 ex_now ex_freed)) = true /\
  dcAdmitted (fst (Admit (H := map_order) ex_topology ex_durable ex_key 4 ex_now ex_freed)) = false.
Proof.
  pose proof (redownload_first (H := map_order) ex_topology ex_small ex_durable ex_other ex_key 5 4
    ex_now ex_freed eq_refl eq_refl ltac:(discriminate)) as Hw.
  destruct (AdmitFirst ex_topology ex_durable ex_other 5 ex_now ex_freed) as [r1 l1].
  destruct Hw as [_ Hw]. apply (Hw (mkFirst ex_now ex_now)); by vm_compute.
Defined.

(** ** Rebuilding *)

Lemma rebuild_read_some c clock srcs fresh d s : rebuild_read c clock srcs = Some fresh ->
  (d, s) ∈ srcs -> exists outs, cRebuild c d = Some outs /\ fresh !! d = Some (rebuild_book (clock d) outs).
Proof.
  revert fresh. induction srcs as [| [d' s'] srcs IH]; intros fresh; cbn [rebuild_read].
  { intros _ Hd. by apply not_elem_of_nil in Hd. }
  destruct (cRebuild c d') as [outs |] eqn:Eo; [| done].
  destruct (rebuild_read c clock srcs) as [rest |]; [| done]. intros [= <-] Hd.
  destruct (decide (d' = d)) as [<- | Hne]; [exists outs; by rewrite lookup_insert_eq |].
  apply elem_of_cons in Hd as [[= <- <-] | Hd]; [done |].
  rewrite lookup_insert_ne by done. by apply IH.
Qed.

Lemma rebuild_read_none c clock srcs : rebuild_read c clock srcs = None ->
  exists d s, (d, s) ∈ srcs /\ cRebuild c d = None.
Proof.
  induction srcs as [| [d s] srcs IH]; cbn [rebuild_read]; [done |].
  destruct (cRebuild c d) as [outs |] eqn:Eo.
  - destruct (rebuild_read c clock srcs); [done |]. intros _. destruct IH as (d' & s' & Hd & Hn); [done |].
    exists d', s'. split; [by apply list_elem_of_further | done].
  - intros _. exists d, s. split; [apply list_elem_of_here | done].
Qed.

Lemma rebuild_read_keys c clock srcs fresh d : rebuild_read c clock srcs = Some fresh ->
  (forall s, (d, s) ∉ srcs) -> fresh !! d = None.
Proof.
  revert fresh. induction srcs as [| [d' s] srcs IH]; intros fresh; cbn [rebuild_read].
  { intros [= <-] _. apply lookup_empty. }
  destruct (cRebuild c d'); [| done]. destruct (rebuild_read c clock srcs) as [rest |]; [| done].
  intros [= <-] Hd. rewrite lookup_insert_ne.
  - apply IH; [done |]. intros s' Hs. apply (Hd s'). by apply list_elem_of_further.
  - intros ->. apply (Hd s), list_elem_of_here.
Qed.

Lemma range_lookup `{RangeOrder} {V} (m : gmap string V) d v : (d, v) ∈ range m <-> m !! d = Some v.
Proof. rewrite (range_perm m). apply elem_of_map_to_list. Qed.

(** The ledger is rebuilt from status or not at all: with every source
    read, it admits from then on, and each rebuildable durable's book holds
    exactly the keys its status shows in flight, published at the highest seq
    shown and never to lapse; with one source's read failed, nothing changed.
    The other durables' books are kept. *)
Theorem rebuild_reads_status `{RangeOrder} (c : Cache) clock l :
  let '(ok, l') := rebuild c clock l in
  if ok : bool then
    lRebuilt l' = true /\ lSources l' = lSources l /\
    (forall d, rebuildable l d = true -> exists outs, cRebuild c d = Some outs /\ rebuilt_from outs (book l' d)) /\
    (forall d, rebuildable l d = false -> book l' d = book l d)
  else l' = l /\ exists d, rebuildable l d = true /\ cRebuild c d = None.
Proof.
  unfold rebuild. rewrite run_bind. cbn [gets fst snd].
  destruct (rebuild_read c clock (range (lSources l))) as [fresh |] eqn:Er.
  - unfold rebuild_write. rewrite run_bind. cbn [modify fst snd ret].
    split; [done |]. split; [done |]. unfold book, map_of, rebuildable.
    cbv [upd set_lBooks set_lRebuilt eta_of eta_Ledger lBooks]. split; intros d Hd.
    + destruct (lSources l !! d) as [s |] eqn:Es; [| done].
      destruct (rebuild_read_some _ _ _ _ d s Er) as (outs & Ho & Hf); [by apply range_lookup |].
      exists outs. split; [done |]. rewrite (lookup_union_Some_l _ _ _ _ Hf). cbn. apply rebuild_book_from.
    + rewrite lookup_union_r; [done |]. eapply rebuild_read_keys; [exact Er |].
      intros s Hs. apply range_lookup in Hs. by rewrite Hs in Hd.
  - cbn. split; [done |]. destruct (rebuild_read_none _ _ _ Er) as (d & s & Hd & Hn).
    exists d. split; [| done]. apply range_lookup in Hd. unfold rebuildable. by rewrite Hd.
Qed.

(** ** Waking *)

(** In order of the times waited from. *)
Definition by_time (v w : Key * Time) : Prop := snd v <= snd w.

Lemma insert_at_perm w l : insert_at w l ≡ₚ w :: l.
Proof.
  induction l as [| v l IH]; cbn; [done |]. case_match; [done |]. rewrite IH. apply Permutation_swap.
Qed.

Lemma insert_at_sorted w l : Sorted by_time l -> Sorted by_time (insert_at w l).
Proof.
  unfold by_time. induction 1 as [| v l Hs IH Hh]; cbn; [by repeat constructor |].
  destruct (snd w <=? snd v) eqn:E; bools.
  - constructor; [by constructor | by constructor].
  - constructor; [exact IH |]. destruct l as [| u l]; cbn; [constructor; lia |].
    inversion Hh; subst. case_match; constructor; lia.
Qed.

Lemma sort_at_spec l : Sorted by_time (sort_at l) /\ sort_at l ≡ₚ l.
Proof.
  induction l as [| w l [IH1 IH2]]; [by repeat constructor |]. unfold sort_at in *. cbn. split.
  - by apply insert_at_sorted.
  - by rewrite insert_at_perm, IH2.
Qed.

Lemma send_wakes_take want ws q :
  send_wakes want ws q = q ++ take (Nat.min want (wakeBuffer - length q)) ws.
Proof.
  revert want q. induction ws as [| k ws IH]; intros [| want] q; cbn [send_wakes Nat.min take];
    rewrite ?take_nil, ?app_nil_r; try done.
  destruct (length q <? wakeBuffer)%nat eqn:E.
  - apply Nat.ltb_lt in E. rewrite IH, <- app_assoc. f_equal. cbn [app].
    rewrite length_app. cbn [length].
    replace (wakeBuffer - length q)%nat with (S (wakeBuffer - (length q + 1)))%nat by lia. done.
  - apply Nat.ltb_ge in E. replace (wakeBuffer - length q)%nat with 0%nat by lia. cbn. by rewrite app_nil_r.
Qed.

(** Freeing [n] slots of a rebuildable durable queues up to [2 n] of
    its waiters, as far as the channel of 512 has room: the keys [AdmitFirst]
    refused by their first refusal, then, by the time they were refused, the
    keys that wait for the budget and not through [AdmitFirst].  Other durables
    wake nothing, and nothing else of the ledger changes. *)
Theorem freed_slots_wake `{RangeOrder} (l : Ledger) d n :
  exists firsts routine,
    Sorted by_time firsts /\ Sorted by_time routine /\
    firsts ≡ₚ map (prod_map id fwSince) (map_to_list (map_of (lFirst l) d)) /\
    (forall k t, (k, t) ∈ routine <-> exists w, map_of (lWaiting l) d !! k = Some w /\ weAt w = t /\
       weReason w = DeliveryReasonBudget /\ map_of (lFirst l) d !! k = None) /\
    freedLocked d n l = (tt, l <| lWakes := lWakes l ++
      (if rebuildable l d
       then take (Nat.min (2 * n) (wakeBuffer - length (lWakes l))) (map fst (firsts ++ routine))
       else []) |>).
Proof.
  exists (sort_at (first_waiters l d)), (sort_at (budget_waiters l d)).
  split; [apply sort_at_spec |]. split; [apply sort_at_spec |].
  split; [| split].
  - rewrite (proj2 (sort_at_spec _)). unfold first_waiters. rewrite (range_perm (map_of (lFirst l) d)).
    erewrite map_ext; [reflexivity |]. by intros [k fw].
  - intros k t. rewrite (proj2 (sort_at_spec _)). unfold budget_waiters. rewrite list_elem_of_In, in_map_iff. split.
    + intros ([k' w] & [= <- <-] & Hw). apply filter_In in Hw as [Hw Hp]. bools.
      exists w. split; [| done]. apply list_elem_of_In in Hw. rewrite (range_perm (map_of (lWaiting l) d)) in Hw.
      by apply elem_of_map_to_list in Hw.
    + intros (w & Hw & <- & Hr & Hf). exists (k, w). split; [done |]. apply filter_In. split.
      * apply list_elem_of_In. rewrite (range_perm (map_of (lWaiting l) d)). by apply elem_of_map_to_list.
      * rewrite Hr, bool_decide_true by done. done.
  - unfold freedLocked. rewrite run_bind. cbn [gets fst snd id].
    destruct n as [| n]; cbn [Nat.eqb].
    { cbn. rewrite take_0. destruct (rebuildable l d); rewrite app_nil_r; by destruct l. }
    destruct (rebuildable l d); cbn [negb].
    + unfold modify. f_equal. rewrite <- send_wakes_take. done.
    + rewrite app_nil_r. by destruct l.
Qed.

(** ** A superseded dispatch answered while its successor is reserved

    [Answered] looks at a key's newest slot alone: an answer to the dispatch a
    reservation supersedes leaves it in the chain, and when the reservation
    lapses unpublished the answered dispatch is back in the book, to stay. *)
Lemma answered_dispatch_returns :
  let reserved_ := ex_run (OAdmit ex_durable ex_key 4 false) ex_now ex_ledger in
  let answered := ex_run (OAnswered ex_durable ex_key 3) ex_now reserved_ in
  let later := ex_run (OOutstanding ex_durable) (ex_now + ReservationTTL) answered in
  book later ex_durable !! ex_key = Some (publication 3 0 ex_now) /\
  Holds later ex_durable ex_key 3 = true.
Proof. by vm_compute. Qed.

(** ** Answers *)

(** The channel after [n] slots of [d] were freed: it does not depend on the
    books. *)
Definition freed_wakes `{RangeOrder} (l : Ledger) d n : list Key := lWakes (snd (freedLocked d n l)).

Lemma freed_run `{RangeOrder} (l : Ledger) d n : snd (freedLocked d n l) = l <| lWakes := freed_wakes l d n |>.
Proof.
  unfold freed_wakes, freedLocked. rewrite run_bind. cbn [gets fst snd id].
  destruct (n =? 0)%nat; [by destruct l |]. destruct (negb (rebuildable l d)); by destruct l.
Qed.

Lemma freed_wakes_books `{RangeOrder} (l : Ledger) b d n : freed_wakes (l <| lBooks := b |>) d n = freed_wakes l d n.
Proof.
  unfold freed_wakes, freedLocked. rewrite !run_bind. cbn [gets fst snd id].
  change (rebuildable (l <| lBooks := b |>) d) with (rebuildable l d).
  by destruct (n =? 0)%nat, (negb (rebuildable l d)).
Qed.

Lemma Answered_run `{RangeOrder} (l : Ledger) d k sq :
  snd (Answered d k sq l) =
  if Holds l d k sq
  then l <| lBooks := alter (delete k) d (with_book d (lBooks l)) |> <| lWakes := freed_wakes l d 1 |>
  else l <| lBooks := with_book d (lBooks l) |>.
Proof.
  match goal with |- _ = ?r => cut (wp (Answered d k sq) (fun _ l' => l' = r) l) end.
  { intros Hw. exact (wp_run _ _ _ _ _ Hw (surjective_pairing _)). }
  unfold Answered, Holds. apply wp_bind, wp_bookLocked. fold (book l d).
  destruct (book l d !! k) as [cur |]; [| by apply wp_ret].
  destruct (slSeq cur <=? sq); [| by apply wp_ret].
  unfold drop_slot. apply wp_bind, wp_modify, wp_iff. rewrite freed_run.
  by rewrite <- (freed_wakes_books l (alter (delete k) d (with_book d (lBooks l))) d 1).
Qed.

(** An answer closes what the ledger shows: afterwards the key's newest
    slot is above the answered seq; one that was above it is kept, and no other
    key of any durable is touched; a slot that went wakes its durable's
    waiters. *)
Theorem Answered_spec `{RangeOrder} (l : Ledger) d k sq :
  let l' := snd (Answered d k sq l) in
  Holds l' d k sq = false /\
  (forall d' k', (d', k') <> (d, k) -> book l' d' !! k' = book l d' !! k') /\
  (Holds l d k sq = false -> book l' d !! k = book l d !! k /\ lWakes l' = lWakes l) /\
  (Holds l d k sq = true -> book l' d !! k = None /\ lWakes l' = lWakes (snd (freedLocked d 1 l))).
Proof.
  cbv zeta. rewrite Answered_run.
  assert (forall d', map_of (alter (delete k) d (with_book d (lBooks l))) d' =
    if decide (d = d') then delete k (book l d) else book l d') as Hb.
  { intros d'. case_decide as Hd; [subst d'; rewrite map_of_alter by done | rewrite map_of_alter_ne by done];
      by rewrite map_of_with_book. }
  assert (forall d', map_of (with_book d (lBooks l)) d' = book l d') as Hw by apply map_of_with_book.
  destruct (Holds l d k sq) eqn:Eh; unfold Holds, book in *;
    cbv [upd set_lBooks set_lWakes eta_of eta_Ledger lBooks lWakes] in *.
  - fold (lBooks l) in *. rewrite !Hb, decide_True by done. rewrite lookup_delete_eq. split_and!; try done.
    intros d' k' Hne. rewrite Hb. case_decide as Hd; [subst d' | reflexivity].
    rewrite lookup_delete_ne; [reflexivity |]. congruence.
  - fold (lBooks l) in *. rewrite !Hw. split_and!; try done; intros; by rewrite ?Hw.
Qed.

(** [detect] folds one observation after another into a durable's [attendance].
    Its verdict is set against the whole history of observations. *)

(** One observation of a durable: the state read, whether its domain was seen
    absent, and whether nothing was learned of its presence. *)
Record obs := mkObs {
  obNow : Time;
  obState : option ConsumerState;
  obAbsent : bool;
  obErr : bool;
}.

Definition observe1 (x : obs) (a : attendance) : attendance :=
  attend (obNow x) (mkReads (obState x) None) (obAbsent x) (obErr x) a.

(** A history, newest first. *)
Definition attend_all (h : list obs) : attendance := foldr observe1 zero_attendance h.

(** The observations of [h] back to one made at [t] all satisfy [P]. *)
Definition since_t (P : obs -> Prop) (t : Time) (h : list obs) : Prop :=
  exists h1 x h2, h = h1 ++ x :: h2 /\ obNow x = t /\ Forall P (h1 ++ [x]).

(** A state read, if any, shows the lag [n]; a presence seen, if any, shows
    the domain absent. *)
Definition shows_lag (n : Z) (x : obs) : Prop := forall st, obState x = Some st -> Lag st = n.
Definition shows_absent (x : obs) : Prop := obErr x = false -> obAbsent x = true.

(** The last state read found work pending and no pull open, and the lag had
    been the same for [UnattendedAfter]. *)
Definition stalled_evidence (h : list obs) : Prop :=
  exists h1 x h2 st t, h = h1 ++ x :: h2 /\ Forall (fun y => obState y = None) h1 /\
    obState x = Some st /\ 0 < stPending st /\ stWaiting st = 0 /\
    UnattendedAfter <= Sub (obNow x) t /\ since_t (shows_lag (Lag st)) t (x :: h2).

Lemma since_here (P : obs -> Prop) x h : P x -> since_t P (obNow x) (x :: h).
Proof. intros HP. exists [], x, h. by repeat constructor. Qed.

Lemma since_cons (P : obs -> Prop) x t h : P x -> since_t P t h -> since_t P t (x :: h).
Proof. intros HP (h1 & y & h2 & -> & Hy & Hf). exists (x :: h1), y, h2. repeat split; [done |]. by constructor. Qed.

Lemma stalled_cons x h : obState x = None -> stalled_evidence h -> stalled_evidence (x :: h).
Proof.
  intros Hx (h1 & y & h2 & st & t & -> & Hf & Hrest). exists (x :: h1), y, h2, st, t.
  split; [done |]. split; [by constructor | exact Hrest].
Qed.

(** What an attendance says of its history. *)
Record explained (h : list obs) (a : attendance) : Prop := {
  ex_lag : atKnown a = true -> since_t (shows_lag (atLag a)) (atLagSince a) h;
  ex_stalled : atStalled a = true -> stalled_evidence h;
  ex_absent : atAbsentSince a <> 0 -> since_t shows_absent (atAbsentSince a) h;
}.

Lemma explained_unread x h a : obState x = None -> explained h a ->
  (atKnown a = true -> since_t (shows_lag (atLag a)) (atLagSince a) (x :: h)) /\
  (atStalled a = true -> stalled_evidence (x :: h)).
Proof.
  intros Hx [Hl Hs _]. split; intros H.
  - apply since_cons; [| by apply Hl]. intros st. by rewrite Hx.
  - by apply stalled_cons, Hs.
Qed.

Lemma explained_state x h a st : obState x = Some st -> explained h a ->
  let a' := see_state (obNow x) st a in
  atAbsentSince a' = atAbsentSince a /\
  (atKnown a' = true -> since_t (shows_lag (atLag a')) (atLagSince a') (x :: h)) /\
  (atStalled a' = true -> stalled_evidence (x :: h)).
Proof.
  intros Hx [Hl _ _]. unfold see_state.
  set (a1 := if negb (atKnown a) || negb (Lag st =? atLag a) then _ else a). cbv zeta.
  assert (atLag a1 = Lag st /\ atAbsentSince a1 = atAbsentSince a /\
          since_t (shows_lag (atLag a1)) (atLagSince a1) (x :: h)) as (Hlag & Hab & Hs).
  { unfold a1. destruct (negb (atKnown a) || negb (Lag st =? atLag a)) eqn:E; cbn.
    - split; [done |]. split; [done |]. apply since_here. intros st' Hst. congruence.
    - bools. split; [done |]. split; [done |]. apply since_cons; [| by apply Hl].
      intros st' Hst. congruence. }
  clearbody a1. split; [exact Hab |]. split; [intros _; exact Hs |].
  cbn. intros H. bools. exists [], x, h, st, (atLagSince a1). rewrite Hlag in Hs. by split_and!.
Qed.

(** [see_presence] on an observation that learned of the presence. *)
Lemma explained_presence x h a : 0 < obNow x -> obErr x = false ->
  (atAbsentSince a <> 0 -> since_t shows_absent (atAbsentSince a) h) ->
  let a' := see_presence (obNow x) (obAbsent x) a in
  atAbsentSince a' <> 0 -> since_t shows_absent (atAbsentSince a') (x :: h).
Proof.
  intros Hn He Ha. unfold see_presence. destruct (obAbsent x && atKnown a && (0 <? atLag a)) eqn:E; [| done].
  bools. destruct (IsZero (atAbsentSince a)) eqn:Ez; unfold IsZero in Ez; bools; cbn; intros Hne.
  - apply since_here. by intros _.
  - apply since_cons; [by intros _ | by apply Ha].
Qed.

Lemma see_presence_fields now absent a :
  atKnown (see_presence now absent a) = atKnown a /\
  atLag (see_presence now absent a) = atLag a /\
  atLagSince (see_presence now absent a) = atLagSince a /\
  atStalled (see_presence now absent a) = atStalled a.
Proof. unfold see_presence. by repeat case_match. Qed.

Lemma observe_explained x h a : 0 < obNow x -> explained h a -> explained (x :: h) (observe1 x a).
Proof.
  intros Hn He. unfold observe1, attend. cbn [rdState].
  set (a1 := match obState x with Some st => see_state (obNow x) st a | None => a end).
  assert ((atKnown a1 = true -> since_t (shows_lag (atLag a1)) (atLagSince a1) (x :: h)) /\
    (atStalled a1 = true -> stalled_evidence (x :: h)) /\ atAbsentSince a1 = atAbsentSince a) as (Hl & Hs & Hab).
  { unfold a1. destruct (obState x) as [st |] eqn:Ex.
    - destruct (explained_state x h a st Ex He) as (? & ? & ?). done.
    - destruct (explained_unread x h a Ex He). done. }
  clearbody a1. pose proof (ex_absent _ _ He) as Ha. rewrite <- Hab in Ha.
  destruct (obErr x) eqn:Er.
  - split; [exact Hl | exact Hs |]. cbn. intros Hne. apply since_cons; [| by apply Ha].
    intros Herr. congruence.
  - pose proof (explained_presence x h a1 Hn Er Ha) as Hp. cbv zeta in Hp.
    destruct (see_presence_fields (obNow x) (obAbsent x) a1) as (K & L & S & T).
    split; cbn [atKnown atLag atLagSince atStalled]; [| | exact Hp].
    + intros H. change (atKnown (see_presence (obNow x) (obAbsent x) a1) = true) in H.
      change (since_t (shows_lag (atLag (see_presence (obNow x) (obAbsent x) a1)))
        (atLagSince (see_presence (obNow x) (obAbsent x) a1)) (x :: h)).
      rewrite K in H. rewrite L, S. by apply Hl.
    + intros H. change (atStalled (see_presence (obNow x) (obAbsent x) a1) = true) in H.
      rewrite T in H. by apply Hs.
Qed.

(** No durable is called unattended on less than [UnattendedAfter] of
    evidence: either the last state read found work pending with no pull open
    and the lag unchanged that long, or every observation that learned of its
    domain's presence, over that long, found the domain absent. *)
Theorem unattended_evidence (x : obs) (h : list obs) :
  Forall (fun y => 0 < obNow y) (x :: h) ->
  atUnattended (attend_all (x :: h)) = true ->
  stalled_evidence (x :: h) \/
  exists t, UnattendedAfter <= Sub (obNow x) t /\ since_t shows_absent t (x :: h).
Proof.
  intros Hpos Hu.
  assert (explained (x :: h) (attend_all (x :: h))) as [_ Hs Ha].
  { clear Hu. induction Hpos as [| y l Hy _ IH]; [by split |].
    change (attend_all (y :: l)) with (observe1 y (attend_all l)). by apply observe_explained. }
  change (attend_all (x :: h)) with (observe1 x (attend_all h)) in *.
  unfold observe1, attend in *. cbn [rdState] in *.
  set (a2 := if obErr x then _ else _) in *. cbn in Hu, Hs, Ha.
  apply orb_true_iff in Hu as [Hu | Hu]; [left; by apply Hs | right].
  unfold no_agent in Hu. bools. unfold IsZero in *. bools. exists (atAbsentSince a2). by split; [| apply Ha].
Qed.

(** A domain seen absent with work for two minutes. *)
Definition ex_state : ConsumerState := mkConsumerState 3 0 1 16 0.
Definition ex_history : list obs :=
  [mkObs (3 * Minute) (Some ex_state) true false; mkObs Minute (Some ex_state) true false].

Lemma unattended_evidence_witness :
  atUnattended (attend_all ex_history) = true /\
  (stalled_evidence ex_history \/
   exists t, UnattendedAfter <= Sub (3 * Minute) t /\ since_t shows_absent t ex_history).
Proof.
  split; [vm_compute; reflexivity |].
  apply (unattended_evidence (mkObs (3 * Minute) (Some ex_state) true false)
           [mkObs Minute (Some ex_state) true false]).
  - repeat constructor.
  - vm_compute. reflexivity.
Defined.

(** Reads that fail do not keep the last verdict: the absence first seen a tick
    before goes on counting while nothing can be read. *)
Lemma failed_reads_unattend :
  let seen_ := observe1 (mkObs Minute (Some ex_state) true false) zero_attendance in
  atUnattended seen_ = false /\
  atUnattended (observe1 (mkObs (3 * Minute) None false true) seen_) = true.
Proof. by vm_compute. Qed.
