(* ===== verification/Delivery.v ===== *)
(** * Delivery: the book of advisories, and what a CR shows of it

    src/app/dispatch/delivery.go: the [DeliveryBook], whose methods hold its
    lock throughout, and [Render]. *)

From S2P Require Import Prelude GoLang GoFacts Api Ledger.

Open Scope monad_scope.

Definition maxDestination : nat := 253.
Definition maxReason : nat := 64.
Definition maxMessage : nat := 256.

(** [deliveryEntry]. *)
Record deliveryEntry := mkEntry { deSeq : Z; deState : DeliveryState }.

(** [DeliveryBook], less its lock; [NewDeliveryBook] is [∅]. *)
Abbreviation DeliveryBook := (gmap Key deliveryEntry) (only parsing).

Definition zero_state : DeliveryState := mkDeliveryState DeliveryWaiting "" "" 0 None None.

Section Book.
Implicit Types b : DeliveryBook.

Definition Newer b (k : Key) (sq : Z) : bool :=
  match b !! k with Some e => sq <? deSeq e | None => false end.

Definition Seen b (k : Key) (sq : Z) : bool :=
  match b !! k with Some e => deSeq e =? sq | None => false end.

Definition dead_at b (k : Key) (sq : Z) : bool :=
  match b !! k with
  | Some e => (deSeq e =? sq) && bool_decide (dvState (deState e) = DeliveryDeadLettered)
  | None => false
  end.

Definition Retrying (k : Key) (sq : Z) (deliveries : Z) (at_ : Time) (last : bool) b : DeliveryBook :=
  if Newer b k sq then b
  else if dead_at b k sq then b
  else <[k := mkEntry sq (mkDeliveryState DeliveryRetrying DeliveryReasonNak
           (if last then "the next delivery is the last before the task is dead-lettered" else "")
           deliveries (Some at_) None)]> b.

(** [prev := b.m[k]] reads the zero entry, of seq 0, for an absent key; of its
    state only the attempts and the last nak, both zero, are read. *)
Definition DeadLettered (k : Key) (sq : Z) (at_ : Time) b : DeliveryBook :=
  if Newer b k sq then b
  else
    let prev := default (mkEntry 0 zero_state) (b !! k) in
    let '(attempts, nak) :=
      if deSeq prev =? sq then (dvAttempts (deState prev), dvLastNakAt (deState prev)) else (0, None) in
    <[k := mkEntry sq (mkDeliveryState DeliveryDeadLettered "" "" attempts nak (Some at_))]> b.

Definition Lookup b (k : Key) (sq : Z) : option DeliveryState :=
  match b !! k with
  | Some e => if deSeq e =? sq then Some (deState e) else None
  | None => None
  end.

Definition ForgetKey (k : Key) (sq : Z) b : DeliveryBook :=
  match b !! k with
  | Some e => if deSeq e <=? sq then delete k b else b
  | None => b
  end.
End Book.

(** ** Render *)

(** [clamp]: at most [n] bytes of [s], cut on a rune boundary. *)
Definition clamp (s : string) (n : nat) : string :=
  if (String.length s <=? n)%nat then s else str_take (rune_floor s n) s.

Definition clamped (st : DeliveryState) : DeliveryState :=
  mkDeliveryState (dvState st) (clamp (dvReason st) maxReason) (clamp (dvMessage st) maxMessage)
    (dvAttempts st) (dvLastNakAt st) (dvDeadLetteredAt st).

Definition is_claimed (d : Dispatch) : bool :=
  match dpDelivery d with Some st => bool_decide (dvState st = DeliveryClaimed) | None => false end.

(** [Render]'s cases that no refusal decides. *)
Definition render_settled (d : Dispatch) (b : option DeliveryBook) (k : Key) : Dispatch :=
  if negb (Api.InFlight d) then d <| dpDelivery := None |>
  else
    match match b with Some b => Lookup b k (dpSeq d) | None => None end with
    | Some st => d <| dpDelivery := Some (clamped st) |>
    | None =>
        if is_claimed d then d
        else d <| dpDelivery := Some (mkDeliveryState DeliveryPublished "" "" 0 None None) |>
    end.

(** [Render] writes the block [d] points to; a nil block, book or decision is
    [None]. *)
Definition Render (d : option Dispatch) (destination : string) (dec : option Decision)
    (b : option DeliveryBook) (k : Key) : option Dispatch :=
  match d with
  | None => None
  | Some d =>
      let d := if negb (String.eqb destination "")
               then d <| dpDestination := clamp destination maxDestination |> else d in
      Some
        (match dec with
         | Some r =>
             if negb (dcAdmitted r) then
               d <| dpDelivery := Some (mkDeliveryState DeliveryWaiting (clamp (dcReason r) maxReason)
                                         (clamp (dcMessage r) maxMessage) 0 None None) |>
             else render_settled d b k
         | None => render_settled d b k
         end)
  end.

(** ** The book's operations in any order *)

Inductive BookOp :=
  | BRetrying (k : Key) (sq : Z) (deliveries : Z) (at_ : Time) (last : bool)
  | BDeadLettered (k : Key) (sq : Z) (at_ : Time)
  | BForget (k : Key) (sq : Z).

Definition run_book (b : DeliveryBook) (op : BookOp) : DeliveryBook :=
  match op with
  | BRetrying k sq n at_ last => Retrying k sq n at_ last b
  | BDeadLettered k sq at_ => DeadLettered k sq at_ b
  | BForget k sq => ForgetKey k sq b
  end.

(** The key's entry is past [sq], or dead at it. *)
Definition book_settled (b : DeliveryBook) (k : Key) (sq : Z) : Prop :=
  dead_at b k sq = true \/ Newer b k sq = true.

Lemma settled_entry b k sq : book_settled b k sq <->
  exists e, b !! k = Some e /\
    (sq < deSeq e \/ deSeq e = sq /\ dvState (deState e) = DeliveryDeadLettered).
Proof.
  unfold book_settled, dead_at, Newer. destruct (b !! k) as [e |].
  - rewrite andb_true_iff, bool_decide_eq_true, Z.eqb_eq, Z.ltb_lt.
    split; [intros [H | H]; eauto | intros (e' & [= <-] & [H | H]); auto].
  - split; [by intros [] | by intros (? & ? & _)].
Qed.

Lemma settled_other b b' k sq : b' !! k = b !! k -> book_settled b k sq -> book_settled b' k sq.
Proof. rewrite !settled_entry. by intros ->. Qed.

Lemma settled_insert b k e sq : sq < deSeq e \/ deSeq e = sq /\ dvState (deState e) = DeliveryDeadLettered ->
  book_settled (<[k := e]> b) k sq.
Proof. intros He. apply settled_entry. exists e. by rewrite lookup_insert_eq. Qed.

(** The seq a fresh entry overtakes. *)
Lemma not_newer b k sq e : Newer b k sq = false -> b !! k = Some e -> deSeq e <= sq.
Proof. unfold Newer. intros H E. rewrite E in H. by bools. Qed.

Lemma run_settled b k sq op : book_settled b k sq ->
  (forall sq', op = BForget k sq' -> sq' < sq) -> book_settled (run_book b op) k sq.
Proof.
  intros Hs Hf. pose proof (proj1 (settled_entry _ _ _) Hs) as (e & Ee & He).
  destruct op as [k' sq' n at_ last | k' sq' at_ | k' sq']; cbn [run_book];
    (destruct (decide (k' = k)) as [-> | Hk]).
  - unfold Retrying. destruct (Newer b k sq') eqn:En; [done |]. destruct (dead_at b k sq') eqn:Ed; [done |].
    pose proof (not_newer _ _ _ _ En Ee). apply settled_insert. cbn. left.
    unfold dead_at in Ed. rewrite Ee in Ed. destruct He as [He | [<- He]]; [lia |].
    rewrite He, bool_decide_true, andb_true_r in Ed by done. bools. lia.
  - unfold Retrying. repeat case_match; try done.
    all: eapply settled_other; [by rewrite lookup_insert_ne | done].
  - unfold DeadLettered. destruct (Newer b k sq') eqn:En; [done |].
    pose proof (not_newer _ _ _ _ En Ee). case_match. apply settled_insert. cbn.
    destruct (decide (sq = sq')); [right; done | left; lia].
  - unfold DeadLettered. repeat case_match; try done.
    all: eapply settled_other; [by rewrite lookup_insert_ne | done].
  - specialize (Hf sq' eq_refl). unfold ForgetKey. rewrite Ee. destruct (deSeq e <=? sq') eqn:E; [| done].
    bools. lia.
  - unfold ForgetKey. repeat case_match; try done.
    all: eapply settled_other; [by rewrite lookup_delete_ne | done].
Qed.

(** A dead-lettered dispatch stays dead-lettered: whatever advisories
    arrive after it, in whatever order and however late, the book shows that
    dispatch as dead-lettered until a later dispatch of the key is recorded or
    the key is forgotten at its seq or later. *)
Theorem dead_letter_sticks (b : DeliveryBook) (k : Key) (sq : Z) (ops : list BookOp) :
  dead_at b k sq = true -> (forall sq', BForget k sq' ∈ ops -> sq' < sq) ->
  let b' := fold_left run_book ops b in
  dead_at b' k sq = true \/ Newer b' k sq = true.
Proof.
  intros Hd Hf. cbv zeta. assert (book_settled b k sq) as Hs by by left. clear Hd.
  revert b Hs. induction ops as [| op ops IH]; intros b Hs; cbn [fold_left]; [exact Hs |].
  apply IH; [intros sq' Hin; apply Hf; by apply list_elem_of_further |].
  apply run_settled; [exact Hs |]. intros sq' ->. apply Hf, list_elem_of_here.
Qed.

Definition ex_delivery_key : Key := mkKey "Movie" "media" "heat" "search".

Lemma dead_letter_sticks_witness :
  let b := DeadLettered ex_delivery_key 4 50 (Retrying ex_delivery_key 4 2 40 false ∅) in
  let ops := [BRetrying ex_delivery_key 4 3 60 true; BForget ex_delivery_key 3] in
  let b' := fold_left run_book ops b in
  Lookup b' ex_delivery_key 4 = Some (mkDeliveryState DeliveryDeadLettered "" "" 2 (Some 40) (Some 50)) /\
  (dead_at b' ex_delivery_key 4 = true \/ Newer b' ex_delivery_key 4 = true).
Proof.
  intros b ops b'. split; [vm_compute; reflexivity |].
  apply (dead_letter_sticks b ex_delivery_key 4 ops); [vm_compute; reflexivity |].
  intros sq' Hin. apply elem_of_cons in Hin as [Hin | Hin]; [discriminate |].
  apply list_elem_of_singleton in Hin. injection Hin as ->. reflexivity.
Defined.

(** ** What a CR shows *)

Lemma str_take_le s n : (String.length (str_take n s) <= n)%nat.
Proof. revert n. induction s as [| a s IH]; intros [| n]; cbn; try lia. specialize (IH n). lia. Qed.

Lemma clamp_length s n : (String.length (clamp s n) <= n)%nat.
Proof.
  unfold clamp. destruct (String.length s <=? n)%nat eqn:E; [by apply Nat.leb_le in E |].
  apply Nat.leb_gt in E. destruct (rune_floor_spec s n E) as (H & _).
  pose proof (str_take_le s (rune_floor s n)). lia.
Qed.

Lemma clamp_fits s n : (String.length s <= n)%nat -> clamp s n = s.
Proof. intros H. unfold clamp. by apply Nat.leb_le in H as ->. Qed.

Lemma clamp_clamp s n : clamp (clamp s n) n = clamp s n.
Proof. apply clamp_fits, clamp_length. Qed.

(** What the API server accepts of the fields [Render] wrote. *)
Definition delivery_fits (d : Dispatch) : Prop :=
  match dpDelivery d with
  | Some st => (String.length (dvReason st) <= 64)%nat /\ (String.length (dvMessage st) <= 256)%nat
  | None => True
  end.

(** [Render] in three parts: the destination, a refusal, the rest. *)
Definition with_destination (destination : string) (d : Dispatch) : Dispatch :=
  if negb (String.eqb destination "") then d <| dpDestination := clamp destination maxDestination |> else d.

Definition refused_by (dec : option Decision) : option Decision :=
  match dec with Some r => if negb (dcAdmitted r) then Some r else None | None => None end.

Definition waiting_state (r : Decision) : DeliveryState :=
  mkDeliveryState DeliveryWaiting (clamp (dcReason r) maxReason) (clamp (dcMessage r) maxMessage) 0 None None.

Lemma render_settled_with destination d b k :
  render_settled (with_destination destination d) b k = with_destination destination (render_settled d b k).
Proof.
  destruct d as [sq asq t w dest del]. unfold with_destination. destruct (negb _); [| done].
  unfold render_settled, Api.InFlight, is_claimed. cbn. destruct (asq <? sq); cbn; [| done].
  destruct (match b with Some b => Lookup b k sq | None => None end); cbn; [done |].
  destruct del as [st |]; [destruct (bool_decide _) |]; done.
Qed.

Lemma Render_parts d destination dec b k :
  Render (Some d) destination dec b k = Some (
    match refused_by dec with
    | Some r => (with_destination destination d) <| dpDelivery := Some (waiting_state r) |>
    | None => with_destination destination (render_settled d b k)
    end).
Proof.
  rewrite <- render_settled_with. cbn [Render]. unfold refused_by, with_destination.
  destruct dec as [r |]; [destruct (negb (dcAdmitted r)) |]; done.
Qed.

Lemma with_destination_frame destination d :
  dpDelivery (with_destination destination d) = dpDelivery d /\
  (dpSeq (with_destination destination d), dpAnsweredSeq (with_destination destination d),
   dpDispatchedAt (with_destination destination d), dpWithdrawn (with_destination destination d)) =
  (dpSeq d, dpAnsweredSeq d, dpDispatchedAt d, dpWithdrawn d) /\
  (destination <> "" -> (String.length (dpDestination (with_destination destination d)) <= 253)%nat) /\
  forall x, with_destination destination ((with_destination destination d) <| dpDelivery := x |>) =
            (with_destination destination d) <| dpDelivery := x |>.
Proof.
  unfold with_destination. destruct (String.eqb destination "") eqn:E; cbn; bools.
  - by split_and!.
  - split_and!; try done. intros _. apply clamp_length.
Qed.

Lemma with_destination_twice destination d :
  with_destination destination (with_destination destination d) = with_destination destination d.
Proof. unfold with_destination. case_match; reflexivity. Qed.

Lemma render_settled_frame d b k :
  (dpSeq (render_settled d b k), dpAnsweredSeq (render_settled d b k),
   dpDispatchedAt (render_settled d b k), dpWithdrawn (render_settled d b k)) =
  (dpSeq d, dpAnsweredSeq d, dpDispatchedAt d, dpWithdrawn d).
Proof. unfold render_settled. destruct d. cbn. repeat case_match; reflexivity. Qed.

Lemma render_settled_fits d b k : (is_claimed d = true -> delivery_fits d) -> delivery_fits (render_settled d b k).
Proof.
  intros Hd. unfold render_settled. destruct (negb (Api.InFlight d)); [done |].
  destruct (match b with Some b => Lookup b k (dpSeq d) | None => None end) as [st |].
  { unfold delivery_fits. cbn. split; apply clamp_length. }
  destruct (is_claimed d); [by apply Hd |]. unfold delivery_fits. cbn. lia.
Qed.

Lemma render_settled_twice d b k : render_settled (render_settled d b k) b k = render_settled d b k.
Proof.
  destruct d as [sq asq t w dest del]. unfold render_settled, Api.InFlight. cbn.
  destruct (asq <? sq) eqn:Ef; cbn; [| by rewrite Ef]. unfold is_claimed. cbn.
  destruct (match b with Some b => Lookup b k sq | None => None end) as [st |] eqn:El; cbn.
  { by rewrite Ef, El. }
  destruct del as [st |]; [destruct (bool_decide (dvState st = DeliveryClaimed)) eqn:Ec |]; cbn;
    rewrite ?Ef, ?El; cbn; rewrite ?Ec; done.
Qed.

(** Rendering settles: a CR rendered again from the same decision and book
    is the CR it was, so a pass that learns nothing writes nothing; what
    [Render] shows fits the CRD's caps when a claimed state already did; and
    [Render] never writes the dispatch itself. *)
Theorem Render_stable (d : Dispatch) destination dec b k :
  exists d', Render (Some d) destination dec b k = Some d' /\
    Render (Some d') destination dec b k = Some d' /\
    (dpSeq d', dpAnsweredSeq d', dpDispatchedAt d', dpWithdrawn d') =
      (dpSeq d, dpAnsweredSeq d, dpDispatchedAt d, dpWithdrawn d) /\
    ((is_claimed d = true -> delivery_fits d) -> delivery_fits d') /\
    (destination <> "" -> (String.length (dpDestination d') <= 253)%nat).
Proof.
  rewrite Render_parts. eexists. split; [reflexivity |].
  destruct (refused_by dec) as [r |] eqn:Er.
  - destruct (with_destination_frame destination d) as (Hdel & Hframe & Hlen & Hidem).
    rewrite Render_parts, Er, Hidem. split_and!; [done | exact Hframe | | exact Hlen].
    intros _. unfold delivery_fits. cbn. split; apply clamp_length.
  - destruct (with_destination_frame destination (render_settled d b k)) as (Hdel & Hframe & Hlen & _).
    rewrite Render_parts, Er, render_settled_with, render_settled_twice, with_destination_twice.
    split_and!; [done | | | exact Hlen].
    + rewrite Hframe. apply render_settled_frame.
    + intros Hd. unfold delivery_fits. rewrite Hdel. by apply render_settled_fits.
Qed.
