(* ===== verification/KV.v ===== *)
(** * KV: a key/value bucket and the interface it is used through

    src/pkg/events: [Entry] and the contract of [KV] (bus.go), [SubjectMatches]
    (subjects.go); src/pkg/events/membus/kv.go: the in-memory bucket, whose
    methods hold its lock throughout.  A revision is a [uint64] counted up by
    one per write, which no bucket wraps; here it is unbounded. *)

From S2P Require Import Prelude GoLang.
From Stdlib Require Import Ascii.
From Stdlib Require Import Ascii Sorted.

Open Scope monad_scope.

(** ** Entries and errors (bus.go) *)

Inductive KVOp := KVPut | KVDelete | KVPurge.

#[export] Instance KVOp_eq_dec : EqDecision KVOp.
Proof. solve_decision. Defined.

(** [Entry], less [Delta], which the in-memory bucket leaves zero. *)
Record Entry := mkEntry {
  enBucket : string;
  enKey : string;
  enValue : string;
  enRevision : Z;
  enCreated : Time;
  enOperation : KVOp;
}.

(** The sentinels of the store's errors; [KVUnavailable] is any other error (a
    cancelled context, a closed bus, a bucket never created, a broker that
    cannot be reached). *)
Inductive KVError := ErrKeyNotFound | ErrKeyExists | ErrRevisionMismatch | KVUnavailable.

#[export] Instance KVError_eq_dec : EqDecision KVError.
Proof. solve_decision. Defined.

(** ** The interface

    What a client may rely on of [events.KV], whichever bus is behind it: a read
    is of one revision, a write is taken exactly over the revision its caller
    names, and a revision is never used twice.  [kv_at] is what a key holds at a
    time: keys also expire and are deleted by others, which [kv_evolves]
    admits, and a write may land although its reply is lost. *)
Class KV (B : Type) := {
  kv_get : Time -> string -> M B (Entry + KVError);
  kv_create : Time -> string -> string -> M B (Z + KVError);
  kv_update : Time -> string -> string -> Z -> M B (Z + KVError);
  kv_at : Time -> B -> string -> option (Z * string);
  kv_evolves : B -> B -> Prop;
}.

(** Nothing a key holds from [now] on changed; what it held before may have been
    forgotten. *)
Definition kv_kept `{KV B} (now : Time) (b b' : B) (k : string) : Prop :=
  forall t, kv_at t b' k = kv_at t b k \/ t < now /\ kv_at t b' k = None.
Definition kv_same `{KV B} (now : Time) (b b' : B) : Prop := forall k, kv_kept now b b' k.
Definition kv_same_but `{KV B} (now : Time) (key : string) (b b' : B) : Prop :=
  forall k, k <> key -> kv_kept now b b' k.

#[export] Instance kv_same_refl `{KV B} now : Reflexive (kv_same (B := B) now).
Proof. intros b k t. by left. Qed.

(** [val] was written at [key], at a revision above what the key had, over a
    bucket of which [cond] holds. *)
Definition kv_wrote `{KV B} (now : Time) (key val : string) (cond : Prop) (b b' : B) : Prop :=
  cond /\ kv_same_but now key b b' /\
  exists rev, kv_at now b' key = Some (rev, val) /\
    forall t r v, kv_at t b key = Some (r, v) -> r < rev.

(** The outcomes of a write conditional on [cond]. *)
Definition kv_cas `{KV B} (now : Time) (key val : string) (cond : Prop) (b : B)
    (res : Z + KVError) (b' : B) : Prop :=
  kv_evolves b b' /\
  match res with
  | inl rev => kv_wrote now key val cond b b'
  | inr KVUnavailable => kv_same now b b' \/ kv_wrote now key val cond b b'
  | inr _ => kv_same now b b' /\ ~ cond
  end.

Class KVLaws (B : Type) `{KV B} := {
  (** What every bucket in use satisfies. *)
  kv_ok : B -> Prop;
  kv_evolves_pre :: PreOrder kv_evolves;
  kv_evolves_ok : forall b b', kv_evolves b b' -> kv_ok b -> kv_ok b';
  (** A key's revisions grow, and name one value each. *)
  kv_revision : forall b b' t t' k r v r' v', kv_ok b -> kv_evolves b b' ->
    kv_at t b k = Some (r, v) -> kv_at t' b' k = Some (r', v') -> r <= r' /\ (r' = r -> v' = v);
  (** Revision 0 is none. *)
  kv_positive : forall b t k r v, kv_ok b -> kv_at t b k = Some (r, v) -> r <> 0;
  kv_get_spec : forall now k b,
    let '(res, b') := kv_get now k b in
    kv_evolves b b' /\ kv_same now b b' /\
    match res with
    | inl e => enOperation e = KVPut /\ kv_at now b k = Some (enRevision e, enValue e)
    | inr ErrKeyNotFound => kv_at now b k = None
    | inr _ => True
    end;
  kv_create_spec : forall now k v b, kv_ok b ->
    let '(res, b') := kv_create now k v b in
    kv_cas now k v (kv_at now b k = None) b res b';
  kv_update_spec : forall now k v rev b, kv_ok b ->
    let '(res, b') := kv_update now k v rev b in
    kv_cas now k v (exists v0, kv_at now b k = Some (rev, v0)) b res b';
}.

(** ** Subject filters (subjects.go) *)

(** The loop of [SubjectMatches] over the tokens of the filter and the subject;
    at index [i] the subject still has the tokens [s]. *)
Fixpoint match_tokens (f s : list string) : bool :=
  match f with
  | [] => match s with [] => true | _ => false end
  | ft :: f' =>
      if String.eqb ft ">" then match s with [] => false | _ => true end
      else match s with
           | [] => false
           | st :: s' =>
               if negb (String.eqb ft "*") && negb (String.eqb ft st) then false else match_tokens f' s'
           end
  end.

Definition SubjectMatches (filter subject : string) : bool :=
  if String.eqb filter "" || String.eqb filter ">" then negb (String.eqb subject "")
  else match_tokens (Split "." filter) (Split "." subject).

(** ** The in-memory bucket (membus/kv.go) *)

(** [kvValue]. *)
Record kvValue := mkValue {
  kvvValue : string;
  kvvRev : Z;
  kvvCreated : Time;
  kvvExpires : Time;
}.

(** [watcher]: its unbounded queue as everything pushed to it. *)
Record watcher := mkWatcher { wtPattern : string; wtQueue : list Entry }.

(** [bucket], less its lock: the spec's name and TTL are all it reads of it. *)
Record bucket := mkBucket {
  bkName : string;
  bkTTL : Duration;
  bkRev : Z;
  bkVals : gmap string kvValue;
  bkWatchers : list watcher;
  bkCreated : Time;
}.

#[export] Instance eta_bucket : Eta bucket :=
  fun b => mkBucket (bkName b) (bkTTL b) (bkRev b) (bkVals b) (bkWatchers b) (bkCreated b).
#[export] Instance set_bkRev : Setter bkRev. Proof. derive_setter. Defined.
#[export] Instance set_bkVals : Setter bkVals. Proof. derive_setter. Defined.
#[export] Instance set_bkWatchers : Setter bkWatchers. Proof. derive_setter. Defined.

(** When a value lapses; the zero time is never. *)
Definition lapses_at (b : bucket) (v : kvValue) : Time :=
  if IsZero (kvvExpires v) && (0 <? bkTTL b) then Add (kvvCreated v) (bkTTL b) else kvvExpires v.

Definition is_live (b : bucket) (now : Time) (v : kvValue) : bool :=
  IsZero (lapses_at b v) || Before now (lapses_at b v).

Definition liveLocked (key : string) (now : Time) : M bucket (option kvValue) :=
  b <- gets id;;
  match bkVals b !! key with
  | None => ret None
  | Some v =>
      if is_live b now v then ret (Some v)
      else modify (fun b => b <| bkVals ::= delete key |>);; ret None
  end.

Definition push_entry (e : Entry) (w : watcher) : watcher :=
  if SubjectMatches (wtPattern w) (enKey e) then mkWatcher (wtPattern w) (wtQueue w ++ [e]) else w.

Definition notifyLocked (e : Entry) : M bucket unit :=
  modify (fun b => b <| bkWatchers ::= map (push_entry e) |>).

Definition entry_of (b : bucket) (key : string) (v : kvValue) : Entry :=
  mkEntry (bkName b) key (kvvValue v) (kvvRev v) (kvvCreated v) KVPut.

Definition writeLocked (key val : string) (now : Time) (ttl : Duration) : M bucket Z :=
  modify (fun b => b <| bkRev ::= Z.succ |>);;
  rev <- gets bkRev;;
  let v := mkValue val rev now (if 0 <? ttl then Add now ttl else 0) in
  modify (fun b => b <| bkVals ::= <[key := v]> |>);;
  b <- gets id;;
  notifyLocked (entry_of b key v);;
  ret rev.

(** [ctx.Err] and [resolve]: an error returned before the bucket is touched. *)
Definition guarded {A} (up : option KVError) (m : M bucket (A + KVError)) : M bucket (A + KVError) :=
  match up with Some e => ret (inr e) | None => m end.

Definition Get (up : option KVError) (now : Time) (key : string) : M bucket (Entry + KVError) :=
  guarded up (
    v <- liveLocked key now;;
    b <- gets id;;
    ret (match v with None => inr ErrKeyNotFound | Some v => inl (entry_of b key v) end)).

(** [ttl] is the resolved option, 0 without one. *)
Definition Create (up : option KVError) (now : Time) (key val : string) (ttl : Duration) :
    M bucket (Z + KVError) :=
  guarded up (
    v <- liveLocked key now;;
    match v with
    | Some _ => ret (inr ErrKeyExists)
    | None => rev <- writeLocked key val now ttl;; ret (inl rev)
    end).

Definition Update (up : option KVError) (now : Time) (key val : string) (rev : Z) :
    M bucket (Z + KVError) :=
  guarded up (
    v <- liveLocked key now;;
    match v with
    | None => ret (inr ErrKeyNotFound)
    | Some v =>
        if negb (kvvRev v =? rev) then ret (inr ErrRevisionMismatch)
        else r <- writeLocked key val now 0;; ret (inl r)
    end).

Definition Put (up : option KVError) (now : Time) (key val : string) : M bucket (Z + KVError) :=
  guarded up (rev <- writeLocked key val now 0;; ret (inl rev)).

(** The last lines of [Delete] and [DeleteRevision]. *)
Definition dropLocked (key : string) (now : Time) : M bucket unit :=
  modify (fun b => b <| bkVals ::= delete key |> <| bkRev ::= Z.succ |>);;
  b <- gets id;;
  notifyLocked (mkEntry (bkName b) key "" (bkRev b) now KVDelete).

Definition Delete (up : option KVError) (now : Time) (key : string) : M bucket (unit + KVError) :=
  guarded up (
    v <- liveLocked key now;;
    match v with
    | None => ret (inl tt)
    | Some _ => dropLocked key now;; ret (inl tt)
    end).

Definition DeleteRevision (up : option KVError) (now : Time) (key : string) (rev : Z) :
    M bucket (unit + KVError) :=
  guarded up (
    v <- liveLocked key now;;
    match v with
    | None => ret (inr ErrRevisionMismatch)
    | Some v =>
        if negb (kvvRev v =? rev) then ret (inr ErrRevisionMismatch)
        else dropLocked key now;; ret (inl tt)
    end).

(** *** Listing and watching *)

(** [cmp.Compare] on the revisions, which are all different. *)
Fixpoint insert_rev (e : Entry) (l : list Entry) : list Entry :=
  match l with
  | [] => [e]
  | x :: l' => if enRevision e <=? enRevision x then e :: l else x :: insert_rev e l'
  end.

Section Listing.
Context `{RangeOrder}.

(** A loop over the keys that calls [liveLocked] on each: the live ones, every
    expired one dropped. *)
Definition live_entries (now : Time) : M bucket (list (string * kvValue)) :=
  b <- gets id;;
  modify (fun b => b <| bkVals ::= filter (fun '(_, v) => is_live b now v = true) |>);;
  ret (List.filter (fun '(_, v) => is_live b now v) (range (bkVals b))).

Definition watch_initial (pattern : string) (from : Z) (now : Time) : M bucket (list Entry) :=
  b <- gets id;;
  live <- live_entries now;;
  ret (foldr insert_rev []
    (map (fun '(key, v) => entry_of b key v)
      (List.filter (fun '(key, v) => SubjectMatches pattern key && negb (kvvRev v <? from)) live))).

(** [Watch]; the watcher is the last of the bucket's, until its context ends
    ([unwatch]). *)
Definition Watch (up : option KVError) (now : Time) (pattern : string) (updatesOnly : bool) (from : Z) :
    M bucket (unit + KVError) :=
  guarded up (
    q <- (if updatesOnly then ret [] else watch_initial pattern from now);;
    modify (fun b => b <| bkWatchers ::= fun ws => ws ++ [mkWatcher pattern q] |>);;
    ret (inl tt)).

Definition unwatch (i : nat) : M bucket unit :=
  modify (fun b => b <| bkWatchers ::= fun ws => take i ws ++ drop (S i) ws |>).

Fixpoint insert_key (s : string) (l : list string) : list string :=
  match l with
  | [] => [s]
  | t :: l' => if String.leb s t then s :: l else t :: insert_key s l'
  end.

Definition Keys (up : option KVError) (now : Time) : M bucket (list string + KVError) :=
  guarded up (
    live <- live_entries now;;
    ret (inl (foldr insert_key [] (map fst live)))).
End Listing.

(** [Status]: the bucket's last revision and creation time. *)
Definition Status (up : option KVError) : M bucket (Z * Time + KVError) :=
  guarded up (b <- gets id;; ret (inl (bkRev b, bkCreated b))).

(** [membus]'s bucket is an instance of [KV] and obeys its laws: whatever is
    proved of a client of the interface holds of it over this bucket.  And a
    watch of it replays the bucket. *)

Open Scope monad_scope.

(** What a key holds at a time: its live value. *)
Definition bucket_at (now : Time) (b : bucket) (key : string) : option (Z * string) :=
  match bkVals b !! key with
  | Some v => if is_live b now v then Some (kvvRev v, kvvValue v) else None
  | None => None
  end.

(** Every value's revision is one the bucket has counted. *)
Definition bucket_ok (b : bucket) : Prop :=
  0 <= bkRev b /\ map_Forall (fun _ v => 0 < kvvRev v <= bkRev b) (bkVals b).

(** Revisions only grow, and a value that is not new was there before. *)
Definition bucket_evolves (b b' : bucket) : Prop :=
  (bucket_ok b -> bucket_ok b') /\ bkRev b <= bkRev b' /\
  forall k v, bkVals b' !! k = Some v -> bkVals b !! k = Some v \/ bkRev b < kvvRev v.

#[export] Instance bucket_KV : KV bucket := {|
  kv_get := Get None;
  kv_create := fun now k v => Create None now k v 0;
  kv_update := Update None;
  kv_at := bucket_at;
  kv_evolves := bucket_evolves;
|}.

#[export] Instance bucket_evolves_pre : PreOrder bucket_evolves.
Proof.
  split.
  - intros b. split; [done |]. split; [lia |]. auto.
  - intros b1 b2 b3 (O1 & R1 & V1) (O2 & R2 & V2). split; [auto |]. split; [lia |].
    intros k v Hv. destruct (V2 k v Hv) as [H | H]; [auto | right; lia].
Qed.

(** ** Rules of the bucket's primitives *)

Section Primitives.
Implicit Types b : bucket.

(** Dropping what has lapsed changes nothing from then on. *)
Lemma is_live_later b now t v : now <= t -> is_live b now v = false -> is_live b t v = false.
Proof. unfold is_live, Before. intros Ht H. bools. apply orb_false_iff. split; [done | lia]. Qed.

Lemma wp_live key now (Q : option kvValue -> bucket -> Prop) b :
  (forall b', bucket_evolves b b' -> kv_same now b b' -> bkVals b' !! key = bkVals b !! key ->
     bkRev b' = bkRev b ->
     forall v, bkVals b !! key = Some v -> is_live b now v = true -> Q (Some v) b') ->
  (forall b', bucket_evolves b b' -> kv_same now b b' -> bkVals b' !! key = None ->
     bucket_at now b key = None -> Q None b') ->
  wp (liveLocked key now) Q b.
Proof.
  intros Hs Hn. unfold liveLocked. apply wp_bind, wp_gets. unfold id.
  destruct (bkVals b !! key) as [v |] eqn:E.
  - destruct (is_live b now v) eqn:El.
    + apply wp_ret. eapply Hs; done.
    + apply wp_bind, wp_modify, wp_ret. apply Hn.
      * split; [| split; [reflexivity |]].
        -- intros [Hr Hf]. split; [done |]. cbv [upd set_bkVals eta_of eta_bucket bkVals].
           apply map_Forall_delete. exact Hf.
        -- intros k v' Hv. cbv [upd set_bkVals eta_of eta_bucket bkVals] in Hv.
           apply lookup_delete_Some in Hv as [_ Hv]. by left.
      * intros k t. cbn. unfold bucket_at.
        cbv [upd set_bkVals eta_of eta_bucket bkVals]. fold (bkVals b).
        destruct (decide (key = k)) as [<- | Hk]; [| left; by rewrite lookup_delete_ne].
        rewrite lookup_delete_eq, E. destruct (decide (t < now)); [by right | left].
        rewrite (is_live_later b now t v); [done | lia | done].
      * cbv [upd set_bkVals eta_of eta_bucket bkVals]. apply lookup_delete_eq.
      * unfold bucket_at. by rewrite E, El.
  - apply wp_ret. apply Hn; try done. unfold bucket_at. by rewrite E.
Qed.

(** The bucket after [writeLocked], but for its watchers. *)
Definition written b (key val : string) (now : Time) (ws : list watcher) : bucket :=
  mkBucket (bkName b) (bkTTL b) (Z.succ (bkRev b))
    (<[key := mkValue val (Z.succ (bkRev b)) now 0]> (bkVals b)) ws (bkCreated b).

Lemma wp_write key val now (Q : Z -> bucket -> Prop) b :
  (forall ws, Q (Z.succ (bkRev b)) (written b key val now ws)) ->
  wp (writeLocked key val now 0) Q b.
Proof.
  intros HQ. unfold writeLocked, notifyLocked. repeat wp_step. destruct b. apply HQ.
Qed.

Lemma written_evolves b key val now ws : bucket_evolves b (written b key val now ws).
Proof.
  split; [| split].
  - intros [Hr Hf]. split; cbn; [lia |]. apply map_Forall_insert_2; cbn; [lia |].
    eapply map_Forall_impl; [exact Hf |]. cbn. intros; lia.
  - cbn. lia.
  - intros k v Hv. cbn in Hv. apply lookup_insert_Some in Hv as [[_ <-] | [_ Hv]]; cbn; [right; lia | by left].
Qed.

Lemma written_at b key val now ws : bucket_at now (written b key val now ws) key = Some (Z.succ (bkRev b), val).
Proof.
  unfold bucket_at, is_live, lapses_at, written. cbn. rewrite lookup_insert_eq. cbn.
  destruct (0 <? bkTTL b) eqn:E; bools; cbn; [| done]. unfold Before, Add.
  replace (now <? now + bkTTL b) with true by lia. by rewrite orb_true_r.
Qed.

Lemma written_same b key val now ws : kv_same_but now key b (written b key val now ws).
Proof.
  intros k Hk t. left. cbn. unfold bucket_at, written. cbn. by rewrite lookup_insert_ne.
Qed.

Lemma bucket_at_in t b k r v : bucket_at t b k = Some (r, v) ->
  exists x, bkVals b !! k = Some x /\ kvvRev x = r /\ kvvValue x = v.
Proof.
  unfold bucket_at. destruct (bkVals b !! k) as [x |]; [| done]. case_match; [| done].
  intros [= <- <-]. eauto.
Qed.

Lemma bucket_at_rev t b k r v : bucket_ok b -> bucket_at t b k = Some (r, v) -> 0 < r <= bkRev b.
Proof.
  intros [_ Hf] H. apply bucket_at_in in H as (x & Hx & <- & _).
  exact (map_Forall_lookup_1 _ _ _ _ Hf Hx).
Qed.

Lemma written_wrote b b0 key val now ws (cond : Prop) : bucket_ok b0 -> bkRev b0 <= bkRev b ->
  cond -> kv_same now b0 b -> kv_wrote now key val cond b0 (written b key val now ws).
Proof.
  intros Hok Hr Hc Hs. split; [exact Hc |]. split.
  - intros k Hk t. cbn. unfold bucket_at at 1 3, written. cbn. rewrite lookup_insert_ne by done. apply Hs.
  - exists (Z.succ (bkRev b)). split; [apply written_at |]. intros t r v Hat.
    pose proof (bucket_at_rev t b0 key r v Hok Hat). lia.
Qed.
End Primitives.

(** ** The laws *)

(** What a [Get] answers. *)
Lemma get_spec now key b :
  wp (Get None now key) (fun res b' => bucket_evolves b b' /\ kv_same now b b' /\
    match res with
    | inl e => enOperation e = KVPut /\ bucket_at now b key = Some (enRevision e, enValue e)
    | inr ErrKeyNotFound => bucket_at now b key = None
    | inr _ => True
    end) b.
Proof.
  unfold Get, guarded. apply wp_bind, wp_live; intros b' He Hs.
  - intros Hv Hr v Ev El. apply wp_bind, wp_gets, wp_ret. split_and!; [done .. |].
    unfold bucket_at. by rewrite Ev, El.
  - intros Hv Hn. apply wp_bind, wp_gets, wp_ret. by split_and!.
Qed.

Lemma create_spec now key val b : bucket_ok b ->
  wp (Create None now key val 0) (kv_cas now key val (bucket_at now b key = None) b) b.
Proof.
  intros Hok. unfold Create, guarded. apply wp_bind, wp_live; intros b' He Hs.
  - intros Hv Hr v Ev El. apply wp_ret. split_and!; [done .. |]. unfold bucket_at. by rewrite Ev, El.
  - intros Hv Hn. apply wp_bind, wp_write. intros ws. apply wp_ret. split.
    + etransitivity; [exact He | apply written_evolves].
    + apply written_wrote; [done | apply He | done | exact Hs].
Qed.

Lemma update_spec now key val rev b : bucket_ok b ->
  wp (Update None now key val rev) (kv_cas now key val (exists v0, bucket_at now b key = Some (rev, v0)) b) b.
Proof.
  intros Hok. unfold Update, guarded. apply wp_bind, wp_live; intros b' He Hs.
  - intros Hv Hr v Ev El.
    assert (bucket_at now b key = Some (kvvRev v, kvvValue v)) as Hat by (unfold bucket_at; by rewrite Ev, El).
    destruct (negb (kvvRev v =? rev)) eqn:E; bools.
    { apply wp_ret. split_and!; [done .. |]. intros [v0 H]. congruence. }
    apply wp_bind, wp_write. intros ws. apply wp_ret. split.
    + etransitivity; [exact He | apply written_evolves].
    + apply written_wrote; [done | apply He | | exact Hs]. exists (kvvValue v). by subst.
  - intros Hv Hn. apply wp_ret. split_and!; [done .. |]. intros [v0 H]. congruence.
Qed.

(** The specification a law states by [let], from a rule of [wp]. *)
Lemma wp_let {S A} (m : M S A) (Q : A -> S -> Prop) s : wp m Q s -> let '(a, s') := m s in Q a s'.
Proof. intros H. destruct (m s) as [a s'] eqn:E. by apply (wp_run m Q s). Qed.

#[export] Instance bucket_KVLaws : KVLaws bucket.
Proof.
  refine {| kv_ok := bucket_ok |}.
  - intros b b' He. apply He.
  - intros b b' t t' k r v r' v' [_ Hf] (_ & _ & Hv) H1 H2.
    apply bucket_at_in in H1 as (x & Hx & <- & <-). apply bucket_at_in in H2 as (y & Hy & <- & <-).
    pose proof (map_Forall_lookup_1 _ _ _ _ Hf Hx) as Hle. cbn in Hle.
    destruct (Hv k y Hy) as [Hin | Hnew]; [| lia]. rewrite Hx in Hin. injection Hin as ->.
    split; [lia | done].
  - intros b t k r v Hb H. pose proof (bucket_at_rev t b k r v Hb H). lia.
  - intros now k b. apply wp_let, get_spec.
  - intros now k v b Hb. by apply wp_let, create_spec.
  - intros now k v rev b Hb. by apply wp_let, update_spec.
Defined.

(** ** One update per revision *)

(** Compare and swap: of the updates that name one revision of a key, at
    most one lands, whatever reads, writes, deletes and expiries come between
    and whoever makes them. *)
Theorem update_wins_once (b b1 b2 : bucket) now now' key v1 v2 rev r1 :
  bucket_ok b -> Update None now key v1 rev b = (inl r1, b1) -> bucket_evolves b1 b2 ->
  exists e, fst (Update None now' key v2 rev b2) = inr e.
Proof.
  intros Hok H1 He. pose proof (kv_update_spec now key v1 rev b Hok) as S1.
  change (kv_update now key v1 rev b) with (Update None now key v1 rev b) in S1. rewrite H1 in S1.
  destruct S1 as [He1 ((v0 & Hv0) & _ & r & Hr & Hnew)].
  assert (bucket_ok b2) as Hok2 by (apply He, He1, Hok).
  pose proof (kv_update_spec now' key v2 rev b2 Hok2) as S2.
  change (kv_update now' key v2 rev b2) with (Update None now' key v2 rev b2) in S2.
  destruct (Update None now' key v2 rev b2) as [[r2 | e] b3]; [exfalso | by exists e].
  destruct S2 as [_ ((v0' & Hv0') & _)].
  pose proof (Hnew _ _ _ Hv0). pose proof (kv_revision b1 b2 now now' key r v1 rev v0' (proj1 He1 Hok) He Hr Hv0').
  lia.
Qed.

Definition ex_bucket : bucket := mkBucket "clustarr-markers" 0 0 ∅ [] 0.
Definition ex_created : bucket := snd (Create None 5 "k" "one" 0 ex_bucket).

Lemma update_wins_once_witness :
  let r := Update None 6 "k" "two" 1 ex_created in
  fst r = inl 2 /\ exists e, fst (Update None 7 "k" "three" 1 (snd r)) = inr e.
Proof.
  intros r. split; [vm_compute; reflexivity |].
  apply (update_wins_once ex_created (snd r) (snd r) 6 7 "k" "two" "three" 1 2).
  - split; [vm_compute; discriminate |]. by apply map_Forall_singleton.
  - rewrite (surjective_pairing r). f_equal.
  - reflexivity.
Defined.
