(* ===== verification/Subjects.v ===== *)
(** * Subjects: what is published where

    src/pkg/events: the subject grammar's one token function, the subject and
    message-id builders of each message (subjects.go, agents.go, probe.go,
    mediakey.go), the names of streams, filters and durables, and the subject a
    scheduled message is held on. *)

From S2P Require Import Prelude GoLang Sha Events KV.
From Stdlib Require Import Ascii.

(** ** Runes

    [strings.Map] walks a string rune by rune and writes U+FFFD for each byte
    that begins no valid UTF-8 sequence. *)

Definition cont_byte : ascii -> bool := in_range 128 191.

(** The bytes of the rune [s] begins with, 1 for a byte that begins none
    ([utf8.DecodeRuneInString]). *)
Definition rune_width (s : string) : nat :=
  match s with
  | EmptyString => 0
  | String a t =>
      let c1 lo hi := match t with String b _ => in_range lo hi b | _ => false end in
      let c2 := match t with String _ (String c _) => cont_byte c | _ => false end in
      let c3 := match t with String _ (String _ (String d _)) => cont_byte d | _ => false end in
      if in_range 194 223 a then if c1 128 191 then 2%nat else 1%nat
      else if in_range 224 239 a then
        let lo := if byte_of a =? 224 then 160 else 128 in
        let hi := if byte_of a =? 237 then 159 else 191 in
        if c1 lo hi && c2 then 3%nat else 1%nat
      else if in_range 240 244 a then
        let lo := if byte_of a =? 240 then 144 else 128 in
        let hi := if byte_of a =? 244 then 143 else 191 in
        if c1 lo hi && c2 && c3 then 4%nat else 1%nat
      else 1%nat
  end.

(** [utf8.RuneError] as it is written. *)
Definition rune_error : string :=
  String (ascii_of 239) (String (ascii_of 191) (String (ascii_of 189) EmptyString)).

(** [strings.Map] of a function that moves ASCII runes only, to ASCII runes;
    [k] bytes of a rune already decoded are left to copy. *)
Fixpoint map_runes (f : ascii -> ascii) (k : nat) (s : string) : string :=
  match s with
  | EmptyString => EmptyString
  | String a t =>
      match k with
      | S k' => String a (map_runes f k' t)
      | O =>
          if in_range 0 127 a then String (f a) (map_runes f 0 t)
          else match rune_width s with
               | S (S k') => String a (map_runes f (S k') t)
               | _ => rune_error +:+ map_runes f 0 t
               end
      end
  end.

(** ** One token (subjects.go) *)

Definition tab : ascii := ascii_of 9.
Definition backslash : ascii := ascii_of 92.

Definition tok_char (a : ascii) : ascii :=
  if Ascii.eqb a "." || Ascii.eqb a " " || Ascii.eqb a tab || Ascii.eqb a "*" || Ascii.eqb a ">"
     || Ascii.eqb a "/" || Ascii.eqb a backslash then "-"%char
  else if (byte_of a <? 32) || (byte_of a =? 127) then "-"%char
  else a.

Definition tok (s : string) : string :=
  if String.eqb s "" then "_" else map_runes tok_char 0 s.

(** ** Names *)

Definition StreamEvents : string := "CLUSTARR_EVENTS".
Definition StreamReleases : string := "CLUSTARR_RELEASES".
Definition StreamWorkCatalog : string := "CLUSTARR_WORK_CATALOG".
Definition StreamWorkImport : string := "CLUSTARR_WORK_IMPORT".
Definition StreamWorkIndex : string := "CLUSTARR_WORK_INDEX".
Definition StreamWorkCaption : string := "CLUSTARR_WORK_CAPTION".
Definition StreamWorkTranscode : string := "CLUSTARR_WORK_TRANSCODE".
Definition StreamWorkMarkers : string := "CLUSTARR_WORK_MARKERS".
Definition StreamDLQ : string := "CLUSTARR_DLQ".
Definition StreamWorkProbe : string := "CLUSTARR_WORK_PROBE".
Definition StreamIntake : string := "CLUSTARR_INTAKE".
Definition StreamTaskEvents : string := "CLUSTARR_TASK_EVENTS".

Definition SubjectMaxDeliveriesAdvisoryPrefix : string := "$JS.EVENT.ADVISORY.CONSUMER.MAX_DELIVERIES".
Definition FilterMaxDeliveriesAdvisories : string := SubjectMaxDeliveriesAdvisoryPrefix +:+ ".>".
Definition MaxDeliveriesAdvisorySubject (stream durable : string) : string :=
  SubjectMaxDeliveriesAdvisoryPrefix +:+ "." +:+ stream +:+ "." +:+ durable.

Definition SubjectRoot : string := "clustarr".

Definition FilterAllEvents : string := "clustarr.evt.>".
Definition FilterAllReleases : string := "clustarr.rel.>".
Definition FilterWorkCatalog : string := "clustarr.work.catalog.>".
Definition FilterWorkImport : string := "clustarr.work.import.>".
Definition FilterWorkIndex : string := "clustarr.work.index.>".
Definition FilterWorkCaption : string := "clustarr.work.caption.>".
Definition FilterWorkTranscode : string := "clustarr.work.transcode.>".
Definition FilterWorkMarkers : string := "clustarr.work.markers.>".
Definition FilterAllDLQ : string := "clustarr.dlq.>".
Definition FilterCatalogMetadata : string := "clustarr.work.catalog.metadata.>".
Definition FilterCatalogWanted : string := "clustarr.work.catalog.wantedscan.>".
Definition FilterImportScan : string := "clustarr.work.import.scan.>".
Definition FilterImportList : string := "clustarr.work.import.list.>".
Definition FilterImportFile : string := "clustarr.work.import.fileimport.>".
Definition FilterIndexRSS : string := "clustarr.work.index.rss.>".
Definition FilterCatalogArtworkFetch : string := "clustarr.work.catalog.artwork.fetch.>".
Definition FilterCatalogMarkers : string := "clustarr.work.markers.markers.>".
Definition FilterCatalogSegmentsPlan : string := "clustarr.work.markers.plan.>".
Definition FilterCatalogSegmentsAnalyze : string := "clustarr.work.markers.analyze.>".
Definition FilterCatalogArtworkRender : string := "clustarr.work.catalog.artwork.render.>".
Definition FilterCatalogImageSet : string := "clustarr.work.catalog.imageset.>".
Definition FilterImportRecycle : string := "clustarr.work.import.recycle.>".
Definition FilterWorkProbe : string := "clustarr.work.probe.>".
Definition FilterProbeHigh : string := "clustarr.work.probe.file.high.>".
Definition FilterProbeLow : string := "clustarr.work.probe.file.low.>".
Definition FilterIntake : string := "clustarr.intake.>".
Definition FilterIntakeCandidates : string := "clustarr.intake.candidate.>".
Definition FilterIntakeScans : string := "clustarr.intake.scan.>".
Definition FilterWorkEngine : string := "clustarr.work.engine.>".

Definition ConsumerCatalogHistory : string := "catalog-history".
Definition ConsumerDLQProjector : string := "clustarr-dlq-projector".
Definition ConsumerCatalogImageSet : string := "catalog-imageset".
Definition ConsumerCatalogSegmentsPlan : string := "catalog-segments-plan".
Definition ConsumerIntakeCandidate : string := "catalog-intake-candidate".
Definition ConsumerIntakeScan : string := "import-intake-scan".
Definition ConsumerTaskEvents : string := "clustarr-task-events".

(** ** Work priorities *)

Definition PriorityHigh : string := "high".
Definition PriorityNormal : string := "normal".
Definition PriorityLow : string := "low".
Definition Priority_Valid (p : string) : bool :=
  String.eqb p PriorityHigh || String.eqb p PriorityNormal || String.eqb p PriorityLow.

(** ** Subject builders *)

Definition CatalogItemSubject (kind action uid : string) : string :=
  "clustarr.evt.catalog." +:+ tok kind +:+ "." +:+ tok action +:+ "." +:+ tok uid.
Definition CatalogReleaseSubject (action targetUID : string) : string :=
  "clustarr.evt.catalog.release." +:+ tok action +:+ "." +:+ tok targetUID.
Definition CatalogMediaFileSubject (action uid : string) : string :=
  "clustarr.evt.catalog.mediafile." +:+ tok action +:+ "." +:+ tok uid.
Definition CatalogImportListSyncedSubject (uid : string) : string :=
  "clustarr.evt.catalog.importlist.synced." +:+ tok uid.
Definition ReleaseSubject (protocol indexerName : string) (newznabTop : Z) : string :=
  "clustarr.rel." +:+ tok protocol +:+ "." +:+ tok indexerName +:+ "." +:+ fmt_d newznabTop.
Definition IndexerEventSubject (action uid : string) : string :=
  "clustarr.evt.index.indexer." +:+ tok action +:+ "." +:+ tok uid.
Definition DownloadEventSubject (action uid : string) : string :=
  "clustarr.evt.download.download." +:+ tok action +:+ "." +:+ tok uid.
Definition TranscodeEventSubject (action mediaFileUID : string) : string :=
  "clustarr.evt.transcode.job." +:+ tok action +:+ "." +:+ tok mediaFileUID.
Definition SubtitleEventSubject (action mediaFileUID : string) : string :=
  "clustarr.evt.subtitle.subtitle." +:+ tok action +:+ "." +:+ tok mediaFileUID.
Definition WorkSearchSubject (p mediaKey : string) : string :=
  "clustarr.work.catalog.search." +:+ tok p +:+ "." +:+ tok mediaKey.
Definition WorkMetadataSubject (p mediaKey : string) : string :=
  "clustarr.work.catalog.metadata." +:+ tok p +:+ "." +:+ tok mediaKey.
Definition WorkSegmentsPlanSubject (key : string) : string :=
  "clustarr.work.markers.plan.normal." +:+ tok key.
Definition WorkSegmentsAnalyzeSubject (key : string) : string :=
  "clustarr.work.markers.analyze.normal." +:+ tok key.
Definition WorkMarkersSubject (mediaKey : string) : string :=
  "clustarr.work.markers.markers.normal." +:+ tok mediaKey.
Definition WorkWantedScanSubject (namespace : string) : string :=
  "clustarr.work.catalog.wantedscan.low." +:+ tok namespace.
Definition WorkScanSubject (rootFolder : string) : string :=
  "clustarr.work.import.scan." +:+ tok rootFolder.
Definition WorkListSubject (importList : string) : string :=
  "clustarr.work.import.list." +:+ tok importList.
Definition WorkFileImportSubject (downloadUID : string) : string :=
  "clustarr.work.import.fileimport." +:+ tok downloadUID.
Definition SubjectImportRecycleSweep : string := "clustarr.work.import.recycle.sweep".
Definition WorkRSSSubject (indexerUID : string) : string :=
  "clustarr.work.index.rss.normal." +:+ tok indexerUID.
Definition WorkFetchSubject (p fileUID langKey : string) : string :=
  "clustarr.work.caption.fetch." +:+ tok p +:+ "." +:+ tok fileUID +:+ "." +:+ tok langKey.
Definition WorkFetchSubjectAnyPriority (fileUID langKey : string) : string :=
  "clustarr.work.caption.fetch.*." +:+ tok fileUID +:+ "." +:+ tok langKey.
Definition WorkArtworkFetchSubject (mediaKey : string) : string :=
  "clustarr.work.catalog.artwork.fetch." +:+ tok mediaKey.
Definition WorkArtworkRenderSubject (mediaKey : string) : string :=
  "clustarr.work.catalog.artwork.render." +:+ tok mediaKey.
Definition WorkImageSetSubject (mediaKey : string) : string :=
  "clustarr.work.catalog.imageset.normal." +:+ tok mediaKey.
Definition ProgressDownloadSubject (uid : string) : string :=
  "clustarr.progress.download." +:+ tok uid.
Definition DLQSubject (service task id : string) : string :=
  "clustarr.dlq." +:+ tok service +:+ "." +:+ tok task +:+ "." +:+ tok id.
Definition WorkTranscodeTaskSubject (profileUID cls mediaFileUID : string) : string :=
  "clustarr.work.transcode.task." +:+ tok profileUID +:+ "." +:+ tok cls +:+ "." +:+ tok mediaFileUID.
Definition WorkTranscodeTaskSubjectAnyPool (mediaFileUID : string) : string :=
  "clustarr.work.transcode.task.*.*." +:+ tok mediaFileUID.
Definition FilterTranscodeTasks (profileUID cls : string) : string :=
  "clustarr.work.transcode.task." +:+ tok profileUID +:+ "." +:+ tok cls +:+ ".>".

(** probe.go: any priority but high is the low lane. *)
Definition WorkProbeSubject (p mediaKey : string) : string :=
  let lane := if String.eqb p PriorityHigh then PriorityHigh else PriorityLow in
  "clustarr.work.probe.file." +:+ lane +:+ "." +:+ tok mediaKey.

(** agents.go. *)
Definition IntakeCandidateSubject `{Unicode} (ownerKind ownerUID : string) : string :=
  "clustarr.intake.candidate." +:+ KVKeyToken (ToLower ownerKind) +:+ "." +:+ KVKeyToken ownerUID.
Definition IntakeScanSubject (namespace scanUID : string) : string :=
  "clustarr.intake.scan." +:+ tok namespace +:+ "." +:+ KVKeyToken scanUID.
Definition WorkImportInspectSubject (entryUID : string) : string :=
  "clustarr.work.import.fileimport.inspect." +:+ KVKeyToken entryUID.
Definition WorkImportExecuteSubject (entryUID : string) : string :=
  "clustarr.work.import.fileimport.execute." +:+ KVKeyToken entryUID.
Definition SubjectImportRecycleFiles (id : string) : string :=
  "clustarr.work.import.recycle.files." +:+ KVKeyToken id.

(** [ScheduleSubject]: [None] is its error. *)
Definition ScheduleSubject (target : string) : option string :=
  let parts := Split "." target in
  if Nat.ltb (length parts) 5 || negb (String.eqb (nth 0 parts "") "clustarr")
     || negb (String.eqb (nth 1 parts "") "work") then None
  else Some (Join (take 3 parts) "." +:+ ".sched." +:+ Join (drop 3 parts) ".").

(** ** Keys and message ids *)

(** [time.Time.Unix]. *)
Definition Unix (t : Time) : Z := wrap64 (t / Second - unixToInternal).

Definition TranscodePoolDurablePrefix : string := "transcode-pool-".
Definition TranscodeTaskConsumerName (profileUID cls : string) : string :=
  TranscodePoolDurablePrefix +:+ KVKeyToken profileUID +:+ "-" +:+ KVKeyToken cls.
Definition TranscodeLeaseKey (mediaFileUID : string) : string := "lease." +:+ KVKeyToken mediaFileUID.
Definition UsenetAccountKey (account : string) : string := "account." +:+ KVKeyToken account.
Definition ExclusionKey (source id : string) : string := KVKeyToken source +:+ "." +:+ KVKeyToken id.
Definition ProbeKey (uid : string) : string := KVKeyToken uid.
Definition PresencePrefix : string := "agent.".
Definition PresenceKey (domain pod : string) : string :=
  PresencePrefix +:+ KVKeyToken domain +:+ "." +:+ KVKeyToken pod.
Definition DownloadProgressKey (entryUID : string) : string := "download." +:+ KVKeyToken entryUID.
Definition TranscodeProgressKey (mfUID : string) : string := "transcode." +:+ KVKeyToken mfUID.

(** [strings.Contains] of a slash. *)
Fixpoint has_char (c : ascii) (s : string) : bool :=
  match s with
  | EmptyString => false
  | String a s' => Ascii.eqb a c || has_char c s'
  end.

(** [ArtworkKey]: [None] is its panic. *)
Definition ArtworkKey (kind uid imageType variant : string) : option string :=
  let parts := [kind; uid; imageType; variant] in
  if existsb (fun p => String.eqb p "" || has_char "/" p) parts then None else Some (Join parts "/").

Definition MsgIDForMarkers (fileUID : string) (seq : Z) : string :=
  "markers/" +:+ fileUID +:+ "/" +:+ fmt_d seq.
Definition MsgIDForMarkersAt (fileUID : string) (seq : Z) (at_ : Time) : string :=
  MsgIDForMarkers fileUID seq +:+ "/at-" +:+ fmt_d (Unix at_).
Definition MsgIDForImageSet (itemUID : string) (seq : Z) : string :=
  "imageset/" +:+ itemUID +:+ "/" +:+ fmt_d seq.
Definition MsgIDForImageSetAt (itemUID : string) (seq : Z) (at_ : Time) : string :=
  MsgIDForImageSet itemUID seq +:+ "/at-" +:+ fmt_d (Unix at_).
Definition MsgIDForObject (uid : string) (generation : Z) (task : string) : string :=
  uid +:+ ":" +:+ fmt_d generation +:+ ":" +:+ task.
Definition MsgIDForRelease (indexerName guid : string) : string :=
  hex_encode (sha1 (bytes_of (indexerName +:+ ":" +:+ guid))).
Definition MsgIDForSubtitleFetch (fileUID langKey : string) (seq : Z) : string :=
  "subtitle/" +:+ fileUID +:+ "/" +:+ langKey +:+ "/" +:+ fmt_d seq.
Definition MsgIDForTranscodeTask (mfUID : string) (seq : Z) : string :=
  "transcode/" +:+ mfUID +:+ "/" +:+ fmt_d seq.
Definition MsgIDForProbe (uid probeHash : string) (version seq : Z) : string :=
  "probe/" +:+ uid +:+ "/" +:+ probeHash +:+ "/v" +:+ fmt_d version +:+ "/" +:+ fmt_d seq.
Definition MsgIDForEngineCommand (entryUID : string) (seq : Z) : string :=
  "engine/" +:+ entryUID +:+ "/" +:+ fmt_d seq.
Definition MsgIDForEngineCommandAfterBoot (entryUID : string) (seq : Z) (bootID : string) : string :=
  "engine/" +:+ entryUID +:+ "/" +:+ fmt_d seq +:+ "/" +:+ bootID.
Definition MsgIDForEngineResync (clientUID : string) (ordinal resyncSeq : Z) : string :=
  "engine/" +:+ clientUID +:+ "/" +:+ fmt_d ordinal +:+ "/resync/" +:+ fmt_d resyncSeq.
Definition MsgIDForEngineRemoveID (clientUID : string) (ordinal : Z) (downloadID : string) : string :=
  "engine/" +:+ clientUID +:+ "/" +:+ fmt_d ordinal +:+ "/id/" +:+ downloadID.
Definition MsgIDForImport (entryUID phase : string) (seq : Z) : string :=
  "import/" +:+ entryUID +:+ "/" +:+ phase +:+ "/" +:+ fmt_d seq.
Definition MsgIDForSearch (taskUID : string) (seq : Z) : string :=
  "search/" +:+ taskUID +:+ "/" +:+ fmt_d seq.
Definition MsgIDForSeasonSearch (seriesUID : string) (season seq : Z) : string :=
  "season-search/" +:+ seriesUID +:+ "/" +:+ fmt_d season +:+ "/" +:+ fmt_d seq.
Definition shortSHA1 (s : string) : string := str_take 16 (hex_encode (sha1 (bytes_of s))).
Definition MsgIDForCandidate (origin scopeUID indexer guid : string) : string :=
  origin +:+ "/" +:+ scopeUID +:+ "/" +:+ shortSHA1 (indexer +:+ ":" +:+ guid).
Definition MsgIDForScanObservation (scanUID path fingerprint : string) : string :=
  "scan/" +:+ scanUID +:+ "/" +:+ shortSHA1 path +:+ "/" +:+ fingerprint.

(** mediakey.go. *)
Definition mediaKeyHashLen : nat := 10.
Definition nul : string := String (ascii_of 0) EmptyString.
Definition MediaKey (kind namespace name : string) : string :=
  tok kind +:+ "-" +:+ tok namespace +:+ "-" +:+ tok name +:+ "-"
  +:+ str_take mediaKeyHashLen
        (hex_encode (sha1 (bytes_of (kind +:+ nul +:+ namespace +:+ nul +:+ name)))).

(** ** Advisory subjects (agents.go) *)

Definition SubjectNakAdvisoryPrefix : string := "$JS.EVENT.ADVISORY.CONSUMER.MSG_NAKED".
Definition SubjectTermAdvisoryPrefix : string := "$JS.EVENT.ADVISORY.CONSUMER.MSG_TERMINATED".
Definition SubjectAckMetricPrefix : string := "$JS.EVENT.METRIC.CONSUMER.ACK".
Definition NakAdvisorySubject (stream durable : string) : string :=
  SubjectNakAdvisoryPrefix +:+ "." +:+ stream +:+ "." +:+ durable.
Definition TermAdvisorySubject (stream durable : string) : string :=
  SubjectTermAdvisoryPrefix +:+ "." +:+ stream +:+ "." +:+ durable.
Definition AckMetricSubject (stream durable : string) : string :=
  SubjectAckMetricPrefix +:+ "." +:+ stream +:+ "." +:+ durable.

Example tok_mixed : tok "a.b/c*" = "a-b-c-".
Proof. vm_compute. reflexivity. Qed.
Example tok_rune : tok (micro_sign +:+ String (ascii_of 255) ".") = micro_sign +:+ rune_error +:+ "-".
Proof. vm_compute. reflexivity. Qed.
Example schedule_search :
  ScheduleSubject "clustarr.work.catalog.search.high.k" = Some "clustarr.work.catalog.sched.search.high.k".
Proof. vm_compute. reflexivity. Qed.
