(* ===== verification/Topology.v ===== *)
(** * Topology: the broker layout

    src/pkg/events/topology.go, with the parts declared in probe.go, records.go,
    agents.go, deadletter_topology.go, slots.go and bus.go: the consumer and
    subscription a spec stands for, [Validate], the production layout
    [Default], [ForSingleNode] and its byte budget, and the lookups. *)

From S2P Require Import Prelude GoLang Events KV Subjects.
From Stdlib Require Import Ascii.

#[export] Instance set_csDescription : Setter csDescription. Proof. derive_setter. Defined.
#[export] Instance set_csHeartbeat : Setter csHeartbeat. Proof. derive_setter. Defined.
#[export] Instance set_csHandlerTimeout : Setter csHandlerTimeout. Proof. derive_setter. Defined.
#[export] Instance set_csSampleFrequency : Setter csSampleFrequency. Proof. derive_setter. Defined.
#[export] Instance set_csDispatched : Setter csDispatched. Proof. derive_setter. Defined.
#[export] Instance set_csRequeueOnStop : Setter csRequeueOnStop. Proof. derive_setter. Defined.

Definition KiB : Z := 1024.
Definition MiB : Z := 1048576.
Definition GiB : Z := 1073741824.

(** ** Subscriptions (bus.go) *)

(** [Subscription]. *)
Record Subscription := mkSubscription {
  sbStream : string;
  sbDurable : string;
  sbFilters : list string;
  sbAckWait : Duration;
  sbMaxDeliver : Z;
  sbBackoff : list Duration;
  sbMaxInFlight : Z;
  sbMaxAckPending : Z;
  sbDrain : Duration;
  sbHeartbeat : Duration;
  sbHandlerTimeout : Duration;
  sbSampleFrequency : string;
  sbRequeueOnStop : bool;
}.

#[export] Instance eta_Subscription : Eta Subscription :=
  fun s => mkSubscription (sbStream s) (sbDurable s) (sbFilters s) (sbAckWait s) (sbMaxDeliver s)
    (sbBackoff s) (sbMaxInFlight s) (sbMaxAckPending s) (sbDrain s) (sbHeartbeat s)
    (sbHandlerTimeout s) (sbSampleFrequency s) (sbRequeueOnStop s).
#[export] Instance set_sbAckWait : Setter sbAckWait. Proof. derive_setter. Defined.
#[export] Instance set_sbBackoff : Setter sbBackoff. Proof. derive_setter. Defined.
#[export] Instance set_sbMaxDeliver : Setter sbMaxDeliver. Proof. derive_setter. Defined.

(** ** Consumer budgets (topology.go, requeue.go, slots.go) *)

Definition RequeueDrain : Duration := 15 * Second.

Definition StopBudget (c : ConsumerSpec) : Duration :=
  if csRequeueOnStop c then RequeueDrain else csAckWait c.

Definition HandlerBudget (c : ConsumerSpec) : Duration :=
  if 0 <? csHandlerTimeout c then csHandlerTimeout c else csAckWait c.

Definition AutoscaleReplicaCeiling : Z := 8.
Definition PerNodeSlotsCeiling : Z := 8.

Definition SlotsForCPUs (cpus coresPerSlot : Z) : Z :=
  Z.min (Z.max 1 (Z.quot cpus (Z.max 1 coresPerSlot))) PerNodeSlotsCeiling.

Definition SlotsFor (c : ConsumerSpec) (overrides : gmap string Z) : Z :=
  match overrides !! csName c with Some n => n | None => csSlots c end.

(** [ConsumerSpec.Subscription]. *)
Definition spec_Subscription (c : ConsumerSpec) : Subscription :=
  {| sbStream := csStream c;
     sbDurable := csName c;
     sbFilters := csFilters c;
     sbAckWait := csAckWait c;
     sbMaxDeliver := csMaxDeliver c;
     sbBackoff := csBackOff c;
     sbMaxInFlight := csSlots c;
     sbMaxAckPending := csMaxAckPending c;
     sbDrain := 0;
     sbHeartbeat := csHeartbeat c;
     sbHandlerTimeout := csHandlerTimeout c;
     sbSampleFrequency := csSampleFrequency c;
     sbRequeueOnStop := csRequeueOnStop c |}.

(** [cmp.Or] of two integers. *)
Definition cmp_or (a b : Z) : Z := if a =? 0 then b else a.

Definition SubscriptionSpec (s : Subscription) : ConsumerSpec :=
  let slots := Z.max (sbMaxInFlight s) 1 in
  {| csName := sbDurable s;
     csStream := sbStream s;
     csDescription := "";
     csFilters := sbFilters s;
     csAckWait := sbAckWait s;
     csMaxDeliver := sbMaxDeliver s;
     csBackOff := sbBackoff s;
     csMaxAckPending := cmp_or (sbMaxAckPending s) slots;
     csSlots := slots;
     csHeartbeat := sbHeartbeat s;
     csHandlerTimeout := sbHandlerTimeout s;
     csSampleFrequency := sbSampleFrequency s;
     csDispatched := false;
     csRequeueOnStop := sbRequeueOnStop s |}.

(** A composite literal that sets these fields; the others are zero. *)
Definition consumer (name stream : string) (filters : list string) (ackWait : Duration)
    (maxDeliver : Z) (backOff : list Duration) (maxAckPending slots : Z) : ConsumerSpec :=
  {| csName := name; csStream := stream; csDescription := ""; csFilters := filters;
     csAckWait := ackWait; csMaxDeliver := maxDeliver; csBackOff := backOff;
     csMaxAckPending := maxAckPending; csSlots := slots; csHeartbeat := 0; csHandlerTimeout := 0;
     csSampleFrequency := ""; csDispatched := false; csRequeueOnStop := false |}.

Definition SampleFrequencyDispatched : string := "10%".

(** The two fields every dispatched durable sets. *)
Definition dispatched (c : ConsumerSpec) : ConsumerSpec :=
  c <| csSampleFrequency := SampleFrequencyDispatched |> <| csDispatched := true |>.

Definition TranscodeTaskConsumer (profileUID cls : string) : ConsumerSpec :=
  dispatched (consumer (TranscodeTaskConsumerName profileUID cls) StreamWorkTranscode
    [FilterTranscodeTasks profileUID cls] (60 * Second) 16 [] 64 1)
  <| csDescription := "One transcode pool's tasks." |>.

(** ** Dead-letter watchers (deadletter_topology.go) *)

Definition DeadLetterWatcherPrefix : string := "clustarr-dlq-watch-".
Definition DeadLetterWatcherMaxAckPending : Z := 4.
Definition DeadLetterWatcherAckWait : Duration := 80 * Second.

Definition DeadLetterWatcherName (stream durable : string) : string :=
  DeadLetterWatcherPrefix +:+ stream +:+ "-" +:+ durable.

Definition DeadLetterWatcherSpec (c : ConsumerSpec) : ConsumerSpec :=
  (consumer (DeadLetterWatcherName (csStream c) (csName c)) StreamAdvisories
    [MaxDeliveriesAdvisorySubject (csStream c) (csName c)] DeadLetterWatcherAckWait (-1) []
    DeadLetterWatcherMaxAckPending DeadLetterWatcherMaxAckPending)
  <| csDescription := "Dead-letters the lapsed final deliveries of " +:+ csName c +:+ "." |>.

Definition withDeadLetterWatchers (cs : list ConsumerSpec) : list ConsumerSpec :=
  cs ++ map DeadLetterWatcherSpec cs.

(** ** Lookups *)

(** [Topology.Stream]. *)
Fixpoint find_stream (l : list StreamSpec) (name : string) : option StreamSpec :=
  match l with
  | [] => None
  | s :: l' => if String.eqb (ssName s) name then Some s else find_stream l' name
  end.
Definition Topology_Stream (t : Topology) (name : string) : option StreamSpec :=
  find_stream (Streams t) name.

Fixpoint stream_for (l : list StreamSpec) (subject : string) : option StreamSpec :=
  match l with
  | [] => None
  | s :: l' =>
      if existsb (fun f => SubjectMatches f subject) (ssSubjects s) then Some s
      else stream_for l' subject
  end.
Definition StreamForSubject (t : Topology) (subject : string) : option StreamSpec :=
  stream_for (Streams t) subject.

Inductive TopologyKind := TopologyStream | TopologyConsumer | TopologyBucket | TopologyObjectStore.

#[export] Instance TopologyKind_eq_dec : EqDecision TopologyKind.
Proof. solve_decision. Defined.

(** [TopologyObject]. *)
Record TopologyObject := mkObject { toKind : TopologyKind; toStream : string; toName : string }.

Definition kind_text (k : TopologyKind) : string :=
  match k with
  | TopologyStream => "stream" | TopologyConsumer => "consumer"
  | TopologyBucket => "kv" | TopologyObjectStore => "object store"
  end.

Definition TopologyObject_String (o : TopologyObject) : string :=
  if bool_decide (toKind o = TopologyConsumer)
  then kind_text (toKind o) +:+ " " +:+ toStream o +:+ "/" +:+ toName o
  else kind_text (toKind o) +:+ " " +:+ toName o.

Definition Objects (t : Topology) : list TopologyObject :=
  map (fun s => mkObject TopologyStream "" (ssName s)) (Streams t)
  ++ map (fun c => mkObject TopologyConsumer (csStream c) (csName c)) (Consumers t)
  ++ map (fun b => mkObject TopologyBucket "" (bsName b)) (Buckets t)
  ++ map (fun o => mkObject TopologyObjectStore "" (osName o)) (ObjectStores t).

(** ** One node *)

Definition singleNodeMemoryBudget : Z := 64 * MiB.
Definition singleNodeMinStreamBytes : Z := 1 * MiB.

Definition sum64 (l : list Z) : Z := fold_left (fun a x => wrap64 (a + x)) l 0.

(** [s.MaxBytes*left/rest]. *)
Definition share (left rest : Z) (s : StreamSpec) : Z :=
  wrap64 (Z.quot (wrap64 (ssMaxBytes s * left)) rest).

(** One pass of [scaleToBudget]'s loop; [floored] is its set of indices, a flag
    per stream. *)
Definition scale_mark (left rest floor : Z) (s : StreamSpec) (f : bool) : bool :=
  if (0 <? ssMaxBytes s) && negb f && (share left rest s <? floor) then true else f.

Definition scale_write (left rest floor : Z) (s : StreamSpec) (f : bool) : StreamSpec :=
  if ssMaxBytes s <=? 0 then s
  else if f then s <| ssMaxBytes := floor |>
  else s <| ssMaxBytes := share left rest s |>.

Definition scale_rest (streams : list StreamSpec) (floored : list bool) : Z :=
  sum64 (zip_with (fun s f => if (0 <? ssMaxBytes s) && negb f then ssMaxBytes s else 0) streams floored).

Definition count_true (l : list bool) : Z := Z.of_nat (length (List.filter id l)).

Definition scale_left (budget floor : Z) (floored : list bool) : Z :=
  wrap64 (budget - wrap64 (count_true floored * floor)).

(** The loop, which floors one more stream at least on each turn but the last:
    as many turns as there are streams, and one, are enough. *)
Fixpoint scale_loop (fuel : nat) (streams : list StreamSpec) (floored : list bool) (budget floor : Z) :
    option (list StreamSpec) :=
  match fuel with
  | O => None
  | S k =>
      let rest := scale_rest streams floored in
      let left := scale_left budget floor floored in
      let floored' := zip_with (scale_mark left rest floor) streams floored in
      if bool_decide (floored' = floored)
      then Some (zip_with (scale_write left rest floor) streams floored)
      else scale_loop k streams floored' budget floor
  end.

Definition scaleToBudget (streams : list StreamSpec) (budget floor : Z) : option (list StreamSpec) :=
  let total := sum64 (map (fun s => Z.max (ssMaxBytes s) 0) streams) in
  if total <=? budget then Some streams
  else scale_loop (S (length streams)) streams (map (fun _ => false) streams) budget floor.

Definition single_stream (s : StreamSpec) : StreamSpec :=
  let s := s <| ssReplicas := 1 |> <| ssCompression := false |> <| ssDenyDelete := false |> in
  if ssDurable s then s else s <| ssStorage := StorageMemory |>.

Definition single_bucket (b : BucketSpec) : BucketSpec :=
  let b := b <| bsReplicas := 1 |> in
  if bsDurable b then b else b <| bsStorage := StorageMemory |>.

(** [out.Streams[i] = memory[j]]: the streams kept in memory, in order, written
    back over the ones that are not durable. *)
Fixpoint put_back (streams memory : list StreamSpec) : list StreamSpec :=
  match streams with
  | [] => []
  | s :: l =>
      if ssDurable s then s :: put_back l memory
      else match memory with
           | m :: memory' => m :: put_back l memory'
           | [] => s :: put_back l []
           end
  end.

(** [ForSingleNode]: [None] is a loop of [scaleToBudget] that does not end. *)
Definition ForSingleNode (t : Topology) : option Topology :=
  let streams := map single_stream (Streams t) in
  let memory := List.filter (fun s => negb (ssDurable s)) streams in
  match scaleToBudget memory singleNodeMemoryBudget singleNodeMinStreamBytes with
  | None => None
  | Some memory =>
      Some (t <| Streams := put_back streams memory |>
              <| Buckets ::= map single_bucket |>
              <| ObjectStores ::= map (fun o => o <| osReplicas := 1 |>) |>)
  end.

(** ** Validate *)

Definition MaxObjectChunkSize : Z := 1048576.
Definition BucketSearches : string := "clustarr-searches".
Definition RecordsMinTTL : Duration := 7 * 24 * Hour.
Definition RecordsTTL : Duration := 7 * 24 * Hour.
Definition SearchesTTL : Duration := 30 * Minute.
Definition recordsMinTTL (bucket : string) : Duration :=
  if String.eqb bucket BucketSearches then SearchesTTL else RecordsMinTTL.

(** Decimal digits of [strconv.Atoi]. *)
Fixpoint digits_value (s : string) (acc : Z) : option Z :=
  match s with
  | EmptyString => Some acc
  | String c s' => if is_digit c then digits_value s' (10 * acc + (byte_of c - 48)) else None
  end.

(** [strconv.Atoi], [None] for its error: an optional sign, one digit at least,
    a value in range. *)
Definition Atoi (s : string) : option Z :=
  let '(neg, d) :=
    match s with
    | String c s' => if Ascii.eqb c "-" then (true, s') else if Ascii.eqb c "+" then (false, s') else (false, s)
    | EmptyString => (false, s)
    end in
  if String.eqb d "" then None
  else match digits_value d 0 with
       | None => None
       | Some v =>
           let v := if neg : bool then - v else v in
           if (MinInt64 <=? v) && (v <=? MaxInt64) then Some v else None
       end.

(** [validSampleFrequency]; the percent sign is [strings.CutSuffix]'s. *)
Definition validSampleFrequency (f : string) : bool :=
  if String.eqb f "" then true
  else if negb (last_is "%" f) then false
  else match Atoi (str_take (String.length f - 1) f) with
       | Some v => (0 <? v) && (v <=? 100)
       | None => false
       end.

Definition subjectCovered (subjects : list string) (filter : string) : bool :=
  let n := String.length filter in
  let probe :=
    if Nat.ltb 2 n && String.eqb (str_drop (n - 2) filter) ".>"
    then str_take (n - 2) filter +:+ ".x" else filter in
  existsb (fun s => String.eqb s filter || SubjectMatches s probe) subjects.

(** The errors [Validate] joins, one per [fieldErr]. *)
Inductive topology_error :=
  | Required (field : string)
  | DuplicateOf (field name : string)
  | MustAllowSchedules (stream : string)
  | SchedulesRefuseDiscardNew (stream : string)
  | StreamRequired (stream : string)
  | UnknownStream (name stream : string)
  | MaxDeliverTooSmall (name : string) (backoffs got : Z)
  | SlotsTooFew (name : string) (got : Z)
  | MaxAckPendingBelowSlots (name : string) (slots got : Z)
  | RequeueNeedsWorkQueue (name stream : string)
  | BadSampleFrequency (name f : string)
  | FilterOutside (name filter stream : string)
  | NameHasDot (field name : string)
  | RecordsBucket (field : string)
  | ChunkTooLarge (name : string) (got : Z)
  | BothConsumerAndRetired (name : string).

(** [seen] and the other maps are threaded as [fold_left] states; an error is
    added at the end. *)
Definition err_if (b : bool) (e : topology_error) : list topology_error := if b then [e] else [].

Definition validate_stream (st : gmap string StreamSpec * list topology_error) (s : StreamSpec) :
    gmap string StreamSpec * list topology_error :=
  let '(seen, errs) := st in
  if String.eqb (ssName s) "" then (seen, errs ++ [Required "StreamSpec.Name"])
  else
    (<[ssName s := s]> seen,
     errs
     ++ err_if (bool_decide (is_Some (seen !! ssName s))) (DuplicateOf "StreamSpec.Name" (ssName s))
     ++ err_if (bool_decide (ssSubjects s = [])) (Required (ssName s +:+ ".Subjects"))
     ++ err_if (bool_decide (ssRetention s = RetentionWorkQueue) && negb (ssAllowMsgSchedules s)
                && negb (String.eqb (ssName s) StreamAdvisories)
                && negb (String.eqb (ssName s) StreamTaskEvents)
                && negb (bool_decide (ssDiscard s = DiscardNew))) (MustAllowSchedules (ssName s))
     ++ err_if (ssAllowMsgSchedules s && bool_decide (ssDiscard s = DiscardNew))
          (SchedulesRefuseDiscardNew (ssName s))).

Definition check_consumer (s : StreamSpec) (c : ConsumerSpec) : list topology_error :=
  let backoffs := Z.of_nat (length (csBackOff c)) in
  err_if (negb ((csMaxDeliver c =? -1) && String.eqb (csStream c) StreamAdvisories)
          && (csMaxDeliver c <=? backoffs)) (MaxDeliverTooSmall (csName c) backoffs (csMaxDeliver c))
  ++ (if csSlots c <? 1 then [SlotsTooFew (csName c) (csSlots c)]
      else err_if (csMaxAckPending c <? csSlots c)
             (MaxAckPendingBelowSlots (csName c) (csSlots c) (csMaxAckPending c)))
  ++ err_if (bool_decide (csFilters c = [])) (Required (csName c +:+ ".Filters"))
  ++ err_if (csRequeueOnStop c && negb (bool_decide (ssRetention s = RetentionWorkQueue)))
       (RequeueNeedsWorkQueue (csName c) (ssName s))
  ++ err_if (negb (validSampleFrequency (csSampleFrequency c)))
       (BadSampleFrequency (csName c) (csSampleFrequency c))
  ++ flat_map (fun f => err_if (negb (subjectCovered (ssSubjects s) f)) (FilterOutside (csName c) f (ssName s)))
       (csFilters c).

Definition validate_consumer (seen : gmap string StreamSpec)
    (st : gset string * list topology_error) (c : ConsumerSpec) : gset string * list topology_error :=
  let '(names, errs) := st in
  if String.eqb (csName c) "" then (names, errs ++ [Required "ConsumerSpec.Name"])
  else
    (names ∪ {[csName c]},
     errs
     ++ err_if (bool_decide (csName c ∈ names)) (DuplicateOf "ConsumerSpec.Name" (csName c))
     ++ match seen !! csStream c with
        | None => [UnknownStream (csName c) (csStream c)]
        | Some s => check_consumer s c
        end).

Definition check_records (b : BucketSpec) : list topology_error :=
  if bsRecords b then
    err_if (negb (bsDurable b)) (RecordsBucket (bsName b +:+ ".Durable"))
    ++ err_if (negb (bsHistory b =? 1)) (RecordsBucket (bsName b +:+ ".History"))
    ++ err_if (bsMaxBytes b <=? 0) (RecordsBucket (bsName b +:+ ".MaxBytes"))
    ++ err_if (bsMaxValueSize b <=? 0) (RecordsBucket (bsName b +:+ ".MaxValueSize"))
    ++ err_if (negb (bsTTL b =? 0) && (bsTTL b <? recordsMinTTL (bsName b)))
         (RecordsBucket (bsName b +:+ ".TTL"))
    ++ err_if ((0 <? bsTTL b) && (bsLimitMarkerTTL b <=? 0))
         (RecordsBucket (bsName b +:+ ".LimitMarkerTTL"))
  else [].

Definition validate_bucket (st : gset string * list topology_error) (b : BucketSpec) :
    gset string * list topology_error :=
  let '(names, errs) := st in
  if String.eqb (bsName b) "" then (names, errs ++ [Required "BucketSpec.Name"])
  else
    (names ∪ {[bsName b]},
     errs
     ++ err_if (bool_decide (bsName b ∈ names)) (DuplicateOf "BucketSpec.Name" (bsName b))
     ++ err_if (has_char "." (bsName b)) (NameHasDot "BucketSpec.Name" (bsName b))
     ++ check_records b).

Definition validate_store (st : gset string * list topology_error) (o : ObjectStoreSpec) :
    gset string * list topology_error :=
  let '(names, errs) := st in
  if String.eqb (osName o) "" then (names, errs ++ [Required "ObjectStoreSpec.Name"])
  else
    (names ∪ {[osName o]},
     errs
     ++ err_if (bool_decide (osName o ∈ names)) (DuplicateOf "ObjectStoreSpec.Name" (osName o))
     ++ err_if (MaxObjectChunkSize <? osChunkSize o) (ChunkTooLarge (osName o) (osChunkSize o))
     ++ err_if (has_char "." (osName o)) (NameHasDot "ObjectStoreSpec.Name" (osName o))).

Definition check_retired (seen : gmap string StreamSpec) (names : gset string) (r : RetiredConsumer) :
    list topology_error :=
  if String.eqb (rcDurable r) "" then [Required "RetiredConsumer.Durable"]
  else match seen !! rcStream r with
       | None => [UnknownStream (rcDurable r) (rcStream r)]
       | Some s =>
           if bool_decide (rcDurable r ∈ names) then [BothConsumerAndRetired (rcDurable r)]
           else err_if (negb (String.eqb (rcPurge r) "") && negb (subjectCovered (ssSubjects s) (rcPurge r)))
                  (FilterOutside (rcDurable r) (rcPurge r) (ssName s))
       end.

Definition Validate (t : Topology) : list topology_error :=
  let '(seen, errs1) := fold_left validate_stream (Streams t) (∅, []) in
  let errs2 := flat_map (fun name => err_if (bool_decide (seen !! name = None)) (StreamRequired name))
                 [StreamDLQ; StreamAdvisories] in
  let '(names, errs3) := fold_left (validate_consumer seen) (Consumers t) (∅, []) in
  let '(_, errs4) := fold_left validate_bucket (Buckets t) (∅, []) in
  let '(_, errs5) := fold_left validate_store (ObjectStores t) (∅, []) in
  let errs6 := flat_map (check_retired seen names) (Retired t) in
  errs1 ++ errs2 ++ errs3 ++ errs4 ++ errs5 ++ errs6.
