(* ===== verification/Layout.v ===== *)
(** * Layout: the production topology

    [Default] and everything it is assembled from: src/pkg/events/topology.go
    (streams, consumers, buckets, object stores), probe.go, records.go and
    agents.go.  Names of buckets and stores are subjects.go's. *)

From S2P Require Import Prelude GoLang Events KV Subjects Topology.
From Stdlib Require Import Ascii.

(** ** Buckets and stores (subjects.go, records.go, probe.go) *)

Definition BucketImportExclusions : string := "clustarr-import-exclusions".
Definition BucketReleaseGroups : string := "clustarr-release-groups".
Definition BucketMALDubs : string := "clustarr-mal-dubs".
Definition BucketIndexerSessions : string := "clustarr-indexer-sessions".
Definition BucketIndexerLimits : string := "clustarr-indexer-limits".
Definition BucketProviderThrottle : string := "clustarr-provider-throttle".
Definition BucketMetadataCache : string := "clustarr-metadata-cache".
Definition BucketMetadataExtended : string := "clustarr-metadata-extended".
Definition BucketPlexExtras : string := "clustarr-plex-extras".
Definition BucketMediux : string := "clustarr-mediux".
Definition BucketProgress : string := "clustarr-progress".
Definition BucketImportList : string := "clustarr-importlist".
Definition BucketDedup : string := "clustarr-dedup".
Definition BucketTranscodeLeases : string := "clustarr-transcode-leases".
Definition BucketUsenetConnections : string := "clustarr-usenet-connections".
Definition BucketSegments : string := "clustarr-segments".
Definition BucketArtwork : string := "clustarr-artwork".
Definition ObjectStoreFingerprints : string := "clustarr-fingerprints".
Definition BucketLiveTV : string := "clustarr-livetv".
Definition BucketProbes : string := "clustarr-probes".
Definition BucketTranscodes : string := "clustarr-transcodes".
Definition BucketGrafts : string := "clustarr-grafts".
Definition BucketSubtitles : string := "clustarr-subtitles".
Definition BucketMarkers : string := "clustarr-markers".
Definition BucketTransfers : string := "clustarr-transfers".
Definition BucketEngines : string := "clustarr-engines".
Definition BucketImports : string := "clustarr-imports".
Definition BucketItemMetadata : string := "clustarr-item-metadata".
Definition BucketIndexerHealth : string := "clustarr-indexer-health".
Definition BucketImageSets : string := "clustarr-image-sets".

Definition ArtworkMaxBytes : Z := 5 * GiB.
Definition ArtworkChunkSize : Z := 1048576.
Definition FingerprintsMaxBytes : Z := 1 * GiB.
Definition LiveTVMaxBytes : Z := 1 * GiB.
Definition TranscodeLeaseTTL : Duration := 90 * Second.
Definition ArtworkMetaKeyVersion : string := "clustarr.io/meta-version".
Definition BucketMetaKeyKeyScheme : string := "clustarr.io/key-scheme".
Definition ObjectMetaKeyVersion : string := ArtworkMetaKeyVersion.
Definition ArtworkMetaVersion : string := "2".
Definition FingerprintMetaVersion : string := "1".
Definition LiveTVMetaVersion : string := "1".
Definition ArtworkKeyScheme : string := "<kind>/<uid>/<imageType>/<variant>".
Definition FingerprintKeyScheme : string := "<probeHash>.<start|end>[.v<FingerprintVersion>]".
Definition LiveTVKeyScheme : string :=
  "playlist/<ns>/<name> | guide-cache/<ns>/<name> | guide-channels/<ns>/<name>/xmltv | guide/<ns>/<name> | "
  +:+ "guide-index/<ns>/<name> | programme-art/<ns>/<name> | logo/<ns>/<name>/<sha256[:32]>".

(** ** Streams *)

Definition durableStream (s : StreamSpec) : StreamSpec := s <| ssDurable := true |>.

Definition work (name filter : string) (maxBytes : Z) : StreamSpec :=
  {| ssName := name; ssDescription := ""; ssSubjects := [filter];
     ssRetention := RetentionWorkQueue; ssStorage := StorageFile; ssDiscard := DiscardOld;
     ssMaxAge := 0; ssMaxBytes := maxBytes; ssDuplicates := Hour; ssReplicas := 3;
     ssDenyDelete := false; ssCompression := false; ssAllowMsgSchedules := true; ssDurable := false |}.

Definition defaultStreams : list StreamSpec := [
  {| ssName := StreamEvents; ssDescription := "Domain events consumed by the history projector.";
     ssSubjects := [FilterAllEvents]; ssRetention := RetentionLimits; ssStorage := StorageFile;
     ssDiscard := DiscardOld; ssMaxAge := 168 * Hour; ssMaxBytes := 2 * GiB;
     ssDuplicates := 10 * Minute; ssReplicas := 3; ssDenyDelete := true; ssCompression := true;
     ssAllowMsgSchedules := false; ssDurable := false |};
  {| ssName := StreamReleases;
     ssDescription := "Parsed indexer releases fanned out to the RSS matcher.";
     ssSubjects := [FilterAllReleases]; ssRetention := RetentionLimits; ssStorage := StorageFile;
     ssDiscard := DiscardOld; ssMaxAge := 72 * Hour; ssMaxBytes := 4 * GiB;
     ssDuplicates := 2 * Hour; ssReplicas := 3; ssDenyDelete := false; ssCompression := false;
     ssAllowMsgSchedules := false; ssDurable := false |};
  work StreamWorkCatalog FilterWorkCatalog (1 * GiB);
  work StreamWorkImport FilterWorkImport (512 * MiB);
  work StreamWorkIndex FilterWorkIndex (256 * MiB);
  work StreamWorkCaption FilterWorkCaption (256 * MiB);
  durableStream (work StreamWorkMarkers FilterWorkMarkers (256 * MiB));
  {| ssName := StreamWorkTranscode;
     ssDescription := "Transcode tasks the remediation loop dispatched.";
     ssSubjects := [FilterWorkTranscode]; ssRetention := RetentionWorkQueue;
     ssStorage := StorageFile; ssDiscard := DiscardNew; ssMaxAge := 0; ssMaxBytes := 64 * MiB;
     ssDuplicates := Hour; ssReplicas := 3; ssDenyDelete := false; ssCompression := false;
     ssAllowMsgSchedules := false; ssDurable := false |};
  {| ssName := StreamDLQ; ssDescription := "Dead-lettered tasks awaiting operator replay.";
     ssSubjects := [FilterAllDLQ]; ssRetention := RetentionLimits; ssStorage := StorageFile;
     ssDiscard := DiscardOld; ssMaxAge := 720 * Hour; ssMaxBytes := 1 * GiB;
     ssDuplicates := 10 * Minute; ssReplicas := 3; ssDenyDelete := false; ssCompression := false;
     ssAllowMsgSchedules := false; ssDurable := false |};
  {| ssName := StreamAdvisories;
     ssDescription := "MAX_DELIVERIES advisories awaiting a dead-letter copy.";
     ssSubjects := [FilterMaxDeliveriesAdvisories]; ssRetention := RetentionWorkQueue;
     ssStorage := StorageFile; ssDiscard := DiscardOld; ssMaxAge := 720 * Hour;
     ssMaxBytes := 64 * MiB; ssDuplicates := 0; ssReplicas := 3; ssDenyDelete := false;
     ssCompression := false; ssAllowMsgSchedules := false; ssDurable := false |} ].

(** A DiscardNew work queue on file storage: the probe queue, the intake and the
    engine stream share these fields. *)
Definition discardNewQueue (name description filter : string) (maxBytes : Z) : StreamSpec :=
  {| ssName := name; ssDescription := description; ssSubjects := [filter];
     ssRetention := RetentionWorkQueue; ssStorage := StorageFile; ssDiscard := DiscardNew;
     ssMaxAge := 0; ssMaxBytes := maxBytes; ssDuplicates := Hour; ssReplicas := 3;
     ssDenyDelete := false; ssCompression := false; ssAllowMsgSchedules := false; ssDurable := true |}.

Definition probeMaxBytes : Z := 64 * MiB.
Definition probeStream : StreamSpec :=
  discardNewQueue StreamWorkProbe
    "MediaFile probe tasks the catalog domain asked the import domain for." FilterWorkProbe probeMaxBytes.

Definition IntakeMaxBytes : Z := 256 * MiB.
Definition WorkEngineMaxBytes : Z := 64 * MiB.
Definition TaskEventsMaxBytes : Z := 8 * MiB.
Definition TaskEventsMaxAge : Duration := Hour.

Definition agentStreams : list StreamSpec := [
  discardNewQueue StreamIntake
    "Candidates and scan observations agents propose; the manager decides." FilterIntake IntakeMaxBytes;
  discardNewQueue StreamWorkEngine
    "The manager's desired-state commands to engine instances." FilterWorkEngine WorkEngineMaxBytes ].

Definition taskEventsStream (subjects : list string) : StreamSpec :=
  {| ssName := StreamTaskEvents;
     ssDescription := "Nak and term advisories of every task the manager dispatches.";
     ssSubjects := subjects; ssRetention := RetentionWorkQueue; ssStorage := StorageFile;
     ssDiscard := DiscardOld; ssMaxAge := TaskEventsMaxAge; ssMaxBytes := TaskEventsMaxBytes;
     ssDuplicates := 0; ssReplicas := 3; ssDenyDelete := false; ssCompression := false;
     ssAllowMsgSchedules := false; ssDurable := false |}.

(** ** Consumers *)

Local Abbreviation s := Second.
Local Abbreviation m := Minute.
Local Abbreviation h := Hour.
Local Abbreviation ceiling := AutoscaleReplicaCeiling.

Definition defaultConsumers : list ConsumerSpec := [
  consumer ConsumerCatalogRSSMatcher StreamReleases [FilterAllReleases] (30 * s) 6
    [1 * s; 5 * s; 30 * s; 2 * m; 10 * m] (256 * ceiling) 256;
  dispatched (consumer ConsumerCatalogSearchHigh StreamWorkCatalog
    ["clustarr.work.catalog.search.high.>"] (120 * s) 5 [30 * s; 2 * m; 10 * m] 8 8);
  dispatched (consumer ConsumerCatalogSearchNorm StreamWorkCatalog
    ["clustarr.work.catalog.search.normal.>"; "clustarr.work.catalog.search.low.>"; FilterCatalogWanted]
    (120 * s) 5 [30 * s; 2 * m; 10 * m; 1 * h] 8 8);
  dispatched (consumer ConsumerCatalogMetadata StreamWorkCatalog [FilterCatalogMetadata] (60 * s) 8
    [30 * s; 2 * m; 10 * m; 1 * h; 6 * h] 32 32);
  dispatched (consumer ConsumerCatalogArtworkFetch StreamWorkCatalog [FilterCatalogArtworkFetch] (60 * s) 8
    [30 * s; 2 * m; 10 * m; 1 * h; 6 * h] 32 32);
  dispatched (consumer ConsumerCatalogImageSet StreamWorkCatalog [FilterCatalogImageSet] (120 * s) 8
    [30 * s; 2 * m; 10 * m; 1 * h; 6 * h] 8 8);
  dispatched (consumer ConsumerCatalogArtworkRender StreamWorkCatalog [FilterCatalogArtworkRender] (60 * s) 8
    [30 * s; 2 * m; 10 * m; 1 * h; 6 * h] (4 * ceiling) 4);
  dispatched (consumer ConsumerCatalogMarkers StreamWorkMarkers [FilterCatalogMarkers] (60 * s) 8
    [30 * s; 2 * m; 10 * m; 1 * h; 6 * h] 32 32);
  dispatched (consumer ConsumerCatalogSegmentsPlan StreamWorkMarkers [FilterCatalogSegmentsPlan] (60 * s) 5
    [30 * s; 2 * m] 8 8);
  (dispatched (consumer ConsumerMarkersAnalyze StreamWorkMarkers [FilterCatalogSegmentsAnalyze] (30 * m) 3
    [1 * m; 10 * m] (ceiling * PerNodeSlotsCeiling) 1))
    <| csHandlerTimeout := 30 * m |> <| csRequeueOnStop := true |>;
  consumer ConsumerCatalogHistory StreamEvents [FilterAllEvents] (30 * s) 3 [5 * s; 30 * s] (512 * ceiling) 512;
  (dispatched (consumer ConsumerImportScan StreamWorkImport [FilterImportScan] (60 * s) 4
    [30 * s; 2 * m; 10 * m] (4 * ceiling) 4)) <| csHeartbeat := 30 * s |>;
  (dispatched (consumer ConsumerImportList StreamWorkImport [FilterImportList] (60 * s) 4
    [5 * m; 30 * m; 2 * h] (2 * ceiling) 2)) <| csHeartbeat := 30 * s |>;
  (dispatched (consumer ConsumerImportFile StreamWorkImport [FilterImportFile] (60 * s) 4
    [1 * m; 10 * m; 45 * m] (4 * ceiling) 4)) <| csHeartbeat := 30 * s |>;
  (dispatched (consumer ConsumerImportRecycle StreamWorkImport [FilterImportRecycle] (60 * s) 3
    [5 * m; 30 * m] (1 * ceiling) 1)) <| csHeartbeat := 30 * s |>;
  (dispatched (consumer ConsumerIndexRSS StreamWorkIndex [FilterIndexRSS] (60 * s) 4
    [1 * m; 5 * m; 15 * m] 4 4)) <| csHeartbeat := 30 * s |>;
  dispatched (consumer ConsumerCaptionFetchHigh StreamWorkCaption ["clustarr.work.caption.fetch.high.>"]
    (90 * s) 8 [30 * s; 2 * m; 10 * m; 1 * h; 6 * h] 16 16);
  dispatched (consumer ConsumerCaptionFetchNormal StreamWorkCaption
    ["clustarr.work.caption.fetch.normal.>"; "clustarr.work.caption.fetch.low.>"]
    (90 * s) 8 [30 * s; 2 * m; 10 * m; 1 * h; 6 * h] 16 16);
  consumer ConsumerDLQProjector StreamDLQ [FilterAllDLQ] (30 * s) 3 [5 * s; 30 * s] (64 * ceiling) 64 ].

Definition probeSlots : Z := 4.

Definition probeConsumers : list ConsumerSpec :=
  let c name filter desc :=
    (dispatched (consumer name StreamWorkProbe [filter] (60 * s) 4 [60 * s; 5 * m; 30 * m]
      (probeSlots * ceiling) probeSlots)) <| csDescription := desc |> in
  [ c ConsumerImportProbeHigh FilterProbeHigh "Probes of new and changed files.";
    c ConsumerImportProbeLow FilterProbeLow "ProbeVersion re-probes of unchanged files." ].

Definition agentConsumers : list ConsumerSpec := [
  (consumer ConsumerIntakeCandidate StreamIntake [FilterIntakeCandidates] (30 * s) 20 [10 * s] 64 64)
    <| csDescription := "Grab candidates, held for their owner's decision (leader-only, the manager)." |>
    <| csHeartbeat := 10 * s |> <| csHandlerTimeout := 60 * s |>;
  (consumer ConsumerIntakeScan StreamIntake [FilterIntakeScans] (30 * s) 10 [5 * s; 30 * s; 2 * m] 64 8)
    <| csDescription := "Library scan observations (leader-only, the manager's scan applier)." |>
    <| csHeartbeat := 10 * s |> <| csHandlerTimeout := 60 * s |> ].

Definition taskEventsConsumer (subjects : list string) : ConsumerSpec :=
  (consumer ConsumerTaskEvents StreamTaskEvents subjects (30 * s) 3 [5 * s] 256 16)
    <| csDescription := "Nak and term advisories to delivery state (leader-only, the manager)." |>.

(** [dynamicDispatchedStreams] and [TaskEventSubjects]. *)
Definition dynamicDispatchedStreams : list string :=
  (if csDispatched (TranscodeTaskConsumer "" "") then [StreamWorkTranscode] else [])
  ++ (if csDispatched (EngineConsumer "" 0) then [StreamWorkEngine] else []).

Definition TaskEventSubjects (t : Topology) : list string :=
  flat_map (fun c => if csDispatched c
                     then [NakAdvisorySubject (csStream c) (csName c); TermAdvisorySubject (csStream c) (csName c)]
                     else []) (Consumers t)
  ++ flat_map (fun st => [NakAdvisorySubject st "*"; TermAdvisorySubject st "*"]) dynamicDispatchedStreams.

(** ** Buckets *)

Definition plain_bucket (name : string) (ttl : Duration) (desc : string) : BucketSpec :=
  {| bsName := name; bsDescription := desc; bsTTL := ttl; bsHistory := 1; bsStorage := StorageFile;
     bsReplicas := 3; bsLimitMarkerTTL := 5 * m; bsDurable := false; bsRecords := false;
     bsMaxBytes := 0; bsMaxValueSize := 0 |}.

Definition ProbesMaxBytes : Z := 256 * MiB.
Definition ProbesMaxValueSize : Z := 256 * KiB.
Definition SegmentsMaxBytes : Z := 128 * MiB.
Definition SegmentsMaxValueSize : Z := 16 * KiB.

Definition defaultBuckets : list BucketSpec :=
  let b := plain_bucket in
  let durable b := b <| bsDurable := true |> in
  let records b maxBytes maxValue :=
    b <| bsRecords := true |> <| bsMaxBytes := maxBytes |> <| bsMaxValueSize := maxValue |> in
  [ durable (b BucketImportExclusions 0 "Exclusions the list and search paths consult; durable.");
    durable (b BucketReleaseGroups 0 "The audio each release group's imported files carried.");
    durable (b BucketMALDubs 0 "The MAL-Dubs list: MAL ids of anime with an English dub.");
    b BucketIndexerSessions (30 * 24 * h) "Cardigann cookies and JWTs.";
    b BucketIndexerLimits (2 * 24 * h) "Query and grab timestamp rings.";
    b BucketProviderThrottle (24 * h) "Subtitle provider throttle table.";
    b BucketMetadataCache (30 * 24 * h) "L2 metadata cache.";
    durable (b BucketMetadataExtended 0 "People and similar titles per catalog item, for the Plex provider.");
    durable (b BucketPlexExtras 0 "Plex's extras per Plex id, for the Plex provider's extras route.");
    durable (b BucketMediux 0
      "MediUX's sets per TMDB id, id mappings and the content list, read through by the metadata agent.");
    records (durable (b BucketSegments 0 "Raw segment analysis per MediaFile.")) SegmentsMaxBytes SegmentsMaxValueSize;
    b BucketProgress (10 * m) "1 Hz download and transcode telemetry.";
    b BucketTranscodeLeases TranscodeLeaseTTL
      "Transcode task leases: created by the claiming worker, renewed with Update, expired by the server; the transcode controller writes cancel markers.";
    b BucketUsenetConnections 0
      "Usenet connection grants per provider account; each grant carries its own expiry and every write is a compare-and-swap.";
    b BucketImportList (7 * 24 * h) "Import list items, kept out of status.";
    b BucketDedup (24 * h) "Import fingerprints for re-import no-ops." ].

Definition recordBucket (name desc : string) (maxBytes maxValue : Z) : BucketSpec :=
  {| bsName := name; bsDescription := desc; bsTTL := RecordsTTL; bsHistory := 1;
     bsStorage := StorageFile; bsReplicas := 3; bsLimitMarkerTTL := 5 * m; bsDurable := true;
     bsRecords := true; bsMaxBytes := maxBytes; bsMaxValueSize := maxValue |}.

Definition probeRecordTTL : Duration := 7 * 24 * h.
Definition probeBucket : BucketSpec :=
  (recordBucket BucketProbes "One probe record per MediaFile UID." ProbesMaxBytes ProbesMaxValueSize)
    <| bsTTL := probeRecordTTL |>.

Definition withTTL (b : BucketSpec) (ttl : Duration) : BucketSpec := b <| bsTTL := ttl |>.

Definition recordBuckets : list BucketSpec := [
  recordBucket BucketTranscodes "One transcode record per MediaFile UID: the loop's request, the pool worker's claim and answer."
    (128 * MiB) (32 * KiB);
  recordBucket BucketGrafts "One graft record per MediaFile UID: the loop's request, the graft Job's answer."
    (16 * MiB) (16 * KiB);
  recordBucket BucketSubtitles "One subtitle record per MediaFile UID and language key: the loop's request, the caption domain's answer."
    (128 * MiB) (8 * KiB);
  recordBucket BucketMarkers "One TheIntroDB markers record per MediaFile UID: the loop's request, the metadata domain's answer."
    (64 * MiB) (16 * KiB) ].

Definition agentRecordBuckets : list BucketSpec := [
  recordBucket BucketTransfers "One transfer record per grab entry, written by the engine holding it."
    (256 * MiB) (512 * KiB);
  recordBucket BucketEngines "One engine record per DownloadClient instance, written by that engine pod."
    (8 * MiB) (16 * KiB);
  recordBucket BucketImports "One inspect and one execute record per grab entry, written by the import agent."
    (128 * MiB) (512 * KiB);
  withTTL (recordBucket BucketSearches "One search record per search task, written by the search agent."
    (512 * MiB) (512 * KiB)) SearchesTTL;
  recordBucket BucketItemMetadata "One metadata record per catalog item, written by the metadata gateway."
    (512 * MiB) (512 * KiB);
  recordBucket BucketIndexerHealth "One health record per Indexer, written by the index agent."
    (8 * MiB) (8 * KiB);
  recordBucket BucketImageSets "One image-set record per Movie or Series, written by the metadata agent's image-set worker."
    (128 * MiB) (256 * KiB) ].

(** ** Object stores *)

Definition object_store (name desc : string) (maxBytes : Z) (maxAge : Duration) (chunk : Z)
    (metadata : gmap string string) : ObjectStoreSpec :=
  {| osName := name; osDescription := desc; osStorage := StorageFile; osMaxBytes := maxBytes;
     osReplicas := 3; osMaxAge := maxAge; osMetadata := metadata; osChunkSize := chunk |}.

Definition defaultObjectStores : list ObjectStoreSpec := [
  object_store ObjectStoreFingerprints "Audio fingerprints for segment detection" FingerprintsMaxBytes
    (90 * 24 * h) 0
    {[ BucketMetaKeyKeyScheme := FingerprintKeyScheme; ObjectMetaKeyVersion := FingerprintMetaVersion ]};
  object_store BucketArtwork "Artwork originals and overlays" ArtworkMaxBytes 0 ArtworkChunkSize
    {[ BucketMetaKeyKeyScheme := ArtworkKeyScheme; ArtworkMetaKeyVersion := ArtworkMetaVersion ]};
  object_store BucketLiveTV "Live TV playlists and guides" LiveTVMaxBytes 0 0
    {[ BucketMetaKeyKeyScheme := LiveTVKeyScheme; ObjectMetaKeyVersion := LiveTVMetaVersion ]} ].

(** ** The whole *)

Definition withAgentTopology (t : Topology) : Topology :=
  let t := t <| Streams ::= fun l => l ++ agentStreams |>
             <| Consumers ::= fun l => l ++ withDeadLetterWatchers agentConsumers |> in
  let subjects := TaskEventSubjects t in
  t <| Streams ::= fun l => l ++ [taskEventsStream subjects] |>
    <| Consumers ::= fun l => l ++ withDeadLetterWatchers [taskEventsConsumer subjects] |>
    <| Buckets ::= fun l => l ++ agentRecordBuckets |>.

Definition Default : Topology :=
  withAgentTopology
    {| Streams := defaultStreams ++ [probeStream];
       Consumers := withDeadLetterWatchers (defaultConsumers ++ probeConsumers);
       Buckets := (defaultBuckets ++ [probeBucket]) ++ recordBuckets;
       ObjectStores := defaultObjectStores;
       Retired := [] |}.

(** The layout passes its own check. *)
Example Default_validates : Validate Default = [].
Proof. vm_compute. reflexivity. Qed.
