(* ===== verification/Settle.v ===== *)
(** * Settle: envelopes, handler errors and what becomes of a delivery

    src/pkg/events/envelope.go (the message as it travels), errors.go (what a
    handler may answer, [Settle], the backoff schedule, the dead-letter copy),
    requeue.go (a delivery handed back by a stopping subscription) and bus.go
    (publish options, subscription checks, acknowledgement deadlines). *)

From S2P Require Import Prelude GoLang Events KV Subjects Topology.
From Stdlib Require Import Ascii.

(** ** Envelopes *)

Definition HeaderMsgID : string := "Nats-Msg-Id".
Definition HeaderID : string := "Clustarr-Id".
Definition HeaderType : string := "Clustarr-Type".
Definition HeaderSchema : string := "Clustarr-Schema".
Definition HeaderSource : string := "Clustarr-Source".
Definition HeaderKey : string := "Clustarr-Key".
Definition HeaderTime : string := "Clustarr-Time".
Definition HeaderTrace : string := "Clustarr-Trace".
Definition HeaderContentType : string := "Content-Type".
Definition HeaderDLQReason : string := "Clustarr-DLQ-Reason".
Definition HeaderDLQAttempts : string := "Clustarr-DLQ-Attempts".
Definition HeaderDLQConsumer : string := "Clustarr-DLQ-Consumer".
Definition HeaderDLQSubject : string := "Clustarr-DLQ-Subject".
Definition HeaderDLQMsgID : string := "Clustarr-DLQ-Msg-Id".
Definition ContentTypeJSON : string := "application/json".

(** [Envelope].  A nil [Headers] reads as the empty map, and [Clone], a deep
    copy, is the identity on values. *)
Record Envelope := mkEnvelope {
  evID : string;
  evType : string;
  evSchema : string;
  evSource : string;
  evKey : string;
  evTime : Time;
  evTrace : string;
  evHeaders : gmap string string;
  evData : string;
}.

Definition zero_Envelope : Envelope := mkEnvelope "" "" "" "" "" 0 "" ∅ "".

#[export] Instance eta_Envelope : Eta Envelope :=
  fun e => mkEnvelope (evID e) (evType e) (evSchema e) (evSource e) (evKey e) (evTime e) (evTrace e)
    (evHeaders e) (evData e).
#[export] Instance set_evID : Setter evID. Proof. derive_setter. Defined.
#[export] Instance set_evTime : Setter evTime. Proof. derive_setter. Defined.
#[export] Instance set_evHeaders : Setter evHeaders. Proof. derive_setter. Defined.

(** [Time.Format] and [time.Parse] of [time.RFC3339Nano], in UTC: the standard
    library's calendar, an argument of the wire form. *)
Class WireTime := {
  format_time : Time -> string;
  parse_time : string -> option Time;
}.

Section Wire.
Context `{WireTime}.

(** [Envelope.Header]. *)
Definition Header (e : Envelope) (name : string) : string :=
  if String.eqb name HeaderMsgID || String.eqb name HeaderID then evID e
  else if String.eqb name HeaderType then evType e
  else if String.eqb name HeaderSchema then evSchema e
  else if String.eqb name HeaderSource then evSource e
  else if String.eqb name HeaderKey then evKey e
  else if String.eqb name HeaderTrace then evTrace e
  else if String.eqb name HeaderContentType then ContentTypeJSON
  else if String.eqb name HeaderTime then (if IsZero (evTime e) then "" else format_time (evTime e))
  else default "" (evHeaders e !! name).

Definition named_headers : list string :=
  [HeaderMsgID; HeaderID; HeaderType; HeaderSchema; HeaderSource; HeaderKey; HeaderTime; HeaderTrace;
   HeaderContentType].

(** [Envelope.ToHeaders]. *)
Definition ToHeaders (e : Envelope) : gmap string string :=
  fold_left (fun h name => let v := Header e name in if String.eqb v "" then h else <[name := v]> h)
    named_headers (evHeaders e).

(** [transportHeader]; [strings.ToLower] reads the Unicode tables for a name
    with a byte above 127. *)
Definition transportHeader `{Unicode} (name : string) : bool :=
  let n := ToLower name in
  HasPrefix n "nats-schedule" || HasPrefix n "nats-expected-" || String.eqb n "nats-ttl"
  || String.eqb n "nats-rollup".

(** The loop of [EnvelopeFromHeaders] writes each header to a place of its own,
    so the order of the map does not matter. *)
Definition is_named (name : string) : bool := existsb (String.eqb name) named_headers.

Definition EnvelopeFromHeaders `{Unicode} (h : gmap string string) (data : string) : Envelope :=
  let at_ k := default "" (h !! k) in
  {| evID := if String.eqb (at_ HeaderMsgID) "" then at_ HeaderID else at_ HeaderMsgID;
     evType := at_ HeaderType;
     evSchema := at_ HeaderSchema;
     evSource := at_ HeaderSource;
     evKey := at_ HeaderKey;
     evTime := match h !! HeaderTime with Some v => default 0 (parse_time v) | None => 0 end;
     evTrace := at_ HeaderTrace;
     evHeaders := filter (fun kv => is_named (fst kv) = false /\ transportHeader (fst kv) = false) h;
     evData := data |}.
End Wire.

(** ** Publish options (bus.go) *)

(** [PublishOptions] as [ResolvePublishOptions] leaves them. *)
Record PublishOptions := mkPublishOptions {
  poMsgID : string;
  poScheduleAt : Time;
  poExpectStream : string;
}.

Inductive PublishOption := WithMsgID (id : string) | WithScheduleAt (t : Time) | WithExpectStream (s : string).

Definition apply_option (o : PublishOptions) (opt : PublishOption) : PublishOptions :=
  match opt with
  | WithMsgID id => mkPublishOptions id (poScheduleAt o) (poExpectStream o)
  | WithScheduleAt t => mkPublishOptions (poMsgID o) t (poExpectStream o)
  | WithExpectStream s => mkPublishOptions (poMsgID o) (poScheduleAt o) s
  end.

(** [None] is a nil envelope. *)
Definition ResolvePublishOptions (e : option Envelope) (opts : list PublishOption) : PublishOptions :=
  fold_left apply_option opts
    (mkPublishOptions (match e with Some e => evID e | None => "" end) 0 "").

(** ** Subscriptions (bus.go) *)

(** [Subscription.Validate]: the field of its error. *)
Definition Subscription_Validate (s : Subscription) : option string :=
  if String.eqb (sbStream s) "" then Some "Subscription.Stream"
  else if String.eqb (sbDurable s) "" then Some "Subscription.Durable"
  else if bool_decide (sbFilters s = []) then Some "Subscription.Filters"
  else if (0 <? sbMaxDeliver s) && (sbMaxDeliver s <=? Z.of_nat (length (sbBackoff s)))
  then Some "Subscription.MaxDeliver"
  else None.

(** [AckDeadline]; [attempt] is a [uint64]. *)
Definition AckDeadline (ackWait : Duration) (backoff : list Duration) (attempt : Z) : Duration :=
  let n := Z.of_nat (length backoff) in
  if 0 <? n then
    let i := if 1 <? attempt then Z.min (attempt - 1) (n - 1) else 0 in
    nth (Z.to_nat i) backoff 0
  else if 0 <? ackWait then ackWait else DefaultAckWait.

Definition sub_AckDeadline (s : Subscription) (attempt : Z) : Duration :=
  AckDeadline (sbAckWait s) (sbBackoff s) attempt.

(** [Timing]. *)
Record Timing := mkTiming { tmAckWait : Duration; tmBackoff : list Duration; tmMaxDeliver : Z }.

Definition sub_Timing (s : Subscription) : Timing :=
  mkTiming (sbAckWait s) (sbBackoff s) (sbMaxDeliver s).

Definition WithTiming (s : Subscription) (t : Timing) : Subscription :=
  s <| sbAckWait := tmAckWait t |> <| sbBackoff := tmBackoff t |> <| sbMaxDeliver := tmMaxDeliver t |>.

(** [Timing.Equal]. *)
Definition Timing_Equal (t u : Timing) : bool :=
  if negb (Z.max (tmMaxDeliver t) 0 =? Z.max (tmMaxDeliver u) 0) then false
  else forallb (fun attempt =>
      AckDeadline (tmAckWait t) (tmBackoff t) (Z.of_nat attempt)
      =? AckDeadline (tmAckWait u) (tmBackoff u) (Z.of_nat attempt))
    (seq 1 (Nat.max (length (tmBackoff t)) (length (tmBackoff u)) + 1)).

(** ** Handler errors (errors.go, requeue.go) *)

(** An error and what it wraps.  [Opaque] stands for an error with no cause to
    unwrap, [Wrap] for one with one cause ([fmt.Errorf] with %w), [Joined] for
    [errors.Join]; the texts are their [Error()]. *)
Inductive herror :=
  | Opaque (text : string)
  | Wrap (text : string) (cause : herror)
  | Joined (causes : list herror)
  | RetryError (after : Duration) (cause : option herror)
  | DiscardError (reason : string) (cause : option herror)
  | RequeueError (reason : string) (cause : option herror).

Definition newline : string := String (ascii_of 10) EmptyString.

Fixpoint error_text (e : herror) : string :=
  match e with
  | Opaque t => t
  | Wrap t _ => t
  | Joined es => Join (map error_text es) newline
  | RetryError after None => "retry after " +:+ Duration_String after
  | RetryError after (Some c) => "retry after " +:+ Duration_String after +:+ ": " +:+ error_text c
  | DiscardError r None => "discard: " +:+ r
  | DiscardError r (Some c) => "discard: " +:+ r +:+ ": " +:+ error_text c
  | RequeueError r None => "requeue: " +:+ r
  | RequeueError r (Some c) => "requeue: " +:+ r +:+ ": " +:+ error_text c
  end.

(** [errors.As]: the first error of the chain, depth first, that is of a kind. *)
Fixpoint first_as {X} (kind : herror -> option X) (e : herror) : option X :=
  match kind e with
  | Some x => Some x
  | None =>
      match e with
      | Opaque _ => None
      | Wrap _ c => first_as kind c
      | Joined es =>
          (fix walk (es : list herror) : option X :=
             match es with
             | [] => None
             | c :: es' => match first_as kind c with Some x => Some x | None => walk es' end
             end) es
      | RetryError _ c | DiscardError _ c | RequeueError _ c =>
          match c with Some c => first_as kind c | None => None end
      end
  end.

Definition as_retry (e : herror) : option Duration :=
  match e with RetryError after _ => Some after | _ => None end.
Definition as_discard (e : herror) : option string :=
  match e with DiscardError r _ => Some r | _ => None end.
Definition as_requeue (e : herror) : option string :=
  match e with RequeueError r _ => Some r | _ => None end.

(** ** Settlement (errors.go) *)

(** [Settlement], with only the fields each action reads. *)
Inductive Settlement :=
  | SettleAck
  | SettleNak (delay : Duration)
  | SettleTerm (reason : string)
  | SettleRequeue (reason : string).

Definition DefaultBackoff : Duration := 30 * Second.

(** [Backoff]; [attempt] is a delivery count, which [int] holds. *)
Definition Backoff (schedule : list Duration) (attempt : Z) : Duration :=
  match schedule with
  | [] => DefaultBackoff
  | _ =>
      let attempt := if attempt =? 0 then 1 else attempt in
      if Z.of_nat (length schedule) <? attempt then List.last schedule 0
      else nth (Z.to_nat (attempt - 1)) schedule 0
  end.

Definition max_deliveries_reason (maxDeliver : Z) (why : string) : string :=
  "max deliveries exceeded (" +:+ fmt_d maxDeliver +:+ "): " +:+ why.

Definition Settle (err : option herror) (attempt : Z) (s : Subscription) : Settlement :=
  match err with
  | None => SettleAck
  | Some err =>
      match first_as as_discard err with
      | Some reason => SettleTerm reason
      | None =>
          match first_as as_requeue err with
          | Some reason => SettleRequeue reason
          | None =>
              if (0 <? sbMaxDeliver s) && (sbMaxDeliver s <=? attempt)
              then SettleTerm (max_deliveries_reason (sbMaxDeliver s) (error_text err))
              else
                let delay := Backoff (sbBackoff s) attempt in
                match first_as as_retry err with
                | Some after => SettleNak (if 0 <? after then after else delay)
                | None => SettleNak delay
                end
          end
      end
  end.

Definition AckWaitExhaustedReason (maxDeliver : Z) : string :=
  max_deliveries_reason maxDeliver "acknowledgement timed out".

(** [RequeueIfStopping]; [stopping] is [errors.Is(context.Cause(ctx), ErrStopping)]. *)
Definition RequeueIfStopping (stopping : bool) (err : option herror) (s : Subscription) : option herror :=
  match err with
  | None => None
  | Some e =>
      if negb (sbRequeueOnStop s) || negb stopping then err
      else match first_as as_discard e, first_as as_requeue e with
           | None, None => Some (RequeueError "the subscription stopped" err)
           | _, _ => err
           end
  end.

(** ** Copies *)

(** [dlqServiceTask]: the Cut at a dash, and the subject of a work message. *)
Definition dlqServiceTask (subject durable : string) : string * string :=
  let parts := Split "." subject in
  if Nat.ltb 2 (length parts) && String.eqb (nth 0 parts "") SubjectRoot
     && String.eqb (nth 1 parts "") "work"
  then (nth 2 parts "", if Nat.ltb 3 (length parts) then nth 3 parts "" else "unknown")
  else
    let '(s, t, ok) := Cut "-" durable in
    if ok && negb (String.eqb s "") && negb (String.eqb t "") then (s, t)
    else (if String.eqb durable "" then "unknown" else durable, "unknown").

(** [DeadLetterEnvelope]; [None] is a nil envelope. *)
Definition DeadLetterEnvelope (orig : option Envelope) (subject : string) (attempts : Z)
    (durable reason : string) : string * Envelope :=
  let out := default zero_Envelope orig in
  let h := <[HeaderDLQSubject := subject]> (<[HeaderDLQConsumer := durable]>
    (<[HeaderDLQAttempts := fmt_d attempts]> (<[HeaderDLQReason := reason]> (evHeaders out)))) in
  let h := match orig with
           | Some e => if String.eqb (evID e) "" then h else <[HeaderDLQMsgID := evID e]> h
           | None => h
           end in
  let '(service, task) := dlqServiceTask subject durable in
  let id := if String.eqb (evID out) "" then fmt_d attempts else evID out in
  (DLQSubject service task id,
   out <| evHeaders := h |> <| evID := "dlq:" +:+ durable +:+ ":" +:+ id |>).

Definition requeueSuffix : string := "/requeue-".

(** [strings.LastIndex] of a string, [None] for -1. *)
Fixpoint last_index (p s : string) : option nat :=
  match s with
  | EmptyString => if String.prefix p s then Some O else None
  | String _ s' =>
      match last_index p s' with
      | Some i => Some (S i)
      | None => if String.prefix p s then Some O else None
      end
  end.

(** [strconv.ParseUint(s, 10, 64)] succeeds: digits only, one at least, in range. *)
Definition parses_uint (s : string) : bool :=
  negb (String.eqb s "")
  && match digits_value s 0 with Some v => v <? 2 * two_p63 | None => false end.

Definition RequeueMsgID (id : string) (seq : Z) : string :=
  let id := match last_index requeueSuffix id with
            | Some i => if parses_uint (str_drop (i + String.length requeueSuffix) id) then str_take i id else id
            | None => id
            end in
  if String.eqb id "" then "requeue-" +:+ fmt_d seq else id +:+ requeueSuffix +:+ fmt_d seq.

Example requeue_twice : RequeueMsgID (RequeueMsgID "task/1" 7) 9 = "task/1/requeue-9".
Proof. vm_compute. reflexivity. Qed.
Example requeue_anonymous : RequeueMsgID "" 7 = "requeue-7".
Proof. vm_compute. reflexivity. Qed.
