(* ===== verification/SettleFacts.v ===== *)
(** * SettleFacts: what settling, requeueing and the wire form promise *)

From S2P Require Import Prelude GoLang GoFacts Events KV Subjects Topology Settle.
From Stdlib Require Import Ascii.

(** ** What a handler's error becomes *)

Definition is_discard (e : herror) : Prop := is_Some (first_as as_discard e).
Definition is_requeue (e : herror) : Prop := is_Some (first_as as_requeue e).

(** What becomes of a delivery: it is acknowledged exactly when the handler
    returned no error; given up exactly when the error discards it or, not a
    requeue, came on the last delivery the subscription allows; handed back when
    it is a requeue; and otherwise delivered again, after the delay the error
    asks for or the schedule's. *)
Theorem Settle_decides err attempt s :
  match Settle err attempt s with
  | SettleAck => err = None
  | SettleTerm reason =>
      exists e, err = Some e /\
        (first_as as_discard e = Some reason \/
         (~ is_discard e /\ ~ is_requeue e /\ 0 < sbMaxDeliver s <= attempt))
  | SettleRequeue reason => exists e, err = Some e /\ ~ is_discard e /\ first_as as_requeue e = Some reason
  | SettleNak delay =>
      exists e, err = Some e /\ ~ is_discard e /\ ~ is_requeue e /\ (sbMaxDeliver s <= 0 \/ attempt < sbMaxDeliver s) /\
        ((exists after, first_as as_retry e = Some after /\ 0 < after /\ delay = after) \/
         delay = Backoff (sbBackoff s) attempt)
  end.
Proof.
  unfold Settle, is_discard, is_requeue. destruct err as [e |]; [| done].
  assert (~ is_Some (@None string)) as Hn by (by intros [? ?]).
  destruct (first_as as_discard e) as [r |] eqn:Ed; [by eauto 6 |].
  destruct (first_as as_requeue e) as [r |] eqn:Er; [exists e; by rewrite Ed |].
  destruct ((0 <? sbMaxDeliver s) && (sbMaxDeliver s <=? attempt)) eqn:El.
  - exists e. split; [done |]. right. rewrite Ed, Er. bools. split_and!; done.
  - assert (sbMaxDeliver s <= 0 \/ attempt < sbMaxDeliver s) as Hb.
    { destruct (0 <? sbMaxDeliver s) eqn:E1; cbn in El; bools; lia. }
    cbv zeta. destruct (first_as as_retry e) as [after |] eqn:Ea; exists e; rewrite Ed, Er; split_and!; try done; [| by right].
    destruct (0 <? after) eqn:Eaf; [left | by right]. bools. eauto.
Qed.

(** A stopping process spends no delivery: on a subscription that requeues on
    a stop, whatever error a cut-off handler returns, and on whichever attempt,
    the delivery is handed back as a fresh message; only a handler that refused
    the message, or finished, settles it otherwise. *)
Theorem stopping_spends_nothing err attempt s :
  sbRequeueOnStop s = true ->
  match RequeueIfStopping true err s with
  | None => err = None
  | Some e' =>
      match Settle (Some e') attempt s with
      | SettleRequeue _ => True
      | SettleTerm reason => exists e, err = Some e /\ first_as as_discard e = Some reason
      | _ => False
      end
  end.
Proof.
  intros Hs. unfold RequeueIfStopping. destruct err as [e |]; [| done]. rewrite Hs. cbn [negb orb].
  destruct (first_as as_discard e) as [r |] eqn:Ed.
  - unfold Settle. rewrite Ed. eauto.
  - destruct (first_as as_requeue e) as [r |] eqn:Er.
    + unfold Settle. by rewrite Ed, Er.
    + unfold Settle. cbn [first_as as_discard]. by rewrite Ed.
Qed.

Definition ex_requeuing : Subscription := mkSubscription "S" "d" ["a"] 10 3 [] 1 1 0 0 0 "" true.

Lemma stopping_spends_nothing_witness :
  match RequeueIfStopping true (Some (Opaque "context canceled")) ex_requeuing with
  | None => Some (Opaque "context canceled") = None
  | Some e' =>
      match Settle (Some e') 3 ex_requeuing with
      | SettleRequeue _ => True
      | SettleTerm reason => exists e, Some (Opaque "context canceled") = Some e /\ first_as as_discard e = Some reason
      | _ => False
      end
  end.
Proof. apply (stopping_spends_nothing (Some (Opaque "context canceled")) 3 ex_requeuing). reflexivity. Defined.

(** ** Acknowledgement deadlines *)

Lemma AckDeadline_first w b attempt : attempt <= 1 -> AckDeadline w b attempt = AckDeadline w b 1.
Proof. intros H. unfold AckDeadline. by replace (1 <? attempt) with false by lia. Qed.

(** Past the end of the schedule every attempt has the last entry's. *)
Lemma AckDeadline_last w b attempt k : Z.of_nat (length b) <= k -> 1 < k -> k <= attempt ->
  AckDeadline w b attempt = AckDeadline w b k.
Proof.
  intros Hk H1 Ha. unfold AckDeadline. destruct (0 <? Z.of_nat (length b)) eqn:E; [| done]. bools.
  replace (1 <? attempt) with true by lia. replace (1 <? k) with true by lia.
  do 2 f_equal. lia.
Qed.

(** Two timings are equal exactly when no delivery is timed differently by
    them: the same number of deliveries allowed and the same deadline for every
    attempt, of which comparing one past the longer schedule is enough. *)
Theorem Timing_Equal_iff t u :
  Timing_Equal t u = true <->
  Z.max (tmMaxDeliver t) 0 = Z.max (tmMaxDeliver u) 0 /\
  forall attempt, AckDeadline (tmAckWait t) (tmBackoff t) attempt = AckDeadline (tmAckWait u) (tmBackoff u) attempt.
Proof.
  unfold Timing_Equal. destruct (Z.max (tmMaxDeliver t) 0 =? Z.max (tmMaxDeliver u) 0) eqn:E; cbn [negb]; bools.
  2: { split; [done | by intros [? _]]. }
  set (n := (Nat.max (length (tmBackoff t)) (length (tmBackoff u)) + 1)%nat).
  rewrite forallb_forall. split.
  - intros H. split; [done |]. intros attempt.
    assert (forall a, 1 <= a <= Z.of_nat n -> AckDeadline (tmAckWait t) (tmBackoff t) a = AckDeadline (tmAckWait u) (tmBackoff u) a) as Hin.
    { intros a Ha. specialize (H (Z.to_nat a)). rewrite Z2Nat.id in H by lia. apply Z.eqb_eq, H, in_seq. lia. }
    destruct (Z.le_gt_cases attempt 1) as [H1 | H1].
    + rewrite !(AckDeadline_first _ _ attempt) by done. apply Hin. lia.
    + destruct (Z.le_gt_cases attempt (Z.of_nat n)) as [H2 | H2]; [apply Hin; lia |].
      destruct (decide (n = 1)%nat) as [Hn | Hn].
      * assert (length (tmBackoff t) = 0 /\ length (tmBackoff u) = 0)%nat as [Ht Hu] by lia.
        apply nil_length_inv in Ht, Hu. specialize (Hin 1 ltac:(lia)). rewrite Ht, Hu in *. exact Hin.
      * rewrite (AckDeadline_last _ (tmBackoff t) attempt (Z.of_nat n)), (AckDeadline_last _ (tmBackoff u) attempt (Z.of_nat n)) by lia.
        apply Hin. lia.
  - intros [_ H] a _. apply Z.eqb_eq, H.
Qed.

(** ** Identifiers of requeued copies *)

Lemma fmt_d_no_slash n : 0 <= n -> no_sep "/" (fmt_d n).
Proof. intros H. apply (no_sep_impl is_digit); [done | by apply fmt_d_digits]. Qed.

Lemma last_index_none p a s : no_sep a s -> last_index (String a p) s = None.
Proof.
  unfold no_sep. induction s as [| b s IH]; [done |]. cbn [str_forall last_index]. intros H. bools.
  rewrite IH by done. cbn [String.prefix]. destruct (ascii_dec a b) as [-> | Hne]; [by rewrite Ascii.eqb_refl in * | done].
Qed.

Lemma last_index_at p a s t : no_sep a (p +:+ t) -> last_index (String a p) (s +:+ String a p +:+ t) = Some (String.length s).
Proof.
  intros H. induction s as [| b s IH].
  - rewrite app_empty, app_cons. cbn [last_index]. rewrite last_index_none by done.
    cbn [String.prefix String.length]. destruct (ascii_dec a a); [| done].
    clear. induction p as [| c p IH]; cbn; [by destruct t |]. rewrite app_cons. cbn. by destruct (ascii_dec c c).
  - rewrite app_cons. cbn [last_index String.length]. by rewrite IH.
Qed.

Lemma digits_value_val s acc : digits s -> digits_value s acc = Some (dec_val s acc).
Proof.
  unfold digits. revert acc. induction s as [| a s IH]; intros acc; [done |]. cbn. intros H. bools.
  rewrite H. by apply IH.
Qed.

Lemma fmt_d_parses n : 0 <= n < 2 * two_p63 -> parses_uint (fmt_d n) = true.
Proof.
  intros Hn. unfold parses_uint. rewrite digits_value_val by (apply fmt_d_digits; lia). rewrite fmt_d_val by lia.
  apply andb_true_intro. split; [| apply Z.ltb_lt, Hn].
  unfold fmt_d. destruct (n =? 0) eqn:E; [done |]. bools. replace (n <? 0) with false by lia.
  unfold dec_fuel. cbn [dec_loop]. replace (0 <? n) with true by lia.
  assert (forall k m acc, acc <> "" -> dec_loop k m acc <> "") as Hd.
  { clear. induction k as [| k IH]; intros m acc Hacc; [done |]. cbn. destruct (0 <? m); [| done]. by apply IH. }
  apply negb_true_iff, String.eqb_neq. by apply Hd.
Qed.

(** The identifier without an earlier requeue's suffix. *)
Definition requeue_base (id : string) : string :=
  match last_index requeueSuffix id with
  | Some i => if parses_uint (str_drop (i + String.length requeueSuffix) id) then str_take i id else id
  | None => id
  end.

Lemma RequeueMsgID_base id seq :
  RequeueMsgID id seq = if String.eqb (requeue_base id) "" then "requeue-" +:+ fmt_d seq else requeue_base id +:+ requeueSuffix +:+ fmt_d seq.
Proof. done. Qed.

Lemma str_app_inj_l s t u : s +:+ t = s +:+ u -> t = u.
Proof. induction s as [| a s IH]; [done |]. rewrite !app_cons. intros [= H]. by apply IH. Qed.

Lemma requeue_base_copy id seq : 0 <= seq < 2 * two_p63 -> requeue_base (id +:+ requeueSuffix +:+ fmt_d seq) = id.
Proof.
  intros Hs. unfold requeue_base, requeueSuffix. rewrite last_index_at.
  - assert (str_drop (String.length id + String.length "/requeue-") (id +:+ "/requeue-" +:+ fmt_d seq) = fmt_d seq) as ->.
    { induction id as [| a id IH]; [done |]. rewrite app_cons. exact IH. }
    rewrite fmt_d_parses by done. apply str_take_app.
  - unfold no_sep. rewrite str_forall_app. apply andb_true_intro. split; [done |]. apply fmt_d_no_slash. lia.
Qed.

(** The copies of one message have identifiers of their own: two copies made
    at different sequence numbers never share one, so no deduplication window
    drops a copy, and requeueing a copy replaces its suffix instead of growing
    the identifier. *)
Theorem RequeueMsgID_fresh id seq seq' :
  0 <= seq < 2 * two_p63 -> 0 <= seq' < 2 * two_p63 ->
  (RequeueMsgID id seq = RequeueMsgID id seq' -> seq = seq') /\
  RequeueMsgID id seq <> "" /\
  (requeue_base id <> "" -> RequeueMsgID (RequeueMsgID id seq) seq' = RequeueMsgID id seq').
Proof.
  intros Hs Hs'. split_and!.
  - rewrite !RequeueMsgID_base. destruct (String.eqb (requeue_base id) ""); intros H.
    + apply str_app_inj_l in H. apply fmt_d_inj in H; lia.
    + apply str_app_inj_l, str_app_inj_l in H. apply fmt_d_inj in H; lia.
  - rewrite RequeueMsgID_base. destruct (String.eqb_spec (requeue_base id) ""); [done |].
    destruct (requeue_base id); done.
  - intros Hb. rewrite (RequeueMsgID_base id seq), (RequeueMsgID_base id seq').
    destruct (String.eqb_spec (requeue_base id) ""); [done |].
    rewrite RequeueMsgID_base, requeue_base_copy by done. destruct (String.eqb_spec (requeue_base id) ""); done.
Qed.

Lemma RequeueMsgID_fresh_witness :
  RequeueMsgID (RequeueMsgID "task/1" 7) 9 = RequeueMsgID "task/1" 9.
Proof. apply (RequeueMsgID_fresh "task/1" 7 9); [by vm_compute | by vm_compute | by vm_compute]. Defined.

(** ** The wire form *)

(** A time of the years 0000 to 9999, which [time.RFC3339Nano] writes in four
    digits: the nanoseconds from 1 January of year 1, 366 days after that of year
    0, to that of year 10000. *)
Definition four_digit_year (t : Time) : Prop :=
  - (366 * 86400 * 10 ^ 9) <= t < 3652059 * 86400 * 10 ^ 9.

(** Of such a time [time.Parse] reads back what [Time.Format] wrote. *)
Class WireTimeLaws `{WireTime} : Prop := {
  parse_format : forall t, four_digit_year t -> parse_time (format_time t) = Some t;
  format_nonempty : forall t, four_digit_year t -> format_time t <> "";
}.

Section Wire.
Context `{WireTimeLaws} `{Unicode}.

Lemma headers_lookup e names (h : gmap string string) k :
  fold_left (fun h name => let v := Header e name in if String.eqb v "" then h else <[name := v]> h) names h !! k =
    if bool_decide (k ∈ names) && negb (String.eqb (Header e k) "") then Some (Header e k) else h !! k.
Proof.
  revert h. induction names as [| n names IH]; intros h; cbn [fold_left]; [done |]. rewrite IH. cbv zeta.
  destruct (decide (k = n)) as [-> | Hne].
  - rewrite (bool_decide_eq_true_2 (n ∈ n :: names)) by left. cbn [andb].
    destruct (String.eqb (Header e n) "") eqn:E; cbn [negb].
    + by rewrite andb_false_r.
    + rewrite lookup_insert_eq. by destruct (bool_decide (n ∈ names)).
  - assert (bool_decide (k ∈ n :: names) = bool_decide (k ∈ names)) as ->.
    { apply bool_decide_ext. rewrite list.elem_of_cons. tauto. }
    case_match; [done |]. destruct (String.eqb (Header e n) ""); [done | by rewrite lookup_insert_ne].
Qed.

Lemma named_spec k : is_named k = bool_decide (k ∈ named_headers).
Proof.
  unfold is_named. destruct (existsb (String.eqb k) named_headers) eqn:E; symmetry.
  - apply bool_decide_eq_true. apply existsb_exists in E as (x & Hx & Ex). apply String.eqb_eq in Ex as ->.
    by apply list_elem_of_In.
  - apply bool_decide_eq_false. intros Hk. apply not_true_iff_false in E. apply E, existsb_exists. exists k.
    split; [by apply list_elem_of_In | apply String.eqb_refl].
Qed.

(** C40.  An envelope survives the wire: read back from the headers it was sent
    with and its payload it is the envelope that was sent, when its own extra
    headers do not use the names reserved for its fields and for the transport
    and its time is one the wire form can write, of the years 0000 to 9999 (or
    the zero time). *)
Theorem envelope_roundtrip (e : Envelope) :
  four_digit_year (evTime e) ->
  (forall k, is_Some (evHeaders e !! k) -> is_named k = false /\ transportHeader k = false) ->
  EnvelopeFromHeaders (ToHeaders e) (evData e) = e.
Proof using All.
  intros Ht He.
  assert (forall k, is_named k = true -> evHeaders e !! k = None) as Hnone.
  { intros k Hk. destruct (evHeaders e !! k) eqn:E; [| done]. destruct (He k) as [? _]; [by eexists | congruence]. }
  assert (forall k, is_named k = true -> default "" (ToHeaders e !! k) = Header e k) as Hat.
  { intros k Hk. unfold ToHeaders. rewrite headers_lookup, <- named_spec, Hk, Hnone by done.
    destruct (String.eqb_spec (Header e k) ""); by cbn. }
  unfold EnvelopeFromHeaders.
  rewrite !Hat by done. assert (Header e HeaderID = evID e) as -> by done. assert (Header e HeaderMsgID = evID e) as -> by done.
  assert ((match ToHeaders e !! HeaderTime with Some v => default 0 (parse_time v) | None => 0 end) = evTime e) as ->.
  { unfold ToHeaders. rewrite headers_lookup, <- named_spec. change (is_named HeaderTime) with true. cbn [andb].
    rewrite Hnone by done. change (Header e HeaderTime) with (if IsZero (evTime e) then "" else format_time (evTime e)).
    unfold IsZero. destruct (Z.eqb_spec (evTime e) 0) as [Hz | Hz]; [by cbn |].
    destruct (String.eqb_spec (format_time (evTime e)) "") as [Hf | Hf]; [by apply format_nonempty in Hf |].
    cbn. by rewrite parse_format. }
  assert (filter (fun kv : string * string => is_named (fst kv) = false /\ transportHeader (fst kv) = false) (ToHeaders e) = evHeaders e) as ->.
  { apply map_eq. intros k. apply option_eq. intros v. rewrite map_lookup_filter_Some. cbn [fst snd].
    unfold ToHeaders. rewrite headers_lookup, <- named_spec. destruct (is_named k) eqn:En; cbn [andb].
    - rewrite Hnone by done. split; [by intros [_ [? _]] | done].
    - split; [by intros [? _] |]. intros Hv. split; [done |]. split; [done |]. apply (He k). by eexists. }
  destruct e as [id ty sc so ke ti tr he da]. cbn. by destruct (String.eqb_spec id ""); subst.
Qed.
End Wire.

(** Times written in binary, for the witness. *)
Fixpoint bits (p : positive) : string :=
  match p with xH => "" | xO p => String "0" (bits p) | xI p => String "1" (bits p) end.
Fixpoint unbits (s : string) : positive :=
  match s with "" => xH | String c s => if Ascii.eqb c "0" then xO (unbits s) else xI (unbits s) end.
Definition ex_wire : WireTime := {|
  format_time t := match t with Z0 => "0" | Zpos p => String "+" (bits p) | Zneg p => String "-" (bits p) end;
  parse_time s := match s with
    | String c s => if Ascii.eqb c "+" then Some (Zpos (unbits s)) else if Ascii.eqb c "-" then Some (Zneg (unbits s)) else Some 0
    | "" => None
    end;
|}.

Lemma ex_wire_laws : @WireTimeLaws ex_wire.
Proof.
  assert (forall p, unbits (bits p) = p) as Hb by (induction p as [p IH | p IH |]; cbn; by rewrite ?IH).
  split; intros [| p | p] Ht; cbn; by rewrite ?Hb.
Qed.

Definition ex_sent : Envelope := mkEnvelope "id-1" "task" "v1" "api" "" 1000 "" {[ "X-Extra" := "yes" ]} "payload".

Lemma envelope_roundtrip_witness :
  @EnvelopeFromHeaders ex_wire ascii_unicode (@ToHeaders ex_wire ex_sent) "payload" = ex_sent.
Proof.
  apply (@envelope_roundtrip ex_wire ex_wire_laws ascii_unicode ex_sent); [by vm_compute |].
  change (evHeaders ex_sent) with ({[ "X-Extra" := "yes" ]} : gmap string string).
  intros k [v Hv]. apply lookup_singleton_Some in Hv as [<- _]. by vm_compute.
Defined.
