(* ===== verification/Stream.v ===== *)
(** * Stream: one in-memory stream

    src/pkg/events/membus/stream.go.  Every method holds the stream's lock from
    its first line to its last, so each is one step.

    The source keeps messages behind pointers: handlers hold a message after it
    left the stream, and settle it through that pointer.  [stHeap] holds every
    message ever published, at the index that stands for its pointer, and
    [stMsgs] is the stream's list of pointers.  Sequence numbers and delivery
    counts ([uint64]) and the byte count are unbounded: each counts stored
    messages or their bytes one by one. *)

From S2P Require Import Prelude GoLang Events KV Subjects Topology Settle.
From Stdlib Require Import Ascii.

Open Scope monad_scope.

(** ** State *)

(** [dedupRecord]. *)
Record dedupRecord := mkDedup { ddSeq : Z; ddAt : Time }.

(** [consumerState]. *)
Record consumerState := mkConsumer {
  coAttempts : Z;
  coAckDeadline : Time;
  coNextAt : Time;
  coSettled : bool;
  coDeadLettered : bool;
}.

Definition zero_consumerState : consumerState := mkConsumer 0 0 0 false false.

#[export] Instance eta_consumerState : Eta consumerState :=
  fun c => mkConsumer (coAttempts c) (coAckDeadline c) (coNextAt c) (coSettled c) (coDeadLettered c).
#[export] Instance set_coAttempts : Setter coAttempts. Proof. derive_setter. Defined.
#[export] Instance set_coAckDeadline : Setter coAckDeadline. Proof. derive_setter. Defined.
#[export] Instance set_coNextAt : Setter coNextAt. Proof. derive_setter. Defined.
#[export] Instance set_coSettled : Setter coSettled. Proof. derive_setter. Defined.
#[export] Instance set_coDeadLettered : Setter coDeadLettered. Proof. derive_setter. Defined.

(** [consumerState.due]. *)
Definition due (cs : consumerState) (now : Time) : bool :=
  if negb (IsZero (coAckDeadline cs)) && Before now (coAckDeadline cs) then false
  else IsZero (coNextAt cs) || negb (Before now (coNextAt cs)).

(** [memMsg]. *)
Record memMsg := mkMsg {
  mmSeq : Z;
  mmSubject : string;
  mmEnv : Envelope;
  mmDeliverAt : Time;
  mmSize : Z;
  mmRemoved : bool;
  mmClaim : string;
  mmState : gmap string consumerState;
}.

#[export] Instance eta_memMsg : Eta memMsg :=
  fun m => mkMsg (mmSeq m) (mmSubject m) (mmEnv m) (mmDeliverAt m) (mmSize m) (mmRemoved m)
    (mmClaim m) (mmState m).
#[export] Instance set_mmRemoved : Setter mmRemoved. Proof. derive_setter. Defined.
#[export] Instance set_mmClaim : Setter mmClaim. Proof. derive_setter. Defined.
#[export] Instance set_mmState : Setter mmState. Proof. derive_setter. Defined.

(** What a pointer to no message would read; no pointer the stream holds is one. *)
Definition nil_msg : memMsg := mkMsg 0 "" zero_Envelope 0 0 true "" ∅.

(** [durableState]. *)
Record durableState := mkDurable {
  duFilters : list string;
  duMaxAckPending : Z;
  duTiming : Timing;
}.

(** [stream]. *)
Record stream := mkStream {
  stSpec : StreamSpec;
  stSeq : Z;
  stHeap : list memMsg;
  stMsgs : list nat;
  stBytes : Z;
  stDedup : gmap string dedupRecord;
  stDurables : gmap string durableState;
}.

#[export] Instance eta_stream : Eta stream :=
  fun s => mkStream (stSpec s) (stSeq s) (stHeap s) (stMsgs s) (stBytes s) (stDedup s) (stDurables s).
#[export] Instance set_stSpec : Setter stSpec. Proof. derive_setter. Defined.
#[export] Instance set_stSeq : Setter stSeq. Proof. derive_setter. Defined.
#[export] Instance set_stHeap : Setter stHeap. Proof. derive_setter. Defined.
#[export] Instance set_stMsgs : Setter stMsgs. Proof. derive_setter. Defined.
#[export] Instance set_stBytes : Setter stBytes. Proof. derive_setter. Defined.
#[export] Instance set_stDedup : Setter stDedup. Proof. derive_setter. Defined.
#[export] Instance set_stDurables : Setter stDurables. Proof. derive_setter. Defined.

(** A stream [ensure] has just created. *)
Definition new_stream (spec : StreamSpec) : stream := mkStream spec 0 [] [] 0 ∅ ∅.

(** ** Messages behind pointers *)

Definition msg_at (s : stream) (i : nat) : memMsg := default nil_msg (stHeap s !! i).
Definition msg (i : nat) : M stream memMsg := gets (fun s => msg_at s i).
Definition set_msg (i : nat) (f : memMsg -> memMsg) : M stream unit :=
  modify (fun s => s <| stHeap ::= alter f i |>).

(** [memMsg.stateFor]: the record, made when there is none. *)
Definition state_of (m : memMsg) (durable : string) : consumerState :=
  default zero_consumerState (mmState m !! durable).
Definition stateFor (i : nat) (durable : string) : M stream consumerState :=
  m <- msg i;;
  set_msg i (fun m => m <| mmState ::= <[durable := state_of m durable]> |>);;
  ret (state_of m durable).
Definition set_state (i : nat) (durable : string) (f : consumerState -> consumerState) : M stream unit :=
  set_msg i (fun m => m <| mmState ::= alter f durable |>).

Definition is_work_queue_spec (spec : StreamSpec) : bool := bool_decide (ssRetention spec = RetentionWorkQueue).
Definition workQueue : M stream bool := gets (fun s => is_work_queue_spec (stSpec s)).

Definition matchAny (filters : list string) (subject : string) : bool :=
  existsb (fun f => SubjectMatches f subject) filters.

(** ** Publishing *)

(** The loop of [expireLocked] over the messages: the pointers kept. *)
Fixpoint expire_loop (now : Time) (maxAge : Duration) (ids : list nat) : M stream (list nat) :=
  match ids with
  | [] => ret []
  | i :: ids =>
      m <- msg i;;
      when (negb (mmRemoved m) && (maxAge <=? Sub now (evTime (mmEnv m))))
        (set_msg i (fun m => m <| mmRemoved := true |>);;
         modify (fun s => s <| stBytes ::= fun b => b - mmSize m |>));;
      m <- msg i;;
      keep <- expire_loop now maxAge ids;;
      ret (if mmRemoved m then keep else i :: keep)
  end.

Definition expireLocked (now : Time) : M stream unit :=
  spec <- gets stSpec;;
  when (0 <? ssDuplicates spec)
    (modify (fun s => s <| stDedup ::= filter (fun kv => Sub now (ddAt (snd kv)) < ssDuplicates spec) |>));;
  if ssMaxAge spec <=? 0 then ret tt
  else
    ids <- gets stMsgs;;
    keep <- expire_loop now (ssMaxAge spec) ids;;
    modify (fun s => s <| stMsgs := keep |>).

(** [Receipt], less the stream's name. *)
Record Receipt := mkReceipt { rcSeq : Z; rcDuplicate : bool }.

Definition datasize (e : Envelope) : Z := Z.of_nat (String.length (evData e)).

(** The receipt of an earlier publish of the same ID inside the window. *)
Definition duplicate (s : stream) (now : Time) (id : string) : option Z :=
  if negb (String.eqb id "") && (0 <? ssDuplicates (stSpec s)) then
    match stDedup s !! id with
    | Some rec => if Sub now (ddAt rec) <? ssDuplicates (stSpec s) then Some (ddSeq rec) else None
    | None => None
    end
  else None.

Definition full (s : stream) (size : Z) : bool :=
  bool_decide (ssDiscard (stSpec s) = DiscardNew) && (0 <? ssMaxBytes (stSpec s))
  && (ssMaxBytes (stSpec s) <? stBytes s + size).

(** [publish]: [None] is [ErrQueueFull]. *)
Definition publish (now : Time) (subject : string) (env : Envelope) (scheduleAt : Time) :
    M stream (option Receipt) :=
  s <- gets id;;
  match duplicate s now (evID env) with
  | Some seq => ret (Some (mkReceipt seq true))
  | None =>
      let size := datasize env in
      if full s size then ret None
      else
        modify (fun s => s <| stSeq ::= Z.succ |>);;
        s <- gets id;;
        let m := mkMsg (stSeq s) subject env scheduleAt size false "" ∅ in
        modify (fun s => s <| stHeap ::= fun h => h ++ [m] |> <| stMsgs ::= fun l => l ++ [length (stHeap s)] |>
                           <| stBytes ::= fun b => b + size |>);;
        when (negb (String.eqb (evID env) ""))
          (modify (fun s => s <| stDedup ::= <[evID env := mkDedup (mmSeq m) now]> |>));;
        expireLocked now;;
        ret (Some (mkReceipt (mmSeq m) false))
  end.

(** [message]. *)
Definition message (s : stream) (seq : Z) : option (string * Envelope) :=
  match List.find (fun i => (mmSeq (msg_at s i) =? seq) && negb (mmRemoved (msg_at s i))) (stMsgs s) with
  | Some i => Some (mmSubject (msg_at s i), mmEnv (msg_at s i))
  | None => None
  end.

(** ** Delivering *)

(** [unsettledLocked]. *)
Definition is_unsettled (durable : string) (m : memMsg) : bool :=
  match mmState m !! durable with
  | Some cs => negb (mmRemoved m) && (0 <? coAttempts cs) && negb (coSettled cs)
  | None => false
  end.
Definition unsettledLocked (s : stream) (durable : string) : Z :=
  Z.of_nat (length (List.filter (fun i => is_unsettled durable (msg_at s i)) (stMsgs s))).

(** The guards of [claim]'s loop before it looks at the delivery record. *)
Definition claimable (workq : bool) (durable : string) (filters : list string) (now : Time) (m : memMsg) : bool :=
  if mmRemoved m then false
  else if negb (IsZero (mmDeliverAt m)) && Before now (mmDeliverAt m) then false
  else if workq && negb (String.eqb (mmClaim m) "") && negb (String.eqb (mmClaim m) durable) then false
  else matchAny filters (mmSubject m).

(** The guards on the delivery record. *)
Definition deliverable (capped : bool) (maxDeliver : Z) (now : Time) (cs : consumerState) : bool :=
  if coSettled cs || negb (due cs now) then false
  else if capped && (coAttempts cs =? 0) then false
  else negb ((0 <? maxDeliver) && (maxDeliver <=? coAttempts cs)).

Section Claim.
Variables (workq capped : bool) (durable : string) (filters : list string) (now : Time)
  (ackWait : Z -> Duration) (maxDeliver : Z).

Fixpoint claim_loop (ids : list nat) : M stream (option nat) :=
  match ids with
  | [] => ret None
  | i :: ids =>
      m <- msg i;;
      if negb (claimable workq durable filters now m) then claim_loop ids
      else
        cs <- stateFor i durable;;
        if negb (deliverable capped maxDeliver now cs) then claim_loop ids
        else
          set_state i durable (fun cs => cs <| coAttempts ::= Z.succ |>);;
          set_state i durable (fun cs => cs <| coAckDeadline := Add now (ackWait (coAttempts cs)) |>
                                            <| coNextAt := 0 |>);;
          when workq (set_msg i (fun m => m <| mmClaim := durable |>));;
          ret (Some i)
  end.
End Claim.

(** [claim]: the message handed out, [None] for nil. *)
Definition claim (durable : string) (filters : list string) (now : Time) (ackWait : Z -> Duration)
    (maxDeliver : Z) : M stream (option nat) :=
  s <- gets id;;
  match stDurables s !! durable with
  | None => ret None
  | Some d =>
      workq <- workQueue;;
      let capped := duMaxAckPending d <=? unsettledLocked s durable in
      claim_loop workq capped durable filters now ackWait maxDeliver (stMsgs s)
  end.

(** [removeLocked]. *)
Definition removeLocked (i : nat) : M stream unit :=
  m <- msg i;;
  if mmRemoved m then ret tt
  else
    set_msg i (fun m => m <| mmRemoved := true |>);;
    modify (fun s => s <| stBytes ::= fun b => b - mmSize m |>);;
    modify (fun s => s <| stMsgs ::= List.filter (fun j => negb (mmRemoved (msg_at s j))) |>).

(** The guards of [lapsed]'s loop. *)
Definition has_lapsed (workq : bool) (durable : string) (filters : list string) (now : Time)
    (maxDeliver : Z) (m : memMsg) : bool :=
  if mmRemoved m || negb (matchAny filters (mmSubject m)) then false
  else if workq && negb (String.eqb (mmClaim m) "") && negb (String.eqb (mmClaim m) durable) then false
  else match mmState m !! durable with
       | None => false
       | Some cs => negb (coSettled cs || (coAttempts cs <? maxDeliver) || negb (due cs now))
       end.

Fixpoint lapsed_loop (workq : bool) (durable : string) (filters : list string) (now : Time)
    (maxDeliver : Z) (ids : list nat) : M stream (list nat) :=
  match ids with
  | [] => ret []
  | i :: ids =>
      m <- msg i;;
      if has_lapsed workq durable filters now maxDeliver m then
        set_state i durable (fun cs => cs <| coSettled := true |> <| coDeadLettered := true |>
                                          <| coAckDeadline := 0 |>);;
        out <- lapsed_loop workq durable filters now maxDeliver ids;;
        ret (i :: out)
      else lapsed_loop workq durable filters now maxDeliver ids
  end.

Fixpoint remove_all (ids : list nat) : M stream unit :=
  match ids with
  | [] => ret tt
  | i :: ids => removeLocked i;; remove_all ids
  end.

Definition lapsed (durable : string) (filters : list string) (now : Time) (maxDeliver : Z) :
    M stream (list nat) :=
  if maxDeliver <=? 0 then ret []
  else
    workq <- workQueue;;
    ids <- gets stMsgs;;
    out <- lapsed_loop workq durable filters now maxDeliver ids;;
    when workq (remove_all out);;
    ret out.

(** ** Settling *)

Definition ack (i : nat) (durable : string) : M stream unit :=
  stateFor i durable;;
  set_state i durable (fun cs => cs <| coSettled := true |> <| coAckDeadline := 0 |>);;
  workq <- workQueue;;
  when workq (removeLocked i).

Definition nak (i : nat) (durable : string) (now : Time) (delay : Duration) : M stream unit :=
  stateFor i durable;;
  set_state i durable (fun cs => cs <| coAckDeadline := 0 |> <| coNextAt := Add now delay |>);;
  workq <- workQueue;;
  when workq (set_msg i (fun m => m <| mmClaim := durable |>)).

Definition attemptOf (i : nat) (durable : string) : M stream Z :=
  cs <- stateFor i durable;;
  ret (coAttempts cs).

Definition overdue (s : stream) (i : nat) (durable : string) (attempt : Z) (now : Time) : bool :=
  match mmState (msg_at s i) !! durable with
  | None => false
  | Some cs =>
      if coSettled cs then coDeadLettered cs && (coAttempts cs =? attempt)
      else negb (coAttempts cs =? attempt)
           || (negb (IsZero (coAckDeadline cs)) && negb (Before now (coAckDeadline cs)))
  end.

Definition inProgress (i : nat) (durable : string) (now : Time) (ackWait : Z -> Duration) : M stream unit :=
  stateFor i durable;;
  set_state i durable (fun cs => cs <| coAckDeadline := Add now (ackWait (coAttempts cs)) |>).

(** ** Durables *)

Definition forget_in (durable : string) (m : memMsg) : memMsg :=
  (if String.eqb (mmClaim m) durable then m <| mmClaim := "" |> else m) <| mmState ::= delete durable |>.

Fixpoint forget_loop (durable : string) (ids : list nat) : M stream unit :=
  match ids with
  | [] => ret tt
  | i :: ids => set_msg i (forget_in durable);; forget_loop durable ids
  end.

Definition forgetDurable (durable : string) : M stream unit :=
  modify (fun s => s <| stDurables ::= delete durable |>);;
  ids <- gets stMsgs;;
  forget_loop durable ids.

Definition bindDurable (durable : string) (filters : list string) (maxAckPending : Z) (timing : Timing) :
    M stream unit :=
  modify (fun s => s <| stDurables ::= <[durable := mkDurable filters (Z.max maxAckPending 1) timing]> |>).

Definition boundTiming (s : stream) (durable : string) : option Timing :=
  option_map duTiming (stDurables s !! durable).

Definition hasDurable (s : stream) (durable : string) : bool :=
  bool_decide (is_Some (stDurables s !! durable)).

(** [sort.Strings]. *)
Definition sort_strings (l : list string) : list string := foldr insert_key [] l.

Definition subscriptions (s : stream) : list string := sort_strings (map fst (map_to_list (stDurables s))).

(** ** Reading *)

(** The switch of [stream.consumerState] on one message: added to the pending and
    to the acknowledgements pending. *)
Definition backlog (workq : bool) (durable : string) (filters : list string) (now : Time) (m : memMsg) : Z * Z :=
  if claimable workq durable filters now m then
    match mmState m !! durable with
    | None => (1, 0)
    | Some cs => if coAttempts cs =? 0 then (1, 0) else if negb (coSettled cs) then (0, 1) else (0, 0)
    end
  else (0, 0).

(** [stream.consumerState]; [Waiting] is the bus's. *)
Definition stream_consumerState (s : stream) (durable : string) (now : Time) : option ConsumerState :=
  match stDurables s !! durable with
  | None => None
  | Some d =>
      let counts := map (fun i => backlog (is_work_queue_spec (stSpec s)) durable (duFilters d) now (msg_at s i)) (stMsgs s) in
      Some (mkConsumerState (foldr Z.add 0 (map fst counts)) (foldr Z.add 0 (map snd counts)) 0
              (duMaxAckPending d) now)
  end.

Fixpoint purge_loop (subject : string) (ids : list nat) : M stream (list nat) :=
  match ids with
  | [] => ret []
  | i :: ids =>
      m <- msg i;;
      if negb (mmRemoved m) && SubjectMatches subject (mmSubject m) then
        set_msg i (fun m => m <| mmRemoved := true |>);;
        modify (fun s => s <| stBytes ::= fun b => b - mmSize m |>);;
        purge_loop subject ids
      else
        keep <- purge_loop subject ids;;
        ret (i :: keep)
  end.

Definition purgeSubject (subject : string) : M stream unit :=
  ids <- gets stMsgs;;
  keep <- purge_loop subject ids;;
  modify (fun s => s <| stMsgs := keep |>).

(** [fill]: messages, their bytes and the limit. *)
Definition wire_size `{WireTime} (m : memMsg) : Z :=
  Z.of_nat (String.length (mmSubject m) + String.length (evData (mmEnv m)))
  + foldr Z.add 0 (map (fun kv => Z.of_nat (String.length (fst kv) + String.length (snd kv)))
      (map_to_list (ToHeaders (mmEnv m)))).

Definition fill `{WireTime} (s : stream) : Z * Z * Z :=
  let live := List.filter (fun i => negb (mmRemoved (msg_at s i))) (stMsgs s) in
  (Z.of_nat (length live), foldr Z.add 0 (map (fun i => wire_size (msg_at s i)) live),
   Z.max (ssMaxBytes (stSpec s)) 0).

(** [subjects]: sorted and distinct. *)
Definition subjects (s : stream) (filter : string) : list string :=
  sort_strings (elements (list_to_set (C := gset string)
    (map (fun i => mmSubject (msg_at s i))
      (List.filter (fun i => negb (mmRemoved (msg_at s i)) && SubjectMatches filter (mmSubject (msg_at s i)))
        (stMsgs s))))).
