(* ===== verification/StreamOps.v ===== *)
(** * StreamOps: what each operation of a stream does

    A stream's messages change in two ways: one message is rewritten, or a set of
    them is removed.  Each operation of Stream.v is shown to be one of these, on
    a stream whose list of pointers is exactly its live messages. *)

From S2P Require Import Prelude GoLang Events KV Subjects Topology Settle Stream.
From Stdlib Require Import Ascii.

(** ** The two changes *)

(** Message [i] rewritten. *)
Definition rewrite_msg (i : nat) (f : memMsg -> memMsg) (s : stream) : stream :=
  s <| stHeap ::= alter f i |>.

(** The messages [p] picks, removed. *)
Definition removed (m : memMsg) : memMsg := m <| mmRemoved := true |>.
Fixpoint total (s : stream) (ids : list nat) : Z :=
  match ids with [] => 0 | i :: ids => mmSize (msg_at s i) + total s ids end.
Definition drop_msgs (p : nat -> bool) (s : stream) : stream :=
  s <| stHeap ::= imap (fun i m => if p i then removed m else m) |>
    <| stMsgs := List.filter (fun i => negb (p i)) (stMsgs s) |>
    <| stBytes := stBytes s - total s (List.filter p (stMsgs s)) |>.

(** ** Well-formed streams *)

Definition live (s : stream) (i : nat) : bool := negb (mmRemoved (msg_at s i)).

(** The pointers are the live messages, oldest first; sequence numbers count the
    messages; the bytes are the live messages'. *)
Record stream_ok (s : stream) : Prop := {
  ok_msgs : stMsgs s = List.filter (live s) (seq 0 (length (stHeap s)));
  ok_seqs : forall i m, stHeap s !! i = Some m -> mmSeq m = Z.of_nat i + 1 /\ mmSize m = datasize (mmEnv m);
  ok_last : stSeq s = Z.of_nat (length (stHeap s));
  ok_bytes : stBytes s = total s (stMsgs s);
}.

Lemma msg_at_lookup s i m : stHeap s !! i = Some m -> msg_at s i = m.
Proof. unfold msg_at. by intros ->. Qed.

Lemma msg_at_lt s i : (i < length (stHeap s))%nat -> stHeap s !! i = Some (msg_at s i).
Proof. intros H. apply lookup_lt_is_Some in H as [m Hm]. by rewrite (msg_at_lookup _ _ _ Hm). Qed.

Lemma msg_at_ge s i : (length (stHeap s) <= i)%nat -> msg_at s i = nil_msg.
Proof. intros H. unfold msg_at. by rewrite lookup_ge_None_2. Qed.

Lemma live_lt s i : live s i = true -> (i < length (stHeap s))%nat.
Proof.
  intros H. destruct (Nat.lt_ge_cases i (length (stHeap s))); [done |].
  unfold live in H. by rewrite msg_at_ge in H.
Qed.

Lemma elem_of_msgs s i : stream_ok s -> i ∈ stMsgs s <-> live s i = true.
Proof.
  intros Hs. rewrite (ok_msgs s Hs), list_elem_of_In, filter_In, in_seq.
  split; [by intros [_ ?] |]. intros H. pose proof (live_lt _ _ H). split; [lia | done].
Qed.

Lemma NoDup_msgs s : stream_ok s -> NoDup (stMsgs s).
Proof. intros Hs. rewrite (ok_msgs s Hs). apply NoDup_ListNoDup, List.NoDup_filter, seq_NoDup. Qed.

(** *** One message *)

Lemma heap_rewrite i f s : stHeap (rewrite_msg i f s) = alter f i (stHeap s).
Proof. done. Qed.
Lemma heap_drop p s : stHeap (drop_msgs p s) = imap (fun i m => if p i then removed m else m) (stHeap s).
Proof. done. Qed.

Lemma rewrite_at i f s j :
  msg_at (rewrite_msg i f s) j = if decide (i = j /\ (i < length (stHeap s))%nat) then f (msg_at s j) else msg_at s j.
Proof.
  unfold msg_at. rewrite heap_rewrite.
  case_decide as H.
  - destruct H as [<- H]. rewrite list_lookup_alter_eq. apply lookup_lt_is_Some in H as [m Hm]. by rewrite Hm.
  - destruct (decide (i = j)) as [-> | Hne]; [| by rewrite list_lookup_alter_ne].
    rewrite list_lookup_alter_eq. destruct (stHeap s !! j) eqn:E; [| done].
    apply lookup_lt_Some in E. by destruct H.
Qed.

Lemma rewrite_id i f s : (forall m, stHeap s !! i = Some m -> f m = m) -> rewrite_msg i f s = s.
Proof.
  intros H. unfold rewrite_msg. destruct s as [sp sq hp ms by_ dd du]. cbn in *. unfold upd, set_stHeap. cbn. f_equal.
  apply list_eq. intros j. destruct (decide (i = j)) as [<- |].
  - rewrite list_lookup_alter_eq. destruct (hp !! i) eqn:E; [| done]. cbn. by rewrite H.
  - by rewrite list_lookup_alter_ne.
Qed.

Lemma rewrite_rewrite i f g s : rewrite_msg i f (rewrite_msg i g s) = rewrite_msg i (fun m => f (g m)) s.
Proof.
  unfold rewrite_msg. destruct s as [sp sq hp ms by_ dd du]. unfold upd, set_stHeap. cbn. f_equal.
  apply list_eq. intros j. destruct (decide (i = j)) as [<- |].
  - rewrite !list_lookup_alter_eq. by destruct (hp !! i).
  - by rewrite !list_lookup_alter_ne.
Qed.

(** A rewriting of the delivery records and the claim only. *)
Definition keeps_body (f : memMsg -> memMsg) : Prop := forall m,
  mmSeq (f m) = mmSeq m /\ mmSubject (f m) = mmSubject m /\ mmEnv (f m) = mmEnv m /\
  mmDeliverAt (f m) = mmDeliverAt m /\ mmSize (f m) = mmSize m /\ mmRemoved (f m) = mmRemoved m.

Lemma total_ext s s' ids : (forall i, i ∈ ids -> mmSize (msg_at s i) = mmSize (msg_at s' i)) -> total s ids = total s' ids.
Proof.
  intros H. induction ids as [| i ids IH]; [done |]. cbn. rewrite IH by (intros; apply H; by right).
  by rewrite H by left.
Qed.

Lemma live_rewrite i f s j : keeps_body f -> live (rewrite_msg i f s) j = live s j.
Proof. intros Hf. unfold live. rewrite rewrite_at. case_decide; [| done]. by destruct (Hf (msg_at s j)) as (_ & _ & _ & _ & _ & ->). Qed.

Lemma rewrite_length i f s : length (stHeap (rewrite_msg i f s)) = length (stHeap s).
Proof. apply length_alter. Qed.

Lemma alter_Some {A} (f : A -> A) (i j : nat) (l : list A) x : alter f i l !! j = Some x ->
  exists y, l !! j = Some y /\ x = if decide (i = j) then f y else y.
Proof.
  case_decide as H; [subst j; rewrite list_lookup_alter_eq | rewrite list_lookup_alter_ne by done; eauto].
  destruct (l !! i); cbn; [| done]. intros [= <-]. eauto.
Qed.

Lemma rewrite_ok i f s : keeps_body f -> stream_ok s -> stream_ok (rewrite_msg i f s).
Proof.
  intros Hf [H1 H2 H3 H4]. split.
  - change (stMsgs (rewrite_msg i f s)) with (stMsgs s). rewrite H1, rewrite_length.
    apply List.filter_ext. intros j. symmetry. by apply live_rewrite.
  - intros j m. rewrite heap_rewrite. intros (m' & Hm & ->)%alter_Some. case_decide; [| by apply H2].
    destruct (Hf m') as (-> & _ & -> & _ & -> & _). by apply H2.
  - rewrite rewrite_length. exact H3.
  - change (stBytes (rewrite_msg i f s)) with (stBytes s). change (stMsgs (rewrite_msg i f s)) with (stMsgs s).
    rewrite H4. apply total_ext. intros j _. rewrite rewrite_at. case_decide; [| done].
    by destruct (Hf (msg_at s j)) as (_ & _ & _ & _ & -> & _).
Qed.

(** *** Removals *)

Lemma drop_at p s j : msg_at (drop_msgs p s) j = if p j then removed (msg_at s j) else msg_at s j.
Proof.
  unfold msg_at. rewrite heap_drop, list_lookup_imap. destruct (stHeap s !! j); cbn; by destruct (p j).
Qed.

Lemma drop_length p s : length (stHeap (drop_msgs p s)) = length (stHeap s).
Proof. apply length_imap. Qed.

Lemma live_drop p s j : live (drop_msgs p s) j = live s j && negb (p j).
Proof. unfold live. rewrite drop_at. destruct (p j); cbn; [by rewrite andb_false_r | by rewrite andb_true_r]. Qed.

Lemma filter_filter_and {A} (p q : A -> bool) l :
  List.filter p (List.filter q l) = List.filter (fun x => q x && p x) l.
Proof. induction l as [| x l IH]; [done |]. cbn. destruct (q x) eqn:E; cbn; [destruct (p x) |]; by rewrite ?IH. Qed.

Lemma total_split s p ids :
  total s ids = total s (List.filter p ids) + total s (List.filter (fun i => negb (p i)) ids).
Proof. induction ids as [| i ids IH]; [done |]. cbn. destruct (p i); cbn; lia. Qed.

Lemma drop_ok p s : stream_ok s -> stream_ok (drop_msgs p s).
Proof.
  intros [H1 H2 H3 H4]. split.
  - change (stMsgs (drop_msgs p s)) with (List.filter (fun i => negb (p i)) (stMsgs s)).
    rewrite H1, drop_length, filter_filter_and. apply List.filter_ext. intros j. symmetry. apply live_drop.
  - intros j m. rewrite heap_drop, list_lookup_imap. destruct (stHeap s !! j) as [m' |] eqn:E; [| done]. cbn. intros [= <-].
    destruct (p j); apply (H2 _ _ E).
  - rewrite drop_length. exact H3.
  - change (stBytes (drop_msgs p s)) with (stBytes s - total s (List.filter p (stMsgs s))).
    change (stMsgs (drop_msgs p s)) with (List.filter (fun i => negb (p i)) (stMsgs s)).
    rewrite H4, (total_split s p (stMsgs s)).
    rewrite (total_ext (drop_msgs p s) s); [lia |]. intros i _. rewrite drop_at. by destruct (p i).
Qed.

(** Only what [p] says of live messages matters. *)
Lemma drop_ext p q s : stream_ok s -> (forall i, live s i = true -> p i = q i) -> drop_msgs p s = drop_msgs q s.
Proof.
  intros Hs H. unfold drop_msgs.
  assert (forall i, i ∈ stMsgs s -> p i = q i) as Hm by (intros i Hi; apply H; by apply elem_of_msgs).
  assert (List.filter (fun i => negb (p i)) (stMsgs s) = List.filter (fun i => negb (q i)) (stMsgs s)) as ->.
  { apply List.filter_ext_in. intros i Hi. rewrite Hm; [done | by apply list_elem_of_In]. }
  assert (List.filter p (stMsgs s) = List.filter q (stMsgs s)) as ->.
  { apply List.filter_ext_in. intros i Hi. apply Hm. by apply list_elem_of_In. }
  assert (imap (fun i m => if p i then removed m else m) (stHeap s)
    = imap (fun i m => if q i then removed m else m) (stHeap s)) as E; [| unfold upd, set_stHeap; by rewrite E].
  apply list_eq. intros i. rewrite !list_lookup_imap. destruct (stHeap s !! i) as [m |] eqn:E; [| done]. cbn.
  destruct (mmRemoved m) eqn:Er.
  - f_equal. assert (removed m = m) as -> by (destruct m; cbn in Er; subst; done). by destruct (p i), (q i).
  - rewrite H; [done |]. unfold live. by rewrite (msg_at_lookup _ _ _ E), Er.
Qed.

Lemma drop_none s : drop_msgs (fun _ => false) s = s.
Proof.
  unfold drop_msgs. assert (forall l : list nat, List.filter (fun _ => negb false) l = l) as Hf.
  { intros l. induction l as [| x l IH]; [done |]. cbn. f_equal. exact IH. }
  assert (forall l : list nat, List.filter (fun _ => false) l = []) as He by (intros l; by induction l).
  rewrite He. cbn [total]. destruct s as [sp sq hp ms by_ dd du]. unfold upd, set_stHeap, set_stMsgs, set_stBytes.
  cbn. f_equal; [| apply Hf | lia].
  apply list_eq. intros i. rewrite list_lookup_imap. by destruct (hp !! i).
Qed.

Lemma drop_drop p q s : drop_msgs q (drop_msgs p s) = drop_msgs (fun i => p i || q i) s.
Proof.
  unfold drop_msgs at 1 3.
  change (stMsgs (drop_msgs p s)) with (List.filter (fun i => negb (p i)) (stMsgs s)).
  change (stBytes (drop_msgs p s)) with (stBytes s - total s (List.filter p (stMsgs s))).
  rewrite !filter_filter_and.
  rewrite (total_ext (drop_msgs p s) s) by (intros i _; rewrite drop_at; by destruct (p i)).
  assert (List.filter (fun x => negb (p x) && negb (q x)) (stMsgs s) = List.filter (fun i => negb (p i || q i)) (stMsgs s)) as ->
    by (apply List.filter_ext; intros i; by rewrite negb_orb).
  assert (total s (List.filter (fun i => p i || q i) (stMsgs s)) =
    total s (List.filter p (stMsgs s)) + total s (List.filter (fun x => negb (p x) && q x) (stMsgs s))) as ->.
  { generalize (stMsgs s). intros l. induction l as [| x l IH]; [done |]. cbn.
    destruct (p x), (q x); cbn; lia. }
  destruct s as [sp sq hp ms by_ dd du]. unfold drop_msgs, upd, set_stHeap, set_stMsgs, set_stBytes. cbn. f_equal; [| lia].
  apply list_eq. intros i. rewrite !list_lookup_imap. destruct (hp !! i); cbn; [| done].
  destruct (p i), (q i); done.
Qed.

(** ** Loops that remove *)

(** The messages [q] picks marked removed and [z] bytes given back, the list of
    pointers left as it is: the state inside a sweep. *)
Definition marks (q : nat -> bool) (z : Z) (s : stream) : stream :=
  s <| stHeap ::= imap (fun i m => if q i then removed m else m) |> <| stBytes ::= fun b => b - z |>.

Lemma stream_eq s s' : stSpec s = stSpec s' -> stSeq s = stSeq s' -> stHeap s = stHeap s' ->
  stMsgs s = stMsgs s' -> stBytes s = stBytes s' -> stDedup s = stDedup s' -> stDurables s = stDurables s' -> s = s'.
Proof. destruct s, s'. cbn. congruence. Qed.

Lemma marks_at q z s j : msg_at (marks q z s) j = if q j then removed (msg_at s j) else msg_at s j.
Proof.
  unfold msg_at. change (stHeap (marks q z s)) with (imap (fun i m => if q i then removed m else m) (stHeap s)).
  rewrite list_lookup_imap. destruct (stHeap s !! j); cbn; by destruct (q j).
Qed.

Lemma marks_ext q q' z z' s : (forall i, q i = q' i) -> z = z' -> marks q z s = marks q' z' s.
Proof.
  intros H <-. apply stream_eq; try done. apply list_eq. intros i.
  change (imap (fun i m => if q i then removed m else m) (stHeap s) !! i
    = imap (fun i m => if q' i then removed m else m) (stHeap s) !! i).
  rewrite !list_lookup_imap. by rewrite H.
Qed.

Lemma marks_none s : marks (fun _ => false) 0 s = s.
Proof.
  apply stream_eq; try done; [| cbn; lia]. apply list_eq. intros i.
  change (imap (fun (_ : nat) m => m) (stHeap s) !! i = stHeap s !! i).
  rewrite list_lookup_imap. by destruct (stHeap s !! i).
Qed.

Lemma marks_marks q q' z z' s : marks q' z' (marks q z s) = marks (fun i => q i || q' i) (z + z') s.
Proof.
  apply stream_eq; try done; [| cbn; lia]. apply list_eq. intros i.
  change (imap (fun i m => if q' i then removed m else m) (imap (fun i m => if q i then removed m else m) (stHeap s)) !! i
    = imap (fun i m => if q i || q' i then removed m else m) (stHeap s) !! i).
  rewrite !list_lookup_imap. destruct (stHeap s !! i); cbn; [| done]. by destruct (q i), (q' i).
Qed.

Lemma marks_one i z s : (rewrite_msg i removed s) <| stBytes ::= fun b => b - z |> = marks (fun j => Nat.eqb j i) z s.
Proof.
  apply stream_eq; try done. apply list_eq. intros j.
  change (alter removed i (stHeap s) !! j = imap (fun k m => if Nat.eqb k i then removed m else m) (stHeap s) !! j).
  rewrite list_lookup_imap. destruct (Nat.eqb_spec j i) as [-> |].
  - rewrite list_lookup_alter_eq. by destruct (stHeap s !! i).
  - rewrite list_lookup_alter_ne by done. by destruct (stHeap s !! j).
Qed.

(** A loop over pointers that marks the messages [P] picks and keeps the others. *)
Definition sweeps (P : memMsg -> bool) (loop : list nat -> M stream (list nat)) : Prop := forall i ids s,
  live s i = true ->
  loop (i :: ids) s =
    (if P (msg_at s i) then loop ids ((rewrite_msg i removed s) <| stBytes ::= fun b => b - mmSize (msg_at s i) |>)
     else let '(keep, s') := loop ids s in (i :: keep, s')).

Lemma sweep_run P loop ids s :
  (forall m, P (removed m) = P m) -> (forall s, loop [] s = ([], s)) -> sweeps P loop ->
  NoDup ids -> (forall i, i ∈ ids -> live s i = true) ->
  loop ids s = (List.filter (fun i => negb (P (msg_at s i))) ids,
    marks (fun j => bool_decide (j ∈ ids) && P (msg_at s j)) (total s (List.filter (fun i => P (msg_at s i)) ids)) s).
Proof.
  intros HP Hnil Hcons Hn. revert s. induction Hn as [| i ids Hi Hn IH]; intros s Hl.
  - rewrite Hnil. cbn. f_equal. rewrite <- marks_none at 1. by apply marks_ext.
  - rewrite Hcons by (apply Hl; by left). cbn [List.filter]. destruct (P (msg_at s i)) eqn:E; cbn [negb].
    + rewrite marks_one, IH.
      * assert (forall j, P (msg_at (marks (fun j => Nat.eqb j i) (mmSize (msg_at s i)) s) j) = P (msg_at s j)) as HPs.
        { intros j. rewrite marks_at. destruct (Nat.eqb j i); [apply HP | done]. }
        f_equal; [apply List.filter_ext; intros j; by rewrite HPs |].
        rewrite marks_marks. apply marks_ext.
        -- intros j. rewrite HPs. destruct (Nat.eqb_spec j i) as [-> | Hne]; cbn.
           ++ rewrite E, bool_decide_eq_true_2; [done | by left].
           ++ f_equal. apply bool_decide_ext. rewrite list.elem_of_cons. tauto.
        -- cbn [total]. f_equal. rewrite (List.filter_ext _ (fun i => P (msg_at s i))) by (intros j; apply HPs).
           apply total_ext. intros j _. rewrite marks_at. by destruct (Nat.eqb j i).
      * intros j Hj. unfold live. rewrite marks_at. destruct (Nat.eqb_spec j i) as [-> |]; [done |].
        apply Hl. by right.
    + rewrite IH by (intros j Hj; apply Hl; by right). f_equal. apply marks_ext; [| done].
      intros j. destruct (decide (j = i)) as [-> | Hne]; [by rewrite E, !andb_false_r |].
      f_equal. apply bool_decide_ext. rewrite list.elem_of_cons. tauto.
Qed.

(** A sweep of the whole stream, and the pointers it keeps. *)
Lemma sweep_drop P loop s : stream_ok s ->
  (forall m, P (removed m) = P m) -> (forall s, loop [] s = ([], s)) -> sweeps P loop ->
  let '(keep, s') := loop (stMsgs s) s in s' <| stMsgs := keep |> = drop_msgs (fun i => P (msg_at s i)) s.
Proof.
  intros Hs HP Hnil Hcons. rewrite (sweep_run P loop (stMsgs s) s HP Hnil Hcons (NoDup_msgs s Hs))
    by (intros i; by apply elem_of_msgs).
  rewrite (drop_ext (fun i => P (msg_at s i)) (fun j => bool_decide (j ∈ stMsgs s) && P (msg_at s j)) s Hs).
  - apply stream_eq; try done.
    + change (List.filter (fun i => negb (P (msg_at s i))) (stMsgs s)
        = List.filter (fun j => negb (bool_decide (j ∈ stMsgs s) && P (msg_at s j))) (stMsgs s)).
      apply List.filter_ext_in. intros i Hi%list_elem_of_In. by rewrite bool_decide_eq_true_2.
    + change (stBytes s - total s (List.filter (fun i => P (msg_at s i)) (stMsgs s))
        = stBytes s - total s (List.filter (fun j => bool_decide (j ∈ stMsgs s) && P (msg_at s j)) (stMsgs s))).
      do 2 f_equal. apply List.filter_ext_in. intros i Hi%list_elem_of_In. by rewrite bool_decide_eq_true_2.
  - intros i Hi. by rewrite bool_decide_eq_true_2 by (by apply elem_of_msgs).
Qed.

Definition too_old (now : Time) (maxAge : Duration) (m : memMsg) : bool := maxAge <=? Sub now (evTime (mmEnv m)).

Lemma expire_loop_sweeps now maxAge : sweeps (too_old now maxAge) (expire_loop now maxAge).
Proof.
  intros i ids s Hl. pose proof (live_lt _ _ Hl) as Hlt. unfold live in Hl. apply negb_true_iff in Hl.
  cbn [expire_loop]. unfold bind, msg, gets, ret. rewrite Hl. cbn [negb andb].
  unfold too_old at 1. destruct (maxAge <=? Sub now (evTime (mmEnv (msg_at s i)))); cbn [when].
  - unfold bind, set_msg, modify.
    set (s1 := (rewrite_msg i removed s) <| stBytes ::= fun b => b - mmSize (msg_at s i) |>).
    change ((let '(keep, s') := expire_loop now maxAge ids s1 in (if mmRemoved (msg_at s1 i) then keep else i :: keep, s'))
      = expire_loop now maxAge ids s1).
    assert (mmRemoved (msg_at s1 i) = true) as ->.
    { change (msg_at s1 i) with (msg_at (rewrite_msg i removed s) i). rewrite rewrite_at.
      by rewrite decide_True. }
    by destruct (expire_loop now maxAge ids s1).
  - change (ret tt s) with (tt, s). cbv iota beta. by rewrite Hl.
Qed.

Lemma purge_loop_sweeps subject : sweeps (fun m => SubjectMatches subject (mmSubject m)) (purge_loop subject).
Proof.
  intros i ids s Hl. unfold live in Hl. apply negb_true_iff in Hl.
  cbn [purge_loop]. unfold bind, msg, gets, ret. rewrite Hl. cbn [negb andb].
  by destruct (SubjectMatches subject (mmSubject (msg_at s i))).
Qed.

(** [purgeSubject] removes the messages on the subject and nothing else. *)
Lemma purge_run subject s : stream_ok s ->
  purgeSubject subject s = (tt, drop_msgs (fun i => SubjectMatches subject (mmSubject (msg_at s i))) s).
Proof.
  intros Hs. unfold purgeSubject, bind, gets.
  pose proof (sweep_drop (fun m => SubjectMatches subject (mmSubject m)) (purge_loop subject) s Hs) as H.
  destruct (purge_loop subject (stMsgs s) s) as [keep s']. unfold modify. f_equal. apply H; try done.
  apply purge_loop_sweeps.
Qed.

(** [expireLocked] forgets the identifiers outside the window and removes the
    messages past the stream's age. *)
Definition prune (now : Time) (s : stream) : stream :=
  if 0 <? ssDuplicates (stSpec s)
  then s <| stDedup ::= filter (fun kv => Sub now (ddAt (snd kv)) < ssDuplicates (stSpec s)) |> else s.

Definition expired (now : Time) (s : stream) (i : nat) : bool :=
  (0 <? ssMaxAge (stSpec s)) && too_old now (ssMaxAge (stSpec s)) (msg_at s i).

Lemma prune_frame now s : stHeap (prune now s) = stHeap s /\ stMsgs (prune now s) = stMsgs s /\
  stBytes (prune now s) = stBytes s /\ stSeq (prune now s) = stSeq s /\ stSpec (prune now s) = stSpec s /\
  stDurables (prune now s) = stDurables s.
Proof. unfold prune. by case_match. Qed.

Lemma same_ok s s' : stHeap s' = stHeap s -> stMsgs s' = stMsgs s -> stBytes s' = stBytes s -> stSeq s' = stSeq s ->
  stream_ok s -> stream_ok s'.
Proof.
  intros E1 E2 E3 E4 [H1 H2 H3 H4].
  assert (forall i, msg_at s' i = msg_at s i) as Em by (intros i; unfold msg_at; by rewrite E1).
  split.
  - rewrite E2, H1, E1. apply List.filter_ext. intros i. unfold live. by rewrite Em.
  - intros i m. rewrite E1. apply H2.
  - by rewrite E4, E1.
  - rewrite E3, E2, H4. apply total_ext. intros i _. by rewrite Em.
Qed.

Lemma expire_run now s : stream_ok s ->
  expireLocked now s = (tt, drop_msgs (expired now s) (prune now s)).
Proof.
  intros Hs. destruct (prune_frame now s) as (E1 & E2 & E3 & E4 & E5 & E6).
  pose proof (same_ok s (prune now s) E1 E2 E3 E4 Hs) as Hp.
  assert (expireLocked now s = (if ssMaxAge (stSpec s) <=? 0 then ret tt
    else (ids <- gets stMsgs;; keep <- expire_loop now (ssMaxAge (stSpec s)) ids;; modify (fun s => s <| stMsgs := keep |>)))
      (prune now s)) as ->.
  { unfold expireLocked, prune, bind, gets. destruct (0 <? ssDuplicates (stSpec s)); reflexivity. }
  unfold expired. destruct (ssMaxAge (stSpec s) <=? 0) eqn:Ea.
  - bools. replace (0 <? ssMaxAge (stSpec s)) with false by lia. cbn. by rewrite drop_none.
  - bools. replace (0 <? ssMaxAge (stSpec s)) with true by lia. cbn. unfold bind, gets.
    pose proof (sweep_drop (too_old now (ssMaxAge (stSpec s))) (expire_loop now (ssMaxAge (stSpec s))) (prune now s) Hp) as H.
    destruct (expire_loop now (ssMaxAge (stSpec s)) (stMsgs (prune now s)) (prune now s)) as [keep s'].
    unfold modify. f_equal. rewrite H; [| done | done | apply expire_loop_sweeps].
    apply drop_ext; [done |]. intros i _. unfold msg_at. by rewrite E1.
Qed.

(** [removeLocked] removes one message, once. *)
Lemma remove_run i s : stream_ok s -> removeLocked i s = (tt, drop_msgs (fun j => Nat.eqb j i) s).
Proof.
  intros Hs. unfold removeLocked, bind, msg, gets. destruct (mmRemoved (msg_at s i)) eqn:Er.
  - unfold ret. f_equal. rewrite <- (drop_none s) at 1. apply drop_ext; [done |].
    intros j Hj. destruct (Nat.eqb_spec j i) as [-> |]; [| done]. unfold live in Hj. by rewrite Er in Hj.
  - unfold set_msg, modify. f_equal.
    set (s1 := (rewrite_msg i removed s) <| stBytes ::= fun b => b - mmSize (msg_at s i) |>).
    change (s1 <| stMsgs ::= List.filter (fun j => negb (mmRemoved (msg_at s1 j))) |>
      = drop_msgs (fun j => Nat.eqb j i) s).
    assert (forall j, msg_at s1 j = if Nat.eqb j i then removed (msg_at s j) else msg_at s j) as H1.
    { intros j. unfold s1. by rewrite marks_one, marks_at. }
    assert (live s i = true) as Hl by (unfold live; by rewrite Er).
    assert (i ∈ stMsgs s) as Hi by (by apply elem_of_msgs).
    apply stream_eq; try done.
    + unfold s1. rewrite marks_one. done.
    + change (List.filter (fun j => negb (mmRemoved (msg_at s1 j))) (stMsgs s)
        = List.filter (fun j => negb (Nat.eqb j i)) (stMsgs s)).
      apply List.filter_ext_in. intros j Hj%list_elem_of_In. rewrite H1.
      destruct (Nat.eqb j i); [done |]. apply elem_of_msgs in Hj; [| done]. exact Hj.
    + change (stBytes s - mmSize (msg_at s i) = stBytes s - total s (List.filter (fun j => Nat.eqb j i) (stMsgs s))).
      f_equal. assert (List.filter (fun j => Nat.eqb j i) (stMsgs s) = [i]) as ->; [| cbn; lia].
      pose proof (NoDup_msgs s Hs) as Hn. clear -Hi Hn. induction Hn as [| j l Hj Hn IH]; [by apply elem_of_nil in Hi |].
      cbn. destruct (Nat.eqb_spec j i) as [-> | Hne].
      * f_equal. apply list.elem_of_cons in Hi. clear -Hj. induction l as [| k l IH]; [done |]. cbn.
        rewrite list.elem_of_cons in Hj. destruct (Nat.eqb_spec k i); [subst; tauto | apply IH; tauto].
      * apply IH. apply list.elem_of_cons in Hi as [-> | ?]; [done | done].
Qed.

Lemma remove_all_run ids s : stream_ok s ->
  remove_all ids s = (tt, drop_msgs (fun j => bool_decide (j ∈ ids)) s).
Proof.
  revert s. induction ids as [| i ids IH]; intros s Hs.
  - cbn. unfold ret. f_equal. rewrite <- (drop_none s) at 1. apply drop_ext; [done |]. intros j _.
    symmetry. apply bool_decide_eq_false. apply not_elem_of_nil.
  - cbn [remove_all]. unfold bind. rewrite remove_run by done. rewrite IH by (by apply drop_ok). f_equal.
    rewrite drop_drop. apply drop_ext; [done |]. intros j _.
    destruct (Nat.eqb_spec j i) as [-> |]; cbn.
    + symmetry. apply bool_decide_eq_true. by left.
    + apply bool_decide_ext. rewrite list.elem_of_cons. tauto.
Qed.

(** ** Operations on delivery records *)

Definition on_state (d : string) (f : consumerState -> consumerState) (m : memMsg) : memMsg :=
  m <| mmState ::= <[d := f (state_of m d)]> |>.

Lemma on_state_body d f : keeps_body (on_state d f).
Proof. done. Qed.

Lemma state_of_on d f m d' : state_of (on_state d f m) d' = if decide (d = d') then f (state_of m d) else state_of m d'.
Proof.
  unfold state_of at 1. change (mmState (on_state d f m)) with (<[d := f (state_of m d)]> (mmState m)).
  case_decide as H; [subst; by rewrite lookup_insert_eq | by rewrite lookup_insert_ne].
Qed.

Lemma alter_on_state d f g m :
  (on_state d f m) <| mmState ::= alter g d |> = on_state d (fun cs => g (f cs)) m.
Proof.
  destruct m. unfold on_state, upd, set_mmState. cbn. f_equal.
  by rewrite alter_insert_eq.
Qed.

Lemma rewrite_ext i f g s : (forall m, stHeap s !! i = Some m -> f m = g m) -> rewrite_msg i f s = rewrite_msg i g s.
Proof.
  intros H. apply stream_eq; try done. apply list_eq. intros j. rewrite !heap_rewrite.
  destruct (decide (i = j)) as [<- |]; [| by rewrite !list_lookup_alter_ne].
  rewrite !list_lookup_alter_eq. destruct (stHeap s !! i) as [m |]; [| done]. cbn. by rewrite H.
Qed.

Lemma stateFor_run i d s : stateFor i d s = (state_of (msg_at s i) d, rewrite_msg i (on_state d id) s).
Proof. reflexivity. Qed.

Lemma set_state_run i d g s : set_state i d g s = (tt, rewrite_msg i (fun m => m <| mmState ::= alter g d |>) s).
Proof. done. Qed.

(** [stateFor] and then a change of the record, in one. *)
Lemma state_then {A} i d g (k : M stream A) s :
  (stateFor i d;; set_state i d g;; k) s = k (rewrite_msg i (on_state d g) s).
Proof.
  unfold bind. rewrite stateFor_run, set_state_run, rewrite_rewrite.
  f_equal. apply rewrite_ext. intros m _. apply (alter_on_state d id g m).
Qed.

Definition settle (cs : consumerState) : consumerState := cs <| coSettled := true |> <| coAckDeadline := 0 |>.
Definition hold (until : Time) (cs : consumerState) : consumerState := cs <| coAckDeadline := 0 |> <| coNextAt := until |>.
Definition extend (now : Time) (ackWait : Z -> Duration) (cs : consumerState) : consumerState :=
  cs <| coAckDeadline := Add now (ackWait (coAttempts cs)) |>.
Definition hand_out (now : Time) (ackWait : Z -> Duration) (cs : consumerState) : consumerState :=
  cs <| coAttempts ::= Z.succ |> <| coAckDeadline := Add now (ackWait (Z.succ (coAttempts cs))) |> <| coNextAt := 0 |>.
Definition giveup (cs : consumerState) : consumerState :=
  cs <| coSettled := true |> <| coDeadLettered := true |> <| coAckDeadline := 0 |>.
Definition claimed (workq : bool) (d : string) (m : memMsg) : memMsg := if workq then m <| mmClaim := d |> else m.

Definition is_wq (s : stream) : bool := is_work_queue_spec (stSpec s).

Lemma inProgress_run i d now ackWait s :
  inProgress i d now ackWait s = (tt, rewrite_msg i (on_state d (extend now ackWait)) s).
Proof.
  unfold inProgress, bind. rewrite stateFor_run, set_state_run, rewrite_rewrite. f_equal.
  apply rewrite_ext. intros m _. apply (alter_on_state d id (extend now ackWait) m).
Qed.

Lemma ack_run i d s : stream_ok s ->
  ack i d s = (tt, (if is_wq s then drop_msgs (fun j => Nat.eqb j i) else id) (rewrite_msg i (on_state d settle) s)).
Proof.
  intros Hs. unfold ack. rewrite (state_then i d settle).
  unfold bind, workQueue, gets, when. cbv beta iota zeta.
  change (is_work_queue_spec (stSpec (rewrite_msg i _ s))) with (is_wq s).
  destruct (is_wq s); [| done]. apply remove_run. by apply rewrite_ok.
Qed.

Lemma nak_run i d now delay s :
  nak i d now delay s =
    (tt, rewrite_msg i (fun m => claimed (is_wq s) d (on_state d (hold (Add now delay)) m)) s).
Proof.
  unfold nak. rewrite (state_then i d (hold (Add now delay))).
  unfold bind, workQueue, gets, when. cbv beta iota zeta.
  change (is_work_queue_spec (stSpec (rewrite_msg i _ s))) with (is_wq s).
  unfold claimed. destruct (is_wq s); [| done]. unfold set_msg, modify. f_equal. apply rewrite_rewrite.
Qed.

(** ** Messages alike but for empty delivery records *)

(** [claim] makes a record for each message it looks at; one that says nothing is
    read as none. *)
Record msg_equiv (m m' : memMsg) : Prop := {
  me_body : mmSeq m = mmSeq m' /\ mmSubject m = mmSubject m' /\ mmEnv m = mmEnv m' /\
    mmDeliverAt m = mmDeliverAt m' /\ mmSize m = mmSize m' /\ mmRemoved m = mmRemoved m';
  me_claim : mmClaim m = mmClaim m';
  me_state : forall d, state_of m d = state_of m' d;
}.

Record stream_equiv (s s' : stream) : Prop := {
  se_spec : stSpec s = stSpec s';
  se_seq : stSeq s = stSeq s';
  se_msgs : stMsgs s = stMsgs s';
  se_bytes : stBytes s = stBytes s';
  se_dedup : stDedup s = stDedup s';
  se_durables : stDurables s = stDurables s';
  se_length : length (stHeap s) = length (stHeap s');
  se_at : forall i, msg_equiv (msg_at s i) (msg_at s' i);
}.

#[export] Instance msg_equiv_equivalence : Equivalence msg_equiv.
Proof.
  split.
  - intros m. by split.
  - intros m m' [(? & ? & ? & ? & ? & ?) ? Hs]. split; [split_and!; done | done | by intros d].
  - intros m1 m2 m3 [(? & ? & ? & ? & ? & ?) ? Hs] [(? & ? & ? & ? & ? & ?) ? Hs'].
    split; [split_and!; congruence | congruence | intros d; by rewrite Hs].
Qed.

#[export] Instance stream_equiv_equivalence : Equivalence stream_equiv.
Proof.
  split.
  - intros s. by split.
  - intros s s' []. by split.
  - intros s1 s2 s3 [] []. split; try congruence. intros i. etransitivity; [apply se_at0 | apply se_at1].
Qed.

Lemma rewrite_equiv i f s s' : (forall m m', msg_equiv m m' -> msg_equiv (f m) (f m')) ->
  stream_equiv s s' -> stream_equiv (rewrite_msg i f s) (rewrite_msg i f s').
Proof.
  intros Hf []. split; try done.
  - by rewrite !rewrite_length.
  - intros j. rewrite !rewrite_at. rewrite se_length0. case_decide; [by apply Hf | done].
Qed.

#[export] Instance on_state_proper d f : Proper (msg_equiv ==> msg_equiv) (on_state d f).
Proof.
  intros m m' H. split; [exact (me_body _ _ H) | exact (me_claim _ _ H) |]. intros d'.
  rewrite !state_of_on, (me_state _ _ H d). case_decide; [done | apply (me_state _ _ H)].
Qed.

#[export] Instance claimed_proper workq d : Proper (msg_equiv ==> msg_equiv) (claimed workq d).
Proof. intros m m' []. unfold claimed. destruct workq; split; done. Qed.

(** Making the record of a message nobody was handed. *)
Lemma note_equiv i d s : stream_equiv (rewrite_msg i (on_state d id) s) s.
Proof.
  split; try done; [by rewrite rewrite_length |]. intros j. rewrite rewrite_at. case_decide; [| done].
  split; try done. intros d'. rewrite state_of_on. by case_decide; [subst |].
Qed.

(** ** Handing a message out *)

Section Claims.
Variables (workq capped : bool) (d : string) (filters : list string) (now : Time)
  (ackWait : Z -> Duration) (maxDeliver : Z).

Definition candidate (m : memMsg) : bool :=
  claimable workq d filters now m && deliverable capped maxDeliver now (state_of m d).

Definition handed (m : memMsg) : memMsg := claimed workq d (on_state d (hand_out now ackWait) m).

Lemma candidate_equiv m m' : msg_equiv m m' -> candidate m = candidate m'.
Proof.
  intros [(_ & H2 & _ & H4 & _ & H6) Hc Hs]. unfold candidate, claimable. by rewrite H2, H4, H6, Hc, Hs.
Qed.

Lemma find_candidate_equiv ids s s' : stream_equiv s s' ->
  List.find (fun i => candidate (msg_at s i)) ids = List.find (fun i => candidate (msg_at s' i)) ids.
Proof.
  intros H. induction ids as [| i ids IH]; [done |]. cbn.
  by rewrite (candidate_equiv _ _ (se_at _ _ H i)), IH.
Qed.

(** The loop hands out the first message that may be, and touches no other. *)
Lemma claim_loop_run ids s :
  let '(r, s') := claim_loop workq capped d filters now ackWait maxDeliver ids s in
  r = List.find (fun i => candidate (msg_at s i)) ids /\
  stream_equiv s' (match r with Some i => rewrite_msg i handed s | None => s end).
Proof.
  revert s. induction ids as [| i ids IH]; intros s; [done |]. cbn [claim_loop List.find].
  unfold bind at 1, msg, gets. unfold candidate at 1. destruct (claimable workq d filters now (msg_at s i)); [| apply IH].
  cbn [negb andb]. unfold bind at 1. rewrite stateFor_run.
  destruct (deliverable capped maxDeliver now (state_of (msg_at s i) d)); cbn [negb].
  - assert (forall m, ((on_state d id m) <| mmState ::= alter (fun cs => cs <| coAttempts ::= Z.succ |>) d |>)
        <| mmState ::= alter (fun cs => cs <| coAckDeadline := Add now (ackWait (coAttempts cs)) |> <| coNextAt := 0 |>) d |>
      = on_state d (hand_out now ackWait) m) as Hon by (intros m; by rewrite !alter_on_state).
    unfold bind. rewrite !set_state_run, !rewrite_rewrite. rewrite (rewrite_ext i _ (on_state d (hand_out now ackWait))) by (intros m _; apply Hon).
    unfold when, handed, claimed, ret. destruct workq; [| done].
    unfold set_msg, modify. split; [done |].
    change (stream_equiv (rewrite_msg i (fun m => m <| mmClaim := d |>) (rewrite_msg i (on_state d (hand_out now ackWait)) s))
      (rewrite_msg i (fun m => (on_state d (hand_out now ackWait) m) <| mmClaim := d |>) s)).
    by rewrite rewrite_rewrite.
  - specialize (IH (rewrite_msg i (on_state d id) s)).
    destruct (claim_loop workq capped d filters now ackWait maxDeliver ids (rewrite_msg i (on_state d id) s)) as [r s'].
    destruct IH as [-> He]. rewrite (find_candidate_equiv ids _ s (note_equiv i d s)) in He |- *. split; [done |].
    etransitivity; [exact He |]. destruct (List.find _ ids) as [j |]; [| apply note_equiv].
    apply rewrite_equiv; [| apply note_equiv]. intros m m' Hm. unfold handed. by rewrite Hm.
Qed.
End Claims.

(** [claim], whole. *)
Lemma claim_run d filters now ackWait maxDeliver s :
  let '(r, s') := claim d filters now ackWait maxDeliver s in
  match stDurables s !! d with
  | None => r = None /\ s' = s
  | Some du =>
      let capped := duMaxAckPending du <=? unsettledLocked s d in
      r = List.find (fun i => candidate (is_wq s) capped d filters now maxDeliver (msg_at s i)) (stMsgs s) /\
      stream_equiv s' (match r with Some i => rewrite_msg i (handed (is_wq s) d now ackWait) s | None => s end)
  end.
Proof.
  unfold claim, bind, gets, workQueue. cbv beta iota zeta. fold (is_wq s).
  change (id s) with s. destruct (stDurables s !! d) as [du |]; [| done]. apply claim_loop_run.
Qed.

(** ** Publishing *)

Definition push_msg (now : Time) (subject : string) (env : Envelope) (scheduleAt : Time) (s : stream) : stream :=
  {| stSpec := stSpec s;
     stSeq := Z.succ (stSeq s);
     stHeap := stHeap s ++ [mkMsg (Z.succ (stSeq s)) subject env scheduleAt (datasize env) false "" ∅];
     stMsgs := stMsgs s ++ [length (stHeap s)];
     stBytes := stBytes s + datasize env;
     stDedup := if String.eqb (evID env) "" then stDedup s
                else <[evID env := mkDedup (Z.succ (stSeq s)) now]> (stDedup s);
     stDurables := stDurables s |}.

Lemma push_at now subject env at_ s j :
  msg_at (push_msg now subject env at_ s) j =
    if Nat.eqb j (length (stHeap s)) then mkMsg (Z.succ (stSeq s)) subject env at_ (datasize env) false "" ∅
    else msg_at s j.
Proof.
  unfold msg_at. change (stHeap (push_msg now subject env at_ s))
    with (stHeap s ++ [mkMsg (Z.succ (stSeq s)) subject env at_ (datasize env) false "" ∅]).
  destruct (Nat.eqb_spec j (length (stHeap s))) as [-> | Hne].
  - by rewrite lookup_app_r, Nat.sub_diag by done.
  - destruct (Nat.lt_ge_cases j (length (stHeap s))).
    + by rewrite lookup_app_l by done.
    + rewrite (lookup_ge_None_2 (stHeap s)) by done.
      rewrite lookup_ge_None_2; [done |]. rewrite length_app. cbn. lia.
Qed.

Lemma push_length now subject env at_ s :
  length (stHeap (push_msg now subject env at_ s)) = S (length (stHeap s)).
Proof. cbn. rewrite length_app. cbn. lia. Qed.

Lemma total_app s l k : total s (l ++ k) = total s l + total s k.
Proof. induction l as [| x l IH]; cbn; [done | lia]. Qed.

Lemma push_ok now subject env at_ s : stream_ok s -> stream_ok (push_msg now subject env at_ s).
Proof.
  intros [H1 H2 H3 H4]. pose proof (push_at now subject env at_ s) as Hat. split.
  - change (stMsgs (push_msg now subject env at_ s)) with (stMsgs s ++ [length (stHeap s)]).
    rewrite push_length, seq_S, List.filter_app, H1. f_equal.
    + apply List.filter_ext_in. intros j Hj%in_seq. unfold live. rewrite Hat.
      destruct (Nat.eqb_spec j (length (stHeap s))); [lia | done].
    + cbn [List.filter]. unfold live. by rewrite Hat, Nat.eqb_refl.
  - intros j m Hj. pose proof (lookup_lt_Some _ _ _ Hj) as Hlt. rewrite push_length in Hlt.
    apply msg_at_lookup in Hj as <-. rewrite Hat.
    destruct (Nat.eqb_spec j (length (stHeap s))) as [-> |]; [cbn; lia |].
    apply H2, msg_at_lt. lia.
  - rewrite push_length. cbn. lia.
  - change (stMsgs (push_msg now subject env at_ s)) with (stMsgs s ++ [length (stHeap s)]).
    change (stBytes (push_msg now subject env at_ s)) with (stBytes s + datasize env).
    rewrite total_app, H4. cbn [total]. rewrite Hat, Nat.eqb_refl. cbn [mmSize].
    rewrite (total_ext (push_msg now subject env at_ s) s); [lia |]. intros j Hj. rewrite Hat.
    rewrite H1 in Hj. apply list_elem_of_In, filter_In in Hj as [Hj _]. apply in_seq in Hj.
    destruct (Nat.eqb_spec j (length (stHeap s))); [lia | done].
Qed.

Lemma publish_run now subject env at_ s : stream_ok s ->
  publish now subject env at_ s =
    match duplicate s now (evID env) with
    | Some q => (Some (mkReceipt q true), s)
    | None =>
        if full s (datasize env) then (None, s)
        else
          let s1 := push_msg now subject env at_ s in
          (Some (mkReceipt (Z.succ (stSeq s)) false), drop_msgs (expired now s1) (prune now s1))
    end.
Proof.
  intros Hs. unfold publish. unfold bind at 1, gets at 1. change (id s) with s.
  destruct (duplicate s now (evID env)) as [q |]; [done |].
  destruct (full s (datasize env)); [done |]. cbv zeta.
  transitivity ((expireLocked now;; ret (Some (mkReceipt (Z.succ (stSeq s)) false))) (push_msg now subject env at_ s)).
  - unfold push_msg. destruct (String.eqb (evID env) "") eqn:Ei; reflexivity.
  - unfold bind. by rewrite expire_run by (by apply push_ok).
Qed.

(** ** Giving up and forgetting *)

(** Several messages rewritten alike. *)
Definition rewrite_where (p : nat -> bool) (f : memMsg -> memMsg) (s : stream) : stream :=
  s <| stHeap ::= imap (fun i m => if p i then f m else m) |>.

Lemma where_at p f s j :
  msg_at (rewrite_where p f s) j = if p j && bool_decide (j < length (stHeap s))%nat then f (msg_at s j) else msg_at s j.
Proof.
  unfold msg_at. change (stHeap (rewrite_where p f s)) with (imap (fun i m => if p i then f m else m) (stHeap s)).
  rewrite list_lookup_imap. destruct (stHeap s !! j) as [m |] eqn:E; cbn.
  - apply lookup_lt_Some in E. by rewrite bool_decide_eq_true_2, andb_true_r.
  - apply lookup_ge_None_1 in E. by rewrite bool_decide_eq_false_2, andb_false_r by lia.
Qed.

Lemma where_length p f s : length (stHeap (rewrite_where p f s)) = length (stHeap s).
Proof. apply length_imap. Qed.

Lemma where_ok p f s : keeps_body f -> stream_ok s -> stream_ok (rewrite_where p f s).
Proof.
  intros Hf Hs.
  assert (forall j, mmSize (msg_at (rewrite_where p f s) j) = mmSize (msg_at s j) /\
    live (rewrite_where p f s) j = live s j) as Hat.
  { intros j. unfold live. rewrite where_at. case_match; [| done].
    destruct (Hf (msg_at s j)) as (_ & _ & _ & _ & -> & ->). done. }
  destruct Hs as [H1 H2 H3 H4]. split.
  - change (stMsgs (rewrite_where p f s)) with (stMsgs s). rewrite H1, where_length.
    apply List.filter_ext. intros j. symmetry. apply Hat.
  - intros j m. change (stHeap (rewrite_where p f s)) with (imap (fun i m => if p i then f m else m) (stHeap s)).
    rewrite list_lookup_imap. destruct (stHeap s !! j) as [m' |] eqn:E; [| done]. cbn. intros [= <-].
    destruct (p j); [| by apply H2]. destruct (Hf m') as (-> & _ & -> & _ & -> & _). by apply H2.
  - rewrite where_length. exact H3.
  - change (stBytes (rewrite_where p f s)) with (stBytes s). change (stMsgs (rewrite_where p f s)) with (stMsgs s).
    rewrite H4. apply total_ext. intros j _. symmetry. apply Hat.
Qed.

Lemma where_cons i p f s : p i = false ->
  rewrite_where p f (rewrite_msg i f s) = rewrite_where (fun j => Nat.eqb j i || p j) f s.
Proof.
  intros Hp. apply stream_eq; try done. apply list_eq. intros j.
  change (imap (fun k m => if p k then f m else m) (alter f i (stHeap s)) !! j
    = imap (fun k m => if Nat.eqb k i || p k then f m else m) (stHeap s) !! j).
  rewrite !list_lookup_imap. destruct (Nat.eqb_spec j i) as [-> |]; cbn.
  - rewrite list_lookup_alter_eq. destruct (stHeap s !! i); [| done]. cbn. by rewrite Hp.
  - by rewrite list_lookup_alter_ne.
Qed.

Lemma where_ext p q f s : (forall j, p j = q j) -> rewrite_where p f s = rewrite_where q f s.
Proof.
  intros H. apply stream_eq; try done. apply list_eq. intros j.
  change (imap (fun k m => if p k then f m else m) (stHeap s) !! j = imap (fun k m => if q k then f m else m) (stHeap s) !! j).
  rewrite !list_lookup_imap. by rewrite H.
Qed.

Lemma where_none f s : rewrite_where (fun _ => false) f s = s.
Proof.
  apply stream_eq; try done. apply list_eq. intros j.
  change (imap (fun (_ : nat) m => m) (stHeap s) !! j = stHeap s !! j).
  rewrite list_lookup_imap. by destruct (stHeap s !! j).
Qed.

Section Lapses.
Variables (workq : bool) (d : string) (filters : list string) (now : Time) (maxDeliver : Z).
Local Abbreviation gone := (has_lapsed workq d filters now maxDeliver).

Lemma lapsed_state m : gone m = true -> exists cs, mmState m !! d = Some cs /\ coSettled cs = false /\ maxDeliver <= coAttempts cs /\ due cs now = true.
Proof.
  unfold has_lapsed. intros H. repeat (case_match; try done). eexists. split; [done |]. by bools.
Qed.

Lemma lapsed_loop_run ids s : NoDup ids ->
  lapsed_loop workq d filters now maxDeliver ids s =
    (List.filter (fun i => gone (msg_at s i)) ids,
     rewrite_where (fun j => bool_decide (j ∈ List.filter (fun i => gone (msg_at s i)) ids)) (on_state d giveup) s).
Proof.
  intros Hn. revert s. induction Hn as [| i ids Hi Hn IH]; intros s.
  - cbn. unfold ret. f_equal. rewrite <- (where_none (on_state d giveup) s) at 1. apply where_ext.
    intros j. symmetry. apply bool_decide_eq_false, not_elem_of_nil.
  - cbn [lapsed_loop List.filter]. unfold bind at 1, msg, gets.
    destruct (gone (msg_at s i)) eqn:E; [| apply IH].
    unfold bind. rewrite set_state_run.
    assert (rewrite_msg i (fun m => m <| mmState ::= alter (fun cs => cs <| coSettled := true |> <| coDeadLettered := true |>
        <| coAckDeadline := 0 |>) d |>) s = rewrite_msg i (on_state d giveup) s) as ->.
    { apply rewrite_ext. intros m Hm. rewrite (msg_at_lookup _ _ _ Hm) in E.
      destruct (lapsed_state m E) as (cs & Hcs & _). unfold on_state, state_of. rewrite Hcs. destruct m.
      unfold upd, set_mmState. cbn in *. f_equal. apply map_eq. intros k.
      destruct (decide (k = d)) as [-> |]; [by rewrite lookup_alter_eq, Hcs, lookup_insert_eq |].
      by rewrite lookup_alter_ne, lookup_insert_ne. }
    set (s1 := rewrite_msg i (on_state d giveup) s). rewrite IH.
    assert (List.filter (fun j => gone (msg_at s1 j)) ids = List.filter (fun j => gone (msg_at s j)) ids) as Ef.
    { apply List.filter_ext_in. intros j Hj%list_elem_of_In. unfold s1. rewrite rewrite_at.
      case_decide as Hd; [| done]. destruct Hd as [<- _]. done. }
    rewrite Ef. unfold ret. f_equal. unfold s1. rewrite where_cons.
    + apply where_ext. intros j. destruct (Nat.eqb_spec j i) as [-> |]; cbn.
      * symmetry. apply bool_decide_eq_true. by left.
      * apply bool_decide_ext. rewrite list.elem_of_cons. tauto.
    + apply bool_decide_eq_false. intros H%list_elem_of_In%filter_In. destruct H as [H%list_elem_of_In _]. done.
Qed.
End Lapses.

(** The messages [lapsed] reports. *)
Definition lapses (s : stream) (d : string) (filters : list string) (now : Time) (maxDeliver : Z) : list nat :=
  List.filter (fun i => has_lapsed (is_wq s) d filters now maxDeliver (msg_at s i)) (stMsgs s).

Lemma lapsed_run d filters now maxDeliver s : stream_ok s ->
  lapsed d filters now maxDeliver s =
    if maxDeliver <=? 0 then ([], s)
    else
      let out := lapses s d filters now maxDeliver in
      let s1 := rewrite_where (fun j => bool_decide (j ∈ out)) (on_state d giveup) s in
      (out, if is_wq s then drop_msgs (fun j => bool_decide (j ∈ out)) s1 else s1).
Proof.
  intros Hs. unfold lapsed. destruct (maxDeliver <=? 0); [done |].
  unfold bind, workQueue, gets. cbv beta iota zeta. fold (is_wq s).
  rewrite (lapsed_loop_run (is_wq s) d filters now maxDeliver (stMsgs s) s (NoDup_msgs s Hs)).
  fold (lapses s d filters now maxDeliver). unfold when. destruct (is_wq s); [| done].
  rewrite remove_all_run; [done |]. by apply where_ok.
Qed.

Lemma forget_loop_run d ids s : NoDup ids ->
  forget_loop d ids s = (tt, rewrite_where (fun j => bool_decide (j ∈ ids)) (forget_in d) s).
Proof.
  intros Hn. revert s. induction Hn as [| i ids Hi Hn IH]; intros s.
  - cbn. unfold ret. f_equal. rewrite <- (where_none (forget_in d) s) at 1. apply where_ext.
    intros j. symmetry. apply bool_decide_eq_false, not_elem_of_nil.
  - cbn [forget_loop]. unfold bind. change (set_msg i (forget_in d) s) with (tt, rewrite_msg i (forget_in d) s).
    cbv iota beta. rewrite IH. f_equal. rewrite where_cons by (by apply bool_decide_eq_false).
    apply where_ext. intros j. destruct (Nat.eqb_spec j i) as [-> |]; cbn.
    + symmetry. apply bool_decide_eq_true. by left.
    + apply bool_decide_ext. rewrite list.elem_of_cons. tauto.
Qed.

Lemma forget_run d s : stream_ok s ->
  forgetDurable d s =
    (tt, rewrite_where (live s) (forget_in d) (s <| stDurables ::= delete d |>)).
Proof.
  intros Hs. unfold forgetDurable, bind, modify, gets. cbv beta iota zeta.
  change (stMsgs (s <| stDurables ::= delete d |>)) with (stMsgs s).
  rewrite forget_loop_run by (by apply NoDup_msgs). f_equal. apply where_ext. intros j.
  destruct (live s j) eqn:E; [apply bool_decide_eq_true | apply bool_decide_eq_false]; rewrite elem_of_msgs by done; congruence.
Qed.
