(* ===== verification/StreamRuns.v ===== *)
(** * StreamRuns: runs of a stream's operations

    A run is any sequence of the stream's operations, at any clocks, by any
    durables, through any pointers.  One lemma, [exec_moved], says what each
    operation does to one message as one durable sees it; the theorems of
    StreamFacts.v follow a message through a run with it. *)

From S2P Require Import Prelude GoLang Events KV Subjects Topology Settle Stream StreamOps.
From Stdlib Require Import Ascii.

(** ** Runs *)

Inductive sop :=
| SPublish (now : Time) (subject : string) (env : Envelope) (scheduleAt : Time)
| SClaim (d : string) (filters : list string) (now : Time) (ackWait : Z -> Duration) (maxDeliver : Z)
| SLapsed (d : string) (filters : list string) (now : Time) (maxDeliver : Z)
| SAck (i : nat) (d : string)
| SNak (i : nat) (d : string) (now : Time) (delay : Duration)
| SInProgress (i : nat) (d : string) (now : Time) (ackWait : Z -> Duration)
| SAttemptOf (i : nat) (d : string)
| SForget (d : string)
| SBind (d : string) (filters : list string) (maxAckPending : Z) (timing : Timing)
| SPurge (subject : string).

Definition exec (o : sop) (s : stream) : stream :=
  match o with
  | SPublish now subject env at_ => snd (publish now subject env at_ s)
  | SClaim d filters now ackWait maxDeliver => snd (claim d filters now ackWait maxDeliver s)
  | SLapsed d filters now maxDeliver => snd (lapsed d filters now maxDeliver s)
  | SAck i d => snd (ack i d s)
  | SNak i d now delay => snd (nak i d now delay s)
  | SInProgress i d now ackWait => snd (inProgress i d now ackWait s)
  | SAttemptOf i d => snd (attemptOf i d s)
  | SForget d => snd (forgetDurable d s)
  | SBind d filters maxAckPending timing => snd (bindDurable d filters maxAckPending timing s)
  | SPurge subject => snd (purgeSubject subject s)
  end.

Definition run (ops : list sop) (s : stream) : stream := fold_left (fun s o => exec o s) ops s.

Lemma run_cons o ops s : run (o :: ops) s = run ops (exec o s).
Proof. done. Qed.

Lemma run_snoc ops o s : run (ops ++ [o]) s = exec o (run ops s).
Proof. apply fold_left_app. Qed.

(** *** Streams alike *)

Lemma live_equiv s s' i : stream_equiv s s' -> live s i = live s' i.
Proof. intros H. unfold live. by destruct (me_body _ _ (se_at _ _ H i)) as (_ & _ & _ & _ & _ & ->). Qed.

Lemma equiv_ok s s' : stream_equiv s s' -> stream_ok s' -> stream_ok s.
Proof.
  intros He [H1 H2 H3 H4]. split.
  - rewrite (se_msgs _ _ He), (se_length _ _ He), H1. apply List.filter_ext. intros i. symmetry. by apply live_equiv.
  - intros i m Hm. pose proof (lookup_lt_Some _ _ _ Hm) as Hlt. rewrite (se_length _ _ He) in Hlt.
    apply msg_at_lookup in Hm as <-. destruct (me_body _ _ (se_at _ _ He i)) as (-> & _ & -> & _ & -> & _).
    by apply H2, msg_at_lt.
  - by rewrite (se_seq _ _ He), (se_length _ _ He).
  - rewrite (se_bytes _ _ He), (se_msgs _ _ He), H4. apply total_ext. intros i _. symmetry.
    by destruct (me_body _ _ (se_at _ _ He i)) as (_ & _ & _ & _ & -> & _).
Qed.

Lemma forget_body d : keeps_body (forget_in d).
Proof. intros m. unfold forget_in. by case_match. Qed.

Lemma handed_body wq d now ackWait : keeps_body (handed wq d now ackWait).
Proof. intros m. unfold handed, claimed. by destruct wq. Qed.

Lemma claim_ok d filters now ackWait maxDeliver s : stream_ok s -> stream_ok (snd (claim d filters now ackWait maxDeliver s)).
Proof.
  intros Hs. pose proof (claim_run d filters now ackWait maxDeliver s) as H.
  destruct (claim d filters now ackWait maxDeliver s) as [r s']. cbn [snd].
  destruct (stDurables s !! d); [| by destruct H as [_ ->]].
  destruct H as [_ H]. apply (equiv_ok _ _ H). destruct r; [| done]. apply rewrite_ok; [apply handed_body | done].
Qed.

Lemma prune_ok now s : stream_ok s -> stream_ok (prune now s).
Proof. destruct (prune_frame now s) as (E1 & E2 & E3 & E4 & _). by apply same_ok. Qed.

Lemma exec_ok o s : stream_ok s -> stream_ok (exec o s).
Proof.
  intros Hs. destruct o; cbn [exec].
  - rewrite publish_run by done. destruct (duplicate _ _ _); [done |]. destruct (full _ _); [done |].
    by apply drop_ok, prune_ok, push_ok.
  - by apply claim_ok.
  - rewrite lapsed_run by done. destruct (maxDeliver <=? 0); [done |]. cbv zeta. cbn [snd].
    destruct (is_wq s); [apply drop_ok |]; by apply where_ok.
  - rewrite ack_run by done. cbn [snd]. destruct (is_wq s); [apply drop_ok |]; by apply rewrite_ok.
  - rewrite nak_run. cbn [snd]. apply rewrite_ok; [| done]. intros m. unfold claimed. by destruct (is_wq s).
  - rewrite inProgress_run. by apply rewrite_ok.
  - by apply (rewrite_ok i (on_state d id)).
  - rewrite forget_run by done. cbn [snd]. apply where_ok; [apply forget_body |].
    by apply (same_ok s).
  - by apply (same_ok s).
  - rewrite purge_run by done. by apply drop_ok.
Qed.

Lemma run_ok ops s : stream_ok s -> stream_ok (run ops s).
Proof. revert s. induction ops as [| o ops IH]; intros s Hs; [done |]. by apply IH, exec_ok. Qed.

Lemma new_ok spec : stream_ok (new_stream spec).
Proof. by split. Qed.

(** ** One operation, one message, one durable *)

(** A publish that stores its message. *)
Definition accepts (s : stream) (now : Time) (env : Envelope) : bool :=
  match duplicate s now (evID env) with Some _ => false | None => negb (full s (datasize env)) end.

(** What an operation hands out, and what it reports. *)
Definition hands (o : sop) (s : stream) : option nat :=
  match o with
  | SClaim d filters now ackWait maxDeliver => fst (claim d filters now ackWait maxDeliver s)
  | _ => None
  end.
Definition reports (o : sop) (s : stream) : list nat :=
  match o with
  | SLapsed d filters now maxDeliver => fst (lapsed d filters now maxDeliver s)
  | _ => []
  end.

(** The ways a message leaves the stream. *)
Definition leaves (o : sop) (s : stream) (j : nat) : bool :=
  match o with
  | SPublish now _ env _ => accepts s now env && expired now s j
  | SLapsed _ _ _ _ => is_wq s && bool_decide (j ∈ reports o s)
  | SAck i _ => is_wq s && Nat.eqb i j
  | SPurge subject => SubjectMatches subject (mmSubject (msg_at s j))
  | _ => false
  end.

(** The delivery record of durable [d] on message [j], after an operation. *)
Definition record_after (o : sop) (s : stream) (j : nat) (d : string) : consumerState :=
  let cs := state_of (msg_at s j) d in
  match o with
  | SClaim d' _ now ackWait _ => if decide (d' = d /\ hands o s = Some j) then hand_out now ackWait cs else cs
  | SLapsed d' _ _ _ => if decide (d' = d /\ j ∈ reports o s) then giveup cs else cs
  | SAck i d' => if decide (d' = d /\ i = j) then settle cs else cs
  | SNak i d' now delay => if decide (d' = d /\ i = j) then hold (Add now delay) cs else cs
  | SInProgress i d' now ackWait => if decide (d' = d /\ i = j) then extend now ackWait cs else cs
  | SForget d' => if decide (d' = d /\ live s j = true) then zero_consumerState else cs
  | _ => cs
  end.

(** The durable a work queue's message is held for. *)
Definition claim_after (o : sop) (s : stream) (j : nat) : string :=
  let m := msg_at s j in
  match o with
  | SClaim d _ _ _ _ => if decide (is_wq s = true /\ hands o s = Some j) then d else mmClaim m
  | SNak i d _ _ => if decide (is_wq s = true /\ i = j) then d else mmClaim m
  | SForget d => if decide (mmClaim m = d /\ live s j = true) then "" else mmClaim m
  | _ => mmClaim m
  end.

Definition same_body (m m' : memMsg) : Prop :=
  mmSeq m = mmSeq m' /\ mmSubject m = mmSubject m' /\ mmEnv m = mmEnv m' /\
  mmDeliverAt m = mmDeliverAt m' /\ mmSize m = mmSize m'.

(** What an operation does to message [j]. *)
Record moved (o : sop) (s : stream) (j : nat) (s' : stream) : Prop := {
  mv_live : live s' j = live s j && negb (leaves o s j);
  mv_record : forall d, state_of (msg_at s' j) d = record_after o s j d;
  mv_claim : mmClaim (msg_at s' j) = claim_after o s j;
  mv_body : same_body (msg_at s' j) (msg_at s j);
}.

Lemma moved_equiv o s j s1 s2 : stream_equiv s1 s2 -> moved o s j s2 -> moved o s j s1.
Proof.
  intros He [H1 H2 H3 H4]. pose proof (se_at _ _ He j) as [Hb Hc Hst]. split.
  - by rewrite (live_equiv _ _ j He).
  - intros d. by rewrite Hst.
  - by rewrite Hc.
  - unfold same_body in *. destruct Hb as (-> & -> & -> & -> & -> & _). exact H4.
Qed.

Lemma removed_record m d : state_of (removed m) d = state_of m d /\ mmClaim (removed m) = mmClaim m.
Proof. done. Qed.

Lemma live_rewrite_not i f s j : keeps_body f -> live (rewrite_msg i f s) j = live s j && negb false.
Proof. intros H. by rewrite live_rewrite, andb_true_r. Qed.

Section Exec.
Context (s : stream) (Hs : stream_ok s) (j : nat) (Hj : (j < length (stHeap s))%nat).

Lemma publish_moved now subject env at_ : moved (SPublish now subject env at_) s j (exec (SPublish now subject env at_) s).
Proof using Hs Hj.
  cbn [exec]. rewrite publish_run by done.
  assert (accepts s now env = match duplicate s now (evID env) with Some _ => false | None => negb (full s (datasize env)) end) as Ha by done.
  destruct (duplicate _ _ _); [split; cbn; try done; by rewrite Ha, andb_true_r |].
  destruct (full _ _); [split; cbn; try done; by rewrite Ha, andb_true_r |]. cbv zeta. cbn [snd negb] in *.
  set (s1 := push_msg now subject env at_ s). destruct (prune_frame now s1) as (E1 & _).
  assert (msg_at (prune now s1) j = msg_at s j) as Hat.
  { unfold msg_at at 1. rewrite E1. change (msg_at s1 j = msg_at s j). unfold s1. rewrite push_at.
    destruct (Nat.eqb_spec j (length (stHeap s))); [lia | done]. }
  assert (expired now s1 j = expired now s j) as Hx.
  { unfold expired. f_equal. unfold s1. rewrite push_at. destruct (Nat.eqb_spec j (length (stHeap s))); [lia | done]. }
  split.
  - cbn [leaves]. rewrite live_drop, Hx, Ha. cbn [andb]. unfold live. by rewrite Hat.
  - intros d. rewrite drop_at, Hat. by destruct (expired now s1 j).
  - rewrite drop_at, Hat. by destruct (expired now s1 j).
  - rewrite drop_at, Hat. by destruct (expired now s1 j).
Qed.

Lemma claim_moved d filters now ackWait maxDeliver :
  moved (SClaim d filters now ackWait maxDeliver) s j (exec (SClaim d filters now ackWait maxDeliver) s).
Proof using Hs Hj.
  set (o := SClaim d filters now ackWait maxDeliver). pose proof (claim_run d filters now ackWait maxDeliver s) as H.
  assert (hands o s = fst (claim d filters now ackWait maxDeliver s)) as Hh by done.
  change (exec o s) with (snd (claim d filters now ackWait maxDeliver s)).
  destruct (claim d filters now ackWait maxDeliver s) as [r s']. cbn [fst snd] in *.
  assert (stream_equiv s' (match r with Some i => rewrite_msg i (handed (is_wq s) d now ackWait) s | None => s end)) as He.
  { destruct (stDurables s !! d); [by destruct H | by destruct H as [-> ->]]. }
  clear H. apply (moved_equiv _ _ _ _ _ He). clear He. destruct r as [i |].
  - split.
    + cbn [leaves o]. by apply live_rewrite_not, handed_body.
    + intros d'. cbn [record_after o]. fold o. rewrite Hh, rewrite_at. repeat case_decide; try naive_solver.
      all: unfold handed, claimed; destruct (is_wq s); rewrite ?state_of_on.
      all: change (state_of ((on_state d (hand_out now ackWait) (msg_at s j)) <| mmClaim := d |>) d')
        with (state_of (on_state d (hand_out now ackWait) (msg_at s j)) d'); rewrite ?state_of_on; case_decide; naive_solver.
    + cbn [claim_after o]. fold o. rewrite Hh, rewrite_at. unfold handed, claimed. destruct (is_wq s); repeat case_decide; naive_solver.
    + rewrite rewrite_at. case_decide; [| done]. unfold handed, claimed. by destruct (is_wq s).
  - split; try done.
    + cbn. by rewrite andb_true_r.
    + intros d'. cbn [record_after o]. fold o. rewrite Hh. case_decide; naive_solver.
    + cbn [claim_after o]. fold o. rewrite Hh. case_decide; naive_solver.
Qed.

Lemma lapsed_moved d filters now maxDeliver :
  moved (SLapsed d filters now maxDeliver) s j (exec (SLapsed d filters now maxDeliver) s).
Proof using Hs Hj.
  set (o := SLapsed d filters now maxDeliver).
  assert (exec o s = snd (lapsed d filters now maxDeliver s)) as -> by done.
  assert (reports o s = fst (lapsed d filters now maxDeliver s)) as Hr by done. rewrite lapsed_run in * by done.
  destruct (maxDeliver <=? 0).
  - cbn [fst snd] in *. split; try done.
    + cbn [leaves o]. fold o. rewrite Hr. unfold reports. cbn. by rewrite andb_false_r, andb_true_r.
    + intros d'. cbn [record_after o]. fold o. rewrite Hr. case_decide as Hd; [| done]. by destruct Hd as [_ Hd%elem_of_nil].
  - cbv zeta in *. cbn [fst snd] in *. set (out := lapses s d filters now maxDeliver) in *.
    assert (forall d', state_of (msg_at (rewrite_where (fun k => bool_decide (k ∈ out)) (on_state d giveup) s) j) d'
      = record_after o s j d') as Hrec.
    { intros d'. cbn [record_after o]. fold o. rewrite Hr, where_at.
      rewrite (bool_decide_eq_true_2 (j < _)%nat) by done. rewrite andb_true_r.
      destruct (decide (j ∈ out)) as [Hi | Hi].
      - rewrite bool_decide_eq_true_2 by done. rewrite state_of_on. repeat case_decide; naive_solver.
      - rewrite bool_decide_eq_false_2 by done. case_decide; naive_solver. }
    assert (mmClaim (msg_at (rewrite_where (fun k => bool_decide (k ∈ out)) (on_state d giveup) s) j) = mmClaim (msg_at s j) /\
      same_body (msg_at (rewrite_where (fun k => bool_decide (k ∈ out)) (on_state d giveup) s) j) (msg_at s j) /\
      live (rewrite_where (fun k => bool_decide (k ∈ out)) (on_state d giveup) s) j = live s j) as (Hc & Hb & Hl).
    { unfold live. rewrite where_at. by case_match. }
    assert (leaves o s j = is_wq s && bool_decide (j ∈ out)) as Hlv by (cbn [leaves o]; fold o; by rewrite Hr).
    destruct (is_wq s) eqn:Ew; split.
    + by rewrite live_drop, Hl, Hlv.
    + intros d'. rewrite drop_at. case_match; [rewrite (proj1 (removed_record _ _)) |]; apply Hrec.
    + rewrite drop_at. case_match; exact Hc.
    + rewrite drop_at. case_match; exact Hb.
    + by rewrite Hl, Hlv, andb_true_r.
    + apply Hrec.
    + exact Hc.
    + exact Hb.
Qed.

Lemma at_moved (o : sop) i d f :
  (forall s', leaves o s' j = false) -> (forall d', record_after o s j d' = if decide (d = d' /\ i = j) then f (state_of (msg_at s j) d') else state_of (msg_at s j) d') ->
  claim_after o s j = mmClaim (msg_at s j) -> moved o s j (rewrite_msg i (on_state d f) s).
Proof using Hj.
  intros Hl Hr Hc. split.
  - rewrite Hl. by apply live_rewrite_not.
  - intros d'. rewrite Hr, rewrite_at. destruct (decide (i = j /\ (i < length (stHeap s))%nat)) as [H1 | H1]; [rewrite state_of_on |]; repeat case_decide; naive_solver.
  - clear Hr. rewrite Hc, rewrite_at. by case_decide.
  - clear Hr. rewrite rewrite_at. by case_decide.
Qed.

Lemma ack_moved i d : moved (SAck i d) s j (exec (SAck i d) s).
Proof using Hs Hj.
  cbn [exec]. rewrite ack_run by done. cbn [snd].
  assert (forall d', state_of (msg_at (rewrite_msg i (on_state d settle) s) j) d' = record_after (SAck i d) s j d') as Hrec.
  { intros d'. cbn [record_after]. rewrite rewrite_at. destruct (decide (i = j /\ (i < length (stHeap s))%nat)) as [H1 | H1]; [rewrite state_of_on |]; repeat case_decide; naive_solver. }
  assert (mmClaim (msg_at (rewrite_msg i (on_state d settle) s) j) = mmClaim (msg_at s j) /\
    same_body (msg_at (rewrite_msg i (on_state d settle) s) j) (msg_at s j)) as [Hc Hb] by (rewrite rewrite_at; by case_decide).
  destruct (is_wq s) eqn:Ew; cbn [id]; split.
  - cbn [leaves]. rewrite live_drop, live_rewrite, Ew by done. by rewrite Nat.eqb_sym.
  - intros d'. rewrite drop_at. case_match; apply Hrec.
  - rewrite drop_at. case_match; exact Hc.
  - rewrite drop_at. case_match; exact Hb.
  - cbn [leaves]. rewrite live_rewrite, Ew by done. by rewrite andb_true_r.
  - exact Hrec.
  - exact Hc.
  - exact Hb.
Qed.

Lemma nak_moved i d now delay : moved (SNak i d now delay) s j (exec (SNak i d now delay) s).
Proof using Hs Hj.
  cbn [exec]. rewrite nak_run. cbn [snd].
  assert (keeps_body (fun m => claimed (is_wq s) d (on_state d (hold (Add now delay)) m))) as Hk.
  { intros m. unfold claimed. by destruct (is_wq s). }
  split.
  - by apply live_rewrite_not.
  - intros d'. cbn [record_after]. rewrite rewrite_at.
    assert (forall m, state_of (claimed (is_wq s) d m) d' = state_of m d') as Hcl by (intros m; unfold claimed; by destruct (is_wq s)).
    destruct (decide (i = j /\ (i < length (stHeap s))%nat)) as [H1 | H1]; [rewrite Hcl, state_of_on |]; repeat case_decide; naive_solver.
  - cbn [claim_after]. rewrite rewrite_at. unfold claimed. destruct (is_wq s); repeat case_decide; naive_solver.
  - rewrite rewrite_at. case_decide; [| done]. destruct (Hk (msg_at s j)) as (? & ? & ? & ? & ? & _). done.
Qed.

Lemma forget_in_record d m d' :
  state_of (forget_in d m) d' = if decide (d = d') then zero_consumerState else state_of m d'.
Proof.
  unfold state_of. assert (mmState (forget_in d m) = delete d (mmState m)) as -> by (unfold forget_in; by case_match).
  case_decide as H; [subst; by rewrite lookup_delete_eq | by rewrite lookup_delete_ne].
Qed.

Lemma forget_in_claim d m : mmClaim (forget_in d m) = if decide (mmClaim m = d) then "" else mmClaim m.
Proof.
  unfold forget_in. destruct (String.eqb_spec (mmClaim m) d) as [H | H].
  - by rewrite decide_True.
  - by rewrite decide_False.
Qed.

Lemma forget_moved d : moved (SForget d) s j (exec (SForget d) s).
Proof using Hs Hj.
  cbn [exec]. rewrite forget_run by done. cbn [snd]. set (s0 := s <| stDurables ::= delete d |>).
  assert (msg_at (rewrite_where (live s) (forget_in d) s0) j = if live s j then forget_in d (msg_at s j) else msg_at s j) as Hat.
  { rewrite where_at. rewrite (bool_decide_eq_true_2 (j < _)%nat) by done. by rewrite andb_true_r. }
  split.
  - cbn [leaves]. rewrite andb_true_r. unfold live at 1. rewrite Hat. destruct (live s j) eqn:El; [| exact El].
    destruct (forget_body d (msg_at s j)) as (_ & _ & _ & _ & _ & ->). exact El.
  - intros d'. rewrite Hat. cbn [record_after]. destruct (live s j); [rewrite forget_in_record |]; repeat case_decide; naive_solver.
  - rewrite Hat. cbn [claim_after]. destruct (live s j); [rewrite forget_in_claim |]; repeat case_decide; naive_solver.
  - rewrite Hat. destruct (live s j); [| done]. destruct (forget_body d (msg_at s j)) as (? & ? & ? & ? & ? & _). done.
Qed.

Lemma exec_moved o : moved o s j (exec o s).
Proof using Hs Hj.
  destruct o.
  - apply publish_moved.
  - apply claim_moved.
  - apply lapsed_moved.
  - apply ack_moved.
  - apply nak_moved.
  - cbn [exec]. rewrite inProgress_run. by apply at_moved.
  - apply (at_moved _ i d id); try done. intros d'. by case_decide.
  - apply forget_moved.
  - split; try done. cbn. by rewrite andb_true_r.
  - cbn [exec]. rewrite purge_run by done. cbn [snd]. split; [apply live_drop | intros d' | |];
      rewrite drop_at; by case_match.
Qed.
End Exec.

(** ** What operations leave alone *)

Definition stores (o : sop) (s : stream) : bool :=
  match o with SPublish now _ env _ => accepts s now env | _ => false end.

Lemma exec_frame o s : stream_ok s ->
  stSpec (exec o s) = stSpec s /\
  stDurables (exec o s) = match o with
    | SForget d => delete d (stDurables s)
    | SBind d filters maxAckPending timing => <[d := mkDurable filters (Z.max maxAckPending 1) timing]> (stDurables s)
    | _ => stDurables s
    end /\
  length (stHeap (exec o s)) = (length (stHeap s) + if stores o s then 1 else 0)%nat.
Proof.
  intros Hs. destruct o; cbn [exec].
  - rewrite publish_run by done. unfold stores, accepts. destruct (duplicate _ _ _); [split_and!; [done.. | cbn; lia] |].
    destruct (full _ _); [split_and!; [done.. | cbn; lia] |]. cbv zeta. cbn [snd negb]. rewrite drop_length. destruct (prune_frame now (push_msg now subject env scheduleAt s)) as (E1 & _ & _ & _ & E5 & E6).
    split_and!; [exact E5 | exact E6 |]. rewrite E1, push_length. lia.
  - pose proof (claim_run d filters now ackWait maxDeliver s) as H. destruct (claim d filters now ackWait maxDeliver s) as [r s'].
    destruct (stDurables s !! d) as [du |]; [| destruct H as [_ ->]; split_and!; [done.. | cbn; lia]]. destruct H as [_ H]. cbn [snd].
    rewrite (se_spec _ _ H), (se_durables _ _ H), (se_length _ _ H). destruct r; rewrite ?rewrite_length; split_and!; [done.. | cbn; lia].
  - rewrite lapsed_run by done. destruct (maxDeliver <=? 0); [split_and!; [done.. | cbn; lia] |]. cbv zeta. cbn [snd].
    destruct (is_wq s); rewrite ?drop_length, where_length; split_and!; [done.. | cbn; lia].
  - rewrite ack_run by done. cbn [snd]. destruct (is_wq s); cbn [id]; rewrite ?drop_length, rewrite_length; split_and!; [done.. | cbn; lia].
  - rewrite nak_run. cbn [snd]. rewrite rewrite_length. split_and!; [done.. | cbn; lia].
  - rewrite inProgress_run. cbn [snd]. rewrite rewrite_length. split_and!; [done.. | cbn; lia].
  - unfold attemptOf, bind. rewrite stateFor_run. cbn [snd]. change (snd (ret _ ?s)) with s. rewrite rewrite_length. split_and!; [done.. | cbn; lia].
  - rewrite forget_run by done. cbn [snd]. rewrite where_length. split_and!; [done.. | cbn; lia].
  - split_and!; [done.. | cbn; lia].
  - rewrite purge_run by done. cbn [snd]. rewrite drop_length. split_and!; [done.. | cbn; lia].
Qed.

Lemma exec_moves o s : stream_ok s -> stSpec (exec o s) = stSpec s.
Proof. intros Hs. by apply exec_frame. Qed.

Lemma run_spec ops s : stream_ok s -> stSpec (run ops s) = stSpec s.
Proof. revert s. induction ops as [| o ops IH]; intros s Hs; [done |]. rewrite run_cons, IH by (by apply exec_ok). by apply exec_moves. Qed.

Lemma exec_length o s : stream_ok s -> (length (stHeap s) <= length (stHeap (exec o s)))%nat.
Proof. intros Hs. destruct (exec_frame o s Hs) as (_ & _ & ->). lia. Qed.

(** A message stored by this operation has no delivery records. *)
Lemma exec_new o s j d : stream_ok s -> (length (stHeap s) <= j)%nat -> state_of (msg_at (exec o s) j) d = zero_consumerState.
Proof.
  intros Hs Hj. destruct (exec_frame o s Hs) as (_ & _ & Hl).
  destruct (stores o s) eqn:Est; [| by rewrite msg_at_ge by lia].
  destruct o; try done. cbn [exec]. cbn [stores] in Est. unfold accepts in Est. rewrite publish_run by done.
  destruct (duplicate _ _ _); [done |]. destruct (full _ _); [done |]. cbv zeta. cbn [snd]. rewrite drop_at.
  set (s1 := push_msg now subject env scheduleAt s).
  assert (state_of (msg_at (prune now s1) j) d = zero_consumerState) as H; [| by case_match].
  unfold msg_at. destruct (prune_frame now s1) as (-> & _). change (state_of (msg_at s1 j) d = zero_consumerState).
  unfold s1. rewrite push_at. case_match; [done |]. by rewrite msg_at_ge.
Qed.
