(* ===== verification/StreamFacts.v ===== *)
(** * StreamFacts: what a stream promises over any run of its operations

    How much it holds, how often it hands a message to a durable, when a message
    may leave it, and that nothing is stuck in it. *)

From S2P Require Import Prelude GoLang Events KV Subjects Topology Settle Stream StreamOps StreamRuns.
From Stdlib Require Import Ascii.

(** ** Helpers *)

(** The handouts of message [i] to durable [d] in a run. *)
Fixpoint handouts (d : string) (i : nat) (ops : list sop) (s : stream) : Z :=
  match ops with
  | [] => 0
  | o :: ops =>
      (match o with
       | SClaim d' _ _ _ _ => if decide (d' = d /\ hands o s = Some i) then 1 else 0
       | _ => 0
       end) + handouts d i ops (exec o s)
  end.

(** A run in which durable [d] is not deleted. *)
Definition keeps_durable (d : string) (ops : list sop) : Prop := forall d', SForget d' ∈ ops -> d' <> d.

(** A run in which durable [d] is only asked for with at most [n] deliveries. *)
Definition budgeted (d : string) (n : Z) (ops : list sop) : Prop :=
  forall filters now ackWait n', SClaim d filters now ackWait n' ∈ ops -> 0 < n' <= n.

Lemma keeps_cons d o ops : keeps_durable d (o :: ops) -> keeps_durable d ops.
Proof. intros H d' Hd. apply H. by right. Qed.

Lemma budgeted_cons d n o ops : budgeted d n (o :: ops) -> budgeted d n ops.
Proof. intros H f now aw n' Hd. apply (H f now aw n'). by right. Qed.

Section Hands.
Context (d : string) (filters : list string) (now : Time) (ackWait : Z -> Duration) (maxDeliver : Z) (s : stream).

(** Whether the durable is at its cap. *)
Definition capped : bool :=
  match stDurables s !! d with Some du => duMaxAckPending du <=? unsettledLocked s d | None => true end.

Definition fit (i : nat) : bool := candidate (is_wq s) capped d filters now maxDeliver (msg_at s i).

Lemma hands_find : hands (SClaim d filters now ackWait maxDeliver) s =
  if bool_decide (is_Some (stDurables s !! d)) then List.find fit (stMsgs s) else None.
Proof.
  unfold fit, capped. pose proof (claim_run d filters now ackWait maxDeliver s) as H. cbn [hands].
  destruct (claim d filters now ackWait maxDeliver s) as [r s'].
  destruct (stDurables s !! d) as [du |]; [by destruct H as [-> _] | by destruct H as [-> _]].
Qed.

Lemma hands_fit i : hands (SClaim d filters now ackWait maxDeliver) s = Some i ->
  is_Some (stDurables s !! d) /\ i ∈ stMsgs s /\ fit i = true.
Proof.
  rewrite hands_find. case_bool_decide as Hd; [| done]. intros H%find_some. destruct H as [Hi Hf].
  split_and!; [done | by apply list_elem_of_In | done].
Qed.
End Hands.

Lemma hands_at o s i : stream_ok s -> hands o s = Some i -> (i < length (stHeap s))%nat.
Proof.
  intros Hs H. destruct o; try done. apply hands_fit in H as (_ & Hi & _).
  apply live_lt. by apply elem_of_msgs.
Qed.

Lemma reports_at d filters now maxDeliver s i : stream_ok s -> i ∈ reports (SLapsed d filters now maxDeliver) s ->
  live s i = true /\ 0 < maxDeliver /\ has_lapsed (is_wq s) d filters now maxDeliver (msg_at s i) = true.
Proof.
  intros Hs. cbn [reports]. rewrite lapsed_run by done. destruct (maxDeliver <=? 0) eqn:E; [by intros ?%elem_of_nil |].
  cbv zeta. cbn [fst]. unfold lapses. intros H%list_elem_of_In%filter_In. destruct H as [Hi%list_elem_of_In Hl].
  split_and!; [by apply elem_of_msgs | by bools; lia | done].
Qed.

(** A durable's record over one operation. *)
Lemma exec_record o s j d : stream_ok s ->
  state_of (msg_at (exec o s) j) d =
    if bool_decide (j < length (stHeap s))%nat then record_after o s j d else zero_consumerState.
Proof.
  intros Hs. case_bool_decide as Hj; [apply (exec_moved s Hs j Hj o) | apply exec_new; [done | lia]].
Qed.

Lemma state_none s j d : (length (stHeap s) <= j)%nat -> state_of (msg_at s j) d = zero_consumerState.
Proof. intros H. by rewrite msg_at_ge. Qed.

(** Deliveries are counted one by one. *)
Lemma exec_attempts o s j d : stream_ok s -> (forall d', o = SForget d' -> d' <> d) ->
  coAttempts (state_of (msg_at (exec o s) j) d) = coAttempts (state_of (msg_at s j) d) + handouts d j [o] s.
Proof.
  intros Hs Hf. rewrite exec_record by done. case_bool_decide as Hj.
  - destruct o; cbn [record_after handouts]; repeat case_decide; cbn; try lia. naive_solver.
  - rewrite state_none by lia. destruct o; cbn [handouts]; try done. case_decide as Hd; [| done].
    destruct Hd as [_ Hh]. by apply hands_at in Hh.
Qed.

Lemma run_attempts ops s j d : stream_ok s -> keeps_durable d ops ->
  coAttempts (state_of (msg_at (run ops s) j) d) = coAttempts (state_of (msg_at s j) d) + handouts d j ops s.
Proof.
  revert s. induction ops as [| o ops IH]; intros s Hs Hk; [cbn; lia |].
  rewrite run_cons, IH; [| by apply exec_ok | by apply keeps_cons in Hk].
  rewrite exec_attempts; [cbn [handouts]; lia | done |]. intros d' ->. apply Hk. by left.
Qed.

(** A settled record stays settled, unless its durable is deleted. *)
Lemma exec_settled o s j d : stream_ok s -> (forall d', o = SForget d' -> d' <> d) ->
  coSettled (state_of (msg_at s j) d) = true -> coSettled (state_of (msg_at (exec o s) j) d) = true.
Proof.
  intros Hs Hf Hj. rewrite exec_record by done. case_bool_decide as Hlt; [| by rewrite state_none in Hj by lia].
  destruct o; cbn [record_after]; repeat case_decide; cbn; try done. naive_solver.
Qed.

Lemma settled_run_on ops s j d : stream_ok s -> keeps_durable d ops ->
  coSettled (state_of (msg_at s j) d) = true -> coSettled (state_of (msg_at (run ops s) j) d) = true.
Proof.
  revert s. induction ops as [| o ops IH]; intros s Hs Hk Hj; [done |].
  rewrite run_cons. apply IH; [by apply exec_ok | by apply keeps_cons in Hk |].
  apply exec_settled; [done | | done]. intros d' ->. apply Hk. by left.
Qed.

(** ** Theorems *)

(** C19.  However a stream is used, a durable that is not deleted is handed one
    message at most as often as its delivery budget allows, redeliveries after a
    nak, after a missed deadline and after a handler lost the message
    included. *)
Theorem deliveries_within_budget spec ops d n i :
  0 <= n -> keeps_durable d ops -> budgeted d n ops -> handouts d i ops (new_stream spec) <= n.
Proof.
  intros Hn Hk Hb.
  assert (forall s, stream_ok s -> coAttempts (state_of (msg_at s i) d) <= n ->
    coAttempts (state_of (msg_at s i) d) + handouts d i ops s <= n) as H.
  { clear spec. revert Hk Hb. induction ops as [| o ops IH]; intros Hk Hb s Hs Hle; [cbn; lia |].
    specialize (IH (keeps_cons _ _ _ Hk) (budgeted_cons _ _ _ _ Hb) (exec o s) (exec_ok o s Hs)).
    rewrite exec_attempts in IH by (done || (intros d' ->; apply Hk; by left)).
    enough (coAttempts (state_of (msg_at s i) d) + handouts d i [o] s <= n) by (cbn [handouts] in *; lia).
    destruct o; cbn [handouts]; try lia. case_decide as Hh; [| lia]. destruct Hh as [-> Hh].
    apply hands_fit in Hh as (_ & _ & Hfit). unfold fit, candidate, deliverable in Hfit.
    specialize (Hb filters now ackWait maxDeliver (list_elem_of_here _ _)).
    repeat case_match; bools; try done; lia. }
  specialize (H (new_stream spec) (new_ok spec)). rewrite state_none in H by (cbn; lia). cbn in H. lia.
Qed.

(** C20.  A delivery that was acknowledged, or whose final delivery was reported
    lapsed, is final: until the durable is deleted, the message is never handed
    to it again nor reported lapsed again. *)
Theorem settled_is_final s o ops d filters now ackWait maxDeliver i :
  stream_ok s -> (i < length (stHeap s))%nat ->
  o = SAck i d \/ (exists filters now n, o = SLapsed d filters now n /\ i ∈ reports o s) ->
  keeps_durable d ops ->
  let s' := run ops (exec o s) in
  hands (SClaim d filters now ackWait maxDeliver) s' <> Some i /\
  i ∉ reports (SLapsed d filters now maxDeliver) s'.
Proof.
  intros Hs Hi Ho Hk. cbv zeta.
  assert (stream_ok (run ops (exec o s))) as Hok by (by apply run_ok, exec_ok).
  assert (coSettled (state_of (msg_at (run ops (exec o s)) i) d) = true) as Hset.
  { apply settled_run_on; [by apply exec_ok | done |]. rewrite exec_record, bool_decide_eq_true_2 by done.
    destruct Ho as [-> | (f & t & n & -> & Hr)]; cbn [record_after]; by rewrite decide_True. }
  split.
  - intros (_ & _ & Hf)%hands_fit. unfold fit, candidate, deliverable in Hf. rewrite Hset in Hf. cbn in Hf. bools. done.
  - intros (_ & _ & Hl)%reports_at; [| done]. apply lapsed_state in Hl as (cs & Hcs & Hn & _).
    unfold state_of in Hset. rewrite Hcs in Hset. cbn in Hset. congruence.
Qed.

(** ** Deliveries in flight *)

(** The messages durable [d] was handed and has not settled. *)
Definition in_flight (s : stream) (d : string) : list nat :=
  List.filter (fun i => is_unsettled d (msg_at s i)) (stMsgs s).

Lemma unsettled_record d m :
  is_unsettled d m = negb (mmRemoved m) && (0 <? coAttempts (state_of m d)) && negb (coSettled (state_of m d)).
Proof. unfold is_unsettled, state_of. destruct (mmState m !! d); cbn; [done |]. by rewrite andb_false_r. Qed.

Lemma elem_of_in_flight s d i : stream_ok s ->
  i ∈ in_flight s d <-> live s i = true /\ 0 < coAttempts (state_of (msg_at s i) d) /\ coSettled (state_of (msg_at s i) d) = false.
Proof.
  intros Hs. unfold in_flight. rewrite list_elem_of_In, filter_In, <- list_elem_of_In, elem_of_msgs by done.
  rewrite unsettled_record. unfold live. rewrite !andb_true_iff, !negb_true_iff, Z.ltb_lt. tauto.
Qed.

Lemma NoDup_in_flight s d : stream_ok s -> NoDup (in_flight s d).
Proof. intros Hs. apply NoDup_ListNoDup, List.NoDup_filter, NoDup_ListNoDup. by apply NoDup_msgs. Qed.

Lemma NoDup_length {A} (l k : list A) : NoDup l -> (forall x, x ∈ l -> x ∈ k) -> (length l <= length k)%nat.
Proof. intros Hl Hi. apply submseteq_length, NoDup_submseteq; [done | exact Hi]. Qed.

(** Deliveries counted so far are never negative. *)
Definition counts_ok (s : stream) (d : string) : Prop := forall i, 0 <= coAttempts (state_of (msg_at s i) d).

Lemma counts_exec o s d : stream_ok s -> counts_ok s d -> counts_ok (exec o s) d.
Proof.
  intros Hs Hc i. rewrite exec_record by done. case_bool_decide; [| done]. specialize (Hc i).
  destruct o; cbn [record_after]; repeat case_decide; cbn; lia.
Qed.

(** What an operation puts in flight: the message it hands out, if that was not
    in flight already. *)
Lemma in_flight_exec o s d i : stream_ok s -> i ∈ in_flight (exec o s) d ->
  i ∈ in_flight s d \/ (exists f t w n, o = SClaim d f t w n) /\ hands o s = Some i.
Proof.
  intros Hs (Hl & Ha & Hst)%elem_of_in_flight; [| by apply exec_ok].
  rewrite exec_record in Ha, Hst by done. case_bool_decide as Hj; [| done].
  rewrite (mv_live _ _ _ _ (exec_moved s Hs i Hj o)) in Hl. bools.
  rewrite elem_of_in_flight by done. revert Ha Hst.
  destruct o; cbn [record_after]; repeat case_decide; cbn; try tauto; try done. naive_solver.
Qed.

(** A run in which durable [d] is always bound with the same cap. *)
Definition bound_with (d : string) (n : Z) (ops : list sop) : Prop :=
  forall filters n' timing, SBind d filters n' timing ∈ ops -> n' = n.

Record within_cap (d : string) (n : Z) (s : stream) : Prop := {
  wc_ok : stream_ok s;
  wc_counts : counts_ok s d;
  wc_cap : forall du, stDurables s !! d = Some du -> duMaxAckPending du = Z.max n 1;
  wc_flight : Z.of_nat (length (in_flight s d)) <= Z.max n 1;
}.

Lemma within_cap_exec o s d n : (forall filters n' timing, o = SBind d filters n' timing -> n' = n) ->
  within_cap d n s -> within_cap d n (exec o s).
Proof.
  intros Ho [Hs Hc Hcap Hf]. destruct (exec_frame o s Hs) as (_ & Hdu & _). split.
  - by apply exec_ok.
  - by apply counts_exec.
  - intros du. rewrite Hdu. destruct o; try apply Hcap.
    + intros [_ H]%lookup_delete_Some. by apply Hcap.
    + rewrite lookup_insert. case_decide as Hd; [| apply Hcap]. subst. intros [= <-]. by rewrite (Ho _ _ _ eq_refl).
  - pose proof (NoDup_in_flight (exec o s) d (exec_ok o s Hs)) as Hn.
    pose proof (fun i => in_flight_exec o s d i Hs) as Hi.
    destruct (decide (length (in_flight (exec o s) d) <= length (in_flight s d))%nat) as [| Hgt]; [lia |].
    assert (exists i, i ∈ in_flight (exec o s) d /\ i ∉ in_flight s d) as (i & Hi1 & Hi2).
    { destruct (decide (Forall (fun i => i ∈ in_flight s d) (in_flight (exec o s) d))) as [H | H].
      - destruct Hgt. apply NoDup_length; [done |]. by apply list.Forall_forall.
      - apply not_Forall_Exists in H; [| apply _]. by apply list.Exists_exists in H. }
    destruct (Hi i Hi1) as [| [(f & t & w & m & ->) Hh]]; [done |].
    assert (length (in_flight (exec (SClaim d f t w m) s) d) <= S (length (in_flight s d)))%nat as Hle.
    { apply (NoDup_length _ (i :: in_flight s d) Hn). intros j Hj. apply list.elem_of_cons.
      destruct (Hi j Hj) as [| [_ Hj']]; [by right | left; congruence]. }
    apply hands_fit in Hh as ([du Hd] & Him & Hfit). specialize (Hcap du Hd).
    unfold fit, capped, candidate, deliverable in Hfit. rewrite Hd, Hcap in Hfit.
    change (unsettledLocked s d) with (Z.of_nat (length (in_flight s d))) in Hfit.
    destruct (Z.max n 1 <=? Z.of_nat (length (in_flight s d))) eqn:E; bools; [| lia].
    exfalso. apply Hi2, elem_of_in_flight; [done |]. rewrite <- elem_of_msgs by done. specialize (Hc i).
    repeat case_match; bools; try done. split_and!; [done | | done]. cbn in *. lia.
Qed.

(** A durable never has more unsettled deliveries in flight than the cap it
    is bound with, over every subscription and puller it serves. *)
Theorem in_flight_within_cap spec ops d n :
  bound_with d n ops ->
  unsettledLocked (run ops (new_stream spec)) d <= Z.max n 1.
Proof.
  intros Hb.
  assert (forall s, within_cap d n s -> within_cap d n (run ops s)) as H.
  { clear spec. induction ops as [| o ops IH]; intros s Hs; [done |]. rewrite run_cons. apply IH.
    - intros f n' tm H. apply (Hb f n' tm). by right.
    - apply within_cap_exec; [| done]. intros f n' tm ->. apply (Hb f n' tm). by left. }
  apply (wc_flight d n), H. split;
    [by apply new_ok | intros i; by rewrite state_none by (cbn; lia) | done | cbn; lia].
Qed.

(** ** Draining *)

(** Claims until nothing is ready. *)
Fixpoint drain (fuel : nat) (d : string) (filters : list string) (now : Time) (ackWait : Z -> Duration)
    (maxDeliver : Z) : M stream (list nat) :=
  match fuel with
  | O => ret []
  | S fuel =>
      bind (claim d filters now ackWait maxDeliver) (fun r =>
        match r with
        | None => ret []
        | Some i => bind (drain fuel d filters now ackWait maxDeliver) (fun out => ret (i :: out))
        end)
  end.

Lemma find_filter {A} (p : A -> bool) l : List.find p l = head (List.filter p l).
Proof. induction l as [| x l IH]; [done |]. cbn. by destruct (p x). Qed.

(** A candidate taken out of the candidates. *)
Lemma filter_without (p q : nat -> bool) i l k : NoDup l -> List.filter p l = i :: k ->
  q i = false -> (forall j, j <> i -> q j = p j) -> List.filter q l = k.
Proof.
  intros Hn Hl Hi Hq. revert Hl. induction Hn as [| x l Hx Hn IH]; [done |]. cbn.
  destruct (decide (x = i)) as [-> | Hne].
  - rewrite Hi. destruct (p i); intros Hl.
    + injection Hl as <-. apply List.filter_ext_in. intros j Hj%list_elem_of_In. apply Hq. by intros ->.
    + exfalso. apply Hx. assert (i ∈ List.filter p l) as H%list_elem_of_In by (rewrite Hl; by left).
      apply filter_In in H as [H _]. by apply list_elem_of_In.
  - rewrite Hq by done. destruct (p x); intros Hl; [by injection Hl | by apply IH].
Qed.

Section Drain.
Context (d : string) (filters : list string) (now : Time) (ackWait : Z -> Duration) (maxDeliver : Z).
Context (Hnow : 0 < now) (Hwait : forall k, 0 < ackWait k).

Definition ready (s : stream) (i : nat) : bool := candidate (is_wq s) false d filters now maxDeliver (msg_at s i).

(** A message just handed out is not ready. *)
Lemma handed_not_ready wq m : candidate wq false d filters now maxDeliver (handed wq d now ackWait m) = false.
Proof using Hnow Hwait.
  unfold candidate, deliverable. assert (state_of (handed wq d now ackWait m) d = hand_out now ackWait (state_of m d)) as ->.
  { unfold handed, claimed. destruct wq.
    - change (state_of (on_state d (hand_out now ackWait) m) d = hand_out now ackWait (state_of m d)).
      rewrite state_of_on. by case_decide.
    - rewrite state_of_on. by case_decide. }
  unfold due, hand_out. cbn. specialize (Hwait (Z.succ (coAttempts (state_of m d)))).
  unfold IsZero, Before, Add. rewrite (proj2 (Z.eqb_neq _ _)), (proj2 (Z.ltb_lt _ _)) by lia.
  cbn. by rewrite orb_true_r, andb_false_r.
Qed.

Lemma drain_run fuel s du : stream_ok s -> stDurables s !! d = Some du ->
  Z.of_nat (length (stMsgs s)) < duMaxAckPending du ->
  (length (List.filter (ready s) (stMsgs s)) <= fuel)%nat ->
  fst (drain fuel d filters now ackWait maxDeliver s) = List.filter (ready s) (stMsgs s).
Proof using Hnow Hwait.
  revert s. induction fuel as [| fuel IH]; intros s Hs Hd Hcap Hf.
  { by destruct (List.filter (ready s) (stMsgs s)); [| cbn in Hf; lia]. }
  cbn [drain]. unfold bind. pose proof (claim_run d filters now ackWait maxDeliver s) as H.
  destruct (claim d filters now ackWait maxDeliver s) as [r s']. rewrite Hd in H. destruct H as [Hr He].
  replace (duMaxAckPending du <=? unsettledLocked s d) with false in Hr.
  2: { symmetry. apply Z.leb_gt. unfold unsettledLocked.
    pose proof (filter_length_le (fun i => is_unsettled d (msg_at s i)) (stMsgs s)). lia. }
  rewrite find_filter in Hr. fold (ready s) in Hr. change (fun i => candidate _ _ _ _ _ _ (msg_at s i)) with (ready s) in Hr.
  destruct (List.filter (ready s) (stMsgs s)) as [| i k] eqn:Ek; cbn in Hr; subst r; [done |].
  assert (i ∈ stMsgs s) as Hi.
  { assert (i ∈ List.filter (ready s) (stMsgs s)) as H%list_elem_of_In by (rewrite Ek; by left).
    apply filter_In in H as [H _]. by apply list_elem_of_In. }
  assert (stMsgs s' = stMsgs s) as Em by apply (se_msgs _ _ He).
  assert (forall j, ready s' j = candidate (is_wq s) false d filters now maxDeliver (msg_at (rewrite_msg i (handed (is_wq s) d now ackWait) s) j)) as Hready.
  { intros j. unfold ready, is_wq. rewrite (se_spec _ _ He). apply candidate_equiv, (se_at _ _ He j). }
  assert (List.filter (ready s') (stMsgs s') = k) as Ek'.
  { rewrite Em. apply (filter_without (ready s) (ready s') i); [by apply NoDup_msgs | done | |].
    - rewrite Hready, rewrite_at, decide_True by (split; [done | by apply live_lt, elem_of_msgs]). apply handed_not_ready.
    - intros j Hj. rewrite Hready, rewrite_at, decide_False by naive_solver. done. }
  assert (stream_ok s') as Hs'.
  { apply (equiv_ok _ _ He), rewrite_ok; [apply handed_body | done]. }
  specialize (IH s' Hs'). rewrite Ek' in IH. rewrite Em, (se_durables _ _ He) in IH. specialize (IH Hd Hcap).
  cbn in Hf. specialize (IH ltac:(lia)). destruct (drain fuel d filters now ackWait maxDeliver s') as [out s'']. cbn in *. by subst.
Qed.
End Drain.

(** Claims repeated until nothing is ready hand out every message that is
    ready for the durable, each once and in the order of the stream, when the
    durable's cap leaves room and deliveries have a positive time to be
    acknowledged in; as many claims as the stream holds messages are enough. *)
Theorem claims_drain d filters now ackWait maxDeliver s du :
  0 < now -> (forall k, 0 < ackWait k) -> stream_ok s -> stDurables s !! d = Some du ->
  Z.of_nat (length (stMsgs s)) < duMaxAckPending du ->
  fst (drain (length (stMsgs s)) d filters now ackWait maxDeliver s)
    = List.filter (ready d filters now maxDeliver s) (stMsgs s).
Proof.
  intros Hnow Hw Hs Hd Hcap. apply (drain_run d filters now ackWait maxDeliver Hnow Hw _ s du); try done.
  apply filter_length_le.
Qed.

(** C27.  When a claim finds nothing for a durable and no final delivery of it has
    lapsed, nothing is stuck: every live message the durable's filters take is
    scheduled for later, held for another durable of a work queue, settled,
    waiting for a deadline or a delay that is not over, or waiting for its first
    delivery behind a durable that has as many unsettled messages as its cap
    lets it. *)
Theorem nothing_is_stuck d filters now ackWait maxDeliver s du i :
  stream_ok s -> stDurables s !! d = Some du ->
  hands (SClaim d filters now ackWait maxDeliver) s = None ->
  reports (SLapsed d filters now maxDeliver) s = [] ->
  live s i = true -> matchAny filters (mmSubject (msg_at s i)) = true ->
  Before now (mmDeliverAt (msg_at s i)) = true \/
  (is_wq s = true /\ mmClaim (msg_at s i) <> "" /\ mmClaim (msg_at s i) <> d) \/
  coSettled (state_of (msg_at s i) d) = true \/
  due (state_of (msg_at s i) d) now = false \/
  (coAttempts (state_of (msg_at s i) d) = 0 /\ duMaxAckPending du <= unsettledLocked s d).
Proof.
  intros Hs Hd Hh Hr Hl Hm. set (m := msg_at s i). set (cs := state_of m d).
  assert (i ∈ stMsgs s) as Hi by (by apply elem_of_msgs).
  assert (fit d filters now maxDeliver s i = false) as Hc.
  { rewrite hands_find, bool_decide_eq_true_2 in Hh by eauto.
    by apply (find_none _ _ Hh), list_elem_of_In. }
  assert (0 < maxDeliver -> has_lapsed (is_wq s) d filters now maxDeliver m = false) as Hg.
  { intros Hmax. apply not_true_is_false. intros Hg. cbn [reports] in Hr. rewrite lapsed_run in Hr by done.
    replace (maxDeliver <=? 0) with false in Hr by lia. cbv zeta in Hr. cbn [fst] in Hr.
    apply (not_elem_of_nil i). rewrite <- Hr. apply list_elem_of_In, filter_In. by rewrite <- list_elem_of_In. }
  unfold fit, capped in Hc. rewrite Hd in Hc. unfold candidate, claimable, deliverable in Hc. unfold has_lapsed in Hg.
  fold m in Hc, Hg, Hm. fold cs in Hc. unfold live in Hl. fold m in Hl. apply negb_true_iff in Hl. rewrite Hl, Hm in Hc, Hg.
  cbn [orb negb] in Hc, Hg. destruct (Before now (mmDeliverAt m)) eqn:Eb; [by left | right].
  rewrite andb_false_r in Hc.
  destruct (is_wq s && negb (String.eqb (mmClaim m) "") && negb (String.eqb (mmClaim m) d)) eqn:Ew.
  { left. bools. done. }
  right. destruct (coSettled cs) eqn:Es; [by left | right]. destruct (due cs now) eqn:Hdue; [right | by left].
  cbn [negb orb andb] in Hc. destruct ((duMaxAckPending du <=? unsettledLocked s d) && (coAttempts cs =? 0)) eqn:Ecap; [bools; lia |].
  exfalso. cbn in Hc. apply negb_false_iff, andb_true_iff in Hc as [Hmax Hatt]. apply Z.ltb_lt in Hmax. apply Z.leb_le in Hatt.
  specialize (Hg Hmax). unfold cs, state_of in Hatt, Es, Hdue.
  destruct (mmState m !! d) as [cs' |] eqn:Est; cbn in Hatt, Es, Hdue; [rewrite Es, Hdue in Hg; cbn in Hg; bools; lia | lia].
Qed.

(** ** Staying and leaving *)

(** The index of a sequence number. *)
Definition index (q : Z) : nat := Z.to_nat (q - 1).

Lemma message_at s q subject env : stream_ok s ->
  message s q = Some (subject, env) <->
  1 <= q /\ live s (index q) = true /\ mmSubject (msg_at s (index q)) = subject /\ mmEnv (msg_at s (index q)) = env.
Proof.
  intros Hs. unfold message.
  assert (forall i, i ∈ stMsgs s -> (mmSeq (msg_at s i) =? q) && negb (mmRemoved (msg_at s i)) = true -> 1 <= q /\ i = index q) as Hu.
  { intros i Hi Hq. apply elem_of_msgs, live_lt, msg_at_lt, (ok_seqs s Hs) in Hi as [Hi _]; [| done]. unfold index. bools. lia. }
  destruct (List.find _ (stMsgs s)) as [i |] eqn:E.
  - apply find_some in E as [Hi%list_elem_of_In Hq]. destruct (Hu i Hi Hq) as [H1 ->].
    apply elem_of_msgs in Hi; [| done]. split; [intros [= <- <-]; by split_and! | intros (_ & _ & -> & ->); done].
  - split; [done |]. intros (H1 & Hl & _). exfalso. assert (index q ∈ stMsgs s) as Hi by (by apply elem_of_msgs).
    apply list_elem_of_In in Hi. pose proof (find_none _ _ E _ Hi) as Hn. apply list_elem_of_In, elem_of_msgs, live_lt, msg_at_lt, (ok_seqs s Hs) in Hi as [Hi _]; [| done].
    unfold live in Hl. cbn in Hn. rewrite Hl, andb_true_r in Hn. unfold index in *. bools. lia.
Qed.

(** C35.  A stored message is not lost: it can be read back under its sequence
    number until it outlives the stream's age, is acknowledged on a work queue,
    is reported lapsed on a work queue, or its subject is purged. *)
Theorem stored_until_removed s o q subject env :
  stream_ok s -> message s q = Some (subject, env) ->
  message (exec o s) q <> Some (subject, env) ->
  (exists now s' e a, o = SPublish now s' e a /\ 0 < ssMaxAge (stSpec s) <= Sub now (evTime env)) \/
  (is_wq s = true /\ exists d, o = SAck (index q) d) \/
  (is_wq s = true /\ exists d f t n, o = SLapsed d f t n /\ index q ∈ reports o s) \/
  (exists p, o = SPurge p /\ SubjectMatches p subject = true).
Proof.
  intros Hs Hm Hne. apply message_at in Hm as (H1 & Hl & Hsub & He); [| done].
  rewrite message_at in Hne by (by apply exec_ok).
  destruct (exec_moved s Hs (index q) (live_lt _ _ Hl) o) as [Hlive _ _ (_ & Hsub' & He' & _)].
  rewrite Hlive, Hl, Hsub', He', Hsub, He in Hne. destruct (leaves o s (index q)) eqn:Elv; [clear Hne | by destruct Hne].
  destruct o; cbn [leaves] in Elv; try done; bools.
  - left. unfold expired, too_old in *. bools. rewrite He in *. eauto 10.
  - right; right; left. eauto 10.
  - right; left. apply Nat.eqb_eq in H0 as ->. eauto.
  - do 3 right. rewrite Hsub in Elv. eauto.
Qed.

(** ** Publishing once *)

Lemma publish_dedup o s id rec : stream_ok s -> 0 < ssDuplicates (stSpec s) -> id <> "" ->
  (forall now' s' e a, o = SPublish now' s' e a -> Sub now' (ddAt rec) < ssDuplicates (stSpec s)) ->
  stDedup s !! id = Some rec -> stDedup (exec o s) !! id = Some rec.
Proof.
  intros Hs Hw Hid Ho Hr. destruct o; cbn [exec].
  - rewrite publish_run by done. specialize (Ho _ _ _ _ eq_refl).
    destruct (duplicate _ _ _) eqn:Ed; [done |]. destruct (full _ _); [done |]. cbv zeta. cbn [snd].
    change (stDedup (drop_msgs ?p ?s1)) with (stDedup s1). set (s1 := push_msg now subject env scheduleAt s).
    assert (stDedup s1 !! id = Some rec) as H1.
    { change (stDedup s1) with (if String.eqb (evID env) "" then stDedup s else <[evID env := mkDedup (Z.succ (stSeq s)) now]> (stDedup s)).
      destruct (String.eqb_spec (evID env) ""); [done |]. rewrite lookup_insert_ne; [done |]. intros He.
      unfold duplicate in Ed. rewrite He, Hr in Ed. rewrite (proj2 (String.eqb_neq id "")) in Ed by done.
      rewrite (proj2 (Z.ltb_lt _ _) Hw), (proj2 (Z.ltb_lt _ _) Ho) in Ed. done. }
    unfold prune. change (stSpec s1) with (stSpec s). rewrite (proj2 (Z.ltb_lt _ _) Hw).
    apply map_lookup_filter_Some_2; done.
  - pose proof (claim_run d filters now ackWait maxDeliver s) as H. destruct (claim d filters now ackWait maxDeliver s) as [r s'].
    destruct (stDurables s !! d); [| by destruct H as [_ ->]]. destruct H as [_ H]. cbn [snd].
    rewrite (se_dedup _ _ H). by destruct r.
  - rewrite lapsed_run by done. destruct (maxDeliver <=? 0); [done |]. cbv zeta. cbn [snd]. by destruct (is_wq s).
  - rewrite ack_run by done. cbn [snd]. by destruct (is_wq s).
  - by rewrite nak_run.
  - by rewrite inProgress_run.
  - done.
  - by rewrite forget_run.
  - done.
  - by rewrite purge_run.
Qed.

(** One message per identifier and window: once a message was stored, a
    publish of the same identifier inside the window answers with its sequence
    number and stores nothing, whatever happened to the stream in between. *)
Theorem published_once s now subject env at_ ops q now2 subject2 env2 at2 :
  stream_ok s -> 0 < ssDuplicates (stSpec s) -> evID env <> "" ->
  fst (publish now subject env at_ s) = Some (mkReceipt q false) ->
  (forall t s' e a, SPublish t s' e a ∈ ops -> Sub t now < ssDuplicates (stSpec s)) ->
  evID env2 = evID env -> Sub now2 now < ssDuplicates (stSpec s) ->
  let s' := run ops (exec (SPublish now subject env at_) s) in
  publish now2 subject2 env2 at2 s' = (Some (mkReceipt q true), s').
Proof.
  intros Hs Hw Hid Hp Hops Hsame Hnow. cbv zeta.
  set (s1 := exec (SPublish now subject env at_) s). assert (stream_ok s1) as Hs1 by (by apply exec_ok).
  assert (stSpec s1 = stSpec s) as Espec by (by apply exec_moves).
  assert (stDedup s1 !! evID env = Some (mkDedup q now)) as Hd.
  { unfold s1. cbn [exec]. rewrite publish_run in * by done. destruct (duplicate s now (evID env)); [done |].
    destruct (full _ _); [done |]. cbv zeta in *. cbn [fst snd] in *. injection Hp as <-.
    change (stDedup (drop_msgs ?p ?s1)) with (stDedup s1). unfold prune.
    change (stSpec (push_msg now subject env at_ s)) with (stSpec s). rewrite (proj2 (Z.ltb_lt _ _) Hw).
    apply map_lookup_filter_Some_2.
    - cbn. rewrite (proj2 (String.eqb_neq _ _) Hid). apply lookup_insert_eq.
    - cbn. unfold Sub. rewrite Z.sub_diag. exact Hw. }
  assert (forall s2, stream_ok s2 -> stSpec s2 = stSpec s -> stDedup s2 !! evID env = Some (mkDedup q now) ->
    stream_ok (run ops s2) /\ stSpec (run ops s2) = stSpec s /\ stDedup (run ops s2) !! evID env = Some (mkDedup q now)) as Hrun.
  { clear -Hw Hid Hops. induction ops as [| o ops IH]; intros s2 Hs2 Hsp Hd2; [done |]. rewrite run_cons. apply IH.
    - intros t s' e a Hi. apply (Hops t s' e a). by right.
    - by apply exec_ok.
    - by rewrite exec_moves.
    - apply publish_dedup; [done | by rewrite Hsp | done | | done]. intros t s' e a ->. rewrite Hsp.
      apply (Hops t s' e a). by left. }
  destruct (Hrun s1 Hs1 Espec Hd) as (Hok & Hsp & Hd'). rewrite publish_run by done.
  unfold duplicate. rewrite Hsame, Hd', Hsp, (proj2 (String.eqb_neq _ _) Hid), (proj2 (Z.ltb_lt _ _) Hw).
  cbn. by rewrite (proj2 (Z.ltb_lt _ _) Hnow).
Qed.

(** ** Work queues *)

(** A work queue's message belongs to the durable it was handed to: no other
    durable is handed it until that durable is deleted, however often the
    delivery lapses or is nakked. *)
Theorem work_queue_exclusive s d d' i ops filters now ackWait n filters' now' ackWait' n' :
  stream_ok s -> is_wq s = true -> d <> "" -> d' <> d ->
  hands (SClaim d filters now ackWait n) s = Some i ->
  keeps_durable d ops -> (forall e t w, SNak i e t w ∈ ops -> e = d) ->
  hands (SClaim d' filters' now' ackWait' n') (run ops (exec (SClaim d filters now ackWait n) s)) <> Some i.
Proof.
  intros Hs Hw Hd Hne Hh Hk Hn. set (s1 := exec (SClaim d filters now ackWait n) s).
  pose proof (hands_at _ _ _ Hs Hh) as Hi.
  assert (forall o s2, stream_ok s2 -> is_wq s2 = true -> (i < length (stHeap s2))%nat -> mmClaim (msg_at s2 i) = d ->
    (forall e, o = SForget e -> e <> d) -> (forall e t w, o = SNak i e t w -> e = d) ->
    mmClaim (msg_at (exec o s2) i) = d) as Hstep.
  { clear -Hd. intros o s2 Hs2 Hw2 Hi2 Hc Hf Hn. rewrite (mv_claim _ _ _ _ (exec_moved s2 Hs2 i Hi2 o)).
    destruct o; cbn [claim_after]; try done; case_decide as Hx; try done; destruct Hx as [Hx1 Hx2].
    - apply hands_fit in Hx2 as (_ & _ & Hfit). unfold fit, candidate, claimable in Hfit. rewrite Hw2, Hc in Hfit.
      repeat case_match; bools; try done. cbn in *. bools. destruct (String.eqb_spec d ""), (String.eqb_spec d d0); done.
    - subst. by apply (Hn _ _ _ eq_refl).
    - exfalso. apply (Hf _ eq_refl). congruence. }
  assert (forall s2, stream_ok s2 -> is_wq s2 = true -> (i < length (stHeap s2))%nat -> mmClaim (msg_at s2 i) = d ->
    is_wq (run ops s2) = true /\ stream_ok (run ops s2) /\ mmClaim (msg_at (run ops s2) i) = d) as Hrun.
  { clear -Hk Hn Hstep. induction ops as [| o ops IH]; intros s2 Hs2 Hw2 Hi2 Hc; [done |]. rewrite run_cons. apply IH.
    - by apply keeps_cons in Hk.
    - intros e t w H. apply (Hn e t w). by right.
    - by apply exec_ok.
    - unfold is_wq. by rewrite exec_moves.
    - pose proof (exec_length o s2 Hs2). lia.
    - apply Hstep; try done; [intros e -> ; apply Hk; by left | intros e t w ->; apply (Hn e t w); by left]. }
  assert (mmClaim (msg_at s1 i) = d) as Hc1.
  { unfold s1. rewrite (mv_claim _ _ _ _ (exec_moved s Hs i Hi _)). cbn [claim_after]. by rewrite decide_True. }
  destruct (Hrun s1) as (Hw2 & Hs2 & Hc2); try done.
  { by apply exec_ok. }
  { unfold s1, is_wq. by rewrite exec_moves. }
  { unfold s1. pose proof (exec_length (SClaim d filters now ackWait n) s Hs). lia. }
  intros (_ & _ & Hfit)%hands_fit. unfold fit, candidate, claimable in Hfit. rewrite Hw2, Hc2 in Hfit.
  repeat case_match; bools; try done. cbn in *. bools. destruct (String.eqb_spec d ""), (String.eqb_spec d d'); done.
Qed.

(** ** Bytes *)

Lemma datasize_nonneg e : 0 <= datasize e.
Proof. unfold datasize. lia. Qed.

Lemma size_nonneg s i : stream_ok s -> i ∈ stMsgs s -> 0 <= mmSize (msg_at s i).
Proof.
  intros Hs Hi%elem_of_msgs%live_lt%msg_at_lt; [| done]. apply (ok_seqs s Hs) in Hi as [_ ->]. apply datasize_nonneg.
Qed.

Lemma total_filter s p : stream_ok s -> 0 <= total s (List.filter p (stMsgs s)).
Proof.
  intros Hs. assert (forall l, (forall i, i ∈ l -> i ∈ stMsgs s) -> 0 <= total s (List.filter p l)) as H; [| by apply H].
  induction l as [| i l IH]; intros Hl; [done |]. cbn.
  specialize (IH ltac:(intros; apply Hl; by right)). pose proof (size_nonneg s i Hs ltac:(apply Hl; by left)).
  destruct (p i); cbn; lia.
Qed.

Lemma drop_bytes p s : stream_ok s -> stBytes (drop_msgs p s) <= stBytes s.
Proof.
  intros Hs. change (stBytes (drop_msgs p s)) with (stBytes s - total s (List.filter p (stMsgs s))).
  pose proof (total_filter s p Hs). lia.
Qed.

Lemma exec_bytes o s : stream_ok s -> ssDiscard (stSpec s) = DiscardNew -> 0 < ssMaxBytes (stSpec s) ->
  stBytes s <= ssMaxBytes (stSpec s) -> stBytes (exec o s) <= ssMaxBytes (stSpec s).
Proof.
  intros Hs Hd Hm Hb. destruct o; cbn [exec].
  - rewrite publish_run by done. destruct (duplicate _ _ _); [done |]. destruct (full s (datasize env)) eqn:Ef; [done |].
    cbv zeta. cbn [snd]. etransitivity; [by apply drop_bytes, prune_ok, push_ok |].
    destruct (prune_frame now (push_msg now subject env scheduleAt s)) as (_ & _ & -> & _).
    change (stBytes s + datasize env <= ssMaxBytes (stSpec s)). unfold full in Ef.
    rewrite bool_decide_eq_true_2, (proj2 (Z.ltb_lt _ _) Hm) in Ef by done. cbn in Ef. by bools.
  - pose proof (claim_run d filters now ackWait maxDeliver s) as H. destruct (claim d filters now ackWait maxDeliver s) as [r s'].
    destruct (stDurables s !! d); [| by destruct H as [_ ->]]. destruct H as [_ H]. cbn [snd].
    rewrite (se_bytes _ _ H). by destruct r.
  - rewrite lapsed_run by done. destruct (maxDeliver <=? 0); [done |]. cbv zeta. cbn [snd].
    destruct (is_wq s); [| done]. etransitivity; [by apply drop_bytes, where_ok | done].
  - rewrite ack_run by done. cbn [snd]. destruct (is_wq s); [| done]. etransitivity; [by apply drop_bytes, rewrite_ok | done].
  - by rewrite nak_run.
  - by rewrite inProgress_run.
  - done.
  - by rewrite forget_run.
  - done.
  - rewrite purge_run by done. cbn [snd]. etransitivity; [by apply drop_bytes | done].
Qed.

(** C37.  However a stream is used, its list holds exactly its live messages,
    oldest first, under sequence numbers that count the messages ever stored;
    its byte count is the sum of their sizes; and a stream that refuses new
    messages when it is full never holds more than its limit. *)
Theorem stream_holds_its_limit spec ops :
  let s := run ops (new_stream spec) in
  stream_ok s /\ 0 <= stBytes s /\
  (ssDiscard spec = DiscardNew -> 0 < ssMaxBytes spec -> stBytes s <= ssMaxBytes spec).
Proof.
  cbv zeta. pose proof (run_ok ops _ (new_ok spec)) as Hs. split_and!; [done | |].
  - rewrite (ok_bytes _ Hs). pose proof (total_filter _ (fun _ => true) Hs) as H.
    assert (forall l : list nat, List.filter (fun _ => true) l = l) as E by (intros l; induction l as [| x l IH]; cbn; [done | by rewrite IH]).
    by rewrite E in H.
  - intros Hd Hm. assert (forall s, stream_ok s -> stSpec s = spec -> stBytes s <= ssMaxBytes spec ->
      stBytes (run ops s) <= ssMaxBytes spec) as H; [| by apply H; [apply new_ok | | cbn; lia]].
    clear Hs. induction ops as [| o ops IH]; intros s Hs Hsp Hb; [done |]. rewrite run_cons. apply IH.
    + by apply exec_ok.
    + by rewrite exec_moves.
    + rewrite <- Hsp. by apply exec_bytes; rewrite ?Hsp.
Qed.

(** ** At concrete streams *)

Definition ex_spec : StreamSpec :=
  mkStreamSpec "WORK" "" ["work.>"] RetentionWorkQueue StorageFile DiscardNew 100 8 50 1 false false false true.
Definition ex_env (id data : string) (at_ : Time) : Envelope :=
  mkEnvelope id "" "" "" "" at_ "" ∅ data.
Definition ex_timing : Timing := mkTiming 10 [] 3.
Definition ex_wait (k : Z) : Duration := 10.
Definition ex_ops : list sop :=
  [SBind "w" ["work.a"] 5 ex_timing; SPublish 1000 "work.a" (ex_env "one" "abcd" 1000) 0;
   SPublish 1001 "work.a" (ex_env "two" "abcd" 1001) 0].
Definition ex_stream : stream := run ex_ops (new_stream ex_spec).
Definition ex_claim : sop := SClaim "w" ["work.a"] 1010 ex_wait 3.

Lemma ex_stream_ok : stream_ok ex_stream.
Proof. apply run_ok, new_ok. Qed.

(** Distinguishes the operations of a concrete run. *)
Ltac in_run H := repeat (apply list.elem_of_cons in H as [H | H]; [try discriminate H; try (injection H; intros; subst) |]);
  try (by apply elem_of_nil in H).

Lemma deliveries_within_budget_witness :
  handouts "w" 0 (ex_ops ++ [ex_claim; SNak 0 "w" 1011 5; SClaim "w" ["work.a"] 1040 ex_wait 3]) (new_stream ex_spec) <= 3.
Proof.
  apply (deliveries_within_budget ex_spec _ "w" 3 0%nat); [lia | |].
  - intros d' H. in_run H.
  - intros f t w n H. in_run H; lia.
Defined.

Lemma settled_is_final_witness :
  hands (SClaim "w" ["work.a"] 1100 ex_wait 3) (run [ex_claim] (exec (SAck 0 "w") (run [ex_claim] ex_stream))) <> Some 0%nat.
Proof.
  apply (settled_is_final (run [ex_claim] ex_stream) (SAck 0 "w") [ex_claim] "w" ["work.a"] 1100 ex_wait 3 0).
  - apply run_ok, ex_stream_ok.
  - vm_compute. lia.
  - by left.
  - intros d' H. in_run H.
Defined.

Lemma in_flight_within_cap_witness : unsettledLocked (run (ex_ops ++ [ex_claim; ex_claim]) (new_stream ex_spec)) "w" <= 5.
Proof. apply (in_flight_within_cap ex_spec _ "w" 5). intros f n tm H. in_run H; done. Defined.

Lemma claims_drain_witness :
  fst (drain (length (stMsgs ex_stream)) "w" ["work.a"] 1010 ex_wait 3 ex_stream) = [0%nat; 1%nat].
Proof.
  refine (eq_trans (claims_drain "w" ["work.a"] 1010 ex_wait 3 ex_stream (mkDurable ["work.a"] 5 ex_timing) _ _ ex_stream_ok _ _) _);
    [lia | intros k; unfold ex_wait; lia | by vm_compute | by vm_compute | by vm_compute].
Defined.

(** Two deliveries in flight, their deadlines not passed. *)
Definition ex_flying : stream := run [ex_claim; ex_claim] ex_stream.

Lemma nothing_is_stuck_witness :
  Before 1012 (mmDeliverAt (msg_at ex_flying 0)) = true \/
  (is_wq ex_flying = true /\ mmClaim (msg_at ex_flying 0) <> "" /\ mmClaim (msg_at ex_flying 0) <> "w") \/
  coSettled (state_of (msg_at ex_flying 0) "w") = true \/
  due (state_of (msg_at ex_flying 0) "w") 1012 = false \/
  (coAttempts (state_of (msg_at ex_flying 0) "w") = 0 /\ 5 <= unsettledLocked ex_flying "w").
Proof.
  apply (nothing_is_stuck "w" ["work.a"] 1012 ex_wait 3 ex_flying (mkDurable ["work.a"] 5 ex_timing) 0);
    try (by vm_compute). unfold ex_flying. apply run_ok, ex_stream_ok.
Defined.

Lemma stored_until_removed_witness :
  (exists now s' e a, SAck 0 "w" = SPublish now s' e a /\ 0 < ssMaxAge (stSpec ex_stream) <= Sub now (evTime (ex_env "one" "abcd" 1000))) \/
  (is_wq ex_stream = true /\ exists d, SAck 0 "w" = SAck (index 1) d) \/
  (is_wq ex_stream = true /\ exists d f t n, SAck 0 "w" = SLapsed d f t n /\ index 1 ∈ reports (SAck 0 "w") ex_stream) \/
  (exists p, SAck 0 "w" = SPurge p /\ SubjectMatches p "work.a" = true).
Proof.
  apply (stored_until_removed ex_stream (SAck 0 "w") 1 "work.a" (ex_env "one" "abcd" 1000));
    [apply ex_stream_ok | by vm_compute | by vm_compute].
Defined.

Lemma published_once_witness :
  publish 1020 "work.a" (ex_env "two" "efgh" 1020) 0
    (run [ex_claim] (exec (SPublish 1001 "work.a" (ex_env "two" "abcd" 1001) 0) (run (take 2 ex_ops) (new_stream ex_spec))))
  = (Some (mkReceipt 2 true),
     run [ex_claim] (exec (SPublish 1001 "work.a" (ex_env "two" "abcd" 1001) 0) (run (take 2 ex_ops) (new_stream ex_spec)))).
Proof.
  apply (published_once (run (take 2 ex_ops) (new_stream ex_spec)) 1001 "work.a" (ex_env "two" "abcd" 1001) 0 [ex_claim] 2);
    try (by vm_compute).
  - apply run_ok, new_ok.
  - intros t s' e a H. in_run H.
Defined.

Lemma work_queue_exclusive_witness :
  hands (SClaim "other" ["work.>"] 2000 ex_wait 3) (run [SNak 0 "w" 1011 5] (exec ex_claim ex_stream)) <> Some 0%nat.
Proof.
  apply (work_queue_exclusive ex_stream "w" "other" 0 [SNak 0 "w" 1011 5] ["work.a"] 1010 ex_wait 3); try (by vm_compute).
  - apply ex_stream_ok.
  - intros d' H. in_run H.
  - intros e t w H. in_run H. done.
Defined.

(** *** Two runs that end badly *)

(** A stream full of messages past its age refuses every publish: only a publish
    that was accepted removes them. *)
Lemma aged_stream_refuses :
  let s := ex_stream in
  (forall i, i ∈ stMsgs s -> expired 5000 s i = true) /\
  publish 5000 "work.a" (ex_env "three" "x" 5000) 0 s = (None, s).
Proof.
  cbv zeta. split.
  - intros i H. vm_compute in H. in_run H; subst; by vm_compute.
  - by vm_compute.
Qed.

(** A nak that comes after its durable was deleted holds the message for the
    deleted durable: no other durable is handed it any more. *)
Lemma late_nak_strands :
  let s := run [ex_claim; SForget "w"; SNak 0 "w" 1011 5; SBind "new" ["work.a"] 5 ex_timing] ex_stream in
  live s 0 = true /\ hasDurable s "w" = false /\ hasDurable s "new" = true /\
  fst (drain 5 "new" ["work.a"] 5000 ex_wait 3 s) = [1%nat].
Proof. by vm_compute. Qed.
