(* ===== verification/Slots.v ===== *)
(** * Slots: the handler slots of a subscription

    src/pkg/events/membus/membus.go, [memSub] and [memDelivery].  Each method
    holds the subscription's lock, so each is one step.  [running] is a set of
    pointers; here it maps each pointer to its delivery, and a loop over it
    takes the order the source's map is walked in as an argument. *)

From S2P Require Import Prelude GoLang Events KV Subjects Topology Settle Stream StreamOps StreamRuns StreamFacts.

Open Scope monad_scope.

(** [pollInterval]. *)
Definition pollInterval : Duration := 2 * Millisecond.

(** [memDelivery]; [cancel] is a context's, so only whether there is one is kept. *)
Record memDelivery := mkDelivery {
  mdMsg : nat;
  mdAttempt : Z;
  mdLapsed : bool;
  mdLapsedAt : Time;
  mdCancel : bool;
  mdCancelled : bool;
}.

#[export] Instance eta_memDelivery : Eta memDelivery :=
  fun d => mkDelivery (mdMsg d) (mdAttempt d) (mdLapsed d) (mdLapsedAt d) (mdCancel d) (mdCancelled d).
#[export] Instance set_mdLapsed : Setter mdLapsed. Proof. derive_setter. Defined.
#[export] Instance set_mdLapsedAt : Setter mdLapsedAt. Proof. derive_setter. Defined.
#[export] Instance set_mdCancel : Setter mdCancel. Proof. derive_setter. Defined.
#[export] Instance set_mdCancelled : Setter mdCancelled. Proof. derive_setter. Defined.

(** [memSub]; [msNext] is the pointer the next delivery gets. *)
Record memSub := mkMemSub {
  msSlots : Z;
  msSub : Subscription;
  msEff : Subscription;
  msLive : Z;
  msLapsed : Z;
  msRunning : gmap nat memDelivery;
  msNext : nat;
  msSaturatedSince : Time;
  msStopping : bool;
}.

#[export] Instance eta_memSub : Eta memSub :=
  fun s => mkMemSub (msSlots s) (msSub s) (msEff s) (msLive s) (msLapsed s) (msRunning s) (msNext s)
    (msSaturatedSince s) (msStopping s).
#[export] Instance set_msEff : Setter msEff. Proof. derive_setter. Defined.
#[export] Instance set_msLive : Setter msLive. Proof. derive_setter. Defined.
#[export] Instance set_msLapsed : Setter msLapsed. Proof. derive_setter. Defined.
#[export] Instance set_msRunning : Setter msRunning. Proof. derive_setter. Defined.
#[export] Instance set_msNext : Setter msNext. Proof. derive_setter. Defined.
#[export] Instance set_msSaturatedSince : Setter msSaturatedSince. Proof. derive_setter. Defined.
#[export] Instance set_msStopping : Setter msStopping. Proof. derive_setter. Defined.

(** A subscription [Subscribe] has just made. *)
Definition new_memSub (sub : Subscription) : memSub :=
  mkMemSub (Z.max (sbMaxInFlight sub) 1) sub sub 0 0 ∅ 0 0 false.

(** [acquire] and [unacquire]. *)
Definition acquire : M memSub bool :=
  s <- gets id;;
  if msSlots s <=? msLive s then ret false
  else modify (fun s => s <| msLive ::= Z.succ |>);; ret true.
Definition unacquire : M memSub unit := modify (fun s => s <| msLive ::= Z.pred |>).

(** [track]. *)
Definition track (m : nat) (attempt : Z) : M memSub nat :=
  s <- gets id;;
  modify (fun s => s <| msRunning ::= <[msNext s := mkDelivery m attempt false 0 false false]> |>
                     <| msNext ::= S |>);;
  ret (msNext s).

Definition isLapsed (d : nat) : M memSub bool :=
  gets (fun s => match msRunning s !! d with Some x => mdLapsed x | None => false end).

(** [saturationLocked]. *)
Definition saturationLocked (now : Time) : M memSub unit :=
  s <- gets id;;
  if msLapsed s <? msSlots s then modify (fun s => s <| msSaturatedSince := 0 |>)
  else if IsZero (msSaturatedSince s) then modify (fun s => s <| msSaturatedSince := now |>)
  else ret tt.

(** [finish] of a delivery that is running. *)
Definition finish (d : nat) (now : Time) : M memSub unit :=
  s <- gets id;;
  modify (fun s => s <| msRunning ::= delete d |>);;
  (match msRunning s !! d with
   | Some x =>
       if mdLapsed x then modify (fun s => s <| msLapsed ::= Z.pred |>)
       else modify (fun s => s <| msLive ::= Z.pred |>)
   | None => ret tt
   end);;
  saturationLocked now.

(** The body of [reclaim]'s loop. *)
Definition reclaim_one (st : stream) (durable : string) (now : Time) (d : nat) : M memSub unit :=
  s <- gets id;;
  match msRunning s !! d with
  | None => ret tt
  | Some x =>
      if mdLapsed x then
        when (mdCancel x && negb (mdCancelled x)
              && After now (Add (mdLapsedAt x) (sub_AckDeadline (msEff s) (mdAttempt x))))
          (modify (fun s => s <| msRunning ::= alter (fun x => x <| mdCancelled := true |>) d |>))
      else if (msSlots s <=? msLapsed s) || negb (overdue st (mdMsg x) durable (mdAttempt x) now) then ret tt
      else
        modify (fun s => s <| msRunning ::= alter (fun x => x <| mdLapsed := true |> <| mdLapsedAt := now |>) d |>);;
        modify (fun s => s <| msLive ::= Z.pred |>);;
        modify (fun s => s <| msLapsed ::= Z.succ |>)
  end.

Fixpoint reclaim_loop (st : stream) (durable : string) (now : Time) (order : list nat) : M memSub unit :=
  match order with
  | [] => ret tt
  | d :: order => reclaim_one st durable now d;; reclaim_loop st durable now order
  end.

(** [reclaim]; [order] is the order the running deliveries are walked in. *)
Definition reclaim (st : stream) (durable : string) (now : Time) (order : list nat) : M memSub unit :=
  reclaim_loop st durable now order;;
  saturationLocked now.

Definition setEffective (eff : Subscription) : M memSub unit := modify (fun s => s <| msEff := eff |>).
Definition stop : M memSub unit := modify (fun s => s <| msStopping := true |>).

(** [wedged]: how long the slots have been held and the limit, when that is an
    error. *)
Definition wedge_limit (s : memSub) : Duration :=
  let budget := cmp_or (cmp_or (sbHandlerTimeout (msSub s)) (sbAckWait (msSub s))) DefaultAckWait in
  budget + sub_AckDeadline (msEff s) 1.
Definition wedged (s : memSub) (now : Time) : option (Duration * Duration) :=
  if msStopping s || IsZero (msSaturatedSince s) then None
  else
    let held := Sub now (msSaturatedSince s) in
    if wedge_limit s <? held then Some (held, wedge_limit s) else None.

(** The head of [budget]: a budgeted delivery can be cancelled, and how often it
    is heartbeaten, [None] without a budget. *)
Definition budget (d : nat) (eff : Subscription) : M memSub (option Duration) :=
  s <- gets id;;
  if sbHandlerTimeout (msSub s) <=? 0 then ret None
  else
    modify (fun s => s <| msRunning ::= alter (fun x => x <| mdCancel := true |>) d |>);;
    ret (match msRunning s !! d with
         | Some x => Some (Z.max (Z.quot (sub_AckDeadline eff (mdAttempt x)) 3) pollInterval)
         | None => None
         end).

(** The free slots a subscription adds to [freeSlots]. *)
Definition free_slots (s : memSub) : Z := if msStopping s then 0 else Z.max (msSlots s - msLive s) 0.

(** The consume loop, the handlers that return and the sweep of lapsed
    deliveries interleave; each is one step of [sub_step]. *)

(** ** Steps *)

(** The flag is whether the loop holds a slot it has not used yet. *)
Inductive sub_step : bool * memSub -> bool * memSub -> Prop :=
| step_acquire s s' : acquire s = (true, s') -> sub_step (false, s) (true, s')
| step_unacquire s : sub_step (true, s) (false, snd (unacquire s))
| step_track m attempt s : sub_step (true, s) (false, snd (track m attempt s))
| step_budget p d eff s : sub_step (p, s) (p, snd (budget d eff s))
| step_finish p d now s : is_Some (msRunning s !! d) -> sub_step (p, s) (p, snd (finish d now s))
| step_reclaim p st durable now order s : sub_step (p, s) (p, snd (reclaim st durable now order s))
| step_effective p eff s : sub_step (p, s) (p, snd (setEffective eff s))
| step_stop p s : sub_step (p, s) (p, snd (stop s)).

(** ** Counting deliveries *)

Definition count (P : memDelivery -> bool) (m : gmap nat memDelivery) : Z :=
  Z.of_nat (size (filter (fun kv : nat * memDelivery => P kv.2 = true) m)).

Definition one (b : bool) : Z := if b then 1 else 0.

Lemma count_delete P m d x : m !! d = Some x -> count P m = count P (delete d m) + one (P x).
Proof.
  intros H. unfold count. rewrite map_filter_delete. destruct (P x) eqn:E; cbn.
  - assert (filter (fun kv : nat * memDelivery => P kv.2 = true) m !! d = Some x) as Hf by (by apply map_lookup_filter_Some_2).
    rewrite map_size_delete, Hf. assert (size (filter (fun kv : nat * memDelivery => P kv.2 = true) m) <> 0)%nat; [| lia].
    intros Hz. apply map_size_empty_inv in Hz. rewrite Hz in Hf. by rewrite lookup_empty in Hf.
  - rewrite map_size_delete, map_lookup_filter_None_2; [cbn; lia |]. right. intros y Hy. assert (y = x) as -> by congruence. cbn. by rewrite E.
Qed.

Lemma count_insert P m d x : count P (<[d := x]> m) = count P (delete d m) + one (P x).
Proof.
  rewrite (count_delete P (<[d := x]> m) d x) by apply lookup_insert_eq. by rewrite delete_insert_eq.
Qed.

Lemma count_fresh P m d x : m !! d = None -> count P (<[d := x]> m) = count P m + one (P x).
Proof. intros H. rewrite count_insert. by rewrite delete_id. Qed.

Lemma count_alter P f m d x : m !! d = Some x -> count P (alter f d m) = count P m - one (P x) + one (P (f x)).
Proof.
  intros H. rewrite (count_delete P m d x H).
  assert (alter f d m = <[d := f x]> m) as ->.
  { apply map_eq. intros i. destruct (decide (i = d)) as [-> |].
    - by rewrite lookup_alter_eq, lookup_insert_eq, H.
    - by rewrite lookup_alter_ne, lookup_insert_ne. }
  rewrite count_insert. lia.
Qed.

Lemma alter_none {A} (f : A -> A) (m : gmap nat A) d : m !! d = None -> alter f d m = m.
Proof.
  intros H. apply map_eq. intros i. destruct (decide (i = d)) as [-> |]; [by rewrite lookup_alter_eq, H |].
  by rewrite lookup_alter_ne.
Qed.

Lemma count_ge0 P m : 0 <= count P m.
Proof. unfold count. lia. Qed.

Lemma count_both m : Z.of_nat (size m) = count mdLapsed m + count (fun x => negb (mdLapsed x)) m.
Proof.
  induction m as [| d x m Hd IH] using map_ind; [done |].
  rewrite !count_fresh, map_size_insert_None by done.
  assert (one (mdLapsed x) + one (negb (mdLapsed x)) = 1) by (by destruct (mdLapsed x)). lia.
Qed.

(** ** The invariant *)

Record slots_ok (p : bool) (s : memSub) : Prop := {
  so_slots : 0 < msSlots s;
  so_live : msLive s = one p + count (fun x => negb (mdLapsed x)) (msRunning s);
  so_lapsed : msLapsed s = count mdLapsed (msRunning s);
  so_live_cap : msLive s <= msSlots s;
  so_lapsed_cap : msLapsed s <= msSlots s;
  so_fresh : forall d, (msNext s <= d)%nat -> msRunning s !! d = None;
}.

(** The slots have been saturated since a time exactly when every one is held by
    a lapsed delivery. *)
Definition saturation_ok (s : memSub) : Prop := msSaturatedSince s <> 0 -> msLapsed s = msSlots s.

Lemma saturation_frame now s : let s' := snd (saturationLocked now s) in
  msSlots s' = msSlots s /\ msLive s' = msLive s /\ msLapsed s' = msLapsed s /\ msRunning s' = msRunning s /\
  msNext s' = msNext s.
Proof.
  unfold saturationLocked, bind, gets, modify. change (id s) with s.
  destruct (msLapsed s <? msSlots s); [done |]. by destruct (IsZero (msSaturatedSince s)).
Qed.

Lemma saturation_same now p s : slots_ok p s -> slots_ok p (snd (saturationLocked now s)).
Proof.
  destruct (saturation_frame now s) as (E1 & E2 & E3 & E4 & E5). intros []. split; rewrite ?E1, ?E2, ?E3, ?E4, ?E5; done.
Qed.

Lemma saturation_holds now p s : slots_ok p s -> saturation_ok (snd (saturationLocked now s)).
Proof.
  intros [_ _ _ _ Hc _]. unfold saturation_ok, saturationLocked, bind, gets, modify. change (id s) with s.
  destruct (msLapsed s <? msSlots s) eqn:E; [done |]. bools. destruct (IsZero (msSaturatedSince s)); cbn; lia.
Qed.

(** [alter] of a field the counts do not read. *)
Lemma alter_same p f s s' : (forall x, mdLapsed (f x) = mdLapsed x) ->
  slots_ok p s -> forall d, msRunning s' = alter f d (msRunning s) -> msSlots s' = msSlots s -> msLive s' = msLive s ->
  msLapsed s' = msLapsed s -> msNext s' = msNext s -> slots_ok p s'.
Proof.
  intros Hf [H1 H2 H3 H4 H5 H6] d Er Es El Ela En.
  destruct (msRunning s !! d) as [x |] eqn:E; [| rewrite alter_none in Er by done; split; rewrite ?Es, ?El, ?Ela, ?Er, ?En; done].
  split; rewrite ?Es, ?El, ?Ela, ?Er, ?En; try done.
  - rewrite (count_alter _ f _ d x) by done. rewrite Hf. lia.
  - rewrite (count_alter _ f _ d x) by done. rewrite Hf. lia.
  - intros k Hk. rewrite lookup_alter_ne by (intros ->; rewrite H6 in E by done; done). by apply H6.
Qed.

Lemma reclaim_one_ok st durable now d p s : slots_ok p s -> slots_ok p (snd (reclaim_one st durable now d s)).
Proof.
  intros Hs. unfold reclaim_one, bind, gets. change (id s) with s. destruct (msRunning s !! d) as [x |] eqn:E; [| done].
  destruct (mdLapsed x) eqn:El.
  - unfold when. destruct (_ && _ && _); [| done]. by eapply (alter_same p (fun x => x <| mdCancelled := true |>) s).
  - destruct (msSlots s <=? msLapsed s) eqn:Ec; cbn [orb]; [done |].
    destruct (overdue st (mdMsg x) durable (mdAttempt x) now); cbn [negb]; [| done].
    unfold bind, modify. cbn [snd]. destruct Hs as [H1 H2 H3 H4 H5 H6]. bools.
    set (f := fun x => x <| mdLapsed := true |> <| mdLapsedAt := now |>).
    split; cbn; try done.
    + rewrite (count_alter _ f _ d x) by done. rewrite H2, El. cbn. lia.
    + rewrite (count_alter _ f _ d x) by done. rewrite H3, El. cbn. lia.
    + lia.
    + lia.
    + intros k Hk. rewrite lookup_alter_ne by (intros ->; rewrite H6 in E by done; done). by apply H6.
Qed.

Lemma reclaim_loop_ok st durable now order p s : slots_ok p s -> slots_ok p (snd (reclaim_loop st durable now order s)).
Proof.
  revert s. induction order as [| d order IH]; intros s Hs; [done |]. cbn [reclaim_loop].
  rewrite run_bind. by apply IH, reclaim_one_ok.
Qed.

(** The slot of a delivery that returned, given back. *)
Definition released (d : nat) (x : memDelivery) (s : memSub) : memSub :=
  let s := s <| msRunning ::= delete d |> in
  if mdLapsed x then s <| msLapsed ::= Z.pred |> else s <| msLive ::= Z.pred |>.

Lemma finish_run d now s x : msRunning s !! d = Some x ->
  snd (finish d now s) = snd (saturationLocked now (released d x s)).
Proof.
  intros Hx. unfold finish, bind, gets, modify, released. change (id s) with s. rewrite Hx. by destruct (mdLapsed x).
Qed.

Lemma step_ok p s p' s' : sub_step (p, s) (p', s') -> slots_ok p s /\ saturation_ok s -> slots_ok p' s' /\ saturation_ok s'.
Proof.
  intros Hst [Hs Ht]. inversion Hst; subst; clear Hst.
  - unfold acquire, bind, gets, modify in *. change (id s) with s in *.
    destruct (msSlots s <=? msLive s) eqn:E; [done |]. bools.
    match goal with H : (true, _) = _ |- _ => injection H as <- | H : _ = (true, _) |- _ => injection H as <- end.
    split; [| done]. destruct Hs. split; cbn in *; try done; lia.
  - split; [| done]. destruct Hs. split; cbn in *; try done; lia.
  - split; [| done]. unfold track, bind, gets, modify, ret. change (id s) with s. cbn [snd]. destruct Hs as [H1 H2 H3 H4 H5 H6].
    split; cbn; try done.
    + rewrite count_fresh by (by apply H6). cbn in *. lia.
    + rewrite count_fresh by (by apply H6). cbn. lia.
    + intros k Hk. rewrite lookup_insert_ne by lia. apply H6. lia.
  - unfold budget, bind, gets, modify. change (id s) with s.
    destruct (sbHandlerTimeout (msSub s) <=? 0); [done |]. split; [| done].
    by eapply (alter_same p' (fun x => x <| mdCancel := true |>) s).
  - match goal with H : is_Some _ |- _ => destruct H as [x Hx] end. rewrite (finish_run d now s x Hx).
    assert (slots_ok p' (released d x s)) as Hok; [| split; [by apply saturation_same | by apply (saturation_holds now p')]].
    destruct Hs as [H1 H2 H3 H4 H5 H6]. rewrite (count_delete _ _ d x Hx) in H2. rewrite (count_delete _ _ d x Hx) in H3.
    assert (forall k, (msNext s <= k)%nat -> delete d (msRunning s) !! k = None) as Hf.
    { intros k Hk. apply lookup_delete_None. right. by apply H6. }
    unfold released. destruct (mdLapsed x); split; cbn in *; try done; lia.
  - unfold reclaim. rewrite run_bind. split; [apply saturation_same | apply (saturation_holds now p')]; by apply reclaim_loop_ok.
  - split; [| done]. by destruct Hs; split.
  - split; [| done]. by destruct Hs; split.
Qed.

Lemma sub_steps_ok p s p' s' : rtc sub_step (p, s) (p', s') -> slots_ok p s /\ saturation_ok s -> slots_ok p' s' /\ saturation_ok s'.
Proof.
  assert (forall a b, rtc sub_step a b -> slots_ok a.1 a.2 /\ saturation_ok a.2 -> slots_ok b.1 b.2 /\ saturation_ok b.2) as H.
  { induction 1 as [| [p1 s1] [p2 s2] b Hst _ IH]; intros Ha; [done |]. apply IH. by apply (step_ok p1 s1). }
  apply (H (p, s) (p', s')).
Qed.

Lemma new_slots_ok sub : slots_ok false (new_memSub sub) /\ saturation_ok (new_memSub sub).
Proof.
  assert (forall P, count P ∅ = 0) as Hc by (intros P; unfold count; by rewrite map_filter_empty).
  split; [split; cbn; rewrite ?Hc; cbn; try done; lia | intros H; by destruct H].
Qed.

(** However the consume loop, the handlers that return and the sweeps
    interleave, a subscription has at most as many handlers inside their
    acknowledgement deadline as slots, at most as many past it, and so never
    more than twice its slots running; its counts are those of the deliveries. *)
Theorem slots_hold sub p s : rtc sub_step (false, new_memSub sub) (p, s) ->
  0 <= msLive s <= msSlots s /\ 0 <= msLapsed s <= msSlots s /\
  Z.of_nat (size (msRunning s)) <= 2 * msSlots s /\
  msLapsed s = count mdLapsed (msRunning s).
Proof.
  intros H. destruct (sub_steps_ok _ _ _ _ H (new_slots_ok sub)) as [[H1 H2 H3 H4 H5 H6] _].
  rewrite count_both. pose proof (count_ge0 mdLapsed (msRunning s)).
  pose proof (count_ge0 (fun x => negb (mdLapsed x)) (msRunning s)). assert (0 <= one p) by (by destruct p). lia.
Qed.

(** One slot, one delivery of [ex_flying], past its deadline at 1030. *)
Definition ex_sub : memSub := new_memSub (spec_Subscription (consumer "w" "WORK" ["work.a"] 10 3 [] 1 1)).
Definition ex_running : memSub := snd (track 0 1 (snd (acquire ex_sub))).
Definition ex_lapsed : memSub := snd (reclaim ex_flying "w" 1030 [0%nat] ex_running).

Lemma ex_lapsed_reached : rtc sub_step (false, ex_sub) (false, ex_lapsed).
Proof.
  eapply rtc_l; [apply step_acquire; reflexivity |]. eapply rtc_l; [apply (step_track 0 1) |].
  eapply rtc_l; [apply (step_reclaim false ex_flying "w" 1030 [0%nat]) | apply rtc_refl].
Qed.

Lemma slots_hold_witness :
  0 <= msLive ex_lapsed <= msSlots ex_lapsed /\ 0 <= msLapsed ex_lapsed <= msSlots ex_lapsed /\
  Z.of_nat (size (msRunning ex_lapsed)) <= 2 * msSlots ex_lapsed /\ msLapsed ex_lapsed = count mdLapsed (msRunning ex_lapsed).
Proof.
  apply (slots_hold (spec_Subscription (consumer "w" "WORK" ["work.a"] 10 3 [] 1 1)) false), ex_lapsed_reached.
Defined.

(** A subscription is reported wedged only when every slot's worth of lapsed
    deliveries is held by handlers that have not returned. *)
Theorem wedged_is_held sub p s now held limit : rtc sub_step (false, new_memSub sub) (p, s) ->
  wedged s now = Some (held, limit) ->
  msStopping s = false /\ count mdLapsed (msRunning s) = msSlots s /\
  held = Sub now (msSaturatedSince s) /\ limit = wedge_limit s /\ limit < held.
Proof.
  intros H. destruct (sub_steps_ok _ _ _ _ H (new_slots_ok sub)) as [Hs Ht]. unfold wedged.
  destruct (msStopping s); [done |]. cbn [orb]. destruct (IsZero (msSaturatedSince s)) eqn:E; [done |].
  destruct (wedge_limit s <? Sub now (msSaturatedSince s)) eqn:El; [| done]. intros [= <- <-]. bools.
  split_and!; try done. rewrite <- (so_lapsed _ _ Hs). apply Ht. unfold IsZero in E. by bools.
Qed.

Lemma wedged_is_held_witness :
  msStopping ex_lapsed = false /\ count mdLapsed (msRunning ex_lapsed) = msSlots ex_lapsed /\
  21 = Sub 1051 (msSaturatedSince ex_lapsed) /\ 20 = wedge_limit ex_lapsed /\ 20 < 21.
Proof.
  apply (wedged_is_held (spec_Subscription (consumer "w" "WORK" ["work.a"] 10 3 [] 1 1)) false ex_lapsed 1051);
    [apply ex_lapsed_reached | by vm_compute].
Defined.

(** ** What a sweep frees *)

Lemma reclaim_one_frame st durable now d s : let s' := snd (reclaim_one st durable now d s) in
  msSlots s' = msSlots s /\ msLapsed s <= msLapsed s' /\
  (forall k x', msRunning s' !! k = Some x' -> mdLapsed x' = false -> msRunning s !! k = Some x') /\
  (msLapsed s' < msSlots s' -> forall x, msRunning s' !! d = Some x -> mdLapsed x = false ->
     overdue st (mdMsg x) durable (mdAttempt x) now = false).
Proof.
  assert (forall s', msSlots s' = msSlots s -> msLapsed s <= msLapsed s' -> forall f,
    msRunning s' = alter f d (msRunning s) -> (forall x, msRunning s !! d = Some x -> mdLapsed (f x) = true) ->
    msSlots s' = msSlots s /\ msLapsed s <= msLapsed s' /\
    (forall k x', msRunning s' !! k = Some x' -> mdLapsed x' = false -> msRunning s !! k = Some x') /\
    (msLapsed s' < msSlots s' -> forall x, msRunning s' !! d = Some x -> mdLapsed x = false ->
       overdue st (mdMsg x) durable (mdAttempt x) now = false)) as Halter.
  { intros s' Hsl Hla f Hr Hf. rewrite Hr. split_and!; try done.
    - intros k x' Hk Hx. destruct (decide (k = d)) as [-> |]; [| by rewrite lookup_alter_ne in Hk].
      rewrite lookup_alter_eq in Hk. destruct (msRunning s !! d) as [y |]; [| done].
      cbn in Hk. injection Hk as <-. rewrite (Hf y eq_refl) in Hx. done.
    - intros _ y Hy Hl. rewrite lookup_alter_eq in Hy. destruct (msRunning s !! d) as [z |]; [| done].
      cbn in Hy. injection Hy as <-. rewrite (Hf z eq_refl) in Hl. done. }
  unfold reclaim_one, bind, gets. change (id s) with s.
  destruct (msRunning s !! d) as [x |] eqn:E; [| split_and!; cbn; [done | lia | done | congruence]].
  destruct (mdLapsed x) eqn:El.
  - unfold when. destruct (_ && _ && _); [| split_and!; cbn; [done | lia | done | congruence]].
    eapply Halter; [done | cbn; lia | reflexivity | by intros y [= <-]].
  - destruct (msSlots s <=? msLapsed s) eqn:Ec; cbn [orb]; [bools; split_and!; cbn; [done | lia | done | lia] |].
    destruct (overdue st (mdMsg x) durable (mdAttempt x) now) eqn:Eo; cbn [negb];
      [| split_and!; cbn; [done | lia | done | congruence]].
    eapply Halter; [done | cbn; lia | reflexivity | by intros y [= <-]].
Qed.

Lemma reclaim_loop_frame st durable now order s : let s' := snd (reclaim_loop st durable now order s) in
  msSlots s' = msSlots s /\ msLapsed s <= msLapsed s' /\
  (forall k x', msRunning s' !! k = Some x' -> mdLapsed x' = false -> msRunning s !! k = Some x') /\
  (msLapsed s' < msSlots s' -> forall d x, d ∈ order -> msRunning s' !! d = Some x -> mdLapsed x = false ->
     overdue st (mdMsg x) durable (mdAttempt x) now = false).
Proof.
  revert s. induction order as [| d order IH]; intros s; cbn [reclaim_loop].
  { split_and!; cbn; try done. intros _ d x H. by apply elem_of_nil in H. }
  cbv zeta. rewrite run_bind. destruct (reclaim_one_frame st durable now d s) as (E1 & E2 & E3 & E4).
  set (s1 := snd (reclaim_one st durable now d s)) in *. destruct (IH s1) as (F1 & F2 & F3 & F4).
  set (s2 := snd (reclaim_loop st durable now order s1)) in *.
  split_and!; [congruence | lia | by eauto |].
  intros Hlt k x Hk Hx Hl. apply list.elem_of_cons in Hk as [-> | Hk]; [| by eapply F4].
  apply (E4 ltac:(lia) x); [by apply F3 | done].
Qed.

(** A sweep frees the slot of every delivery past its deadline or delivered
    again since, in whatever order the deliveries are walked, until as many
    deliveries have lapsed as there are slots. *)
Theorem reclaim_frees st durable now order s d x :
  let s' := snd (reclaim st durable now order s) in
  order ≡ₚ (map_to_list (msRunning s)).*1 ->
  msLapsed s' < msSlots s' -> msRunning s' !! d = Some x -> mdLapsed x = false ->
  overdue st (mdMsg x) durable (mdAttempt x) now = false.
Proof.
  unfold reclaim. cbv zeta. rewrite run_bind. set (s1 := snd (reclaim_loop st durable now order s)).
  destruct (saturation_frame now s1) as (-> & _ & -> & -> & _). intros Ho Hlt Hx Hl.
  destruct (reclaim_loop_frame st durable now order s) as (_ & _ & F3 & F4).
  apply (F4 Hlt d x); try done. rewrite Ho. apply list_elem_of_fmap. exists (d, x). split; [done |].
  by apply elem_of_map_to_list, F3.
Qed.

(** Two slots, the first delivery past its deadline at 1015 and the second not. *)
Definition ex_two : memSub :=
  snd (track 1 1 (snd (track 0 1 (new_memSub (spec_Subscription (consumer "w" "WORK" ["work.a"] 10 3 [] 2 2)))))).
Definition ex_mixed : stream :=
  run [SClaim "w" ["work.a"] 1002 ex_wait 3; SClaim "w" ["work.a"] 1010 ex_wait 3] ex_stream.

Lemma reclaim_frees_witness :
  msLapsed (snd (reclaim ex_mixed "w" 1015 [1%nat; 0%nat] ex_two)) = 1 /\
  overdue ex_mixed 1 "w" 1 1015 = false.
Proof.
  split; [by vm_compute |].
  apply (reclaim_frees ex_mixed "w" 1015 [1%nat; 0%nat] ex_two 1 (mkDelivery 1 1 false 0 false false));
    by vm_compute.
Defined.
