(* ===== verification/Routing.v ===== *)
(** * Routing: every message has one stream, every task one durable

    Theorems about Subjects.v and Layout.v: the tokens of a built subject, the
    stream [Default] routes it to, the durable that takes it, and the subject a
    scheduled message is held on. *)

From S2P Require Import Prelude GoLang GoFacts Events KV Subjects Topology Layout.
From Stdlib Require Import Ascii.

(** ** Tokens *)

Lemma tok_char_no_dot a : Ascii.eqb (tok_char a) "." = false.
Proof.
  unfold tok_char. destruct (Ascii.eqb a ".") eqn:E; [done |]. cbn [orb].
  repeat (case_match; [done |]). done.
Qed.

Lemma high_byte_no_dot a : in_range 0 127 a = false -> Ascii.eqb a "." = false.
Proof. destruct (Ascii.eqb a ".") eqn:E; [| done]. by apply Ascii.eqb_eq in E as ->. Qed.

Lemma cont_no_dot a lo hi : 128 <= lo -> in_range lo hi a = true -> Ascii.eqb a "." = false.
Proof.
  intros Hlo H. apply high_byte_no_dot. unfold in_range in *. bools.
  apply andb_false_iff. right. lia.
Qed.

(** A rune of [k + 1] bytes is followed by [k] bytes above 127. *)
Lemma rune_width_cont a t k : rune_width (String a t) = S k ->
  str_forall (fun b => negb (Ascii.eqb b ".")) (str_take k t) = true.
Proof.
  assert (Hc : forall b, cont_byte b = true -> negb (Ascii.eqb b ".") = true)
    by (intros b Hb; by rewrite (cont_no_dot b 128 191)).
  assert (Hr : forall b lo hi, in_range lo hi b = true -> 128 <= lo -> negb (Ascii.eqb b ".") = true)
    by (intros b lo hi Hb Hlo; by rewrite (cont_no_dot b lo hi)).
  cbn [rune_width]. destruct (in_range 194 223 a).
  { destruct t as [| b t]; [by intros [= <-] |]. destruct (in_range 128 191 b) eqn:Hb; intros [= <-]; [| done].
    cbn. by rewrite (Hr b _ _ Hb) by lia. }
  destruct (in_range 224 239 a).
  { destruct t as [| b [| c t]]; [by intros [= <-] | |].
    { rewrite andb_false_r. by intros [= <-]. }
    set (lo := if byte_of a =? 224 then 160 else 128). set (hi := if byte_of a =? 237 then 159 else 191).
    assert (128 <= lo) by (subst lo; case_match; lia).
    destruct (in_range lo hi b) eqn:Hb; [| by intros [= <-]].
    destruct (cont_byte c) eqn:Ecc; intros [= <-]; [| done].
    cbn. by rewrite (Hr b _ _ Hb), (Hc c Ecc) by done. }
  destruct (in_range 240 244 a); [| by intros [= <-]].
  destruct t as [| b [| c [| d t]]]; [by intros [= <-] | | |]; rewrite ?andb_false_r; [by intros [= <-].. |].
  set (lo := if byte_of a =? 240 then 144 else 128). set (hi := if byte_of a =? 244 then 143 else 191).
  assert (128 <= lo) by (subst lo; case_match; lia).
  destruct (in_range lo hi b) eqn:Hb; [| by intros [= <-]].
  destruct (cont_byte c) eqn:Ecc; [| by intros [= <-]].
  destruct (cont_byte d) eqn:Ed; intros [= <-]; [| done].
  cbn. by rewrite (Hr b _ _ Hb), (Hc c Ecc), (Hc d Ed) by done.
Qed.

Lemma map_runes_no_dot k s : str_forall (fun b => negb (Ascii.eqb b ".")) (str_take k s) = true ->
  no_sep "." (map_runes tok_char k s).
Proof.
  unfold no_sep. revert k. induction s as [| a s IH]; intros k Hk; [done |]. cbn [map_runes].
  destruct k as [| k].
  - destruct (in_range 0 127 a) eqn:Ea.
    + cbn [str_forall]. rewrite tok_char_no_dot. apply IH. by destruct s.
    + destruct (rune_width (String a s)) as [| [| k]] eqn:Er.
      1-2: rewrite str_forall_app; apply andb_true_iff; split; [done | apply IH; by destruct s].
      apply rune_width_cont in Er. cbn [str_forall]. rewrite (high_byte_no_dot a Ea). by apply IH.
  - cbn in Hk |- *. bools. apply andb_true_iff. split; [by apply negb_true_iff | by apply IH].
Qed.

Lemma tok_no_dot s : no_sep "." (tok s).
Proof. unfold tok. destruct (String.eqb s ""); [done | by apply map_runes_no_dot]. Qed.

Lemma fmt_d_no_dot n : no_sep "." (fmt_d n).
Proof.
  destruct (Z.le_gt_cases 0 n); [by apply digits_no_sep |].
  unfold fmt_d. replace (n =? 0) with false by lia. replace (n <? 0) with true by lia.
  change (no_sep "." (dec_loop (dec_fuel (- n)) (- n) "")).
  apply (no_sep_impl is_digit); [done |]. apply dec_loop_digits; [lia | done].
Qed.

(** Splitting after a literal prefix that ends in the separator. *)
Lemma Split_prefix c p t : last_is c p = true -> Split c (p +:+ t) = removelast (Split c p) ++ Split c t.
Proof.
  induction p as [| a p IH]; [done |]. intros Hl. rewrite app_cons. cbn [Split].
  destruct p as [| b p].
  - cbn in Hl. rewrite Hl. reflexivity.
  - specialize (IH Hl). destruct (Ascii.eqb a c).
    + rewrite IH. pose proof (Split_nonempty c (String b p)). by destruct (Split c (String b p)) as [| w [| w' ws]].
    + rewrite IH.
      assert (exists w1 w2 ws, Split c (String b p) = w1 :: w2 :: ws) as (w1 & w2 & ws & ->).
      { clear -Hl. revert b Hl. induction p as [| x p IHp]; intros b Hl.
        - cbn in Hl |- *. rewrite Hl. eauto.
        - destruct (IHp x Hl) as (w1 & w2 & ws & E). cbn [Split] in E |- *. rewrite E.
          destruct (Ascii.eqb b c); eauto. }
      reflexivity.
Qed.

Lemma Split_step s t : no_sep "." s -> Split "." (s +:+ "." +:+ t) = s :: Split "." t.
Proof. intros H. change ("." +:+ t) with (String "." t). by apply Split_sep. Qed.

#[export] Hint Resolve tok_no_dot fmt_d_no_dot : core.
#[export] Hint Extern 1 (no_sep "." (KVKeyToken _)) => apply token_no_sep; reflexivity : core.

Lemma Join_Split s : Join (Split "." s) "." = s.
Proof.
  induction s as [| a s IH]; [done |]. cbn [Split]. pose proof (Split_nonempty "." s).
  destruct (Split "." s) as [| w ws] eqn:Es; [done |].
  destruct (Ascii.eqb a ".") eqn:E.
  - apply Ascii.eqb_eq in E as ->.
    change (Join ("" :: w :: ws) ".") with ("" +:+ "." +:+ Join (w :: ws) "."). by rewrite IH.
  - destruct ws as [| w' ws]; cbn [Join] in IH |- *; rewrite <- IH; by rewrite ?app_cons.
Qed.

(** ** Filters on tokens *)

(** [SubjectMatches] of a subject already split. *)
Definition tokens_match (filter : string) (toks : list string) : bool :=
  if String.eqb filter "" || String.eqb filter ">" then true else match_tokens (Split "." filter) toks.

Lemma SubjectMatches_tokens f s : s <> "" -> SubjectMatches f s = tokens_match f (Split "." s).
Proof.
  intros Hs. unfold SubjectMatches, tokens_match. apply String.eqb_neq in Hs. by rewrite Hs.
Qed.

(** The durables of [Default] on a stream whose filters take a subject. *)
Definition takes (subject : string) (c : ConsumerSpec) : bool :=
  existsb (fun f => SubjectMatches f subject) (csFilters c).

Definition durables_for (subject : string) : list string :=
  match StreamForSubject Default subject with
  | None => []
  | Some s =>
      map csName (List.filter (fun c => String.eqb (csStream c) (ssName s) && takes subject c) (Consumers Default))
  end.

(** Both answers, from the subject's tokens. *)
Definition route (toks : list string) : option (string * list string) :=
  match List.find (fun s => existsb (fun f => tokens_match f toks) (ssSubjects s)) (Streams Default) with
  | None => None
  | Some s =>
      Some (ssName s,
        map csName (List.filter (fun c => String.eqb (csStream c) (ssName s)
          && existsb (fun f => tokens_match f toks) (csFilters c)) (Consumers Default)))
  end.

Lemma stream_for_find l subject :
  stream_for l subject = List.find (fun s => existsb (fun f => SubjectMatches f subject) (ssSubjects s)) l.
Proof. induction l as [| s l IH]; [done |]. cbn. by rewrite IH. Qed.

Lemma existsb_ext {A} (f g : A -> bool) l : (forall x, f x = g x) -> existsb f l = existsb g l.
Proof. intros H. induction l as [| x l IH]; [done |]. cbn. by rewrite H, IH. Qed.

Lemma find_ext {A} (f g : A -> bool) l : (forall x, f x = g x) -> List.find f l = List.find g l.
Proof. intros H. induction l as [| x l IH]; [done |]. cbn. by rewrite H, IH. Qed.

Lemma route_spec subject toks st ds : subject <> "" -> Split "." subject = toks ->
  route toks = Some (st, ds) ->
  (exists s, StreamForSubject Default subject = Some s /\ ssName s = st) /\ durables_for subject = ds.
Proof.
  intros Hs <-. unfold route, durables_for, StreamForSubject. generalize Default. intros t.
  rewrite stream_for_find.
  rewrite (find_ext (fun s => existsb (fun f => SubjectMatches f subject) (ssSubjects s)) (fun s => existsb (fun f => tokens_match f (Split "." subject)) (ssSubjects s)))
    by (intros s; apply existsb_ext; intros f; by apply SubjectMatches_tokens).
  destruct (List.find _ (Streams t)) as [s |]; [| done]. intros [= <- <-]. split; [by exists s |].
  f_equal. apply List.filter_ext. intros c. f_equal. apply existsb_ext. intros f. by apply SubjectMatches_tokens.
Qed.

(** The durable of a search's and a caption fetch's lane. *)
Definition search_lane (p : string) : string :=
  if String.eqb p PriorityHigh then ConsumerCatalogSearchHigh else ConsumerCatalogSearchNorm.
Definition fetch_lane (p : string) : string :=
  if String.eqb p PriorityHigh then ConsumerCaptionFetchHigh else ConsumerCaptionFetchNormal.
Definition probe_lane (p : string) : string :=
  if String.eqb p PriorityHigh then ConsumerImportProbeHigh else ConsumerImportProbeLow.

(** Every message built: its subject, the stream meant for it and the durables
    meant to take it.  Transcode pools and engine instances have durables of
    their own, which are not in [Default]. *)
Inductive published `{Unicode} : string -> string -> list string -> Prop :=
  | PubItem k a u : published (CatalogItemSubject k a u) StreamEvents [ConsumerCatalogHistory]
  | PubRelease a u : published (CatalogReleaseSubject a u) StreamEvents [ConsumerCatalogHistory]
  | PubMediaFile a u : published (CatalogMediaFileSubject a u) StreamEvents [ConsumerCatalogHistory]
  | PubListSynced u : published (CatalogImportListSyncedSubject u) StreamEvents [ConsumerCatalogHistory]
  | PubIndexer a u : published (IndexerEventSubject a u) StreamEvents [ConsumerCatalogHistory]
  | PubDownload a u : published (DownloadEventSubject a u) StreamEvents [ConsumerCatalogHistory]
  | PubTranscode a u : published (TranscodeEventSubject a u) StreamEvents [ConsumerCatalogHistory]
  | PubSubtitle a u : published (SubtitleEventSubject a u) StreamEvents [ConsumerCatalogHistory]
  | PubRel p i n : published (ReleaseSubject p i n) StreamReleases [ConsumerCatalogRSSMatcher]
  | PubSearch p k : Priority_Valid p = true ->
      published (WorkSearchSubject p k) StreamWorkCatalog [search_lane p]
  | PubMetadata p k : published (WorkMetadataSubject p k) StreamWorkCatalog [ConsumerCatalogMetadata]
  | PubPlan k : published (WorkSegmentsPlanSubject k) StreamWorkMarkers [ConsumerCatalogSegmentsPlan]
  | PubAnalyze k : published (WorkSegmentsAnalyzeSubject k) StreamWorkMarkers [ConsumerMarkersAnalyze]
  | PubMarkers k : published (WorkMarkersSubject k) StreamWorkMarkers [ConsumerCatalogMarkers]
  | PubWanted n : published (WorkWantedScanSubject n) StreamWorkCatalog [ConsumerCatalogSearchNorm]
  | PubScan f : published (WorkScanSubject f) StreamWorkImport [ConsumerImportScan]
  | PubList l : published (WorkListSubject l) StreamWorkImport [ConsumerImportList]
  | PubFileImport u : published (WorkFileImportSubject u) StreamWorkImport [ConsumerImportFile]
  | PubInspect u : published (WorkImportInspectSubject u) StreamWorkImport [ConsumerImportFile]
  | PubExecute u : published (WorkImportExecuteSubject u) StreamWorkImport [ConsumerImportFile]
  | PubSweep : published SubjectImportRecycleSweep StreamWorkImport [ConsumerImportRecycle]
  | PubRecycle i : published (SubjectImportRecycleFiles i) StreamWorkImport [ConsumerImportRecycle]
  | PubRSS u : published (WorkRSSSubject u) StreamWorkIndex [ConsumerIndexRSS]
  | PubFetch p u l : Priority_Valid p = true ->
      published (WorkFetchSubject p u l) StreamWorkCaption [fetch_lane p]
  | PubArtwork k : published (WorkArtworkFetchSubject k) StreamWorkCatalog [ConsumerCatalogArtworkFetch]
  | PubRender k : published (WorkArtworkRenderSubject k) StreamWorkCatalog [ConsumerCatalogArtworkRender]
  | PubImageSet k : published (WorkImageSetSubject k) StreamWorkCatalog [ConsumerCatalogImageSet]
  | PubProbe p k : published (WorkProbeSubject p k) StreamWorkProbe [probe_lane p]
  | PubDLQ s t i : published (DLQSubject s t i) StreamDLQ [ConsumerDLQProjector]
  | PubCandidate k u : published (IntakeCandidateSubject k u) StreamIntake [ConsumerIntakeCandidate]
  | PubScanned n u : published (IntakeScanSubject n u) StreamIntake [ConsumerIntakeScan]
  | PubTask p c u : published (WorkTranscodeTaskSubject p c u) StreamWorkTranscode []
  | PubEngine c o u : 0 <= o -> published (WorkEngineSubject c o u) StreamWorkEngine [].

Create HintDb subjects.
#[export] Hint Unfold CatalogItemSubject CatalogReleaseSubject CatalogMediaFileSubject
  CatalogImportListSyncedSubject IndexerEventSubject DownloadEventSubject TranscodeEventSubject
  SubtitleEventSubject ReleaseSubject WorkSearchSubject WorkMetadataSubject WorkSegmentsPlanSubject
  WorkSegmentsAnalyzeSubject WorkMarkersSubject WorkWantedScanSubject WorkScanSubject WorkListSubject
  WorkFileImportSubject WorkImportInspectSubject WorkImportExecuteSubject SubjectImportRecycleFiles
  WorkRSSSubject WorkFetchSubject WorkArtworkFetchSubject WorkArtworkRenderSubject WorkImageSetSubject
  DLQSubject IntakeCandidateSubject IntakeScanSubject WorkTranscodeTaskSubject : subjects.

(** Split a built subject, then forget what its tokens are made of. *)
Ltac subject_tokens :=
  autounfold with subjects;
  match goal with
  | |- Split "." (?lit +:+ _) = _ =>
      rewrite (Split_prefix "." lit) by reflexivity;
      let p := constr:(removelast (Split "." lit)) in
      let p' := eval vm_compute in p in
      change p with p'
  end;
  repeat first [rewrite Split_step by first [solve [auto] | exact eq_refl]
    | rewrite Split_last by first [solve [auto] | exact eq_refl]];
  reflexivity.

Ltac forget_tokens :=
  repeat match goal with
  | |- context [tok ?x] => generalize (tok x); intros ?
  | |- context [KVKeyToken ?x] => generalize (KVKeyToken x); intros ?
  | |- context [fmt_d ?x] => generalize (fmt_d x); intros ?
  end.

Lemma tok_priority p : Priority_Valid p = true -> tok p = p.
Proof.
  unfold Priority_Valid. intros H. apply orb_prop in H as [H | H]; [apply orb_prop in H as [H | H] |];
    apply String.eqb_eq in H as ->; reflexivity.
Qed.

Lemma Priority_Valid_cases p : Priority_Valid p = true ->
  p = PriorityHigh \/ p = PriorityNormal \/ p = PriorityLow.
Proof.
  unfold Priority_Valid. destruct (String.eqb p PriorityHigh) eqn:E1; [bools; auto |].
  destruct (String.eqb p PriorityNormal) eqn:E2; [bools; auto |]. cbn. intros. bools. auto.
Qed.

(** A message is stored on the one stream meant for it, whatever its
    variable parts hold, and is taken there by exactly the durables meant to
    take it. *)
Theorem published_is_routed `{Unicode} subject st ds : published subject st ds ->
  (exists s, StreamForSubject Default subject = Some s /\ ssName s = st) /\ durables_for subject = ds.
Proof.
  intros Hp.
  destruct Hp as [| | | | | | | | | p k Hv | | | | | | | | | | | | | | p u l Hv | | | | p k | | | | | c o u Ho].
  all: try (eapply route_spec; [done | subject_tokens | forget_tokens; vm_compute; reflexivity]).
  - autounfold with subjects. rewrite (tok_priority p Hv).
    destruct (Priority_Valid_cases p Hv) as [-> | [-> | ->]];
      (eapply route_spec; [done | subject_tokens | forget_tokens; vm_compute; reflexivity]).
  - eapply route_spec; [done | reflexivity | vm_compute; reflexivity].
  - autounfold with subjects. rewrite (tok_priority p Hv).
    destruct (Priority_Valid_cases p Hv) as [-> | [-> | ->]];
      (eapply route_spec; [done | subject_tokens | forget_tokens; vm_compute; reflexivity]).
  - unfold WorkProbeSubject, probe_lane. destruct (String.eqb p PriorityHigh);
      (eapply route_spec; [done | subject_tokens | forget_tokens; vm_compute; reflexivity]).
  - eapply route_spec; [done | |].
    + unfold WorkEngineSubject. change ("." +:+ KVKeyToken u) with (String "." (KVKeyToken u)).
      rewrite engine_subject_split by done. rewrite Split_last by auto. reflexivity.
    + forget_tokens. vm_compute. reflexivity.
Qed.

(** ** No two streams and no two durables compete *)

(** Whether some subject matches both filters, on their tokens. *)
Fixpoint overlap (f g : list string) : bool :=
  match f, g with
  | [], [] => true
  | x :: f', y :: g' =>
      if String.eqb x ">" || String.eqb y ">" then true
      else if String.eqb x "*" || String.eqb y "*" || String.eqb x y then overlap f' g' else false
  | _, _ => false
  end.

Definition filters_overlap (f g : string) : bool :=
  String.eqb f "" || String.eqb f ">" || String.eqb g "" || String.eqb g ">"
  || overlap (Split "." f) (Split "." g).

Lemma overlap_complete f g s : match_tokens f s = true -> match_tokens g s = true -> overlap f g = true.
Proof.
  revert g s. induction f as [| x f IH]; intros g s; cbn [match_tokens overlap].
  - destruct s; [| done]. destruct g as [| y g]; [done |]. cbn. by destruct (String.eqb y ">").
  - destruct (String.eqb x ">") eqn:Ex.
    { destruct s; [done |]. by destruct g. }
    destruct s as [| t s]; [done |]. destruct g as [| y g]; [done |]. cbn [match_tokens].
    destruct (String.eqb y ">") eqn:Ey; [by rewrite orb_true_r |].
    destruct (negb (String.eqb x "*") && negb (String.eqb x t)) eqn:E1; [done |].
    destruct (negb (String.eqb y "*") && negb (String.eqb y t)) eqn:E2; [done |].
    intros Hf Hg. rewrite orb_false_r.
    replace (String.eqb x "*" || String.eqb y "*" || String.eqb x y) with true; [by eapply IH |].
    apply andb_false_iff in E1 as [E1 | E1], E2 as [E2 | E2]; bools; subst; cbn;
      by rewrite ?String.eqb_refl, ?orb_true_r.
Qed.

Lemma filters_overlap_complete f g subject :
  SubjectMatches f subject = true -> SubjectMatches g subject = true -> filters_overlap f g = true.
Proof.
  unfold SubjectMatches, filters_overlap.
  destruct (String.eqb f "" || String.eqb f ">"); [done |]. cbn.
  destruct (String.eqb g ""), (String.eqb g ">"); [done.. |]. cbn. apply overlap_complete.
Qed.

(** Every pair of different entries of a list. *)
Fixpoint pairs_ok {A} (ok : A -> A -> bool) (l : list A) : bool :=
  match l with
  | [] => true
  | x :: l' => forallb (ok x) l' && forallb (fun y => ok y x) l' && pairs_ok ok l'
  end.

Lemma pairs_ok_spec {A} (ok : A -> A -> bool) l x y :
  pairs_ok ok l = true -> x ∈ l -> y ∈ l -> x = y \/ ok x y = true.
Proof.
  induction l as [| z l IH]; [intros _ H; by apply elem_of_nil in H |].
  cbn. intros H Hx Hy. bools. rewrite forallb_forall in *.
  apply list.elem_of_cons in Hx as [-> | Hx], Hy as [-> | Hy]; [by left | right | right | by apply IH].
  - apply list_elem_of_In in Hy. auto.
  - apply list_elem_of_In in Hx. auto.
Qed.

Definition disjoint_filters (fs gs : list string) : bool :=
  negb (existsb (fun f => existsb (filters_overlap f) gs) fs).

Lemma disjoint_filters_spec fs gs subject : disjoint_filters fs gs = true ->
  existsb (fun f => SubjectMatches f subject) fs = true ->
  existsb (fun f => SubjectMatches f subject) gs = true -> False.
Proof.
  unfold disjoint_filters. intros Hd Hf Hg. bools.
  apply existsb_exists in Hf as (f & Hf & Mf), Hg as (g & Hg & Mg).
  assert (existsb (fun f => existsb (filters_overlap f) gs) fs = true); [| congruence].
  apply existsb_exists. exists f. split; [done |]. apply existsb_exists. exists g. split; [done |].
  by eapply filters_overlap_complete.
Qed.

Definition is_work_queue (t : Topology) (name : string) : bool :=
  match Topology_Stream t name with
  | Some s => bool_decide (ssRetention s = RetentionWorkQueue)
  | None => false
  end.

Definition covers (s : StreamSpec) (subject : string) : bool :=
  existsb (fun f => SubjectMatches f subject) (ssSubjects s).

(** No subject belongs to two streams of the layout, and no message of a
    work queue is taken by two of its durables: each task is run by one pool. *)
Theorem one_stream_one_durable (subject : string) :
  (forall s s', s ∈ Streams Default -> s' ∈ Streams Default ->
    covers s subject = true -> covers s' subject = true -> s = s') /\
  (forall c c', c ∈ Consumers Default -> c' ∈ Consumers Default -> csStream c = csStream c' ->
    is_work_queue Default (csStream c) = true ->
    takes subject c = true -> takes subject c' = true -> c = c').
Proof.
  split.
  - intros s s' Hs Hs' H H'.
    assert (pairs_ok (fun s s' => disjoint_filters (ssSubjects s) (ssSubjects s')) (Streams Default) = true) as Hp
      by (vm_compute; reflexivity).
    destruct (pairs_ok_spec _ _ _ _ Hp Hs Hs') as [-> | Hd]; [done |].
    destruct (disjoint_filters_spec _ _ _ Hd H H').
  - intros c c' Hc Hc' Hst Hw H H'.
    assert (pairs_ok (fun c c' => negb (String.eqb (csStream c) (csStream c'))
      || negb (is_work_queue Default (csStream c)) || disjoint_filters (csFilters c) (csFilters c'))
      (Consumers Default) = true) as Hp by (vm_compute; reflexivity).
    destruct (pairs_ok_spec _ _ _ _ Hp Hc Hc') as [-> | Hd]; [done |].
    rewrite Hst, String.eqb_refl, <- Hst, Hw in Hd. cbn in Hd.
    destruct (disjoint_filters_spec _ _ _ Hd H H').
Qed.

Lemma one_stream_one_durable_witness : exists s, s ∈ Streams Default /\ covers s "clustarr.dlq.a.b.c" = true /\
  forall s', s' ∈ Streams Default -> covers s' "clustarr.dlq.a.b.c" = true -> s' = s.
Proof.
  destruct (List.find (fun s => covers s "clustarr.dlq.a.b.c") (Streams Default)) as [s |] eqn:E;
    [| vm_compute in E; discriminate].
  destruct (List.find_some _ _ E) as [Hi Hc]. apply list_elem_of_In in Hi.
  exists s. split_and!; [done | done |]. intros s' Hs' Hc'.
  exact (proj1 (one_stream_one_durable "clustarr.dlq.a.b.c") s' s Hs' Hi Hc' Hc).
Defined.

(** ** Scheduled messages *)

(** A filter that reads at most the service of a work subject: held and
    published subjects look alike to it. *)
Definition reads_service (f : list string) : bool :=
  match f with
  | t0 :: t1 :: t2 :: t3 :: _ =>
      String.eqb t0 ">" || negb (String.eqb t0 "*" || String.eqb t0 "clustarr")
      || String.eqb t1 ">" || negb (String.eqb t1 "*" || String.eqb t1 "work")
      || String.eqb t2 ">" || String.eqb t3 ">"
  | t0 :: t1 :: t2 :: _ =>
      String.eqb t0 ">" || negb (String.eqb t0 "*" || String.eqb t0 "clustarr")
      || String.eqb t1 ">" || negb (String.eqb t1 "*" || String.eqb t1 "work")
      || String.eqb t2 ">"
  | t0 :: t1 :: _ => String.eqb t0 ">" || String.eqb t1 ">"
  | _ => false
  end.

(** A filter no held subject matches. *)
Definition refuses_held (f : list string) : bool :=
  match f with
  | t0 :: t1 :: t2 :: t3 :: _ =>
      negb (String.eqb t0 ">")
      && (negb (String.eqb t0 "*" || String.eqb t0 "clustarr")
          || negb (String.eqb t1 ">")
             && (negb (String.eqb t1 "*" || String.eqb t1 "work")
                 || negb (String.eqb t2 ">") && negb (String.eqb t3 ">")
                    && negb (String.eqb t3 "*" || String.eqb t3 "sched")))
  | t0 :: t1 :: t2 :: [] =>
      negb (String.eqb t0 ">")
      && (negb (String.eqb t0 "*" || String.eqb t0 "clustarr")
          || negb (String.eqb t1 ">") && negb (String.eqb t1 "*" || String.eqb t1 "work"))
  | _ => false
  end.

Lemma match_cons x f t s : match_tokens (x :: f) (t :: s) =
  if String.eqb x ">" then true
  else if negb (String.eqb x "*" || String.eqb x t) then false else match_tokens f s.
Proof. cbn. by rewrite negb_orb. Qed.

Lemma refuses_held_spec f x l : refuses_held f = true ->
  match_tokens f ("clustarr" :: "work" :: x :: "sched" :: l) = false.
Proof.
  destruct f as [| t0 [| t1 [| t2 [| t3 f]]]]; cbn [refuses_held]; [done.. | |];
    intros H; repeat (apply andb_prop in H as [? H]); rewrite match_cons;
    destruct (String.eqb t0 ">"); try done;
    destruct (negb (String.eqb t0 "*" || String.eqb t0 "clustarr")); try done; cbn [orb] in H;
    repeat (apply andb_prop in H as [? H]); rewrite match_cons;
    destruct (String.eqb t1 ">"); try done; cbn in H;
    destruct (negb (String.eqb t1 "*" || String.eqb t1 "work")); try done; cbn [orb] in H.
  repeat (apply andb_prop in H as [? H]). rewrite match_cons. destruct (String.eqb t2 ">"); [done |].
  destruct (negb (String.eqb t2 "*" || String.eqb t2 x)); [done |].
  rewrite match_cons, H. by destruct (String.eqb t3 ">").
Qed.

Lemma reads_service_spec f x y z l : reads_service f = true ->
  match_tokens f ("clustarr" :: "work" :: x :: "sched" :: y :: z :: l) =
  match_tokens f ("clustarr" :: "work" :: x :: y :: z :: l).
Proof.
  destruct f as [| t0 [| t1 [| t2 [| t3 f]]]]; cbn [reads_service]; [done.. | | |];
    intros H; rewrite !match_cons;
    destruct (String.eqb t0 ">"); try done; cbn [orb] in H;
    destruct (negb (String.eqb t0 "*" || String.eqb t0 "clustarr")); try done; cbn [orb] in H;
    destruct (String.eqb t1 ">"); try done; cbn [orb] in H;
    destruct (negb (String.eqb t1 "*" || String.eqb t1 "work")); try done; cbn [orb] in H;
    destruct (String.eqb t2 ">"); try done; cbn [orb] in H.
  rewrite H. by destruct (negb _).
Qed.

Definition proper_filter (p : list string -> bool) (f : string) : bool :=
  negb (String.eqb f "" || String.eqb f ">") && p (Split "." f).

Lemma proper_match p f s : proper_filter p f = true -> s <> "" ->
  p (Split "." f) = true /\ SubjectMatches f s = match_tokens (Split "." f) (Split "." s).
Proof.
  unfold proper_filter. intros H Hs. apply andb_prop in H as [Hn Hp]. split; [done |].
  rewrite SubjectMatches_tokens by done. unfold tokens_match. by apply negb_true_iff in Hn as ->.
Qed.

Lemma ScheduleSubject_tokens target held : ScheduleSubject target = Some held ->
  exists x y z l, Split "." target = "clustarr" :: "work" :: x :: y :: z :: l /\
    Split "." held = "clustarr" :: "work" :: x :: "sched" :: y :: z :: l.
Proof.
  unfold ScheduleSubject. pose proof (Split_no_sep "." target) as Hn.
  destruct (Split "." target) as [| a [| b [| x [| y [| z l]]]]]; [done.. |].
  destruct (negb (String.eqb (nth 0 _ "") "clustarr")) eqn:Ea; [by rewrite orb_true_r |].
  destruct (negb (String.eqb (nth 1 _ "") "work")) eqn:Eb; [by rewrite orb_true_r |].
  cbn [nth] in Ea, Eb. bools. subst a b. intros Hs. exists x, y, z, l. split; [done |].
  repeat (apply list.Forall_cons in Hn as [? Hn]).
  assert (held = Join ["clustarr"; "work"; x] "." +:+ ".sched." +:+ Join (y :: z :: l) ".") as ->
    by (by apply (inj Some); rewrite <- Hs).
  clear Hs. replace (Join ["clustarr"; "work"; x] "." +:+ ".sched." +:+ Join (y :: z :: l) ".")
    with (Join ("clustarr" :: "work" :: x :: "sched" :: y :: z :: l) ".").
  { apply (Split_Join "."); [done |]. repeat (constructor; [done |]). done. }
  change (Join ["clustarr"; "work"; x] ".") with ("clustarr" +:+ "." +:+ "work" +:+ "." +:+ x).
  change (Join ("clustarr" :: "work" :: x :: "sched" :: y :: z :: l) ".")
    with ("clustarr" +:+ "." +:+ "work" +:+ "." +:+ x +:+ ".sched." +:+ Join (y :: z :: l) ".").
  by rewrite !str_app_assoc.
Qed.

Lemma Split_ne s a b l : Split "." s = a :: b :: l -> s <> "".
Proof. by intros H ->. Qed.

(** The subject a scheduled task is held on is stored on its target's own
    stream, and no durable of the layout takes it before the broker fires it at
    its target. *)
Theorem schedule_is_held (target held : string) : ScheduleSubject target = Some held ->
  StreamForSubject Default held = StreamForSubject Default target /\
  forall c, c ∈ Consumers Default -> takes held c = false.
Proof.
  intros Hs. destruct (ScheduleSubject_tokens _ _ Hs) as (x & y & z & l & Et & Eh).
  pose proof (Split_ne _ _ _ _ Et) as Nt. pose proof (Split_ne _ _ _ _ Eh) as Nh. split.
  - assert (forallb (fun s => forallb (proper_filter reads_service) (ssSubjects s)) (Streams Default) = true) as Hp
      by (vm_compute; reflexivity).
    unfold StreamForSubject. revert Hp. generalize (Streams Default). intros ss.
    induction ss as [| s ss IH]; [done |]. cbn. intros Hp. bools. rewrite IH by done.
    replace (existsb (fun f => SubjectMatches f held) (ssSubjects s))
      with (existsb (fun f => SubjectMatches f target) (ssSubjects s)); [done |].
    assert (forallb (proper_filter reads_service) (ssSubjects s) = true) as Hf by done.
    revert Hf. generalize (ssSubjects s). intros fs. induction fs as [| f fs IHf]; [done |]. cbn. intros Hf. bools.
    rewrite IHf by done. f_equal.
    destruct (proper_match reads_service f target) as [Hr ->]; [done.. |].
    destruct (proper_match reads_service f held) as [_ ->]; [done.. |].
    by rewrite Et, Eh, reads_service_spec.
  - intros c Hc.
    assert (forallb (fun c => forallb (proper_filter refuses_held) (csFilters c)) (Consumers Default) = true) as Hp
      by (vm_compute; reflexivity).
    rewrite forallb_forall in Hp. apply list_elem_of_In in Hc. specialize (Hp c Hc).
    unfold takes. revert Hp. generalize (csFilters c). intros fs.
    induction fs as [| f fs IH]; [done |]. cbn. intros Hp. bools. rewrite IH, orb_false_r by done.
    destruct (proper_match refuses_held f held) as [Hr ->]; [done.. |].
    by rewrite Eh, refuses_held_spec.
Qed.

Lemma schedule_is_held_witness :
  exists held, ScheduleSubject (WorkSearchSubject PriorityHigh "movie-1") = Some held /\
    StreamForSubject Default held = StreamForSubject Default (WorkSearchSubject PriorityHigh "movie-1").
Proof.
  exists "clustarr.work.catalog.sched.search.high.movie-1".
  assert (ScheduleSubject (WorkSearchSubject PriorityHigh "movie-1")
    = Some "clustarr.work.catalog.sched.search.high.movie-1") as H by (vm_compute; reflexivity).
  split; [exact H |]. exact (proj1 (schedule_is_held _ _ H)).
Defined.

Lemma published_is_routed_witness :
  durables_for (WorkSearchSubject PriorityHigh "movie-1") = [ConsumerCatalogSearchHigh].
Proof.
  exact (proj2 (@published_is_routed ascii_unicode _ _ _ (@PubSearch ascii_unicode PriorityHigh "movie-1" eq_refl))).
Defined.
