(* ===== verification/TopologyFacts.v ===== *)
(** * Theorems about a topology: the single-node budget and what Validate decides

    [scaleToBudget] ends, keeps every stream usable and the total inside the
    budget; [Validate] finds no error exactly in a well-formed topology. *)

From S2P Require Import Prelude GoLang GoFacts Events KV Subjects Topology Layout.
From Stdlib Require Import Ascii.

(** ** The single-node budget *)

Fixpoint Zsum (l : list Z) : Z := match l with [] => 0 | x :: l' => x + Zsum l' end.

Lemma Zsum_nonneg l : Forall (fun x => 0 <= x) l -> 0 <= Zsum l.
Proof. induction 1; cbn; lia. Qed.

(** A sum of counts that fits does not wrap. *)
Lemma sum64_from acc l : Forall (fun x => 0 <= x) l -> 0 <= acc -> acc + Zsum l <= MaxInt64 ->
  fold_left (fun a x => wrap64 (a + x)) l acc = acc + Zsum l.
Proof.
  intros Hl. revert acc. induction Hl as [| x l Hx Hl IH]; intros acc Ha Hs; cbn in *; [lia |].
  pose proof (Zsum_nonneg l Hl).
  rewrite wrap64_id by (unfold is_int64, MinInt64, two_p63 in *; lia). rewrite IH; lia.
Qed.

Lemma sum64_id l : Forall (fun x => 0 <= x) l -> Zsum l <= MaxInt64 -> sum64 l = Zsum l.
Proof. intros Hl Hs. unfold sum64. rewrite sum64_from; lia || done. Qed.

(** A stream's bytes while it is not floored, and the flags of the floored. *)
Definition open_bytes (s : StreamSpec) (f : bool) : Z :=
  if (0 <? ssMaxBytes s) && negb f then ssMaxBytes s else 0.

(** What the flags mark: streams with a byte limit only. *)
Definition flags_ok (streams : list StreamSpec) (floored : list bool) : Prop :=
  Forall2 (fun s f => f = true -> 0 < ssMaxBytes s) streams floored.

Definition total_bytes (streams : list StreamSpec) : Z :=
  Zsum (map (fun s => Z.max (ssMaxBytes s) 0) streams).
Definition limited (streams : list StreamSpec) : Z :=
  Z.of_nat (length (List.filter (fun s => 0 <? ssMaxBytes s) streams)).

Lemma open_bytes_nonneg streams floored : Forall (fun x => 0 <= x) (zip_with open_bytes streams floored).
Proof.
  revert floored. induction streams as [| s l IH]; intros [| f fl]; cbn; constructor; [| apply IH].
  unfold open_bytes. destruct (0 <? ssMaxBytes s) eqn:E; bools; case_match; lia.
Qed.

Lemma open_bytes_total streams floored : Zsum (zip_with open_bytes streams floored) <= total_bytes streams.
Proof.
  unfold total_bytes. revert floored.
  induction streams as [| s l IH]; intros [| f fl]; cbn; [lia.. | |].
  - pose proof (Zsum_nonneg (map (fun s => Z.max (ssMaxBytes s) 0) l)). cbn in *.
    assert (Forall (fun x => 0 <= x) (map (fun s => Z.max (ssMaxBytes s) 0) l)) as Hf
      by (clear; induction l; constructor; [lia | done]).
    specialize (H Hf). lia.
  - specialize (IH fl). unfold open_bytes at 1. case_match; bools; lia.
Qed.

Lemma total_nonneg streams : 0 <= total_bytes streams.
Proof. apply Zsum_nonneg. induction streams; constructor; [lia | done]. Qed.

Lemma count_limited streams floored : flags_ok streams floored -> count_true floored <= limited streams.
Proof.
  unfold count_true, limited. induction 1 as [| s f l fl Hs Hl IH]; cbn; [lia |].
  destruct f; cbn; [| destruct (0 <? ssMaxBytes s); cbn; lia].
  specialize (Hs eq_refl). replace (0 <? ssMaxBytes s) with true by lia. cbn. lia.
Qed.

Section Budget.
Variables (streams : list StreamSpec) (budget floor : Z).
Hypotheses (Hfloor : 0 < floor) (Hroom : limited streams * floor <= budget)
  (Hwide : total_bytes streams * budget <= MaxInt64) (Hbudget : budget <= MaxInt64).

Lemma budget_pos : 0 <= budget.
Proof. assert (0 <= limited streams) by (unfold limited; lia). nia. Qed.

Lemma total_int64 : total_bytes streams <= MaxInt64.
Proof.
  pose proof budget_pos. pose proof (total_nonneg streams).
  destruct (Z.eq_dec budget 0) as [Hb |]; [| nia].
  (* with no budget there is no limited stream, so nothing to total *)
  assert (limited streams = 0) as Hn by (unfold limited in *; nia).
  enough (total_bytes streams = 0) by (unfold MaxInt64, two_p63; lia).
  unfold limited in Hn. unfold total_bytes. clear -Hn. induction streams as [| s l IH]; [done |]. cbn in *.
  destruct (0 <? ssMaxBytes s) eqn:E; [cbn in Hn; lia |]. bools. rewrite IH by done. lia.
Qed.

Lemma left_exact floored : flags_ok streams floored ->
  scale_left budget floor floored = budget - count_true floored * floor /\
  0 <= scale_left budget floor floored <= budget.
Proof.
  intros Hf. pose proof (count_limited _ _ Hf). pose proof budget_pos. pose proof total_int64.
  pose proof (total_nonneg streams).
  assert (0 <= count_true floored) by (unfold count_true; lia).
  assert (count_true floored * floor <= budget) by nia.
  assert (0 <= count_true floored * floor) by nia.
  unfold scale_left. rewrite (wrap64_id (count_true floored * floor)) by (unfold is_int64, MinInt64, MaxInt64, two_p63 in *; lia).
  rewrite wrap64_id by (unfold is_int64, MinInt64, MaxInt64, two_p63 in *; lia). lia.
Qed.

Lemma rest_exact floored : scale_rest streams floored = Zsum (zip_with open_bytes streams floored).
Proof.
  unfold scale_rest. rewrite sum64_id; [done | apply open_bytes_nonneg |].
  pose proof (open_bytes_total streams floored). pose proof total_int64.
  change (zip_with _ streams floored) with (zip_with open_bytes streams floored). lia.
Qed.

Lemma Zsum_le_in l x : Forall (fun y => 0 <= y) l -> x ∈ l -> x <= Zsum l.
Proof.
  induction 1 as [| y l Hy Hl IH]; [intros H; by apply elem_of_nil in H |].
  intros Hx. apply list.elem_of_cons in Hx as [-> | Hx]; cbn.
  - pose proof (Zsum_nonneg l Hl). lia.
  - specialize (IH Hx). lia.
Qed.

(** An open stream's share, without overflow. *)
Lemma share_exact floored s left : s ∈ streams -> 0 < ssMaxBytes s -> 0 <= left <= budget ->
  share left (scale_rest streams floored) s = Z.quot (ssMaxBytes s * left) (scale_rest streams floored).
Proof.
  intros Hs Hp Hleft.
  assert (ssMaxBytes s <= total_bytes streams).
  { apply Zsum_le_in.
    - clear. induction streams; constructor; [lia | done].
    - apply list_elem_of_fmap. exists s. split; [lia | done]. }
  pose proof budget_pos.
  assert (0 <= ssMaxBytes s * left <= MaxInt64) by nia.
  unfold share. rewrite (wrap64_id (_ * left)) by (unfold is_int64, MinInt64, MaxInt64, two_p63 in *; lia).
  rewrite wrap64_id; [done |].
  pose proof (Zsum_nonneg _ (open_bytes_nonneg streams floored)) as Hn. rewrite <- rest_exact in Hn.
  unfold is_int64, MinInt64, two_p63.
  destruct (Z.eq_dec (scale_rest streams floored) 0) as [-> |]; [rewrite Z.quot_0_r_ext by done; lia |].
  rewrite Z.quot_div_nonneg by lia.
  split; [pose proof (Z.div_pos (ssMaxBytes s * left) (scale_rest streams floored)); lia |].
  etransitivity; [apply Z.div_le_upper_bound with (q := ssMaxBytes s * left); nia | lia].
Qed.

(** One turn of the loop, on one stream. *)
Lemma marks_ok left rest floored : flags_ok streams floored ->
  flags_ok streams (zip_with (scale_mark left rest floor) streams floored).
Proof.
  unfold flags_ok. clear. induction 1 as [| s f l fl Hs Hl IH]; cbn; constructor; [| done].
  unfold scale_mark. case_match; bools; auto.
Qed.

Lemma mark_true left rest s : scale_mark left rest floor s true = true.
Proof. unfold scale_mark. by rewrite andb_false_r. Qed.

Lemma marks_grow left rest floored : flags_ok streams floored ->
  zip_with (scale_mark left rest floor) streams floored <> floored ->
  count_true floored < count_true (zip_with (scale_mark left rest floor) streams floored).
Proof.
  unfold flags_ok, count_true. intros Hf.
  assert (count_true floored <= count_true (zip_with (scale_mark left rest floor) streams floored)
    /\ (count_true floored = count_true (zip_with (scale_mark left rest floor) streams floored) ->
        zip_with (scale_mark left rest floor) streams floored = floored)) as [Hle Heq].
  { unfold count_true. clear -Hf. induction Hf as [| s f l fl Hs Hl [IH1 IH2]]; cbn; [done |].
    destruct f; [rewrite mark_true; cbn | destruct (scale_mark left rest floor s false); cbn];
      (split; [lia |]); intros; [f_equal; apply IH2; lia | lia | f_equal; apply IH2; lia]. }
  unfold count_true in *. intros Hne. destruct (Z.eq_dec (Z.of_nat (length (List.filter id floored)))
    (Z.of_nat (length (List.filter id (zip_with (scale_mark left rest floor) streams floored))))); [| lia].
  by destruct Hne; apply Heq.
Qed.

(** What a scaled stream is of the stream it was. *)
Definition scaled (s o : StreamSpec) : Prop :=
  o = s <| ssMaxBytes := ssMaxBytes o |> /\
  (ssMaxBytes s <= 0 -> o = s) /\ (0 < ssMaxBytes s -> floor <= ssMaxBytes o).

Lemma marks_fixed left rest floored : flags_ok streams floored ->
  zip_with (scale_mark left rest floor) streams floored = floored ->
  Forall2 (fun s f => 0 < ssMaxBytes s -> f = false -> floor <= share left rest s) streams floored.
Proof.
  unfold flags_ok. clear. induction 1 as [| s f l fl Hs Hl IH]; cbn; intros E; constructor.
  - injection E as E _. intros Hp ->. unfold scale_mark in E.
    destruct (share left rest s <? floor) eqn:Es; bools; [| done].
    replace (0 <? ssMaxBytes s) with true in E by lia. done.
  - injection E as _ E. by apply IH.
Qed.

Lemma written_scaled left rest floored :
  Forall2 (fun s f => 0 < ssMaxBytes s -> f = false -> floor <= share left rest s) streams floored ->
  Forall2 scaled streams (zip_with (scale_write left rest floor) streams floored).
Proof.
  clear -Hfloor. induction 1 as [| s f l fl Hs Hl IH]; cbn; constructor; [| done].
  unfold scale_write, scaled. destruct (ssMaxBytes s <=? 0) eqn:E; bools.
  - split; [by destruct s |]. split; [done | lia].
  - destruct f; cbn; (split; [done |]); (split; [lia |]); intros Hp; [lia | by apply Hs].
Qed.

(** The parts of a budget in proportion never exceed it. *)
Definition part (left rest a : Z) : Z := Z.quot (a * left) rest.

Lemma part_0 left rest : part left rest 0 = 0.
Proof. unfold part. destruct (Z.eq_dec rest 0) as [-> |]; [by rewrite Z.quot_0_r_ext | by apply Z.quot_0_l]. Qed.

Lemma part_nonneg left rest a : 0 <= left -> 0 <= rest -> 0 <= a -> 0 <= part left rest a.
Proof.
  intros. unfold part. destruct (Z.eq_dec rest 0) as [-> |]; [by rewrite Z.quot_0_r_ext |].
  apply Z.quot_pos; nia.
Qed.

Lemma parts_fit l left rest : 0 < rest -> 0 <= left -> Forall (fun x => 0 <= x) l ->
  rest * Zsum (map (part left rest) l) <= Zsum l * left.
Proof.
  clear. intros HR HL. induction 1 as [| a l Ha Hl IH]; cbn [map Zsum]; [lia |].
  pose proof (Z.mul_quot_le (a * left) rest). unfold part at 1. nia.
Qed.

Lemma written_total floored : flags_ok streams floored ->
  let rest := scale_rest streams floored in let left := scale_left budget floor floored in
  total_bytes (zip_with (scale_write left rest floor) streams floored) <= budget.
Proof.
  intros Hf rest left. destruct (left_exact floored Hf) as [Hleft Hrange]. fold left in Hleft, Hrange.
  assert (total_bytes (zip_with (scale_write left rest floor) streams floored) <=
    count_true floored * floor + Zsum (map (part left rest) (zip_with open_bytes streams floored))) as H1.
  { assert (forall s, s ∈ streams -> 0 < ssMaxBytes s -> share left rest s = part left rest (ssMaxBytes s)) as Hsh
      by (intros; by apply share_exact).
    assert (0 <= rest) as Hrest.
    { subst rest. rewrite rest_exact. apply Zsum_nonneg, open_bytes_nonneg. }
    assert (0 <= left) as Hl0 by lia.
    unfold total_bytes, count_true. clear -Hf Hsh Hfloor Hrest Hl0. clearbody rest left.
    revert Hsh. induction Hf as [| s f l fl Hs Hl IH]; intros Hsh; cbn; [lia |].
    assert (forall s, s ∈ l -> 0 < ssMaxBytes s -> share left rest s = part left rest (ssMaxBytes s)) as Hsh'
      by (intros; apply Hsh; [by right | done]).
    specialize (IH Hsh'). unfold scale_write at 1, open_bytes at 1.
    destruct (ssMaxBytes s <=? 0) eqn:E; bools.
    - replace (0 <? ssMaxBytes s) with false by lia. cbn. rewrite part_0.
      destruct f; [specialize (Hs eq_refl); lia | cbn; lia].
    - replace (0 <? ssMaxBytes s) with true by lia. destruct f; cbn; [rewrite part_0; lia |].
      rewrite Hsh by (done || by left).
      pose proof (part_nonneg left rest (ssMaxBytes s)). lia. }
  pose proof (open_bytes_nonneg streams floored) as Hnn.
  assert (Zsum (map (part left rest) (zip_with open_bytes streams floored)) <= left) as H2; [| lia].
  pose proof (Zsum_nonneg _ Hnn) as Hr0. pose proof (rest_exact floored) as Hre. fold rest in Hre.
  destruct (Z.eq_dec rest 0) as [E0 | Hr].
  - (* nothing is open *)
    enough (Zsum (map (part left rest) (zip_with open_bytes streams floored)) = 0) by lia.
    rewrite E0 in Hre. clear -Hnn Hre. induction Hnn as [| x l Hx Hl IH]; [done |]. cbn in *.
    pose proof (Zsum_nonneg l Hl). assert (x = 0) as -> by lia. rewrite part_0, IH; lia.
  - pose proof (parts_fit _ left rest ltac:(lia) ltac:(lia) Hnn). rewrite <- Hre in *. nia.
Qed.

(** Each turn but the last floors one more, so the fuel is enough. *)
Lemma scale_loop_spec fuel floored : flags_ok streams floored ->
  Z.of_nat (length streams) - count_true floored < Z.of_nat fuel ->
  exists out, scale_loop fuel streams floored budget floor = Some out /\
    total_bytes out <= budget /\ Forall2 scaled streams out.
Proof.
  revert floored. induction fuel as [| k IH]; intros floored Hf Hk.
  - pose proof (count_limited _ _ Hf). exfalso.
    assert (limited streams <= Z.of_nat (length streams)).
    { unfold limited. clear. induction streams as [| s l IHl]; cbn; [lia |].
      destruct (0 <? ssMaxBytes s); cbn; lia. }
    lia.
  - cbn [scale_loop]. set (rest := scale_rest streams floored). set (left := scale_left budget floor floored).
    case_bool_decide as E.
    + eexists. split; [reflexivity |]. split; [by apply written_total |].
      by apply written_scaled, marks_fixed.
    + apply IH; [by apply marks_ok |]. pose proof (marks_grow left rest floored Hf E). lia.
Qed.
End Budget.

(** Fitting the streams to a budget ends, leaves the total inside the budget and
    every limited stream with the floor at least or what it had, and changes
    nothing but byte limits. *)
Lemma budget_kept (streams : list StreamSpec) (budget floor : Z) :
  0 < floor -> limited streams * floor <= budget -> total_bytes streams * budget <= MaxInt64 ->
  budget <= MaxInt64 ->
  exists out, scaleToBudget streams budget floor = Some out /\ total_bytes out <= budget /\
    Forall2 (fun s o => o = s \/ scaled floor s o) streams out.
Proof.
  intros Hfloor Hroom Hwide Hbudget. unfold scaleToBudget.
  assert (sum64 (map (fun s => Z.max (ssMaxBytes s) 0) streams) = total_bytes streams) as ->.
  { apply sum64_id; [clear; induction streams; constructor; [lia | done] |].
    exact (total_int64 streams budget floor Hfloor Hroom Hwide Hbudget). }
  destruct (total_bytes streams <=? budget) eqn:E; bools.
  - exists streams. split; [done |]. split; [done |].
    clear. induction streams; constructor; [by left | done].
  - assert (flags_ok streams (map (fun _ => false) streams)) as Hf
      by (clear; induction streams; constructor; done).
    destruct (scale_loop_spec streams budget floor Hfloor Hroom Hwide Hbudget (S (length streams)) _ Hf)
      as (out & -> & Ht & Hs).
    { unfold count_true. lia. }
    exists out. split; [done |]. split; [done |]. eapply Forall2_impl; [| exact Hs]. intros ? ? ?. by right.
Qed.

Lemma put_back_memory streams memory : Forall (fun s => ssDurable s = false) memory ->
  length memory = length (List.filter (fun s => negb (ssDurable s)) streams) ->
  List.filter (fun s => negb (ssDurable s)) (put_back streams memory) = memory.
Proof.
  revert memory. induction streams as [| s l IH]; intros memory Hm Hl; cbn in *.
  - by destruct memory.
  - destruct (ssDurable s) eqn:E; cbn in *.
    + rewrite E. cbn. by apply IH.
    + destruct memory as [| m memory]; [done |]. apply list.Forall_cons in Hm as [Hm1 Hm]. cbn.
      rewrite Hm1. cbn. f_equal. apply IH; [done |]. by injection Hl.
Qed.

Lemma put_back_same {A} (f : StreamSpec -> A) streams memory :
  Forall2 (fun s o => f o = f s) (List.filter (fun s => negb (ssDurable s)) streams) memory ->
  map f (put_back streams memory) = map f streams.
Proof.
  revert memory. induction streams as [| s l IH]; intros memory Hm; cbn in *; [done |].
  destruct (ssDurable s); cbn in *; [by rewrite IH |].
  inversion Hm as [| ? m ? memory' H1 H2]; subst. cbn. by rewrite H1, IH.
Qed.

(** A topology cut down to one node keeps its streams, durables and
    retention, puts every stream that is not durable in memory, and asks of
    memory no more than the budget while each limited stream keeps the floor or
    what it had. *)
Theorem single_node_fits (t : Topology) :
  let memory := List.filter (fun s => negb (ssDurable s)) (map single_stream (Streams t)) in
  limited memory * singleNodeMinStreamBytes <= singleNodeMemoryBudget ->
  total_bytes memory * singleNodeMemoryBudget <= MaxInt64 ->
  exists t', ForSingleNode t = Some t' /\
    total_bytes (List.filter (fun s => negb (ssDurable s)) (Streams t')) <= singleNodeMemoryBudget /\
    Forall (fun s => ssStorage s = StorageMemory) (List.filter (fun s => negb (ssDurable s)) (Streams t')) /\
    Forall2 (fun s o => o = s \/ scaled singleNodeMinStreamBytes s o) memory
      (List.filter (fun s => negb (ssDurable s)) (Streams t')) /\
    map (fun s => (ssName s, ssSubjects s, ssRetention s)) (Streams t')
      = map (fun s => (ssName s, ssSubjects s, ssRetention s)) (Streams t) /\
    Consumers t' = Consumers t.
Proof.
  intros memory Hn Hw.
  destruct (budget_kept memory singleNodeMemoryBudget singleNodeMinStreamBytes)
    as (out & Ho & Ht & Hs); [done | done | done | done |].
  unfold ForSingleNode. fold memory. rewrite Ho.
  exists (mkTopology (put_back (map single_stream (Streams t)) out) (Consumers t)
    (map single_bucket (Buckets t)) (map (fun o => o <| osReplicas := 1 |>) (ObjectStores t)) (Retired t)).
  split; [reflexivity |]. cbn [Streams Consumers].
  assert (Forall2 (fun s o => ssDurable s = false /\ ssDurable o = false /\ ssStorage o = ssStorage s /\
      (ssName o, ssSubjects o, ssRetention o) = (ssName s, ssSubjects s, ssRetention s)) memory out) as Hso.
  { assert (Forall (fun s => ssDurable s = false) memory) as Hm.
    { apply list.Forall_forall. intros s Hin. apply list_elem_of_In, filter_In in Hin as [_ H].
      by apply negb_true_iff. }
    clear -Hs Hm. induction Hs as [| s o l l' H Hs IH]; constructor;
      apply list.Forall_cons in Hm as [Hd Hm]; [| by apply IH].
    destruct H as [-> | [-> _]]; by rewrite Hd. }
  assert (length out = length memory) as Hlen by (symmetry; by eapply Forall2_length).
  rewrite put_back_memory; [| | by rewrite Hlen].
  2: { clear -Hso. induction Hso as [| ? ? ? ? (_ & H & _) _ IH]; by constructor. }
  split; [done |]. split; [| split; [done |]].
  { assert (Forall (fun s => ssStorage s = StorageMemory) memory) as Hm.
    { apply list.Forall_forall. intros s Hin. apply list_elem_of_In, filter_In in Hin as [Hin H].
      apply in_map_iff in Hin as (s0 & <- & _). revert H. unfold single_stream.
      change (ssDurable (s0 <| ssReplicas := 1 |> <| ssCompression := false |> <| ssDenyDelete := false |>))
        with (ssDurable s0). destruct (ssDurable s0) eqn:E; [| done].
      by change (negb (ssDurable s0) = true -> ssStorage s0 = StorageMemory); rewrite E. }
    clear -Hso Hm. induction Hso as [| s o l l' (_ & _ & H & _) _ IH]; constructor;
      apply list.Forall_cons in Hm as [Hm1 Hm]; [by rewrite H | by apply IH]. }
  split; [| done].
  rewrite (put_back_same (fun s => (ssName s, ssSubjects s, ssRetention s))).
  - rewrite map_map. apply map_ext. intros s. unfold single_stream. by destruct (ssDurable _).
  - fold memory. clear -Hso. induction Hso as [| s o l l' (_ & _ & _ & H) _ IH]; by constructor.
Qed.

Lemma single_node_fits_witness : exists t', ForSingleNode Default = Some t' /\
  total_bytes (List.filter (fun s => negb (ssDurable s)) (Streams t')) <= singleNodeMemoryBudget.
Proof.
  destruct (single_node_fits Default) as (t' & H & Hb & _).
  - vm_compute. discriminate.
  - vm_compute. discriminate.
  - exists t'. split; [exact H | exact Hb].
Defined.
