(* ===== verification/Validated.v ===== *)
(** * Validated: what a topology that passes Validate is

    [Validate] answers no error exactly for the topologies [topology_ok]
    describes, and a filter it accepts lies inside its stream whenever the
    stream's own subjects end in a tail wildcard. *)

From S2P Require Import Prelude GoLang GoFacts Events KV Subjects Topology Layout Routing.
From Stdlib Require Import Ascii.

(** ** Well-formed topologies *)

Definition stream_ok (s : StreamSpec) : Prop :=
  ssName s <> "" /\ ssSubjects s <> [] /\
  (ssRetention s = RetentionWorkQueue ->
    ssAllowMsgSchedules s = true \/ ssName s = StreamAdvisories \/ ssName s = StreamTaskEvents
    \/ ssDiscard s = DiscardNew) /\
  ~ (ssAllowMsgSchedules s = true /\ ssDiscard s = DiscardNew).

(** A subject under a filter, token by token: [*] stands for one token, [>] for
    one or more to the end, any other token for itself. *)
Inductive tokens_under : list string -> list string -> Prop :=
| under_nil : tokens_under [] []
| under_tail f t s : tokens_under (">" :: f) (t :: s)
| under_star f t s : tokens_under f s -> tokens_under ("*" :: f) (t :: s)
| under_same f t s : tokens_under f s -> tokens_under (t :: f) (t :: s).

(** The empty filter is the one that takes everything. *)
Definition under (filter subject : string) : Prop :=
  (filter = "" \/ filter = ">") /\ subject <> "" \/
  filter <> "" /\ filter <> ">" /\ tokens_under (Split "." filter) (Split "." subject).

(** What [Validate] takes for a filter inside a stream's subjects: one of them is
    the filter itself; or takes the one subject that stands for the filter,
    which is [stem.x] for a filter [stem.>] and the filter's own text for any
    other. *)
Definition inside_subjects (subjects : list string) (filter : string) : Prop :=
  exists g, g ∈ subjects /\
    (g = filter \/
     (exists stem, stem <> "" /\ filter = stem +:+ ".>" /\ under g (stem +:+ ".x")) \/
     ((forall stem, filter = stem +:+ ".>" -> stem = "") /\ under g filter)).

(** Nothing, or a whole number of percent from 1 to 100. *)
Definition percent_ok (f : string) : Prop :=
  f = "" \/ exists sign d, (sign = "" \/ sign = "+") /\ d <> "" /\ digits d /\ f = sign +:+ d +:+ "%" /\ 1 <= dec_val d 0 <= 100.

(** A durable on its stream. *)
Definition durable_ok (s : StreamSpec) (c : ConsumerSpec) : Prop :=
  ((csMaxDeliver c = -1 /\ csStream c = StreamAdvisories) \/ Z.of_nat (length (csBackOff c)) < csMaxDeliver c) /\
  1 <= csSlots c <= csMaxAckPending c /\
  csFilters c <> [] /\
  (csRequeueOnStop c = true -> ssRetention s = RetentionWorkQueue) /\
  percent_ok (csSampleFrequency c) /\
  Forall (inside_subjects (ssSubjects s)) (csFilters c).

Definition consumer_ok (t : Topology) (c : ConsumerSpec) : Prop :=
  csName c <> "" /\ exists s, s ∈ Streams t /\ ssName s = csStream c /\ durable_ok s c.

Definition records_ok (b : BucketSpec) : Prop :=
  bsDurable b = true /\ bsHistory b = 1 /\ 0 < bsMaxBytes b /\ 0 < bsMaxValueSize b /\
  (bsTTL b = 0 \/ (bsName b = BucketSearches -> SearchesTTL <= bsTTL b) /\ (bsName b <> BucketSearches -> RecordsMinTTL <= bsTTL b)) /\
  (0 < bsTTL b -> 0 < bsLimitMarkerTTL b).

Definition bucket_ok (b : BucketSpec) : Prop :=
  bsName b <> "" /\ has_char "." (bsName b) = false /\ (bsRecords b = true -> records_ok b).

Definition store_ok (o : ObjectStoreSpec) : Prop :=
  osName o <> "" /\ osChunkSize o <= MaxObjectChunkSize /\ has_char "." (osName o) = false.

Definition retired_ok (t : Topology) (r : RetiredConsumer) : Prop :=
  rcDurable r <> "" /\ (rcDurable r ∉ map csName (Consumers t)) /\
  exists s, s ∈ Streams t /\ ssName s = rcStream r /\
    (rcPurge r = "" \/ inside_subjects (ssSubjects s) (rcPurge r)).

Record topology_ok (t : Topology) : Prop := {
  ok_streams : Forall stream_ok (Streams t);
  ok_stream_names : NoDup (map ssName (Streams t));
  ok_required : StreamDLQ ∈ map ssName (Streams t) /\ StreamAdvisories ∈ map ssName (Streams t);
  ok_consumers : Forall (consumer_ok t) (Consumers t);
  ok_consumer_names : NoDup (map csName (Consumers t));
  ok_buckets : Forall bucket_ok (Buckets t);
  ok_bucket_names : NoDup (map bsName (Buckets t));
  ok_stores : Forall store_ok (ObjectStores t);
  ok_store_names : NoDup (map osName (ObjectStores t));
  ok_retired : Forall (retired_ok t) (Retired t);
}.

(** ** Filters and frequencies *)

Lemma match_tokens_under f s : match_tokens f s = true <-> tokens_under f s.
Proof.
  revert s. induction f as [| x f IH]; intros s.
  { destruct s; split; [constructor | done | done | by inversion 1]. }
  cbn [match_tokens]. destruct (String.eqb_spec x ">") as [-> | Hx].
  { destruct s as [| t s]; split; try done; [by inversion 1 | by constructor]. }
  destruct s as [| t s]; [split; [done | by inversion 1] |].
  destruct (String.eqb_spec x "*") as [-> | Hs]; cbn [negb andb].
  { rewrite IH. split; [by constructor |]. by inversion 1. }
  destruct (String.eqb_spec x t) as [-> | Ht]; cbn [negb].
  - rewrite IH. split; [by constructor |]. by inversion 1.
  - split; [done |]. by inversion 1.
Qed.

Lemma SubjectMatches_under g s : SubjectMatches g s = true <-> under g s.
Proof.
  unfold SubjectMatches, under. destruct (String.eqb_spec g "") as [-> | H1]; cbn [orb].
  { rewrite negb_true_iff, String.eqb_neq. naive_solver. }
  destruct (String.eqb_spec g ">") as [-> | H2]; [rewrite negb_true_iff, String.eqb_neq | rewrite match_tokens_under]; naive_solver.
Qed.

Lemma str_take_drop n s : str_take n s +:+ str_drop n s = s.
Proof. revert s. induction n as [| n IH]; intros [| a s]; cbn; [done.. |]. by rewrite app_cons, IH. Qed.

Lemma str_drop_app_l s t : str_drop (String.length s) (s +:+ t) = t.
Proof. induction s as [| a s IH]; [by destruct t |]. rewrite app_cons. exact IH. Qed.
Lemma str_take_app_l s t : str_take (String.length s) (s +:+ t) = s.
Proof. induction s as [| a s IH]; [by destruct t |]. rewrite app_cons. cbn. by rewrite IH. Qed.

Lemma stem_of f stem : f = stem +:+ ".>" -> str_drop (String.length f - 2) f = ".>" /\ str_take (String.length f - 2) f = stem.
Proof.
  intros ->. rewrite str_length_app. cbn [String.length]. replace (String.length stem + 2 - 2)%nat with (String.length stem) by lia.
  by rewrite str_drop_app_l, str_take_app_l.
Qed.

Lemma stem_given f : Nat.ltb 2 (String.length f) && String.eqb (str_drop (String.length f - 2) f) ".>" = true ->
  str_take (String.length f - 2) f <> "" /\ f = str_take (String.length f - 2) f +:+ ".>".
Proof.
  intros [Hl He]%andb_prop. apply Nat.ltb_lt in Hl. apply String.eqb_eq in He.
  assert (f = str_take (String.length f - 2) f +:+ ".>") as Ef by (by rewrite <- He, str_take_drop).
  split; [| done]. intros E. rewrite E in Ef. rewrite Ef, str_length_app in Hl. cbn in Hl. lia.
Qed.

Lemma subjectCovered_inside ss f : subjectCovered ss f = true <-> inside_subjects ss f.
Proof.
  unfold subjectCovered, inside_subjects. rewrite existsb_exists. apply exist_proper. intros g. rewrite <- list_elem_of_In, orb_true_iff, String.eqb_eq.
  destruct (_ && _) eqn:E.
  - apply stem_given in E as [Hne Ef]. set (stem := str_take _ _) in *. rewrite SubjectMatches_under.
    split; [intros [Hg [? | H]]; [naive_solver |]; split; [done |]; right; left; by exists stem |].
    intros [Hg [? | [(stem' & Hne' & Ef' & H) | [Hno _]]]]; [naive_solver | | by destruct (Hne (Hno _ Ef))].
    split; [done | right]. assert (stem = stem') as -> by (by apply stem_of in Ef' as [_ ?]). exact H.
  - rewrite SubjectMatches_under. assert (forall stem, f = stem +:+ ".>" -> stem = "") as Hno.
    { intros stem Ef. destruct (stem_of f stem Ef) as [Hd _]. rewrite Hd, String.eqb_refl, andb_true_r in E. apply Nat.ltb_ge in E.
      rewrite Ef, str_length_app in E. cbn in E. destruct stem; [done | cbn in E; lia]. }
    split; [naive_solver |]. intros [Hg [? | [(stem & Hne & Ef & _) | [_ H]]]]; [naive_solver | by destruct (Hne (Hno _ Ef)) | naive_solver].
Qed.

Lemma digits_value_spec d n v : digits_value d n = Some v <-> digits d /\ dec_val d n = v.
Proof.
  unfold digits. revert n. induction d as [| a d IH]; intros n; cbn; [naive_solver |].
  destruct (is_digit a); cbn; [apply IH | naive_solver].
Qed.

Lemma digit_val a : is_digit a = true -> 0 <= byte_of a - 48.
Proof. unfold is_digit, in_range. intros H. bools. lia. Qed.

Lemma dec_val_nonneg d n : digits d -> 0 <= n -> 0 <= dec_val d n.
Proof.
  unfold digits. revert n. induction d as [| a d IH]; intros n; cbn; [done |]. intros [Ha Hd]%andb_prop Hn.
  apply digit_val in Ha. apply IH; [done | lia].
Qed.

Lemma Atoi_percent p v : 1 <= v <= 100 ->
  Atoi p = Some v <-> exists sign d, (sign = "" \/ sign = "+") /\ d <> "" /\ digits d /\ p = sign +:+ d /\ dec_val d 0 = v.
Proof.
  intros Hv. assert (forall (neg : bool) d, (if String.eqb d "" then None else match digits_value d 0 with
      | None => None
      | Some v => let v := if neg : bool then - v else v in if (MinInt64 <=? v) && (v <=? MaxInt64) then Some v else None
      end) = Some v <-> neg = false /\ d <> "" /\ digits d /\ dec_val d 0 = v) as Hd.
  { intros neg d. destruct (String.eqb_spec d "") as [-> | Hne]; [naive_solver |].
    destruct (digits_value d 0) as [w |] eqn:E.
    - apply digits_value_spec in E as [Hd E]. pose proof (dec_val_nonneg d 0 Hd ltac:(done)) as Hp. cbv zeta. rewrite E in *.
      destruct neg.
      + split; [| by intros [? _]]. destruct (_ && _); [intros [= ?]; lia | done].
      + split; [destruct (_ && _); [intros [= ->]; done | done] |]. intros (_ & _ & _ & ->).
        assert ((MinInt64 <=? v) && (v <=? MaxInt64) = true) as ->; [| done].
        assert (MinInt64 <= 0 /\ 100 <= MaxInt64) as [? ?] by (split; by vm_compute).
        apply andb_true_iff. split; apply Z.leb_le; lia.
    - split; [done |]. intros (_ & _ & Hg & Ev). assert (digits_value d 0 = Some v) by (by apply digits_value_spec). congruence. }
  assert (forall c d, digits (String c d) -> c <> "-"%char /\ c <> "+"%char) as Hc.
  { unfold digits. intros c d [H _]%andb_prop. split; intros ->; done. }
  unfold Atoi. destruct p as [| c p].
  { split; [done |]. intros (sign & d & Hs & Hne & _ & Ep & _). destruct Hs as [-> | ->]; [by destruct d | done]. }
  destruct (Ascii.eqb_spec c "-") as [-> | H1].
  { rewrite (Hd true p). split; [by intros [? _] |]. intros (sign & d & Hs & Hne & Hg & Ep & _).
    destruct Hs as [-> | ->]; [| done]. change (String "-" p = d) in Ep. subst d. by destruct (Hc _ _ Hg). }
  destruct (Ascii.eqb_spec c "+") as [-> | H2].
  - rewrite (Hd false p). split; [intros (_ & Hne & Hg & Ev); exists "+", p; by split_and!; [right | ..] |].
    intros (sign & d & Hs & Hne & Hg & Ep & Ev). destruct Hs as [-> | ->].
    + change (String "+" p = d) in Ep. subst d. by destruct (Hc _ _ Hg).
    + change (String "+" p = String "+" d) in Ep. injection Ep as ->. done.
  - rewrite (Hd false (String c p)). split; [intros (_ & Hne & Hg & Ev); exists "", (String c p); by split_and!; [left | ..] |].
    intros (sign & d & Hs & Hne & Hg & Ep & Ev). destruct Hs as [-> | ->].
    + change (String c p = d) in Ep. subst d. done.
    + change (String c p = String "+" d) in Ep. by injection Ep as ->.
Qed.

Lemma last_is_spec c s : last_is c s = true <-> exists p, s = p +:+ String c "".
Proof.
  induction s as [| a s IH]; [split; [done | by intros [[] ?]] |]. destruct s as [| b s].
  - cbn. split; [intros ->%Ascii.eqb_eq; by exists "" |]. intros [[| x p] E]; [| by destruct p]. injection E as ->. apply Ascii.eqb_refl.
  - change (last_is c (String a (String b s))) with (last_is c (String b s)). rewrite IH. split.
    + intros [p ->]. by exists (String a p).
    + intros [[| x p] E]; [done |]. exists p. by injection E.
Qed.

Lemma str_app_inj_r p q t : p +:+ t = q +:+ t -> p = q.
Proof.
  revert q. induction p as [| a p IH]; intros [| b q]; rewrite ?app_cons; [done | | |].
  - intros E. apply (f_equal String.length) in E. change ("" +:+ t) with t in E. cbn in E. rewrite str_length_app in E. lia.
  - intros E. apply (f_equal String.length) in E. change ("" +:+ t) with t in E. cbn in E. rewrite str_length_app in E. lia.
  - intros [= -> E]. f_equal. by apply IH.
Qed.

Lemma validSampleFrequency_ok f : validSampleFrequency f = true <-> percent_ok f.
Proof.
  unfold validSampleFrequency, percent_ok. destruct (String.eqb_spec f "") as [-> | Hne]; [split; [by left | done] |].
  destruct (last_is "%" f) eqn:El; cbn [negb].
  - apply last_is_spec in El as [p ->]. rewrite str_length_app. cbn [String.length].
    replace (String.length p + 1 - 1)%nat with (String.length p) by lia. rewrite str_take_app_l. split.
    + destruct (Atoi p) as [v |] eqn:E; [| done]. intros [H1 H2]%andb_prop. apply Z.ltb_lt in H1. apply Z.leb_le in H2.
      apply Atoi_percent in E as (sign & d & Hs & Hd & Hg & -> & Ev); [| lia]. right. exists sign, d. rewrite Ev, str_app_assoc. split_and!; try done; lia.
    + intros [? | (sign & d & Hs & Hd & Hg & Ep & Hv)]; [done |]. rewrite <- str_app_assoc in Ep. apply str_app_inj_r in Ep as ->.
      rewrite (proj2 (Atoi_percent (sign +:+ d) (dec_val d 0) Hv)) by (by exists sign, d). apply andb_true_iff. split; [apply Z.ltb_lt | apply Z.leb_le]; lia.
  - split; [done |]. intros [? | (sign & d & _ & _ & _ & -> & _)]; [done |].
    assert (last_is "%" (sign +:+ d +:+ "%") = true); [| congruence]. apply last_is_spec. exists (sign +:+ d). by rewrite str_app_assoc.
Qed.

(** ** Errors gathered in order *)

Lemma err_if_nil b e : err_if b e = [] <-> b = false.
Proof. by destruct b. Qed.

Lemma app_nil_iff {A} (l k : list A) : l ++ k = [] <-> l = [] /\ k = [].
Proof. split; [apply app_eq_nil | by intros [-> ->]]. Qed.

Lemma flat_map_nil {A B} (f : A -> list B) l : flat_map f l = [] <-> Forall (fun x => f x = []) l.
Proof.
  induction l as [| x l IH]; [by split |]. cbn. rewrite app_nil_iff, list.Forall_cons, IH. done.
Qed.

Lemma eqb_neq_iff s t : String.eqb s t = false <-> s <> t.
Proof. apply String.eqb_neq. Qed.

(** The loop every list of named objects is checked by. *)
Section Named.
Context {A : Type} (name : A -> string) (req : topology_error) (dup : A -> topology_error)
  (check : A -> list topology_error).

Definition named_step (st : gset string * list topology_error) (x : A) : gset string * list topology_error :=
  let '(names, errs) := st in
  if String.eqb (name x) "" then (names, errs ++ [req])
  else (names ∪ {[name x]},
        errs ++ err_if (bool_decide (name x ∈ names)) (dup x) ++ check x).

Lemma named_loop l names errs :
  snd (fold_left named_step l (names, errs)) = [] <->
  errs = [] /\ (Forall (fun x => name x <> "" /\ check x = []) l) /\ NoDup (map name l) /\
  (forall x, x ∈ l -> name x ∉ names).
Proof.
  revert names errs. induction l as [| x l IH]; intros names errs; cbn [fold_left fst snd].
  - split; [intros ->; split_and!; [done | done | constructor | intros ? H; by apply elem_of_nil in H] | by intros [-> _]].
  - unfold named_step at 2. destruct (String.eqb (name x) "") eqn:E.
    + rewrite IH, app_nil_iff. apply String.eqb_eq in E. split; [by intros ((_ & [=]) & _) |].
      intros (_ & H & _). apply list.Forall_cons in H as [[H _] _]. done.
    + apply String.eqb_neq in E.
      rewrite IH, !app_nil_iff, err_if_nil, bool_decide_eq_false, list.Forall_cons. cbn [map].
      rewrite list.NoDup_cons. split.
      * intros ((He & Hd & Hc) & Hl & Hn & Hout). split_and!; try done.
        -- intros Hin. apply list_elem_of_fmap in Hin as (y & Ey & Hy). apply (Hout y Hy). set_solver.
        -- intros y Hy. apply list.elem_of_cons in Hy as [-> | Hy]; [done |]. specialize (Hout y Hy). set_solver.
      * intros (He & [[_ Hc] Hl] & [Hx Hn] & Hout). split_and!; try done.
        -- apply Hout. by left.
        -- intros y Hy Hin. apply elem_of_union in Hin as [Hin | Hin]; [by apply (Hout y); [right |] |].
           apply elem_of_singleton in Hin. apply Hx. rewrite <- Hin. by apply list_elem_of_fmap_2.
Qed.

Lemma named_loop_names l names errs : Forall (fun x => name x <> "") l ->
  fst (fold_left named_step l (names, errs)) = names ∪ list_to_set (map name l).
Proof.
  intros Hl. revert names errs. induction Hl as [| x l Hx Hl IH]; intros names errs; cbn [fold_left]; [set_solver |].
  unfold named_step at 2. apply String.eqb_neq in Hx. rewrite Hx, IH. cbn. set_solver.
Qed.
End Named.

(** The streams' loop, whose set of names keeps the specs. *)
Lemma stream_loop l seen errs :
  snd (fold_left validate_stream l (seen, errs)) = [] <->
  errs = [] /\ Forall stream_ok l /\ NoDup (map ssName l) /\ (forall s, s ∈ l -> seen !! ssName s = None).
Proof.
  revert seen errs. induction l as [| x l IH]; intros seen errs; cbn [fold_left fst snd].
  - split; [intros ->; split_and!; [done | done | constructor | intros ? H; by apply elem_of_nil in H] | by intros [-> _]].
  - unfold validate_stream at 2. destruct (String.eqb (ssName x) "") eqn:E.
    + rewrite IH, app_nil_iff. apply String.eqb_eq in E. split; [by intros ((_ & [=]) & _) |].
      intros (_ & H & _). apply list.Forall_cons in H as [(H & _) _]. done.
    + apply String.eqb_neq in E. rewrite IH, !app_nil_iff, !err_if_nil, list.Forall_cons. cbn [map].
      rewrite list.NoDup_cons, bool_decide_eq_false, <- eq_None_not_Some, bool_decide_eq_false.
      assert (stream_ok x <->
        ssSubjects x <> [] /\
        bool_decide (ssRetention x = RetentionWorkQueue) && negb (ssAllowMsgSchedules x)
          && negb (String.eqb (ssName x) StreamAdvisories) && negb (String.eqb (ssName x) StreamTaskEvents)
          && negb (bool_decide (ssDiscard x = DiscardNew)) = false /\
        ssAllowMsgSchedules x && bool_decide (ssDiscard x = DiscardNew) = false) as Hx.
      { unfold stream_ok. split.
        - intros (_ & Hs & Hw & Ha). split; [done |]. split.
          + case_bool_decide as Hr; [| done]. destruct (Hw Hr) as [H | [H | [H | H]]].
            * by rewrite H. * rewrite H, String.eqb_refl. by rewrite !andb_false_r.
            * rewrite H, String.eqb_refl. by rewrite !andb_false_r.
            * rewrite (bool_decide_eq_true_2 _ H). by rewrite !andb_false_r.
          + destruct (ssAllowMsgSchedules x); [| done]. apply bool_decide_eq_false. intros H. by apply Ha.
        - intros (Hs & Hw & Ha). split_and!; [done | done | |].
          + intros Hr. rewrite (bool_decide_eq_true_2 _ Hr) in Hw. cbn in Hw.
            destruct (ssAllowMsgSchedules x); [by left |]. cbn in Hw.
            destruct (String.eqb (ssName x) StreamAdvisories) eqn:E1; [apply String.eqb_eq in E1; auto |].
            destruct (String.eqb (ssName x) StreamTaskEvents) eqn:E2; [apply String.eqb_eq in E2; auto |].
            cbn in Hw. bools. auto.
          + intros [H1 H2]. rewrite H1, (bool_decide_eq_true_2 _ H2) in Ha. done. }
      rewrite Hx. split.
      * intros ((He & Hd & Hs & Hw & Ha) & Hl & Hn & Hout). split_and!; try done.
        -- intros Hin. apply list_elem_of_fmap in Hin as (y & Ey & Hy). specialize (Hout y Hy).
           by rewrite Ey, lookup_insert_eq in Hout.
        -- intros y Hy. apply list.elem_of_cons in Hy as [-> | Hy]; [done |]. specialize (Hout y Hy).
           by apply lookup_insert_None in Hout as [? _].
      * intros (He & [(Hs & Hw & Ha) Hl] & [Hxn Hn] & Hout). split_and!; try done.
        -- apply Hout. by left.
        -- intros y Hy. apply lookup_insert_None. split; [by apply Hout; right |].
           intros Ey. apply Hxn. rewrite Ey. by apply list_elem_of_fmap_2.
Qed.

Lemma stream_loop_seen l seen errs : Forall stream_ok l -> NoDup (map ssName l) ->
  (forall s, s ∈ l -> seen !! ssName s = None) ->
  forall n s, fst (fold_left validate_stream l (seen, errs)) !! n = Some s <->
    seen !! n = Some s \/ s ∈ l /\ ssName s = n.
Proof.
  intros Hl. revert seen errs. induction Hl as [| x l Hx Hl IH]; intros seen errs Hn Hout n s; cbn [fold_left fst snd].
  - split; [by left | intros [H | [H _]]; [done | by apply elem_of_nil in H]].
  - cbn [map] in Hn. apply list.NoDup_cons in Hn as [Hxn Hn].
    unfold validate_stream at 2. destruct Hx as [Hx _]. apply String.eqb_neq in Hx as ->.
    rewrite IH; [| done |].
    + rewrite lookup_insert_Some, list.elem_of_cons. split.
      * intros [[[<- <-] | [Hne H]] | [H1 H2]]; [right | left | right]; auto.
      * intros [H | [[-> | H1] H2]]; [left; right | left; left | right]; auto.
        split; [| done]. intros <-. by rewrite (Hout x ltac:(by left)) in H.
    + intros y Hy. apply lookup_insert_None. split; [apply Hout; by right |].
      intros Ey. apply Hxn. rewrite Ey. by apply list_elem_of_fmap_2.
Qed.

(** ** The equivalence *)

Lemma consumer_loop seen l names errs :
  fold_left (validate_consumer seen) l (names, errs) =
  fold_left (named_step csName (Required "ConsumerSpec.Name") (fun c => DuplicateOf "ConsumerSpec.Name" (csName c))
    (fun c => match seen !! csStream c with None => [UnknownStream (csName c) (csStream c)] | Some s => check_consumer s c end))
    l (names, errs).
Proof. reflexivity. Qed.

Lemma bucket_loop l names errs :
  fold_left validate_bucket l (names, errs) =
  fold_left (named_step bsName (Required "BucketSpec.Name") (fun b => DuplicateOf "BucketSpec.Name" (bsName b))
    (fun b => err_if (has_char "." (bsName b)) (NameHasDot "BucketSpec.Name" (bsName b)) ++ check_records b))
    l (names, errs).
Proof. reflexivity. Qed.

Lemma store_loop l names errs :
  fold_left validate_store l (names, errs) =
  fold_left (named_step osName (Required "ObjectStoreSpec.Name") (fun o => DuplicateOf "ObjectStoreSpec.Name" (osName o))
    (fun o => err_if (MaxObjectChunkSize <? osChunkSize o) (ChunkTooLarge (osName o) (osChunkSize o))
      ++ err_if (has_char "." (osName o)) (NameHasDot "ObjectStoreSpec.Name" (osName o))))
    l (names, errs).
Proof. reflexivity. Qed.

Lemma check_consumer_nil s c : check_consumer s c = [] <-> durable_ok s c.
Proof.
  unfold check_consumer, durable_ok. rewrite !app_nil_iff, !err_if_nil, flat_map_nil.
  rewrite negb_false_iff, bool_decide_eq_false.
  assert (negb ((csMaxDeliver c =? -1) && String.eqb (csStream c) StreamAdvisories)
      && (csMaxDeliver c <=? Z.of_nat (length (csBackOff c))) = false
    <-> (csMaxDeliver c = -1 /\ csStream c = StreamAdvisories) \/ Z.of_nat (length (csBackOff c)) < csMaxDeliver c) as ->.
  { rewrite andb_false_iff, negb_false_iff, andb_true_iff, Z.eqb_eq, String.eqb_eq, Z.leb_gt. done. }
  assert ((if csSlots c <? 1 then [SlotsTooFew (csName c) (csSlots c)]
      else err_if (csMaxAckPending c <? csSlots c) (MaxAckPendingBelowSlots (csName c) (csSlots c) (csMaxAckPending c))) = []
    <-> 1 <= csSlots c <= csMaxAckPending c) as ->.
  { destruct (csSlots c <? 1) eqn:E; bools; [split; [done | lia] |].
    rewrite err_if_nil, Z.ltb_ge. lia. }
  assert (csRequeueOnStop c && negb (bool_decide (ssRetention s = RetentionWorkQueue)) = false
    <-> (csRequeueOnStop c = true -> ssRetention s = RetentionWorkQueue)) as ->.
  { rewrite andb_false_iff, negb_false_iff, bool_decide_eq_true.
    destruct (csRequeueOnStop c); split; intuition done. }
  assert (Forall (fun f => err_if (negb (subjectCovered (ssSubjects s) f)) (FilterOutside (csName c) f (ssName s)) = []) (csFilters c)
    <-> Forall (inside_subjects (ssSubjects s)) (csFilters c)) as ->; [| by rewrite <- validSampleFrequency_ok].
  rewrite !list.Forall_forall. split; intros H f Hf; specialize (H f Hf); [rewrite err_if_nil, negb_false_iff in H; by apply subjectCovered_inside |].
  by rewrite err_if_nil, negb_false_iff, subjectCovered_inside.
Qed.

Lemma check_records_nil b : check_records b = [] <-> (bsRecords b = true -> records_ok b).
Proof.
  unfold check_records, records_ok. destruct (bsRecords b); [| by split].
  assert (forall v, recordsMinTTL (bsName b) <= v <->
    (bsName b = BucketSearches -> SearchesTTL <= v) /\ (bsName b <> BucketSearches -> RecordsMinTTL <= v)) as Hmin.
  { intros v. unfold recordsMinTTL. destruct (String.eqb_spec (bsName b) BucketSearches); naive_solver. }
  rewrite !app_nil_iff, !err_if_nil, !negb_false_iff, Z.eqb_eq, !Z.leb_gt, !andb_false_iff, negb_false_iff,
    !Z.ltb_ge, Z.leb_gt, Z.eqb_eq, Hmin.
  split.
  - intros (? & ? & ? & ? & ? & Hm). intros _. split_and!; try done. intros. destruct Hm; [lia | done].
  - intros H. destruct (H eq_refl) as (? & ? & ? & ? & ? & Hm). split_and!; try done.
    destruct (Z.le_gt_cases (bsTTL b) 0); [by left | right; by apply Hm].
Qed.

Section Equivalence.
Variable t : Topology.
Hypotheses (Hs : Forall stream_ok (Streams t)) (Hn : NoDup (map ssName (Streams t))).

Local Abbreviation seen := (fst (fold_left validate_stream (Streams t) (∅, []))).

Lemma seen_spec n s : seen !! n = Some s <-> s ∈ Streams t /\ ssName s = n.
Proof.
  rewrite stream_loop_seen by done || (intros; apply lookup_empty).
  rewrite lookup_empty. split; [by intros [? | ?] | by right].
Qed.

Lemma seen_none n : seen !! n = None <-> n ∉ map ssName (Streams t).
Proof.
  split.
  - intros H Hin. apply list_elem_of_fmap in Hin as (s & -> & Hin).
    assert (seen !! ssName s = Some s) by (by apply seen_spec). congruence.
  - intros H. destruct (seen !! n) as [s |] eqn:E; [| done]. apply seen_spec in E as [E <-].
    destruct H. by apply list_elem_of_fmap_2.
Qed.

Lemma consumer_check_nil c :
  (csName c <> "" /\ match seen !! csStream c with None => [UnknownStream (csName c) (csStream c)]
                     | Some s => check_consumer s c end = []) <-> consumer_ok t c.
Proof.
  unfold consumer_ok. destruct (seen !! csStream c) as [s |] eqn:E.
  - apply seen_spec in E as [Hin Hname]. rewrite check_consumer_nil. split; intros [Hc H]; (split; [done |]).
    + by exists s.
    + destruct H as (s' & Hin' & Hname' & H).
      assert (seen !! csStream c = Some s) as E1 by (by apply seen_spec).
      assert (seen !! csStream c = Some s') as E2 by (by apply seen_spec). congruence.
  - split; [by intros [_ [=]] |]. intros [_ (s & Hin & Hname & _)].
    assert (seen !! csStream c = Some s) by (by apply seen_spec). congruence.
Qed.

Lemma retired_check_nil r : check_retired seen (list_to_set (map csName (Consumers t))) r = [] <-> retired_ok t r.
Proof.
  unfold check_retired, retired_ok. destruct (String.eqb (rcDurable r) "") eqn:Ed.
  { apply String.eqb_eq in Ed. split; [by intros [=] | by intros [? _]]. }
  apply String.eqb_neq in Ed. destruct (seen !! rcStream r) as [s |] eqn:E.
  - case_bool_decide as Hb; rewrite elem_of_list_to_set in Hb.
    { split; [by intros [=] | by intros (_ & ? & _)]. }
    rewrite err_if_nil, andb_false_iff, !negb_false_iff, String.eqb_eq, subjectCovered_inside.
    pose proof (proj1 (seen_spec _ _) E) as [Hin Hname]. split.
    + intros H. split_and!; [done | done |]. by exists s.
    + intros (_ & _ & s' & Hin' & Hname' & H).
      assert (seen !! rcStream r = Some s') as E2 by (by apply seen_spec). congruence.
  - split; [by intros [=] |]. intros (_ & _ & s & Hin & Hname & _).
    assert (seen !! rcStream r = Some s) by (by apply seen_spec). congruence.
Qed.
End Equivalence.

Lemma validate_spec (t : Topology) : Validate t = [] <-> topology_ok t.
Proof.
  unfold Validate.
  pose proof (stream_loop (Streams t) ∅ []) as HS. pose proof (seen_spec t) as HK.
  pose proof (seen_none t) as HN. pose proof (consumer_check_nil t) as HC. pose proof (retired_check_nil t) as HR.
  destruct (fold_left validate_stream (Streams t) (∅, [])) as [seen errs1]. cbn [fst snd] in *.
  rewrite (consumer_loop seen), bucket_loop, store_loop.
  match goal with |- context [fold_left (named_step csName ?a ?b ?c) (Consumers t) ?st] =>
    pose proof (named_loop csName a b c (Consumers t) ∅ []) as H3;
    pose proof (named_loop_names csName a b c (Consumers t) ∅ []) as HNm;
    destruct (fold_left (named_step csName a b c) (Consumers t) st) as [names errs3] end.
  match goal with |- context [fold_left (named_step bsName ?a ?b ?c) (Buckets t) ?st] =>
    pose proof (named_loop bsName a b c (Buckets t) ∅ []) as H4;
    destruct (fold_left (named_step bsName a b c) (Buckets t) st) as [n4 errs4] end.
  match goal with |- context [fold_left (named_step osName ?a ?b ?c) (ObjectStores t) ?st] =>
    pose proof (named_loop osName a b c (ObjectStores t) ∅ []) as H5;
    destruct (fold_left (named_step osName a b c) (ObjectStores t) st) as [n5 errs5] end.
  cbn [fst snd] in *. rewrite !app_nil_iff, HS, H3, H4, H5, !flat_map_nil.
  clear HS H3 H4 H5 n4 n5.
  assert (forall x : StreamSpec, x ∈ Streams t -> (∅ : gmap string StreamSpec) !! ssName x = None) as Hempty
    by (intros; apply lookup_empty).
  split.
  - intros ((_ & Hs & Hn & _) & Hreq & (_ & Hc & Hcn & _) & (_ & Hb & Hbn & _) & (_ & Ho & Hon & _) & Hr).
    specialize (HK Hs Hn). specialize (HN Hs Hn). specialize (HC Hs Hn). specialize (HR Hs Hn).
    assert (names = list_to_set (map csName (Consumers t))) as ->.
    { rewrite HNm; [set_solver |]. eapply Forall_impl; [| exact Hc]. by intros ? [? _]. }
    constructor; try done.
    + apply list.Forall_cons in Hreq as [R1 Hreq]. apply list.Forall_cons in Hreq as [R2 _].
      rewrite err_if_nil, bool_decide_eq_false, HN in R1, R2. split; by apply dec_stable.
    + eapply Forall_impl; [| exact Hc]. intros c Hcc. by apply HC.
    + eapply Forall_impl; [| exact Hb]. intros b [Hb1 Hb2]. rewrite app_nil_iff, err_if_nil, check_records_nil in Hb2.
      by destruct Hb2.
    + eapply Forall_impl; [| exact Ho]. intros o [Ho1 Ho2]. rewrite app_nil_iff, !err_if_nil, Z.ltb_ge in Ho2.
      by destruct Ho2.
    + eapply Forall_impl; [| exact Hr]. intros r. apply HR.
  - intros [Hs Hn [R1 R2] Hc Hcn Hb Hbn Ho Hon Hr].
    specialize (HK Hs Hn). specialize (HN Hs Hn). specialize (HC Hs Hn). specialize (HR Hs Hn).
    assert (names = list_to_set (map csName (Consumers t))) as ->.
    { rewrite HNm; [set_solver |]. eapply Forall_impl; [| exact Hc]. by intros ? [? _]. }
    split_and!; try done; try (intros ? _; apply not_elem_of_empty).
    + repeat constructor; rewrite err_if_nil, bool_decide_eq_false, HN; by intros H; apply H.
    + eapply Forall_impl; [| exact Hc]. intros c Hcc. by apply HC.
    + eapply Forall_impl; [| exact Hb]. intros b (Hb1 & Hb2 & Hb3). split; [done |].
      by rewrite app_nil_iff, err_if_nil, check_records_nil.
    + eapply Forall_impl; [| exact Ho]. intros o (Ho1 & Ho2 & Ho3). split; [done |].
      by rewrite app_nil_iff, !err_if_nil, Z.ltb_ge.
    + eapply Forall_impl; [| exact Hr]. intros r. apply HR.
Qed.

(** C39.  Validate accepts exactly the well-formed topologies: named streams with
    subjects, none twice, the dead-letter and advisory streams among them; named
    durables of one stream each, none twice, with room for their slots and their
    backoff, a sample frequency of 1 to 100 percent or none, and filters inside
    the subjects of their stream; buckets and object stores with names a broker
    takes, records buckets with the limits records need; retired durables that
    are not declared. What it takes for a filter inside a subject is weaker than
    the containment its helper's comment promises: a filter that ends in a tail
    wildcard is tried one token deep only ([probe_hides_depth]). *)
Theorem Validate_decides (t : Topology) : Validate t = [] <-> topology_ok t.
Proof. apply validate_spec. Qed.

(** ** What a covered filter is *)

(** A filter as NATS accepts it: no empty token, and a tail wildcard only after
    another token, at the end. *)
Definition filter_ok (f : string) : Prop :=
  exists l x, Split "." f = l ++ [x] /\ Forall (fun t => t <> "" /\ t <> ">") l /\ x <> "" /\ (l <> [] \/ x <> ">").

(** The last token is the tail wildcard. *)
Definition tail_filter (f : string) : Prop := exists l, Split "." f = l ++ [">"].

Lemma covered_no_tail g f s : Forall (fun t => t <> ">") f ->
  match_tokens g f = true -> match_tokens f s = true -> match_tokens g s = true.
Proof.
  intros Hf. revert g s. induction Hf as [| t f Ht Hf IH]; intros g s.
  - destruct g as [| x g]; [done |]. cbn. by destruct (String.eqb x ">").
  - destruct g as [| x g]; [done |]. rewrite match_cons.
    destruct (String.eqb x ">") eqn:Ex; [cbn; rewrite Ex; apply String.eqb_neq in Ht; rewrite Ht; by destruct s |].
    apply String.eqb_neq in Ht. destruct s as [| u s]; [cbn; by rewrite Ht |].
    rewrite !match_cons, Ht, Ex.
    destruct (negb (String.eqb x "*" || String.eqb x t)) eqn:E1; [done |].
    destruct (negb (String.eqb t "*" || String.eqb t u)) eqn:E2; [done |]. intros Hg Hs.
    apply negb_false_iff, orb_prop in E1 as [E1 | E1]; [rewrite E1; cbn; by eapply IH |].
    apply String.eqb_eq in E1 as ->.
    rewrite E2. by eapply IH.
Qed.

Lemma covered_tail g l s : Forall (fun t => t <> ">") l -> (exists k, g = k ++ [">"]) ->
  match_tokens g (l ++ ["x"]) = true -> match_tokens (l ++ [">"]) s = true -> match_tokens g s = true.
Proof.
  intros Hl. revert g s. induction Hl as [| t l Ht Hl IH]; intros g s [k Hk].
  - destruct g as [| x g]; [by destruct k |]. cbn [app]. rewrite match_cons.
    destruct (String.eqb x ">") eqn:Ex; [cbn; rewrite Ex; by destruct s |].
    destruct k as [| x' k]; [injection Hk as -> _; done |]. injection Hk as -> ->.
    destruct (negb _); [done |]. by destruct k as [| y k]; [| cbn; destruct (String.eqb y ">")].
  - destruct g as [| x g]; [by destruct k |]. cbn [app]. rewrite match_cons.
    apply String.eqb_neq in Ht. destruct s as [| u s]; [cbn; by rewrite Ht |].
    rewrite !match_cons, Ht. destruct (String.eqb x ">") eqn:Ex; [done |].
    destruct k as [| x' k]; [injection Hk as -> _; done |]. injection Hk as -> ->.
    destruct (negb (String.eqb x' "*" || String.eqb x' t)) eqn:E1; [done |].
    destruct (negb (String.eqb t "*" || String.eqb t u)) eqn:E2; [done |]. intros Hg Hs.
    apply negb_false_iff, orb_prop in E1 as [E1 | E1]; [rewrite E1; cbn; eapply IH; eauto |].
    apply String.eqb_eq in E1 as ->. rewrite E2. eapply IH; eauto.
Qed.

Lemma matches_plain f s : f <> "" -> f <> ">" -> SubjectMatches f s = match_tokens (Split "." f) (Split "." s).
Proof. intros H1 H2. unfold SubjectMatches. apply String.eqb_neq in H1, H2. by rewrite H1, H2. Qed.

(** The probe of a filter that ends in a tail wildcard reads it as one token;
    any other filter is its own probe. *)
Definition probe_of (filter : string) : string :=
  let n := String.length filter in
  if Nat.ltb 2 n && String.eqb (str_drop (n - 2) filter) ".>"
  then str_take (n - 2) filter +:+ ".x" else filter.

Lemma probe_tokens f : f <> ">" -> filter_ok f ->
  (exists l, Split "." f = l ++ [">"] /\ Forall (fun t => t <> ">") l /\ Split "." (probe_of f) = l ++ ["x"]) \/
  (probe_of f = f /\ Forall (fun t => t <> ">") (Split "." f)).
Proof.
  intros Hf (l & x & E & Hl & Hx & Hlx).
  assert (Forall (fun t => t <> ">") l) as Hl' by (eapply Forall_impl; [| exact Hl]; by intros ? [_ ?]).
  unfold probe_of. destruct (Nat.ltb 2 (String.length f) && _) eqn:Eb.
  - apply andb_prop in Eb as [_ Eb]. apply String.eqb_eq in Eb. left. exists l.
    assert (f = str_take (String.length f - 2) f +:+ String "." ">") as Ef.
    { rewrite <- (str_take_drop (String.length f - 2) f) at 1. by rewrite Eb. }
    rewrite Ef, split_app in E. change (Split "." ">") with [">"] in E. apply app_inj_tail in E as [E <-].
    split_and!; [| done |].
    + rewrite Ef at 1. by rewrite split_app, E.
    + change ".x" with (String "." "x"). by rewrite split_app, E.
  - right. split; [done |]. rewrite E. apply Forall_app. split; [done |]. constructor; [| done].
    intros ->. destruct Hlx as [Hl0 | ?]; [| done].
    assert (f = Join l "." +:+ ".>") as Ef.
    { rewrite <- (Join_Split f), E. clear -Hl0. induction l as [| a l IH]; [done |].
      destruct l as [| b l]; [done |]. cbn [app] in *.
      change (a +:+ "." +:+ Join (b :: l ++ [">"]) "." = (a +:+ "." +:+ Join (b :: l) ".") +:+ ".>").
      rewrite IH by done. by rewrite !str_app_assoc. }
    assert (1 <= String.length (Join l "."))%nat as Hlen.
    { destruct l as [| a l]; [done |]. apply list.Forall_cons in Hl as [[Ha _] _].
      destruct a as [| c a]; [done |]. destruct l; cbn [Join]; rewrite ?app_cons; cbn; lia. }
    rewrite Ef, str_length_app in Eb. cbn [String.length] in Eb.
    replace (String.length (Join l ".") + 2 - 2)%nat with (String.length (Join l ".")) in Eb by lia.
    rewrite str_drop_app_l, andb_true_r in Eb. apply Nat.ltb_ge in Eb. lia.
Qed.

Lemma covered_inside ss f subject : f <> "" -> f <> ">" -> filter_ok f -> subject <> "" ->
  Forall (fun g => g = f \/ tail_filter g) ss ->
  subjectCovered ss f = true -> SubjectMatches f subject = true ->
  existsb (fun g => SubjectMatches g subject) ss = true.
Proof.
  intros H1 H2 Hok Hs Hss Hc Hm. unfold subjectCovered in Hc. fold (probe_of f) in Hc.
  apply existsb_exists in Hc as (g & Hg & Hc). apply existsb_exists. exists g. split; [done |].
  rewrite list.Forall_forall in Hss. apply list_elem_of_In in Hg. specialize (Hss g Hg).
  apply orb_prop in Hc as [Hc | Hc]; [by apply String.eqb_eq in Hc as -> |].
  destruct (String.eqb g "" || String.eqb g ">") eqn:Eg.
  { unfold SubjectMatches. rewrite Eg. by apply negb_true_iff, String.eqb_neq. }
  apply orb_false_elim in Eg as [Eg1 Eg2]. apply String.eqb_neq in Eg1, Eg2.
  destruct Hss as [-> | Ht]; [done |].
  rewrite matches_plain in Hc |- * by done. rewrite matches_plain in Hm by done.
  destruct (probe_tokens f H2 Hok) as [(l & El & Hl & Ep) | [Ep Hl]].
  - rewrite Ep in Hc. rewrite El in Hm. by eapply covered_tail.
  - rewrite Ep in Hc. by eapply covered_no_tail.
Qed.

(** Without a tail wildcard in the stream's subjects the probe says too much:
    a stream of two-token subjects is taken to hold a filter's longer ones. *)
Lemma probe_hides_depth :
  subjectCovered ["clustarr.work.*"] "clustarr.work.>" = true /\
  SubjectMatches "clustarr.work.>" "clustarr.work.a.b" = true /\
  SubjectMatches "clustarr.work.*" "clustarr.work.a.b" = false.
Proof. split_and!; reflexivity. Qed.
