(* ===== verification/Membus.v ===== *)
(** * Membus: the in-memory bus

    src/pkg/events/membus/membus.go (ensuring a topology, publishing, the passes
    of a subscription, settling, requeues and dead letters), pull.go, admin.go,
    the message methods of stream.go, and the retirement of durables
    (src/pkg/events/records.go).  The bus's lock guards its maps and a stream's
    lock its messages; each operation here is the sequence of those critical
    sections, and the clock readings and the state of the caller's context are
    arguments.  An object store is its specification: its objects are not
    modelled. *)

From S2P Require Import Prelude GoLang Events KV Subjects Topology Settle Stream Slots.
From Stdlib Require Import Ascii.

Open Scope monad_scope.

(** ** State *)

(** [RetiredReport]. *)
Record RetiredReport := mkReport { rrRetired : RetiredConsumer; rrExisted : bool; rrLag : Z; rrAt : Time }.

(** [Bus], less its request side; [buBefore] is the publish hook of its options,
    which the caller supplies. *)
Record Bus := mkBus {
  buClosed : bool;
  buDraining : bool;
  buTopology : Topology;
  buStreams : gmap string stream;
  buBuckets : gmap string bucket;
  buObjectStores : gmap string ObjectStoreSpec;
  buSubs : gmap nat memSub;
  buRetired : gmap string RetiredReport;
  buBefore : Envelope -> Envelope;
}.

#[export] Instance eta_Bus : Eta Bus :=
  fun b => mkBus (buClosed b) (buDraining b) (buTopology b) (buStreams b) (buBuckets b) (buObjectStores b)
    (buSubs b) (buRetired b) (buBefore b).
#[export] Instance set_buClosed : Setter buClosed. Proof. derive_setter. Defined.
#[export] Instance set_buDraining : Setter buDraining. Proof. derive_setter. Defined.
#[export] Instance set_buTopology : Setter buTopology. Proof. derive_setter. Defined.
#[export] Instance set_buStreams : Setter buStreams. Proof. derive_setter. Defined.
#[export] Instance set_buBuckets : Setter buBuckets. Proof. derive_setter. Defined.
#[export] Instance set_buObjectStores : Setter buObjectStores. Proof. derive_setter. Defined.
#[export] Instance set_buSubs : Setter buSubs. Proof. derive_setter. Defined.
#[export] Instance set_buRetired : Setter buRetired. Proof. derive_setter. Defined.

(** The errors the bus returns. *)
Inductive BusError :=
| ErrContext
| ErrClosed
| ErrStreamNotFound
| ErrConsumerNotFound
| ErrMessageNotFound
| ErrQueueFull
| ErrRetentionImmutable
| UnexpectedStream (resolved : string)
| ConsumerIncomplete
| BadSubscription (field : string)
| BadTopology (errs : list topology_error).

#[export] Instance BusError_ok : Inhabited BusError := populate ErrClosed.

(** An operation of the stream called [name], nothing when there is none. *)
Definition on_stream {A} (name : string) (m : M stream A) : M Bus (option A) :=
  b <- gets id;;
  match buStreams b !! name with
  | None => ret None
  | Some st =>
      let '(a, st') := m st in
      modify (fun b => b <| buStreams ::= <[name := st']> |>);;
      ret (Some a)
  end.

(** ** Ensuring a topology *)

(** The loops of [ensure] over the streams, buckets and object stores. *)
Fixpoint ensure_streams (specs : list StreamSpec) : M Bus (option BusError) :=
  match specs with
  | [] => ret None
  | spec :: specs =>
      b <- gets id;;
      match buStreams b !! ssName spec with
      | Some existing =>
          if negb (bool_decide (ssRetention (stSpec existing) = ssRetention spec)) then ret (Some ErrRetentionImmutable)
          else
            on_stream (ssName spec) (modify (fun s => s <| stSpec := spec |>));;
            ensure_streams specs
      | None =>
          modify (fun b => b <| buStreams ::= <[ssName spec := new_stream spec]> |>);;
          ensure_streams specs
      end
  end.

Fixpoint ensure_consumers (cs : list ConsumerSpec) : M Bus unit :=
  match cs with
  | [] => ret tt
  | c :: cs =>
      on_stream (csStream c)
        (bindDurable (csName c) (csFilters c) (csMaxAckPending c) (sub_Timing (spec_Subscription c)));;
      ensure_consumers cs
  end.

Definition ensure_bucket (now : Time) (spec : BucketSpec) (m : gmap string bucket) : gmap string bucket :=
  match m !! bsName spec with
  | Some b => <[bsName spec := mkBucket (bsName spec) (bsTTL spec) (bkRev b) (bkVals b) (bkWatchers b) (bkCreated b)]> m
  | None => <[bsName spec := mkBucket (bsName spec) (bsTTL spec) 0 ∅ [] now]> m
  end.

(** [ensure]; [now] stamps the buckets it creates. *)
Definition ensure (now : Time) (t : Topology) : M Bus (option BusError) :=
  match Validate t with
  | (_ :: _) as errs => ret (Some (BadTopology errs))
  | [] =>
      b <- gets id;;
      if buClosed b then ret (Some ErrClosed)
      else
        err <- ensure_streams (Streams t);;
        match err with
        | Some e => ret (Some e)
        | None =>
            ensure_consumers (Consumers t);;
            modify (fun b => b <| buBuckets ::= fun m => fold_left (fun m spec => ensure_bucket now spec m) (Buckets t) m |>);;
            modify (fun b => b <| buObjectStores ::= fun m => fold_left (fun m spec => <[osName spec := spec]> m) (ObjectStores t) m |>);;
            modify (fun b => b <| buTopology := t |>);;
            ret None
        end
  end.

(** ** Publishing *)

(** [Publish]; [stamp] and [now] are its two readings of the clock, [ended] its
    context's state.  The stream's name is part of the receipt. *)
Definition Publish (ended : bool) (stamp now : Time) (subject : string) (e : option Envelope)
    (opts : list PublishOption) : M Bus (string * Receipt + BusError) :=
  if ended then ret (inr ErrContext)
  else
    let o := ResolvePublishOptions e opts in
    b <- gets id;;
    if buClosed b then ret (inr ErrClosed)
    else
      match StreamForSubject (buTopology b) subject with
      | None => ret (inr ErrStreamNotFound)
      | Some spec =>
          match buStreams b !! ssName spec with
          | None => ret (inr ErrStreamNotFound)
          | Some _ =>
              if negb (String.eqb (poExpectStream o) "") && negb (String.eqb (poExpectStream o) (ssName spec))
              then ret (inr (UnexpectedStream (ssName spec)))
              else
                let env := (default zero_Envelope e) <| evID := poMsgID o |> in
                let env := if IsZero (evTime env) then env <| evTime := stamp |> else env in
                r <- on_stream (ssName spec) (publish now subject (buBefore b env) (poScheduleAt o));;
                ret (match r with
                     | Some (Some rc) => inl (ssName spec, rc)
                     | Some None => inr ErrQueueFull
                     | None => inr ErrStreamNotFound
                     end)
          end
      end.

(** ** Deliveries (the message methods of stream.go) *)

(** [message]: a claimed message, and whether its slot was given back. *)
Record delivery := mkHeld {
  dvStream : string;
  dvMsg : nat;
  dvDurable : string;
  dvSub : Subscription;
  dvLapsed : bool;
  dvSettled : bool;
}.

#[export] Instance eta_delivery : Eta delivery :=
  fun g => mkHeld (dvStream g) (dvMsg g) (dvDurable g) (dvSub g) (dvLapsed g) (dvSettled g).
#[export] Instance set_dvLapsed : Setter dvLapsed. Proof. derive_setter. Defined.
#[export] Instance set_dvSettled : Setter dvSettled. Proof. derive_setter. Defined.

Definition mark_settled (g : delivery) : delivery := g <| dvSettled := true |>.

Definition Ack (g : delivery) : M Bus delivery :=
  if dvSettled g then ret g
  else on_stream (dvStream g) (ack (dvMsg g) (dvDurable g));; ret (mark_settled g).

Definition Nak (now : Time) (delay : Duration) (g : delivery) : M Bus delivery :=
  if dvSettled g then ret g
  else if dvLapsed g then ret (mark_settled g)
  else on_stream (dvStream g) (nak (dvMsg g) (dvDurable g) now delay);; ret (mark_settled g).

Definition Term (g : delivery) : M Bus delivery :=
  if dvSettled g then ret g
  else on_stream (dvStream g) (ack (dvMsg g) (dvDurable g));; ret (mark_settled g).

Definition InProgress (now : Time) (g : delivery) : M Bus unit :=
  if dvLapsed g then ret tt
  else on_stream (dvStream g) (inProgress (dvMsg g) (dvDurable g) now (sub_AckDeadline (dvSub g)));; ret tt.

Definition Attempt (g : delivery) : M Bus Z :=
  n <- on_stream (dvStream g) (attemptOf (dvMsg g) (dvDurable g));;
  ret (default 0 n).

(** The stored message a delivery is of. *)
Definition held_msg (g : delivery) (b : Bus) : memMsg :=
  match buStreams b !! dvStream g with Some st => msg_at st (dvMsg g) | None => nil_msg end.

(** ** Settling *)

(** [deadLetter]; a copy that is not stored is only logged. *)
Definition deadLetter (stamp now : Time) (g : delivery) (durable reason : string) : M Bus unit :=
  attempts <- Attempt g;;
  m <- gets (held_msg g);;
  let '(subject, env) := DeadLetterEnvelope (Some (mmEnv m)) (mmSubject m) attempts durable reason in
  Publish false stamp now subject (Some env) [];;
  ret tt.

(** [requeue]. *)
Definition requeue (stamp now : Time) (g : delivery) (sub : Subscription) : M Bus delivery :=
  if negb (sbRequeueOnStop sub) then Nak now 0 g
  else if dvSettled g then ret g
  else if dvLapsed g then ret (mark_settled g)
  else
    m <- gets (held_msg g);;
    r <- Publish false stamp now (mmSubject m) (Some (mmEnv m))
           [WithMsgID (RequeueMsgID (evID (mmEnv m)) (mmSeq m)); WithExpectStream (sbStream sub)];;
    (match r with
     | inr _ => on_stream (dvStream g) (nak (dvMsg g) (dvDurable g) now 0)
     | inl _ => on_stream (dvStream g) (ack (dvMsg g) (dvDurable g))
     end);;
    ret (mark_settled g).

(** [settle]. *)
Definition settle (stamp now : Time) (g : delivery) (sub : Subscription) (s : Settlement) : M Bus delivery :=
  match s with
  | SettleAck => Ack g
  | SettleNak delay => Nak now delay g
  | SettleTerm reason => deadLetter stamp now g (sbDurable sub) reason;; Term g
  | SettleRequeue reason => requeue stamp now g sub
  end.

(** How a handler ended. *)
Inductive outcome := Returned (err : option herror) | Panicked (text : string).
Definition outcome_error (o : outcome) : option herror :=
  match o with
  | Returned e => e
  | Panicked r => Some (DiscardError ("handler panicked: " +:+ r) None)
  end.

(** What [deliver] does once the handler returned: [g] is the delivery as the
    handler left it, [stopping] whether its context ended for a stop. *)
Definition deliver (stamp now : Time) (stopping : bool) (g : delivery) (sub : Subscription) (o : outcome) : M Bus delivery :=
  if dvSettled g then ret g
  else
    attempt <- Attempt g;;
    settle stamp now g sub (Settle (RequeueIfStopping stopping (outcome_error o) sub) attempt sub).

(** ** Passes *)

(** The loop of [deadLetterLapsed]. *)
Fixpoint dead_letter_all (stamp now : Time) (stream_ : string) (sub : Subscription) (ids : list nat) : M Bus unit :=
  match ids with
  | [] => ret tt
  | i :: ids =>
      deadLetter stamp now (mkHeld stream_ i (sbDurable sub) sub false false) (sbDurable sub)
        (AckWaitExhaustedReason (sbMaxDeliver sub));;
      dead_letter_all stamp now stream_ sub ids
  end.
(** [sweep] is the clock its [lapsed] reads. *)
Definition deadLetterLapsed (sweep stamp now : Time) (stream_ : string) (sub : Subscription) : M Bus unit :=
  ids <- on_stream stream_ (lapsed (sbDurable sub) (sbFilters sub) sweep (sbMaxDeliver sub));;
  dead_letter_all stamp now stream_ sub (default [] ids).

(** [boundStream]. *)
Definition boundStream (b : Bus) (sub : Subscription) : option stream :=
  match buStreams b !! sbStream sub with
  | Some st => if hasDurable st (sbDurable sub) then Some st else None
  | None => None
  end.

(** An operation on the slots of the running subscription [k]. *)
Definition on_sub {A} (k : nat) (dflt : A) (m : M memSub A) : M Bus A :=
  b <- gets id;;
  match buSubs b !! k with
  | None => ret dflt
  | Some s =>
      let '(a, s') := m s in
      modify (fun b => b <| buSubs ::= <[k := s']> |>);;
      ret a
  end.

(** One pass of [consume]'s loop: the delivery started, with the pointer its
    slots know it by.  [now] is the clock the pass reads first, for the sweep of
    its slots and the claim; [sweep], [stamp] and [pub] are [deadLetterLapsed]'s. *)
Definition consume_pass (sweep stamp pub now : Time) (k : nat) (sub : Subscription) (order : list nat) :
    M Bus (option (nat * delivery)) :=
  b <- gets id;;
  match boundStream b sub with
  | None => ret None
  | Some st =>
      let eff := match boundTiming st (sbDurable sub) with Some t => WithTiming sub t | None => sub end in
      on_sub k tt (setEffective eff);;
      deadLetterLapsed sweep stamp pub (sbStream sub) eff;;
      b <- gets id;;
      on_sub k tt (reclaim (default st (buStreams b !! sbStream sub)) (sbDurable sub) now order);;
      free <- on_sub k false acquire;;
      if free then
        i <- on_stream (sbStream sub) (claim (sbDurable sub) (sbFilters sub) now (sub_AckDeadline eff) (sbMaxDeliver eff));;
        match i with
        | Some (Some i) =>
            attempt <- on_stream (sbStream sub) (attemptOf i (sbDurable sub));;
            d <- on_sub k O (track i (default 0 attempt));;
            on_sub k None (budget d eff);;
            ret (Some (d, mkHeld (sbStream sub) i (sbDurable sub) eff false false))
        | _ => on_sub k tt unacquire;; ret None
        end
      else ret None
  end.

(** [claimNext]. *)
Definition claimNext (sweep stamp pub now : Time) (sub : Subscription) : M Bus (option nat) :=
  deadLetterLapsed sweep stamp pub (sbStream sub) sub;;
  r <- on_stream (sbStream sub) (claim (sbDurable sub) (sbFilters sub) now (sub_AckDeadline sub) (sbMaxDeliver sub));;
  ret (match r with Some i => i | None => None end).

(** [Pull] (pull.go): binding the durable. *)
Definition Pull (s : Subscription) : M Bus (unit + BusError) :=
  match Subscription_Validate s with
  | Some field => ret (inr (BadSubscription field))
  | None =>
      b <- gets id;;
      if buClosed b then ret (inr ErrClosed)
      else
        r <- on_stream (sbStream s)
               (bindDurable (sbDurable s) (sbFilters s) (cmp_or (sbMaxAckPending s) (Z.max (sbMaxInFlight s) 1)) (sub_Timing s));;
        ret (match r with Some _ => inl tt | None => inr ErrStreamNotFound end)
  end.

(** The head of [Subscribe]: its slots, under the pointer [k]. *)
Definition Subscribe (k : nat) (sub : Subscription) : M Bus (unit + BusError) :=
  match Subscription_Validate sub with
  | Some field => ret (inr (BadSubscription field))
  | None =>
      b <- gets id;;
      if buClosed b || buDraining b then ret (inr ErrClosed)
      else modify (fun b => b <| buSubs ::= <[k := new_memSub sub]> |>);; ret (inl tt)
  end.

(** [freeSlots]. *)
Definition freeSlots (b : Bus) (stream_ durable : string) : Z :=
  foldr Z.add 0 (map (fun kv => if String.eqb (sbStream (msSub kv.2)) stream_ && String.eqb (sbDurable (msSub kv.2)) durable
                                then free_slots kv.2 else 0) (map_to_list (buSubs b))).

(** [Wedged]: the subscriptions wedged, with how long and the limit. *)
Definition Wedged (b : Bus) (now : Time) : list (string * (Duration * Duration)) :=
  omap (fun kv => option_map (pair (sbDurable (msSub kv.2))) (wedged kv.2 now)) (map_to_list (buSubs b)).

(** ** Administration (admin.go) *)

(** [events.StreamAdmin], as far as [Retire] uses it. *)
Class StreamAdmin (B : Type) := {
  admin_ConsumerState : Time -> string -> string -> M B (ConsumerState + BusError);
  admin_DeleteSubscription : string -> string -> M B (option BusError);
  admin_PurgeSubject : string -> string -> M B (option BusError);
}.

Definition DeleteSubscription (stream_ durable : string) : M Bus unit :=
  on_stream stream_ (forgetDurable durable);;
  on_stream StreamAdvisories (forgetDurable (DeadLetterWatcherName stream_ durable));;
  ret tt.

Definition EnsureConsumer (c : ConsumerSpec) : M Bus (option BusError) :=
  if String.eqb (csName c) "" || String.eqb (csStream c) "" || bool_decide (csFilters c = []) then ret (Some ConsumerIncomplete)
  else
    b <- gets id;;
    if buClosed b then ret (Some ErrClosed)
    else
      let specs := [c; DeadLetterWatcherSpec c] in
      if existsb (fun spec => bool_decide (buStreams b !! csStream spec = None)) specs then ret (Some ErrStreamNotFound)
      else ensure_consumers specs;; ret None.

Definition PurgeSubject (stream_ subject : string) : M Bus (option BusError) :=
  r <- on_stream stream_ (purgeSubject subject);;
  ret (match r with Some _ => None | None => Some ErrStreamNotFound end).

(** A reading of a stream. *)
Definition read_stream {A} (b : Bus) (name : string) (f : stream -> A) : A + BusError :=
  match buStreams b !! name with Some st => inl (f st) | None => inr ErrStreamNotFound end.

Definition Subscriptions (b : Bus) (stream_ : string) : list string + BusError := read_stream b stream_ subscriptions.

Definition with_waiting (n : Z) (s : ConsumerState) : ConsumerState :=
  mkConsumerState (stPending s) (stAckPending s) n (stMaxAckPending s) (stObservedAt s).

Definition bus_ConsumerState (b : Bus) (now : Time) (stream_ durable : string) : ConsumerState + BusError :=
  match buStreams b !! stream_ with
  | None => inr ErrStreamNotFound
  | Some st =>
      match stream_consumerState st durable now with
      | None => inr ErrConsumerNotFound
      | Some cs => inl (with_waiting (freeSlots b stream_ durable) cs)
      end
  end.

Definition bus_Message (b : Bus) (stream_ : string) (seq : Z) : string * Envelope + BusError :=
  match buStreams b !! stream_ with
  | None => inr ErrStreamNotFound
  | Some st => match message st seq with Some m => inl m | None => inr ErrMessageNotFound end
  end.

Definition StreamFill `{WireTime} (b : Bus) (stream_ : string) : Z * Z * Z + BusError := read_stream b stream_ fill.

Definition bus_Subjects (b : Bus) (stream_ filter : string) : list string + BusError :=
  read_stream b stream_ (fun st => subjects st filter).

Definition object_present (b : Bus) (o : TopologyObject) : bool :=
  match toKind o with
  | TopologyStream => bool_decide (is_Some (buStreams b !! toName o))
  | TopologyConsumer => match buStreams b !! toStream o with Some st => hasDurable st (toName o) | None => false end
  | TopologyBucket => bool_decide (is_Some (buBuckets b !! toName o))
  | TopologyObjectStore => bool_decide (is_Some (buObjectStores b !! toName o))
  end.

Definition Missing (b : Bus) (t : Topology) : list string + BusError :=
  if buClosed b then inr ErrClosed
  else inl (map TopologyObject_String (List.filter (fun o => negb (object_present b o)) (Objects t))).

#[export] Instance membus_admin : StreamAdmin Bus := {|
  admin_ConsumerState now s d := gets (fun b => bus_ConsumerState b now s d);
  admin_DeleteSubscription s d := DeleteSubscription s d;; ret None;
  admin_PurgeSubject s p := PurgeSubject s p;
|}.

(** ** Retiring (records.go) *)

Definition not_found (e : BusError) : bool :=
  match e with ErrConsumerNotFound | ErrStreamNotFound => true | _ => false end.

(** [Retire]: the reports and the errors it joins. *)
Fixpoint Retire `{StreamAdmin B} (retired : list RetiredConsumer) (now : Time) : M B (list RetiredReport * list BusError) :=
  match retired with
  | [] => ret ([], [])
  | r :: retired =>
      st <- admin_ConsumerState now (rcStream r) (rcDurable r);;
      let refused := match st with inr e => if not_found e then None else Some e | inl _ => None end in
      match refused with
      | Some e => out <- Retire retired now;; ret (fst out, e :: snd out)
      | None =>
          let rep := match st with
                     | inl cs => mkReport r true (Lag cs) now
                     | inr _ => mkReport r false 0 now
                     end in
          del <- admin_DeleteSubscription (rcStream r) (rcDurable r);;
          match del with
          | Some e => out <- Retire retired now;; ret (fst out, e :: snd out)
          | None =>
              purged <- (if String.eqb (rcPurge r) "" then ret None else admin_PurgeSubject (rcStream r) (rcPurge r));;
              match purged with
              | Some e =>
                  out <- Retire retired now;;
                  ret (match e with ErrStreamNotFound => (rep :: fst out, snd out) | _ => (fst out, e :: snd out) end)
              | None => out <- Retire retired now;; ret (rep :: fst out, snd out)
              end
          end
      end
  end.

(** [MergeRetired]. *)
Definition MergeRetired (seen : gmap string RetiredReport) (reports : list RetiredReport) : gmap string RetiredReport :=
  fold_left (fun seen r =>
    let k := rcStream (rrRetired r) +:+ "/" +:+ rcDurable (rrRetired r) in
    match seen !! k with
    | Some prev => if rrExisted prev then seen else <[k := r]> seen
    | None => <[k := r]> seen
    end) reports seen.

(** [SortedRetired]: by stream, then durable; the keys of [seen] tell the
    reports' streams and durables apart. *)
Definition report_leb (a b : RetiredReport) : bool :=
  match String.compare (rcStream (rrRetired a)) (rcStream (rrRetired b)) with
  | Lt => true
  | Gt => false
  | Eq => String.leb (rcDurable (rrRetired a)) (rcDurable (rrRetired b))
  end.
Fixpoint insert_report (r : RetiredReport) (l : list RetiredReport) : list RetiredReport :=
  match l with
  | [] => [r]
  | x :: l' => if report_leb r x then r :: l else x :: insert_report r l'
  end.
Definition SortedRetired (seen : gmap string RetiredReport) : list RetiredReport :=
  foldr insert_report [] (map snd (map_to_list seen)).

(** [Ensure]; its clock readings. *)
Definition Ensure (now retired_at : Time) (t : Topology) : M Bus (list BusError) :=
  err <- ensure now t;;
  match err with
  | Some e => ret [e]
  | None =>
      out <- Retire (Retired t) retired_at;;
      modify (fun b => b <| buRetired ::= fun seen => MergeRetired seen (fst out) |>);;
      ret (snd out)
  end.

(** [Close], [Drain]'s first step and [accepting]. *)
Definition Close : M Bus unit := modify (fun b => b <| buClosed := true |>).
Definition begin_drain : M Bus unit := b <- gets id;; if buClosed b then ret tt else modify (fun b => b <| buDraining := true |>).
