(* ===== verification/MembusFacts.v ===== *)
(** * MembusFacts: what the in-memory bus promises

    What a publish, a handing back, a refusal and a pass do; for each operation
    of the bus but [ensure] the script of stream operations that it comes to, so
    that what StreamFacts.v shows of a run holds of a stream in use; and what an
    ensured topology has. *)

From S2P Require Import Prelude GoLang Events KV Subjects Topology Layout Settle Stream StreamOps StreamRuns StreamFacts Slots Membus.
From S2P Require Validated.
From Stdlib Require Import Ascii.

Open Scope monad_scope.

(** ** Publishing *)

Lemma on_stream_some {A} name (m : M stream A) b st : buStreams b !! name = Some st ->
  on_stream name m b = (Some (fst (m st)), b <| buStreams ::= <[name := snd (m st)]> |>).
Proof.
  intros H. unfold on_stream, bind, gets. change (id b) with b. rewrite H. by destruct (m st).
Qed.
Lemma on_stream_at {A} name (m : M stream A) b st : buStreams b !! name = Some st ->
  buStreams (snd (on_stream name m b)) !! name = Some (snd (m st)).
Proof. intros H. rewrite (on_stream_some _ _ _ _ H). apply lookup_insert_eq. Qed.

Lemma on_stream_none {A} name (m : M stream A) b : buStreams b !! name = None -> on_stream name m b = (None, b).
Proof. intros H. unfold on_stream, bind, gets. change (id b) with b. by rewrite H. Qed.

(** The envelope as [Publish] stores it. *)
Definition stamped (b : Bus) (stamp : Time) (e : option Envelope) (opts : list PublishOption) : Envelope :=
  let env := (default zero_Envelope e) <| evID := poMsgID (ResolvePublishOptions e opts) |> in
  buBefore b (if IsZero (evTime env) then env <| evTime := stamp |> else env).

(** A publish that was answered with a receipt. *)
Lemma Publish_cases ended stamp now subject e opts b :
  (exists err, Publish ended stamp now subject e opts b = (inr err, b)) \/
  (exists spec st, StreamForSubject (buTopology b) subject = Some spec /\ buStreams b !! ssName spec = Some st /\
    let p := publish now subject (stamped b stamp e opts) (poScheduleAt (ResolvePublishOptions e opts)) st in
    Publish ended stamp now subject e opts b =
      (match fst p with Some rc => inl (ssName spec, rc) | None => inr ErrQueueFull end,
       b <| buStreams ::= <[ssName spec := snd p]> |>)).
Proof.
  destruct (Publish ended stamp now subject e opts b) as [res b'] eqn:E. revert E.
  unfold Publish. destruct ended; [intros [= <- <-]; left; by eexists |]. unfold bind at 1, gets. change (id b) with b. cbv zeta.
  destruct (buClosed b); [intros [= <- <-]; left; by eexists |].
  destruct (StreamForSubject (buTopology b) subject) as [spec |]; [| intros [= <- <-]; left; by eexists].
  destruct (buStreams b !! ssName spec) as [st |] eqn:Est; [| intros [= <- <-]; left; by eexists].
  destruct (negb _ && negb _); [intros [= <- <-]; left; by eexists |]. intros E. right. exists spec, st. split_and!; [done | done |].
  rewrite <- E. unfold bind. rewrite (on_stream_some _ _ _ _ Est). done.
Qed.

(** A publish that was answered with a receipt. *)
Lemma Publish_inl ended stamp now subject e opts b name rc :
  fst (Publish ended stamp now subject e opts b) = inl (name, rc) ->
  exists spec st, StreamForSubject (buTopology b) subject = Some spec /\ ssName spec = name /\
    buStreams b !! name = Some st /\
    let p := publish now subject (stamped b stamp e opts) (poScheduleAt (ResolvePublishOptions e opts)) st in
    fst p = Some rc /\
    snd (Publish ended stamp now subject e opts b) = b <| buStreams ::= <[name := snd p]> |>.
Proof.
  destruct (Publish_cases ended stamp now subject e opts b) as [[err ->] | (spec & st & Hf & Hst & ->)]; [done |].
  cbv zeta. cbn [fst snd]. destruct (fst (publish _ _ _ _ st)) as [r |] eqn:E; [| done]. intros [= <- <-].
  exists spec, st. done.
Qed.

(** A publish that was refused stored nothing. *)
Lemma Publish_inr_same ended stamp now subject e opts b err :
  fst (Publish ended stamp now subject e opts b) = inr err ->
  forall name, buStreams (snd (Publish ended stamp now subject e opts b)) !! name = buStreams b !! name.
Proof.
  destruct (Publish_cases ended stamp now subject e opts b) as [[err' ->] | (spec & st & _ & Est & ->)]; [done |].
  cbv zeta. cbn [fst snd]. set (env := stamped b stamp e opts).
  destruct (publish now subject env (poScheduleAt (ResolvePublishOptions e opts)) st) as [[r |] st'] eqn:Ep; [done |]. intros _ name.
  assert (st' = st) as ->.
  { revert Ep. unfold publish, bind, gets. change (id st) with st. destruct (duplicate _ _ _); [done |].
    destruct (full _ _); [by intros [= <-] |]. cbv zeta. by repeat case_match. }
  cbn. destruct (decide (name = ssName spec)) as [-> |]; [by rewrite lookup_insert_eq, Est | by rewrite lookup_insert_ne].
Qed.

(** Not past the age of its stream when it is stored. *)
Definition young (st : stream) (now : Time) (env : Envelope) : Prop :=
  ssMaxAge (stSpec st) <= 0 \/ Sub now (evTime env) < ssMaxAge (stSpec st).

(** Past the age its stream keeps messages for. *)
Definition past_age (st : stream) (now : Time) (env : Envelope) : Prop :=
  0 < ssMaxAge (stSpec st) /\ ssMaxAge (stSpec st) <= Sub now (evTime env).

Lemma young_or_past st now env : young st now env \/ past_age st now env.
Proof. unfold young, past_age. lia. Qed.

(** A message put into [b] can be read back from [b'], or was past the age of its
    stream as it was put there. *)
Definition copied (b b' : Bus) (now : Time) (name : string) (q : Z) (subject : string) (env : Envelope) : Prop :=
  bus_Message b' name q = inl (subject, env) \/ exists st, buStreams b !! name = Some st /\ past_age st now env.

Lemma Message_insert b name st q m : message st q = Some m -> bus_Message (b <| buStreams ::= <[name := st]> |>) name q = inl m.
Proof. intros H. unfold bus_Message. cbn. by rewrite lookup_insert_eq, H. Qed.

Lemma Message_other b name other st q : other <> name ->
  bus_Message (b <| buStreams ::= <[other := st]> |>) name q = bus_Message b name q.
Proof. intros H. unfold bus_Message. cbn. by rewrite lookup_insert_ne. Qed.

Lemma publish_message now subject env at_ st q : stream_ok st -> young st now env ->
  fst (publish now subject env at_ st) = Some (mkReceipt q false) ->
  message (snd (publish now subject env at_ st)) q = Some (subject, env) /\ index q = length (stHeap st) /\
  stream_ok (snd (publish now subject env at_ st)).
Proof.
  intros Hs Hy Hp. pose proof (exec_ok (SPublish now subject env at_) st Hs) as Hok. cbn [exec] in Hok.
  rewrite publish_run in * by done. destruct (duplicate _ _ _); [done |]. destruct (full _ _); [done |].
  cbv zeta in *. cbn [fst snd] in *. injection Hp as <-.
  assert (index (Z.succ (stSeq st)) = length (stHeap st)) as Hi by (rewrite (ok_last st Hs); unfold index; lia).
  split_and!; [| done | done]. rewrite message_at, Hi by done. split; [rewrite (ok_last st Hs); lia |].
  set (s1 := push_msg now subject env at_ st) in *. destruct (prune_frame now s1) as (E1 & _).
  assert (msg_at s1 (length (stHeap st)) = mkMsg (Z.succ (stSeq st)) subject env at_ (datasize env) false "" ∅) as Hat
    by (unfold s1; by rewrite push_at, Nat.eqb_refl).
  assert (msg_at (prune now s1) (length (stHeap st)) = msg_at s1 (length (stHeap st))) as Hat' by (unfold msg_at; by rewrite E1).
  assert (expired now s1 (length (stHeap st)) = false) as Hx.
  { unfold expired. rewrite Hat. change (stSpec s1) with (stSpec st). unfold too_old. cbn [mmEnv].
    apply andb_false_iff. destruct Hy as [Hy | Hy]; [left | right]; [by apply Z.ltb_ge | by apply Z.leb_gt]. }
  rewrite live_drop. unfold live. rewrite drop_at, Hx, Hat', Hat. done.
Qed.

(** A published message can be read back from the bus: a receipt that is not
    a duplicate names the stream its subject belongs to and the sequence number
    under which exactly that message is stored, and no other stream changed. *)
Theorem published_reads_back ended stamp now subject e opts b name q st :
  fst (Publish ended stamp now subject e opts b) = inl (name, mkReceipt q false) ->
  buStreams b !! name = Some st -> stream_ok st -> young st now (stamped b stamp e opts) ->
  let b' := snd (Publish ended stamp now subject e opts b) in
  (exists spec, StreamForSubject (buTopology b) subject = Some spec /\ ssName spec = name) /\
  bus_Message b' name q = inl (subject, stamped b stamp e opts) /\
  (forall other, other <> name -> buStreams b' !! other = buStreams b !! other).
Proof.
  intros Hp Hst Hs Hy. destruct (Publish_inl _ _ _ _ _ _ _ _ _ Hp) as (spec & st' & Hf & Hn & Hst' & Hr & Hb).
  assert (st' = st) as -> by congruence. cbv zeta. rewrite Hb. split_and!; [by eauto | |].
  - apply Message_insert. by destruct (publish_message _ _ _ _ _ _ Hs Hy Hr) as (-> & _).
  - intros other Ho. cbn. by rewrite lookup_insert_ne.
Qed.

(** A copy published and then another message of the bus acknowledged: the copy
    stays. *)
Lemma copy_stays ended stamp now subject e opts b name q i d ds :
  fst (Publish ended stamp now subject e opts b) = inl (name, mkReceipt q false) ->
  (forall n st, buStreams b !! n = Some st -> stream_ok st) ->
  (forall st, buStreams b !! ds = Some st -> (i < length (stHeap st))%nat) ->
  copied b (snd (on_stream ds (ack i d) (snd (Publish ended stamp now subject e opts b)))) now name q subject
    (stamped b stamp e opts).
Proof.
  intros Hp Hok Hi. destruct (Publish_inl _ _ _ _ _ _ _ _ _ Hp) as (spec & st & _ & _ & Hst & Hr & ->).
  destruct (young_or_past st now (stamped b stamp e opts)) as [Hy | Hy]; [left | right; by exists st].
  destruct (publish_message _ _ _ _ _ _ (Hok _ _ Hst) Hy Hr) as (Hm & Hidx & Hok').
  set (st' := snd (publish now subject (stamped b stamp e opts) _ st)) in *.
  set (b1 := b <| buStreams ::= <[name := st']> |>).
  assert (buStreams b1 !! name = Some st') as H1 by apply lookup_insert_eq.
  destruct (decide (ds = name)) as [-> | Hne].
  - rewrite (on_stream_some _ _ _ _ H1). apply Message_insert.
    change (message (exec (SAck i d) st') q = Some (subject, stamped b stamp e opts)).
    apply message_at in Hm as (Hq & Hl & Hsub & Henv); [| done]. apply message_at; [by apply exec_ok |].
    destruct (exec_moved st' Hok' (index q) (live_lt _ _ Hl) (SAck i d)) as [Hlive _ _ (_ & Hsub' & He' & _)].
    rewrite Hlive, Hl, Hsub', He'. split_and!; [done | | done | done]. cbn [leaves andb].
    assert (i < length (stHeap st))%nat as Hlt by (by apply Hi). destruct (Nat.eqb_spec i (index q)); [lia |]. by rewrite andb_false_r.
  - destruct (buStreams b1 !! ds) as [x |] eqn:E.
    + rewrite (on_stream_some _ _ _ _ E). cbn [snd]. rewrite Message_other by done. by apply Message_insert.
    + rewrite (on_stream_none _ _ _ E). by apply Message_insert.
Qed.

(** As it was published. *)
Lemma copy_made ended stamp now subject e opts b name q :
  fst (Publish ended stamp now subject e opts b) = inl (name, mkReceipt q false) ->
  (forall n st, buStreams b !! n = Some st -> stream_ok st) ->
  copied b (snd (Publish ended stamp now subject e opts b)) now name q subject (stamped b stamp e opts).
Proof.
  intros Hp Hok. destruct (Publish_inl _ _ _ _ _ _ _ _ _ Hp) as (spec & st & _ & _ & Hst & Hr & ->).
  destruct (young_or_past st now (stamped b stamp e opts)) as [Hy | Hy]; [left | right; by exists st].
  apply Message_insert. by destruct (publish_message _ _ _ _ _ _ (Hok _ _ Hst) Hy Hr) as (-> & _).
Qed.

(** ** Handing a delivery back *)

(** C17.  A stopping subscription hands a delivery back against a copy or not at
    all. The delivery is settled, and one of three things holds. A copy was
    published, as the message was and under an identifier of its own, and can be
    read back -- unless the message is already past the age that the copy's
    stream keeps messages for, in which case it is dropped there as any publish
    of that age is. Or the stream still remembers an earlier copy under that
    identifier. Or no copy was taken, and the message itself is still in its
    stream, unsettled for its durable, free to be delivered again. *)
Theorem requeue_loses_nothing stamp now g sub b st :
  let m := msg_at st (dvMsg g) in
  let opts := [WithMsgID (RequeueMsgID (evID (mmEnv m)) (mmSeq m)); WithExpectStream (sbStream sub)] in
  sbRequeueOnStop sub = true -> dvSettled g = false -> dvLapsed g = false ->
  (forall n st, buStreams b !! n = Some st -> stream_ok st) ->
  buStreams b !! dvStream g = Some st -> live st (dvMsg g) = true ->
  coSettled (state_of m (dvDurable g)) = false ->
  let answer := fst (Publish false stamp now (mmSubject m) (Some (mmEnv m)) opts b) in
  let '(g', b') := requeue stamp now g sub b in
  dvSettled g' = true /\
  ((exists name q, answer = inl (name, mkReceipt q false) /\
      copied b b' now name q (mmSubject m) (stamped b stamp (Some (mmEnv m)) opts)) \/
   (exists name q, answer = inl (name, mkReceipt q true)) \/
   ((exists err, answer = inr err) /\ exists st', buStreams b' !! dvStream g = Some st' /\ live st' (dvMsg g) = true /\
      coSettled (state_of (msg_at st' (dvMsg g)) (dvDurable g)) = false)).
Proof.
  intros m opts Hrq Hset Hlap Hok Hst Hl Hun. cbv zeta. unfold requeue. rewrite Hrq, Hset, Hlap. cbn [negb].
  assert (held_msg g b = m) as Hm by (unfold held_msg; by rewrite Hst).
  unfold bind at 1, gets. rewrite Hm. unfold bind. fold opts.
  destruct (Publish false stamp now (mmSubject m) (Some (mmEnv m)) opts b) as [[[name [q dup]] | e] b1] eqn:Ep.
  - destruct (on_stream (dvStream g) (ack (dvMsg g) (dvDurable g)) b1) as [u b2] eqn:Ea. split; [done |].
    destruct dup; [by right; left; eauto | left]. exists name, q. split; [done |].
    assert (fst (Publish false stamp now (mmSubject m) (Some (mmEnv m)) opts b) = inl (name, mkReceipt q false)) as Hp by (by rewrite Ep).
    pose proof (copy_stays _ _ _ _ _ _ _ _ _ (dvMsg g) (dvDurable g) (dvStream g) Hp Hok) as Hc.
    rewrite Ep in Hc. cbn [snd] in Hc. rewrite Ea in Hc. apply Hc. intros x Hx. assert (x = st) as -> by congruence. by apply live_lt.
  - destruct (on_stream (dvStream g) (nak (dvMsg g) (dvDurable g) now 0) b1) as [u b2] eqn:Ea. split; [done |].
    right; right. split; [by eexists |]. assert (buStreams b1 !! dvStream g = Some st) as H1.
    { pose proof (Publish_inr_same false stamp now (mmSubject m) (Some (mmEnv m)) opts b e) as H. rewrite Ep in H.
      by rewrite H. }
    rewrite (on_stream_some _ _ _ _ H1) in Ea. injection Ea as _ <-.
    exists (exec (SNak (dvMsg g) (dvDurable g) now 0) st). split; [apply lookup_insert_eq |].
    destruct (exec_moved st (Hok _ _ Hst) (dvMsg g) (live_lt _ _ Hl) (SNak (dvMsg g) (dvDurable g) now 0)) as [-> Hrec _ _].
    rewrite Hl, Hrec. cbn [leaves record_after negb andb]. by rewrite decide_True.
Qed.

(** ** Refusing a delivery *)

(** Reading the attempts and then publishing leave the records of a stream's
    messages as they are. *)
Lemma Attempt_at g b st : buStreams b !! dvStream g = Some st ->
  buStreams (snd (Attempt g b)) !! dvStream g = Some (exec (SAttemptOf (dvMsg g) (dvDurable g)) st).
Proof. intros H. unfold Attempt. rewrite run_bind. by apply (on_stream_at _ (attemptOf (dvMsg g) (dvDurable g))). Qed.

Lemma Publish_at ended stamp now subject e opts b n st i d : buStreams b !! n = Some st -> stream_ok st ->
  (i < length (stHeap st))%nat ->
  exists st', buStreams (snd (Publish ended stamp now subject e opts b)) !! n = Some st' /\ stream_ok st' /\
    (i < length (stHeap st'))%nat /\ state_of (msg_at st' i) d = state_of (msg_at st i) d.
Proof.
  intros Hst Hok Hi. destruct (Publish_cases ended stamp now subject e opts b) as [[err ->] | (spec & x & _ & Hx & ->)];
    [by exists st |]. cbv zeta. cbn [snd]. destruct (decide (n = ssName spec)) as [-> | Hne].
  - assert (x = st) as -> by congruence. set (at_ := poScheduleAt _). set (env := stamped _ _ _ _).
    exists (exec (SPublish now subject env at_) st). split; [apply lookup_insert_eq |].
    split_and!; [by apply exec_ok | | apply (mv_record _ _ _ _ (exec_moved st Hok i Hi (SPublish now subject env at_)))].
    eapply Nat.lt_le_trans; [exact Hi | by apply exec_length].
  - exists st. split; [by rewrite <- Hst; apply lookup_insert_ne | done].
Qed.

Lemma Attempt_ok g b : (forall n st, buStreams b !! n = Some st -> stream_ok st) ->
  forall n st, buStreams (snd (Attempt g b)) !! n = Some st -> stream_ok st.
Proof.
  intros Hok n x Hx. destruct (buStreams b !! dvStream g) as [st |] eqn:E.
  - destruct (decide (n = dvStream g)) as [-> | Hne].
    + rewrite (Attempt_at g b st E) in Hx. apply (Hok _ _) in E. injection Hx as Hx. rewrite <- Hx.
      by apply (exec_ok (SAttemptOf (dvMsg g) (dvDurable g)) st).
    + apply (Hok n). rewrite <- Hx. unfold Attempt. rewrite run_bind, (on_stream_some _ _ _ _ E). symmetry. by apply lookup_insert_ne.
  - apply (Hok n). rewrite <- Hx. unfold Attempt. by rewrite run_bind, (on_stream_none _ _ _ E).
Qed.

Lemma settle_term stamp now g sub reason b : dvSettled g = false ->
  settle stamp now g sub (SettleTerm reason) b =
    let '(subject, env) := DeadLetterEnvelope (Some (mmEnv (held_msg g (snd (Attempt g b))))) (mmSubject (held_msg g (snd (Attempt g b))))
                             (fst (Attempt g b)) (sbDurable sub) reason in
    Term g (snd (Publish false stamp now subject (Some env) [] (snd (Attempt g b)))).
Proof.
  intros Hset. unfold settle. rewrite run_bind. unfold deadLetter. rewrite run_bind. unfold bind at 1, gets.
  destruct (DeadLetterEnvelope _ _ _ _ _) as [subject env]. by rewrite run_bind.
Qed.

(** C38.  A message its handler refused is copied before it is given up. Where the
    copy is published -- a receipt that is not a duplicate's -- it is already in
    its stream, under its identifier and with the reason, while the delivery's
    own record is still what it was; only then is the delivery given up, and
    that is all that follows: the copy is still there and the message is settled
    for its durable. The copy of a message past the age that its stream keeps
    messages for is the exception, as for any publish: the stream drops it at
    once. *)
Theorem refused_is_copied stamp now g sub reason b name q st :
  let b0 := snd (Attempt g b) in
  let m := held_msg g b0 in
  let '(subject, env) := DeadLetterEnvelope (Some (mmEnv m)) (mmSubject m) (fst (Attempt g b)) (sbDurable sub) reason in
  let copy := stamped b0 stamp (Some env) [] in
  let b1 := snd (Publish false stamp now subject (Some env) [] b0) in
  dvSettled g = false ->
  (forall n st, buStreams b !! n = Some st -> stream_ok st) ->
  buStreams b !! dvStream g = Some st -> (dvMsg g < length (stHeap st))%nat ->
  fst (Publish false stamp now subject (Some env) [] b0) = inl (name, mkReceipt q false) ->
  (copied b0 b1 now name q subject copy /\
   exists st1, buStreams b1 !! dvStream g = Some st1 /\
     state_of (msg_at st1 (dvMsg g)) (dvDurable g) = state_of (msg_at st (dvMsg g)) (dvDurable g)) /\
  let '(g', b') := settle stamp now g sub (SettleTerm reason) b in
  b' = snd (Term g b1) /\ dvSettled g' = true /\
  copied b0 b' now name q subject copy /\
  exists st', buStreams b' !! dvStream g = Some st' /\ coSettled (state_of (msg_at st' (dvMsg g)) (dvDurable g)) = true.
Proof.
  intros b0 m. destruct (DeadLetterEnvelope _ _ _ _ _) as [subject env] eqn:Ed.
  intros copy b1 Hset Hok Hst Hi Hp.
  pose proof (Attempt_ok g b Hok) as Hok0. pose proof (Attempt_at g b st Hst) as Hst0. fold b0 in Hok0, Hst0.
  set (st0 := exec _ st) in Hst0. pose proof (Hok _ _ Hst) as Hs.
  assert (dvMsg g < length (stHeap st0))%nat as Hi0 by (eapply Nat.lt_le_trans; [exact Hi | by apply exec_length]).
  destruct (Publish_at false stamp now subject (Some env) [] b0 (dvStream g) st0 (dvMsg g) (dvDurable g) Hst0 (Hok0 _ _ Hst0) Hi0)
    as (st1 & Hst1 & Hok1 & Hi1 & Hrec). fold b1 in Hst1.
  split.
  - split; [by apply copy_made |]. exists st1. split; [done |]. rewrite Hrec.
    apply (mv_record _ _ _ _ (exec_moved st Hs (dvMsg g) Hi (SAttemptOf _ _))).
  - rewrite settle_term by done. fold b0 m. rewrite Ed. fold b1. unfold Term. rewrite Hset, run_bind. split_and!; [done | done | |].
    + apply (copy_stays _ _ _ _ _ _ _ _ _ (dvMsg g) (dvDurable g) (dvStream g) Hp Hok0). intros x Hx. by assert (x = st0) as -> by congruence.
    + exists (exec (SAck (dvMsg g) (dvDurable g)) st1). split; [by apply (on_stream_at _ (ack (dvMsg g) (dvDurable g))) |].
      rewrite exec_record, bool_decide_eq_true_2 by done. cbn [record_after]. by rewrite decide_True.
Qed.

(** ** The slots of a pass *)

Definition same_subs (b b' : Bus) : Prop := buSubs b' = buSubs b.
#[export] Instance same_subs_pre : PreOrder same_subs.
Proof. split; unfold same_subs; [done | congruence]. Qed.

Lemma on_stream_subs {A} name (m : M stream A) : keeps same_subs (on_stream name m).
Proof.
  intros b. destruct (buStreams b !! name) as [st |] eqn:E.
  - by rewrite (on_stream_some _ _ _ _ E).
  - by rewrite (on_stream_none _ _ _ E).
Qed.
#[export] Hint Resolve on_stream_subs : keeps.

Lemma Publish_subs ended stamp now subject e opts : keeps same_subs (Publish ended stamp now subject e opts).
Proof. unfold Publish. keeps. Qed.
#[export] Hint Resolve Publish_subs : keeps.

Lemma deadLetter_subs stamp now g d reason : keeps same_subs (deadLetter stamp now g d reason).
Proof. unfold deadLetter, Attempt. keeps. Qed.
#[export] Hint Resolve deadLetter_subs : keeps.

Lemma dead_letter_all_subs stamp now name sub ids : keeps same_subs (dead_letter_all stamp now name sub ids).
Proof. induction ids as [| i ids IH]; cbn [dead_letter_all]; keeps. Qed.
#[export] Hint Resolve dead_letter_all_subs : keeps.

Lemma deadLetterLapsed_subs sweep stamp now name sub : keeps same_subs (deadLetterLapsed sweep stamp now name sub).
Proof. unfold deadLetterLapsed. keeps. Qed.

Lemma on_sub_some {A} k (x : A) (m : M memSub A) b s : buSubs b !! k = Some s ->
  on_sub k x m b = (fst (m s), b <| buSubs ::= <[k := snd (m s)]> |>).
Proof. intros H. unfold on_sub, bind, gets. change (id b) with b. rewrite H. by destruct (m s). Qed.

Lemma keeps_subs {A} (m : M Bus A) b k s : keeps same_subs m -> buSubs b !! k = Some s -> buSubs (snd (m b)) !! k = Some s.
Proof. intros Hm Hs. specialize (Hm b). destruct (m b) as [a b']. cbn in *. unfold same_subs in Hm. congruence. Qed.

(** One pass of a subscription takes its slots through their own steps only,
    whatever the streams hold, so it keeps the bounds of [slots_hold]; the
    delivery it starts is running in the slots with the message it is of, its
    slot not given back. *)
Theorem pass_steps_slots sweep stamp pub now k sub order b s :
  buSubs b !! k = Some s ->
  let '(r, b') := consume_pass sweep stamp pub now k sub order b in
  exists s', buSubs b' !! k = Some s' /\ rtc sub_step (false, s) (false, s') /\
    match r with
    | Some (d, g) => exists x, msRunning s' !! d = Some x /\ mdMsg x = dvMsg g /\ mdLapsed x = false
    | None => True
    end.
Proof.
  intros Hs. unfold consume_pass. unfold bind at 1, gets at 1. change (id b) with b.
  destruct (boundStream b sub) as [st |]; [| exists s; split_and!; [done | apply rtc_refl | done]]. cbv zeta.
  set (eff := match boundTiming st (sbDurable sub) with Some t => WithTiming sub t | None => sub end).
  rewrite run_bind. rewrite (on_sub_some _ _ _ _ _ Hs). cbn [fst snd].
  set (b1 := b <| buSubs ::= <[k := snd (setEffective eff s)]> |>).
  assert (buSubs b1 !! k = Some (snd (setEffective eff s))) as H1 by apply lookup_insert_eq.
  rewrite run_bind. pose proof (keeps_subs _ b1 k _ (deadLetterLapsed_subs sweep stamp pub (sbStream sub) eff) H1) as H2.
  set (b2 := snd (deadLetterLapsed sweep stamp pub (sbStream sub) eff b1)) in *. cbv zeta.
  unfold bind at 1, gets at 1. change (id b2) with b2.
  set (st2 := default st (buStreams b2 !! sbStream sub)).
  rewrite run_bind, (on_sub_some _ _ _ _ _ H2). cbn [fst snd].
  set (s2 := snd (reclaim st2 (sbDurable sub) now order (snd (setEffective eff s)))).
  set (b3 := b2 <| buSubs ::= <[k := s2]> |>). assert (buSubs b3 !! k = Some s2) as H3 by apply lookup_insert_eq.
  assert (rtc sub_step (false, s) (false, s2)) as R2.
  { eapply rtc_l; [apply (step_effective false eff s) |]. apply rtc_once, (step_reclaim false st2). }
  rewrite run_bind, (on_sub_some _ _ _ _ _ H3). cbn [fst snd].
  destruct (acquire s2) as [free s3] eqn:Ea. cbn [fst snd]. set (b4 := b3 <| buSubs ::= <[k := s3]> |>).
  assert (buSubs b4 !! k = Some s3) as H4 by apply lookup_insert_eq.
  destruct free.
  2: { exists s3. assert (s3 = s2) as ->; [| split_and!; done].
    revert Ea. unfold acquire, bind, gets. change (id s2) with s2. destruct (msSlots s2 <=? msLive s2); [by intros [= <-] | done]. }
  assert (rtc sub_step (false, s) (true, s3)) as R3 by (eapply rtc_r; [exact R2 | by apply step_acquire]).
  rewrite run_bind. set (cl := on_stream (sbStream sub) _).
  pose proof (keeps_subs cl b4 k s3 (on_stream_subs _ _) H4) as H5. set (b5 := snd (cl b4)) in *.
  assert (forall u, let '(r, b') := (on_sub k tt unacquire;; @ret Bus (option (nat * delivery)) u) b5 in
    exists s', buSubs b' !! k = Some s' /\ rtc sub_step (false, s) (false, s') /\ r = u) as Hun.
  { intros u. unfold bind. rewrite (on_sub_some _ _ _ _ _ H5). cbn. exists (snd (unacquire s3)).
    split_and!; [apply lookup_insert_eq | | done]. eapply rtc_r; [exact R3 | apply step_unacquire]. }
  destruct (fst (cl b4)) as [[i |] |].
  2,3: specialize (Hun None); destruct (bind _ _ b5) as [r b']; destruct Hun as (s' & ? & ? & ->); by exists s'.
  clear Hun. rewrite run_bind. set (at_ := on_stream (sbStream sub) (attemptOf i (sbDurable sub))).
  pose proof (keeps_subs at_ b5 k s3 (on_stream_subs _ _) H5) as H6. set (b6 := snd (at_ b5)) in *.
  set (attempt := default 0 (fst (at_ b5))).
  rewrite run_bind, (on_sub_some _ _ _ _ _ H6). cbn [fst snd].
  set (s4 := snd (track i attempt s3)). set (b7 := b6 <| buSubs ::= <[k := s4]> |>).
  assert (buSubs b7 !! k = Some s4) as H7 by apply lookup_insert_eq.
  change (fst (track i attempt s3)) with (msNext s3). rewrite run_bind, (on_sub_some _ _ _ _ _ H7). unfold ret. cbn [fst snd].
  exists (snd (budget (msNext s3) eff s4)). split_and!.
  - apply lookup_insert_eq.
  - eapply rtc_r; [| apply (step_budget false (msNext s3) eff)]. eapply rtc_r; [exact R3 | apply step_track].
  - assert (msRunning s4 !! msNext s3 = Some (mkDelivery i attempt false 0 false false)) as Ht by apply lookup_insert_eq.
    unfold budget, bind, gets, modify. change (id s4) with s4. destruct (sbHandlerTimeout (msSub s4) <=? 0); cbn [snd].
    + by eexists.
    + change (exists x, alter (fun x => x <| mdCancel := true |>) (msNext s3) (msRunning s4) !! msNext s3 = Some x /\ mdMsg x = i /\ mdLapsed x = false).
      rewrite lookup_alter_eq, Ht. by eexists.
Qed.

(** ** What the bus does to its streams *)

(** A script of stream operations.  A step on a stream goes on with the stream as
    it was before the step, [None] where the bus has none of that name and the
    step does nothing. *)
Inductive script :=
| Done
| Look (name : string) (next : option stream -> script)
| Do (name : string) (o : sop) (next : option stream -> script).

(** The operations a script comes to, and the streams after them. *)
Fixpoint ops_of (sc : script) (m : gmap string stream) : list (string * sop) :=
  match sc with
  | Done => []
  | Look name next => ops_of (next (m !! name)) m
  | Do name o next =>
      match m !! name with
      | None => ops_of (next None) m
      | Some st => (name, o) :: ops_of (next (Some st)) (<[name := exec o st]> m)
      end
  end.
Fixpoint perform (sc : script) (m : gmap string stream) : gmap string stream :=
  match sc with
  | Done => m
  | Look name next => perform (next (m !! name)) m
  | Do name o next =>
      match m !! name with
      | None => perform (next None) m
      | Some st => perform (next (Some st)) (<[name := exec o st]> m)
      end
  end.

(** Those of one stream, in order. *)
Definition of_stream (name : string) (l : list (string * sop)) : list sop :=
  omap (fun x => if String.eqb x.1 name then Some x.2 else None) l.

Lemma of_stream_app name l l' : of_stream name (l ++ l') = of_stream name l ++ of_stream name l'.
Proof. apply omap_app. Qed.

Lemma perform_steps sc m name : perform sc m !! name = run (of_stream name (ops_of sc m)) <$> m !! name.
Proof.
  revert m. induction sc as [| n next IH | n o next IH]; intros m; cbn [perform ops_of].
  - by destruct (m !! name).
  - apply IH.
  - destruct (m !! n) as [st |] eqn:E; [| apply IH]. rewrite IH.
    unfold of_stream. cbn [omap list_omap fst snd].
    destruct (String.eqb_spec n name) as [-> | Hne]; [by rewrite lookup_insert_eq, E | by rewrite lookup_insert_ne].
Qed.

(** *** The scripts

    What a publish needs of the bus stays the same while it works. *)
Record config := mkConfig { cfClosed : bool; cfTopology : Topology; cfBefore : Envelope -> Envelope }.
Definition config_of (b : Bus) : config := mkConfig (buClosed b) (buTopology b) (buBefore b).

(** The envelope as it is stored: under its ID, stamped, past the caller's
    hook. *)
Definition sealed (c : config) (stamp : Time) (e : option Envelope) (opts : list PublishOption) : Envelope :=
  let env := (default zero_Envelope e) <| evID := poMsgID (ResolvePublishOptions e opts) |> in
  cfBefore c (if evTime env =? 0 then env <| evTime := stamp |> else env).

(** A stream takes a publish it has had already, or has room for. *)
Definition takes (s : stream) (now : Time) (env : Envelope) : bool :=
  bool_decide (is_Some (duplicate s now (evID env))) || negb (full s (datasize env)).

(** One step on the stream of the subject, told whether it took the message. *)
Definition publish_script (c : config) (stamp now : Time) (subject : string) (e : option Envelope)
    (opts : list PublishOption) (next : bool -> script) : script :=
  let o := ResolvePublishOptions e opts in
  match StreamForSubject (cfTopology c) subject with
  | Some spec =>
      if decide (cfClosed c = false /\ (poExpectStream o = "" \/ poExpectStream o = ssName spec))
      then Do (ssName spec) (SPublish now subject (sealed c stamp e opts) (poScheduleAt o))
             (fun st => next (from_option (fun s => takes s now (sealed c stamp e opts)) false st))
      else next false
  | None => next false
  end.

(** An acknowledgement, once; a delay, of a delivery that holds its message. *)
Definition ack_script (g : delivery) (next : script) : script :=
  if dvSettled g then next else Do (dvStream g) (SAck (dvMsg g) (dvDurable g)) (fun _ => next).
Definition nak_script (now : Time) (delay : Duration) (g : delivery) (next : script) : script :=
  if dvSettled g || dvLapsed g then next else Do (dvStream g) (SNak (dvMsg g) (dvDurable g) now delay) (fun _ => next).

Definition held_in (g : delivery) (st : option stream) : memMsg := from_option (fun s => msg_at s (dvMsg g)) nil_msg st.
Definition attempts_in (g : delivery) (st : option stream) : Z :=
  from_option (fun s => coAttempts (state_of (msg_at s (dvMsg g)) (dvDurable g))) 0 st.

(** The dead letter: its attempts read, then the copy published. *)
Definition dead_letter_script (c : config) (stamp now : Time) (g : delivery) (durable reason : string) (next : script) :
    script :=
  Do (dvStream g) (SAttemptOf (dvMsg g) (dvDurable g)) (fun st =>
    let '(subject, env) :=
      DeadLetterEnvelope (Some (mmEnv (held_in g st))) (mmSubject (held_in g st)) (attempts_in g st) durable reason in
    publish_script c stamp now subject (Some env) [] (fun _ => next)).

(** A delivery handed back: its copy published, then it acknowledged if the copy
    was taken and made ready again if not. *)
Definition requeue_script (c : config) (stamp now : Time) (g : delivery) (sub : Subscription) (next : script) : script :=
  if negb (sbRequeueOnStop sub) then nak_script now 0 g next
  else if dvSettled g || dvLapsed g then next
  else Look (dvStream g) (fun st =>
    let m := held_in g st in
    publish_script c stamp now (mmSubject m) (Some (mmEnv m))
      [WithMsgID (RequeueMsgID (evID (mmEnv m)) (mmSeq m)); WithExpectStream (sbStream sub)]
      (fun taken => Do (dvStream g) (if taken : bool then SAck (dvMsg g) (dvDurable g) else SNak (dvMsg g) (dvDurable g) now 0)
                      (fun _ => next))).

Definition settle_script (c : config) (stamp now : Time) (g : delivery) (sub : Subscription) (s : Settlement)
    (next : script) : script :=
  match s with
  | SettleAck => ack_script g next
  | SettleNak delay => nak_script now delay g next
  | SettleTerm reason => dead_letter_script c stamp now g (sbDurable sub) reason (ack_script g next)
  | SettleRequeue _ => requeue_script c stamp now g sub next
  end.

Definition deliver_script (c : config) (stamp now : Time) (stopping : bool) (g : delivery) (sub : Subscription)
    (o : outcome) (next : script) : script :=
  if dvSettled g then next
  else Do (dvStream g) (SAttemptOf (dvMsg g) (dvDurable g)) (fun st =>
    settle_script c stamp now g sub (Settle (RequeueIfStopping stopping (outcome_error o) sub) (attempts_in g st) sub) next).

(** The sweep: the lapsed taken out, then each dead-lettered. *)
Definition sweep_script (c : config) (sweep stamp now : Time) (name : string) (sub : Subscription) (next : script) : script :=
  let o := SLapsed (sbDurable sub) (sbFilters sub) sweep (sbMaxDeliver sub) in
  Do name o (fun st =>
    foldr (fun i => dead_letter_script c stamp now (mkHeld name i (sbDurable sub) sub false false) (sbDurable sub)
                      (AckWaitExhaustedReason (sbMaxDeliver sub))) next (from_option (reports o) [] st)).

Definition claim_script (sub eff : Subscription) (now : Time) (next : option nat -> script) : script :=
  let o := SClaim (sbDurable sub) (sbFilters sub) now (sub_AckDeadline eff) (sbMaxDeliver eff) in
  Do (sbStream sub) o (fun st => next (from_option (hands o) None st)).

(** A slot is free once the lapsed ones are given back. *)
Definition slot_free (slots : option memSub) (eff : Subscription) (st : stream) (durable : string) (now : Time)
    (order : list nat) : bool :=
  from_option (fun s => fst (acquire (snd (reclaim st durable now order (snd (setEffective eff s)))))) false slots.

(** A pass: nothing of a durable that is not bound; else the sweep, and a claim
    where a slot is free. *)
Definition pass_script (c : config) (slots : option memSub) (sweep stamp pub now : Time) (sub : Subscription)
    (order : list nat) (next : script) : script :=
  Look (sbStream sub) (fun st =>
    match st with
    | None => next
    | Some st =>
        if hasDurable st (sbDurable sub) then
          let eff := from_option (WithTiming sub) sub (boundTiming st (sbDurable sub)) in
          sweep_script c sweep stamp pub (sbStream sub) eff
            (Look (sbStream sub) (fun st' =>
               if slot_free slots eff (default st st') (sbDurable sub) now order
               then claim_script sub eff now (fun i =>
                      match i with
                      | Some i => Do (sbStream sub) (SAttemptOf i (sbDurable sub)) (fun _ => next)
                      | None => next
                      end)
               else next))
        else next
    end).

Definition delete_script (stream_ durable : string) (next : script) : script :=
  Do stream_ (SForget durable) (fun _ =>
    Do StreamAdvisories (SForget (DeadLetterWatcherName stream_ durable)) (fun _ => next)).
Definition bind_script (c : ConsumerSpec) (next : script) : script :=
  Do (csStream c) (SBind (csName c) (csFilters c) (csMaxAckPending c) (sub_Timing (spec_Subscription c))) (fun _ => next).

(** A retirement: each durable deleted, and then its subject purged. *)
Definition retire_script (retired : list RetiredConsumer) (next : script) : script :=
  foldr (fun r next => delete_script (rcStream r) (rcDurable r)
    (if String.eqb (rcPurge r) "" then next else Do (rcStream r) (SPurge (rcPurge r)) (fun _ => next))) next retired.

(** *** They are what the bus does *)

(** [m] takes the streams where [sc] does, whatever comes next, and changes
    nothing a publish needs. *)
Definition follows {A} (m : M Bus A) (sc : config -> script -> script) : Prop := forall b next,
  perform (sc (config_of b) next) (buStreams b) = perform next (buStreams (snd (m b))) /\ config_of (snd (m b)) = config_of b.

Lemma follows_ret {A} (a : A) : follows (ret a) (fun _ next => next).
Proof. by intros b next. Qed.

Lemma follows_bind {A B} (m : M Bus A) (f : A -> M Bus B) sc sc' : follows m sc -> (forall a, follows (f a) sc') ->
  follows (bind m f) (fun c next => sc c (sc' c next)).
Proof.
  intros Hm Hf b next. unfold bind. destruct (Hm b (sc' (config_of b) next)) as [-> H1]. destruct (m b) as [a b1]. cbn [snd] in *.
  destruct (Hf a b1 next) as [H2 H3]. rewrite <- H1, <- H2. split; [done | congruence].
Qed.

Lemma on_stream_do {A} name (m : M stream A) o b (next : option stream -> script) : (forall s, snd (m s) = exec o s) ->
  perform (Do name o next) (buStreams b) = perform (next (buStreams b !! name)) (buStreams (snd (on_stream name m b))) /\
  config_of (snd (on_stream name m b)) = config_of b /\ buSubs (snd (on_stream name m b)) = buSubs b /\
  fst (on_stream name m b) = (fun s => fst (m s)) <$> buStreams b !! name.
Proof.
  intros Hm. cbn [perform]. destruct (buStreams b !! name) as [st |] eqn:E.
  - rewrite (on_stream_some _ _ _ _ E), <- Hm. done.
  - rewrite (on_stream_none _ _ _ E). done.
Qed.

Lemma follows_on {A} name (m : M stream A) o : (forall s, snd (m s) = exec o s) ->
  follows (on_stream name m) (fun _ next => Do name o (fun _ => next)).
Proof. intros Hm b next. destruct (on_stream_do name m o b (fun _ => next) Hm) as (-> & -> & _). done. Qed.

Lemma follows_sub {A} k (x : A) m : follows (on_sub k x m) (fun _ next => next).
Proof.
  intros b next. unfold on_sub, bind, gets. change (id b) with b. destruct (buSubs b !! k) as [s |]; [| done]. by destruct (m s).
Qed.

Lemma publish_taken now subject env at_ s : bool_decide (is_Some (fst (publish now subject env at_ s))) = takes s now env.
Proof.
  unfold publish, takes, bind, gets. change (id s) with s. destruct (duplicate s now (evID env)); [done |].
  destruct (full s (datasize env)); [done |]. cbv zeta. cbn [negb]. apply bool_decide_eq_true_2. repeat case_match; by eexists.
Qed.

Lemma Publish_follows stamp now subject e opts b next :
  let '(r, b') := Publish false stamp now subject e opts b in
  perform (publish_script (config_of b) stamp now subject e opts next) (buStreams b) =
    perform (next (match r with inl _ => true | inr _ => false end)) (buStreams b') /\
  config_of b' = config_of b /\ buSubs b' = buSubs b.
Proof.
  unfold Publish, publish_script. unfold bind at 1, gets. change (id b) with b. cbv zeta. cbn [cfTopology cfClosed config_of].
  destruct (buClosed b) eqn:Ec.
  { destruct (StreamForSubject (buTopology b) subject); [| done]. by rewrite decide_False by (by intros []). }
  destruct (StreamForSubject (buTopology b) subject) as [spec |]; [| done].
  set (o := ResolvePublishOptions e opts).
  assert (negb (String.eqb (poExpectStream o) "") && negb (String.eqb (poExpectStream o) (ssName spec)) = false <->
    poExpectStream o = "" \/ poExpectStream o = ssName spec) as Hexp.
  { destruct (String.eqb_spec (poExpectStream o) ""), (String.eqb_spec (poExpectStream o) (ssName spec)); cbn; naive_solver. }
  destruct (buStreams b !! ssName spec) as [st |] eqn:Est.
  2:{ cbn. case_decide; cbn [perform]; by rewrite ?Est. }
  destruct (negb _ && negb _) eqn:Ee.
  { rewrite decide_False; [done |]. intros [_ H]. apply Hexp in H. done. }
  rewrite decide_True by (split; [done | by apply Hexp]).
  set (env := sealed (config_of b) stamp e opts).
  unfold bind. destruct (on_stream_do (ssName spec) (publish now subject env (poScheduleAt o)) (SPublish now subject env (poScheduleAt o)) b
    (fun st => next (from_option (fun s => takes s now env) false st))) as (Hp & Hc & Hs & Hr); [done |].
  change (buBefore b _) with env. destruct (on_stream _ _ b) as [r b1]. cbn [fst snd] in *. unfold ret. cbv beta iota. rewrite Hp, Hc, Hs.
  subst r. rewrite Est. cbn [fmap option_fmap option_map from_option].
  rewrite <- (publish_taken now subject env (poScheduleAt o) st). by destruct (fst (publish now subject env (poScheduleAt o) st)).
Qed.

Lemma Ack_follows g : follows (Ack g) (fun _ => ack_script g).
Proof. unfold Ack, ack_script. destruct (dvSettled g); [apply follows_ret |]. apply (follows_bind _ _ _ (fun _ next => next)); [by apply (follows_on _ _ (SAck _ _)) | intros; apply follows_ret]. Qed.
Lemma Term_follows g : follows (Term g) (fun _ => ack_script g).
Proof. apply Ack_follows. Qed.
Lemma Nak_follows now delay g : follows (Nak now delay g) (fun _ => nak_script now delay g).
Proof.
  unfold Nak, nak_script. destruct (dvSettled g); [apply follows_ret |]. destruct (dvLapsed g); [apply follows_ret |].
  apply (follows_bind _ _ _ (fun _ next => next)); [by apply (follows_on _ _ (SNak _ _ _ _)) | intros; apply follows_ret].
Qed.

(** Reading how often a message was handed out does not change the message. *)
Lemma held_after_attempt s i d : mmEnv (msg_at (exec (SAttemptOf i d) s) i) = mmEnv (msg_at s i) /\
  mmSubject (msg_at (exec (SAttemptOf i d) s) i) = mmSubject (msg_at s i).
Proof.
  cbn [exec]. unfold attemptOf, bind. rewrite stateFor_run. change (snd (ret _ ?x)) with x. rewrite rewrite_at. by case_decide.
Qed.

Lemma Attempt_does g b (next : option stream -> script) :
  perform (Do (dvStream g) (SAttemptOf (dvMsg g) (dvDurable g)) next) (buStreams b) =
    perform (next (buStreams b !! dvStream g)) (buStreams (snd (Attempt g b))) /\
  config_of (snd (Attempt g b)) = config_of b /\ buSubs (snd (Attempt g b)) = buSubs b /\
  fst (Attempt g b) = attempts_in g (buStreams b !! dvStream g) /\
  mmEnv (held_msg g (snd (Attempt g b))) = mmEnv (held_in g (buStreams b !! dvStream g)) /\
  mmSubject (held_msg g (snd (Attempt g b))) = mmSubject (held_in g (buStreams b !! dvStream g)).
Proof.
  destruct (on_stream_do (dvStream g) (attemptOf (dvMsg g) (dvDurable g)) (SAttemptOf (dvMsg g) (dvDurable g)) b next) as (Hp & Hc & Hs & Hr); [done |].
  assert (snd (Attempt g b) = snd (on_stream (dvStream g) (attemptOf (dvMsg g) (dvDurable g)) b)) as E.
  { unfold Attempt, bind. by destruct (on_stream _ _ b). }
  assert (fst (Attempt g b) = default 0 (fst (on_stream (dvStream g) (attemptOf (dvMsg g) (dvDurable g)) b))) as E2.
  { unfold Attempt, bind. by destruct (on_stream _ _ b). }
  rewrite E, E2, Hp, Hc, Hs, Hr. unfold held_msg, held_in, attempts_in. destruct (buStreams b !! dvStream g) as [st |] eqn:Est.
  - rewrite (on_stream_at _ _ _ _ Est).
    destruct (held_after_attempt st (dvMsg g) (dvDurable g)) as [H1 H2]. cbn [exec] in H1, H2. cbn [from_option]. rewrite H1, H2. done.
  - rewrite (on_stream_none _ _ _ Est). cbn [snd]. by rewrite Est.
Qed.

Lemma deadLetter_follows stamp now g durable reason :
  follows (deadLetter stamp now g durable reason) (fun c => dead_letter_script c stamp now g durable reason).
Proof.
  intros b next. unfold deadLetter, dead_letter_script. rewrite run_bind.
  match goal with |- perform (Do _ _ ?k) _ = _ /\ _ => destruct (Attempt_does g b k) as (-> & Hc & _ & Ha & He & Hsub) end.
  destruct (Attempt g b) as [n b1]. cbn [fst snd] in *. rewrite run_bind. unfold gets. cbn [fst snd]. rewrite Ha, He, Hsub.
  destruct (DeadLetterEnvelope _ _ _ _ _) as [subject env]. rewrite run_bind.
  pose proof (Publish_follows stamp now subject (Some env) [] b1 (fun _ => next)) as Hp. rewrite Hc in Hp.
  destruct (Publish false stamp now subject (Some env) [] b1) as [r b2]. destruct Hp as (-> & Hc2 & _). cbn [snd ret]. split; [done | cbn; congruence].
Qed.

Lemma requeue_follows stamp now g sub : follows (requeue stamp now g sub) (fun c => requeue_script c stamp now g sub).
Proof.
  unfold requeue, requeue_script. destruct (negb _); [apply Nak_follows |]. destruct (dvSettled g); [apply follows_ret |].
  destruct (dvLapsed g); [apply follows_ret |]. intros b next. cbn [orb perform]. rewrite run_bind. change (fst (gets (held_msg g) b)) with (held_msg g b). change (snd (gets (held_msg g) b)) with b.
  assert (held_msg g b = held_in g (buStreams b !! dvStream g)) as ->.
  { unfold held_msg, held_in. by destruct (buStreams b !! dvStream g). }
  set (m := held_in g (buStreams b !! dvStream g)). rewrite run_bind.
  match goal with |- perform (publish_script _ _ _ _ _ ?opts ?k) _ = _ /\ _ =>
    pose proof (Publish_follows stamp now (mmSubject m) (Some (mmEnv m)) opts b k) as Hp end.
  destruct (Publish _ _ _ _ _ _ b) as [r b1]. destruct Hp as (-> & Hc & _). cbn [fst snd].
  destruct r as [r | err]; rewrite run_bind.
  - pose proof (follows_on (dvStream g) (ack (dvMsg g) (dvDurable g)) (SAck (dvMsg g) (dvDurable g)) (fun _ => eq_refl) b1 next) as [H1 H2].
    rewrite H1. split; [done | exact (eq_trans H2 Hc)].
  - pose proof (follows_on (dvStream g) (nak (dvMsg g) (dvDurable g) now 0) (SNak (dvMsg g) (dvDurable g) now 0) (fun _ => eq_refl) b1 next) as [H1 H2].
    rewrite H1. split; [done | exact (eq_trans H2 Hc)].
Qed.

Lemma settle_follows stamp now g sub s : follows (settle stamp now g sub s) (fun c => settle_script c stamp now g sub s).
Proof.
  destruct s; cbn [settle settle_script].
  - apply Ack_follows.
  - apply Nak_follows.
  - apply (follows_bind _ _ (fun c => dead_letter_script c stamp now g (sbDurable sub) reason) (fun _ => ack_script g));
      [apply deadLetter_follows | intros; apply Term_follows].
  - apply requeue_follows.
Qed.

Lemma deliver_follows stamp now stopping g sub o :
  follows (deliver stamp now stopping g sub o) (fun c => deliver_script c stamp now stopping g sub o).
Proof.
  unfold deliver, deliver_script. destruct (dvSettled g); [apply follows_ret |]. intros b next. unfold bind.
  match goal with |- perform (Do _ _ ?k) _ = _ /\ _ => destruct (Attempt_does g b k) as (-> & Hc & _ & Ha & _) end.
  destruct (Attempt g b) as [n b1]. cbn [fst snd] in *. rewrite Ha, <- Hc.
  destruct (settle_follows stamp now g sub (Settle (RequeueIfStopping stopping (outcome_error o) sub) (attempts_in g (buStreams b !! dvStream g)) sub) b1 next)
    as [-> H]. done.
Qed.

Lemma letters_follow stamp now name sub ids : follows (dead_letter_all stamp now name sub ids) (fun c next =>
  foldr (fun i => dead_letter_script c stamp now (mkHeld name i (sbDurable sub) sub false false) (sbDurable sub)
                    (AckWaitExhaustedReason (sbMaxDeliver sub))) next ids).
Proof.
  induction ids as [| i ids IH]; cbn [dead_letter_all foldr]; [apply follows_ret |].
  apply (follows_bind _ _ (fun c => dead_letter_script c stamp now (mkHeld name i (sbDurable sub) sub false false) (sbDurable sub)
    (AckWaitExhaustedReason (sbMaxDeliver sub)))); [apply deadLetter_follows | by intros _].
Qed.

Lemma sweep_follows sweep stamp now name sub :
  follows (deadLetterLapsed sweep stamp now name sub) (fun c => sweep_script c sweep stamp now name sub).
Proof.
  intros b next. unfold deadLetterLapsed, sweep_script, bind.
  set (o := SLapsed (sbDurable sub) (sbFilters sub) sweep (sbMaxDeliver sub)).
  match goal with |- perform (Do _ _ ?k) _ = _ /\ _ =>
    destruct (on_stream_do name (lapsed (sbDurable sub) (sbFilters sub) sweep (sbMaxDeliver sub)) o b k) as (-> & Hc & _ & Hr); [done |] end.
  destruct (on_stream _ _ b) as [ids b1]. cbn [fst snd] in *. rewrite <- Hc.
  assert (from_option (reports o) [] (buStreams b !! name) = default [] ids) as -> by (rewrite Hr; by destruct (buStreams b !! name)).
  destruct (letters_follow stamp now name sub (default [] ids) b1 next) as [-> H]. done.
Qed.

Lemma claim_does sub eff now b (next : option nat -> script) :
  let m := on_stream (sbStream sub) (claim (sbDurable sub) (sbFilters sub) now (sub_AckDeadline eff) (sbMaxDeliver eff)) in
  perform (claim_script sub eff now next) (buStreams b) =
    perform (next (match fst (m b) with Some i => i | None => None end)) (buStreams (snd (m b))) /\
  config_of (snd (m b)) = config_of b.
Proof.
  cbv zeta. unfold claim_script. set (o := SClaim _ _ _ _ _).
  destruct (on_stream_do (sbStream sub) (claim (sbDurable sub) (sbFilters sub) now (sub_AckDeadline eff) (sbMaxDeliver eff)) o b
    (fun st => next (from_option (hands o) None st))) as (-> & -> & _ & ->); [done |]. by destruct (buStreams b !! sbStream sub).
Qed.

(** The part of a pass that starts a delivery, a slot being free. *)
Lemma start_follows k sub eff now :
  follows (i <- on_stream (sbStream sub) (claim (sbDurable sub) (sbFilters sub) now (sub_AckDeadline eff) (sbMaxDeliver eff));;
    match i with
    | Some (Some i) =>
        attempt <- on_stream (sbStream sub) (attemptOf i (sbDurable sub));;
        d <- on_sub k O (track i (default 0 attempt));;
        on_sub k None (budget d eff);;
        ret (Some (d, mkHeld (sbStream sub) i (sbDurable sub) eff false false))
    | _ => on_sub k tt unacquire;; ret None
    end)
    (fun _ next => claim_script sub eff now (fun i =>
       match i with Some i => Do (sbStream sub) (SAttemptOf i (sbDurable sub)) (fun _ => next) | None => next end)).
Proof.
  intros b next. rewrite run_bind. set (cl := on_stream (sbStream sub) _).
  match goal with |- perform (claim_script _ _ _ ?k) _ = _ /\ _ => destruct (claim_does sub eff now b k) as [-> Hc] end.
  fold cl in Hc |- *. set (b1 := snd (cl b)) in *. clearbody b1. destruct (fst (cl b)) as [[i |] |].
  - assert (follows (attempt <- on_stream (sbStream sub) (attemptOf i (sbDurable sub));;
      d <- on_sub k O (track i (default 0 attempt));; on_sub k None (budget d eff);;
      ret (Some (d, mkHeld (sbStream sub) i (sbDurable sub) eff false false)))
      (fun _ next => Do (sbStream sub) (SAttemptOf i (sbDurable sub)) (fun _ => next))) as H.
    { apply (follows_bind _ _ _ (fun _ next => next)); [by apply (follows_on _ _ (SAttemptOf _ _)) | intros a].
      apply (follows_bind _ _ (fun _ next => next) (fun _ next => next)); [apply follows_sub | intros d].
      apply (follows_bind _ _ (fun _ next => next) (fun _ next => next)); [apply follows_sub | intros; apply follows_ret]. }
    destruct (H b1 next) as [-> H2]. split; [done | congruence].
  - destruct (follows_bind _ _ _ _ (follows_sub k tt unacquire) (fun _ => follows_ret (None : option (nat * delivery))) b1 next) as [H1 H2].
    rewrite H1. split; [done | congruence].
  - destruct (follows_bind _ _ _ _ (follows_sub k tt unacquire) (fun _ => follows_ret (None : option (nat * delivery))) b1 next) as [H1 H2].
    rewrite H1. split; [done | congruence].
Qed.

Lemma pass_follows sweep stamp pub now k sub order b next :
  perform (pass_script (config_of b) (buSubs b !! k) sweep stamp pub now sub order next) (buStreams b) =
    perform next (buStreams (snd (consume_pass sweep stamp pub now k sub order b))).
Proof.
  unfold consume_pass, pass_script. cbn [perform]. unfold bind at 1, gets at 1. change (id b) with b. unfold boundStream.
  destruct (buStreams b !! sbStream sub) as [st |]; [| done]. destruct (hasDurable st (sbDurable sub)); [| done]. cbv zeta.
  assert (match boundTiming st (sbDurable sub) with Some t => WithTiming sub t | None => sub end =
    from_option (WithTiming sub) sub (boundTiming st (sbDurable sub))) as -> by done.
  set (eff := from_option (WithTiming sub) sub (boundTiming st (sbDurable sub))).
  rewrite run_bind. set (b1 := snd (on_sub k tt (setEffective eff) b)).
  assert (buStreams b1 = buStreams b /\ config_of b1 = config_of b /\
    buSubs b1 !! k = (fun s => snd (setEffective eff s)) <$> buSubs b !! k) as (E1 & E2 & E3).
  { unfold b1. destruct (buSubs b !! k) as [s |] eqn:Es.
    - rewrite (on_sub_some _ _ _ _ _ Es). split_and!; [done | done |]. apply lookup_insert_eq.
    - unfold on_sub, bind, gets. change (id b) with b. rewrite Es. cbn. by rewrite Es. }
  rewrite <- E1, <- E2. clearbody b1. rewrite run_bind.
  match goal with |- perform (sweep_script _ _ _ _ _ _ ?k) _ = _ => destruct (sweep_follows sweep stamp pub (sbStream sub) eff b1 k) as [-> Hc] end.
  pose proof (deadLetterLapsed_subs sweep stamp pub (sbStream sub) eff b1) as Hsub. unfold same_subs in Hsub.
  set (b2 := snd (deadLetterLapsed sweep stamp pub (sbStream sub) eff b1)) in *. clearbody b2. cbn [perform].
  unfold bind at 1, gets at 1. change (id b2) with b2. rewrite run_bind.
  assert (default st (buStreams b2 !! sbStream sub) = default st (buStreams b2 !! sbStream sub)) as _ by done.
  set (st2 := default st (buStreams b2 !! sbStream sub)). set (b3 := snd (on_sub k tt (reclaim st2 (sbDurable sub) now order) b2)).
  assert (buStreams b3 = buStreams b2 /\
    buSubs b3 !! k = (fun s => snd (reclaim st2 (sbDurable sub) now order (snd (setEffective eff s)))) <$> buSubs b !! k) as (F1 & F3).
  { unfold b3. destruct (buSubs b !! k) as [s |] eqn:Es; cbn in E3; rewrite <- Hsub in E3.
    - rewrite (on_sub_some _ _ _ _ _ E3). split; [done |]. apply lookup_insert_eq.
    - unfold on_sub, bind, gets. change (id b2) with b2. rewrite E3. cbn. by rewrite E3. }
  clearbody b3. rewrite run_bind.
  assert (fst (on_sub k false acquire b3) = slot_free (buSubs b !! k) eff st2 (sbDurable sub) now order /\
    buStreams (snd (on_sub k false acquire b3)) = buStreams b2) as [-> G].
  { rewrite <- F1. unfold slot_free. destruct (buSubs b !! k) as [s |]; cbn in F3; cbn [from_option].
    - rewrite (on_sub_some _ _ _ _ _ F3). done.
    - unfold on_sub, bind, gets. change (id b3) with b3. by rewrite F3. }
  set (b4 := snd (on_sub k false acquire b3)) in *. clearbody b4. rewrite <- G.
  destruct (slot_free _ _ _ _ _ _); [| done].
  destruct (start_follows k sub eff now b4 next) as [-> _]. done.
Qed.

(** *** Every operation *)

(** The operations of the bus between two calls that ensure a topology. *)
Inductive bop :=
| BPublish (ended : bool) (stamp now : Time) (subject : string) (e : option Envelope) (opts : list PublishOption)
| BDeliver (stamp now : Time) (stopping : bool) (g : delivery) (sub : Subscription) (o : outcome)
| BFinish (k d : nat) (now : Time)
| BProgress (now : Time) (g : delivery)
| BAck (g : delivery)
| BNak (now : Time) (delay : Duration) (g : delivery)
| BTerm (g : delivery)
| BSubscribe (k : nat) (sub : Subscription)
| BStop (k : nat)
| BPass (sweep stamp pub now : Time) (k : nat) (sub : Subscription) (order : list nat)
| BNext (sweep stamp pub now : Time) (sub : Subscription)
| BWatch (sweep stamp pub : Time) (name : string) (sub : Subscription)
| BPull (sub : Subscription)
| BDelete (stream_ durable : string)
| BConsumer (c : ConsumerSpec)
| BPurge (stream_ subject : string)
| BRetire (retired : list RetiredConsumer) (now : Time)
| BDrain
| BClose.

Definition run_bop (o : bop) (b : Bus) : Bus :=
  match o with
  | BPublish ended stamp now subject e opts => snd (Publish ended stamp now subject e opts b)
  | BDeliver stamp now stopping g sub o => snd (deliver stamp now stopping g sub o b)
  | BFinish k d now => snd (on_sub k tt (finish d now) b)
  | BProgress now g => snd (InProgress now g b)
  | BAck g => snd (Ack g b)
  | BNak now delay g => snd (Nak now delay g b)
  | BTerm g => snd (Term g b)
  | BSubscribe k sub => snd (Subscribe k sub b)
  | BStop k => snd (on_sub k tt stop b)
  | BPass sweep stamp pub now k sub order => snd (consume_pass sweep stamp pub now k sub order b)
  | BNext sweep stamp pub now sub => snd (claimNext sweep stamp pub now sub b)
  | BWatch sweep stamp pub name sub => snd (deadLetterLapsed sweep stamp pub name sub b)
  | BPull sub => snd (Pull sub b)
  | BDelete stream_ durable => snd (DeleteSubscription stream_ durable b)
  | BConsumer c => snd (EnsureConsumer c b)
  | BPurge stream_ subject => snd (PurgeSubject stream_ subject b)
  | BRetire retired now => snd (Retire retired now b)
  | BDrain => snd (begin_drain b)
  | BClose => snd (Close b)
  end.

(** What each is to do to the streams. *)
Definition script_of (o : bop) (b : Bus) : script :=
  let c := config_of b in
  match o with
  | BPublish ended stamp now subject e opts => if ended then Done else publish_script c stamp now subject e opts (fun _ => Done)
  | BDeliver stamp now stopping g sub o => deliver_script c stamp now stopping g sub o Done
  | BProgress now g =>
      if dvLapsed g then Done
      else Do (dvStream g) (SInProgress (dvMsg g) (dvDurable g) now (sub_AckDeadline (dvSub g))) (fun _ => Done)
  | BAck g | BTerm g => ack_script g Done
  | BNak now delay g => nak_script now delay g Done
  | BPass sweep stamp pub now k sub order => pass_script c (buSubs b !! k) sweep stamp pub now sub order Done
  | BNext sweep stamp pub now sub => sweep_script c sweep stamp pub (sbStream sub) sub (claim_script sub sub now (fun _ => Done))
  | BWatch sweep stamp pub name sub => sweep_script c sweep stamp pub name sub Done
  | BPull s =>
      if decide (Subscription_Validate s = None /\ buClosed b = false)
      then Do (sbStream s) (SBind (sbDurable s) (sbFilters s) (if decide (sbMaxAckPending s = 0) then Z.max (sbMaxInFlight s) 1 else sbMaxAckPending s)
                              (sub_Timing s)) (fun _ => Done)
      else Done
  | BDelete stream_ durable => delete_script stream_ durable Done
  | BConsumer c =>
      let w := DeadLetterWatcherSpec c in
      if decide (csName c <> "" /\ csStream c <> "" /\ csFilters c <> [] /\ buClosed b = false /\
                 is_Some (buStreams b !! csStream c) /\ is_Some (buStreams b !! csStream w))
      then bind_script c (bind_script w Done) else Done
  | BPurge stream_ subject => Do stream_ (SPurge subject) (fun _ => Done)
  | BRetire retired now => retire_script retired Done
  | BFinish _ _ _ | BSubscribe _ _ | BStop _ | BDrain | BClose => Done
  end.

Lemma cmp_or_zero a b : cmp_or a b = if decide (a = 0) then b else a.
Proof. unfold cmp_or. destruct (Z.eqb_spec a 0); case_decide; done. Qed.

Lemma DeleteSubscription_follows stream_ durable : follows (DeleteSubscription stream_ durable) (fun _ => delete_script stream_ durable).
Proof.
  unfold DeleteSubscription, delete_script. apply (follows_bind _ _ (fun _ next => Do stream_ (SForget durable) (fun _ => next))
    (fun _ next => Do StreamAdvisories (SForget (DeadLetterWatcherName stream_ durable)) (fun _ => next))); [by apply (follows_on _ _ (SForget _)) |].
  intros _. apply (follows_bind _ _ _ (fun _ next => next)); [by apply (follows_on _ _ (SForget _)) | intros; apply follows_ret].
Qed.

Lemma Purge_follows stream_ subject : follows (PurgeSubject stream_ subject) (fun _ next => Do stream_ (SPurge subject) (fun _ => next)).
Proof.
  unfold PurgeSubject. apply (follows_bind _ _ _ (fun _ next => next)); [by apply (follows_on _ _ (SPurge _)) | intros; apply follows_ret].
Qed.

Lemma Retire_follows retired now : follows (Retire retired now) (fun _ => retire_script retired).
Proof.
  induction retired as [| r retired IH]; cbn [Retire]; [apply follows_ret |].
  assert (forall {A} (f : list RetiredReport * list BusError -> A), follows (out <- Retire retired now;; ret (f out)) (fun _ => retire_script retired)) as Hout.
  { intros A f. apply (follows_bind _ _ (fun _ => retire_script retired) (fun _ next => next)); [exact IH | intros; apply follows_ret]. }
  intros b next. rewrite run_bind.
  assert (forall bus, snd (admin_ConsumerState now (rcStream r) (rcDurable r) bus) = bus) as -> by done.
  assert (match fst (admin_ConsumerState now (rcStream r) (rcDurable r) b) with
          | inr e => not_found e = true | inl _ => True end) as Hnf.
  { cbn. unfold bus_ConsumerState. destruct (buStreams b !! rcStream r) as [st |]; [| done]. by destruct (stream_consumerState st (rcDurable r) now). }
  set (st := fst (admin_ConsumerState now (rcStream r) (rcDurable r) b)) in *. cbv zeta.
  assert (match st with inr e => if not_found e then None else Some e | inl _ => None end = None) as ->.
  { destruct st; [done | by rewrite Hnf]. }
  set (rep := match st with inl cs => mkReport r true (Lag cs) now | inr _ => mkReport r false 0 now end). clearbody st rep.
  assert (follows (admin_DeleteSubscription (rcStream r) (rcDurable r) : M Bus (option BusError)) (fun _ => delete_script (rcStream r) (rcDurable r))) as Hdel.
  { cbn. apply (follows_bind _ _ (fun _ => delete_script (rcStream r) (rcDurable r)) (fun _ next => next));
      [apply DeleteSubscription_follows | intros; apply follows_ret]. }
  cbn [retire_script foldr]. fold (retire_script retired next). rewrite run_bind.
  match goal with |- perform (delete_script _ _ ?k) _ = _ /\ _ => destruct (Hdel b k) as [-> Hc] end. rewrite <- Hc.
  assert (fst (admin_DeleteSubscription (rcStream r) (rcDurable r) b) = None :> option BusError) as ->.
  { cbn. rewrite run_bind. done. }
  set (b1 := snd (admin_DeleteSubscription (rcStream r) (rcDurable r) b)). clearbody b1. clear Hc.
  rewrite run_bind. destruct (String.eqb (rcPurge r) ""); [apply Hout |].
  assert (follows (admin_PurgeSubject (rcStream r) (rcPurge r) : M Bus (option BusError)) (fun _ next => Do (rcStream r) (SPurge (rcPurge r)) (fun _ => next))) as Hpu
    by apply Purge_follows.
  match goal with |- perform (Do _ _ (fun _ => ?k)) _ = _ /\ _ => destruct (Hpu b1 k) as [-> Hc] end. rewrite <- Hc.
  destruct (fst (admin_PurgeSubject (rcStream r) (rcPurge r) b1)); apply Hout.
Qed.

Lemma consumer_done c b : buStreams (snd (EnsureConsumer c b)) = perform (script_of (BConsumer c) b) (buStreams b).
Proof.
  unfold EnsureConsumer, script_of. cbv zeta.
  destruct (String.eqb_spec (csName c) ""); [by rewrite decide_False by (by intros []) |].
  destruct (String.eqb_spec (csStream c) ""); [by rewrite decide_False by (by intros (_ & [])) |]. cbn [orb].
  case_bool_decide; [by rewrite decide_False by (by intros (_ & _ & [])) |]. unfold bind at 1, gets. change (id b) with b.
  destruct (buClosed b) eqn:Ec; [by rewrite decide_False by (intros (_ & _ & _ & ? & _); done) |]. cbn [existsb]. rewrite orb_false_r.
  destruct (buStreams b !! csStream c) as [x |] eqn:E1; cbn [orb].
  2:{ rewrite bool_decide_eq_true_2 by done. rewrite decide_False; [done |]. intros (_ & _ & _ & _ & [? ?] & _). done. }
  rewrite bool_decide_eq_false_2 by done. cbn [orb].
  destruct (buStreams b !! csStream (DeadLetterWatcherSpec c)) as [y |] eqn:E2; [rewrite bool_decide_eq_false_2 by done | rewrite bool_decide_eq_true_2 by done].
  2:{ rewrite decide_False; [done |]. intros (_ & _ & _ & _ & _ & [? ?]). done. }
  rewrite decide_True by done. cbn [ensure_consumers].
  set (w := DeadLetterWatcherSpec c) in *. clearbody w.
  assert (forall c, follows (on_stream (csStream c) (bindDurable (csName c) (csFilters c) (csMaxAckPending c) (sub_Timing (spec_Subscription c)))) (fun _ => bind_script c)) as Hb.
  { intros d. by apply (follows_on _ _ (SBind _ _ _ _)). }
  assert (follows (on_stream (csStream c) (bindDurable (csName c) (csFilters c) (csMaxAckPending c) (sub_Timing (spec_Subscription c)));;
    (on_stream (csStream w) (bindDurable (csName w) (csFilters w) (csMaxAckPending w) (sub_Timing (spec_Subscription w)));; ret tt))
    (fun _ next => bind_script c (bind_script w next))) as H3.
  { apply (follows_bind _ _ (fun _ => bind_script c) (fun _ => bind_script w)); [apply Hb | intros _].
    apply (follows_bind _ _ (fun _ => bind_script w) (fun _ next => next)); [apply Hb | intros; apply follows_ret]. }
  rewrite run_bind. destruct (H3 b Done) as [-> _]. done.
Qed.

(** One operation takes the streams where its script does. *)
Lemma script_done o b : buStreams (run_bop o b) = perform (script_of o b) (buStreams b).
Proof.
  assert (forall {A} (m : M Bus A) sc, follows m sc -> buStreams (snd (m b)) = perform (sc (config_of b) Done) (buStreams b)) as Hf.
  { intros A m sc H. by destruct (H b Done) as [-> _]. }
  destruct o; cbn [run_bop script_of].
  - destruct ended; [done |]. pose proof (Publish_follows stamp now subject e opts b (fun _ => Done)) as H.
    destruct (Publish false stamp now subject e opts b) as [r b']. by destruct H as (-> & _).
  - apply (Hf _ _ _ (deliver_follows stamp now stopping g sub o)).
  - apply (Hf _ _ _ (follows_sub k tt (finish d now))).
  - unfold InProgress. destruct (dvLapsed g); [done |].
    apply (Hf _ _ (fun _ next => Do (dvStream g) (SInProgress (dvMsg g) (dvDurable g) now (sub_AckDeadline (dvSub g))) (fun _ => next))).
    apply (follows_bind _ _ _ (fun _ next => next)); [by apply (follows_on _ _ (SInProgress _ _ _ _)) | intros; apply follows_ret].
  - apply (Hf _ _ _ (Ack_follows g)).
  - apply (Hf _ _ _ (Nak_follows now delay g)).
  - apply (Hf _ _ _ (Term_follows g)).
  - unfold Subscribe. destruct (Subscription_Validate sub); [done |]. unfold bind, gets. change (id b) with b. by destruct (buClosed b || buDraining b).
  - apply (Hf _ _ _ (follows_sub k tt stop)).
  - by rewrite (pass_follows sweep stamp pub now k sub order b Done).
  - unfold claimNext. rewrite run_bind. destruct (sweep_follows sweep stamp pub (sbStream sub) sub b (claim_script sub sub now (fun _ => Done))) as [-> _].
    destruct (claim_does sub sub now (snd (deadLetterLapsed sweep stamp pub (sbStream sub) sub b)) (fun _ => Done)) as [-> _]. by rewrite run_bind.
  - apply (Hf _ _ _ (sweep_follows sweep stamp pub name sub)).
  - unfold Pull. destruct (Subscription_Validate sub); [by rewrite decide_False by (by intros []) |]. unfold bind at 1, gets. change (id b) with b.
    destruct (buClosed b); [by rewrite decide_False by (by intros []) |]. rewrite decide_True by done. rewrite <- cmp_or_zero.
    apply (Hf _ _ (fun _ next => Do (sbStream sub) (SBind _ _ _ _) (fun _ => next))).
    apply (follows_bind _ _ _ (fun _ next => next)); [by apply (follows_on _ _ (SBind _ _ _ _)) | intros; apply follows_ret].
  - apply (Hf _ _ _ (DeleteSubscription_follows stream_ durable)).
  - by apply consumer_done.
  - apply (Hf _ _ _ (Purge_follows stream_ subject)).
  - apply (Hf _ _ _ (Retire_follows retired now)).
  - unfold begin_drain, bind, gets. change (id b) with b. by destruct (buClosed b).
  - done.
Qed.

(** All that a run of operations does to the streams, in order. *)
Fixpoint trace (ops : list bop) (b : Bus) : list (string * sop) :=
  match ops with
  | [] => []
  | o :: ops => ops_of (script_of o b) (buStreams b) ++ trace ops (run_bop o b)
  end.


(** ** Ensuring a topology *)

(** Every stream is still there with its messages and its durables. *)
Definition streams_kept (b b' : Bus) : Prop := forall name st, buStreams b !! name = Some st ->
  exists st', buStreams b' !! name = Some st' /\ stHeap st' = stHeap st /\ stMsgs st' = stMsgs st /\
    forall d, hasDurable st d = true -> hasDurable st' d = true.

#[export] Instance streams_kept_pre : PreOrder streams_kept.
Proof.
  split.
  - intros b name st H. by exists st.
  - intros b1 b2 b3 H H' name st Hst. destruct (H name st Hst) as (st2 & H2 & Hh & Hm & Hd).
    destruct (H' name st2 H2) as (st3 & H3 & Hh' & Hm' & Hd'). exists st3. split_and!; [done | congruence | congruence | auto].
Qed.

Lemma on_stream_keeps {A} name (m : M stream A) :
  (forall st, stHeap (snd (m st)) = stHeap st /\ stMsgs (snd (m st)) = stMsgs st /\
     forall d, hasDurable st d = true -> hasDurable (snd (m st)) d = true) -> keeps streams_kept (on_stream name m).
Proof.
  intros Hm b. destruct (buStreams b !! name) as [st |] eqn:E.
  - rewrite (on_stream_some _ _ _ _ E). intros n x Hx. destruct (decide (n = name)) as [-> | Hne].
    + exists (snd (m st)). assert (x = st) as -> by congruence. split; [apply lookup_insert_eq | apply Hm].
    + exists x. split; [by rewrite <- Hx; apply lookup_insert_ne | done].
  - rewrite (on_stream_none _ _ _ E). reflexivity.
Qed.

Lemma insert_new_kept name st b : buStreams b !! name = None -> streams_kept b (b <| buStreams ::= <[name := st]> |>).
Proof.
  intros H n x Hx. exists x. split; [| done]. cbn. rewrite lookup_insert_ne; [done |]. intros ->. congruence.
Qed.

Lemma respec_kept name spec : keeps streams_kept (on_stream name (modify (fun s : stream => s <| stSpec := spec |>))).
Proof. by apply on_stream_keeps. Qed.

Lemma has_bound st d d' f n t : hasDurable (snd (bindDurable d f n t st)) d' = bool_decide (d = d') || hasDurable st d'.
Proof.
  unfold hasDurable, bindDurable, modify. cbn. destruct (decide (d = d')) as [-> | Hne].
  - rewrite lookup_insert_eq, (bool_decide_eq_true_2 (d' = d')) by done. apply bool_decide_eq_true_2. by eexists.
  - by rewrite lookup_insert_ne, (bool_decide_eq_false_2 (d = d')) by done.
Qed.

Lemma bind_kept name d f n t : keeps streams_kept (on_stream name (bindDurable d f n t)).
Proof. apply on_stream_keeps. intros st. split_and!; [done | done |]. intros d' H. by rewrite has_bound, H, orb_true_r. Qed.

Lemma ensure_streams_run specs b r b' : ensure_streams specs b = (r, b') ->
  streams_kept b b' /\ (r = None -> forall spec, spec ∈ specs -> is_Some (buStreams b' !! ssName spec)).
Proof.
  revert b. induction specs as [| spec specs IH]; intros b.
  { intros [= <- <-]. split; [reflexivity |]. intros _ s H. by apply elem_of_nil in H. }
  assert (forall b1, streams_kept b b1 -> is_Some (buStreams b1 !! ssName spec) -> ensure_streams specs b1 = (r, b') ->
    streams_kept b b' /\ (r = None -> forall sp, sp ∈ spec :: specs -> is_Some (buStreams b' !! ssName sp))) as Hgo.
  { intros b1 Hk [x Hx] E. destruct (IH b1 E) as [Hk' Hp]. split; [by etransitivity |]. intros Hn sp Hsp.
    apply list.elem_of_cons in Hsp as [-> | Hsp]; [| by apply Hp].
    destruct (Hk' _ _ Hx) as (x' & H1 & _). exists x'. exact H1. }
  cbn [ensure_streams]. unfold bind at 1, gets. change (id b) with b.
  destruct (buStreams b !! ssName spec) as [existing |] eqn:E.
  - destruct (negb _); [intros [= <- <-]; by split; [reflexivity |] |].
    unfold bind. rewrite (on_stream_some _ _ _ _ E). apply Hgo; [| cbn; rewrite lookup_insert_eq; by eexists].
    pose proof (respec_kept (ssName spec) spec b) as H. by rewrite (on_stream_some _ _ _ _ E) in H.
  - unfold bind, modify. apply Hgo; [by apply insert_new_kept |]. cbn. rewrite lookup_insert_eq. by eexists.
Qed.

Lemma ensure_streams_spec specs b :
  streams_kept b (snd (ensure_streams specs b)) /\
  (fst (ensure_streams specs b) = None -> forall spec, spec ∈ specs -> is_Some (buStreams (snd (ensure_streams specs b)) !! ssName spec)).
Proof. apply ensure_streams_run, surjective_pairing. Qed.

Lemma ensure_consumers_spec cs b :
  streams_kept b (snd (ensure_consumers cs b)) /\
  forall c, c ∈ cs -> is_Some (buStreams b !! csStream c) ->
    exists st, buStreams (snd (ensure_consumers cs b)) !! csStream c = Some st /\ hasDurable st (csName c) = true.
Proof.
  revert b. induction cs as [| c cs IH]; intros b; cbn [ensure_consumers].
  { split; [reflexivity |]. intros c H. by apply elem_of_nil in H. }
  rewrite run_bind. set (m := on_stream _ _). set (b1 := snd (m b)). destruct (IH b1) as [Hk Hp].
  assert (streams_kept b b1) as Hk1.
  { pose proof (bind_kept (csStream c) (csName c) (csFilters c) (csMaxAckPending c) (sub_Timing (spec_Subscription c)) b) as H.
    unfold b1. fold m in H. by destruct (m b). }
  split; [by etransitivity |]. intros c' Hc [x Hx]. apply list.elem_of_cons in Hc as [-> | Hc].
  - assert (exists x1, buStreams b1 !! csStream c = Some x1 /\ hasDurable x1 (csName c) = true) as (x1 & H1 & Hd1).
    { unfold b1, m. rewrite (on_stream_some _ _ _ _ Hx). eexists. split; [apply lookup_insert_eq |].
      by rewrite has_bound, bool_decide_eq_true_2. }
    destruct (Hk _ _ H1) as (x2 & H2 & _ & _ & Hd). exists x2. split; [done | by apply Hd].
  - apply Hp; [done |]. destruct (Hk1 _ _ Hx) as (x1 & -> & _). by eexists.
Qed.

Lemma fold_insert_present {A B} (name : A -> string) (put : A -> gmap string B -> gmap string B) l (m : gmap string B) :
  (forall x m k, is_Some (m !! k) -> is_Some (put x m !! k)) -> (forall x m, is_Some (put x m !! name x)) ->
  (forall k, is_Some (m !! k) -> is_Some (fold_left (fun m x => put x m) l m !! k)) /\
  (forall x, x ∈ l -> is_Some (fold_left (fun m x => put x m) l m !! name x)).
Proof.
  intros Hk Hp. revert m. induction l as [| x l IH]; intros m; cbn [fold_left].
  { split; [done |]. intros x H. by apply elem_of_nil in H. }
  destruct (IH (put x m)) as [H1 H2]. split; [by auto |].
  intros y Hy. apply list.elem_of_cons in Hy as [-> | Hy]; [apply H1, Hp | by apply H2].
Qed.

Lemma insert_present {B} k k' (x : B) (m : gmap string B) : is_Some (m !! k') \/ k = k' -> is_Some (<[k := x]> m !! k').
Proof. intros H. apply lookup_insert_is_Some'. tauto. Qed.

(** What [ensure] does when it answers no error. *)
Lemma ensure_run now t b : fst (ensure now t b) = None ->
  Validate t = [] /\ buClosed b = false /\ fst (ensure_streams (Streams t) b) = None /\
  let b1 := snd (ensure_consumers (Consumers t) (snd (ensure_streams (Streams t) b))) in
  snd (ensure now t b) = (((b1
    <| buBuckets ::= fun m => fold_left (fun m spec => ensure_bucket now spec m) (Buckets t) m |>)
    <| buObjectStores ::= fun m => fold_left (fun m spec => <[osName spec := spec]> m) (ObjectStores t) m |>)
    <| buTopology := t |>).
Proof.
  destruct (ensure now t b) as [r b'] eqn:E. cbn [fst snd]. intros ->. revert E. unfold ensure.
  destruct (Validate t) as [| e es]; [| done]. unfold bind at 1, gets. change (id b) with b.
  destruct (buClosed b); [done |]. unfold bind at 1. destruct (ensure_streams (Streams t) b) as [err b1]. destruct err; [done |].
  cbn [fst snd]. unfold bind. destruct (ensure_consumers (Consumers t) b1) as [u b2]. unfold modify, ret. intros H.
  injection H as <-. done.
Qed.

(** Ensuring does not close the bus. *)
Definition same_closed (b b' : Bus) : Prop := buClosed b' = buClosed b.
#[export] Instance same_closed_pre : PreOrder same_closed.
Proof. split; unfold same_closed; [done | congruence]. Qed.

Lemma on_stream_closed {A} name (m : M stream A) : keeps same_closed (on_stream name m).
Proof.
  intros b. destruct (buStreams b !! name) as [st |] eqn:E.
  - by rewrite (on_stream_some _ _ _ _ E).
  - by rewrite (on_stream_none _ _ _ E).
Qed.
#[export] Hint Resolve on_stream_closed : keeps.

Lemma consumers_closed cs b : buClosed (snd (ensure_consumers cs b)) = buClosed b.
Proof.
  assert (keeps same_closed (ensure_consumers cs)) as H by (induction cs as [| c cs IH]; cbn [ensure_consumers]; keeps).
  specialize (H b). by destruct (ensure_consumers cs b).
Qed.

Lemma streams_closed specs b : buClosed (snd (ensure_streams specs b)) = buClosed b.
Proof.
  assert (keeps same_closed (ensure_streams specs)) as H.
  { induction specs as [| spec specs IH]; cbn [ensure_streams]; [keeps |].
    apply keeps_bind; [typeclasses eauto | keeps |]. intros x. destruct (buStreams x !! ssName spec).
    - destruct (negb _); [keeps |]. keeps.
    - apply keeps_bind; [typeclasses eauto | by apply keeps_modify | done]. }
  specialize (H b). by destruct (ensure_streams specs b).
Qed.

(** Ensuring a topology creates everything it names: when it answers no
    error, nothing of the topology is missing, and publishes are routed by it;
    and it loses nothing: every stream is still there with its messages and its
    durables. *)
Theorem ensured_is_present now t b : fst (ensure now t b) = None ->
  let b' := snd (ensure now t b) in
  Missing b' t = inl [] /\ buTopology b' = t /\ streams_kept b b'.
Proof.
  intros H. destruct (ensure_run now t b H) as (Hv & Hc & Hs & Hb). cbv zeta in *. rewrite Hb. clear Hb.
  destruct (ensure_streams_spec (Streams t) b) as [K1 P1]. specialize (P1 Hs).
  set (b1 := snd (ensure_streams (Streams t) b)) in *.
  destruct (ensure_consumers_spec (Consumers t) b1) as [K2 P2]. set (b2 := snd (ensure_consumers (Consumers t) b1)) in *.
  set (b3 := (b2 <| buBuckets ::= _ |> <| buObjectStores ::= _ |>) <| buTopology := t |>).
  assert (streams_kept b b3) as K by (etransitivity; [exact K1 | exact K2]).
  split_and!; [| done | done].
  assert (buClosed b3 = buClosed b) as Ecl.
  { change (buClosed b2 = buClosed b). unfold b2, b1. by rewrite consumers_closed, streams_closed. }
  unfold Missing. rewrite Ecl, Hc. f_equal.
  assert (List.filter (fun o => negb (object_present b3 o)) (Objects t) = []) as ->; [| done].
  assert (forall o, o ∈ Objects t -> object_present b3 o = true) as Hall.
  { assert (topology_wf : Validated.topology_ok t) by (by apply Validated.validate_spec).
    intros o Ho. unfold Objects in Ho. repeat (apply list.elem_of_app in Ho as [Ho | Ho]).
    all: apply list_elem_of_fmap in Ho as (x & -> & Hx).
    - apply bool_decide_eq_true_2. destruct (P1 x Hx) as [st Hst]. destruct (K2 _ _ Hst) as (st' & Hst' & _).
      exists st'. exact Hst'.
    - cbn [object_present toKind toStream toName].
      assert (is_Some (buStreams b1 !! csStream x)) as Hx1.
      { pose proof (Validated.ok_consumers t topology_wf) as Hcs. rewrite list.Forall_forall in Hcs.
        destruct (Hcs x Hx) as (_ & sp & Hsp & Hn & _). rewrite <- Hn. by apply P1. }
      destruct (P2 x Hx Hx1) as (st & Hst & Hd). change (buStreams b3) with (buStreams b2). by rewrite Hst.
    - apply bool_decide_eq_true_2.
      apply (fold_insert_present bsName (fun spec m => ensure_bucket now spec m) (Buckets t) (buBuckets b2)); [| | done].
      + intros y m k Hk. unfold ensure_bucket. case_match; apply insert_present; by left.
      + intros y m. unfold ensure_bucket. case_match; apply insert_present; by right.
    - apply bool_decide_eq_true_2.
      apply (fold_insert_present osName (fun spec m => <[osName spec := spec]> m) (ObjectStores t) (buObjectStores b2)); [| | done].
      + intros y m k Hk. apply insert_present. by left.
      + intros y m. apply insert_present. by right. }
  clear -Hall. induction (Objects t) as [| o l IH]; [done |]. cbn. rewrite Hall by left. cbn. apply IH.
  intros x Hx. apply Hall. by right.
Qed.

(** ** At a concrete bus *)

Definition ex_dlq_spec : StreamSpec :=
  mkStreamSpec StreamDLQ "" [FilterAllDLQ] RetentionLimits StorageFile DiscardOld 0 0 50 1 false false false true.
Definition ex_empty : Bus := mkBus false false (mkTopology [] [] [] [] []) ∅ ∅ ∅ ∅ ∅ id.
Definition ex_bus : Bus :=
  mkBus false false (mkTopology [ex_spec; ex_dlq_spec] [] [] [] []) {[ "WORK" := ex_flying; StreamDLQ := new_stream ex_dlq_spec ]}
    ∅ ∅ {[ 7%nat := ex_sub ]} ∅ id.
Definition ex_work : Subscription :=
  mkSubscription "WORK" "w" ["work.a"] 10 3 [] 1 1 0 0 0 "" true.
Definition ex_held : delivery := mkHeld "WORK" 0 "w" ex_work false false.

Lemma ex_bus_streams n st : buStreams ex_bus !! n = Some st -> st = ex_flying \/ st = new_stream ex_dlq_spec.
Proof.
  change (buStreams ex_bus) with (<["WORK" := ex_flying]> ({[ StreamDLQ := new_stream ex_dlq_spec ]} : gmap string stream)).
  generalize ex_flying (new_stream ex_dlq_spec). intros f w. rewrite lookup_insert_Some.
  intros [[_ <-] | [_ H]]; [by left | right]. by apply lookup_singleton_Some in H as [_ <-].
Qed.

Lemma ex_flying_ok : stream_ok ex_flying.
Proof. apply run_ok, ex_stream_ok. Qed.

Lemma ex_bus_ok n st : buStreams ex_bus !! n = Some st -> stream_ok st.
Proof. intros [-> | ->]%ex_bus_streams; [apply ex_flying_ok | apply new_ok]. Qed.

(** The same with room for more. *)
Definition ex_roomy : stream := run (ex_ops ++ [ex_claim; ex_claim]) (new_stream (ex_spec <| ssMaxBytes := 80 |>)).
Definition ex_room : Bus := ex_bus <| buStreams := {[ "WORK" := ex_roomy; StreamDLQ := new_stream ex_dlq_spec ]} |>.

Lemma ex_room_ok n st : buStreams ex_room !! n = Some st -> stream_ok st.
Proof.
  change (buStreams ex_room) with (<["WORK" := ex_roomy]> ({[ StreamDLQ := new_stream ex_dlq_spec ]} : gmap string stream)).
  rewrite lookup_insert_Some. intros [[_ <-] | [_ H]]; [apply run_ok, new_ok |].
  apply lookup_singleton_Some in H as [_ <-]. apply new_ok.
Qed.

Definition ex_bops : list bop := [BNak 1011 0 ex_held; BAck ex_held; BClose].


(** A delivery handed back comes to a copy and then an acknowledgement. *)
Example ex_requeue_trace :
  map (fun x => match x.2 with SPublish _ s e _ => (x.1, s) | SAck _ d => (x.1, d) | _ => (x.1, EmptyString) end)
    (ops_of (requeue_script (config_of ex_room) 1011 1011 ex_held ex_work Done) (buStreams ex_room))
  = [("WORK", "work.a"); ("WORK", "w")].
Proof. vm_compute. reflexivity. Qed.

Lemma published_reads_back_witness :
  bus_Message (snd (Publish false 1010 1010 "clustarr.dlq.a.b.c" (Some (ex_env "x" "data" 0)) [] ex_bus)) StreamDLQ 1
    = inl ("clustarr.dlq.a.b.c", stamped ex_bus 1010 (Some (ex_env "x" "data" 0)) []).
Proof.
  apply (published_reads_back false 1010 1010 "clustarr.dlq.a.b.c" (Some (ex_env "x" "data" 0)) [] ex_bus StreamDLQ 1
    (new_stream ex_dlq_spec)); [by vm_compute | by vm_compute | apply new_ok | left; by vm_compute].
Defined.

Lemma requeue_loses_nothing_witness :
  dvSettled (fst (requeue 1011 1011 ex_held ex_work ex_room)) = true.
Proof.
  pose proof (requeue_loses_nothing 1011 1011 ex_held ex_work ex_room ex_roomy eq_refl eq_refl eq_refl ex_room_ok
    ltac:(by vm_compute) ltac:(by vm_compute) ltac:(by vm_compute)) as H. cbv zeta in H.
  destruct (requeue 1011 1011 ex_held ex_work ex_room) as [g' b']. apply H.
Defined.

Lemma refused_is_copied_witness :
  dvSettled (fst (settle 1011 1011 ex_held ex_work (SettleTerm "bad") ex_bus)) = true.
Proof.
  pose proof (refused_is_copied 1011 1011 ex_held ex_work "bad" ex_bus StreamDLQ 1 ex_flying) as H.
  cbv zeta in H. destruct (DeadLetterEnvelope _ _ _ _ _) as [subject env] eqn:Ed.
  specialize (H eq_refl ex_bus_ok ltac:(by vm_compute) ltac:(vm_compute; lia)).
  vm_compute in Ed. injection Ed as <- <-.
  specialize (H ltac:(by vm_compute)).
  destruct (settle 1011 1011 ex_held ex_work (SettleTerm "bad") ex_bus) as [g' b']. apply H.
Defined.

Lemma pass_steps_slots_witness :
  let '(r, b') := consume_pass 1012 1012 1012 1012 7 ex_work [] ex_bus in
  exists s', buSubs b' !! 7%nat = Some s' /\ rtc sub_step (false, ex_sub) (false, s') /\
    match r with
    | Some (d, g) => exists x, msRunning s' !! d = Some x /\ mdMsg x = dvMsg g /\ mdLapsed x = false
    | None => True
    end.
Proof. apply (pass_steps_slots 1012 1012 1012 1012 7 ex_work [] ex_bus ex_sub). by vm_compute. Defined.

Lemma ensured_is_present_witness : Missing (snd (ensure 1000 Default ex_empty)) Default = inl [].
Proof. apply (ensured_is_present 1000 Default ex_empty). vm_compute. reflexivity. Defined.
