(* ===== verification/Records.v ===== *)
(** * Records: the compare-and-swap record protocol

    src/pkg/records (records.go, requester.go, answerer.go, writer.go, reader.go)
    over any bucket of the interface [KV].  A record is a [RecordType]: a header
    and whatever the remediation adds, with its JSON codec.

    Between a read and the write that follows it any other process may act:
    [env i] is what happens to the bucket before the [i]-th call, and [clock i]
    the time of it. *)

From S2P Require Import Prelude GoLang Api Events KV.
From Stdlib Require Import Ascii.

Open Scope monad_scope.

(** ** Constants *)

Definition StateRequested : string := "requested".
Definition StateWithdrawn : string := "withdrawn".
Definition StateClaimed : string := "claimed".
Definition StateDeferred : string := "deferred".
Definition StateAnswered : string := "answered".
Definition StateFailed : string := "failed".

Definition CASAttempts : nat := 8.
Definition MaxFailure : nat := 1024.
Definition MaxFactWindow : Duration := 7 * 24 * Hour.

(** [NextSeq], [int64] additions wrapping. *)
Definition NextSeq (recordSeq statusSeq : Z) (now : Time) : Z :=
  Z.max (wrap64 (recordSeq + 1)) (Z.max (wrap64 (statusSeq + 1)) (UnixMilli now)).

Definition FactWindow (deadline grace : Duration) : Duration :=
  Z.min (wrap64 (deadline + grace)) MaxFactWindow.

(** ** Records *)

(** [schema.RecordHeader], whose state is one of the bucket's own. *)
Record Header := mkHeader {
  hSchema : string;
  hMediaFile : Ref;
  hItem : option ItemRef;
  hSub : string;
  hSeq : Z;
  hState : string;
  hRequestedAt : Time;
  hClaimedAt : option Time;
  hDeferredUntil : option Time;
  hAnsweredAt : option Time;
  hWriter : string;
  hWriterVersion : string;
  hFailure : string;
  hTransient : bool;
  hFailures : Z;
}.

#[export] Instance eta_Header : Eta Header :=
  fun h => mkHeader (hSchema h) (hMediaFile h) (hItem h) (hSub h) (hSeq h) (hState h)
    (hRequestedAt h) (hClaimedAt h) (hDeferredUntil h) (hAnsweredAt h) (hWriter h)
    (hWriterVersion h) (hFailure h) (hTransient h) (hFailures h).
#[export] Instance set_hSchema : Setter hSchema. Proof. derive_setter. Defined.
#[export] Instance set_hMediaFile : Setter hMediaFile. Proof. derive_setter. Defined.
#[export] Instance set_hSub : Setter hSub. Proof. derive_setter. Defined.
#[export] Instance set_hSeq : Setter hSeq. Proof. derive_setter. Defined.
#[export] Instance set_hState : Setter hState. Proof. derive_setter. Defined.
#[export] Instance set_hRequestedAt : Setter hRequestedAt. Proof. derive_setter. Defined.
#[export] Instance set_hClaimedAt : Setter hClaimedAt. Proof. derive_setter. Defined.
#[export] Instance set_hDeferredUntil : Setter hDeferredUntil. Proof. derive_setter. Defined.
#[export] Instance set_hAnsweredAt : Setter hAnsweredAt. Proof. derive_setter. Defined.
#[export] Instance set_hWriter : Setter hWriter. Proof. derive_setter. Defined.
#[export] Instance set_hWriterVersion : Setter hWriterVersion. Proof. derive_setter. Defined.
#[export] Instance set_hFailure : Setter hFailure. Proof. derive_setter. Defined.
#[export] Instance set_hTransient : Setter hTransient. Proof. derive_setter. Defined.

(** [Record], with the JSON of its Go type: [None] is the codec's error. *)
Class RecordType (R : Type) := {
  header : R -> Header;
  with_header : Header -> R -> R;
  encode : R -> option string;
  decode : string -> option R;
}.

(** [Spec]: the functions it may leave nil are options; the error counter is
    not modelled. *)
Record Spec (R : Type) := mkSpec {
  spSchema : string;
  spMaxValue : Z;
  spNew : R;
  spAnswered : option (string -> bool);
  spFact : option (R -> bool);
  spCarry : option (option R -> R -> R);
  spKeyOf : option (R -> string * string);
}.
Arguments mkSpec {R}.
Arguments spSchema {R}.
Arguments spMaxValue {R}.
Arguments spNew {R}.
Arguments spAnswered {R}.
Arguments spFact {R}.
Arguments spCarry {R}.
Arguments spKeyOf {R}.

Definition TerminalAnswered (state : string) : bool :=
  String.eqb state StateAnswered || String.eqb state StateFailed.

(** The errors a call returns, by the sentinel they wrap or the check that
    fails. *)
Inductive RecError :=
  | ErrRaced
  | ErrTooLarge
  | ErrUnincorporatedFact
  | ErrStore (e : KVError)
  | ErrKey
  | ErrEncode
  | ErrSeq
  | ErrState.

(** [Verdict]. *)
Inductive Verdict := Wrote | NotYet | Dropped | DroppedFact.

#[export] Instance Verdict_eq_dec : EqDecision Verdict.
Proof. solve_decision. Defined.

(** [keyParts]: [None] is its error. *)
Definition keyParts (key : string) : option (string * string) :=
  let '(fst_, snd_, two) := Cut "." key in
  match ParseKVKeyToken fst_ with
  | inr _ => None
  | inl uid =>
      if two then
        match ParseKVKeyToken snd_ with inr _ => None | inl sub => Some (uid, sub) end
      else Some (uid, "")
  end.

(** [clip]. *)
Definition clip (s : string) (n : nat) : string :=
  if (String.length s <=? n)%nat then s else str_take (rune_floor s n) s.

(** ** The store *)

Section Store.
Context {B R : Type} `{KV B} `{RecordType R}.
Context (sp : Spec R) (env : nat -> B -> B) (clock : nat -> Time).

Definition answered (state : string) : bool :=
  match spAnswered sp with Some f => f state | None => TerminalAnswered state end.

Definition is_fact (r : R) : bool := match spFact sp with Some f => f r | None => false end.

Definition keyOf (r : R) : string * string :=
  match spKeyOf sp with
  | Some f => f r
  | None => (refUID (hMediaFile (header r)), hSub (header r))
  end.

(** Whether [r] may be stored under [key], by its key's parts. *)
Definition keyed (key : string) (r : R) : bool :=
  match keyParts key with Some p => bool_decide (keyOf r = p) | None => false end.

(** What other processes do before the [i]-th call. *)
Definition interfere (i : nat) : M B unit := modify (env i).

(** [get] once it has an entry: the record it reads as. *)
Definition read_entry (key : string) (e : Entry) : option R :=
  if negb (bool_decide (enOperation e = KVPut)) || String.eqb (enValue e) "" then None
  else match decode (enValue e) with
       | None => None
       | Some r =>
           if negb (String.eqb (hSchema (header r)) (spSchema sp)) || negb (keyed key r) then None
           else Some r
       end.

(** [store.get]: the record, [None] when it is not [ok], and its revision. *)
Definition get (i : nat) (key : string) : M B (option R * Z + RecError) :=
  interfere i;;
  res <- kv_get (clock i) key;;
  ret (match res with
       | inr ErrKeyNotFound => inl (None, 0)
       | inr e => inr (ErrStore e)
       | inl e => inl (read_entry key e, enRevision e)
       end).

(** [store.at]. *)
Definition at_rev (i : nat) (key : string) (rev : Z) : M B (option R + RecError) :=
  res <- get i key;;
  ret (match res with
       | inr e => inr e
       | inl (cur, got) => if negb (got =? rev) then inr ErrRaced else inl cur
       end).

(** [store.write]: it stamps the schema on the record it is given. *)
Definition write (i : nat) (key : string) (rev : Z) (rec : R) : M B (Z + RecError) :=
  if negb (keyed key rec) then ret (inr ErrKey)
  else
    let rec := with_header ((header rec) <| hSchema := spSchema sp |>) rec in
    match encode rec with
    | None => ret (inr ErrEncode)
    | Some s =>
        if (0 <? spMaxValue sp) && (spMaxValue sp <? Z.of_nat (String.length s)) then ret (inr ErrTooLarge)
        else
          interfere i;;
          res <- (if rev =? 0 then kv_create (clock i) key s else kv_update (clock i) key s rev);;
          ret (match res with
               | inl next => inl next
               | inr ErrKeyExists | inr ErrRevisionMismatch | inr ErrKeyNotFound => inr ErrRaced
               | inr e => inr (ErrStore e)
               end)
    end.

(** [clone]: [None] is its error. *)
Definition clone (r : R) : option R :=
  match encode r with Some s => decode s | None => None end.

Definition seq_of (r : R) : Z := hSeq (header r).
Definition state_of (r : R) : string := hState (header r).

(** [refuseFact], with the options resolved to what they say was incorporated. *)
Definition refuseFact (cur : option R) (incorporated : Z) : option RecError :=
  match cur with
  | None => None
  | Some c =>
      if negb (answered (state_of c)) || negb (is_fact c) then None
      else if seq_of c <=? incorporated then None
      else Some ErrUnincorporatedFact
  end.

Definition carry (cur : option R) (next : R) : R :=
  match spCarry sp with Some f => f cur next | None => next end.

(** ** Requester *)

(** [Request]'s stamps: the record becomes a request. *)
Definition requested (now : Time) (h : Header) : Header :=
  h <| hState := StateRequested |>
    <| hRequestedAt := (if IsZero (hRequestedAt h) then now else hRequestedAt h) |>
    <| hClaimedAt := None |> <| hDeferredUntil := None |> <| hAnsweredAt := None |>
    <| hWriter := "" |> <| hWriterVersion := "" |> <| hFailure := "" |> <| hTransient := false |>.

Definition Request (key : string) (rev : Z) (rec : R) (incorporated : Z) (now : Time) : M B (Z + RecError) :=
  res <- at_rev 0 key rev;;
  match res with
  | inr e => ret (inr e)
  | inl cur =>
      if (match cur with Some c => seq_of rec <=? seq_of c | None => false end) then ret (inr ErrSeq)
      else match refuseFact cur incorporated with
           | Some e => ret (inr e)
           | None => write 1 key rev (carry cur (with_header (requested now (header rec)) rec))
           end
  end.

(** [Withdraw]'s last stamps. *)
Definition close (seq : Z) (next : R) : R :=
  with_header ((header next) <| hSeq := seq |> <| hState := StateWithdrawn |>
                           <| hWriter := "" |> <| hWriterVersion := "" |>) next.

(** [Withdraw]'s record, [inl None] when it leaves the record alone. *)
Definition withdrawal (key : string) (seq incorporated : Z) (now : Time) (cur : option R) :
    option R + RecError :=
  let fresh :=
    match refuseFact cur incorporated with
    | Some e => inr e
    | None =>
        match keyParts key with
        | None => inr ErrKey
        | Some (uid, sub) =>
            let ref := match cur with Some c => hMediaFile (header c) | None => mkRef "" "" uid end in
            inl (Some (close seq (with_header ((header (spNew sp)) <| hMediaFile := ref |> <| hSub := sub |>
                                             <| hRequestedAt := now |>) (spNew sp))))
        end
    end in
  match cur with
  | None => fresh
  | Some c =>
      if seq <? seq_of c then inl None
      else if seq_of c =? seq then
        if String.eqb (state_of c) StateWithdrawn || answered (state_of c) then inl None
        else match clone c with Some next => inl (Some (close seq next)) | None => inr ErrEncode end
      else fresh
  end.

(** [Withdraw]: revision 0 when it wrote nothing. *)
Definition Withdraw (key : string) (rev seq incorporated : Z) (now : Time) : M B (Z + RecError) :=
  res <- at_rev 0 key rev;;
  match res with
  | inr e => ret (inr e)
  | inl cur =>
      match withdrawal key seq incorporated now cur with
      | inr e => ret (inr e)
      | inl None => ret (inl 0)
      | inl (Some next) => write 1 key rev next
      end
  end.

(** ** The retry loop

    [Claim], [Defer], [Answer], [Seed] and [Update] each loop over
    [CASAttempts]: read, decide, write over what was read, and again if the
    write was raced.  [decide] is the body between the two calls. *)

Inductive Choice := Leave (v : Verdict) | Put (next : R) | Refuse (e : RecError).

Fixpoint attempts (n i : nat) (key : string) (decide : nat -> option R -> Choice) : M B (Verdict + RecError) :=
  match n with
  | O => ret (inr ErrRaced)
  | S n' =>
      res <- get (2 * i) key;;
      match res with
      | inr e => ret (inr e)
      | inl (cur, rev) =>
          match decide i cur with
          | Leave v => ret (inl v)
          | Refuse e => ret (inr e)
          | Put next =>
              w <- write (2 * i + 1) key rev next;;
              match w with
              | inl _ => ret (inl Wrote)
              | inr ErrRaced => attempts n' (S i) key decide
              | inr e => ret (inr e)
              end
          end
      end
  end.

(** ** Answerer *)

Context (writer version : string).

Definition superseded (cur : option R) (seq : Z) : bool :=
  match cur with
  | None => false
  | Some c =>
      if seq <? seq_of c then true
      else if seq_of c <? seq then false
      else String.eqb (state_of c) StateWithdrawn || answered (state_of c)
  end.

Definition Superseded (key : string) (seq : Z) : M B (bool + RecError) :=
  res <- get 0 key;;
  ret (match res with inr e => inr e | inl (cur, _) => inl (superseded cur seq) end).

(** The body of [progress]'s loop. *)
Definition progress (seq : Z) (state : string) (may : Header -> bool) (stamp : Header -> Header)
    (cur : option R) : Choice :=
  match cur with
  | None => Leave NotYet
  | Some c =>
      if seq_of c <? seq then Leave NotYet
      else if superseded cur seq then Leave Dropped
      else if negb (String.eqb (state_of c) StateRequested) && negb (may (header c)) then Leave Dropped
      else match clone c with
           | None => Refuse ErrEncode
           | Some next =>
               Put (with_header (stamp ((header next) <| hState := state |> <| hWriter := writer |>
                                                     <| hWriterVersion := version |>)) next)
           end
  end.

(** A deferral whose time has come. *)
Definition undeferred (now : Time) (h : Header) : bool :=
  match hDeferredUntil h with None => true | Some t => negb (Before now t) end.

Definition Claim (key : string) (seq : Z) (reclaim : bool) (now : Time) : M B (Verdict + RecError) :=
  attempts CASAttempts 0 key (fun _ => progress seq StateClaimed
    (fun h => if String.eqb (hState h) StateClaimed then reclaim
              else if String.eqb (hState h) StateDeferred then undeferred now h else false)
    (fun h => h <| hClaimedAt := Some now |> <| hDeferredUntil := None |>)).

Definition Defer (key : string) (seq : Z) (until now : Time) : M B (Verdict + RecError) :=
  attempts CASAttempts 0 key (fun _ => progress seq StateDeferred
    (fun h => String.eqb (hState h) StateDeferred && undeferred now h)
    (fun h => h <| hDeferredUntil := Some until |>)).

(** [Answer]'s stamps over what it answers. *)
Definition answer_header (cur : option R) (now : Time) (h : Header) : Header :=
  let h := h <| hFailure := clip (hFailure h) MaxFailure |> <| hWriter := writer |>
             <| hWriterVersion := version |>
             <| hAnsweredAt := Some (default now (hAnsweredAt h)) |> in
  match cur with
  | Some c =>
      if seq_of c =? hSeq h then
        h <| hRequestedAt := (if IsZero (hRequestedAt h) then hRequestedAt (header c) else hRequestedAt h) |>
          <| hClaimedAt := (match hClaimedAt h with None => hClaimedAt (header c) | t => t end) |>
      else h
  | None => h
  end.

(** The body of [Answer]'s loop. *)
Definition answer (ans : R) (now : Time) (cur : option R) : Choice :=
  let seq := seq_of ans in
  let fact := is_fact ans in
  let put :=
    match clone ans with
    | None => Refuse ErrEncode
    | Some next => Put (carry cur (with_header (answer_header cur now (header next)) next))
    end in
  match cur with
  | None => put
  | Some c =>
      if seq <? seq_of c then Leave (if fact then DroppedFact else Dropped)
      else if (seq_of c =? seq) && answered (state_of c) then Leave Dropped
      else if (seq_of c =? seq) && String.eqb (state_of c) StateWithdrawn && negb fact then Leave Dropped
      else put
  end.

(** [stamp i] is the clock's reading on the [i]-th attempt. *)
Definition Answer (key : string) (ans : R) (stamp : nat -> Time) : M B (Verdict + RecError) :=
  if negb (answered (state_of ans)) then ret (inr ErrState)
  else attempts CASAttempts 0 key (fun i => answer ans (stamp i)).

(** [Seed]: [Wrote] is its [true], [Dropped] its [false]. *)
Definition seed (rec : R) (keep : option (option R -> bool)) (cur : option R) : Choice :=
  if (match keep with Some f => f cur | None => false end) then Leave Dropped
  else match clone rec with
       | None => Refuse ErrEncode
       | Some next =>
           Put (carry cur (with_header ((header next)
             <| hSeq := (match cur with Some c => seq_of c | None => 0 end) |>
             <| hFailure := clip (hFailure (header next)) MaxFailure |>
             <| hWriter := writer |> <| hWriterVersion := version |>) next))
       end.

Definition Seed (key : string) (rec : R) (keep : option (option R -> bool)) : M B (Verdict + RecError) :=
  attempts CASAttempts 0 key (fun _ => seed rec keep).

(** ** Writer *)

(** [Update].  [mutate] gets a copy of the stored record, which it may write to
    and may return as the record to write: it answers what the copy is
    afterwards, and the record to write, [None] for none. *)
Definition update (mutate : option R -> option R * option R) (cur : option R) : Choice :=
  match cur, match cur with Some c => clone c | None => None end with
  | Some _, None => Refuse ErrEncode
  | _, copy =>
      match mutate copy with
      | (_, None) => Leave Dropped
      | (copy, Some next) =>
          if bool_decide (is_Some cur)
             && (match copy with Some c => seq_of next <? seq_of c | None => false end) then Leave Dropped
          else match clone next with
               | None => Refuse ErrEncode
               | Some next =>
                   Put (with_header ((header next) <| hFailure := clip (hFailure (header next)) MaxFailure |>
                          <| hWriter := writer |> <| hWriterVersion := version |>) next)
               end
      end
  end.

Definition Update (key : string) (mutate : option R -> option R * option R) : M B (Verdict + RecError) :=
  attempts CASAttempts 0 key (fun _ => update mutate).

(** [Write]'s [mutate]: the record, unless the stored one is newer. *)
Definition unless_newer (rec : R) (cur : option R) : option R * option R :=
  (cur, match cur with
        | Some c => if seq_of rec <? seq_of c then None else Some rec
        | None => Some rec
        end).

Definition Write (key : string) (rec : R) : M B (Verdict + RecError) := Update key (unless_newer rec).
End Store.
