(* ===== verification/RecordsFacts.v ===== *)
(** * The record protocol, whoever else writes

    Every operation of [Records] is one atomic step over the bucket: what other
    processes do first, then at most one write over the very record it decided
    on.  From that follow the protocol's promises: sequence numbers never fall,
    the first answer stands, an answer that changed the disk is not lost. *)

From S2P Require Import Prelude GoLang GoFacts Api Events KV Records.
From Stdlib Require Import Ascii.

Open Scope monad_scope.

(** ** What the protocol relies on of a record type and its spec *)

Section Laws.
Context {R : Type} `{RecordType R} (sp : Spec R).

(** What the protocol reads of a record. *)
Definition face (r : R) : Z * string * bool * (string * string) :=
  (seq_of r, state_of r, is_fact sp r, keyOf sp r).

(** JSON keeps what the protocol reads, and is never empty; the header is the
    record's own; whether a record is a fact depends of its header on no more
    than the state, and its key on no more than the media file and the sub-key;
    [Carry] changes none of it. *)
Class SpecLaws := {
  header_with : forall h r, header (with_header h r) = h;
  json_keeps : forall r s, encode r = Some s -> s <> "" /\
    exists r', decode s = Some r' /\ face r' = face r /\ hSchema (header r') = hSchema (header r);
  fact_header : forall h r, hState h = state_of r -> is_fact sp (with_header h r) = is_fact sp r;
  key_header : forall h r, hMediaFile h = hMediaFile (header r) -> hSub h = hSub (header r) ->
    keyOf sp (with_header h r) = keyOf sp r;
  carry_face : forall cur next, face (carry sp cur next) = face next;
}.
End Laws.

(** ** Steps of a record *)

Section Steps.
Context {B R : Type} `{KVLaws B} `{RecordType R} (sp : Spec R) `{!SpecLaws sp} (key : string).
Implicit Types (b : B) (P : option R -> R -> Prop).

(** The record a value reads as, and the one stored at a time. *)
Definition reads (v : string) : option R := read_entry sp key (mkEntry "" key v 0 0 KVPut).
Definition view (t : Time) b : option R :=
  match kv_at t b key with Some (_, v) => reads v | None => None end.

(** Nothing was written at the key, though its record may have been retired. *)
Definition quiet b b' : Prop :=
  kv_evolves b b' /\ forall t, kv_at t b' key = kv_at t b key \/ kv_at t b' key = None.

(** A record was written over the one stored, as [P] allows. *)
Definition wrote P b b' : Prop :=
  exists now cond s next, kv_evolves b b' /\ kv_wrote now key s cond b b' /\
    reads s = Some next /\ P (view now b) next.

Definition key_step P b b' : Prop := quiet b b' \/ wrote P b b'.

Lemma untouched b : quiet b b.
Proof. split; [apply kv_evolves_pre | by left]. Qed.

Lemma quiet_same now b b' : kv_evolves b b' -> kv_same now b b' -> quiet b b'.
Proof. intros He Hs. split; [done |]. intros t. destruct (Hs key t) as [-> | [_ ->]]; auto. Qed.

Lemma step_evolves P b b' : key_step P b b' -> kv_evolves b b'.
Proof. intros [[He _] | (now & cond & s & next & He & _)]; exact He. Qed.

Lemma steps_evolve P b b' : rtc (key_step P) b b' -> kv_evolves b b'.
Proof.
  induction 1 as [b | b b1 b2 Hs _ IH]; [apply kv_evolves_pre |].
  eapply kv_evolves_pre; [eapply step_evolves, Hs | exact IH].
Qed.

Lemma steps_ok P b b' : rtc (key_step P) b b' -> kv_ok b -> kv_ok b'.
Proof. intros Hs. eapply kv_evolves_ok, steps_evolve, Hs. Qed.

Lemma wrote_mono P Q b b' : (forall cur next, P cur next -> Q cur next) -> wrote P b b' -> wrote Q b b'.
Proof. intros HPQ (now & cond & s & next & ? & ? & ? & ?). exists now, cond, s, next. auto. Qed.

Lemma step_mono P Q b b' : (forall cur next, P cur next -> Q cur next) -> key_step P b b' -> key_step Q b b'.
Proof. intros HPQ [? | ?]; [by left | right; by eapply wrote_mono]. Qed.

(** A record a call read at a revision, and what a write over it replaces. *)
Definition linked (cur : option R) (rev : Z) b : Prop :=
  rev = 0 /\ cur = None \/
  rev <> 0 /\ exists t v, kv_at t b key = Some (rev, v) /\ reads v = cur.

Definition over (now : Time) (rev : Z) b : Prop :=
  if rev =? 0 then kv_at now b key = None else exists v0, kv_at now b key = Some (rev, v0).

Lemma linked_view now cur rev b b' : kv_ok b -> linked cur rev b -> kv_evolves b b' ->
  over now rev b' -> view now b' = cur.
Proof.
  unfold over, view. intros Hok [[-> ->] | (Hr & t & v & Hat & <-)] He.
  - cbn. by intros ->.
  - rewrite (proj2 (Z.eqb_neq rev 0) Hr). intros [v0 E]. rewrite E.
    by destruct (kv_revision b b' t now key rev v rev v0 Hok He Hat E) as [_ ->].
Qed.

(** ** The two calls *)

Context (env : nat -> B -> B) (clock : nat -> Time) (E : option R -> R -> Prop).
Hypothesis others : forall i b, kv_ok b -> rtc (key_step E) b (env i b).

Lemma read_entry_put e : enOperation e = KVPut -> read_entry sp key e = reads (enValue e).
Proof. intros He. unfold reads, read_entry. cbn. by rewrite He. Qed.

Lemma wp_get i b (Q : option R * Z + RecError -> B -> Prop) : kv_ok b ->
  (forall b1 b', rtc (key_step E) b b1 -> quiet b1 b' ->
     (forall e, Q (inr e) b') /\
     (forall cur rev t, linked cur rev b' -> view t b' = cur -> Q (inl (cur, rev)) b')) ->
  wp (get sp env clock i key) Q b.
Proof.
  intros Hok HQ. unfold get, interfere. apply wp_bind, wp_modify, wp_bind, wp_iff.
  pose proof (others i b Hok) as Ho. set (b1 := env i b) in *.
  assert (kv_ok b1) as Hok1 by (eapply steps_ok; eassumption).
  pose proof (kv_get_spec (clock i) key b1) as G.
  destruct (kv_get (clock i) key b1) as [res b']. destruct G as (He & Hs & G).
  destruct (HQ b1 b' Ho (quiet_same _ _ _ He Hs)) as [HQe HQl]. apply wp_ret. cbn.
  assert (forall x, kv_at (clock i) b1 key = x -> kv_at (clock i) b' key = x) as Hkeep.
  { intros x <-. destruct (Hs key (clock i)) as [-> | [? _]]; [done | lia]. }
  destruct res as [e | []]; auto.
  - destruct G as [Hop Hat]. rewrite (read_entry_put e Hop).
    apply (HQl _ _ (clock i)); [right | unfold view; by rewrite (Hkeep _ Hat)].
    split; [by eapply kv_positive | eauto].
  - apply (HQl _ _ (clock i)); [by left | unfold view; by rewrite (Hkeep _ G)].
Qed.

Lemma reads_encoded rec s : keyed sp key rec = true -> hSchema (header rec) = spSchema sp ->
  encode rec = Some s -> exists next, reads s = Some next /\ face sp next = face sp rec.
Proof.
  intros Hk Hsch He. destruct (json_keeps sp rec s He) as (Hs & r' & Hd & Hf & Hh).
  exists r'. split; [| exact Hf]. unfold reads, read_entry. cbn. rewrite bool_decide_true by done. cbn.
  destruct (String.eqb s "") eqn:Ee; bools; [done |].
  rewrite Hd, Hh, Hsch, String.eqb_refl. cbn. unfold keyed in *.
  unfold face in Hf. injection Hf as _ _ _ Hkey. by rewrite Hkey, Hk.
Qed.

(** Stamping a header leaves what is not stamped. *)
Lemma face_stamped h rec : hSeq h = seq_of rec -> hState h = state_of rec ->
  hMediaFile h = hMediaFile (header rec) -> hSub h = hSub (header rec) ->
  face sp (with_header h rec) = face sp rec.
Proof.
  intros Hq Hst Hm Hs. unfold face, seq_of, state_of in *.
  by rewrite !(header_with sp), (fact_header sp), (key_header sp), Hq, Hst.
Qed.

(** What a write does: [next] has the face of [rec], and lands over what it
    names. *)
Definition put_over (rec : R) (now : Time) (rev : Z) b b' : Prop :=
  kv_evolves b b' /\ exists s next, kv_wrote now key s (over now rev b) b b' /\
    reads s = Some next /\ face sp next = face sp rec.

Lemma wp_put i rev rec b (Q : Z + RecError -> B -> Prop) : kv_ok b ->
  (forall e, Q (inr e) b) ->
  (forall b1 b', rtc (key_step E) b b1 -> quiet b1 b' -> forall e, Q (inr e) b') ->
  (forall b1 b' res, rtc (key_step E) b b1 -> put_over rec (clock i) rev b1 b' -> res <> inr ErrRaced ->
     Q res b') ->
  wp (write sp env clock i key rev rec) Q b.
Proof.
  intros Hok HQe HQq HQw. unfold write. wp_step; [by apply wp_ret |]. bools.
  destruct (encode _) as [s |] eqn:Eenc; [| by apply wp_ret].
  wp_step; [by apply wp_ret |]. unfold interfere. apply wp_bind, wp_modify, wp_bind, wp_iff.
  pose proof (others i b Hok) as Ho. set (b1 := env i b) in *.
  assert (kv_ok b1) as Hok1 by (eapply steps_ok; eassumption).
  set (rec' := with_header _ rec) in *.
  assert (face sp rec' = face sp rec) as Hface by (by apply face_stamped).
  destruct (reads_encoded rec' s) as (next & Hnext & Hf); [| unfold rec'; by rewrite (header_with sp) | exact Eenc |].
  { unfold keyed in *. unfold face in Hface. injection Hface as _ _ _ ->. done. }
  match goal with |- context [fst (?m b1)] => set (call := m) end.
  assert (let '(res, b') := call b1 in kv_cas (clock i) key s (over (clock i) rev b1) b1 res b') as S.
  { unfold call, over. destruct (rev =? 0); [by apply kv_create_spec | by apply kv_update_spec]. }
  destruct (call b1) as [res b']. destruct S as [He S]. apply wp_ret. cbn.
  assert (forall P : Prop, kv_wrote (clock i) key s P b1 b' -> P = over (clock i) rev b1 ->
    put_over rec (clock i) rev b1 b') as Hput.
  { intros P Hw ->. split; [done |]. exists s, next. split_and!; [done .. | congruence]. }
  destruct res as [r | []].
  - eapply HQw; [exact Ho | by eapply Hput | done].
  - eapply HQq; [exact Ho | eapply quiet_same; [done | apply S]].
  - eapply HQq; [exact Ho | eapply quiet_same; [done | apply S]].
  - eapply HQq; [exact Ho | eapply quiet_same; [done | apply S]].
  - destruct S as [S | S].
    + eapply HQq; [exact Ho | eapply quiet_same; [done | apply S]].
    + eapply HQw; [exact Ho | by eapply Hput | done].
Qed.

(** A write over what a call read: it replaces the very record read. *)
Lemma put_over_wrote P rec now rev cur b b1 b' : kv_ok b -> linked cur rev b -> rtc (key_step E) b b1 ->
  put_over rec now rev b1 b' -> (forall next, face sp next = face sp rec -> P cur next) -> wrote P b1 b'.
Proof.
  intros Hok Hl Hs (He & s & next & Hw & Hr & Hf) HP.
  exists now, (over now rev b1), s, next. split_and!; [done .. |].
  rewrite (linked_view now cur rev b b1 Hok Hl (steps_evolve _ _ _ Hs)); [by apply HP | apply Hw].
Qed.

(** ** The retry loop *)

(** What an attempt decided of the record it replaced. *)
Definition write_of (decide : nat -> option R -> Choice (R := R)) cur next : Prop :=
  exists j rec, decide j cur = Put rec /\ face sp next = face sp rec.

(** The outcomes of a loop: others act, then it leaves the record, or writes
    over the one it decided on; an error may follow either. *)
Definition loop_outcome (decide : nat -> option R -> Choice (R := R)) b (res : Verdict + RecError) b' : Prop :=
  exists b1, rtc (key_step E) b b1 /\
  match res with
  | inl v => v = Wrote /\ wrote (write_of decide) b1 b' \/
             quiet b1 b' /\ exists j t, decide j (view t b') = Leave v
  | inr _ => key_step (write_of decide) b1 b'
  end.

Lemma outcome_after decide b b1 res b' : rtc (key_step E) b b1 -> loop_outcome decide b1 res b' ->
  loop_outcome decide b res b'.
Proof. intros Hs (b2 & Hb2 & ?). exists b2. split; [by etransitivity | done]. Qed.

Lemma quiet_step P b b' : quiet b b' -> rtc (key_step P) b b'.
Proof. intros Hq. apply rtc_once. by left. Qed.

Lemma wp_attempts n i decide b : kv_ok b ->
  wp (attempts sp env clock n i key decide) (loop_outcome decide b) b.
Proof.
  revert i b. induction n as [| n IH]; intros i b Hok.
  { apply wp_ret. exists b. split; [done | left; apply untouched]. }
  cbn [attempts]. apply wp_bind, wp_get; [done |]. intros b1 b2 Hb1 Hq. split.
  - intros e. apply wp_ret. exists b1. split; [done | by left].
  - intros cur rev t Hl Hv.
    assert (rtc (key_step E) b b2) as Hb2 by (etransitivity; [exact Hb1 | by apply quiet_step]).
    assert (kv_ok b2) as Hok2 by (eapply steps_ok; eassumption).
    destruct (decide i cur) as [v | rec | e] eqn:Ed.
    + apply wp_ret. exists b1. split; [done |]. right. split; [done |]. exists i, t. by rewrite Hv.
    + apply wp_bind, wp_put; [done | | |].
      * intros e. assert (loop_outcome decide b (inr e) b2) as Ho.
        { exists b2. split; [done | left; apply untouched]. }
        destruct e; try (by apply wp_ret). eapply wp_mono; [by apply IH |]. intros res b' Hr.
        by eapply outcome_after.
      * intros b3 b4 Hb3 Hq4 e. assert (rtc (key_step E) b b4) as Hb4.
        { etransitivity; [exact Hb2 |]. etransitivity; [exact Hb3 | by apply quiet_step]. }
        assert (loop_outcome decide b (inr e) b4) as Ho.
        { exists b4. split; [done | left; apply untouched]. }
        destruct e; try (by apply wp_ret). eapply wp_mono.
        { apply IH. eapply steps_ok; eassumption. }
        intros res b' Hr. by eapply outcome_after.
      * intros b3 b4 res Hb3 Hput Hres.
        assert (wrote (write_of decide) b3 b4) as Hw.
        { eapply put_over_wrote; [exact Hok2 | exact Hl | exact Hb3 | exact Hput |].
          intros next Hf. by exists i, rec. }
        assert (rtc (key_step E) b b3) as Hb3' by by etransitivity.
        destruct res as [r | []]; try done; apply wp_ret; exists b3; (split; [done |]); by (left + right).
    + apply wp_ret. exists b1. split; [done | by left].
Qed.

(** A call that reads at the revision its caller names. *)
Lemma wp_at_rev i rev b (Q : option R + RecError -> B -> Prop) : kv_ok b ->
  (forall b1 b', rtc (key_step E) b b1 -> quiet b1 b' ->
     (forall e, Q (inr e) b') /\
     (forall cur, linked cur rev b' -> Q (inl cur) b')) ->
  wp (at_rev sp env clock i key rev) Q b.
Proof.
  intros Hok HQ. unfold at_rev. apply wp_bind, wp_get; [done |]. intros b1 b' Hb1 Hq.
  destruct (HQ b1 b' Hb1 Hq) as [HQe HQl]. split; [intros e; by apply wp_ret |].
  intros cur got t Hl _. apply wp_ret. destruct (negb (got =? rev)) eqn:E1; bools; [done |].
  subst got. by apply HQl.
Qed.

(** ** The operations *)

Context (writer version : string).

Inductive Op :=
  | OpRequest (rev : Z) (rec : R) (incorporated : Z) (now : Time)
  | OpWithdraw (rev seq incorporated : Z) (now : Time)
  | OpClaim (seq : Z) (reclaim : bool) (now : Time)
  | OpDefer (seq : Z) (until now : Time)
  | OpAnswer (ans : R) (stamp : nat -> Time)
  | OpSeed (rec : R) (keep : option (option R -> bool))
  | OpUpdate (mutate : option R -> option R * option R)
  | OpWrite (rec : R).

Definition run (op : Op) : M B unit :=
  match op with
  | OpRequest rev rec inc now => Request sp env clock key rev rec inc now;; ret tt
  | OpWithdraw rev seq inc now => Withdraw sp env clock key rev seq inc now;; ret tt
  | OpClaim seq reclaim now => Claim sp env clock writer version key seq reclaim now;; ret tt
  | OpDefer seq until now => Defer sp env clock writer version key seq until now;; ret tt
  | OpAnswer ans stamp => Answer sp env clock writer version key ans stamp;; ret tt
  | OpSeed rec keep => Seed sp env clock writer version key rec keep;; ret tt
  | OpUpdate mutate => Update sp env clock writer version key mutate;; ret tt
  | OpWrite rec => Write sp env clock writer version key rec;; ret tt
  end.

(** Neither withdrawn nor answered: a worker may still report on it. *)
Definition is_open (c : R) : Prop := state_of c <> StateWithdrawn /\ answered sp (state_of c) = false.

(** Not an answer that changed the disk which the caller has yet to incorporate. *)
Definition incorporated_fact (inc : Z) (c : R) : Prop :=
  answered sp (state_of c) = true -> is_fact sp c = true -> seq_of c <= inc.

(** Which record an operation may write over which. *)
Definition op_rule (op : Op) (cur : option R) (next : R) : Prop :=
  match op with
  | OpRequest _ rec inc _ => seq_of next = seq_of rec /\ state_of next = StateRequested /\
      forall c, cur = Some c -> seq_of c < seq_of next /\ incorporated_fact inc c
  | OpWithdraw _ seq inc _ => seq_of next = seq /\ state_of next = StateWithdrawn /\
      forall c, cur = Some c -> seq_of c < seq /\ incorporated_fact inc c \/ seq_of c = seq /\ is_open c
  | OpClaim seq _ _ => seq_of next = seq /\ state_of next = StateClaimed /\
      exists c, cur = Some c /\ seq_of c = seq /\ is_open c
  | OpDefer seq _ _ => seq_of next = seq /\ state_of next = StateDeferred /\
      exists c, cur = Some c /\ seq_of c = seq /\ is_open c
  | OpAnswer ans _ => seq_of next = seq_of ans /\ state_of next = state_of ans /\
      answered sp (state_of next) = true /\ is_fact sp next = is_fact sp ans /\
      forall c, cur = Some c -> seq_of c < seq_of ans \/
        seq_of c = seq_of ans /\ answered sp (state_of c) = false /\
        (state_of c = StateWithdrawn -> is_fact sp ans = true)
  | OpSeed _ _ => seq_of next = match cur with Some c => seq_of c | None => 0 end
  | OpUpdate mutate => exists given copy wanted,
      option_map (face sp) given = option_map (face sp) cur /\ mutate given = (copy, Some wanted) /\
      face sp next = face sp wanted /\
      forall c k, cur = Some c -> copy = Some k -> seq_of k <= seq_of wanted
  | OpWrite rec => seq_of next = seq_of rec /\ forall c, cur = Some c -> seq_of c <= seq_of rec
  end.

Lemma face_parts r r' : face sp r = face sp r' ->
  seq_of r = seq_of r' /\ state_of r = state_of r' /\ is_fact sp r = is_fact sp r'.
Proof. unfold face. by intros [= -> -> -> _]. Qed.

Lemma clone_face r r' : clone r = Some r' -> face sp r' = face sp r.
Proof.
  unfold clone. destruct (encode r) as [s |] eqn:Ee; [| done]. intros Hd.
  destruct (json_keeps sp r s Ee) as (_ & r2 & Hd2 & Hf & _). rewrite Hd in Hd2. by injection Hd2 as ->.
Qed.

Lemma superseded_open c : superseded sp (Some c) (seq_of c) = false -> is_open c.
Proof. unfold superseded, is_open. rewrite Z.ltb_irrefl. intros. bools. by split. Qed.

(** What an answer, a claim and the rest write, by what they decide. *)
Lemma progress_rule seq state may stamp cur rec :
  (forall h, hSeq (stamp h) = hSeq h /\ hState (stamp h) = hState h) ->
  progress sp writer version seq state may stamp cur = Put rec ->
  exists c, cur = Some c /\ seq_of c = seq /\ is_open c /\ seq_of rec = seq /\ state_of rec = state.
Proof.
  intros Hst. unfold progress. destruct cur as [c |]; [| done].
  destruct (seq_of c <? seq) eqn:E1; [done |]. destruct (superseded sp (Some c) seq) eqn:E2; [done |].
  case_match; [done |]. destruct (clone c) as [next |] eqn:Ec; [| done]. intros [= <-].
  assert (seq_of c = seq) as Hseq.
  { unfold superseded in E2. bools. destruct (seq <? seq_of c) eqn:?; [done |]. bools. lia. }
  exists c. subst seq. pose proof (face_parts _ _ (clone_face _ _ Ec)) as (Hq & _ & _).
  unfold seq_of, state_of in *. rewrite !(header_with sp).
  match goal with |- context [stamp ?h] => destruct (Hst h) as [-> ->] end.
  split_and!; [done | done | apply (superseded_open c), E2 .. | exact Hq | done].
Qed.

Lemma stamped_next next h : hSeq h = seq_of next -> hState h = state_of next ->
  hMediaFile h = hMediaFile (header next) -> hSub h = hSub (header next) ->
  forall r, clone r = Some next -> face sp (with_header h next) = face sp r.
Proof. intros Hq Hs Hm Hb r Hc. rewrite face_stamped by done. by apply clone_face. Qed.

Lemma answer_rule ans now cur rec : answer sp writer version ans now cur = Put rec ->
  face sp rec = face sp ans /\
  forall c, cur = Some c -> seq_of c < seq_of ans \/
    seq_of c = seq_of ans /\ answered sp (state_of c) = false /\
    (state_of c = StateWithdrawn -> is_fact sp ans = true).
Proof.
  assert (forall p, match clone ans with
    | None => Refuse ErrEncode
    | Some next => Put (carry sp cur (with_header (answer_header writer version cur now (header next)) next))
    end = Put p -> face sp p = face sp ans) as Hput.
  { intros p. destruct (clone ans) as [next |] eqn:Ec; [| done]. intros [= <-].
    rewrite (carry_face sp). apply stamped_next; [.. | exact Ec];
      unfold answer_header; repeat case_match; done. }
  unfold answer. destruct cur as [c |]; [| intros Hp; split; [by apply Hput | done]].
  destruct (seq_of ans <? seq_of c) eqn:E1; [done |].
  destruct ((seq_of c =? seq_of ans) && answered sp (state_of c)) eqn:E2; [done |].
  destruct (_ && negb (is_fact sp ans)) eqn:E3; [done |]. intros Hp. split; [by apply Hput |].
  intros c' [= <-]. bools. destruct (seq_of c =? seq_of ans) eqn:E4; bools; [right | left; lia].
  cbn in E2. split_and!; [done .. |]. intros Hw. rewrite Hw, String.eqb_refl in E3. cbn in E3. by bools.
Qed.

Lemma seed_rule rec keep cur r : seed sp writer version rec keep cur = Put r ->
  seq_of r = match cur with Some c => seq_of c | None => 0 end.
Proof.
  unfold seed. case_match; [done |]. destruct (clone rec) as [next |] eqn:Ec; [| done]. intros [= <-].
  match goal with |- seq_of ?x = _ => pose proof (face_parts x _ (carry_face sp cur _)) as (-> & _ & _) end.
  unfold seq_of. by rewrite (header_with sp).
Qed.

Lemma update_rule mutate cur r : update writer version mutate cur = Put r ->
  op_rule (OpUpdate mutate) cur r.
Proof.
  unfold update. intros Hu.
  assert (exists given, option_map (face sp) given = option_map (face sp) cur /\
    match mutate given with
    | (_, None) => Leave Dropped
    | (copy, Some next) =>
        if bool_decide (is_Some cur)
           && (match copy with Some c => seq_of next <? seq_of c | None => false end) then Leave Dropped
        else match clone next with
             | None => Refuse ErrEncode
             | Some next =>
                 Put (with_header ((header next) <| hFailure := clip (hFailure (header next)) MaxFailure |>
                        <| hWriter := writer |> <| hWriterVersion := version |>) next)
             end
    end = Put r) as (given & Hg & Hr).
  { destruct cur as [c |]; [| exists None; by split].
    destruct (clone c) as [g |] eqn:Ec; [| done]. exists (Some g). split; [| exact Hu].
    cbn. by rewrite (clone_face c g Ec). }
  exists given. destruct (mutate given) as [copy [wanted |]] eqn:Em; [| done]. exists copy, wanted.
  destruct (bool_decide (is_Some cur) && _) eqn:Ed; [done |].
  destruct (clone wanted) as [n |] eqn:Ec; [| done]. injection Hr as <-.
  split_and!; [done .. | by apply stamped_next |].
  intros c k -> ->. cbn in Ed. by bools.
Qed.

Lemma refuse_incorporated cur inc c : refuseFact sp cur inc = None -> cur = Some c -> incorporated_fact inc c.
Proof.
  intros Hr -> Ha Hf. unfold refuseFact in Hr. rewrite Ha, Hf in Hr. cbn in Hr.
  destruct (seq_of c <=? inc) eqn:E1; [by bools | done].
Qed.

Lemma withdrawal_rule seq inc now cur rec : withdrawal sp key seq inc now cur = inl (Some rec) ->
  seq_of rec = seq /\ state_of rec = StateWithdrawn /\
  forall c, cur = Some c -> seq_of c < seq /\ incorporated_fact inc c \/ seq_of c = seq /\ is_open c.
Proof.
  unfold withdrawal.
  assert (forall n : R, seq_of (close seq n) = seq /\ state_of (close seq n) = StateWithdrawn) as Hclose.
  { intros n. unfold close, seq_of, state_of. by rewrite !(header_with sp). }
  set (fresh := match refuseFact sp cur inc with Some _ => _ | None => _ end).
  assert (forall r, fresh = inl (Some r) -> seq_of r = seq /\ state_of r = StateWithdrawn /\
    forall c, cur = Some c -> incorporated_fact inc c) as Hfresh.
  { intros r. unfold fresh. destruct (refuseFact sp cur inc) eqn:Er; [done |].
    destruct (keyParts key) as [[uid sub] |]; [| done]. intros [= <-]. split_and!; try apply Hclose.
    intros c. by apply refuse_incorporated. }
  destruct cur as [c |].
  - destruct (seq <? seq_of c) eqn:E1; [done |]. destruct (seq_of c =? seq) eqn:E2; bools.
    + destruct (String.eqb _ _ || _) eqn:E3; [done |]. destruct (clone c); [| done]. intros [= <-].
      split_and!; try apply Hclose. intros c' [= <-]. right. bools. by split_and!.
    + intros Hf. destruct (Hfresh _ Hf) as (Hq & Hs & Hi). split_and!; [done .. |].
      intros c' [= <-]. left. split; [lia | by apply Hi].
  - intros Hf. destruct (Hfresh _ Hf) as (Hq & Hs & _). by split_and!.
Qed.

(** One operation: the others' steps, then one of its own. *)
Definition atomic P b b' : Prop := exists b1, rtc (key_step E) b b1 /\ key_step P b1 b'.

Lemma atomic_quiet P b b1 b' : rtc (key_step E) b b1 -> quiet b1 b' -> atomic P b b'.
Proof. intros Hs Hq. exists b1. split; [done | by left]. Qed.

Lemma loop_atomic P n decide b : kv_ok b ->
  (forall cur next, write_of decide cur next -> P cur next) ->
  wp (attempts sp env clock n 0 key decide) (fun _ => atomic P b) b.
Proof.
  intros Hok HP. eapply wp_mono; [by apply wp_attempts |]. intros res b' (b1 & Hs & Ho).
  exists b1. split; [done |].
  destruct res; [destruct Ho as [[_ Ho] | [Ho _]]; [right | by left] |];
    by (eapply wrote_mono + eapply step_mono).
Qed.

(** A write that ends a call which read the record at [rev]. *)
Lemma wp_write_read P i rev cur rec b b0 : kv_ok b -> linked cur rev b -> rtc (key_step E) b0 b ->
  (forall next, face sp next = face sp rec -> P cur next) ->
  wp (write sp env clock i key rev rec) (fun _ => atomic P b0) b.
Proof.
  intros Hok Hl Hs0 HP. apply wp_put; [done | | |].
  - intros _. by eapply atomic_quiet, untouched.
  - intros b1 b' Hs Hq _. eapply atomic_quiet; [by etransitivity | done].
  - intros b1 b' res Hs Hput _. exists b1. split; [by etransitivity |]. right. by eapply put_over_wrote.
Qed.

Lemma wp_read_write P i rev (k : option R + RecError -> M B (Z + RecError)) b : kv_ok b ->
  (forall e b', wp (k (inr e)) (fun _ b2 => b2 = b') b') ->
  (forall cur b', kv_ok b' -> linked cur rev b' -> rtc (key_step E) b b' ->
     wp (k (inl cur)) (fun _ => atomic P b) b') ->
  wp (bind (at_rev sp env clock i key rev) k) (fun _ => atomic P b) b.
Proof.
  intros Hok Hke Hk. apply wp_bind, wp_at_rev; [done |]. intros b1 b' Hs Hq. split.
  - intros e. eapply wp_mono; [apply Hke |]. intros _ b2 ->. by eapply atomic_quiet.
  - intros cur Hl. assert (rtc (key_step E) b b') as Hs' by (etransitivity; [exact Hs | by apply quiet_step]).
    apply Hk; [by eapply steps_ok | done ..].
Qed.

Lemma request_atomic rev rec inc now b : kv_ok b ->
  wp (Request sp env clock key rev rec inc now) (fun _ => atomic (op_rule (OpRequest rev rec inc now)) b) b.
Proof.
  intros Hok. apply wp_read_write; [done | by intros; apply wp_ret |]. intros cur b' Hok' Hl Hs. cbn beta iota.
  destruct (match cur with Some c => _ | None => false end) eqn:E1;
    [apply wp_ret; by eapply atomic_quiet, untouched |].
  destruct (refuseFact sp cur inc) eqn:E2; [apply wp_ret; by eapply atomic_quiet, untouched |].
  apply (wp_write_read _ _ _ cur); [done .. |].
  intros next Hf. rewrite (carry_face sp) in Hf. apply face_parts in Hf as (Hq & Hst & _).
  unfold seq_of, state_of in Hq, Hst. rewrite !(header_with sp) in Hq, Hst.
  assert (seq_of next = seq_of rec) as Hn by exact Hq.
  split_and!; [done .. |]. intros c Hc. split; [| by eapply refuse_incorporated].
  subst cur. bools. lia.
Qed.

Lemma withdraw_atomic rev seq inc now b : kv_ok b ->
  wp (Withdraw sp env clock key rev seq inc now) (fun _ => atomic (op_rule (OpWithdraw rev seq inc now)) b) b.
Proof.
  intros Hok. apply wp_read_write; [done | by intros; apply wp_ret |]. intros cur b' Hok' Hl Hs. cbn beta iota.
  destruct (withdrawal _ _ _ _ _ _) as [[rec |] |] eqn:Ew;
    [| apply wp_ret; by eapply atomic_quiet, untouched ..].
  apply (wp_write_read _ _ _ cur); [done .. |].
  intros next Hf. apply face_parts in Hf as (Hq & Hst & _).
  apply withdrawal_rule in Ew as (Hq' & Hs' & Hc). split_and!; [congruence .. | exact Hc].
Qed.

Lemma progress_atomic seq state may stamp P b : kv_ok b ->
  (forall h, hSeq (stamp h) = hSeq h /\ hState (stamp h) = hState h) ->
  (forall cur next, seq_of next = seq -> state_of next = state ->
     (exists c, cur = Some c /\ seq_of c = seq /\ is_open c) -> P cur next) ->
  wp (attempts sp env clock CASAttempts 0 key (fun _ => progress sp writer version seq state may stamp))
    (fun _ => atomic P b) b.
Proof.
  intros Hok Hst HP. apply loop_atomic; [done |]. intros cur next (j & rec & Hd & Hf).
  apply progress_rule in Hd as (c & Hc & Hq & Ho & Hq' & Hs); [| done].
  apply face_parts in Hf as (Hn & Hn' & _). apply HP; [congruence .. | eauto].
Qed.

Lemma answer_atomic ans stamp b : kv_ok b ->
  wp (Answer sp env clock writer version key ans stamp) (fun _ => atomic (op_rule (OpAnswer ans stamp)) b) b.
Proof.
  intros Hok. unfold Answer. wp_step; [apply wp_ret; by eapply atomic_quiet, untouched |]. bools.
  apply loop_atomic; [done |]. intros cur next (j & rec & Hd & Hf).
  apply answer_rule in Hd as [Hr Hc]. rewrite Hr in Hf. apply face_parts in Hf as (Hq & Hs & Hfa).
  split_and!; [done .. | congruence | done | exact Hc].
Qed.

Lemma update_decided mutate cur next :
  write_of (fun _ => update writer version mutate) cur next -> op_rule (OpUpdate mutate) cur next.
Proof.
  intros (j & rec & Hd & Hf). apply update_rule in Hd as (given & copy & wanted & Hg & Hm & Hw & Hc).
  exists given, copy, wanted. split_and!; [done | done | congruence | done].
Qed.

Lemma write_decided rec cur next :
  op_rule (OpUpdate (unless_newer rec)) cur next -> op_rule (OpWrite rec) cur next.
Proof.
  cbn. unfold unless_newer. intros (given & copy & wanted & Hg & Hm & Hw & _).
  destruct given as [g |], cur as [c |]; try discriminate Hg.
  - injection Hg as Hg. destruct (seq_of rec <? seq_of g) eqn:E1; [done |]. injection Hm as <- <-. bools.
    apply face_parts in Hw as (Hq & _). split; [done |]. intros c' [= <-]. unfold seq_of in *. lia.
  - injection Hm as <- <-. apply face_parts in Hw as (Hq & _). by split.
Qed.

(** Every operation is one atomic step of its rule. *)
Lemma run_atomic op b : kv_ok b -> atomic (op_rule op) b (snd (run op b)).
Proof.
  intros Hok. assert (wp (run op) (fun _ => atomic (op_rule op) b) b) as W; [| by apply wp_iff in W].
  destruct op; apply wp_bind; (eapply wp_mono; [| intros ? ? Ha; apply wp_ret; exact Ha]).
  - by apply request_atomic.
  - by apply withdraw_atomic.
  - apply progress_atomic; [done .. | by intros].
  - apply progress_atomic; [done .. | by intros].
  - by apply answer_atomic.
  - apply loop_atomic; [done |]. intros cur next (j & r & Hd & Hf).
    apply face_parts in Hf as (Hq & _). cbn. rewrite Hq. by eapply seed_rule.
  - apply loop_atomic; [done | apply update_decided].
  - apply loop_atomic; [done |]. intros cur next Hd. apply write_decided. by apply update_decided.
Qed.

(** ** What a history keeps *)

(** A key holds one record, whenever it holds any. *)
Lemma view_once b t t' c n : kv_ok b -> view t b = Some c -> view t' b = Some n -> n = c.
Proof.
  unfold view. intros Hok Hc Hn.
  destruct (kv_at t b key) as [[r v] |] eqn:Ec; [| done].
  destruct (kv_at t' b key) as [[r' v'] |] eqn:En; [| done].
  assert (kv_evolves b b) as Hr by apply kv_evolves_pre.
  destruct (kv_revision b b t t' key r v r' v' Hok Hr Ec En) as [H1' H2'].
  destruct (kv_revision b b t' t key r' v' r v Hok Hr En Ec) as [H3' _].
  rewrite (H2' ltac:(lia)) in Hn. congruence.
Qed.

Lemma wrote_view P b b' t n : kv_ok b -> wrote P b b' -> view t b' = Some n ->
  exists now, P (view now b) n.
Proof.
  intros Hok (now & cond & s & next & He & (_ & _ & rev & Hat & _) & Hr & HP) Hn. exists now.
  assert (view now b' = Some next) as Hv by (unfold view; by rewrite Hat).
  rewrite (view_once b' now t next n); [done | by eapply kv_evolves_ok | done ..].
Qed.

Lemma steps_keep P (I : R -> Prop) b b' :
  (forall cur next, P cur next -> exists c, cur = Some c /\ (I c -> I next)) ->
  rtc (key_step P) b b' -> kv_ok b -> (forall t n, view t b = Some n -> I n) ->
  forall t n, view t b' = Some n -> I n.
Proof.
  intros HP. induction 1 as [b | b b1 b2 Hs _ IH]; [done |]. intros Hok HI.
  apply IH; [eapply kv_evolves_ok; [by eapply step_evolves | done] |].
  intros t n Hn. destruct Hs as [[_ Hq] | Hw].
  - unfold view in *. destruct (Hq t) as [Hq' | Hq']; rewrite Hq' in Hn; [by eapply HI | done].
  - destruct (wrote_view _ _ _ _ _ Hok Hw Hn) as [now Hp].
    destruct (HP _ _ Hp) as (c & Hc & Hi). by eapply Hi, HI.
Qed.
End Steps.
