(* ===== verification/RecordsSafe.v ===== *)
(** * The record protocol's promises

    Theorems of [Records] over any bucket of the interface: each operation is
    atomic, and what a history of them keeps; and their witnesses over the
    in-memory one. *)

From S2P Require Import Prelude GoLang GoFacts Api Events KV Records RecordsFacts.
From Stdlib Require Import Ascii.

Open Scope monad_scope.

(** ** A record type: the header alone, written as the digits of its code *)

Fixpoint bits (p : positive) : string :=
  match p with
  | xH => "." 
  | xO q => String "0" (bits q)
  | xI q => String "1" (bits q)
  end.

Fixpoint unbits (s : string) : option positive :=
  match s with
  | String a s' =>
      if Ascii.eqb a "." then Some xH
      else option_map (if Ascii.eqb a "0" then xO else xI) (unbits s')
  | EmptyString => None
  end.

Lemma unbits_bits p : unbits (bits p) = Some p.
Proof. induction p as [p IH | p IH |]; cbn; by rewrite ?IH. Qed.

Definition Ref_parts (r : Ref) : string * string * string := (refNamespace r, refName r, refUID r).
#[export] Instance Ref_countable : Countable Ref.
Proof. by refine (inj_countable' Ref_parts (fun '(ns, n, u) => mkRef ns n u) _); intros []. Defined.
#[export] Instance ItemRef_countable : Countable ItemRef.
Proof. by refine (inj_countable' (fun i => (irKind i, irRef i)) (fun '(k, r) => mkItemRef k r) _); intros []. Defined.
#[export] Instance Header_eq_dec : EqDecision Header.
Proof. solve_decision. Defined.
#[export] Instance Header_countable : Countable Header.
Proof.
  refine (inj_countable'
    (fun h => ((hSchema h, hMediaFile h, hItem h, hSub h, hSeq h), (hState h, hRequestedAt h, hClaimedAt h),
       (hDeferredUntil h, hAnsweredAt h, hWriter h), (hWriterVersion h, hFailure h, hTransient h, hFailures h)))
    (fun '((a, b, c, d, e), (f, g, i), (j, k, l), (m, n, o, p)) => mkHeader a b c d e f g i j k l m n o p) _).
  by intros [].
Defined.

Definition header_record : RecordType Header := {|
  header := id;
  with_header := fun h _ => h;
  encode := fun h => Some (bits (countable.encode h));
  decode := fun s => match unbits s with Some p => countable.decode p | None => None end;
|}.

(** A spec whose answers all changed the disk. *)
Definition blank : Header :=
  mkHeader "" (mkRef "" "" "") None "" 0 "" 0 None None None "" "" "" false 0.
Definition ex_spec : Spec Header :=
  mkSpec "records.example.v1" 0 blank None (Some (fun h => String.eqb (hState h) StateAnswered)) None None.

#[export] Instance ex_laws : @SpecLaws Header header_record ex_spec.
Proof.
  split; try done.
  - intros r s. cbn. intros [= <-]. split; [by destruct (countable.encode r) |].
    exists r. by rewrite unbits_bits, countable.decode_encode.
  - intros h r Hs. unfold is_fact, state_of in *. cbn in *. by rewrite Hs.
  - intros h r Hm Hs. unfold keyOf. cbn in *. by rewrite Hm, Hs.
Qed.

(** ** The theorems *)

(** C6.  Each operation of the protocol is atomic, whatever others do meanwhile:
    a request, a withdrawal, a claim, a deferral, an answer, a seed, an update
    or a write comes to the others' steps and then, at its end, at most one
    write, over the record stored at that moment, as its rule allows.  A
    request never replaces a record at or above its sequence number, nor,
    unless the caller has incorporated it, an answer that changed the disk; a
    claim and a deferral write only over an open record at theirs; an answer
    never over another at its own, and over a withdrawal only when it changed
    the disk. *)
Theorem operations_atomic {B R : Type} `{KVLaws B} `{RecordType R} (sp : Spec R) `{!SpecLaws sp}
    (key : string) (env : nat -> B -> B) (clock : nat -> Time) (E : option R -> R -> Prop)
    (writer version : string) (op : Op (R := R)) (b : B) :
  (forall i b0, kv_ok b0 -> rtc (key_step sp key E) b0 (env i b0)) -> kv_ok b ->
  exists b1, rtc (key_step sp key E) b b1 /\
    key_step sp key (op_rule sp op) b1 (snd (run sp key env clock writer version op b)).
Proof. intros He Hok. by apply run_atomic. Qed.

(** The operations of the loop and of the workers that answer it. *)
Definition remediates {R} (op : Op (R := R)) : Prop :=
  match op with OpSeed _ _ | OpUpdate _ | OpWrite _ => False | _ => True end.

(** An update whose [mutate] leaves the sequence number of the copy it is given. *)
Definition honest {R} `{RecordType R} (op : Op (R := R)) : Prop :=
  match op with
  | OpUpdate mutate => forall g, exists k, fst (mutate (Some g)) = Some k /\ seq_of k = seq_of g
  | _ => True
  end.

(** A history of a key: writes each made by an operation over a record that was
    still there, in any interleaving. *)
Definition key_history {B R : Type} `{KV B} `{RecordType R} (sp : Spec R) (key : string)
    (allowed : Op (R := R) -> Prop) : B -> B -> Prop :=
  rtc (key_step sp key (fun cur next => is_Some cur /\ exists op, allowed op /\ op_rule sp op cur next)).

Section History.
Context {B R : Type} `{KVLaws B} `{RecordType R} (sp : Spec R).

Lemma rule_seq op c n : honest op -> op_rule sp op (Some c) n -> seq_of c <= seq_of n.
Proof.
  destruct op; cbn; intros Hh Hr.
  - destruct Hr as (_ & _ & Hc). destruct (Hc c eq_refl). lia.
  - destruct Hr as (-> & _ & Hc). destruct (Hc c eq_refl) as [[? _] | [? _]]; lia.
  - destruct Hr as (-> & _ & c' & [= <-] & ? & _). lia.
  - destruct Hr as (-> & _ & c' & [= <-] & ? & _). lia.
  - destruct Hr as (-> & _ & _ & _ & Hc). destruct (Hc c eq_refl) as [? | [? _]]; lia.
  - lia.
  - destruct Hr as ([g |] & copy & wanted & Hg & Hm & Hf & Hc); [| done]. injection Hg as Hg.
    destruct (Hh g) as (k & Hk & Hq). rewrite Hm in Hk. cbn in Hk.
    specialize (Hc c k eq_refl Hk). unfold face, seq_of in *. injection Hf as -> _ _ _. lia.
  - destruct Hr as [-> Hc]. by apply Hc.
Qed.

Lemma rule_answered op c n : remediates op -> answered sp (state_of c) = true ->
  op_rule sp op (Some c) n -> seq_of c < seq_of n.
Proof.
  unfold op_rule, is_open. destruct op; try done; intros _ Ha Hr.
  - destruct Hr as (_ & _ & Hc). by destruct (Hc c eq_refl).
  - destruct Hr as (-> & _ & Hc). destruct (Hc c eq_refl) as [[? _] | (_ & _ & ?)]; [done | congruence].
  - destruct Hr as (_ & _ & c' & [= <-] & _ & _ & ?). congruence.
  - destruct Hr as (_ & _ & c' & [= <-] & _ & _ & ?). congruence.
  - destruct Hr as (-> & _ & _ & _ & Hc). destruct (Hc c eq_refl) as [? | (_ & ? & _)]; [done | congruence].
Qed.

Lemma history_keeps key allowed (I : R -> Prop) b b' t c : kv_ok b -> view sp key t b = Some c -> I c ->
  (forall op x n, allowed op -> op_rule sp op (Some x) n -> I x -> I n) ->
  key_history sp key allowed b b' -> forall t' n, view sp key t' b' = Some n -> I n.
Proof.
  intros Hok Hc HI Hrule Hh. eapply steps_keep; [| exact Hh | exact Hok |].
  - intros cur next ([x ->] & op & Ha & Hr). exists x. split; [done |]. by eapply Hrule.
  - intros t' n Hn. by rewrite (view_once sp key b t t' c n Hok Hc Hn).
Qed.
End History.

(** What the code does to a bucket, as far as the record at [key] goes: calls of
    the loop's and the workers' operations, one after another, each with the
    calls of others running between its own; and whatever leaves the key alone
    or retires its record. *)
Inductive code_history {B R : Type} `{KVLaws B} `{RecordType R} (sp : Spec R) (key : string) : B -> B -> Prop :=
| history_none b : code_history sp key b b
| history_aside b b1 b' : quiet key b b1 -> code_history sp key b1 b' -> code_history sp key b b'
| history_call b b' env clock writer version op :
    remediates op -> (forall i b0, kv_ok b0 -> code_history sp key b0 (env i b0)) ->
    code_history sp key (snd (run sp key env clock writer version op b)) b' -> code_history sp key b b'.

(** Somewhere on the way a record was made where the key held none. *)
Definition remade {B R : Type} `{KVLaws B} `{RecordType R} (sp : Spec R) (key : string) (b b' : B) : Prop :=
  exists b1 b2, rtc (key_step sp key (fun _ _ => True)) b b1 /\ wrote sp key (fun cur _ => cur = None) b1 b2 /\
    rtc (key_step sp key (fun _ _ => True)) b2 b'.

Section Code.
Context {B R : Type} `{KVLaws B} `{RecordType R} (sp : Spec R) `{!SpecLaws sp} (key : string).

Local Abbreviation by_rule := (fun cur next => exists op : Op (R := R), remediates op /\ op_rule sp op cur next).

Lemma code_steps b b' : code_history sp key b b' -> kv_ok b -> rtc (key_step sp key by_rule) b b'.
Proof using All.
  induction 1 as [b | b b1 b' Hq _ IH | b b' env clock writer version op Hop _ IHenv _ IH]; intros Hok; [reflexivity | |].
  - assert (key_step sp key by_rule b b1) as Hs by by left. eapply rtc_l; [exact Hs |]. apply IH.
    eapply kv_evolves_ok; [by eapply step_evolves | done].
  - destruct (run_atomic sp key env clock by_rule (fun i b0 H => IHenv i b0 H H) writer version op b Hok) as (b1 & Hs1 & Hs2).
    assert (rtc (key_step sp key by_rule) b (snd (run sp key env clock writer version op b))) as Hb.
    { eapply rtc_r; [exact Hs1 |]. eapply step_mono; [| exact Hs2]. intros cur next Hr. by exists op. }
    etransitivity; [exact Hb |]. apply IH. by eapply steps_ok.
Qed.

Lemma steps_remade b b' : rtc (key_step sp key by_rule) b b' -> key_history sp key remediates b b' \/ remade sp key b b'.
Proof.
  induction 1 as [b | b b1 b2 Hs Hr IH]; [left; apply rtc_refl |].
  assert (key_step sp key (fun _ _ => True) b b1) as Hany by by eapply step_mono; [| exact Hs].
  destruct IH as [IH | (x & y & Hx & Hw & Hy)].
  2: { right. exists x, y. split; [| done]. by eapply rtc_l. }
  destruct Hs as [Hq | (now & cond & s & next & He & Hk & Hd & HP)]; [left; eapply rtc_l; [by left | exact IH] |].
  destruct (view sp key now b) as [c |] eqn:Ev.
  - left. eapply rtc_l; [| exact IH]. right. exists now, cond, s, next. rewrite Ev. split; [done |]. split; [done |]. split; [done |]. by split; [exists c |].
  - right. exists b, b1. split_and!; [reflexivity | by exists now, cond, s, next |].
    eapply rtc_subrel; [| exact Hr]. intros u v Hu. by eapply step_mono; [| exact Hu].
Qed.
End Code.


(** Sequence numbers never fall: whatever operations interleave on a key,
    seeds and an agent's own writes included, while its record is not retired,
    the record stored later has no lower sequence number.  An update counts if
    its [mutate] leaves alone the sequence number of the copy it is given. *)
Theorem seq_never_falls {B R : Type} `{KVLaws B} `{RecordType R} (sp : Spec R) (key : string)
    (b b' : B) t t' (c n : R) :
  kv_ok b -> view sp key t b = Some c -> key_history sp key honest b b' -> view sp key t' b' = Some n ->
  seq_of c <= seq_of n.
Proof.
  intros Hok Hc Hh Hn. eapply (history_keeps sp key honest (fun n => seq_of c <= seq_of n));
    [exact Hok | exact Hc | lia | | exact Hh | exact Hn].
  intros op x n' Hop Hr Hx. pose proof (rule_seq sp op x n' Hop Hr). lia.
Qed.

(** What a worker's verdict means: [Wrote], the record stored is the
    answer; [Dropped], it is of a later sequence number, or of the answer's and
    either answered already or withdrawn, the answer being no fact;
    [DroppedFact], the answer is a fact and the record of a later sequence
    number.  There is no other verdict, and a state that is no answer is an
    error before the bucket is touched. *)
Theorem answer_verdict {B R : Type} `{KVLaws B} `{RecordType R} (sp : Spec R) `{!SpecLaws sp}
    (key : string) (env : nat -> B -> B) (clock : nat -> Time) (writer version : string)
    (ans : R) (stamp : nat -> Time) (b : B) :
  (forall i b0, kv_ok b0 -> rtc (key_step sp key (fun _ _ => True)) b0 (env i b0)) -> kv_ok b ->
  (answered sp (state_of ans) = false ->
     Answer sp env clock writer version key ans stamp b = (inr ErrState, b)) /\
  let '(res, b') := Answer sp env clock writer version key ans stamp b in
  match res with
  | inl Wrote => exists t n, view sp key t b' = Some n /\ face sp n = face sp ans
  | inl NotYet => False
  | inl Dropped => exists t c, view sp key t b' = Some c /\
      (seq_of ans < seq_of c /\ is_fact sp ans = false \/
       seq_of c = seq_of ans /\ (answered sp (state_of c) = true \/
         state_of c = StateWithdrawn /\ is_fact sp ans = false))
  | inl DroppedFact => exists t c, view sp key t b' = Some c /\ seq_of ans < seq_of c /\ is_fact sp ans = true
  | inr _ => True
  end.
Proof.
  intros He Hok. split; [unfold Answer; by intros -> |]. apply wp_let. unfold Answer.
  destruct (negb (answered sp (state_of ans))) eqn:Ea; [by apply wp_ret |].
  eapply wp_mono; [by apply (wp_attempts sp key env clock _ He) |].
  intros [v | e] b' (b1 & _ & Ho); [| done].
  destruct Ho as [[-> (now & cond & s & n & _ & (_ & _ & rev & Hat & _) & Hr & j & rec & Hd & Hf)] |
                    (_ & j & t & Hd)].
  - exists now, n. split; [unfold view; by rewrite Hat |]. apply answer_rule in Hd as [Hr' _]; [congruence | done].
  - unfold answer in Hd. destruct (view sp key t b') as [c |] eqn:Ev; [| by destruct (clone ans)].
      destruct (seq_of ans <? seq_of c) eqn:E1; bools.
      { destruct (is_fact sp ans) eqn:Ef; injection Hd as <-; exists t, c; auto. }
      destruct ((seq_of c =? seq_of ans) && answered sp (state_of c)) eqn:E2; bools.
      { injection Hd as <-. exists t, c. auto. }
      destruct (_ && negb (is_fact sp ans)) eqn:E3; bools; [| by destruct (clone ans)].
      injection Hd as <-. exists t, c. auto 6.
Qed.

(** *** Without contention *)

Section Alone.
Context {B R : Type} `{KVLaws B} `{RecordType R} (sp : Spec R) (key : string) (t : Time).
Local Abbreviation alone := (fun (_ : nat) (b : B) => b).

Lemma write_alone i rev rec b : kv_ok b -> over key t rev b ->
  wp (write sp alone (fun _ => t) i key rev rec) (fun res _ => res <> inr ErrRaced) b.
Proof.
  intros Hok Hov. unfold write, interfere. repeat (wp_step; [apply wp_ret; discriminate |]).
  destruct (encode _) as [s |]; [| by apply wp_ret].
  wp_step; [by apply wp_ret |]. apply wp_bind, wp_modify, wp_bind, wp_iff.
  match goal with |- context [fst (?m b)] => set (call := m) end.
  assert (let '(res, b') := call b in kv_cas t key s (over key t rev b) b res b') as S.
  { unfold call, over. destruct (rev =? 0); [by apply kv_create_spec | by apply kv_update_spec]. }
  destruct (call b) as [res b']. destruct S as [_ S]. apply wp_ret. cbn.
  destruct res as [? | []]; try discriminate; by destruct S.
Qed.

Lemma get_alone i b (Q : option R * Z + RecError -> B -> Prop) : kv_ok b ->
  (forall e b', Q (inr (ErrStore e)) b') ->
  (forall cur rev b', kv_ok b' -> over key t rev b' -> Q (inl (cur, rev)) b') ->
  wp (get sp alone (fun _ => t) i key) Q b.
Proof.
  intros Hok HQe HQ. unfold get, interfere. apply wp_bind, wp_modify, wp_bind, wp_iff.
  pose proof (kv_get_spec t key b) as G. destruct (kv_get t key b) as [res b']. destruct G as (He & Hs & G).
  assert (kv_at t b' key = kv_at t b key) as Hat by (destruct (Hs key t) as [? | [? _]]; [done | lia]).
  pose proof (kv_evolves_ok b b' He Hok) as Hok'. apply wp_ret. cbn.
  destruct res as [e | []]; auto; apply HQ; try done; unfold over; rewrite Hat; [| done].
  destruct G as [_ G]. rewrite (proj2 (Z.eqb_neq _ 0)); eauto using kv_positive.
Qed.
End Alone.

(** A loop that nobody disturbs ends at its first attempt, and never says
    it was raced: with no one else writing between its calls, and no record
    lapsing between them, every claim, deferral, answer, seed and update is
    decided. *)
Theorem undisturbed_decides {B R : Type} `{KVLaws B} `{RecordType R} (sp : Spec R) (key : string)
    (t : Time) (n : nat) (decide : nat -> option R -> Choice (R := R)) (b : B) :
  kv_ok b -> (forall j cur, decide j cur <> Refuse ErrRaced) ->
  fst (attempts sp (fun _ b => b) (fun _ => t) (S n) 0 key decide b) <> inr ErrRaced.
Proof.
  intros Hok Hd.
  assert (wp (attempts sp (fun _ b => b) (fun _ => t) (S n) 0 key decide) (fun res _ => res <> inr ErrRaced) b)
    as W; [| by apply wp_iff in W].
  cbn [attempts]. apply wp_bind, get_alone; [done | intros; by apply wp_ret |].
  intros cur rev b' Hok' Hov. pose proof (Hd 0%nat cur) as Hc.
  destruct (decide 0%nat cur) as [v | next | e]; [by apply wp_ret | | apply wp_ret; congruence].
  apply wp_bind. eapply wp_mono; [by apply write_alone |].
  intros [r | []] b2 Hr; try done; by apply wp_ret.
Qed.

(** ** Keys *)

(** A records key names one pair of tokens, and [keyParts] reads it back:
    exactly the keys [RecordKey] and [RecordSubKey] build are read, the first
    as an empty sub-key. *)
Theorem keyParts_spec (key uid sub : string) :
  keyParts key = Some (uid, sub) <-> key = RecordSubKey uid sub \/ sub = "" /\ key = RecordKey uid.
Proof.
  unfold keyParts, RecordSubKey, RecordKey. split.
  - destruct (Cut "." key) as [[a c] two] eqn:Ec. destruct (ParseKVKeyToken a) as [u |] eqn:Ea; [| done].
    apply Parse_is_KVKeyToken in Ea. apply Cut_inv in Ec. destruct two.
    + destruct (ParseKVKeyToken c) as [s |] eqn:Eb; [| done]. apply Parse_is_KVKeyToken in Eb.
      intros [= <- <-]. left. by rewrite Ec, Ea, Eb.
    + intros [= <- <-]. right. split; [done |]. destruct Ec as [-> _]. done.
  - intros [-> | [-> ->]].
    + change ("." +:+ KVKeyToken sub) with (String "." (KVKeyToken sub)).
      rewrite (Cut_sep "." (KVKeyToken uid) (KVKeyToken sub)) by by apply token_no_sep.
      by rewrite !Parse_KVKeyToken.
    + rewrite Cut_last by by apply token_no_sep. by rewrite Parse_KVKeyToken.
Qed.

(** ** Witnesses over the in-memory bucket *)

Section Example.
#[local] Existing Instance header_record.

Definition ex_rkey : string := RecordKey "film".
Definition ex_record (seq : Z) (state : string) : Header :=
  blank <| hSchema := spSchema ex_spec |> <| hMediaFile := mkRef "" "" "film" |> <| hSeq := seq |>
        <| hState := state |>.
Definition ex_value (r : Header) : string := default "" (encode r).
Definition ex_empty : bucket := mkBucket "clustarr-example" 0 0 ∅ [] 0.

(** The bucket once [r] is stored in it. *)
Definition ex_stored (r : Header) : bucket := snd (Create None 1 ex_rkey (ex_value r) 0 ex_empty).

(** A worker that answers at sequence number 5, undisturbed. *)
Definition ex_answer : Op (R := Header) := OpAnswer (ex_record 5 StateAnswered) (fun _ => 3).
Definition ex_worker (b : bucket) : bucket := snd (run ex_spec ex_rkey (fun _ b => b) (fun _ => 3) "pod" "v1" ex_answer b).

Lemma empty_ok : kv_ok ex_empty.
Proof. split; [done |]. apply map_Forall_empty. Qed.

Lemma stored_ok r : kv_ok (ex_stored r).
Proof.
  pose proof (kv_create_spec 1 ex_rkey (ex_value r) ex_empty empty_ok) as S.
  unfold ex_stored. change (Create None 1 ex_rkey (ex_value r) 0 ex_empty) with
    (kv_create 1 ex_rkey (ex_value r) ex_empty).
  destruct (kv_create _ _ _ _) as [res b']. destruct S as [He _].
  apply He, empty_ok.
Qed.

Lemma ex_worker_steps b : kv_ok b -> rtc (key_step ex_spec ex_rkey (op_rule ex_spec ex_answer)) b (ex_worker b).
Proof.
  intros Hok. destruct (run_atomic ex_spec ex_rkey (fun _ b => b) (fun _ => 3)
    (op_rule ex_spec ex_answer) (fun _ _ _ => rtc_refl _ _) "pod" "v1" ex_answer b Hok) as (b1 & Hs & H1).
  by eapply rtc_r.
Qed.

(** An update that lands is a step. *)
Lemma update_step (P : option Header -> Header -> Prop) now rev r (b b' : bucket) cur next : kv_ok b ->
  KV.Update None now ex_rkey (ex_value next) rev b = (inl r, b') ->
  reads ex_spec ex_rkey (ex_value next) = Some next -> view ex_spec ex_rkey now b = cur ->
  P cur next -> key_step ex_spec ex_rkey P b b'.
Proof.
  intros Hok Hu Hr Hv HP. pose proof (kv_update_spec now ex_rkey (ex_value next) rev b Hok) as S.
  change (kv_update now ex_rkey (ex_value next) rev b) with (KV.Update None now ex_rkey (ex_value next) rev b) in S.
  rewrite Hu in S. destruct S as [He Hw]. right. exists now, (exists v0, kv_at now b ex_rkey = Some (rev, v0)).
  exists (ex_value next), next. subst cur. by split_and!.
Qed.

(** The loop asks for 6 over the request for 5 it read, while a worker answers
    that: the request is raced. *)
Lemma operations_atomic_witness :
  let env i b := if (i =? 1)%nat then ex_worker b else b in
  let op := OpRequest 1 (ex_record 6 StateRequested) 0 4 in
  let b := ex_stored (ex_record 5 StateRequested) in
  fst (Request ex_spec env (fun _ => 4) ex_rkey 1 (ex_record 6 StateRequested) 0 4 b) = inr ErrRaced /\
  exists b1, rtc (key_step ex_spec ex_rkey (op_rule ex_spec ex_answer)) b b1 /\
    key_step ex_spec ex_rkey (op_rule ex_spec op) b1 (snd (run ex_spec ex_rkey env (fun _ => 4) "" "" op b)).
Proof.
  intros env op b. split; [vm_compute; reflexivity |].
  apply (operations_atomic ex_spec ex_rkey env (fun _ => 4)); [| apply stored_ok].
  intros i b0 Hok. unfold env. destruct (i =? 1)%nat; [by apply ex_worker_steps | reflexivity].
Defined.

Definition ex_answered : bucket := ex_stored (ex_record 5 StateAnswered).
Definition ex_asked : bucket :=
  snd (KV.Update None 2 ex_rkey (ex_value (ex_record 6 StateRequested)) 1 ex_answered).

Lemma ex_history allowed : allowed (OpRequest 1 (ex_record 6 StateRequested) 5 2) ->
  key_history ex_spec ex_rkey allowed ex_answered ex_asked.
Proof.
  intros Ha. apply rtc_once.
  eapply (update_step _ 2 1 2 _ _ (Some (ex_record 5 StateAnswered)) (ex_record 6 StateRequested));
    [apply stored_ok | | vm_compute; reflexivity | vm_compute; reflexivity |].
  - unfold ex_asked. rewrite (surjective_pairing (KV.Update _ _ _ _ _ _)) at 1. f_equal.
  - split; [done |]. exists (OpRequest 1 (ex_record 6 StateRequested) 5 2). split; [exact Ha |].
    split_and!; [done .. |]. by intros c [= <-].
Qed.

(** The loop, its answer incorporated, asks again: one call, undisturbed. *)
Definition ex_again : bucket :=
  snd (run ex_spec ex_rkey (fun _ b => b) (fun _ => 2) "" "" (OpRequest 1 (ex_record 6 StateRequested) 5 2) ex_answered).

(** As it is stored: stamped. *)
Definition ex_next : Header := (ex_record 6 StateRequested) <| hRequestedAt := 2 |>.


Lemma seq_never_falls_witness :
  view ex_spec ex_rkey 2 ex_asked = Some (ex_record 6 StateRequested) /\
  seq_of (ex_record 5 StateAnswered) <= seq_of (ex_record 6 StateRequested).
Proof.
  assert (view ex_spec ex_rkey 2 ex_asked = Some (ex_record 6 StateRequested)) as Hv by (vm_compute; reflexivity).
  split; [exact Hv |].
  apply (seq_never_falls ex_spec ex_rkey ex_answered ex_asked 2 2 (ex_record 5 StateAnswered) (ex_record 6 StateRequested)).
  - apply stored_ok.
  - vm_compute; reflexivity.
  - by apply ex_history.
  - exact Hv.
Defined.

(** A second answer at 5 finds the first one there. *)
Lemma answer_verdict_witness :
  let env i b := if (i =? 1)%nat then ex_worker b else b in
  let ans := ex_record 5 StateFailed in
  let m := Answer ex_spec env (fun _ => 4) "late" "v1" ex_rkey ans (fun _ => 4) (ex_stored (ex_record 5 StateRequested)) in
  fst m = inl Dropped /\
  exists t c, view ex_spec ex_rkey t (snd m) = Some c /\
    (seq_of ans < seq_of c /\ is_fact ex_spec ans = false \/
     seq_of c = seq_of ans /\ (answered ex_spec (state_of c) = true \/
       state_of c = StateWithdrawn /\ is_fact ex_spec ans = false)).
Proof.
  intros env ans m. assert (fst m = inl Dropped) as Hm by (vm_compute; reflexivity). split; [exact Hm |].
  assert (forall i b0, kv_ok b0 -> rtc (key_step ex_spec ex_rkey (fun _ _ => True)) b0 (env i b0)) as He.
  { intros i b0 Hok. unfold env. destruct (i =? 1)%nat; [| reflexivity].
    eapply rtc_subrel; [| by apply ex_worker_steps]. intros x y Hs. by eapply step_mono; [| exact Hs]. }
  pose proof (answer_verdict ex_spec ex_rkey env (fun _ => 4) "late" "v1" ans (fun _ => 4)
    (ex_stored (ex_record 5 StateRequested)) He (stored_ok _)) as [_ V].
  fold m in V. rewrite (surjective_pairing m), Hm in V. exact V.
Defined.

Lemma undisturbed_decides_witness :
  fst (attempts ex_spec (fun _ b => b) (fun _ => 4) 1 0 ex_rkey (fun _ => seed ex_spec "pod" "v1" (ex_record 5 StateAnswered) None)
    (ex_stored (ex_record 5 StateRequested))) <> inr ErrRaced.
Proof.
  apply (undisturbed_decides ex_spec ex_rkey 4 0); [apply stored_ok |].
  intros j cur. discriminate.
Defined.

(** [Update]'s check against the stored sequence number reads the copy it gave
    to [mutate]: one that lowers the number in place, and returns the copy, is
    not dropped. *)
Lemma update_lowers_seq :
  let lower (r : Header) := r <| hSeq := 3 |> in
  let m := Update ex_spec (fun _ b => b) (fun _ => 4) "pod" "v1" ex_rkey
    (fun cur => (option_map lower cur, option_map lower cur)) (ex_stored (ex_record 5 StateRequested)) in
  fst m = inl Wrote /\ option_map seq_of (view ex_spec ex_rkey 4 (snd m)) = Some 3.
Proof. split; vm_compute; reflexivity. Qed.
End Example.
