(* ===== verification/Pacer.v ===== *)
(** * Pacer: the admission queue over new requests

    src/pkg/records/pacer.go.  The mutex makes each method atomic; [now] is the
    reading of its clock.  A map absent from [held] and a nil one are the same
    to it. *)

From S2P Require Import Prelude GoLang.
From Stdlib Require Import Ascii Sorted.

Open Scope monad_scope.

Definition PaceProbeLow : string := "probe/low".
Definition PaceSubtitle : string := "subtitle".
Definition PaceMarkers : string := "markers".
Definition PaceSearch : string := "search".
Definition ReservationLapse : Duration := 10 * Minute.

Definition DefaultRates : list (string * Z) :=
  [(PaceProbeLow, 600); (PaceSubtitle, 120); (PaceMarkers, 120); (PaceSearch, 20)].

Definition SearchClass (namespace : string) : string := PaceSearch +:+ "/" +:+ namespace.

Record Pacer := mkPacer {
  pcEvery : gmap string Duration;
  pcNext : gmap string Time;
  pcHeld : gmap string (gmap string Time);
  pcSwept : gmap string Time;
}.

#[export] Instance eta_Pacer : Eta Pacer := fun p => mkPacer (pcEvery p) (pcNext p) (pcHeld p) (pcSwept p).
#[export] Instance set_pcNext : Setter pcNext. Proof. derive_setter. Defined.
#[export] Instance set_pcHeld : Setter pcHeld. Proof. derive_setter. Defined.
#[export] Instance set_pcSwept : Setter pcSwept. Proof. derive_setter. Defined.

(** [NewPacer]: [perMinute] as the pairs its range visits, one class of it. *)
Definition pace_class (p : Pacer) (c : string * Z) : Pacer :=
  let '(class, n) := c in
  if 0 <? n then mkPacer (<[class := Z.quot Minute n]> (pcEvery p)) (pcNext p)
                         (<[class := ∅]> (pcHeld p)) (pcSwept p)
  else p.

Definition NewPacer (perMinute : list (string * Z)) : Pacer := fold_left pace_class perMinute (mkPacer ∅ ∅ ∅ ∅).

Definition rate (p : Pacer) (class : string) : option Duration :=
  match pcEvery p !! class with
  | Some every => Some every
  | None => let '(prefix, _, ok) := Cut "/" class in if ok then pcEvery p !! prefix else None
  end.

(** [p.held[class]]. *)
Definition held (p : Pacer) (class : string) : gmap string Time := default ∅ (pcHeld p !! class).

Definition sweepLocked (class : string) (now : Time) : M Pacer unit :=
  swept <- gets (fun p => default 0 (pcSwept p !! class));;
  if Sub now swept <? Minute then ret tt
  else
    modify (fun p => p <| pcSwept ::= <[class := now]> |>);;
    modify (fun p => p <| pcHeld ::= alter (filter (fun '(_, slot) => Before now (Add slot ReservationLapse) = true)) class |>).

(** The end of [Reserve]: the class's next free slot, from then on [key]'s. *)
Definition grant (every : Duration) (now : Time) (class key : string) : M Pacer Time :=
  slot <- gets (fun p => Z.max (default 0 (pcNext p !! class)) now);;
  modify (fun p => p <| pcNext ::= <[class := Add slot every]> |>);;
  modify (fun p => p <| pcHeld ::= alter <[key := slot]> class |>);;
  ret slot.

Definition Reserve (now : Time) (class key : string) : M Pacer Time :=
  every <- gets (fun p => rate p class);;
  match every with
  | None => ret now
  | Some every =>
      sweepLocked class now;;
      modify (fun p => p <| pcHeld ::= <[class := held p class]> |>);;
      mine <- gets (fun p => held p class !! key);;
      match mine with
      | Some slot =>
          if Before now (Add slot ReservationLapse) then ret slot
          else modify (fun p => p <| pcHeld ::= alter (delete key) class |>);; grant every now class key
      | None => grant every now class key
      end
  end.

Definition Consume (class key : string) : M Pacer unit :=
  modify (fun p => p <| pcHeld ::= alter (delete key) class |>).

(** ** What the methods do *)

Section Methods.
Implicit Types p : Pacer.

Lemma rate_every p p' class : pcEvery p' = pcEvery p -> rate p' class = rate p class.
Proof. intros E. unfold rate. by rewrite E. Qed.

(** A reservation that has not lapsed. *)
Definition valid (now slot : Time) : Prop := Before now (Add slot ReservationLapse) = true.

(** [p'] is [p] less some reservations, none of them one [now] still holds. *)
Definition drops (now : Time) (class : string) p p' : Prop :=
  pcEvery p' = pcEvery p /\ pcNext p' = pcNext p /\
  (forall c, held p' c ⊆ held p c) /\
  (forall c k slot, held p c !! k = Some slot -> c <> class \/ valid now slot -> held p' c !! k = Some slot).

(** [p'] is [p] where [key] now has [slot], and no one another slot than before. *)
Definition grants (class key : string) (slot : Time) (every : Duration) p p' : Prop :=
  pcEvery p' = pcEvery p /\ pcNext p' = <[class := slot + every]> (pcNext p) /\
  held p' class = <[key := slot]> (held p class) /\ (forall c, c <> class -> held p' c = held p c).

Lemma drops_refl now class p : drops now class p p.
Proof. unfold drops. by split_and!. Qed.

Lemma drops_trans now class p1 p2 p3 : drops now class p1 p2 -> drops now class p2 p3 -> drops now class p1 p3.
Proof.
  intros (E1 & N1 & S1 & K1) (E2 & N2 & S2 & K2). unfold drops. split_and!; [congruence .. | |].
  - intros c. by transitivity (held p2 c).
  - intros c k slot Hs Hv. apply K2; [by apply K1 | done].
Qed.

Lemma sweep_drops now class p : drops now class p (snd (sweepLocked class now p)).
Proof.
  unfold sweepLocked. cbn. case_match; [apply drops_refl |]. unfold drops. split_and!; [done .. | |]; unfold held; cbn.
  - intros c. destruct (decide (class = c)) as [<- | Hc]; [| by rewrite lookup_alter_ne].
    rewrite lookup_alter_eq. destruct (pcHeld p !! class); [| done]. apply map_filter_subseteq.
  - intros c k slot Hs Hv. destruct (decide (class = c)) as [<- | Hc]; [| by rewrite lookup_alter_ne].
    rewrite lookup_alter_eq. destruct (pcHeld p !! class); [| done]. cbn in *.
    apply map_lookup_filter_Some_2; [done | by destruct Hv].
Qed.

(** [p.held[class] = held]. *)
Lemma opened_drops now class p : drops now class p (p <| pcHeld ::= <[class := held p class]> |>).
Proof.
  assert (forall c, held (p <| pcHeld ::= <[class := held p class]> |>) c = held p c) as Hh.
  { intros c. unfold held. cbn. destruct (decide (class = c)) as [<- | Hc];
      [by rewrite lookup_insert_eq | by rewrite lookup_insert_ne]. }
  unfold drops. split_and!; [done .. | |]; intros c; by rewrite Hh.
Qed.

Lemma deleted_drops now class key p :
  (forall slot, held p class !! key = Some slot -> ~ valid now slot) ->
  drops now class p (p <| pcHeld ::= alter (delete key) class |>).
Proof.
  intros Hl. unfold drops. split_and!; [done .. | |]; unfold held in *; cbn.
  - intros c. destruct (decide (class = c)) as [<- | Hc]; [| by rewrite lookup_alter_ne].
    rewrite lookup_alter_eq. destruct (pcHeld p !! class); [| done]. apply delete_subseteq.
  - intros c k slot Hs Hv. destruct (decide (class = c)) as [<- | Hc]; [| by rewrite lookup_alter_ne].
    rewrite lookup_alter_eq. destruct (pcHeld p !! class) as [h |]; [| done]. cbn in *.
    rewrite lookup_delete_ne; [done |]. intros ->. destruct Hv as [? | Hv]; [done | by eapply Hl].
Qed.

Lemma wp_grant every now class key (Q : Time -> Pacer -> Prop) p : is_Some (pcHeld p !! class) ->
  (forall p', let slot := Z.max (default 0 (pcNext p !! class)) now in
     grants class key slot every p p' -> Q slot p') ->
  wp (grant every now class key) Q p.
Proof.
  intros [h Hh] HQ. unfold grant. repeat wp_step. apply HQ.
  unfold grants. split_and!; [done .. | |]; unfold held; cbn.
  - by rewrite lookup_alter_eq, Hh.
  - intros c Hc. by rewrite lookup_alter_ne.
Qed.

(** [Reserve] in a paced class: the key's own slot, or the next free one. *)
Lemma wp_pace every now class key (Q : Time -> Pacer -> Prop) p : rate p class = Some every ->
  (forall slot p', held p class !! key = Some slot -> valid now slot -> drops now class p p' -> Q slot p') ->
  (forall p1 p', (forall slot, held p class !! key = Some slot -> ~ valid now slot) -> drops now class p p1 ->
     let slot := Z.max (default 0 (pcNext p !! class)) now in
     grants class key slot every p1 p' -> Q slot p') ->
  wp (Reserve now class key) Q p.
Proof.
  intros Hr Hkept Hfresh. unfold Reserve. apply wp_bind, wp_gets. rewrite Hr.
  apply wp_bind, wp_iff. pose proof (sweep_drops now class p) as D1. set (p1 := snd _) in *.
  apply wp_bind, wp_modify. pose proof (drops_trans _ _ _ _ _ D1 (opened_drops now class p1)) as D2.
  set (p2 := p1 <| pcHeld ::= _ |>) in *.
  assert (is_Some (pcHeld p2 !! class)) as Ho by (exists (held p1 class); apply lookup_insert_eq).
  clearbody p2.
  assert (forall q slot, drops now class p q -> held q class !! key = Some slot ->
    held p class !! key = Some slot) as Hin.
  { intros q slot (_ & _ & Hs & _) Hq. by eapply lookup_weaken. }
  assert (forall slot, held p class !! key = Some slot -> valid now slot -> held p2 class !! key = Some slot) as Hk.
  { intros slot Hs Hv. apply D2; [done | by right]. }
  apply wp_bind, wp_gets. destruct (held p2 class !! key) as [slot |] eqn:Em.
  - destruct (Before now (Add slot ReservationLapse)) eqn:El.
    { apply wp_ret. apply Hkept; [by apply (Hin p2) | done ..]. }
    assert (forall s, held p2 class !! key = Some s -> ~ valid now s) as Hl by (unfold valid; intros; congruence).
    apply wp_bind, wp_modify. pose proof (drops_trans _ _ _ _ _ D2 (deleted_drops now class key p2 Hl)) as D3.
    apply wp_grant.
    { cbn. rewrite lookup_alter_eq. by destruct Ho as [h ->]. }
    rewrite (proj1 (proj2 D3)). intros p' slot' Hg. eapply Hfresh; [| exact D3 | exact Hg].
    intros s Hs Hv. pose proof (Hk s Hs Hv) as [= <-]. by apply (Hl slot).
  - apply wp_grant; [done |]. rewrite (proj1 (proj2 D2)). intros p' slot' Hg.
    eapply Hfresh; [| exact D2 | exact Hg]. intros s Hs Hv. by pose proof (Hk s Hs Hv).
Qed.
End Methods.

(** ** Runs *)

Inductive PacerOp :=
  | PReserve (now : Time) (class key : string)
  | PConsume (class key : string).

(** Slots handed out: class, key and slot of each [Reserve], in order. *)
Fixpoint paced (ops : list PacerOp) : M Pacer (list (string * string * Time)) :=
  match ops with
  | [] => ret []
  | PReserve now class key :: ops =>
      slot <- Reserve now class key;; out <- paced ops;; ret ((class, key, slot) :: out)
  | PConsume class key :: ops => Consume class key;; paced ops
  end.

Section Runs.
Implicit Types p : Pacer.

Lemma consume_held class key p :
  pcEvery (snd (Consume class key p)) = pcEvery p /\ pcNext (snd (Consume class key p)) = pcNext p /\
  (forall c, held (snd (Consume class key p)) c ⊆ held p c) /\
  (forall c k, c <> class \/ k <> key -> held (snd (Consume class key p)) c !! k = held p c !! k).
Proof.
  unfold Consume, modify, held. cbn. split_and!; [done .. | |].
  - intros c. destruct (decide (class = c)) as [<- | Hc]; [| by rewrite lookup_alter_ne].
    rewrite lookup_alter_eq. destruct (pcHeld p !! class); [| done]. apply delete_subseteq.
  - intros c k Hck. destruct (decide (class = c)) as [<- | Hc]; [| by rewrite lookup_alter_ne].
    rewrite lookup_alter_eq. destruct (pcHeld p !! class); [| done]. cbn.
    apply lookup_delete_ne. intros ->. by destruct Hck.
Qed.

Lemma reserve_unpaced now class key p : rate p class = None -> Reserve now class key p = (now, p).
Proof. intros Hr. unfold Reserve, bind, gets. by rewrite Hr. Qed.

(** *** Spacing *)

(** Two slots of a class: one reservation seen twice, or apart by [every]. *)
Definition apart (every : Duration) (x y : string * string * Time) : Prop :=
  x = y \/ every <= Z.abs (x.2 - y.2).

(** What has been handed out of a class, against the state: it is past, and holds
    what is held. *)
Definition accounted (class : string) (every : Duration) (given : list (string * string * Time)) p : Prop :=
  rate p class = Some every /\ 0 <= every /\
  (forall x, x ∈ given -> x.2 + every <= default 0 (pcNext p !! class)) /\
  (forall k slot, held p class !! k = Some slot -> (class, k, slot) ∈ given) /\
  (forall x y, x ∈ given -> y ∈ given -> apart every x y).

Lemma accounted_drop class every given p p' : pcEvery p' = pcEvery p -> pcNext p' = pcNext p ->
  held p' class ⊆ held p class -> accounted class every given p -> accounted class every given p'.
Proof.
  intros He Hn Hh (Hr & H0 & Hx & Hk & Ha). split_and!; [by rewrite (rate_every p) | done | by rewrite Hn | | done].
  intros k slot Hs. apply Hk. by eapply lookup_weaken.
Qed.

Lemma accounted_grant class every given key slot p p' :
  default 0 (pcNext p !! class) <= slot -> grants class key slot every p p' ->
  accounted class every given p -> accounted class every ((class, key, slot) :: given) p'.
Proof.
  intros Hle (He & Hn & Hh & _) (Hr & H0 & Hx & Hk & Ha).
  assert (forall x, x ∈ given -> every <= slot - x.2) as Hpast by (intros x Hi; pose proof (Hx x Hi); lia).
  split_and!; [by rewrite (rate_every p) | done | | |].
  - rewrite Hn, lookup_insert_eq. cbn. intros x [-> | Hi]%elem_of_cons; cbn; [lia |].
    pose proof (Hpast x Hi). lia.
  - intros k s. rewrite Hh, lookup_insert_Some. intros [[<- <-] | [_ Hs]]; apply elem_of_cons; auto.
  - unfold apart in *. intros x y [-> | Hi]%elem_of_cons [-> | Hj]%elem_of_cons; auto; right; cbn.
    + pose proof (Hpast y Hj). lia.
    + pose proof (Hpast x Hi). lia.
Qed.

Lemma accounted_other class class' every given key slot every' p p' : class' <> class ->
  grants class' key slot every' p p' -> accounted class every given p -> accounted class every given p'.
Proof.
  intros Hc (He & Hn & _ & Hh) Ha. destruct Ha as (Hr & H0 & Hx & Hk & Ha).
  split_and!; [by rewrite (rate_every p) | done | | | done].
  - by rewrite Hn, lookup_insert_ne.
  - by rewrite Hh.
Qed.

(** The slots of a class among those handed out. *)
Definition of_class (class : string) (out : list (string * string * Time)) : list (string * string * Time) :=
  List.filter (fun x => String.eqb x.1.1 class) out.

Lemma paced_accounted class every ops given p : accounted class every given p ->
  forall x y, x ∈ given ++ of_class class (fst (paced ops p)) -> y ∈ given ++ of_class class (fst (paced ops p)) ->
  apart every x y.
Proof.
  revert given p. induction ops as [| op ops IH]; intros given p Hacc.
  { cbn. rewrite app_nil_r. apply Hacc. }
  destruct op as [now c key | c key]; cbn [paced].
  - assert (forall slot p', accounted class every (if String.eqb c class then (c, key, slot) :: given else given) p' ->
      forall x y, x ∈ given ++ of_class class ((c, key, slot) :: fst (paced ops p')) ->
        y ∈ given ++ of_class class ((c, key, slot) :: fst (paced ops p')) -> apart every x y) as Hnext.
    { intros slot p' Hp'. cbn. destruct (String.eqb c class); [| by apply IH].
      intros x y. rewrite <- !Permutation_middle. by apply (IH ((c, key, slot) :: given)). }
    rewrite !run_bind. destruct (rate p c) as [e |] eqn:Er; [| rewrite reserve_unpaced by done].
    + assert (wp (Reserve now c key) (fun slot => accounted class every
        (if String.eqb c class then (c, key, slot) :: given else given)) p) as W.
      { apply (wp_pace e); [done | |].
        - intros slot p' Hs _ (He & Hn & Hh & _).
          assert (accounted class every given p') as Hp' by by eapply accounted_drop.
          destruct (String.eqb c class) eqn:Ec; bools; [| done]. subst c.
          assert ((class, key, slot) ∈ given) as Hin by by apply Hacc.
          destruct Hp' as (Hr & H0 & Hx & Hk & Ha). split_and!; [done | done | | |].
          + intros x [-> | Hi]%elem_of_cons; by apply Hx.
          + intros k s Hks. apply elem_of_cons. right. by apply Hk.
          + intros x y [-> | Hi]%elem_of_cons [-> | Hj]%elem_of_cons; by apply Ha.
        - intros p1 p' _ (He & Hn & Hh & _) slot Hg.
          assert (accounted class every given p1) as Hp1 by by eapply accounted_drop.
          destruct (String.eqb c class) eqn:Ec; bools; [subst c | by eapply accounted_other].
          assert (e = every) as -> by (destruct Hacc as (Hr & _); congruence).
          eapply accounted_grant; [| done | done]. rewrite Hn. lia. }
      apply wp_iff in W. specialize (Hnext _ _ W). unfold bind. destruct (Reserve now c key p). cbn in *.
      by destruct (paced ops _).
    + destruct (String.eqb c class) eqn:Ec; bools.
      { destruct Hacc as (Hr & _). congruence. }
      specialize (IH _ _ Hacc). cbn. unfold bind. destruct (paced ops p). cbn in *.
      rewrite (proj2 (String.eqb_neq c class) Ec). exact IH.
  - rewrite run_bind. apply IH. destruct (consume_held c key p) as (He & Hn & Hh & _).
    by eapply accounted_drop.
Qed.

(** *** Keeping a slot *)

(** An operation that leaves [key]'s reservation of [slot]. *)
Definition leaves (class key : string) (slot : Time) (op : PacerOp) : Prop :=
  match op with
  | PReserve now c _ => c = class -> valid now slot
  | PConsume c k => c <> class \/ k <> key
  end.

(** [key] still has [slot]. *)
Definition has (class key : string) (slot : Time) p : Prop :=
  is_Some (rate p class) /\ held p class !! key = Some slot.

Lemma reserve_keeps class key slot now c k p : leaves class key slot (PReserve now c k) ->
  has class key slot p -> has class key slot (snd (Reserve now c k p)).
Proof.
  intros Hl [Hr Hs]. destruct (rate p c) as [e |] eqn:Er; [| by rewrite reserve_unpaced].
  assert (wp (Reserve now c k) (fun _ => has class key slot) p) as W; [| by apply wp_iff in W].
  assert (forall p', drops now c p p' -> has class key slot p') as Hd.
  { intros p' (He & _ & _ & Hk). split; [by rewrite (rate_every p) |]. apply Hk; [done |].
    destruct (decide (class = c)) as [-> |]; [right; by apply Hl | by left]. }
  apply (wp_pace e); [done | auto |].
  intros p1 p' Hf D s (He & _ & Hh & Ho). destruct (Hd p1 D) as [Hr1 Hs1].
  split; [by rewrite (rate_every p1) |]. destruct (decide (class = c)) as [<- | Hc]; [| by rewrite Ho].
  rewrite Hh. destruct (decide (k = key)) as [-> | Hk]; [| by rewrite lookup_insert_ne].
  exfalso. by apply (Hf slot Hs), Hl.
Qed.

Lemma reserve_has class key now p : is_Some (rate p class) ->
  has class key (fst (Reserve now class key p)) (snd (Reserve now class key p)).
Proof.
  intros [e He]. assert (wp (Reserve now class key) (has class key) p) as W; [| by apply wp_iff in W].
  apply (wp_pace e); [done | |].
  - intros slot p' Hs Hv (E & _ & _ & Hk). split; [by rewrite (rate_every p), He | by apply Hk, or_intror].
  - intros p1 p' _ (E1 & _) slot (E2 & _ & Hh & _). split; [by rewrite (rate_every p) by congruence; rewrite He |].
    rewrite Hh. apply lookup_insert_eq.
Qed.

Lemma has_reserve class key slot now p : has class key slot p -> valid now slot ->
  fst (Reserve now class key p) = slot.
Proof.
  intros [[e He] Hs] Hv. assert (wp (Reserve now class key) (fun s _ => s = slot) p) as W; [| by apply wp_iff in W].
  apply (wp_pace e); [done | congruence |]. intros p1 p' Hf. by destruct (Hf slot Hs).
Qed.

Lemma paced_keeps class key slot ops p : Forall (leaves class key slot) ops ->
  has class key slot p -> has class key slot (snd (paced ops p)).
Proof.
  intros Hf. revert p. induction Hf as [| [now c k | c k] ops Hop _ IH]; intros p Hp; [done | |]; cbn [paced].
  - rewrite !run_bind. cbn. apply IH. by apply reserve_keeps.
  - rewrite run_bind. apply IH. destruct Hp as [Hr Hs], (consume_held c k p) as (He & _ & _ & Hk).
    split; [by rewrite (rate_every p) |]. rewrite Hk; [done |]. cbn in Hop. destruct Hop; auto.
Qed.

Lemma new_pacer_every rates p class every : (forall c e, pcEvery p !! c = Some e -> 0 <= e) ->
  rate (fold_left pace_class rates p) class = Some every -> 0 <= every.
Proof.
  revert p. induction rates as [| [c n] rates IH]; intros p Hp; cbn [fold_left].
  - unfold rate. destruct (pcEvery p !! class) eqn:E; [intros [= <-]; by eapply Hp |].
    destruct (Cut "/" class) as [[pre r] []]; [apply Hp | done].
  - apply IH. unfold pace_class. destruct (0 <? n) eqn:E; bools; [| exact Hp]. cbn. intros c' e.
    rewrite lookup_insert_Some. intros [[_ <-] | [_ Hc]]; [apply Z.quot_pos; unfold Minute; lia | by eapply Hp].
Qed.

Lemma new_pacer_held rates p class : (forall c, held p c = ∅) ->
  held (fold_left pace_class rates p) class = ∅.
Proof.
  revert p. induction rates as [| [c n] rates IH]; intros p Hp; cbn [fold_left pace_class]; [done |].
  apply IH. unfold pace_class. destruct (0 <? n); [| exact Hp]. intros c'. unfold held in *. cbn.
  destruct (decide (c = c')) as [<- |]; [by rewrite lookup_insert_eq | by rewrite lookup_insert_ne].
Qed.
End Runs.

(** A class's slots are spaced: whatever reservations and consumptions a
    new pacer serves, in any order and by any clock, two [Reserve]s of one
    class answer the same reservation, of one key, or slots at least the
    class's interval apart. *)
Theorem slots_spaced (rates : list (string * Z)) (ops : list PacerOp) (class : string) (every : Duration)
    (x y : string * string * Time) :
  rate (NewPacer rates) class = Some every ->
  x ∈ of_class class (fst (paced ops (NewPacer rates))) ->
  y ∈ of_class class (fst (paced ops (NewPacer rates))) ->
  x = y \/ every <= Z.abs (x.2 - y.2).
Proof.
  intros Hr Hx Hy. apply (paced_accounted class every ops [] (NewPacer rates)); [| done ..].
  split_and!; [done | | by intros ? ?%elem_of_nil | | by intros ? ? ?%elem_of_nil].
  - by eapply (new_pacer_every rates (mkPacer ∅ ∅ ∅ ∅)).
  - intros k slot. unfold NewPacer. rewrite new_pacer_held; [by rewrite lookup_empty | done].
Qed.

(** A requeued pass never reserves again: once a key of a paced class has a
    slot, [Reserve] answers that slot, whatever others reserve and consume,
    until the key consumes it or it lapses. *)
Theorem reservation_kept (p : Pacer) (class key : string) (now now' slot : Time) (ops : list PacerOp) :
  is_Some (rate p class) -> fst (Reserve now class key p) = slot ->
  Forall (leaves class key slot) ops -> now' < slot + ReservationLapse ->
  fst (Reserve now' class key (snd (paced ops (snd (Reserve now class key p))))) = slot.
Proof.
  intros Hr Hs Hops Hv. apply has_reserve; [| unfold valid, Before, Add; lia].
  apply paced_keeps; [done |]. rewrite <- Hs. by apply reserve_has.
Qed.

(** Two imports and a search in one namespace of the default rates, three
    seconds apart. *)
Definition ex_class : string := SearchClass "media".
Definition ex_paced : list PacerOp :=
  [PReserve 100 ex_class "a"; PReserve 100 ex_class "b"; PReserve 200 ex_class "a"; PConsume ex_class "a";
   PReserve 300 ex_class "a"].

Lemma slots_spaced_witness :
  let slot k t := (ex_class, k, t) in
  of_class ex_class (fst (paced ex_paced (NewPacer DefaultRates))) =
    [slot "a" 100; slot "b" (100 + 3 * Second); slot "a" 100; slot "a" (100 + 6 * Second)] /\
  (slot "b" (100 + 3 * Second) = slot "a" 100 \/ 3 * Second <= Z.abs (100 + 3 * Second - 100)).
Proof.
  intros slot. assert (of_class ex_class (fst (paced ex_paced (NewPacer DefaultRates))) =
    [slot "a" 100; slot "b" (100 + 3 * Second); slot "a" 100; slot "a" (100 + 6 * Second)]) as E
    by (vm_compute; reflexivity).
  split; [exact E |].
  apply (slots_spaced DefaultRates ex_paced ex_class (3 * Second) (slot "b" (100 + 3 * Second)) (slot "a" 100)).
  - vm_compute; reflexivity.
  - rewrite E, !elem_of_cons. by right; left.
  - rewrite E, !elem_of_cons. by left.
Defined.

Lemma reservation_kept_witness :
  fst (Reserve (5 * Minute) ex_class "a"
    (snd (paced [PReserve 200 ex_class "b"; PConsume ex_class "b"] (snd (Reserve 100 ex_class "a" (NewPacer DefaultRates)))))) = 100.
Proof.
  apply (reservation_kept (NewPacer DefaultRates) ex_class "a" 100 (5 * Minute) 100).
  - exists (3 * Second). vm_compute; reflexivity.
  - vm_compute; reflexivity.
  - constructor; [by intros _ |]. constructor; [by right | done].
  - vm_compute; reflexivity.
Defined.
