(* ===== verification/Breaker.v ===== *)
(** * Breaker: the circuit breaker

    src/pkg/ratelimit/breaker.go.  The mutex makes each method atomic; [now] is
    its clock's reading.  The counters are below their thresholds, so no [int]
    wraps. *)

From S2P Require Import Prelude GoLang.

Open Scope monad_scope.

Inductive BreakerState := BreakerClosed | BreakerOpen | BreakerHalfOpen.

#[export] Instance BreakerState_eq_dec : EqDecision BreakerState.
Proof. solve_decision. Defined.

Definition BreakerState_String (s : BreakerState) : string :=
  match s with BreakerClosed => "closed" | BreakerOpen => "open" | BreakerHalfOpen => "half-open" end.

Record BreakerConfig := mkBreakerConfig {
  FailureThreshold : Z;
  Cooldown : Duration;
  HalfOpenSuccesses : Z;
}.

Record CircuitBreaker := mkBreaker {
  cbCfg : BreakerConfig;
  cbState : BreakerState;
  cbFails : Z;
  cbSuccesses : Z;
  cbOpenedAt : Time;
  cbProbing : bool;
}.

#[export] Instance eta_CircuitBreaker : Eta CircuitBreaker :=
  fun b => mkBreaker (cbCfg b) (cbState b) (cbFails b) (cbSuccesses b) (cbOpenedAt b) (cbProbing b).
#[export] Instance set_cbState : Setter cbState. Proof. derive_setter. Defined.
#[export] Instance set_cbFails : Setter cbFails. Proof. derive_setter. Defined.
#[export] Instance set_cbSuccesses : Setter cbSuccesses. Proof. derive_setter. Defined.
#[export] Instance set_cbOpenedAt : Setter cbOpenedAt. Proof. derive_setter. Defined.
#[export] Instance set_cbProbing : Setter cbProbing. Proof. derive_setter. Defined.

Definition NewCircuitBreaker (cfg : BreakerConfig) : CircuitBreaker :=
  mkBreaker (mkBreakerConfig (if FailureThreshold cfg <=? 0 then 1 else FailureThreshold cfg) (Cooldown cfg)
               (if HalfOpenSuccesses cfg <=? 0 then 1 else HalfOpenSuccesses cfg))
    BreakerClosed 0 0 0 false.

Definition Allow (now : Time) : M CircuitBreaker bool :=
  b <- gets id;;
  match cbState b with
  | BreakerClosed => ret true
  | BreakerOpen =>
      if Sub now (cbOpenedAt b) <? Cooldown (cbCfg b) then ret false
      else modify (fun b => b <| cbState := BreakerHalfOpen |> <| cbProbing := true |>);; ret true
  | BreakerHalfOpen =>
      if cbProbing b then ret false
      else modify (fun b => b <| cbProbing := true |>);; ret true
  end.

Definition Success : M CircuitBreaker unit :=
  b <- gets id;;
  match cbState b with
  | BreakerClosed => modify (fun b => b <| cbFails := 0 |>)
  | BreakerOpen => ret tt
  | BreakerHalfOpen =>
      modify (fun b => b <| cbSuccesses ::= Z.succ |> <| cbProbing := false |>);;
      b <- gets id;;
      when (HalfOpenSuccesses (cbCfg b) <=? cbSuccesses b)
        (modify (fun b => b <| cbState := BreakerClosed |> <| cbFails := 0 |> <| cbSuccesses := 0 |>))
  end.

Definition Failure (now : Time) : M CircuitBreaker unit :=
  b <- gets id;;
  match cbState b with
  | BreakerClosed =>
      modify (fun b => b <| cbFails ::= Z.succ |>);;
      b <- gets id;;
      when (FailureThreshold (cbCfg b) <=? cbFails b)
        (modify (fun b => b <| cbState := BreakerOpen |> <| cbOpenedAt := now |> <| cbFails := 0 |>))
  | BreakerOpen => ret tt
  | BreakerHalfOpen =>
      modify (fun b => b <| cbState := BreakerOpen |> <| cbOpenedAt := now |> <| cbProbing := false |>
                         <| cbSuccesses := 0 |>)
  end.

Definition State : M CircuitBreaker BreakerState := gets cbState.

(** ** The specification

    What the breaker promises, on what has been reported to it: closed, it
    counts the failures since the last success; open, it remembers when it
    tripped; half-open, it counts the successes since and whether a probe is
    out.  It refuses in no other case than open before the cooldown, or with a
    probe out. *)

Inductive BreakerOp := DoAllow (now : Time) | DoSuccess | DoFailure (now : Time).

Inductive phase :=
  | Closed (failures : Z)
  | Open (since : Time)
  | HalfOpen (successes : Z) (probe : bool).

Definition spec_step (cfg : BreakerConfig) (ph : phase) (op : BreakerOp) : phase * option bool :=
  match op, ph with
  | DoAllow _, Closed _ => (ph, Some true)
  | DoAllow now, Open since =>
      if Sub now since <? Cooldown cfg then (ph, Some false) else (HalfOpen 0 true, Some true)
  | DoAllow _, HalfOpen k probe => (HalfOpen k true, Some (negb probe))
  | DoSuccess, Closed _ => (Closed 0, None)
  | DoSuccess, HalfOpen k _ => (if HalfOpenSuccesses cfg <=? k + 1 then Closed 0 else HalfOpen (k + 1) false, None)
  | DoFailure now, Closed k => (if FailureThreshold cfg <=? k + 1 then Open now else Closed (k + 1), None)
  | DoFailure now, HalfOpen _ _ => (Open now, None)
  | _, Open _ => (ph, None)
  end.

Definition exec (op : BreakerOp) : M CircuitBreaker (option bool) :=
  match op with
  | DoAllow now => ok <- Allow now;; ret (Some ok)
  | DoSuccess => Success;; ret None
  | DoFailure now => Failure now;; ret None
  end.

(** A run: what each operation answers. *)
Fixpoint runs (ops : list BreakerOp) : M CircuitBreaker (list (option bool)) :=
  match ops with
  | [] => ret []
  | op :: ops => a <- exec op;; l <- runs ops;; ret (a :: l)
  end.

Fixpoint spec_runs (cfg : BreakerConfig) (ph : phase) (ops : list BreakerOp) : phase * list (option bool) :=
  match ops with
  | [] => (ph, [])
  | op :: ops =>
      let '(ph, a) := spec_step cfg ph op in
      let '(ph, l) := spec_runs cfg ph ops in (ph, a :: l)
  end.

(** The phase a breaker is in. *)
Definition phase_of (b : CircuitBreaker) : phase :=
  match cbState b with
  | BreakerClosed => Closed (cbFails b)
  | BreakerOpen => Open (cbOpenedAt b)
  | BreakerHalfOpen => HalfOpen (cbSuccesses b) (cbProbing b)
  end.

(** What is left over from another phase is reset. *)
Definition tidy (b : CircuitBreaker) : Prop :=
  match cbState b with
  | BreakerClosed => cbSuccesses b = 0 /\ cbProbing b = false /\ 0 <= cbFails b < FailureThreshold (cbCfg b)
  | BreakerOpen => cbFails b = 0 /\ cbSuccesses b = 0 /\ cbProbing b = false
  | BreakerHalfOpen => cbFails b = 0 /\ 0 <= cbSuccesses b < HalfOpenSuccesses (cbCfg b)
  end.

Definition positive (cfg : BreakerConfig) : Prop := 0 < FailureThreshold cfg /\ 0 < HalfOpenSuccesses cfg.

Lemma exec_spec op b : positive (cbCfg b) -> tidy b ->
  wp (exec op) (fun a b' => cbCfg b' = cbCfg b /\ tidy b' /\
    spec_step (cbCfg b) (phase_of b) op = (phase_of b', a)) b.
Proof.
  destruct b as [cfg st f s o p]. intros [Hf Hh] Ht. cbn in Hf, Hh.
  destruct op, st; cbn in Ht; destruct_and?; unfold exec, Allow, Success, Failure, id;
    repeat first [progress wp_step | progress cbn in *];
    unfold tidy, phase_of; cbn in *; bools; split_and!; subst; try done; try lia;
    repeat case_match; bools; try lia; done.
Qed.

Lemma runs_spec ops b : positive (cbCfg b) -> tidy b ->
  wp (runs ops) (fun l b' => cbCfg b' = cbCfg b /\ tidy b' /\
    spec_runs (cbCfg b) (phase_of b) ops = (phase_of b', l)) b.
Proof.
  revert b. induction ops as [| op ops IH]; intros b Hp Ht; [by apply wp_ret |].
  apply wp_bind. eapply wp_mono; [by apply exec_spec |]. intros a b1 (Hc & Ht1 & Hs).
  apply wp_bind. eapply wp_mono; [apply IH; by rewrite ?Hc |]. intros l b2 (Hc2 & Ht2 & Hs2).
  apply wp_ret. split_and!; [congruence | done |]. cbn. rewrite Hs. rewrite Hc in Hs2. by rewrite Hs2.
Qed.

Lemma new_positive cfg : positive (cbCfg (NewCircuitBreaker cfg)).
Proof. unfold positive, NewCircuitBreaker. cbn. repeat case_match; bools; lia. Qed.

Lemma new_tidy cfg : tidy (NewCircuitBreaker cfg).
Proof. destruct (new_positive cfg). unfold tidy. cbn in *. lia. Qed.

(** The states a breaker of [cfg] gets to. *)
Definition breaker_reachable (cfg : BreakerConfig) (b : CircuitBreaker) : Prop :=
  exists ops, b = snd (runs ops (NewCircuitBreaker cfg)).

Lemma reachable_tidy cfg b : breaker_reachable cfg b ->
  positive (cbCfg b) /\ tidy b /\ cbCfg b = cbCfg (NewCircuitBreaker cfg).
Proof.
  intros [ops ->]. pose proof (runs_spec ops _ (new_positive cfg) (new_tidy cfg)) as W.
  apply wp_iff in W as (Hc & Ht & _). split_and!; [| done ..]. rewrite Hc. apply new_positive.
Qed.

(** The breaker is its specification: over any sequence of calls it answers
    what the counting machine answers, and is in the phase that machine is in;
    what it keeps of another phase never shows. *)
Theorem breaker_refines (cfg : BreakerConfig) (ops : list BreakerOp) :
  let b := NewCircuitBreaker cfg in
  spec_runs (cbCfg b) (Closed 0) ops = (phase_of (snd (runs ops b)), fst (runs ops b)).
Proof. apply (runs_spec ops (NewCircuitBreaker cfg) (new_positive cfg) (new_tidy cfg)). Qed.

(** ** Probing *)

Definition is_report (op : BreakerOp) : bool := match op with DoAllow _ => false | _ => true end.
Definition is_success (op : BreakerOp) : bool := match op with DoSuccess => true | _ => false end.
Definition granted (a : option bool) : bool := match a with Some true => true | _ => false end.
Definition count {A} (p : A -> bool) (l : list A) : Z := Z.of_nat (length (List.filter p l)).

Lemma count_cons {A} (p : A -> bool) x l : count p (x :: l) = (if p x then 1 else 0) + count p l.
Proof. unfold count. cbn. destruct (p x); cbn; lia. Qed.

Lemma count_nonneg {A} (p : A -> bool) l : 0 <= count p l.
Proof. unfold count. lia. Qed.

Lemma spec_granted cfg ops ph :
  match ph with
  | Closed _ => False
  | Open _ => count is_success ops < HalfOpenSuccesses cfg
  | HalfOpen k _ => 0 <= k /\ k + count is_success ops < HalfOpenSuccesses cfg
  end ->
  count granted (snd (spec_runs cfg ph ops)) <=
    count is_report ops + match ph with HalfOpen _ true => 0 | _ => 1 end.
Proof.
  revert ph. induction ops as [| op ops IH]; intros ph Hph.
  { unfold count. cbn. destruct ph as [| | ? []]; lia. }
  cbn [spec_runs]. rewrite (count_cons is_success) in Hph. rewrite (count_cons is_report).
  pose proof (count_nonneg is_success ops). pose proof (count_nonneg is_report ops).
  assert (forall ph' a, spec_step cfg ph op = (ph', a) -> match ph' with
    | Closed _ => False
    | Open _ => count is_success ops < HalfOpenSuccesses cfg
    | HalfOpen k _ => 0 <= k /\ k + count is_success ops < HalfOpenSuccesses cfg
    end -> count granted (snd (let '(ph2, l) := spec_runs cfg ph' ops in (ph2, a :: l))) <=
      (if granted a then 1 else 0) + count is_report ops + match ph' with HalfOpen _ true => 0 | _ => 1 end) as Hn.
  { intros ph' a _ Hph'. specialize (IH ph' Hph'). destruct (spec_runs cfg ph' ops). cbn in *.
    rewrite count_cons. lia. }
  destruct (spec_step cfg ph op) as [ph' a] eqn:E. specialize (Hn ph' a eq_refl).
  destruct op, ph as [k | o | k []]; cbn in E, Hph; try done; repeat case_match; simplify_eq; bools; cbn in *; lia.
Qed.

(** A recovering dependency is probed at the rate it answers: from an open
    breaker on, until enough successes have been reported to close it, at most
    one call more is let through than reports come back. *)
Theorem probe_per_report (cfg : BreakerConfig) (b : CircuitBreaker) (ops : list BreakerOp) :
  breaker_reachable cfg b -> cbState b = BreakerOpen ->
  count is_success ops < HalfOpenSuccesses (cbCfg b) ->
  count granted (fst (runs ops b)) <= 1 + count is_report ops.
Proof.
  intros Hr Ho Hc. destruct (reachable_tidy cfg b Hr) as (Hp & Ht & _).
  pose proof (runs_spec ops b Hp Ht) as W. apply wp_iff in W as (_ & _ & Hs).
  pose proof (spec_granted (cbCfg b) ops (phase_of b)) as G. rewrite Hs in G. cbn in G.
  unfold phase_of in G. rewrite Ho in G. specialize (G Hc). lia.
Qed.

(** One probe and its success, at each of the times. *)
Definition probes (ts : list Time) : list BreakerOp := flat_map (fun t => [DoAllow t; DoSuccess]) ts.

Lemma spec_probes cfg ts k : 0 <= k -> k + Z.of_nat (length ts) = HalfOpenSuccesses cfg -> ts <> [] ->
  spec_runs cfg (HalfOpen k false) (probes ts) = (Closed 0, flat_map (fun _ => [Some true; None]) ts).
Proof.
  revert k. induction ts as [| t ts IH]; intros k Hk Hl Hne; [done |].
  cbn [probes flat_map app spec_runs spec_step negb]. cbn [length] in Hl. destruct ts as [| t' ts].
  - cbn in *. replace (HalfOpenSuccesses cfg <=? k + 1) with true by lia. done.
  - replace (HalfOpenSuccesses cfg <=? k + 1) with false by (cbn in *; lia).
    change (flat_map (fun t => [DoAllow t; DoSuccess]) (t' :: ts)) with (probes (t' :: ts)).
    rewrite (IH (k + 1)); [done | lia | lia | done].
Qed.

(** A breaker recovers: open and past its cooldown, it lets a probe through,
    and as many answered in turn as [HalfOpenSuccesses] asks for close it, with
    no failure counted. *)
Theorem breaker_recovers (cfg : BreakerConfig) (b : CircuitBreaker) (t : Time) (ts : list Time) :
  breaker_reachable cfg b -> cbState b = BreakerOpen -> Cooldown (cbCfg b) <= Sub t (cbOpenedAt b) ->
  Z.of_nat (length (t :: ts)) = HalfOpenSuccesses (cbCfg b) ->
  phase_of (snd (runs (probes (t :: ts)) b)) = Closed 0 /\
  fst (runs (probes (t :: ts)) b) = flat_map (fun _ => [Some true; None]) (t :: ts).
Proof.
  intros Hr Ho Hc Hl. destruct (reachable_tidy cfg b Hr) as (Hp & Ht & _).
  pose proof (runs_spec (probes (t :: ts)) b Hp Ht) as W. apply wp_iff in W as (_ & _ & Hs).
  assert (spec_runs (cbCfg b) (phase_of b) (probes (t :: ts)) = spec_runs (cbCfg b) (HalfOpen 0 false) (probes (t :: ts))) as E.
  { unfold phase_of. rewrite Ho. cbn. replace (Sub t (cbOpenedAt b) <? Cooldown (cbCfg b)) with false by lia. done. }
  rewrite E, spec_probes in Hs; [| lia | lia | done]. apply pair_eq in Hs as [Hs1 Hs2].
  by split; symmetry.
Qed.

(** Two failures trip it, two successes close it. *)
Definition ex_cfg : BreakerConfig := mkBreakerConfig 2 Minute 2.
Definition ex_tripped : CircuitBreaker := snd (runs [DoFailure 10; DoFailure 20] (NewCircuitBreaker ex_cfg)).

Lemma ex_tripped_reachable : breaker_reachable ex_cfg ex_tripped.
Proof. by exists [DoFailure 10; DoFailure 20]. Qed.

Lemma probe_per_report_witness :
  let t := 20 + Minute in
  let ops := [DoAllow 30; DoAllow t; DoAllow t; DoSuccess; DoAllow t; DoAllow t] in
  fst (runs ops ex_tripped) = [Some false; Some true; Some false; None; Some true; Some false] /\
  count granted (fst (runs ops ex_tripped)) <= 1 + count is_report ops.
Proof.
  intros t ops. split; [vm_compute; reflexivity |].
  apply (probe_per_report ex_cfg); [apply ex_tripped_reachable | reflexivity | vm_compute; reflexivity].
Defined.

Lemma breaker_recovers_witness :
  phase_of (snd (runs (probes [20 + Minute; 30 + Minute]) ex_tripped)) = Closed 0 /\
  fst (runs (probes [20 + Minute; 30 + Minute]) ex_tripped) = [Some true; None; Some true; None].
Proof.
  apply (breaker_recovers ex_cfg ex_tripped (20 + Minute) [30 + Minute]);
    [apply ex_tripped_reachable | reflexivity | vm_compute; discriminate | reflexivity].
Defined.

(** A success reported late, by a call let through before the breaker opened,
    counts for the probe that is out: another is let through beside it. *)
Lemma stale_success_probes :
  let ops := [DoAllow 1; DoFailure 2; DoFailure 3; DoAllow (4 + Minute); DoSuccess; DoAllow (5 + Minute)] in
  fst (runs ops (NewCircuitBreaker ex_cfg)) = [Some true; None; None; Some true; None; Some true].
Proof. vm_compute. reflexivity. Qed.
