(* ===== verification/RankScore.v ===== *)
(** * RankScore: the rank score of a release

    src/pkg/rankscore/rankscore.go: every ranking rule as a bonus added to the
    format score, and the parts of a score spelled out again.  [int] is 64 bits
    wide; the sums wrap as [int64]'s do, once at the end, which is the same. *)

From S2P Require Import Prelude GoLang Api.
From Stdlib Require Import Ascii.

Definition FormatLimit : Z := 9999.
Definition ProtocolBonus : Z := 20000.
Definition WholeSeasonBonus : Z := 40000.
Definition VersionBonus : Z := 100000.
Definition RealBonus : Z := 1000000.
Definition TierBonus : Z := 10000000.
Definition CompleteBonus : Z := 1000000000.
Definition RevisionSteps : Z := 9.
Definition MaxTiers : Z := 50.

(** [Revision.EffectiveVersion] (quality_types.go). *)
Definition EffectiveVersion (r : Revision) : Z := Z.max (rvVersion r) 1.

Record Inputs := mkInputs {
  inFormatScore : Z;
  inPreferredProtocol : bool;
  inWholeSeason : bool;
  inRevision : Revision;
  inPreferRevision : bool;
  inTier : Z;
  inTiers : Z;
  inComplete : bool;
  inCompleteFirst : bool;
}.

Definition clamp_int (v lo hi : Z) : Z := Z.max lo (Z.min hi v).

(** [Score]'s [tiers]. *)
Definition score_tiers (i : Inputs) : Z :=
  let tiers := Z.min (inTiers i) MaxTiers in if tiers <=? 0 then MaxTiers else tiers.

Definition Score (i : Inputs) : Z :=
  let s := clamp_int (inFormatScore i) (- FormatLimit) FormatLimit in
  let s := if inPreferredProtocol i then s + ProtocolBonus else s in
  let s := if inWholeSeason i then s + WholeSeasonBonus else s in
  let s := if inPreferRevision i then
             s + clamp_int (EffectiveVersion (inRevision i) - 1) 0 RevisionSteps * VersionBonus
               + clamp_int (rvReal (inRevision i)) 0 RevisionSteps * RealBonus
           else s in
  let s := if inTier i <? score_tiers i then s + (score_tiers i - 1 - inTier i) * TierBonus else s in
  let s := if inCompleteFirst i && inComplete i then s + CompleteBonus else s in
  wrap64 s.

(** ** [Parts] *)

(** [group]: its loop, [i] from [len(s)-3] down in steps of 3; there are fewer
    steps than characters. *)
Fixpoint group_loop (fuel : nat) (i : nat) (s : string) : string :=
  match fuel, i with
  | S fuel, S _ => group_loop fuel (i - 3) (str_take i s +:+ "," +:+ str_drop i s)
  | _, _ => s
  end.

Definition group (n : Z) : string :=
  let s := fmt_d n in group_loop (String.length s) (String.length s - 3) s.

(** What [take] appends for [n] units. *)
Definition part (name : string) (unit n : Z) : list string :=
  if n <=? 0 then []
  else if n =? 1 then [name +:+ " +" +:+ group unit]
  else [name +:+ " +" +:+ group (n * unit) +:+ " (" +:+ fmt_d n +:+ " x " +:+ group unit +:+ ")"].

(** [take], on what is left of the score and what is written so far. *)
Definition take_part (name : string) (unit max : Z) (st : Z * list string) : Z * list string :=
  let '(rest, out) := st in
  let n := Z.quot rest unit in
  let n := if 0 <? max then Z.min n max else n in
  (if 0 <? n then rest - n * unit else rest, out ++ part name unit n).

(** [fmt]'s %+d. *)
Definition fmt_plus_d (n : Z) : string := if n <? 0 then fmt_d n else "+" +:+ fmt_d n.

Definition Parts (score formatScore : Z) : list string :=
  let f := clamp_int formatScore (- FormatLimit) FormatLimit in
  let st := (wrap64 (score - f), []) in
  let st := take_part "complete audio" CompleteBonus 1 st in
  let st := take_part "quality tier" TierBonus MaxTiers st in
  let st := take_part "REAL" RealBonus RevisionSteps st in
  let st := take_part "version" VersionBonus RevisionSteps st in
  let st := take_part "whole season" WholeSeasonBonus 1 st in
  let st := take_part "preferred protocol" ProtocolBonus 1 st in
  snd st ++ ["format score " +:+ fmt_plus_d formatScore].

Example Parts_plain : Parts 490010300 300 =
  ["quality tier +490,000,000 (49 x 10,000,000)"; "format score +300"].
Proof. vm_compute. reflexivity. Qed.

(** ** The rules, in order *)

(** What each rule gives a release, the first rule first. *)
Definition rules (i : Inputs) : list Z :=
  [Z.b2z (inCompleteFirst i && inComplete i);
   Z.max 0 (score_tiers i - 1 - inTier i);
   if inPreferRevision i then clamp_int (rvReal (inRevision i)) 0 RevisionSteps else 0;
   if inPreferRevision i then clamp_int (EffectiveVersion (inRevision i) - 1) 0 RevisionSteps else 0;
   Z.b2z (inWholeSeason i);
   Z.b2z (inPreferredProtocol i);
   clamp_int (inFormatScore i) (- FormatLimit) FormatLimit].

(** A chain of tie-breaks: the first difference decides. *)
Fixpoint lexb (l m : list Z) : bool :=
  match l, m with
  | x :: l, y :: m => if x =? y then lexb l m else x <? y
  | _, _ => false
  end.

Lemma Score_sum i : 0 <= inTier i -> exists c t r v w p f, rules i = [c; t; r; v; w; p; f] /\
  Score i = c * CompleteBonus + t * TierBonus + r * RealBonus + v * VersionBonus
            + w * WholeSeasonBonus + p * ProtocolBonus + f /\
  0 <= c <= 1 /\ 0 <= t < MaxTiers /\ 0 <= r <= RevisionSteps /\ 0 <= v <= RevisionSteps /\
  0 <= w <= 1 /\ 0 <= p <= 1 /\ - FormatLimit <= f <= FormatLimit.
Proof.
  intros Ht. unfold rules. do 7 eexists. split; [reflexivity |].
  unfold Score, clamp_int, score_tiers, FormatLimit, ProtocolBonus, WholeSeasonBonus, VersionBonus, RealBonus,
    TierBonus, CompleteBonus, RevisionSteps, MaxTiers in *.
  rewrite wrap64_id.
  - destruct (inPreferredProtocol i), (inWholeSeason i), (inPreferRevision i), (inCompleteFirst i && inComplete i);
      cbn [Z.b2z]; repeat case_match; bools; split_and!; lia.
  - unfold is_int64, MinInt64, MaxInt64, two_p63.
    destruct (inPreferredProtocol i), (inWholeSeason i), (inPreferRevision i), (inCompleteFirst i && inComplete i);
      repeat case_match; bools; lia.
Qed.

(** Adding bonuses is the chain of tie-breaks: one release's score is below
    another's exactly when the rules, taken in order - complete audio, tier,
    REAL, version, whole season, protocol, format score - put it below at the
    first one they differ in. *)
Theorem score_is_tie_breaks (a b : Inputs) : 0 <= inTier a -> 0 <= inTier b ->
  (Score a <? Score b) = lexb (rules a) (rules b).
Proof.
  intros Ha Hb.
  destruct (Score_sum a Ha) as (c & t & r & v & w & p & f & -> & -> & ?).
  destruct (Score_sum b Hb) as (c' & t' & r' & v' & w' & p' & f' & -> & -> & ?).
  unfold FormatLimit, ProtocolBonus, WholeSeasonBonus, VersionBonus, RealBonus, TierBonus, CompleteBonus,
    RevisionSteps, MaxTiers in *. cbn [lexb].
  repeat match goal with |- context [if ?x =? ?y then _ else _] => destruct (Z.eqb_spec x y) end; lia.
Qed.

Definition ex_sd : Inputs := mkInputs 9000 true true (mkRevision 1 0 false) true 3 5 true false.
Definition ex_hd : Inputs := mkInputs (-20) false false (mkRevision 2 0 false) true 2 5 false false.

Lemma score_is_tie_breaks_witness : (Score ex_sd <? Score ex_hd) = true /\
  (Score ex_sd <? Score ex_hd) = lexb (rules ex_sd) (rules ex_hd).
Proof. split; [vm_compute; reflexivity | apply score_is_tie_breaks; vm_compute; discriminate]. Defined.

Lemma take_part_exact name unit max n low out : 0 < unit -> 0 <= n -> 0 <= low < unit -> (0 < max -> n <= max) ->
  take_part name unit max (n * unit + low, out) = (low, out ++ part name unit n).
Proof.
  intros Hu Hn Hl Hm. unfold take_part.
  assert (Z.quot (n * unit + low) unit = n) as ->.
  { rewrite Z.quot_div_nonneg by nia. rewrite Z.div_add_l by lia. rewrite Z.div_small by lia. lia. }
  destruct (0 <? max) eqn:E; bools; [rewrite Z.min_l by auto |]; destruct (0 <? n) eqn:En; bools; f_equal; lia.
Qed.

(** A score is spelled out as it was made: [Parts] of a release's score and
    format score names each rule that gave it a bonus, how often, and nothing
    else. *)
Theorem Parts_of_Score (i : Inputs) (c t r v w p f : Z) : 0 <= inTier i -> rules i = [c; t; r; v; w; p; f] ->
  Parts (Score i) (inFormatScore i) =
    part "complete audio" CompleteBonus c ++ part "quality tier" TierBonus t ++ part "REAL" RealBonus r ++
    part "version" VersionBonus v ++ part "whole season" WholeSeasonBonus w ++
    part "preferred protocol" ProtocolBonus p ++ ["format score " +:+ fmt_plus_d (inFormatScore i)].
Proof.
  intros Ht Hr. assert (f = clamp_int (inFormatScore i) (- FormatLimit) FormatLimit) as Hf by by injection Hr.
  destruct (Score_sum i Ht) as (c' & t' & r' & v' & w' & p' & f' & Hr' & -> & ?).
  rewrite Hr in Hr'. injection Hr' as <- <- <- <- <- <- <-. unfold Parts. rewrite <- Hf.
  unfold FormatLimit, MaxTiers, RevisionSteps in *. clear Hf.
  set (low1 := p * ProtocolBonus). set (low2 := w * WholeSeasonBonus + low1).
  set (low3 := v * VersionBonus + low2). set (low4 := r * RealBonus + low3). set (low5 := t * TierBonus + low4).
  assert (0 <= low1 < WholeSeasonBonus /\ 0 <= low2 < VersionBonus /\ 0 <= low3 < RealBonus /\
    0 <= low4 < TierBonus /\ 0 <= low5 < CompleteBonus) as Hlow.
  { unfold low5, low4, low3, low2, low1, ProtocolBonus, WholeSeasonBonus, VersionBonus, RealBonus, TierBonus,
      CompleteBonus. lia. }
  match goal with |- context [wrap64 ?x] => replace x with (c * CompleteBonus + low5) end.
  2: { unfold low5, low4, low3, low2, low1. ring. }
  rewrite wrap64_id by (unfold is_int64, MinInt64, MaxInt64, two_p63, CompleteBonus in *; lia).
  rewrite take_part_exact by (unfold CompleteBonus in *; lia). unfold low5.
  rewrite take_part_exact by (unfold TierBonus in *; lia). unfold low4.
  rewrite take_part_exact by (unfold RealBonus in *; lia). unfold low3.
  rewrite take_part_exact by (unfold VersionBonus in *; lia). unfold low2.
  rewrite take_part_exact by (unfold WholeSeasonBonus in *; lia). unfold low1.
  rewrite <- (Z.add_0_r (p * ProtocolBonus)), take_part_exact by (unfold ProtocolBonus; lia).
  cbn [snd]. by rewrite <- !(assoc_L (++)).
Qed.

Lemma Parts_of_Score_witness :
  Parts (Score ex_hd) (-20) = ["quality tier +20,000,000 (2 x 10,000,000)"; "version +100,000"; "format score -20"] /\
  Parts (Score ex_hd) (-20) =
    part "complete audio" CompleteBonus 0 ++ part "quality tier" TierBonus 2 ++ part "REAL" RealBonus 0 ++
    part "version" VersionBonus 1 ++ part "whole season" WholeSeasonBonus 0 ++
    part "preferred protocol" ProtocolBonus 0 ++ ["format score " +:+ fmt_plus_d (-20)].
Proof.
  split; [vm_compute; reflexivity |].
  apply (Parts_of_Score ex_hd 0 2 0 1 0 0 (-20)); [vm_compute; discriminate | vm_compute; reflexivity].
Defined.
