(* ===== verification/GoFloat.v ===== *)
(** * GoFloat: [float64]

    Go's 64-bit floats as IEEE 754 says, on the standard library's [spec_float]
    at 53 bits of precision; a conversion to [int64] of what does not fit one is
    the implementation's to choose. *)

From Stdlib Require Import SpecFloat.
From S2P Require Import Prelude GoLang.

Abbreviation float64 := spec_float (only parsing).

(** A conversion out of range. *)
Class FloatToInt := { int64_out_of_range : spec_float -> Z }.

(** [float64(n)]. *)
Definition of_int (n : Z) : spec_float := binary_normalize 53 1024 n 0 false.
Definition fmul (x y : spec_float) : spec_float := SFmul 53 1024 x y.
Definition feq (x y : spec_float) : bool := SFeqb x y.
Definition flt (x y : spec_float) : bool := SFltb x y.
Definition fle (x y : spec_float) : bool := SFleb x y.

(** The literal [n/d], rounded once. *)
Definition lit (n d : Z) : spec_float := SFdiv 53 1024 (of_int n) (of_int d).

(** A finite float's whole part, towards zero. *)
Definition trunc (s : bool) (m : positive) (e : Z) : Z :=
  let z := if 0 <=? e then Z.pos m * 2 ^ e else Z.pos m / 2 ^ (- e) in if s then - z else z.

(** [int64(x)]. *)
Definition to_int64 `{FloatToInt} (x : spec_float) : Z :=
  match x with
  | S754_zero _ => 0
  | S754_finite s m e => let z := trunc s m e in if (MinInt64 <=? z) && (z <=? MaxInt64) then z else int64_out_of_range x
  | S754_infinity _ | S754_nan => int64_out_of_range x
  end.

Example lit_17_1 : lit 171 10 = S754_finite false 4813222101752218 (-48).
Proof. vm_compute. reflexivity. Qed.
