(* ===== verification/Quality.v ===== *)
(** * Quality: profiles and the upgrade decision

    src/pkg/quality: the quality ladders (definition.go), a resolved profile's
    tiers (profile.go) and whether a release replaces a file (upgrade.go).
    Sizes per minute are whole numbers in the ladders; [AugmentFromMediaInfo]
    and [FromCRD] are not modelled. *)

From S2P Require Import Prelude GoLang GoFloat Api RankScore.
From Stdlib Require Import Ascii Relation_Operators Wellfounded SpecFloat.

(** [Definition]. *)
Record Definition_ := mkDefinition {
  dfQuality : Quality;
  dfName : string;
  dfAliases : list string;
  dfWeight : Z;
  dfMinMBPerMin : Z;
  dfPrefMBPerMin : Z;
  dfMaxMBPerMin : Z;
  dfGroup : string;
}.

#[export] Instance Quality_eq_dec : EqDecision Quality.
Proof. solve_decision. Defined.

(** ** The ladders (definition.go) *)

Definition videoDefinitions : list Definition_ := [
   mkDefinition (mkQuality "Unknown" "" 0 "none") "Unknown" [] 1 0 95 100 "";
   mkDefinition (mkQuality "WORKPRINT" "workprint" 0 "none") "WORKPRINT" [] 2 0 95 100 "";
   mkDefinition (mkQuality "CAM" "cam" 0 "none") "CAM" [] 3 0 95 100 "";
   mkDefinition (mkQuality "TELESYNC" "telesync" 0 "none") "TELESYNC" [] 4 0 95 100 "";
   mkDefinition (mkQuality "TELECINE" "telecine" 0 "none") "TELECINE" [] 5 0 95 100 "";
   mkDefinition (mkQuality "REGIONAL" "dvd" 480 "regional") "REGIONAL" [] 6 0 95 100 "";
   mkDefinition (mkQuality "DVDSCR" "dvd" 480 "screener") "DVDSCR" [] 7 0 95 100 "";
   mkDefinition (mkQuality "SDTV" "tv" 480 "none") "SDTV" [] 8 0 95 100 "";
   mkDefinition (mkQuality "DVD" "dvd" 0 "none") "DVD" [] 9 0 95 100 "";
   mkDefinition (mkQuality "DVD-R" "dvd" 480 "remux") "DVD-R" [] 10 0 95 100 "";
   mkDefinition (mkQuality "WEBDL-480p" "webdl" 480 "none") "WEBDL-480p" [] 11 0 95 100 "WEB 480p";
   mkDefinition (mkQuality "WEBRip-480p" "webrip" 480 "none") "WEBRip-480p" [] 11 0 95 100 "WEB 480p";
   mkDefinition (mkQuality "Bluray-480p" "bluray" 480 "none") "Bluray-480p" [] 12 0 95 100 "";
   mkDefinition (mkQuality "Bluray-576p" "bluray" 576 "none") "Bluray-576p" [] 13 0 95 100 "";
   mkDefinition (mkQuality "HDTV-720p" "tv" 720 "none") "HDTV-720p" [] 14 0 95 100 "";
   mkDefinition (mkQuality "WEBDL-720p" "webdl" 720 "none") "WEBDL-720p" [] 15 0 95 100 "WEB 720p";
   mkDefinition (mkQuality "WEBRip-720p" "webrip" 720 "none") "WEBRip-720p" [] 15 0 95 100 "WEB 720p";
   mkDefinition (mkQuality "Bluray-720p" "bluray" 720 "none") "Bluray-720p" [] 16 0 95 100 "";
   mkDefinition (mkQuality "HDTV-1080p" "tv" 1080 "none") "HDTV-1080p" [] 17 0 95 100 "";
   mkDefinition (mkQuality "WEBDL-1080p" "webdl" 1080 "none") "WEBDL-1080p" [] 18 0 95 100 "WEB 1080p";
   mkDefinition (mkQuality "WEBRip-1080p" "webrip" 1080 "none") "WEBRip-1080p" [] 18 0 95 100 "WEB 1080p";
   mkDefinition (mkQuality "Bluray-1080p" "bluray" 1080 "none") "Bluray-1080p" [] 19 0 0 0 "";
   mkDefinition (mkQuality "Remux-1080p" "bluray" 1080 "remux") "Remux-1080p" ["Bluray-1080p Remux"] 20 0 0 0 "";
   mkDefinition (mkQuality "HDTV-2160p" "tv" 2160 "none") "HDTV-2160p" [] 21 0 0 0 "";
   mkDefinition (mkQuality "WEBDL-2160p" "webdl" 2160 "none") "WEBDL-2160p" [] 22 0 0 0 "WEB 2160p";
   mkDefinition (mkQuality "WEBRip-2160p" "webrip" 2160 "none") "WEBRip-2160p" [] 22 0 0 0 "WEB 2160p";
   mkDefinition (mkQuality "Bluray-2160p" "bluray" 2160 "none") "Bluray-2160p" [] 23 0 0 0 "";
   mkDefinition (mkQuality "Remux-2160p" "bluray" 2160 "remux") "Remux-2160p" ["Bluray-2160p Remux"] 24 0 0 0 "";
   mkDefinition (mkQuality "BR-DISK" "bluray" 1080 "brdisk") "BR-DISK" [] 25 0 0 0 "";
   mkDefinition (mkQuality "Raw-HD" "tv" 1080 "rawhd") "Raw-HD" [] 26 0 0 0 ""
  ].

Definition music_definitions : list Definition_ := [
   mkDefinition (mkQuality "Trash" "" 0 "") "Trash" ["Trash Quality Lossy"; "MP3-8"; "MP3-16"; "MP3-24"; "MP3-32"; "MP3-40"; "MP3-48"; "MP3-56"; "MP3-64"; "MP3-80"] 1 0 0 0 "";
   mkDefinition (mkQuality "Poor" "" 0 "") "Poor" ["Poor Quality Lossy"; "MP3-96"; "MP3-112"; "MP3-128"; "MP3-160"; "OGG Vorbis Q5"] 2 0 0 0 "";
   mkDefinition (mkQuality "Low" "" 0 "") "Low" ["Low Quality Lossy"; "MP3-192"; "MP3-224"; "AAC-192"; "WMA"; "OGG Vorbis Q6"] 3 0 0 0 "";
   mkDefinition (mkQuality "Mid" "" 0 "") "Mid" ["Mid Quality Lossy"; "MP3-256"; "MP3-VBR-V2"; "AAC-256"; "OGG Vorbis Q7"; "OGG Vorbis Q8"] 4 0 0 0 "";
   mkDefinition (mkQuality "High" "" 0 "") "High" ["High Quality Lossy"; "MP3-320"; "MP3-VBR-V0"; "AAC-320"; "AAC-VBR"; "OGG Vorbis Q9"; "OGG Vorbis Q10"] 5 0 0 0 "";
   mkDefinition (mkQuality "FLAC" "" 0 "") "FLAC" ["Lossless"; "ALAC"; "APE"; "WavPack"] 6 0 0 0 "";
   mkDefinition (mkQuality "24bit Lossless" "" 0 "") "24bit Lossless" ["FLAC 24bit"; "ALAC 24bit"] 7 0 0 0 "";
   mkDefinition (mkQuality "WAV" "" 0 "") "WAV" [] 8 0 0 0 ""].

Definition book_definitions : list Definition_ := [
   mkDefinition (mkQuality "PDF" "" 0 "") "PDF" [] 1 0 0 0 "";
   mkDefinition (mkQuality "MOBI" "" 0 "") "MOBI" [] 2 0 0 0 "";
   mkDefinition (mkQuality "EPUB" "" 0 "") "EPUB" [] 3 0 0 0 "";
   mkDefinition (mkQuality "AZW3" "" 0 "") "AZW3" [] 4 0 0 0 ""].

Definition audiobook_definitions : list Definition_ := [
   mkDefinition (mkQuality "Unknown Audio" "" 0 "") "Unknown Audio" [] 1 0 0 0 "";
   mkDefinition (mkQuality "MP3" "" 0 "") "MP3" [] 2 0 0 0 "";
   mkDefinition (mkQuality "M4B" "" 0 "") "M4B" [] 3 0 0 0 "";
   mkDefinition (mkQuality "FLAC" "" 0 "") "FLAC" [] 4 0 0 0 ""].

Definition comic_definitions : list Definition_ := [
   mkDefinition (mkQuality "PDF" "" 0 "") "PDF" [] 1 0 0 0 "";
   mkDefinition (mkQuality "CBR" "" 0 "") "CBR" [] 2 0 0 0 "";
   mkDefinition (mkQuality "CBZ" "" 0 "") "CBZ" [] 3 0 0 0 ""].

(** [nonVideoDefinitions[kind]]; a kind it lacks has none. *)
Definition nonVideoDefinitions (kind : string) : list Definition_ :=
  if String.eqb kind "music" then music_definitions
  else if String.eqb kind "book" then book_definitions
  else if String.eqb kind "audiobook" then audiobook_definitions
  else if String.eqb kind "comic" then comic_definitions
  else [].

Definition named (d : Definition_) (name : string) : bool :=
  if String.eqb name "" then false
  else if String.eqb (dfName d) name then true
  else existsb (fun a => String.eqb a name) (dfAliases d).

(** [Lookup]: [None] is its [false]. *)
Definition Lookup (kind name : string) : option Definition_ :=
  find (fun d => named d name) (if String.eqb kind "video" then videoDefinitions else nonVideoDefinitions kind).

(** ** Profiles (profile.go) *)

(** [SizeLimit] (sizes.go): megabytes per minute of runtime. *)
Record SizeLimit := mkSizeLimit {
  slMinMBPerMin : spec_float;
  slPrefMBPerMin : spec_float;
  slMaxMBPerMin : spec_float;
}.

(** [BitrateLimit] (bitrate.go): bytes per second. *)
Record BitrateLimit := mkBitrateLimit { blMin : Z; blMax : Z }.

Record Profile := mkProfile {
  pfTiers : list (list Definition_);
  pfCutoffIndex : Z;
  pfUpgradeAllowed : bool;
  pfMinFormatScore : Z;
  pfCutoffFormatScore : Z;
  pfMinUpgradeFormatScore : Z;
  pfScores : gmap string Z;
  pfLanguage : string;
  pfLanguageName : string;
  pfAudioLanguages : list string;
  pfGraftAudio : bool;
  pfAudioDefault : string;
  pfAudioCompleteFirst : bool;
  pfAudioOptional : list string;
  pfScoreSet : string;
  pfProperPolicy : string;
  pfSizes : gmap string SizeLimit;
  pfBitrates : gmap Z BitrateLimit;
  pfPreferredProtocol : string;
  pfPreferSmallest : bool;
  pfMediaKind : string;
  pfHash : string;
}.

#[export] Instance eta_Profile : Eta Profile := fun p =>
  mkProfile (pfTiers p) (pfCutoffIndex p) (pfUpgradeAllowed p) (pfMinFormatScore p) (pfCutoffFormatScore p)
    (pfMinUpgradeFormatScore p) (pfScores p) (pfLanguage p) (pfLanguageName p) (pfAudioLanguages p) (pfGraftAudio p)
    (pfAudioDefault p) (pfAudioCompleteFirst p) (pfAudioOptional p) (pfScoreSet p) (pfProperPolicy p) (pfSizes p)
    (pfBitrates p) (pfPreferredProtocol p) (pfPreferSmallest p) (pfMediaKind p) (pfHash p).

#[export] Instance set_pfTiers : Setter pfTiers. Proof. derive_setter. Defined.
#[export] Instance set_pfUpgradeAllowed : Setter pfUpgradeAllowed. Proof. derive_setter. Defined.
#[export] Instance set_pfCutoffFormatScore : Setter pfCutoffFormatScore. Proof. derive_setter. Defined.
#[export] Instance set_pfMinUpgradeFormatScore : Setter pfMinUpgradeFormatScore. Proof. derive_setter. Defined.
#[export] Instance set_pfAudioLanguages : Setter pfAudioLanguages. Proof. derive_setter. Defined.
#[export] Instance set_pfAudioOptional : Setter pfAudioOptional. Proof. derive_setter. Defined.
#[export] Instance set_pfAudioCompleteFirst : Setter pfAudioCompleteFirst. Proof. derive_setter. Defined.
#[export] Instance set_pfProperPolicy : Setter pfProperPolicy. Proof. derive_setter. Defined.
#[export] Instance set_pfHash : Setter pfHash. Proof. derive_setter. Defined.

(** The zero profile. *)
Definition zero_Profile : Profile :=
  mkProfile [] 0 false 0 0 0 ∅ "" "" [] false "" false [] "" "" ∅ ∅ "" false "" "".

Definition isNonVideo (q : Quality) : bool := String.eqb (qSource q) "" && (qResolution q =? 0).

(** The triple that identifies a video quality. *)
Definition same_triple (q r : Quality) : bool :=
  String.eqb (qSource q) (qSource r) && (qResolution q =? qResolution r) && String.eqb (qModifier q) (qModifier r).

Definition holds (d : Definition_) (q : Quality) : bool :=
  if isNonVideo (dfQuality d) && isNonVideo q then
    named d (qName q) || (negb (String.eqb (qName q) "") && String.eqb (qName (dfQuality d)) (qName q))
  else same_triple (dfQuality d) q.

(** [Index]: the first tier that holds [q], from [i]. *)
Fixpoint index_from (i : Z) (tiers : list (list Definition_)) (q : Quality) : option Z :=
  match tiers with
  | [] => None
  | tier :: tiers => if existsb (fun d => holds d q) tier then Some i else index_from (i + 1) tiers q
  end.

Definition Index (p : Profile) (q : Quality) : option Z := index_from 0 (pfTiers p) q.

Definition Allowed (p : Profile) (q : Quality) : bool := bool_decide (is_Some (Index p q)).

Definition CutoffMet (p : Profile) (q : Quality) : bool :=
  match Index p q with Some i => i <=? pfCutoffIndex p | None => false end.

(** [Lists] (bitrate.go). *)
Definition Lists (p : Profile) (q : Quality) : bool := bool_decide (is_Some (Index p q)).

(** [scoresFormats], [isVideoKind] and [ScoreFormats]. *)
Definition isVideoKind (kind : string) : bool := String.eqb kind "" || String.eqb kind "video".
Definition scoresFormats (p : Profile) : bool := isVideoKind (pfMediaKind p).
Definition ScoreFormats (p : Profile) (formats : list string) : Z :=
  fold_left (fun score slug => wrap64 (score + default 0 (pfScores p !! slug))) formats 0.

(** ** Upgrades (upgrade.go) *)

Record Candidate := mkCandidate {
  cdQuality : Quality;
  cdRevision : Revision;
  cdFormatScore : Z;
}.

Inductive UpgradeVerdict :=
  | Upgrade
  | ExistingBetterQuality
  | UpgradesNotAllowed
  | ExistingBetterRevision
  | QualityCutoffMet
  | FormatScoreNotHigher
  | FormatCutoffMet
  | FormatIncrementTooSmall.

#[export] Instance UpgradeVerdict_eq_dec : EqDecision UpgradeVerdict.
Proof. solve_decision. Defined.

(** [compareRevision]: [int32] subtractions. *)
Definition compareRevision (a b : Revision) : Z :=
  if negb (rvReal a =? rvReal b) then wrap32 (rvReal a - rvReal b)
  else wrap32 (EffectiveVersion a - EffectiveVersion b).

(** [sameDef], within one tier. *)
Definition same_def (q r : Quality) : bool :=
  same_triple q r && (negb (isNonVideo q) || String.eqb (qName q) (qName r)).

Definition prefer_propers (p : Profile) : bool := negb (String.eqb (pfProperPolicy p) "doNotPrefer").

Definition UpgradeDecision (p : Profile) (current candidate : Candidate) : UpgradeVerdict :=
  match Index p (cdQuality candidate) with
  | None => ExistingBetterQuality
  | Some newIdx =>
      let curIdx := default (Z.of_nat (length (pfTiers p))) (Index p (cdQuality current)) in
      let qualityCompare := curIdx - newIdx in
      if (0 <? qualityCompare) && negb (CutoffMet p (cdQuality current)) then Upgrade
      else if qualityCompare <? 0 then ExistingBetterQuality
      else
        let sameDef := (qualityCompare =? 0) && same_def (cdQuality current) (cdQuality candidate) in
        let revCompare := compareRevision (cdRevision candidate) (cdRevision current) in
        if sameDef && prefer_propers p && (0 <? revCompare) then Upgrade
        else if negb (pfUpgradeAllowed p) then UpgradesNotAllowed
        else if sameDef && prefer_propers p && (revCompare <? 0) then ExistingBetterRevision
        else if 0 <? qualityCompare then QualityCutoffMet
        else if cdFormatScore candidate <=? cdFormatScore current then FormatScoreNotHigher
        else if pfCutoffFormatScore p <=? cdFormatScore current then FormatCutoffMet
        else if cdFormatScore candidate <? wrap64 (cdFormatScore current + pfMinUpgradeFormatScore p) then
          FormatIncrementTooSmall
        else Upgrade
  end.

(** ** The ladders name each quality once *)

#[export] Instance Definition_eq_dec : EqDecision Definition_.
Proof. solve_decision. Defined.

Definition ladder (kind : string) : list Definition_ :=
  if String.eqb kind "video" then videoDefinitions else nonVideoDefinitions kind.

Definition kinds : list string := ["video"; "music"; "book"; "audiobook"; "comic"].

Lemma ladder_kinds kind d : d ∈ ladder kind -> kind ∈ kinds.
Proof.
  unfold ladder, nonVideoDefinitions, kinds. intros Hd.
  repeat match type of Hd with context [if String.eqb kind ?k then _ else _] =>
    destruct (String.eqb kind k) eqn:?; bools; [subst; apply list_elem_of_In; cbn; auto 6 |] end.
  by apply elem_of_nil in Hd.
Qed.

Lemma named_in d name : named d name = true -> name <> "" /\ name ∈ dfName d :: dfAliases d.
Proof.
  unfold named. destruct (String.eqb name "") eqn:E0; [done |]. bools. intros Hn. split; [done |].
  apply elem_of_cons. destruct (String.eqb (dfName d) name) eqn:E1; bools; [by left | right].
  apply existsb_exists in Hn as (a & Ha & Hn). bools. subst. by apply list_elem_of_In.
Qed.

Lemma in_forallb {A} (p : A -> bool) l x : forallb p l = true -> x ∈ l -> p x = true.
Proof. rewrite forallb_forall. intros Hf Hx. apply Hf. by apply list_elem_of_In. Qed.

Lemma same_triple_spec q r : same_triple q r = true <->
  qSource q = qSource r /\ qResolution q = qResolution r /\ qModifier q = qModifier r.
Proof.
  unfold same_triple. rewrite !andb_true_iff, !String.eqb_eq, Z.eqb_eq. tauto.
Qed.

Lemma holds_kind d q : holds d q = true -> isNonVideo (dfQuality d) = isNonVideo q.
Proof.
  unfold holds. destruct (isNonVideo (dfQuality d) && isNonVideo q) eqn:E; [intros _; bools; congruence |].
  intros (Hs & Hr & _)%same_triple_spec. unfold isNonVideo. by rewrite Hs, Hr.
Qed.

(** Each ladder names a quality once: every name and alias of a definition
    looks that definition up, in its own kind; and no video quality is held by
    two definitions of the ladder. *)
Theorem ladders_are_unambiguous (kind name : string) (d e : Definition_) (q : Quality) :
  (d ∈ ladder kind -> named d name = true -> Lookup kind name = Some d) /\
  (d ∈ videoDefinitions -> e ∈ videoDefinitions -> holds d q = true -> holds e q = true -> d = e).
Proof.
  split.
  - intros Hd Hn. destruct (named_in d name Hn) as [_ Hin].
    assert (forallb (fun k => forallb (fun d => forallb (fun n => bool_decide (Lookup k n = Some d))
      (dfName d :: dfAliases d)) (ladder k)) kinds = true) as H by (vm_compute; reflexivity).
    apply (in_forallb _ _ kind) in H; [| by eapply ladder_kinds].
    apply (in_forallb _ _ d) in H; [| done]. apply (in_forallb _ _ name) in H; [| done]. by apply bool_decide_eq_true in H.
  - assert (forallb (fun d => forallb (fun e => bool_decide (d = e) ||
      (negb (same_triple (dfQuality d) (dfQuality e)) &&
       negb (isNonVideo (dfQuality d) && isNonVideo (dfQuality e)))) videoDefinitions) videoDefinitions = true) as H
      by (vm_compute; reflexivity).
    intros Hd He Hq Hr. apply (in_forallb _ _ d) in H; [| done]. apply (in_forallb _ _ e) in H; [| done].
    apply orb_true_iff in H as [H | H]; [by bools |]. bools. exfalso.
    pose proof (holds_kind d q Hq) as Kd. pose proof (holds_kind e q Hr) as Ke. unfold holds in Hq, Hr.
    destruct (isNonVideo q).
    { match goal with K : isNonVideo _ && isNonVideo _ = false |- _ => by rewrite Kd, Ke in K end. } rewrite Kd in Hq. rewrite Ke in Hr. cbn in Hq, Hr.
    apply same_triple_spec in Hq as (? & ? & ?). apply same_triple_spec in Hr as (? & ? & ?).
    assert (same_triple (dfQuality d) (dfQuality e) = true) by (apply same_triple_spec; split_and!; congruence).
    congruence.
Qed.

Definition flac_definition : Definition_ :=
  mkDefinition (mkQuality "FLAC" "" 0 "") "FLAC" ["Lossless"; "ALAC"; "APE"; "WavPack"] 6 0 0 0 "".

Lemma ladders_are_unambiguous_witness : Lookup "music" "ALAC" = Some flac_definition.
Proof.
  apply (ladders_are_unambiguous "music" "ALAC" flac_definition flac_definition (mkQuality "" "" 0 "")).
  - apply list_elem_of_In. cbn. auto 10.
  - reflexivity.
Defined.

(** ** Upgrades end *)

(** [candidate] replaces [current]; the revisions are a release's, counts that
    are not negative. *)
Definition sane (c : Candidate) : Prop :=
  0 <= rvReal (cdRevision c) < two_p31 /\ rvVersion (cdRevision c) < two_p31.

Definition upgrades (p : Profile) (candidate current : Candidate) : Prop :=
  sane candidate /\ sane current /\ UpgradeDecision p current candidate = Upgrade.

(** Every tier holds one quality only. *)
Definition one_quality_tiers (p : Profile) : Prop := forall q r i,
  Index p q = Some i -> Index p r = Some i -> same_def q r = true.

Lemma index_from_bounds i tiers q j : index_from i tiers q = Some j ->
  i <= j < i + Z.of_nat (length tiers).
Proof.
  revert i. induction tiers as [| t tiers IH]; intros i; cbn [index_from length]; [done |].
  destruct (existsb _ t); [intros [= <-]; lia |]. intros Hi. apply IH in Hi. lia.
Qed.

Lemma compareRevision_pos c d : sane c -> sane d -> 0 < compareRevision (cdRevision c) (cdRevision d) ->
  rvReal (cdRevision d) < rvReal (cdRevision c) \/
  rvReal (cdRevision d) = rvReal (cdRevision c) /\ EffectiveVersion (cdRevision d) < EffectiveVersion (cdRevision c).
Proof.
  unfold sane, compareRevision, EffectiveVersion. intros [? ?] [? ?].
  destruct (negb _) eqn:E; bools; rewrite wrap32_id by (unfold is_int32; lia); lia.
Qed.

Lemma compareRevision_zero c d : sane c -> sane d -> 0 <= compareRevision (cdRevision c) (cdRevision d) ->
  compareRevision (cdRevision c) (cdRevision d) <= 0 ->
  rvReal (cdRevision d) = rvReal (cdRevision c) /\ EffectiveVersion (cdRevision d) = EffectiveVersion (cdRevision c).
Proof.
  unfold sane, compareRevision, EffectiveVersion. intros [? ?] [? ?].
  destruct (negb _) eqn:E; bools; rewrite wrap32_id by (unfold is_int32; lia); lia.
Qed.

(** Where a file stands: its tier, then, where they count, its REALs and its
    version, then how far its score is from the cutoff; all counted down. *)
Definition standing (p : Profile) (c : Candidate) : nat * (nat * (nat * nat)) :=
  let idx := default (Z.of_nat (length (pfTiers p))) (Index p (cdQuality c)) in
  let rev z := if prefer_propers p then Z.to_nat (two_p31 - z) else O in
  (Z.to_nat idx, (rev (rvReal (cdRevision c)), (rev (EffectiveVersion (cdRevision c)),
    Z.to_nat (pfCutoffFormatScore p - cdFormatScore c)))).

Definition lower : nat * (nat * (nat * nat)) -> nat * (nat * (nat * nat)) -> Prop :=
  slexprod nat _ lt (slexprod nat _ lt (slexprod nat nat lt lt)).

Lemma lower_wf : well_founded lower.
Proof. repeat (apply wf_slexprod; [exact Nat.lt_wf_0 |]). exact Nat.lt_wf_0. Qed.

Lemma lower_intro a b c d a' b' c' d' :
  (a < a' \/ a = a' /\ (b < b' \/ b = b' /\ (c < c' \/ c = c' /\ d < d')))%nat ->
  lower (a, (b, (c, d))) (a', (b', (c', d'))).
Proof.
  intros [? | [-> [? | [-> [? | [-> ?]]]]]]; [by left | right; by left | right; right; by left | by right; right; right].
Qed.

Lemma upgrade_lowers p candidate current : prefer_propers p = false \/ one_quality_tiers p ->
  upgrades p candidate current -> lower (standing p candidate) (standing p current).
Proof.
  intros Hp (Hs & Hc & Hu). unfold UpgradeDecision in Hu.
  destruct (Index p (cdQuality candidate)) as [new |] eqn:En; [| done].
  pose proof (index_from_bounds 0 _ _ _ En) as Hn. unfold standing. rewrite En.
  set (cur := default _ (Index p (cdQuality current))) in *.
  assert (0 <= cur) as H0.
  { unfold cur. destruct (Index p (cdQuality current)) eqn:Ec; cbn; [apply index_from_bounds in Ec |]; lia. }
  cbn [default from_option id] in Hu |- *. apply lower_intro.
  destruct ((0 <? cur - new) && _) eqn:E1; bools; [left; lia |].
  destruct (cur - new <? 0) eqn:E2; bools; [done |].
  destruct ((cur - new =? 0) && same_def _ _ && prefer_propers p && _) eqn:E3; bools.
  { right. split; [lia |]. match goal with K : prefer_propers p = true |- _ => rewrite K end.
    pose proof (compareRevision_pos candidate current Hs Hc ltac:(lia)) as Hr.
    unfold sane, EffectiveVersion in *. destruct Hs as [? ?], Hc as [? ?]. lia. }
  destruct (negb (pfUpgradeAllowed p)); [done |].
  destruct (_ && (compareRevision _ _ <? 0)) eqn:E4; [done |].
  destruct (0 <? cur - new) eqn:E5; [done |]; bools.
  destruct (_ <=? cdFormatScore current) eqn:E6; [done |]; bools.
  destruct (pfCutoffFormatScore p <=? _) eqn:E7; [done |]; bools.
  right. split; [lia |]. destruct Hp as [-> | Hone]; [right; split; [done | right; split; [done | lia]] |].
  destruct (prefer_propers p); [| right; split; [done | right; split; [done | lia]]].
  assert (cur - new = 0) as Hz by lia.
  assert (same_def (cdQuality current) (cdQuality candidate) = true) as Hsame.
  { apply (Hone _ _ new); [| exact En]. unfold cur in Hz.
    destruct (Index p (cdQuality current)) eqn:Ec; cbn in Hz; [f_equal; lia | lia]. }
  rewrite Hz, Hsame in E3, E4. cbn in E3, E4. bools.
  destruct (compareRevision_zero candidate current Hs Hc) as [Hr Hv]; [lia | lia |].
  rewrite Hr, Hv. right. split; [done | right; split; [done | lia]].
Qed.

(** Upgrades come to an end: under a profile that does not prefer propers,
    or each of whose tiers holds one quality, no file is upgraded over and over;
    every sequence of upgrades, each of the last, is finite. *)
Theorem upgrades_terminate (p : Profile) :
  prefer_propers p = false \/ one_quality_tiers p -> well_founded (upgrades p).
Proof.
  intros Hp. apply (wf_incl _ _ (fun c d => lower (standing p c) (standing p d))).
  - intros c d Hu. by apply upgrade_lowers.
  - apply (wf_inverse_image _ _ lower (standing p)), lower_wf.
Qed.

(** A profile of single video qualities. *)
Lemma single_tiers p : Forall (fun t => exists d, t = [d] /\ isNonVideo (dfQuality d) = false) (pfTiers p) ->
  one_quality_tiers p.
Proof.
  intros Hf q r i. unfold Index. generalize 0. induction Hf as [| t tiers (d & -> & Hd) _ IH]; intros z; [done |].
  cbn [index_from existsb]. rewrite !orb_false_r.
  destruct (holds d q) eqn:Eq, (holds d r) eqn:Er; [| | | apply IH].
  - intros _ _. pose proof (holds_kind d q Eq) as Kq. pose proof (holds_kind d r Er) as Kr.
    unfold holds in Eq, Er. rewrite Hd in Eq, Er. cbn in Eq, Er.
    apply same_triple_spec in Eq as (? & ? & ?). apply same_triple_spec in Er as (? & ? & ?).
    unfold same_def. rewrite <- Kq, Hd. rewrite andb_true_r. apply same_triple_spec. split_and!; congruence.
  - intros [= <-] Hi. apply index_from_bounds in Hi. lia.
  - intros Hi [= <-]. apply index_from_bounds in Hi. lia.
Qed.

Definition ex_bluray : Definition_ :=
  mkDefinition (mkQuality "Bluray-1080p" "bluray" 1080 "none") "Bluray-1080p" [] 19 0 0 0 "".
Definition ex_webdl : Definition_ :=
  mkDefinition (mkQuality "WEBDL-1080p" "webdl" 1080 "none") "WEBDL-1080p" [] 18 0 95 100 "WEB 1080p".
Definition ex_webrip : Definition_ :=
  mkDefinition (mkQuality "WEBRip-1080p" "webrip" 1080 "none") "WEBRip-1080p" [] 18 0 95 100 "WEB 1080p".
Definition ex_profile (tiers : list (list Definition_)) : Profile :=
  zero_Profile <| pfTiers := tiers |> <| pfUpgradeAllowed := true |> <| pfCutoffFormatScore := 100 |>
    <| pfMinUpgradeFormatScore := 1 |> <| pfProperPolicy := "preferAndUpgrade" |>.
Definition ex_single : Profile := ex_profile [[ex_bluray]; [ex_webdl]].
Definition ex_release (d : Definition_) (version score : Z) : Candidate :=
  mkCandidate (dfQuality d) (mkRevision version 0 false) score.

Lemma upgrades_terminate_witness :
  UpgradeDecision ex_single (ex_release ex_webdl 2 50) (ex_release ex_bluray 1 0) = Upgrade /\
  well_founded (upgrades ex_single).
Proof.
  split; [reflexivity |]. apply (upgrades_terminate ex_single). right. apply single_tiers.
  constructor; [by exists ex_bluray |]. constructor; [by exists ex_webdl |]. constructor.
Defined.

(** Two qualities tie in one tier of a profile that prefers propers: a proper
    replaces a file of its quality whatever its score, and a better score
    replaces a file of the other quality whatever its revision, so four
    releases replace one another in turn. *)
Lemma upgrades_may_cycle :
  let p := ex_profile [[ex_webdl; ex_webrip]] in
  let a := ex_release ex_webdl 2 0 in let b := ex_release ex_webrip 1 10 in
  let c := ex_release ex_webrip 2 0 in let d := ex_release ex_webdl 1 10 in
  UpgradeDecision p a b = Upgrade /\ UpgradeDecision p b c = Upgrade /\
  UpgradeDecision p c d = Upgrade /\ UpgradeDecision p d a = Upgrade.
Proof. vm_compute. by split_and!. Qed.
