(* ===== verification/Sizes.v ===== *)
(** * Sizes: what a release may weigh

    src/pkg/quality/sizes.go and bitrate.go: the size tables and the bounds a
    profile sets, in megabytes per minute of runtime and in bytes per second; and
    src/pkg/decision/evaluate.go's reading of a preferred size. *)

From Stdlib Require Import SpecFloat.
From S2P Require Import Prelude GoLang GoFloat Api RankScore Quality.
From Stdlib Require Import Ascii.

Definition MovieSizeTable : gmap string SizeLimit := list_to_map [
  ("HDTV-720p", mkSizeLimit (lit 171 10) (of_int 1999) (of_int 2000));
  ("WEBDL-720p", mkSizeLimit (lit 125 10) (of_int 1999) (of_int 2000));
  ("WEBRip-720p", mkSizeLimit (lit 125 10) (of_int 1999) (of_int 2000));
  ("Bluray-720p", mkSizeLimit (lit 257 10) (of_int 1999) (of_int 2000));
  ("HDTV-1080p", mkSizeLimit (lit 338 10) (of_int 1999) (of_int 2000));
  ("WEBDL-1080p", mkSizeLimit (lit 125 10) (of_int 1999) (of_int 2000));
  ("WEBRip-1080p", mkSizeLimit (lit 125 10) (of_int 1999) (of_int 2000));
  ("Bluray-1080p", mkSizeLimit (lit 508 10) (of_int 1999) (of_int 2000));
  ("Remux-1080p", mkSizeLimit (of_int 102) (of_int 1999) (of_int 2000));
  ("HDTV-2160p", mkSizeLimit (of_int 85) (of_int 1999) (of_int 2000));
  ("WEBDL-2160p", mkSizeLimit (lit 345 10) (of_int 1999) (of_int 2000));
  ("WEBRip-2160p", mkSizeLimit (lit 345 10) (of_int 1999) (of_int 2000));
  ("Bluray-2160p", mkSizeLimit (of_int 102) (of_int 1999) (of_int 2000));
  ("Remux-2160p", mkSizeLimit (lit 1874 10) (of_int 1999) (of_int 2000))].

Definition SeriesSizeTable : gmap string SizeLimit := list_to_map [
  ("HDTV-720p", mkSizeLimit (of_int 10) (of_int 995) (of_int 1000));
  ("HDTV-1080p", mkSizeLimit (of_int 15) (of_int 995) (of_int 1000));
  ("WEBRip-720p", mkSizeLimit (of_int 10) (of_int 995) (of_int 1000));
  ("WEBDL-720p", mkSizeLimit (of_int 10) (of_int 995) (of_int 1000));
  ("Bluray-720p", mkSizeLimit (lit 171 10) (of_int 995) (of_int 1000));
  ("WEBRip-1080p", mkSizeLimit (of_int 15) (of_int 995) (of_int 1000));
  ("WEBDL-1080p", mkSizeLimit (of_int 15) (of_int 995) (of_int 1000));
  ("Bluray-1080p", mkSizeLimit (lit 504 10) (of_int 995) (of_int 1000));
  ("Remux-1080p", mkSizeLimit (lit 691 10) (of_int 995) (of_int 1000));
  ("HDTV-2160p", mkSizeLimit (of_int 25) (of_int 995) (of_int 1000));
  ("WEBRip-2160p", mkSizeLimit (of_int 25) (of_int 995) (of_int 1000));
  ("WEBDL-2160p", mkSizeLimit (of_int 25) (of_int 995) (of_int 1000));
  ("Bluray-2160p", mkSizeLimit (lit 946 10) (of_int 995) (of_int 1000));
  ("Remux-2160p", mkSizeLimit (lit 1874 10) (of_int 995) (of_int 1000))].

Definition AnimeSizeTable : gmap string SizeLimit :=
  list_to_map (map (fun d => (dfName d, mkSizeLimit (of_int 5) (of_int 1999) (of_int 2000))) videoDefinitions).

(** [baseSizeTable] (profile.go). *)
Definition baseSizeTable (name : string) : gmap string SizeLimit :=
  if String.eqb name "movie" then MovieSizeTable
  else if String.eqb name "series" then SeriesSizeTable
  else if String.eqb name "anime" then AnimeSizeTable
  else ∅.

Section sizes.
Context `{FloatToInt}.

(** [SizeLimits]: no ceiling is 0. *)
Definition SizeLimits (p : Profile) (q : Quality) (runtimeMin : Z) : Z * Z :=
  match pfSizes p !! qName q with
  | None => (0, 0)
  | Some lim =>
      let bytes x := to_int64 (fmul (fmul x (of_int 1048576)) (of_int runtimeMin)) in
      (bytes (slMinMBPerMin lim), if flt (of_int 0) (slMaxMBPerMin lim) then bytes (slMaxMBPerMin lim) else 0)
  end.

(** [BitrateOutOfRange]: "" is in range. *)
Definition BitrateOutOfRange (p : Profile) (q : Quality) (bytesPerSecond : Z) : string :=
  match pfBitrates p !! qResolution q with
  | None => ""
  | Some lim =>
      if bytesPerSecond <=? 0 then ""
      else if (0 <? blMin lim) && (bytesPerSecond <? blMin lim) then
        fmt_d bytesPerSecond +:+ " bytes per second is below the profile's " +:+ fmt_d (qResolution q) +:+
        "p minimum of " +:+ fmt_d (blMin lim)
      else if (0 <? blMax lim) && (blMax lim <? bytesPerSecond) then
        fmt_d bytesPerSecond +:+ " bytes per second is above the profile's " +:+ fmt_d (qResolution q) +:+
        "p maximum of " +:+ fmt_d (blMax lim)
      else ""
  end.

Definition zero_SizeLimit : SizeLimit := mkSizeLimit (of_int 0) (of_int 0) (of_int 0).

Definition preferLargestRatio : spec_float := lit 99 100.

Definition preferLargest (sl : SizeLimit) : bool :=
  if feq (slMaxMBPerMin sl) (of_int 0) then true
  else fle (fmul (slMaxMBPerMin sl) preferLargestRatio) (slPrefMBPerMin sl).

Definition abs64 (n : Z) : Z := if n <? 0 then wrap64 (- n) else n.

Definition sizeBucket : Z := 200 * 1024 * 1024.

Definition roundTo200MiB (n : Z) : Z := wrap64 (Z.quot (wrap64 (n + sizeBucket / 2)) sizeBucket * sizeBucket).

(** The preferred size of a runtime, in bytes ([buildRankKey]). *)
Definition prefBytes (sl : SizeLimit) (minutes : Z) : Z :=
  to_int64 (fmul (fmul (fmul (slPrefMBPerMin sl) (of_int minutes)) (of_int 1024)) (of_int 1024)).

(** Sizes measured from one another fall into buckets of 200 MiB, rounded to
    the nearest. *)
Lemma roundTo200MiB_near n : 0 <= n < two_p63 - sizeBucket ->
  exists k, roundTo200MiB n = k * sizeBucket /\ 0 <= k /\ - (sizeBucket / 2) <= n - roundTo200MiB n < sizeBucket / 2.
Proof.
  unfold roundTo200MiB, sizeBucket, two_p63. change (200 * 1024 * 1024) with 209715200. intros Hn.
  assert (209715200 / 2 = 104857600) as -> by reflexivity.
  rewrite (wrap64_id (n + _)) by (unfold is_int64, MinInt64, MaxInt64, two_p63; lia).
  rewrite Z.quot_div_nonneg by lia. pose proof (Z.div_mod (n + 104857600) 209715200).
  pose proof (Z.mod_pos_bound (n + 104857600) 209715200). pose proof (Z.div_pos (n + 104857600) 209715200).
  rewrite wrap64_id by (unfold is_int64, MinInt64, MaxInt64, two_p63; lia).
  eexists. split; [reflexivity | lia].
Qed.

(** The tables the code ships prefer the largest release of every quality, as
    does a quality no table limits. *)
Lemma shipped_tables_prefer_largest name q sl : baseSizeTable name !! q = Some sl \/ sl = zero_SizeLimit ->
  preferLargest sl = true.
Proof.
  intros [Hq | ->]; [| by vm_compute].
  assert (forall m : gmap string SizeLimit, forallb (fun kv => preferLargest kv.2) (map_to_list m) = true ->
    m !! q = Some sl -> preferLargest sl = true) as Hm.
  { intros m Hf Hl. rewrite forallb_forall in Hf. apply (Hf (q, sl)). by apply list_elem_of_In, elem_of_map_to_list. }
  unfold baseSizeTable in Hq.
  destruct (String.eqb name "movie"); [by apply (Hm MovieSizeTable); [vm_compute |] |].
  destruct (String.eqb name "series"); [by apply (Hm SeriesSizeTable); [vm_compute |] |].
  destruct (String.eqb name "anime"); [by apply (Hm AnimeSizeTable); [vm_compute |] |].
  by rewrite lookup_empty in Hq.
Qed.
End sizes.
