(* ===== verification/Release.v ===== *)
(** * Release: releases, parsed titles and rejections

    The data src/pkg/decision judges: an indexer's release
    (src/api/common/v1alpha1/release_types.go), what its title was parsed into
    (src/pkg/release/types.go, the fields the judges read), the languages it is
    taken to carry (language.go, grouplang.go, convert.go), and the reasons one
    is rejected for (src/pkg/decision/reasons.go, bands.go). *)

From S2P Require Import Prelude GoLang GoFacts Api RankScore.
From Stdlib Require Import Ascii.

(** ** Formatting: the verbs of [fmt] the rejections use *)

(** [%q], which escapes by the Unicode tables. *)
Class Quote := { fmt_q : string -> string }.

(** [%v] of a slice. *)
Definition fmt_strings (l : list string) : string := "[" +:+ Join l " " +:+ "]".
Definition fmt_ints (l : list Z) : string := fmt_strings (map fmt_d l).

Fixpoint zeros (n : nat) : string := match n with O => "" | S n => String "0" (zeros n) end.

(** [%0wd] of a number, its sign first. *)
Definition fmt_0d (width : nat) (n : Z) : string :=
  if n <? 0 then String "-" (let s := fmt_d (- n) in zeros (width - 1 - String.length s) +:+ s)
  else let s := fmt_d n in zeros (width - String.length s) +:+ s.

(** The day a UTC time falls on, counted from the zero time's, and its date. *)
Definition day_of (t : Time) : Z := t / (24 * Hour).

Definition civil (day : Z) : Z * Z * Z :=
  let z := day + 306 in let era := z / 146097 in let doe := z mod 146097 in
  let yoe := (doe - doe / 1460 + doe / 36524 - doe / 146096) / 365 in
  let doy := doe - (365 * yoe + yoe / 4 - yoe / 100) in
  let mp := (5 * doy + 2) / 153 in
  let d := doy - (153 * mp + 2) / 5 + 1 in
  let m := if mp <? 10 then mp + 3 else mp - 9 in
  (yoe + era * 400 + (if m <=? 2 then 1 else 0), m, d).

(** [Format(time.DateOnly)]. *)
Definition fmt_date (t : Time) : string :=
  let '(y, m, d) := civil (day_of t) in fmt_0d 4 y +:+ "-" +:+ fmt_0d 2 m +:+ "-" +:+ fmt_0d 2 d.

Example fmt_date_epoch : fmt_date (unixToInternal * Second) = "1970-01-01".
Proof. vm_compute. reflexivity. Qed.
Example fmt_date_leap : fmt_date ((unixToInternal + 19782 * 86400) * Second) = "2024-02-29".
Proof. vm_compute. reflexivity. Qed.

(** [strings.Cut] and [strings.Contains] of a string. *)
Fixpoint CutString (sep s : string) : string * string * bool :=
  if HasPrefix s sep then ("", str_drop (String.length sep) s, true)
  else match s with
       | EmptyString => ("", "", false)
       | String a s' =>
           let '(b, r, ok) := CutString sep s' in if ok then (String a b, r, true) else (s, "", false)
       end.

Fixpoint Contains (s sub : string) : bool :=
  HasPrefix s sub || match s with EmptyString => false | String _ s' => Contains s' sub end.

(** [slices.Contains]. *)
Definition contains (l : list string) (s : string) : bool := existsb (String.eqb s) l.

(** ** Kinds (media_types.go) *)

Definition MediaKindMovie : string := "movie".
Definition MediaKindSeries : string := "series".
Definition MediaKindEpisode : string := "episode".
Definition MediaKindAlbum : string := "album".
Definition MediaKindBook : string := "book".
Definition MediaKindAudiobook : string := "audiobook".
Definition MediaKindIssue : string := "issue".
Definition MediaKindComic : string := "comic".

(** ** Releases *)

Record ReleasePart := mkReleasePart {
  rpPart : Z;
  rpGUID : string;
  rpTitle : string;
  rpSizeBytes : Z;
  rpDownloadURL : string;
  rpMagnetURL : string;
  rpInfoHash : string;
  rpInfoURL : string;
  rpPublishedAt : option Time;
}.

(** [ReleaseInfo].  A nil map or slice and an empty one read alike. *)
Record ReleaseInfo := mkReleaseInfo {
  riGUID : string;
  riIndexerRef : string;
  riIndexerName : string;
  riAlsoOn : list string;
  riTitle : string;
  riProtocol : Protocol;
  riSizeBytes : Z;
  riPublishedAt : option Time;
  riDownloadURL : string;
  riMagnetURL : string;
  riInfoHash : string;
  riInfoURL : string;
  riSeeders : option Z;
  riLeechers : option Z;
  riIndexerFlags : list string;
  riCategories : list Z;
  riQuality : Quality;
  riRevision : Revision;
  riReleaseGroup : string;
  riEdition : string;
  riLanguages : list string;
  riIndexerLanguages : list string;
  riReleaseType : string;
  riFormatScore : Z;
  riMatchedFormats : list string;
  riIDs : gmap string string;
  riParts : list ReleasePart;
}.

#[export] Instance eta_ReleaseInfo : Eta ReleaseInfo := fun r =>
  mkReleaseInfo (riGUID r) (riIndexerRef r) (riIndexerName r) (riAlsoOn r) (riTitle r) (riProtocol r) (riSizeBytes r)
    (riPublishedAt r) (riDownloadURL r) (riMagnetURL r) (riInfoHash r) (riInfoURL r) (riSeeders r) (riLeechers r)
    (riIndexerFlags r) (riCategories r) (riQuality r) (riRevision r) (riReleaseGroup r) (riEdition r) (riLanguages r)
    (riIndexerLanguages r) (riReleaseType r) (riFormatScore r) (riMatchedFormats r) (riIDs r) (riParts r).

#[export] Instance set_riQuality : Setter riQuality. Proof. derive_setter. Defined.
#[export] Instance set_riRevision : Setter riRevision. Proof. derive_setter. Defined.
#[export] Instance set_riReleaseGroup : Setter riReleaseGroup. Proof. derive_setter. Defined.
#[export] Instance set_riEdition : Setter riEdition. Proof. derive_setter. Defined.
#[export] Instance set_riLanguages : Setter riLanguages. Proof. derive_setter. Defined.
#[export] Instance set_riReleaseType : Setter riReleaseType. Proof. derive_setter. Defined.
#[export] Instance set_riFormatScore : Setter riFormatScore. Proof. derive_setter. Defined.
#[export] Instance set_riMatchedFormats : Setter riMatchedFormats. Proof. derive_setter. Defined.
#[export] Instance set_riIDs : Setter riIDs. Proof. derive_setter. Defined.
#[export] Instance set_riProtocol : Setter riProtocol. Proof. derive_setter. Defined.
#[export] Instance set_riSeeders : Setter riSeeders. Proof. derive_setter. Defined.
#[export] Instance set_riPublishedAt : Setter riPublishedAt. Proof. derive_setter. Defined.
#[export] Instance set_riTitle : Setter riTitle. Proof. derive_setter. Defined.
#[export] Instance set_riSizeBytes : Setter riSizeBytes. Proof. derive_setter. Defined.

Definition zero_Quality : Quality := mkQuality "" "" 0 "".
Definition zero_Revision : Revision := mkRevision 0 0 false.

Definition zero_ReleaseInfo : ReleaseInfo :=
  mkReleaseInfo "" "" "" [] "" (ProtocolOther "") 0 None "" "" "" "" None None [] [] zero_Quality zero_Revision
    "" "" [] [] "" 0 [] ∅ [].

(** ** Parsed titles *)

Record MusicInfo := mkMusicInfo { muArtist : string; muAlbum : string; muYear : Z }.
Record BookInfo := mkBookInfo { bkAuthor : string; bkBookTitle : string; bkYear : Z }.
Record ComicInfo := mkComicInfo { cmSeries : string; cmIssue : string; cmYear : Z }.

Record ParsedRelease := mkParsedRelease {
  prTitle : string;
  prTitles : list string;
  prYear : Z;
  prQuality : Quality;
  prRevision : Revision;
  prLanguages : list string;
  prLanguageUnknown : bool;
  prDualAudio : bool;
  prNamesOriginal : bool;
  prGroup : string;
  prEdition : string;
  prSeasons : list Z;
  prEpisodes : list Z;
  prAbsolute : list Z;
  prAirDate : option Time;
  prFullSeason : bool;
  prReleaseType : string;
  prMusic : option MusicInfo;
  prBook : option BookInfo;
  prComic : option ComicInfo;
  prCodec : list string;
  prHDR : list string;
  prIDs : gmap string string;
}.

#[export] Instance eta_ParsedRelease : Eta ParsedRelease := fun p =>
  mkParsedRelease (prTitle p) (prTitles p) (prYear p) (prQuality p) (prRevision p) (prLanguages p) (prLanguageUnknown p)
    (prDualAudio p) (prNamesOriginal p) (prGroup p) (prEdition p) (prSeasons p) (prEpisodes p) (prAbsolute p)
    (prAirDate p) (prFullSeason p) (prReleaseType p) (prMusic p) (prBook p) (prComic p) (prCodec p) (prHDR p) (prIDs p).

#[export] Instance set_prLanguages : Setter prLanguages. Proof. derive_setter. Defined.
#[export] Instance set_prLanguageUnknown : Setter prLanguageUnknown. Proof. derive_setter. Defined.

Definition zero_ParsedRelease : ParsedRelease :=
  mkParsedRelease "" [] 0 zero_Quality zero_Revision [] false false false "" "" [] [] [] None false "" None None None
    [] [] ∅.

(** [LanguagesFor]: the languages of a release of an item of this original
    language, "" when unknown. *)
Definition LanguagesFor (p : ParsedRelease) (originalLanguage : string) : list string :=
  if String.eqb originalLanguage "" then prLanguages p
  else if prLanguageUnknown p then [originalLanguage]
  else if prDualAudio p && negb (String.eqb originalLanguage "English") &&
    negb (existsb (fun l => negb (String.eqb l "English")) (prLanguages p)) then [originalLanguage; "English"]
  else if prNamesOriginal p && negb (contains (prLanguages p) originalLanguage) then prLanguages p ++ [originalLanguage]
  else if prNamesOriginal p && negb (contains (prLanguages p) "English") then prLanguages p ++ ["English"]
  else prLanguages p.

(** [LanguagesWith]; [g] is the learned language of a release group, [None]
    where the context holds none. *)
Definition LanguagesWith (p : ParsedRelease) (originalLanguage : string) (g : option (string -> option string)) :
    list string :=
  let learned :=
    match g with
    | Some g =>
        if prDualAudio p && negb (String.eqb (prGroup p) "") &&
          negb (existsb (fun l => negb (String.eqb l "English")) (prLanguages p))
        then match g (prGroup p) with
             | Some l => if String.eqb l "" || String.eqb l "English" then None else Some l
             | None => None
             end
        else None
    | None => None
    end in
  match learned with
  | Some l =>
      if String.eqb originalLanguage "" then [l]
      else if String.eqb originalLanguage l then [l; "English"]
      else [originalLanguage; l]
  | None => LanguagesFor p originalLanguage
  end.

(** [indexerLanguages] (evaluate.go), on the parsed release. *)
Definition indexerLanguages (p : ParsedRelease) (rel : ReleaseInfo) : ParsedRelease :=
  if bool_decide (riIndexerLanguages rel = []) ||
    (prDualAudio p && (Z.of_nat (length (riIndexerLanguages rel)) <? 2))
  then p
  else p <| prLanguages := riIndexerLanguages rel |> <| prLanguageUnknown := false |>.

(** [ApplyTo], answering the release it fills. *)
Definition ApplyTo (p : ParsedRelease) (ri : ReleaseInfo) : ReleaseInfo :=
  ri <| riQuality := prQuality p |> <| riRevision := prRevision p |> <| riReleaseGroup := prGroup p |>
     <| riEdition := prEdition p |> <| riLanguages := prLanguages p |> <| riReleaseType := prReleaseType p |>
     <| riIDs ::= fun ids => prIDs p ∪ ids |>.

(** ** Rejections *)

Record Rejection := mkRejection { rjReason : string; rjType : string }.
Record Reason := mkReason { rsCode : string; rsType : string }.

#[export] Instance Rejection_eq_dec : EqDecision Rejection.
Proof. solve_decision. Defined.

Definition RejectionPermanent : string := "Permanent".
Definition RejectionTemporary : string := "Temporary".

Definition permanent (code : string) : Reason := mkReason code RejectionPermanent.

Definition ReasonUnableToParse := permanent "UnableToParse".
Definition ReasonProtocolDisabled := permanent "ProtocolDisabled".
Definition ReasonUnavailable := permanent "Availability".
Definition ReasonBelowMinimumSize := permanent "BelowMinimumSize".
Definition ReasonAboveMaximumSize := permanent "AboveMaximumSize".
Definition ReasonBelowMinimumBitrate := permanent "BelowMinimumBitrate".
Definition ReasonAboveMaximumBitrate := permanent "AboveMaximumBitrate".
Definition ReasonQualityNotWanted := permanent "QualityNotWanted".
Definition ReasonCustomFormatMinimumScore := permanent "CustomFormatMinimumScore".
Definition ReasonWantedLanguage := permanent "WantedLanguage".
Definition ReasonSample := permanent "Sample".
Definition ReasonBlocklisted := permanent "Blocklisted".
Definition ReasonAlreadyImportedSameHash := permanent "AlreadyImportedSameHash".
Definition ReasonAlreadyImportedSameName := permanent "AlreadyImportedSameName".
Definition ReasonQueueHigherPreference := permanent "QueueHigherPreference".
Definition ReasonPackDownloading := permanent "PackDownloading".
Definition ReasonEpisodeDownloading := permanent "EpisodeDownloading".
Definition ReasonExistingHigherPreference := permanent "ExistingHigherPreference".
Definition ReasonUpgradesNotAllowed := permanent "UpgradesNotAllowed".
Definition ReasonExistingHigherRevision := permanent "ExistingHigherRevision".
Definition ReasonExistingCutoffMet := permanent "ExistingCutoffMet".
Definition ReasonExistingFormatScore := permanent "ExistingFormatScore".
Definition ReasonExistingFormatCutoffMet := permanent "ExistingFormatCutoffMet".
Definition ReasonExistingFormatScoreIncrement := permanent "ExistingFormatScoreIncrement".
Definition ReasonDonorLanguage := permanent "DonorLanguage".
Definition ReasonDonorRejected := permanent "DonorRejected".
Definition ReasonDonorQueued := permanent "DonorQueued".
Definition ReasonWrongItem := permanent "WrongItem".
Definition ReasonUnknownItem := permanent "UnknownItem".
Definition ReasonFullSeason := permanent "FullSeason".
Definition ReasonTranscodedFinal := permanent "TranscodedFinal".
Definition ReasonDolbyVision := permanent "DolbyVision".
Definition ReasonLosesHDR := permanent "LosesHDR".
Definition ReasonAVCOverHEVC := permanent "AVCOverHEVC".
Definition ReasonFullSeasonNotAired := permanent "FullSeasonNotAired".

(** Every reason of reasons.go. *)
Definition reasons : list Reason := [
  ReasonUnableToParse; ReasonProtocolDisabled; ReasonUnavailable; ReasonBelowMinimumSize; ReasonAboveMaximumSize;
  ReasonBelowMinimumBitrate; ReasonAboveMaximumBitrate; ReasonQualityNotWanted; ReasonCustomFormatMinimumScore;
  ReasonWantedLanguage; ReasonSample; ReasonBlocklisted; ReasonAlreadyImportedSameHash; ReasonAlreadyImportedSameName;
  ReasonQueueHigherPreference; ReasonPackDownloading; ReasonEpisodeDownloading; ReasonExistingHigherPreference;
  ReasonUpgradesNotAllowed; ReasonExistingHigherRevision; ReasonExistingCutoffMet; ReasonExistingFormatScore;
  ReasonExistingFormatCutoffMet; ReasonExistingFormatScoreIncrement; ReasonDonorLanguage; ReasonDonorRejected;
  ReasonDonorQueued; ReasonWrongItem; ReasonUnknownItem; ReasonFullSeason; ReasonTranscodedFinal; ReasonDolbyVision;
  ReasonLosesHDR; ReasonAVCOverHEVC; ReasonFullSeasonNotAired].

(** [newRejection], its detail formatted. *)
Definition newRejection (r : Reason) (detail : string) : Rejection :=
  mkRejection (rsCode r +:+ ": " +:+ detail) (rsType r).

Definition FullSeasonNotAired (season : Z) : Rejection :=
  newRejection ReasonFullSeasonNotAired
    ("full season pack of season " +:+ fmt_d season +:+ ", which has not finished airing").

(** [Reason.Of]. *)
Definition Of (r : Reason) (rej : Rejection) : bool := HasPrefix (rjReason rej) (rsCode r +:+ ": ").

(** [rejectionCode] (parts.go). *)
Definition rejectionCode (rej : Rejection) : string := fst (fst (CutString ": " (rjReason rej))).

Definition allTemporary (rejections : list Rejection) : bool :=
  forallb (fun r => String.eqb (rjType r) RejectionTemporary) rejections.

(** ** Bands (bands.go) *)

Inductive ResultBand := BandApproved | BandRejected | BandOtherTitle.

#[export] Instance ResultBand_eq_dec : EqDecision ResultBand.
Proof. solve_decision. Defined.

Definition other_title (r : Rejection) : bool :=
  Of ReasonWrongItem r || Of ReasonUnknownItem r || Of ReasonUnableToParse r.

Definition BandOf (approved : bool) (rejs : list Rejection) : ResultBand :=
  if approved && bool_decide (rejs = []) then BandApproved
  else if existsb other_title rejs then BandOtherTitle else BandRejected.

Definition ResultBand_String (b : ResultBand) : string :=
  match b with BandApproved => "approved" | BandRejected => "rejected" | BandOtherTitle => "otherTitles" end.

(** ** Decisions (types.go) *)

Record RankKey := mkRankKey {
  rkQualityIndex : Z;
  rkTiers : Z;
  rkPreferRevision : bool;
  rkRevision : Revision;
  rkFormatScore : Z;
  rkPreferredProtocolMatch : bool;
  rkEpisodeCount : Z;
  rkPreferLargestSize : bool;
  rkSizeDeltaBucket : Z;
  rkSizeBytes : Z;
  rkPreferSmallestSize : bool;
  rkLanguagesComplete : bool;
  rkCompleteFirst : bool;
  rkDonor : bool;
  rkDonorLineage : Z;
  rkAnime : bool;
}.

#[export] Instance eta_RankKey : Eta RankKey := fun k =>
  mkRankKey (rkQualityIndex k) (rkTiers k) (rkPreferRevision k) (rkRevision k) (rkFormatScore k)
    (rkPreferredProtocolMatch k) (rkEpisodeCount k) (rkPreferLargestSize k) (rkSizeDeltaBucket k) (rkSizeBytes k)
    (rkPreferSmallestSize k) (rkLanguagesComplete k) (rkCompleteFirst k) (rkDonor k) (rkDonorLineage k) (rkAnime k).

#[export] Instance set_rkEpisodeCount : Setter rkEpisodeCount. Proof. derive_setter. Defined.
#[export] Instance set_rkPreferLargestSize : Setter rkPreferLargestSize. Proof. derive_setter. Defined.
#[export] Instance set_rkSizeDeltaBucket : Setter rkSizeDeltaBucket. Proof. derive_setter. Defined.
#[export] Instance set_rkSizeBytes : Setter rkSizeBytes. Proof. derive_setter. Defined.
#[export] Instance set_rkPreferSmallestSize : Setter rkPreferSmallestSize. Proof. derive_setter. Defined.
#[export] Instance set_rkLanguagesComplete : Setter rkLanguagesComplete. Proof. derive_setter. Defined.

(** The zero key. *)
Definition zero_RankKey : RankKey :=
  mkRankKey 0 0 false zero_Revision 0 false 0 false 0 0 false false false false 0 false.

(** [Coverage]; an episode is its season and number. *)
Record Coverage := mkCoverage {
  cvFullSeasons : list Z;
  cvEpisodes : list (Z * Z);
  cvAbsolute : list Z;
}.

Record Decision := mkDecision {
  dcRelease : ReleaseInfo;
  dcParsed : option ParsedRelease;
  dcApproved : bool;
  dcTemporarilyRejected : bool;
  dcRejections : list Rejection;
  dcScore : Z;
  dcMatched : list string;
  dcRank : RankKey;
  dcCoverage : option Coverage;
}.

#[export] Instance eta_Decision : Eta Decision := fun d =>
  mkDecision (dcRelease d) (dcParsed d) (dcApproved d) (dcTemporarilyRejected d) (dcRejections d) (dcScore d)
    (dcMatched d) (dcRank d) (dcCoverage d).

#[export] Instance set_dcApproved : Setter dcApproved. Proof. derive_setter. Defined.
#[export] Instance set_dcTemporarilyRejected : Setter dcTemporarilyRejected. Proof. derive_setter. Defined.
#[export] Instance set_dcRejections : Setter dcRejections. Proof. derive_setter. Defined.
#[export] Instance set_dcRank : Setter dcRank. Proof. derive_setter. Defined.
#[export] Instance set_dcCoverage : Setter dcCoverage. Proof. derive_setter. Defined.

(** ** A rejection says what it was raised for *)

Lemma HasPrefix_cons a s b p : HasPrefix (String a s) (String b p) = Ascii.eqb b a && HasPrefix s p.
Proof.
  unfold HasPrefix. cbn [String.prefix]. destruct (Ascii.ascii_dec b a) as [-> | Hne].
  - by rewrite Ascii.eqb_refl.
  - apply Ascii.eqb_neq in Hne. by rewrite Hne.
Qed.

Lemma HasPrefix_app s p : HasPrefix (p +:+ s) p = true.
Proof. induction p as [| a p IH]; [by destruct s |]. by rewrite app_cons, HasPrefix_cons, Ascii.eqb_refl. Qed.

Lemma HasPrefix_code c c' d : no_sep ":" c -> no_sep ":" c' ->
  HasPrefix (c +:+ ": " +:+ d) (c' +:+ ": ") = String.eqb c c'.
Proof.
  unfold no_sep. revert c'. induction c as [| a c IH]; intros [| a' c'] Hc Hc'; rewrite ?app_empty, ?app_cons.
  - by destruct d.
  - cbn in Hc'. rewrite HasPrefix_cons. by destruct (Ascii.eqb a' ":").
  - cbn in Hc. rewrite HasPrefix_cons. rewrite (Ascii.eqb_sym ":" a). by destruct (Ascii.eqb a ":").
  - cbn in Hc, Hc'. bools. rewrite HasPrefix_cons, IH by done. cbn [String.eqb]. rewrite (Ascii.eqb_sym a' a).
    by destruct (Ascii.eqb a a').
Qed.

Lemma CutString_code c d : no_sep ":" c -> CutString ": " (c +:+ ": " +:+ d) = (c, d, true).
Proof.
  unfold no_sep. induction c as [| a c IH]; intros Hc; [by destruct d |].
  cbn in Hc. bools. rewrite app_cons. cbn [CutString]. rewrite HasPrefix_cons, (Ascii.eqb_sym ":" a).
  destruct (Ascii.eqb a ":"); [done |]. cbn [andb]. by rewrite IH.
Qed.

Lemma reason_codes r : r ∈ reasons -> no_sep ":" (rsCode r) /\ rsType r = RejectionPermanent.
Proof.
  intros Hr.
  assert (forallb (fun r => str_forall (fun a => negb (Ascii.eqb a ":")) (rsCode r) &&
    String.eqb (rsType r) RejectionPermanent) reasons = true) as H by (vm_compute; reflexivity).
  rewrite forallb_forall in H. specialize (H r). rewrite <- list_elem_of_In in H. specialize (H Hr). by bools.
Qed.

Lemma Of_newRejection r r' d : r ∈ reasons -> r' ∈ reasons ->
  Of r' (newRejection r d) = String.eqb (rsCode r) (rsCode r').
Proof. intros [Hr _]%reason_codes [Hr' _]%reason_codes. unfold Of. by apply HasPrefix_code. Qed.

Lemma rejectionCode_newRejection r d : r ∈ reasons -> rejectionCode (newRejection r d) = rsCode r.
Proof. intros [Hr _]%reason_codes. unfold rejectionCode. cbn [newRejection rjReason]. by rewrite CutString_code. Qed.

(** A rejection of [newRejection]'s, for a reason of reasons.go. *)
Definition raised (rej : Rejection) : Prop := exists r d, r ∈ reasons /\ rej = newRejection r d.

Lemma raised_permanent rej : raised rej -> rjType rej = RejectionPermanent.
Proof. intros (r & d & Hr & ->). by apply reason_codes. Qed.
