(* ===== verification/Languages.v ===== *)
(** * Languages: tags and display names

    src/pkg/lang/lang.go: language codes brought to canonical tags, over the
    parser of a third-party package; src/pkg/quality/catalogue/languages.go: the
    table between tags and the display names releases are matched on; and
    src/pkg/decision/language.go, where an item's tag crosses over. *)

From S2P Require Import Prelude GoLang Api Release.
From Stdlib Require Import Ascii.

(** [language.Parse] of golang.org/x/text: the tag's canonical form, and whether
    its base language is known and not private. *)
Class TagParser := { parse_tag : string -> option (string * bool) }.

Record Language := mkLanguage { lnID : Z; lnName : string; lnTag : string }.

Definition languages : list Language := [
  mkLanguage (-2) "Original" "";
  mkLanguage (-1) "Any" "";
  mkLanguage 0 "Unknown" "";
  mkLanguage 1 "English" "en";
  mkLanguage 2 "French" "fr";
  mkLanguage 3 "Spanish" "es";
  mkLanguage 4 "German" "de";
  mkLanguage 5 "Italian" "it";
  mkLanguage 6 "Danish" "da";
  mkLanguage 7 "Dutch" "nl";
  mkLanguage 8 "Japanese" "ja";
  mkLanguage 9 "Icelandic" "is";
  mkLanguage 10 "Chinese" "zh";
  mkLanguage 11 "Russian" "ru";
  mkLanguage 12 "Polish" "pl";
  mkLanguage 13 "Vietnamese" "vi";
  mkLanguage 14 "Swedish" "sv";
  mkLanguage 15 "Norwegian" "no";
  mkLanguage 16 "Finnish" "fi";
  mkLanguage 17 "Turkish" "tr";
  mkLanguage 18 "Portuguese" "pt";
  mkLanguage 19 "Flemish" "";
  mkLanguage 20 "Greek" "el";
  mkLanguage 21 "Korean" "ko";
  mkLanguage 22 "Hungarian" "hu";
  mkLanguage 23 "Hebrew" "he";
  mkLanguage 24 "Lithuanian" "lt";
  mkLanguage 25 "Czech" "cs";
  mkLanguage 26 "Hindi" "hi";
  mkLanguage 27 "Romanian" "ro";
  mkLanguage 28 "Thai" "th";
  mkLanguage 29 "Bulgarian" "bg";
  mkLanguage 30 "Portuguese (Brazil)" "";
  mkLanguage 31 "Arabic" "ar";
  mkLanguage 32 "Ukrainian" "uk";
  mkLanguage 33 "Persian" "fa";
  mkLanguage 34 "Bengali" "bn";
  mkLanguage 35 "Slovak" "sk";
  mkLanguage 36 "Latvian" "lv";
  mkLanguage 37 "Spanish (Latino)" "";
  mkLanguage 38 "Catalan" "ca";
  mkLanguage 39 "Croatian" "hr";
  mkLanguage 40 "Serbian" "sr";
  mkLanguage 41 "Bosnian" "bs";
  mkLanguage 42 "Estonian" "et";
  mkLanguage 43 "Tamil" "ta";
  mkLanguage 44 "Indonesian" "id";
  mkLanguage 45 "Telugu" "te";
  mkLanguage 46 "Macedonian" "mk";
  mkLanguage 47 "Slovenian" "sl";
  mkLanguage 48 "Malayalam" "ml";
  mkLanguage 49 "Kannada" "kn";
  mkLanguage 50 "Albanian" "sq";
  mkLanguage 51 "Afrikaans" "af";
  mkLanguage 52 "Marathi" "mr";
  mkLanguage 53 "Tagalog" "tl";
  mkLanguage 54 "Urdu" "ur";
  mkLanguage 55 "Romansh" "rm";
  mkLanguage 56 "Mongolian" "mn";
  mkLanguage 57 "Georgian" "ka"].

Section languages.
Context `{Unicode} `{TagParser}.

(** [Normalize]: [None] is its [false]. *)
Definition Normalize (code : string) : option string :=
  let s := str_map (fun a => if Ascii.eqb a "_" then "-"%char else a) (TrimSpace code) in
  if String.eqb s "" then None
  else match parse_tag s with
       | None => None
       | Some (tag, base) =>
           let primary := ToLower (fst (fst (Cut "-" tag))) in
           if contains ["und"; "mul"; "zxx"] primary || negb base then None else Some tag
       end.

Definition LanguageName (tag : string) : option string :=
  let primary := fst (fst (Cut "-" tag)) in
  if String.eqb primary "" then None
  else option_map lnName (find (fun l => negb (String.eqb (lnTag l) "") && EqualFold (lnTag l) primary) languages).

Definition LanguageTag (name : string) : option string :=
  option_map lnTag (find (fun l => negb (String.eqb (lnTag l) "") && EqualFold (lnName l) name) languages).

(** [originalLanguageName] (decision/language.go); "" is an unknown language. *)
Definition originalLanguageName (tag : string) : string :=
  if String.eqb tag "" then ""
  else match LanguageName tag with
       | Some name => name
       | None => match Normalize tag with
                 | Some normalized => default "" (LanguageName normalized)
                 | None => ""
                 end
       end.

(** [baseLanguage] (decision/audiolanguage.go). *)
Definition baseLanguage (tag : string) : string := ToLower (fst (fst (Cut "-" tag))).

(** The table reads back: a row's tag names it, with any region behind it, and
    its name gives the tag. *)
Lemma languages_read_back l region : l ∈ languages -> lnTag l <> "" ->
  LanguageName (lnTag l) = Some (lnName l) /\ LanguageName (lnTag l +:+ String "-" region) = Some (lnName l) /\
  LanguageTag (lnName l) = Some (lnTag l).
Proof.
  intros Hl Ht. apply list_elem_of_In in Hl. unfold languages in Hl.
  repeat (destruct Hl as [<- | Hl]; [first [by destruct (Ht eq_refl) | split_and!; vm_compute; reflexivity] |]). done.
Qed.
End languages.
