(* ===== verification/Rank.v ===== *)
(** * Rank: the order releases are taken in

    src/pkg/decision/rank.go and score.go: [less], the comparator, and [Rank],
    the stable sort by it.  [less] reads the clock for each side of a usenet tie-break; the theorems take
    one instant for a whole sort. *)

From stdpp Require Import sorting.
From S2P Require Import Prelude GoLang GoFacts Api RankScore Release.
From Stdlib Require Import Ascii.

Definition MaxInt32 : Z := 2147483647.

Definition WholeSeason (k : RankKey) : bool := rkEpisodeCount k =? MaxInt32.

(** [RankKey.Score] (score.go). *)
Definition key_Score (k : RankKey) : Z :=
  Score (mkInputs (rkFormatScore k) (rkPreferredProtocolMatch k) (WholeSeason k) (rkRevision k) (rkPreferRevision k)
    (rkQualityIndex k) (rkTiers k) (rkLanguagesComplete k) (rkCompleteFirst k)).

Definition CompareEpisodeCount (aWhole : bool) (aCount : Z) (bWhole : bool) (bCount : Z) (anime : bool) : Z :=
  if negb (Bool.eqb aWhole bWhole) then (if aWhole then -1 else 1)
  else if aCount =? bCount then 0
  else if Bool.eqb (bCount <? aCount) anime then -1 else 1.

Definition defaultIndexerPriority : Z := 25.

(** [Options.IndexerPriority]. *)
Definition indexerPriority (o : gmap string Z) (ref : string) : Z := default defaultIndexerPriority (o !! ref).

Definition flag_score (f : string) : Z :=
  if String.eqb f "freeleech" || String.eqb f "doubleupload" || String.eqb f "internal" then 2
  else if String.eqb f "halfleech" then 1 else 0.

Definition indexerFlagScore (flags : list string) : Z := fold_left (fun score f => wrap64 (score + flag_score f)) flags 0.

(** [math.Round(math.Log10(float64(n)))] of a whole number from 1 to 2^31: the
    powers of ten whose square root [n] exceeds.  No whole number that size is
    close enough to one for the floats to tell otherwise. *)
Fixpoint round_log10_from (fuel : nat) (k n : Z) : Z :=
  match fuel with
  | O => k
  | S fuel => if 10 ^ (2 * k + 1) <=? n * n then round_log10_from fuel (k + 1) n else k
  end.

Definition round_log10 (n : Z) : Z := round_log10_from 10 0 n.

(** [release.Age]: days and hours, whole. *)
Definition Age (publishedAt now : Time) : Z * Z :=
  let d := Sub now publishedAt in
  if d <=? 0 then (0, 0) else (wrap32 (Z.quot d (24 * Hour)), wrap32 (Z.quot d Hour)).

Definition seedersOrAgeScore (now : Time) (rel : ReleaseInfo) : Z :=
  match riProtocol rel with
  | ProtocolTorrent =>
      match riSeeders rel with
      | Some n => if n <=? 0 then 0 else round_log10 n
      | None => 0
      end
  | ProtocolUsenet =>
      match riPublishedAt rel with
      | None => 0
      | Some t =>
          let '(days, hours) := Age t now in
          if hours <? 1 then 1000
          else if hours <=? 24 then 100
          else if days <=? 7 then 10
          else round_log10 days * -1
      end
  | ProtocolOther _ => 0
  end.

(** [less], the clock reading [nowA] for [a] and [nowB] for [b]. *)
Definition less (nowA nowB : Time) (o : gmap string Z) (a b : Decision) : bool :=
  let ra := dcRank a in let rb := dcRank b in
  let donors := rkDonor ra && rkDonor rb in
  if donors && negb (rkDonorLineage ra =? rkDonorLineage rb) then rkDonorLineage rb <? rkDonorLineage ra
  else if donors && negb (rkSizeBytes ra =? rkSizeBytes rb) then rkSizeBytes ra <? rkSizeBytes rb
  else if negb (key_Score ra =? key_Score rb) then key_Score rb <? key_Score ra
  else if negb (Bool.eqb (rkLanguagesComplete ra) (rkLanguagesComplete rb)) then rkLanguagesComplete ra
  else if rkPreferSmallestSize ra && rkPreferSmallestSize rb && negb (rkSizeBytes ra =? rkSizeBytes rb) then
    rkSizeBytes ra <? rkSizeBytes rb
  else
    let c := CompareEpisodeCount (WholeSeason ra) (rkEpisodeCount ra) (WholeSeason rb) (rkEpisodeCount rb) (rkAnime ra) in
    if negb (c =? 0) then c <? 0
    else
      let pa := indexerPriority o (riIndexerRef (dcRelease a)) in
      let pb := indexerPriority o (riIndexerRef (dcRelease b)) in
      if negb (pa =? pb) then pa <? pb
      else
        let fa := indexerFlagScore (riIndexerFlags (dcRelease a)) in
        let fb := indexerFlagScore (riIndexerFlags (dcRelease b)) in
        if negb (fa =? fb) then fb <? fa
        else
          let sa := seedersOrAgeScore nowA (dcRelease a) in
          let sb := seedersOrAgeScore nowB (dcRelease b) in
          if negb (sa =? sb) then sb <? sa
          else if rkPreferLargestSize ra then rkSizeBytes rb <? rkSizeBytes ra
          else rkSizeDeltaBucket ra <? rkSizeDeltaBucket rb.

Definition Rank (now : Time) (o : gmap string Z) (ds : list Decision) : list Decision :=
  SliceStable (less now now o) ds.

(** ** The comparator is an order *)

Lemma lexb_asym l m : lexb l m = true -> lexb m l = false.
Proof.
  revert m. induction l as [| x l IH]; intros [| y m]; cbn; try done. rewrite (Z.eqb_sym y x).
  destruct (Z.eqb_spec x y); [apply IH | lia].
Qed.

Lemma lexb_cotrans l m n : length l = length m -> length m = length n ->
  lexb l n = true -> lexb l m = true \/ lexb m n = true.
Proof.
  revert m n. induction l as [| x l IH]; intros [| y m] [| z n]; cbn; try done. intros [= Hm] [= Hn].
  destruct (Z.eqb_spec x z), (Z.eqb_spec x y), (Z.eqb_spec y z); intros H; try (by apply IH); try lia.
Qed.

Section stages.
Variables (l m : list Z) (r : bool).
Hypothesis rest : r = lexb l m.

Lemma stage_up a b : (if negb (a =? b) then a <? b else r) = lexb (a :: l) (b :: m).
Proof using rest. cbn. destruct (a =? b); [exact rest | done]. Qed.

Lemma stage_down a b : (if negb (a =? b) then b <? a else r) = lexb (- a :: l) (- b :: m).
Proof using rest. cbn. destruct (Z.eqb_spec a b), (Z.eqb_spec (- a) (- b)); cbn; [exact rest | lia | lia | lia]. Qed.

Lemma stage_true a b : (if negb (Bool.eqb a b) then a else r) = lexb (- Z.b2z a :: l) (- Z.b2z b :: m).
Proof using rest. destruct a, b; cbn; done || exact rest. Qed.

Lemma stage_same : r = lexb (0 :: l) (0 :: m).
Proof using rest. exact rest. Qed.

Lemma stage_episodes wa ca wb cb anime :
  (let c := CompareEpisodeCount wa ca wb cb anime in if negb (c =? 0) then c <? 0 else r) =
  lexb (- Z.b2z wa :: (if anime : bool then - ca else ca) :: l) (- Z.b2z wb :: (if anime then - cb else cb) :: m).
Proof using rest.
  unfold CompareEpisodeCount. destruct wa, wb; cbn; try done.
  all: destruct anime, (Z.eqb_spec ca cb) as [-> | Hne]; rewrite ?Z.eqb_refl; cbn; try exact rest.
  all: destruct (Z.ltb_spec cb ca); cbn; repeat case_match; bools; lia.
Qed.
End stages.

(** A rank key as [Evaluate] and the donor check build it: the release's size
    counts alone when the largest is preferred, and its size is known then; it
    is left out otherwise, the smallest preferred and donors apart. *)
Definition measured (k : RankKey) : Prop :=
  if rkPreferLargestSize k
  then rkSizeDeltaBucket k = 0 /\ 0 < rkSizeBytes k /\ rkPreferSmallestSize k = false /\ rkDonor k = false
  else 0 <= rkSizeDeltaBucket k /\ (rkPreferSmallestSize k = true \/ rkDonor k = true \/ rkSizeBytes k = 0).

(** Decisions of one target under one profile: all donors or none, all ranked
    smallest first or none, all of an anime series or none. *)
Record kin (donor smallest anime : bool) (d : Decision) : Prop := {
  kin_donor : rkDonor (dcRank d) = donor;
  kin_smallest : rkPreferSmallestSize (dcRank d) = smallest;
  kin_anime : rkAnime (dcRank d) = anime;
  kin_measured : measured (dcRank d);
}.

(** What places a decision, first thing first, less before more. *)
Definition place (now : Time) (o : gmap string Z) (d : Decision) : list Z :=
  let k := dcRank d in
  [if rkDonor k then - rkDonorLineage k else 0;
   if rkDonor k then rkSizeBytes k else 0;
   - key_Score k;
   - Z.b2z (rkLanguagesComplete k);
   if rkPreferSmallestSize k then rkSizeBytes k else 0;
   - Z.b2z (WholeSeason k);
   if rkAnime k then - rkEpisodeCount k else rkEpisodeCount k;
   indexerPriority o (riIndexerRef (dcRelease d));
   - indexerFlagScore (riIndexerFlags (dcRelease d));
   - seedersOrAgeScore now (dcRelease d);
   - Z.b2z (rkPreferLargestSize k);
   if rkPreferLargestSize k then - rkSizeBytes k else rkSizeDeltaBucket k].

Lemma stage_size a b : measured a -> measured b -> rkDonor b = rkDonor a ->
  rkPreferSmallestSize b = rkPreferSmallestSize a ->
  (if rkPreferLargestSize a then rkSizeBytes b <? rkSizeBytes a else rkSizeDeltaBucket a <? rkSizeDeltaBucket b) =
  lexb [- Z.b2z (rkPreferLargestSize a); if rkPreferLargestSize a then - rkSizeBytes a else rkSizeDeltaBucket a]
       [- Z.b2z (rkPreferLargestSize b); if rkPreferLargestSize b then - rkSizeBytes b else rkSizeDeltaBucket b].
Proof.
  unfold measured. intros Ha Hb Hd Hs. rewrite Hd, Hs in Hb.
  assert (rkPreferLargestSize a = true -> rkPreferLargestSize b = false -> rkSizeBytes b = 0) as Hmixed.
  { intros E1 E2. rewrite E1 in Ha. rewrite E2 in Hb. destruct Ha as (? & ? & ? & ?), Hb as (? & [? | [? | ?]]); congruence. }
  destruct (rkPreferLargestSize a), (rkPreferLargestSize b); cbn; repeat case_match; bools; try lia;
    rewrite Hmixed by done; lia.
Qed.

Lemma less_place now o donor smallest anime a b : kin donor smallest anime a -> kin donor smallest anime b ->
  less now now o a b = lexb (place now o a) (place now o b).
Proof.
  intros [<- <- <- Ha] [Hd Hs Han Hb]. unfold less, place. rewrite Hd, Hs, Han, !andb_diag.
  destruct (rkDonor (dcRank a)) eqn:Ed; cbn [andb]; [apply stage_down, stage_up | apply stage_same, stage_same];
    apply stage_down, stage_true;
    (destruct (rkPreferSmallestSize (dcRank a)) eqn:Es; cbn [andb]; [apply stage_up | apply stage_same]);
    apply stage_episodes, stage_up, stage_down, stage_down; apply stage_size; try done; congruence.
Qed.

(** Ranking is a stable sort: for the decisions of one target under one
    profile, whatever stable sorting algorithm is run by the comparator, the
    result is [Rank]'s: best first, every decision kept, ties in the order they
    were found. *)
Theorem Rank_sorts (now : Time) (o : gmap string Z) (donor smallest anime : bool) (ds out : list Decision) :
  Forall (kin donor smallest anime) ds ->
  (stable_sort_of (less now now o) ds out <-> out = Rank now o ds).
Proof.
  intros Hds.
  assert (forall a b, kin donor smallest anime a -> kin donor smallest anime b ->
    less now now o a b = true -> less now now o b a = false) as Hasym.
  { intros a b Ka Kb. rewrite !(less_place now o donor smallest anime) by done. apply lexb_asym. }
  assert (forall a b c, kin donor smallest anime a -> kin donor smallest anime b -> kin donor smallest anime c ->
    less now now o a c = true -> less now now o a b = true \/ less now now o b c = true) as Hco.
  { intros a b c Ka Kb Kc. rewrite !(less_place now o donor smallest anime) by done. by apply lexb_cotrans. }
  pose proof (SliceStable_sorts _ _ Hasym Hco ds Hds) as Hs. unfold Rank. split; [| by intros ->].
  intros Hout. by apply (stable_sort_unique _ _ Hasym Hco ds).
Qed.

Definition ex_key (tier : Z) (largest : bool) (bucket size : Z) : RankKey :=
  mkRankKey tier 3 true (mkRevision 1 0 false) 0 false 1 largest bucket size false true false false 0 false.
Definition ex_decision (rel : ReleaseInfo) (k : RankKey) : Decision := mkDecision rel None true false [] 0 [] k None.
Definition ex_torrent (tier : Z) (largest : bool) (bucket size seeders : Z) : Decision :=
  ex_decision (zero_ReleaseInfo <| riProtocol := ProtocolTorrent |> <| riSeeders := Some seeders |>)
    (ex_key tier largest bucket size).

Lemma Rank_sorts_witness :
  let a := ex_torrent 1 true 0 700 40 in let b := ex_torrent 0 false 200 0 3 in let c := ex_torrent 0 true 0 900 3 in
  stable_sort_of (less 0 0 ∅) [a; b; c] [c; b; a].
Proof.
  apply (Rank_sorts 0 ∅ false false false); [| vm_compute; reflexivity].
  repeat constructor; cbn; lia || tauto.
Defined.

(** Where the largest is preferred and a release's size is not known, it ties
    with every release measured by its distance from a preferred size, and
    hides their order: the one further from it is taken first. *)
Lemma unknown_size_hides_order :
  let a := ex_torrent 0 true 0 0 3 in let b := ex_torrent 0 false 400 0 3 in let c := ex_torrent 0 false 0 0 3 in
  less 0 0 ∅ c b = true /\ Rank 0 ∅ [b; a; c] = [b; a; c] /\ Rank 0 ∅ [b; c; a] = [c; b; a].
Proof. vm_compute. by split_and!. Qed.

(** The clock moving on between the two sides of a comparison, two releases
    published at once are each less than the other. *)
Lemma clock_splits_ties :
  let a := ex_decision (zero_ReleaseInfo <| riProtocol := ProtocolUsenet |> <| riPublishedAt := Some 0 |>)
             (ex_key 0 false 0 0) in
  less (Hour - 1) Hour ∅ a a = true.
Proof. vm_compute. reflexivity. Qed.

Example round_log10_316 : map round_log10 [1; 3; 4; 31; 32; 316; 317; 2147483647] = [0; 0; 1; 1; 2; 2; 3; 9].
Proof. vm_compute. reflexivity. Qed.
