(* ===== verification/Coverage.v ===== *)
(** * Coverage: which episodes a release covers

    src/pkg/decision/identity_scene.go: a release's numbering read through the
    series' scene table first and literally second.  Go's maps with [true]
    values are sets; the lists of [export] are sorted, so no order of a map
    shows. *)

From stdpp Require Import sorting.
From S2P Require Import Prelude GoLang Api Release.
From Stdlib Require Import Ascii.

Record EpisodeNumbering := mkEpisodeNumbering { enSeason : Z; enEpisode : Z; enAbsolute : Z }.
Record SceneMapping := mkSceneMapping { smScene : EpisodeNumbering; smTVDB : EpisodeNumbering }.

#[export] Instance EpisodeNumbering_eq_dec : EqDecision EpisodeNumbering.
Proof. solve_decision. Defined.

Record sceneIndex := mkSceneIndex {
  byEpisode : gmap (Z * Z) (list EpisodeNumbering);
  bySeason : gmap Z (list EpisodeNumbering);
  byAbsolute : gmap Z (list EpisodeNumbering);
}.

(** [m[k]] of a map of slices, and [m[k] = append(m[k], v)]. *)
Definition rows_at {K} `{Countable K} (m : gmap K (list EpisodeNumbering)) (k : K) : list EpisodeNumbering :=
  default [] (m !! k).
Definition append_at {K} `{Countable K} (k : K) (v : EpisodeNumbering) (m : gmap K (list EpisodeNumbering)) :
    gmap K (list EpisodeNumbering) := <[k := rows_at m k ++ [v]]> m.

Definition add_row (idx : sceneIndex) (r : SceneMapping) : sceneIndex :=
  let scene := smScene r in let tvdb := smTVDB r in
  if enEpisode tvdb <=? 0 then idx
  else
    let idx := if 0 <? enEpisode scene
               then mkSceneIndex (append_at (enSeason scene, enEpisode scene) tvdb (byEpisode idx))
                      (append_at (enSeason scene) tvdb (bySeason idx)) (byAbsolute idx)
               else idx in
    if 0 <? enAbsolute scene
    then mkSceneIndex (byEpisode idx) (bySeason idx) (append_at (enAbsolute scene) tvdb (byAbsolute idx))
    else idx.

Definition newSceneIndex (rows : list SceneMapping) : sceneIndex := fold_left add_row rows (mkSceneIndex ∅ ∅ ∅).

Record coverage := mkcoverage {
  cvpairs : gset (Z * Z);
  cvfull : gset Z;
  cvabsolutes : gset Z;
  cvmapped : list EpisodeNumbering;
}.

Definition no_coverage : coverage := mkcoverage ∅ ∅ ∅ [].

Definition add_one (c : coverage) (e : EpisodeNumbering) : coverage :=
  mkcoverage ({[(enSeason e, enEpisode e)]} ∪ cvpairs c) (cvfull c)
    (if 0 <? enAbsolute e then {[enAbsolute e]} ∪ cvabsolutes c else cvabsolutes c) (cvmapped c ++ [e]).

Definition addMapped (c : coverage) (eps : list EpisodeNumbering) : coverage := fold_left add_one eps c.

(** The loops' bodies: a season of a full-season pack, an episode of a season,
    an absolute number. *)
Definition cover_season (scene : sceneIndex) (c : coverage) (s : Z) : coverage :=
  match rows_at (bySeason scene) s with
  | [] => mkcoverage (cvpairs c) ({[s]} ∪ cvfull c) (cvabsolutes c) (cvmapped c)
  | eps => addMapped c eps
  end.

Definition cover_episode (scene : sceneIndex) (s : Z) (c : coverage) (e : Z) : coverage :=
  match rows_at (byEpisode scene) (s, e) with
  | [] => mkcoverage ({[(s, e)]} ∪ cvpairs c) (cvfull c) (cvabsolutes c) (cvmapped c)
  | eps => addMapped c eps
  end.

Definition cover_absolute (scene : sceneIndex) (c : coverage) (a : Z) : coverage :=
  match rows_at (byAbsolute scene) a with
  | [e] => addMapped c [e]
  | _ => mkcoverage (cvpairs c) (cvfull c) ({[a]} ∪ cvabsolutes c) (cvmapped c)
  end.

Definition releaseCoverage (p : ParsedRelease) (scene : sceneIndex) : coverage :=
  let c := if prFullSeason p then fold_left (cover_season scene) (prSeasons p) no_coverage
           else fold_left (fun c s => fold_left (cover_episode scene s) (prEpisodes p) c) (prSeasons p) no_coverage in
  fold_left (cover_absolute scene) (prAbsolute p) c.

Definition hasInSeason (c : coverage) : bool := negb (bool_decide (cvpairs c = ∅)) || negb (bool_decide (cvfull c = ∅)).

Definition coversInSeason (c : coverage) (season : Z) (episodes : list Z) : bool :=
  bool_decide (season ∈ cvfull c) || forallb (fun e => bool_decide ((season, e) ∈ cvpairs c)) episodes.

Definition coversAbsolute (c : coverage) (absolutes : list Z) : bool :=
  forallb (fun a => bool_decide (a ∈ cvabsolutes c)) absolutes.

Definition coversAnyInSeason (c : coverage) (season : Z) (episodes : list Z) : bool :=
  bool_decide (season ∈ cvfull c) || existsb (fun e => bool_decide ((season, e) ∈ cvpairs c)) episodes.

Definition coversAnyAbsolute (c : coverage) (absolutes : list Z) : bool :=
  existsb (fun a => bool_decide (a ∈ cvabsolutes c)) absolutes.

(** [cmp.Compare] of the seasons, then of the numbers. *)
Definition pair_le (p q : Z * Z) : Prop := p.1 < q.1 \/ p.1 = q.1 /\ p.2 <= q.2.

#[export] Instance pair_le_dec : RelDecision pair_le.
Proof. intros p q. unfold pair_le. apply _. Defined.

(** [coverage.export]. *)
Definition export (c : coverage) : Coverage :=
  mkCoverage (merge_sort Z.le (elements (cvfull c))) (merge_sort pair_le (elements (cvpairs c)))
    (merge_sort Z.le (elements (cvabsolutes c))).

Definition CoverageOf (p : option ParsedRelease) (scene : list SceneMapping) : Coverage :=
  match p with
  | None => mkCoverage [] [] []
  | Some p => export (releaseCoverage p (newSceneIndex scene))
  end.

(** [describeMapping]. *)
Definition describeMapping (c : coverage) : string :=
  let mapped := cvmapped c in
  if bool_decide (mapped = []) then ""
  else
    let parts := map (fun e => "S" +:+ fmt_0d 2 (enSeason e) +:+ "E" +:+ fmt_0d 2 (enEpisode e)) (firstn 4 mapped) in
    let n := Z.of_nat (length mapped) - 4 in
    " (scene numbering; TVDB " +:+ Join parts ", " +:+
    (if 0 <? n then " and " +:+ fmt_d n +:+ " more" else "") +:+ ")".

(** ** The scene table, read *)

Section table.
Variable rows : list SceneMapping.

(** The rows that count: they name a TVDB episode. *)
Definition names_episode (r : SceneMapping) : Prop := 0 < enEpisode (smTVDB r).

(** The table files scene episode [e] of season [s], season [s], and scene
    absolute [a], as TVDB's [t]. *)
Definition files_episode (s e : Z) (t : EpisodeNumbering) : Prop :=
  exists r, r ∈ rows /\ names_episode r /\ smTVDB r = t /\ 0 < e /\ enSeason (smScene r) = s /\ enEpisode (smScene r) = e.
Definition files_season (s : Z) (t : EpisodeNumbering) : Prop := exists e, files_episode s e t.

(** The rows of scene absolute [a], in the table's order. *)
Definition absolute_rows (a : Z) : list EpisodeNumbering :=
  map smTVDB (filter (fun r => names_episode r /\ 0 < a /\ enAbsolute (smScene r) = a) rows).
End table.

Lemma rows_at_append {K} `{Countable K} (k j : K) v m :
  rows_at (append_at k v m) j = if decide (k = j) then rows_at m j ++ [v] else rows_at m j.
Proof.
  unfold append_at, rows_at. destruct (decide (k = j)) as [<- | Hne].
  - by rewrite lookup_insert_eq.
  - by rewrite lookup_insert_ne.
Qed.

Lemma newSceneIndex_snoc rows r : newSceneIndex (rows ++ [r]) = add_row (newSceneIndex rows) r.
Proof. unfold newSceneIndex. by rewrite fold_left_app. Qed.

Lemma files_snoc rows r s e t : files_episode (rows ++ [r]) s e t <->
  files_episode rows s e t \/
  (names_episode r /\ smTVDB r = t /\ 0 < e /\ enSeason (smScene r) = s /\ enEpisode (smScene r) = e).
Proof.
  unfold files_episode. split.
  - intros (r' & Hr & H). rewrite elem_of_app, list_elem_of_singleton in Hr. destruct Hr as [Hr | ->]; [left; eauto | by right].
  - intros [(r' & Hr & H) | H]; [exists r' | exists r]; rewrite elem_of_app, list_elem_of_singleton; tauto.
Qed.

Lemma byEpisode_files rows s e t :
  t ∈ rows_at (byEpisode (newSceneIndex rows)) (s, e) <-> files_episode rows s e t.
Proof.
  induction rows as [| r rows IH] using rev_ind.
  { unfold files_episode, rows_at. cbn. rewrite lookup_empty. cbn. setoid_rewrite elem_of_nil.
    split; [done | by intros (? & [] & _)]. }
  rewrite newSceneIndex_snoc, files_snoc, <- IH. unfold add_row, names_episode.
  destruct (Z.leb_spec (enEpisode (smTVDB r)) 0); [split; [tauto | intros [? | ?]; [done | lia]] |].
  destruct (Z.ltb_spec 0 (enEpisode (smScene r))), (0 <? enAbsolute (smScene r)); cbn [byEpisode];
    rewrite ?rows_at_append; try (split; [tauto | intros [? | ?]; [done | lia]]).
  all: destruct (decide ((enSeason (smScene r), enEpisode (smScene r)) = (s, e))) as [[= <- <-] | Hne];
    [rewrite elem_of_app, list_elem_of_singleton; intuition congruence | split; [tauto |]].
  all: intros [? | (_ & _ & _ & <- & <-)]; done.
Qed.

Lemma bySeason_files rows s t :
  t ∈ rows_at (bySeason (newSceneIndex rows)) s <-> files_season rows s t.
Proof.
  unfold files_season. induction rows as [| r rows IH] using rev_ind.
  { unfold files_episode, rows_at. cbn. rewrite lookup_empty. cbn. setoid_rewrite elem_of_nil.
    split; [done | by intros (? & ? & [] & _)]. }
  rewrite newSceneIndex_snoc. setoid_rewrite files_snoc. unfold add_row, names_episode.
  assert (forall P : Prop, (t ∈ rows_at (bySeason (newSceneIndex rows)) s <-> P) ->
    (forall e, ~ (0 < enEpisode (smTVDB r) /\ smTVDB r = t /\ 0 < e /\ enSeason (smScene r) = s /\ enEpisode (smScene r) = e)) ->
    (t ∈ rows_at (bySeason (newSceneIndex rows)) s <-> exists e, files_episode rows s e t \/
      (0 < enEpisode (smTVDB r) /\ smTVDB r = t /\ 0 < e /\ enSeason (smScene r) = s /\ enEpisode (smScene r) = e))) as Hskip.
  { intros P _ Hno. rewrite IH. split; [intros (e & He); eauto |]. intros (e & [He | He]); [eauto |]. by destruct (Hno e). }
  destruct (Z.leb_spec (enEpisode (smTVDB r)) 0); [apply (Hskip _ IH); lia |].
  destruct (Z.ltb_spec 0 (enEpisode (smScene r))), (0 <? enAbsolute (smScene r)); cbn [bySeason];
    rewrite ?rows_at_append; try (apply (Hskip _ IH); lia).
  all: destruct (decide (enSeason (smScene r) = s)) as [<- | Hne]; [| apply (Hskip _ IH); intros e (_ & _ & _ & ? & _); congruence].
  all: rewrite elem_of_app, list_elem_of_singleton, IH; split;
    [| intros (e & [He | (_ & <- & _)]); [left; eauto | by right]].
  all: intros [(e & He) | ->]; [eauto | exists (enEpisode (smScene r)); right; tauto].
Qed.

Lemma byAbsolute_files rows a : rows_at (byAbsolute (newSceneIndex rows)) a = absolute_rows rows a.
Proof.
  induction rows as [| r rows IH] using rev_ind; [done |]. rewrite newSceneIndex_snoc.
  unfold absolute_rows in *. rewrite list.filter_app, map_app, <- IH. unfold add_row.
  unfold names_episode. destruct (Z.leb_spec (enEpisode (smTVDB r)) 0).
  { rewrite filter_cons_False by lia. by rewrite app_nil_r. }
  assert (forall m, byAbsolute (if 0 <? enEpisode (smScene r) then
    mkSceneIndex (append_at (enSeason (smScene r), enEpisode (smScene r)) (smTVDB r) (byEpisode m))
      (append_at (enSeason (smScene r)) (smTVDB r) (bySeason m)) (byAbsolute m) else m) = byAbsolute m) as Hm.
  { intros m. by destruct (0 <? _). }
  destruct (Z.ltb_spec 0 (enAbsolute (smScene r))); cbn [byAbsolute]; rewrite Hm.
  - rewrite rows_at_append. destruct (decide (enAbsolute (smScene r) = a)) as [<- | Hne].
    + by rewrite filter_cons_True by lia.
    + rewrite filter_cons_False by lia. by rewrite app_nil_r.
  - rewrite filter_cons_False by lia. by rewrite app_nil_r.
Qed.

(** ** What a coverage says

    [says c T P S A]: [c] maps the TVDB episodes [T] and reads the episodes [P],
    the seasons [S] and the absolute numbers [A] literally. *)

Definition number_of (t : EpisodeNumbering) : Z * Z := (enSeason t, enEpisode t).

Record says (c : coverage) (T : EpisodeNumbering -> Prop) (P : Z * Z -> Prop) (S A : Z -> Prop) : Prop := {
  says_pairs : forall q, q ∈ cvpairs c <-> (exists t, T t /\ q = number_of t) \/ P q;
  says_full : forall s, s ∈ cvfull c <-> S s;
  says_absolutes : forall a, a ∈ cvabsolutes c <-> (exists t, T t /\ 0 < a /\ enAbsolute t = a) \/ A a;
  says_mapped : forall t, t ∈ cvmapped c <-> T t;
}.

Lemma says_iff c T P S A T' P' S' A' : says c T P S A ->
  (forall t, T t <-> T' t) -> (forall q, P q <-> P' q) -> (forall s, S s <-> S' s) -> (forall a, A a <-> A' a) ->
  says c T' P' S' A'.
Proof.
  intros [H1 H2 H3 H4] HT HP HS HA. split; intros x; [rewrite H1, HP | by rewrite H2, HS | rewrite H3, HA | by rewrite H4, HT].
  all: setoid_rewrite HT; done.
Qed.

Lemma says_none : says no_coverage (fun _ => False) (fun _ => False) (fun _ => False) (fun _ => False).
Proof. split; cbn; intros; rewrite ?elem_of_empty, ?elem_of_nil; firstorder. Qed.

Lemma ex_or {X} (T Q : X -> Prop) e : (exists t, (T t \/ t = e) /\ Q t) <-> (exists t, T t /\ Q t) \/ Q e.
Proof.
  split; [intros (t & [HT | ->] & HQ); eauto |]. intros [(t & HT & HQ) | HQ]; eauto.
Qed.

Lemma says_addMapped c T P S A eps : says c T P S A -> says (addMapped c eps) (fun t => T t \/ t ∈ eps) P S A.
Proof.
  unfold addMapped. revert c T. induction eps as [| e eps IH]; intros c T Hc; cbn.
  { apply (says_iff _ _ _ _ _ _ _ _ _ Hc); intros; rewrite ?elem_of_nil; tauto. }
  assert (says (add_one c e) (fun t => T t \/ t = e) P S A) as He.
  { destruct Hc as [H1 H2 H3 H4]. split; cbn.
    - intros q. rewrite elem_of_union, elem_of_singleton, H1, ex_or. unfold number_of. tauto.
    - done.
    - intros a. destruct (Z.ltb_spec 0 (enAbsolute e)); rewrite ?elem_of_union, ?elem_of_singleton, H3, ex_or;
        intuition lia.
    - intros t. rewrite elem_of_app, list_elem_of_singleton, H4. done. }
  apply (says_iff _ _ _ _ _ _ _ _ _ (IH _ _ He)); intros; rewrite ?elem_of_cons; tauto.
Qed.

Lemma ex_nil {X} (Q : X -> Prop) : (exists x, x ∈ [] /\ Q x) <-> False.
Proof. split; [| done]. intros (x & Hx & _). by apply elem_of_nil in Hx. Qed.

Lemma ex_cons {X} (Q : X -> Prop) y l : (exists x, x ∈ y :: l /\ Q x) <-> Q y \/ exists x, x ∈ l /\ Q x.
Proof.
  split; [intros (x & [-> | Hx]%elem_of_cons & HQ); eauto |].
  intros [HQ | (x & Hx & HQ)]; [exists y | exists x]; rewrite elem_of_cons; auto.
Qed.

(** A loop each of whose turns adds what it says of its element. *)
Lemma says_fold {X} (f : coverage -> X -> coverage) (T' : X -> EpisodeNumbering -> Prop) (P' : X -> Z * Z -> Prop)
    (S' A' : X -> Z -> Prop) l :
  (forall c x T P S A, says c T P S A ->
    says (f c x) (fun t => T t \/ T' x t) (fun q => P q \/ P' x q) (fun s => S s \/ S' x s) (fun a => A a \/ A' x a)) ->
  forall c T P S A, says c T P S A ->
  says (fold_left f l c) (fun t => T t \/ exists x, x ∈ l /\ T' x t) (fun q => P q \/ exists x, x ∈ l /\ P' x q)
    (fun s => S s \/ exists x, x ∈ l /\ S' x s) (fun a => A a \/ exists x, x ∈ l /\ A' x a).
Proof.
  intros Hf. induction l as [| x l IH]; intros c T P S A Hc; cbn.
  - apply (says_iff _ _ _ _ _ _ _ _ _ Hc); intros; rewrite ex_nil; tauto.
  - apply (says_iff _ _ _ _ _ _ _ _ _ (IH _ _ _ _ _ (Hf _ x _ _ _ _ Hc))); intros; rewrite ex_cons; tauto.
Qed.

Lemma some_or_none {A} (l : list A) (P : A -> Prop) : (forall t, t ∈ l <-> P t) ->
  match l with [] => ~ exists t, P t | _ => exists t, P t end.
Proof.
  intros Hl. destruct l as [| x l]; [intros (t & Ht%Hl); by apply elem_of_nil in Ht |]. exists x. apply Hl. constructor.
Qed.

(** A literal reading. *)
Lemma says_literal c T P S A s q a : says c T P S A ->
  says (mkcoverage (cvpairs c) ({[s]} ∪ cvfull c) (cvabsolutes c) (cvmapped c)) T P (fun z => S z \/ z = s) A /\
  says (mkcoverage ({[q]} ∪ cvpairs c) (cvfull c) (cvabsolutes c) (cvmapped c)) T (fun z => P z \/ z = q) S A /\
  says (mkcoverage (cvpairs c) (cvfull c) ({[a]} ∪ cvabsolutes c) (cvmapped c)) T P S (fun z => A z \/ z = a).
Proof.
  intros [H1 H2 H3 H4].
  split_and!; split; cbn; intros x; rewrite ?elem_of_union, ?elem_of_singleton, ?H1, ?H2, ?H3, ?H4; tauto.
Qed.

Lemma or_none {X} (T F : X -> Prop) t : ~ (exists t, F t) -> (T t <-> T t \/ F t).
Proof. intros Hn. split; [by left | intros [? | HF]; [done | by destruct Hn; exists t]]. Qed.

Section reading.
Variable rows : list SceneMapping.

Lemma says_season c s T P S A : says c T P S A ->
  says (cover_season (newSceneIndex rows) c s) (fun t => T t \/ files_season rows s t) (fun q => P q \/ False)
    (fun z => S z \/ z = s /\ ~ exists t, files_season rows s t) (fun a => A a \/ False).
Proof.
  intros Hc. unfold cover_season. pose proof (some_or_none _ _ (bySeason_files rows s)) as Hn.
  pose proof (bySeason_files rows s) as Ht. destruct (rows_at _ s) as [| e eps].
  - apply (says_iff _ _ _ _ _ _ _ _ _ (proj1 (says_literal _ _ _ _ _ s (0, 0) 0 Hc))); intros;
      [by apply or_none | tauto..].
  - apply (says_iff _ _ _ _ _ _ _ _ _ (says_addMapped _ _ _ _ _ (e :: eps) Hc)); intros; rewrite ?Ht; tauto.
Qed.

Lemma says_episode s c e T P S A : says c T P S A ->
  says (cover_episode (newSceneIndex rows) s c e) (fun t => T t \/ files_episode rows s e t)
    (fun q => P q \/ q = (s, e) /\ ~ exists t, files_episode rows s e t) (fun z => S z \/ False) (fun a => A a \/ False).
Proof.
  intros Hc. unfold cover_episode. pose proof (some_or_none _ _ (byEpisode_files rows s e)) as Hn.
  pose proof (byEpisode_files rows s e) as Ht. destruct (rows_at _ (s, e)) as [| x eps].
  - apply (says_iff _ _ _ _ _ _ _ _ _ (proj1 (proj2 (says_literal _ _ _ _ _ 0 (s, e) 0 Hc)))); intros;
      [by apply or_none | tauto..].
  - apply (says_iff _ _ _ _ _ _ _ _ _ (says_addMapped _ _ _ _ _ (x :: eps) Hc)); intros; rewrite ?Ht; tauto.
Qed.

Lemma says_absolute c a T P S A : says c T P S A ->
  says (cover_absolute (newSceneIndex rows) c a) (fun t => T t \/ absolute_rows rows a = [t]) (fun q => P q \/ False)
    (fun z => S z \/ False) (fun z => A z \/ z = a /\ forall t, absolute_rows rows a <> [t]).
Proof.
  intros Hc. unfold cover_absolute. rewrite byAbsolute_files. destruct (absolute_rows rows a) as [| x [| y eps]].
  2: { apply (says_iff _ _ _ _ _ _ _ _ _ (says_addMapped _ _ _ _ _ [x] Hc)); intros; rewrite ?list_elem_of_singleton.
       - split; (intros [? | H]; [by left | right; congruence]).
       - tauto.
       - tauto.
       - split; [by left | intros [? | [_ H]]; [done | by destruct (H x)]]. }
  all: apply (says_iff _ _ _ _ _ _ _ _ _ (proj2 (proj2 (says_literal _ _ _ _ _ 0 (0, 0) a Hc)))); intros; try tauto.
  all: (split; [by left | intros [? | ?]; done]) || intuition congruence.
Qed.
(** The TVDB episodes the table gives for a release's numbers. *)
Inductive scene_reads (p : ParsedRelease) (t : EpisodeNumbering) : Prop :=
  | scene_pack s : prFullSeason p = true -> s ∈ prSeasons p -> files_season rows s t -> scene_reads p t
  | scene_episode s e : prFullSeason p = false -> s ∈ prSeasons p -> e ∈ prEpisodes p -> files_episode rows s e t ->
      scene_reads p t
  | scene_absolute a : a ∈ prAbsolute p -> absolute_rows rows a = [t] -> scene_reads p t.

(** The numbers the table does not file, read as they stand. *)
Definition literal_episode (p : ParsedRelease) (q : Z * Z) : Prop :=
  prFullSeason p = false /\ q.1 ∈ prSeasons p /\ q.2 ∈ prEpisodes p /\ ~ exists t, files_episode rows q.1 q.2 t.
Definition literal_season (p : ParsedRelease) (s : Z) : Prop :=
  prFullSeason p = true /\ s ∈ prSeasons p /\ ~ exists t, files_season rows s t.
Definition literal_absolute (p : ParsedRelease) (a : Z) : Prop :=
  a ∈ prAbsolute p /\ forall t, absolute_rows rows a <> [t].

Lemma releaseCoverage_says p :
  says (releaseCoverage p (newSceneIndex rows)) (scene_reads p) (literal_episode p) (literal_season p) (literal_absolute p).
Proof.
  unfold releaseCoverage. destruct (prFullSeason p) eqn:Ef.
  - pose proof (says_fold _ _ _ _ _ (prSeasons p) (fun c s T P S A => says_season c s T P S A) _ _ _ _ _ says_none) as H.
    pose proof (says_fold _ _ _ _ _ (prAbsolute p) (fun c a T P S A => says_absolute c a T P S A) _ _ _ _ _ H) as H'.
    apply (says_iff _ _ _ _ _ _ _ _ _ H'); clear H H'; intros x.
    + split; [intros [[[] | (s & Hs & Ht)] | (a & Ha & Ht)]; eauto using scene_reads |].
      intros [s ? ? ? | s e Hf | a ? ?]; [left; right | congruence | right]; eauto.
    + unfold literal_episode. rewrite Ef. split; [| by intros [? _]]. intros [[[] | (? & _ & [])] | (? & _ & [])].
    + unfold literal_season. split; [intros [[[] | (s & Hs & -> & Hn)] | (? & _ & [])]; done |]. intros (_ & Hs & Hn). left. right. eauto.
    + unfold literal_absolute. split; [intros [[[] | (? & _ & [])] | (a & Ha & -> & Hn)]; done |]. intros (Ha & Hn). right. eauto.
  - assert (forall c s T P S A, says c T P S A ->
      says (fold_left (cover_episode (newSceneIndex rows) s) (prEpisodes p) c)
        (fun t => T t \/ exists e, e ∈ prEpisodes p /\ files_episode rows s e t)
        (fun q => P q \/ exists e, e ∈ prEpisodes p /\ q = (s, e) /\ ~ exists t, files_episode rows s e t)
        (fun z => S z \/ exists e, e ∈ prEpisodes p /\ False) (fun z => A z \/ exists e, e ∈ prEpisodes p /\ False)) as Hseason.
    { intros c s T P S A Hc. by apply (says_fold _ _ _ _ _ (prEpisodes p) (fun c e T P S A => says_episode s c e T P S A)). }
    pose proof (says_fold _ _ _ _ _ (prSeasons p) Hseason _ _ _ _ _ says_none) as H.
    pose proof (says_fold _ _ _ _ _ (prAbsolute p) (fun c a T P S A => says_absolute c a T P S A) _ _ _ _ _ H) as H'.
    apply (says_iff _ _ _ _ _ _ _ _ _ H'); clear H H' Hseason; intros x.
    + split; [intros [[[] | (s & Hs & e & He & Ht)] | (a & Ha & Ht)]; eauto using scene_reads |].
      intros [s Hf | s e ? ? ? ? | a ? ?]; [congruence | left; right | right]; eauto 6.
    + unfold literal_episode. split; [intros [[[] | (s & Hs & e & He & -> & Hn)] | (? & _ & [])]; done |].
      destruct x as [s e]. intros (_ & Hs & He & Hn). left. right. exists s. split; [done |]. exists e. done.
    + unfold literal_season. rewrite Ef. split; [| by intros [? _]]. intros [[[] | (? & _ & ? & _ & [])] | (? & _ & [])].
    + unfold literal_absolute. split; [intros [[[] | (? & _ & ? & _ & [])] | (a & Ha & -> & Hn)]; done |]. intros (Ha & Hn). right. eauto.
Qed.
End reading.

#[export] Instance pair_le_trans : Transitive pair_le.
Proof. intros p q r. unfold pair_le. lia. Qed.
#[export] Instance pair_le_total : Total pair_le.
Proof. intros p q. unfold pair_le. lia. Qed.
#[export] Instance Zle_total : Total Z.le.
Proof. intros x y. lia. Qed.

Lemma merge_sort_elem {A} (R : relation A) `{!RelDecision R} (l : list A) x : x ∈ merge_sort R l <-> x ∈ l.
Proof. by rewrite (merge_sort_Permutation R l). Qed.

(** A release covers what the series' scene table files its numbers as,
    and its own numbers where the table has none - several rows for an absolute
    number counting as none - and what is recorded of it lists exactly that, in
    order, each once. *)
Theorem CoverageOf_reads (rows : list SceneMapping) (p : ParsedRelease) :
  let cv := CoverageOf (Some p) rows in
  (forall q, q ∈ cvEpisodes cv <-> (exists t, scene_reads rows p t /\ q = number_of t) \/ literal_episode rows p q) /\
  (forall s, s ∈ cvFullSeasons cv <-> literal_season rows p s) /\
  (forall a, a ∈ cvAbsolute cv <-> (exists t, scene_reads rows p t /\ 0 < a /\ enAbsolute t = a) \/ literal_absolute rows p a) /\
  StronglySorted pair_le (cvEpisodes cv) /\ StronglySorted Z.le (cvFullSeasons cv) /\ StronglySorted Z.le (cvAbsolute cv) /\
  NoDup (cvEpisodes cv) /\ NoDup (cvFullSeasons cv) /\ NoDup (cvAbsolute cv).
Proof.
  destruct (releaseCoverage_says rows p) as [H1 H2 H3 _].
  cbn [CoverageOf export cvEpisodes cvFullSeasons cvAbsolute].
  split_and!; try (intros x; rewrite merge_sort_elem, elem_of_elements; auto);
    try (apply StronglySorted_merge_sort; apply _); rewrite merge_sort_Permutation; apply NoDup_elements.
Qed.
