(* ===== verification/Identity.v ===== *)
(** * Identity: whether a release is the item

    src/pkg/decision/identity.go and identity_nonvideo.go: the identity check
    over ids, titles, years and numbering; src/pkg/release/normalize.go's
    [CleanTitle], over the text transforms of third-party packages it calls. *)

From S2P Require Import Prelude GoLang GoFacts Api Release Coverage.
From Stdlib Require Import Ascii.

(** The text libraries: [separateRunes], then NFKC, then rls's normalizer; and
    [strings.Map] keeping Unicode's letters and digits, of a string that is not
    all ASCII. *)
Class TextTables := {
  normalized : string -> string;
  unicode_alnum : string -> string;
}.

(** [Identity] (types.go). *)
Record Identity := mkIdentity {
  idTitles : list string;
  idYear : Z;
  idSecondaryYear : Z;
  idEditionYears : list Z;
  idIDs : gmap string string;
  idSeason : Z;
  idEpisodes : list Z;
  idAbsolute : list Z;
  idAirDate : option Time;
  idSceneMappings : list SceneMapping;
  idIDQueryIndexers : gmap string bool;
  idSingleEpisodeSearch : bool;
  idSeasonSearch : bool;
  idNamesakes : list string;
  idCreators : list string;
  idIssue : string;
}.

Definition movieYearTolerance : Z := 1.
Definition minPlausibleYear : Z := 1800.
Definition albumYearTolerance : Z := 5.
Definition albumEditionYearTolerance : Z := 1.
Definition issueYearTolerance : Z := 1.

Definition IDKeyTMDB : string := "tmdb".
Definition IDKeyIMDB : string := "imdb".
Definition IDKeyTVDB : string := "tvdb".

Section identity.
Context `{Unicode} `{Quote} `{TextTables}.

(** ** Title keys *)

(** RE2's [\s]. *)
Definition re_space (a : ascii) : bool := existsb (fun b => byte_of a =? b) [9; 10; 12; 13; 32].

Definition articles : list string := ["the"; "a"; "an"].

(** [w] at the front of [s], letters folded: what follows it. *)
Fixpoint strip_fold (w s : string) : option string :=
  match w, s with
  | EmptyString, _ => Some s
  | String a w, String b s => if Ascii.eqb a (lower_ascii b) then strip_fold w s else None
  | _, EmptyString => None
  end.

(** [trailingArticleRegex.ReplaceAllString(s, "")]. *)
Fixpoint strip_trailing_article (s : string) : string :=
  match s with
  | EmptyString => EmptyString
  | String a s' =>
      if re_space a && existsb (fun w => match strip_fold w s' with Some EmptyString => true | _ => false end) articles
      then EmptyString
      else String a (strip_trailing_article s')
  end.

(** [leadingArticleRegex.ReplaceAllString(s, "")]. *)
Definition strip_leading_article (s : string) : string :=
  let after := flat_map (fun w => match strip_fold w s with
                                  | Some (String a r) => if re_space a then [TrimLeft re_space r] else []
                                  | _ => [] end) articles in
  match after with r :: _ => r | [] => s end.

Fixpoint str_filter (p : ascii -> bool) (s : string) : string :=
  match s with
  | EmptyString => EmptyString
  | String a s => if p a then String a (str_filter p s) else str_filter p s
  end.

Definition isASCIIAlnum (a : ascii) : bool := is_lower a || is_digit a.

(** [CleanTitle]: the words of what is left, one space between them. *)
Definition CleanTitle (title : string) : string :=
  let s := strip_leading_article (strip_trailing_article (normalized title)) in
  Join (fields_func ascii_space (str_filter (fun a => Ascii.eqb a " " || isASCIIAlnum a) s)) " ".

(** [umlauts.Replace]: each is the byte 195 and one more. *)
Definition umlaut (b : Z) : option string :=
  if b =? 164 then Some "ae" else if b =? 182 then Some "oe" else if b =? 188 then Some "ue"
  else if b =? 132 then Some "Ae" else if b =? 150 then Some "Oe" else if b =? 156 then Some "Ue"
  else if b =? 159 then Some "ss" else None.

Fixpoint umlauts_Replace (s : string) : string :=
  match s with
  | String a (String b s'' as s') =>
      match (if byte_of a =? 195 then umlaut (byte_of b) else None) with
      | Some r => r +:+ umlauts_Replace s''
      | None => String a (umlauts_Replace s')
      end
  | _ => s
  end.

Definition titleStopWords : list string := ["a"; "an"; "the"; "and"; "or"; "of"].

Definition romanNumerals : list (string * string) := [
  ("i", "1"); ("ii", "2"); ("iii", "3"); ("iv", "4"); ("v", "5"); ("vi", "6"); ("vii", "7"); ("viii", "8");
  ("ix", "9"); ("x", "10"); ("xi", "11"); ("xii", "12"); ("xiii", "13"); ("xiv", "14"); ("xv", "15"); ("xvi", "16");
  ("xvii", "17"); ("xviii", "18"); ("xix", "19"); ("xx", "20")].

Definition roman (f : string) : string :=
  match find (fun kv => String.eqb (fst kv) f) romanNumerals with Some kv => snd kv | None => f end.

Definition titleKey (s : string) : string :=
  let fields := Fields (CleanTitle (umlauts_Replace s)) in
  let kept := map roman (List.filter (fun f => negb (contains titleStopWords f)) fields) in
  Join (if bool_decide (kept = []) then fields else kept) "".

Definition nonEmptyKeys (k : string) : list string := if String.eqb k "" then [] else [k].

Definition targetTitleKeys (kind : string) (id : Identity) : gset string :=
  list_to_set (flat_map (fun t =>
    let k := titleKey t in
    if String.eqb k "" then []
    else k :: if (String.eqb kind MediaKindEpisode || String.eqb kind MediaKindSeries) && (0 <? idYear id)
              then [k +:+ fmt_d (idYear id)] else []) (idTitles id)).

Definition releaseTitleKeys (p : ParsedRelease) : list string :=
  flat_map (fun t => nonEmptyKeys (titleKey t)) (if bool_decide (prTitles p = []) then [prTitle p] else prTitles p).

(** [creatorKeys]; its second key only where it differs from the first. *)
Definition creatorKeys (name : string) : list string :=
  let keys := nonEmptyKeys (titleKey name) in
  let '(before, after, ok) := Cut "," name in
  if ok && negb (Contains after ",") then
    let k := titleKey (after +:+ " " +:+ before) in
    if negb (String.eqb k "") && negb (String.eqb k (hd "" keys)) then keys ++ [k] else keys
  else keys.

(** [coCredit]: a match at the front of [s], what follows it. *)
Definition credit_words : list string := ["&"; "and"; "feat."; "feat"; "ft."; "ft"; "featuring"].

Definition co_match (s : string) : option string :=
  let after := TrimLeft re_space s in
  let words := if match s with String a _ => re_space a | _ => false end
               then flat_map (fun w => match strip_fold w after with
                                       | Some (String a r) => if re_space a then [TrimLeft re_space r] else []
                                       | _ => [] end) credit_words
               else [] in
  match words with
  | r :: _ => Some r
  | [] => match after with
          | String c r => if Ascii.eqb c ";" || Ascii.eqb c "," then Some (TrimLeft re_space r) else None
          | EmptyString => None
          end
  end.

(** [coCredit.Split(s, -1)]; each turn drops a character at least. *)
Fixpoint co_split (fuel : nat) (s : string) : list string :=
  match fuel with
  | O => [s]
  | S fuel =>
      match co_match s with
      | Some rest => "" :: co_split fuel rest
      | None => match s with
                | EmptyString => [""]
                | String a s => match co_split fuel s with w :: ws => String a w :: ws | [] => [String a ""] end
                end
      end
  end.

Definition CoCredits (credit : string) : list string :=
  List.filter (fun p => negb (String.eqb p "")) (co_split (String.length credit) credit).

Definition releaseCreatorKeys (credit : string) : list string :=
  fold_left (fun keys k => if contains keys k then keys else keys ++ [k])
    (flat_map creatorKeys (CoCredits credit)) (creatorKeys credit).

Definition creatorKeySet (creators : list string) : gset string := list_to_set (flat_map creatorKeys creators).

Record identityIndex := mkIdentityIndex {
  ixTitles : gset string;
  ixCreators : gset string;
  ixScene : sceneIndex;
  ixNamesakes : gset string;
}.

Definition newIdentityIndex (kind : string) (id : Identity) : identityIndex :=
  mkIdentityIndex (targetTitleKeys kind id) (creatorKeySet (idCreators id)) (newSceneIndex (idSceneMappings id))
    (list_to_set (flat_map (fun n => nonEmptyKeys (titleKey n)) (idNamesakes id))).

(** ** Ids *)

Definition identityIDKeys (kind : string) : list string :=
  if String.eqb kind MediaKindMovie then [IDKeyTMDB; IDKeyIMDB] else [IDKeyTVDB].

Definition normalizeID (key v : string) : string :=
  let v := ToLower (TrimSpace v) in
  let v := if String.eqb key IDKeyIMDB then TrimPrefix v "tt" else v in
  let v := TrimLeft (fun a => Ascii.eqb a "0") v in
  if str_forall is_digit v then v else "".

(** [m[k]] of a map of strings. *)
Definition at_key (m : gmap string string) (k : string) : string := default "" (m !! k).

(** How one key compares: not at all, agreeing, or in conflict. *)
Definition compare_key (target rel : gmap string string) (k : string) : option bool :=
  let want := normalizeID k (at_key target k) in let got := normalizeID k (at_key rel k) in
  if String.eqb want "" || String.eqb got "" then None else Some (String.eqb want got).

Definition id_conflict (target rel : gmap string string) (k : string) : string :=
  "release " +:+ k +:+ " id " +:+ at_key rel k +:+ " conflicts with the item's " +:+ at_key target k.

Definition compareIDs (kind : string) (target rel : gmap string string) : bool * string :=
  let keys := identityIDKeys kind in
  let conflicts := List.filter (fun k => bool_decide (compare_key target rel k = Some false)) keys in
  if negb (bool_decide (conflicts = [])) then (false, Join (map (id_conflict target rel) conflicts) "; ")
  else (existsb (fun k => bool_decide (compare_key target rel k = Some true)) keys, "").

(** ** Years *)

Definition yearRejection (targetYear releaseYear tolerance : Z) : option Rejection :=
  if (targetYear <? minPlausibleYear) || (releaseYear <? minPlausibleYear) then None
  else if Z.abs (targetYear - releaseYear) <=? tolerance then None
  else Some (newRejection ReasonWrongItem
    ("release year " +:+ fmt_d releaseYear +:+ " is more than " +:+ fmt_d tolerance +:+ " " +:+
     (if tolerance =? 1 then "year" else "years") +:+ " from the item's " +:+ fmt_d targetYear)).

(** [r.Reason += s]. *)
Definition add_detail (r : Rejection) (s : string) : Rejection := mkRejection (rjReason r +:+ s) (rjType r).

Definition movieYearRejection (id : Identity) (releaseYear : Z) : option Rejection :=
  if (minPlausibleYear <=? idSecondaryYear id) && (releaseYear =? idSecondaryYear id) then None
  else match yearRejection (idYear id) releaseYear movieYearTolerance with
       | Some r => Some (if minPlausibleYear <=? idSecondaryYear id
                         then add_detail r (", and is not its secondary year " +:+ fmt_d (idSecondaryYear id)) else r)
       | None => None
       end.

(** ** Numbering *)

Definition sameDay (a b : Time) : bool := day_of a =? day_of b.

(** The [strings.Builder] with [sep] between the parts that are there. *)
Definition describe (parts : list string) : string :=
  let s := Join (List.filter (fun p => negb (String.eqb p "")) parts) ", " in
  if String.eqb s "" then "unnumbered" else s.

Definition aired (d : option Time) : string := match d with Some t => "aired " +:+ fmt_date t | None => "" end.
Definition absolute_part (l : list Z) : string :=
  if bool_decide (l = []) then "" else "absolute " +:+ fmt_ints l.
Definition episode_part (e : Z) : string := "E" +:+ fmt_0d 2 e.

Definition describeRelease (p : ParsedRelease) : string :=
  describe [Join (map (fun s => "S" +:+ fmt_0d 2 s) (prSeasons p)) "-" +:+ (if prFullSeason p then " full season" else "") +:+
              Join (map episode_part (prEpisodes p)) "";
            absolute_part (prAbsolute p); aired (prAirDate p)].

Definition describeTarget (id : Identity) : string :=
  describe [if bool_decide (idEpisodes id = []) then ""
            else "S" +:+ fmt_0d 2 (idSeason id) +:+ Join (map episode_part (idEpisodes id)) "";
            absolute_part (idAbsolute id); aired (idAirDate id)].

(** The comparisons of [numberingRejection]: [None] where a numbering is not
    both sides', else the mismatch, [None] where it agrees. *)
Definition compare_season (id : Identity) (p : ParsedRelease) (cov : coverage) : option (option string) :=
  if (negb (bool_decide (idEpisodes id = [])) || idSeasonSearch id) && hasInSeason cov then
    Some (if idSeasonSearch id
          then if coversAnyInSeason cov (idSeason id) (idEpisodes id) then None
               else Some ("release is " +:+ describeRelease p +:+ describeMapping cov +:+
                          ", which covers no episode of the season " +:+ fmt_d (idSeason id))
          else if coversInSeason cov (idSeason id) (idEpisodes id) then None
               else Some ("release is " +:+ describeRelease p +:+ describeMapping cov +:+ ", the item is " +:+ describeTarget id))
  else None.

Definition compare_absolute (id : Identity) (p : ParsedRelease) (cov : coverage) : option (option string) :=
  if negb (bool_decide (idAbsolute id = [])) && negb (bool_decide (cvabsolutes cov = ∅)) then
    Some (if idSeasonSearch id
          then if coversAnyAbsolute cov (idAbsolute id) then None
               else Some ("release is absolute " +:+ fmt_ints (prAbsolute p) +:+ describeMapping cov +:+
                          ", which covers no episode of the season " +:+ fmt_d (idSeason id))
          else if coversAbsolute cov (idAbsolute id) then None
               else Some ("release is absolute " +:+ fmt_ints (prAbsolute p) +:+ describeMapping cov +:+
                          ", the item is absolute " +:+ fmt_ints (idAbsolute id)))
  else None.

Definition compare_airdate (id : Identity) (p : ParsedRelease) : option (option string) :=
  match idAirDate id, prAirDate p with
  | Some d, Some d' => Some (if sameDay d d' then None
                             else Some ("release aired " +:+ fmt_date d' +:+ ", the item aired " +:+ fmt_date d))
  | _, _ => None
  end.

(** [numberingRejection]: the first numbering that agrees accepts. *)
Definition numberingRejection (id : Identity) (scene : sceneIndex) (p : ParsedRelease) : option Rejection :=
  let cov := releaseCoverage p scene in
  let compared := omap (fun c => c) [compare_season id p cov; compare_absolute id p cov; compare_airdate id p] in
  if bool_decide (None ∈ compared) then None
  else if negb (bool_decide (compared = [])) then
    Some (newRejection ReasonWrongItem (Join (omap (fun m => m) compared) "; "))
  else
    let target := if idSeasonSearch id then "season " +:+ fmt_d (idSeason id) else describeTarget id in
    Some (newRejection ReasonUnknownItem
      ("the release names no season/episode, absolute number or air date the item also has (release is " +:+
       describeRelease p +:+ ", item is " +:+ target +:+ ")")).

Definition seasonPackRejection (id : Identity) (p : ParsedRelease) : option Rejection :=
  if negb (idSingleEpisodeSearch id) || negb (prFullSeason p) then None
  else Some (newRejection ReasonFullSeason
    ("release is " +:+ describeRelease p +:+ ", and this is a search for the single episode " +:+ describeTarget id)).

(** ** The item *)

Definition namesakeKind (kind : string) : string :=
  if String.eqb kind MediaKindEpisode then MediaKindSeries else kind.

(** The loop over the release's keys: [Some true] once one names the item
    alone, [Some false] if one only named it and a namesake. *)
Fixpoint match_titles (want namesakes : gset string) (year : Z) (got : list string) (namesake : bool) : option bool :=
  match got with
  | [] => if namesake then Some false else None
  | k :: got =>
      if bool_decide (k ∈ want) then
        if bool_decide (k ∈ namesakes) && (year <? minPlausibleYear)
        then match_titles want namesakes year got true
        else Some true
      else match_titles want namesakes year got namesake
  end.

Definition itemRejection (kind : string) (id : Identity) (want namesakes : gset string) (p : ParsedRelease)
    (rel : ReleaseInfo) : option Rejection :=
  let movie := String.eqb kind MediaKindMovie in
  let '(matched, conflict) := compareIDs kind (idIDs id) (riIDs rel) in
  if negb (String.eqb conflict "") then Some (newRejection ReasonWrongItem conflict)
  else if matched then None
  else if negb (String.eqb (riIndexerRef rel) "") && default false (idIDQueryIndexers id !! riIndexerRef rel)
  then if movie then movieYearRejection id (prYear p) else None
  else
    let got := releaseTitleKeys p in
    if bool_decide (idTitles id = []) then
      Some (newRejection ReasonUnknownItem
        "the item has no title yet, and the release neither carries one of its ids nor came from an id query")
    else if bool_decide (want = ∅) then
      Some (newRejection ReasonUnknownItem
        ("none of the item's titles (primary " +:+ fmt_q (hd "" (idTitles id)) +:+
         ") has anything the title comparison can read, and the release neither carries one of its ids nor came from an id query"))
    else if bool_decide (got = []) then
      Some (newRejection ReasonUnknownItem
        ("release title " +:+ fmt_q (prTitle p) +:+
         " has nothing the title comparison can read, and the release neither carries one of the item's ids nor came from an id query"))
    else match match_titles want namesakes (prYear p) got false with
         | Some true => if movie then movieYearRejection id (prYear p) else None
         | Some false =>
             Some (newRejection ReasonUnknownItem
               ("the library holds another " +:+ namesakeKind kind +:+ " titled " +:+ fmt_q (prTitle p) +:+
                "; a release naming no year cannot say which it is"))
         | None =>
             Some (newRejection ReasonWrongItem
               ("title " +:+ fmt_q (prTitle p) +:+ " matches none of the item's " +:+
                fmt_d (Z.of_nat (length (idTitles id))) +:+ " known title(s) (primary " +:+ fmt_q (hd "" (idTitles id)) +:+ ")"))
         end.

(** ** Albums, books and issues (identity_nonvideo.go) *)

(** [fact]. *)
Inductive fact := agrees | wrong (s : string) | unknown (s : string).

Definition wrongs (facts : list fact) : list string := omap (fun f => match f with wrong s => Some s | _ => None end) facts.
Definition unknowns (facts : list fact) : list string := omap (fun f => match f with unknown s => Some s | _ => None end) facts.

Definition verdict (facts : list fact) : option Rejection :=
  if negb (bool_decide (wrongs facts = [])) then Some (newRejection ReasonWrongItem (Join (wrongs facts) "; "))
  else if negb (bool_decide (unknowns facts = [])) then Some (newRejection ReasonUnknownItem (Join (unknowns facts) "; "))
  else None.

(** [namePart.fact]. *)
Definition name_fact (noun nouns : string) (item : list string) (itemKeys : gset string) (release : string)
    (releaseKeys : list string) : fact :=
  if bool_decide (item = []) then unknown ("the item has no " +:+ noun +:+ " yet")
  else if bool_decide (itemKeys = ∅) then
    unknown ("none of the item's " +:+ nouns +:+ " (primary " +:+ fmt_q (hd "" item) +:+
             ") has anything the comparison can read")
  else if bool_decide (releaseKeys = []) then
    unknown ("release " +:+ noun +:+ " " +:+ fmt_q release +:+ " has nothing the comparison can read")
  else if existsb (fun k => bool_decide (k ∈ itemKeys)) releaseKeys then agrees
  else wrong ("release " +:+ noun +:+ " " +:+ fmt_q release +:+ " matches none of the item's " +:+
              fmt_d (Z.of_nat (length item)) +:+ " known " +:+ nouns +:+ " (primary " +:+ fmt_q (hd "" item) +:+ ")").

Definition allDigits (s : string) : bool := str_forall is_digit s.

Definition is_zero_char (a : ascii) : bool := Ascii.eqb a "0".

Definition keep_alnum (s : string) : string :=
  if is_ASCII s then str_filter is_alnum s else unicode_alnum s.

(** A plain number, its padding and trailing fractional zeros gone. *)
Definition plain_key (whole frac : string) : string :=
  let whole := TrimLeft is_zero_char whole in
  let whole := if String.eqb whole "" then "0" else whole in
  let frac := TrimRight is_zero_char frac in
  if String.eqb frac "" then whole else whole +:+ "." +:+ frac.

Definition IssueNumberKey (s : string) : string :=
  let s := ToLower (TrimSpace s) in
  let '(whole, frac, dotted) := Cut "." s in
  if allDigits whole && (negb dotted || allDigits frac) && negb (String.eqb whole "" && String.eqb frac "")
  then plain_key whole frac
  else keep_alnum s.

Definition issueNumberFact (item rel : string) : fact :=
  let want := IssueNumberKey item in let got := IssueNumberKey rel in
  if String.eqb want "" then unknown "the item has no issue number"
  else if String.eqb got "" then
    unknown ("release issue number " +:+ fmt_q rel +:+ " has nothing the comparison can read")
  else if String.eqb want got then agrees
  else wrong ("release is issue " +:+ rel +:+ ", the item is issue " +:+ item).

Definition datedEditions (years : list Z) : Z :=
  Z.of_nat (length (List.filter (fun y => minPlausibleYear <=? y) years)).

Definition albumYearRejection (id : Identity) (releaseYear : Z) : option Rejection :=
  if (minPlausibleYear <=? releaseYear) &&
     existsb (fun y => (minPlausibleYear <=? y) && (Z.abs (y - releaseYear) <=? albumEditionYearTolerance)) (idEditionYears id)
  then None
  else match yearRejection (idYear id) releaseYear albumYearTolerance with
       | Some r =>
           let n := datedEditions (idEditionYears id) in
           Some (if 0 <? n
                 then add_detail r (", and is not within " +:+ fmt_d albumEditionYearTolerance +:+ " year of any of its " +:+
                                    fmt_d n +:+ " dated edition(s)")
                 else r)
       | None => None
       end.

(** The first rejection of two checks. *)
Definition or_else (r : option Rejection) (k : option Rejection) : option Rejection :=
  match r with Some _ => r | None => k end.

Definition albumRejection (id : Identity) (idx : identityIndex) (p : ParsedRelease) : option Rejection :=
  match prMusic p with
  | None => Some (newRejection ReasonUnknownItem ("release title " +:+ fmt_q (prTitle p) +:+ " names no artist and album"))
  | Some m =>
      or_else
        (verdict [name_fact "artist" "artists" (idCreators id) (ixCreators idx) (muArtist m) (releaseCreatorKeys (muArtist m));
                  name_fact "album title" "titles" (idTitles id) (ixTitles idx) (muAlbum m) (nonEmptyKeys (titleKey (muAlbum m)))])
        (albumYearRejection id (muYear m))
  end.

Definition bookRejection (id : Identity) (idx : identityIndex) (p : ParsedRelease) : option Rejection :=
  match prBook p with
  | None => Some (newRejection ReasonUnknownItem ("release title " +:+ fmt_q (prTitle p) +:+ " names no author and title"))
  | Some b =>
      verdict [name_fact "author" "authors" (idCreators id) (ixCreators idx) (bkAuthor b) (releaseCreatorKeys (bkAuthor b));
               name_fact "title" "titles" (idTitles id) (ixTitles idx) (prTitle p) (releaseTitleKeys p)]
  end.

Definition issueRejection (id : Identity) (idx : identityIndex) (p : ParsedRelease) : option Rejection :=
  match prComic p with
  | None => Some (newRejection ReasonUnknownItem ("release title " +:+ fmt_q (prTitle p) +:+ " names no series and issue"))
  | Some c =>
      or_else
        (verdict [name_fact "series" "titles" (idTitles id) (ixTitles idx) (cmSeries c) (releaseTitleKeys p);
                  issueNumberFact (idIssue id) (cmIssue c)])
        (yearRejection (idYear id) (cmYear c) issueYearTolerance)
  end.

Definition identityRejection (kind : string) (id : Identity) (idx : identityIndex) (p : ParsedRelease)
    (rel : ReleaseInfo) : option Rejection :=
  if String.eqb kind MediaKindMovie || String.eqb kind MediaKindEpisode || String.eqb kind MediaKindSeries then
    or_else (itemRejection kind id (ixTitles idx) (ixNamesakes idx) p rel)
      (if String.eqb kind MediaKindMovie then None
       else or_else (numberingRejection id (ixScene idx) p) (seasonPackRejection id p))
  else if String.eqb kind MediaKindAlbum then albumRejection id idx p
  else if String.eqb kind MediaKindBook || String.eqb kind MediaKindAudiobook then bookRejection id idx p
  else if String.eqb kind MediaKindIssue then issueRejection id idx p
  else Some (newRejection ReasonUnknownItem ("pkg/decision has no identity rule for kind " +:+ fmt_q kind)).

(** ** What a release of an item shows

    The evidence the check asks for, told without its order of questions. *)

(** An id of the kind both sides carry: it agrees, or it is another's. *)
Definition id_agrees (kind : string) (id : Identity) (rel : ReleaseInfo) : Prop :=
  exists k, k ∈ identityIDKeys kind /\ compare_key (idIDs id) (riIDs rel) k = Some true.
Definition id_conflicts (kind : string) (id : Identity) (rel : ReleaseInfo) : Prop :=
  exists k, k ∈ identityIDKeys kind /\ compare_key (idIDs id) (riIDs rel) k = Some false.

(** The indexer was asked for the item's id. *)
Definition vouched (id : Identity) (rel : ReleaseInfo) : Prop :=
  riIndexerRef rel <> "" /\ idIDQueryIndexers id !! riIndexerRef rel = Some true.

(** A title of the release is the item's, and not a namesake's unless a year
    tells them apart. *)
Definition named_alone (kind : string) (id : Identity) (p : ParsedRelease) : Prop :=
  exists k, k ∈ releaseTitleKeys p /\ k ∈ targetTitleKeys kind id /\
    (minPlausibleYear <= prYear p \/ k ∉ ixNamesakes (newIdentityIndex kind id)).

Definition years_agree (id : Identity) (year : Z) : Prop :=
  idYear id < minPlausibleYear \/ year < minPlausibleYear \/ Z.abs (idYear id - year) <= movieYearTolerance \/
  (minPlausibleYear <= idSecondaryYear id /\ year = idSecondaryYear id).

(** The episodes and absolute numbers of the release, as [CoverageOf_reads]
    has them. *)
Definition reads_episode (id : Identity) (p : ParsedRelease) (q : Z * Z) : Prop :=
  (exists t, scene_reads (idSceneMappings id) p t /\ q = number_of t) \/ literal_episode (idSceneMappings id) p q.
Definition reads_absolute (id : Identity) (p : ParsedRelease) (a : Z) : Prop :=
  (exists t, scene_reads (idSceneMappings id) p t /\ 0 < a /\ enAbsolute t = a) \/ literal_absolute (idSceneMappings id) p a.

(** The release covers what is looked for: one episode of a season searched
    whole, else every one. *)
Definition covers {A} (search : bool) (R : A -> Prop) (l : list A) : Prop :=
  if search then Exists R l else l <> [] /\ Forall R l.

Definition numbered (id : Identity) (p : ParsedRelease) : Prop :=
  let search := idSeasonSearch id in
  (literal_season (idSceneMappings id) p (idSeason id) /\ (search = true \/ idEpisodes id <> [])) \/
  covers search (fun e => reads_episode id p (idSeason id, e)) (idEpisodes id) \/
  covers search (reads_absolute id p) (idAbsolute id) \/
  (exists d d', idAirDate id = Some d /\ prAirDate p = Some d' /\ day_of d = day_of d').

Lemma Join_nonempty s l sep : s <> "" -> Join (s :: l) sep <> "".
Proof. destruct s; [done |]. by destruct l. Qed.

Lemma compareIDs_spec kind target rel :
  match compareIDs kind target rel with
  | (m, "") => (forall k, k ∈ identityIDKeys kind -> compare_key target rel k <> Some false) /\
               (m = true <-> exists k, k ∈ identityIDKeys kind /\ compare_key target rel k = Some true)
  | (m, _) => m = false /\ exists k, k ∈ identityIDKeys kind /\ compare_key target rel k = Some false
  end.
Proof.
  unfold compareIDs. destruct (List.filter _ (identityIDKeys kind)) as [| k l] eqn:E.
  - rewrite bool_decide_true by done. cbn [negb]. split.
    + intros k Hk Hc. assert (In k []) as []. rewrite <- E. apply filter_In. split; [by apply list_elem_of_In |].
      by apply bool_decide_eq_true.
    + rewrite existsb_exists. setoid_rewrite <- list_elem_of_In. by setoid_rewrite bool_decide_eq_true.
  - rewrite bool_decide_false by done. cbn [negb]. destruct (Join _ _) eqn:Ej.
    + exfalso. cbn [map] in Ej. eapply Join_nonempty, Ej. unfold id_conflict. discriminate.
    + split; [done |]. exists k. assert (In k (k :: l)) as Hk by by left. rewrite <- E in Hk.
      apply filter_In in Hk as [Hk Hc]. split; [by apply list_elem_of_In | by apply bool_decide_eq_true in Hc].
Qed.

Lemma yearRejection_none t r tol : yearRejection t r tol = None <->
  t < minPlausibleYear \/ r < minPlausibleYear \/ Z.abs (t - r) <= tol.
Proof.
  unfold yearRejection. destruct (Z.ltb_spec t minPlausibleYear), (Z.ltb_spec r minPlausibleYear); cbn [orb]; try tauto.
  destruct (Z.leb_spec (Z.abs (t - r)) tol); intuition (done || lia).
Qed.

Lemma movieYear_none id y : movieYearRejection id y = None <-> years_agree id y.
Proof.
  unfold movieYearRejection, years_agree.
  destruct (Z.leb_spec minPlausibleYear (idSecondaryYear id)), (Z.eqb_spec y (idSecondaryYear id)); cbn [andb].
  1: tauto.
  all: pose proof (yearRejection_none (idYear id) y movieYearTolerance) as Hy;
    destruct (yearRejection _ _ _); intuition (done || lia).
Qed.

Lemma match_titles_true want namesakes year got b : match_titles want namesakes year got b = Some true <->
  exists k, k ∈ got /\ k ∈ want /\ (minPlausibleYear <= year \/ k ∉ namesakes).
Proof.
  revert b. induction got as [| k got IH]; intros b; cbn.
  { split; [by destruct b | intros (k & Hk & _); by apply elem_of_nil in Hk]. }
  setoid_rewrite elem_of_cons. case_bool_decide as Hw.
  - case_bool_decide as Hn; destruct (Z.ltb_spec year minPlausibleYear); cbn [andb]; rewrite ?IH; split; try done;
      [| | eauto 6 with lia ..].
    + intros (k' & ? & ? & ?). exists k'. auto.
    + intros (k' & [-> | ?] & ? & ?); [intuition lia | exists k'; auto].
  - rewrite IH. split; [intros (k' & ? & ? & ?); exists k'; auto |]. intros (k' & [-> | ?] & ? & ?); [done | exists k'; auto].
Qed.

Lemma itemRejection_none kind id p rel :
  itemRejection kind id (ixTitles (newIdentityIndex kind id)) (ixNamesakes (newIdentityIndex kind id)) p rel = None <->
  ~ id_conflicts kind id rel /\
  (id_agrees kind id rel \/
   (vouched id rel \/ named_alone kind id p) /\ (kind = MediaKindMovie -> years_agree id (prYear p))).
Proof.
  unfold itemRejection, id_conflicts, id_agrees. pose proof (compareIDs_spec kind (idIDs id) (riIDs rel)) as Hc.
  destruct (compareIDs kind (idIDs id) (riIDs rel)) as [m [| a c]]; cbn [String.eqb negb].
  2: { destruct Hc as [_ Hk]. split; [done |]. by intros [Hn _]. }
  destruct Hc as [Hn Hm].
  assert (~ exists k, k ∈ identityIDKeys kind /\ compare_key (idIDs id) (riIDs rel) k = Some false) as Hn'.
  { intros (k & Hk & He). by apply (Hn k). }
  destruct m; [split; [| done]; split; [done | left; by apply Hm] |].
  assert (~ exists k, k ∈ identityIDKeys kind /\ compare_key (idIDs id) (riIDs rel) k = Some true) as Hm'.
  { intros Hk. by apply Hm in Hk. }
  clear Hn Hm.
  assert ((if String.eqb kind MediaKindMovie then movieYearRejection id (prYear p) else None) = None <->
    (kind = MediaKindMovie -> years_agree id (prYear p))) as Hy.
  { rewrite <- movieYear_none. destruct (String.eqb_spec kind MediaKindMovie); [tauto |]. split; [intros _ ?; done | done]. }
  destruct (negb (String.eqb (riIndexerRef rel) "") && default false (idIDQueryIndexers id !! riIndexerRef rel)) eqn:Ev.
  { assert (vouched id rel) as Hv.
    { unfold vouched. bools. destruct (idIDQueryIndexers id !! riIndexerRef rel) as [[|] |]; done. }
    rewrite Hy. tauto. }
  assert (~ vouched id rel) as Hv.
  { intros [Hr Hq]. rewrite Hq in Ev. cbn in Ev. rewrite andb_true_r in Ev. apply negb_false_iff, String.eqb_eq in Ev. done. }
  pose proof (match_titles_true (ixTitles (newIdentityIndex kind id)) (ixNamesakes (newIdentityIndex kind id))
    (prYear p) (releaseTitleKeys p) false) as Ht.
  assert (named_alone kind id p -> idTitles id <> [] /\ ixTitles (newIdentityIndex kind id) <> ∅ /\ releaseTitleKeys p <> []) as Hne.
  { intros (k & Hk & Hw & _). unfold targetTitleKeys in Hw. cbn [ixTitles newIdentityIndex]. split_and!.
    - intros E. rewrite E in Hw. cbn in Hw. set_solver.
    - intros E. unfold targetTitleKeys in E. rewrite E in Hw. set_solver.
    - intros E. rewrite E in Hk. by apply elem_of_nil in Hk. }
  fold (named_alone kind id p) in Ht.
  case_bool_decide as E1; [split; [done | tauto] |]. case_bool_decide as E2; [split; [done | tauto] |].
  case_bool_decide as E3; [split; [done | tauto] |].
  destruct (match_titles _ _ _ _ _) as [[|] |].
  - rewrite Hy. tauto.
  - assert (~ named_alone kind id p) by (intros Hk; apply Ht in Hk; done). split; [done | tauto].
  - assert (~ named_alone kind id p) by (intros Hk; apply Ht in Hk; done). split; [done | tauto].
Qed.

Lemma existsb_in {A} (R : A -> Prop) `{!forall x, base.Decision (R x)} l :
  existsb (fun x => bool_decide (R x)) l = true <-> Exists R l.
Proof.
  rewrite existsb_exists, list.Exists_exists. setoid_rewrite list_elem_of_In. by setoid_rewrite bool_decide_eq_true.
Qed.

Lemma forallb_in {A} (R : A -> Prop) `{!forall x, base.Decision (R x)} l :
  forallb (fun x => bool_decide (R x)) l = true <-> Forall R l.
Proof.
  rewrite forallb_forall, list.Forall_forall. setoid_rewrite list_elem_of_In. by setoid_rewrite bool_decide_eq_true.
Qed.

Lemma covers_ext {A} search (R R' : A -> Prop) l : (forall x, R x <-> R' x) -> (covers search R l <-> covers search R' l).
Proof.
  intros HR. unfold covers. destruct search; rewrite ?list.Exists_exists, ?list.Forall_forall; by setoid_rewrite HR.
Qed.

Lemma covers_true {A} search (R : A -> Prop) `{!forall x, base.Decision (R x)} `{!EqDecision A} l : covers search R l <->
  (if search then existsb (fun x => bool_decide (R x)) l
   else negb (bool_decide (l = [])) && forallb (fun x => bool_decide (R x)) l) = true.
Proof.
  unfold covers. destruct search; [by rewrite existsb_in |]. rewrite andb_true_iff, forallb_in, negb_true_iff.
  by rewrite bool_decide_eq_false.
Qed.

Lemma hasInSeason_true c s q : s ∈ cvfull c \/ q ∈ cvpairs c -> hasInSeason c = true.
Proof.
  unfold hasInSeason. intros [Hs | Hq]; apply orb_true_iff; [right | left]; apply negb_true_iff, bool_decide_eq_false; set_solver.
Qed.

Lemma compare_season_agrees id p :
  compare_season id p (releaseCoverage p (newSceneIndex (idSceneMappings id))) = Some None <->
  (literal_season (idSceneMappings id) p (idSeason id) /\ (idSeasonSearch id = true \/ idEpisodes id <> [])) \/
  covers (idSeasonSearch id) (fun e => reads_episode id p (idSeason id, e)) (idEpisodes id).
Proof.
  destruct (releaseCoverage_says (idSceneMappings id) p) as [Hp Hf _ _].
  set (cov := releaseCoverage _ _) in *.
  rewrite <- Hf, <- (covers_ext _ (fun e => (idSeason id, e) ∈ cvpairs cov)) by (intros e; apply Hp).
  pose proof (covers_true (idSeasonSearch id) (fun e => (idSeason id, e) ∈ cvpairs cov) (idEpisodes id)) as Hcov.
  pose proof (hasInSeason_true cov) as Hin. rewrite Hcov. clear Hp Hf.
  assert ((if idSeasonSearch id then existsb (fun e => bool_decide ((idSeason id, e) ∈ cvpairs cov)) (idEpisodes id)
    else negb (bool_decide (idEpisodes id = [])) && forallb (fun e => bool_decide ((idSeason id, e) ∈ cvpairs cov)) (idEpisodes id)) = true ->
    hasInSeason cov = true) as Hin'.
  { intros Hc. apply Hcov in Hc. unfold covers in Hc. destruct (idSeasonSearch id).
    - apply list.Exists_exists in Hc as (e & _ & He). apply (Hin 0 (idSeason id, e)). by right.
    - destruct Hc as [Hn Hc]. destruct (idEpisodes id) as [| e l]; [done |]. inversion Hc; subst. apply (Hin 0 (idSeason id, e)). by right. }
  clear Hcov. unfold compare_season, coversAnyInSeason, coversInSeason.
  specialize (Hin (idSeason id) (0, 0)).
  set (ex := existsb _ _) in *. set (fa := forallb _ _) in *. clearbody ex fa.
  destruct (bool_decide (idEpisodes id = [])) eqn:E1, (bool_decide (idSeason id ∈ cvfull cov)) eqn:E2; bools;
    destruct (idSeasonSearch id), (hasInSeason cov), ex, fa; cbn in *;
    intuition (discriminate || congruence).
Qed.

Lemma compare_absolute_agrees id p :
  compare_absolute id p (releaseCoverage p (newSceneIndex (idSceneMappings id))) = Some None <->
  covers (idSeasonSearch id) (reads_absolute id p) (idAbsolute id).
Proof.
  destruct (releaseCoverage_says (idSceneMappings id) p) as [_ _ Ha _].
  set (cov := releaseCoverage _ _) in *.
  rewrite <- (covers_ext _ (fun a => a ∈ cvabsolutes cov)) by (intros a; apply Ha).
  pose proof (covers_true (idSeasonSearch id) (fun a => a ∈ cvabsolutes cov) (idAbsolute id)) as Hcov.
  assert (covers (idSeasonSearch id) (fun a => a ∈ cvabsolutes cov) (idAbsolute id) ->
    idAbsolute id <> [] /\ cvabsolutes cov <> ∅) as Hne.
  { unfold covers. destruct (idSeasonSearch id).
    - intros (a & Hl & He)%list.Exists_exists. split; [intros E; rewrite E in Hl; by apply elem_of_nil in Hl | set_solver].
    - intros [Hn Hc]. split; [done |]. destruct (idAbsolute id) as [| a l]; [done |]. inversion Hc; subst. set_solver. }
  rewrite Hcov in Hne |- *. clear Hcov Ha. unfold compare_absolute, coversAnyAbsolute, coversAbsolute.
  case_bool_decide as H1'; cbn [negb andb]; [split; [done |]; intros Hx; by destruct (Hne Hx) |].
  case_bool_decide as H2'; cbn [negb andb] in *; [split; [done |]; intros Hx; by destruct (Hne Hx) |].
  set (ex := existsb _ _). set (fa := forallb _ _). clearbody ex fa.
  destruct (idSeasonSearch id), ex, fa; intuition discriminate.
Qed.

Lemma numberingRejection_none id p :
  numberingRejection id (newSceneIndex (idSceneMappings id)) p = None <-> numbered id p.
Proof.
  unfold numberingRejection, numbered. set (cov := releaseCoverage p _).
  assert (compare_airdate id p = Some None <->
    exists d d', idAirDate id = Some d /\ prAirDate p = Some d' /\ day_of d = day_of d') as Hd.
  { unfold compare_airdate, sameDay. destruct (idAirDate id) as [d |], (prAirDate p) as [d' |].
    2-4: split; [done | intros (? & ? & E1 & E2 & _); congruence].
    destruct (Z.eqb_spec (day_of d) (day_of d')).
    - split; [intros _; by exists d, d' | done].
    - split; [done | intros (? & ? & E1 & E2 & ?); congruence]. }
  pose proof (compare_season_agrees id p) as Hs. pose proof (compare_absolute_agrees id p) as Ha. fold cov in Hs, Ha.
  assert (None ∈ omap (fun c => c) [compare_season id p cov; compare_absolute id p cov; compare_airdate id p] <->
    compare_season id p cov = Some None \/ compare_absolute id p cov = Some None \/ compare_airdate id p = Some None) as Ho.
  { destruct (compare_season id p cov) as [[] |], (compare_absolute id p cov) as [[] |], (compare_airdate id p) as [[] |];
      cbn; rewrite ?elem_of_cons, ?elem_of_nil; intuition discriminate. }
  case_bool_decide as En; [tauto |]. case_bool_decide; cbn; (split; [done | tauto]).
Qed.

(** C8.  A movie or an episode is taken only on evidence, and on any: an id of
    its kind that agrees; or the indexer's word or a title of its own, with a
    movie's year; never against an id in conflict; and an episode's release must
    cover what is looked for, by any numbering, and be no season pack where one
    episode is. *)
Theorem identity_by_evidence (kind : string) (id : Identity) (p : ParsedRelease) (rel : ReleaseInfo) :
  kind ∈ [MediaKindMovie; MediaKindEpisode; MediaKindSeries] ->
  (identityRejection kind id (newIdentityIndex kind id) p rel = None <->
   ~ id_conflicts kind id rel /\
   (id_agrees kind id rel \/
    (vouched id rel \/ named_alone kind id p) /\ (kind = MediaKindMovie -> years_agree id (prYear p))) /\
   (kind <> MediaKindMovie -> numbered id p /\ (idSingleEpisodeSearch id = true -> prFullSeason p = false))).
Proof.
  intros Hk. unfold identityRejection.
  assert (String.eqb kind MediaKindMovie || String.eqb kind MediaKindEpisode || String.eqb kind MediaKindSeries = true) as ->.
  { rewrite !elem_of_cons in Hk. destruct Hk as [-> | [-> | [-> | Hk]]]; [done | done | done |]. by apply elem_of_nil in Hk. }
  pose proof (itemRejection_none kind id p rel) as Hi. unfold or_else.
  destruct (itemRejection _ _ _ _ _ _); [split; [done |]; intros (H1' & H2' & _); by apply Hi |].
  destruct (proj1 Hi eq_refl) as [Hc He]. clear Hi.
  destruct (String.eqb_spec kind MediaKindMovie) as [Em | Em]; [split; done || tauto |].
  pose proof (numberingRejection_none id p) as Hn. cbn [ixScene newIdentityIndex] in *.
  destruct (numberingRejection _ _ _); [split; [done |]; intros (_ & _ & H3'); apply Hn; tauto |].
  unfold seasonPackRejection. destruct (idSingleEpisodeSearch id), (prFullSeason p); cbn; intuition done.
Qed.

(** What identifies nothing is never taken on a title: with no title to compare
    and no id, every release is of an unknown item. *)
Lemma no_identity_is_unknown kind id p rel : kind ∈ [MediaKindMovie; MediaKindEpisode; MediaKindSeries] ->
  idTitles id = [] -> idIDs id = ∅ -> idIDQueryIndexers id = ∅ ->
  exists d, identityRejection kind id (newIdentityIndex kind id) p rel = Some (newRejection ReasonUnknownItem d).
Proof.
  intros Hk Ht Hi Hq. unfold identityRejection.
  assert (String.eqb kind MediaKindMovie || String.eqb kind MediaKindEpisode || String.eqb kind MediaKindSeries = true) as ->.
  { rewrite !elem_of_cons in Hk. destruct Hk as [-> | [-> | [-> | Hk]]]; [done | done | done |]. by apply elem_of_nil in Hk. }
  assert (forall k, compare_key (idIDs id) (riIDs rel) k = None) as Hn.
  { intros k. unfold compare_key, at_key. rewrite Hi, lookup_empty. cbn [default from_option].
    unfold normalizeID. by destruct (String.eqb k IDKeyIMDB). }
  unfold itemRejection. pose proof (compareIDs_spec kind (idIDs id) (riIDs rel)) as Hc.
  destruct (compareIDs kind (idIDs id) (riIDs rel)) as [m [| a c]].
  2: { destruct Hc as (_ & k & _ & Hk'). by rewrite Hn in Hk'. }
  destruct m. { destruct Hc as [_ [Hm _]]. destruct (Hm eq_refl) as (k & _ & Hk'). by rewrite Hn in Hk'. }
  rewrite Hq, lookup_empty. cbn [default from_option]. rewrite andb_false_r, Ht. cbn. eauto.
Qed.
End identity.

(** ** Examples, over ASCII text *)

Definition ascii_tables : TextTables := {| normalized := str_map lower_ascii; unicode_alnum := fun s => s |}.
Definition plain_quote : Quote := {| fmt_q := fun s => "'" +:+ s +:+ "'" |}.

Definition ex_identity : Identity :=
  mkIdentity ["The Expanse"] 2015 0 [] {["tvdb" := "280619"]} 2 [5] [] None
    [mkSceneMapping (mkEpisodeNumbering 3 1 0) (mkEpisodeNumbering 2 5 0)] ∅ true false [] [] "".

Definition ex_parsed (title : string) (season episode : Z) : ParsedRelease :=
  mkParsedRelease title [] 0 zero_Quality zero_Revision [] false false false "" "" [season] [episode] [] None false ""
    None None None [] [] ∅.

Lemma identity_by_evidence_witness :
  @identityRejection ascii_unicode plain_quote ascii_tables MediaKindEpisode ex_identity
    (@newIdentityIndex ascii_unicode ascii_tables MediaKindEpisode ex_identity) (ex_parsed "Expanse" 3 1) zero_ReleaseInfo = None.
Proof.
  apply identity_by_evidence; [apply list_elem_of_In; cbn; auto |]. split_and!.
  - intros (k & Hk & Hc). apply list_elem_of_singleton in Hk as ->. vm_compute in Hc. discriminate.
  - right. split; [right | discriminate]. exists "expanse". split_and!;
      [apply list_elem_of_In; left; vm_compute; reflexivity | apply (bool_decide_unpack _); vm_compute; exact I |].
    right. apply (bool_decide_unpack _). vm_compute. exact I.
  - intros _. split; [| done]. right. left. cbn [covers ex_identity idSeasonSearch idEpisodes]. split; [done |].
    constructor; [| constructor]. left. exists (mkEpisodeNumbering 2 5 0). split; [| done].
    apply (scene_episode _ _ _ 3 1); [done | by apply list_elem_of_In; left | by apply list_elem_of_In; left |].
    eexists. split; [by apply list_elem_of_In; left |]. by vm_compute.
Defined.
