(* ===== verification/IssueNumbers.v ===== *)
(** * IssueNumbers: issue numbers compare as numbers

    What [IssueNumberKey] (src/pkg/decision/identity_nonvideo.go) keys a plain
    number as: padding and trailing fractional zeros aside, two plain numbers
    have one key exactly when they are the same number. *)

From S2P Require Import Prelude GoLang GoFacts Api Release Coverage Identity.
From Stdlib Require Import Ascii.

(** The length of a string, as a number. *)
Definition slen (s : string) : Z := Z.of_nat (String.length s).

Lemma slen_nonneg s : 0 <= slen s.
Proof. unfold slen. lia. Qed.

Lemma slen_cons a s : slen (String a s) = slen s + 1.
Proof. unfold slen. cbn. lia. Qed.

Lemma slen_app s t : slen (s +:+ t) = slen s + slen t.
Proof. unfold slen. rewrite str_length_app. lia. Qed.

Lemma dec_val_app s t n : dec_val (s +:+ t) n = dec_val t (dec_val s n).
Proof. revert n. induction s as [| a s IH]; intros n; [done |]. rewrite app_cons. cbn. apply IH. Qed.

Lemma pow10_succ s : 10 ^ (slen s + 1) = 10 * 10 ^ slen s.
Proof. rewrite Z.add_comm, Z.pow_add_r, Z.pow_1_r; [done | lia | apply slen_nonneg]. Qed.

Lemma dec_val_shift s n : dec_val s n = n * 10 ^ slen s + dec_val s 0.
Proof.
  revert n. induction s as [| a s IH]; intros n; [change (10 ^ slen "") with 1; cbn [dec_val]; lia |]. cbn [dec_val].
  rewrite slen_cons, pow10_succ, IH, (IH (10 * 0 + _)). ring.
Qed.

Lemma digit_range a : is_digit a = true -> 0 <= byte_of a - 48 < 10.
Proof. unfold is_digit, in_range. intros Ha. bools. lia. Qed.

Lemma dec_val_range s : digits s -> 0 <= dec_val s 0 < 10 ^ slen s.
Proof.
  unfold digits. induction s as [| a s IH]; intros Hs; [by vm_compute |]. cbn in Hs. bools.
  cbn [dec_val]. rewrite dec_val_shift, slen_cons, pow10_succ.
  pose proof (digit_range a ltac:(done)). specialize (IH ltac:(done)). nia.
Qed.

(** Digit strings of one length and one value are equal. *)
Lemma dec_val_inj s t : digits s -> digits t -> slen s = slen t -> dec_val s 0 = dec_val t 0 -> s = t.
Proof.
  unfold digits. revert t. induction s as [| a s IH]; intros [| b t] Hs Ht Hl Hv; [done | | |].
  1,2: by vm_compute in Hl || (unfold slen in Hl; cbn in Hl; lia).
  rewrite !slen_cons in Hl.
  cbn in Hs, Ht. bools. cbn [dec_val] in Hv. rewrite dec_val_shift, (dec_val_shift t) in Hv.
  assert (slen s = slen t) as Hst by lia. rewrite Hst in Hv.
  pose proof (dec_val_range s ltac:(done)). pose proof (dec_val_range t ltac:(done)). rewrite Hst in *.
  pose proof (digit_range a ltac:(done)). pose proof (digit_range b ltac:(done)).
  assert (byte_of a = byte_of b) as Hab by nia. f_equal.
  - rewrite <- (ascii_N_embedding a), <- (ascii_N_embedding b). f_equal. unfold byte_of in Hab. lia.
  - apply IH; [done | done | done | nia].
Qed.

(** ** Zeros in front *)

(** What is left begins with no zero. *)
Definition no_lead (s : string) : Prop := match s with String a _ => is_zero_char a = false | EmptyString => True end.
Definition no_trail (s : string) : Prop := TrimRight is_zero_char s = s.

Lemma TrimLeft_zeros s : digits s ->
  digits (TrimLeft is_zero_char s) /\ no_lead (TrimLeft is_zero_char s) /\ dec_val (TrimLeft is_zero_char s) 0 = dec_val s 0.
Proof.
  unfold digits. induction s as [| a s IH]; intros Hs; [done |]. cbn in Hs. bools. cbn [TrimLeft].
  destruct (is_zero_char a) eqn:Ea; [| by cbn; rewrite Ea; split_and!; [apply andb_true_intro | |]].
  apply Ascii.eqb_eq in Ea as ->. by apply IH.
Qed.

(** A digit string with no zero in front is told by its value. *)
Lemma no_lead_range s : digits s -> no_lead s -> s <> "" -> 10 ^ (slen s - 1) <= dec_val s 0.
Proof.
  destruct s as [| a s]; [done |]. unfold digits. cbn. intros Hs Ha _. bools. unfold is_zero_char in Ha.
  assert (byte_of a <> 48) as Hne.
  { intros E. apply Ascii.eqb_neq in Ha. apply Ha. rewrite <- (ascii_N_embedding a), <- (ascii_N_embedding "0").
    f_equal. unfold byte_of in E. apply N2Z.inj. exact E. }
  pose proof (digit_range a ltac:(done)). rewrite dec_val_shift, slen_cons.
  replace (slen s + 1 - 1) with (slen s) by lia. pose proof (dec_val_range s ltac:(done)). nia.
Qed.

Lemma no_lead_inj s t : digits s -> digits t -> no_lead s -> no_lead t -> dec_val s 0 = dec_val t 0 -> s = t.
Proof.
  intros Hs Ht Ls Lt Hv.
  pose proof (dec_val_range s Hs) as Rs. pose proof (dec_val_range t Ht) as Rt.
  destruct (decide (s = "")) as [-> |], (decide (t = "")) as [-> |]; [done | | |].
  - pose proof (no_lead_range t Ht Lt ltac:(done)). cbn in Hv. pose proof (slen_nonneg t).
    assert (0 < 10 ^ (slen t - 1)); [apply Z.pow_pos_nonneg; [lia |] | lia]. destruct t; [done |]. rewrite slen_cons. pose proof (slen_nonneg t). lia.
  - pose proof (no_lead_range s Hs Ls ltac:(done)). cbn in Hv.
    assert (0 < 10 ^ (slen s - 1)); [apply Z.pow_pos_nonneg; [lia |] | lia]. destruct s; [done |]. rewrite slen_cons. pose proof (slen_nonneg s). lia.
  - pose proof (no_lead_range s Hs Ls ltac:(done)) as Bs. pose proof (no_lead_range t Ht Lt ltac:(done)) as Bt.
    apply dec_val_inj; [done | done | | done].
    assert (slen s - 1 < slen t) by (apply (Z.pow_lt_mono_r_iff 10); [lia | apply slen_nonneg | lia]).
    assert (slen t - 1 < slen s) by (apply (Z.pow_lt_mono_r_iff 10); [lia | apply slen_nonneg | lia]). lia.
Qed.

(** ** Zeros behind *)

Lemma dec_val_zeros n k : dec_val (zeros k) n = n * 10 ^ Z.of_nat k.
Proof.
  revert n. induction k as [| k IH]; intros n; [cbn; lia |]. cbn [zeros dec_val]. change (byte_of "0" - 48) with 0.
  rewrite IH, Nat2Z.inj_succ, Z.pow_succ_r by lia. lia.
Qed.

Lemma slen_zeros k : slen (zeros k) = Z.of_nat k.
Proof. induction k as [| k IH]; [done |]. cbn [zeros]. rewrite slen_cons, IH. lia. Qed.

Lemma digits_zeros k : digits (zeros k).
Proof. induction k; [done |]. done. Qed.

Lemma TrimRight_zeros s : exists k, s = TrimRight is_zero_char s +:+ zeros k.
Proof.
  induction s as [| a s [k IH]]; [by exists O |]. cbn [TrimRight]. destruct (TrimRight is_zero_char s) as [| b r] eqn:E.
  - destruct (is_zero_char a) eqn:Ea; [apply Ascii.eqb_eq in Ea as -> |]; [exists (S k) | exists k].
    + rewrite IH at 1. done.
    + rewrite IH at 1. done.
  - exists k. rewrite app_cons. f_equal. exact IH.
Qed.

Lemma TrimRight_no_trail s : no_trail (TrimRight is_zero_char s).
Proof.
  unfold no_trail. induction s as [| a s IH]; [done |]. cbn [TrimRight]. destruct (TrimRight is_zero_char s) as [| b r] eqn:E.
  - destruct (is_zero_char a) eqn:Ea; [done |]. cbn. by rewrite Ea.
  - change (TrimRight is_zero_char (String a (String b r))) with
      (match TrimRight is_zero_char (String b r) with "" => if is_zero_char a then "" else String a "" | r' => String a r' end).
    by rewrite IH.
Qed.

Lemma no_trail_zeros s k : no_trail (s +:+ zeros (S k)) -> False.
Proof.
  unfold no_trail. intros H. assert (forall k, TrimRight is_zero_char (zeros k) = "") as Hz.
  { clear. induction k as [| k IH]; [done |]. cbn [zeros TrimRight]. by rewrite IH. }
  assert (forall s, slen (TrimRight is_zero_char (s +:+ zeros (S k))) <= slen s) as Hl.
  { clear - Hz. induction s as [| a s IH]; [by rewrite app_empty, Hz |]. rewrite app_cons. cbn [TrimRight].
    destruct (TrimRight is_zero_char (s +:+ _)); rewrite ?slen_cons in *; pose proof (slen_nonneg s); [| lia].
    destruct (is_zero_char a); rewrite ?slen_cons; cbn; lia. }
  specialize (Hl s). rewrite H, slen_app, slen_zeros in Hl. lia.
Qed.

(** Two fractions with no zero behind, of the same value. *)
Lemma no_trail_inj f g : digits f -> digits g -> no_trail f -> no_trail g -> slen f <= slen g ->
  dec_val f 0 * 10 ^ slen g = dec_val g 0 * 10 ^ slen f -> f = g.
Proof.
  intros Df Dg Tf Tg Hl Hv. set (k := Z.to_nat (slen g - slen f)).
  assert (g = f +:+ zeros k) as Hg.
  { symmetry. apply dec_val_inj; [unfold digits; by rewrite str_forall_app, Df, digits_zeros | done | |].
    - rewrite slen_app, slen_zeros. subst k. lia.
    - rewrite dec_val_app, dec_val_zeros. subst k. rewrite Z2Nat.id by lia.
      pose proof (slen_nonneg f). assert (0 < 10 ^ slen f) by (apply Z.pow_pos_nonneg; lia).
      replace (slen g) with (slen g - slen f + slen f) in Hv by lia. rewrite Z.pow_add_r in Hv by lia. nia. }
  destruct k as [| k]; [by rewrite Hg, str_app_nil |]. rewrite Hg in Tg. by apply no_trail_zeros in Tg.
Qed.

Lemma TrimRight_digits s : digits s -> digits (TrimRight is_zero_char s).
Proof.
  intros Hs. destruct (TrimRight_zeros s) as [k Hk]. rewrite Hk in Hs. unfold digits in *.
  rewrite str_forall_app in Hs. by bools.
Qed.

Lemma frac_value f : exists k, 0 <= k /\ slen f = slen (TrimRight is_zero_char f) + k /\
  dec_val f 0 = dec_val (TrimRight is_zero_char f) 0 * 10 ^ k.
Proof.
  destruct (TrimRight_zeros f) as [k Hk]. exists (Z.of_nat k). split; [lia |].
  rewrite Hk at 1 3. by rewrite slen_app, slen_zeros, dec_val_app, dec_val_zeros.
Qed.

(** ** Plain numbers *)

Lemma frac_inj f g : digits f -> digits g ->
  (TrimRight is_zero_char f = TrimRight is_zero_char g <-> dec_val f 0 * 10 ^ slen g = dec_val g 0 * 10 ^ slen f).
Proof.
  intros Df Dg. pose proof (TrimRight_digits f Df) as Df'. pose proof (TrimRight_digits g Dg) as Dg'.
  pose proof (TrimRight_no_trail f) as Tf. pose proof (TrimRight_no_trail g) as Tg.
  destruct (frac_value f) as (k & Hk & -> & ->), (frac_value g) as (m & Hm & -> & ->).
  set (f' := TrimRight is_zero_char f) in *. set (g' := TrimRight is_zero_char g) in *.
  rewrite !Z.pow_add_r by first [apply slen_nonneg | done].
  assert (0 < 10 ^ k) by (apply Z.pow_pos_nonneg; lia). assert (0 < 10 ^ m) by (apply Z.pow_pos_nonneg; lia).
  split; [intros ->; ring |]. intros Hv.
  assert (dec_val f' 0 * 10 ^ slen g' = dec_val g' 0 * 10 ^ slen f') as Hv'.
  { apply (Z.mul_reg_r _ _ (10 ^ k * 10 ^ m)); [nia |]. lia. }
  destruct (Z.le_ge_cases (slen f') (slen g')); [by apply no_trail_inj | symmetry; by apply no_trail_inj].
Qed.

Lemma whole_inj w v : digits w -> digits v ->
  let canon w := if String.eqb (TrimLeft is_zero_char w) "" then "0" else TrimLeft is_zero_char w in
  digits (canon w) /\ (canon w = canon v <-> dec_val w 0 = dec_val v 0).
Proof.
  intros Hw Hv canon. unfold canon.
  destruct (TrimLeft_zeros w Hw) as (Dw & Lw & <-), (TrimLeft_zeros v Hv) as (Dv & Lv & <-).
  set (w' := TrimLeft _ w) in *. set (v' := TrimLeft _ v) in *.
  assert (w' = v' <-> dec_val w' 0 = dec_val v' 0) as <- by (split; [by intros -> | by apply no_lead_inj]).
  destruct (String.eqb_spec w' "") as [E | E], (String.eqb_spec v' "") as [E' | E']; rewrite ?E, ?E' in *; split; try done.
  - split; [intros E0; rewrite <- E0 in Lv; done | by intros <-].
  - split; [intros E0; rewrite E0 in Lw; done | done].
Qed.

Lemma digits_no_dot s : digits s -> no_sep "." s.
Proof. intros Hs. by apply (no_sep_impl is_digit). Qed.

Lemma plain_key_value w f w' f' : digits w -> digits f -> digits w' -> digits f' ->
  (plain_key w f = plain_key w' f' <->
   dec_val w 0 = dec_val w' 0 /\ dec_val f 0 * 10 ^ slen f' = dec_val f' 0 * 10 ^ slen f).
Proof.
  intros Hw Hf Hw' Hf'. unfold plain_key. rewrite <- (frac_inj f f') by done.
  destruct (whole_inj w w' Hw Hw') as [Dw Hi], (whole_inj w' w Hw' Hw) as [Dw' _]. cbv zeta in Hi, Dw, Dw'. rewrite <- Hi.
  clear Hi. set (c := if String.eqb (TrimLeft _ w) "" then _ else _) in *.
  set (c' := if String.eqb (TrimLeft _ w') "" then _ else _) in *.
  assert (forall a b, no_sep "." (a +:+ "." +:+ b) -> False) as Hdot.
  { intros a b Hn. pose proof (Cut_last "." _ Hn) as H1. revert H1. induction a as [| x a IH]; [done |].
    rewrite app_cons in *. unfold no_sep in *. cbn in Hn. bools. intros _. by apply IH; [| apply Cut_last]. }
  destruct (String.eqb_spec (TrimRight is_zero_char f) "") as [E | E], (String.eqb_spec (TrimRight is_zero_char f') "") as [E' | E'].
  - rewrite E, E'. tauto.
  - split; [| intros [_ E0]; congruence]. intros E0. exfalso. apply (Hdot c' (TrimRight is_zero_char f')).
    rewrite <- E0. by apply digits_no_dot.
  - split; [| intros [_ E0]; congruence]. intros E0. exfalso. apply (Hdot c (TrimRight is_zero_char f)).
    rewrite E0. by apply digits_no_dot.
  - split; [| by intros [-> ->]]. intros E0.
    pose proof (Cut_sep "." c (TrimRight is_zero_char f) (digits_no_dot _ Dw)) as H1.
    pose proof (Cut_sep "." c' (TrimRight is_zero_char f') (digits_no_dot _ Dw')) as H2.
    change (String "." (TrimRight is_zero_char f)) with ("." +:+ TrimRight is_zero_char f) in H1.
    change (String "." (TrimRight is_zero_char f')) with ("." +:+ TrimRight is_zero_char f') in H2.
    rewrite E0, H2 in H1. by injection H1.
Qed.

(** ** Written numbers *)

(** [s] is a plain number: the digits [w], and perhaps a dot and the digits
    [f]. *)
Definition written (s w f : string) : Prop :=
  digits w /\ digits f /\ (w <> "" \/ f <> "") /\ (s = w /\ f = "" \/ s = w +:+ String "." f).

Definition numeral (a : ascii) : bool := is_digit a || Ascii.eqb a ".".

Lemma numeral_facts a : numeral a = true ->
  in_range 0 127 a = true /\ ascii_space a = false /\ lower_ascii a = a.
Proof.
  intros Ha. assert (forall z, 0 <= z < 256 -> numeral (ascii_of z) = true ->
    in_range 0 127 (ascii_of z) = true /\ ascii_space (ascii_of z) = false /\ lower_ascii (ascii_of z) = ascii_of z) as H.
  { intros z Hz. assert (z ∈ seqZ 0 256) as Hin by (apply elem_of_seqZ; lia). vm_compute in Hin.
    repeat (apply elem_of_cons in Hin as [-> | Hin]; [by vm_compute |]). by apply not_elem_of_nil in Hin. }
  replace a with (ascii_of (byte_of a)) in *; [apply H; [| done] |].
  - unfold byte_of. pose proof (N_ascii_bounded a). lia.
  - unfold ascii_of, byte_of. by rewrite N2Z.id, ascii_N_embedding.
Qed.

Lemma written_numeral s w f : written s w f -> str_forall numeral s = true.
Proof.
  intros (Hw & Hf & _ & [[-> _] | ->]); rewrite ?str_forall_app; cbn [str_forall].
  - revert Hw. apply str_forall_impl. intros a Ha. unfold numeral. by rewrite Ha.
  - assert (forall t, digits t -> str_forall numeral t = true) as Hd.
    { intros t. apply str_forall_impl. intros a Ha. unfold numeral. by rewrite Ha. }
    by rewrite !Hd.
Qed.

Section keys.
Context `{Unicode} `{TextTables}.

Lemma numeral_kept s : str_forall numeral s = true -> ToLower (TrimSpace s) = s.
Proof.
  intros Hs. assert (is_ASCII s = true) as Ha.
  { revert Hs. apply str_forall_impl. intros a Ha. by apply numeral_facts. }
  assert (TrimRight ascii_space s = s /\ str_map lower_ascii s = s) as [Ht Hl].
  { clear Ha. induction s as [| a s IH]; [done |]. cbn in Hs. bools. destruct (numeral_facts a) as (_ & Hsp & Hlo); [done |].
    destruct IH as [IHt IHl]; [done |]. cbn. rewrite IHt, IHl, Hlo, Hsp. by destruct s. }
  unfold TrimSpace, ToLower. rewrite Ha. unfold Trim. assert (TrimLeft ascii_space s = s) as ->.
  { destruct s as [| a s]; [done |]. cbn in Hs. bools. destruct (numeral_facts a) as (_ & Hsp & _); [done |]. cbn. by rewrite Hsp. }
  by rewrite Ht, Ha, Hl.
Qed.

Lemma IssueNumberKey_written s w f : written s w f -> IssueNumberKey s = plain_key w f.
Proof.
  intros Hs. unfold IssueNumberKey. rewrite (numeral_kept s) by by apply written_numeral in Hs.
  destruct Hs as (Hw & Hf & Hn & [[-> ->] | ->]); unfold allDigits.
  - rewrite Cut_last by by apply digits_no_dot. unfold digits in Hw. rewrite Hw. cbn [negb orb andb].
    destruct (String.eqb_spec w ""); [destruct Hn; congruence | done].
  - rewrite Cut_sep by by apply digits_no_dot. unfold digits in Hw, Hf. rewrite Hw, Hf. cbn [negb orb andb].
    destruct (String.eqb_spec w ""), (String.eqb_spec f ""); try done. destruct Hn; congruence.
Qed.

(** Issue numbers compare as numbers: two plain numbers, however padded,
    have one key exactly when they are equal. *)
Theorem issue_numbers_by_value (s w f s' w' f' : string) : written s w f -> written s' w' f' ->
  (IssueNumberKey s = IssueNumberKey s' <->
   dec_val w 0 = dec_val w' 0 /\ dec_val f 0 * 10 ^ slen f' = dec_val f' 0 * 10 ^ slen f).
Proof.
  intros Hs Hs'. rewrite (IssueNumberKey_written s w f Hs), (IssueNumberKey_written s' w' f' Hs').
  destruct Hs as (? & ? & _), Hs' as (? & ? & _). by apply plain_key_value.
Qed.
End keys.

Lemma issue_numbers_by_value_witness :
  @IssueNumberKey ascii_unicode ascii_tables "0012.50" = "12.5" /\
  @IssueNumberKey ascii_unicode ascii_tables "0012.50" = @IssueNumberKey ascii_unicode ascii_tables "12.5".
Proof.
  split; [by vm_compute |]. apply (issue_numbers_by_value _ "0012" "50" _ "12" "5"); [| | by vm_compute].
  all: split_and!; [by vm_compute | by vm_compute | left; discriminate | by right].
Defined.
