(* ===== verification/Accept.v ===== *)
(** * Accept: which releases may be taken

    src/pkg/decision: the checks of a release and of what its item already has
    (checks.go, size.go), the audio policy (audiolanguage.go, audiopolicy.go,
    dub.go) and the rank key (evaluate.go).  What reads text by patterns - the
    title parser, the custom format catalogue and the multi-language marker - is
    a class.  [Evaluate] is in Evaluate.v. *)

From Stdlib Require Import SpecFloat.
From S2P Require Import Prelude GoLang GoFloat Api RankScore Quality Sizes Release Languages Rank Coverage Identity.
From Stdlib Require Import Ascii.

(** [ItemContext] (catalogue.go), the fields [Evaluate] fills. *)
Record ItemContext := mkItemContext {
  icOriginalLanguageName : string;
  icIndexerFlags : list string;
  icReleaseType : string;
  icReleaseTitle : string;
}.

(** The pattern readers: [release.Parse] of a title for a kind, an error's text
    on the right; [Catalogue.Score]; [multiLanguageRegex], a time-out being no
    match; and [strings.ToUpper] beyond ASCII. *)
Class Patterns := {
  Parse : string -> string -> ParsedRelease + string;
  cat_Score : gmap string Z -> ParsedRelease -> ItemContext -> Z * list string;
  multiLanguage : string -> bool;
  unicode_ToUpper : string -> string;
}.

(** ** The item (types.go) *)

Record Current := mkCurrent {
  cuQuality : Quality;
  cuRevision : Revision;
  cuFormatScore : Z;
  cuFormats : list string;
  cuSourceHash : string;
  cuSourceTitle : string;
  cuTranscoded : bool;
  cuAudioLanguages : option (list string);
  cuVideoCodec : string;
  cuHDR : string;
  cuBytesPerSecond : Z;
  cuUndecodable : bool;
}.

Record Queued := mkQueued { quCandidate : Candidate; quPack : bool; quLanguages : list string }.

Record Donor := mkDonor {
  dnLanguages : list string;
  dnAnchor : string;
  dnRejected : list string;
  dnSource : string;
  dnEdition : string;
}.

(** [Target]; [None] is a nil pointer, function or map. *)
Record Target := mkTarget {
  tgKind : string;
  tgAvailable : bool;
  tgRuntimeMinutes : Z;
  tgEpisodeRuntimes : list Z;
  tgOriginalLanguageTag : string;
  tgCurrent : option Current;
  tgQueue : list Queued;
  tgBlocklist : option (string -> string -> bool);
  tgIdentity : Identity;
  tgDonor : option Donor;
  tgAnime : bool;
  tgRuntimeByEpisode : option (gmap Z Z);
}.

Record Options := mkOptions {
  opUserInvoked : bool;
  opProtocolsEnabled : gmap string bool;
  opIndexerPriority : gmap string Z;
  opPreferredProtocol : string;
}.

(** ** Checks that read no text tables *)

Definition protocolRejection (rel : ReleaseInfo) (o : Options) : option Rejection :=
  if default false (opProtocolsEnabled o !! Protocol_string (riProtocol rel)) then None
  else Some (newRejection ReasonProtocolDisabled (Protocol_string (riProtocol rel) +:+ " is not enabled")).

Definition availabilityRejection (t : Target) (o : Options) : option Rejection :=
  if opUserInvoked o || tgAvailable t then None
  else Some (newRejection ReasonUnavailable "item is not yet available").

Definition transcodedRejection (t : Target) : option Rejection :=
  match tgCurrent t with
  | Some cur =>
      if cuTranscoded cur
      then Some (newRejection ReasonTranscodedFinal "the current file is transcoded, and a transcoded file is final")
      else None
  | None => None
  end.

(** [isVideoKind] (checks.go). *)
Definition video_kind (kind : string) : bool :=
  String.eqb kind MediaKindMovie || String.eqb kind MediaKindEpisode || String.eqb kind MediaKindSeries.

Definition dolbyVisionRejection (p : ParsedRelease) : option Rejection :=
  if contains (prHDR p) "DV"
  then Some (newRejection ReasonDolbyVision "the release is Dolby Vision, which is never taken")
  else None.

Definition IsDolbyVision (hdr : string) : bool := HasPrefix hdr "dolbyVision".

Definition HdrFormatNone : string := "none".

Definition qualityRejections (p : Profile) (rel : ReleaseInfo) (score : Z) : list Rejection :=
  (if Allowed p (riQuality rel) then []
   else [newRejection ReasonQualityNotWanted (qName (riQuality rel) +:+ " is not wanted in this profile")]) ++
  (if score <? pfMinFormatScore p
   then [newRejection ReasonCustomFormatMinimumScore
           ("custom format score " +:+ fmt_d score +:+ " is below the profile minimum " +:+ fmt_d (pfMinFormatScore p))]
   else []).

Definition sampleMaxBytes : Z := 70 * 1000000.

Definition currentScore (p : Profile) (cur : Current) : Z :=
  if bool_decide (cuFormats cur = []) then cuFormatScore cur else ScoreFormats p (cuFormats cur).

(** [verdictReasons]; [Upgrade] has none. *)
Definition VerdictReason (v : UpgradeVerdict) : option Reason :=
  match v with
  | Upgrade => None
  | ExistingBetterQuality => Some ReasonExistingHigherPreference
  | UpgradesNotAllowed => Some ReasonUpgradesNotAllowed
  | ExistingBetterRevision => Some ReasonExistingHigherRevision
  | QualityCutoffMet => Some ReasonExistingCutoffMet
  | FormatScoreNotHigher => Some ReasonExistingFormatScore
  | FormatCutoffMet => Some ReasonExistingFormatCutoffMet
  | FormatIncrementTooSmall => Some ReasonExistingFormatScoreIncrement
  end.

(** ** Runtime (size.go) *)

Definition fallbackMovieRuntimeMinutes : Z := 110.
Definition fallbackEpisodeRuntimeMinutes : Z := 45.

(** The 45-minute fallback for an episode of no runtime. *)
Definition or_fallback (m : Z) : Z := if m <=? 0 then fallbackEpisodeRuntimeMinutes else m.

Definition sum_minutes (l : list Z) : Z := fold_left (fun total m => wrap64 (total + m)) l 0.

(** [absOf]: the last of a number listed twice. *)
Definition absOf (id : Identity) (e : Z) : option Z :=
  if Nat.eqb (length (idAbsolute id)) (length (idEpisodes id))
  then option_map snd (find (fun kv => fst kv =? e) (rev (zip (idEpisodes id) (idAbsolute id))))
  else None.

(** The season's episodes a release covers. *)
Definition covered (id : Identity) (cov : coverage) (e : Z) : bool :=
  bool_decide (idSeason id ∈ cvfull cov) || bool_decide ((idSeason id, e) ∈ cvpairs cov) ||
  match absOf id e with Some a => bool_decide (a ∈ cvabsolutes cov) | None => false end.

Definition seasonRuntimeMinutes (id : Identity) (byEpisode : gmap Z Z) (cov : coverage) : Z :=
  let minutes e := let m := default 0 (byEpisode !! e) in if 0 <? m then m else fallbackEpisodeRuntimeMinutes in
  let total := sum_minutes (map minutes (List.filter (covered id cov) (idEpisodes id))) in
  if total =? 0 then fallbackEpisodeRuntimeMinutes
  else
    let seasons := Z.of_nat (size (cvfull cov)) in
    if bool_decide (idSeason id ∈ cvfull cov) && (1 <? seasons) then wrap64 (total * seasons) else total.

(** [targetRuntimeMinutes]: [None] for a kind with no size model. *)
Definition targetRuntimeMinutes (t : Target) (p : ParsedRelease) : option Z :=
  if String.eqb (tgKind t) MediaKindMovie then
    Some (if tgRuntimeMinutes t <=? 0 then fallbackMovieRuntimeMinutes else tgRuntimeMinutes t)
  else if String.eqb (tgKind t) MediaKindEpisode || String.eqb (tgKind t) MediaKindSeries then
    match (if idSeasonSearch (tgIdentity t) then tgRuntimeByEpisode t else None) with
    | Some byEpisode =>
        Some (seasonRuntimeMinutes (tgIdentity t) byEpisode
                (releaseCoverage p (newSceneIndex (idSceneMappings (tgIdentity t)))))
    | None =>
        let episodes := length (prEpisodes p) in
        let runtimes := tgEpisodeRuntimes t in
        if negb (prFullSeason p || (1 <? Z.of_nat episodes)) then Some (or_fallback (hd 0 runtimes))
        else
          let n := if Nat.eqb episodes 0 || Nat.ltb (length runtimes) episodes then length runtimes else episodes in
          Some (if Nat.eqb n 0 then fallbackEpisodeRuntimeMinutes
                else sum_minutes (map or_fallback (firstn n runtimes)))
    end
  else None.

Section checks.
Context `{FloatToInt}.

Definition sizeRejections (t : Target) (p : Profile) (parsed : ParsedRelease) (rel : ReleaseInfo) : list Rejection :=
  if riSizeBytes rel <=? 0 then []
  else match pfSizes p !! qName (riQuality rel), targetRuntimeMinutes t parsed with
       | Some _, Some minutes =>
           let '(minBytes, maxBytes) := SizeLimits p (riQuality rel) minutes in
           (if (0 <? minBytes) && (riSizeBytes rel <? minBytes)
            then [newRejection ReasonBelowMinimumSize
                    (fmt_d (riSizeBytes rel) +:+ " bytes is below the " +:+ qName (riQuality rel) +:+ " minimum of " +:+
                     fmt_d minBytes +:+ " bytes at " +:+ fmt_d minutes +:+ " minutes")]
            else []) ++
           (if (0 <? maxBytes) && (maxBytes <? riSizeBytes rel)
            then [newRejection ReasonAboveMaximumSize
                    (fmt_d (riSizeBytes rel) +:+ " bytes is above the " +:+ qName (riQuality rel) +:+ " maximum of " +:+
                     fmt_d maxBytes +:+ " bytes at " +:+ fmt_d minutes +:+ " minutes")]
            else [])
       | _, _ => []
       end.

Definition bitrateRejections (t : Target) (p : Profile) (parsed : ParsedRelease) (rel : ReleaseInfo) : list Rejection :=
  if (riSizeBytes rel <=? 0) || bool_decide (pfBitrates p = ∅) then []
  else match targetRuntimeMinutes t parsed with
       | None => []
       | Some minutes =>
           if minutes <=? 0 then []
           else
             let bps := Z.quot (riSizeBytes rel) (wrap64 (minutes * 60)) in
             let why := BitrateOutOfRange p (riQuality rel) bps in
             if String.eqb why "" then []
             else
               let lim := default (mkBitrateLimit 0 0) (pfBitrates p !! qResolution (riQuality rel)) in
               let reason := if (0 <? blMax lim) && (blMax lim <? bps)
                             then ReasonAboveMaximumBitrate else ReasonBelowMinimumBitrate in
               [newRejection reason (why +:+ " at " +:+ fmt_d minutes +:+ " minutes")]
       end.

(** [buildRankKey]. *)
Definition buildRankKey (p : Profile) (o : Options) (t : Target) (parsed : ParsedRelease) (rel : ReleaseInfo) (score : Z) :
    RankKey :=
  let idx := default (Z.of_nat (length (pfTiers p))) (Index p (riQuality rel)) in
  let preferred := if String.eqb (opPreferredProtocol o) "" then pfPreferredProtocol p else opPreferredProtocol o in
  let protocolMatch := String.eqb preferred "any" || String.eqb (Protocol_string (riProtocol rel)) preferred in
  let episodes := Z.of_nat (length (prEpisodes parsed)) in let absolute := Z.of_nat (length (prAbsolute parsed)) in
  let episodeCount := if prFullSeason parsed then MaxInt32
                      else if (1 <? episodes) || (1 <? absolute) then Z.max episodes absolute else 1 in
  let sl := default zero_SizeLimit (pfSizes p !! qName (riQuality rel)) in
  let key := mkRankKey idx (Z.of_nat (length (pfTiers p))) (prefer_propers p) (riRevision rel) score protocolMatch
               episodeCount false 0 0 false false (pfAudioCompleteFirst p) false 0 (tgAnime t) in
  if pfPreferSmallest p then key <| rkPreferSmallestSize := true |> <| rkSizeBytes := riSizeBytes rel |>
  else if preferLargest sl then key <| rkPreferLargestSize := true |> <| rkSizeBytes := riSizeBytes rel |>
  else match targetRuntimeMinutes t parsed with
       | Some minutes =>
           key <| rkSizeDeltaBucket := roundTo200MiB (abs64 (wrap64 (riSizeBytes rel - prefBytes sl minutes))) |>
       | None => key
       end.
End checks.

Section text.
Context `{Unicode} `{Quote} `{TextTables} `{TagParser} `{Patterns} `{FloatToInt}.

Definition ToUpper (s : string) : string :=
  if is_ASCII s then str_map (fun a => if is_lower a then ascii_of (byte_of a - 32) else a) s else unicode_ToUpper s.

(** ** The audio policy (audiolanguage.go, audiopolicy.go) *)

Definition containsFold (haystack : list string) (needle : string) : bool := existsb (fun s => EqualFold s needle) haystack.

Definition audioAnchor (p : Profile) : string :=
  if contains (pfAudioLanguages p) "original" then "original"
  else if negb (String.eqb (pfAudioDefault p) "") then pfAudioDefault p
  else hd "" (pfAudioLanguages p).

(** A file's audio holds the base language of [w]. *)
Definition has_language (audio : list string) (w : string) : bool :=
  existsb (fun a => String.eqb (baseLanguage a) (baseLanguage w)) audio.

Definition LacksLanguage (p : Profile) (originalTag : string) (audio : option (list string)) : bool :=
  match audio with
  | None => false
  | Some audio =>
      let want := if bool_decide (pfAudioLanguages p = []) then pfLanguage p else audioAnchor p in
      if String.eqb want "" || String.eqb want "any" then false
      else match Normalize (if String.eqb want "original" then originalTag else want) with
           | None => false
           | Some w => negb (has_language audio w)
           end
  end.

(** [audioTags]. *)
Definition audioTags (languages : list string) (originalTag : string) (except : list string) : list string :=
  fold_left (fun out l =>
    match Normalize (if String.eqb l "original" then originalTag else l) with
    | Some w => if contains out w || contains except w then out else out ++ [w]
    | None => out
    end) languages [].

Definition WantedAudio (p : Profile) (originalTag : string) : list string := audioTags (pfAudioLanguages p) originalTag [].
Definition OptionalAudio (p : Profile) (originalTag : string) : list string :=
  audioTags (pfAudioOptional p) originalTag (WantedAudio p originalTag).

(** [MissingAudio] and [MissingOptionalAudio]; nil and none missing read alike. *)
Definition lacking (wanted : list string) (audio : option (list string)) : list string :=
  match audio with None => [] | Some audio => List.filter (fun w => negb (has_language audio w)) wanted end.
Definition MissingAudio (p : Profile) (originalTag : string) (audio : option (list string)) : list string :=
  lacking (WantedAudio p originalTag) audio.
Definition MissingOptionalAudio (p : Profile) (originalTag : string) (audio : option (list string)) : list string :=
  lacking (OptionalAudio p originalTag) audio.

Definition some_missing (l : list string) : bool := negb (bool_decide (l = [])).

Definition IncompleteAudio (p : Profile) (originalTag : string) (audio : option (list string)) : bool :=
  negb (pfGraftAudio p) && some_missing (MissingAudio p originalTag audio).

Definition ReplaceableAudio (p : Profile) (originalTag : string) (audio : option (list string)) : bool :=
  (negb (pfGraftAudio p) || pfAudioCompleteFirst p) && some_missing (MissingAudio p originalTag audio).

Definition AudioUpgradeable (p : Profile) (originalTag : string) (audio : option (list string)) : bool :=
  ReplaceableAudio p originalTag audio ||
  ((negb (pfGraftAudio p) || pfAudioCompleteFirst p) && some_missing (MissingOptionalAudio p originalTag audio)).

Definition CompletesAudio (p : Profile) (originalTag : string) (audio : option (list string)) : bool :=
  some_missing (pfAudioLanguages p) && bool_decide (is_Some audio) &&
  negb (some_missing (MissingAudio p originalTag audio)) && negb (some_missing (MissingOptionalAudio p originalTag audio)).

Record audioNames := mkAudioNames {
  anOriginal : string;
  anWanted : list string;
  anOptional : list string;
  anAnchor : string;
}.

(** The loop over a policy's languages: names, each once and none of
    [except]'s. *)
Definition audio_names (name : string -> string) (languages except : list string) : list string :=
  fold_left (fun out l =>
    let n := name l in
    if negb (String.eqb n "") && negb (containsFold except n) && negb (containsFold out n) then out ++ [n] else out)
    languages [].

Definition resolveAudioNames (p : Profile) (originalLanguage : string) : audioNames :=
  let name l := if String.eqb l "original" then originalLanguage else originalLanguageName l in
  let wanted := audio_names name (pfAudioLanguages p) [] in
  mkAudioNames originalLanguage wanted (audio_names name (pfAudioOptional p) wanted)
    (let a := audioAnchor p in if String.eqb a "" then "" else name a).

Definition namesWantedLanguages (an : audioNames) (p : Profile) (parsed : ParsedRelease) : bool :=
  if prLanguageUnknown parsed then false
  else if bool_decide (pfAudioLanguages p = []) || String.eqb (anAnchor an) "" then true
  else containsFold (prLanguages parsed) (anAnchor an).

(** [audioRejection], of a release's languages. *)
Definition audioRejection (an : audioNames) (p : Profile) (have : list string) : option Rejection * bool :=
  if forallb (containsFold have) (anWanted an) then (None, forallb (containsFold have) (anOptional an))
  else if pfGraftAudio p && (String.eqb (anAnchor an) "" || containsFold have (anAnchor an)) then (None, false)
  else (Some (newRejection ReasonWantedLanguage
                ("audio " +:+ fmt_strings (anWanted an) +:+ " wanted, found " +:+ fmt_strings have)), false).

Definition languageRejection (originalLanguage : string) (p : Profile) (parsed : ParsedRelease) : option Rejection :=
  let name := pfLanguageName p in
  let have := prLanguages parsed in
  if String.eqb name "" || String.eqb name "any" then None
  else if String.eqb name "original" then
    if String.eqb originalLanguage "" || containsFold have originalLanguage then None
    else Some (newRejection ReasonWantedLanguage
                 ("original language " +:+ originalLanguage +:+ " is wanted, but found " +:+ fmt_strings have))
  else if containsFold have name then None
  else Some (newRejection ReasonWantedLanguage (name +:+ " is wanted, but found " +:+ fmt_strings have)).

(** [ForDub] (dub.go). *)
Definition english (l : string) : bool :=
  match Normalize l with
  | Some t => negb (String.eqb l "original") && String.eqb (baseLanguage t) "en"
  | None => false
  end.

Inductive DubState := Ungoverned | Dubbed | Incomplete | NotDubbed.

Definition ForDub (p : Profile) (s : DubState) : Profile :=
  match s with
  | Ungoverned | Dubbed => p
  | NotDubbed | Incomplete =>
      let keep := List.filter (fun l => negb (english l)) (pfAudioLanguages p) in
      let dropped := List.filter english (pfAudioLanguages p) in
      if bool_decide (dropped = []) || bool_decide (keep = []) then p
      else p <| pfAudioLanguages := keep |> <| pfAudioOptional := match s with Incomplete => dropped | _ => [] end |>
  end.

(** ** Checks of the release's title *)

(** [namesHDR] and [namesAVC]. *)
Definition namesHDR (p : ParsedRelease) (title : string) : bool :=
  existsb (fun h => contains ["HDR"; "HDR10+"; "HLG"; "PQ"; "DV"] h ||
    (String.eqb h "HDR10" && Contains (ToUpper title) "HDR")) (prHDR p).

Definition namesAVC (p : ParsedRelease) : bool :=
  existsb (fun c => contains ["X264"; "H264"; "AVC"] (ToUpper (str_filter (fun a => negb (Ascii.eqb a ".")) c))) (prCodec p).

Definition baselineRejections (p : Profile) (t : Target) (parsed : ParsedRelease) (rel : ReleaseInfo) : list Rejection :=
  match tgCurrent t with
  | None => []
  | Some cur =>
      if LacksLanguage p (tgOriginalLanguageTag t) (cuAudioLanguages cur) || IsDolbyVision (cuHDR cur) then []
      else
        (if negb (String.eqb (cuHDR cur) "") && negb (String.eqb (cuHDR cur) HdrFormatNone) &&
            negb (namesHDR parsed (riTitle rel))
         then [newRejection ReasonLosesHDR ("the current file is " +:+ cuHDR cur +:+ " and the release names no HDR")]
         else []) ++
        (if contains ["hevc"; "av1"] (cuVideoCodec cur) && namesAVC parsed && (0 <? qResolution (cuQuality cur)) &&
            (0 <? qResolution (riQuality rel)) && (qResolution (riQuality rel) <=? qResolution (cuQuality cur))
         then [newRejection ReasonAVCOverHEVC
                 ("the current file is " +:+ cuVideoCodec cur +:+ " at " +:+ fmt_d (qResolution (cuQuality cur)) +:+
                  "p and the release is AVC at " +:+ fmt_d (qResolution (riQuality rel)) +:+ "p")]
         else [])
  end.

Definition BaselineLoss (curCodec curHDR : string) (curResolution : Z) (newCodec newHDR : string) (newResolution : Z) :
    string :=
  if IsDolbyVision curHDR then ""
  else if negb (String.eqb curHDR "") && negb (String.eqb curHDR HdrFormatNone) &&
    (String.eqb newHDR "" || String.eqb newHDR HdrFormatNone) && negb (String.eqb newCodec "")
  then "the current file is " +:+ curHDR +:+ " and this one is SDR"
  else if contains ["hevc"; "av1"] curCodec && String.eqb newCodec "h264" && (0 <? curResolution) &&
    (0 <? newResolution) && (newResolution <=? curResolution)
  then "the current file is " +:+ curCodec +:+ " at " +:+ fmt_d curResolution +:+ "p and this one is AVC at " +:+
       fmt_d newResolution +:+ "p"
  else "".

Definition quotation_mark : string := String "034"%char EmptyString.

Definition sampleRejection (rel : ReleaseInfo) : option Rejection :=
  if negb (Contains (ToLower (riTitle rel)) "sample") then None
  else if (riSizeBytes rel <=? 0) || (sampleMaxBytes <=? riSizeBytes rel) then None
  else Some (newRejection ReasonSample
              ("title contains " +:+ quotation_mark +:+ "sample" +:+ quotation_mark +:+ " and is under 70 MB")).

(** ** The item's state *)

Definition blocklisted (t : Target) (rel : ReleaseInfo) : bool :=
  match tgBlocklist t with Some listed => listed (riInfoHash rel) (riTitle rel) | None => false end.

Definition blocklistAndHistoryRejections (t : Target) (rel : ReleaseInfo) : list Rejection :=
  (if blocklisted t rel then [newRejection ReasonBlocklisted "release is blocklisted"] else []) ++
  match tgCurrent t with
  | None => []
  | Some cur =>
      if negb (String.eqb (cuSourceHash cur) "") && negb (String.eqb (riInfoHash rel) "") &&
         EqualFold (cuSourceHash cur) (riInfoHash rel)
      then [newRejection ReasonAlreadyImportedSameHash "has the same hash as a grabbed and imported release"]
      else if negb (String.eqb (cuSourceTitle cur) "") && EqualFold (cuSourceTitle cur) (riTitle rel)
      then [newRejection ReasonAlreadyImportedSameName "has the same title as a grabbed and imported release"]
      else []
  end.

(** [queuedComplete]. *)
Definition queuedComplete (an : audioNames) (p : Profile) (q : Queued) : bool := snd (audioRejection an p (quLanguages q)).

(** [queueRejection]: the loop over the queue. *)
Fixpoint queueRejection (p : Profile) (queue : list Queued) (candidate : Candidate) (an : audioNames)
    (complete pack : bool) : option Rejection :=
  match queue with
  | [] => None
  | q :: queue' =>
      let go_on := queueRejection p queue' candidate an complete pack in
      let qc := queuedComplete an p q in
      if pfAudioCompleteFirst p && complete && negb qc then go_on
      else if pfAudioCompleteFirst p && negb complete && qc then
        Some (newRejection ReasonQueueHigherPreference "a release carrying every wanted language is already downloading")
      else if quPack q then
        Some (newRejection ReasonPackDownloading
                "a pack covering it is still downloading; it is judged again once the pack has imported or failed")
      else if pack then go_on
      else if bool_decide (UpgradeDecision p (quCandidate q) candidate = Upgrade) then go_on
      else Some (newRejection ReasonQueueHigherPreference "a release of equal or higher preference is already downloading")
  end.

Definition currentCandidate (p : Profile) (cur : Current) : Candidate :=
  mkCandidate (cuQuality cur) (cuRevision cur) (currentScore p cur).

Definition upgradeRejection (p : Profile) (t : Target) (candidate : Candidate) (namesLanguage : bool) : option Rejection :=
  match tgCurrent t with
  | None => None
  | Some cur =>
      if namesLanguage && LacksLanguage p (tgOriginalLanguageTag t) (cuAudioLanguages cur) then None
      else
        let v := UpgradeDecision p (currentCandidate p cur) candidate in
        if bool_decide (v = Upgrade) then None
        else Some (newRejection (default ReasonUpgradesNotAllowed (VerdictReason v))
                     ("current file or queue entry is preferred over " +:+ qName (cdQuality candidate)))
  end.
End text.
