(* ===== verification/Media.v ===== *)
(** * Media: the files of the library

    MediaFile (src/api/catalog/v1alpha1/mediafile_types.go), the probe of its
    streams (src/api/common/v1alpha1/media_types.go) and what is read off them:
    whether a file is transcoded, final or undecodable, and its bitrate
    (mediafile_transcoded.go, media_transcoded.go); the languages of its audio
    (src/pkg/decision/audiolanguage.go). *)

From S2P Require Import Prelude GoLang Api LcView Languages Release.
From Stdlib Require Import Ascii.

(** ** The probe *)

(** [AudioStream]. *)
Record AudioStream := mkAudioStream {
  asIndex : Z;
  asCodec : string;
  asProfile : string;
  asLanguage : string;
  asTitle : string;
  asChannels : Z;
  asChannelLayout : string;
  asBitrateKbps : Z;
  asDefault : bool;
  asCommentary : bool;
}.

(** [SubtitleStream]. *)
Record SubtitleStream := mkSubtitleStream {
  usIndex : Z;
  usCodec : string;
  usLanguage : string;
  usTitle : string;
  usForced : bool;
  usHearingImpaired : bool;
  usBitmap : bool;
}.

(** [Chapter]. *)
Record Chapter := mkChapter { chTitle : string; chStartMillis : Z; chEndMillis : Z }.

(** [MediaInfo]. *)
Record MediaInfo := mkMediaInfo {
  miContainer : string;
  miVideoCodec : string;
  miVideoProfile : string;
  miPixelFormat : string;
  miVideoBitDepth : Z;
  miWidth : Z;
  miHeight : Z;
  miFpsMilli : Z;
  miVideoBitrateKbps : Z;
  miHdr : string;
  miDoviProfile : option Z;
  miDoviBLCompatID : option Z;
  miRuntimeMillis : Z;
  miAudio : list AudioStream;
  miSubtitles : list SubtitleStream;
  miAttachments : Z;
  miChapters : Z;
  miChapterList : list Chapter;
  miTranscodeProfile : string;
  miVideoEncoder : string;
}.

(** [transcodeEncoders]. *)
Definition transcodeEncoders : list string := ["libx265"; "libkvazaar"; "libsvtav1"; "libaom-av1"; "librav1e"].

Section media.
Context `{Unicode} `{TagParser}.

Definition TranscodedElsewhere (mi : MediaInfo) : bool :=
  let fields := Fields (ToLower (miVideoEncoder mi)) in
  if Nat.ltb (length fields) 2 || negb (HasPrefix (hd "" fields) "lavc") then false
  else
    let enc := List.last fields "" in
    contains transcodeEncoders enc || HasPrefix enc "hevc_" || HasPrefix enc "av1_".

(** [AudioLanguages]: [None] is nil, not all of them known. *)
Fixpoint audio_languages (l : list AudioStream) (out : list string) : option (list string) :=
  match l with
  | [] => Some out
  | a :: l =>
      match Normalize (asLanguage a) with
      | None => None
      | Some t =>
          if String.eqb t "unk" then None
          else audio_languages l (if contains out t then out else out ++ [t])
      end
  end.
Definition AudioLanguages (mi : option MediaInfo) : option (list string) :=
  match mi with
  | None => None
  | Some mi => match miAudio mi with [] => None | l => audio_languages l [] end
  end.

(** ** MediaFiles *)

(** [MediaFile]: its metadata's fields that are read, its spec, and its probe
    ([status.mediaInfo]). *)
Record MediaFile := mkMediaFile {
  mfName : string;
  mfUID : string;
  mfResourceVersion : string;
  mfAnnotations : gmap string string;
  mfMediaRef : MediaRef;
  mfPath : string;
  mfSizeBytes : Z;
  mfModTime : Time;
  mfQuality : Quality;
  mfRevision : Revision;
  mfReleaseType : string;
  mfReleaseGroup : string;
  mfEdition : string;
  mfLanguages : list string;
  mfFormatScore : Z;
  mfMatchedFormats : list string;
  mfProfileHash : string;
  mfImportedFrom : option ImportSource;
  mfSourceSizeBytes : Z;
  mfOriginal : option bool;
  mfMediaInfo : option MediaInfo;
}.

Definition AnnotationUpgradeable : string := "catalog.clustarr.io/upgradeable".

Definition Transcoded (mf : MediaFile) : bool :=
  match mfOriginal mf with
  | Some false => true
  | _ =>
      match mfMediaInfo mf with
      | None => false
      | Some mi => negb (String.eqb (miTranscodeProfile mi) "") || TranscodedElsewhere mi
      end
  end.

Definition Upgradeable (mf : MediaFile) : bool :=
  String.eqb (default "" (mfAnnotations mf !! AnnotationUpgradeable)) "true".

Definition Final (mf : MediaFile) : bool := Transcoded mf && negb (Upgradeable mf).

Definition UndecodableVideoCodec (codec : string) (bitDepth : Z) (pixFmt : string) : string :=
  if String.eqb codec "h264" then
    if (bitDepth =? 10) || Contains pixFmt "10" then "H.264 10-bit" else ""
  else if String.eqb codec "mpeg4" then "MPEG-4 Part 2 (XviD, DivX)"
  else if contains ["msmpeg4v1"; "msmpeg4v2"; "msmpeg4v3"] codec then "MS-MPEG-4 (DivX 3)"
  else "".

Definition UndecodableVideo (mf : MediaFile) : string :=
  match mfMediaInfo mf with
  | None => ""
  | Some mi => UndecodableVideoCodec (miVideoCodec mi) (miVideoBitDepth mi) (miPixelFormat mi)
  end.

Definition BytesPerSecond (mf : MediaFile) : Z :=
  match mfMediaInfo mf with
  | None => 0
  | Some mi =>
      if miRuntimeMillis mi <=? 0 then 0
      else
        let size := if mfSourceSizeBytes mf <=? 0 then mfSizeBytes mf else mfSourceSizeBytes mf in
        if size <=? 0 then 0 else Z.quot (wrap64 (size * 1000)) (miRuntimeMillis mi)
  end.
End media.
