(* ===== verification/Evaluate.v ===== *)
(** * Evaluate: a release judged

    src/pkg/decision: donors (donor.go) and [Evaluate], its release half
    [EvaluateRelease] and its item-state half [ItemStateRejections]
    (evaluate.go).  Logging is left out; the context's learned release groups are
    an argument. *)

From Stdlib Require Import SpecFloat.
From S2P Require Import Prelude GoLang GoFloat Api RankScore Quality Sizes Release Languages Rank Coverage Identity Accept.
From Stdlib Require Import Ascii.

(** [GroupLanguages]: the language of a release group, [None] where it is not
    known; the context carries some, or none. *)
Definition GroupLanguages : Type := string -> option string.
Definition Groups : Type := option GroupLanguages.

Definition builtinGroupLanguages : gmap string string := list_to_map [
  ("pd", "Portuguese"); ("bioma", "Portuguese"); ("hdt", "Turkish"); ("mircrew", "Italian"); ("lullozzo", "Italian");
  ("mhdgz", "French"); ("fidelio", "French")].

Definition maxMatchedFormats : nat := 200.

Section evaluate.
Context `{Unicode} `{Quote} `{TextTables} `{TagParser} `{Patterns} `{FloatToInt}.

(** ** Donors (donor.go) *)

Definition namesOnlyOriginalAndEnglish (p : ParsedRelease) (originalLanguage : string) : bool :=
  prLanguageUnknown p ||
  forallb (fun l => EqualFold l originalLanguage || EqualFold l "English") (prLanguages p).

(** The languages the title names. *)
Definition donorHave (originalLanguage : string) (p : Profile) (parsed : ParsedRelease) (title : string) : list string :=
  let named := if prLanguageUnknown parsed then [] else prLanguages parsed in
  if HasPrefix (pfScoreSet p) "anime-" && negb (String.eqb originalLanguage "") &&
     namesOnlyOriginalAndEnglish parsed originalLanguage && multiLanguage title
  then named ++ [originalLanguage; "English"]
  else named.

Definition donorLanguageRejection (need : list string) (originalLanguage : string) (p : Profile) (parsed : ParsedRelease)
    (title : string) : option Rejection :=
  let have := donorHave originalLanguage p parsed title in
  if forallb (containsFold have) need then None
  else Some (newRejection ReasonDonorLanguage
               ("a donor must carry " +:+ fmt_strings need +:+ "; the title names " +:+ fmt_strings have)).

(** [long], an uncut or extended edition. *)
Definition long_edition (e : string) : bool := Contains (ToLower e) "uncut" || Contains (ToLower e) "extended".

Definition donorLineage (d : Donor) (rel : ReleaseInfo) (parsed : ParsedRelease) : Z :=
  (if negb (String.eqb (dnSource d) "") && String.eqb (qSource (riQuality rel)) (dnSource d) then 2 else 0) +
  (if Bool.eqb (long_edition (prEdition parsed)) (long_edition (dnEdition d)) then 1 else 0).

Definition donorNames (d : Donor) : list string := audio_names originalLanguageName (dnLanguages d ++ [dnAnchor d]) [].

Definition donorItemState (t : Target) (d : Donor) (rel : ReleaseInfo) : list Rejection :=
  (if contains (dnRejected d) (riTitle rel)
   then [newRejection ReasonDonorRejected ("a graft of this item already failed with " +:+ riTitle rel)] else []) ++
  (if bool_decide (tgQueue t = []) then []
   else [newRejection ReasonDonorQueued "a donor for this item is already downloading"]).

(** ** The item-state half (evaluate.go) *)

Definition is_pack (p : ParsedRelease) : bool :=
  prFullSeason p || (1 <? Z.of_nat (length (prEpisodes p))) || (1 <? Z.of_nat (length (prAbsolute p))).

(** The current file does not fit the profile, which lists the release's
    quality: its bitrate is out of range, or nothing here decodes it. *)
Definition unfit (p : Profile) (cur : Current) (rel : ReleaseInfo) : bool :=
  (negb (String.eqb (BitrateOutOfRange p (cuQuality cur) (cuBytesPerSecond cur)) "") && Lists p (riQuality rel)) ||
  (cuUndecodable cur && Lists p (riQuality rel)).

Definition videoItemState (t : Target) (p : Profile) (an : audioNames) (parsed : ParsedRelease) (rel : ReleaseInfo)
    (score : Z) (complete : bool) : list Rejection :=
  let candidate := mkCandidate (riQuality rel) (riRevision rel) score in
  let out := blocklistAndHistoryRejections t rel ++
    option_list (queueRejection p (tgQueue t) candidate an complete (is_pack parsed)) in
  let on_current (f : Current -> bool) := match tgCurrent t with Some cur => f cur | None => false end in
  if complete && on_current (fun cur => AudioUpgradeable p (tgOriginalLanguageTag t) (cuAudioLanguages cur)) then out
  else if pfAudioCompleteFirst p && negb complete &&
    on_current (fun cur => CompletesAudio p (tgOriginalLanguageTag t) (cuAudioLanguages cur)) then
    out ++ [newRejection ReasonExistingHigherPreference "the file carries every wanted language and the release does not"]
  else if on_current (fun cur => unfit p cur rel) then out
  else out ++ option_list (transcodedRejection t) ++ baselineRejections p t parsed rel ++
       option_list (upgradeRejection p t candidate (namesWantedLanguages an p parsed)).

(** ** One release *)

(** [Profile.Score]. *)
Definition Profile_Score (p : Profile) (parsed : ParsedRelease) (ic : ItemContext) : Z * list string :=
  if scoresFormats p then cat_Score (pfScores p) parsed ic else (0, []).

Definition NormalizeGroup (group : string) : string := ToLower (TrimSpace group).
Definition builtin : GroupLanguages := fun group => builtinGroupLanguages !! NormalizeGroup group.
Definition GroupLanguagesFrom (groups : Groups) : GroupLanguages := default builtin groups.

(** The languages read as [Evaluate] reads them. *)
Definition read_languages (groups : Groups) (originalLanguage : string) (rel : ReleaseInfo) (pr : ParsedRelease) :
    ParsedRelease :=
  indexerLanguages (pr <| prLanguages := LanguagesWith pr originalLanguage (Some (GroupLanguagesFrom groups)) |>) rel.

Definition ParseForItemState (groups : Groups) (kind originalTag : string) (rel : ReleaseInfo) : ParsedRelease + string :=
  match Parse (riTitle rel) kind with
  | inl pr => inl (read_languages groups (originalLanguageName originalTag) rel pr)
  | inr err => inr err
  end.

(** [TitleNamesMovie] (identity.go): the identity asked with no id and no
    indexer's word. *)
Definition unvouched (id : Identity) : Identity :=
  mkIdentity (idTitles id) (idYear id) (idSecondaryYear id) (idEditionYears id) ∅ (idSeason id) (idEpisodes id)
    (idAbsolute id) (idAirDate id) (idSceneMappings id) ∅ (idSingleEpisodeSearch id) (idSeasonSearch id) (idNamesakes id)
    (idCreators id) (idIssue id).

Definition TitleNamesMovie (id : Identity) (title : string) : bool :=
  match Parse title MediaKindMovie with
  | inr _ => false
  | inl parsed =>
      let idx := newIdentityIndex MediaKindMovie id in
      bool_decide (itemRejection MediaKindMovie (unvouched id) (ixTitles idx) (ixNamesakes idx) parsed zero_ReleaseInfo = None)
  end.

Definition wholeSeasonOf (id : Identity) (c : coverage) : bool :=
  if negb (idSeasonSearch id) || bool_decide (idEpisodes id = []) then false
  else coversInSeason c (idSeason id) (idEpisodes id) ||
    (Nat.eqb (length (idAbsolute id)) (length (idEpisodes id)) && negb (bool_decide (cvabsolutes c = ∅)) &&
     coversAbsolute c (idAbsolute id)).

(** A decision of these rejections. *)
Definition decision_of (rel : ReleaseInfo) (parsed : ParsedRelease) (rejections : list Rejection) (score : Z)
    (matched : list string) : Decision :=
  mkDecision rel (Some parsed) (bool_decide (rejections = []))
    (negb (bool_decide (rejections = [])) && allTemporary rejections) rejections score matched zero_RankKey None.

(** An approved donor's rank. *)
Definition when_approved (key : RankKey) (d : Decision) : Decision := if dcApproved d then d <| dcRank := key |> else d.

Definition evaluateDonor (t : Target) (d : Donor) (originalLanguage : string) (need : list string) (p : Profile)
    (parsed : ParsedRelease) (rel : ReleaseInfo) (score : Z) (matched : list string) (rejections : list Rejection)
    (itemState : bool) : Decision :=
  when_approved (mkRankKey 0 0 false zero_Revision 0 false 0 false 0 (riSizeBytes rel) false false false true
                   (donorLineage d rel parsed) false)
    (decision_of rel parsed
      (rejections ++ option_list (donorLanguageRejection need originalLanguage p parsed (riTitle rel)) ++
       (if itemState then donorItemState t d rel else []) ++ option_list (sampleRejection rel) ++
       (if itemState then blocklistAndHistoryRejections t rel else [])) score matched).

(** The audio policy's word, or the language's, and whether the release carries
    every language. *)
Definition languageChecks (originalLanguage : string) (an : audioNames) (p : Profile) (parsed : ParsedRelease) :
    option Rejection * bool :=
  if bool_decide (pfAudioLanguages p = []) then (languageRejection originalLanguage p parsed, true)
  else audioRejection an p (prLanguages parsed).

(** The checks donors share, and the release's own beyond them. *)
Definition sharedRejections (t : Target) (idx : identityIndex) (p : Profile) (parsed : ParsedRelease) (rel : ReleaseInfo)
    (o : Options) : list Rejection :=
  option_list (identityRejection (tgKind t) (tgIdentity t) idx parsed rel) ++
  option_list (protocolRejection rel o) ++ option_list (availabilityRejection t o) ++
  sizeRejections t p parsed rel ++ bitrateRejections t p parsed rel.

Definition videoRejections (t : Target) (p : Profile) (parsed : ParsedRelease) (rel : ReleaseInfo) (score : Z)
    (language : option Rejection) : list Rejection :=
  qualityRejections p rel score ++ option_list language ++ option_list (sampleRejection rel) ++
  (if video_kind (tgKind t) then option_list (dolbyVisionRejection parsed) else []).

(** The decision ranked, and an episode's coverage read through the scene
    table. *)
Definition ranked (t : Target) (idx : identityIndex) (p : Profile) (o : Options) (parsed : ParsedRelease)
    (rel : ReleaseInfo) (score : Z) (complete : bool) (d : Decision) : Decision :=
  let key := (buildRankKey p o t parsed rel score) <| rkLanguagesComplete := complete |> in
  if String.eqb (tgKind t) MediaKindEpisode || String.eqb (tgKind t) MediaKindSeries then
    let c := releaseCoverage parsed (ixScene idx) in
    d <| dcRank := if wholeSeasonOf (tgIdentity t) c then key <| rkEpisodeCount := MaxInt32 |> else key |>
      <| dcCoverage := Some (export c) |>
  else d <| dcRank := key |>.

Definition evaluateOne (groups : Groups) (t : Target) (originalLanguage : string) (an : audioNames)
    (donorNeed : list string) (idx : identityIndex) (p : Profile) (rel : ReleaseInfo) (o : Options) (itemState : bool) :
    Decision :=
  match Parse (riTitle rel) (tgKind t) with
  | inr err => mkDecision rel None false false [newRejection ReasonUnableToParse err] 0 [] zero_RankKey None
  | inl pr =>
      let parsed := read_languages groups originalLanguage rel pr in
      let rel := ApplyTo parsed rel in
      let '(score, matched) := Profile_Score p parsed
        (mkItemContext originalLanguage (riIndexerFlags rel) (prReleaseType parsed) (riTitle rel)) in
      let rel := rel <| riFormatScore := wrap32 score |> <| riMatchedFormats := firstn maxMatchedFormats matched |> in
      let rejections := sharedRejections t idx p parsed rel o in
      match tgDonor t with
      | Some d => evaluateDonor t d originalLanguage donorNeed p parsed rel score matched rejections itemState
      | None =>
          let '(language, languagesComplete) := languageChecks originalLanguage an p parsed in
          ranked t idx p o parsed rel score languagesComplete
            (decision_of rel parsed
               (rejections ++ videoRejections t p parsed rel score language ++
                (if itemState then videoItemState t p an parsed rel score languagesComplete else [])) score matched)
      end
  end.

(** [evaluate]. *)
Definition evaluate (groups : Groups) (t : Target) (p : Profile) (rels : list ReleaseInfo) (o : Options)
    (itemState : bool) : list Decision :=
  let lang := originalLanguageName (tgOriginalLanguageTag t) in
  let idx := newIdentityIndex (tgKind t) (tgIdentity t) in
  let an := resolveAudioNames p lang in
  let donorNeed := match tgDonor t with Some d => donorNames d | None => [] end in
  map (fun rel => evaluateOne groups t lang an donorNeed idx p rel o itemState) rels.

Definition Evaluate (groups : Groups) (t : Target) (p : Profile) (rels : list ReleaseInfo) (o : Options) : list Decision :=
  evaluate groups t p rels o true.
Definition EvaluateRelease (groups : Groups) (t : Target) (p : Profile) (rels : list ReleaseInfo) (o : Options) :
    list Decision := evaluate groups t p rels o false.

(** ** The two halves apart *)

Definition ReleaseCompletesAudio (p : Profile) (originalTag : string) (parsed : option ParsedRelease) : bool :=
  if bool_decide (pfAudioLanguages p = []) then true
  else match parsed with
       | None => false
       | Some parsed =>
           snd (audioRejection (resolveAudioNames p (originalLanguageName originalTag)) p (prLanguages parsed))
       end.

Definition AudioOutranks (p : Profile) (originalTag : string) (complete : bool) (q : Queued) : bool :=
  pfAudioCompleteFirst p && complete &&
  negb (queuedComplete (resolveAudioNames p (originalLanguageName originalTag)) p q).

Definition AudioOutranked (p : Profile) (originalTag : string) (complete : bool) (q : Queued) : bool :=
  pfAudioCompleteFirst p && negb complete && queuedComplete (resolveAudioNames p (originalLanguageName originalTag)) p q.

Definition ItemStateRejections (groups : Groups) (t : Target) (p : Profile) (d : Decision) : list Rejection :=
  let rel := dcRelease d in
  let parsed := match dcParsed d with
                | Some pr => Some pr
                | None => match ParseForItemState groups (tgKind t) (tgOriginalLanguageTag t) rel with
                          | inl pr => Some pr
                          | inr _ => None
                          end
                end in
  match parsed with
  | None => []
  | Some parsed =>
      match tgDonor t with
      | Some donor => donorItemState t donor rel ++ blocklistAndHistoryRejections t rel
      | None =>
          let score := if dcScore d =? 0 then riFormatScore rel else dcScore d in
          let an := resolveAudioNames p (originalLanguageName (tgOriginalLanguageTag t)) in
          let complete := if bool_decide (pfAudioLanguages p = []) then false
                          else snd (audioRejection an p (prLanguages parsed)) in
          videoItemState t p an parsed rel score complete
      end
  end.

Definition WithItemState (d : Decision) (extra : list Rejection) : Decision :=
  if bool_decide (extra = []) then d
  else d <| dcRejections ::= fun l => l ++ extra |> <| dcApproved := false |>
         <| dcTemporarilyRejected := allTemporary (dcRejections d ++ extra) |>.
End evaluate.

(** ** An example, over ASCII text *)

Definition ex_tags : TagParser := {| parse_tag := fun tag => Some (tag, true) |}.
Definition ex_floats : FloatToInt := {| int64_out_of_range := fun _ => MinInt64 |}.

(** A reader of two titles. *)
Definition ex_film (q : Quality) : ParsedRelease :=
  mkParsedRelease "Alien" [] 1979 q (mkRevision 1 0 false) ["English"] false false false "" "" [] [] [] None false ""
    None None None [] [] ∅.
Definition ex_patterns : Patterns := {|
  Parse := fun title _ =>
    if String.eqb title "Alien 1979 Bluray" then inl (ex_film (dfQuality ex_bluray))
    else if String.eqb title "Alien 1979 WEB" then inl (ex_film (dfQuality ex_webdl))
    else inr "no title";
  cat_Score := fun _ _ _ => (0, []);
  multiLanguage := fun _ => false;
  unicode_ToUpper := fun s => s |}.

Definition ex_indexed (title : string) (size : Z) : ReleaseInfo :=
  zero_ReleaseInfo <| riTitle := title |> <| riProtocol := ProtocolUsenet |> <| riSizeBytes := size |>.

(** A film wanted, the release of this title on its blocklist. *)
Definition ex_wanted (blocked : string) : Target :=
  mkTarget MediaKindMovie true 117 [] "en" None [] (Some (fun _ title => String.eqb title blocked))
    (mkIdentity ["Alien"] 1979 0 [] ∅ 0 [] [] None [] ∅ false false [] [] "") None false None.
Definition ex_options : Options := mkOptions false {["usenet" := true]} ∅ "".
