(* ===== verification/ImportRules.v ===== *)
(** * ImportRules: what an import takes of a download

    The records the import agent answers with (src/pkg/events/schema/imports.go)
    and the planner's rules over the files they name (src/app/import/importplan):
    the classes of a refusal (classify.go), its messages (messages.go), what a
    file's own streams say (content.go), a film in parts (join.go), and how a
    file meets those it would replace (mapping.go). *)

From S2P Require Import Prelude GoLang GoFacts Paths PartName Api LcView GoFloat Subjects Names Records Quality Sizes.
From S2P Require Import Release Languages Coverage Identity Accept Media Evaluate.
From Stdlib Require Import Ascii.

(** ** The agent's answers *)

Definition ImportRefusedStale : string := "stale".
Definition ImportRefusedDiskFull : string := "diskFull".
Definition ImportRefusedOverwrite : string := "overwrite".
Definition ImportRefusedOutsideRoot : string := "outsideRoot".
Definition ImportRefusedDonorLacksLanguage : string := "donorLacksLanguage".

(** [ProbeSummary]. *)
Record ProbeSummary := mkProbeSummary {
  psVideoCodec : string;
  psWidth : Z;
  psHeight : Z;
  psHDR : string;
  psVideoBitDepth : Z;
  psAudioLanguages : list string;
  psDurationSeconds : Z;
  psTranscoded : bool;
  psProfileTag : string;
}.

#[export] Instance eta_ProbeSummary : Eta ProbeSummary :=
  fun p => mkProbeSummary (psVideoCodec p) (psWidth p) (psHeight p) (psHDR p) (psVideoBitDepth p)
    (psAudioLanguages p) (psDurationSeconds p) (psTranscoded p) (psProfileTag p).
#[export] Instance set_psDurationSeconds : Setter psDurationSeconds. Proof. derive_setter. Defined.

Definition InspectKindBlocked : string := "blocked".
Definition InspectKindSample : string := "sample".
Definition InspectKindIncidental : string := "incidental".

(** [InspectRejection]; its class is one of [ImportRejectionClass]'s. *)
Record InspectRejection := mkInspectRejection {
  inrClass : ImportRejectionClass;
  inrText : string;
  inrKind : string;
}.

(** [ReleaseCoverage] and [ParsedFacts] (intake.go). *)
Record ReleaseCoverage := mkReleaseCoverage {
  rlFullSeasons : list Z;
  rlEpisodes : list (Z * Z);
  rlAbsolute : list Z;
}.
Record ParsedFacts := mkParsedFacts {
  pcSeasons : list Z;
  pcEpisodes : list Z;
  pcAbsolute : list Z;
  pcAirDate : string;
  pcFullSeason : bool;
  pcMultiSeason : bool;
  pcIssue : string;
  pcCoverage : option ReleaseCoverage;
}.

(** [InspectedFile]. *)
Record InspectedFile := mkInspectedFile {
  nfPath : string;
  nfSizeBytes : Z;
  nfParsed : ParsedFacts;
  nfProbe : option ProbeSummary;
  nfFingerprint : string;
  nfProposed : option ItemRef;
  nfKeys : list string;
  nfDest : string;
  nfFrozen : FrozenFields;
  nfSample : bool;
  nfRejections : list InspectRejection;
  nfPart : Z;
}.

#[export] Instance eta_InspectedFile : Eta InspectedFile :=
  fun f => mkInspectedFile (nfPath f) (nfSizeBytes f) (nfParsed f) (nfProbe f) (nfFingerprint f) (nfProposed f)
    (nfKeys f) (nfDest f) (nfFrozen f) (nfSample f) (nfRejections f) (nfPart f).
#[export] Instance set_nfProbe : Setter nfProbe. Proof. derive_setter. Defined.
#[export] Instance set_nfSizeBytes : Setter nfSizeBytes. Proof. derive_setter. Defined.

(** [ImportInspection]. *)
Record ImportInspection := mkImportInspection {
  isnFiles : list InspectedFile;
  isnRejections : list InspectRejection;
  isnRootFolder : string;
  isnRecycleBin : string;
  isnMinFreeBytes : Z;
}.

(** [PlacedFile]. *)
Record PlacedFile := mkPlacedFile {
  plSource : string;
  plDest : string;
  plSizeBytes : Z;
  plModTime : Time;
  plFingerprint : string;
  plProbeHash : string;
  plTarget : ItemRef;
  plKeys : list string;
  plMediaFileName : string;
  plFrozen : FrozenFields;
}.

(** [ImportExecution]. *)
Record ImportExecution := mkImportExecution {
  ixPlaced : list PlacedFile;
  ixRefused : string;
  ixRecycled : list string;
  ixDonorPath : string;
  ixReplaced : list MediaFileBasis;
}.

(** [ImportRecord]. *)
Record ImportRecord := mkImportRecord {
  irHeader : Header;
  irEntry : EntryRef;
  irInspect : option ImportInspection;
  irExecute : option ImportExecution;
}.

(** ** Rejections (classify.go) *)

Definition RetryLadder : list Duration := [1 * Minute; 10 * Minute; 45 * Minute].

Record Rejection := mkImportRejection {
  rnClass : ImportRejectionClass;
  rnText : string;
  rnTranscoded : bool;
  rnSample : bool;
  rnBlocked : bool;
}.

#[export] Instance eta_ImportRejection : Eta Rejection :=
  fun r => mkImportRejection (rnClass r) (rnText r) (rnTranscoded r) (rnSample r) (rnBlocked r).
#[export] Instance set_rnClass : Setter rnClass. Proof. derive_setter. Defined.
#[export] Instance set_rnTranscoded : Setter rnTranscoded. Proof. derive_setter. Defined.
#[export] Instance set_rnSample : Setter rnSample. Proof. derive_setter. Defined.
#[export] Instance set_rnBlocked : Setter rnBlocked. Proof. derive_setter. Defined.

(** A check that refuses nothing answers a rejection without a text; here
    [None]. *)
Definition rejection (class : ImportRejectionClass) (text : string) : Rejection :=
  mkImportRejection class text false false false.
Definition itemStateRejection : string -> Rejection := rejection ImportClassItemState.
Definition needsPersonRejection : string -> Rejection := rejection ImportClassNeedsPerson.
Definition releaseFaultRejection : string -> Rejection := rejection ImportClassReleaseFault.
Definition incidentalRejection : string -> Rejection := rejection ImportClassUnset.
Definition blockedRejection (text : string) : Rejection := (needsPersonRejection text) <| rnBlocked := true |>.

Definition FromInspect (r : InspectRejection) : Rejection :=
  let out := rejection (inrClass r) (inrText r) in
  if String.eqb (inrKind r) InspectKindBlocked then
    let out := out <| rnBlocked := true |> in
    if bool_decide (rnClass out = ImportClassUnset) then out <| rnClass := ImportClassNeedsPerson |> else out
  else if String.eqb (inrKind r) InspectKindSample then out <| rnSample := true |>
  else if String.eqb (inrKind r) InspectKindIncidental then out <| rnClass := ImportClassUnset |>
  else out.

Definition classPrecedence : list ImportRejectionClass :=
  [ImportClassTransient; ImportClassNeedsPerson; ImportClassItemState; ImportClassReleaseFault].

Definition Classify (rs : list Rejection) : ImportRejectionClass :=
  default ImportClassReleaseFault
    (List.find (fun c => existsb (fun r => bool_decide (rnClass r = c)) rs) classPrecedence).

Definition blocked (rs : list Rejection) : option Rejection := List.find rnBlocked rs.

Definition decisive (r : Rejection) : bool := negb (bool_decide (rnClass r = ImportClassUnset)).

Definition texts (rs : list Rejection) : list string :=
  map rnText (List.filter decisive rs) ++ map rnText (List.filter (fun r => negb (decisive r)) rs).

Definition detail (head : string) (rs : list Rejection) : string :=
  match texts rs with
  | [] => head
  | t =>
      let more := if Nat.ltb 3 (length t) then " (and " +:+ fmt_d (Z.of_nat (length t) - 3) +:+ " more)" else "" in
      head +:+ ": " +:+ Join (take 3 t) "; " +:+ more
  end.

(** ** Messages (messages.go) *)

Definition MessageEveryFileRejected : string := "every candidate file was rejected".
Definition MessageExistingFileFinal : string :=
  "the existing file is transcoded, and a transcoded file is final: " +:+ "import this download by hand to replace it".
Definition overrideHint : string :=
  "download.clustarr.io/import with override (and target=<kind>/<name>[/<key>] to name the item)".

Definition outcomeMessage (rs : list Rejection) (noneMessage : string) : string :=
  match rs with
  | [] => noneMessage
  | _ =>
      match Classify rs with
      | ImportClassTransient => "a file could not be read, probed or placed"
      | ImportClassNeedsPerson =>
          "a file cannot be attributed or placed without a person: import it by hand (" +:+ overrideHint +:+ ")"
      | ImportClassItemState =>
          if existsb rnTranscoded rs then MessageExistingFileFinal else "the item does not take these files now"
      | _ => MessageEveryFileRejected
      end
  end.

Definition verdictMessage (v : UpgradeVerdict) : string :=
  match v with
  | ExistingBetterQuality => "the existing file already has a better quality"
  | UpgradesNotAllowed => "the quality profile does not allow upgrades"
  | ExistingBetterRevision => "the existing file already has a better proper/repack revision"
  | QualityCutoffMet => "the existing file already meets the quality profile's cutoff"
  | FormatScoreNotHigher => "the candidate's custom-format score is not higher than the existing file's"
  | FormatCutoffMet => "the existing file already meets the quality profile's custom-format cutoff"
  | FormatIncrementTooSmall =>
      "the candidate's custom-format score improvement is below the profile's minimum increment"
  | Upgrade => "not an upgrade over the existing file (verdict 0)"
  end.

Definition notAllowedRejection (rel : string) (q : Quality) : Rejection :=
  releaseFaultRejection (rel +:+ ": quality " +:+ qName q +:+ " is not allowed by the quality profile").

Definition filledRejection (rel item by_ : string) : Rejection :=
  incidentalRejection (rel +:+ ": " +:+ item +:+ " already has a file from this download, " +:+ by_ +:+ ", " +:+
    "which ranks higher (quality, then revision, then size)").

(** ** Candidates (mapping.go) *)

(** [candidateRank]. *)
Record candidateRank := mkCandidateRank {
  ckAllowed : bool;
  ckTier : Z;
  ckVersion : Z;
  ckReal : Z;
  ckSize : Z;
}.

(** [candidate]. *)
Record candidate := mkCandidate_ {
  cnFile : InspectedFile;
  cnKind : string;
  cnKeys : list string;
  cnRank : candidateRank;
  cnJoin : list string;
}.

#[export] Instance eta_candidate : Eta candidate :=
  fun c => mkCandidate_ (cnFile c) (cnKind c) (cnKeys c) (cnRank c) (cnJoin c).
#[export] Instance set_cnFile : Setter cnFile. Proof. derive_setter. Defined.
#[export] Instance set_cnJoin : Setter cnJoin. Proof. derive_setter. Defined.

Definition multiFileKind (kind : string) : bool := contains [MediaKindAlbum; MediaKindAudiobook] kind.
Definition nonVideoKind (kind : string) : bool :=
  contains [MediaKindAlbum; MediaKindBook; MediaKindAudiobook; MediaKindIssue] kind.

Definition rankOf (p : Profile) (f : InspectedFile) : candidateRank :=
  let '(allowed, tier) :=
    match ffQuality (nfFrozen f) with
    | Some q => match Index p q with Some idx => if Allowed p q then (true, idx) else (false, 0) | None => (false, 0) end
    | None => (false, 0)
    end in
  let '(version, real) :=
    match ffRevision (nfFrozen f) with Some r => (rvVersion r, rvReal r) | None => (0, 0) end in
  mkCandidateRank allowed tier version real (nfSizeBytes f).

(** [cmp.Compare]. *)
Definition compare_Z (a b : Z) : Z := if a <? b then -1 else if b <? a then 1 else 0.

Definition compareRank (a b : candidateRank) : Z :=
  if negb (Bool.eqb (ckAllowed a) (ckAllowed b)) then if ckAllowed a then -1 else 1
  else if negb (ckTier a =? ckTier b) then compare_Z (ckTier a) (ckTier b)
  else if negb (ckVersion a =? ckVersion b) then compare_Z (ckVersion b) (ckVersion a)
  else if negb (ckReal a =? ckReal b) then compare_Z (ckReal b) (ckReal a)
  else compare_Z (ckSize b) (ckSize a).

(** [sortCandidates]: [slices.SortStableFunc], the one stable order, by
    insertion. *)
Fixpoint insert_candidate (c : candidate) (cs : list candidate) : list candidate :=
  match cs with
  | [] => [c]
  | d :: cs' => if compareRank (cnRank c) (cnRank d) <=? 0 then c :: cs else d :: insert_candidate c cs'
  end.
Definition sortCandidates (cs : list candidate) : list candidate := foldr insert_candidate [] cs.

Definition lateRejection (c : candidate) (rel item by_ : string) : Rejection :=
  match ffQuality (nfFrozen (cnFile c)) with
  | Some q => if ckAllowed (cnRank c) then filledRejection rel item by_ else notAllowedRejection rel q
  | None => filledRejection rel item by_
  end.

Definition keysOf (f : InspectedFile) : list string :=
  match nfKeys f with
  | [] => match nfProposed f with Some t => [irName t] | None => [] end
  | ks => ks
  end.

(** [relPath]. *)
Definition relPath (root path : string) : string :=
  if String.eqb root "" then path
  else match Rel root path with
       | None => path
       | Some rel => if String.eqb rel "" || String.eqb rel "." || HasPrefix rel ".." then path else rel
       end.

(** [contained] (naming.go). *)
Definition contained (dest root : string) : bool := negb (String.eqb root "") && StrictlyUnder dest root.

(** ** A film in parts (join.go) *)

Definition PartNumber (path : string) : option Z := option_map snd (PartOf (TrimSuffix (Base path) (Ext path))).

Definition partOf (c : candidate) : option Z :=
  if 0 <? nfPart (cnFile c) then Some (nfPart (cnFile c)) else PartNumber (nfPath (cnFile c)).

(** The candidates' positions by the one movie they are for. *)
Fixpoint by_item (i : nat) (cs : list candidate) : gmap string (list nat) :=
  match cs with
  | [] => ∅
  | c :: cs =>
      let m := by_item (S i) cs in
      match cnKeys c with
      | [k] =>
          if String.eqb (cnKind c) MediaKindMovie && bool_decide (is_Some (partOf c))
          then <[k := i :: default [] (m !! k)]> m else m
      | _ => m
      end
  end.

Definition zero_Frozen : FrozenFields := mkFrozenFields None None "" "" None [] None [] "" None "".
Definition zero_Parsed : ParsedFacts := mkParsedFacts [] [] [] "" false false "" None.
Definition zero_File : InspectedFile := mkInspectedFile "" 0 zero_Parsed None "" None [] "" zero_Frozen false [] 0.
Definition zero_candidate : candidate := mkCandidate_ zero_File "" [] (mkCandidateRank false 0 0 0 0) [].
Definition at_index (cs : list candidate) (i : nat) : candidate := List.nth i cs zero_candidate.

(** [byNum]: each number's position, [None] when one comes twice. *)
Fixpoint by_number (cs : list candidate) (idx : list nat) (m : gmap Z nat) : option (gmap Z nat) :=
  match idx with
  | [] => Some m
  | i :: idx =>
      let n := default 0 (partOf (at_index cs i)) in
      match m !! n with
      | Some _ => None
      | None => by_number cs idx (<[n := i]> m)
      end
  end.

(** The positions of parts [n] and on, [None] when one is missing. *)
Fixpoint in_order (m : gmap Z nat) (n : Z) (count : nat) : option (list nat) :=
  match count with
  | O => Some []
  | S count =>
      match m !! n with
      | None => None
      | Some i => match in_order m (n + 1) count with Some l => Some (i :: l) | None => None end
      end
  end.

Definition same_video (first p : option ProbeSummary) : bool :=
  match first, p with
  | Some a, Some b =>
      String.eqb (psVideoCodec b) (psVideoCodec a) && (psWidth b =? psWidth a) && (psHeight b =? psHeight a)
      && String.eqb (psHDR b) (psHDR a)
  | _, _ => false
  end.

Definition orderedParts (cs : list candidate) (idx : list nat) : option (list nat) :=
  if Nat.ltb (length idx) 2 then None
  else
    match by_number cs idx ∅ with
    | None => None
    | Some m =>
        match in_order m 1 (length idx) with
        | None => None
        | Some out =>
            let first := nfProbe (cnFile (at_index cs (hd O out))) in
            if forallb (fun i => same_video first (nfProbe (cnFile (at_index cs i)))) out then Some out else None
        end
    end.

Definition duration (c : candidate) : Z := match nfProbe (cnFile c) with Some p => psDurationSeconds p | None => 0 end.
Definition add64 (l : list Z) (n : Z) : Z := fold_left (fun a b => wrap64 (a + b)) l n.

(** One film joined from its parts, in order. *)
Definition join_parts (cs : list candidate) (parts : list nat) : candidate :=
  let j := at_index cs (hd O parts) in
  let j := j <| cnJoin := map (fun i => nfPath (cnFile (at_index cs i))) parts |> in
  let total := add64 (map (fun i => duration (at_index cs i)) parts) 0 in
  let j := j <| cnFile ::= fun f => f <| nfProbe ::= option_map (fun p => p <| psDurationSeconds := total |>) |> |> in
  j <| cnFile ::= fun f => f <| nfSizeBytes ::= add64 (map (fun i => nfSizeBytes (cnFile (at_index cs i))) (tl parts)) |> |>.

(** The candidates whose position is not in [folded]. *)
Fixpoint unfolded (i : nat) (cs : list candidate) (folded : list nat) : list candidate :=
  match cs with
  | [] => []
  | c :: cs => if bool_decide (i ∈ folded) then unfolded (S i) cs folded else c :: unfolded (S i) cs folded
  end.

Section fold.
Context `{RangeOrder}.

Definition foldParts (cs : list candidate) : list candidate :=
  let groups := omap (fun kv => orderedParts cs (snd kv)) (range (by_item 0 cs)) in
  match groups with
  | [] => cs
  | _ => unfolded 0 cs (concat groups) ++ map (join_parts cs) groups
  end.
End fold.

(** src/pkg/k8s/text.go's clamping and sanitising of text, and
    src/app/import/importplan/naming.go: the MediaFile a placed file becomes, the
    target an import intent names, and where an audio donor goes. *)

(** ** Text (pkg/k8s/text.go) *)

Definition ClampText (s : string) (maxBytes : nat) : string :=
  if Nat.leb (String.length s) maxBytes then s else str_take (rune_floor s maxBytes) s.

(** The code point of the rune [s] begins with, of a rune of [rune_width s]
    bytes. *)
Definition rune_value (s : string) : Z :=
  let b i := match String.get i s with Some a => byte_of a | None => 0 end in
  match rune_width s with
  | 2%nat => (b 0%nat - 192) * 64 + (b 1%nat - 128)
  | 3%nat => (b 0%nat - 224) * 4096 + (b 1%nat - 128) * 64 + (b 2%nat - 128)
  | 4%nat => (b 0%nat - 240) * 262144 + (b 1%nat - 128) * 4096 + (b 2%nat - 128) * 64 + (b 3%nat - 128)
  | _ => b 0%nat
  end.

Definition Unapplyable (r : Z) : bool := ((128 <=? r) && (r <=? 159) && negb (r =? 133)) || (r =? 65534) || (r =? 65535).

(** [SanitizeText]: what the program maps a string to, whether or not it
    returned it early; [k] bytes of a rune already decoded are left to copy, or
    to drop. *)
Fixpoint sanitize (k : nat) (drop : bool) (s : string) : string :=
  match s with
  | EmptyString => EmptyString
  | String a t =>
      match k with
      | S k => if drop then sanitize k drop t else String a (sanitize k drop t)
      | O =>
          if in_range 0 127 a then String a (sanitize 0 false t)
          else match rune_width s with
               | S (S k) =>
                   if Unapplyable (rune_value s) then rune_error +:+ sanitize (S k) true t
                   else String a (sanitize (S k) false t)
               | _ => rune_error +:+ sanitize 0 false t
               end
      end
  end.
Definition SanitizeText (s : string) : string := sanitize 0 false s.

Example SanitizeText_kept : SanitizeText "a plain title" = "a plain title".
Proof. vm_compute. reflexivity. Qed.
(** U+0080 goes, U+00E9 stays, and a byte that begins no rune goes. *)
Example SanitizeText_replaced :
  SanitizeText (String "194" (String "128" (String "195" (String "169" (String "255" ""))))) =
  rune_error +:+ String "195" (String "169" rune_error).
Proof. vm_compute. reflexivity. Qed.

(** ** Times ([Format(time.RFC3339)] of a UTC time) *)

Definition fmt_RFC3339 (t : Time) : string :=
  let s := (t mod (24 * Hour)) / Second in
  fmt_date t +:+ "T" +:+ fmt_0d 2 (s / 3600) +:+ ":" +:+ fmt_0d 2 ((s / 60) mod 60) +:+ ":" +:+ fmt_0d 2 (s mod 60) +:+ "Z".

Example fmt_RFC3339_leap :
  fmt_RFC3339 ((unixToInternal + 19782 * 86400 + 3 * 3600 + 25 * 60 + 45) * Second) = "2024-02-29T03:25:45Z".
Proof. vm_compute. reflexivity. Qed.

(** ** naming.go *)

Definition DonorDir : string := ".clustarr/donors".

Definition MaxReleaseTitleLength : nat := 512.
Definition MaxIndexerNameLength : nat := 253.

Section naming.
Context `{Unicode} `{Quote} `{TextTables} `{TagParser} `{Patterns} `{FloatToInt}.

Definition MediaFileName (target dest : string) : string := ChildName target ["mediafile"; dest].

(** [MediaKindOf] (mapping.go). *)
Definition MediaKindOf (kind : string) : string := ToLower kind.

Definition TargetString (it : ImportIntent) : string :=
  match iiTarget it with
  | None => ""
  | Some t =>
      let s := ToLower (irKind t) +:+ "/" +:+ irName t in
      if String.eqb (iiTargetKey it) "" then s else s +:+ "/" +:+ iiTargetKey it
  end.

Definition objectKind (k : string) : string :=
  match k with EmptyString => "" | String a t => ToUpper (String a EmptyString) +:+ t end.

Definition named_item (kind name : string) : ItemRef := mkItemRef kind (mkRef "" name "").

Definition ParseTarget (s : string) : option ItemRef :=
  match Split slash s with
  | kind :: name :: rest =>
      if Nat.ltb 1 (length rest) || String.eqb kind "" || String.eqb name "" then None
      else
        let plain := Some (named_item (objectKind kind) name) in
        match rest with
        | [key] =>
            if String.eqb key "" then plain
            else if String.eqb kind MediaKindSeries then Some (named_item "Episode" key)
            else if String.eqb kind MediaKindComic then Some (named_item "Issue" key)
            else plain
        | _ => plain
        end
  | _ => None
  end.

Definition importSource (e : DownloadEntry) (manual : bool) (at_ : Time) : ImportSource := {|
  imDownloadRef := eID e;
  imReleaseTitle := ClampText (SanitizeText (drTitle (eRelease e))) MaxReleaseTitleLength;
  imIndexerName := ClampText (SanitizeText (drIndexerName (eRelease e))) MaxIndexerNameLength;
  imProtocol := drProtocol (eRelease e);
  imImportedAt := at_;
  imManual := manual;
  imInfoHash := ToLower (drInfoHash (eRelease e));
|}.

Definition mediaRef (target : ItemRef) (keys : list string) (track : string) : MediaRef := {|
  mrKind := MediaKindOf (irKind target);
  mrName := irName target;
  mrKeys := if Nat.ltb 1 (length keys) then keys else [];
  mrTrack := track;
|}.

(** [donorDest]: the folder and the file. *)
Definition donorDest (root : string) (item : ItemRef) (src : string) : string * string :=
  let dir := path_join [root; DonorDir; irUID item] in
  (dir, path_join [dir; irName item +:+ ToLower (Ext src)]).

(** [baseTag] (mapping.go). *)
Definition baseTag (t : string) : string := ToLower (fst (fst (CutString "-" t))).

Definition ItemKey (kind name : string) : string := kind +:+ "/" +:+ name.
End naming.
