(* ===== verification/ImportChecks.v ===== *)
(** * ImportChecks: a file against those it would replace

    src/app/import/importplan: what a file's own streams refuse (content.go), and
    how it meets the item's files, transcoded or not (mapping.go, plan.go's
    [gate]). *)

From S2P Require Import Prelude GoLang GoFacts Paths Api LcView GoFloat.
From S2P Require Import Quality Sizes Release Languages Coverage Identity Accept Media Evaluate ImportRules.
From Stdlib Require Import Ascii.

(** ** The item's files (mapping.go) *)

(** [commonv1.GrabSource]; an entry always names one. *)
Definition GrabSource_string (g : GrabSource) : string :=
  match g with
  | GrabSourceRSS => "rss" | GrabSourceSearch => "search" | GrabSourceInteractive => "interactive"
  | GrabSourcePush => "push" | GrabSourceRedownload => "redownload"
  end.

Definition ownEarlierAttempt (mf : MediaFile) (e : DownloadEntry) : bool :=
  match mfImportedFrom mf with
  | None => false
  | Some src =>
      if String.eqb (imDownloadRef src) "" || negb (String.eqb (imDownloadRef src) (eID e)) then false
      else if IsZero (imImportedAt src) || Before (imImportedAt src) (eGrabbedAt e) then false
      else if bool_decide (mfOriginal mf = Some false) then false
      else match mfMediaInfo mf with
           | Some mi => String.eqb (miTranscodeProfile mi) ""
           | None => true
           end
  end.

Definition comparedFiles (existing : list MediaFile) (e : DownloadEntry) : list MediaFile :=
  List.filter (fun mf => negb (ownEarlierAttempt mf e)) existing.

Definition userChosen (e : DownloadEntry) (manual : bool) : bool :=
  manual || bool_decide (eGrabbedBy e = GrabSourceInteractive).

(** [incomingBitrate]. *)
Definition incomingBitrate (c : candidate) : Z :=
  match nfProbe (cnFile c) with
  | None => 0
  | Some p =>
      if (psDurationSeconds p <=? 0) || (nfSizeBytes (cnFile c) <=? 0) then 0
      else Z.quot (nfSizeBytes (cnFile c)) (psDurationSeconds p)
  end.

(** The probed audio languages: empty and nil read alike. *)
Definition probed_audio (p : option ProbeSummary) : list string :=
  match p with Some p => psAudioLanguages p | None => [] end.

(** [currentScore] (content.go). *)
Definition currentScore (p : Profile) (mf : MediaFile) : Z :=
  match mfMatchedFormats mf with [] => mfFormatScore mf | l => ScoreFormats p l end.

(** [baselineLoss] (content.go). *)
Definition baselineLoss (mf : MediaFile) (c : candidate) : string :=
  match mfMediaInfo mf, nfProbe (cnFile c) with
  | Some mi, Some probe =>
      if Upgradeable mf then ""
      else
        let res := match ffQuality (nfFrozen (cnFile c)) with Some q => qResolution q | None => 0 end in
        BaselineLoss (miVideoCodec mi) (miHdr mi) (qResolution (mfQuality mf)) (psVideoCodec probe) (psHDR probe) res
  | _, _ => ""
  end.

Definition undecodableRefit (p : Profile) (existing : list MediaFile) (q : Quality) : bool :=
  negb (bool_decide (existing = [])) && Lists p q && forallb (fun mf => negb (String.eqb (UndecodableVideo mf) "")) existing.

(** [verdictRejection]. *)
Definition verdictRejection (p : Profile) (e : DownloadEntry) (actual : Quality) (text : string) : Rejection :=
  let advertised := drQuality (eRelease e) in
  if String.eqb (qName advertised) "" then itemStateRejection text
  else
    match Index p advertised, Index p actual with
    | Some want, Some got =>
        if want <? got
        then releaseFaultRejection (text +:+ "; the release advertised " +:+ qName advertised +:+ ", the file is " +:+ qName actual)
        else itemStateRejection text
    | _, _ => itemStateRejection text
    end.

(** ** The file's own streams (content.go) *)

Definition ShortPercent : Z := 65.
Definition WrongTitleTolerancePercent : Z := 15.
Definition WrongTitleToleranceMinutes : Z := 10.
Definition JoinedShortPercent : Z := 85.

Definition episodeContentRejection (rel : string) (probe : option ProbeSummary) : option Rejection :=
  match probe with
  | None => None
  | Some p =>
      if IsDolbyVision (psHDR p)
      then Some (releaseFaultRejection (rel +:+ ": the file is Dolby Vision (" +:+ psHDR p +:+ "), which is never taken"))
      else None
  end.

Definition undecodableRejection (rel : string) (probe : option ProbeSummary) : option Rejection :=
  match probe with
  | None => None
  | Some p =>
      let name := UndecodableVideoCodec (psVideoCodec p) (psVideoBitDepth p) "" in
      if String.eqb name "" then None
      else Some (releaseFaultRejection (rel +:+ ": the file is " +:+ name +:+ ", which is never taken"))
  end.

(** [joinedRejection] (join.go). *)
Definition joinedRejection (rel : string) (c : candidate) (runtimeMinutes : Z) : option Rejection :=
  match nfProbe (cnFile c) with
  | None => None
  | Some p =>
      if bool_decide (cnJoin c = []) || (psDurationSeconds p <=? 0) || (runtimeMinutes <=? 0) then None
      else
        let runs := Z.quot (psDurationSeconds p) 60 in
        if wrap64 (runs * 100) <? wrap64 (runtimeMinutes * JoinedShortPercent)
        then Some (releaseFaultRejection (rel +:+ ": its " +:+ fmt_d (Z.of_nat (length (cnJoin c))) +:+ " parts joined run "
               +:+ fmt_d runs +:+ " minutes, under " +:+ fmt_d JoinedShortPercent +:+ "% of the movie's "
               +:+ fmt_d runtimeMinutes +:+ ": a part is missing"))
        else None
  end.

(** [setRejection] (join.go). *)
Definition setRejection (e : DownloadEntry) (rel : string) (c : candidate) : option Rejection :=
  match eSet e with
  | None => None
  | Some set =>
      let n := Z.of_nat (length (cnJoin c)) in
      if n =? esOf set then None
      else Some (releaseFaultRejection (rel +:+ ": the set's " +:+ fmt_d (esOf set) +:+ " parts did not join ("
             +:+ fmt_d n +:+ " did): a part is missing, unreadable or of another encode"))
  end.

(** [setUninspected] (join.go). *)
Definition setUninspected (e : DownloadEntry) (insp : ImportInspection) : bool :=
  match eSet e with
  | None => false
  | Some _ => negb (existsb (fun f => 0 <? nfPart f) (isnFiles insp)) && negb (bool_decide (isnFiles insp = []))
  end.

Section checks.
Context `{Unicode} `{Quote} `{TextTables} `{TagParser} `{Patterns} `{FloatToInt}.

Definition movieContentRejection (rel : string) (probe : option ProbeSummary) (releaseTitle : string) (id : Identity)
    (runtimeMinutes : Z) : option Rejection :=
  match probe with
  | None => None
  | Some p =>
      match episodeContentRejection rel probe with
      | Some r => Some r
      | None =>
          if (runtimeMinutes <=? 0) || (psDurationSeconds p <=? 0) then None
          else
            let runs := Z.quot (psDurationSeconds p) 60 in
            if wrap64 (runs * 100) <? wrap64 (runtimeMinutes * ShortPercent)
            then Some (releaseFaultRejection (rel +:+ ": runs " +:+ fmt_d runs +:+ " minutes, under " +:+ fmt_d ShortPercent
                   +:+ "% of the movie's " +:+ fmt_d runtimeMinutes +:+ ": a part of it, not the film"))
            else
              let off := Z.abs (runs - runtimeMinutes) in
              if (wrap64 (runtimeMinutes * WrongTitleTolerancePercent) <? wrap64 (off * 100))
                 && (WrongTitleToleranceMinutes <? off) && negb (String.eqb releaseTitle "")
                 && negb (TitleNamesMovie id releaseTitle)
              then Some (releaseFaultRejection (rel +:+ ": runs " +:+ fmt_d runs +:+ " minutes to the movie's "
                     +:+ fmt_d runtimeMinutes +:+ ", and the release " +:+ fmt_q releaseTitle
                     +:+ " does not name it: another film"))
              else None
      end
  end.

(** ** The gates (mapping.go) *)

Definition transcodedRejection (rel : string) (existing : MediaFile) (e : DownloadEntry) (manual : bool) : option Rejection :=
  if negb (Final existing) || userChosen e manual then None
  else
    let source := GrabSource_string (eGrabbedBy e) in
    Some ((itemStateRejection (rel +:+ ": " +:+ mrKind (mfMediaRef existing) +:+ " " +:+ mrName (mfMediaRef existing)
            +:+ "'s existing file (MediaFile " +:+ mfName existing
            +:+ ") is transcoded, and a transcoded file is final: "
            +:+ "an automatic grab (grabbedBy " +:+ source
            +:+ ") never replaces it; only an interactive grab or a manual import does")) <| rnTranscoded := true |>).

Definition replacesWrongLanguage (p : Profile) (originalTag : string) (existing : MediaFile) (incoming : option ProbeSummary) :
    bool :=
  if negb (LacksLanguage p originalTag (AudioLanguages (mfMediaInfo existing))) then false
  else match probed_audio incoming with
       | [] => false
       | l => negb (LacksLanguage p originalTag (Some l))
       end.

(** [audioFill]: whether the file fills, and the languages of a mislabelled
    one. *)
Definition audioFill (p : Profile) (originalTag : string) (existing : list MediaFile) (incoming : option ProbeSummary) :
    bool * option (list string) :=
  let audio mf := AudioLanguages (mfMediaInfo mf) in
  let replaceable := List.filter (fun mf => AudioUpgradeable p originalTag (audio mf)) existing in
  let incomplete := List.filter (fun mf => IncompleteAudio p originalTag (audio mf)) existing in
  match replaceable, probed_audio incoming with
  | [], _ | _, [] => (false, None)
  | _, l =>
      if negb (CompletesAudio p originalTag (Some l))
      then (false, if bool_decide (incomplete = []) then None else Some l)
      else (Nat.eqb (length replaceable) (length existing), None)
  end.

Definition bitrateRefit (p : Profile) (existing : list MediaFile) (c : candidate) (q : Quality) : bool :=
  let bps := incomingBitrate c in
  if bool_decide (existing = []) || (bps <=? 0) || negb (Lists p q) || negb (String.eqb (BitrateOutOfRange p q bps) "")
  then false
  else forallb (fun mf => negb (String.eqb (BitrateOutOfRange p (mfQuality mf) (BytesPerSecond mf)) "")) existing.

Definition policyLanguagesMissing (p : Profile) (originalTag : string) (audio : list string) : list string :=
  MissingAudio p originalTag (Some audio) ++ MissingOptionalAudio p originalTag (Some audio).

Definition seasonPack (e : DownloadEntry) : bool :=
  if Pack e then true
  else match Parse (drTitle (eRelease e)) MediaKindSeries with
       | inl pr => prFullSeason pr
       | inr _ => false
       end.

Definition singleEpisodeRelease (title : string) : bool :=
  if String.eqb title "" then false
  else match Parse title MediaKindSeries with
       | inr _ => false
       | inl pr =>
           if prFullSeason pr then false
           else
             let eps := length (prEpisodes pr) in
             let abs := length (prAbsolute pr) in
             (Nat.eqb eps 1 && Nat.leb abs 1) || (Nat.eqb eps 0 && Nat.eqb abs 1)
       end.

(** What [packRefit] asks of one existing file. *)
Definition pack_keeps (p : Profile) (originalTag : string) (probe : ProbeSummary) (mf : MediaFile) : bool :=
  match mfImportedFrom mf with
  | None => false
  | Some src =>
      if negb (singleEpisodeRelease (imReleaseTitle src)) then false
      else
        let lacks := policyLanguagesMissing p originalTag (psAudioLanguages probe) in
        let kept := match AudioLanguages (mfMediaInfo mf) with
                    | None => true
                    | Some have =>
                        let had := policyLanguagesMissing p originalTag have in
                        forallb (contains had) lacks
                    end in
        kept && match mfMediaInfo mf with
                | None => true
                | Some mi => String.eqb (BaselineLoss "" (miHdr mi) 0 (psVideoCodec probe) (psHDR probe) 0) ""
                end
  end.

Definition packRefit (p : Profile) (originalTag : string) (e : DownloadEntry) (existing : list MediaFile) (c : candidate) : bool :=
  match nfProbe (cnFile c) with
  | None => false
  | Some probe =>
      if negb (String.eqb (cnKind c) MediaKindEpisode) || bool_decide (existing = []) || negb (seasonPack e)
         || bool_decide (psAudioLanguages probe = [])
      then false
      else forallb (pack_keeps p originalTag probe) existing
  end.

(** ** The gate (plan.go) *)

(** The files the candidate must be an upgrade over. *)
Fixpoint gate_upgrades (prof : Profile) (original : string) (e : DownloadEntry) (rel : string) (c : candidate) (q : Quality)
    (cand : Candidate) (many : bool) (olds : list MediaFile) : option Rejection :=
  match olds with
  | [] => None
  | mf :: olds =>
      let next := gate_upgrades prof original e rel c q cand many olds in
      let video := negb (nonVideoKind (cnKind c)) in
      let current := mkCandidate (mfQuality mf) (mfRevision mf) (if video then currentScore prof mf else 0) in
      if video && replacesWrongLanguage prof original mf (nfProbe (cnFile c)) then next
      else
        let verdict := UpgradeDecision prof current cand in
        if bool_decide (verdict = Upgrade) then
          let loss := baselineLoss mf c in
          if video && negb (String.eqb loss "")
          then Some (itemStateRejection (rel +:+ ": " +:+ loss +:+ ", and the current file is kept"))
          else next
        else
          let text := rel +:+ ": " +:+ verdictMessage verdict in
          let text := if many || String.eqb (cnKind c) MediaKindEpisode
                      then text +:+ " (" +:+ mrName (mfMediaRef mf) +:+ ")" else text in
          Some (verdictRejection prof e q text)
  end.

Fixpoint first_some {A B} (f : A -> option B) (l : list A) : option B :=
  match l with [] => None | a :: l => match f a with Some b => Some b | None => first_some f l end end.

(** What passes a file over the transcoded rule and the upgrade table. *)
Definition refits (prof : Profile) (original : string) (e : DownloadEntry) (c : candidate) (compared : list MediaFile)
    (q : Quality) : bool :=
  bitrateRefit prof compared c q || undecodableRefit prof compared q || packRefit prof original e compared c.

(** The rest of the gate, past the exceptions. *)
Definition gate_rules (prof : Profile) (original : string) (e : DownloadEntry) (rel : string) (c : candidate)
    (compared : list MediaFile) (q : Quality) (manual : bool) : option Rejection :=
  match first_some (fun mf => transcodedRejection rel mf e manual) compared with
  | Some r => Some r
  | None =>
      if manual then None
      else if multiFileKind (cnKind c) then
        if bool_decide (compared = []) then None
        else Some (needsPersonRejection (rel +:+ ": " +:+ cnKind c +:+ " " +:+ hd "" (cnKeys c) +:+ " already has "
               +:+ fmt_d (Z.of_nat (length compared)) +:+ " file(s); adding to or replacing a multi-file item "
               +:+ "needs a manual import (" +:+ overrideHint +:+ ")"))
      else
        let rev := default zero_Revision (ffRevision (nfFrozen (cnFile c))) in
        let score := default 0 (ffFormatScore (nfFrozen (cnFile c))) in
        let olds := if nonVideoKind (cnKind c) then take 1 compared else compared in
        gate_upgrades prof original e rel c q (mkCandidate q rev score) (Nat.ltb 1 (length olds)) olds
  end.

Definition gate (prof : Profile) (original : string) (e : DownloadEntry) (rel : string) (c : candidate)
    (compared : list MediaFile) (manual : bool) : option Rejection :=
  let video := negb (nonVideoKind (cnKind c)) in
  let '(fills, mislabelled) := if video then audioFill prof original compared (nfProbe (cnFile c)) else (false, None) in
  match (if manual then None else mislabelled) with
  | Some l =>
      Some (releaseFaultRejection (rel +:+ ": the release was taken to carry audio " +:+ fmt_strings (WantedAudio prof original)
             +:+ ", and the file carries " +:+ fmt_strings l))
  | None =>
      if fills then None
      else
        let q := default zero_Quality (ffQuality (nfFrozen (cnFile c))) in
        let why := BitrateOutOfRange prof q (incomingBitrate c) in
        if video && negb (String.eqb why "") && negb manual
        then Some (releaseFaultRejection (rel +:+ ": the file's " +:+ why))
        else if video && refits prof original e c compared q then None
        else gate_rules prof original e rel c compared q manual
  end.
End checks.
