(* ===== verification/ImportPlanning.v ===== *)
(** * ImportPlanning: the plan of an inspection

    src/app/import/importplan/plan.go: [planFrom], what an answered inspection
    lets the agent place and replace, and [planDonor], the same of an audio
    donor. *)

From S2P Require Import Prelude GoLang GoFacts Paths Ledger Api Events LcView GoFloat Subjects Names Records.
From S2P Require Import Quality Sizes Release Languages Coverage Identity Accept Media Evaluate.
From S2P Require Import ImportRules ImportChecks.
From Stdlib Require Import Ascii.

(** [DonorItem]. *)
Record DonorItem := mkDonorItem {
  diItem : ItemRef;
  diMissing : list string;
  diOriginal : string;
  diAudioDefault : string;
  diRecordedDonor : string;
}.

(** [PartInput]. *)
Record PartInput := mkPartInput {
  piEntry : DownloadEntry;
  piTransfer : option TransferRecord;
}.

(** [Input]: one Completed entry's import. [npAdmit] is the dispatch ledger's
    answer for a seq, [None] for no ledger. *)
Record Input := mkInput {
  npOwner : ItemRef;
  npOwnerKind : string;
  npEntry : DownloadEntry;
  npTransfer : option TransferRecord;
  npInspect : option ImportRecord;
  npExecute : option ImportRecord;
  npExisting : gmap string (list MediaFile);
  npNamed : gmap string MediaFile;
  npTargets : list ItemRef;
  npProfileRef : string;
  npProfile : option Profile;
  npProfileError : string;
  npOriginalLanguage : string;
  npIdentity : Identity;
  npRuntimeMinutes : Z;
  npParts : list PartInput;
  npDonor : option DonorItem;
  npIntent : option ImportIntent;
  npFiles : Z;
  npNow : Time;
  npAdmit : option (Z -> Ledger.Decision);
  npPublished : Time;
}.

(** [planResult]: an approved plan and its note, or the class and message of an
    import that imports nothing. *)
Inductive planResult :=
  | Planned (plan : ImportPlan) (note : string)
  | Refused (class : ImportRejectionClass) (message : string).

Definition refused (rs : list Rejection) (none : string) : planResult :=
  match blocked rs with
  | Some b => Refused ImportClassNeedsPerson (rnText b)
  | None => Refused (Classify rs) (detail (outcomeMessage rs none) rs)
  end.

(** [appendUnique]. *)
Definition append_one (out : list MediaFile) (mf : MediaFile) : list MediaFile :=
  if contains (map mfName out) (mfName mf) then out else out ++ [mf].
Definition appendUnique (out add : list MediaFile) : list MediaFile := fold_left append_one add out.

Definition basisOf (mf : MediaFile) : MediaFileBasis :=
  mkMediaFileBasis (mfName mf) (mfUID mf) (mfResourceVersion mf) (mfPath mf) "".

Definition outsideRoot (replaces : list MediaFileBasis) (root : string) : option MediaFileBasis :=
  List.find (fun b => negb (contained (mbPath b) root)) replaces.

(** What the loop over the candidates has decided so far. *)
Record judged := mkJudged {
  jdMoves : list ImportMove;
  jdReplaces : list MediaFileBasis;
  jdReplaced : list string;
  jdDests : gmap string string;
  jdFilled : gmap string string;
  jdExisting : list MediaFile;
  jdRejections : list Rejection;
}.

#[export] Instance eta_judged : Eta judged :=
  fun j => mkJudged (jdMoves j) (jdReplaces j) (jdReplaced j) (jdDests j) (jdFilled j) (jdExisting j) (jdRejections j).
#[export] Instance set_jdMoves : Setter jdMoves. Proof. derive_setter. Defined.
#[export] Instance set_jdReplaces : Setter jdReplaces. Proof. derive_setter. Defined.
#[export] Instance set_jdReplaced : Setter jdReplaced. Proof. derive_setter. Defined.
#[export] Instance set_jdDests : Setter jdDests. Proof. derive_setter. Defined.
#[export] Instance set_jdFilled : Setter jdFilled. Proof. derive_setter. Defined.
#[export] Instance set_jdExisting : Setter jdExisting. Proof. derive_setter. Defined.
#[export] Instance set_jdRejections : Setter jdRejections. Proof. derive_setter. Defined.

Definition zero_judged (rs : list Rejection) : judged := mkJudged [] [] [] ∅ ∅ [] rs.

(** One old file of an item: replaced once, unless it is the file's own
    MediaFile at its own path. *)
Definition replace_one (dest name : string) (j : judged) (old : MediaFile) : judged :=
  if (String.eqb (mfPath old) dest && String.eqb (mfName old) name) || contains (jdReplaced j) (mfName old) then j
  else (j <| jdReplaced ::= cons (mfName old) |>) <| jdReplaces ::= fun l => l ++ [basisOf old] |>.

(** [filledBy]. *)
Fixpoint filled_by (keys : list string) (filled : gmap string string) : string :=
  match keys with
  | [] => ""
  | k :: keys => match filled !! k with Some by_ => by_ | None => filled_by keys filled end
  end.
Definition filledBy (c : candidate) (filled : gmap string string) : string :=
  if multiFileKind (cnKind c) then "" else filled_by (cnKeys c) filled.

Section planning.
Context `{Unicode} `{Quote} `{TextTables} `{TagParser} `{Patterns} `{FloatToInt} `{RangeOrder}.

(** ** The loops of [planFrom] *)

(** The inspected files: the rejections, the candidates and the last one's
    kind. *)
Fixpoint collect (prof : Profile) (root : string) (files : list InspectedFile) (rs : list Rejection)
    (cands : list candidate) (kind : string) : list Rejection * list candidate * string :=
  match files with
  | [] => (rs, cands, kind)
  | f :: files =>
      match nfRejections f with
      | [] =>
          match nfProposed f with
          | None =>
              collect prof root files
                (rs ++ [needsPersonRejection (relPath root (nfPath f) +:+ ": not attributable to an item")]) cands kind
          | Some t =>
              let kind := MediaKindOf (irKind t) in
              collect prof root files rs (cands ++ [mkCandidate_ f kind (keysOf f) (rankOf prof f) []]) kind
          end
      | l => collect prof root files (rs ++ map FromInspect l) cands kind
      end
  end.

(** A suspected sample decides nothing once real media is beside it. *)
Definition declass_samples (cands : list candidate) (rs : list Rejection) : list Rejection :=
  match cands with
  | [] => rs
  | _ => map (fun r => if rnSample r then r <| rnClass := ImportClassUnset |> else r) rs
  end.

Section one.
Variable i : Input.
Variable override : bool.
Variable prof : Profile.
Variable root : string.
Variable insp : ImportInspection.

Let e : DownloadEntry := npEntry i.
Let manual : bool := eManual e || override.

(** [existingFor]. *)
Definition existingFor (c : candidate) : list MediaFile :=
  fold_left (fun out k => appendUnique out (default [] (npExisting i !! ItemKey (cnKind c) k))) (cnKeys c) [].

(** The refusals of one candidate, in the loop's order; the first one keeps it
    out. *)
Definition judge_refusals (j : judged) (c : candidate) : list (option Rejection) :=
  let f := cnFile c in
  let rel := relPath root (nfPath f) in
  let q := ffQuality (nfFrozen f) in
  let movie := String.eqb (cnKind c) MediaKindMovie in
  let episode := String.eqb (cnKind c) MediaKindEpisode in
  [ (let late := filledBy c (jdFilled j) in
     if String.eqb late "" then None
     else Some (lateRejection c rel (cnKind c +:+ " " +:+ hd "" (cnKeys c)) late));
    match q with
    | Some q => if negb (Allowed prof q) && negb override then Some (notAllowedRejection rel q) else None
    | None =>
        if nonVideoKind (cnKind c) && negb manual
        then Some (needsPersonRejection (rel +:+ ": the quality of this " +:+ cnKind c
               +:+ " file cannot be determined; only a manual import accepts it"))
        else None
    end;
    (if movie then setRejection e rel c else None);
    (if movie && negb manual
     then movieContentRejection rel (nfProbe f) (drTitle (eRelease e)) (npIdentity i) (npRuntimeMinutes i) else None);
    (if movie && negb manual then joinedRejection rel c (npRuntimeMinutes i) else None);
    (if episode && negb manual then episodeContentRejection rel (nfProbe f) else None);
    (if (movie || episode) && negb manual then undecodableRejection rel (nfProbe f) else None);
    gate prof (npOriginalLanguage i) e rel c (comparedFiles (existingFor c) e) manual;
    (if contained (nfDest f) (isnRootFolder insp) then None
     else Some (blockedRejection ("refused to place " +:+ rel +:+ " at " +:+ nfDest f
            +:+ ", which is not inside root folder path " +:+ fmt_q (isnRootFolder insp))));
    match jdDests j !! nfDest f with
    | Some other =>
        Some (incidentalRejection (rel +:+ ": resolves to the same library path as " +:+ other
               +:+ ", which this import already places"))
    | None => None
    end ].

(** The move of a candidate that nothing refuses. *)
Definition move_of (c : candidate) (target : ItemRef) : ImportMove := {|
  mvSource := nfPath (cnFile c);
  mvDest := nfDest (cnFile c);
  mvTarget := target;
  mvKeys := cnKeys c;
  mvMediaFileName := MediaFileName (irName target) (nfDest (cnFile c));
  mvFrozen := nfFrozen (cnFile c);
  mvJoin := cnJoin c;
|}.

Definition zero_ItemRef : ItemRef := mkItemRef "" (mkRef "" "" "").

(** What placing it does: the move, the files it replaces, the items it fills. *)
Definition take_candidate (j : judged) (c : candidate) : judged :=
  let f := cnFile c in
  let rel := relPath root (nfPath f) in
  let have := existingFor c in
  let compared := comparedFiles have e in
  let move := move_of c (default zero_ItemRef (nfProposed f)) in
  let j := (j <| jdDests ::= insert (nfDest f) rel |>) <| jdMoves ::= fun l => l ++ [move] |> in
  let j := if multiFileKind (cnKind c) then j <| jdExisting ::= fun l => appendUnique l have |> else j in
  let olds := if multiFileKind (cnKind c) then []
              else if nonVideoKind (cnKind c) then take 1 compared else have in
  let j := fold_left (replace_one (nfDest f) (mvMediaFileName move)) olds j in
  if multiFileKind (cnKind c) then j
  else j <| jdFilled ::= fun m => fold_left (fun m k => <[k := rel]> m) (cnKeys c) m |>.

Definition judge (j : judged) (c : candidate) : judged :=
  match first_some id (judge_refusals j c) with
  | Some r => j <| jdRejections ::= fun l => l ++ [r] |>
  | None => take_candidate j c
  end.

(** A manual import of a multi-file item replaces its files all or nothing. *)
Definition settle_set (kind : string) (j : judged) : judged :=
  if negb (manual && multiFileKind kind) then j
  else
    let old := List.filter (fun mf => negb (bool_decide (is_Some (jdDests j !! mfPath mf)))) (jdExisting j) in
    if negb (bool_decide (old = [])) && negb (bool_decide (jdRejections j = []))
    then j <| jdRejections ::= fun rs => rs ++ [incidentalRejection ("kept the item's " +:+ fmt_d (Z.of_nat (length old))
                +:+ " earlier file(s), because " +:+ fmt_d (Z.of_nat (length rs)) +:+ " file(s) of this release "
                +:+ "are not imported, so it does not wholly replace them")] |>
    else j <| jdReplaces ::= fun l => l ++ map basisOf old |>.
End one.

(** [mode]. *)
Definition mode (i : Input) : string :=
  match npTransfer i with
  | Some r => if trCanMoveFiles r then ImportModeMove else ImportModeHardlink
  | None => ImportModeHardlink
  end.

Definition content_root (i : Input) : string := match npTransfer i with Some r => trContentRoot r | None => "" end.

(** [planDonor]. *)
Definition planDonor (i : Input) (insp : ImportInspection) : planResult :=
  match npDonor i with
  | None => Refused ImportClassItemState "a donor is for an episode or a movie, and its item is gone"
  | Some d =>
      let named := irKind (diItem d) +:+ " " +:+ fmt_q (irName (diItem d)) in
      match diMissing d with
      | [] => Refused ImportClassItemState (named +:+ " no longer lacks a language a donor could graft")
      | missing =>
          match Normalize (diOriginal d), isnFiles insp with
          | None, _ => Refused ImportClassNeedsPerson (named +:+ " has no known original language to align a donor on")
          | Some _, [] =>
              Refused ImportClassReleaseFault (MessageEveryFileRejected +:+ ": no video or audio file in the download")
          | Some anchor, f :: _ =>
              let rel := relPath (content_root i) (nfPath f) in
              match nfProbe f with
              | None => Refused ImportClassTransient (rel +:+ ": the donor's file could not be probed")
              | Some probe =>
                  let have := map baseTag (psAudioLanguages probe) in
                  let lacks := List.filter (fun l => negb (contains have (baseTag l))) (anchor :: missing) in
                  if negb (bool_decide (lacks = [])) then
                    Refused ImportClassReleaseFault
                      (MessageEveryFileRejected +:+ ": " +:+ rel +:+ ": no tagged " +:+ fmt_strings lacks +:+ " audio track")
                  else if String.eqb (isnRootFolder insp) ""
                  then Refused ImportClassNeedsPerson "the donor's item names no root folder"
                  else
                    let '(dir, dest) := donorDest (isnRootFolder insp) (diItem d) (nfPath f) in
                    Planned (mkImportPlan (mode i) [] [] (Some (mkDonorPlan (nfPath f) dir dest anchor missing))
                      (isnRootFolder insp) (isnRecycleBin insp) (isnMinFreeBytes insp)) ""
              end
          end
      end
  end.

Definition donor (i : Input) : bool := String.eqb (ePurpose (npEntry i)) DownloadPurposeAudioDonor.

(** What the judged candidates come to. *)
Definition plan_judged (i : Input) (override : bool) (insp : ImportInspection) (kind : string) (j : judged) : planResult :=
  match blocked (jdRejections j) with
  | Some b => Refused ImportClassNeedsPerson (rnText b)
  | None =>
      match jdMoves j with
      | [] =>
          if bool_decide (jdRejections j = []) && bool_decide (isnFiles insp = []) && bool_decide (is_Some (npExecute i))
          then Refused ImportClassNeedsPerson ("the download holds no file, and an import of it was already carried out: "
                 +:+ "its files may be in the library unrecorded (a library scan of the folder finds them)")
          else refused (jdRejections j)
                 (if String.eqb kind "" then "no importable files found" else "no " +:+ kind +:+ " files found")
      | _ =>
          let j := settle_set i override kind j in
          match outsideRoot (jdReplaces j) (isnRootFolder insp) with
          | Some b =>
              Refused ImportClassNeedsPerson ("refused to replace media file " +:+ mbName b +:+ " at " +:+ mbPath b
                +:+ ", which is not inside root folder path " +:+ fmt_q (isnRootFolder insp) +:+ ": a file outside "
                +:+ "the root folder is never recycled; move it into the root folder or delete its MediaFile, "
                +:+ "then import by hand (" +:+ overrideHint +:+ ")")
          | None =>
              Planned (mkImportPlan (mode i) (jdMoves j) (jdReplaces j) None (isnRootFolder insp) (isnRecycleBin insp)
                         (isnMinFreeBytes insp))
                (match jdRejections j with
                 | [] => ""
                 | rs => detail ("importing " +:+ fmt_d (Z.of_nat (length (jdMoves j))) +:+ " file(s); left behind") rs
                 end)
          end
      end
  end.

(** [planFrom]; [override] is the summary's. *)
Definition planFrom (i : Input) (override : bool) (insp : option ImportInspection) : planResult :=
  match insp with
  | None => Refused ImportClassTransient "the inspection is missing"
  | Some insp =>
      match isnRejections insp with
      | (_ :: _) as l => refused (map FromInspect l) "the payload could not be inspected"
      | [] =>
          if donor i then planDonor i insp
          else if setUninspected (npEntry i) insp then
            Refused ImportClassTransient
              "the import agent inspected part 1 of the set alone; waiting for one that walks every part"
          else
            match npProfile i with
            | None =>
                Refused ImportClassNeedsPerson
                  ("quality profile " +:+ fmt_q (npProfileRef i) +:+ " cannot be resolved: " +:+ npProfileError i)
            | Some prof =>
                let root := content_root i in
                let '(rs, cands, kind) := collect prof root (isnFiles insp) [] [] "" in
                let rs := declass_samples cands rs in
                let cands := foldParts cands in
                let cands := if multiFileKind kind then cands else sortCandidates cands in
                plan_judged i override insp kind (fold_left (judge i override prof root insp) cands (zero_judged rs))
            end
      end
  end.
End planning.
