(* ===== verification/ImportFacts.v ===== *)
(** * ImportFacts: what an approved plan places and replaces

    The loop over the candidates keeps an invariant, and an approved plan is
    what it left: every file it places or replaces lies inside the root folder,
    and a transcoded file is replaced by an automatic grab only under the
    exceptions the gate names. *)

From S2P Require Import Prelude GoLang GoFacts Paths Api LcView LcExample GoFloat Subjects Names Records Quality Sizes.
From S2P Require Import Release Languages Coverage Identity Accept Media Evaluate ImportRules ImportChecks.
From S2P Require Import ImportPlanning Ledger Events.
From Stdlib Require Import Ascii.

(** A completed grab of a film the library has as a WEB download, its inspection
    and the MediaFile it would replace, each varied by record update where a
    theorem needs it. *)

#[export] Existing Instances ascii_unicode plain_quote ascii_tables ex_tags ex_patterns ex_floats map_order.

Definition im_root : string := "/library/movies".
Definition im_item : ItemRef := mkItemRef "Movie" (mkRef "media" "alien" "item-1").

Definition im_probe : ProbeSummary := mkProbeSummary "h264" 1920 1080 "" 8 ["en"] 7020 false "".
Definition im_frozen (q : Quality) : FrozenFields :=
  mkFrozenFields (Some q) (Some (mkRevision 1 0 false)) "" "" None ["en"] (Some 0) [] "" None "".

Definition im_file : InspectedFile := {|
  nfPath := "/data/alien/alien.mkv"; nfSizeBytes := 8000; nfParsed := zero_Parsed; nfProbe := Some im_probe;
  nfFingerprint := "f1"; nfProposed := Some im_item; nfKeys := [];
  nfDest := "/library/movies/Alien (1979)/Alien.mkv"; nfFrozen := im_frozen (dfQuality ex_bluray);
  nfSample := false; nfRejections := []; nfPart := 0 |}.

Definition im_inspection : ImportInspection := mkImportInspection [im_file] [] im_root "/library/.recycle" 0.

Definition im_have : MediaFile := {|
  mfName := "alien-old"; mfUID := "mf-1"; mfResourceVersion := "7"; mfAnnotations := ∅;
  mfMediaRef := mkMediaRef "movie" "alien" [] ""; mfPath := "/library/movies/Alien (1979)/Alien.web.mkv";
  mfSizeBytes := 5000; mfModTime := 0; mfQuality := dfQuality ex_webdl; mfRevision := mkRevision 1 0 false;
  mfReleaseType := ""; mfReleaseGroup := ""; mfEdition := ""; mfLanguages := ["en"]; mfFormatScore := 0;
  mfMatchedFormats := []; mfProfileHash := ""; mfImportedFrom := None; mfSourceSizeBytes := 0; mfOriginal := None;
  mfMediaInfo := None |}.

Definition im_entry : DownloadEntry :=
  ex_entry <| eRelease := mkDownloadRelease "Alien 1979 Bluray" "guid-1" "idx" "Indexer" "ABC" ProtocolTorrent 8000
                (dfQuality ex_bluray) (mkRevision 1 0 false) 0 [] [] "GRP" "" |>
           <| ePhase := DownloadPhaseCompleted |>.

Definition im_header (seq : Z) (state : string) (failure : string) : Header :=
  mkHeader "imports.Import.v1" (mkRef "" "" "") (Some im_item) "" seq state 0 None None (Some (ex_min 20)) "" "" failure false 0.

Definition im_inspected (seq : Z) : ImportRecord :=
  mkImportRecord (im_header seq "answered" "") (mkEntryRef "heat-1" "uid-1") (Some im_inspection) None.

(** The decision's input in an import state, with the import records there are. *)
Definition im_at (s : option DownloadImportSummary) (inspect execute : option ImportRecord) : Input := {|
  npOwner := im_item; npOwnerKind := "movie"; npEntry := im_entry <| eImport := s |>; npTransfer := None;
  npInspect := inspect; npExecute := execute; npExisting := {["movie/alien" := [im_have]]};
  npNamed := ∅; npTargets := [im_item]; npProfileRef := "hd"; npProfile := Some ex_single; npProfileError := "";
  npOriginalLanguage := "en"; npIdentity := tgIdentity (ex_wanted ""); npRuntimeMinutes := 117; npParts := [];
  npDonor := None; npIntent := None; npFiles := 0; npNow := ex_min 30; npAdmit := None; npPublished := 0 |}.

Definition im_input : Input := im_at None (Some (im_inspected 1700000000000)) None.

(** A summary in a phase, its dispatch at a seq, answered up to another. *)
Definition im_summary (phase : ImportPhase) (attempts seq answered : Z) : DownloadImportSummary :=
  mkDownloadImportSummary phase ImportClassUnset "" attempts None None None 0 "" false
    (mkDispatch seq answered (ex_min 20) false "import-fileimport" None).

Definition im_plan : ImportPlan := {|
  ipnMode := ImportModeHardlink;
  ipnMoves := [mkImportMove "/data/alien/alien.mkv" "/library/movies/Alien (1979)/Alien.mkv" im_item ["alien"]
                 (MediaFileName "alien" "/library/movies/Alien (1979)/Alien.mkv") (im_frozen (dfQuality ex_bluray)) []];
  ipnReplaces := [mkMediaFileBasis "alien-old" "mf-1" "7" "/library/movies/Alien (1979)/Alien.web.mkv" ""];
  ipnDonor := None; ipnRootFolder := im_root; ipnRecycleBin := "/library/.recycle"; ipnMinFreeBytes := 0 |}.

(** The Bluray replaces the WEB download. *)
Example im_planned : planFrom im_input false (Some im_inspection) = Planned im_plan "".
Proof. vm_compute. reflexivity. Qed.

(** A file the agent found to be the release's fault. *)
Definition im_faulty (seq : Z) : ImportRecord :=
  mkImportRecord (im_header seq "answered" "") (mkEntryRef "heat-1" "uid-1")
    (Some (mkImportInspection [] [mkInspectRejection ImportClassReleaseFault "not a film" ""] im_root "" 0)) None.

(** An execute that placed the film and recycled the WEB download. *)
Definition im_execution : ImportExecution := {|
  ixPlaced := [mkPlacedFile "/data/alien/alien.mkv" "/library/movies/Alien (1979)/Alien.mkv" 8000 0 "f1" "p1" im_item ["alien"]
                 (MediaFileName "alien" "/library/movies/Alien (1979)/Alien.mkv") (im_frozen (dfQuality ex_bluray))];
  ixRefused := ""; ixRecycled := ["/library/.recycle/1"]; ixDonorPath := "";
  ixReplaced := [mkMediaFileBasis "alien-old" "mf-1" "7" "/library/movies/Alien (1979)/Alien.web.mkv" ""] |}.
Definition im_executed (seq : Z) : ImportRecord :=
  mkImportRecord (im_header seq "answered" "") (mkEntryRef "heat-1" "uid-1") None (Some im_execution).

(** Over a transcoded one it does not. *)
Example im_kept :
  exists why, planFrom (mkInput im_item "movie" im_entry None (Some (im_inspected 1)) None
    {["movie/alien" := [mkMediaFile "alien-old" "mf-1" "7" ∅ (mkMediaRef "movie" "alien" [] "")
       "/library/movies/Alien (1979)/Alien.web.mkv" 5000 0 (dfQuality ex_webdl) (mkRevision 1 0 false) "" "" "" ["en"] 0 [] ""
       None 0 (Some false) None]]}
    ∅ [im_item] "hd" (Some ex_single) "" "en" (tgIdentity (ex_wanted "")) 117 [] None None 0 (ex_min 30) None 0)
    false (Some im_inspection) = Refused ImportClassItemState why.
Proof. eexists. vm_compute. reflexivity. Qed.

Lemma first_some_None {A B} (f : A -> option B) l : first_some f l = None <-> Forall (fun a => f a = None) l.
Proof.
  induction l as [| a l IH]; cbn; [done |]. rewrite list.Forall_cons, <- IH. destruct (f a); naive_solver.
Qed.

(** ** Replacing an item's files *)

Definition with_replaced (l : list MediaFile) (j : judged) : judged :=
  mkJudged (jdMoves j) (jdReplaces j ++ map basisOf l) (rev (map mfName l) ++ jdReplaced j) (jdDests j) (jdFilled j)
    (jdExisting j) (jdRejections j).

Lemma with_replaced_nil j : with_replaced [] j = j.
Proof. destruct j. unfold with_replaced. cbn. by rewrite app_nil_r. Qed.

Lemma with_replaced_cons o l j :
  with_replaced l ((j <| jdReplaced ::= cons (mfName o) |>) <| jdReplaces ::= fun l => l ++ [basisOf o] |>)
  = with_replaced (o :: l) j.
Proof.
  destruct j as [a b c d f g h].
  change (mkJudged a ((b ++ [basisOf o]) ++ map basisOf l) (rev (map mfName l) ++ mfName o :: c) d f g h
          = mkJudged a (b ++ map basisOf (o :: l)) (rev (map mfName (o :: l)) ++ c) d f g h).
  cbn [map rev]. by rewrite <- !app_assoc.
Qed.

Lemma contains_In l s : contains l s = true <-> s ∈ l.
Proof.
  unfold contains. rewrite existsb_exists, list_elem_of_In. split.
  - by intros (x & Hx & -> % String.eqb_eq).
  - intros Hs. exists s. by rewrite String.eqb_refl.
Qed.

(** Going through an item's files takes some of them, each name once. *)
Lemma replace_all dest name olds j :
  exists l, fold_left (replace_one dest name) olds j = with_replaced l j
    /\ (forall mf, mf ∈ l -> mf ∈ olds) /\ NoDup (map mfName l) /\ (forall mf, mf ∈ l -> mfName mf ∉ jdReplaced j).
Proof.
  revert j. induction olds as [| o olds IH]; intros j; cbn [fold_left].
  { exists []. rewrite with_replaced_nil. repeat split; [by intros ? ? % list.elem_of_nil | constructor | by intros ? ? % list.elem_of_nil]. }
  destruct (IH (replace_one dest name j o)) as (l & -> & Hin & Hnd & Hnew). clear IH.
  unfold replace_one in *.
  destruct (_ || _) eqn:Ec.
  - exists l. repeat split; [| done | done]. intros. apply list.elem_of_cons. auto.
  - apply orb_false_elim in Ec as [_ Ec]. rewrite with_replaced_cons. exists (o :: l).
    assert (forall mf, mf ∈ l -> mfName mf ∉ mfName o :: jdReplaced j) as Hnew' by exact Hnew. clear Hnew.
    repeat split.
    + intros mf [-> | Hmf] % list.elem_of_cons; apply list.elem_of_cons; auto.
    + cbn [map]. constructor; [| done]. intros (mf & He & Hmf) % list_elem_of_fmap.
      apply (Hnew' _ Hmf), list.elem_of_cons. by left.
    + intros mf [-> | Hmf] % list.elem_of_cons.
      * intros Hc % contains_In. congruence.
      * intros Hc. apply (Hnew' _ Hmf), list.elem_of_cons. by right.
Qed.

Section facts.
Context `{Unicode} `{Quote} `{TextTables} `{TagParser} `{Patterns} `{FloatToInt} `{RangeOrder}.

(** ** From a plan to the loop *)

(** The candidates [planFrom] judges, in the order it judges them. *)
Definition candidates (i : Input) (prof : Profile) (insp : ImportInspection) : list candidate :=
  let '(_, cands, kind) := collect prof (content_root i) (isnFiles insp) [] [] "" in
  if multiFileKind kind then foldParts cands else sortCandidates (foldParts cands).

Lemma planFrom_judged i ov insp pl note : planFrom i ov (Some insp) = Planned pl note -> donor i = false ->
  exists prof kind rs, let j := fold_left (judge i ov prof (content_root i) insp) (candidates i prof insp) (zero_judged rs) in
    npProfile i = Some prof /\ blocked (jdRejections j) = None
    /\ ipnMoves pl = jdMoves j /\ ipnReplaces pl = jdReplaces (settle_set i ov kind j)
    /\ ipnRootFolder pl = isnRootFolder insp /\ outsideRoot (ipnReplaces pl) (isnRootFolder insp) = None
    /\ ipnDonor pl = None.
Proof.
  intros Hp Hd. unfold planFrom in Hp. rewrite Hd in Hp.
  destruct (isnRejections insp) as [| r0 rs0]; [| unfold refused in Hp; by destruct (blocked _)].
  destruct (setUninspected _ _); [done |]. destruct (npProfile i) as [prof |]; [| done].
  unfold candidates. destruct (collect _ _ _ _ _ _) as [[rs cands] kind] eqn:Ec.
  exists prof, kind, (declass_samples cands rs). cbv zeta. rewrite Ec.
  set (j := fold_left _ _ _) in *. clearbody j. split; [done |]. unfold plan_judged in Hp.
  destruct (blocked (jdRejections j)) as [b |]; [done |]. split; [done |].
  destruct (jdMoves j) as [| m ms] eqn:Em.
  { destruct (_ && _); [done |]. unfold refused in Hp. by destruct (blocked _). }
  destruct (outsideRoot _ _) as [b |] eqn:Eo; [done |]. injection Hp as <- <-. cbn.
  assert (jdMoves (settle_set i ov kind j) = m :: ms) as ->.
  { unfold settle_set. destruct (negb _); [done |]. by destruct (_ && _). }
  done.
Qed.

(** ** The loop's invariant *)

Section loop.
Variable i : Input.
Variable ov : bool.
Variable prof : Profile.
Variable insp : ImportInspection.

Let root := content_root i.
Let e := npEntry i.

(** Nothing refused the candidate when its turn came. *)
Definition taken_at (j : judged) (c : candidate) : Prop :=
  Forall (fun o => o = None) (judge_refusals i ov prof root insp j c).
Definition accepted (c : candidate) : Prop := exists j, taken_at j c.

Definition placed (c : candidate) : ImportMove := move_of c (default zero_ItemRef (nfProposed (cnFile c))).

Lemma judge_ind (P : judged -> Prop) cands :
  (forall j r, P j -> P (j <| jdRejections ::= fun l => l ++ [r] |>)) ->
  (forall j c, c ∈ cands -> P j -> taken_at j c -> P (take_candidate i root j c)) ->
  forall j, P j -> P (fold_left (judge i ov prof root insp) cands j).
Proof.
  induction cands as [| c cs IH]; intros Hr Ht j Hj; cbn [fold_left]; [done |].
  apply IH; [done | intros; apply Ht; [by apply list.elem_of_cons; right | done | done] |].
  unfold judge. destruct (first_some id _) as [r |] eqn:Er; [by apply Hr |].
  apply Ht; [by apply list.elem_of_cons; left | done |]. by apply first_some_None in Er.
Qed.

(** The old files a candidate replaces. *)
Definition olds_of (c : candidate) : list MediaFile :=
  if multiFileKind (cnKind c) then []
  else if nonVideoKind (cnKind c) then take 1 (comparedFiles (existingFor i c) e) else existingFor i c.

Lemma olds_of_existing c mf : mf ∈ olds_of c -> multiFileKind (cnKind c) = false /\ mf ∈ existingFor i c.
Proof.
  unfold olds_of. destruct (multiFileKind _); [by intros ? % list.elem_of_nil |]. destruct (nonVideoKind _); [| done].
  intros Hm. split; [done |]. apply elem_of_take in Hm as (n & Hn & _). apply list_elem_of_lookup_2 in Hn.
  apply list_elem_of_In, filter_In in Hn as [Hn _]. by apply list_elem_of_In.
Qed.

(** A taken candidate's place in the loop's state. *)
Lemma take_candidate_spec j c : exists l,
  take_candidate i root j c
  = mkJudged (jdMoves j ++ [placed c]) (jdReplaces j ++ map basisOf l) (rev (map mfName l) ++ jdReplaced j)
      (<[nfDest (cnFile c) := relPath root (nfPath (cnFile c))]> (jdDests j))
      (if multiFileKind (cnKind c) then jdFilled j
       else fold_left (fun m k => <[k := relPath root (nfPath (cnFile c))]> m) (cnKeys c) (jdFilled j))
      (if multiFileKind (cnKind c) then appendUnique (jdExisting j) (existingFor i c) else jdExisting j) (jdRejections j)
  /\ (forall mf, mf ∈ l -> mf ∈ olds_of c) /\ NoDup (map mfName l) /\ (forall mf, mf ∈ l -> mfName mf ∉ jdReplaced j).
Proof.
  unfold take_candidate. cbv zeta. fold e.
  change (move_of c (default zero_ItemRef (nfProposed (cnFile c)))) with (placed c).
  change (if multiFileKind (cnKind c) then []
     else if nonVideoKind (cnKind c) then take 1 (comparedFiles (existingFor i c) e) else existingFor i c) with (olds_of c).
  match goal with |- context [fold_left (replace_one ?d ?n) _ ?j0] => destruct (replace_all d n (olds_of c) j0)
    as (l & -> & Hin & Hnd & Hnew) end.
  exists l. split; [| split; [done | split; [done |]]].
  - destruct j. by destruct (multiFileKind (cnKind c)).
  - intros mf Hmf. specialize (Hnew mf Hmf). destruct j. by destruct (multiFileKind (cnKind c)).
Qed.

Lemma relPath_nonempty r path : path <> "" -> relPath r path <> "".
Proof.
  intros Hp. unfold relPath. destruct (String.eqb r ""); [done |]. destruct (Rel r path) as [rel |]; [| done].
  destruct (String.eqb rel "") eqn:E; [done |]. cbn. destruct (_ || _); [done |]. by apply String.eqb_neq.
Qed.

(** What a candidate nothing refused has passed. *)
Definition passes (c : candidate) : Prop :=
  let f := cnFile c in
  let video := String.eqb (cnKind c) MediaKindMovie || String.eqb (cnKind c) MediaKindEpisode in
  (forall q, ffQuality (nfFrozen f) = Some q -> Allowed prof q = true \/ ov = true)
  /\ (ffQuality (nfFrozen f) = None -> nonVideoKind (cnKind c) = true -> eManual e = true \/ ov = true)
  /\ (video = true -> eManual e = false -> ov = false -> forall p, nfProbe f = Some p ->
        IsDolbyVision (psHDR p) = false /\ UndecodableVideoCodec (psVideoCodec p) (psVideoBitDepth p) "" = "")
  /\ (cnKind c = MediaKindMovie -> forall s, eSet e = Some s -> Z.of_nat (length (cnJoin c)) = esOf s)
  /\ gate prof (npOriginalLanguage i) e (relPath root (nfPath f)) c (comparedFiles (existingFor i c) e)
       (eManual e || ov) = None
  /\ contained (nfDest f) (isnRootFolder insp) = true.

Lemma if_None {A} (b : bool) (o : option A) : (if b then o else None) = None -> b = true -> o = None.
Proof. by intros ? ->. Qed.
Lemma episode_none rel p : episodeContentRejection rel (Some p) = None -> IsDolbyVision (psHDR p) = false.
Proof. unfold episodeContentRejection. by destruct (IsDolbyVision _). Qed.
Lemma movie_none rel p t id m : movieContentRejection rel (Some p) t id m = None -> IsDolbyVision (psHDR p) = false.
Proof.
  unfold movieContentRejection. destruct (episodeContentRejection rel (Some p)) eqn:E; [done |].
  intros _. by apply episode_none in E.
Qed.

Lemma taken_checks j c : taken_at j c ->
  filledBy c (jdFilled j) = "" /\ jdDests j !! nfDest (cnFile c) = None /\ passes c.
Proof.
  unfold taken_at, judge_refusals. cbv zeta. fold e. intros Hrefs.
  repeat match type of Hrefs with Forall _ (_ :: _) =>
    apply list.Forall_cons in Hrefs as [?Hx Hrefs] end. clear Hrefs.
  split; [destruct (String.eqb_spec (filledBy c (jdFilled j)) ""); done |].
  split; [by destruct (jdDests j !! _) |]. unfold passes. cbv zeta.
  split; [| split; [| split; [| split; [| split; [done |]]]]].
  - intros q Hq. rewrite Hq in Hx0. destruct (Allowed prof q); [auto |]. destruct ov; [auto | done].
  - intros Hq Hn. rewrite Hq, Hn in Hx0. destruct (eManual e); [auto |]. destruct ov; [auto | done].
  - intros Hv Hm Ho p Hp. rewrite Hm, Ho, Hp in *. cbn [orb negb] in *. rewrite !andb_true_r in *. split.
    + destruct (String.eqb (cnKind c) MediaKindMovie) eqn:Em; cbn in Hx2; [by eapply movie_none |].
      cbn in Hv. rewrite Hv in Hx4. by eapply episode_none.
    + apply (if_None _ _ Hx5) in Hv. unfold undecodableRejection in Hv. cbv zeta in Hv.
      destruct (String.eqb_spec (UndecodableVideoCodec (psVideoCodec p) (psVideoBitDepth p) "") ""); done.
  - intros Hk s Hs. rewrite Hk, String.eqb_refl in Hx1.
    unfold setRejection in Hx1. rewrite Hs in Hx1. cbv zeta in Hx1. by destruct (Z.eqb_spec (Z.of_nat (length (cnJoin c))) (esOf s)).
  - by destruct (contained _ _).
Qed.

(** No two single-file candidates are for one item. *)
Definition single (c : candidate) : Prop := multiFileKind (cnKind c) = false.
Definition apart (a b : candidate) : Prop := single a -> single b -> forall k, k ∈ cnKeys a -> k ∉ cnKeys b.

Lemma insert_all_lookup (v : string) ks (m : gmap string string) k :
  fold_left (fun m k => <[k := v]> m) ks m !! k = if bool_decide (k ∈ ks) then Some v else m !! k.
Proof.
  revert m. induction ks as [| k0 ks IH]; intros m; cbn [fold_left]; [done |]. rewrite IH.
  destruct (bool_decide_reflect (k ∈ ks)).
  { rewrite bool_decide_eq_true_2; [done |]. apply list.elem_of_cons. by right. }
  destruct (decide (k = k0)) as [-> | Hne].
  - rewrite lookup_insert_eq, bool_decide_eq_true_2; [done |]. apply list.elem_of_cons. by left.
  - rewrite lookup_insert_ne, bool_decide_eq_false_2; [done | | done]. by intros [? | ?] % list.elem_of_cons.
Qed.

Lemma filled_by_empty keys (m : gmap string string) : (forall k v, m !! k = Some v -> v <> "") ->
  filled_by keys m = "" -> forall k, k ∈ keys -> m !! k = None.
Proof.
  intros Hm. induction keys as [| k0 keys IH]; cbn; [by intros _ k ? % list.elem_of_nil |].
  destruct (m !! k0) as [v |] eqn:E; [intros ->; by destruct (Hm _ _ E) |].
  intros Hf k [-> | Hk] % list.elem_of_cons; [done | by apply IH].
Qed.

(** What the loop keeps: the candidates it took, in order. *)
Record loop_inv (cands taken : list candidate) (j : judged) : Prop := {
  li_taken : forall c, c ∈ taken -> c ∈ cands /\ accepted c;
  li_moves : jdMoves j = map placed taken;
  li_dests : forall d, is_Some (jdDests j !! d) <-> d ∈ map (fun c => nfDest (cnFile c)) taken;
  li_dests_nodup : NoDup (map (fun c => nfDest (cnFile c)) taken);
  li_replaces : forall b, b ∈ jdReplaces j -> exists c mf, c ∈ taken /\ mf ∈ olds_of c /\ b = basisOf mf;
  li_replaced : forall n, n ∈ jdReplaced j <-> n ∈ map mbName (jdReplaces j);
  li_replaces_nodup : NoDup (map mbName (jdReplaces j));
  li_existing : forall mf, mf ∈ jdExisting j -> exists c, c ∈ taken /\ mf ∈ existingFor i c;
  li_filled : (forall c, c ∈ taken -> nfPath (cnFile c) <> "") ->
    (forall k, is_Some (jdFilled j !! k) <-> exists c, c ∈ taken /\ single c /\ k ∈ cnKeys c)
    /\ (forall k v, jdFilled j !! k = Some v -> v <> "") /\ ForallOrdPairs apart taken;
}.

Lemma loop_inv_start cands rs : loop_inv cands [] (zero_judged rs).
Proof.
  assert (forall d, is_Some ((∅ : gmap string string) !! d) -> False) as He by (intros d; by rewrite lookup_empty; intros []).
  split; cbn [zero_judged jdMoves jdDests jdReplaces jdReplaced jdExisting jdFilled map];
    try (by constructor); try (intros ? ? % list.elem_of_nil; done).
  - intros d. split; [by intros ? % He | by intros ? % list.elem_of_nil].
  - intros _. split; [| split; [by intros k v; rewrite lookup_empty | constructor]].
    intros k. split; [by intros ? % He | by intros (? & ? % list.elem_of_nil & _)].
Qed.

Lemma appendUnique_In out add mf : mf ∈ appendUnique out add -> mf ∈ out \/ mf ∈ add.
Proof.
  revert out. induction add as [| a add IH]; intros out; cbn [appendUnique fold_left]; [auto |].
  intros [Ho | Ha] % IH; [| right; apply list.elem_of_cons; auto].
  unfold append_one in Ho. destruct (contains _ _); [auto |].
  apply list.elem_of_app in Ho as [? | -> % list_elem_of_singleton]; [auto |]. right. apply list.elem_of_cons. auto.
Qed.

Lemma pairs_snoc {A} (R : A -> A -> Prop) l x : ForallOrdPairs R l -> (forall a, a ∈ l -> R a x) -> ForallOrdPairs R (l ++ [x]).
Proof.
  intros Hl. induction Hl as [| a l Ha Hl IH]; intros Hx; cbn; [repeat constructor |].
  constructor; [| apply IH; intros; apply Hx, list.elem_of_cons; auto].
  apply list.Forall_app. split; [done | repeat constructor]. apply Hx, list.elem_of_cons. auto.
Qed.

Lemma basis_names l : map mbName (map basisOf l) = map mfName l.
Proof. induction l; cbn; congruence. Qed.

(** The items of a taken candidate were free, and are its own after. *)
Lemma filled_step taken j c m :
  (forall k, is_Some (jdFilled j !! k) <-> exists c, c ∈ taken /\ single c /\ k ∈ cnKeys c)
    /\ (forall k v, jdFilled j !! k = Some v -> v <> "") /\ ForallOrdPairs apart taken ->
  nfPath (cnFile c) <> "" -> filledBy c (jdFilled j) = "" ->
  m = (if multiFileKind (cnKind c) then jdFilled j
       else fold_left (fun m k => <[k := relPath root (nfPath (cnFile c))]> m) (cnKeys c) (jdFilled j)) ->
  (forall k, is_Some (m !! k) <-> exists c', c' ∈ taken ++ [c] /\ single c' /\ k ∈ cnKeys c')
    /\ (forall k v, m !! k = Some v -> v <> "") /\ ForallOrdPairs apart (taken ++ [c]).
Proof.
  intros (Hk & Hv & Hp) Hpath Hf ->. apply (relPath_nonempty root) in Hpath. unfold filledBy in Hf.
  destruct (multiFileKind (cnKind c)) eqn:Em.
  - split; [| split; [done |]].
    + intros k. rewrite Hk. split; intros (c' & Hc & Hs & Hi); exists c'; (split; [| done]).
      * apply list.elem_of_app. auto.
      * apply list.elem_of_app in Hc as [? | -> % list_elem_of_singleton]; [done |]. unfold single in Hs. congruence.
    + apply pairs_snoc; [done |]. intros a _ _ Hs. unfold single in Hs. congruence.
  - pose proof (filled_by_empty _ _ Hv Hf) as Hfree. split; [| split].
    + intros k. rewrite insert_all_lookup. destruct (bool_decide_reflect (k ∈ cnKeys c)) as [Hi | Hi].
      * split; [intros _ | done]. exists c. split; [apply list.elem_of_app; right; by apply list_elem_of_singleton | done].
      * rewrite Hk. split; intros (c' & Hc & Hs & Hi'); exists c'; (split; [| done]).
        -- apply list.elem_of_app. auto.
        -- apply list.elem_of_app in Hc as [? | -> % list_elem_of_singleton]; done.
    + intros k v. rewrite insert_all_lookup. case_bool_decide; [by intros [= <-] | apply Hv].
    + apply pairs_snoc; [done |]. intros a Ha Hs _ k Hka Hkc.
      assert (is_Some (jdFilled j !! k)) as [v Hv'] by (apply Hk; eauto). rewrite Hfree in Hv'; done.
Qed.

Lemma loop_inv_take cands taken j c : c ∈ cands -> loop_inv cands taken j -> taken_at j c ->
  loop_inv cands (taken ++ [c]) (take_candidate i root j c).
Proof.
  intros Hc [Ht Hm Hd Hdn Hr Hrd Hrn He Hf] Hok.
  destruct (take_candidate_spec j c) as (l & -> & Hin & Hnd & Hnew).
  pose proof (taken_checks j c Hok) as (Hx & Hx8 & _).
  split; cbn [jdMoves jdDests jdReplaces jdReplaced jdExisting jdFilled].
  - intros c' [Hc' | -> % list_elem_of_singleton] % list.elem_of_app; [by apply Ht |]. split; [done | by exists j].
  - by rewrite Hm, map_app.
  - intros d. rewrite map_app, list.elem_of_app, <- Hd. cbn [map]. rewrite list_elem_of_singleton.
    destruct (decide (d = nfDest (cnFile c))) as [-> | Hne].
    + rewrite lookup_insert_eq. split; [auto | done].
    + rewrite lookup_insert_ne by done. naive_solver.
  - rewrite map_app. apply list.NoDup_app. split; [done |]. split; [| apply NoDup_singleton].
    intros d Hin' Hd' % list_elem_of_singleton. subst d. apply Hd in Hin' as [v Hv].
    congruence.
  - intros b [Hb | Hb] % list.elem_of_app.
    + destruct (Hr b Hb) as (c' & mf & ? & ? & ?). exists c', mf. split; [apply list.elem_of_app; auto | done].
    + apply list_elem_of_fmap in Hb as (mf & -> & Hmf). exists c, mf.
      split; [apply list.elem_of_app; right; by apply list_elem_of_singleton | auto].
  - intros n. rewrite list.elem_of_app, map_app, list.elem_of_app, basis_names, Hrd.
    rewrite (list_elem_of_In (rev _)), <- in_rev, <- list_elem_of_In. tauto.
  - rewrite map_app, basis_names. apply list.NoDup_app. split; [done |]. split; [| done].
    intros n Hn Hl. apply Hrd in Hn. apply list_elem_of_fmap in Hl as (mf & -> & Hmf). by apply (Hnew mf).
  - intros mf Hmf. assert (mf ∈ jdExisting j \/ mf ∈ existingFor i c) as [Ho | Ho].
    { destruct (multiFileKind _); [by apply appendUnique_In | auto]. }
    + destruct (He mf Ho) as (c' & ? & ?). exists c'. split; [apply list.elem_of_app; auto | done].
    + exists c. split; [apply list.elem_of_app; right; by apply list_elem_of_singleton | done].
  - intros Hpath. apply (filled_step taken j c); [| | | done].
    + apply Hf. intros c' Hc'. apply Hpath, list.elem_of_app. auto.
    + apply Hpath, list.elem_of_app. right. by apply list_elem_of_singleton.
    + done.
Qed.

Lemma loop_inv_holds cands rs : exists taken,
  loop_inv cands taken (fold_left (judge i ov prof root insp) cands (zero_judged rs)).
Proof.
  apply (judge_ind (fun j => exists taken, loop_inv cands taken j)).
  - intros j r (taken & [? ? ? ? ? ? ? ? ?]). exists taken. by split.
  - intros j c Hc (taken & Hinv) Hok. exists (taken ++ [c]). by apply loop_inv_take.
  - exists []. apply loop_inv_start.
Qed.
End loop.

(** ** The gate and a transcoded file *)

(** What lets an automatic grab replace a transcoded file: this entry's own
    earlier attempt, a wanted audio language, the profile's bitrate range, an
    undecodable video, or a season pack over single episodes. *)
Definition exception (prof : Profile) (original : string) (e : DownloadEntry) (c : candidate) (compared : list MediaFile) :
    Prop :=
  nonVideoKind (cnKind c) = false
  /\ (fst (audioFill prof original compared (nfProbe (cnFile c))) = true
      \/ refits prof original e c compared (default zero_Quality (ffQuality (nfFrozen (cnFile c)))) = true).

Lemma gate_final prof original e rel c compared m mf : gate prof original e rel c compared m = None ->
  userChosen e m = false -> mf ∈ compared -> Final mf = true -> exception prof original e c compared.
Proof.
  intros Hg Hu Hmf Hf. unfold exception.
  assert (gate_rules prof original e rel c compared (default zero_Quality (ffQuality (nfFrozen (cnFile c)))) m <> None) as Hr.
  { unfold gate_rules. destruct (first_some _ compared) eqn:Es; [done |]. apply first_some_None in Es.
    rewrite list.Forall_forall in Es. specialize (Es mf Hmf). unfold transcodedRejection in Es. by rewrite Hf, Hu in Es. }
  unfold gate in Hg. cbv zeta in Hg. destruct (nonVideoKind (cnKind c)); cbn [negb] in Hg.
  { destruct m; cbn in Hg; done. }
  split; [done |]. destruct (audioFill _ _ _ _) as [fills mis]. cbn [fst].
  destruct (if m then None else mis); [done |]. destruct fills; [auto |].
  destruct (true && _ && _); [done |]. cbn [andb] in Hg. destruct (refits _ _ _ _ _ _); [auto | done].
Qed.

Lemma settle_set_auto i ov kind j : eManual (npEntry i) || ov = false -> settle_set i ov kind j = j.
Proof. intros Hm. unfold settle_set. by rewrite Hm. Qed.

(** ** What a plan is *)

Lemma in_compared mf have e : mf ∈ have -> mf ∈ comparedFiles have e \/ ownEarlierAttempt mf e = true.
Proof.
  intros Hm. destruct (ownEarlierAttempt mf e) eqn:E; [auto |]. left.
  apply list_elem_of_In, filter_In. rewrite E. split; [by apply list_elem_of_In | done].
Qed.

(** C22.  Everything an approved plan of files for items places or recycles lies
    strictly inside the root folder the inspection names: each file's
    destination and each file the agent would recycle. The plan of an audio
    donor is not one of these: [planDonor] checks no such thing of where it puts
    the donor's file. *)
Theorem plan_inside_root i ov insp pl note : planFrom i ov (Some insp) = Planned pl note -> donor i = false ->
  ipnRootFolder pl = isnRootFolder insp
  /\ (forall mv, mv ∈ ipnMoves pl -> inside (mvDest mv) (ipnRootFolder pl))
  /\ (forall b, b ∈ ipnReplaces pl -> inside (mbPath b) (ipnRootFolder pl)).
Proof.
  intros Hp Hd. destruct (planFrom_judged _ _ _ _ _ Hp Hd) as (prof & kind & rs & _ & _ & Hm & _ & Hroot & Ho & _).
  split; [done |]. rewrite Hroot. split.
  - intros mv Hmv. rewrite Hm in Hmv.
    destruct (loop_inv_holds i ov prof insp (candidates i prof insp) rs) as (taken & Hinv).
    rewrite (li_moves _ _ _ _ _ _ _ Hinv) in Hmv. apply list_elem_of_fmap in Hmv as (c & -> & Hc).
    apply (li_taken _ _ _ _ _ _ _ Hinv) in Hc as (_ & j & Hj). apply taken_checks in Hj as (_ & _ & Hpass).
    destruct Hpass as (_ & _ & _ & _ & _ & Hin). apply StrictlyUnder_iff. by apply andb_true_iff in Hin as [_ Hin].
  - intros b Hb. unfold outsideRoot in Ho. apply list_elem_of_In in Hb. apply (find_none _ _ Ho) in Hb.
    apply negb_false_iff in Hb. apply StrictlyUnder_iff. by apply andb_true_iff in Hb as [_ Hb].
Qed.

(** Each file an approved plan places is a candidate of the inspection that
    passed every check: its quality allowed unless a person overrides, decodable
    and not Dolby Vision unless a person asked, every part of its set joined, and
    past the gate against the files it replaces. *)
Theorem plan_passes i ov insp pl note : planFrom i ov (Some insp) = Planned pl note -> donor i = false ->
  exists prof, npProfile i = Some prof
    /\ forall mv, mv ∈ ipnMoves pl -> exists c, c ∈ candidates i prof insp /\ mv = placed c /\ passes i ov prof insp c.
Proof.
  intros Hp Hd. destruct (planFrom_judged _ _ _ _ _ Hp Hd) as (prof & kind & rs & Hprof & _ & Hm & _).
  exists prof. split; [done |]. intros mv Hmv.
  destruct (loop_inv_holds i ov prof insp (candidates i prof insp) rs) as (taken & Hinv).
  rewrite Hm, (li_moves _ _ _ _ _ _ _ Hinv) in Hmv. apply list_elem_of_fmap in Hmv as (c & -> & Hc).
  exists c. apply (li_taken _ _ _ _ _ _ _ Hinv) in Hc as (Hc & j & Hj). by apply taken_checks in Hj as (_ & _ & ?).
Qed.

(** C2.  A transcoded file is final: an import nobody chose replaces one only as
    an earlier attempt of the very same entry, or under one of the gate's
    exceptions; every file it replaces is one its items have. *)
Theorem plan_final i ov insp pl note : planFrom i ov (Some insp) = Planned pl note -> donor i = false ->
  userChosen (npEntry i) (eManual (npEntry i) || ov) = false ->
  exists prof, npProfile i = Some prof
    /\ forall b, b ∈ ipnReplaces pl -> exists c mf, c ∈ candidates i prof insp /\ mf ∈ existingFor i c /\ b = basisOf mf
         /\ (Final mf = true -> ownEarlierAttempt mf (npEntry i) = true
             \/ exception prof (npOriginalLanguage i) (npEntry i) c (comparedFiles (existingFor i c) (npEntry i))).
Proof.
  intros Hp Hd Hu. destruct (planFrom_judged _ _ _ _ _ Hp Hd) as (prof & kind & rs & Hprof & _ & _ & Hr & _).
  exists prof. split; [done |]. intros b Hb.
  assert (eManual (npEntry i) || ov = false) as Hauto by (unfold userChosen in Hu; by apply orb_false_iff in Hu as [? _]).
  destruct (loop_inv_holds i ov prof insp (candidates i prof insp) rs) as (taken & Hinv).
  rewrite Hr, settle_set_auto in Hb by done. apply (li_replaces _ _ _ _ _ _ _ Hinv) in Hb as (c & mf & Hc & Hmf & ->).
  apply olds_of_existing in Hmf as [_ Hmf]. exists c, mf.
  apply (li_taken _ _ _ _ _ _ _ Hinv) in Hc as (Hc & j & Hj). repeat (split; [done |]). intros Hf.
  destruct (in_compared mf _ (npEntry i) Hmf) as [Hcmp | ?]; [right | by left].
  apply taken_checks in Hj as (_ & _ & _ & _ & _ & _ & Hg & _).
  by eapply gate_final.
Qed.
End facts.

(** ** On the example *)

Lemma plan_inside_root_witness : ipnRootFolder im_plan = im_root
  /\ (forall mv, mv ∈ ipnMoves im_plan -> inside (mvDest mv) im_root)
  /\ (forall b, b ∈ ipnReplaces im_plan -> inside (mbPath b) im_root).
Proof. by apply (plan_inside_root im_input false im_inspection im_plan "" im_planned). Defined.

Lemma plan_passes_witness : exists prof, npProfile im_input = Some prof
  /\ forall mv, mv ∈ ipnMoves im_plan -> exists c, c ∈ candidates im_input prof im_inspection /\ mv = placed c
       /\ passes im_input false prof im_inspection c.
Proof. by apply (plan_passes im_input false im_inspection im_plan "" im_planned). Defined.

Lemma plan_final_witness : exists prof, npProfile im_input = Some prof
  /\ forall b, b ∈ ipnReplaces im_plan -> exists c mf, c ∈ candidates im_input prof im_inspection
       /\ mf ∈ existingFor im_input c /\ b = basisOf mf
       /\ (Final mf = true -> ownEarlierAttempt mf (npEntry im_input) = true
           \/ exception prof (npOriginalLanguage im_input) (npEntry im_input) c
                (comparedFiles (existingFor im_input c) (npEntry im_input))).
Proof. by apply (plan_final im_input false im_inspection im_plan "" im_planned). Defined.
