(* ===== verification/ImportParts.v ===== *)
(** * ImportParts: which files are placed, and that a film in parts loses none

    The candidates are sorted and each item takes the best that passes, no two
    files going to one path or one item. [foldParts] joins the parts of a film
    into one candidate: the files its candidates are made of are exactly those
    it was given, each once. *)

From S2P Require Import Prelude GoLang GoFacts Paths Ledger Api Events LcView GoFloat Subjects Names Records Quality.
From S2P Require Import Sizes Release Languages Coverage Identity Accept Media Evaluate ImportRules ImportChecks.
From S2P Require Import ImportPlanning ImportFacts.
From Stdlib Require Import Ascii Sorted.

(** The candidates' order is a total preorder and [sortCandidates] sorts by it,
    so a file that passes every check and is left behind gives way to one at
    least as good. *)

(** ** The order *)

(** No worse: an allowed quality before one that is not, then the earlier tier,
    the higher revision, the more real one, and the larger file. *)
Definition rank_le (a b : candidateRank) : Prop :=
  (ckAllowed a = true /\ ckAllowed b = false)
  \/ (ckAllowed a = ckAllowed b
      /\ (ckTier a < ckTier b \/ (ckTier a = ckTier b
      /\ (ckVersion b < ckVersion a \/ (ckVersion a = ckVersion b
      /\ (ckReal b < ckReal a \/ (ckReal a = ckReal b /\ ckSize b <= ckSize a))))))).
Definition no_worse (c d : candidate) : Prop := rank_le (cnRank c) (cnRank d).

Lemma rank_le_iff a b : compareRank a b <= 0 <-> rank_le a b.
Proof.
  unfold rank_le, compareRank, compare_Z.
  destruct a as [aa at_ av ar as_], b as [ba bt bv br bs]. cbn [ckAllowed ckTier ckVersion ckReal ckSize].
  destruct aa, ba; cbn [Bool.eqb negb]; try (split; [intros ?; lia | intros [[? ?] | [? _]]; done]); try (by split; [auto | lia]).
  all: destruct (Z.eqb_spec at_ bt); cbn [negb];
    [destruct (Z.eqb_spec av bv); cbn [negb]; [destruct (Z.eqb_spec ar br); cbn [negb] |] |];
    repeat match goal with |- context [?x <? ?y] => destruct (Z.ltb_spec x y) end;
    (split; [intros ?; right; split; [done | lia] | intros [[? ?] | [_ ?]]; [done | lia]]).
Qed.

Lemma rank_le_total a b : rank_le a b \/ rank_le b a.
Proof. unfold rank_le. destruct (ckAllowed a), (ckAllowed b); intuition lia. Qed.
#[export] Instance rank_le_trans : Transitive rank_le.
Proof.
  intros a b c. unfold rank_le. destruct (ckAllowed a), (ckAllowed b), (ckAllowed c); intuition (try done; try lia).
Qed.
#[export] Instance no_worse_trans : Transitive no_worse.
Proof. intros a b c. apply rank_le_trans. Qed.

Lemma insert_candidate_perm c cs : Permutation (insert_candidate c cs) (c :: cs).
Proof.
  induction cs as [| d cs IH]; cbn; [done |]. destruct (_ <=? 0); [done |].
  rewrite IH. apply perm_swap.
Qed.
Lemma sortCandidates_perm cs : Permutation (sortCandidates cs) cs.
Proof. induction cs as [| c cs IH]; cbn; [done |]. by rewrite insert_candidate_perm, IH. Qed.

Lemma insert_candidate_sorted c cs : StronglySorted no_worse cs -> StronglySorted no_worse (insert_candidate c cs).
Proof.
  induction 1 as [| d cs Hs IH Hd]; cbn; [repeat constructor |].
  destruct (Z.leb_spec (compareRank (cnRank c) (cnRank d)) 0) as [Hle | Hgt].
  - assert (no_worse c d) as Hcd by (by apply rank_le_iff).
    constructor; [by constructor |]. constructor; [done |].
    eapply list.Forall_impl; [exact Hd |]. intros x Hx. by transitivity d.
  - constructor; [done |]. apply list.Forall_forall. intros x Hx.
    apply list_elem_of_In, (Permutation_in x (insert_candidate_perm c cs)) in Hx as [<- | Hx].
    + destruct (rank_le_total (cnRank c) (cnRank d)) as [Hle |]; [apply rank_le_iff in Hle; lia | done].
    + rewrite list.Forall_forall in Hd. by apply Hd, list_elem_of_In.
Qed.
Lemma sortCandidates_sorted cs : StronglySorted no_worse (sortCandidates cs).
Proof. induction cs as [| c cs IH]; cbn; [constructor | by apply insert_candidate_sorted]. Qed.

(** ** The loop, complete *)

Section best.
Context `{Unicode} `{Quote} `{TextTables} `{TagParser} `{Patterns} `{FloatToInt} `{RangeOrder}.
Variable i : Input.
Variable ov : bool.
Variable prof : Profile.
Variable insp : ImportInspection.

(** Nothing refuses the candidate where no other has been taken. *)
Definition fit (c : candidate) : Prop := taken_at i ov prof insp (zero_judged []) c.

(** What it gives way to: one no worse, for one of its items or at its path. *)
Definition gives_way (c c0 : candidate) : Prop :=
  no_worse c0 c
  /\ ((exists k, k ∈ cnKeys c0 /\ k ∈ cnKeys c) \/ nfDest (cnFile c0) = nfDest (cnFile c)).

Definition settled_with (taken : list candidate) (c : candidate) : Prop :=
  c ∈ taken \/ exists c0, c0 ∈ taken /\ gives_way c c0.

Lemma fit_taken j c : fit c -> filledBy c (jdFilled j) = "" -> jdDests j !! nfDest (cnFile c) = None ->
  taken_at i ov prof insp j c.
Proof.
  unfold fit, taken_at, judge_refusals. cbv zeta. intros Hf Hfill Hdest.
  repeat match type of Hf with Forall _ (_ :: _) => apply list.Forall_cons in Hf as [? Hf] end.
  rewrite Hfill, Hdest. repeat constructor; assumption.
Qed.

Lemma settled_with_app taken l c : settled_with taken c -> settled_with (taken ++ l) c.
Proof.
  intros [Hc | (c0 & Hc & Hg)]; [left | right; exists c0; split; [| done]]; apply list.elem_of_app; auto.
Qed.

Lemma filled_by_some keys (m : gmap string string) : filled_by keys m <> "" ->
  exists k, k ∈ keys /\ is_Some (m !! k).
Proof.
  induction keys as [| k keys IH]; cbn; [done |]. destruct (m !! k) as [v |] eqn:E.
  - intros _. exists k. split; [apply list.elem_of_cons; auto | by rewrite E].
  - intros Hf. destruct (IH Hf) as (k' & ? & ?). exists k'. split; [apply list.elem_of_cons; auto | done].
Qed.

Lemma loop_settles cs pre j taken :
  StronglySorted no_worse (pre ++ cs) -> (forall c, c ∈ pre ++ cs -> nfPath (cnFile c) <> "" /\ single c) ->
  loop_inv i ov prof insp pre taken j -> (forall c, c ∈ pre -> fit c -> settled_with taken c) ->
  exists taken', loop_inv i ov prof insp (pre ++ cs) taken' (fold_left (judge i ov prof (content_root i) insp) cs j)
    /\ (forall c, c ∈ pre ++ cs -> fit c -> settled_with taken' c).
Proof.
  revert pre j taken. induction cs as [| c cs IH]; intros pre j taken Hsort Hok Hinv Hset; cbn [fold_left].
  { rewrite app_nil_r. by exists taken. }
  assert (pre ++ c :: cs = (pre ++ [c]) ++ cs) as Eapp by (by rewrite <- app_assoc).
  assert (forall taken j', loop_inv i ov prof insp pre taken j' -> loop_inv i ov prof insp (pre ++ [c]) taken j') as Hweak.
  { intros t j' [Ht ? ? ? ? ? ? ? ?]. split; try done. intros c' Hc'. destruct (Ht c' Hc'). split; [| done].
    apply list.elem_of_app. auto. }
  assert (forall c0, c0 ∈ taken -> no_worse c0 c) as Hbefore.
  { intros c0 Hc0. apply (li_taken _ _ _ _ _ _ _ Hinv) in Hc0 as [Hc0 _].
    clear - Hsort Hc0. induction pre as [| d pre IHp]; [by apply list.elem_of_nil in Hc0 |].
    apply list.elem_of_cons in Hc0 as [-> | Hc0]; inversion Hsort as [| ? ? Hs Hd]; subst; [| by apply IHp].
    rewrite list.Forall_forall in Hd. apply Hd, list.elem_of_app. right. apply list.elem_of_cons. auto. }
  rewrite Eapp in *. unfold judge at 2.
  destruct (first_some id (judge_refusals i ov prof (content_root i) insp j c)) as [r |] eqn:Er.
  - apply (IH _ _ taken); [done | done | |].
    + destruct (Hweak _ _ Hinv) as [? ? ? ? ? ? ? ? ?]. by split.
    + intros c' [Hc' | -> % list_elem_of_singleton] % list.elem_of_app Hfit; [by apply Hset |]. right.
      assert (c ∈ (pre ++ [c]) ++ cs) as Hin.
      { apply list.elem_of_app. left. apply list.elem_of_app. right. by apply list_elem_of_singleton. }
      destruct (Hok c Hin) as [_ Hsingle].
      destruct (String.eqb_spec (filledBy c (jdFilled j)) "") as [Hfill | Hfill].
      * destruct (jdDests j !! nfDest (cnFile c)) as [o |] eqn:Ed.
        -- assert (nfDest (cnFile c) ∈ map (fun c => nfDest (cnFile c)) taken) as Hd
             by (apply (li_dests _ _ _ _ _ _ _ Hinv); by rewrite Ed).
           apply list_elem_of_fmap in Hd as (c0 & Hd & Hc0). exists c0. split; [done |]. split; [by apply Hbefore | auto].
        -- assert (first_some id (judge_refusals i ov prof (content_root i) insp j c) = None) as En
             by (apply first_some_None; by apply fit_taken).
           congruence.
      * unfold filledBy in Hfill. rewrite Hsingle in Hfill. apply filled_by_some in Hfill as (k & Hk & Hv).
        destruct (li_filled _ _ _ _ _ _ _ Hinv) as (Hfilled & _).
        { intros c1 Hc1. apply (li_taken _ _ _ _ _ _ _ Hinv) in Hc1 as [Hc1 _]. apply Hok.
          apply list.elem_of_app. left. apply list.elem_of_app. auto. }
        apply Hfilled in Hv as (c0 & Hc0 & _ & Hk0). exists c0. split; [done |]. split; [by apply Hbefore | eauto].
  - apply (IH _ _ (taken ++ [c])); [done | done | |].
    + apply loop_inv_take; [| by apply Hweak | by apply first_some_None].
      apply list.elem_of_app. right. by apply list_elem_of_singleton.
    + intros c' [Hc' | -> % list_elem_of_singleton] % list.elem_of_app Hfit.
      * apply settled_with_app. by apply Hset.
      * left. apply list.elem_of_app. right. by apply list_elem_of_singleton.
Qed.
End best.

(** ** Groups of parts *)

Definition key_at (cs : list candidate) (k : string) (n : nat) : Prop :=
  (n < length cs)%nat /\ cnKeys (at_index cs n) = [k].

(** An item's positions: each once, each a candidate of that item alone. *)
Lemma by_item_spec cs : forall n k l, by_item n cs !! k = Some l ->
  NoDup l /\ forall j, j ∈ l -> (n <= j)%nat /\ key_at cs k (j - n).
Proof.
  induction cs as [| c cs IH]; intros n k l; cbn [by_item].
  { by rewrite lookup_empty. }
  assert (forall l, by_item (S n) cs !! k = Some l ->
    NoDup l /\ forall j, j ∈ l -> (n <= j)%nat /\ key_at (c :: cs) k (j - n)) as Htail.
  { intros l' (Hnd & Hj) % IH. split; [done |]. intros j Hin. destruct (Hj j Hin) as (Hle & Hlt & Hk).
    split; [lia |]. unfold key_at, at_index in *. replace (j - n)%nat with (S (j - S n)) by lia. cbn. split; [lia | done]. }
  destruct (cnKeys c) as [| k0 [| k1 ks]] eqn:Ek; [apply Htail | | apply Htail].
  destruct (String.eqb (cnKind c) MediaKindMovie && _); [| apply Htail].
  destruct (decide (k0 = k)) as [-> | Hne]; [| rewrite lookup_insert_ne by done; apply Htail].
  rewrite lookup_insert_eq. intros [= <-].
  assert (NoDup (default [] (by_item (S n) cs !! k))
    /\ forall j, j ∈ default [] (by_item (S n) cs !! k) -> (n < j)%nat /\ key_at (c :: cs) k (j - n)) as (Hnd & Hj).
  { destruct (by_item (S n) cs !! k) as [l |] eqn:El; cbn; [| split; [constructor | by intros j ? % list.elem_of_nil]].
    destruct (Htail l eq_refl) as [Hnd Hj]. split; [done |]. intros j Hin. split; [| by apply Hj].
    apply IH in El as [_ El]. destruct (El j Hin). lia. }
  split.
  - constructor; [| done]. intros Hin % Hj. lia.
  - intros j [-> | Hin] % list.elem_of_cons.
    + split; [lia |]. rewrite Nat.sub_diag. split; [cbn; lia | done].
    + destruct (Hj j Hin). split; [lia | done].
Qed.

Definition number (cs : list candidate) (n : nat) : Z := default 0 (partOf (at_index cs n)).

Lemma by_number_spec cs idx : forall m m', by_number cs idx m = Some m' ->
  forall n j, m' !! n = Some j -> m !! n = Some j \/ (j ∈ idx /\ number cs j = n).
Proof.
  induction idx as [| i0 idx IH]; intros m m'; cbn [by_number]; [intros [= ->]; auto |].
  destruct (m !! _) eqn:E; [done |]. intros Hm n j Hj. apply (IH _ _ Hm) in Hj as [Hj | [Hin Hn]].
  - destruct (decide (number cs i0 = n)) as [Hn | Hn].
    + unfold number in Hn. rewrite Hn, lookup_insert_eq in Hj. injection Hj as <-. right.
      split; [apply list.elem_of_cons; auto | done].
    + rewrite lookup_insert_ne in Hj by done. auto.
  - right. split; [apply list.elem_of_cons; auto | done].
Qed.

Lemma in_order_spec m count : forall n out, in_order m n count = Some out ->
  length out = count /\ forall j x, out !! j = Some x -> m !! (n + Z.of_nat j) = Some x.
Proof.
  induction count as [| count IH]; intros n out; cbn [in_order]; [intros [= <-]; done |].
  destruct (m !! n) as [x |] eqn:E; [| done]. destruct (in_order m (n + 1) count) as [l |] eqn:El; [| done].
  intros [= <-]. destruct (IH _ _ El) as [Hl Hj]. split; [cbn; lia |]. intros [| j] y; cbn.
  - intros [= <-]. by rewrite Z.add_0_r.
  - intros Hy. rewrite <- (Hj j y Hy). f_equal. lia.
Qed.

(** The parts in order are the item's positions. *)
Lemma orderedParts_perm cs idx out : orderedParts cs idx = Some out -> Permutation out idx /\ (2 <= length out)%nat.
Proof.
  unfold orderedParts. destruct (Nat.ltb_spec (length idx) 2) as [| Hlen]; [done |].
  destruct (by_number cs idx ∅) as [m |] eqn:Em; [| done].
  destruct (in_order m 1 (length idx)) as [out' |] eqn:Eo; [| done]. cbv zeta.
  destruct (forallb _ _); [| done]. intros [= ->].
  destruct (in_order_spec _ _ _ _ Eo) as [Hl Hj]. split; [| lia].
  assert (forall j x, out !! j = Some x -> x ∈ idx /\ number cs x = 1 + Z.of_nat j) as Hout.
  { intros j x Hx. apply Hj in Hx. apply (by_number_spec _ _ _ _ Em) in Hx as [Hx |]; [by rewrite lookup_empty in Hx | done]. }
  apply NoDup_Permutation_bis.
  - apply NoDup_ListNoDup, NoDup_alt. intros a b x Ha Hb. apply Hout in Ha as [_ Ha]. apply Hout in Hb as [_ Hb]. lia.
  - lia.
  - intros x Hx. apply list_elem_of_In, list_elem_of_lookup in Hx as [j Hx]. apply list_elem_of_In. by apply (Hout j).
Qed.

(** ** Folding *)

Definition at_all (cs : list candidate) (l : list nat) : list candidate := map (at_index cs) l.

Lemma unfolded_spec cs0 folded : forall pre cs, cs0 = pre ++ cs ->
  unfolded (length pre) cs folded = at_all cs0 (filter (fun n => n ∉ folded) (seq (length pre) (length cs))).
Proof.
  intros pre cs. revert pre. induction cs as [| c cs IH]; intros pre ->; cbn [unfolded length seq]; [done |].
  assert (at_index (pre ++ c :: cs) (length pre) = c) as Hc.
  { unfold at_index. rewrite app_nth2, Nat.sub_diag by lia. done. }
  specialize (IH (pre ++ [c])). rewrite length_app, Nat.add_1_r in IH. rewrite <- app_assoc in IH. specialize (IH eq_refl).
  rewrite filter_cons. destruct (bool_decide_reflect (length pre ∈ folded)); case_decide; try done.
  cbn [at_all map]. by rewrite Hc, IH.
Qed.

Lemma unfolded_perm cs folded : NoDup folded -> (forall n, n ∈ folded -> (n < length cs)%nat) ->
  Permutation (unfolded 0 cs folded ++ at_all cs folded) cs.
Proof.
  intros Hnd Hlt. pose proof (unfolded_spec cs folded [] cs eq_refl) as Hu. cbn [length] in Hu. rewrite Hu. unfold at_all.
  rewrite <- map_app.
  assert (Permutation (filter (fun n => n ∉ folded) (seq 0 (length cs)) ++ folded) (seq 0 (length cs))) as Hp.
  { apply NoDup_Permutation.
    - apply list.NoDup_app. split; [apply list.NoDup_filter, NoDup_ListNoDup, seq_NoDup |].
      split; [| done]. intros n Hn. by apply list_elem_of_filter in Hn as [? _].
    - apply NoDup_ListNoDup, seq_NoDup.
    - intros n. rewrite list.elem_of_app, list_elem_of_filter, !list_elem_of_In, in_seq,
        <- !list_elem_of_In. split; [intros [[_ ?] | Hn % Hlt]; lia |].
      intros Hn. destruct (decide (n ∈ folded)); auto. }
  rewrite Hp. clear. assert (forall pre cs0, cs0 = pre ++ cs -> map (at_index cs0) (seq (length pre) (length cs)) = cs) as Hmap;
    [| by rewrite <- (Hmap [] cs eq_refl) at 3].
  induction cs as [| c cs IH]; intros pre cs0 ->; cbn [length seq map]; [done |]. f_equal.
  - unfold at_index. rewrite app_nth2, Nat.sub_diag by lia. done.
  - specialize (IH (pre ++ [c])). rewrite length_app, Nat.add_1_r in IH. apply IH. by rewrite <- app_assoc.
Qed.

(** The groups of different items share no position. *)
Lemma groups_nodup cs (kvs : list (string * list nat)) : NoDup (map fst kvs) ->
  (forall kv, kv ∈ kvs -> NoDup kv.2 /\ forall n, n ∈ kv.2 -> key_at cs kv.1 n) ->
  let groups := omap (fun kv => orderedParts cs (snd kv)) kvs in
  NoDup (concat groups)
  /\ (forall n, n ∈ concat groups -> exists kv, kv ∈ kvs /\ n ∈ kv.2)
  /\ (forall g, g ∈ groups -> (2 <= length g)%nat).
Proof.
  induction kvs as [| [k l] kvs IH]; intros Hnd Hok; cbv zeta.
  { split; [constructor |]. split; [by intros n ? % list.elem_of_nil | by intros g ? % list.elem_of_nil]. }
  cbn [map fst] in Hnd. inversion Hnd as [| ? ? Hk Hnd']; subst.
  destruct IH as (IHnd & IHin & IHlen); [done | intros; apply Hok, list.elem_of_cons; auto |].
  destruct (Hok (k, l)) as [Hl Hkey]; [apply list.elem_of_cons; auto |]. cbn [fst snd] in *.
  change (omap (fun kv => orderedParts cs (snd kv)) ((k, l) :: kvs))
    with (match orderedParts cs l with Some g => g :: omap (fun kv => orderedParts cs (snd kv)) kvs
                                     | None => omap (fun kv => orderedParts cs (snd kv)) kvs end).
  destruct (orderedParts cs l) as [g |] eqn:Eg.
  - destruct (orderedParts_perm _ _ _ Eg) as [Hp Hlen]. cbn [concat]. split; [| split].
    + apply list.NoDup_app. split; [by rewrite Hp |]. split; [| done]. intros n Hn Hc.
      apply IHin in Hc as ([k' l'] & Hkv & Hn'). rewrite Hp in Hn. apply Hkey in Hn as [_ Hn].
      destruct (Hok (k', l')) as [_ Hkey']; [apply list.elem_of_cons; auto |]. cbn in Hn', Hkey'.
      apply Hkey' in Hn' as [_ Hn']. rewrite Hn in Hn'. injection Hn' as ->.
      apply Hk, list_elem_of_fmap. by exists (k', l').
    + intros n [Hn | Hn] % list.elem_of_app.
      * exists (k, l). split; [apply list.elem_of_cons; auto |]. by rewrite Hp in Hn.
      * destruct (IHin n Hn) as (kv & ? & ?). exists kv. split; [apply list.elem_of_cons; auto | done].
    + intros g' [-> | Hg] % list.elem_of_cons; [done | by apply IHlen].
  - split; [done | split; [| done]]. intros n Hn. destruct (IHin n Hn) as (kv & ? & ?). exists kv.
    split; [apply list.elem_of_cons; auto | done].
Qed.

Section fold.
Context `{RangeOrder}.

Lemma fold_groups cs :
  let groups := omap (fun kv => orderedParts cs (snd kv)) (range (by_item 0 cs)) in
  NoDup (concat groups) /\ (forall n, n ∈ concat groups -> (n < length cs)%nat)
  /\ (forall g, g ∈ groups -> (2 <= length g)%nat).
Proof.
  cbv zeta. assert (forall kv, kv ∈ range (by_item 0 cs) -> by_item 0 cs !! kv.1 = Some kv.2) as Hkv.
  { intros [k l] Hin. rewrite range_perm in Hin. by apply elem_of_map_to_list in Hin. }
  destruct (groups_nodup cs (range (by_item 0 cs))) as (Hnd & Hin & Hlen).
  - rewrite range_perm. apply NoDup_fst_map_to_list.
  - intros kv Hin. apply Hkv, by_item_spec in Hin as [Hnd Hj]. split; [done |]. intros n Hn.
    destruct (Hj n Hn) as [_ Hk]. by rewrite Nat.sub_0_r in Hk.
  - split; [done | split; [| done]]. intros n Hn. apply Hin in Hn as (kv & Hk & Hn).
    apply Hkv, by_item_spec in Hk as [_ Hj]. destruct (Hj n Hn) as [_ [Hlt _]]. lia.
Qed.

(** The files a candidate is made of. *)
Definition sources (c : candidate) : list string := match cnJoin c with [] => [nfPath (cnFile c)] | l => l end.

Lemma join_sources cs g : (2 <= length g)%nat ->
  sources (join_parts cs g) = map (fun n => nfPath (cnFile (at_index cs n))) g.
Proof. intros Hg. destruct g as [| a g]; [cbn in Hg; lia |]. by destruct (at_index cs a). Qed.

(** C30.  Joining a film's parts loses no file and takes none twice: the files the
    folded candidates are made of are the files of those given, whatever order
    the items are gone through in. *)
Theorem parts_conserved cs : Forall (fun c => cnJoin c = []) cs ->
  Permutation (concat (map sources (foldParts cs))) (map (fun c => nfPath (cnFile c)) cs).
Proof.
  intros Hj. assert (forall l, Forall (fun c => cnJoin c = []) l ->
    concat (map sources l) = map (fun c => nfPath (cnFile c)) l) as Hplain.
  { induction 1 as [| c l Hc _ IH]; [done |]. cbn. unfold sources at 1. by rewrite Hc, IH. }
  destruct (fold_groups cs) as (Hnd & Hlt & Hlen). unfold foldParts.
  destruct (omap (fun kv => orderedParts cs (snd kv)) (range (by_item 0 cs))) as [| g0 gs0] eqn:Eg; [by rewrite Hplain |].
  rewrite <- Eg in *. clear Eg g0 gs0. set (groups := omap _ _) in *. clearbody groups.
  pose proof (unfolded_perm cs (concat groups) Hnd Hlt) as Hp.
  rewrite map_app, concat_app.
  transitivity (map (fun c => nfPath (cnFile c)) (unfolded 0 cs (concat groups) ++ at_all cs (concat groups)));
    [| by apply Permutation_map].
  rewrite map_app. apply Permutation_app.
  - rewrite Hplain; [done |]. apply list.Forall_forall. intros c Hc. rewrite list.Forall_forall in Hj. apply Hj.
    rewrite <- Hp. apply list.elem_of_app. auto.
  - clear - Hlen. induction groups as [| g gs IH]; [done |]. cbn [map concat at_all]. unfold at_all in *. rewrite !map_app.
    apply Permutation_app; [| apply IH; intros; apply Hlen, list.elem_of_cons; auto].
    rewrite join_sources by (apply Hlen, list.elem_of_cons; auto). by rewrite map_map.
Qed.

(** A folded candidate is of the kind, at the path, for the item and of the rank
    of one it was given: a film of its first part. *)
Lemma foldParts_from cs c : c ∈ foldParts cs ->
  exists c0, c0 ∈ cs /\ cnKind c = cnKind c0 /\ nfPath (cnFile c) = nfPath (cnFile c0)
    /\ nfProposed (cnFile c) = nfProposed (cnFile c0) /\ cnRank c = cnRank c0.
Proof.
  destruct (fold_groups cs) as (Hnd & Hlt & Hlen). unfold foldParts.
  destruct (omap (fun kv => orderedParts cs (snd kv)) (range (by_item 0 cs))) as [| g0 gs0] eqn:Eg; [intros ?; by exists c |].
  rewrite <- Eg in *. clear Eg g0 gs0. set (groups := omap _ _) in *. clearbody groups.
  pose proof (unfolded_perm cs (concat groups) Hnd Hlt) as Hp. intros [Hc | Hc] % list.elem_of_app.
  - exists c. split; [| done]. rewrite <- Hp. apply list.elem_of_app. auto.
  - apply list_elem_of_fmap in Hc as (g & -> & Hg). specialize (Hlen g Hg). exists (at_index cs (hd O g)). split.
    + apply list_elem_of_In, (Permutation_in _ Hp), list_elem_of_In, list.elem_of_app. right.
      apply list_elem_of_fmap. exists (hd O g). split; [done |].
      apply list_elem_of_In, in_concat. exists g. split; [by apply list_elem_of_In |].
      destruct g as [| a g]; [cbn in Hlen; lia |]. by apply in_eq.
    + by split.
Qed.
End fold.

(** ** The candidates of an inspection *)

Section candidates.
Context `{Unicode} `{Quote} `{TextTables} `{TagParser} `{Patterns} `{FloatToInt} `{RangeOrder}.

Lemma collect_spec prof root files : forall rs cands kind rs' cands' kind' (P : candidate -> Prop) (K : string -> Prop),
  collect prof root files rs cands kind = (rs', cands', kind') ->
  (forall c, c ∈ cands -> P c) -> K kind ->
  (forall f t, f ∈ files -> nfProposed f = Some t ->
     P (mkCandidate_ f (MediaKindOf (irKind t)) (keysOf f) (rankOf prof f) []) /\ K (MediaKindOf (irKind t))) ->
  (forall c, c ∈ cands' -> P c) /\ K kind'.
Proof.
  induction files as [| f files IH]; intros rs cands kind rs' cands' kind' P K; cbn [collect];
    [intros [= <- <- <-]; auto |].
  intros Hc HP HK Hf. assert (forall g t, g ∈ files -> nfProposed g = Some t ->
     P (mkCandidate_ g (MediaKindOf (irKind t)) (keysOf g) (rankOf prof g) []) /\ K (MediaKindOf (irKind t))) as Hf'
    by (intros; apply Hf; [apply list.elem_of_cons; auto | done]).
  destruct (nfRejections f); [destruct (nfProposed f) as [t |] eqn:Et |]; try (by eapply IH).
  destruct (Hf f t) as [Hp Hk]; [apply list.elem_of_cons; auto | done |].
  eapply IH; [exact Hc | | exact Hk | exact Hf'].
  intros c [? | -> % list_elem_of_singleton] % list.elem_of_app; auto.
Qed.

(** Single-file items only, every file with a path. *)
Definition single_files (insp : ImportInspection) : Prop := forall f, f ∈ isnFiles insp ->
  nfPath f <> "" /\ forall t, nfProposed f = Some t -> multiFileKind (MediaKindOf (irKind t)) = false.

Lemma candidates_single i prof insp : single_files insp ->
  StronglySorted no_worse (candidates i prof insp)
  /\ forall c, c ∈ candidates i prof insp -> nfPath (cnFile c) <> "" /\ single c.
Proof.
  intros Hs. unfold candidates.
  destruct (collect prof (content_root i) (isnFiles insp) [] [] "") as [[rs cands] kind] eqn:Ec.
  destruct (collect_spec _ _ _ _ _ _ _ _ _ (fun c => nfPath (cnFile c) <> "" /\ single c)
    (fun k => multiFileKind k = false) Ec) as [Hcands ->].
  - by intros c ? % list.elem_of_nil.
  - done.
  - intros f t Hf Ht. destruct (Hs f Hf) as [Hp Hk]. specialize (Hk t Ht). auto.
  - split; [apply sortCandidates_sorted |]. intros c Hc. rewrite sortCandidates_perm in Hc.
    apply foldParts_from in Hc as (c0 & Hc0 & Hk & Hp & _). unfold single. rewrite Hk, Hp. by apply Hcands.
Qed.

(** A file's standing, of its own quality's place in the profile, its revision
    and its size. *)
Definition stands (prof : Profile) (f : InspectedFile) (r : candidateRank) : Prop :=
  let place := q ← ffQuality (nfFrozen f); Index prof q in
  ckAllowed r = bool_decide (is_Some place) /\ ckTier r = default 0 place
  /\ ckVersion r = from_option rvVersion 0 (ffRevision (nfFrozen f)) /\ ckReal r = from_option rvReal 0 (ffRevision (nfFrozen f))
  /\ ckSize r = nfSizeBytes f.

Lemma rankOf_stands prof f : stands prof f (rankOf prof f).
Proof.
  unfold stands, rankOf, Allowed. cbv zeta. destruct (ffQuality (nfFrozen f)) as [q |]; cbn.
  - destruct (Index prof q), (ffRevision (nfFrozen f)); done.
  - by destruct (ffRevision (nfFrozen f)).
Qed.

(** What a candidate is made of: a file of the inspection, for its item, of its
    rank. *)
Definition made_of (prof : Profile) (insp : ImportInspection) (c : candidate) : Prop :=
  exists f t, f ∈ isnFiles insp /\ nfPath (cnFile c) = nfPath f /\ nfProposed (cnFile c) = Some t
    /\ cnKind c = MediaKindOf (irKind t) /\ stands prof f (cnRank c).

Lemma candidates_made i prof insp c : c ∈ candidates i prof insp -> made_of prof insp c.
Proof.
  unfold candidates. destruct (collect prof (content_root i) (isnFiles insp) [] [] "") as [[rs cands] kind] eqn:Ec.
  destruct (collect_spec _ _ _ _ _ _ _ _ _ (made_of prof insp) (fun _ => True) Ec) as [Hcands _].
  - by intros d ? % list.elem_of_nil.
  - done.
  - intros f t Hf Ht. split; [| done]. exists f, t. split; [done |]. split; [done |]. split; [done |]. split; [done | apply rankOf_stands].
  - intros Hc. assert (c ∈ foldParts cands) as Hf by (destruct (multiFileKind kind); [done | by rewrite sortCandidates_perm in Hc]).
    apply foldParts_from in Hf as (c0 & Hc0 & Hk & Hp & Hpr & Hr). destruct (Hcands c0 Hc0) as (f & t & ? & ? & ? & ? & ?).
    exists f, t. rewrite Hk, Hp, Hpr, Hr. done.
Qed.

(** C4.  The best file fills each item. Of a download for single-file items, the
    files placed are candidates of the inspection, and every candidate that
    passes the checks on its own is placed, unless one no worse (allowed quality,
    tier, revision, then size) is placed for one of its items or at its path. A
    candidate stands as its file does in the profile, a film joined from parts as
    its first part. *)
Theorem plan_best i ov insp pl note : planFrom i ov (Some insp) = Planned pl note -> donor i = false ->
  single_files insp ->
  exists prof taken, npProfile i = Some prof /\ ipnMoves pl = map placed taken
    /\ (forall c, c ∈ taken -> c ∈ candidates i prof insp)
    /\ (forall c, c ∈ candidates i prof insp -> fit i ov prof insp c ->
         c ∈ taken \/ exists c0, c0 ∈ taken /\ gives_way c c0)
    /\ (forall c, c ∈ candidates i prof insp -> made_of prof insp c).
Proof.
  intros Hp Hd Hs. destruct (planFrom_judged _ _ _ _ _ Hp Hd) as (prof & kind & rs & Hprof & _ & Hm & _).
  destruct (candidates_single i prof insp Hs) as [Hsort Hok].
  destruct (loop_settles i ov prof insp (candidates i prof insp) [] (zero_judged rs) []) as (taken & Hinv & Hset).
  - done.
  - done.
  - apply loop_inv_start.
  - by intros c ? % list.elem_of_nil.
  - cbn [app] in *. exists prof, taken. split; [done |]. split; [by rewrite Hm, (li_moves _ _ _ _ _ _ _ Hinv) |].
    split; [intros c Hc; by apply (li_taken _ _ _ _ _ _ _ Hinv) in Hc as [? _] |]. split; [exact Hset |].
    intros c. apply candidates_made.
Qed.

(** A move for items of one file each: no album's and no audiobook's. *)
Definition single_move (mv : ImportMove) : Prop := MediaKindOf (irKind (mvTarget mv)) ∉ ["album"; "audiobook"].

Lemma single_kind k : multiFileKind k = false <-> k ∉ ["album"; "audiobook"].
Proof. unfold multiFileKind. by rewrite <- not_true_iff_false, contains_In. Qed.

(** C29.  No two files of an approved plan, of something else than an audio
    donor, go to one path; two files for single-file items, each with a source,
    never share an item; and an automatic import recycles no file twice. *)
Theorem plan_distinct i ov insp pl note : planFrom i ov (Some insp) = Planned pl note -> donor i = false ->
  NoDup (map mvDest (ipnMoves pl))
  /\ (eManual (npEntry i) || ov = false -> NoDup (map mbName (ipnReplaces pl)))
  /\ ((forall mv, mv ∈ ipnMoves pl -> mvSource mv <> "") ->
       ForallOrdPairs (fun a b => single_move a -> single_move b -> forall k, k ∈ mvKeys a -> k ∉ mvKeys b) (ipnMoves pl)).
Proof.
  intros Hp Hd. destruct (planFrom_judged _ _ _ _ _ Hp Hd) as (prof & kind & rs & _ & _ & Hm & Hr & _).
  destruct (loop_inv_holds i ov prof insp (candidates i prof insp) rs) as (taken & Hinv). split; [| split].
  - rewrite Hm, (li_moves _ _ _ _ _ _ _ Hinv), map_map. apply (li_dests_nodup _ _ _ _ _ _ _ Hinv).
  - intros Hauto. rewrite Hr, settle_set_auto by done. apply (li_replaces_nodup _ _ _ _ _ _ _ Hinv).
  - rewrite Hm, (li_moves _ _ _ _ _ _ _ Hinv). intros Hpath.
    destruct (li_filled _ _ _ _ _ _ _ Hinv) as (_ & _ & Hap).
    { intros c Hc. apply (Hpath (placed c)). by apply (list_elem_of_fmap_2 placed). }
    assert (forall c, c ∈ taken -> single_move (placed c) -> single c) as Hkind.
    { intros c Hc. apply (li_taken _ _ _ _ _ _ _ Hinv) in Hc as [Hc _]. apply candidates_made in Hc as (f & t & _ & _ & Ht & Hk & _).
      intros Hs. apply single_kind. rewrite Hk. unfold single_move, placed in Hs. by rewrite Ht in Hs. }
    clear -Hap Hkind. induction Hap as [| c cs Hc Hcs IH]; cbn [map]; constructor.
    + apply list.Forall_forall. intros mv (d & -> & Hd)%list_elem_of_fmap Hs1 Hs2. rewrite list.Forall_forall in Hc.
      apply (Hc d Hd); apply Hkind; try done; apply list.elem_of_cons; auto.
    + apply IH. intros d Hd. apply Hkind, list.elem_of_cons. auto.
Qed.
End candidates.

(** ** On the example *)

Lemma plan_best_witness : exists prof taken, npProfile im_input = Some prof /\ ipnMoves im_plan = map placed taken
  /\ (forall c, c ∈ taken -> c ∈ candidates im_input prof im_inspection)
  /\ (forall c, c ∈ candidates im_input prof im_inspection -> fit im_input false prof im_inspection c ->
       c ∈ taken \/ exists c0, c0 ∈ taken /\ gives_way c c0)
  /\ (forall c, c ∈ candidates im_input prof im_inspection -> made_of prof im_inspection c).
Proof.
  apply (plan_best im_input false im_inspection im_plan "" im_planned); [done |].
  intros f [-> | Hf] % list.elem_of_cons; [| by apply list.elem_of_nil in Hf].
  split; [done |]. intros t [= <-]. by vm_compute.
Defined.

Lemma plan_distinct_witness : NoDup (map mvDest (ipnMoves im_plan)).
Proof. by apply (plan_distinct im_input false im_inspection im_plan "" im_planned). Defined.

(** Two parts of one film. *)
Definition im_part (n : Z) : candidate :=
  mkCandidate_ (mkInspectedFile ("/data/part" +:+ fmt_d n) 4000 zero_Parsed (Some im_probe) "" (Some im_item) [] "/library/f.mkv"
    (im_frozen (dfQuality ex_bluray)) false [] n) MediaKindMovie ["alien"] (mkCandidateRank true 0 1 0 4000) [].

Example im_parts_join : map cnJoin (foldParts [im_part 2; im_part 1]) = [["/data/part1"; "/data/part2"]].
Proof. vm_compute. reflexivity. Qed.

Lemma parts_conserved_witness :
  Permutation (concat (map sources (foldParts [im_part 2; im_part 1]))) ["/data/part2"; "/data/part1"].
Proof. apply (parts_conserved [im_part 2; im_part 1]). repeat constructor. Defined.
