(* ===== verification/Importing.v ===== *)
(** * Importing: one Completed entry's import decision

    src/app/import/importplan/plan.go: [Decide] and the planner it runs, a state
    machine over the entry's import summary that owes the agent an inspect or an
    execute task, materialises what an execute placed, and retries, holds or
    blocks an import that imports nothing. *)

From S2P Require Import Prelude GoLang GoFacts Paths Ledger Api Events LcView GoFloat Subjects Names Records.
From S2P Require Import Quality Sizes Release Languages Coverage Identity Accept Media Evaluate.
From S2P Require Import ImportRules ImportChecks ImportPlanning.
From Stdlib Require Import Ascii.

Definition Durable : string := ConsumerImportFile.
Definition RepublishEvery : Duration := 5 * Minute.
Definition materialiseRecheck : Duration := 10 * Second.

#[export] Instance eta_ImportDecision : Eta ImportDecision :=
  fun d => mkImportDecision (idSummary d) (idDispatch d) (idMaterialise d) (idVerdict d) (idClass d) (idAnswered d) (idDue d).
#[export] Instance set_idSummary : Setter idSummary. Proof. derive_setter. Defined.
#[export] Instance set_idDispatch : Setter idDispatch. Proof. derive_setter. Defined.
#[export] Instance set_idMaterialise : Setter idMaterialise. Proof. derive_setter. Defined.
#[export] Instance set_idVerdict : Setter idVerdict. Proof. derive_setter. Defined.
#[export] Instance set_idClass : Setter idClass. Proof. derive_setter. Defined.
#[export] Instance set_idAnswered : Setter idAnswered. Proof. derive_setter. Defined.
#[export] Instance set_idDue : Setter idDue. Proof. derive_setter. Defined.

(** [planner]: the summary and the decision it fills in; its input and clock are
    arguments. *)
Record planner := mkPlanner {
  pnSum : DownloadImportSummary;
  pnDec : ImportDecision;
}.

#[export] Instance eta_planner : Eta planner := fun p => mkPlanner (pnSum p) (pnDec p).
#[export] Instance set_pnSum : Setter pnSum. Proof. derive_setter. Defined.
#[export] Instance set_pnDec : Setter pnDec. Proof. derive_setter. Defined.

Definition getS : M planner DownloadImportSummary := gets pnSum.
Definition onS (f : DownloadImportSummary -> DownloadImportSummary) : M planner unit := modify (upd (p := pnSum) f).
Definition onDec (f : ImportDecision -> ImportDecision) : M planner unit := modify (upd (p := pnDec) f).
Definition putS {T} (p : DownloadImportSummary -> T) {_ : Setter p} (x : T) : M planner unit := onS (fun s => s <| p := x |>).
Definition verdict (v : ImportVerdict) : M planner unit := onDec (fun d => d <| idVerdict := v |>).

(** [p.at]. *)
Definition at_dec (t : Time) (d : ImportDecision) : ImportDecision :=
  if IsZero t then d
  else if IsZero (idDue d) || Before t (idDue d) then d <| idDue := t |> else d.
Definition at_ (t : Time) : M planner unit := onDec (at_dec t).

(** The parts of an import record. *)
Definition irSeq (r : ImportRecord) : Z := hSeq (irHeader r).
Definition irFailure (r : ImportRecord) : string := hFailure (irHeader r).
Definition failed (r : ImportRecord) : bool := String.eqb (hState (irHeader r)) StateFailed.

Section importing.
Context `{Unicode} `{Quote} `{TextTables} `{TagParser} `{Patterns} `{FloatToInt} `{RangeOrder}.
Variable i : Input.

Let e : DownloadEntry := npEntry i.
Let now : Time := npNow i.

(** The inspection the planner holds; [owe] asks for it only where [approved]
    found one. *)
Definition inspection : option ImportInspection := match npInspect i with Some r => irInspect r | None => None end.

(** *** [manual] and [person] *)

Definition manual (s : DownloadImportSummary) : bool := eManual e || isOverride s.
Definition person (s : DownloadImportSummary) : bool := manual s || negb (String.eqb (isTarget s) "").

(** *** Settling an import that imports nothing *)

(** [RetryLadder]'s wait by attempt; [conclude] asks for one it has. *)
Definition ladder (attempt : Z) : Duration := nth (Z.to_nat (attempt - 1)) RetryLadder 0.

Definition retry (after : Duration) (message note : string) : M planner unit :=
  (let next := Add now after in
   putS isPhase ImportPhasePending;;
   putS isNextAttemptAt (Some next);;
   onS (fun s => s <| isMessage := message +:+ "; " +:+ note +:+ " at " +:+ fmt_RFC3339 next +:+ " (attempt "
          +:+ fmt_d (wrap32 (isAttempts s + 1)) +:+ " of " +:+ fmt_d (Z.of_nat (length RetryLadder) + 1) +:+ ")" |>);;
   verdict ImportRetry;;
   at_ next)%monad.

Definition conclude_as (class : ImportRejectionClass) (message : string) : M planner unit :=
  (s <- getS;;
   let attempts := wrap32 (isAttempts s + 1) in
   putS isAttempts (Z.min attempts 1000);;
   putS isClass class;; putS isFiles 0;;
   onDec (fun d => d <| idClass := class |>);;
   if bool_decide (class = ImportClassTransient) && (attempts <=? Z.of_nat (length RetryLadder)) then
     retry (ladder attempts) message "retrying"
   else if bool_decide (class = ImportClassReleaseFault) && (attempts <? 2) then
     retry (ladder 1) message "inspecting it once more before the release is blocklisted"
   else if bool_decide (class = ImportClassReleaseFault) then
     (putS isPhase ImportPhaseBlocked;;
      putS isMessage message;;
      verdict ImportReleaseFault)
   else
     let until := Add now ImportHoldRetention in
     (putS isPhase ImportPhaseHeld;;
      putS isHeldSince (Some now);;
      putS isNextAttemptAt None;;
      putS isMessage (message +:+ "; held for a person until " +:+ fmt_RFC3339 until +:+ ", then its files are removed");;
      verdict ImportHeld;;
      at_ until))%monad.

(** A person's import is never a release fault. *)
Definition conclude (class : ImportRejectionClass) (message : string) : M planner unit :=
  (s <- getS;;
   if bool_decide (class = ImportClassReleaseFault) && person s
   then conclude_as ImportClassNeedsPerson
          (message +:+ "; the import is a person's, so the release is not blocklisted")
   else conclude_as class message)%monad.

(** *** Tasks *)

(** [recordSeq]. *)
Definition recordSeq : Z :=
  fold_left (fun n r => match r with Some r => Z.max n (irSeq r) | None => n end) [npInspect i; npExecute i] 0.

(** [issue]. *)
Definition issue : M planner Z :=
  (s <- getS;;
   let seq := LcView.NextSeq recordSeq (dpSeq (isDispatch s)) now in
   putS isDispatch (mkDispatch seq (dpAnsweredSeq (isDispatch s)) now false "" None);;
   ret seq)%monad.

Definition task_part (pi : PartInput) : ImportPart :=
  let en := piEntry pi in
  let part := match eSet en with Some s => esPart s | None => 0 end in
  let entry := mkEntryRef (eID en) (eUID en) in
  match piTransfer pi with
  | Some r =>
      mkImportPart part entry (drTitle (eRelease en)) (trContentRoot r)
        (if String.eqb (eOutputPath en) "" then trOutputPath r else eOutputPath en) (trFiles r)
  | None => mkImportPart part entry (drTitle (eRelease en)) "" (eOutputPath en) []
  end.

Definition inspectTask (s : DownloadImportSummary) (seq : Z) : ImportInspectTask :=
  let r := eRelease e in
  {| itSeq := seq;
     itOwner := npOwner i;
     itEntry := mkEntryRef (eID e) (eUID e);
     itContentRoot := match npTransfer i with Some t => trContentRoot t | None => "" end;
     itOutputPath := match npTransfer i with
                     | Some t => if String.eqb (eOutputPath e) "" then trOutputPath t else eOutputPath e
                     | None => eOutputPath e
                     end;
     itFiles := match npTransfer i with Some t => trFiles t | None => [] end;
     itRelease := mkCommandRelease (drTitle r) (drGUID r) (drIndexerRef r) (drSizeBytes r);
     itProtocol := drProtocol r;
     itTargets := npTargets i;
     itEpisodes := map (fun n => mkEpisodeNo (Api.enSeason n) (Api.enNumber n)) (eEpisodes e);
     itIssues := eIssues e;
     itQualityProfile := npProfileRef i;
     itPurpose := ePurpose e;
     itGrabbedBy := eGrabbedBy e;
     itManual := eManual e;
     itOverride := isOverride s;
     itTargetOverride := ParseTarget (isTarget s);
     itPart := match eSet e with Some st => esPart st | None => 0 end;
     itParts := match eSet e with Some _ => map task_part (npParts i) | None => [] end |}.

Definition executeTask (seq : Z) (plan : ImportPlan) : ImportExecuteTask :=
  mkImportExecuteTask seq (npOwner i) (mkEntryRef (eID e) (eUID e)) plan.

(** The dispatch of a task the ledger admits. *)
Definition publish_now (phase : string) (task : ImportTask) (republish : bool) : M planner unit :=
  (s <- getS;;
   let d := isDispatch s in
   let subject := if String.eqb phase ImportSubExecute then WorkImportExecuteSubject (eUID e)
                  else WorkImportInspectSubject (eUID e) in
   onDec (fun dec => dec <| idDispatch :=
     Some (mkImportDispatch "" phase (dpSeq d) subject (MsgIDForImport (eUID e) phase (dpSeq d)) task republish) |>);;
   let unsent := match dpDelivery d with
                 | None => true
                 | Some v => bool_decide (dvState v = DeliveryWaiting)
                 end in
   let d := d <| dpDestination := Durable |> in
   putS isDispatch
     (if unsent then d <| dpDelivery := Some (mkDeliveryState DeliveryPublished "" "" 0 None None) |> else d);;
   at_ (Add now RepublishEvery))%monad.

Definition publish (phase : string) (task : ImportTask) (republish : bool) : M planner unit :=
  (s <- getS;;
   match npAdmit i with
   | None => publish_now phase task republish
   | Some ask =>
       let dec := ask (dpSeq (isDispatch s)) in
       if Ledger.dcAdmitted dec then publish_now phase task republish
       else
         (onS (fun s => s <| isDispatch ::= fun d => d <| dpDelivery :=
            Some (mkDeliveryState DeliveryWaiting (ClampText (Ledger.dcReason dec) 64) (ClampText (Ledger.dcMessage dec) 256)
                    0 None None) |> |>);;
          at_ (Add now (Z.max (Ledger.dcRetryAfter dec) Second)))
   end)%monad.

(** [inspect]. *)
Definition inspect : M planner unit :=
  (seq <- issue;;
   putS isPhase ImportPhasePending;;
   putS isNextAttemptAt None;; putS isFiles 0;;
   s <- getS;;
   publish ImportSubInspect (InspectTask (inspectTask s seq)) false)%monad.

(** [plan], and the half [reject] of it. *)
Definition plan (insp : option ImportInspection) : M planner unit :=
  (s <- getS;;
   match planFrom i (isOverride s) insp with
   | Refused class message => conclude class message
   | Planned pl note =>
       (seq <- issue;;
        putS isPhase ImportPhaseApproved;;
        putS isClass ImportClassUnset;;
        putS isFiles (wrap32 (Z.of_nat (length (ipnMoves pl))));;
        putS isMessage note;;
        publish ImportSubExecute (ExecuteTask (executeTask seq pl)) false)
   end)%monad.

(** [answer]. *)
Definition answer (seq : Z) : M planner unit :=
  (onS (fun s => s <| isDispatch ::= fun d => (d <| dpAnsweredSeq := seq |>) <| dpDelivery := None |> |>);;
   onDec (fun d => d <| idAnswered := seq |>))%monad.

(** [owe]. *)
Definition owe (phase : string) : M planner unit :=
  (s <- getS;;
   let d := isDispatch s in
   let stale := Add (dpDispatchedAt d) RepublishWindow in
   if negb (Before now stale) then
     if String.eqb phase ImportSubExecute then plan inspection else inspect
   else
     (at_ stale;;
      let waiting := match dpDelivery d with Some v => bool_decide (dvState v = DeliveryWaiting) | None => false end in
      if negb waiting && negb (IsZero (npPublished i)) && (Sub now (npPublished i) <? RepublishEvery) then
        at_ (Add (npPublished i) RepublishEvery)
      else if String.eqb phase ImportSubInspect then
        publish phase (InspectTask (inspectTask s (dpSeq d))) true
      else
        match planFrom i (isOverride s) inspection with
        | Refused class message => conclude class message
        | Planned pl _ => publish phase (ExecuteTask (executeTask (dpSeq d) pl)) true
        end))%monad.

(** *** What an execute placed *)

(** [donorFolder]. *)
Definition donorFolder : string :=
  match inspection with
  | Some insp => if String.eqb (isnRootFolder insp) "" then "" else path_join [isnRootFolder insp; DonorDir]
  | None => ""
  end.

(** The superseded donor [old] and the audio a graft reduced it to, each once
    and never the one placed. *)
Definition superseded_files (old placed : string) : list string :=
  fold_left (fun gone f => if negb (String.eqb f placed) && negb (contains gone f) then gone ++ [f] else gone)
    [old; TrimSuffix old (Ext old) +:+ ".mka"] [].

Definition materialise (m : Materialise) : M planner unit := onDec (fun d => d <| idMaterialise ::= fun l => l ++ [m] |>).

Definition settled (files : Z) : M planner unit :=
  (putS isFiles files;; putS isClass ImportClassUnset;; verdict ImportImported)%monad.

Definition materialiseDonor (x : ImportExecution) : M planner unit :=
  match npDonor i with
  | None => conclude ImportClassItemState "the donor's item is gone"
  | Some d =>
      if String.eqb (ixDonorPath x) "" then conclude ImportClassItemState "the donor's item is gone"
      else
        let old := diRecordedDonor d in
        (when (negb (String.eqb old "") && negb (String.eqb old (ixDonorPath x)))
           (if negb (contained old donorFolder)
            then putS isMessage ("kept the superseded donor " +:+ old +:+ ": it is not inside the root folder's donor folder "
                   +:+ fmt_q donorFolder)
            else materialise (mkMaterialise None None (superseded_files old (ixDonorPath x))));;
         settled 0)%monad
  end.

Definition apply_of (from : ImportSource) (f : PlacedFile) (rv : string) : Materialise :=
  mkMaterialise (Some {|
    amName := plMediaFileName f;
    amRV := rv;
    amRef := mediaRef (plTarget f) (plKeys f) (ffTrack (plFrozen f));
    amPath := plDest f;
    amSizeBytes := plSizeBytes f;
    amModTime := plModTime f;
    amFrozen := plFrozen f;
    amFrom := from |}) None [].

(** The loop over the placed files: [false] when one's MediaFile belongs to
    another item, which ends it. *)
Fixpoint materialise_placed (from : ImportSource) (placed : list PlacedFile) : M planner bool :=
  match placed with
  | [] => ret true
  | f :: placed =>
      let ref := mediaRef (plTarget f) (plKeys f) (ffTrack (plFrozen f)) in
      match npNamed i !! plMediaFileName f with
      | Some live =>
          if negb (String.eqb (mrKind (mfMediaRef live)) (mrKind ref))
             || negb (String.eqb (mrName (mfMediaRef live)) (mrName ref))
          then
            (conclude ImportClassNeedsPerson ("media file " +:+ plMediaFileName f +:+ " already belongs to "
               +:+ mrKind (mfMediaRef live) +:+ " " +:+ mrName (mfMediaRef live));;
             ret false)%monad
          else (materialise (apply_of from f (mfResourceVersion live));; materialise_placed from placed)%monad
      | None => (materialise (apply_of from f "");; materialise_placed from placed)%monad
      end
  end.

(** The MediaFiles to delete: the replaced ones not re-pointed at a placed file. *)
Definition deletes (x : ImportExecution) : list Materialise :=
  map (fun b => mkMaterialise None (Some b) [])
    (List.filter (fun b => negb (contains (map plMediaFileName (ixPlaced x)) (mbName b))) (ixReplaced x)).

Definition imported : M planner unit :=
  (s <- getS;;
   match npExecute i with
   | None => inspect
   | Some rec =>
       match irExecute rec with
       | None => inspect
       | Some x =>
           if irSeq rec <? dpSeq (isDispatch s) then inspect
           else if donor i then materialiseDonor x
           else
             let stamp := match hAnsweredAt (irHeader rec) with Some t => t - t mod Second | None => now end in
             (all <- materialise_placed (importSource e (manual s) stamp) (ixPlaced x);;
              when all
                (onDec (fun d => d <| idMaterialise ::= fun l => l ++ deletes x |>);;
                 settled (wrap32 (Z.of_nat (length (ixPlaced x))));;
                 when (npFiles i <? Z.of_nat (length (ixPlaced x))) (at_ (Add now materialiseRecheck))))
       end
   end)%monad.

Definition executed (rec : ImportRecord) : M planner unit :=
  match (if failed rec then None else irExecute rec) with
  | None => conclude ImportClassTransient ("the import could not be carried out: " +:+ irFailure rec)
  | Some x =>
      let why := ixRefused x in
      if String.eqb why "" then (putS isPhase ImportPhaseImported;; imported)%monad
      else if String.eqb why ImportRefusedStale then
        (putS isMessage "a file the plan replaces changed since it was made: inspecting again";; inspect)%monad
      else if String.eqb why ImportRefusedDiskFull then
        conclude ImportClassTransient ("the library volume has no room: " +:+ irFailure rec)
      else if String.eqb why ImportRefusedOverwrite || String.eqb why ImportRefusedOutsideRoot then
        conclude ImportClassNeedsPerson (irFailure rec)
      else if String.eqb why ImportRefusedDonorLacksLanguage then
        conclude ImportClassReleaseFault (MessageEveryFileRejected +:+ ": " +:+ irFailure rec)
      else conclude ImportClassTransient ("the import was refused: " +:+ why)
  end.

(** *** The phases *)

(** [held]. *)
Definition held : M planner unit :=
  (onS (fun s => s <| isHeldSince ::= fun t => Some (default now t) |>);;
   s <- getS;;
   let until := Add (default now (isHeldSince s)) ImportHoldRetention in
   if negb (Before now until) then (putS isPhase ImportPhaseExpired;; verdict ImportExpired)
   else (verdict ImportHeld;; at_ until))%monad.

(** [pending]. *)
Definition pending : M planner unit :=
  (s <- getS;;
   let d := isDispatch s in
   if dpSeq d =? 0 then inspect
   else if Api.InFlight d then
     match npInspect i with
     | Some rec =>
         if dpSeq d <=? irSeq rec then
           (answer (dpSeq d);;
            match (if failed rec then None else irInspect rec) with
            | None => conclude ImportClassTransient ("the payload could not be inspected: " +:+ irFailure rec)
            | Some insp => plan (Some insp)
            end)
         else owe ImportSubInspect
     | None => owe ImportSubInspect
     end
   else
     match isNextAttemptAt s with
     | Some t => if Before now t then (verdict ImportRetry;; at_ t) else inspect
     | None =>
         match npInspect i with
         | Some rec =>
             match irInspect rec with
             | Some insp => if irSeq rec =? dpAnsweredSeq d then plan (Some insp) else inspect
             | None => inspect
             end
         | None => inspect
         end
     end)%monad.

(** [approved]. *)
Definition approved : M planner unit :=
  (s <- getS;;
   let d := isDispatch s in
   let missing := bool_decide (inspection = None) in
   if Api.InFlight d then
     match npExecute i with
     | Some rec =>
         if dpSeq d <=? irSeq rec then (answer (dpSeq d);; executed rec)
         else if missing then inspect else owe ImportSubExecute
     | None => if missing then inspect else owe ImportSubExecute
     end
   else
     match npExecute i with
     | Some rec => if irSeq rec =? dpAnsweredSeq d then executed rec else inspect
     | None => inspect
     end)%monad.

(** [decide]. *)
Definition decide_import : M planner unit :=
  match npIntent i with
  | Some it =>
      (putS isTarget (TargetString it);; putS isOverride (iiOverride it);;
       putS isAttempts 0;; putS isClass ImportClassUnset;; putS isHeldSince None;; putS isNextAttemptAt None;;
       putS isMessage "imported by hand: inspecting again";;
       inspect)%monad
  | None =>
      (s <- getS;;
       match isPhase s with
       | ImportPhaseExpired => verdict ImportExpired
       | ImportPhaseBlocked => verdict ImportReleaseFault
       | ImportPhaseHeld => held
       | ImportPhaseImported => imported
       | ImportPhaseApproved => approved
       | _ => pending
       end)%monad
  end.

Definition zero_summary : DownloadImportSummary :=
  mkDownloadImportSummary ImportPhasePending ImportClassUnset "" 0 None None None 0 "" false zero_Dispatch.
Definition first_planner : planner :=
  let s := default zero_summary (eImport e) in
  mkPlanner s (mkImportDecision s None [] ImportNone ImportClassUnset 0 0).

Definition Decide : ImportDecision :=
  let p := snd (decide_import first_planner) in
  (pnDec p) <| idSummary := (pnSum p) <| isMessage ::= fun m => ClampText m MaxEntryMessage |> |>.
End importing.
