(* ===== verification/ImportMachine.v ===== *)
(** * ImportMachine: the import planner as a state machine

    Whatever a decision finds, it ends the import or asks to be run again later;
    a release is blocked only at its second inspection and never for a person's
    import; a task is published at its own seq; an import that placed its files
    materialises each of them. *)

From S2P Require Import Prelude GoLang GoFacts Paths Ledger Api Events LcView LcExample LcNonces GoFloat Subjects Names.
From S2P Require Import Records Quality Sizes Release Languages Coverage Identity Accept Media Evaluate ImportRules.
From S2P Require Import ImportRules ImportChecks ImportPlanning ImportFacts Importing LcCommands.
From Stdlib Require Import Ascii.

(** ** Triples

    [triple P Q m]: run where [P] holds, [m] leaves [Q]. A planner's computation
    mostly keeps one assertion up to the step that settles it; [walk] goes
    through it, a lemma of [walk] closing an operation. *)

Definition triple {A} (P Q : planner -> Prop) (m : M planner A) : Prop := forall p, P p -> wp m (fun _ => Q) p.

Lemma triple_seq {A B} (P R Q : planner -> Prop) (m : M planner A) (k : A -> M planner B) :
  triple P R m -> (forall a, triple R Q (k a)) -> triple P Q (bind m k).
Proof. intros Hm Hk p Hp. apply wp_bind. eapply wp_mono; [by apply Hm |]. intros a p' Hp'. by apply Hk. Qed.
Lemma triple_keep {A B} (P Q : planner -> Prop) (m : M planner A) (k : A -> M planner B) :
  triple P P m -> (forall a, triple P Q (k a)) -> triple P Q (bind m k).
Proof. apply triple_seq. Qed.
Lemma triple_sub {A} (P P' Q Q' : planner -> Prop) (m : M planner A) :
  triple P' Q' m -> (forall p, P p -> P' p) -> (forall p, Q' p -> Q p) -> triple P Q m.
Proof. intros Hm HP HQ p Hp. eapply wp_mono; [by apply Hm, HP |]. eauto. Qed.
Lemma triple_ret {A} (P : planner -> Prop) (a : A) : triple P P (ret a).
Proof. intros p Hp. by apply wp_ret. Qed.
Lemma triple_gets {A} (P : planner -> Prop) (f : planner -> A) : triple P P (gets f).
Proof. intros p Hp. by apply wp_gets. Qed.
Lemma triple_modify (P Q : planner -> Prop) f : (forall p, P p -> Q (f p)) -> triple P Q (modify f).
Proof. intros Hf p Hp. apply wp_modify. auto. Qed.

Create HintDb walk.

(** One assignment: the assertion does not read the field, or holds of its new
    value. *)
Ltac assign :=
  apply triple_modify;
  let p := fresh "p" in let Hp := fresh "Hp" in
  intros p Hp; first [exact Hp | destruct Hp; repeat split; solve [assumption | discriminate]].

Ltac walk_step :=
  intros;
  lazymatch goal with
  | |- triple _ _ (bind _ _) => apply triple_keep
  | |- triple ?P ?P (ret _) => apply triple_ret
  | |- triple ?P ?P (gets _) => apply triple_gets
  | |- triple ?P ?P getS => apply triple_gets
  | |- triple ?P ?P (when _ _) => unfold when
  | |- triple ?P ?P (onS _) => assign
  | |- triple ?P ?P (putS _ _) => assign
  | |- triple ?P ?P (onDec _) => assign
  | |- triple ?P ?P (verdict _) => assign
  | |- triple ?P ?P (materialise _) => assign
  | |- context [match ?x with _ => _ end] => destruct x eqn:?
  end.
Ltac walk := repeat first [solve [eauto 3 with walk] | walk_step]; intros.

(** The same up to a branch that decides. *)
Ltac walk_past := repeat lazymatch goal with |- triple _ _ (bind _ _) => apply triple_keep; [walk | intros] end.

(** ** Every decision goes on *)

Section machine.
Context `{Unicode} `{Quote} `{TextTables} `{TagParser} `{Patterns} `{FloatToInt} `{RangeOrder}.
Variable i : Input.

Let now := npNow i.

(** The import is over, or the decision is to be made again at a later time. *)
Definition ended (d : ImportDecision) : Prop :=
  idVerdict d = ImportReleaseFault \/ idVerdict d = ImportExpired \/ idVerdict d = ImportImported.
Definition unset_or_later (p : planner) : Prop := idDue (pnDec p) = 0 \/ now < idDue (pnDec p).
Definition goes_on (p : planner) : Prop := ended (pnDec p) \/ now < idDue (pnDec p).

Local Abbreviation waiting := (triple unset_or_later unset_or_later).
Local Abbreviation going := (triple unset_or_later goes_on).
Local Abbreviation later := (triple unset_or_later (fun p => now < idDue (pnDec p))).

Lemma later_going {A} (m : M planner A) : later m -> going m.
Proof. intros Hm. eapply triple_sub; [done | done |]. by right. Qed.
Lemma later_waiting {A} (m : M planner A) : later m -> waiting m.
Proof. intros Hm. eapply triple_sub; [done | done |]. by right. Qed.

Hypothesis clock : 0 <= now.

Lemma later_at t : now < t -> later (at_ t).
Proof.
  intros Ht p Hp. apply wp_modify. unfold unset_or_later in Hp. cbn in *. unfold upd, set_pnDec. cbn.
  unfold at_dec, IsZero. destruct (Z.eqb_spec t 0); [lia |].
  destruct (Z.eqb_spec (idDue (pnDec p)) 0) as [E | E]; [done |]. cbn. unfold Before.
  destruct (Z.ltb_spec t (idDue (pnDec p))); [done |]. by destruct Hp.
Qed.

Lemma later_retry after message note : 0 < after -> later (retry i after message note).
Proof. intros Ha. unfold retry. cbv zeta. walk. apply later_at. unfold Add. fold now. lia. Qed.

Lemma ends_verdict v : v = ImportReleaseFault \/ v = ImportExpired \/ v = ImportImported -> going (verdict v).
Proof. intros Hv p _. apply wp_modify. left. exact Hv. Qed.

Lemma going_conclude class message : going (conclude i class message).
Proof.
  unfold conclude. apply triple_keep; [walk |]. intros s.
  assert (forall c m, going (conclude_as i c m)) as Hc; [| destruct (bool_decide _ && _); apply Hc].
  intros c m. unfold conclude_as. cbv zeta. walk_past.
  destruct (bool_decide (c = ImportClassTransient) && _) eqn:Et.
  { apply later_going, later_retry. unfold ladder. bools. cbn [length RetryLadder Z.of_nat] in *.
    destruct (Z.to_nat _) as [| [| [| n]]] eqn:En; try done. cbn in *. lia. }
  clear Et. destruct (_ && _); [by apply later_going, later_retry |].
  destruct (bool_decide _).
  - walk_past. apply ends_verdict. auto.
  - apply later_going. walk. apply later_at. unfold Add, ImportHoldRetention. fold now. vm_compute (24 * Hour). lia.
Qed.

Lemma later_publish phase task republish : later (publish i phase task republish).
Proof.
  unfold publish, publish_now. walk; apply later_at; unfold Add, RepublishEvery; fold now; unfold Minute, Second in *; lia.
Qed.
Hint Resolve later_publish later_going going_conclude : walk.

Lemma waiting_issue : waiting (issue i).
Proof. unfold issue. walk. Qed.
Hint Resolve waiting_issue : walk.

Lemma later_inspect : later (inspect i).
Proof. unfold inspect. walk. Qed.
Hint Resolve later_inspect : walk.

Lemma going_plan insp : going (plan i insp).
Proof. unfold plan. walk. Qed.
Hint Resolve going_plan : walk.

(** A placed import is over, whatever it is asked to look at again. *)
Lemma going_settled files (b : bool) t : now < t -> going (settled files;; when b (at_ t))%monad.
Proof.
  intros Ht p Hp. unfold settled. repeat (apply wp_bind || apply wp_modify).
  destruct b; cbn [when]; [| apply wp_ret; left; right; by right].
  eapply wp_mono; [apply (later_at t Ht) | by right]. exact Hp.
Qed.

Lemma waiting_materials f : waiting (onDec (fun d => d <| idMaterialise ::= f |>)).
Proof. walk. Qed.

Lemma waiting_placed from l (P : planner -> Prop) :
  forall p, unset_or_later p -> wp (materialise_placed i from l)
    (fun ok p' => if ok : bool then unset_or_later p' else goes_on p') p.
Proof.
  induction l as [| f l IH]; intros p Hp; cbn [materialise_placed]; cbv zeta; [by apply wp_ret |].
  destruct (npNamed i !! plMediaFileName f) as [live |].
  - destruct (_ || _).
    + apply wp_bind. eapply wp_mono; [by apply going_conclude |]. intros ? p' Hp'. by apply wp_ret.
    + apply wp_bind. eapply wp_mono; [by apply waiting_materials |]. intros ? p' Hp'. by apply IH.
  - apply wp_bind. eapply wp_mono; [by apply waiting_materials |]. intros ? p' Hp'. by apply IH.
Qed.

Lemma going_imported : going (imported i).
Proof.
  unfold imported. apply triple_keep; [walk |]. intros s.
  destruct (npExecute i) as [rec |]; [| walk]. destruct (irExecute rec) as [x |]; [| walk].
  destruct (irSeq rec <? _); [walk |]. destruct (donor i).
  - unfold materialiseDonor. destruct (npDonor i) as [d |]; [| walk]. destruct (String.eqb _ _); [walk |]. cbv zeta.
    apply triple_keep; [destruct (_ && _); cbn [when]; walk |]. intros _ p Hp.
    unfold settled. repeat (apply wp_bind || apply wp_modify). left. right. by right.
  - intros p Hp. cbv zeta. apply wp_bind. eapply wp_mono; [by apply (waiting_placed _ _ (fun _ => True)) |].
    intros [] p' Hp'; cbn [when]; [| by apply wp_ret].
    apply wp_bind. eapply wp_mono; [by apply waiting_materials |]. intros ? p'' Hp''.
    apply going_settled; [| done]. unfold Add, materialiseRecheck, Second. fold now. lia.
Qed.
Hint Resolve going_imported : walk.

Lemma going_executed rec : going (executed i rec).
Proof. unfold executed. walk. Qed.

Lemma going_owe phase : going (owe i phase).
Proof.
  unfold owe. apply triple_keep; [walk |]. intros s. cbv zeta. unfold Before. fold now.
  destruct (Z.ltb_spec now (Add (dpDispatchedAt (isDispatch s)) RepublishWindow)) as [Hlt | ?]; cbn [negb]; [| walk].
  apply triple_keep; [by apply later_waiting, later_at |]. intros _.
  destruct (_ && (Sub now (npPublished i) <? RepublishEvery)) eqn:Eq; [| walk].
  apply later_going, later_at. apply andb_prop in Eq as [_ Eq]. apply Z.ltb_lt in Eq. fold now in Eq.
  unfold Add, Sub, RepublishEvery, Minute, Second, MinInt64, MaxInt64, two_p63 in *. lia.
Qed.
Hint Resolve going_executed going_owe : walk.

Lemma going_decide : going (decide_import i).
Proof.
  unfold decide_import. destruct (npIntent i); [walk |]. apply triple_keep; [walk |]. intros s.
  assert (going (pending i)) as Hpending.
  { unfold pending. walk. apply later_going. walk. apply later_at. unfold Before in *. by apply Z.ltb_lt. }
  destruct (isPhase s); try exact Hpending; try (apply ends_verdict; auto; fail).
  - unfold approved. walk.
  - walk.
  - unfold held. walk_past. cbv zeta. unfold Before. fold now.
    destruct (Z.ltb_spec now (Add (default now (isHeldSince a0)) ImportHoldRetention)) as [Hlt | ?]; cbn [negb].
    + apply later_going. walk. by apply later_at.
    + apply triple_keep; [walk |]. intros _. apply ends_verdict. auto.
Qed.
End machine.

Section theorems.
Context `{Unicode} `{Quote} `{TextTables} `{TagParser} `{Patterns} `{FloatToInt} `{RangeOrder}.

(** C3.  No import stalls: whatever a decision finds, records missing, refused,
    stale or in flight included, the import has ended (imported, blocklisted or
    expired), or the decision names a later time to be made again at. *)
Theorem import_goes_on i : 0 <= npNow i -> ended (Decide i) \/ npNow i < idDue (Decide i).
Proof.
  intros Hclock. pose proof (going_decide i Hclock (first_planner i)) as Hgo.
  unfold Decide. apply wp_iff in Hgo; [exact Hgo | by left].
Qed.
End theorems.

Lemma import_goes_on_witness : ended (Decide im_input) \/ npNow im_input < idDue (Decide im_input).
Proof. apply import_goes_on. by vm_compute. Defined.

(** A release is blocklisted only at its second inspection and never for a
    person's import, and a transient failure is tried again three times; each
    task is published at the seq the entry's dispatch carries; a placed import
    materialises every file, and deletes only what it replaced. *)

Section outcome.
Context `{Unicode} `{Quote} `{TextTables} `{TagParser} `{Patterns} `{FloatToInt} `{RangeOrder}.
Variable i : Input.

Let now := npNow i.

(** ** Retries and blocks *)

Section settles.
(** The summary the decision starts from. *)
Variable s0 : DownloadImportSummary.
Hypothesis attempts_range : 0 <= isAttempts s0 <= 1000.

Definition unsettled (p : planner) : Prop :=
  idVerdict (pnDec p) = ImportNone /\ isAttempts (pnSum p) = isAttempts s0 /\ isTarget (pnSum p) = isTarget s0
  /\ isOverride (pnSum p) = isOverride s0.

Definition tried_again (p : planner) : Prop :=
  isAttempts (pnSum p) = isAttempts s0 + 1 /\ isAttempts (pnSum p) <= 3
  /\ exists wait, wait ∈ RetryLadder /\ isNextAttemptAt (pnSum p) = Some (Add now wait).

Definition still_waiting (p : planner) : Prop :=
  exists t, isNextAttemptAt s0 = Some t /\ now < t /\ pnSum p = s0.

Definition settles (p : planner) : Prop :=
  (idVerdict (pnDec p) = ImportReleaseFault ->
     person i s0 = false /\ 1 <= isAttempts s0 /\ isPhase (pnSum p) = ImportPhaseBlocked
     /\ isClass (pnSum p) = ImportClassReleaseFault)
  /\ (idVerdict (pnDec p) = ImportRetry -> still_waiting p \/ tried_again p)
  /\ 0 <= isAttempts (pnSum p) <= 1000.

Lemma unsettled_settles p : unsettled p -> settles p.
Proof. intros (Hv & Ha & _). unfold settles. rewrite Hv, Ha. done. Qed.

Lemma neutral {A} (m : M planner A) : triple unsettled unsettled m -> triple unsettled settles m.
Proof. intros Hm. eapply triple_sub; [exact Hm | done | apply unsettled_settles]. Qed.

(** A verdict that is neither. *)
Lemma other_verdict v : v <> ImportReleaseFault -> v <> ImportRetry -> triple unsettled settles (verdict v).
Proof. intros Hb Hr. apply triple_modify. intros p (_ & Ha & _). repeat split; try done; cbn in *; lia. Qed.

(** [at_] after the verdict. *)
Lemma settles_at t : triple settles settles (at_ t).
Proof.
  apply triple_modify. intros p Hp. destruct p as [s d]. unfold settles, tried_again, still_waiting, upd, set_pnDec in *. cbn in *.
  unfold at_dec. destruct (IsZero t); [done |]. by destruct (_ || _).
Qed.
Lemma unsettled_at t : triple unsettled unsettled (at_ t).
Proof.
  apply triple_modify. intros p Hp. destruct p as [s d]. unfold unsettled, upd, set_pnDec in *. cbn in *.
  unfold at_dec. destruct (IsZero t); [done |]. by destruct (_ || _).
Qed.
Hint Resolve unsettled_at : walk.

Lemma settles_conclude_as class message :
  triple (fun p => unsettled p /\ (class = ImportClassReleaseFault -> person i s0 = false)) settles
    (conclude_as i class message).
Proof.
  intros p [(Hv & Ha & Ht & Ho) Hclass]. unfold conclude_as. apply wp_bind, wp_gets. cbv zeta. rewrite Ha.
  rewrite wrap32_id by (unfold is_int32, two_p31; lia).
  repeat apply wp_bind, wp_modify.
  destruct (bool_decide (class = ImportClassTransient) && _) eqn:Et.
  { apply andb_prop in Et as [_ Et]. apply Z.leb_le in Et. cbn in Et. unfold retry. cbv zeta.
    repeat apply wp_bind, wp_modify. apply settles_at. split; [done | split; [| cbn; lia]]. intros _. right.
    split; [cbn; lia | split; [cbn; lia |]]. exists (ladder (isAttempts s0 + 1)). split; [| done].
    unfold ladder. apply list_elem_of_In, nth_In. cbn. lia. }
  clear Et. destruct (bool_decide (class = ImportClassReleaseFault) && _) eqn:Er.
  { apply andb_prop in Er as [_ Er]. apply Z.ltb_lt in Er. unfold retry. cbv zeta.
    repeat apply wp_bind, wp_modify. apply settles_at. split; [done | split; [| cbn; lia]]. intros _. right.
    split; [cbn; lia | split; [cbn; lia |]]. exists (ladder 1). split; [| done]. apply list_elem_of_In. cbn. auto. }
  destruct (bool_decide_reflect (class = ImportClassReleaseFault)) as [-> | Hne].
  - cbn in Er. apply Z.ltb_ge in Er. repeat (apply wp_bind, wp_modify || apply wp_modify).
    split; [| split; [done | cbn; lia]]. intros _. split; [auto | split; [lia | done]].
  - repeat apply wp_bind, wp_modify. apply settles_at. split; [done | split; [done | cbn; lia]].
Qed.

Lemma settles_conclude class message : triple unsettled settles (conclude i class message).
Proof.
  intros p Hp. unfold conclude. apply wp_bind, wp_gets.
  destruct (bool_decide (class = ImportClassReleaseFault) && person i (pnSum p)) eqn:E.
  - by apply settles_conclude_as.
  - apply settles_conclude_as. split; [done |]. intros ->. destruct Hp as (_ & _ & Ht & Ho). cbn in E.
    unfold person, manual in *. by rewrite <- Ht, <- Ho.
Qed.
Hint Resolve settles_conclude : walk.

Lemma unsettled_publish phase task republish : triple unsettled unsettled (publish i phase task republish).
Proof. unfold publish, publish_now. walk. Qed.
Hint Resolve unsettled_publish : walk.
Lemma unsettled_inspect : triple unsettled unsettled (inspect i).
Proof. unfold inspect, issue. walk. Qed.
Hint Resolve unsettled_inspect : walk.
Hint Extern 3 (triple unsettled settles _) => (apply neutral) : walk.

Lemma settles_plan insp : triple unsettled settles (plan i insp).
Proof. unfold plan, issue. walk. Qed.
Hint Resolve settles_plan : walk.
Lemma settles_owe phase : triple unsettled settles (owe i phase).
Proof. unfold owe. walk. Qed.
Hint Resolve settles_owe : walk.

Lemma settles_settled files : triple unsettled settles (settled files).
Proof. intros p (Hv & Ha & _). unfold settled. repeat (apply wp_bind, wp_modify || apply wp_modify). repeat split; try done; cbn; lia. Qed.
Lemma settles_when b m : triple settles settles m -> triple settles settles (when b m).
Proof. destruct b; [done | intros _; apply triple_ret]. Qed.

Lemma settles_placed from l p : unsettled p ->
  wp (materialise_placed i from l) (fun ok p' => if ok : bool then unsettled p' else settles p') p.
Proof.
  revert p. induction l as [| f l IH]; intros p Hp; cbn [materialise_placed]; cbv zeta; [by apply wp_ret |].
  assert (forall m, triple unsettled unsettled (materialise m)) as Hm by walk.
  destruct (npNamed i !! plMediaFileName f) as [live |]; [destruct (_ || _) |];
    try (apply wp_bind; eapply wp_mono; [by apply Hm |]; intros ? p' Hp'; by apply IH).
  apply wp_bind. eapply wp_mono; [by apply settles_conclude |]. intros ? p' Hp'. by apply wp_ret.
Qed.

Lemma settles_imported : triple unsettled settles (imported i).
Proof.
  unfold imported. apply triple_keep; [walk |]. intros s.
  destruct (npExecute i) as [rec |]; [| walk]. destruct (irExecute rec) as [x |]; [| walk].
  destruct (irSeq rec <? _); [walk |]. destruct (donor i).
  - unfold materialiseDonor. destruct (npDonor i) as [d |]; [| walk]. destruct (String.eqb _ _); [walk |]. cbv zeta.
    apply triple_keep; [walk | intros; apply settles_settled].
  - cbv zeta. intros p Hp. apply wp_bind. eapply wp_mono; [by apply settles_placed |].
    intros [] p' Hp'; cbn [when]; [| by apply wp_ret]. revert p' Hp'. change (triple unsettled settles
      (onDec (fun d => d <| idMaterialise ::= fun l => l ++ deletes x |>);;
       settled (wrap32 (Z.of_nat (length (ixPlaced x))));;
       when (npFiles i <? Z.of_nat (length (ixPlaced x))) (at_ (Add (npNow i) materialiseRecheck)))%monad).
    apply triple_keep; [walk |]. intros _. eapply triple_seq; [apply settles_settled |]. intros _.
    apply settles_when, settles_at.
Qed.
Hint Resolve settles_imported : walk.
Lemma settles_executed rec : triple unsettled settles (executed i rec).
Proof. unfold executed. walk. Qed.
Hint Resolve settles_executed : walk.

Lemma settles_pending d : idVerdict d = ImportNone -> wp (pending i) (fun _ => settles) (mkPlanner s0 d).
Proof.
  intros Hd. assert (unsettled (mkPlanner s0 d)) as Hp by done.
  assert (forall m : M planner unit, triple unsettled settles m -> wp m (fun _ => settles) (mkPlanner s0 d)) as Hgo
    by (intros m Hm; by apply Hm).
  unfold pending. apply wp_bind, wp_gets. cbn [pnSum]. cbv zeta.
  destruct (_ =? 0); [apply Hgo; walk |]. destruct (Api.InFlight _); [apply Hgo; unfold answer; walk |].
  destruct (isNextAttemptAt s0) as [t |] eqn:En; [| apply Hgo; walk]. unfold Before.
  destruct (Z.ltb_spec (npNow i) t) as [Hlt | ?]; [| apply Hgo; walk].
  apply wp_bind, wp_modify, settles_at. split; [done | split; [| done]]. intros _. left. by exists t.
Qed.

Lemma settles_approved : triple unsettled settles (approved i).
Proof. unfold approved, answer. walk. Qed.

Lemma settles_held : triple unsettled settles (held i).
Proof.
  unfold held. apply triple_keep; [walk |]. intros _. apply triple_keep; [walk |]. intros s. cbv zeta. destruct (negb _).
  - apply triple_keep; [walk | intros; by apply other_verdict].
  - eapply triple_seq; [by apply other_verdict |]. intros _. apply settles_at.
Qed.

Lemma settles_decide d : idVerdict d = ImportNone -> npIntent i = None -> isPhase s0 <> ImportPhaseBlocked ->
  wp (decide_import i) (fun _ => settles) (mkPlanner s0 d).
Proof.
  intros Hd Hint Hb. assert (unsettled (mkPlanner s0 d)) as Hp by done. unfold decide_import. rewrite Hint.
  apply wp_bind, wp_gets. cbn [pnSum].
  destruct (isPhase s0); try (by apply settles_pending); try done.
  - by apply settles_approved.
  - by apply settles_imported.
  - by apply settles_held.
Qed.
End settles.
End outcome.

Section theorems.
Context `{Unicode} `{Quote} `{TextTables} `{TagParser} `{Patterns} `{FloatToInt} `{RangeOrder}.

(** The summary a decision starts from. *)
Definition summary_of (i : Input) : DownloadImportSummary := default zero_summary (eImport (npEntry i)).

Lemma decide_settles i : 0 <= isAttempts (summary_of i) <= 1000 -> npIntent i = None ->
  isPhase (summary_of i) <> ImportPhaseBlocked -> settles i (summary_of i) (snd (decide_import i (first_planner i))).
Proof.
  intros Ha Hi Hb. assert (wp (decide_import i) (fun _ => settles i (summary_of i)) (first_planner i)) as Hw; [| exact Hw].
  by apply settles_decide.
Qed.

(** C23.  A release is blocklisted only after an earlier failed attempt, and only
    of an import no person made (neither a pick, nor an override, nor a named
    target). With no intent to carry out and the import not blocked already, the
    decision that calls it the release's fault finds one or more attempts
    counted, blocks the import under that class, and keeps the count in its
    bound. Any failed attempt counts, of whatever class: a release
    is blocklisted at the first fault seen when the attempt before was transient
    ([fault_after_transient]), where the package's documents have a fault
    inspected once more. *)
Theorem release_fault_confirmed i : 0 <= isAttempts (summary_of i) <= 1000 -> npIntent i = None ->
  isPhase (summary_of i) <> ImportPhaseBlocked -> idVerdict (Decide i) = ImportReleaseFault ->
  person i (summary_of i) = false /\ 1 <= isAttempts (summary_of i)
  /\ isPhase (idSummary (Decide i)) = ImportPhaseBlocked /\ isClass (idSummary (Decide i)) = ImportClassReleaseFault
  /\ 0 <= isAttempts (idSummary (Decide i)) <= 1000.
Proof.
  intros Ha Hi Hb Hv. destruct (decide_settles i Ha Hi Hb) as (Hf & _ & Hr).
  destruct (Hf Hv) as (? & ? & ? & ?). auto.
Qed.

(** C31.  A failed import is tried again at most three times: a decision to retry
    either waits out the retry already set, its summary unchanged but for the
    bound on its message, or is the next of three attempts, due one of the
    ladder's waits from now. *)
Theorem retries_bounded i : 0 <= isAttempts (summary_of i) <= 1000 -> npIntent i = None ->
  isPhase (summary_of i) <> ImportPhaseBlocked -> idVerdict (Decide i) = ImportRetry ->
  (exists t, isNextAttemptAt (summary_of i) = Some t /\ npNow i < t
     /\ idSummary (Decide i) = (summary_of i) <| isMessage ::= fun m => ClampText m MaxEntryMessage |>)
  \/ (isAttempts (idSummary (Decide i)) = isAttempts (summary_of i) + 1 /\ isAttempts (idSummary (Decide i)) <= 3
      /\ exists wait, wait ∈ RetryLadder /\ isNextAttemptAt (idSummary (Decide i)) = Some (Add (npNow i) wait)).
Proof.
  intros Ha Hi Hb Hv. destruct (decide_settles i Ha Hi Hb) as (_ & Hr & _).
  destruct (Hr Hv) as [(t & ? & ? & Hs) | ?]; [left | by right]. exists t. split; [done | split; [done |]].
  change (idSummary (Decide i)) with
    ((pnSum (snd (decide_import i (first_planner i)))) <| isMessage ::= fun m => ClampText m MaxEntryMessage |>).
  by rewrite Hs.
Qed.
End theorems.

(** ** On the example *)

(** A second inspection that finds the release at fault. *)
Lemma release_fault_confirmed_witness :
  let i := im_at (Some (im_summary ImportPhasePending 1 7 6)) (Some (im_faulty 7)) None in
  person i (summary_of i) = false /\ 1 <= isAttempts (summary_of i)
  /\ isPhase (idSummary (Decide i)) = ImportPhaseBlocked /\ isClass (idSummary (Decide i)) = ImportClassReleaseFault
  /\ 0 <= isAttempts (idSummary (Decide i)) <= 1000.
Proof. apply release_fault_confirmed; [split; vm_compute; discriminate | done | done | by vm_compute]. Defined.

(** The first fault an inspection finds, after an attempt that failed in
    passing: the release is blocklisted at once. *)
Lemma fault_after_transient :
  let s := (im_summary ImportPhasePending 1 7 6) <| isClass := ImportClassTransient |> in
  idVerdict (Decide (im_at (Some s) (Some (im_faulty 7)) None)) = ImportReleaseFault.
Proof. vm_compute. reflexivity. Qed.

(** The first, which is tried again. *)
Lemma retries_bounded_witness :
  let i := im_at (Some (im_summary ImportPhasePending 0 7 6)) (Some (im_faulty 7)) None in
  (exists t, isNextAttemptAt (summary_of i) = Some t /\ npNow i < t
     /\ idSummary (Decide i) = (summary_of i) <| isMessage ::= fun m => ClampText m MaxEntryMessage |>)
  \/ (isAttempts (idSummary (Decide i)) = isAttempts (summary_of i) + 1 /\ isAttempts (idSummary (Decide i)) <= 3
      /\ exists wait, wait ∈ RetryLadder /\ isNextAttemptAt (idSummary (Decide i)) = Some (Add (npNow i) wait)).
Proof. apply retries_bounded; [split; vm_compute; discriminate | done | done | by vm_compute]. Defined.
