(* ===== verification/ImportTasks.v ===== *)
(** * ImportTasks: what a decision asks of the agent and the catalog

    A task is published at the seq the entry's dispatch carries, a new one above
    every seq the entry has seen; an execute carries the plan its inspection
    comes to. An import that placed its files materialises each of them under
    its own item, and deletes only what it replaced. *)

From S2P Require Import Prelude GoLang GoFacts Paths Ledger Api Events LcView LcExample LcCommands GoFloat Subjects Names Records.
From S2P Require Import Quality Sizes Release Languages Coverage Identity Accept Media Evaluate.
From S2P Require Import ImportRules ImportChecks ImportPlanning ImportFacts Importing ImportMachine.
From S2P Require Import ImportFacts ImportMachine.
From Stdlib Require Import Ascii.

Section tasks.
Context `{Unicode} `{Quote} `{TextTables} `{TagParser} `{Patterns} `{FloatToInt} `{RangeOrder}.
Variable i : Input.

Let uid := eUID (npEntry i).

(** ** Dispatches *)

(** The task is what its phase says, at the dispatch's seq. *)
Definition task_of (ov : bool) (d : ImportDispatch) : Prop :=
  imdMsgID d = MsgIDForImport uid (imdPhase d) (imdSeq d)
  /\ match imdTask d with
     | InspectTask t =>
         imdPhase d = ImportSubInspect /\ imdSubject d = WorkImportInspectSubject uid /\ itSeq t = imdSeq d
     | ExecuteTask t =>
         imdPhase d = ImportSubExecute /\ imdSubject d = WorkImportExecuteSubject uid /\ xtSeq t = imdSeq d
         /\ exists note, planFrom i ov (inspection i) = Planned (xtPlan t) note
     | NoTask => False
     end.

Section from.
Variable s0 : DownloadImportSummary.

Definition quiet (p : planner) : Prop :=
  idDispatch (pnDec p) = None /\ dpSeq (isDispatch (pnSum p)) = dpSeq (isDispatch s0)
  /\ isOverride (pnSum p) = isOverride s0.

(** Nothing is owed, or a task at the summary's seq: the one it had, or a new
    one. *)
Definition owed (p : planner) : Prop :=
  isOverride (pnSum p) = isOverride s0
  /\ forall d, idDispatch (pnDec p) = Some d ->
       task_of (isOverride s0) d /\ imdSeq d = dpSeq (isDispatch (pnSum p))
       /\ imdSeq d = (if imdRepublish d then dpSeq (isDispatch s0)
                      else LcView.NextSeq (recordSeq i) (dpSeq (isDispatch s0)) (npNow i)).

Lemma quiet_owed p : quiet p -> owed p.
Proof. intros (Hn & _ & Ho). split; [done |]. intros d Hd. congruence. Qed.

Lemma neutral_task {A} (m : M planner A) : triple quiet quiet m -> triple quiet owed m.
Proof. intros Hm. eapply triple_sub; [exact Hm | done | apply quiet_owed]. Qed.

Lemma quiet_at t : triple quiet quiet (at_ t).
Proof.
  apply triple_modify. intros p Hp. destruct p as [s d]. unfold quiet, upd, set_pnDec in *. cbn in *.
  unfold at_dec. destruct (IsZero t); [done |]. by destruct (_ || _).
Qed.
Lemma owed_at t : triple owed owed (at_ t).
Proof.
  apply triple_modify. intros p Hp. destruct p as [s d]. unfold owed, upd, set_pnDec in *. cbn in *.
  unfold at_dec. destruct (IsZero t); [done |]. by destruct (_ || _).
Qed.

(** A task published at [seq], the one the summary carries. *)
Lemma owed_publish (seq : Z) phase task republish :
  seq = (if republish : bool then dpSeq (isDispatch s0) else LcView.NextSeq (recordSeq i) (dpSeq (isDispatch s0)) (npNow i)) ->
  (let subject := if String.eqb phase ImportSubExecute then WorkImportExecuteSubject uid else WorkImportInspectSubject uid in
   task_of (isOverride s0) (mkImportDispatch "" phase seq subject (MsgIDForImport uid phase seq) task republish)) ->
  triple (fun p => idDispatch (pnDec p) = None /\ dpSeq (isDispatch (pnSum p)) = seq
                   /\ isOverride (pnSum p) = isOverride s0) owed (publish i phase task republish).
Proof.
  intros Hseq Htask p (Hn & Hs & Ho).
  assert (wp (publish_now i phase task republish) (fun _ => owed) p) as Hnow.
  { unfold publish_now. apply wp_bind, wp_gets. cbv zeta. rewrite Hs. repeat apply wp_bind, wp_modify. apply owed_at.
    split; [exact Ho |]. intros d Hd.
    match type of Hd with ?l = Some d => assert (l = Some (mkImportDispatch "" phase seq
      (if String.eqb phase ImportSubExecute then WorkImportExecuteSubject uid else WorkImportInspectSubject uid)
      (MsgIDForImport uid phase seq) task republish)) as E by reflexivity end.
    rewrite E in Hd. injection Hd as <-. split; [exact Htask | split; [| exact Hseq]]. cbn [imdSeq].
    rewrite <- Hs. destruct (dpDelivery (isDispatch (pnSum p))) as [v |]; [| done].
    by destruct (bool_decide (dvState v = DeliveryWaiting)). }
  unfold publish. apply wp_bind, wp_gets. destruct (npAdmit i) as [ask |]; [| done]. cbv zeta.
  destruct (Ledger.dcAdmitted _); [done |]. apply wp_bind, wp_modify, owed_at. split; [exact Ho |].
  intros d Hd. cbn in Hd. congruence.
Qed.

Lemma quiet_conclude class message : triple quiet quiet (conclude i class message).
Proof.
  assert (forall c m, triple quiet quiet (conclude_as i c m)) as Hc.
  { intros c m. unfold conclude_as, retry. cbv zeta. walk; apply quiet_at. }
  unfold conclude. apply triple_keep; [walk |]. intros s. destruct (_ && _); apply Hc.
Qed.

Lemma owed_inspect : triple quiet owed (inspect i).
Proof.
  intros p (Hn & Hs & Ho). unfold inspect, issue.
  apply wp_bind, wp_bind, wp_gets. cbv zeta. apply wp_bind, wp_modify, wp_ret. repeat apply wp_bind, wp_modify.
  apply wp_bind, wp_gets. rewrite Hs. eapply (owed_publish _ ImportSubInspect _ false); [reflexivity | | done].
  split; [done |]. cbn. auto.
Qed.

Lemma owed_plan insp : insp = inspection i -> triple quiet owed (plan i insp).
Proof.
  intros -> p Hp. pose proof Hp as (Hn & Hs & Ho). unfold plan. apply wp_bind, wp_gets. rewrite Ho.
  destruct (planFrom i (isOverride s0) (inspection i)) as [pl note | class message] eqn:Epl.
  - unfold issue. apply wp_bind, wp_bind, wp_gets. cbv zeta. apply wp_bind, wp_modify, wp_ret.
    repeat apply wp_bind, wp_modify. rewrite Hs.
    eapply (owed_publish _ ImportSubExecute _ false); [reflexivity | | done].
    split; [done |]. cbn. eauto 6.
  - eapply wp_mono; [by apply quiet_conclude |]. intros ? p' Hp'. by apply quiet_owed.
Qed.

Lemma owed_owe phase : phase = ImportSubInspect \/ phase = ImportSubExecute -> triple quiet owed (owe i phase).
Proof.
  intros Hphase p Hp. unfold owe. apply wp_bind, wp_gets. cbv zeta. destruct (negb (Before _ _)).
  { destruct Hphase as [-> | ->]; cbn [String.eqb]; [by apply owed_inspect | by apply owed_plan]. }
  apply wp_bind. eapply wp_mono; [by apply quiet_at |]. intros ? p' (Hn & Hs & Ho). destruct Hp as (_ & Hs0 & Ho0).
  destruct (_ && _). { eapply wp_mono; [apply quiet_at; by split |]. intros ? ? ?. by apply quiet_owed. }
  destruct Hphase as [-> | ->].
  - rewrite String.eqb_refl. rewrite Hs0. eapply (owed_publish _ ImportSubInspect _ true); [reflexivity | | done].
    split; [done |]. cbn. auto.
  - change (String.eqb ImportSubExecute ImportSubInspect) with false. cbv iota. rewrite Ho0.
    destruct (planFrom i (isOverride s0) (inspection i)) as [pl note | class message] eqn:Epl.
    + rewrite Hs0. eapply (owed_publish _ ImportSubExecute _ true); [reflexivity | | done]. split; [done |]. cbn. eauto 6.
    + eapply wp_mono; [by apply quiet_conclude |]. intros ? ? ?. by apply quiet_owed.
Qed.

Hint Extern 3 (triple quiet owed _) => (apply neutral_task) : walk.
Hint Resolve quiet_at quiet_conclude owed_inspect : walk.

Lemma quiet_placed from l : triple quiet quiet (materialise_placed i from l).
Proof.
  induction l as [| f l IH]; cbn [materialise_placed]; cbv zeta; [walk |].
  destruct (npNamed i !! plMediaFileName f); [destruct (_ || _) |]; (apply triple_keep; [walk | intros]); first [exact IH | walk].
Qed.
Hint Resolve quiet_placed : walk.

Lemma owed_imported : triple quiet owed (imported i).
Proof.
  unfold imported. apply triple_keep; [walk |]. intros s.
  destruct (npExecute i) as [rec |]; [| walk]. destruct (irExecute rec) as [x |]; [| walk].
  destruct (irSeq rec <? _); [walk |]. apply neutral_task. unfold materialiseDonor, settled. cbv zeta. walk.
Qed.
Hint Resolve owed_imported : walk.
Lemma owed_executed rec : triple quiet owed (executed i rec).
Proof. unfold executed. walk. Qed.
Hint Resolve owed_executed : walk.

Lemma owed_pending : triple quiet owed (pending i).
Proof.
  unfold pending. apply triple_keep; [walk |]. intros s. cbv zeta. destruct (_ =? 0); [walk |].
  pose proof (fun insp => owed_plan (Some insp)) as Hplan. unfold inspection in Hplan.
  destruct (npInspect i) as [rec |]; [destruct (Api.InFlight _) |].
  - destruct (_ <=? _); [| apply owed_owe; auto]. apply triple_keep; [unfold answer; walk |]. intros _.
    destruct (failed rec); [walk |]. destruct (irInspect rec); [by apply Hplan | walk].
  - destruct (isNextAttemptAt s); [walk |]. destruct (irInspect rec); [| walk]. destruct (_ =? _); [by apply Hplan | walk].
  - destruct (Api.InFlight _); [apply owed_owe; auto |]. walk.
Qed.

Lemma owed_approved : triple quiet owed (approved i).
Proof. pose proof (owed_owe ImportSubExecute). unfold approved, answer. walk; auto. Qed.

Lemma owed_phases d : idDispatch d = None -> npIntent i = None ->
  wp (decide_import i) (fun _ => owed) (mkPlanner s0 d).
Proof.
  intros Hd Hi. assert (quiet (mkPlanner s0 d)) as Hp by done. unfold decide_import. rewrite Hi.
  revert Hp. generalize (mkPlanner s0 d). apply triple_keep; [walk |]. intros s.
  destruct (isPhase s); auto using owed_pending, owed_approved, owed_imported; unfold held; walk; apply neutral_task; walk.
Qed.
End from.

Lemma owed_decide : exists s1, dpSeq (isDispatch s1) = dpSeq (isDispatch (summary_of i))
  /\ owed s1 (snd (decide_import i (first_planner i))).
Proof.
  destruct (npIntent i) as [it |] eqn:Ei.
  - exists ((summary_of i) <| isOverride := iiOverride it |>). split; [done |].
    assert (wp (decide_import i) (fun _ => owed ((summary_of i) <| isOverride := iiOverride it |>)) (first_planner i)) as Hw;
      [| exact Hw].
    unfold decide_import. rewrite Ei. repeat apply wp_bind, wp_modify. by apply owed_inspect.
  - exists (summary_of i). split; [done |].
    assert (wp (decide_import i) (fun _ => owed (summary_of i)) (first_planner i)) as Hw; [| exact Hw].
    by apply owed_phases.
Qed.

Lemma recordSeq_spec : 0 <= recordSeq i
  /\ (forall rec, npInspect i = Some rec \/ npExecute i = Some rec -> irSeq rec <= recordSeq i)
  /\ (recordSeq i = 0 \/ exists rec, (npInspect i = Some rec \/ npExecute i = Some rec) /\ recordSeq i = irSeq rec).
Proof.
  unfold recordSeq. cbn [fold_left]. split; [destruct (npInspect i), (npExecute i); lia |]. split.
  - intros rec [-> | ->]; [destruct (npExecute i) | destruct (npInspect i)]; lia.
  - destruct (npInspect i) as [a |], (npExecute i) as [b |]; eauto.
    + destruct (Z.max_spec (Z.max 0 (irSeq a)) (irSeq b)) as [[_ ->] | [_ ->]]; [eauto |].
      destruct (Z.max_spec 0 (irSeq a)) as [[_ ->] | [_ ->]]; eauto.
    + destruct (Z.max_spec 0 (irSeq a)) as [[_ ->] | [_ ->]]; eauto.
    + destruct (Z.max_spec 0 (irSeq b)) as [[_ ->] | [_ ->]]; eauto.
Qed.

(** C21.  Every task a decision owes is published at the seq its summary carries,
    under that seq's own message id and on its phase's subject. A republished
    task keeps the seq the entry had; a new one is above it and above both
    import records', so that no earlier answer is read as its own. An execute
    task carries the plan the current inspection comes to. *)
Theorem tasks_in_sequence d :
  seq_room (dpSeq (isDispatch (summary_of i))) ->
  (forall rec, npInspect i = Some rec \/ npExecute i = Some rec -> seq_room (irSeq rec)) ->
  idDispatch (Decide i) = Some d ->
  imdSeq d = dpSeq (isDispatch (idSummary (Decide i)))
  /\ task_of (isOverride (idSummary (Decide i))) d
  /\ (imdRepublish d = true -> imdSeq d = dpSeq (isDispatch (summary_of i)))
  /\ (imdRepublish d = false -> dpSeq (isDispatch (summary_of i)) < imdSeq d
      /\ forall rec, npInspect i = Some rec \/ npExecute i = Some rec -> irSeq rec < imdSeq d).
Proof.
  intros Hs Hr Hd. destruct owed_decide as (s1 & Hs1 & Ho & Howed). destruct (Howed d Hd) as (Ht & Hseq & Heq).
  split; [exact Hseq |]. split; [| split].
  - change (isOverride (idSummary (Decide i))) with (isOverride (pnSum (snd (decide_import i (first_planner i))))).
    by rewrite Ho.
  - intros Hrep. by rewrite Hrep, Hs1 in Heq.
  - intros Hrep. rewrite Hrep, Hs1 in Heq. destruct recordSeq_spec as (_ & Hle & Hex).
    assert (seq_room (recordSeq i)) as Hroom.
    { destruct Hex as [-> | (rec & Hrec & ->)]; [by vm_compute | by apply Hr]. }
    destruct (nextSeq_above (recordSeq i) (dpSeq (isDispatch (summary_of i))) (npNow i)) as (? & ? & _);
      try (by apply Hroom); try (by apply Hs).
    rewrite Heq. split; [done |]. intros rec Hrec. eapply Z.le_lt_trans; [by apply Hle | done].
Qed.

(** ** What is materialised *)

(** The version of the MediaFile a placed file is applied over. *)
Definition over (f : PlacedFile) : string :=
  match npNamed i !! plMediaFileName f with Some live => mfResourceVersion live | None => "" end.

(** The MediaFile of the file's name, where there is one, is its own item's. *)
Definition own_name (f : PlacedFile) : Prop := forall live, npNamed i !! plMediaFileName f = Some live ->
  mrKind (mfMediaRef live) = MediaKindOf (irKind (plTarget f)) /\ mrName (mfMediaRef live) = irName (plTarget f).

Definition materialises (l : list Materialise) : Prop := exists rec x by_person stamp,
  npExecute i = Some rec /\ irExecute rec = Some x
  /\ l = map (fun f => apply_of (importSource (npEntry i) by_person stamp) f (over f)) (ixPlaced x) ++ deletes x
  /\ Forall own_name (ixPlaced x).

Definition bare (p : planner) : Prop := idVerdict (pnDec p) <> ImportImported /\ idMaterialise (pnDec p) = [].
Definition not_imported (p : planner) : Prop := idVerdict (pnDec p) <> ImportImported.
Definition materialised (p : planner) : Prop :=
  idVerdict (pnDec p) = ImportImported -> donor i = false -> materialises (idMaterialise (pnDec p)).

Lemma not_imported_materialised p : not_imported p -> materialised p.
Proof. by intros Hn Hv. Qed.
Lemma neutral_bare {A} (m : M planner A) : triple bare bare m -> triple bare materialised m.
Proof. intros Hm. eapply triple_sub; [exact Hm | done |]. intros p [Hn _]. by apply not_imported_materialised. Qed.

Lemma due_only {P : planner -> Prop} t : (forall s d t, P (mkPlanner s d) -> P (mkPlanner s (d <| idDue := t |>))) ->
  triple P P (at_ t).
Proof.
  intros HP. apply triple_modify. intros [s d] Hp. unfold upd, set_pnDec. cbn.
  unfold at_dec. destruct (IsZero t); [done |]. destruct (_ || _); [by apply HP | done].
Qed.
Lemma bare_at t : triple bare bare (at_ t).
Proof. by apply due_only. Qed.
Lemma not_imported_at t : triple not_imported not_imported (at_ t).
Proof. by apply due_only. Qed.
Lemma materialised_at t : triple materialised materialised (at_ t).
Proof. by apply due_only. Qed.
Hint Resolve bare_at not_imported_at materialised_at : walk.

Lemma conclude_not_imported class message : triple not_imported not_imported (conclude i class message).
Proof. unfold conclude, conclude_as, retry. cbv zeta. walk; by apply triple_modify. Qed.
Lemma conclude_bare class message : triple bare materialised (conclude i class message).
Proof.
  eapply triple_sub; [apply conclude_not_imported | by intros p [? _] | by apply not_imported_materialised].
Qed.
Hint Resolve conclude_bare : walk.
Hint Extern 3 (triple bare materialised _) => (apply neutral_bare) : walk.

Lemma bare_publish phase task republish : triple bare bare (publish i phase task republish).
Proof. unfold publish, publish_now. walk. Qed.
Hint Resolve bare_publish : walk.
Lemma bare_inspect : triple bare bare (inspect i).
Proof. unfold inspect, issue. walk. Qed.
Hint Resolve bare_inspect : walk.
Lemma materialised_plan insp : triple bare materialised (plan i insp).
Proof. unfold plan, issue. walk. Qed.
Hint Resolve materialised_plan : walk.
Lemma materialised_owe phase : triple bare materialised (owe i phase).
Proof. unfold owe. walk. Qed.
Hint Resolve materialised_owe : walk.

Lemma materialised_placed from l p : not_imported p ->
  wp (materialise_placed i from l) (fun ok p' => not_imported p'
    /\ (ok = true -> idMaterialise (pnDec p') = idMaterialise (pnDec p) ++ map (fun f => apply_of from f (over f)) l
                     /\ Forall own_name l)) p.
Proof.
  revert p. induction l as [| f l IH]; intros p Hp; cbn [materialise_placed]; cbv zeta.
  { apply wp_ret. split; [done |]. intros _. split; [by rewrite app_nil_r | constructor]. }
  assert (forall rv, rv = over f -> own_name f -> wp (materialise (apply_of from f rv);; materialise_placed i from l)%monad
    (fun ok p' => not_imported p' /\ (ok = true ->
       idMaterialise (pnDec p') = idMaterialise (pnDec p) ++ map (fun f => apply_of from f (over f)) (f :: l)
       /\ Forall own_name (f :: l))) p) as Hstep.
  { intros rv -> Hown. apply wp_bind, wp_modify. eapply wp_mono; [by apply IH |]. intros ok p' [Hn Hok].
    split; [done |]. intros ->. destruct (Hok eq_refl) as [-> Hall]. split; [| by constructor].
    cbn. by rewrite <- app_assoc. }
  assert (over f = match npNamed i !! plMediaFileName f with Some live => mfResourceVersion live | None => "" end) as Eo by done.
  destruct (npNamed i !! plMediaFileName f) as [live |] eqn:El.
  - destruct (_ || _) eqn:Em.
    + apply wp_bind. eapply wp_mono; [by apply conclude_not_imported |]. intros ? p' Hp'. by apply wp_ret.
    + apply Hstep; [done |]. intros live' Hl. rewrite El in Hl. injection Hl as <-. cbn in Em. bools. done.
  - apply Hstep; [done |]. intros live' Hl. by rewrite El in Hl.
Qed.

Lemma materialised_imported : triple bare materialised (imported i).
Proof.
  unfold imported. apply triple_keep; [walk |]. intros s.
  destruct (npExecute i) as [rec |] eqn:Ex; [| walk]. destruct (irExecute rec) as [x |] eqn:Er; [| walk].
  destruct (irSeq rec <? _); [walk |]. destruct (donor i) eqn:Ed.
  { intros p Hp. apply wp_any. intros ? p' _ Hd. congruence. }
  cbv zeta. intros p [Hn Hm]. apply wp_bind. eapply wp_mono; [by apply materialised_placed |].
  intros [] p' [Hn' Hok]; cbn [when]; [| apply wp_ret; by intros ?].
  destruct (Hok eq_refl) as [Hmat Hown]. rewrite Hm in Hmat. cbn [app] in Hmat.
  unfold settled. repeat apply wp_bind, wp_modify.
  match goal with |- wp _ _ ?q => assert (materialised q) as Hq end.
  { intros _ _. eexists rec, x, _, _. split; [done | split; [done | split; [| exact Hown]]].
    cbn. by rewrite Hmat. }
  destruct (npFiles i <? _); [by apply materialised_at | by apply wp_ret].
Qed.
Hint Resolve materialised_imported : walk.
Lemma materialised_executed rec : triple bare materialised (executed i rec).
Proof. unfold executed. walk. Qed.
Hint Resolve materialised_executed : walk.

Lemma materialised_decide : triple bare materialised (decide_import i).
Proof.
  unfold decide_import. destruct (npIntent i); [walk |]. apply triple_keep; [walk |]. intros s.
  destruct (isPhase s); unfold pending, approved, answer, held; walk; apply neutral_bare; walk.
Qed.

(** C28.  An import that ends imported materialises every file the execute
    placed, in order, each over the MediaFile of its name, which is its own
    item's if there is one, and then deletes exactly the replaced MediaFiles no
    placed file took the name of. *)
Theorem imported_materialises : donor i = false -> idVerdict (Decide i) = ImportImported ->
  exists rec x by_person stamp, npExecute i = Some rec /\ irExecute rec = Some x
    /\ idMaterialise (Decide i)
       = map (fun f => apply_of (importSource (npEntry i) by_person stamp) f (over f)) (ixPlaced x) ++ deletes x
    /\ Forall own_name (ixPlaced x)
    /\ (forall b, mkMaterialise None (Some b) [] ∈ deletes x <->
          b ∈ ixReplaced x /\ mbName b ∉ map plMediaFileName (ixPlaced x)).
Proof.
  intros Hd Hv. pose proof (materialised_decide (first_planner i)) as Hw.
  assert (materialised (snd (decide_import i (first_planner i)))) as Hm by (by apply Hw).
  destruct (Hm Hv Hd) as (rec & x & b & t & ? & ? & ? & ?). exists rec, x, b, t. repeat (split; [done |]).
  intros m. unfold deletes. split.
  - intros (m' & [= <-] & Hin) % list_elem_of_fmap. apply list_elem_of_In, filter_In in Hin as [Hin Hc].
    split; [by apply list_elem_of_In |]. intros Hp % contains_In. by rewrite Hp in Hc.
  - intros [Hin Hp]. apply list_elem_of_fmap. exists m. split; [done |]. apply list_elem_of_In, filter_In.
    split; [by apply list_elem_of_In |]. apply negb_true_iff. destruct (contains _ _) eqn:E; [| done].
    by apply contains_In in E.
Qed.
End tasks.

(** ** On the example *)

(** The inspection is in: its plan is executed. *)
Definition im_answered : Input := im_at (Some (im_summary ImportPhasePending 0 7 6)) (Some (im_inspected 7)) None.

Example im_answered_executes : exists d t, idDispatch (Decide im_answered) = Some d /\ imdRepublish d = false
  /\ imdTask d = ExecuteTask t /\ xtPlan t = im_plan /\ imdSeq d = UnixMilli (ex_min 30).
Proof. eexists _, _. split; [by vm_compute | by vm_compute]. Qed.

Lemma tasks_in_sequence_witness : exists d, idDispatch (Decide im_answered) = Some d
  /\ imdSeq d = dpSeq (isDispatch (idSummary (Decide im_answered)))
  /\ task_of im_answered (isOverride (idSummary (Decide im_answered))) d
  /\ (imdRepublish d = true -> imdSeq d = dpSeq (isDispatch (summary_of im_answered)))
  /\ (imdRepublish d = false -> dpSeq (isDispatch (summary_of im_answered)) < imdSeq d
      /\ forall rec, npInspect im_answered = Some rec \/ npExecute im_answered = Some rec -> irSeq rec < imdSeq d).
Proof.
  eexists. split; [vm_compute; reflexivity |]. apply tasks_in_sequence; [by vm_compute | | by vm_compute].
  intros rec [[= <-] | [=]]. by vm_compute.
Defined.

(** The execute is in: the film is materialised and the WEB download deleted. *)
Lemma imported_materialises_witness :
  let i := im_at (Some (im_summary ImportPhaseApproved 0 9 8)) (Some (im_inspected 7)) (Some (im_executed 9)) in
  exists rec x by_person stamp, npExecute i = Some rec /\ irExecute rec = Some x
    /\ idMaterialise (Decide i)
       = map (fun f => apply_of (importSource (npEntry i) by_person stamp) f (over i f)) (ixPlaced x) ++ deletes x
    /\ Forall (own_name i) (ixPlaced x)
    /\ (forall b, mkMaterialise None (Some b) [] ∈ deletes x <->
          b ∈ ixReplaced x /\ mbName b ∉ map plMediaFileName (ixPlaced x)).
Proof. apply imported_materialises; by vm_compute. Defined.

(** ** An execute in flight when its plan is refused

    [owe] republishes an unanswered execute from a plan it makes anew. When that
    plan is refused, [conclude] settles the import and leaves the execute in
    flight. *)

(** The film's execute, in flight at seq 9. *)
Definition im_flying (insp : ImportRecord) (prof : option Profile) : Input :=
  let i := im_at (Some (im_summary ImportPhaseApproved 0 9 8)) (Some insp) None in
  mkInput (npOwner i) (npOwnerKind i) (npEntry i) None (npInspect i) None (npExisting i) ∅ (npTargets i) "hd" prof "deleted"
    "en" (npIdentity i) 117 [] None None 0 (npNow i) None 0.

(** The quality profile deleted meanwhile, the import is held, its execute still
    in flight. The execute's answer, the film placed and the old one recycled, is
    then never read: nothing is materialised, up to the hold's expiry, which
    fails the grab. *)
Theorem held_import_ignores_its_execute :
  let held_ := idSummary (Decide (im_flying (im_inspected 7) None)) in
  isPhase held_ = ImportPhaseHeld /\ Api.InFlight (isDispatch held_) = true
  /\ forall insp execute, let d := Decide (im_at (Some held_) insp execute) in
       idVerdict d = ImportHeld /\ idMaterialise d = [] /\ idAnswered d = 0.
Proof. split; [by vm_compute | split; [by vm_compute |]]. intros insp execute. by vm_compute. Qed.

(** A plan refused as the release's fault is to be inspected again in a minute;
    as its execute is in flight, the next decision publishes the inspect at
    once, at the execute's seq, as the republish of a task never sent. *)
Theorem retry_of_flying_execute_is_not_waited_out :
  let tried := idSummary (Decide (im_flying (im_faulty 7) (Some ex_single))) in
  isNextAttemptAt tried = Some (ex_min 31)
  /\ exists d, idDispatch (Decide (im_at (Some tried) (Some (im_faulty 7)) None)) = Some d
       /\ imdPhase d = ImportSubInspect /\ imdSeq d = 9 /\ imdRepublish d = true.
Proof. split; [by vm_compute |]. eexists. split; [vm_compute; reflexivity |]. by vm_compute. Qed.
