(* ===== verification/EvaluateFacts.v ===== *)
(** * EvaluateFacts: what [Evaluate] promises

    The two halves make the one pass, and where they do not. *)

From Stdlib Require Import SpecFloat.
From S2P Require Import Prelude GoLang GoFloat Api RankScore Quality Sizes Release Languages Rank Coverage Identity Accept.
From S2P Require Import Evaluate.
From Stdlib Require Import Ascii.

Section facts.
Context `{Unicode} `{Quote} `{TextTables} `{TagParser} `{Patterns} `{FloatToInt}.

(** ** The two halves make the one pass *)

(** A target as an agent may see it: its current file, its queue, its blocklist
    and its rejected donors are whatever they once were. *)
Definition stale (t : Target) (current : option Current) (queue : list Queued)
    (blocklist : option (string -> string -> bool)) (rejected : list string) : Target :=
  mkTarget (tgKind t) (tgAvailable t) (tgRuntimeMinutes t) (tgEpisodeRuntimes t) (tgOriginalLanguageTag t) current queue
    blocklist (tgIdentity t)
    (option_map (fun d => mkDonor (dnLanguages d) (dnAnchor d) rejected (dnSource d) (dnEdition d)) (tgDonor t))
    (tgAnime t) (tgRuntimeByEpisode t).

(** The same word on a release, the reasons in whatever order. *)
Record same_word (d d' : Decision) : Prop := {
  same_release : dcRelease d = dcRelease d';
  same_parsed : dcParsed d = dcParsed d';
  same_approved : dcApproved d = dcApproved d';
  same_temporary : dcTemporarilyRejected d = dcTemporarilyRejected d';
  same_rejections : dcRejections d ≡ₚ dcRejections d';
  same_score : dcScore d = dcScore d' /\ dcMatched d = dcMatched d';
  same_rank : dcApproved d = true -> dcRank d = dcRank d';
  same_coverage : dcCoverage d = dcCoverage d';
}.

(** A profile that asks for complete audio names what it is complete in. *)
Definition policy_whole (p : Profile) : Prop :=
  pfAudioLanguages p <> [] \/ (pfAudioOptional p = [] /\ pfAudioCompleteFirst p = false).

Lemma same_word_refl d : same_word d d.
Proof. by split. Qed.

Lemma WithItemState_decided rel parsed r x score matched :
  WithItemState (decision_of rel parsed r score matched) x = decision_of rel parsed (r ++ x) score matched.
Proof.
  unfold WithItemState, decision_of. case_bool_decide as Ex; [by rewrite Ex, app_nil_r |].
  rewrite (bool_decide_eq_false_2 (r ++ x = [])) by (intros ?%app_nil; tauto). reflexivity.
Qed.

Lemma WithItemState_ranked t idx p o parsed rel score complete d x :
  WithItemState (ranked t idx p o parsed rel score complete d) x =
  ranked t idx p o parsed rel score complete (WithItemState d x).
Proof. unfold WithItemState, ranked. case_bool_decide; [done |]. by destruct (_ || _). Qed.

Lemma ranked_keeps t idx p o parsed rel score complete d : let d' := ranked t idx p o parsed rel score complete d in
  dcRelease d' = dcRelease d /\ dcParsed d' = dcParsed d /\ dcScore d' = dcScore d /\
  dcApproved d' = dcApproved d /\ dcRejections d' = dcRejections d.
Proof. unfold ranked. by destruct (_ || _). Qed.

Section stale.
Context (t : Target) (current : option Current) (queue : list Queued).
Context (blocklist : option (string -> string -> bool)) (rejected : list string).
Local Abbreviation stale_t := (stale t current queue blocklist rejected).

Lemma runtime_stale parsed : targetRuntimeMinutes stale_t parsed = targetRuntimeMinutes t parsed.
Proof. reflexivity. Qed.

Lemma sizes_stale p parsed rel : sizeRejections stale_t p parsed rel = sizeRejections t p parsed rel.
Proof. unfold sizeRejections. by rewrite runtime_stale. Qed.

Lemma bitrates_stale p parsed rel : bitrateRejections stale_t p parsed rel = bitrateRejections t p parsed rel.
Proof. unfold bitrateRejections. by rewrite runtime_stale. Qed.

Lemma key_stale p o parsed rel score : buildRankKey p o stale_t parsed rel score = buildRankKey p o t parsed rel score.
Proof. unfold buildRankKey. by rewrite runtime_stale. Qed.

Lemma shared_stale idx p parsed rel o : sharedRejections stale_t idx p parsed rel o = sharedRejections t idx p parsed rel o.
Proof. unfold sharedRejections. by rewrite sizes_stale, bitrates_stale. Qed.

Lemma ranked_stale idx p o parsed rel score complete d :
  ranked stale_t idx p o parsed rel score complete d = ranked t idx p o parsed rel score complete d.
Proof. unfold ranked. by rewrite key_stale. Qed.

Lemma evaluateOne_stale groups lang an need idx p rel o :
  evaluateOne groups stale_t lang an need idx p rel o false = evaluateOne groups t lang an need idx p rel o false.
Proof.
  unfold evaluateOne. cbn [stale tgKind]. destruct (Parse _ _) as [pr | err]; [| reflexivity].
  cbv zeta. destruct (Profile_Score _ _ _) as [score matched]. rewrite shared_stale.
  cbn [stale tgDonor]. destruct (tgDonor t) as [d |]; cbn [option_map]; [reflexivity |].
  destruct (languageChecks _ _ _ _) as [language complete]. by rewrite ranked_stale.
Qed.

Lemma EvaluateRelease_stale groups p rels o :
  EvaluateRelease groups stale_t p rels o = EvaluateRelease groups t p rels o.
Proof.
  unfold EvaluateRelease, evaluate. apply map_ext. intros rel. rewrite evaluateOne_stale.
  cbn [stale tgOriginalLanguageTag tgKind tgIdentity tgDonor]. by destruct (tgDonor t).
Qed.
End stale.

(** With no policy, what completes nothing and what completes everything read
    alike. *)
Lemma videoItemState_no_policy t p an parsed rel score b b' : pfAudioLanguages p = [] -> policy_whole p ->
  videoItemState t p an parsed rel score b = videoItemState t p an parsed rel score b'.
Proof.
  intros E [? | [Eo Ec]]; [done |].
  assert (forall tag audio, AudioUpgradeable p tag audio = false) as Hu.
  { intros tag audio. unfold AudioUpgradeable, ReplaceableAudio, MissingAudio, MissingOptionalAudio, WantedAudio,
      OptionalAudio. rewrite E, Eo. by destruct audio; cbn; rewrite !andb_false_r. }
  assert (queueRejection p (tgQueue t) (mkCandidate (riQuality rel) (riRevision rel) score) an b (is_pack parsed) =
    queueRejection p (tgQueue t) (mkCandidate (riQuality rel) (riRevision rel) score) an b' (is_pack parsed)) as Hq.
  { induction (tgQueue t) as [| q l IH]; [done |]. cbn. rewrite Ec, IH. reflexivity. }
  unfold videoItemState. rewrite Ec, Hq. destruct (tgCurrent t); cbn; by rewrite ?Hu, ?andb_false_r.
Qed.

Lemma wrap32_0 : wrap32 0 = 0.
Proof. reflexivity. Qed.

Lemma allTemporary_perm l l' : l ≡ₚ l' -> allTemporary l = allTemporary l'.
Proof. unfold allTemporary. induction 1; cbn; try congruence. by rewrite !andb_assoc, (andb_comm (String.eqb _ _)). Qed.

Lemma decided_perm rel parsed l l' score matched : l ≡ₚ l' ->
  same_word (decision_of rel parsed l score matched) (decision_of rel parsed l' score matched).
Proof.
  intros Hl. assert (bool_decide (l = []) = bool_decide (l' = [])) as Hn.
  { apply bool_decide_ext. split; intros ->; [by apply Permutation_nil_l in Hl | by apply Permutation_nil_r in Hl]. }
  split; cbn; rewrite ?Hn, ?(allTemporary_perm _ _ Hl); done.
Qed.

Lemma when_approved_halves key rel parsed l l0 x score matched : l ≡ₚ l0 ++ x ->
  same_word (when_approved key (decision_of rel parsed l score matched))
    (WithItemState (when_approved key (decision_of rel parsed l0 score matched)) x).
Proof.
  intros Hl. destruct (decide (l0 ++ x = [])) as [E | E].
  { rewrite E in Hl. apply app_nil in E as [-> ->]. apply Permutation_nil_r in Hl as ->. apply same_word_refl. }
  assert (forall k, k <> [] -> when_approved key (decision_of rel parsed k score matched) =
    decision_of rel parsed k score matched) as Hk.
  { intros k Hk. unfold when_approved, decision_of. cbn. by rewrite bool_decide_eq_false_2. }
  rewrite Hk by (intros ->; by apply Permutation_nil_l in Hl).
  destruct (decide (l0 = [])) as [-> | Hne]; [| rewrite Hk, WithItemState_decided by done; by apply decided_perm].
  rewrite app_nil_l in *. pose proof (decided_perm rel parsed _ _ score matched Hl) as [].
  assert (l <> []) as Hne by (intros ->; by apply Permutation_nil_l in Hl).
  pose proof (bool_decide_eq_false_2 _ Hne) as Hl'. pose proof (bool_decide_eq_false_2 _ E) as Hx.
  unfold WithItemState, when_approved. rewrite Hx. cbn in *. rewrite Hl', Hx in *.
  split; cbn; rewrite ?Hl'; done.
Qed.

Lemma evaluateDonor_halves t d lang need p parsed rel score matched rejections :
  same_word (evaluateDonor t d lang need p parsed rel score matched rejections true)
    (WithItemState (evaluateDonor t d lang need p parsed rel score matched rejections false)
       (donorItemState t d rel ++ blocklistAndHistoryRejections t rel)).
Proof. apply when_approved_halves. rewrite app_nil_r, app_nil_l. by solve_Permutation. Qed.

Lemma evaluateDonor_keeps t donor lang need p parsed rel score matched rejections b :
  let d := evaluateDonor t donor lang need p parsed rel score matched rejections b in
  dcParsed d = Some parsed /\ dcRelease d = rel.
Proof. unfold evaluateDonor, when_approved. by destruct (dcApproved _). Qed.

(** The item-state half of a decision that is parsed. *)
Lemma ItemStateRejections_parsed groups t p d parsed : dcParsed d = Some parsed ->
  ItemStateRejections groups t p d =
  match tgDonor t with
  | Some donor => donorItemState t donor (dcRelease d) ++ blocklistAndHistoryRejections t (dcRelease d)
  | None =>
      let an := resolveAudioNames p (originalLanguageName (tgOriginalLanguageTag t)) in
      videoItemState t p an parsed (dcRelease d) (if dcScore d =? 0 then riFormatScore (dcRelease d) else dcScore d)
        (if bool_decide (pfAudioLanguages p = []) then false else snd (audioRejection an p (prLanguages parsed)))
  end.
Proof. intros E. unfold ItemStateRejections. by rewrite E. Qed.

Lemma evaluateOne_halves groups t idx p rel o :
  let lang := originalLanguageName (tgOriginalLanguageTag t) in
  let an := resolveAudioNames p lang in
  let need := match tgDonor t with Some d => donorNames d | None => [] end in
  let d := evaluateOne groups t lang an need idx p rel o false in
  let d' := evaluateOne groups t lang an need idx p rel o true in
  (tgDonor t = None -> policy_whole p) ->
  same_word d' (WithItemState d (ItemStateRejections groups t p d)) /\
  (tgDonor t = None -> d' = WithItemState d (ItemStateRejections groups t p d)).
Proof.
  intros lang an need d d' Hp. subst d d'. unfold evaluateOne.
  destruct (Parse (riTitle rel) (tgKind t)) as [pr | err] eqn:Eparse.
  2: { unfold ItemStateRejections, ParseForItemState. cbn [dcRelease dcParsed]. rewrite Eparse. by split; [apply same_word_refl |]. }
  cbv zeta. destruct (Profile_Score _ _ _) as [score matched].
  set (parsed := read_languages groups lang rel pr).
  set (rel' := _ <| riMatchedFormats := _ |>).
  assert (riFormatScore rel' = wrap32 score) as Hscore by reflexivity. clearbody rel'.
  destruct (tgDonor t) as [donor |] eqn:Ed.
  - split; [| done].
    destruct (evaluateDonor_keeps t donor lang need p parsed rel' score matched (sharedRejections t idx p parsed rel' o) false)
      as [E1 E2].
    rewrite (ItemStateRejections_parsed _ _ _ _ _ E1), Ed, E2. apply evaluateDonor_halves.
  - destruct (languageChecks lang an p parsed) as [language complete] eqn:El.
    match goal with |- same_word ?a ?b /\ _ => assert (a = b) as ->; [| by split; [apply same_word_refl |]] end.
    rewrite app_nil_r. destruct (ranked_keeps t idx p o parsed rel' score complete (decision_of rel' parsed
      (sharedRejections t idx p parsed rel' o ++ videoRejections t p parsed rel' score language) score matched))
      as (Er & Ep & Es & _ & _). cbn [decision_of dcRelease dcParsed dcScore] in Er, Ep, Es.
    rewrite (ItemStateRejections_parsed _ _ _ _ _ Ep), Ed, Er, Es, Hscore.
    rewrite WithItemState_ranked, WithItemState_decided, <- app_assoc. fold lang an. cbv zeta. do 4 f_equal.
    assert ((if score =? 0 then wrap32 score else score) = score) as -> by (by destruct (Z.eqb_spec score 0); subst).
    revert El. unfold languageChecks. case_bool_decide as Ea; intros El; [apply videoItemState_no_policy; auto |].
    by rewrite El.
Qed.

(** A decision rebuilt from its record, which keeps neither the parsed title nor
    the score beside the release. *)
Definition recorded (d : Decision) : Decision :=
  mkDecision (dcRelease d) None (dcApproved d) (dcTemporarilyRejected d) (dcRejections d) 0 (dcMatched d) (dcRank d)
    (dcCoverage d).

Lemma evaluateOne_recorded groups t an need idx p rel o b :
  let d := evaluateOne groups t (originalLanguageName (tgOriginalLanguageTag t)) an need idx p rel o b in
  wrap32 (dcScore d) = dcScore d -> ItemStateRejections groups t p (recorded d) = ItemStateRejections groups t p d.
Proof.
  unfold evaluateOne. destruct (Parse (riTitle rel) (tgKind t)) as [pr | err] eqn:Eparse; [| done].
  cbv zeta. destruct (Profile_Score _ _ _) as [score matched]. set (lang := originalLanguageName _).
  set (parsed := read_languages groups lang rel pr). set (rel' := _ <| riMatchedFormats := _ |>).
  set (d := match tgDonor t with Some _ => _ | None => _ end). intros Hw.
  assert (dcParsed d = Some parsed /\ dcRelease d = rel') as [Ep Er].
  { subst d. destruct (tgDonor t); [apply evaluateDonor_keeps |]. destruct (languageChecks _ _ _ _).
    by unfold ranked; destruct (_ || _). }
  assert (tgDonor t = None -> dcScore d = score) as Es.
  { intros Ed. subst d. rewrite Ed. destruct (languageChecks _ _ _ _). by unfold ranked; destruct (_ || _). }
  rewrite (ItemStateRejections_parsed _ _ _ _ _ Ep). unfold ItemStateRejections, ParseForItemState.
  cbn [recorded dcParsed dcRelease dcScore]. rewrite Er. change (riTitle rel') with (riTitle rel). rewrite Eparse.
  change (read_languages groups _ rel' pr) with parsed.
  destruct (tgDonor t); [done |]. rewrite Es in * by done. cbv zeta. change (riFormatScore rel') with (wrap32 score).
  rewrite Hw. by destruct (Z.eqb_spec score 0).
Qed.

(** C18.  One pass and two halves say the same: an agent that judges a release
    knowing nothing of the item's file, queue, blocklist or rejected donors, or
    their long past states, and the manager that then adds what those say now,
    answer what [Evaluate] answers, for the same reasons; a donor apart, the very
    same decision. So it is of a donor under any profile, and of any other release
    under a profile that names the languages it wants, or else asks neither for
    optional ones nor for complete ones first; a profile that names none and asks
    for either is where the halves part, the agent's taking every release as
    complete and the manager's none (evaluate.go:98). Under any profile the
    manager adds the same to a decision rebuilt from its record, the score being
    an [int32]. *)
Theorem halves_make_one_pass (groups : Groups) (t : Target) (p : Profile) (o : Options) (rels : list ReleaseInfo)
    (current : option Current) (queue : list Queued) (blocklist : option (string -> string -> bool))
    (rejected : list string) :
  let agent := EvaluateRelease groups (stale t current queue blocklist rejected) p rels o in
  let merged := map (fun d => WithItemState d (ItemStateRejections groups t p d)) agent in
  ((tgDonor t = None -> policy_whole p) ->
   Forall2 same_word (Evaluate groups t p rels o) merged /\ (tgDonor t = None -> Evaluate groups t p rels o = merged)) /\
  Forall (fun d => wrap32 (dcScore d) = dcScore d ->
    ItemStateRejections groups t p (recorded d) = ItemStateRejections groups t p d) agent.
Proof.
  intros agent merged. subst agent merged. rewrite EvaluateRelease_stale. unfold Evaluate, EvaluateRelease, evaluate.
  rewrite map_map. split.
  - intros Hp. split; [| intros Hd; apply map_ext; intros rel; by apply evaluateOne_halves].
    apply Forall2_fmap, Forall_Forall2_diag, Forall_true. intros rel. by apply evaluateOne_halves.
  - apply list.Forall_forall. intros d (rel & <- & _)%list_elem_of_In%in_map_iff. apply evaluateOne_recorded.
Qed.
End facts.

#[local] Existing Instances ascii_unicode plain_quote ascii_tables ex_tags ex_patterns ex_floats.

Lemma halves_make_one_pass_witness :
  let rels := [ex_indexed "Alien 1979 Bluray" 9000; ex_indexed "Alien 1979 WEB" 7000] in
  let agent := EvaluateRelease None (stale (ex_wanted "Alien 1979 WEB") None [] None []) ex_single rels ex_options in
  map dcApproved agent = [true; true] /\
  map dcApproved (Evaluate None (ex_wanted "Alien 1979 WEB") ex_single rels ex_options) = [true; false] /\
  Evaluate None (ex_wanted "Alien 1979 WEB") ex_single rels ex_options =
  map (fun d => WithItemState d (ItemStateRejections None (ex_wanted "Alien 1979 WEB") ex_single d)) agent.
Proof.
  split_and!; [vm_compute; reflexivity | vm_compute; reflexivity |].
  apply halves_make_one_pass; [right; split; reflexivity | reflexivity].
Defined.

(** Where they part: a profile that asks for complete audio first and names none. *)
Lemma halves_part :
  let t := ex_wanted "" in
  let busy := stale t None [mkQueued (ex_release ex_webdl 1 0) false []] None [] in
  let p := ex_single <| pfAudioCompleteFirst := true |> in
  let rels := [ex_indexed "Alien 1979 Bluray" 9000] in
  let merged := map (fun d => WithItemState d (ItemStateRejections None busy p d)) (EvaluateRelease None t p rels ex_options) in
  map dcApproved (Evaluate None busy p rels ex_options) = [true] /\ map dcApproved merged = [false].
Proof. split; vm_compute; reflexivity. Qed.
