(* ===== verification/Approved.v ===== *)
(** * Approved: what a release shows when it is taken

    The conditions of [Evaluate]'s approval, each told on its own. *)

From Stdlib Require Import SpecFloat.
From S2P Require Import Prelude GoLang GoFloat Api RankScore Quality Sizes Release Languages Rank Coverage Identity Accept.
From S2P Require Import Evaluate EvaluateFacts.
From Stdlib Require Import Ascii.

Section approved.
Context `{Unicode} `{Quote} `{TextTables} `{TagParser} `{Patterns} `{FloatToInt}.

(** A title names a movie when one of its titles is the movie's alone and its
    year agrees, whatever the ids. *)
Lemma TitleNamesMovie_spec id title : TitleNamesMovie id title = true <->
  exists parsed, Parse title MediaKindMovie = inl parsed /\ named_alone MediaKindMovie id parsed /\
    years_agree id (prYear parsed).
Proof.
  unfold TitleNamesMovie. destruct (Parse _ _) as [parsed |]; [| split; [done | by intros (? & [=] & _)]].
  cbv zeta. rewrite bool_decide_eq_true.
  etransitivity; [apply (itemRejection_none MediaKindMovie (unvouched id) parsed zero_ReleaseInfo) |].
  assert (forall k, compare_key (idIDs (unvouched id)) (riIDs zero_ReleaseInfo) k = None) as Hk.
  { intros k. unfold compare_key, at_key. cbn. rewrite lookup_empty. cbn. unfold normalizeID. by destruct (String.eqb k IDKeyIMDB). }
  assert (~ id_agrees MediaKindMovie (unvouched id) zero_ReleaseInfo /\
          ~ id_conflicts MediaKindMovie (unvouched id) zero_ReleaseInfo /\ ~ vouched (unvouched id) zero_ReleaseInfo)
    as (Ha & Hc & Hv).
  { split_and!; [intros (k & _ & E); by rewrite Hk in E.. | by intros []]. }
  change (named_alone MediaKindMovie (unvouched id) parsed) with (named_alone MediaKindMovie id parsed).
  change (years_agree (unvouched id) (prYear parsed)) with (years_agree id (prYear parsed)).
  split; [intros (_ & [? | [[? | ?] ?]]); try done; exists parsed; by auto | intros (? & [= <-] & ? & ?); by auto].
Qed.

(** ** The release itself *)

(** Between a minimum and a maximum; 0 is none. *)
Definition within (lo hi n : Z) : Prop := (0 < lo -> lo <= n) /\ (0 < hi -> n <= hi).

(** The release's known size suits its quality and the runtime it covers. *)
Definition fits_size (t : Target) (p : Profile) (parsed : ParsedRelease) (rel : ReleaseInfo) : Prop :=
  forall limit minutes, 0 < riSizeBytes rel -> pfSizes p !! qName (riQuality rel) = Some limit ->
  targetRuntimeMinutes t parsed = Some minutes ->
  let '(lo, hi) := SizeLimits p (riQuality rel) minutes in within lo hi (riSizeBytes rel).

(** Its bytes per second, when there are any, suit its resolution. *)
Definition fits_bitrate (t : Target) (p : Profile) (parsed : ParsedRelease) (rel : ReleaseInfo) : Prop :=
  forall limit minutes, pfBitrates p !! qResolution (riQuality rel) = Some limit ->
  targetRuntimeMinutes t parsed = Some minutes -> 0 < minutes ->
  let bps := Z.quot (riSizeBytes rel) (wrap64 (minutes * 60)) in
  0 < riSizeBytes rel -> 0 < bps -> within (blMin limit) (blMax limit) bps.

Definition speaks (have : list string) (name : string) : Prop := exists s, s ∈ have /\ EqualFold s name = true.

(** The audio the profile asks for: every wanted language, or the one a graft
    hangs on; without a policy, the profile's own language. *)
Definition speaks_wanted (p : Profile) (original : string) (have : list string) : Prop :=
  let an := resolveAudioNames p original in
  if bool_decide (pfAudioLanguages p = [])
  then pfLanguageName p = "" \/ pfLanguageName p = "any" \/
       (if String.eqb (pfLanguageName p) "original" then original = "" \/ speaks have original
        else speaks have (pfLanguageName p))
  else Forall (speaks have) (anWanted an) \/
       (pfGraftAudio p = true /\ (anAnchor an = "" \/ speaks have (anAnchor an))).

Definition sample (rel : ReleaseInfo) : Prop :=
  Contains (ToLower (riTitle rel)) "sample" = true /\ 0 < riSizeBytes rel < sampleMaxBytes.

(** What donors and whole releases must both show. *)
Record shows_item (t : Target) (p : Profile) (o : Options) (parsed : ParsedRelease) (rel : ReleaseInfo) : Prop := {
  shows_identity :
    identityRejection (tgKind t) (tgIdentity t) (newIdentityIndex (tgKind t) (tgIdentity t)) parsed rel = None;
  shows_protocol : opProtocolsEnabled o !! Protocol_string (riProtocol rel) = Some true;
  shows_available : opUserInvoked o = true \/ tgAvailable t = true;
  shows_size : fits_size t p parsed rel;
  shows_bitrate : fits_bitrate t p parsed rel;
  shows_no_sample : ~ sample rel;
}.

Record suits_profile (t : Target) (p : Profile) (parsed : ParsedRelease) (rel : ReleaseInfo) (score : Z) : Prop := {
  suits_quality : is_Some (Index p (riQuality rel));
  suits_score : pfMinFormatScore p <= score;
  suits_language : speaks_wanted p (originalLanguageName (tgOriginalLanguageTag t)) (prLanguages parsed);
  suits_no_dolby_vision : video_kind (tgKind t) = true -> "DV" ∉ prHDR parsed;
}.

(** ** What the item has *)

Definition same_source (cur : Current) (rel : ReleaseInfo) : Prop :=
  (cuSourceHash cur <> "" /\ riInfoHash rel <> "" /\ EqualFold (cuSourceHash cur) (riInfoHash rel) = true) \/
  (cuSourceTitle cur <> "" /\ EqualFold (cuSourceTitle cur) (riTitle rel) = true).

(** The release was not refused before, and is not the file. *)
Definition fresh (t : Target) (rel : ReleaseInfo) : Prop :=
  blocklisted t rel = false /\ forall cur, tgCurrent t = Some cur -> ~ same_source cur rel.

(** A grab in flight lets the release by. *)
Definition passes (p : Profile) (tag : string) (candidate : Candidate) (complete pack : bool) (q : Queued) : Prop :=
  AudioOutranks p tag complete q = true \/
  (AudioOutranked p tag complete q = false /\ quPack q = false /\
   (pack = true \/ UpgradeDecision p (quCandidate q) candidate = Upgrade)).

(** The baseline of a file worth keeping is kept. *)
Definition keeps_baseline (t : Target) (p : Profile) (cur : Current) (parsed : ParsedRelease) (rel : ReleaseInfo) : Prop :=
  LacksLanguage p (tgOriginalLanguageTag t) (cuAudioLanguages cur) = true \/ IsDolbyVision (cuHDR cur) = true \/
  ((cuHDR cur = "" \/ cuHDR cur = HdrFormatNone \/ namesHDR parsed (riTitle rel) = true) /\
   ~ (cuVideoCodec cur ∈ ["hevc"; "av1"] /\ namesAVC parsed = true /\
      0 < qResolution (riQuality rel) <= qResolution (cuQuality cur))).

(** The current file gives way: to audio it is to be replaced for; or, not being
    complete where the release is not, to any release the profile lists where it
    does not fit; or it is no transcode, its baseline is kept, and the release
    is an upgrade, or names the language the file lacks. *)
Definition gives_way (t : Target) (p : Profile) (parsed : ParsedRelease) (rel : ReleaseInfo) (score : Z) (complete : bool)
    (cur : Current) : Prop :=
  let tag := tgOriginalLanguageTag t in
  (complete = true /\ AudioUpgradeable p tag (cuAudioLanguages cur) = true) \/
  (~ (pfAudioCompleteFirst p = true /\ complete = false /\ CompletesAudio p tag (cuAudioLanguages cur) = true) /\
   (unfit p cur rel = true \/
    (cuTranscoded cur = false /\ keeps_baseline t p cur parsed rel /\
     ((namesWantedLanguages (resolveAudioNames p (originalLanguageName tag)) p parsed = true /\
       LacksLanguage p tag (cuAudioLanguages cur) = true) \/
      UpgradeDecision p (currentCandidate p cur) (mkCandidate (riQuality rel) (riRevision rel) score) = Upgrade)))).

Record item_lets (t : Target) (p : Profile) (parsed : ParsedRelease) (rel : ReleaseInfo) (score : Z) (complete : bool) :
    Prop := {
  lets_fresh : fresh t rel;
  lets_queue : Forall (passes p (tgOriginalLanguageTag t) (mkCandidate (riQuality rel) (riRevision rel) score) complete
    (is_pack parsed)) (tgQueue t);
  lets_current : forall cur, tgCurrent t = Some cur -> gives_way t p parsed rel score complete cur;
}.

(** ** The checks say so *)

Lemma option_list_nil {A} (o : option A) : option_list o = [] <-> o = None.
Proof. by destruct o. Qed.

Lemma containsFold_speaks have name : containsFold have name = true <-> speaks have name.
Proof. unfold containsFold, speaks. rewrite existsb_exists. by setoid_rewrite <- list_elem_of_In. Qed.

Lemma forallb_speaks have names : forallb (containsFold have) names = true <-> Forall (speaks have) names.
Proof.
  rewrite forallb_forall, list.Forall_forall. setoid_rewrite list_elem_of_In. by setoid_rewrite containsFold_speaks.
Qed.

Lemma contains_in l s : contains l s = true <-> s ∈ l.
Proof.
  unfold contains. rewrite existsb_exists, list_elem_of_In. split; [intros (x & Hx & ->%String.eqb_eq); done |].
  intros Hs. exists s. by rewrite String.eqb_refl.
Qed.

Lemma if_nil {A} (b : bool) (x : A) : (if b then [x] else []) = [] <-> b = false.
Proof. by destruct b. Qed.

Lemma within_spec lo hi n : within lo hi n <-> (0 <? lo) && (n <? lo) = false /\ (0 <? hi) && (hi <? n) = false.
Proof. unfold within. rewrite !andb_false_iff, !Z.ltb_ge. lia. Qed.

Lemma sizeRejections_nil t p parsed rel : sizeRejections t p parsed rel = [] <-> fits_size t p parsed rel.
Proof.
  unfold sizeRejections, fits_size. destruct (Z.leb_spec (riSizeBytes rel) 0); [split; [intros; lia | done] |].
  destruct (pfSizes p !! _); [| done]. destruct (targetRuntimeMinutes t parsed) as [m |]; [| done].
  destruct (SizeLimits p _ m) as [lo hi] eqn:E. rewrite app_nil. split.
  - intros [H1' H2'] limit minutes _ _ [= <-]. rewrite E. apply within_spec.
    split; [by destruct (_ && _) | by destruct ((0 <? hi) && _)].
  - intros Hf. specialize (Hf s m ltac:(done) eq_refl eq_refl). rewrite E in Hf. apply within_spec in Hf as [-> ->]. done.
Qed.

Lemma text_nonempty s r t : r <> "" -> String.eqb (s +:+ r +:+ t) "" = false.
Proof. destruct s; [by destruct r |]. done. Qed.

Lemma bitrateRejections_nil t p parsed rel : bitrateRejections t p parsed rel = [] <-> fits_bitrate t p parsed rel.
Proof.
  unfold bitrateRejections, fits_bitrate. destruct (Z.leb_spec (riSizeBytes rel) 0); [split; [intros; lia | done] |].
  case_bool_decide as Eb; [rewrite Eb; setoid_rewrite lookup_empty; done |].
  destruct (targetRuntimeMinutes t parsed) as [m |]; [| done]. cbn [orb].
  destruct (Z.leb_spec m 0); [split; [intros _ ? ? _ [= <-]; lia | done] |].
  unfold BitrateOutOfRange. destruct (pfBitrates p !! _) as [lim |]; [| done]. cbn [default from_option].
  set (bps := Z.quot _ _). transitivity (0 < bps -> within (blMin lim) (blMax lim) bps).
  2: { split; [intros Hw ? ? [= <-] [= <-] _ _ | intros Hf; apply (Hf lim m)]; done. }
  rewrite within_spec. destruct (Z.leb_spec bps 0); [split; [intros; lia | done] |].
  destruct ((0 <? blMin lim) && _); [rewrite text_nonempty by done; split; [done | by intros []] |].
  destruct ((0 <? blMax lim) && _); [rewrite text_nonempty by done; split; [done | by intros []] | done].
Qed.

Lemma sampleRejection_none rel : sampleRejection rel = None <-> ~ sample rel.
Proof.
  unfold sampleRejection, sample. destruct (Contains _ _); cbn; [| split; [by intros _ [] | done]].
  destruct (Z.leb_spec (riSizeBytes rel) 0); cbn; [split; [intros _; lia | done] |].
  destruct (Z.leb_spec sampleMaxBytes (riSizeBytes rel)).
  - split; [intros _ [_ ?]; lia | done].
  - split; [done | intros []; done].
Qed.

Lemma protocolRejection_none rel o :
  protocolRejection rel o = None <-> opProtocolsEnabled o !! Protocol_string (riProtocol rel) = Some true.
Proof. unfold protocolRejection. by destruct (opProtocolsEnabled o !! _) as [[] |]. Qed.

Lemma availabilityRejection_none t o : availabilityRejection t o = None <-> opUserInvoked o = true \/ tgAvailable t = true.
Proof. unfold availabilityRejection. destruct (opUserInvoked o), (tgAvailable t); cbn; intuition done. Qed.

Lemma qualityRejections_nil p rel score :
  qualityRejections p rel score = [] <-> is_Some (Index p (riQuality rel)) /\ pfMinFormatScore p <= score.
Proof.
  unfold qualityRejections, Allowed. rewrite app_nil. case_bool_decide; destruct (Z.ltb_spec score (pfMinFormatScore p)); cbn;
    intuition (done || lia).
Qed.

Lemma languageChecks_none p original parsed :
  fst (languageChecks original (resolveAudioNames p original) p parsed) = None <->
  speaks_wanted p original (prLanguages parsed).
Proof.
  unfold languageChecks, speaks_wanted. case_bool_decide.
  - cbn [fst]. unfold languageRejection.
    destruct (String.eqb_spec (pfLanguageName p) ""); [by intuition |].
    destruct (String.eqb_spec (pfLanguageName p) "any"); [by intuition |]. cbn [orb].
    destruct (String.eqb (pfLanguageName p) "original"); rewrite <- containsFold_speaks;
      [destruct (String.eqb_spec original ""); cbn [orb]; [by intuition |] |];
      (destruct (containsFold _ _); intuition done).
  - unfold audioRejection. rewrite <- forallb_speaks, <- containsFold_speaks.
    destruct (forallb _ _); cbn [fst]; [by intuition |].
    destruct (pfGraftAudio p); cbn [andb]; [| by intuition].
    destruct (String.eqb_spec (anAnchor (resolveAudioNames p original)) ""); cbn [orb]; [by intuition |].
    destruct (containsFold _ _); cbn [fst]; intuition done.
Qed.

Lemma dolbyVisionRejection_none parsed : dolbyVisionRejection parsed = None <-> "DV" ∉ prHDR parsed.
Proof. unfold dolbyVisionRejection. rewrite <- contains_in. by destruct (contains _ _). Qed.

Lemma blocklistAndHistory_nil t rel : blocklistAndHistoryRejections t rel = [] <-> fresh t rel.
Proof.
  unfold blocklistAndHistoryRejections, fresh, same_source. rewrite app_nil, if_nil. apply and_iff_compat_l.
  destruct (tgCurrent t) as [cur |]; [| done].
  transitivity (~ ((cuSourceHash cur <> "" /\ riInfoHash rel <> "" /\ EqualFold (cuSourceHash cur) (riInfoHash rel) = true) \/
    (cuSourceTitle cur <> "" /\ EqualFold (cuSourceTitle cur) (riTitle rel) = true)));
    [| split; [by intros ? ? [= <-] | intros Hc; by apply Hc]].
  rewrite <- !String.eqb_neq. destruct (String.eqb _ ""), (String.eqb _ ""), (EqualFold _ _), (String.eqb _ ""), (EqualFold _ _);
    cbn; intuition done.
Qed.

Lemma queueRejection_none p queue candidate tag complete pack :
  queueRejection p queue candidate (resolveAudioNames p (originalLanguageName tag)) complete pack = None <->
  Forall (passes p tag candidate complete pack) queue.
Proof.
  induction queue as [| q l IH]; [by split; [constructor |] |]. rewrite list.Forall_cons, <- IH.
  unfold passes, AudioOutranks, AudioOutranked. cbn [queueRejection]. cbv zeta.
  set (rest := queueRejection _ _ _ _ _ _). clearbody rest.
  case_bool_decide; destruct (pfAudioCompleteFirst p), complete, (queuedComplete _ p q), (quPack q), pack; cbn; intuition done.
Qed.

Lemma baselineRejections_nil t p cur parsed rel : tgCurrent t = Some cur ->
  baselineRejections p t parsed rel = [] <-> keeps_baseline t p cur parsed rel.
Proof.
  intros Ec. unfold baselineRejections, keeps_baseline. rewrite Ec, <- contains_in.
  destruct (LacksLanguage _ _ _); cbn [orb]; [by intuition |]. destruct (IsDolbyVision _); [by intuition |].
  rewrite app_nil, !if_nil, !andb_false_iff, !negb_false_iff, !String.eqb_eq, !Z.ltb_ge, Z.leb_gt.
  destruct (contains _ _), (namesAVC _); intuition (done || lia).
Qed.

Lemma transcodedRejection_none t cur : tgCurrent t = Some cur ->
  transcodedRejection t = None <-> cuTranscoded cur = false.
Proof. intros Ec. unfold transcodedRejection. rewrite Ec. by destruct (cuTranscoded cur). Qed.

Lemma upgradeRejection_none t p cur candidate names : tgCurrent t = Some cur ->
  upgradeRejection p t candidate names = None <->
  (names = true /\ LacksLanguage p (tgOriginalLanguageTag t) (cuAudioLanguages cur) = true) \/
  UpgradeDecision p (currentCandidate p cur) candidate = Upgrade.
Proof.
  intros Ec. unfold upgradeRejection. rewrite Ec. destruct names, (LacksLanguage _ _ _); cbn [andb];
    try case_bool_decide; intuition done.
Qed.

Lemma videoItemState_nil t p parsed rel score complete :
  let an := resolveAudioNames p (originalLanguageName (tgOriginalLanguageTag t)) in
  videoItemState t p an parsed rel score complete = [] <-> item_lets t p parsed rel score complete.
Proof.
  intros an. subst an. unfold videoItemState. cbv zeta.
  set (original := originalLanguageName _). set (an := resolveAudioNames p original).
  set (candidate := mkCandidate _ _ _).
  set (out := blocklistAndHistoryRejections t rel ++ option_list _).
  assert (out = [] <-> fresh t rel /\ Forall (passes p (tgOriginalLanguageTag t) candidate complete (is_pack parsed)) (tgQueue t)) as Ho.
  { subst out an original. by rewrite app_nil, option_list_nil, queueRejection_none, blocklistAndHistory_nil. }
  transitivity (out = [] /\ forall cur, tgCurrent t = Some cur -> gives_way t p parsed rel score complete cur).
  2: { rewrite Ho. split; [intros [[] ?]; by split | intros []; by split_and!]. }
  clearbody out. clear Ho. destruct (tgCurrent t) as [cur |] eqn:Ec.
  2: { unfold transcodedRejection, baselineRejections, upgradeRejection. rewrite Ec, !andb_false_r. cbn.
    rewrite app_nil_r. by intuition. }
  transitivity (out = [] /\ gives_way t p parsed rel score complete cur).
  2: { split; [intros [? ?]; split; [done | by intros ? [= <-]] | intros [? Hc]; split; [done | by apply Hc]]. }
  unfold gives_way. cbv zeta. fold original an candidate. rewrite <- (baselineRejections_nil t p cur) by done.
  rewrite <- (transcodedRejection_none t) by done. rewrite <- (upgradeRejection_none t p) by done.
  destruct (complete && AudioUpgradeable _ _ _) eqn:Eu; [bools; by intuition |].
  apply andb_false_iff in Eu. transitivity (out = [] /\
    (~ (pfAudioCompleteFirst p = true /\ complete = false /\ CompletesAudio p (tgOriginalLanguageTag t) (cuAudioLanguages cur) = true) /\
     (unfit p cur rel = true \/ transcodedRejection t = None /\ baselineRejections p t parsed rel = [] /\
      upgradeRejection p t candidate (namesWantedLanguages an p parsed) = None)));
    [| apply and_iff_compat_l; destruct Eu as [-> | ->]; by intuition].
  destruct (pfAudioCompleteFirst p && _ && _) eqn:Ec'.
  { bools. rewrite app_nil. by intuition. }
  transitivity (out = [] /\ (unfit p cur rel = true \/ transcodedRejection t = None /\ baselineRejections p t parsed rel = [] /\
      upgradeRejection p t candidate (namesWantedLanguages an p parsed) = None)).
  - destruct (unfit p cur rel); [by intuition |]. rewrite !app_nil, !option_list_nil. by intuition.
  - rewrite !andb_false_iff, negb_false_iff in Ec'. apply and_iff_compat_l.
    destruct (pfAudioCompleteFirst p), complete, (CompletesAudio _ _ _); by intuition.
Qed.

(** ** Approval *)

(** What an approved release shows. *)
Definition acceptable (t : Target) (p : Profile) (o : Options) (parsed : ParsedRelease) (rel : ReleaseInfo) (score : Z) :
    Prop :=
  let original := originalLanguageName (tgOriginalLanguageTag t) in
  shows_item t p o parsed rel /\
  match tgDonor t with
  | None =>
      suits_profile t p parsed rel score /\
      item_lets t p parsed rel score (ReleaseCompletesAudio p (tgOriginalLanguageTag t) (Some parsed))
  | Some d =>
      Forall (speaks (donorHave original p parsed (riTitle rel))) (donorNames d) /\
      (riTitle rel ∉ dnRejected d) /\ tgQueue t = [] /\ fresh t rel
  end.

Lemma decided_approved rel parsed l score matched : dcApproved (decision_of rel parsed l score matched) = true <-> l = [].
Proof. unfold decision_of. cbn. by rewrite bool_decide_eq_true. Qed.

Lemma sharedRejections_nil t p o parsed rel :
  (sharedRejections t (newIdentityIndex (tgKind t) (tgIdentity t)) p parsed rel o = [] /\ sampleRejection rel = None) <->
  shows_item t p o parsed rel.
Proof.
  unfold sharedRejections. rewrite !app_nil, !option_list_nil, protocolRejection_none, availabilityRejection_none,
    sizeRejections_nil, bitrateRejections_nil, sampleRejection_none.
  split; [intros ((? & ? & ? & ? & ?) & ?); by split | intros []; by split_and!].
Qed.

Lemma videoRejections_nil t p parsed rel score original :
  videoRejections t p parsed rel score (fst (languageChecks original (resolveAudioNames p original) p parsed)) = [] <->
  (is_Some (Index p (riQuality rel)) /\ pfMinFormatScore p <= score) /\ speaks_wanted p original (prLanguages parsed) /\
  sampleRejection rel = None /\ (video_kind (tgKind t) = true -> "DV" ∉ prHDR parsed).
Proof.
  unfold videoRejections. rewrite !app_nil, !option_list_nil, qualityRejections_nil, languageChecks_none.
  rewrite <- dolbyVisionRejection_none. destruct (video_kind _); rewrite ?option_list_nil; by intuition.
Qed.

Lemma evaluateDonor_approved t d p o parsed rel score matched :
  let original := originalLanguageName (tgOriginalLanguageTag t) in tgDonor t = Some d ->
  dcApproved (evaluateDonor t d original (donorNames d) p parsed rel score matched
    (sharedRejections t (newIdentityIndex (tgKind t) (tgIdentity t)) p parsed rel o) true) = true <->
  acceptable t p o parsed rel score.
Proof.
  intros original Ed. unfold evaluateDonor, acceptable, when_approved, donorItemState. fold original.
  rewrite Ed, <- sharedRejections_nil, <- blocklistAndHistory_nil, <- forallb_speaks, <- contains_in.
  assert (forall (b : bool) c l, dcApproved (if b then c else l) = if b then dcApproved c else dcApproved l) as Hif by by intros [].
  rewrite Hif. set (l := sharedRejections _ _ _ _ _ _ ++ _). cbn [dcApproved decision_of].
  transitivity (l = []); [case_bool_decide; cbn; by rewrite ?bool_decide_eq_true |].
  subst l. rewrite !app_nil, !option_list_nil. unfold donorLanguageRejection.
  destruct (forallb _ _), (contains _ _); case_bool_decide; by intuition.
Qed.

Lemma languageChecks_complete p tag parsed : let original := originalLanguageName tag in
  snd (languageChecks original (resolveAudioNames p original) p parsed) = ReleaseCompletesAudio p tag (Some parsed).
Proof. unfold languageChecks, ReleaseCompletesAudio. by case_bool_decide. Qed.

Lemma evaluate_video_approved t p o parsed rel score matched language complete :
  let original := originalLanguageName (tgOriginalLanguageTag t) in
  let an := resolveAudioNames p original in let idx := newIdentityIndex (tgKind t) (tgIdentity t) in
  tgDonor t = None -> languageChecks original an p parsed = (language, complete) ->
  let d := ranked t idx p o parsed rel score complete (decision_of rel parsed
    (sharedRejections t idx p parsed rel o ++ videoRejections t p parsed rel score language ++
     videoItemState t p an parsed rel score complete) score matched) in
  dcParsed d = Some parsed /\ dcRelease d = rel /\ (dcApproved d = true <-> acceptable t p o parsed rel (dcScore d)).
Proof.
  intros original an idx Ed El d.
  destruct (ranked_keeps t idx p o parsed rel score complete (decision_of rel parsed
    (sharedRejections t idx p parsed rel o ++ videoRejections t p parsed rel score language ++
     videoItemState t p an parsed rel score complete) score matched)) as (Er & Ep & Es & Ha & _). fold d in Er, Ep, Es, Ha.
  split_and!; [done.. |]. rewrite Ha, Es, decided_approved. cbn [decision_of dcScore]. unfold acceptable. fold original an.
  assert (language = fst (languageChecks original an p parsed)) as -> by by rewrite El.
  assert (complete = ReleaseCompletesAudio p (tgOriginalLanguageTag t) (Some parsed)) as ->.
  { by rewrite <- languageChecks_complete; fold original an; rewrite El. }
  subst an original. rewrite Ed, !app_nil, videoRejections_nil, videoItemState_nil, <- sharedRejections_nil.
  split; [intros (? & ((? & ?) & ? & ? & ?) & ?); by split_and! | intros ((? & ?) & [] & ?); by split_and!].
Qed.

Lemma evaluateOne_approved groups t p rel o :
  let original := originalLanguageName (tgOriginalLanguageTag t) in
  let d := evaluateOne groups t original (resolveAudioNames p original)
    match tgDonor t with Some d => donorNames d | None => [] end (newIdentityIndex (tgKind t) (tgIdentity t)) p rel o true in
  riTitle (dcRelease d) = riTitle rel /\
  (dcApproved d = true <-> exists parsed, dcParsed d = Some parsed /\ acceptable t p o parsed (dcRelease d) (dcScore d)).
Proof.
  intros original d. subst d. unfold evaluateOne.
  destruct (Parse (riTitle rel) (tgKind t)) as [pr | err]; cbn; [| split; [done |]; split; [done | intros (? & [=] & _)]].
  cbv zeta. destruct (Profile_Score _ _ _) as [score matched]. 
  set (parsed := read_languages groups original rel pr). set (rel' := _ <| riMatchedFormats := _ |>).
  assert (riTitle rel' = riTitle rel) as Ht by done. clearbody rel' parsed.
  set (d := match tgDonor t with Some _ => _ | None => _ end).
  assert (dcParsed d = Some parsed /\ dcRelease d = rel' /\ (dcApproved d = true <-> acceptable t p o parsed rel' (dcScore d)))
    as (Ep & Er & Ha).
  { subst d. destruct (tgDonor t) as [d |] eqn:Ed.
    - destruct (evaluateDonor_keeps t d original (donorNames d) p parsed rel' score matched
        (sharedRejections t (newIdentityIndex (tgKind t) (tgIdentity t)) p parsed rel' o) true) as [Ep Er].
      split_and!; [done.. |]. etransitivity; [by apply evaluateDonor_approved |]. unfold acceptable. by rewrite Ed.
    - destruct (languageChecks _ _ _ _) as [language complete] eqn:El. by apply evaluate_video_approved. }
  rewrite Ep, Er. split; [done |]. rewrite Ha. split; [by eauto | by intros (? & [= <-] & ?)].
Qed.
(** C7.  A release is approved when, and only when, it shows everything asked of
    it: it is the item's, by an enabled protocol, available or searched for by
    hand, of a size and bitrate that suit, no sample; and, a donor, its title
    names every language needed, it never failed before, no donor is in flight,
    and it is neither blocklisted nor what the current file came from; else it
    suits the profile, and the blocklist, the grabs in flight and the current
    file all let it through. A search by hand spares a release the wait for its
    availability and nothing else: that a transcoded file is final holds of it
    too, as [transcodedRejection]'s comment has it and [Evaluate]'s
    (evaluate.go:37) has not. *)
Theorem approved_shows_all (groups : Groups) (t : Target) (p : Profile) (o : Options) (rels : list ReleaseInfo) :
  Forall2 (fun rel d => riTitle (dcRelease d) = riTitle rel /\
    (dcApproved d = true <->
     exists parsed, dcParsed d = Some parsed /\ acceptable t p o parsed (dcRelease d) (dcScore d)))
    rels (Evaluate groups t p rels o).
Proof. apply Forall2_fmap_r, Forall_Forall2_diag, Forall_true. intros rel. apply evaluateOne_approved. Qed.
End approved.
