(* ===== verification/Bands.v ===== *)
(** * Bands: what a decision says of itself

    src/pkg/decision: the reasons [Evaluate] gives (reasons.go) and the band of
    the result list they put a release in (bands.go). *)

From S2P Require Import Prelude GoLang GoFacts GoFloat Api RankScore Quality Sizes Release Languages Rank Coverage Identity.
From S2P Require Import Accept Evaluate EvaluateFacts.
From Stdlib Require Import SpecFloat.
From Stdlib Require Import Ascii.

(** ** Whose reasons *)

Definition listed (r : Reason) : bool :=
  existsb (fun r' => String.eqb (rsCode r') (rsCode r) && String.eqb (rsType r') (rsType r)) reasons.

Lemma listed_in r : listed r = true -> r ∈ reasons.
Proof.
  intros (r' & Hr & He)%existsb_exists. bools. apply list_elem_of_In. destruct r, r'. cbn in *. by subst.
Qed.

Definition title_code (r : Reason) : bool := contains (map rsCode [ReasonWrongItem; ReasonUnknownItem; ReasonUnableToParse]) (rsCode r).

(** A rejection for the release's own sake, and one for its title. *)
Definition own (rej : Rejection) : Prop := raised rej /\ other_title rej = false.
Definition of_title (rej : Rejection) : Prop := raised rej /\ other_title rej = negb (Of ReasonFullSeason rej).

Lemma other_title_new r d : listed r = true -> other_title (newRejection r d) = title_code r.
Proof.
  intros Hr%listed_in. unfold other_title. rewrite !Of_newRejection by (done || by apply listed_in).
  unfold title_code. cbn. by rewrite orb_false_r, orb_assoc.
Qed.

Lemma own_new r d : listed r && negb (title_code r) = true -> own (newRejection r d).
Proof.
  intros Hr. bools. split; [by exists r, d; split; [apply listed_in |] |]. by rewrite other_title_new.
Qed.

Lemma of_title_new r d : listed r && (title_code r || String.eqb (rsCode r) "FullSeason") = true ->
  of_title (newRejection r d).
Proof.
  intros Hr. apply andb_prop in Hr as [Hr Hc]. split; [by exists r, d; split; [apply listed_in |] |].
  rewrite other_title_new, Of_newRejection by (done || by apply listed_in).
  cbn [ReasonFullSeason permanent rsCode]. destruct (String.eqb_spec (rsCode r) "FullSeason") as [E |].
  - unfold title_code. by rewrite E.
  - by rewrite orb_false_r in Hc.
Qed.

Lemma add_detail_new r d s : add_detail (newRejection r d) s = newRejection r (d +:+ s).
Proof. unfold add_detail, newRejection. cbn. by rewrite !str_app_assoc. Qed.

(** Whatever a check's branch raises. *)
Ltac owns := repeat case_match; simplify_eq/=; try done; apply own_new; vm_compute; reflexivity.
Ltac titles := repeat case_match; simplify_eq/=; rewrite ?add_detail_new; try done; apply of_title_new; vm_compute; reflexivity.

Section bands.
Context `{Unicode} `{Quote} `{TextTables} `{TagParser} `{Patterns} `{FloatToInt}.

Lemma yearRejection_title a b c r : yearRejection a b c = Some r -> exists d, r = newRejection ReasonWrongItem d.
Proof. unfold yearRejection. repeat case_match; intros [= <-]; by eexists. Qed.

Lemma yearRejection_of_title a b c r : yearRejection a b c = Some r -> of_title r.
Proof. intros (d & ->)%yearRejection_title. titles. Qed.

Lemma movieYearRejection_of_title id y r : movieYearRejection id y = Some r -> of_title r.
Proof.
  unfold movieYearRejection. case_match; [done |]. destruct (yearRejection _ _ _) eqn:E; [| done].
  apply yearRejection_title in E as [d ->]. intros [= <-]. titles.
Qed.

Lemma albumYearRejection_of_title id y r : albumYearRejection id y = Some r -> of_title r.
Proof.
  unfold albumYearRejection. case_match; [done |]. destruct (yearRejection _ _ _) eqn:E; [| done].
  apply yearRejection_title in E as [d ->]. intros [= <-]. titles.
Qed.

Lemma itemRejection_of_title kind id want namesakes p rel r :
  itemRejection kind id want namesakes p rel = Some r -> of_title r.
Proof.
  unfold itemRejection. destruct (compareIDs _ _ _) as [matched conflict].
  repeat case_match; intros Hr; first [exact (movieYearRejection_of_title _ _ _ Hr) | titles].
Qed.

Lemma verdict_of_title facts r : verdict facts = Some r -> of_title r.
Proof. unfold verdict. intros. titles. Qed.

Lemma or_else_of_title a b r : (forall r, a = Some r -> of_title r) -> (forall r, b = Some r -> of_title r) ->
  or_else a b = Some r -> of_title r.
Proof. destruct a; cbn; eauto. Qed.

Lemma identityRejection_of_title kind id idx p rel r : identityRejection kind id idx p rel = Some r -> of_title r.
Proof.
  unfold identityRejection. repeat case_match.
  - apply or_else_of_title; [apply itemRejection_of_title | done].
  - apply or_else_of_title; [apply itemRejection_of_title |]. intros ?. apply or_else_of_title; intros ?.
    + unfold numberingRejection. intros. titles.
    + unfold seasonPackRejection. intros. titles.
  - unfold albumRejection. case_match; [| intros; titles].
    apply or_else_of_title; [apply verdict_of_title | apply albumYearRejection_of_title].
  - unfold bookRejection. case_match; [apply verdict_of_title | intros; titles].
  - unfold issueRejection. case_match; [| intros; titles].
    apply or_else_of_title; [apply verdict_of_title | apply yearRejection_of_title].
  - intros. titles.
Qed.

(** ** The checks of the release itself *)

Lemma own_list (o : option Rejection) : (forall r, o = Some r -> own r) -> Forall own (option_list o).
Proof. destruct o; cbn; auto. Qed.

(** The parts of a list of rejections. *)
Ltac parts := repeat match goal with
  | |- Forall _ (_ ++ _) => apply Forall_app_2
  | |- Forall _ [] => constructor
  | |- Forall _ [_] => apply Forall_cons_2; [| constructor]
  | |- Forall _ (option_list _) => apply own_list; intros
  | |- Forall _ (match ?x with _ => _ end) => destruct x eqn:?
  end.

Lemma sizeRejections_own t p parsed rel : Forall own (sizeRejections t p parsed rel).
Proof. unfold sizeRejections. parts; owns. Qed.

Lemma bitrateRejections_own t p parsed rel : Forall own (bitrateRejections t p parsed rel).
Proof. unfold bitrateRejections. cbv zeta. parts; owns. Qed.

Lemma shared_checks_own t p parsed rel o : Forall own (option_list (protocolRejection rel o) ++
  option_list (availabilityRejection t o) ++ sizeRejections t p parsed rel ++ bitrateRejections t p parsed rel).
Proof. parts; [unfold protocolRejection in *; owns | unfold availabilityRejection in *; owns | apply sizeRejections_own | apply bitrateRejections_own]. Qed.

Lemma sampleRejection_own rel : Forall own (option_list (sampleRejection rel)).
Proof. parts. unfold sampleRejection in *. owns. Qed.

Lemma languageChecks_own original an p parsed : Forall own (option_list (fst (languageChecks original an p parsed))).
Proof. parts. unfold languageChecks, languageRejection, audioRejection in *. owns. Qed.

Lemma videoRejections_own t p parsed rel score original an :
  Forall own (videoRejections t p parsed rel score (fst (languageChecks original an p parsed))).
Proof.
  pose proof (languageChecks_own original an p parsed). pose proof (sampleRejection_own rel).
  unfold videoRejections. do 3 try apply Forall_app_2; try done; unfold qualityRejections, dolbyVisionRejection;
    parts; unfold dolbyVisionRejection in *; owns.
Qed.

(** ** The item's state *)

Lemma blocklistAndHistory_own t rel : Forall own (blocklistAndHistoryRejections t rel).
Proof. unfold blocklistAndHistoryRejections. parts; owns. Qed.

Lemma donorItemState_own t d rel : Forall own (donorItemState t d rel).
Proof. unfold donorItemState. parts; owns. Qed.

Lemma queueRejection_own p queue candidate an complete pack r :
  queueRejection p queue candidate an complete pack = Some r -> own r.
Proof. induction queue as [| q queue IH]; [done |]. cbn. repeat case_match; try done; intros [= <-]; owns. Qed.

Lemma upgradeRejection_own p t candidate names r : upgradeRejection p t candidate names = Some r -> own r.
Proof. unfold upgradeRejection, VerdictReason. repeat case_match; try done; intros [= <-]; owns. Qed.

Lemma videoItemState_own t p an parsed rel score complete : Forall own (videoItemState t p an parsed rel score complete).
Proof.
  assert (Forall own (blocklistAndHistoryRejections t rel ++ option_list (queueRejection p (tgQueue t)
    (mkCandidate (riQuality rel) (riRevision rel) score) an complete (is_pack parsed)))) as Ho.
  { apply Forall_app_2; [apply blocklistAndHistory_own | apply own_list, queueRejection_own]. }
  unfold videoItemState, baselineRejections. cbv zeta. set (out := _ ++ _) in *. clearbody out. parts; try done.
  all: try by eapply upgradeRejection_own.
  all: unfold transcodedRejection in *; owns.
Qed.

Lemma ItemStateRejections_own groups t p d : Forall own (ItemStateRejections groups t p d).
Proof.
  unfold ItemStateRejections. cbv zeta.
  destruct (match dcParsed d with Some pr => Some pr | None => _ end); [| constructor].
  destruct (tgDonor t); [| apply videoItemState_own].
  apply Forall_app_2; [apply donorItemState_own | apply blocklistAndHistory_own].
Qed.

(** ** The band of a decision *)

Definition band (d : Decision) : ResultBand := BandOf (dcApproved d) (dcRejections d).

(** The release is known not to be the item's by its title, or not known to be. *)
Definition another_title (t : Target) (d : Decision) : Prop :=
  match dcParsed d with
  | None => True
  | Some parsed =>
      exists r, identityRejection (tgKind t) (tgIdentity t) (newIdentityIndex (tgKind t) (tgIdentity t)) parsed (dcRelease d) =
                Some r /\ Of ReasonFullSeason r = false
  end.

Record well_decided (t : Target) (d : Decision) : Prop := {
  wd_raised : Forall raised (dcRejections d);
  wd_permanent : dcTemporarilyRejected d = false;
  wd_approved : dcApproved d = true <-> dcRejections d = [];
  wd_band_approved : band d = BandApproved <-> dcApproved d = true;
  wd_band_title : band d = BandOtherTitle <-> another_title t d;
}.

Lemma own_raised l : Forall own l -> Forall raised l.
Proof. apply Forall_impl. by intros ? []. Qed.

Lemma own_no_title l : Forall own l -> existsb other_title l = false.
Proof. induction 1 as [| r l' [_ Hr] _ IH]; [done |]. cbn. by rewrite Hr, IH. Qed.

Lemma all_permanent l : Forall raised l -> negb (bool_decide (l = [])) && allTemporary l = false.
Proof. intros [| r l' Hr%raised_permanent _]; [done |]. cbn. by rewrite Hr. Qed.

(** The decision on a parsed release: its identity's word, then checks of its
    own. *)
Lemma decided_well t rel parsed r own_checks d :
  r = identityRejection (tgKind t) (tgIdentity t) (newIdentityIndex (tgKind t) (tgIdentity t)) parsed rel ->
  Forall own own_checks ->
  dcParsed d = Some parsed -> dcRelease d = rel -> dcRejections d = option_list r ++ own_checks ->
  dcApproved d = bool_decide (dcRejections d = []) ->
  dcTemporarilyRejected d = negb (bool_decide (dcRejections d = [])) && allTemporary (dcRejections d) ->
  well_decided t d.
Proof.
  intros Er Ho Ep Erel Ej Ea Et. symmetry in Er. assert (Forall raised (dcRejections d)) as Hr.
  { rewrite Ej. apply Forall_app_2; [| by apply own_raised]. destruct r as [r |]; [| constructor].
    constructor; [| constructor]. by eapply identityRejection_of_title. }
  split; [done | by rewrite Et, all_permanent | by rewrite Ea, bool_decide_eq_true | |].
  - unfold band, BandOf. rewrite Ea. destruct (bool_decide _); cbn; [done |]. by case_match.
  - unfold band, BandOf, another_title. rewrite Ep, Erel, Ea, andb_diag, Er. case_bool_decide as En; [split; [done |]|].
    { intros (r' & -> & _). by rewrite Ej in En. }
    rewrite Ej, existsb_app, (own_no_title own_checks), orb_false_r by done. destruct r as [r |]; cbn [option_list existsb].
    + destruct (identityRejection_of_title _ _ _ _ _ _ Er) as [_ Ho']. cbn. rewrite Ho', orb_false_r.
      destruct (Of ReasonFullSeason r) eqn:E; cbn; split; try done; [intros (? & [= <-] & ?); congruence | by eauto].
    + split; [done | by intros (? & [=] & _)].
Qed.

Lemma evaluateDonor_well t donor lang need p o parsed rel score matched b :
  well_decided t (evaluateDonor t donor lang need p parsed rel score matched
    (sharedRejections t (newIdentityIndex (tgKind t) (tgIdentity t)) p parsed rel o) b).
Proof.
  pose proof (shared_checks_own t p parsed rel o). pose proof (sampleRejection_own rel).
  unfold evaluateDonor, when_approved, sharedRejections. cbv zeta. rewrite <- app_assoc.
  set (donors := option_list (donorLanguageRejection _ _ _ _ _)).
  assert (Forall own donors) by (subst donors; parts; unfold donorLanguageRejection in *; owns).
  destruct (dcApproved _); (eapply (decided_well t rel parsed); [reflexivity | | reflexivity..]);
    apply Forall_app_2; try done; repeat apply Forall_app_2; try done;
    destruct b; try constructor; apply donorItemState_own || apply blocklistAndHistory_own.
Qed.

Lemma evaluateOne_well groups t an need p rel o b :
  well_decided t (evaluateOne groups t (originalLanguageName (tgOriginalLanguageTag t)) an need
    (newIdentityIndex (tgKind t) (tgIdentity t)) p rel o b).
Proof.
  unfold evaluateOne. destruct (Parse _ _) as [pr | err].
  2: { split; cbn; rewrite ?(other_title_new ReasonUnableToParse err eq_refl); [| done | by split..].
    constructor; [| constructor]. exists ReasonUnableToParse, err. split; [by apply listed_in | done]. }
  cbv zeta. destruct (Profile_Score _ _ _) as [score matched]. set (rel' := _ <| riMatchedFormats := _ |>).
  set (parsed := read_languages _ _ _ _). clearbody rel' parsed.
  destruct (tgDonor t); [apply evaluateDonor_well |].
  destruct (languageChecks _ _ _ _) as [language complete] eqn:El.
  assert (language = fst (languageChecks (originalLanguageName (tgOriginalLanguageTag t)) an p parsed)) as -> by by rewrite El.
  match goal with |- well_decided t ?d => assert (exists l, Forall own l /\ dcRejections d =
    option_list (identityRejection (tgKind t) (tgIdentity t) (newIdentityIndex (tgKind t) (tgIdentity t)) parsed rel') ++ l)
    as (l & Ho & Ej) end.
  { eexists. split; [| by unfold ranked, sharedRejections; destruct (String.eqb _ _ || _); cbn; rewrite <- app_assoc].
    apply Forall_app_2; [apply shared_checks_own |]. apply Forall_app_2; [apply videoRejections_own |].
    destruct b; [apply videoItemState_own | constructor]. }
  eapply (decided_well t rel' parsed); [reflexivity | exact Ho | ..]; try exact Ej;
    unfold ranked; by destruct (String.eqb _ _ || _).
Qed.

(** The band after the item-state half. *)
Lemma band_WithItemState d x : (dcApproved d = true <-> dcRejections d = []) -> Forall own x ->
  band (WithItemState d x) = if bool_decide (band d = BandApproved) && negb (bool_decide (x = [])) then BandRejected else band d.
Proof.
  intros Ha Hx. unfold WithItemState. case_bool_decide; cbn; [by rewrite andb_false_r |]. rewrite andb_true_r.
  unfold band, BandOf. cbn. rewrite existsb_app, (own_no_title x), orb_false_r by done.
  destruct (dcApproved d); [rewrite (proj1 Ha eq_refl); done |]. cbn. by destruct (existsb _ _).
Qed.

(** What a decision says of itself holds: every reason is one of reasons.go,
    none temporary; approved is having no reason; other titles are the releases
    that do not parse and those whose title, ids or numbers are not the item's, a
    season pack apart; and what the item's state adds moves a release from
    approved to rejected, never among the other titles. *)
Theorem bands_tell_titles (groups : Groups) (t : Target) (p : Profile) (o : Options) (rels : list ReleaseInfo) :
  Forall (well_decided t) (Evaluate groups t p rels o) /\
  Forall (fun d => let state := ItemStateRejections groups t p d in
    band (WithItemState d state) =
    if bool_decide (band d = BandApproved) && negb (bool_decide (state = [])) then BandRejected else band d)
    (EvaluateRelease groups t p rels o).
Proof.
  split; apply list.Forall_forall; intros d (rel & <- & _)%list_elem_of_In%in_map_iff; [apply evaluateOne_well |].
  apply band_WithItemState; [apply evaluateOne_well | apply ItemStateRejections_own].
Qed.
End bands.

(** src/pkg/decision: the rank keys [Evaluate] builds (evaluate.go) are such as
    [Rank] (rank.go) sorts. *)

Section ranked.
Context `{Unicode} `{Quote} `{TextTables} `{TagParser} `{Patterns} `{FloatToInt}.

(** Small enough beside what an [int64] holds. *)
Definition modest (n : Z) : Prop := Z.abs n < 2 ^ 60.

(** The preferred size of what the release covers is modest. *)
Definition measurable (t : Target) (p : Profile) (d : Decision) : Prop :=
  match dcParsed d with
  | Some parsed =>
      match targetRuntimeMinutes t parsed with
      | Some minutes => modest (prefBytes (default zero_SizeLimit (pfSizes p !! qName (riQuality (dcRelease d)))) minutes)
      | None => True
      end
  | None => True
  end.

Lemma buildRankKey_measured p o t parsed rel score : 0 < riSizeBytes rel -> modest (riSizeBytes rel) ->
  measurable t p (decision_of rel parsed [] score []) ->
  let k := buildRankKey p o t parsed rel score in
  rkDonor k = false /\ rkPreferSmallestSize k = pfPreferSmallest p /\ rkAnime k = tgAnime t /\ measured k.
Proof.
  unfold measurable. cbn. intros Hs Hm Hp. unfold buildRankKey, measured. cbv zeta. destruct (pfPreferSmallest p); [cbn; split_and!; done || tauto |].
  destruct (preferLargest _); [by cbn; split_and! |].
  destruct (targetRuntimeMinutes t parsed) as [m |]; cbn; split_and!; done || tauto || idtac.
  unfold modest in *. set (pref := prefBytes _ m) in *.
  rewrite (wrap64_id (_ - pref)) by (unfold is_int64, MinInt64, MaxInt64, two_p63; lia).
  assert (abs64 (riSizeBytes rel - pref) = Z.abs (riSizeBytes rel - pref)) as ->.
  { unfold abs64. destruct (Z.ltb_spec (riSizeBytes rel - pref) 0); [| lia].
    rewrite wrap64_id by (unfold is_int64, MinInt64, MaxInt64, two_p63; lia). lia. }
  destruct (roundTo200MiB_near (Z.abs (riSizeBytes rel - pref))) as (k & -> & ? & _);
    unfold two_p63, sizeBucket in *; lia.
Qed.

(** Donors are kin, and the releases of a target otherwise. *)
Definition kin_of (t : Target) (p : Profile) : Decision -> Prop :=
  match tgDonor t with Some _ => kin true false false | None => kin false (pfPreferSmallest p) (tgAnime t) end.

Lemma evaluateOne_kin groups t an need idx p rel o b :
  let d := evaluateOne groups t (originalLanguageName (tgOriginalLanguageTag t)) an need idx p rel o b in
  0 < riSizeBytes rel -> modest (riSizeBytes rel) -> measurable t p d -> dcApproved d = true -> kin_of t p d.
Proof.
  unfold evaluateOne. destruct (Parse _ _) as [pr | err]; [| done]. cbv zeta. destruct (Profile_Score _ _ _) as [score matched].
  set (rel' := _ <| riMatchedFormats := _ |>). set (parsed := read_languages _ _ _ _).
  assert (riSizeBytes rel' = riSizeBytes rel) as <- by done. clearbody rel' parsed. unfold kin_of.
  destruct (tgDonor t) as [donor |].
  - intros _ _ _. unfold evaluateDonor, when_approved. destruct (dcApproved (decision_of _ _ _ _ _)) eqn:E; [| congruence].
    intros _. split; cbn; tauto || lia.
  - destruct (languageChecks _ _ _ _) as [language complete]. intros Hs Hm Hd _.
    destruct (buildRankKey_measured p o t parsed rel' score Hs Hm) as (Kd & Ks & Ka & Km).
    { revert Hd. unfold measurable, ranked. by destruct (String.eqb _ _ || _). }
    unfold ranked. destruct (String.eqb _ _ || _); [destruct (wholeSeasonOf _ _) |]; by split.
Qed.

(** The approved releases of one evaluation rank: their sizes being known,
    and those preferred modest, the order [Rank] puts them in is the one order
    any stable sort by its comparator makes, best first. *)
Theorem approved_releases_rank (groups : Groups) (t : Target) (p : Profile) (o : Options) (rels : list ReleaseInfo)
    (now : Time) (out : list Decision) :
  Forall (fun rel => 0 < riSizeBytes rel /\ modest (riSizeBytes rel)) rels ->
  Forall (measurable t p) (Evaluate groups t p rels o) ->
  let approved := List.filter dcApproved (Evaluate groups t p rels o) in
  stable_sort_of (less now now (opIndexerPriority o)) approved out <-> out = Rank now (opIndexerPriority o) approved.
Proof.
  intros Hs Hm approved. assert (Forall (kin_of t p) approved) as Hk.
  { apply list.Forall_forall. intros d [Hd Ha]%list_elem_of_In%filter_In. pose proof Hd as Hin.
    apply in_map_iff in Hd as (rel & <- & Hrel). rewrite !list.Forall_forall in *.
    destruct (Hs rel); [by apply list_elem_of_In |]. apply evaluateOne_kin; try done. apply Hm. by apply list_elem_of_In. }
  revert Hk. unfold kin_of. destruct (tgDonor t); apply Rank_sorts.
Qed.
End ranked.

#[local] Existing Instances ascii_unicode plain_quote ascii_tables ex_tags ex_patterns ex_floats.

Lemma approved_releases_rank_witness :
  let rels := [ex_indexed "Alien 1979 WEB" 9000; ex_indexed "Alien 1979 Bluray" 7000] in
  let approved := List.filter dcApproved (Evaluate None (ex_wanted "") ex_single rels ex_options) in
  stable_sort_of (less 0 0 ∅) approved (rev approved).
Proof.
  apply (approved_releases_rank None (ex_wanted "") ex_single ex_options).
  - repeat constructor.
  - vm_compute. repeat constructor.
  - vm_compute. reflexivity.
Defined.
