(* ===== verification/AdmitSlots.v ===== *)
(** * AdmitSlots: which transcodes may start

    src/app/transcode/admission: the view of a file (fileview.go), the slot
    scheduler (admit.go), the class a file dispatches to (class.go), the engines
    left beside Plex's streams (videolease.go) and the graft slots (graft.go):
    the pure half of admission, whose memory is [Admission]. *)

From S2P Require Import Prelude GoLang GoFacts GoFloat Api Names.
From Stdlib Require Import Ascii SpecFloat.

(** ** Names *)

Abbreviation UID := string (only parsing).

(** [types.NamespacedName] and its [String]. *)
Record NamespacedName := mkNN { nnNamespace : string; nnName : string }.

#[export] Instance NamespacedName_eq_dec : EqDecision NamespacedName.
Proof. solve_decision. Defined.

#[export] Instance NamespacedName_countable : Countable NamespacedName :=
  inj_countable' (fun k => (nnNamespace k, nnName k)) (fun '(a, b) => mkNN a b) ltac:(by intros []).

Definition nn_String (k : NamespacedName) : string := nnNamespace k +:+ "/" +:+ nnName k.

(** [transcodev1alpha1.Hardware]. *)
Definition HardwareCPU : string := "cpu".
Definition HardwareNVIDIA : string := "nvidia".
Definition HardwareIntel : string := "intel".
Definition HardwareAuto : string := "auto".
Definition HardwareGPU : string := "gpu".

(** [catalogv1alpha1.TranscodePhase], "" for no block. *)
Definition TranscodePhasePending : string := "Pending".
Definition TranscodePhasePlanned : string := "Planned".
Definition TranscodePhaseQueued : string := "Queued".
Definition TranscodePhaseRunning : string := "Running".
Definition TranscodePhaseSwapping : string := "Swapping".
Definition TranscodePhaseSucceeded : string := "Succeeded".
Definition TranscodePhaseFailed : string := "Failed".
Definition TranscodePhaseSkipped : string := "Skipped".

(** [catalogv1alpha1.GraftPhase]. *)
Definition GraftPhaseWaiting : string := "Waiting".
Definition GraftPhaseQueued : string := "Queued".
Definition GraftPhaseRunning : string := "Running".

(** The reasons of [graftplan] and [transcodeplan] that admission reads. *)
Definition graft_ReasonWaitingForSlot : string := "WaitingForSlot".
Definition ReasonJoinedTranscode : string := "JoinedTranscode".
Definition ReasonWaitingForSlot : string := "WaitingForSlot".
Definition ReasonWaitingForGPU : string := "WaitingForGPU".
Definition ReasonPoolDraining : string := "PoolDraining".

(** [graftplan.DefaultConcurrency]. *)
Definition DefaultConcurrency : Z := 2.

(** ** The view of a file *)

(** [FileView]. *)
Record FileView := mkFileView {
  fvUID : UID;
  fvKey : NamespacedName;
  fvSeq : Z;
  fvPhase : string;
  fvDispatchSeq : Z;
  fvClass : string;
  fvPool : string;
  fvProfile : string;
  fvProfileUID : UID;
  fvPlannedAt : Time;
  fvNextAttemptAt : Time;
  fvSuspended : bool;
  fvPriority : Z;
  fvHardware : string;
  fvEncodes : bool;
  fvEncoder : string;
  fvFallback : bool;
  fvJoinedGraft : bool;
  fvGraftPhase : string;
  fvGraftReason : string;
  fvGraftJobName : string;
  fvDonorImportedAt : Time;
  fvEligible : bool;
  fvEligibleKnown : bool;
  fvVerdictHolds : bool;
}.

#[export] Instance eta_FileView : Eta FileView :=
  fun v => mkFileView (fvUID v) (fvKey v) (fvSeq v) (fvPhase v) (fvDispatchSeq v) (fvClass v) (fvPool v) (fvProfile v)
    (fvProfileUID v) (fvPlannedAt v) (fvNextAttemptAt v) (fvSuspended v) (fvPriority v) (fvHardware v) (fvEncodes v)
    (fvEncoder v) (fvFallback v) (fvJoinedGraft v) (fvGraftPhase v) (fvGraftReason v) (fvGraftJobName v)
    (fvDonorImportedAt v) (fvEligible v) (fvEligibleKnown v) (fvVerdictHolds v).
#[export] Instance set_fvKey : Setter fvKey. Proof. derive_setter. Defined.
#[export] Instance set_fvProfileUID : Setter fvProfileUID. Proof. derive_setter. Defined.
#[export] Instance set_fvEligible : Setter fvEligible. Proof. derive_setter. Defined.
#[export] Instance set_fvEligibleKnown : Setter fvEligibleKnown. Proof. derive_setter. Defined.

(** [rank]: Queued < Running < the rest, at one seq. *)
Definition rank (p : string) : Z :=
  if String.eqb p TranscodePhaseQueued then 1 else if String.eqb p TranscodePhaseRunning then 2 else 3.

Definition windowPhase (p : string) : bool :=
  String.eqb p TranscodePhasePending || String.eqb p TranscodePhasePlanned || String.eqb p TranscodePhaseQueued
  || String.eqb p TranscodePhaseRunning || String.eqb p TranscodePhaseSwapping.

Definition slotPhase (p : string) : bool := String.eqb p TranscodePhaseQueued || String.eqb p TranscodePhaseRunning.

(** The status a view is made of, its fields that are read: TranscodePlan,
    TranscodeState, GraftState, MediaFileStatus, and the eligibility the
    transcode planner found. *)
Record TranscodePlan := mkTranscodePlan { tpMode : string; tpEncoder : string }.
Definition TranscodeModeTranscode : string := "transcode".

Record TranscodeState := mkTranscodeState {
  tsPhase : string;
  tsProfile : string;
  tsProfileHash : string;
  tsProbeHash : string;
  tsPlan : option TranscodePlan;
  tsHardware : string;
  tsPriority : Z;
  tsSuspended : bool;
  tsPlannedAt : option Time;
  tsClass : string;
  tsPool : string;
  tsFallbackReason : string;
  tsNextAttemptAt : option Time;
  tsDispatch : option Dispatch;
  tsJoinedGraft : bool;
}.

Record GraftState := mkGraftState {
  gsPhase : string;
  gsReason : string;
  gsJobName : string;
  gsDonorImportedAt : option Time;
}.

Record MediaFileStatus := mkMediaFileStatus {
  stLastSeq : Z;
  stProbeHash : string;
  stTranscode : option TranscodeState;
  stGraft : option GraftState;
}.

Record Eligibility := mkEligibility {
  elEligible : bool;
  elProfile : option (string * string);
  elHash : string;
  elPriority : Z;
}.

Definition nonempty_or (a b : string) : string := if String.eqb a "" then b else a.

(** [FileViewOf]; [elProfile] is the winning profile's name and hardware. *)
Definition FileViewOf (uid : UID) (key : NamespacedName) (st : MediaFileStatus) (e : option Eligibility) : FileView :=
  let profile := from_option (fun e => from_option fst "" (elProfile e)) "" e in
  let hardware := from_option (fun e => from_option snd "" (elProfile e)) "" e in
  let priority := from_option elPriority 0 e in
  let eligible := from_option elEligible false e in
  let known := bool_decide (is_Some e) in
  let '(gphase, greason, gjob, gdonor) := match stGraft st with
    | None => ("", "", "", 0)
    | Some g => (gsPhase g, gsReason g, gsJobName g, default 0 (gsDonorImportedAt g))
    end in
  match stTranscode st with
  | None =>
      mkFileView uid key (stLastSeq st) "" 0 "" "" profile "" 0 0 false priority hardware false "" false false
        gphase greason gjob gdonor eligible known false
  | Some b =>
      let ended := String.eqb (tsPhase b) TranscodePhaseSkipped || String.eqb (tsPhase b) TranscodePhaseFailed in
      mkFileView uid key (stLastSeq st) (tsPhase b) (from_option dpSeq 0 (tsDispatch b)) (tsClass b) (tsPool b)
        (nonempty_or (tsProfile b) profile) "" (default 0 (tsPlannedAt b)) (default 0 (tsNextAttemptAt b))
        (tsSuspended b)
        (if negb (tsPriority b =? 0) && (negb known || negb ended) then tsPriority b else priority)
        (nonempty_or (tsHardware b) hardware)
        (from_option (fun p => String.eqb (tpMode p) TranscodeModeTranscode) false (tsPlan b))
        (from_option tpEncoder "" (tsPlan b))
        (negb (String.eqb (tsFallbackReason b) ""))
        (tsJoinedGraft b && from_option InFlight false (tsDispatch b))
        gphase greason gjob gdonor eligible known
        (match e with
         | None => false
         | Some e => ended && String.eqb (tsProfileHash b) (elHash e) && String.eqb (tsProbeHash b) (stProbeHash st)
         end)
  end.

(** ** The slot scheduler *)

(** [Slot], [Budget]. *)
Record Slot := mkSlot {
  slKey : string;
  slHardware : string;
  slProfile : string;
  slPriority : Z;
  slCreated : Time;
}.

Record Budget := mkBudget { bgSlots : gmap string Z; bgProfileLimits : gmap string Z }.

(** A Go map of [int32], read and changed by key. *)
Definition at_ (m : gmap string Z) (k : string) : Z := default 0 (m !! k).
Definition add_at (m : gmap string Z) (k : string) (n : Z) : gmap string Z := <[k := wrap32 (at_ m k + n)]> m.

Definition AdmitsBefore (a b : Slot) : bool :=
  if negb (slPriority a =? slPriority b) then slPriority b <? slPriority a
  else if negb (Equal (slCreated a) (slCreated b)) then Before (slCreated a) (slCreated b)
  else String.ltb (slKey a) (slKey b).

Definition tally (f : Slot -> string) (l : list Slot) : gmap string Z :=
  fold_left (fun m s => add_at m (f s) 1) l ∅.

(** Whether a slot of its class is free and its profile is under its limit. *)
Definition admits (b : Budget) (used perProfile : gmap string Z) (q : Slot) : bool :=
  negb (at_ (bgSlots b) (slHardware q) <=? at_ used (slHardware q))
  && negb ((0 <? at_ (bgProfileLimits b) (slProfile q))
           && (at_ (bgProfileLimits b) (slProfile q) <=? at_ perProfile (slProfile q))).

Fixpoint admit_loop (b : Budget) (order : list Slot) (used perProfile : gmap string Z) (seen : list string) : list Slot :=
  match order with
  | [] => []
  | q :: order =>
      if bool_decide (slKey q ∈ seen) then admit_loop b order used perProfile seen
      else if admits b used perProfile q then
        q :: admit_loop b order (add_at used (slHardware q) 1) (add_at perProfile (slProfile q) 1) (slKey q :: seen)
      else admit_loop b order used perProfile (slKey q :: seen)
  end.

Definition Admit (queued running : list Slot) (b : Budget) : list Slot :=
  admit_loop b (SliceStable AdmitsBefore queued) (tally slHardware running) (tally slProfile running) [].

(** ** The class a file dispatches to *)

Definition GPUClasses : list string := [HardwareNVIDIA; HardwareIntel].

(** [ChooseClass]: its maps are read by key alone. *)
Fixpoint choose_gpu (gpuNodes unschedulable : string -> bool) (free : string -> Z) (cs : list string) (usable : bool) :
  option string * bool :=
  match cs with
  | [] => (None, usable)
  | c :: cs =>
      if negb (gpuNodes c) || unschedulable c then choose_gpu gpuNodes unschedulable free cs usable
      else if 0 <? free c then (Some c, true) else choose_gpu gpuNodes unschedulable free cs true
  end.

Definition ChooseClass (gpuNodes unschedulable : string -> bool) (free : string -> Z) (fallback gpuOnly : bool) : string :=
  if fallback then HardwareCPU
  else match choose_gpu gpuNodes unschedulable free GPUClasses false with
       | (Some c, _) => c
       | (None, usable) => if gpuOnly && usable then "" else HardwareCPU
       end.

Definition WaitingForGPU : string := "waiting for a free GPU slot (hardware: gpu)".

Definition hardwareOf (v : FileView) : string := nonempty_or (fvHardware v) HardwareAuto.

Definition choosesClass (v : FileView) : bool :=
  String.eqb (hardwareOf v) HardwareAuto || String.eqb (hardwareOf v) HardwareGPU.

Definition gpuOnly (v : FileView) : bool := String.eqb (hardwareOf v) HardwareGPU.

(** [transcodeplan.HardwareForEncoder]. *)
Definition HardwareForEncoder (encoder : string) : string :=
  if String.eqb encoder "hevc_nvenc" then HardwareNVIDIA
  else if String.eqb encoder "hevc_qsv" || String.eqb encoder "hevc_vaapi" then HardwareIntel
  else HardwareCPU.

Definition classFor (v : FileView) : string :=
  let hw := hardwareOf v in
  if String.eqb hw HardwareNVIDIA || String.eqb hw HardwareIntel then hw
  else if fvFallback v || String.eqb (fvEncoder v) "" then HardwareCPU
  else HardwareForEncoder (fvEncoder v).

(** [pool.Key] and [pool.Name]. *)
Record PoolKey := mkPoolKey { pkProfile : string; pkProfileUID : UID; pkClass : string }.

#[export] Instance PoolKey_eq_dec : EqDecision PoolKey.
Proof. solve_decision. Defined.

#[export] Instance PoolKey_countable : Countable PoolKey :=
  inj_countable' (fun k => (pkProfile k, pkProfileUID k, pkClass k)) (fun '(a, b, c) => mkPoolKey a b c) ltac:(by intros []).

Definition pool_Name `{Unicode} (k : PoolKey) : string :=
  LabelSafeName ("transcode-pool-" +:+ pkProfile k +:+ "-" +:+ pkClass k) [pkProfileUID k; pkClass k].

(** [candidate], [hold]. *)
Record candidate := mkCandidate { cdUID : UID; cdView : FileView; cdSlot : Slot }.
Record hold := mkHold { hdUID : UID; hdMsg : string; hdCause : string }.

Definition with_class (c : candidate) (class : string) : candidate :=
  let s := cdSlot c in
  mkCandidate (cdUID c) (cdView c) (mkSlot (slKey s) class (slProfile s) (slPriority s) (slCreated s)).

(** What [assignClasses] is given besides the candidates. *)
Record Assignment := mkAssignment {
  agGPU : string -> bool;
  agUnschedulable : string -> string -> bool;
  agHeld : gmap PoolKey string;
  agProfileUIDs : gmap string UID;
  agBudget : Budget;
}.

(** The class [c] competes for, the free slots being [free]. *)
Definition class_of (a : Assignment) (free : string -> Z) (v : FileView) : string :=
  if choosesClass v && fvEncodes v then
    ChooseClass (agGPU a) (agUnschedulable a (fvProfile v)) free (fvFallback v) (gpuOnly v)
  else classFor v.

(** Whether [Admit] is expected to take [c] in [class]. *)
Definition expects (limits free perProfile : gmap string Z) (profile class : string) : bool :=
  (0 <? at_ free class) && ((at_ limits profile <=? 0) || (at_ perProfile profile <? at_ limits profile)).

Fixpoint assign_loop (a : Assignment) (ordered : list candidate) (free perProfile : gmap string Z) :
  list candidate * list hold :=
  match ordered with
  | [] => ([], [])
  | c :: ordered =>
      let class := class_of a (at_ free) (cdView c) in
      if String.eqb class "" then
        let '(queued, holds) := assign_loop a ordered free perProfile in
        (queued, mkHold (cdUID c) WaitingForGPU ReasonWaitingForGPU :: holds)
      else
        let k := mkPoolKey (fvProfile (cdView c)) (default "" (agProfileUIDs a !! fvProfile (cdView c))) class in
        match agHeld a !! k with
        | Some msg =>
            let '(queued, holds) := assign_loop a ordered free perProfile in
            (queued, mkHold (cdUID c) msg ReasonPoolDraining :: holds)
        | None =>
            let profile := slProfile (cdSlot c) in
            let '(queued, holds) :=
              if expects (bgProfileLimits (agBudget a)) free perProfile profile class
              then assign_loop a ordered (add_at free class (-1)) (add_at perProfile profile 1)
              else assign_loop a ordered free perProfile in
            (with_class c class :: queued, holds)
        end
  end.

Definition free_of (slots : gmap string Z) (running : list Slot) : gmap string Z :=
  fold_left (fun m s => add_at m (slHardware s) (-1)) running slots.

Definition assignClasses (a : Assignment) (cands : list candidate) (running : list Slot) : list candidate * list hold :=
  assign_loop a (SliceStable (fun c d => AdmitsBefore (cdSlot c) (cdSlot d)) cands)
    (free_of (bgSlots (agBudget a)) running) (tally slProfile running).

(** ** Beside Plex's streams *)

(** [transcode.Limits], [transcodeplan.Device]: the fields that are read. *)
Record Device := mkDevice { dvTier : string; dvLimits : gmap string Z }.

(** [int(math.Ceil(x))]; an [int] times a quarter is finite, and fits one. *)
Definition int_ceil (x : spec_float) : Z :=
  match x with
  | S754_finite s m e =>
      let z := if s then - Z.pos m else Z.pos m in
      if 0 <=? e then z * 2 ^ e else - ((- z) / 2 ^ (- e))
  | _ => 0
  end.

Definition videoStreamShare : spec_float := lit 1 4.

Definition VideoAllowance (engines streams : Z) : Z :=
  let engines := Z.max engines 1 in
  if streams <=? 0 then engines
  else Z.max (engines - Z.max (int_ceil (fmul (of_int streams) videoStreamShare)) 1) 0.

(** [videoEngines]: [dvLimits] is each tier's VideoEngines. *)
Definition videoEngines (d : Device) : Z := map_fold (fun _ l n => Z.max n l) 0 (dvLimits d).

Definition YieldingToPlex : string := "waiting: Plex is converting video on the GPU".

Definition yieldMessage (streams beside : Z) : string :=
  if beside <=? 0 then YieldingToPlex
  else YieldingToPlex +:+ " (" +:+ fmt_d streams +:+ " stream(s); " +:+ fmt_d beside +:+ " encode(s) run beside them)".

(** ** Graft slots *)

(** [GraftFile]. *)
Record GraftFile := mkGraftFile {
  gfUID : UID;
  gfKey : NamespacedName;
  gfPhase : string;
  gfReason : string;
  gfJobName : string;
  gfDonorImportedAt : Time;
  gfJoinInFlight : bool;
  gfGranted : bool;
  gfOnBackoff : bool;
}.

Definition holds_graft (phase reason : string) : bool :=
  String.eqb phase GraftPhaseQueued || String.eqb phase GraftPhaseRunning && negb (String.eqb reason ReasonJoinedTranscode).

Definition holdsGraftSlot (f : GraftFile) : bool := holds_graft (gfPhase f) (gfReason f).

Definition graftHoldsSlot (v : FileView) : bool := holds_graft (fvGraftPhase v) (fvGraftReason v).

Definition graftCandidate (f : GraftFile) : bool :=
  String.eqb (gfPhase f) GraftPhaseWaiting && String.eqb (gfReason f) graft_ReasonWaitingForSlot
  && negb (gfJoinInFlight f) && negb (gfGranted f) && negb (gfOnBackoff f).

(** The files of [ns] that hold a slot. *)
Definition slot_holders (ns : string) (files : list GraftFile) : list GraftFile :=
  List.filter (fun f => String.eqb (nnNamespace (gfKey f)) ns && holdsGraftSlot f) files.

Definition GraftInUse (ns : string) (files : list GraftFile) (jobs : gmap string (list string)) (grants : gmap string Z) : Z :=
  let held := slot_holders ns files in
  let named := List.filter (fun f => negb (String.eqb (gfJobName f) "")) held in
  let extra := List.filter (fun f => String.eqb (gfJobName f) "") held in
  let names : gset string := list_to_set (default [] (jobs !! ns) ++ (gfJobName <$> named)) in
  Z.of_nat (size names) + Z.of_nat (length extra) + at_ grants ns.

(** The order of the candidates of one namespace. *)
Definition graftBefore (a b : GraftFile) : bool :=
  if negb (Equal (gfDonorImportedAt a) (gfDonorImportedAt b)) then Before (gfDonorImportedAt a) (gfDonorImportedAt b)
  else String.ltb (nn_String (gfKey a)) (nn_String (gfKey b)).

Definition graft_waiting (ns : string) (files : list GraftFile) : list GraftFile :=
  List.filter (fun f => String.eqb (nnNamespace (gfKey f)) ns && graftCandidate f) files.

(** The namespaces with a candidate, sorted. *)
Definition graft_namespaces (files : list GraftFile) : list string :=
  SliceStable String.ltb (elements (list_to_set ((fun f => nnNamespace (gfKey f)) <$> List.filter graftCandidate files) : gset string)).

Definition GraftGrants (files : list GraftFile) (jobs : gmap string (list string)) (grants : gmap string Z) (limit : Z) :
  list UID :=
  let limit := if limit <=? 0 then DefaultConcurrency else limit in
  flat_map (fun ns =>
    gfUID <$> take (Z.to_nat (limit - GraftInUse ns files jobs grants)) (SliceStable graftBefore (graft_waiting ns files)))
    (graft_namespaces files).

Definition graftRelevant (phase : string) : bool :=
  String.eqb phase GraftPhaseWaiting || String.eqb phase GraftPhaseQueued || String.eqb phase GraftPhaseRunning.
