(* ===== verification/AdmitFacts.v ===== *)
(** * AdmitFacts: what the slot scheduler decides

    The queue is taken in one order, and by room alone; the classes are assigned
    as it then decides; graft slots go to the donors that came first. *)

From stdpp Require Import sorting.
From S2P Require Import Prelude GoLang GoFacts GoFloat Api Names AdmitSlots.

(** ** Counting *)

Definition count (f : Slot -> string) (h : string) (l : list Slot) : Z :=
  Z.of_nat (length (List.filter (fun s => String.eqb (f s) h) l)).

Lemma count_app f h l m : count f h (l ++ m) = count f h l + count f h m.
Proof. unfold count. rewrite List.filter_app, length_app. lia. Qed.

Lemma count_one f h s : count f h [s] = if String.eqb (f s) h then 1 else 0.
Proof. unfold count. cbn. by destruct (String.eqb (f s) h). Qed.

Lemma tally_cons f h s l : count f h (s :: l) = (if String.eqb (f s) h then 1 else 0) + count f h l.
Proof. rewrite <- count_one. apply (count_app f h [s]). Qed.

Lemma count_bounds f h l : 0 <= count f h l <= Z.of_nat (length l).
Proof. unfold count. pose proof (List.filter_length_le (fun s => String.eqb (f s) h) l). lia. Qed.

Lemma count_perm f h l m : l ≡ₚ m -> count f h l = count f h m.
Proof.
  intros Hp. unfold count. f_equal. induction Hp; cbn; repeat case_match; cbn; congruence.
Qed.

Lemma wrap32_small z : - two_p31 <= z < two_p31 -> wrap32 z = z.
Proof. unfold wrap32, two_p31. intros H. rewrite Z.mod_small; lia. Qed.

Lemma at_add m k n h : - two_p31 <= at_ m k + n < two_p31 ->
  at_ (add_at m k n) h = at_ m h + if String.eqb k h then n else 0.
Proof.
  intros Hb. unfold add_at. unfold at_ at 1. destruct (String.eqb_spec k h) as [<- | Hne].
  - rewrite lookup_insert_eq. cbn. by apply wrap32_small.
  - rewrite lookup_insert_ne by done. unfold at_. lia.
Qed.

(** [m] holds the counts of [l]. *)
Definition counts (f : Slot -> string) (m : gmap string Z) (l : list Slot) : Prop := forall h, at_ m h = count f h l.

Lemma counts_add f m l s : Z.of_nat (length l) < two_p31 - 1 -> counts f m l -> counts f (add_at m (f s) 1) (l ++ [s]).
Proof.
  intros Hl Hc h. pose proof (count_bounds f (f s) l). rewrite count_app, count_one, at_add, (Hc h); [done |].
  rewrite (Hc (f s)). unfold two_p31 in *. lia.
Qed.

Lemma tally_counts f l : Z.of_nat (length l) < two_p31 -> counts f (tally f l) l.
Proof.
  unfold tally. intros Hl. enough (forall m k, counts f m k -> Z.of_nat (length (k ++ l)) < two_p31 ->
    counts f (fold_left (fun m s => add_at m (f s) 1) l m) (k ++ l)) as H by (by apply (H ∅ [])).
  clear Hl. induction l as [| s l IH]; intros m k Hm Hl; cbn; [by rewrite app_nil_r |].
  rewrite length_app in Hl. cbn in Hl. replace (k ++ s :: l) with ((k ++ [s]) ++ l) by by rewrite <- app_assoc.
  apply IH; [apply counts_add; [lia | done] |]. rewrite !length_app. cbn. lia.
Qed.

Lemma free_counts slots l : (forall h, 0 <= at_ slots h < two_p31) -> Z.of_nat (length l) < two_p31 ->
  forall h, at_ (free_of slots l) h = at_ slots h - count slHardware h l.
Proof.
  unfold free_of. intros Hs Hl. enough (forall m k, (forall h, at_ m h = at_ slots h - count slHardware h k) ->
    Z.of_nat (length (k ++ l)) < two_p31 ->
    forall h, at_ (fold_left (fun m s => add_at m (slHardware s) (-1)) l m) h = at_ slots h - count slHardware h (k ++ l)) as H.
  { apply (H slots []); [| done]. intros h. unfold count. cbn. lia. }
  clear Hl. induction l as [| s l IH]; intros m k Hm Hl; cbn; [by rewrite app_nil_r |].
  rewrite length_app in Hl. cbn in Hl. replace (k ++ s :: l) with ((k ++ [s]) ++ l) by by rewrite <- app_assoc.
  apply IH; [| rewrite !length_app; cbn; lia]. intros h. pose proof (count_bounds slHardware (slHardware s) k).
  pose proof (Hs (slHardware s)). unfold two_p31 in *.
  rewrite count_app, count_one, at_add, (Hm h); [destruct (String.eqb _ h); lia |]. rewrite Hm. unfold two_p31. lia.
Qed.

(** ** The order of the queue *)

Lemma AdmitsBefore_spec a b : AdmitsBefore a b = true <->
  slPriority b < slPriority a \/
  (slPriority a = slPriority b /\ (slCreated a < slCreated b \/
    (slCreated a = slCreated b /\ String.ltb (slKey a) (slKey b) = true))).
Proof.
  unfold AdmitsBefore, Equal, Before.
  destruct (Z.eqb_spec (slPriority a) (slPriority b)) as [E | E]; cbn; [| rewrite Z.ltb_lt; lia].
  destruct (Z.eqb_spec (slCreated a) (slCreated b)) as [F | F]; cbn; [| rewrite Z.ltb_lt; lia].
  split; [tauto | intros [? | (_ & [? | (_ & ?)])]; [lia | lia | done]].
Qed.

(** The order the scheduler promises: priority, higher first; then creation,
    older first; then the key. *)
Definition goes_before (a b : Slot) : Prop :=
  slPriority b < slPriority a \/
  (slPriority a = slPriority b /\ slCreated a < slCreated b) \/
  (slPriority a = slPriority b /\ slCreated a = slCreated b /\ String.ltb (slKey a) (slKey b) = true).

#[export] Instance goes_before_dec : RelDecision goes_before.
Proof. intros a b. unfold goes_before. apply _. Defined.

Lemma goes_before_iff a b : AdmitsBefore a b = true <-> goes_before a b.
Proof. rewrite AdmitsBefore_spec. unfold goes_before. tauto. Qed.

Lemma AdmitsBefore_trans a b c : AdmitsBefore a b = true -> AdmitsBefore b c = true -> AdmitsBefore a c = true.
Proof.
  rewrite !AdmitsBefore_spec. intros [? | (? & [? | (? & Hab)])] [? | (? & [? | (? & Hbc)])]; try (left; lia);
    right; (split; [lia |]); try (left; lia). right. split; [lia |]. by eapply string_ltb_trans.
Qed.

Lemma AdmitsBefore_irrefl a : AdmitsBefore a a = false.
Proof.
  destruct (AdmitsBefore a a) eqn:E; [| done]. apply AdmitsBefore_spec in E as [? | (_ & [? | (_ & H)])]; [lia | lia |].
  by rewrite string_ltb_irrefl in H.
Qed.

Lemma AdmitsBefore_asym a b : AdmitsBefore a b = true -> AdmitsBefore b a = false.
Proof.
  intros H. destruct (AdmitsBefore b a) eqn:E; [| done]. pose proof (AdmitsBefore_trans _ _ _ H E) as F.
  by rewrite AdmitsBefore_irrefl in F.
Qed.

Lemma AdmitsBefore_total a b : slKey a <> slKey b -> AdmitsBefore a b = true \/ AdmitsBefore b a = true.
Proof.
  intros Hk. rewrite !AdmitsBefore_spec. destruct (string_ltb_total _ _ Hk), (Z.lt_trichotomy (slPriority a) (slPriority b)) as [? | [? | ?]],
    (Z.lt_trichotomy (slCreated a) (slCreated b)) as [? | [? | ?]]; try (left; left; lia); try (right; left; lia);
    try (left; right; split; [lia |]; left; lia); try (right; right; split; [lia |]; left; lia);
    [left | right | .. ]; right; (split; [lia |]); right; (split; [lia | done]).
Qed.

Lemma AdmitsBefore_cotrans a b c : AdmitsBefore a c = true -> AdmitsBefore a b = true \/ AdmitsBefore b c = true.
Proof.
  intros H. destruct (AdmitsBefore a b) eqn:E; [by left |]. right.
  destruct (String.eqb_spec (slKey a) (slKey b)) as [Hk | Hk].
  - apply AdmitsBefore_spec in H. apply AdmitsBefore_spec. rewrite <- Hk.
    assert (slPriority a <= slPriority b /\ (slPriority a = slPriority b -> slCreated b <= slCreated a)) as [Hp Hc].
    { split; [| intros Hp]; apply Z.le_ngt; intros Hlt; assert (AdmitsBefore a b = true) as F; try congruence;
        apply AdmitsBefore_spec; [left; lia | right; split; [lia | left; lia]]. }
    destruct (Z.eq_dec (slPriority a) (slPriority b)) as [Ep | Ep]; [specialize (Hc Ep) |]; [| left; lia].
    destruct H as [? | (? & [? | (? & ?)])]; [left; lia | right; split; [lia | left; lia] |].
    right. split; [lia |]. destruct (Z.eq_dec (slCreated a) (slCreated b)); [right; split; [lia | done] | left; lia].
  - destruct (AdmitsBefore_total a b Hk) as [F | F]; [congruence |]. by apply (AdmitsBefore_trans b a c).
Qed.

Abbreviation queue := (StronglySorted (fun x y => AdmitsBefore x y = true)).

(** ** What [Admit] answers *)

(** There is room for [q] beside [taken]. *)
Definition fits (b : Budget) (taken : list Slot) (q : Slot) : bool :=
  (count slHardware (slHardware q) taken <? at_ (bgSlots b) (slHardware q))
  && ((at_ (bgProfileLimits b) (slProfile q) <=? 0)
      || (count slProfile (slProfile q) taken <? at_ (bgProfileLimits b) (slProfile q))).

(** Those of [l] that go before [q]. *)
Definition ahead (q : Slot) (l : list Slot) : list Slot := List.filter (fun a => AdmitsBefore a q) l.

Lemma admits_fits b used per taken q : counts slHardware used taken -> counts slProfile per taken ->
  admits b used per q = fits b taken q.
Proof.
  intros Hu Hp. unfold admits, fits. rewrite Hu, Hp, negb_andb, <- !Z.ltb_antisym. f_equal. f_equal. rewrite Z.leb_antisym. done.
Qed.

Lemma fits_perm b l m q : l ≡ₚ m -> fits b l q = fits b m q.
Proof. intros Hp. unfold fits. by rewrite !(count_perm _ _ _ _ Hp). Qed.

Lemma queue_not_before q l : queue (q :: l) -> ahead q (q :: l) = [].
Proof.
  intros Hq. unfold ahead. cbn. rewrite AdmitsBefore_irrefl. inversion Hq as [| ? ? _ Hl]; subst.
  induction Hl as [| x l Hx Hl IH]; cbn; [done |]. rewrite (AdmitsBefore_asym _ _ Hx). apply IH.
  inversion Hq as [| ? ? Hs Hf]; subst. inversion Hs; inversion Hf; subst. by constructor.
Qed.

Lemma ahead_nil q l : Forall (fun x => AdmitsBefore q x = true) l -> ahead q l = [].
Proof. induction 1 as [| x l Hx _ IH]; [done |]. unfold ahead in *. cbn. by rewrite (AdmitsBefore_asym _ _ Hx). Qed.

Lemma admit_loop_sublist b order used per seen : sublist (admit_loop b order used per seen) order.
Proof.
  revert used per seen. induction order as [| q order IH]; intros used per seen; cbn; [done |].
  repeat case_match; first [apply sublist_skip; apply IH | apply sublist_cons; apply IH].
Qed.

Lemma sublist_Forall {A} (P : A -> Prop) l m : sublist l m -> Forall P m -> Forall P l.
Proof. induction 1; intros HP; [done | inversion HP; subst; constructor; auto | inversion HP; subst; auto]. Qed.

Lemma sublist_sorted {A} (R : A -> A -> Prop) l m : sublist l m -> StronglySorted R m -> StronglySorted R l.
Proof.
  induction 1 as [| x l m Hl IH | x l m Hl IH]; intros HR; [done | |]; inversion HR; subst; [| auto].
  constructor; [auto |]. by eapply sublist_Forall.
Qed.

(** The loop, after [taken]: each of the queue is taken that fits beside what
    was taken before it. *)
Lemma admit_loop_spec b order used per seen taken :
  queue order -> NoDup (slKey <$> order) -> (forall q, q ∈ order -> slKey q ∉ seen) ->
  counts slHardware used taken -> counts slProfile per taken ->
  Z.of_nat (length taken + length order) < two_p31 ->
  forall q, q ∈ order -> (q ∈ admit_loop b order used per seen <->
    fits b (taken ++ ahead q (admit_loop b order used per seen)) q = true).
Proof.
  revert used per seen taken. induction order as [| q0 order IH]; intros used per seen taken Hs Hn Hseen Hu Hp Hl q Hq;
    [by apply not_elem_of_nil in Hq |].
  cbn [admit_loop]. rewrite bool_decide_eq_false_2 by (apply Hseen; constructor).
  rewrite (admits_fits b used per taken q0) by done. cbn in Hn, Hl. apply list.NoDup_cons in Hn as [Hq0 Hn].
  inversion Hs as [| ? ? Hs' Hf]; subst.
  assert (forall x, x ∈ order -> slKey x ∉ slKey q0 :: seen) as Hseen'.
  { intros x Hx. rewrite list.elem_of_cons. intros [E | E]; [| by apply (Hseen x); [by constructor |]].
    apply Hq0. rewrite <- E. by apply list_elem_of_fmap_2. }
  assert (q0 ∉ order) as Hni by (intros Hi; apply Hq0; by apply list_elem_of_fmap_2).
  rewrite list.elem_of_cons in Hq. destruct (fits b taken q0) eqn:F.
  - set (out := admit_loop b order _ _ _) in *.
    assert (Forall (fun x => AdmitsBefore q0 x = true) out) as Ho by (eapply sublist_Forall; [apply admit_loop_sublist | done]).
    destruct Hq as [-> | Hq].
    + assert (ahead q0 (q0 :: out) = []) as ->. { unfold ahead. cbn. rewrite AdmitsBefore_irrefl. by apply ahead_nil. }
      rewrite app_nil_r, list.elem_of_cons. tauto.
    + assert (ahead q (q0 :: out) = q0 :: ahead q out) as ->.
      { unfold ahead. cbn. rewrite list.Forall_forall in Hf. by rewrite (Hf q Hq). }
      rewrite list.elem_of_cons. replace (taken ++ q0 :: ahead q out) with ((taken ++ [q0]) ++ ahead q out) by by rewrite <- app_assoc.
      unfold out. rewrite <- (IH _ _ _ (taken ++ [q0])); try done.
      * split; [intros [-> | ?]; done | by right].
      * apply counts_add; [unfold two_p31 in *; lia | done].
      * apply counts_add; [unfold two_p31 in *; lia | done].
      * rewrite length_app. cbn. unfold two_p31 in *. lia.
  - set (out := admit_loop b order _ _ _) in *.
    assert (Forall (fun x => AdmitsBefore q0 x = true) out) as Ho by (eapply sublist_Forall; [apply admit_loop_sublist | done]).
    destruct Hq as [-> | Hq].
    + rewrite ahead_nil, app_nil_r, F by done. split; [| done]. intros Hi. exfalso. apply Hni.
      by eapply sublist_subseteq; [apply admit_loop_sublist |].
    + apply (IH _ _ _ taken); try done. unfold two_p31 in *. lia.
Qed.

Lemma ahead_sublist q l : sublist (ahead q l) l.
Proof. unfold ahead. induction l as [| x l IH]; cbn; [done |]. by case_match; constructor. Qed.

Lemma elem_of_ahead q l x : x ∈ ahead q l <-> x ∈ l /\ AdmitsBefore x q = true.
Proof. unfold ahead. by rewrite !list_elem_of_In, filter_In. Qed.

Lemma queue_ext (l m : list Slot) : queue l -> queue m -> (forall x, x ∈ l <-> x ∈ m) -> l = m.
Proof.
  intros Hl. revert m. induction Hl as [| x l Hl IH Hx]; intros [| y m] Hm He.
  - done.
  - exfalso. apply (not_elem_of_nil y), He. constructor.
  - exfalso. apply (not_elem_of_nil x), He. constructor.
  - inversion Hm as [| ? ? Hm' Hy]; subst. rewrite list.Forall_forall in Hx, Hy.
    assert (x = y) as ->.
    { assert (x ∈ y :: m) as H1 by (apply He; constructor). assert (y ∈ x :: l) as H2 by (apply He; constructor).
      apply list.elem_of_cons in H1 as [? | H1]; [done |]. apply list.elem_of_cons in H2 as [? | H2]; [done |].
      pose proof (AdmitsBefore_asym _ _ (Hx _ H2)). pose proof (Hy _ H1). congruence. }
    f_equal. apply IH; [done |]. intros z. specialize (He z). rewrite !list.elem_of_cons in He.
    split; intros Hz.
    + destruct He as [He _]. destruct He as [-> | ?]; [by right | | done]. pose proof (Hx _ Hz). by rewrite AdmitsBefore_irrefl in *.
    + destruct He as [_ He]. destruct He as [-> | ?]; [by right | | done]. pose proof (Hy _ Hz). by rewrite AdmitsBefore_irrefl in *.
Qed.

(** The queue in order. *)
Lemma sorted_by {A} (f : A -> Slot) (l : list A) : NoDup ((fun x => slKey (f x)) <$> l) ->
  StronglySorted (fun x y => AdmitsBefore (f x) (f y) = true) (SliceStable (fun x y => AdmitsBefore (f x) (f y)) l).
Proof.
  intros Hn. destruct (SliceStable_sorts (fun x y => AdmitsBefore (f x) (f y)) (fun _ => True)) with (l := l) as (Hp & Hs & _).
  - intros x y _ _. apply AdmitsBefore_asym.
  - intros x y z _ _ _. apply AdmitsBefore_cotrans.
  - by apply Forall_true.
  - assert (NoDup ((fun x => slKey (f x)) <$> SliceStable (fun x y => AdmitsBefore (f x) (f y)) l)) as Hn' by by rewrite Hp.
    clear Hp Hn. induction Hs as [| x k Hk IH Hx]; cbn in Hn'; [constructor |].
    apply list.NoDup_cons in Hn' as [Hnx Hn']. constructor; [by apply IH |]. rewrite list.Forall_forall in *.
    intros y Hy. destruct (AdmitsBefore_total (f x) (f y)) as [? | F]; [| done |].
    + intros E. apply Hnx. rewrite E. by apply (list_elem_of_fmap_2 (fun x => slKey (f x))).
    + rewrite (Hx y Hy) in F. done.
Qed.

Lemma SliceStable_perm {A} (f : A -> Slot) (l : list A) : SliceStable (fun x y => AdmitsBefore (f x) (f y)) l ≡ₚ l.
Proof.
  destruct (SliceStable_sorts (fun x y => AdmitsBefore (f x) (f y)) (fun _ => True)) with (l := l) as (Hp & _ & _);
    [| | by apply Forall_true | done].
  - intros x y _ _. apply AdmitsBefore_asym.
  - intros x y z _ _ _. apply AdmitsBefore_cotrans.
Qed.

Lemma sorted_queue l : NoDup (slKey <$> l) -> queue (SliceStable AdmitsBefore l).
Proof. apply (sorted_by id). Qed.

Lemma queue_perm l : SliceStable AdmitsBefore l ≡ₚ l.
Proof. apply (SliceStable_perm id). Qed.

(** Nothing else fits the description. *)
Lemma fits_unique b taken (order out out' : list Slot) :
  queue out -> queue out' ->
  (forall q, q ∈ out <-> q ∈ order /\ fits b (taken ++ ahead q out) q = true) ->
  (forall q, q ∈ out' <-> q ∈ order /\ fits b (taken ++ ahead q out') q = true) -> out = out'.
Proof.
  intros Ho Ho' H H'. apply queue_ext; [done | done |].
  assert (forall n q, (length (ahead q order) < n)%nat -> q ∈ out <-> q ∈ out') as Hind; [| intros q; apply (Hind (S (length (ahead q order)))); lia].
  induction n as [| n IH]; intros q Hn; [lia |]. rewrite H, H'.
  enough (q ∈ order -> ahead q out = ahead q out') as He.
  { split; intros [Hq Hf]; (split; [done |]); [rewrite <- He | rewrite He]; done. }
  intros Hq. apply queue_ext; try (eapply sublist_sorted; [apply ahead_sublist | done]).
  intros x. rewrite !elem_of_ahead. enough (AdmitsBefore x q = true -> x ∈ order -> x ∈ out <-> x ∈ out') as Hx.
  { split; intros [Hi Hb]; (split; [| done]); apply Hx; try done; [apply H in Hi | apply H' in Hi]; tauto. }
  intros Hb Hxo. apply IH. enough (length (ahead x order) < length (ahead q order))%nat by lia.
  assert (x ∈ ahead q order /\ x ∉ ahead x order) as [H1 H2].
  { rewrite !elem_of_ahead, AdmitsBefore_irrefl. split; [done | intros [_ ?]; done]. }
  clear - H1 H2 Hb. unfold ahead in *. induction order as [| y l IH]; cbn in *; [by apply not_elem_of_nil in H1 |].
  assert (forall l, length (List.filter (fun a => AdmitsBefore a x) l) <= length (List.filter (fun a => AdmitsBefore a q) l))%nat as Hle.
  { clear - Hb. induction l as [| z l IH]; cbn; [done |]. destruct (AdmitsBefore z x) eqn:E; [rewrite (AdmitsBefore_trans _ _ _ E Hb) | case_match]; cbn; lia. }
  destruct (AdmitsBefore y x) eqn:E.
  - rewrite (AdmitsBefore_trans _ _ _ E Hb) in *. cbn. rewrite list.elem_of_cons in H1, H2. apply (proj1 (Nat.succ_lt_mono _ _)), IH; [| tauto].
    destruct H1 as [-> | ?]; [| done]. by rewrite AdmitsBefore_irrefl in E.
  - destruct (AdmitsBefore y q) eqn:F; cbn; [pose proof (Hle l); lia |]. by apply IH.
Qed.

Lemma Admit_queue queued running b : NoDup (slKey <$> queued) -> queue (Admit queued running b).
Proof. intros Hn. eapply sublist_sorted; [apply admit_loop_sublist | by apply sorted_queue]. Qed.

Lemma Admit_queued queued running b q : q ∈ Admit queued running b -> q ∈ queued.
Proof. intros Hq. rewrite <- (queue_perm queued). by eapply sublist_subseteq; [apply admit_loop_sublist |]. Qed.

Lemma Admit_fits queued running b q : NoDup (slKey <$> queued) -> Z.of_nat (length running + length queued) < two_p31 ->
  q ∈ queued -> (q ∈ Admit queued running b <-> fits b (running ++ ahead q (Admit queued running b)) q = true).
Proof.
  intros Hn Hl Hq. pose proof (queue_perm queued) as Hp. pose proof (sorted_queue queued Hn) as Hs.
  apply (admit_loop_spec b _ _ _ [] running); try done.
  - by rewrite Hp.
  - intros ? _. apply not_elem_of_nil.
  - apply tally_counts. unfold two_p31 in *. lia.
  - apply tally_counts. unfold two_p31 in *. lia.
  - by rewrite Hp.
  - by rewrite Hp.
Qed.

(** *** Duplicates

    The first of each key is considered, the others are passed over. *)
Fixpoint firsts (order : list Slot) (seen : list string) : list Slot :=
  match order with
  | [] => []
  | q :: order => if bool_decide (slKey q ∈ seen) then firsts order seen else q :: firsts order (slKey q :: seen)
  end.

Lemma admit_loop_firsts b order used per seen :
  admit_loop b order used per seen = admit_loop b (firsts order seen) used per seen.
Proof.
  revert used per seen. induction order as [| q order IH]; intros used per seen; cbn; [done |].
  destruct (bool_decide (slKey q ∈ seen)) eqn:E; cbn; [apply IH |]. rewrite E. case_match; [f_equal |]; apply IH.
Qed.

Lemma firsts_sublist order seen : sublist (firsts order seen) order.
Proof. revert seen. induction order as [| q order IH]; intros seen; cbn; [done |]. case_match; by constructor. Qed.

Lemma firsts_keys order seen : NoDup (slKey <$> firsts order seen) /\ forall q, q ∈ firsts order seen -> slKey q ∉ seen.
Proof.
  revert seen. induction order as [| q order IH]; intros seen; cbn; [split; [constructor | by intros ? ?%not_elem_of_nil] |].
  case_bool_decide as Hq; [apply IH |]. destruct (IH (slKey q :: seen)) as [Hn Hk]. cbn. split.
  - constructor; [| done]. intros (x & E & Hx)%list_elem_of_fmap. apply (Hk x Hx). rewrite <- E. constructor.
  - intros x [-> | Hx]%list.elem_of_cons; [done |]. intros Hi. apply (Hk x Hx). by constructor.
Qed.

(** In a list sorted by the order, what comes first of a key goes before the
    others of it, or is one of them. *)
Lemma elem_of_firsts order seen q :
  StronglySorted (fun x y => AdmitsBefore y x = false) order ->
  (forall x y, x ∈ order -> y ∈ order -> slKey x = slKey y -> AdmitsBefore x y = false -> AdmitsBefore y x = false -> x = y) ->
  q ∈ firsts order seen <->
  q ∈ order /\ slKey q ∉ seen /\ forall t, t ∈ order -> slKey t = slKey q -> t = q \/ AdmitsBefore q t = true.
Proof.
  intros Hs. revert seen. induction Hs as [| p order Hs IH Hp]; intros seen Ht; cbn.
  { split; [by intros ?%not_elem_of_nil | by intros [?%not_elem_of_nil _]]. }
  assert (forall x y, x ∈ order -> y ∈ order -> slKey x = slKey y -> AdmitsBefore x y = false -> AdmitsBefore y x = false -> x = y) as Ht'.
  { intros x y Hx Hy. apply Ht; by constructor. }
  assert (forall t, t ∈ order -> slKey t = slKey p -> t = p \/ AdmitsBefore p t = true) as Hlead.
  { intros t Hi Hk. rewrite list.Forall_forall in Hp. destruct (AdmitsBefore p t) eqn:E; [by right | left].
    apply Ht; [by constructor | constructor | done | by apply Hp | done]. }
  assert (q ∈ order -> slKey q <> slKey p ->
    (forall t, t ∈ p :: order -> slKey t = slKey q -> t = q \/ AdmitsBefore q t = true) <->
    (forall t, t ∈ order -> slKey t = slKey q -> t = q \/ AdmitsBefore q t = true)) as Hrest.
  { intros Hq Hk. split; intros H t Hi Hkt; [apply H; [by constructor | done] |].
    apply list.elem_of_cons in Hi as [-> | Hi]; [congruence | by apply H]. }
  rewrite list.elem_of_cons. case_bool_decide as Hseen; [rewrite IH by done | rewrite list.elem_of_cons, IH, list.elem_of_cons by done]; split.
  - intros (Hq & Hk & Hf). assert (slKey q <> slKey p) by congruence. split_and!; [by right | done | by apply Hrest].
  - intros ([-> | Hq] & Hk & Hf); [done |]. assert (slKey q <> slKey p) by congruence. split_and!; [done | done | by apply Hrest].
  - intros [-> | (Hq & Hk & Hf)].
    + split_and!; [by left | done |]. intros t [-> | Hi]%list.elem_of_cons Hkt; [by left | by apply Hlead].
    + assert (slKey q <> slKey p) as Hne by tauto. split_and!; [by right | tauto | by apply Hrest].
  - intros ([-> | Hq] & Hk & Hf); [by left |]. destruct (decide (slKey q = slKey p)) as [E | Hne].
    + left. destruct (Hf p) as [? | F]; [constructor | done | done |]. rewrite list.Forall_forall in Hp. by rewrite (Hp q Hq) in F.
    + right. split_and!; [done | tauto | by apply Hrest].
Qed.

Lemma firsts_queue order seen : StronglySorted (fun x y => AdmitsBefore y x = false) order -> queue (firsts order seen).
Proof.
  intros Hs. revert seen. induction Hs as [| p order Hs IH Hp]; intros seen; cbn; [constructor |].
  case_match; [apply IH |]. constructor; [apply IH |]. apply list.Forall_forall. intros x Hx.
  assert (x ∈ order) as Hi by (by eapply sublist_subseteq; [apply firsts_sublist |]).
  rewrite list.Forall_forall in Hp. destruct (AdmitsBefore_total p x) as [? | F]; [| done |].
  - intros E. apply (proj2 (firsts_keys order (slKey p :: seen)) x Hx). rewrite E. constructor.
  - by rewrite (Hp x Hi) in F.
Qed.

Lemma SliceStable_weak l : StronglySorted (fun x y => AdmitsBefore y x = false) (SliceStable AdmitsBefore l).
Proof.
  destruct (SliceStable_sorts AdmitsBefore (fun _ => True)) with (l := l) as (_ & Hs & _); [| | by apply Forall_true | done].
  - intros x y _ _. apply AdmitsBefore_asym.
  - intros x y z _ _ _. apply AdmitsBefore_cotrans.
Qed.

(** *** The rule *)

(** The slot considered for its key: the first of that key in the order. *)
Definition considered (queued : list Slot) (q : Slot) : Prop :=
  q ∈ queued /\ forall t, t ∈ queued -> slKey t = slKey q -> t = q \/ goes_before q t.

(** There is a slot of its class, and its profile is under its limit if it has
    one, beside [taken]. *)
Definition has_room (b : Budget) (taken : list Slot) (q : Slot) : Prop :=
  count slHardware (slHardware q) taken < at_ (bgSlots b) (slHardware q) /\
  (0 < at_ (bgProfileLimits b) (slProfile q) ->
   count slProfile (slProfile q) taken < at_ (bgProfileLimits b) (slProfile q)).

Lemma has_room_fits b taken q : fits b taken q = true <-> has_room b taken q.
Proof. unfold fits, has_room. rewrite andb_true_iff, orb_true_iff, !Z.ltb_lt, Z.leb_le. split; intros [? ?]; (split; [done |]); lia. Qed.

Lemma sorted_mono {A} (R S : A -> A -> Prop) l : (forall x y, R x y -> S x y) -> StronglySorted R l -> StronglySorted S l.
Proof. intros Hi. induction 1; constructor; [done |]. eapply list.Forall_impl; [done |]. intros y. apply Hi. Qed.

Lemma filter_ahead q l : filter (fun a => goes_before a q) l = ahead q l.
Proof.
  unfold ahead. induction l as [| x l IH]; [done |]. rewrite filter_cons. cbn [List.filter]. rewrite IH.
  destruct (AdmitsBefore x q) eqn:E; [rewrite decide_True by by apply goes_before_iff | rewrite decide_False; [done |]]; [done |].
  rewrite <- goes_before_iff. congruence.
Qed.

(** C13. Admission is decided, and by this alone: of each key the first slot is
    considered, by priority, then age, then key; those admitted are, in that
    order, the ones with a slot of their class free, and their profile under its
    limit, beside what runs and the admitted ahead of them. None is passed over
    while it fits, and none of another class holds it back. The answer does not
    depend on the order the lists come in, as long as queued slots that agree in
    key, priority and age are the same slot (otherwise it does, against Admit's
    comment: duplicate_keys_depend_on_order) and fewer than 2^31 slots are
    given. *)
Theorem admit_decides (queued running : list Slot) (b : Budget) (out : list Slot) :
  (forall s t, s ∈ queued -> t ∈ queued -> slKey s = slKey t -> slPriority s = slPriority t -> slCreated s = slCreated t -> s = t) ->
  Z.of_nat (length running + length queued) < two_p31 ->
  (out = Admit queued running b <->
   StronglySorted goes_before out /\
   forall q, q ∈ out <-> considered queued q /\ has_room b (running ++ filter (fun a => goes_before a q) out) q).
Proof.
  intros Ht Hl. set (order := firsts (SliceStable AdmitsBefore queued) []). pose proof (queue_perm queued) as Hp.
  assert (forall q, q ∈ order <-> considered queued q) as Ho.
  { intros q. unfold order. rewrite elem_of_firsts.
    - unfold considered. rewrite Hp. setoid_rewrite goes_before_iff. setoid_rewrite Hp. split; [intros (? & _ & ?); done |].
      intros [? ?]. split_and!; [done | apply not_elem_of_nil | done].
    - apply SliceStable_weak.
    - intros x y. rewrite !Hp. intros Hx Hy Hk Hxy Hyx. apply Ht; try done;
        apply not_true_iff_false in Hxy, Hyx; rewrite goes_before_iff in Hxy, Hyx; unfold goes_before in *; lia. }
  assert (queue order) as Hqo by apply firsts_queue, SliceStable_weak.
  assert (Admit queued running b = admit_loop b order (tally slHardware running) (tally slProfile running) []) as Ea by apply admit_loop_firsts.
  assert (queue (Admit queued running b)) as Hq by (rewrite Ea; eapply sublist_sorted; [apply admit_loop_sublist | done]).
  assert (forall q, q ∈ Admit queued running b <-> q ∈ order /\ fits b (running ++ ahead q (Admit queued running b)) q = true) as Ha.
  { intros q. assert (q ∈ order -> (q ∈ Admit queued running b <-> fits b (running ++ ahead q (Admit queued running b)) q = true)) as Hin.
    - intros Hi. rewrite Ea. apply (admit_loop_spec b _ _ _ [] running); try done.
      + apply firsts_keys.
      + intros ? _. apply not_elem_of_nil.
      + apply tally_counts. unfold two_p31 in *. lia.
      + apply tally_counts. unfold two_p31 in *. lia.
      + pose proof (sublist_length _ _ (firsts_sublist (SliceStable AdmitsBefore queued) [])) as Hlen. fold order in Hlen. rewrite Hp in Hlen. lia.
    - split; [| tauto]. intros Hi. assert (q ∈ order) by (rewrite Ea in Hi; by eapply sublist_subseteq; [apply admit_loop_sublist |]). tauto. }
  assert (forall l, StronglySorted goes_before l <-> queue l) as Hsort.
  { intros l. split; apply sorted_mono; intros x y; apply goes_before_iff. }
  rewrite Hsort. setoid_rewrite filter_ahead. setoid_rewrite <- has_room_fits. setoid_rewrite <- Ho.
  split; [by intros -> | intros [Hs Hf]]. by apply (fits_unique b running order).
Qed.

Lemma admit_loop_bound b order used per seen taken :
  counts slHardware used taken -> counts slProfile per taken -> Z.of_nat (length taken + length order) < two_p31 ->
  let out := admit_loop b order used per seen in
  (forall h, count slHardware h (taken ++ out) <= Z.max (count slHardware h taken) (at_ (bgSlots b) h)) /\
  (forall p, 0 < at_ (bgProfileLimits b) p ->
    count slProfile p (taken ++ out) <= Z.max (count slProfile p taken) (at_ (bgProfileLimits b) p)).
Proof.
  revert used per seen taken. induction order as [| q order IH]; intros used per seen taken Hu Hp Hl; cbn.
  { rewrite app_nil_r. split; intros; lia. }
  cbn in Hl. case_match; [apply IH; try done; unfold two_p31 in *; lia |].
  rewrite (admits_fits b used per taken q) by done. destruct (fits b taken q) eqn:F; [| apply IH; try done; unfold two_p31 in *; lia].
  set (out := admit_loop b order _ _ _).
  replace (taken ++ q :: out) with ((taken ++ [q]) ++ out) by by rewrite <- app_assoc.
  destruct (IH (add_at used (slHardware q) 1) (add_at per (slProfile q) 1) (slKey q :: seen) (taken ++ [q])) as [Hh Hq].
  - apply counts_add; [unfold two_p31 in *; lia | done].
  - apply counts_add; [unfold two_p31 in *; lia | done].
  - rewrite length_app. cbn. unfold two_p31 in *. lia.
  - fold out in Hh, Hq. unfold fits in F. apply andb_prop in F as [F1 F2]. apply Z.ltb_lt in F1. split.
    + intros h. specialize (Hh h). pose proof (count_app slHardware h taken [q]) as E. rewrite count_one in E.
      destruct (String.eqb_spec (slHardware q) h) as [<- | _]; lia.
    + intros p Hpos. specialize (Hq p Hpos). pose proof (count_app slProfile p taken [q]) as E. rewrite count_one in E.
      destruct (String.eqb_spec (slProfile q) p) as [<- | _]; [| lia]. apply orb_prop in F2 as [F2 | F2]; bools; lia.
Qed.

Lemma Admit_bound queued running b : Z.of_nat (length running + length queued) < two_p31 ->
  (forall h, count slHardware h (running ++ Admit queued running b) <= Z.max (count slHardware h running) (at_ (bgSlots b) h)) /\
  (forall p, 0 < at_ (bgProfileLimits b) p ->
    count slProfile p (running ++ Admit queued running b) <= Z.max (count slProfile p running) (at_ (bgProfileLimits b) p)).
Proof.
  intros Hl. apply admit_loop_bound.
  - apply tally_counts. unfold two_p31 in *. lia.
  - apply tally_counts. unfold two_p31 in *. lia.
  - by rewrite queue_perm.
Qed.

(** ** The class assignment predicts admission *)

Lemma choose_gpu_ext gpu uns f g cs u : (forall h, f h = g h) -> choose_gpu gpu uns f cs u = choose_gpu gpu uns g cs u.
Proof. intros He. revert u. induction cs as [| c cs IH]; intros u; cbn; [done |]. by rewrite He, !IH. Qed.

Lemma class_of_ext a f g v : (forall h, f h = g h) -> class_of a f v = class_of a g v.
Proof. intros He. unfold class_of, ChooseClass. by rewrite (choose_gpu_ext _ _ f g). Qed.

(** The slots of the budget beside [taken]. *)
Definition room (b : Budget) (taken : list Slot) (h : string) : Z := at_ (bgSlots b) h - count slHardware h taken.

(** What becomes of a candidate that would compete for [class]. *)
Definition assigned (a : Assignment) (c : candidate) (class : string) (queued : list candidate) (holds : list hold) : Prop :=
  let held := agHeld a !! mkPoolKey (fvProfile (cdView c)) (default "" (agProfileUIDs a !! fvProfile (cdView c))) class in
  if String.eqb class "" then mkHold (cdUID c) WaitingForGPU ReasonWaitingForGPU ∈ holds
  else match held with
       | Some msg => mkHold (cdUID c) msg ReasonPoolDraining ∈ holds
       | None => with_class c class ∈ queued
       end.

Lemma assigned_mono a c class queued queued' holds holds' : (forall x, x ∈ queued -> x ∈ queued') ->
  (forall x, x ∈ holds -> x ∈ holds') -> assigned a c class queued holds -> assigned a c class queued' holds'.
Proof. unfold assigned. intros Hq Hh. repeat case_match; auto. Qed.

Lemma assign_loop_slots a ordered free per : forall c, c ∈ (assign_loop a ordered free per).1 ->
  exists d, d ∈ ordered /\ c = with_class d (slHardware (cdSlot c)).
Proof.
  revert free per. induction ordered as [| d ordered IH]; intros free per c; cbn; [by intros ?%not_elem_of_nil |].
  assert (forall f p, c ∈ (assign_loop a ordered f p).1 -> exists d', d' ∈ d :: ordered /\ c = with_class d' (slHardware (cdSlot c))) as H.
  { intros f p Hc. destruct (IH f p c Hc) as (d' & Hd & He). exists d'. split; [by constructor | done]. }
  destruct (String.eqb _ ""); [destruct (assign_loop a ordered free per) eqn:E; intros Hc; apply (H free per); by rewrite E |].
  destruct (agHeld a !! _); [destruct (assign_loop a ordered free per) eqn:E; intros Hc; apply (H free per); by rewrite E |].
  match goal with |- context [let '(_, _) := ?e in _] => destruct e as [qs hs] eqn:E end. cbn.
  intros [-> | Hc]%list.elem_of_cons; [exists d; split; [constructor | done] |].
  destruct (expects _ _ _ _ _); eapply H; rewrite E; done.
Qed.

Lemma before_with_class c class s : AdmitsBefore s (cdSlot (with_class c class)) = AdmitsBefore s (cdSlot c).
Proof. done. Qed.

Lemma ahead_with_class c class l : ahead (cdSlot (with_class c class)) l = ahead (cdSlot c) l.
Proof. done. Qed.

Abbreviation cqueue := (StronglySorted (fun c d => AdmitsBefore (cdSlot c) (cdSlot d) = true)).

Lemma expects_fits a free per taken c class : (forall h, at_ free h = room (agBudget a) taken h) -> counts slProfile per taken ->
  expects (bgProfileLimits (agBudget a)) free per (slProfile (cdSlot c)) class =
  fits (agBudget a) taken (cdSlot (with_class c class)).
Proof.
  intros Hf Hp. unfold expects, fits, room in *. rewrite Hf, (Hp _). cbn. f_equal. apply eq_true_iff_eq. rewrite !Z.ltb_lt. lia.
Qed.

(** What [Admit] takes of the rest of the queue goes after [c]. *)
Lemma rest_after a c ordered free per b used per' seen :
  Forall (fun d => AdmitsBefore (cdSlot c) (cdSlot d) = true) ordered ->
  ahead (cdSlot c) (admit_loop b (cdSlot <$> (assign_loop a ordered free per).1) used per' seen) = [].
Proof.
  intros Hf. apply ahead_nil. eapply sublist_Forall; [apply admit_loop_sublist |]. apply Forall_fmap. apply list.Forall_forall.
  intros x (d & Hd & ->)%assign_loop_slots. rewrite list.Forall_forall in Hf. cbn. by apply Hf.
Qed.

Lemma assign_loop_spec a ordered free per taken used seen :
  (forall h, 0 <= at_ (bgSlots (agBudget a)) h < two_p31) ->
  cqueue ordered -> NoDup ((fun c => slKey (cdSlot c)) <$> ordered) -> (forall c, c ∈ ordered -> slKey (cdSlot c) ∉ seen) ->
  (forall h, at_ free h = room (agBudget a) taken h) -> counts slHardware used taken -> counts slProfile per taken ->
  Z.of_nat (length taken + length ordered) < two_p31 ->
  forall c, c ∈ ordered ->
  assigned a c
    (class_of a (room (agBudget a) (taken ++ ahead (cdSlot c)
       (admit_loop (agBudget a) (cdSlot <$> (assign_loop a ordered free per).1) used per seen))) (cdView c))
    (assign_loop a ordered free per).1 (assign_loop a ordered free per).2.
Proof.
  intros Hslots. revert free per taken used seen.
  induction ordered as [| c0 ordered IH]; intros free per taken used seen Hs Hn Hseen Hf Hu Hp Hl c Hc; [by apply not_elem_of_nil in Hc |].
  inversion Hs as [| ? ? Hs' Ho]; subst. cbn in Hn. apply list.NoDup_cons in Hn as [Hn0 Hn]. cbn in Hl.
  assert (forall c s, c ∈ ordered -> slKey (cdSlot c) ∉ s -> slKey (cdSlot c) ∉ slKey (cdSlot c0) :: s) as Hfresh.
  { intros d s Hd Hds. rewrite list.elem_of_cons. intros [E | E]; [| done]. apply Hn0. rewrite <- E.
    by apply (list_elem_of_fmap_2 (fun c => slKey (cdSlot c))). }
  rewrite list.elem_of_cons in Hc. cbn [assign_loop].
  rewrite (class_of_ext a (at_ free) (room (agBudget a) taken)) by done.
  set (class := class_of a (room (agBudget a) taken) (cdView c0)).
  assert (forall free' per' used' seen' taken' c' h',
    (forall x, x ∈ (assign_loop a ordered free' per').1 -> x ∈ c') -> (forall x, x ∈ (assign_loop a ordered free' per').2 -> x ∈ h') ->
    (forall h, at_ free' h = room (agBudget a) taken' h) -> counts slHardware used' taken' -> counts slProfile per' taken' ->
    Z.of_nat (length taken' + length ordered) < two_p31 -> (forall c, c ∈ ordered -> slKey (cdSlot c) ∉ seen') ->
    c ∈ ordered -> assigned a c (class_of a (room (agBudget a) (taken' ++ ahead (cdSlot c)
       (admit_loop (agBudget a) (cdSlot <$> (assign_loop a ordered free' per').1) used' per' seen'))) (cdView c)) c' h') as Hrest.
  { intros free' per' used' seen' taken' c' h' H1 H2 H3 H4 H5 H6 H7 H8. eapply assigned_mono; [exact H1 | exact H2 |]. by apply IH. }
  destruct (String.eqb class "") eqn:E1; [| destruct (agHeld a !! _) as [msg |] eqn:E2].
  1, 2: pose proof (rest_after a c0 ordered free per (agBudget a) used per seen Ho) as Hnil;
    destruct (assign_loop a ordered free per) as [qs hs] eqn:E; cbn in Hnil |- *; destruct Hc as [-> | Hc];
    [ rewrite Hnil, app_nil_r; fold class; unfold assigned; rewrite E1, ?E2; constructor
    | specialize (Hrest free per used seen taken); rewrite E in Hrest; apply Hrest; try done; try (unfold two_p31 in *; lia);
      [intros x ?; by constructor | intros d Hd; apply Hseen; by constructor] ].
  - rewrite (expects_fits a free per taken) by done. set (s0 := cdSlot (with_class c0 class)) in *.
    assert (forall f p qs hs, assign_loop a ordered f p = (qs, hs) ->
      admit_loop (agBudget a) (s0 :: (cdSlot <$> qs)) used per seen =
      if fits (agBudget a) taken s0 then s0 :: admit_loop (agBudget a) (cdSlot <$> qs) (add_at used class 1) (add_at per (slProfile (cdSlot c0)) 1) (slKey (cdSlot c0) :: seen)
      else admit_loop (agBudget a) (cdSlot <$> qs) used per (slKey (cdSlot c0) :: seen)) as Hadm.
    { intros f p qs hs _. cbn [admit_loop]. rewrite bool_decide_eq_false_2 by (apply (Hseen c0); constructor).
      by rewrite (admits_fits _ used per taken). }
    destruct (fits (agBudget a) taken s0) eqn:F.
    + pose proof (rest_after a c0 ordered (add_at free class (-1)) (add_at per (slProfile (cdSlot c0)) 1) (agBudget a) (add_at used class 1)
        (add_at per (slProfile (cdSlot c0)) 1) (slKey (cdSlot c0) :: seen) Ho) as Hnil.
      destruct (assign_loop a ordered (add_at free class (-1)) _) as [qs hs] eqn:E. cbn [fst snd] in Hnil |- *.
      change (cdSlot <$> (with_class c0 class :: qs)) with (s0 :: (cdSlot <$> qs)).
      rewrite (Hadm _ _ _ _ E). destruct Hc as [-> | Hc].
      * assert (AdmitsBefore s0 (cdSlot c0) = false) as Hb by exact (AdmitsBefore_irrefl (cdSlot c0)).
        unfold ahead in *. cbn [List.filter]. rewrite Hb, Hnil, app_nil_r. fold class. unfold assigned. rewrite E1, E2. constructor.
      * assert (AdmitsBefore s0 (cdSlot c) = true) as Hb by (rewrite list.Forall_forall in Ho; by apply Ho).
        specialize (Hrest (add_at free class (-1)) (add_at per (slProfile (cdSlot c0)) 1) (add_at used class 1) (slKey (cdSlot c0) :: seen) (taken ++ [s0])).
        rewrite E in Hrest. cbn [fst snd] in Hrest. unfold ahead in *. cbn [List.filter]. rewrite Hb.
        rewrite cons_middle, (assoc_L (++)).
        apply Hrest; try done.
        -- intros x ?. by constructor.
        -- intros h. pose proof (count_bounds slHardware class taken). specialize (Hslots class). unfold two_p31 in *. unfold room in *.
           rewrite at_add, Hf, count_app, count_one; [cbn; destruct (String.eqb class h); lia |]. rewrite Hf. unfold two_p31. lia.
        -- apply (counts_add slHardware used taken s0); [unfold two_p31 in *; lia | done].
        -- apply (counts_add slProfile per taken s0); [unfold two_p31 in *; lia | done].
        -- rewrite length_app. cbn. unfold two_p31 in *. lia.
        -- intros d Hd. apply Hfresh; [done |]. apply Hseen. by constructor.
    + pose proof (rest_after a c0 ordered free per (agBudget a) used per (slKey (cdSlot c0) :: seen) Ho) as Hnil.
      destruct (assign_loop a ordered free per) as [qs hs] eqn:E. cbn [fst snd] in Hnil |- *.
      change (cdSlot <$> (with_class c0 class :: qs)) with (s0 :: (cdSlot <$> qs)).
      rewrite (Hadm _ _ _ _ E). destruct Hc as [-> | Hc].
      * rewrite Hnil, app_nil_r. fold class. unfold assigned. rewrite E1, E2. constructor.
      * specialize (Hrest free per used (slKey (cdSlot c0) :: seen) taken). rewrite E in Hrest.
        apply Hrest; try done; try (unfold two_p31 in *; lia).
        -- intros x ?. by constructor.
        -- intros d Hd. apply Hfresh; [done |]. apply Hseen. by constructor.
Qed.

Lemma assign_loop_queue a ordered free per : cqueue ordered -> queue (cdSlot <$> (assign_loop a ordered free per).1).
Proof.
  intros Hs. revert free per. induction Hs as [| c ordered Hs IH Hf]; intros free per; cbn; [constructor |].
  case_match; [destruct (assign_loop a ordered free per) eqn:E; specialize (IH free per); by rewrite E in IH |].
  case_match; [destruct (assign_loop a ordered free per) eqn:E; specialize (IH free per); by rewrite E in IH |].
  match goal with |- context [let '(_, _) := ?e in _] => destruct e as [qs hs] eqn:E end. cbn.
  assert (exists f p, qs = (assign_loop a ordered f p).1) as (f & p & ->) by (case_match; do 2 eexists; by rewrite E).
  constructor; [apply IH |]. apply Forall_fmap, list.Forall_forall. intros x (d & Hd & ->)%assign_loop_slots.
  rewrite list.Forall_forall in Hf. cbn. by apply Hf.
Qed.

Lemma assign_loop_length a ordered free per : (length (assign_loop a ordered free per).1 <= length ordered)%nat.
Proof.
  revert free per. induction ordered as [| c ordered IH]; intros free per; cbn; [done |].
  case_match; [destruct (assign_loop a ordered free per) eqn:E; specialize (IH free per); rewrite E in IH; cbn in *; lia |].
  case_match; [destruct (assign_loop a ordered free per) eqn:E; specialize (IH free per); rewrite E in IH; cbn in *; lia |].
  match goal with |- context [let '(_, _) := ?e in _] => destruct e as [qs hs] eqn:E end. cbn.
  assert (exists f p, qs = (assign_loop a ordered f p).1) as (f & p & ->) by (case_match; do 2 eexists; by rewrite E).
  specialize (IH f p). lia.
Qed.

Lemma sort_sorted l : NoDup (slKey <$> l) -> queue l -> SliceStable AdmitsBefore l = l.
Proof. intros Hn Hq. apply queue_ext; [by apply sorted_queue | done |]. intros x. by rewrite queue_perm. Qed.

Lemma assign_loop_keys a ordered free per :
  sublist ((fun c => slKey (cdSlot c)) <$> (assign_loop a ordered free per).1) ((fun c => slKey (cdSlot c)) <$> ordered).
Proof.
  revert free per. induction ordered as [| c ordered IH]; intros free per; cbn; [done |].
  case_match; [destruct (assign_loop a ordered free per) eqn:E; specialize (IH free per); rewrite E in IH; cbn in *; by constructor |].
  case_match; [destruct (assign_loop a ordered free per) eqn:E; specialize (IH free per); rewrite E in IH; cbn in *; by constructor |].
  match goal with |- context [let '(_, _) := ?e in _] => destruct e as [qs hs] eqn:E end. cbn.
  assert (exists f p, qs = (assign_loop a ordered f p).1) as (f & p & ->) by (case_match; do 2 eexists; by rewrite E).
  cbn. by constructor.
Qed.

Lemma assigned_keys a cands running : NoDup ((fun c => slKey (cdSlot c)) <$> cands) ->
  NoDup (slKey <$> (cdSlot <$> (assignClasses a cands running).1)).
Proof.
  intros Hn. rewrite <- list_fmap_compose. eapply sublist_NoDup; [| apply assign_loop_keys]. by rewrite SliceStable_perm.
Qed.

(** *** Each candidate once *)

Abbreviation key_of c := (slKey (cdSlot c)).
Abbreviation with_key k := (List.filter (fun d => String.eqb (key_of d) k)).
Abbreviation with_uid u := (List.filter (fun h => String.eqb (hdUID h) u)).

Lemma assign_loop_lengths a ordered free per :
  (length (assign_loop a ordered free per).1 + length (assign_loop a ordered free per).2 = length ordered)%nat.
Proof.
  revert free per. induction ordered as [| c ordered IH]; intros free per; cbn; [done |].
  case_match; [specialize (IH free per); destruct (assign_loop a ordered free per); cbn in *; lia |].
  case_match; [specialize (IH free per); destruct (assign_loop a ordered free per); cbn in *; lia |].
  match goal with |- context [let '(_, _) := ?e in _] => destruct e as [qs hs] eqn:E end. cbn.
  assert (exists f p, (qs, hs) = assign_loop a ordered f p) as (f & p & Ef) by (case_match; do 2 eexists; by rewrite E).
  specialize (IH f p). rewrite <- Ef in IH. cbn in IH. lia.
Qed.

Lemma assign_loop_none a ordered free per k u : k ∉ (fun c => key_of c) <$> ordered -> u ∉ cdUID <$> ordered ->
  with_key k (assign_loop a ordered free per).1 = [] /\ with_uid u (assign_loop a ordered free per).2 = [].
Proof.
  revert free per. induction ordered as [| c ordered IH]; intros free per; cbn; [done |].
  rewrite !not_elem_of_cons. intros [Hk Hks] [Hu Hus]. specialize (fun f p => IH f p Hks Hus).
  case_match; [specialize (IH free per); destruct (assign_loop a ordered free per); cbn in *; destruct IH as [-> ->];
    by rewrite (proj2 (String.eqb_neq _ _)) by congruence |].
  case_match; [specialize (IH free per); destruct (assign_loop a ordered free per); cbn in *; destruct IH as [-> ->];
    by rewrite (proj2 (String.eqb_neq _ _)) by congruence |].
  match goal with |- context [let '(_, _) := ?e in _] => destruct e as [qs hs] eqn:E end. cbn.
  assert (exists f p, (qs, hs) = assign_loop a ordered f p) as (f & p & Ef) by (case_match; do 2 eexists; by rewrite E).
  specialize (IH f p). rewrite <- Ef in IH. cbn in IH. rewrite (proj2 (String.eqb_neq _ _)) by congruence. done.
Qed.

Lemma assign_loop_once a ordered free per c :
  NoDup ((fun c => key_of c) <$> ordered) -> NoDup (cdUID <$> ordered) -> c ∈ ordered ->
  let q := with_key (key_of c) (assign_loop a ordered free per).1 in
  let h := with_uid (cdUID c) (assign_loop a ordered free per).2 in
  (exists class, q = [with_class c class] /\ h = []) \/ (q = [] /\ exists x, h = [x]).
Proof.
  revert free per. induction ordered as [| d ordered IH]; intros free per Hn Hu Hc; [by apply not_elem_of_nil in Hc |].
  cbn in Hn, Hu. apply list.NoDup_cons in Hn as [Hk Hn], Hu as [Hud Hu].
  assert (forall f p, d = c -> with_key (key_of c) (assign_loop a ordered f p).1 = [] /\
    with_uid (cdUID c) (assign_loop a ordered f p).2 = []) as Hnone by (intros f p <-; by apply assign_loop_none).
  assert (c ∈ ordered -> String.eqb (key_of d) (key_of c) = false /\ String.eqb (cdUID d) (cdUID c) = false) as Hne.
  { intros Hi. split; apply String.eqb_neq; intros E; [apply Hk | apply Hud]; rewrite E;
      [by apply (list_elem_of_fmap_2 (fun c => key_of c)) | by apply list_elem_of_fmap_2]. }
  apply list.elem_of_cons in Hc as [-> | Hc]; cbn.
  - case_match; [destruct (Hnone free per eq_refl); destruct (assign_loop a ordered free per); cbn in *; rewrite String.eqb_refl; right; split; [done |];
      eexists; by f_equal |].
    case_match; [destruct (Hnone free per eq_refl); destruct (assign_loop a ordered free per); cbn in *; rewrite String.eqb_refl; right; split; [done |];
      eexists; by f_equal |].
    match goal with |- context [let '(_, _) := ?e in _] => destruct e as [qs hs] eqn:E end. cbn.
    assert (exists f p, (qs, hs) = assign_loop a ordered f p) as (f & p & Ef) by (case_match; do 2 eexists; by rewrite E).
    destruct (Hnone f p eq_refl) as [H1 H2]. rewrite <- Ef in H1, H2. cbn in H1, H2. rewrite String.eqb_refl, H1. left. by eexists.
  - destruct (Hne Hc) as [E1 E2].
    case_match; [specialize (IH free per Hn Hu Hc); destruct (assign_loop a ordered free per); cbn in *; by rewrite E2 |].
    case_match; [specialize (IH free per Hn Hu Hc); destruct (assign_loop a ordered free per); cbn in *; by rewrite E2 |].
    match goal with |- context [let '(_, _) := ?e in _] => destruct e as [qs hs] eqn:E end. cbn.
    assert (exists f p, (qs, hs) = assign_loop a ordered f p) as (f & p & Ef) by (case_match; do 2 eexists; by rewrite E).
    specialize (IH f p Hn Hu Hc). rewrite <- Ef in IH. cbn in IH. by rewrite E1.
Qed.

(** *** The class the rules name *)

(** The class a file goes to when [free] slots of each are left. A file that
    encodes and asks for auto or gpu takes the first GPU class, nvidia before
    intel, that has a node, a pool its profile may use and a free slot; the cpu
    class once a GPU refused it, or when none is free and it need not be a GPU
    or no GPU is usable at all; else it waits. A file of another plan goes where
    it is pinned, or where its encoder runs. *)
Definition asks (v : FileView) (hw : string) : Prop := fvHardware v = hw.
Definition chooses (v : FileView) : Prop := fvEncodes v = true /\ (asks v "" \/ asks v "auto" \/ asks v "gpu").
Definition usable (a : Assignment) (v : FileView) (gpu : string) : Prop :=
  agGPU a gpu = true /\ agUnschedulable a (fvProfile v) gpu = false.

Inductive rule_class (a : Assignment) (free : string -> Z) (v : FileView) : string -> Prop :=
  | rc_refused : chooses v -> fvFallback v = true -> rule_class a free v "cpu"
  | rc_nvidia : chooses v -> fvFallback v = false -> usable a v "nvidia" -> 0 < free "nvidia" -> rule_class a free v "nvidia"
  | rc_intel : chooses v -> fvFallback v = false -> ~ (usable a v "nvidia" /\ 0 < free "nvidia") ->
      usable a v "intel" -> 0 < free "intel" -> rule_class a free v "intel"
  | rc_wait : chooses v -> fvFallback v = false -> ~ (usable a v "nvidia" /\ 0 < free "nvidia") ->
      ~ (usable a v "intel" /\ 0 < free "intel") -> asks v "gpu" -> (usable a v "nvidia" \/ usable a v "intel") ->
      rule_class a free v ""
  | rc_cpu : chooses v -> fvFallback v = false -> ~ (usable a v "nvidia" /\ 0 < free "nvidia") ->
      ~ (usable a v "intel" /\ 0 < free "intel") ->
      ~ (asks v "gpu" /\ (usable a v "nvidia" \/ usable a v "intel")) -> rule_class a free v "cpu"
  | rc_pinned hw : asks v hw -> hw = "nvidia" \/ hw = "intel" -> rule_class a free v hw
  | rc_no_encoder : ~ chooses v -> ~ asks v "nvidia" -> ~ asks v "intel" -> fvFallback v = true \/ fvEncoder v = "" ->
      rule_class a free v "cpu"
  | rc_encoder class : ~ chooses v -> ~ asks v "nvidia" -> ~ asks v "intel" -> fvFallback v = false -> fvEncoder v <> "" ->
      (fvEncoder v = "hevc_nvenc" /\ class = "nvidia") \/
      ((fvEncoder v = "hevc_qsv" \/ fvEncoder v = "hevc_vaapi") /\ class = "intel") \/
      (fvEncoder v <> "hevc_nvenc" /\ fvEncoder v <> "hevc_qsv" /\ fvEncoder v <> "hevc_vaapi" /\ class = "cpu") ->
      rule_class a free v class.

Lemma unusable a v c :
  (negb (agGPU a c) || agUnschedulable a (fvProfile v) c = true /\ ~ usable a v c) \/
  (negb (agGPU a c) || agUnschedulable a (fvProfile v) c = false /\ usable a v c).
Proof. unfold usable. destruct (agGPU a c), (agUnschedulable a (fvProfile v) c); cbn; [left | by right | left ..]; by split; [| intros []]. Qed.

Lemma chooses_iff v : choosesClass v && fvEncodes v = true <-> chooses v.
Proof.
  unfold chooses, asks, choosesClass, hardwareOf, nonempty_or, HardwareAuto, HardwareGPU.
  destruct (fvEncodes v); [rewrite andb_true_r | rewrite andb_false_r; by split; [| intros [? _]]].
  destruct (String.eqb_spec (fvHardware v) "") as [-> | Hne]; [by split; [split; [| left] |] |].
  rewrite orb_true_iff, !String.eqb_eq. tauto.
Qed.

Lemma class_of_rule a free v : rule_class a free v (class_of a free v).
Proof.
  unfold class_of. destruct (choosesClass v && fvEncodes v) eqn:Ec.
  - apply chooses_iff in Ec. unfold ChooseClass. destruct (fvFallback v) eqn:Ef; [by apply rc_refused |].
    assert (gpuOnly v = true <-> asks v "gpu") as Hg.
    { unfold gpuOnly, asks, hardwareOf, nonempty_or, HardwareGPU, HardwareAuto.
      destruct (String.eqb_spec (fvHardware v) "") as [-> | ?]; by rewrite String.eqb_eq. }
    cbn [choose_gpu GPUClasses]. unfold HardwareNVIDIA, HardwareIntel, HardwareCPU.
    destruct (unusable a v "nvidia") as [[-> Hn] | [-> Hn]], (unusable a v "intel") as [[-> Hi] | [-> Hi]],
      (Z.ltb_spec 0 (free "nvidia")), (Z.ltb_spec 0 (free "intel")), (gpuOnly v); cbn [andb];
    first [apply rc_nvidia; done | apply rc_intel; first [done | intros [? ?]; first [done | lia]]
          | apply rc_wait; first [done | tauto | intros [? ?]; first [done | lia]]
          | apply rc_cpu; first [done | intros [? ?]; first [done | lia | tauto | by apply Hg in H1]]].
  - assert (~ chooses v) as Hc by (rewrite <- chooses_iff; congruence). unfold classFor.
    destruct (String.eqb_spec (hardwareOf v) HardwareNVIDIA) as [E1 | E1]; [| destruct (String.eqb_spec (hardwareOf v) HardwareIntel) as [E2 | E2]].
    1, 2: cbn [orb]; apply rc_pinned; [| rewrite ?E1, ?E2; tauto]; unfold asks, hardwareOf, nonempty_or in *;
      destruct (String.eqb_spec (fvHardware v) ""); [by cbn in * | done].
    cbn [orb]. assert (forall h, hardwareOf v <> h -> h <> "" -> ~ asks v h) as Hno.
    { unfold asks, hardwareOf, nonempty_or. intros h Hh Hne E. rewrite E in Hh. destruct (String.eqb_spec h ""); congruence. }
    pose proof (Hno _ E1 ltac:(done)) as N1. pose proof (Hno _ E2 ltac:(done)) as N2.
    destruct (fvFallback v) eqn:Ef; [by apply rc_no_encoder; [.. | left] |].
    destruct (String.eqb_spec (fvEncoder v) ""); [by apply rc_no_encoder; [.. | right] |]. cbn [orb]. apply rc_encoder; try done.
    unfold HardwareForEncoder, HardwareNVIDIA, HardwareIntel, HardwareCPU.
    destruct (String.eqb_spec (fvEncoder v) "hevc_nvenc"); [by left |].
    destruct (String.eqb_spec (fvEncoder v) "hevc_qsv"); [right; left; tauto |].
    destruct (String.eqb_spec (fvEncoder v) "hevc_vaapi"); [right; left; tauto | right; right; tauto].
Qed.

(** The slots of [class] left beside [taken]. *)
Definition left_of (b : Budget) (taken : list Slot) (class : string) : Z := at_ (bgSlots b) class - count slHardware class taken.

(** C15. The classes are assigned as admission then decides. Each candidate has
    the class the rules name when the free slots are those left by what runs and
    by the files before it that admission admits of this very queue. A file the
    rules let wait is held for a GPU and does not compete; one whose pool of that
    class is held waits with that pool's message and does not compete; every
    other competes for that class, once, and is not held. Nothing else is queued
    or held. The candidates are distinct files, and fewer than 2^31 slots are
    given. *)
Theorem classes_predict_admission (a : Assignment) (cands : list candidate) (running : list Slot)
    (queued : list candidate) (holds : list hold) (c : candidate) :
  assignClasses a cands running = (queued, holds) ->
  NoDup ((fun c => slKey (cdSlot c)) <$> cands) -> NoDup (cdUID <$> cands) ->
  Z.of_nat (length running + length cands) < two_p31 ->
  (forall h, 0 <= at_ (bgSlots (agBudget a)) h < two_p31) -> c ∈ cands ->
  let admitted := Admit (cdSlot <$> queued) running (agBudget a) in
  let competing := List.filter (fun d => String.eqb (slKey (cdSlot d)) (slKey (cdSlot c))) queued in
  let held := List.filter (fun h => String.eqb (hdUID h) (cdUID c)) holds in
  (length queued + length holds = length cands)%nat /\
  exists class,
    rule_class a (left_of (agBudget a) (running ++ filter (fun s => goes_before s (cdSlot c)) admitted)) (cdView c) class /\
    let pool := mkPoolKey (fvProfile (cdView c)) (default "" (agProfileUIDs a !! fvProfile (cdView c))) class in
    ((class = "" /\ competing = [] /\ held = [mkHold (cdUID c) WaitingForGPU ReasonWaitingForGPU]) \/
     (class <> "" /\ exists msg, agHeld a !! pool = Some msg /\ competing = [] /\ held = [mkHold (cdUID c) msg ReasonPoolDraining]) \/
     (class <> "" /\ agHeld a !! pool = None /\ competing = [with_class c class] /\ held = [])).
Proof.
  intros E Hn Hu Hl Hslots Hc. cbn. pose proof (sorted_by cdSlot cands Hn) as Hs. pose proof (assigned_keys a cands running Hn) as Hk.
  pose proof (SliceStable_perm cdSlot cands) as Hp. rewrite E in Hk. cbn in Hk. unfold assignClasses in E.
  set (sorted := SliceStable _ cands) in *. set (f := free_of _ _) in *. set (t := tally slProfile running) in *.
  pose proof (assign_loop_spec a sorted f t running (tally slHardware running) [] Hslots Hs) as H.
  pose proof (assign_loop_queue a sorted f t Hs) as Hq. pose proof (assign_loop_lengths a sorted f t) as Hlen.
  pose proof (assign_loop_once a sorted f t c) as Ho.
  rewrite E in H, Hq, Hlen, Ho. cbn in H, Hq, Hlen, Ho. unfold Admit. rewrite sort_sorted by done. split; [by rewrite Hlen, Hp |].
  specialize (Ho ltac:(by rewrite Hp) ltac:(by rewrite Hp) ltac:(by rewrite Hp)).
  eexists. split; [apply class_of_rule |]. rewrite filter_ahead. change (left_of (agBudget a)) with (room (agBudget a)).
  match goal with |- context [class_of a ?r _] => set (class := class_of a r (cdView c)) end.
  assert (assigned a c class queued holds) as Ha.
  { unfold class. apply H; try done; try (rewrite Hp; done); try apply tally_counts; try (unfold two_p31 in *; lia).
    - intros ? _. apply not_elem_of_nil.
    - apply free_counts; [done | unfold two_p31 in *; lia]. }
  unfold assigned in Ha. cbv zeta in Ha. set (pool := mkPoolKey _ _ _) in *.
  assert (forall m, m ∈ holds -> hdUID m = cdUID c -> with_key (key_of c) queued = [] /\ with_uid (cdUID c) holds = [m]) as Hheld.
  { intros m Hm Hmu. assert (m ∈ with_uid (cdUID c) holds) as Hi.
    { apply list_elem_of_In, filter_In. split; [by apply list_elem_of_In | by apply String.eqb_eq]. }
    destruct Ho as [(k & _ & Eh) | (Eq & x & Eh)]; rewrite Eh in Hi; [by apply not_elem_of_nil in Hi |].
    apply list_elem_of_singleton in Hi as <-. done. }
  destruct (String.eqb_spec class "") as [Ec | Ec]; [left | right].
  - split; [done |]. by apply Hheld.
  - destruct (agHeld a !! pool) as [msg |] eqn:Em; [left | right].
    + split; [done |]. exists msg. split; [done |]. by apply Hheld.
    + split_and!; [done | done | |].
      all: assert (with_class c class ∈ with_key (key_of c) queued) as Hi by
        (apply list_elem_of_In, filter_In; split; [by apply list_elem_of_In | apply String.eqb_refl]).
      all: destruct Ho as [(k & Eq & Eh) | (Eq & _)]; rewrite Eq in Hi; [| by apply not_elem_of_nil in Hi].
      all: apply list_elem_of_singleton in Hi. 
      * rewrite Eq. by f_equal.
      * done.
Qed.

(** ** Graft slots *)

Definition graft_slot (f : GraftFile) : Slot := mkSlot (nn_String (gfKey f)) "" "" 0 (gfDonorImportedAt f).

Lemma take_of_queue {A} (f : A -> Slot) (l : list A) n x :
  StronglySorted (fun x y => AdmitsBefore (f x) (f y) = true) l -> x ∈ l ->
  (x ∈ take n l <-> (length (List.filter (fun y => AdmitsBefore (f y) (f x)) l) < n)%nat).
Proof.
  intros Hs. revert n. induction Hs as [| y l Hs IH Hy]; intros n Hx; [by apply not_elem_of_nil in Hx |].
  rewrite list.Forall_forall in Hy.
  assert (forall z, z ∈ l -> AdmitsBefore (f z) (f y) = false) as Hy' by (intros z Hz; by apply AdmitsBefore_asym, Hy).
  destruct n as [| n]; [cbn; split; [by intros ?%not_elem_of_nil | lia] |]. cbn [take List.filter].
  apply list.elem_of_cons in Hx as [-> | Hx].
  - rewrite AdmitsBefore_irrefl. assert (List.filter (fun z => AdmitsBefore (f z) (f y)) l = []) as ->.
    { clear - Hy'. induction l as [| z l IH]; cbn; [done |]. rewrite Hy' by constructor. apply IH. intros w Hw. apply Hy'. by constructor. }
    cbn. split; [lia | constructor].
  - rewrite (Hy x Hx). cbn. rewrite list.elem_of_cons, (IH n Hx). split; [intros [-> | ?]; [| lia] | right; lia].
    exfalso. pose proof (Hy y Hx) as F. by rewrite AdmitsBefore_irrefl in F.
Qed.

Lemma take_count {A} (f : A -> Slot) (l : list A) n : (length (take n l) <= n)%nat.
Proof. rewrite length_take. lia. Qed.

Lemma graft_namespaces_spec files ns : ns ∈ graft_namespaces files <-> exists f, f ∈ graft_waiting ns files.
Proof.
  unfold graft_namespaces. destruct (SliceStable_sorts String.ltb (fun _ => True)) with
    (l := elements (list_to_set ((fun f => nnNamespace (gfKey f)) <$> List.filter graftCandidate files) : gset string)) as (Hp & _ & _).
  - intros x y _ _ H. destruct (String.ltb y x) eqn:E; [| done]. pose proof (string_ltb_trans _ _ _ H E) as F. by rewrite string_ltb_irrefl in F.
  - intros x y z _ _ _ H. destruct (decide (x = y)) as [<- | Hne]; [by right |].
    destruct (string_ltb_total x y Hne) as [? | F]; [by left | right]. by eapply string_ltb_trans.
  - by apply Forall_true.
  - rewrite Hp, elem_of_elements, elem_of_list_to_set, list_elem_of_fmap. unfold graft_waiting.
    setoid_rewrite list_elem_of_In. setoid_rewrite filter_In. split.
    + intros (f & -> & Hf & Hc). exists f. by rewrite String.eqb_refl.
    + intros (f & Hf & Hc). bools. exists f. by subst.
Qed.

Lemma graft_waiting_spec ns files f : f ∈ graft_waiting ns files <->
  f ∈ files /\ nnNamespace (gfKey f) = ns /\ graftCandidate f = true.
Proof. unfold graft_waiting. rewrite list_elem_of_In, filter_In, andb_true_iff, String.eqb_eq, <- list_elem_of_In. done. Qed.

Definition graft_limit (limit : Z) : Z := if limit <=? 0 then DefaultConcurrency else limit.

Lemma NoDup_fmap_filter {A B} (h : A -> B) (p : A -> bool) l : NoDup (h <$> l) -> NoDup (h <$> List.filter p l).
Proof.
  induction l as [| x l IH]; cbn; [done |]. intros [Hx Hl]%list.NoDup_cons. case_match; cbn; [| by apply IH]. constructor; [| by apply IH].
  intros (y & E & Hy)%list_elem_of_fmap. apply Hx. rewrite E. apply list_elem_of_fmap_2. rewrite list_elem_of_In in *. by apply filter_In in Hy as [? _].
Qed.

Lemma filter_length_perm {A} (p : A -> bool) l m : l ≡ₚ m -> length (List.filter p l) = length (List.filter p m).
Proof. induction 1; cbn; repeat case_match; cbn; congruence. Qed.

Lemma fmap_inj_elem {A B} (h : A -> B) l x y : NoDup (h <$> l) -> x ∈ l -> y ∈ l -> h x = h y -> x = y.
Proof.
  intros Hn [i Hi]%list_elem_of_lookup [j Hj]%list_elem_of_lookup He. assert (i = j) as ->; [| congruence].
  apply (NoDup_lookup (h <$> l) i j (h x) Hn); rewrite list_lookup_fmap; [by rewrite Hi | by rewrite Hj, He].
Qed.

(** *** The rule *)

(** A graft whose own Job holds a slot: queued, or running and not carried by a
    transcode. *)
Definition holds_slot (f : GraftFile) : Prop :=
  gfPhase f = "Queued" \/ (gfPhase f = "Running" /\ gfReason f <> "JoinedTranscode").

(** A graft that waits for one: not carried by a transcode in flight, not granted
    one, not backing off. *)
Definition waits_slot (f : GraftFile) : Prop :=
  gfPhase f = "Waiting" /\ gfReason f = "WaitingForSlot" /\ gfJoinInFlight f = false /\ gfGranted f = false /\ gfOnBackoff f = false.

(** Its donor came first; the names decide between donors of one instant. *)
Definition donor_before (f g : GraftFile) : Prop :=
  gfDonorImportedAt f < gfDonorImportedAt g \/
  (gfDonorImportedAt f = gfDonorImportedAt g /\ String.ltb (nnName (gfKey f)) (nnName (gfKey g)) = true).

#[export] Instance holds_slot_dec f : Decision (holds_slot f). Proof. unfold holds_slot. apply _. Defined.
#[export] Instance waits_slot_dec f : Decision (waits_slot f). Proof. unfold waits_slot. apply _. Defined.
#[export] Instance donor_before_dec : RelDecision donor_before. Proof. intros f g. unfold donor_before. apply _. Defined.

Abbreviation within ns := (fun f : GraftFile => nnNamespace (gfKey f) = ns).

(** The slots in use of a namespace: the Jobs, unfinished or named by a graft
    that holds a slot, each once; such grafts with no Job named; the slots
    granted and not yet taken. *)
Definition slots_used (ns : string) (files : list GraftFile) (jobs : gmap string (list string)) (grants : gmap string Z) : Z :=
  let held := filter (fun f => within ns f /\ holds_slot f) files in
  let named : gset string := list_to_set (gfJobName <$> filter (fun f => gfJobName f <> "") held) in
  Z.of_nat (size (list_to_set (default [] (jobs !! ns)) ∪ named))
  + Z.of_nat (length (filter (fun f => gfJobName f = "") held)) + default 0 (grants !! ns).

Lemma holdsGraftSlot_iff f : holdsGraftSlot f = true <-> holds_slot f.
Proof.
  unfold holdsGraftSlot, holds_graft, holds_slot, GraftPhaseQueued, GraftPhaseRunning, ReasonJoinedTranscode.
  rewrite orb_true_iff, andb_true_iff, negb_true_iff, !String.eqb_eq, String.eqb_neq. done.
Qed.

Lemma graftCandidate_iff f : graftCandidate f = true <-> waits_slot f.
Proof.
  unfold graftCandidate, waits_slot, GraftPhaseWaiting, graft_ReasonWaitingForSlot.
  rewrite !andb_true_iff, !negb_true_iff, !String.eqb_eq. tauto.
Qed.

Lemma ltb_prefix p a b : String.ltb (p +:+ a) (p +:+ b) = String.ltb a b.
Proof.
  induction p as [| c p IH]; [done |]. rewrite !app_cons. unfold String.ltb in *. cbn [String.compare].
  rewrite ascii_compare_N, N.compare_refl. exact IH.
Qed.

Lemma graftBefore_iff f g ns : within ns f -> within ns g -> graftBefore f g = true <-> donor_before f g.
Proof.
  intros Hf Hg. unfold graftBefore, donor_before, Equal, Before, nn_String. rewrite Hf, Hg, !ltb_prefix.
  destruct (Z.eqb_spec (gfDonorImportedAt f) (gfDonorImportedAt g)) as [E | E]; cbn [negb].
  - split; [by right | intros [? | [_ ?]]; [lia | done]].
  - rewrite Z.ltb_lt. lia.
Qed.

Lemma filter_bool {A} (p : A -> bool) (P : A -> Prop) `{!forall x, Decision (P x)} l :
  (forall x, x ∈ l -> p x = true <-> P x) -> List.filter p l = filter P l.
Proof.
  induction l as [| x l IH]; intros Hp; [done |]. rewrite filter_cons. cbn. rewrite IH by (intros; apply Hp; by constructor).
  specialize (Hp x ltac:(constructor)). destruct (p x); [rewrite decide_True by by apply Hp | rewrite decide_False; [done |]; rewrite <- Hp]; done.
Qed.

Lemma slots_used_spec ns files jobs grants : GraftInUse ns files jobs grants = slots_used ns files jobs grants.
Proof.
  unfold GraftInUse, slots_used, at_, slot_holders. cbv zeta.
  rewrite (filter_bool (fun f => String.eqb (nnNamespace (gfKey f)) ns && holdsGraftSlot f) (fun f => within ns f /\ holds_slot f)) by
    (intros f _; by rewrite andb_true_iff, String.eqb_eq, holdsGraftSlot_iff).
  rewrite (filter_bool (fun f => negb (String.eqb (gfJobName f) "")) (fun f => gfJobName f <> "")) by (intros f _; by rewrite negb_true_iff, String.eqb_neq).
  rewrite (filter_bool (fun f => String.eqb (gfJobName f) "") (fun f => gfJobName f = "")) by (intros f _; by rewrite String.eqb_eq).
  by rewrite list_to_set_app_L.
Qed.

(** C16. Graft slots go to the waiting grafts whose donors came first. Of
    distinct files with distinct names, one is granted a slot exactly when it
    waits for one and the slots in use of its namespace, with the waiting grafts
    of that namespace whose donors came before its own, leave one of the limit's
    (two when none is set). Nobody else is granted one. *)
Theorem graft_slots_granted (files : list GraftFile) (jobs : gmap string (list string)) (grants : gmap string Z)
    (limit : Z) :
  NoDup (gfUID <$> files) -> NoDup (gfKey <$> files) ->
  (forall uid, uid ∈ GraftGrants files jobs grants limit -> exists f, f ∈ files /\ gfUID f = uid) /\
  forall f, f ∈ files ->
  let ns := nnNamespace (gfKey f) in
  (gfUID f ∈ GraftGrants files jobs grants limit <->
   waits_slot f /\
   slots_used ns files jobs grants
     + Z.of_nat (length (filter (fun g => nnNamespace (gfKey g) = ns /\ waits_slot g /\ donor_before g f) files))
   < (if decide (limit <= 0) then 2 else limit)).
Proof.
  intros Hu Hk. assert ((if decide (limit <= 0) then 2 else limit) = graft_limit limit) as Hlim.
  { unfold graft_limit, DefaultConcurrency. destruct (Z.leb_spec limit 0); [by rewrite decide_True | by rewrite decide_False by lia]. }
  rewrite Hlim. set (room ns := Z.to_nat (graft_limit limit - GraftInUse ns files jobs grants)).
  assert (forall ns, NoDup ((fun f => slKey (graft_slot f)) <$> graft_waiting ns files)) as Hnk.
  { intros ns. pose proof (NoDup_fmap_filter gfKey (fun f => String.eqb (nnNamespace (gfKey f)) ns && graftCandidate f) files Hk) as H.
    assert (forall f, f ∈ graft_waiting ns files -> nnNamespace (gfKey f) = ns) as Hns by (intros f Hf; by apply graft_waiting_spec in Hf as (_ & ? & _)).
    change (NoDup (gfKey <$> graft_waiting ns files)) in H. revert H Hns. generalize (graft_waiting ns files). intros l. induction l as [| f l IH]; [constructor |].
    cbn. rewrite !list.NoDup_cons. intros [Hf Hl] Hns. split; [| apply IH; [done |]; intros g Hg; apply Hns; by constructor].
    intros (g & E & Hg)%list_elem_of_fmap. apply Hf. cbn in E. unfold nn_String in E. rewrite (Hns f), (Hns g) in E by (by constructor).
    apply app_inj_l, app_inj_l in E.
    assert (gfKey f = gfKey g) as ->; [| by apply list_elem_of_fmap_2].
    pose proof (Hns f ltac:(constructor)). pose proof (Hns g ltac:(by constructor)). destruct (gfKey f), (gfKey g); cbn in *; congruence. }
  assert (forall ns, SliceStable graftBefore (graft_waiting ns files) ≡ₚ graft_waiting ns files) as Hp by (intros m; apply (SliceStable_perm graft_slot)).
  assert (forall u, u ∈ GraftGrants files jobs grants limit <->
    exists m g, g ∈ graft_waiting m files /\ g ∈ take (room m) (SliceStable graftBefore (graft_waiting m files)) /\ gfUID g = u) as Hg.
  { intros u. unfold GraftGrants. rewrite list_elem_of_In, in_flat_map. setoid_rewrite <- list_elem_of_In. setoid_rewrite list_elem_of_fmap. split.
    - intros (m & Hm & g & He & Hg). exists m, g. split_and!; [| done | done]. rewrite <- (Hp m). by eapply sublist_subseteq; [apply sublist_take |].
    - intros (m & g & Hw & Ht & He). exists m. split; [apply graft_namespaces_spec; by exists g |]. exists g. done. }
  split. { intros u (m & g & Hw & _ & He)%Hg. exists g. apply graft_waiting_spec in Hw. tauto. }
  intros f Hf. cbv zeta. set (ns := nnNamespace (gfKey f)). rewrite <- slots_used_spec.
  assert (f ∈ graft_waiting ns files -> f ∈ take (room ns) (SliceStable graftBefore (graft_waiting ns files)) <->
    GraftInUse ns files jobs grants + Z.of_nat (length (List.filter (fun g => graftBefore g f) (graft_waiting ns files))) < graft_limit limit) as Ht.
  { intros Hw. rewrite (take_of_queue graft_slot); [| apply (sorted_by graft_slot), Hnk | by rewrite Hp].
    rewrite (filter_length_perm _ _ _ (Hp ns)). unfold room. change (fun y => AdmitsBefore (graft_slot y) (graft_slot f)) with (fun y => graftBefore y f). lia. }
  assert (List.filter (fun g => graftBefore g f) (graft_waiting ns files)
    = filter (fun g => nnNamespace (gfKey g) = ns /\ waits_slot g /\ donor_before g f) files) as Ef.
  { unfold graft_waiting. rewrite (filter_bool (fun f => String.eqb (nnNamespace (gfKey f)) ns && graftCandidate f) (fun g => within ns g /\ waits_slot g)) by
      (intros g _; by rewrite andb_true_iff, String.eqb_eq, graftCandidate_iff).
    rewrite (filter_bool (fun g => graftBefore g f) (fun g => donor_before g f)).
    - rewrite list_filter_filter. apply list_filter_iff. intros g. tauto.
    - intros g [[Hgn _] _]%list_elem_of_filter. by apply (graftBefore_iff g f ns). }
  rewrite Ef in Ht. rewrite Hg. rewrite <- graftCandidate_iff. split.
  - intros (m & g & Hw & Hi & He). pose proof Hw as Hw'. apply graft_waiting_spec in Hw as (Hgf & Hns & Hc).
    assert (g = f) as -> by (by apply (fmap_inj_elem gfUID files)). subst m. split; [done | by apply Ht].
  - intros [Hc Hi]. assert (f ∈ graft_waiting ns files) as Hw by (by apply graft_waiting_spec). exists ns, f. split_and!; [done | by apply Ht | done].
Qed.

(** ** Examples *)

Definition ex_slot (key hw : string) (prio : Z) : Slot := mkSlot key hw "hd" prio 0.
Definition ex_budget : Budget := mkBudget {[ "nvidia" := 1; "cpu" := 2 ]} ∅.
Definition ex_queue : list Slot := [ex_slot "m/c" "nvidia" 3; ex_slot "m/b" "cpu" 1; ex_slot "m/a" "nvidia" 5].

(** The one GPU goes to the higher priority; the cpu file is not held back. *)
Lemma admit_decides_witness :
  StronglySorted goes_before [ex_slot "m/a" "nvidia" 5; ex_slot "m/b" "cpu" 1].
Proof.
  apply (admit_decides ex_queue [] ex_budget).
  - intros s t. unfold ex_queue. rewrite !list.elem_of_cons. intros [-> | [-> | [-> | ?%not_elem_of_nil]]] [-> | [-> | [-> | ?%not_elem_of_nil]]];
      first [done | by intros [=]].
  - vm_compute. reflexivity.
  - vm_compute. reflexivity.
Defined.

(** Two files of one key and different classes: the one that comes first in
    the queue is taken, so the answer depends on its order. *)
Lemma duplicate_keys_depend_on_order :
  let a := ex_slot "m/a" "nvidia" 5 in let b := ex_slot "m/a" "cpu" 5 in
  Admit [a; b] [] ex_budget = [a] /\ Admit [b; a] [] ex_budget = [b].
Proof. vm_compute. done. Qed.

Definition ex_fileview (uid : UID) (hw : string) : FileView :=
  mkFileView uid (mkNN "m" uid) 1 TranscodePhasePlanned 0 "" "" "hd" "" 0 0 false 0 hw true "hevc_nvenc" false false "" "" "" 0
    true true false.
Definition ex_candidate (uid : UID) (hw : string) (prio : Z) : candidate :=
  mkCandidate uid (ex_fileview uid hw) (ex_slot uid "" prio).
Definition ex_assignment : Assignment :=
  mkAssignment (fun c => String.eqb c "nvidia") (fun _ _ => false) ∅ {[ "hd" := "u" ]} ex_budget.

(** One GPU slot: the file of the higher priority is assigned to it, an auto
    file behind it to the cpu, and a file that wants a GPU waits. *)
Lemma classes_predict_admission_witness :
  exists class, rule_class ex_assignment
    (left_of ex_budget ([] ++ filter (fun s => goes_before s (ex_slot "g" "" 1)) (Admit [ex_slot "a" "nvidia" 3; ex_slot "b" "cpu" 2] [] ex_budget)))
    (ex_fileview "g" HardwareGPU) class.
Proof.
  destruct (classes_predict_admission ex_assignment
    [ex_candidate "b" HardwareAuto 2; ex_candidate "g" HardwareGPU 1; ex_candidate "a" HardwareAuto 3] []
    [with_class (ex_candidate "a" HardwareAuto 3) "nvidia"; with_class (ex_candidate "b" HardwareAuto 2) "cpu"]
    [mkHold "g" WaitingForGPU ReasonWaitingForGPU] (ex_candidate "g" HardwareGPU 1)) as (_ & class & Hc & _).
  - vm_compute. reflexivity.
  - apply (bool_decide_unpack _). vm_compute. exact I.
  - apply (bool_decide_unpack _). vm_compute. exact I.
  - vm_compute. reflexivity.
  - intros h. unfold at_, ex_assignment, ex_budget. cbn.
    destruct (decide (h = "nvidia")) as [-> |]; [vm_compute; split; congruence |].
    destruct (decide (h = "cpu")) as [-> |]; [vm_compute; split; congruence |].
    rewrite lookup_insert_ne, lookup_singleton_ne by done. vm_compute. split; congruence.
  - right. left.
  - exists class. exact Hc.
Defined.

Definition ex_graft (uid : UID) (donor : Time) : GraftFile :=
  mkGraftFile uid (mkNN "m" uid) GraftPhaseWaiting graft_ReasonWaitingForSlot "" donor false false false.

(** One slot of two is in use by a Job: the graft of the older donor gets the
    other. *)
Lemma graft_slots_granted_witness :
  "b" ∈ GraftGrants [ex_graft "a" 7; ex_graft "b" 5] {[ "m" := ["job"] ]} ∅ 0.
Proof.
  apply (graft_slots_granted [ex_graft "a" 7; ex_graft "b" 5] {[ "m" := ["job"] ]} ∅ 0) with (f := ex_graft "b" 5).
  - apply (bool_decide_unpack _). vm_compute. exact I.
  - apply (bool_decide_unpack _). vm_compute. exact I.
  - right. left.
  - vm_compute. split; [split_and!; reflexivity | reflexivity].
Defined.
