(* ===== verification/Admission.v ===== *)
(** * Admission: the transcode ledger's memory

    src/app/transcode/admission: the [Ledger] (ledger.go), its grants
    (grants.go), the pools (pools.go), the window (window.go), one pass
    (pass.go), its graft slots (graft.go), the quorum read (rebuild.go) and what
    a sweep asks of it (sweep.go).  Every method holds the ledger's mutex for its
    whole body, so it is one function of the ledger; of a rebuild, which drops
    the mutex between its reads, each section under the mutex is one, and
    [rebuild] puts them in the order an undisturbed one has. *)

From S2P Require Import Prelude GoLang GoFacts GoFloat Api Names AdmitSlots.
From Stdlib Require Import Ascii.

(** ** Timings *)

Definition GrantPriority : Z := 100.
Definition grantTTL : Duration := 2 * Minute.
Definition grantBackoffMax : Duration := 30 * Minute.
Definition grantBackoffMin : Duration := Minute.
Definition admissionBackstop : Duration := Minute.
Definition unschedulableAfter : Duration := 10 * Minute.

(** ** Data *)

(** [entry]: a view, when it was observed, and its key's string. *)
Record entry := mkEntry { enView : FileView; enObservedAt : Time; enKey : string }.

(** [transcodeplan.GrantKind]. *)
Inductive GrantKind := GrantNone | GrantWindow | GrantDispatch | GrantGraftSlot.

#[export] Instance GrantKind_eq_dec : EqDecision GrantKind.
Proof. solve_decision. Defined.

(** [grant]. *)
Record grant := mkGrant {
  gnKind : GrantKind;
  gnClass : string;
  gnProfile : string;
  gnExpires : Time;
  gnInUse : bool;
}.

(** [backoff], [wait]. *)
Record backoff := mkBackoff { boUntil : Time; boDelay : Duration }.
Record wait := mkWait { wtReason : string; wtCause : string }.

#[export] Instance wait_eq_dec : EqDecision wait.
Proof. solve_decision. Defined.

(** [transcodeplan.Directive]; there is one kind, a reroute. *)
Record Directive := mkDirective { drSeq : Z; drReason : string; drKeepGPU : bool }.

(** [PoolState]. *)
Record PoolState := mkPoolState {
  psUnschedulableUntil : Time;
  psFailedAt : Time;
  psBackoffUntil : Time;
  psBackoffDelay : Duration;
  psRecreate : bool;
}.
Definition zero_PoolState : PoolState := mkPoolState 0 0 0 0 false.

(** [Ledger], with its options.  [lgWaker] is [None] before the loop starts and
    then the calls made to it; [lgWake] is its channel of one place;
    [lgProfileWake] the one of 64. *)
Record Ledger := mkLedger {
  lgSlots : gmap string Z;
  lgWindow : Z;
  lgGraftConcurrency : Z;
  lgFiles : gmap UID entry;
  lgByKey : gmap NamespacedName UID;
  lgGrants : gmap UID grant;
  lgBackoffs : gmap UID backoff;
  lgDirectives : gmap UID Directive;
  lgPools : gmap PoolKey PoolState;
  lgDevices : gmap string Device;
  lgWaits : gmap UID wait;
  lgLeaseMissingSince : gmap UID Time;
  lgPublishFailed : gmap UID string;
  lgWithdrawFailed : gmap UID string;
  lgProfileUIDs : gmap string UID;
  lgDispatched : gmap PoolKey Z;
  lgRebuilt : bool;
  lgWaker : option (list (NamespacedName * Z));
  lgWake : bool;
  lgProfileWake : list string;
}.

#[export] Instance eta_Ledger : Eta Ledger :=
  fun l => mkLedger (lgSlots l) (lgWindow l) (lgGraftConcurrency l) (lgFiles l) (lgByKey l) (lgGrants l) (lgBackoffs l)
    (lgDirectives l) (lgPools l) (lgDevices l) (lgWaits l) (lgLeaseMissingSince l) (lgPublishFailed l)
    (lgWithdrawFailed l) (lgProfileUIDs l) (lgDispatched l) (lgRebuilt l) (lgWaker l) (lgWake l)
    (lgProfileWake l).
#[export] Instance set_lgSlots : Setter lgSlots. Proof. derive_setter. Defined.
#[export] Instance set_lgWindow : Setter lgWindow. Proof. derive_setter. Defined.
#[export] Instance set_lgGraftConcurrency : Setter lgGraftConcurrency. Proof. derive_setter. Defined.
#[export] Instance set_lgFiles : Setter lgFiles. Proof. derive_setter. Defined.
#[export] Instance set_lgByKey : Setter lgByKey. Proof. derive_setter. Defined.
#[export] Instance set_lgGrants : Setter lgGrants. Proof. derive_setter. Defined.
#[export] Instance set_lgBackoffs : Setter lgBackoffs. Proof. derive_setter. Defined.
#[export] Instance set_lgDirectives : Setter lgDirectives. Proof. derive_setter. Defined.
#[export] Instance set_lgPools : Setter lgPools. Proof. derive_setter. Defined.
#[export] Instance set_lgDevices : Setter lgDevices. Proof. derive_setter. Defined.
#[export] Instance set_lgWaits : Setter lgWaits. Proof. derive_setter. Defined.
#[export] Instance set_lgLeaseMissingSince : Setter lgLeaseMissingSince. Proof. derive_setter. Defined.
#[export] Instance set_lgPublishFailed : Setter lgPublishFailed. Proof. derive_setter. Defined.
#[export] Instance set_lgWithdrawFailed : Setter lgWithdrawFailed. Proof. derive_setter. Defined.
#[export] Instance set_lgProfileUIDs : Setter lgProfileUIDs. Proof. derive_setter. Defined.
#[export] Instance set_lgDispatched : Setter lgDispatched. Proof. derive_setter. Defined.
#[export] Instance set_lgRebuilt : Setter lgRebuilt. Proof. derive_setter. Defined.
#[export] Instance set_lgWaker : Setter lgWaker. Proof. derive_setter. Defined.
#[export] Instance set_lgWake : Setter lgWake. Proof. derive_setter. Defined.
#[export] Instance set_lgProfileWake : Setter lgProfileWake. Proof. derive_setter. Defined.

Definition NewLedger (slots : gmap string Z) (window graftConcurrency : Z) : Ledger :=
  mkLedger slots window graftConcurrency ∅ ∅ ∅ ∅ ∅ ∅ ∅ ∅ ∅ ∅ ∅ ∅ ∅ false None false [].

Definition profileWakeBuffer : nat := 64.

(** ** Waking *)

Definition setWaker (l : Ledger) : Ledger := l <| lgWaker := Some [] |>.

Definition enqueueLocked (key : NamespacedName) (prio : Z) (l : Ledger) : Ledger :=
  match lgWaker l with
  | None => l
  | Some calls => l <| lgWaker := Some (calls ++ [(key, prio)]) |>
  end.

Definition signalLocked (l : Ledger) : Ledger := l <| lgWake := true |>.

Definition wakeProfileLocked (name : string) (l : Ledger) : Ledger :=
  if Nat.ltb (length (lgProfileWake l)) profileWakeBuffer then l <| lgProfileWake ::= fun w => w ++ [name] |> else l.

Definition Wake (l : Ledger) : Ledger := signalLocked l.
Definition SetSlots (slots : gmap string Z) (l : Ledger) : Ledger := signalLocked (l <| lgSlots := slots |>).
Definition SetWindow (window : Z) (l : Ledger) : Ledger := signalLocked (l <| lgWindow := window |>).
Definition markRebuilt (l : Ledger) : Ledger := signalLocked (l <| lgRebuilt := true |>).

(** ** Observing files *)

(** [retireLocked]. *)
Definition retireLocked (uid : UID) (l : Ledger) : Ledger :=
  let l := match lgFiles l !! uid with
           | Some e => l <| lgByKey ::= delete (fvKey (enView e)) |>
           | None => l
           end in
  l <| lgFiles ::= delete uid |> <| lgGrants ::= delete uid |> <| lgBackoffs ::= delete uid |>
    <| lgDirectives ::= delete uid |> <| lgWaits ::= delete uid |> <| lgLeaseMissingSince ::= delete uid |>
    <| lgPublishFailed ::= delete uid |> <| lgWithdrawFailed ::= delete uid |>.

(** The view stored over [cur]: the last eligibility and the profile's UID
    filled in. *)
Definition filled (v : FileView) (cur : option entry) (l : Ledger) : FileView :=
  let v := match cur with
           | Some c => if negb (fvEligibleKnown v)
                       then v <| fvEligible := fvEligible (enView c) |> <| fvEligibleKnown := fvEligibleKnown (enView c) |>
                       else v
           | None => v
           end in
  if String.eqb (fvProfileUID v) "" then v <| fvProfileUID := default "" (lgProfileUIDs l !! fvProfile v) |> else v.

(** Whether the view takes the place of the file's unused grant. *)
Definition grant_spent (g : grant) (v : FileView) : bool :=
  match gnKind g with
  | GrantGraftSlot => graftHoldsSlot v
  | GrantDispatch => true
  | _ => windowPhase (fvPhase v)
  end.

(** The file's unused grant, its directive and its wait reason, when [v] says
    they are done with, and what is kept of a dispatch in flight. *)
Definition spend_grant (v : FileView) (l : Ledger) : Ledger :=
  match lgGrants l !! fvUID v with
  | Some g => if negb (gnInUse g) && grant_spent g v then l <| lgGrants ::= delete (fvUID v) |> else l
  | None => l
  end.

Definition close_directive (v : FileView) (l : Ledger) : Ledger :=
  match lgDirectives l !! fvUID v with
  | Some d => if negb (slotPhase (fvPhase v)) || negb (fvDispatchSeq v =? drSeq d)
              then l <| lgDirectives ::= delete (fvUID v) |> else l
  | None => l
  end.

Definition drop_wait (v : FileView) (l : Ledger) : Ledger :=
  if negb (String.eqb (fvPhase v) TranscodePhasePlanned) then l <| lgWaits ::= delete (fvUID v) |> else l.

Definition drop_dispatch (v : FileView) (l : Ledger) : Ledger :=
  if negb (slotPhase (fvPhase v)) then
    l <| lgLeaseMissingSince ::= delete (fvUID v) |> <| lgPublishFailed ::= delete (fvUID v) |>
      <| lgWithdrawFailed ::= delete (fvUID v) |>
  else l.

Definition storeLocked (v : FileView) (cur : option entry) (now : Time) (l : Ledger) : Ledger :=
  let v := filled v cur l in
  let l := l <| lgFiles ::= <[fvUID v := mkEntry v now (nn_String (fvKey v))]> |> <| lgByKey ::= <[fvKey v := fvUID v]> |> in
  drop_dispatch v (drop_wait v (close_directive v (spend_grant v l))).

(** Whether [v] is older than what is recorded: [(Seq, rank)] below it. *)
Definition stale (v cur : FileView) : bool :=
  (fvSeq v <? fvSeq cur) || ((fvSeq v =? fvSeq cur) && (rank (fvPhase v) <? rank (fvPhase cur))).

Definition retire_other (v : FileView) (l : Ledger) : Ledger :=
  match lgByKey l !! fvKey v with
  | Some old => if negb (String.eqb old (fvUID v)) then retireLocked old l else l
  | None => l
  end.

Definition observeLocked (v : FileView) (now : Time) (l : Ledger) : bool * Ledger :=
  let l := retire_other v l in
  let cur := lgFiles l !! fvUID v in
  match cur with
  | Some c => if stale v (enView c) then (false, l) else (true, storeLocked v cur now l)
  | None => (true, storeLocked v cur now l)
  end.

Definition Observe (v : FileView) (now : Time) (l : Ledger) : Ledger := signalLocked (observeLocked v now l).2.

(** A dispatch in flight: Queued, Running or Swapping. *)
Definition in_flight (v : FileView) : bool := slotPhase (fvPhase v) || String.eqb (fvPhase v) TranscodePhaseSwapping.

Definition Forget (key : NamespacedName) (l : Ledger) : (UID * bool) * Ledger :=
  match lgByKey l !! key with
  | None => (("", false), l)
  | Some uid =>
      let open := from_option (fun e => in_flight (enView e)) false (lgFiles l !! uid)
                  || bool_decide (is_Some (lgGrants l !! uid)) in
      ((uid, open), signalLocked (retireLocked uid l))
  end.

(** ** Snapshots *)

(** [transcodeplan.Ledger]. *)
Record Snapshot := mkSnapshot {
  snGrant : GrantKind;
  snClass : string;
  snDirective : option Directive;
  snWaitReason : string;
  snWaitCause : string;
  snDevice : Device;
  snPublishFailed : string;
  snWithdrawFailed : string;
}.

Definition zero_Device : Device := mkDevice "" ∅.

Definition grant_lives (g : grant) (now : Time) : bool := gnInUse g || Before now (gnExpires g).

Definition snapshotLocked (uid : UID) (now : Time) (l : Ledger) : Snapshot :=
  let '(kind, class, device) := match lgGrants l !! uid with
    | Some g => if grant_lives g now then (gnKind g, gnClass g, default zero_Device (lgDevices l !! gnClass g))
                else (GrantNone, "", zero_Device)
    | None => (GrantNone, "", zero_Device)
    end in
  let w := default (mkWait "" "") (lgWaits l !! uid) in
  mkSnapshot kind class (lgDirectives l !! uid) (wtReason w) (wtCause w) device
    (default "" (lgPublishFailed l !! uid)) (default "" (lgWithdrawFailed l !! uid)).

(** ** Grants *)

Definition TakeGrant (uid : UID) (now : Time) (l : Ledger) : (Snapshot * bool) * Ledger :=
  match lgGrants l !! uid with
  | Some g =>
      if grant_lives g now then
        let l := l <| lgGrants ::= <[uid := mkGrant (gnKind g) (gnClass g) (gnProfile g) (gnExpires g) true]> |> in
        ((snapshotLocked uid now l, true), l)
      else ((snapshotLocked uid now l, false), l)
  | None => ((snapshotLocked uid now l, false), l)
  end.

Definition Confirm (uid : UID) (l : Ledger) : Ledger :=
  signalLocked (l <| lgGrants ::= delete uid |> <| lgBackoffs ::= delete uid |>).

Definition next_delay (b : option backoff) : Duration :=
  match b with None => grantBackoffMin | Some p => Z.min (wrap64 (boDelay p * 2)) grantBackoffMax end.

Definition backOffLocked (uid : UID) (now : Time) (l : Ledger) : Ledger :=
  let delay := next_delay (lgBackoffs l !! uid) in
  l <| lgBackoffs ::= <[uid := mkBackoff (Add now delay) delay]> |>.

Definition Release (uid : UID) (now : Time) (l : Ledger) : Ledger :=
  signalLocked (match lgGrants l !! uid with
                | Some _ => backOffLocked uid now (l <| lgGrants ::= delete uid |>)
                | None => l
                end).

Definition ReleaseUnconfirmed (uid : UID) (l : Ledger) : Ledger :=
  match lgGrants l !! uid with
  | Some g => if gnInUse g then signalLocked (l <| lgGrants ::= delete uid |>) else l
  | None => l
  end.

Definition onBackoffLocked (uid : UID) (now : Time) (l : Ledger) : bool :=
  match lgBackoffs l !! uid with Some b => Before now (boUntil b) | None => false end.

Definition grantLocked (uid : UID) (key : NamespacedName) (kind : GrantKind) (class profile : string) (now : Time)
    (l : Ledger) : Ledger :=
  enqueueLocked key GrantPriority (l <| lgGrants ::= <[uid := mkGrant kind class profile (Add now grantTTL) false]> |>).

Definition NoteLeaseMissing (uid : UID) (missing : bool) (now : Time) (l : Ledger) : Time * Ledger :=
  if negb missing then (0, l <| lgLeaseMissingSince ::= delete uid |>)
  else match lgLeaseMissingSince l !! uid with
       | Some since => (since, l)
       | None => (now, l <| lgLeaseMissingSince ::= <[uid := now]> |>)
       end.

(** An error is its text, [None] for nil. *)
Definition PublishFailed (uid : UID) (err : option string) (l : Ledger) : Ledger :=
  match err with
  | None => l <| lgPublishFailed ::= delete uid |>
  | Some e => l <| lgPublishFailed ::= <[uid := e]> |>
  end.

Definition WithdrawFailed (uid : UID) (err : option string) (l : Ledger) : Ledger :=
  match err with
  | None => l <| lgWithdrawFailed ::= delete uid |>
  | Some e => l <| lgWithdrawFailed ::= <[uid := e]> |>
  end.

Definition InFlightOrGranted (uid : UID) (l : Ledger) : bool :=
  bool_decide (is_Some (lgGrants l !! uid)) || from_option (fun e => in_flight (enView e)) false (lgFiles l !! uid).

Definition Reroute (uid : UID) (seq : Z) (reason : string) (keepGPU : bool) (l : Ledger) : Ledger :=
  let l := l <| lgDirectives ::= <[uid := mkDirective seq reason keepGPU]> |> in
  match lgFiles l !! uid with
  | Some e => enqueueLocked (fvKey (enView e)) GrantPriority l
  | None => l
  end.

(** ** Pools *)

Definition UpdatePool (k : PoolKey) (f : PoolState -> PoolState) (l : Ledger) : Ledger :=
  signalLocked (l <| lgPools ::= <[k := f (default zero_PoolState (lgPools l !! k))]> |>).

Definition SetUnschedulable (k : PoolKey) (until : Time) (l : Ledger) : Ledger :=
  UpdatePool k (fun p => mkPoolState until (psFailedAt p) (psBackoffUntil p) (psBackoffDelay p) (psRecreate p)) l.

Definition get_PoolState (k : PoolKey) (l : Ledger) : PoolState := default zero_PoolState (lgPools l !! k).

(** The pool of [class] of the profile named, as it now is. *)
Definition pool_key (l : Ledger) (profile class : string) : PoolKey :=
  mkPoolKey profile (default "" (lgProfileUIDs l !! profile)) class.

Definition unschedulable_now (l : Ledger) (now : Time) (k : PoolKey) : bool :=
  match lgPools l !! k with Some p => Before now (psUnschedulableUntil p) | None => false end.

Definition unschedulableLocked (l : Ledger) (now : Time) (profile class : string) : bool :=
  bool_decide (class ∈ GPUClasses) && unschedulable_now l now (pool_key l profile class).

Section Admission.
Context `{Unicode} `{RangeOrder}.

(** The pool a file in flight counts toward. *)
Definition pool_of (l : Ledger) (v : FileView) : option PoolKey :=
  if negb (slotPhase (fvPhase v)) || String.eqb (fvClass v) "" then None
  else match lgProfileUIDs l !! fvProfile v with
       | None => None
       | Some uid =>
           let k := mkPoolKey (fvProfile v) uid (fvClass v) in
           if negb (String.eqb (fvPool v) "") && negb (String.eqb (fvPool v) (pool_Name k)) then None else Some k
       end.

Definition dispatchedLocked (l : Ledger) : gmap PoolKey Z :=
  fold_left (fun out x => match pool_of l (enView x.2) with
                          | None => out
                          | Some k => <[k := wrap32 (default 0 (out !! k) + 1)]> out
                          end) (range (lgFiles l)) ∅.

Definition DispatchedPerPool (k : PoolKey) (l : Ledger) : Z * bool :=
  if negb (lgRebuilt l) then (0, false) else (default 0 (dispatchedLocked l !! k), true).

Definition orphanedLocked (l : Ledger) (v : FileView) : bool :=
  match lgProfileUIDs l !! fvProfile v with
  | None => true
  | Some uid => negb (String.eqb (fvPool v) "")
                && negb (String.eqb (fvPool v) (pool_Name (mkPoolKey (fvProfile v) uid (fvClass v))))
  end.

(** ** The window *)

Definition open_step (l : Ledger) (profile : string) (uid : UID) (e : entry) : bool :=
  (String.eqb (fvProfile (enView e)) profile && windowPhase (fvPhase (enView e)))
  || match lgGrants l !! uid with
     | Some g => bool_decide (gnKind g = GrantWindow) && String.eqb (gnProfile g) profile
     | None => false
     end.

(** [open]. *)
Definition open (l : Ledger) (profile : string) : Z :=
  Z.of_nat (length (List.filter (fun x => open_step l profile x.1 x.2) (range (lgFiles l)))).

(** [openCounts]: one walk of the files. *)
Definition count_open (l : Ledger) (out : gmap string Z) (x : UID * entry) : gmap string Z :=
  let v := enView x.2 in
  match out !! fvProfile v, windowPhase (fvPhase v) with
  | Some n, true => <[fvProfile v := n + 1]> out
  | _, _ =>
      match lgGrants l !! x.1 with
      | Some g =>
          if bool_decide (gnKind g = GrantWindow) then
            match out !! gnProfile g with Some n => <[gnProfile g := n + 1]> out | None => out end
          else out
      | None => out
      end
  end.

Definition openCounts {A} (l : Ledger) (profiles : gmap string A) : gmap string Z :=
  fold_left (count_open l) (range (lgFiles l)) ((fun _ => 0) <$> profiles).

Definition inBacklogLocked (l : Ledger) (uid : UID) (e : entry) (profile : string) (now : Time) : bool :=
  let v := enView e in
  String.eqb (fvProfile v) profile && fvEligible v && negb (windowPhase (fvPhase v)) && negb (fvVerdictHolds v)
  && bool_decide (lgGrants l !! uid = None) && negb (onBackoffLocked uid now l).

(** The backlog's order: priority, then the key. *)
Definition backlogBefore (a b : entry) : bool :=
  if negb (fvPriority (enView a) =? fvPriority (enView b)) then fvPriority (enView b) <? fvPriority (enView a)
  else String.ltb (enKey a) (enKey b).

(** [backlogLocked]; its sort is not stable, and no two entries have one key. *)
Definition backlogLocked (l : Ledger) (profile : string) (now : Time) : list entry :=
  SliceStable backlogBefore
    (snd <$> List.filter (fun x => inBacklogLocked l x.1 x.2 profile now) (range (lgFiles l))).

Definition Backlog (l : Ledger) (profile : string) (now : Time) : Z :=
  Z.of_nat (length (List.filter (fun x => inBacklogLocked l x.1 x.2 profile now) (range (lgFiles l)))).

(** The loop over one profile's backlog, [opn] places being taken. *)
Fixpoint fill_profile (window : Z) (name : string) (now : Time) (backlog : list entry) (opn : Z) (l : Ledger) : Ledger :=
  match backlog with
  | [] => l
  | e :: backlog =>
      if (0 <? window) && (window <=? opn) then l
      else fill_profile window name now backlog (opn + 1)
             (grantLocked (fvUID (enView e)) (fvKey (enView e)) GrantWindow "" name now l)
  end.

Definition fillWindowLocked {A} (profiles : gmap string A) (now : Time) (l : Ledger) : Ledger :=
  let opens := openCounts l profiles in
  fold_left (fun l x =>
    let opn := at_ opens x.1 in
    if (0 <? lgWindow l) && (lgWindow l <=? opn) then l
    else fill_profile (lgWindow l) x.1 now (backlogLocked l x.1 now) opn l) (range profiles) l.

(** ** The pass *)

(** [ProfileView], [PassInputs]. *)
Record ProfileView := mkProfileView {
  pvName : string;
  pvUID : UID;
  pvPriority : Z;
  pvMaxConcurrent : Z;
  pvHardware : string;
}.

Record PassInputs := mkPassInputs {
  piProfiles : gmap string ProfileView;
  piGPUNodes : gmap string bool;
  piDevices : gmap string Device;
  piUnhealthy : gmap string string;
  piHeld : gmap PoolKey string;
  piGraftJobs : gmap string (list string);
  piVideoStreams : Z;
}.

Definition uidsOf (profiles : gmap string ProfileView) : gmap string UID := pvUID <$> profiles.

Definition profileLimits (profiles : gmap string ProfileView) : gmap string Z :=
  pvMaxConcurrent <$> filter (fun x => 0 < pvMaxConcurrent x.2) profiles.

(** [expireLocked]. *)
Definition expireLocked (now : Time) (l : Ledger) : Ledger :=
  fold_left (fun l x => if grant_lives x.2 now then l else backOffLocked x.1 now (l <| lgGrants ::= delete x.1 |>))
    (range (lgGrants l)) l.

(** Why a file in flight is sent elsewhere, "" for not at all. *)
Definition reroute_reason (inp : PassInputs) (now : Time) (l : Ledger) (v : FileView) : string :=
  let k := pool_key l (fvProfile v) (fvClass v) in
  if unschedulable_now l now k
  then "GPU pool " +:+ pool_Name k +:+ " unschedulable for " +:+ fmt_d (unschedulableAfter / Minute) +:+ "m"
  else default "" (piUnhealthy inp !! fvClass v).

Definition reroutes (uid : UID) (v : FileView) (l : Ledger) : bool :=
  String.eqb (fvPhase v) TranscodePhaseQueued && negb (fvSuspended v) && choosesClass v
  && negb (String.eqb (fvClass v) HardwareCPU) && negb (String.eqb (fvClass v) "")
  && match lgDirectives l !! uid with Some d => negb (drSeq d =? fvDispatchSeq v) | None => true end.

Definition reroute_one (inp : PassInputs) (now : Time) (l : Ledger) (x : UID * entry) : Ledger :=
  let v := enView x.2 in
  if reroutes x.1 v l && negb (String.eqb (reroute_reason inp now l v) "") then
    enqueueLocked (fvKey v) GrantPriority
      (l <| lgDirectives ::= <[x.1 := mkDirective (fvDispatchSeq v) (reroute_reason inp now l v) (gpuOnly v)]> |>)
  else l.

Definition rerouteLocked (inp : PassInputs) (now : Time) (l : Ledger) : Ledger :=
  fold_left (reroute_one inp now) (range (lgFiles l)) l.

(** Whether a Planned file competes. *)
Definition competes (inp : PassInputs) (now : Time) (l : Ledger) (uid : UID) (v : FileView) : bool :=
  String.eqb (fvPhase v) TranscodePhasePlanned && bool_decide (is_Some (piProfiles inp !! fvProfile v))
  && negb (fvSuspended v) && negb (negb (IsZero (fvNextAttemptAt v)) && After (fvNextAttemptAt v) now)
  && bool_decide (lgGrants l !! uid = None) && negb (onBackoffLocked uid now l)
  && negb (fvEligibleKnown v && negb (fvEligible v)) && bool_decide (lgDirectives l !! uid = None).

Definition candidate_of (inp : PassInputs) (uid : UID) (e : entry) : candidate :=
  let v := enView e in
  let prio := if fvPriority v =? 0 then from_option pvPriority 0 (piProfiles inp !! fvProfile v) else fvPriority v in
  mkCandidate uid v (mkSlot (enKey e) "" (fvProfile v) prio (fvPlannedAt v)).

(** The slots the blocks hold, and those the dispatch grants hold. *)
Definition block_slots (l : Ledger) : list Slot :=
  omap (fun x => let v := enView x.2 in
    if slotPhase (fvPhase v) && negb (orphanedLocked l v) then Some (mkSlot (enKey x.2) (fvClass v) (fvProfile v) 0 0) else None)
    (range (lgFiles l)).

Definition grant_slots (now : Time) (l : Ledger) : list Slot :=
  omap (fun x => let g := x.2 in
    if bool_decide (gnKind g = GrantDispatch) && grant_lives g now
       && negb (from_option (fun e => slotPhase (fvPhase (enView e))) false (lgFiles l !! x.1))
    then Some (mkSlot x.1 (gnClass g) (gnProfile g) 0 0) else None) (range (lgGrants l)).

Definition candidatesLocked (inp : PassInputs) (now : Time) (l : Ledger) : list candidate * list Slot :=
  (omap (fun x => if negb (slotPhase (fvPhase (enView x.2))) && competes inp now l x.1 (enView x.2)
                  then Some (candidate_of inp x.1 x.2) else None) (range (lgFiles l)),
   block_slots l ++ grant_slots now l).

(** The candidate an admitted slot is of: the last of its key. *)
Definition by_slot (queued : list candidate) : gmap string candidate :=
  fold_left (fun m c => <[slKey (cdSlot c) := c]> m) queued ∅.

Definition grant_admitted (queued : gmap string candidate) (now : Time) (l : Ledger) (s : Slot) : Ledger :=
  match queued !! slKey s with
  | None => l
  | Some c =>
      (grantLocked (cdUID c) (fvKey (cdView c)) GrantDispatch (slHardware s) (fvProfile (cdView c)) now l)
        <| lgWaits ::= delete (cdUID c) |>
  end.

Definition grantDispatchLocked (queued : list candidate) (admitted : list Slot) (now : Time) (l : Ledger) : Ledger :=
  fold_left (grant_admitted (by_slot queued) now) admitted l.

Definition set_wait (uid : UID) (key : NamespacedName) (w : wait) (l : Ledger) : Ledger :=
  if bool_decide (default (mkWait "" "") (lgWaits l !! uid) = w) then l
  else enqueueLocked key GrantPriority (l <| lgWaits ::= <[uid := w]> |>).

Definition wait_held (yielding : string) (l : Ledger) (h : hold) : Ledger :=
  match lgFiles l !! hdUID h with
  | None => l
  | Some e =>
      let msg := if negb (String.eqb yielding "") && String.eqb (hdMsg h) WaitingForGPU then yielding else hdMsg h in
      set_wait (hdUID h) (fvKey (enView e)) (mkWait msg (hdCause h)) l
  end.

Definition wait_queued (yielding : string) (admitted : list Slot) (l : Ledger) (c : candidate) : Ledger :=
  if bool_decide (slKey (cdSlot c) ∈ slKey <$> admitted) then l
  else
    let class := slHardware (cdSlot c) in
    let msg := if negb (String.eqb yielding "") && String.eqb class HardwareIntel then yielding
               else "waiting for a free " +:+ class +:+ " slot" in
    set_wait (cdUID c) (fvKey (cdView c)) (mkWait msg ReasonWaitingForSlot) l.

Definition waitReasonsLocked (queued : list candidate) (admitted : list Slot) (holds : list hold) (yielding : string)
    (l : Ledger) : Ledger :=
  fold_left (wait_queued yielding admitted) queued (fold_left (wait_held yielding) holds l).

(** [grantGraftSlotsLocked]. *)
Definition graft_file (l : Ledger) (now : Time) (uid : UID) (e : entry) : GraftFile :=
  let v := enView e in
  mkGraftFile uid (fvKey v) (fvGraftPhase v) (fvGraftReason v) (fvGraftJobName v) (fvDonorImportedAt v)
    (fvJoinedGraft v) (bool_decide (is_Some (lgGrants l !! uid))) (onBackoffLocked uid now l).

Definition graft_files (l : Ledger) (now : Time) : list GraftFile :=
  (fun x => graft_file l now x.1 x.2) <$> List.filter (fun x => graftRelevant (fvGraftPhase (enView x.2))) (range (lgFiles l)).

Definition graft_grants (l : Ledger) (now : Time) : gmap string Z :=
  fold_left (fun (m : gmap string Z) x =>
    if bool_decide (gnKind x.2 = GrantGraftSlot) && grant_lives x.2 now then
      match lgFiles l !! x.1 with
      | Some e => let ns := nnNamespace (fvKey (enView e)) in <[ns := at_ m ns + 1]> m
      | None => m
      end
    else m) (range (lgGrants l)) ∅.

Definition grantGraftSlotsLocked (inp : PassInputs) (now : Time) (l : Ledger) : Ledger :=
  fold_left (fun l uid => match lgFiles l !! uid with
                          | Some e => grantLocked uid (fvKey (enView e)) GrantGraftSlot "" "" now l
                          | None => l
                          end)
    (GraftGrants (graft_files l now) (piGraftJobs inp) (graft_grants l now) (lgGraftConcurrency l)) l.

(** [metricsLocked], less its gauges: a profile one of whose pools' count
    changed is woken. *)
Definition woken (old new : gmap PoolKey Z) : gset string :=
  list_to_set (pkProfile ∘ fst <$> List.filter (fun x => negb (default 0 (old !! x.1) =? x.2)) (range new))
  ∪ list_to_set (pkProfile ∘ fst <$> List.filter (fun x => bool_decide (new !! x.1 = None)) (range old)).

Definition metricsLocked (l : Ledger) : Ledger :=
  let dispatched := dispatchedLocked l in
  let names := woken (lgDispatched l) dispatched in
  fold_left (fun l x => wakeProfileLocked x.1 l) (range (gset_to_gmap true names)) (l <| lgDispatched := dispatched |>).

(** [nextWakeLocked]. *)
Definition soon (now next t : Time) : Time := if After t now && Before t next then t else next.

Definition wake_times (l : Ledger) : list Time :=
  (fvNextAttemptAt <$> List.filter (fun v => String.eqb (fvPhase v) TranscodePhasePlanned) ((fun x => enView x.2) <$> range (lgFiles l)))
  ++ (gnExpires <$> List.filter (fun g => negb (gnInUse g)) (snd <$> range (lgGrants l)))
  ++ ((fun x => boUntil x.2) <$> range (lgBackoffs l))
  ++ flat_map (fun x => [psUnschedulableUntil x.2; psBackoffUntil x.2]) (range (lgPools l)).

Definition nextWakeLocked (now : Time) (l : Ledger) : Duration :=
  Z.max (Sub (fold_left (soon now) (wake_times l) (Add now admissionBackstop)) now) Second.

(** The pools held in this pass: those held, and those of a class every node
    reports unusable. *)
Definition held_now (inp : PassInputs) : gmap PoolKey string :=
  fold_left (fun held x =>
    fold_left (fun (held : gmap PoolKey string) y =>
      let k := mkPoolKey (pvName y.2) (pvUID y.2) x.1 in
      if String.eqb (default "" (held !! k)) "" then <[k := x.2]> held else held)
      (range (piProfiles inp)) held) (range (piUnhealthy inp)) (piHeld inp).

Definition gpu_now (inp : PassInputs) (class : string) : bool :=
  match piUnhealthy inp !! class with Some _ => false | None => default false (piGPUNodes inp !! class) end.

(** The budget beside Plex's streams, and the message of who yields to them. *)
Definition budget_now (inp : PassInputs) (l : Ledger) : gmap string Z * string :=
  match lgSlots l !! HardwareIntel with
  | Some n =>
      if 0 <? piVideoStreams inp then
        let beside := Z.min n (VideoAllowance (videoEngines (default zero_Device (piDevices inp !! HardwareIntel))) (piVideoStreams inp)) in
        (<[HardwareIntel := wrap32 beside]> (lgSlots l), yieldMessage (piVideoStreams inp) beside)
      else (lgSlots l, "")
  | None => (lgSlots l, "")
  end.

(** What a pass assigns the classes from. *)
Definition assignment (inp : PassInputs) (now : Time) (l : Ledger) : Assignment :=
  mkAssignment (gpu_now inp) (unschedulableLocked l now) (held_now inp) (lgProfileUIDs l)
    (mkBudget (budget_now inp l).1 (profileLimits (piProfiles inp))).

(** The part of a pass before it grants anything. *)
Definition pass_open (inp : PassInputs) (now : Time) (l : Ledger) : Ledger :=
  expireLocked now (l <| lgDevices := piDevices inp |> <| lgProfileUIDs := uidsOf (piProfiles inp) |>).

Definition Pass (inp : PassInputs) (now : Time) (l : Ledger) : Duration * Ledger :=
  let l := pass_open inp now l in
  if negb (lgRebuilt l) then (admissionBackstop, l)
  else
    let l := rerouteLocked inp now l in
    let '(cands, running) := candidatesLocked inp now l in
    let a := assignment inp now l in
    let '(queued, holds) := assignClasses a cands running in
    let admitted := Admit (cdSlot <$> queued) running (agBudget a) in
    let l := grantDispatchLocked queued admitted now l in
    let l := waitReasonsLocked queued admitted holds (budget_now inp l).2 l in
    let l := fillWindowLocked (piProfiles inp) now l in
    let l := grantGraftSlotsLocked inp now l in
    let l := metricsLocked l in
    (nextWakeLocked now l, l).

(** ** The quorum read *)

(** [observeQuorum]. *)
Definition observeQuorum (v : FileView) (started now : Time) (replace : bool) (l : Ledger) : Ledger :=
  match replace, lgFiles l !! fvUID v with
  | true, Some c => if negb (Before (enObservedAt c) started) then (observeLocked v now l).2 else storeLocked v (Some c) now l
  | _, _ => (observeLocked v now l).2
  end.

(** The entries a resync reads again one by one. *)
Definition unseen (seen : list UID) (started : Time) (l : Ledger) : list FileView :=
  (fun x => enView x.2) <$> List.filter (fun x => negb (bool_decide (x.1 ∈ seen)) && windowPhase (fvPhase (enView x.2))
                                            && Before (enObservedAt x.2) started) (range (lgFiles l)).

(** The answers of the API: a List's views with the clock at each, [None] for
    its error; a Get's. *)
Inductive GetAnswer := GotView (v : FileView) (at_now : Time) | GotNothing | GotError.

Fixpoint observe_lists (lists : list (option (list (FileView * Time)))) (started : Time) (replace : bool) (l : Ledger) :
  bool * Ledger :=
  match lists with
  | [] => (true, l)
  | None :: _ => (false, l)
  | Some items :: lists =>
      observe_lists lists started replace (fold_left (fun l x => observeQuorum x.1 started x.2 replace l) items l)
  end.

(** [correctUnseen]'s loop. *)
Fixpoint correct_unseen (get : NamespacedName -> GetAnswer) (views : list FileView) (started : Time) (l : Ledger) :
  bool * Ledger :=
  match views with
  | [] => (true, l)
  | v :: views =>
      match get (fvKey v) with
      | GotNothing => correct_unseen get views started (Forget (fvKey v) l).2
      | GotError => (false, l)
      | GotView w now => correct_unseen get views started (observeQuorum w started now true l)
      end
  end.

(** [scanBacklog]: of each namespace's List, the views of the files the
    eligibility test answered for, observed at one reading of the clock. *)
Fixpoint scanBacklog (lists : list (option (list FileView * Time))) (l : Ledger) : bool * Ledger :=
  match lists with
  | [] => (true, l)
  | None :: _ => (false, l)
  | Some (views, now) :: lists => scanBacklog lists (fold_left (fun l v => (observeLocked v now l).2) views l)
  end.

Definition seen_uids (lists : list (option (list (FileView * Time)))) : list UID :=
  flat_map (fun o => from_option (fun items => (fun x => fvUID x.1) <$> items) [] o) lists.

(** [rebuild], undisturbed; [false] is its error. *)
Definition rebuild (lists : list (option (list (FileView * Time)))) (get : NamespacedName -> GetAnswer)
    (backlog : list (option (list FileView * Time))) (started : Time) (replace : bool) (l : Ledger) : bool * Ledger :=
  let '(ok, l) := observe_lists lists started replace l in
  if negb ok then (false, l)
  else
    let '(ok, l) := if replace then correct_unseen get (unseen (seen_uids lists) started l) started l else (true, l) in
    if negb ok then (false, l)
    else
      let '(ok, l) := scanBacklog backlog l in
      if negb ok then (false, l) else (true, markRebuilt l).
End Admission.
