(* ===== verification/AdmissionFacts.v ===== *)
(** * AdmissionFacts: what the transcode ledger keeps

    Over every sequence of the ledger's operations, views arriving late or out
    of order among them: a pass stays within the slots and fills the window, each
    file that competes is answered, a file's view goes only forward, but for a
    late view of a deleted predecessor, and a grant goes only the ways the rules
    name. *)

From stdpp Require Import sorting.
From S2P Require Import Prelude GoLang GoFacts GoFloat Api Names AdmitSlots AdmitFacts Admission.
From Stdlib Require Import Ascii.

(** ** Lists and maps *)

Section range.
Context `{RangeOrder} {V : Type}.
Implicit Types m : gmap string V.

Lemma elem_of_range {K} `{Countable K} (m : gmap K V) k v : (k, v) ∈ range m <-> m !! k = Some v.
Proof. by rewrite range_perm, elem_of_map_to_list. Qed.

Lemma NoDup_range {K} `{Countable K} (m : gmap K V) : NoDup (range m).*1.
Proof. rewrite range_perm. apply NoDup_fst_map_to_list. Qed.
End range.

Lemma fold_left_still {S A} (R : S -> S -> Prop) `{!PreOrder R} (f : S -> A -> S) xs s :
  (forall s x, x ∈ xs -> R s (f s x)) -> R s (fold_left f xs s).
Proof.
  revert s. induction xs as [| x xs IH]; intros s Hf; cbn; [done |]. etrans; [apply Hf; constructor |].
  apply IH. intros t y Hy. apply Hf. by constructor.
Qed.

Lemma sorted_take {A} (R : A -> A -> Prop) (xs : list A) n x y :
  StronglySorted R xs -> x ∈ take n xs -> y ∈ xs -> y ∉ take n xs -> R x y.
Proof.
  intros Hs. revert n. induction Hs as [| z xs Hs IH Hz]; intros [| n] Hx Hy Hn; cbn in *; try by apply not_elem_of_nil in Hx.
  rewrite list.Forall_forall in Hz. apply not_elem_of_cons in Hn as [Hne Hn]. apply list.elem_of_cons in Hy as [-> | Hy]; [done |].
  apply list.elem_of_cons in Hx as [-> | Hx]; [by apply Hz | by apply (IH n)].
Qed.

(** Inserting a list of entries into a map. *)
Definition issue {V} (items : list (string * V)) (m : gmap string V) : gmap string V :=
  fold_left (fun m x => <[x.1 := x.2]> m) items m.

Lemma issue_app {V} (xs ys : list (string * V)) m : issue (xs ++ ys) m = issue ys (issue xs m).
Proof. unfold issue. by rewrite fold_left_app. Qed.

Lemma issue_other {V} (xs : list (string * V)) m u : u ∉ xs.*1 -> issue xs m !! u = m !! u.
Proof.
  revert m. induction xs as [| [v g] xs IH]; intros m Hu; cbn in *; [done |]. apply not_elem_of_cons in Hu as [Hne Hu].
  unfold issue in *. cbn. rewrite IH by done. by rewrite lookup_insert_ne.
Qed.

Lemma issue_in {V} (xs : list (string * V)) m u g : NoDup xs.*1 -> (u, g) ∈ xs -> issue xs m !! u = Some g.
Proof.
  revert m. induction xs as [| [v h] xs IH]; intros m Hn Hi; [by apply not_elem_of_nil in Hi |].
  cbn in Hn. apply list.NoDup_cons in Hn as [Hv Hn]. apply list.elem_of_cons in Hi as [[= -> ->] | Hi].
  - change (issue xs (<[v := h]> m) !! v = Some h). by rewrite issue_other, lookup_insert_eq.
  - by apply (IH (<[v := h]> m)).
Qed.

Lemma issue_lookup {V} (xs : list (string * V)) m u g : NoDup xs.*1 ->
  issue xs m !! u = Some g <-> (u, g) ∈ xs \/ (u ∉ xs.*1 /\ m !! u = Some g).
Proof.
  intros Hn. destruct (decide (u ∈ xs.*1)) as [Hu | Hu].
  - apply list_elem_of_fmap in Hu as ([v h] & -> & Hi). cbn. rewrite (issue_in xs m v h) by done. split.
    + intros [= ->]. by left.
    + intros [Hg | [Hx _]]; [| exfalso; apply Hx; by apply (list_elem_of_fmap_2 fst _ (v, h))].
      f_equal. apply (issue_in xs m) in Hi; [| done]. apply (issue_in xs m) in Hg; [| done]. congruence.
  - rewrite issue_other by done. split; [by right | intros [Hi | [_ ?]]; [| done]].
    exfalso. apply Hu. by apply (list_elem_of_fmap_2 fst _ (u, g)).
Qed.

Lemma issue_perm {V} (xs : list (string * V)) m : NoDup xs.*1 -> (forall u, u ∈ xs.*1 -> m !! u = None) ->
  map_to_list (issue xs m) ≡ₚ xs ++ map_to_list m.
Proof.
  revert m. induction xs as [| [v g] xs IH]; intros m Hn Hm; cbn in *; [done |]. apply list.NoDup_cons in Hn as [Hv Hn].
  change (map_to_list (issue xs (<[v := g]> m)) ≡ₚ (v, g) :: xs ++ map_to_list m).
  rewrite IH; [| done |].
  - rewrite map_to_list_insert by (apply Hm; by left). symmetry. apply Permutation_middle.
  - intros u Hu. rewrite lookup_insert_ne; [apply Hm; by right |]. intros ->. done.
Qed.

(** ** Frames *)

(** What a pass leaves alone once it has the profiles. *)
Record still (l l' : Ledger) : Prop := {
  st_files : lgFiles l' = lgFiles l;
  st_byKey : lgByKey l' = lgByKey l;
  st_rebuilt : lgRebuilt l' = lgRebuilt l;
  st_slots : lgSlots l' = lgSlots l;
  st_window : lgWindow l' = lgWindow l;
  st_graft : lgGraftConcurrency l' = lgGraftConcurrency l;
  st_uids : lgProfileUIDs l' = lgProfileUIDs l;
  st_pools : lgPools l' = lgPools l;
}.

#[export] Instance still_pre : PreOrder still.
Proof. split; [done |]. intros x y z [] []. split; congruence. Qed.

Create HintDb admission.

Lemma still_enqueue key prio l : still l (enqueueLocked key prio l).
Proof. unfold enqueueLocked. by destruct (lgWaker l). Qed.
Lemma still_wakeProfile name l : still l (wakeProfileLocked name l).
Proof. unfold wakeProfileLocked. by case_match. Qed.
#[export] Hint Resolve still_enqueue still_wakeProfile : admission.

Lemma enqueue_grants key prio l : lgGrants (enqueueLocked key prio l) = lgGrants l.
Proof. unfold enqueueLocked. by destruct (lgWaker l). Qed.
Lemma enqueue_waits key prio l : lgWaits (enqueueLocked key prio l) = lgWaits l.
Proof. unfold enqueueLocked. by destruct (lgWaker l). Qed.
Lemma enqueue_backoffs key prio l : lgBackoffs (enqueueLocked key prio l) = lgBackoffs l.
Proof. unfold enqueueLocked. by destruct (lgWaker l). Qed.
Lemma enqueue_directives key prio l : lgDirectives (enqueueLocked key prio l) = lgDirectives l.
Proof. unfold enqueueLocked. by destruct (lgWaker l). Qed.
#[export] Hint Rewrite enqueue_grants enqueue_waits enqueue_backoffs enqueue_directives : admission.

Lemma wakeProfile_grants name l : lgGrants (wakeProfileLocked name l) = lgGrants l.
Proof. unfold wakeProfileLocked. by case_match. Qed.
Lemma wakeProfile_waits name l : lgWaits (wakeProfileLocked name l) = lgWaits l.
Proof. unfold wakeProfileLocked. by case_match. Qed.
Lemma wakeProfile_backoffs name l : lgBackoffs (wakeProfileLocked name l) = lgBackoffs l.
Proof. unfold wakeProfileLocked. by case_match. Qed.
#[export] Hint Rewrite wakeProfile_grants wakeProfile_waits wakeProfile_backoffs : admission.

(** What leaves grants and backoffs alone as well, and the waits too. *)
Definition quiet (l l' : Ledger) : Prop := still l l' /\ lgGrants l' = lgGrants l /\ lgBackoffs l' = lgBackoffs l.
Definition calm (l l' : Ledger) : Prop := quiet l l' /\ lgWaits l' = lgWaits l.

#[export] Instance quiet_pre : PreOrder quiet.
Proof.
  split; [by intros l |]. intros x y z (? & ? & ?) (? & ? & ?). split_and!; [by etrans | congruence | congruence].
Qed.
#[export] Instance calm_pre : PreOrder calm.
Proof. split; [by intros l |]. intros x y z (? & ?) (? & ?). split; [by etrans | congruence]. Qed.

Lemma calm_enqueue key prio l : calm l (enqueueLocked key prio l).
Proof. split; [split_and!; [auto with admission | |] |]; by autorewrite with admission. Qed.

Section pass.
Context `{Unicode} `{RangeOrder}.
Implicit Types l : Ledger.

Lemma reroute_calm inp now l : calm l (rerouteLocked inp now l).
Proof.
  unfold rerouteLocked. apply (fold_left_still calm). intros s x _. unfold reroute_one. case_match; [| done].
  etrans; [| apply calm_enqueue]. done.
Qed.

Lemma set_wait_quiet uid key w l : quiet l (set_wait uid key w l).
Proof. unfold set_wait. case_match; [done |]. etrans; [| apply calm_enqueue]. done. Qed.

Lemma waitReasons_quiet queued admitted holds yielding l : quiet l (waitReasonsLocked queued admitted holds yielding l).
Proof.
  unfold waitReasonsLocked. transitivity (fold_left (wait_held yielding) holds l); apply (fold_left_still quiet); intros s x _.
  - unfold wait_held. case_match; [apply set_wait_quiet | done].
  - unfold wait_queued. case_match; [done | apply set_wait_quiet].
Qed.

Lemma metrics_calm l : calm l (metricsLocked l).
Proof.
  unfold metricsLocked. transitivity (l <| lgDispatched := dispatchedLocked l |>); [done |]. apply (fold_left_still calm). intros s x _.
  split; [split_and!; [auto with admission | |] |]; by autorewrite with admission.
Qed.

(** ** What each step of a pass grants *)

Definition new_grant (now : Time) (kind : GrantKind) (class profile : string) : grant :=
  mkGrant kind class profile (Add now grantTTL) false.

Definition dispatch_item (queued : gmap string candidate) (now : Time) (s : Slot) : option (UID * grant) :=
  c ← queued !! slKey s; Some (cdUID c, new_grant now GrantDispatch (slHardware s) (fvProfile (cdView c))).

Lemma grantLocked_still uid key kind class profile now l : still l (grantLocked uid key kind class profile now l).
Proof. unfold grantLocked. etrans; [| apply still_enqueue]. done. Qed.

Lemma grantLocked_grants uid key kind class profile now l :
  lgGrants (grantLocked uid key kind class profile now l) = <[uid := new_grant now kind class profile]> (lgGrants l).
Proof. unfold grantLocked. by autorewrite with admission. Qed.

Lemma grantLocked_waits uid key kind class profile now l : lgWaits (grantLocked uid key kind class profile now l) = lgWaits l.
Proof. unfold grantLocked. by autorewrite with admission. Qed.

Lemma grantLocked_backoffs uid key kind class profile now l :
  lgBackoffs (grantLocked uid key kind class profile now l) = lgBackoffs l.
Proof. unfold grantLocked. by autorewrite with admission. Qed.

Lemma grantDispatch_spec queued admitted now l :
  let l' := grantDispatchLocked queued admitted now l in
  still l l' /\ lgBackoffs l' = lgBackoffs l /\
  lgGrants l' = issue (omap (dispatch_item (by_slot queued) now) admitted) (lgGrants l) /\
  (forall u, lgWaits l' !! u = if bool_decide (u ∈ (omap (dispatch_item (by_slot queued) now) admitted).*1) then None else lgWaits l !! u).
Proof.
  unfold grantDispatchLocked. cbn. revert l. induction admitted as [| s admitted IH]; intros l; [done |].
  change (omap ?f (s :: admitted)) with (match f s with Some y => y :: omap f admitted | None => omap f admitted end).
  cbn [fold_left]. destruct (by_slot queued !! slKey s) as [c |] eqn:E.
  2:{ assert (grant_admitted (by_slot queued) now l s = l) as -> by (unfold grant_admitted; by rewrite E).
      assert (dispatch_item (by_slot queued) now s = None) as -> by (unfold dispatch_item; by rewrite E). apply IH. }
  set (l1 := grant_admitted (by_slot queued) now l s).
  assert (l1 = (grantLocked (cdUID c) (fvKey (cdView c)) GrantDispatch (slHardware s) (fvProfile (cdView c)) now l)
    <| lgWaits ::= delete (cdUID c) |>) as E1 by (unfold l1, grant_admitted; by rewrite E).
  assert (dispatch_item (by_slot queued) now s = Some (cdUID c, new_grant now GrantDispatch (slHardware s) (fvProfile (cdView c)))) as ->
    by (unfold dispatch_item; by rewrite E).
  clearbody l1. assert (still l l1) as H1 by (rewrite E1; eapply transitivity; [apply (grantLocked_still (cdUID c) (fvKey (cdView c)) GrantDispatch (slHardware s) (fvProfile (cdView c)) now) |]; done).
  destruct (IH l1) as (Hs & Hb & Hg & Hw). split_and!.
  - by etrans.
  - rewrite Hb, E1. apply grantLocked_backoffs.
  - rewrite Hg, E1. cbn. by rewrite grantLocked_grants.
  - intros u. rewrite Hw, E1. cbn. rewrite grantLocked_waits. destruct (decide (u = cdUID c)) as [-> | Hne].
    + rewrite lookup_delete_eq, (bool_decide_eq_true_2 (cdUID c ∈ _ :: _)) by constructor. by case_match.
    + rewrite lookup_delete_ne by done. apply (f_equal (fun b : bool => if b then None else lgWaits l !! u)), bool_decide_ext.
      rewrite list.elem_of_cons. tauto.
Qed.

Lemma fill_profile_spec window name now backlog opn l :
  let n := if 0 <? window then Z.to_nat (window - opn) else length backlog in
  let l' := fill_profile window name now backlog opn l in
  still l l' /\ lgBackoffs l' = lgBackoffs l /\ lgWaits l' = lgWaits l /\
  lgGrants l' = issue ((fun e => (fvUID (enView e), new_grant now GrantWindow "" name)) <$> take n backlog) (lgGrants l).
Proof.
  cbn. revert opn l. induction backlog as [| e backlog IH]; intros opn l; cbn [fill_profile].
  { rewrite take_nil. done. }
  destruct (Z.ltb_spec 0 window) as [Hw | Hw]; cbn [andb].
  - destruct (Z.leb_spec window opn) as [Ho | Ho].
    { replace (Z.to_nat (window - opn)) with 0%nat by lia. done. }
    replace (Z.to_nat (window - opn)) with (S (Z.to_nat (window - (opn + 1)))) by lia. cbn [take fmap list_fmap].
    destruct (IH (opn + 1) (grantLocked (fvUID (enView e)) (fvKey (enView e)) GrantWindow "" name now l)) as (Hs & Hb & Hwt & Hg).
    split_and!; [etrans; [apply grantLocked_still | done] | by rewrite Hb, grantLocked_backoffs | by rewrite Hwt, grantLocked_waits |].
    by rewrite Hg, grantLocked_grants.
  - cbn [length take fmap list_fmap].
    destruct (IH (opn + 1) (grantLocked (fvUID (enView e)) (fvKey (enView e)) GrantWindow "" name now l)) as (Hs & Hb & Hwt & Hg).
    split_and!; [etrans; [apply grantLocked_still | done] | by rewrite Hb, grantLocked_backoffs | by rewrite Hwt, grantLocked_waits |].
    by rewrite Hg, grantLocked_grants.
Qed.

(** The places [n] of the best of a profile's backlog get. *)
Definition window_items (l : Ledger) (now : Time) (opens : gmap string Z) (name : string) : list (UID * grant) :=
  (fun e => (fvUID (enView e), new_grant now GrantWindow "" name)) <$>
    take (if 0 <? lgWindow l then Z.to_nat (lgWindow l - at_ opens name) else length (backlogLocked l name now))
      (backlogLocked l name now).

Definition graft_items (inp : PassInputs) (l : Ledger) (now : Time) : list (UID * grant) :=
  (fun u => (u, new_grant now GrantGraftSlot "" "")) <$>
    List.filter (fun u => bool_decide (is_Some (lgFiles l !! u)))
      (GraftGrants (graft_files l now) (piGraftJobs inp) (graft_grants l now) (lgGraftConcurrency l)).

Lemma grantGraftSlots_spec inp now l :
  let l' := grantGraftSlotsLocked inp now l in
  still l l' /\ lgBackoffs l' = lgBackoffs l /\ lgWaits l' = lgWaits l /\ lgGrants l' = issue (graft_items inp l now) (lgGrants l).
Proof.
  unfold grantGraftSlotsLocked, graft_items. cbn. generalize (GraftGrants (graft_files l now) (piGraftJobs inp) (graft_grants l now) (lgGraftConcurrency l)) as us.
  intros us. assert (forall k, lgFiles k = lgFiles l -> let k' := fold_left (fun l uid => match lgFiles l !! uid with
      | Some e => grantLocked uid (fvKey (enView e)) GrantGraftSlot "" "" now l | None => l end) us k in
    still k k' /\ lgBackoffs k' = lgBackoffs k /\ lgWaits k' = lgWaits k /\
    lgGrants k' = issue ((fun u => (u, new_grant now GrantGraftSlot "" "")) <$> List.filter (fun u => bool_decide (is_Some (lgFiles l !! u))) us) (lgGrants k)) as Hk;
    [| by apply Hk].
  induction us as [| u us IH]; intros k Hk; cbn [fold_left List.filter]; [done |]. rewrite Hk.
  destruct (lgFiles l !! u) as [e |] eqn:E.
  - rewrite bool_decide_eq_true_2 by done. set (k1 := grantLocked _ _ _ _ _ _ _).
    assert (still k k1) as Hs1 by apply grantLocked_still.
    destruct (IH k1) as (Hs & Hb & Hwt & Hg); [by rewrite (st_files _ _ Hs1) |]. split_and!; [by etrans | | |].
    + by rewrite Hb; apply grantLocked_backoffs.
    + by rewrite Hwt; apply grantLocked_waits.
    + rewrite Hg. unfold k1. by rewrite grantLocked_grants.
  - rewrite bool_decide_eq_false_2 by (intros [? ?]; done). by apply IH.
Qed.
End pass.

(** ** The invariant

    An object has one name for life, [named], whose namespace holds no slash:
    what Kubernetes says of every object. *)

Section system.
Context `{Unicode} `{RangeOrder} (named : UID -> NamespacedName).
Hypothesis named_plain : forall u, no_sep "/"%char (nnNamespace (named u)).
Implicit Types l : Ledger.

(** The entry of [uid] is of it, under its name, and the name's. *)
Definition filed l (uid : UID) (e : entry) : Prop :=
  fvUID (enView e) = uid /\ fvKey (enView e) = named uid /\ enKey e = nn_String (named uid) /\
  lgByKey l !! named uid = Some uid.

Record sound l : Prop := {
  so_files : forall uid e, lgFiles l !! uid = Some e -> filed l uid e;
  so_keys : forall key uid, lgByKey l !! key = Some uid -> key = named uid /\ is_Some (lgFiles l !! uid);
  so_grants : forall uid g, lgGrants l !! uid = Some g -> is_Some (lgFiles l !! uid) /\ gnKind g <> GrantNone;
  so_waits : forall uid w, lgWaits l !! uid = Some w ->
    exists e, lgFiles l !! uid = Some e /\ fvPhase (enView e) = TranscodePhasePlanned;
  so_backoffs : forall uid b, lgBackoffs l !! uid = Some b -> grantBackoffMin <= boDelay b <= grantBackoffMax;
  so_rebuilt : lgRebuilt l = false -> lgGrants l = ∅;
}.

Lemma nn_String_inj u v : nn_String (named u) = nn_String (named v) -> named u = named v.
Proof using named_plain.
  unfold nn_String. intros E. pose proof (Cut_sep "/"%char _ (nnName (named u)) (named_plain u)) as Hu.
  pose proof (Cut_sep "/"%char _ (nnName (named v)) (named_plain v)) as Hv.
  change (String "/"%char (nnName (named u))) with ("/" +:+ nnName (named u)) in Hu.
  change (String "/"%char (nnName (named v))) with ("/" +:+ nnName (named v)) in Hv. rewrite E, Hv in Hu.
  destruct (named u), (named v). cbn in *. congruence.
Qed.

Lemma filed_key_inj l u v e f : sound l -> lgFiles l !! u = Some e -> lgFiles l !! v = Some f -> enKey e = enKey f -> u = v.
Proof using named_plain.
  intros Hs He Hf E. destruct (so_files l Hs u e He) as (_ & _ & Hk & Hb). destruct (so_files l Hs v f Hf) as (_ & _ & Hk' & Hb').
  rewrite Hk, Hk' in E. apply nn_String_inj in E. congruence.
Qed.

Lemma filed_name_inj l u v e f : sound l -> lgFiles l !! u = Some e -> lgFiles l !! v = Some f -> named u = named v -> u = v.
Proof. intros Hs He Hf E. destruct (so_files l Hs u e He) as (_ & _ & _ & Hb). destruct (so_files l Hs v f Hf) as (_ & _ & _ & Hb'). congruence. Qed.

(** *** Candidates *)

Lemma candidates_spec inp now l c : c ∈ (candidatesLocked inp now l).1 <->
  exists uid e, lgFiles l !! uid = Some e /\ competes inp now l uid (enView e) = true /\ c = candidate_of inp uid e.
Proof.
  unfold candidatesLocked. cbn. rewrite list_elem_of_omap. split.
  - intros ([uid e] & Hi%elem_of_range & Hc). cbn in Hc. destruct (negb _ && _) eqn:E; [| done]. bools.
    exists uid, e. split_and!; [done | done | congruence].
  - intros (uid & e & Hi & Hc & ->). exists (uid, e). split; [by apply elem_of_range |]. cbn. rewrite Hc.
    unfold competes in Hc. bools. assert (slotPhase (fvPhase (enView e)) = false) as ->; [| done].
    match goal with E : fvPhase _ = _ |- _ => rewrite E end. done.
Qed.

Lemma candidates_uids inp now l : NoDup (cdUID <$> (candidatesLocked inp now l).1).
Proof.
  unfold candidatesLocked. cbn. pose proof (NoDup_range (lgFiles l)) as Hn. induction (range (lgFiles l)) as [| [u e] xs IH]; cbn; [constructor |].
  cbn in Hn. apply list.NoDup_cons in Hn as [Hu Hn].
  destruct (negb (slotPhase (fvPhase (enView e))) && competes inp now l u (enView e)); [| by apply IH].
  constructor; [| by apply IH]. intros (d & E & Hd)%list_elem_of_fmap. apply list_elem_of_omap in Hd as ([v f] & Hi & Hd).
  cbn in Hd. destruct (negb _ && _); [| done]. injection Hd as <-. cbn in E. subst v. apply Hu.
  by apply (list_elem_of_fmap_2 fst _ (u, f)).
Qed.

Lemma candidates_keys inp now l : sound l -> NoDup ((fun c => slKey (cdSlot c)) <$> (candidatesLocked inp now l).1).
Proof using named_plain.
  intros Hs. pose proof (candidates_uids inp now l) as Hn. apply NoDup_fmap_2_strong; [| by apply NoDup_fmap_1 in Hn].
  intros c d Hc Hd E. apply candidates_spec in Hc as (u & e & Hu & _ & ->). apply candidates_spec in Hd as (v & f & Hv & _ & ->).
  cbn in E. assert (u = v) as -> by by eapply filed_key_inj. congruence.
Qed.

Lemma competes_ungranted inp now l uid v : competes inp now l uid v = true ->
  lgGrants l !! uid = None /\ fvPhase v = TranscodePhasePlanned /\ onBackoffLocked uid now l = false /\ is_Some (piProfiles inp !! fvProfile v).
Proof. unfold competes. intros Hc. bools. done. Qed.

(** *** What expires *)

Lemma expire_spec now l :
  let l' := expireLocked now l in
  still l l' /\ lgWaits l' = lgWaits l /\
  (forall u, lgGrants l' !! u = g ← lgGrants l !! u; if grant_lives g now then Some g else None) /\
  (forall u, lgBackoffs l' !! u =
     match lgGrants l !! u with
     | Some g => if grant_lives g now then lgBackoffs l !! u
                 else Some (mkBackoff (Add now (next_delay (lgBackoffs l !! u))) (next_delay (lgBackoffs l !! u)))
     | None => lgBackoffs l !! u
     end).
Proof.
  unfold expireLocked. cbn. assert (forall xs k, NoDup xs.*1 -> (forall u g, (u, g) ∈ xs -> lgGrants k !! u = Some g) ->
    let k' := fold_left (fun l x => if grant_lives x.2 now then l else backOffLocked x.1 now (l <| lgGrants ::= delete x.1 |>)) xs k in
    still k k' /\ lgWaits k' = lgWaits k /\
    (forall u, lgGrants k' !! u = if decide (u ∈ xs.*1) then g ← lgGrants k !! u; if grant_lives g now then Some g else None else lgGrants k !! u) /\
    (forall u, lgBackoffs k' !! u = if decide (u ∈ xs.*1) then
       match lgGrants k !! u with
       | Some g => if grant_lives g now then lgBackoffs k !! u
                   else Some (mkBackoff (Add now (next_delay (lgBackoffs k !! u))) (next_delay (lgBackoffs k !! u)))
       | None => lgBackoffs k !! u
       end else lgBackoffs k !! u)) as Hfold.
  { intros xs. induction xs as [| [v g] xs IH]; intros k Hn Hg; cbn [fold_left].
    { cbn. split_and!; try done; intros u; by destruct (decide (u ∈ [])) as [?%not_elem_of_nil |]. }
    cbn in Hn. apply list.NoDup_cons in Hn as [Hv Hn]. pose proof (Hg v g ltac:(constructor)) as Hvg. cbn [fst snd].
    set (k1 := if grant_lives g now then k else _).
    assert (still k k1 /\ lgWaits k1 = lgWaits k /\ (forall u, u <> v -> lgGrants k1 !! u = lgGrants k !! u /\ lgBackoffs k1 !! u = lgBackoffs k !! u))
      as (Hs1 & Hw1 & Ho).
    { unfold k1, backOffLocked. case_match; [done |]. split_and!; [done | done |]. intros u Hu. cbn.
      by rewrite lookup_delete_ne, lookup_insert_ne by done. }
    destruct (IH k1 Hn) as (Hs & Hw & Hgr & Hb).
    { intros u h Hi. assert (u <> v) as Hne by (intros ->; apply Hv; by apply (list_elem_of_fmap_2 fst _ (v, h))).
      rewrite (proj1 (Ho u Hne)). apply Hg. by constructor. }
    split_and!; [by etrans | congruence | |]; intros u; rewrite ?Hgr, ?Hb; cbn [fmap list_fmap fst]; destruct (decide (u = v)) as [-> | Hne].
    1, 3: rewrite decide_False by done; rewrite decide_True by (by left); unfold k1, backOffLocked; rewrite Hvg; cbn;
      destruct (grant_lives g now); cbn; rewrite ?Hvg, ?lookup_delete_eq, ?lookup_insert_eq; done.
    all: rewrite ?(proj1 (Ho u Hne)), ?(proj2 (Ho u Hne)); apply decide_ext; rewrite list.elem_of_cons; tauto. }
  destruct (Hfold (range (lgGrants l)) l) as (Hs & Hw & Hg & Hb).
  - apply NoDup_range.
  - intros u g. apply elem_of_range.
  - split_and!; [done | done | |]; intros u; rewrite ?Hg, ?Hb; destruct (decide _) as [| Hni]; try done.
    all: destruct (lgGrants l !! u) as [g |] eqn:E; [| done]; exfalso; apply Hni; apply (list_elem_of_fmap_2 fst _ (u, g)); by apply elem_of_range.
Qed.

(** *** What a pass grants *)

Lemma NoDup_omap_fst {A B} (f : A -> option (string * B)) xs : NoDup xs ->
  (forall x y u g h, x ∈ xs -> y ∈ xs -> f x = Some (u, g) -> f y = Some (u, h) -> x = y) -> NoDup (omap f xs).*1.
Proof.
  induction xs as [| x xs IH]; intros Hn Hf; cbn; [constructor |]. apply list.NoDup_cons in Hn as [Hx Hn].
  assert (NoDup (omap f xs).*1) as Hxs.
  { apply IH; [done |]. intros y z u g h Hy Hz. apply Hf; by constructor. }
  destruct (f x) as [[u g] |] eqn:E; [| done]. cbn. constructor; [| done].
  intros ([v h] & Ev & Hi)%list_elem_of_fmap. cbn in Ev. subst v. apply list_elem_of_omap in Hi as (y & Hy & Ey).
  apply Hx. rewrite (Hf x y u g h); [done | constructor | by constructor | done | done].
Qed.

Lemma by_slot_in queued k c : by_slot queued !! k = Some c -> c ∈ queued /\ slKey (cdSlot c) = k.
Proof.
  unfold by_slot. enough (forall m : gmap string candidate, (forall k c, m !! k = Some c -> slKey (cdSlot c) = k) ->
    fold_left (fun m c => <[slKey (cdSlot c) := c]> m) queued m !! k = Some c -> (c ∈ queued \/ m !! k = Some c) /\ slKey (cdSlot c) = k) as Hk.
  { intros Hc. destruct (Hk ∅) as [[Hi | Hi] Hs]; [done | done | done | done]. }
  induction queued as [| d queued IH]; intros m Hm Hc; cbn in Hc; [split; [by right | by apply Hm] |].
  apply IH in Hc as [Hc Hs].
  - split; [| done]. destruct Hc as [Hc | Hc]; [left; by right |]. destruct (decide (slKey (cdSlot d) = k)) as [<- | Hne].
    + rewrite lookup_insert_eq in Hc. injection Hc as ->. left. by left.
    + rewrite lookup_insert_ne in Hc by done. by right.
  - intros k' c' Hk. destruct (decide (slKey (cdSlot d) = k')) as [<- | Hne].
    + rewrite lookup_insert_eq in Hk. by injection Hk as ->.
    + rewrite lookup_insert_ne in Hk by done. by apply Hm.
Qed.

Lemma by_slot_of queued c : NoDup ((fun c => slKey (cdSlot c)) <$> queued) -> c ∈ queued -> by_slot queued !! slKey (cdSlot c) = Some c.
Proof.
  intros Hn Hc. assert (is_Some (by_slot queued !! slKey (cdSlot c))) as [d Hd].
  { unfold by_slot. clear Hn. generalize (∅ : gmap string candidate). induction queued as [| d queued IH]; intros m; [by apply not_elem_of_nil in Hc |].
    cbn. apply list.elem_of_cons in Hc as [-> | Hc]; [| by apply IH].
    enough (forall m : gmap string candidate, is_Some (m !! slKey (cdSlot d)) -> is_Some (fold_left (fun m c => <[slKey (cdSlot c) := c]> m) queued m !! slKey (cdSlot d))) as Hk.
    { apply Hk. by rewrite lookup_insert_eq. }
    clear. induction queued as [| e queued IH]; intros m Hm; cbn; [done |]. apply IH.
    destruct (decide (slKey (cdSlot e) = slKey (cdSlot d))) as [-> |]; [by rewrite lookup_insert_eq | by rewrite lookup_insert_ne]. }
  rewrite Hd. f_equal. apply by_slot_in in Hd as [Hi He]. by apply (fmap_inj_elem (fun c => slKey (cdSlot c)) queued).
Qed.

(** *** What the window grants *)

Definition filed_uids l : Prop := forall uid e, lgFiles l !! uid = Some e -> fvUID (enView e) = uid.

Lemma sound_uids l : sound l -> filed_uids l.
Proof. intros Hs uid e He. by apply (so_files l Hs uid e) in He as [? _]. Qed.

Lemma elem_of_backlog l name now e : filed_uids l ->
  e ∈ backlogLocked l name now <-> exists u, lgFiles l !! u = Some e /\ inBacklogLocked l u e name now = true.
Proof.
  intros Hf. unfold backlogLocked.
  assert (forall xs : list entry, SliceStable backlogBefore xs ≡ₚ xs) as Hp.
  { intros xs. apply (SliceStable_perm (fun e => mkSlot (enKey e) "" "" (fvPriority (enView e)) 0) xs). }
  rewrite Hp, list_elem_of_fmap. setoid_rewrite list_elem_of_In. setoid_rewrite filter_In. setoid_rewrite <- list_elem_of_In. split.
  - intros ([u f] & -> & Hi & Hb). exists u. split; [by apply elem_of_range | done].
  - intros (u & Hi & Hb). exists (u, e). split_and!; [done | by apply elem_of_range | done].
Qed.

Lemma backlog_uids l name now : filed_uids l -> NoDup ((fun e => fvUID (enView e)) <$> backlogLocked l name now).
Proof.
  intros Hf. unfold backlogLocked.
  rewrite (SliceStable_perm (fun e => mkSlot (enKey e) "" "" (fvPriority (enView e)) 0) (snd <$> _)), <- list_fmap_compose.
  assert (forall xs, (forall x, x ∈ xs -> lgFiles l !! x.1 = Some x.2) -> (fun e => fvUID (enView e)) ∘ snd <$> xs = xs.*1) as He.
  { intros xs. induction xs as [| [u e] xs IH]; intros Hx; cbn; [done |]. f_equal; [| apply IH; intros; apply Hx; by right].
    apply Hf. apply (Hx (u, e)). left. }
  rewrite He; [apply (NoDup_fmap_filter fst), NoDup_range |].
  intros [u e] Hi. rewrite list_elem_of_In in Hi. apply filter_In in Hi as [Hi _]. by apply elem_of_range, list_elem_of_In.
Qed.

Lemma elem_of_window_items l now opens name u g : filed_uids l -> (u, g) ∈ window_items l now opens name ->
  g = new_grant now GrantWindow "" name /\ exists e, lgFiles l !! u = Some e /\ inBacklogLocked l u e name now = true.
Proof.
  intros Hf (e & [= -> ->] & He)%list_elem_of_fmap. split; [done |].
  assert (e ∈ backlogLocked l name now) as Hb by (by eapply sublist_subseteq; [apply sublist_take |]).
  apply elem_of_backlog in Hb as (v & Hv & Hb); [| done]. exists e. by rewrite (Hf v e Hv).
Qed.

Lemma window_items_uids l now opens name : filed_uids l -> NoDup (window_items l now opens name).*1.
Proof.
  intros Hf. unfold window_items. rewrite <- list_fmap_compose.
  eapply sublist_NoDup; [apply (backlog_uids l name now Hf) |]. cbn.
  generalize (backlogLocked l name now) as xs, (if 0 <? lgWindow l then Z.to_nat (lgWindow l - at_ opens name) else length (backlogLocked l name now)) as n.
  induction xs as [| x xs IH]; intros [| n]; cbn; [done | done | apply sublist_nil_l | apply sublist_skip, IH].
Qed.

Lemma filter_ext_elem {A} (p q : A -> bool) (xs : list A) : (forall x, x ∈ xs -> p x = q x) -> List.filter p xs = List.filter q xs.
Proof. intros Hp. apply filter_ext_in. intros x Hx. by apply Hp, list_elem_of_In. Qed.

(** The backlog of a profile is left alone by places given in another. *)
Lemma backlog_other l k name now : lgFiles k = lgFiles l -> lgBackoffs k = lgBackoffs l ->
  (forall u e, lgFiles l !! u = Some e -> fvProfile (enView e) = name -> lgGrants k !! u = lgGrants l !! u) ->
  backlogLocked k name now = backlogLocked l name now.
Proof.
  intros Hf Hb Hg. unfold backlogLocked. rewrite Hf. do 2 f_equal. apply filter_ext_elem. intros [u e] Hi%elem_of_range. cbn.
  unfold inBacklogLocked, onBackoffLocked. rewrite Hb. destruct (String.eqb_spec (fvProfile (enView e)) name) as [E | E]; [| done].
  by rewrite (Hg u e Hi E).
Qed.

Definition fill_items {A} l (profiles : gmap string A) (now : Time) : list (UID * grant) :=
  flat_map (fun x => window_items l now (openCounts l profiles) x.1) (range profiles).

Lemma fillWindow_spec {A} (profiles : gmap string A) now l : filed_uids l ->
  let l' := fillWindowLocked profiles now l in
  still l l' /\ lgBackoffs l' = lgBackoffs l /\ lgWaits l' = lgWaits l /\
  lgGrants l' = issue (fill_items l profiles now) (lgGrants l).
Proof.
  intros Huid. unfold fillWindowLocked, fill_items. cbv zeta. generalize (openCounts l profiles) as opens. intros opens.
  pose proof (NoDup_range profiles) as Hn. revert Hn. generalize (range profiles) as xs. intros xs Hn.
  assert (forall k, still l k -> lgBackoffs k = lgBackoffs l -> (forall name, name ∈ xs.*1 -> backlogLocked k name now = backlogLocked l name now) ->
    let k' := fold_left (fun (l : Ledger) (x : string * A) => let opn := at_ opens x.1 in if (0 <? lgWindow l) && (lgWindow l <=? opn) then l
      else fill_profile (lgWindow l) x.1 now (backlogLocked l x.1 now) opn l) xs k in
    still k k' /\ lgBackoffs k' = lgBackoffs k /\ lgWaits k' = lgWaits k /\
    lgGrants k' = issue (flat_map (fun x => window_items l now opens x.1) xs) (lgGrants k)) as Hfold; [| by apply Hfold].
  induction xs as [| [name a] xs IH]; intros k Hs Hb Hbl; cbn [fold_left flat_map]; [done |].
  cbn [fst] in *. rewrite fmap_cons in Hn. apply list.NoDup_cons in Hn as [Hname Hn]. cbn [fst] in *.
  set (k1 := if (0 <? lgWindow k) && (lgWindow k <=? at_ opens name) then k
    else fill_profile (lgWindow k) name now (backlogLocked k name now) (at_ opens name) k).
  assert (still k k1 /\ lgBackoffs k1 = lgBackoffs k /\ lgWaits k1 = lgWaits k /\
    lgGrants k1 = issue (window_items l now opens name) (lgGrants k)) as (Hs1 & Hb1 & Hw1 & Hg1).
  { unfold k1, window_items. rewrite (st_window l k Hs). destruct ((0 <? lgWindow l) && (lgWindow l <=? at_ opens name)) eqn:E.
    - apply andb_prop in E as [E1 E2]. apply Z.leb_le in E2. rewrite E1. replace (Z.to_nat (lgWindow l - at_ opens name)) with 0%nat by lia. done.
    - rewrite (Hbl name) by (by left). apply fill_profile_spec. }
  clearbody k1. rewrite issue_app. destruct (IH Hn k1) as (Hs2 & Hb2 & Hw2 & Hg2).
  - by etrans.
  - congruence.
  - intros name' Hi. rewrite <- (Hbl name') by (by right). apply backlog_other; [by rewrite (st_files _ _ Hs1) | done |].
    intros u e He Hp. rewrite Hg1. apply issue_other. intros ([v g] & -> & Hv)%list_elem_of_fmap.
    apply elem_of_window_items in Hv as (_ & f & Hf & Hin); [| done]. cbn in *. rewrite (st_files _ _ Hs) in He.
    assert (f = e) as -> by congruence. unfold inBacklogLocked in Hin. bools. apply Hname. congruence.
  - split_and!; [by etrans | congruence | congruence |]. by rewrite Hg2, Hg1.
Qed.

(** *** What the graft slots grant *)

Lemma GraftGrants_in files jobs grants limit u : u ∈ GraftGrants files jobs grants limit ->
  exists f, f ∈ files /\ gfUID f = u /\ graftCandidate f = true.
Proof.
  unfold GraftGrants. rewrite list_elem_of_In, in_flat_map. setoid_rewrite <- list_elem_of_In. intros (ns & _ & Hi).
  apply list_elem_of_fmap in Hi as (f & -> & Hi). exists f.
  assert (f ∈ SliceStable graftBefore (graft_waiting ns files)) as Hw by (by eapply sublist_subseteq; [apply sublist_take |]).
  rewrite (SliceStable_perm graft_slot (graft_waiting ns files)) in Hw. by apply graft_waiting_spec in Hw as (? & _ & ?).
Qed.

Lemma NoDup_flat_map {A B} (f : A -> list B) xs : NoDup xs -> (forall x, x ∈ xs -> NoDup (f x)) ->
  (forall x y z, x ∈ xs -> y ∈ xs -> z ∈ f x -> z ∈ f y -> x = y) -> NoDup (flat_map f xs).
Proof.
  induction xs as [| x xs IH]; intros Hn Hf Hd; cbn; [constructor |]. apply list.NoDup_cons in Hn as [Hx Hn].
  apply list.NoDup_app. split_and!; [apply Hf; by left | | apply IH; [done | intros; apply Hf; by right | intros y z w Hy Hz; apply Hd; by right]].
  intros z Hz Hi. rewrite list_elem_of_In, in_flat_map in Hi. destruct Hi as (y & Hy & Hzy). apply list_elem_of_In in Hy, Hzy.
  apply Hx. rewrite (Hd x y z); [done | by left | by right | done | done].
Qed.

Lemma GraftGrants_NoDup files jobs grants limit : NoDup (gfUID <$> files) -> NoDup (GraftGrants files jobs grants limit).
Proof.
  intros Hn. unfold GraftGrants. apply NoDup_flat_map.
  - unfold graft_namespaces. destruct (SliceStable_sorts String.ltb (fun _ => True)) with
      (l := elements (list_to_set ((fun f => nnNamespace (gfKey f)) <$> List.filter graftCandidate files) : gset string)) as (Hp & _ & _).
    + intros x y _ _ E. destruct (String.ltb y x) eqn:F; [| done]. pose proof (string_ltb_trans _ _ _ E F) as G. by rewrite string_ltb_irrefl in G.
    + intros x y z _ _ _ E. destruct (decide (x = y)) as [<- | Hne]; [by right |].
      destruct (string_ltb_total x y Hne) as [? | F]; [by left | right]. by eapply string_ltb_trans.
    + by apply Forall_true.
    + rewrite Hp. apply NoDup_elements.
  - intros ns _. rewrite fmap_take. eapply sublist_NoDup; [| apply sublist_take].
    rewrite (SliceStable_perm graft_slot (graft_waiting ns files)). by apply (NoDup_fmap_filter gfUID).
  - intros m n u _ _ (f & -> & Hf)%list_elem_of_fmap (g & E & Hg)%list_elem_of_fmap.
    assert (forall f ns k, f ∈ take k (SliceStable graftBefore (graft_waiting ns files)) -> f ∈ graft_waiting ns files) as Hin.
    { intros h ns k Hh. rewrite <- (SliceStable_perm graft_slot). by eapply sublist_subseteq; [apply sublist_take |]. }
    apply Hin, graft_waiting_spec in Hf as (Hf & <- & _). apply Hin, graft_waiting_spec in Hg as (Hg & <- & _).
    by rewrite (fmap_inj_elem gfUID files f g).
Qed.

Lemma graft_files_uids l now : NoDup (gfUID <$> graft_files l now).
Proof.
  unfold graft_files. rewrite <- list_fmap_compose. change (NoDup (List.filter (fun x => graftRelevant (fvGraftPhase (enView x.2))) (range (lgFiles l))).*1).
  apply NoDup_fmap_filter, NoDup_range.
Qed.

Lemma graft_items_uids inp l now : NoDup (graft_items inp l now).*1.
Proof.
  unfold graft_items. rewrite <- list_fmap_compose. cbn. rewrite list_fmap_id.
  rewrite <- (list_fmap_id (List.filter _ _)). apply NoDup_fmap_filter. rewrite list_fmap_id. apply GraftGrants_NoDup, graft_files_uids.
Qed.

Lemma elem_of_graft_items inp l now u g : (u, g) ∈ graft_items inp l now ->
  g = new_grant now GrantGraftSlot "" "" /\ is_Some (lgFiles l !! u) /\ lgGrants l !! u = None /\ onBackoffLocked u now l = false.
Proof.
  intros (v & [= -> ->] & Hv)%list_elem_of_fmap. split; [done |]. rewrite list_elem_of_In in Hv. apply filter_In in Hv as [Hv Hs].
  apply bool_decide_eq_true in Hs. split; [done |]. apply list_elem_of_In, GraftGrants_in in Hv as (f & Hf & <- & Hc).
  unfold graft_files in Hf. apply list_elem_of_fmap in Hf as ([w e] & -> & _). unfold graftCandidate in Hc. cbn in *. bools.
  split; [| done]. destruct (lgGrants l !! w); [| done]. exfalso. match goal with E : ~ is_Some _ |- _ => by apply E end.
Qed.

(** A graft slot goes to a graft that waits for one. *)
Lemma graft_items_waiting inp l now u g : (u, g) ∈ graft_items inp l now -> exists e, lgFiles l !! u = Some e /\
  fvGraftPhase (enView e) = "Waiting" /\ fvGraftReason (enView e) = "WaitingForSlot" /\ fvJoinedGraft (enView e) = false.
Proof.
  intros (v & [= -> ->] & Hv)%list_elem_of_fmap. rewrite list_elem_of_In in Hv. apply filter_In in Hv as [Hv _].
  apply list_elem_of_In, GraftGrants_in in Hv as (f & Hf & <- & Hc).
  unfold graft_files in Hf. apply list_elem_of_fmap in Hf as ([w e] & -> & Hf). rewrite list_elem_of_In in Hf. apply filter_In in Hf as [Hf _].
  apply list_elem_of_In, elem_of_range in Hf. exists e. unfold graftCandidate in Hc. cbn in *. bools. done.
Qed.

(** *** A pass, step by step *)

Definition p_open inp now l : Ledger := rerouteLocked inp now (pass_open inp now l).
Definition p_classes inp now l : list candidate * list hold :=
  assignClasses (assignment inp now l) (candidatesLocked inp now l).1 (candidatesLocked inp now l).2.
Definition p_admitted inp now l : list Slot :=
  Admit (cdSlot <$> (p_classes inp now l).1) (candidatesLocked inp now l).2 (agBudget (assignment inp now l)).
Definition p_items inp now l : list (UID * grant) :=
  omap (dispatch_item (by_slot (p_classes inp now l).1) now) (p_admitted inp now l).
Definition p_dispatch inp now l : Ledger := grantDispatchLocked (p_classes inp now l).1 (p_admitted inp now l) now l.
Definition p_wait inp now l : Ledger :=
  waitReasonsLocked (p_classes inp now l).1 (p_admitted inp now l) (p_classes inp now l).2
    (budget_now inp (p_dispatch inp now l)).2 (p_dispatch inp now l).
Definition p_window inp now l : Ledger := fillWindowLocked (piProfiles inp) now (p_wait inp now l).
Definition p_graft inp now l : Ledger := grantGraftSlotsLocked inp now (p_window inp now l).
Definition p_done inp now l : Ledger := metricsLocked (p_graft inp now l).

Lemma pass_open_spec inp now l :
  let l' := pass_open inp now l in
  lgFiles l' = lgFiles l /\ lgByKey l' = lgByKey l /\ lgRebuilt l' = lgRebuilt l /\ lgSlots l' = lgSlots l /\
  lgWindow l' = lgWindow l /\ lgWaits l' = lgWaits l /\ lgProfileUIDs l' = uidsOf (piProfiles inp).
Proof. unfold pass_open. set (k := upd _ _). destruct (expire_spec now k) as ([] & Hw & _). unfold k in *. by split_and!. Qed.

Lemma Pass_eq inp now l : lgRebuilt l = true ->
  Pass inp now l = (nextWakeLocked now (p_done inp now (p_open inp now l)), p_done inp now (p_open inp now l)).
Proof.
  intros Hr. unfold Pass. destruct (pass_open_spec inp now l) as (_ & _ & Hr' & _). rewrite Hr', Hr. cbn [negb].
  fold (p_open inp now l). unfold p_done, p_graft, p_window, p_wait, p_dispatch, p_admitted, p_classes.
  destruct (candidatesLocked inp now (p_open inp now l)) as [cs running]. cbn [fst snd].
  by destruct (assignClasses _ cs running) as [queued holds].
Qed.

Lemma queued_of inp now l c : c ∈ (p_classes inp now l).1 ->
  exists u e, lgFiles l !! u = Some e /\ competes inp now l u (enView e) = true /\
    c = with_class (candidate_of inp u e) (slHardware (cdSlot c)).
Proof.
  intros (d & Hd & E)%assign_loop_slots. rewrite (SliceStable_perm cdSlot) in Hd.
  apply candidates_spec in Hd as (u & e & Hu & Hc & ->). by exists u, e.
Qed.

Lemma queued_keys inp now l : sound l -> NoDup ((fun c => slKey (cdSlot c)) <$> (p_classes inp now l).1).
Proof using named_plain.
  intros Hs. pose proof (assigned_keys (assignment inp now l) (candidatesLocked inp now l).1 (candidatesLocked inp now l).2
    (candidates_keys inp now l Hs)) as Hn. by rewrite <- list_fmap_compose in Hn.
Qed.

Lemma p_admitted_in inp now l s : s ∈ p_admitted inp now l -> exists c, c ∈ (p_classes inp now l).1 /\ s = cdSlot c.
Proof. intros Hs%Admit_queued. apply list_elem_of_fmap in Hs as (c & -> & Hc). by exists c. Qed.

Lemma elem_of_p_items inp now l u g : sound l ->
  (u, g) ∈ p_items inp now l <-> exists c, c ∈ (p_classes inp now l).1 /\ cdSlot c ∈ p_admitted inp now l /\ u = cdUID c /\
    g = new_grant now GrantDispatch (slHardware (cdSlot c)) (fvProfile (cdView c)).
Proof using named_plain.
  intros Hs. unfold p_items. rewrite list_elem_of_omap. split.
  - intros (s & Hs' & E). pose proof Hs' as Hi. apply p_admitted_in in Hi as (c & Hc & ->). unfold dispatch_item in E.
    rewrite (by_slot_of _ c) in E by (done || by apply queued_keys). cbn in E. injection E as <- <-. by exists c.
  - intros (c & Hc & Ha & -> & ->). exists (cdSlot c). split; [done |]. unfold dispatch_item.
    by rewrite (by_slot_of _ c) by (done || by apply queued_keys).
Qed.

Lemma p_admitted_queue inp now l : sound l -> queue (p_admitted inp now l).
Proof using named_plain. intros Hs. apply Admit_queue, assigned_keys. by apply candidates_keys. Qed.

Lemma queue_NoDup (q : list Slot) : queue q -> NoDup q.
Proof.
  induction 1 as [| x q Hl IH Hx]; constructor; [| done]. intros Hi. rewrite list.Forall_forall in Hx.
  pose proof (Hx x Hi) as F. by rewrite AdmitsBefore_irrefl in F.
Qed.

Lemma queued_inj inp now l c d : sound l -> c ∈ (p_classes inp now l).1 -> d ∈ (p_classes inp now l).1 -> cdUID c = cdUID d -> c = d.
Proof using named_plain.
  intros Hs Hc Hd E. apply (fmap_inj_elem (fun c => slKey (cdSlot c)) (p_classes inp now l).1); [by apply queued_keys | done | done |].
  apply queued_of in Hc as (u & e & Hu & _ & Ec). apply queued_of in Hd as (v & f & Hv & _ & Ed). rewrite Ec, Ed in E |- *.
  cbn in *. congruence.
Qed.

Lemma p_items_uids inp now l : sound l -> NoDup (p_items inp now l).*1.
Proof using named_plain.
  intros Hs. unfold p_items. apply NoDup_omap_fst; [by apply queue_NoDup, p_admitted_queue |].
  intros x y u g h (c & Hc & ->)%p_admitted_in (d & Hd & ->)%p_admitted_in. unfold dispatch_item.
  rewrite !by_slot_of by (done || by apply queued_keys). cbn. intros [= <- _] [= E _]. by rewrite (queued_inj inp now l c d).
Qed.

Lemma p_items_planned inp now l u : sound l -> u ∈ (p_items inp now l).*1 ->
  exists e, lgFiles l !! u = Some e /\ competes inp now l u (enView e) = true.
Proof using named_plain.
  intros Hs ([v g] & -> & Hi)%list_elem_of_fmap. apply elem_of_p_items in Hi as (c & Hc & _ & -> & _); [| done].
  apply queued_of in Hc as (w & e & Hw & Hc & E). rewrite E. by exists e.
Qed.

(** Everything a pass grants once it has the profiles. *)
Definition p_grants inp now l : list (UID * grant) :=
  p_items inp now l ++ fill_items (p_wait inp now l) (piProfiles inp) now ++ graft_items inp (p_window inp now l) now.

Lemma fill_items_uids {A} l (profiles : gmap string A) now : filed_uids l -> NoDup (fill_items l profiles now).*1.
Proof.
  intros Hf. unfold fill_items. assert (forall xs : list (string * A), (flat_map (fun x => window_items l now (openCounts l profiles) x.1) xs).*1 =
    flat_map (fun x => (window_items l now (openCounts l profiles) x.1).*1) xs) as ->.
  { induction xs as [| x xs IH]; cbn; [done |]. by rewrite fmap_app, IH. }
  apply NoDup_flat_map.
  - pose proof (NoDup_range profiles) as Hn. by apply NoDup_fmap_1 in Hn.
  - intros x _. by apply window_items_uids.
  - intros [p a] [q b] u Hx Hy ([v g] & -> & Hg)%list_elem_of_fmap ([w h] & E & Hh)%list_elem_of_fmap. cbn in *. subst w.
    apply elem_of_window_items in Hg as (_ & e & He & Hb); [| done]. apply elem_of_window_items in Hh as (_ & f & Hf' & Hb'); [| done].
    assert (f = e) as -> by congruence. unfold inBacklogLocked in *. bools. assert (p = q) as -> by congruence.
    apply elem_of_range in Hx, Hy. congruence.
Qed.

Lemma elem_of_fill_items {A} l (profiles : gmap string A) now u g : filed_uids l -> (u, g) ∈ fill_items l profiles now ->
  exists name e, is_Some (profiles !! name) /\ g = new_grant now GrantWindow "" name /\ lgFiles l !! u = Some e /\ inBacklogLocked l u e name now = true.
Proof.
  intros Hf Hi. unfold fill_items in Hi. rewrite list_elem_of_In, in_flat_map in Hi. destruct Hi as ([name a] & Hx & Hi).
  apply list_elem_of_In in Hx, Hi. apply elem_of_range in Hx. apply elem_of_window_items in Hi as (-> & e & He & Hb); [| done]. by exists name, e.
Qed.

Lemma p_done_spec inp now l : sound l ->
  still l (p_done inp now l) /\ lgBackoffs (p_done inp now l) = lgBackoffs l /\
  lgGrants (p_done inp now l) = issue (p_grants inp now l) (lgGrants l) /\
  NoDup (p_grants inp now l).*1 /\
  (forall u, u ∈ (p_grants inp now l).*1 -> lgGrants l !! u = None /\ onBackoffLocked u now l = false /\ is_Some (lgFiles l !! u)) /\
  lgWaits (p_done inp now l) = lgWaits (p_wait inp now l).
Proof using named_plain.
  intros Hs. pose proof (grantDispatch_spec (p_classes inp now l).1 (p_admitted inp now l) now l) as (H2 & B2 & G2 & _).
  fold (p_dispatch inp now l) in H2, B2, G2. fold (p_items inp now l) in G2.
  assert (quiet (p_dispatch inp now l) (p_wait inp now l)) as (H3 & G3 & B3) by apply waitReasons_quiet.
  assert (still l (p_wait inp now l)) as S3 by by etrans.
  assert (filed_uids (p_wait inp now l)) as F3 by (unfold filed_uids; rewrite (st_files _ _ S3); by apply sound_uids).
  pose proof (fillWindow_spec (piProfiles inp) now (p_wait inp now l) F3) as (H4 & B4 & W4 & G4). fold (p_window inp now l) in H4, B4, W4, G4.
  pose proof (grantGraftSlots_spec inp now (p_window inp now l)) as (H5 & B5 & W5 & G5). fold (p_graft inp now l) in H5, B5, W5, G5.
  pose proof (metrics_calm (p_graft inp now l)) as ((H6 & G6 & B6) & W6). fold (p_done inp now l) in H6, G6, B6, W6.
  assert (still l (p_window inp now l)) as S4 by by etrans.
  assert (forall u, lgGrants (p_wait inp now l) !! u = None -> u ∉ (p_items inp now l).*1 /\ lgGrants l !! u = None) as N3.
  { intros u Hu. rewrite G3, G2 in Hu. destruct (decide (u ∈ (p_items inp now l).*1)) as [Hi | Hi]; [exfalso | by rewrite issue_other in Hu].
    apply list_elem_of_fmap in Hi as ([v g] & -> & Hi). rewrite (issue_in _ _ v g) in Hu; [done | by apply p_items_uids | done]. }
  assert (forall u, lgGrants (p_window inp now l) !! u = None -> u ∉ (fill_items (p_wait inp now l) (piProfiles inp) now).*1 /\ lgGrants (p_wait inp now l) !! u = None) as N4.
  { intros u Hu. rewrite G4 in Hu. destruct (decide (u ∈ (fill_items (p_wait inp now l) (piProfiles inp) now).*1)) as [Hi | Hi]; [exfalso | by rewrite issue_other in Hu].
    apply list_elem_of_fmap in Hi as ([v g] & -> & Hi). rewrite (issue_in _ _ v g) in Hu; [done | by apply fill_items_uids | done]. }
  assert (forall u, u ∈ (fill_items (p_wait inp now l) (piProfiles inp) now).*1 ->
    lgGrants (p_wait inp now l) !! u = None /\ onBackoffLocked u now l = false /\ is_Some (lgFiles l !! u)) as U4.
  { intros u ([v g] & -> & Hi)%list_elem_of_fmap. apply elem_of_fill_items in Hi as (name & e & _ & _ & He & Hb); [| done].
    unfold inBacklogLocked, onBackoffLocked in *. cbn. rewrite B3, B2 in Hb. rewrite (st_files _ _ S3) in He. bools. by rewrite He. }
  assert (forall u, u ∈ (graft_items inp (p_window inp now l) now).*1 ->
    lgGrants (p_window inp now l) !! u = None /\ onBackoffLocked u now l = false /\ is_Some (lgFiles l !! u)) as U5.
  { intros u ([v g] & -> & Hi)%list_elem_of_fmap. apply elem_of_graft_items in Hi as (_ & He & Hg & Hb).
    unfold onBackoffLocked in *. cbn. rewrite B4, B3, B2 in Hb. rewrite (st_files _ _ S4) in He. done. }
  split_and!.
  - by repeat (etrans; [eassumption |]).
  - congruence.
  - unfold p_grants. by rewrite !issue_app, G6, G5, G4, G3, G2.
  - unfold p_grants. rewrite !fmap_app. apply list.NoDup_app. split_and!; [by apply p_items_uids | | apply list.NoDup_app; split_and!].
    + intros u Hu [Hi | Hi]%list.elem_of_app.
      * apply U4 in Hi as [Hi _]. by apply N3 in Hi as [? _].
      * apply U5 in Hi as [Hi _]. apply N4 in Hi as [_ Hi]. by apply N3 in Hi as [? _].
    + by apply fill_items_uids.
    + intros u Hu Hi. apply U5 in Hi as [Hi _]. by apply N4 in Hi as [? _].
    + apply graft_items_uids.
  - unfold p_grants. intros u. rewrite !fmap_app, !list.elem_of_app. intros [Hu | [Hu | Hu]].
    + apply p_items_planned in Hu as (e & He & Hc); [| done]. apply competes_ungranted in Hc as (? & _ & ? & _). by rewrite He.
    + apply U4 in Hu as (Hu & ? & ?). apply N3 in Hu as [_ ?]. done.
    + apply U5 in Hu as (Hu & ? & ?). apply N4 in Hu as [_ Hu]. apply N3 in Hu as [_ ?]. done.
  - congruence.
Qed.

(** *** Soundness of a pass *)

Lemma next_delay_bounds b : (forall p, b = Some p -> grantBackoffMin <= boDelay p <= grantBackoffMax) ->
  grantBackoffMin <= next_delay b <= grantBackoffMax.
Proof.
  unfold next_delay, grantBackoffMin, grantBackoffMax, Minute. destruct b as [p |]; [| lia]. intros Hp. specialize (Hp p eq_refl).
  unfold wrap64, two_p63. rewrite Z.mod_small by lia. lia.
Qed.

(** The ledger read by key alone, at what [sound] speaks of. *)
Lemma sound_change l l' : sound l -> lgFiles l' = lgFiles l -> lgByKey l' = lgByKey l -> lgRebuilt l' = lgRebuilt l ->
  (forall u g, lgGrants l' !! u = Some g -> is_Some (lgFiles l !! u) /\ gnKind g <> GrantNone) ->
  (forall u w, lgWaits l' !! u = Some w -> exists e, lgFiles l !! u = Some e /\ fvPhase (enView e) = TranscodePhasePlanned) ->
  (forall u b, lgBackoffs l' !! u = Some b -> grantBackoffMin <= boDelay b <= grantBackoffMax) ->
  (lgRebuilt l = false -> lgGrants l' = ∅) -> sound l'.
Proof.
  intros Hs Hf Hk Hr Hg Hw Hb He. constructor; unfold filed; rewrite ?Hf, ?Hk, ?Hr; try done.
  - by intros u e Hu; apply (so_files l Hs).
  - by intros k u Hu; apply (so_keys l Hs).
Qed.

Lemma p_open_sound inp now l : sound l -> sound (p_open inp now l).
Proof.
  intros Hs. destruct (reroute_calm inp now (pass_open inp now l)) as (([] & Hg & Hb) & Hw). fold (p_open inp now l) in *.
  destruct (pass_open_spec inp now l) as (Hf' & Hk' & Hr' & _ & _ & Hw' & _).
  assert ((forall u g, lgGrants (p_open inp now l) !! u = Some g -> lgGrants l !! u = Some g) /\
    (forall u b, lgBackoffs (p_open inp now l) !! u = Some b -> grantBackoffMin <= boDelay b <= grantBackoffMax)) as [HG HB].
  { rewrite Hg, Hb. unfold pass_open. set (k := upd _ _). destruct (expire_spec now k) as (_ & _ & Hgr & Hbo). split.
    - intros u g. rewrite Hgr. unfold k. cbn. destruct (lgGrants l !! u) as [h |]; cbn; [| done]. by case_match.
    - intros u b. rewrite Hbo. unfold k. cbn. destruct (lgGrants l !! u) as [h |]; [| apply (so_backoffs l Hs)].
      case_match; [apply (so_backoffs l Hs) |]. intros [= <-]. cbn. apply next_delay_bounds. intros p. apply (so_backoffs l Hs). }
  apply (sound_change l); try congruence.
  - intros u g Hu. by apply (so_grants l Hs), HG.
  - intros u w. rewrite Hw, Hw'. apply (so_waits l Hs).
  - done.
  - intros Hr. apply map_eq. intros u. rewrite lookup_empty. destruct (lgGrants (p_open inp now l) !! u) eqn:E; [| done].
    apply HG in E. by rewrite (so_rebuilt l Hs Hr) in E.
Qed.

(** *** Wait reasons *)

Definition waits_for (w : wait) : Prop := wtCause w ∈ [ReasonWaitingForGPU; ReasonPoolDraining; ReasonWaitingForSlot].

Lemma set_wait_waits uid key w l : waits_for w -> lgWaits (set_wait uid key w l) = <[uid := w]> (lgWaits l).
Proof.
  intros Hw. unfold set_wait. case_bool_decide as E; [| by rewrite enqueue_waits].
  destruct (lgWaits l !! uid) as [w' |] eqn:F; cbn in E; [subst w'; by rewrite insert_id |]. subst w.
  unfold waits_for in Hw. cbn in Hw. rewrite !list.elem_of_cons in Hw. by destruct Hw as [? | [? | [? | ?%not_elem_of_nil]]].
Qed.

Lemma fold_waits {X} (f : Ledger -> X -> Ledger) (k : X -> UID) (p : X -> bool) xs l :
  (forall l', lgFiles l' = lgFiles l -> forall x, x ∈ xs -> lgFiles (f l' x) = lgFiles l /\
     if p x then exists w, waits_for w /\ lgWaits (f l' x) = <[k x := w]> (lgWaits l') else lgWaits (f l' x) = lgWaits l') ->
  forall u, (u ∈ k <$> List.filter p xs -> exists w, waits_for w /\ lgWaits (fold_left f xs l) !! u = Some w) /\
    (u ∉ k <$> List.filter p xs -> lgWaits (fold_left f xs l) !! u = lgWaits l !! u).
Proof.
  intros Hf u. assert (forall m, lgFiles m = lgFiles l ->
    (u ∈ k <$> List.filter p xs \/ (exists w, waits_for w /\ lgWaits m !! u = Some w) ->
       exists w, waits_for w /\ lgWaits (fold_left f xs m) !! u = Some w) /\
    (u ∉ k <$> List.filter p xs -> lgWaits (fold_left f xs m) !! u = lgWaits m !! u)) as Hm.
  { induction xs as [| x xs IH]; intros m Em; cbn [fold_left List.filter].
    { split; [| done]. intros [Hi | Hi]; [by apply not_elem_of_nil in Hi | done]. }
    destruct (Hf m Em x ltac:(by left)) as [Ef Hx]. destruct (IH (fun l' El y Hy => Hf l' El y (proj2 (list.elem_of_cons _ _ _) (or_intror Hy))) (f m x) Ef) as (IH1 & IH2).
    destruct (p x).
    - destruct Hx as (w & Hw & Ew). cbn. rewrite list.elem_of_cons. split.
      + intros Hu. apply IH1. destruct (decide (u = k x)) as [-> | Hne]; [right; exists w; by rewrite Ew, lookup_insert_eq |].
        destruct Hu as [[Hu | Hu] | Hu]; [done | by left |]. right. by rewrite Ew, lookup_insert_ne.
      + intros Hu. rewrite IH2 by tauto. rewrite Ew, lookup_insert_ne; [done | intros E; apply Hu; left; congruence].
    - split.
      + intros Hu. apply IH1. by rewrite Hx.
      + intros Hu. by rewrite IH2, Hx. }
  destruct (Hm l eq_refl) as (Hin & Hout). split; [intros Hu; apply Hin; by left | done].
Qed.

(** Each candidate is queued or held, once. *)
Lemma assign_loop_uids a ordered free per :
  (cdUID <$> (assign_loop a ordered free per).1) ++ (hdUID <$> (assign_loop a ordered free per).2) ≡ₚ cdUID <$> ordered.
Proof.
  revert free per. induction ordered as [| c ordered IH]; intros free per; cbn; [done |].
  case_match; [destruct (assign_loop a ordered free per) eqn:E; specialize (IH free per); rewrite E in IH; cbn in *; by rewrite <- IH, <- Permutation_middle |].
  case_match; [destruct (assign_loop a ordered free per) eqn:E; specialize (IH free per); rewrite E in IH; cbn in *; by rewrite <- IH, <- Permutation_middle |].
  match goal with |- context [let '(_, _) := ?e in _] => destruct e as [qs hs] eqn:E end. cbn.
  constructor. case_match; match type of E with assign_loop _ _ ?f ?p = _ => specialize (IH f p) end; rewrite E in IH; done.
Qed.

Lemma assign_loop_causes a ordered free per h : h ∈ (assign_loop a ordered free per).2 -> hdCause h ∈ [ReasonWaitingForGPU; ReasonPoolDraining].
Proof.
  revert free per. induction ordered as [| c ordered IH]; intros free per; cbn; [by intros ?%not_elem_of_nil |].
  case_match; [destruct (assign_loop a ordered free per) eqn:E; specialize (IH free per); rewrite E in IH; cbn in *;
    intros [-> | ?]%list.elem_of_cons; [by left | auto] |].
  case_match; [destruct (assign_loop a ordered free per) eqn:E; specialize (IH free per); rewrite E in IH; cbn in *;
    intros [-> | ?]%list.elem_of_cons; [right; by left | auto] |].
  match goal with |- context [let '(_, _) := ?e in _] => destruct e as [qs hs] eqn:E end. cbn.
  case_match; match type of E with assign_loop _ _ ?f ?p = _ => specialize (IH f p) end; rewrite E in IH; done.
Qed.

Lemma p_classes_uids inp now l :
  (cdUID <$> (p_classes inp now l).1) ++ (hdUID <$> (p_classes inp now l).2) ≡ₚ cdUID <$> (candidatesLocked inp now l).1.
Proof. unfold p_classes, assignClasses. by rewrite assign_loop_uids, (SliceStable_perm cdSlot). Qed.

Lemma p_classes_disjoint inp now l u : u ∈ cdUID <$> (p_classes inp now l).1 -> u ∈ hdUID <$> (p_classes inp now l).2 -> False.
Proof.
  pose proof (candidates_uids inp now l) as Hn. rewrite <- p_classes_uids in Hn. apply list.NoDup_app in Hn as (_ & Hd & _). apply Hd.
Qed.

Definition unadmitted inp now l (c : candidate) : bool := negb (bool_decide (slKey (cdSlot c) ∈ slKey <$> p_admitted inp now l)).

Lemma unadmitted_spec inp now l c : sound l -> c ∈ (p_classes inp now l).1 -> unadmitted inp now l c = true <-> cdSlot c ∉ p_admitted inp now l.
Proof using named_plain.
  intros Hs Hc. unfold unadmitted. rewrite negb_true_iff, bool_decide_eq_false.
  enough (slKey (cdSlot c) ∈ slKey <$> p_admitted inp now l <-> cdSlot c ∈ p_admitted inp now l) by tauto. split.
  - intros (s & E & Hi)%list_elem_of_fmap. pose proof Hi as Hj. apply p_admitted_in in Hj as (d & Hd & ->).
    by rewrite (fmap_inj_elem (fun c => slKey (cdSlot c)) (p_classes inp now l).1 c d) by (done || by apply queued_keys).
  - intros Hi. by apply (list_elem_of_fmap_2 slKey).
Qed.

(** Who waits after a pass. *)
Definition waiting inp now l : list UID :=
  (cdUID <$> List.filter (unadmitted inp now l) (p_classes inp now l).1) ++ (hdUID <$> (p_classes inp now l).2).

Lemma p_wait_spec inp now l u : sound l ->
  (u ∈ waiting inp now l -> exists w, waits_for w /\ lgWaits (p_wait inp now l) !! u = Some w) /\
  (u ∉ waiting inp now l -> lgWaits (p_wait inp now l) !! u = lgWaits (p_dispatch inp now l) !! u).
Proof using named_plain.
  intros Hs. unfold p_wait, waitReasonsLocked, waiting. set (l2 := p_dispatch inp now l). set (ylding := (budget_now inp l2).2).
  assert (still l l2) as H2 by apply grantDispatch_spec.
  assert (forall h, h ∈ (p_classes inp now l).2 -> is_Some (lgFiles l !! hdUID h)) as Hh.
  { intros h Hh. assert (hdUID h ∈ cdUID <$> (candidatesLocked inp now l).1) as Hi.
    { rewrite <- p_classes_uids, list.elem_of_app. right. by apply (list_elem_of_fmap_2 hdUID). }
    apply list_elem_of_fmap in Hi as (c & -> & Hc). apply candidates_spec in Hc as (v & e & Hv & _ & ->). exists e. exact Hv. }
  set (l3 := fold_left (wait_held ylding) (p_classes inp now l).2 l2).
  assert (lgFiles l3 = lgFiles l2) as F3.
  { unfold l3. apply (st_files l2). apply (fold_left_still still). intros s h _. unfold wait_held. case_match; [apply set_wait_quiet | done]. }
  destruct (fold_waits (wait_held ylding) hdUID (fun _ => true) (p_classes inp now l).2 l2) with (u := u) as [A1 A2].
  { intros k Ek h Hi. unfold wait_held. rewrite Ek, (st_files _ _ H2). destruct (Hh h Hi) as [e He]. rewrite He. split.
    - destruct (set_wait_quiet (hdUID h) (fvKey (enView e)) (mkWait (if negb (String.eqb ylding "") && String.eqb (hdMsg h) WaitingForGPU then ylding else hdMsg h) (hdCause h)) k) as [[] _].
      by rewrite st_files0, Ek, (st_files _ _ H2).
    - eexists. split; [| apply set_wait_waits]; apply assign_loop_causes in Hi; unfold waits_for; cbn;
        rewrite !list.elem_of_cons in *; tauto. }
  fold l3 in A1, A2.
  destruct (fold_waits (wait_queued ylding (p_admitted inp now l)) cdUID (unadmitted inp now l) (p_classes inp now l).1 l3) with (u := u) as [B1 B2].
  { intros k Ek c Hi. unfold wait_queued, unadmitted. case_bool_decide; cbn [negb]; [done |]. split.
    - match goal with |- lgFiles (set_wait ?a ?b ?c k) = _ => destruct (set_wait_quiet a b c k) as [[] _] end. congruence.
    - eexists. split; [| apply set_wait_waits]; unfold waits_for; cbn; rewrite !list.elem_of_cons; tauto. }
  assert (forall xs : list hold, List.filter (fun _ => true) xs = xs) as E.
  { clear. induction xs as [| x xs IH]; cbn; [done | by rewrite IH]. }
  rewrite E in A1, A2. rewrite list.elem_of_app. split.
  - intros [Hi | Hi]; [by apply B1 |]. destruct (A1 Hi) as (w & Hw & Ew). exists w. split; [done |]. rewrite B2; [done |].
    intros Hj. apply (p_classes_disjoint inp now l u); [| done].
    apply list_elem_of_fmap in Hj as (c & -> & Hj). rewrite list_elem_of_In in Hj. apply filter_In in Hj as [Hj _].
    apply (list_elem_of_fmap_2 cdUID). by apply list_elem_of_In.
  - intros Hi. rewrite B2, A2 by tauto. done.
Qed.

Lemma waiting_candidates inp now l u : u ∈ waiting inp now l ->
  exists e, lgFiles l !! u = Some e /\ fvPhase (enView e) = TranscodePhasePlanned.
Proof.
  intros Hu. assert (u ∈ cdUID <$> (candidatesLocked inp now l).1) as Hi.
  { rewrite <- p_classes_uids, list.elem_of_app. unfold waiting in Hu. apply list.elem_of_app in Hu as [Hu | Hu]; [left | by right].
    apply list_elem_of_fmap in Hu as (c & -> & Hc). rewrite list_elem_of_In in Hc. apply filter_In in Hc as [Hc _].
    apply (list_elem_of_fmap_2 cdUID). by apply list_elem_of_In. }
  apply list_elem_of_fmap in Hi as (c & -> & Hc). apply candidates_spec in Hc as (v & e & Hv & Hc & ->). exists e.
  apply competes_ungranted in Hc as (_ & ? & _). done.
Qed.

Lemma p_dispatch_waits inp now l u :
  lgWaits (p_dispatch inp now l) !! u = if bool_decide (u ∈ (p_items inp now l).*1) then None else lgWaits l !! u.
Proof. apply grantDispatch_spec. Qed.

Lemma p_wait_still inp now l : still l (p_wait inp now l).
Proof. transitivity (p_dispatch inp now l); [apply grantDispatch_spec | apply waitReasons_quiet]. Qed.

Lemma p_wait_uids inp now l : sound l -> filed_uids (p_wait inp now l).
Proof. intros Hs. unfold filed_uids. rewrite (st_files _ _ (p_wait_still inp now l)). by apply sound_uids. Qed.

Lemma p_grants_kind inp now l u g : sound l -> (u, g) ∈ p_grants inp now l ->
  exists kind class profile, kind <> GrantNone /\ g = new_grant now kind class profile.
Proof using named_plain.
  intros Hs. unfold p_grants. rewrite !list.elem_of_app. intros [Hi | [Hi | Hi]].
  - apply elem_of_p_items in Hi as (c & _ & _ & _ & ->); [| done]. do 3 eexists; split; [| reflexivity]; done.
  - apply elem_of_fill_items in Hi as (name & e & _ & -> & _); [do 3 eexists; split; [| reflexivity]; done | by apply p_wait_uids].
  - apply elem_of_graft_items in Hi as (-> & _). do 3 eexists; split; [| reflexivity]; done.
Qed.

Lemma p_done_sound inp now l : sound l -> lgRebuilt l = true -> sound (p_done inp now l).
Proof using named_plain.
  intros Hs Hr. destruct (p_done_spec inp now l Hs) as ([] & Hb & Hg & Hn & Hu & Hw). apply (sound_change l); try done.
  - intros u g. rewrite Hg, issue_lookup by done. intros [Hi | [_ Hi]]; [| by apply (so_grants l Hs)]. split.
    + apply Hu. by apply (list_elem_of_fmap_2 fst _ (u, g)).
    + apply p_grants_kind in Hi as (k & c & p & Hk & ->); done.
  - intros u w. rewrite Hw. destruct (p_wait_spec inp now l u Hs) as [W1 W2]. destruct (decide (u ∈ waiting inp now l)) as [Hi | Hi].
    + intros _. by apply waiting_candidates in Hi.
    + rewrite W2, p_dispatch_waits by done. case_match; [done | apply (so_waits l Hs)].
  - intros u b. rewrite Hb. apply (so_backoffs l Hs).
  - congruence.
Qed.

(** ** A pass stays within the slots *)

(** The slots taken: by files in flight, and by dispatch grants. *)
Definition taken (now : Time) l : list Slot := block_slots l ++ grant_slots now l.

Definition grant_slot now l (x : UID * grant) : option Slot :=
  if bool_decide (gnKind x.2 = GrantDispatch) && grant_lives x.2 now
     && negb (from_option (fun e => slotPhase (fvPhase (enView e))) false (lgFiles l !! x.1))
  then Some (mkSlot x.1 (gnClass x.2) (gnProfile x.2) 0 0) else None.

Lemma block_slots_still l l' : still l l' -> block_slots l' = block_slots l.
Proof. intros []. unfold block_slots, orphanedLocked. by rewrite st_files0, st_uids0. Qed.

Lemma omap_same {A B} (f g : A -> option B) (xs : list A) : (forall x, f x = g x) -> omap f xs = omap g xs.
Proof. intros Hf. induction xs as [| x xs IH]; cbn; [done |]. by rewrite Hf, <- IH. Qed.

Lemma omap_none {A B} (f : A -> option B) (xs : list A) : (forall x, x ∈ xs -> f x = None) -> omap f xs = [].
Proof. induction xs as [| x xs IH]; intros Hf; cbn; [done |]. rewrite Hf by (by left). apply IH. intros y Hy. apply Hf. by right. Qed.

(** What a pass adds to the slots taken. *)
Lemma p_done_taken inp now l : sound l ->
  taken now (p_done inp now l) ≡ₚ taken now l ++ omap (grant_slot now l) (p_items inp now l).
Proof using named_plain.
  intros Hs. destruct (p_done_spec inp now l Hs) as (Hst & _ & Hg & Hn & Hu & _).
  unfold taken. rewrite (block_slots_still l _ Hst), <- (assoc_L (++)). f_equiv.
  change (grant_slots now (p_done inp now l)) with (omap (grant_slot now (p_done inp now l)) (range (lgGrants (p_done inp now l)))).
  change (grant_slots now l) with (omap (grant_slot now l) (range (lgGrants l))).
  assert (forall x, grant_slot now (p_done inp now l) x = grant_slot now l x) as Hx.
  { intros x. unfold grant_slot. by rewrite (st_files _ _ Hst). }
  rewrite (omap_same _ _ _ Hx).
  rewrite range_perm, Hg, issue_perm by (done || by intros u ?; apply Hu). rewrite (range_perm (lgGrants l)), omap_app, Permutation_app_comm.
  f_equiv. unfold p_grants. rewrite !omap_app, (omap_none _ (fill_items _ _ _)), (omap_none _ (graft_items _ _ _)), !app_nil_r; [done | |].
  - intros [u g] Hi. apply elem_of_graft_items in Hi as (-> & _). done.
  - intros [u g] Hi. apply elem_of_fill_items in Hi as (name & e & _ & -> & _); [done | by apply p_wait_uids].
Qed.

(** ** Every operation *)

(** The ledger's operations: the views observed are of objects. *)
Inductive aop :=
  | OObserve (v : FileView) (now : Time)
  | OForget (key : NamespacedName)
  | OTake (uid : UID) (now : Time)
  | OConfirm (uid : UID)
  | ORelease (uid : UID) (now : Time)
  | OReleaseUnconfirmed (uid : UID)
  | ONoteLease (uid : UID) (missing : bool) (now : Time)
  | OPublishFailed (uid : UID) (err : option string)
  | OWithdrawFailed (uid : UID) (err : option string)
  | OReroute (uid : UID) (seq : Z) (reason : string) (keepGPU : bool)
  | OUpdatePool (k : PoolKey) (f : PoolState -> PoolState)
  | OPass (inp : PassInputs) (now : Time)
  | OQuorum (v : FileView) (started now : Time) (replace : bool)
  | OBacklog (v : FileView) (now : Time)
  | ORebuilt
  | OSlots (slots : gmap string Z)
  | OWindow (window : Z)
  | OWaker
  | OWake.

Definition run_op (o : aop) l : Ledger :=
  match o with
  | OObserve v now => Observe v now l
  | OForget key => (Forget key l).2
  | OTake uid now => (TakeGrant uid now l).2
  | OConfirm uid => Confirm uid l
  | ORelease uid now => Release uid now l
  | OReleaseUnconfirmed uid => ReleaseUnconfirmed uid l
  | ONoteLease uid missing now => (NoteLeaseMissing uid missing now l).2
  | OPublishFailed uid err => PublishFailed uid err l
  | OWithdrawFailed uid err => WithdrawFailed uid err l
  | OReroute uid seq reason keep => Reroute uid seq reason keep l
  | OUpdatePool k f => UpdatePool k f l
  | OPass inp now => (Pass inp now l).2
  | OQuorum v started now replace => observeQuorum v started now replace l
  | OBacklog v now => (observeLocked v now l).2
  | ORebuilt => markRebuilt l
  | OSlots slots => SetSlots slots l
  | OWindow window => SetWindow window l
  | OWaker => setWaker l
  | OWake => Wake l
  end.

Definition observed (o : aop) : option FileView :=
  match o with OObserve v _ | OQuorum v _ _ _ | OBacklog v _ => Some v | _ => None end.

(** A view is of an object, under its name. *)
Definition of_object (o : aop) : Prop := forall v, observed o = Some v -> fvKey v = named (fvUID v).

(** *** Retiring a file *)

Lemma retire_spec uid l :
  let l' := retireLocked uid l in
  lgFiles l' = delete uid (lgFiles l) /\ lgGrants l' = delete uid (lgGrants l) /\ lgBackoffs l' = delete uid (lgBackoffs l) /\
  lgWaits l' = delete uid (lgWaits l) /\ lgRebuilt l' = lgRebuilt l /\
  lgByKey l' = match lgFiles l !! uid with Some e => delete (fvKey (enView e)) (lgByKey l) | None => lgByKey l end.
Proof. unfold retireLocked. destruct (lgFiles l !! uid); done. Qed.

Lemma retire_sound uid l : sound l -> sound (retireLocked uid l).
Proof.
  intros Hs. destruct (retire_spec uid l) as (Ef & Eg & Eb & Ew & Er & Ek). constructor.
  - intros u e. rewrite Ef, lookup_delete_Some. intros [Hne He]. destruct (so_files l Hs u e He) as (H1 & H2 & H3 & H4).
    unfold filed. split_and!; try done. rewrite Ek. destruct (lgFiles l !! uid) as [f |] eqn:E; [| done].
    destruct (so_files l Hs uid f E) as (_ & H2' & _ & H4'). rewrite H2', lookup_delete_ne; [done |]. intros En. rewrite En in H4'. congruence.
  - intros k u. rewrite Ek, Ef. intros Hk. assert (lgByKey l !! k = Some u /\ u <> uid) as [Hk' Hne].
    { destruct (lgFiles l !! uid) as [f |] eqn:E.
      - destruct (so_files l Hs uid f E) as (_ & H2 & _ & _). rewrite H2, lookup_delete_Some in Hk. destruct Hk as [Hne Hk]. split; [done |].
        intros ->. apply (so_keys l Hs) in Hk as [-> _]. done.
      - split; [done |]. intros ->. apply (so_keys l Hs) in Hk as [_ [? ?]]. congruence. }
    rewrite lookup_delete_ne by done. by apply (so_keys l Hs).
  - intros u g. rewrite Eg, Ef, lookup_delete_Some. intros [Hne Hg]. rewrite lookup_delete_ne by done. by apply (so_grants l Hs).
  - intros u w. rewrite Ew, Ef, lookup_delete_Some. intros [Hne Hw]. rewrite lookup_delete_ne by done. by apply (so_waits l Hs u w).
  - intros u b. rewrite Eb, lookup_delete_Some. intros [_ Hb]. by apply (so_backoffs l Hs u).
  - intros Hr. rewrite Eg, (so_rebuilt l Hs); [apply delete_empty | congruence].
Qed.

(** *** Storing a view *)

Lemma filled_same v cur l : fvUID (filled v cur l) = fvUID v /\ fvKey (filled v cur l) = fvKey v /\ fvSeq (filled v cur l) = fvSeq v /\
  fvPhase (filled v cur l) = fvPhase v.
Proof. unfold filled. destruct cur as [c |]; [destruct (negb (fvEligibleKnown v)) |]; case_match; done. Qed.

Lemma store_spec v cur now l :
  let w := filled v cur l in let l' := storeLocked v cur now l in
  lgFiles l' = <[fvUID v := mkEntry w now (nn_String (fvKey v))]> (lgFiles l) /\
  lgByKey l' = <[fvKey v := fvUID v]> (lgByKey l) /\ lgBackoffs l' = lgBackoffs l /\ lgRebuilt l' = lgRebuilt l /\
  (forall u, lgGrants l' !! u = if bool_decide (u = fvUID v) then g ← lgGrants l !! u; if negb (gnInUse g) && grant_spent g w then None else Some g
                                else lgGrants l !! u) /\
  (forall u, lgWaits l' !! u = if bool_decide (u = fvUID v) && negb (String.eqb (fvPhase v) TranscodePhasePlanned) then None else lgWaits l !! u).
Proof.
  cbv zeta. destruct (filled_same v cur l) as (E1 & E2 & _ & E4). unfold storeLocked. cbv zeta. set (w := filled v cur l) in *. rewrite <- E1, <- E2, <- E4.
  set (l0 := upd _ (upd _ l)).
  assert (forall k, let k' := drop_dispatch w k in quiet k k' /\ lgWaits k' = lgWaits k) as H4.
  { intros k. unfold drop_dispatch. by case_match. }
  assert (forall k, let k' := drop_wait w k in quiet k k' /\ forall u,
    lgWaits k' !! u = if bool_decide (u = fvUID w) && negb (String.eqb (fvPhase w) TranscodePhasePlanned) then None else lgWaits k !! u) as H3.
  { intros k. unfold drop_wait. destruct (negb (String.eqb (fvPhase w) TranscodePhasePlanned)); (split; [done |]); intros u;
      [rewrite andb_true_r | by rewrite andb_false_r].
    cbn. case_bool_decide; [subst; by rewrite lookup_delete_eq | by rewrite lookup_delete_ne]. }
  assert (forall k, calm k (close_directive w k)) as H2.
  { intros k. unfold close_directive. destruct (lgDirectives k !! fvUID w); [| done]. by case_match. }
  assert (forall k, let k' := spend_grant w k in still k k' /\ lgWaits k' = lgWaits k /\ lgBackoffs k' = lgBackoffs k /\ forall u,
    lgGrants k' !! u = if bool_decide (u = fvUID w) then g ← lgGrants k !! u; if negb (gnInUse g) && grant_spent g w then None else Some g
                       else lgGrants k !! u) as H1.
  { intros k. unfold spend_grant. destruct (lgGrants k !! fvUID w) as [g |] eqn:E; [destruct (negb (gnInUse g) && grant_spent g w) eqn:Es |];
      (split_and!; [done | done | done |]); intros u; case_bool_decide as Eu; try done; cbn; subst.
    - by rewrite lookup_delete_eq, E; cbn; rewrite Es.
    - by rewrite lookup_delete_ne.
    - rewrite E. cbn. by rewrite Es.
    - by rewrite E. }
  destruct (H1 l0) as (S1 & W1 & B1 & G1). set (l1 := spend_grant w l0) in *. destruct (H2 l1) as ((S2 & G2 & B2) & W2). set (l2 := close_directive w l1) in *.
  destruct (H3 l2) as ((S3 & G3 & B3) & W3). set (l3 := drop_wait w l2) in *. destruct (H4 l3) as ((S4 & G4 & B4) & W4).
  assert (still l0 (drop_dispatch w l3)) as [] by (do 3 (etrans; [eassumption |]); done).
  split_and!.
  - by rewrite st_files0.
  - by rewrite st_byKey0.
  - by rewrite B4, B3, B2, B1.
  - by rewrite st_rebuilt0.
  - intros u. by rewrite G4, G3, G2, G1.
  - intros u. by rewrite W4, W3, W2, W1.
Qed.

(** *** Every operation keeps the invariant *)

Lemma store_sound v cur now l : sound l -> fvKey v = named (fvUID v) ->
  (forall u, lgByKey l !! fvKey v = Some u -> u = fvUID v) -> sound (storeLocked v cur now l).
Proof.
  intros Hs Hk Hb. destruct (store_spec v cur now l) as (Ef & Ek & Eb & Er & Eg & Ew).
  destruct (filled_same v cur l) as (F1 & F2 & _ & F4). constructor.
  - intros u e. rewrite Ef. destruct (decide (u = fvUID v)) as [-> | Hne].
    + rewrite lookup_insert_eq. intros [= <-]. unfold filed. cbn. rewrite F1, F2, Ek, <- Hk, lookup_insert_eq. done.
    + rewrite lookup_insert_ne by done. intros He. destruct (so_files l Hs u e He) as (H1 & H2 & H3 & H4).
      unfold filed. split_and!; try done. rewrite Ek, lookup_insert_ne; [done |]. intros En. rewrite <- En in H4. by apply Hb in H4.
  - intros k u. rewrite Ek, Ef. intros Hu. destruct (decide (k = fvKey v)) as [-> | Hne].
    + rewrite lookup_insert_eq in Hu. injection Hu as <-. rewrite lookup_insert_eq. split; [done | by eexists].
    + rewrite lookup_insert_ne in Hu by done. destruct (so_keys l Hs k u Hu) as [-> Hf]. split; [done |].
      rewrite lookup_insert_ne; [done |]. intros <-. by rewrite <- Hk in Hne.
  - intros u g. rewrite Eg, Ef. intros Hg. assert (lgGrants l !! u = Some g) as Hg'.
    { case_bool_decide; [| done]. destruct (lgGrants l !! u) as [h |]; [| done]. cbn in Hg. by case_match. }
    destruct (so_grants l Hs u g Hg') as [[e He] Hn]. split; [| done].
    destruct (decide (u = fvUID v)) as [-> | Hne]; [rewrite lookup_insert_eq; by eexists | rewrite lookup_insert_ne by done; by eexists].
  - intros u w. rewrite Ew, Ef. destruct (decide (u = fvUID v)) as [-> | Hne].
    + rewrite bool_decide_eq_true_2, lookup_insert_eq by done. cbn. destruct (String.eqb_spec (fvPhase v) TranscodePhasePlanned) as [E | E]; [| done].
      intros _. eexists. split; [done |]. cbn. congruence.
    + rewrite bool_decide_eq_false_2, lookup_insert_ne by done. apply (so_waits l Hs).
  - intros u b. rewrite Eb. apply (so_backoffs l Hs).
  - intros Hr. apply map_eq. intros u. rewrite Eg, (so_rebuilt l Hs), lookup_empty by congruence. by case_bool_decide.
Qed.

Lemma retire_other_spec v l : sound l -> fvKey v = named (fvUID v) ->
  let l' := retire_other v l in
  sound l' /\ (forall u, lgByKey l' !! fvKey v = Some u -> u = fvUID v) /\ lgRebuilt l' = lgRebuilt l /\
  (forall u, (lgFiles l' !! u = lgFiles l !! u /\ lgGrants l' !! u = lgGrants l !! u) \/
             (lgFiles l' !! u = None /\ lgGrants l' !! u = None /\ u <> fvUID v /\ fvKey v = named u)).
Proof.
  intros Hs Hv. unfold retire_other. cbv zeta. destruct (lgByKey l !! fvKey v) as [old |] eqn:E; [| split_and!; [done | congruence | done | by left]].
  destruct (String.eqb_spec old (fvUID v)) as [-> | Hne]; cbn [negb]; [split_and!; [done | congruence | done | by left] |].
  destruct (retire_spec old l) as (Ef & Eg & _ & _ & Er & Ek). destruct (so_keys l Hs _ _ E) as [En [e He]].
  split_and!; [by apply retire_sound | | done |].
  - intros u. rewrite Ek, He. destruct (so_files l Hs old e He) as (_ & -> & _). by rewrite En, lookup_delete_eq.
  - intros u. rewrite Ef, Eg. destruct (decide (u = old)) as [-> | Hu].
    + right. by rewrite !lookup_delete_eq.
    + left. by rewrite !lookup_delete_ne.
Qed.

Lemma observe_sound v now l : sound l -> fvKey v = named (fvUID v) -> sound (observeLocked v now l).2.
Proof.
  intros Hs Hv. unfold observeLocked. destruct (retire_other_spec v l Hs Hv) as (Hs' & Hb & _).
  destruct (lgFiles (retire_other v l) !! fvUID v); [case_match; [done |] |]; by apply store_sound.
Qed.

Lemma sound_ext l l' : sound l -> lgFiles l' = lgFiles l -> lgByKey l' = lgByKey l -> lgRebuilt l' = lgRebuilt l ->
  lgWaits l' = lgWaits l ->
  (forall u g, lgGrants l' !! u = Some g -> exists h, lgGrants l !! u = Some h /\ gnKind g = gnKind h) ->
  (forall u b, lgBackoffs l' !! u = Some b -> lgBackoffs l !! u = Some b \/ grantBackoffMin <= boDelay b <= grantBackoffMax) -> sound l'.
Proof.
  intros Hs Hf Hk Hr Hw Hg Hb. apply (sound_change l); try done.
  - intros u g Hu. destruct (Hg u g Hu) as (h & Hh & ->). by apply (so_grants l Hs).
  - rewrite Hw. apply (so_waits l Hs).
  - intros u b Hu. destruct (Hb u b Hu); [by apply (so_backoffs l Hs u) | done].
  - intros Hn. apply map_eq. intros u. destruct (lgGrants l' !! u) as [g |] eqn:E; [| done]. destruct (Hg u g E) as (h & Hh & _).
    by rewrite (so_rebuilt l Hs Hn) in Hh.
Qed.

Lemma sound_same l l' : sound l -> lgFiles l' = lgFiles l -> lgByKey l' = lgByKey l -> lgRebuilt l' = lgRebuilt l ->
  lgWaits l' = lgWaits l -> lgGrants l' = lgGrants l -> lgBackoffs l' = lgBackoffs l -> sound l'.
Proof.
  intros Hs Hf Hk Hr Hw Hg Hb. apply (sound_ext l); try done; rewrite ?Hg, ?Hb; [intros u g Hu; by exists g | by left].
Qed.

Lemma signal_sound l : sound l -> sound (signalLocked l).
Proof. intros []. by constructor. Qed.

Lemma p_open_rebuilt inp now l : lgRebuilt (p_open inp now l) = lgRebuilt l.
Proof. unfold p_open. rewrite (st_rebuilt (pass_open inp now l)) by apply reroute_calm. by destruct (pass_open_spec inp now l) as (_ & _ & ? & _). Qed.

Lemma pass_open_sound inp now l : sound l -> sound (pass_open inp now l).
Proof.
  intros Hs. pose proof (p_open_sound inp now l Hs) as Hs1. destruct (reroute_calm inp now (pass_open inp now l)) as (([] & Hg & Hb) & Hw).
  fold (p_open inp now l) in *. apply (sound_ext (p_open inp now l)); try done; rewrite ?Hg, ?Hb; eauto.
Qed.

Lemma Pass_sound inp now l : sound l -> sound (Pass inp now l).2.
Proof using named_plain.
  intros Hs. destruct (lgRebuilt l) eqn:Hr.
  - rewrite Pass_eq by done. apply p_done_sound; [by apply p_open_sound | by rewrite p_open_rebuilt].
  - unfold Pass. destruct (pass_open_spec inp now l) as (_ & _ & -> & _). rewrite Hr. by apply pass_open_sound.
Qed.

Lemma run_op_sound o l : sound l -> of_object o -> sound (run_op o l).
Proof using named_plain.
  intros Hs Ho. destruct o; cbn [run_op]; unfold of_object in Ho; cbn [observed] in Ho.
  - apply signal_sound. by apply observe_sound, Ho.
  - unfold Forget. destruct (lgByKey l !! key) as [uid |]; [| done]. cbn [snd].
    by apply signal_sound, retire_sound.
  - unfold TakeGrant. destruct (lgGrants l !! uid) as [g |] eqn:E; [destruct (grant_lives g now); [| done] | done]. cbn [snd].
    apply (sound_ext l); try done; [| by left]. cbn. intros u h. destruct (decide (u = uid)) as [-> | Hne].
    + rewrite lookup_insert_eq. intros [= <-]. by exists g.
    + rewrite lookup_insert_ne by done. by exists h.
  - apply (sound_ext l); try done; cbn; intros u x; rewrite lookup_delete_Some; intros [_ ?]; [by exists x | by left].
  - unfold Release. destruct (lgGrants l !! uid) as [g |] eqn:E; [| by apply (sound_same l)].
    apply (sound_ext l); try done; cbn; intros u x.
    + rewrite lookup_delete_Some; intros [_ ?]; by exists x.
    + destruct (decide (u = uid)) as [-> | Hne]; [rewrite lookup_insert_eq | rewrite lookup_insert_ne by done; by left].
      intros [= <-]. right. cbn. apply next_delay_bounds. intros p. apply (so_backoffs l Hs).
  - unfold ReleaseUnconfirmed. destruct (lgGrants l !! uid) as [g |] eqn:E; [destruct (gnInUse g); [| done] | done].
    apply (sound_ext l); try done; cbn; [| by left]. intros u x; rewrite lookup_delete_Some; intros [_ ?]; by exists x.
  - unfold NoteLeaseMissing. destruct missing; cbn; [destruct (lgLeaseMissingSince l !! uid); [done |] |]; by apply (sound_same l).
  - unfold PublishFailed. destruct err; by apply (sound_same l).
  - unfold WithdrawFailed. destruct err; by apply (sound_same l).
  - unfold Reroute. cbv zeta. destruct (lgFiles _ !! uid) as [e |]; [| by apply (sound_same l)].
    unfold enqueueLocked. destruct (lgWaker _); by apply (sound_same l).
  - by apply (sound_same l).
  - by apply Pass_sound.
  - unfold observeQuorum. destruct replace; [| by apply observe_sound, Ho]. destruct (lgFiles l !! fvUID v) as [c |] eqn:E; [| by apply observe_sound, Ho].
    destruct (negb _); [by apply observe_sound, Ho |]. apply store_sound; [done | by apply Ho |]. intros u Hu.
    destruct (so_files l Hs _ _ E) as (_ & _ & _ & Hb). rewrite (Ho v eq_refl) in Hu. congruence.
  - by apply observe_sound, Ho.
  - constructor; try apply Hs. done.
  - by apply (sound_same l).
  - by apply (sound_same l).
  - by apply (sound_same l).
  - by apply (sound_same l).
Qed.

(** A ledger that operations made. *)
Inductive reachable : Ledger -> Prop :=
  | reachable_new slots window grafts : reachable (NewLedger slots window grafts)
  | reachable_op l o : reachable l -> of_object o -> reachable (run_op o l).

Lemma reachable_sound l : reachable l -> sound l.
Proof using named_plain.
  induction 1 as [slots window grafts | l o Hr IH Ho]; [| by apply run_op_sound]. by constructor.
Qed.

Lemma granted_slots_count inp now l f h : sound l -> (f = slHardware \/ f = slProfile) ->
  count f h (omap (grant_slot now l) (p_items inp now l)) = count f h (p_admitted inp now l).
Proof using named_plain.
  intros Hs Hf. unfold p_items. assert (forall s, s ∈ p_admitted inp now l -> exists c, c ∈ (p_classes inp now l).1 /\ s = cdSlot c) as Ha
    by apply p_admitted_in. induction (p_admitted inp now l) as [| s xs IH]; [done |].
  destruct (Ha s ltac:(by left)) as (c & Hc & E).
  assert (dispatch_item (by_slot (p_classes inp now l).1) now s = Some (cdUID c, new_grant now GrantDispatch (slHardware s) (fvProfile (cdView c)))) as Hi.
  { unfold dispatch_item. rewrite E, (by_slot_of _ c) by (done || by apply queued_keys). done. }
  pose proof Hc as Hq. apply queued_of in Hq as (u & e & Hu & Hcomp & Ec).
  change (omap ?f (s :: xs)) with (match f s with Some y => y :: omap f xs | None => omap f xs end). rewrite Hi.
  change (omap ?f (?x :: ?ys)) with (match f x with Some y => y :: omap f ys | None => omap f ys end).
  assert (grant_slot now l (cdUID c, new_grant now GrantDispatch (slHardware s) (fvProfile (cdView c))) =
    Some (mkSlot (cdUID c) (slHardware s) (slProfile s) 0 0)) as ->.
  { unfold grant_slot. cbn [fst snd]. rewrite E, Ec. cbn. rewrite Hu. cbn. apply competes_ungranted in Hcomp as (_ & -> & _).
    unfold grant_lives. cbn. assert (Before now (Add now grantTTL) = true) as ->; [| done]. unfold Before, Add, grantTTL, Minute. lia. }
  rewrite !tally_cons, IH by (intros t Ht; apply Ha; by right).
  f_equal. by destruct Hf as [-> | ->].
Qed.

Lemma length_omap_le {A B} (f : A -> option B) (xs : list A) : (length (omap f xs) <= length xs)%nat.
Proof. induction xs as [| x xs IH]; cbn; [done |]. case_match; cbn; lia. Qed.

Lemma length_range {K V} `{Countable K} (m : gmap K V) : length (range m) = size m.
Proof. rewrite range_perm. apply length_map_to_list. Qed.

Lemma sizes inp now l : sound l ->
  (length (candidatesLocked inp now l).1 <= size (lgFiles l))%nat /\ (length (taken now l) <= 2 * size (lgFiles l))%nat.
Proof.
  intros Hs. unfold taken, candidatesLocked, block_slots, grant_slots. cbn [fst]. rewrite length_app.
  assert (size (lgGrants l) <= size (lgFiles l))%nat as Hg.
  { rewrite <- !size_dom. apply subseteq_size. intros u. rewrite !elem_of_dom. intros [g Hu]. by apply (so_grants l Hs u g). }
  repeat match goal with |- context [length (omap ?f (range ?m))] =>
    let L := fresh in pose proof (length_omap_le f (range m)) as L; rewrite length_range in L; revert L; generalize (length (omap f (range m))) end.
  lia.
Qed.

(** *** The measure of what is in use

    Of the data alone: who runs, who was promised a start, and what the slots,
    Plex's streams and the profiles allow. *)

(** A file that runs or is queued to, of a profile among [profiles], in that
    profile's pool where it names one. *)
Definition runs (profiles : gmap string ProfileView) (v : FileView) : Prop :=
  (fvPhase v = "Queued" \/ fvPhase v = "Running") /\
  match profiles !! fvProfile v with
  | Some p => fvPool v = "" \/ fvPool v = pool_Name (mkPoolKey (fvProfile v) (pvUID p) (fvClass v))
  | None => False
  end.

(** A dispatch grant taken, or to be taken still, of a file that neither runs
    nor is queued to. *)
Definition promised (now : Time) l (x : UID * grant) : Prop :=
  gnKind x.2 = GrantDispatch /\ (gnInUse x.2 = true \/ now < gnExpires x.2) /\
  match lgFiles l !! x.1 with
  | Some e => fvPhase (enView e) <> "Queued" /\ fvPhase (enView e) <> "Running"
  | None => True
  end.

#[export] Instance runs_dec profiles v : Decision (runs profiles v).
Proof. unfold runs. destruct (profiles !! fvProfile v); apply _. Defined.
#[export] Instance promised_dec now l x : Decision (promised now l x).
Proof. unfold promised. destruct (lgFiles l !! x.1); apply _. Defined.

Definition class_in_use (profiles : gmap string ProfileView) (now : Time) l (class : string) : Z :=
  Z.of_nat (size (filter (fun x => runs profiles (enView x.2) /\ fvClass (enView x.2) = class) (lgFiles l))) +
  Z.of_nat (size (filter (fun x => promised now l x /\ gnClass x.2 = class) (lgGrants l))).

Definition profile_in_use (profiles : gmap string ProfileView) (now : Time) l (name : string) : Z :=
  Z.of_nat (size (filter (fun x => runs profiles (enView x.2) /\ fvProfile (enView x.2) = name) (lgFiles l))) +
  Z.of_nat (size (filter (fun x => promised now l x /\ gnProfile x.2 = name) (lgGrants l))).

(** The engines of the intel device: the most a tier has, one at least. *)
Definition engines (inp : PassInputs) : Z :=
  match piDevices inp !! "intel" with
  | Some d => Z.max 1 (foldr Z.max 0 (map_to_list (dvLimits d)).*2)
  | None => 1
  end.

(** The slots of a class; of the intel class, while Plex converts video, no
    more than the engines left when each four streams begun hold one. *)
Definition class_budget (inp : PassInputs) l (class : string) : Z :=
  let slots := default 0 (lgSlots l !! class) in
  if decide (class = "intel" /\ 0 < piVideoStreams inp)
  then Z.min slots (Z.max 0 (engines inp - (piVideoStreams inp + 3) / 4)) else slots.

Lemma filter_cons_length {A} (P : A -> Prop) `{!forall x, Decision (P x)} x (xs : list A) :
  length (filter P (x :: xs)) = ((if decide (P x) then 1 else 0) + length (filter P xs))%nat.
Proof. rewrite filter_cons. by case_decide. Qed.

Lemma map_to_list_filtered {K V} `{Countable K} (P : K * V -> Prop) `{!forall x, Decision (P x)} (m : gmap K V) :
  map_to_list (filter P m) ≡ₚ filter P (map_to_list m).
Proof.
  apply NoDup_Permutation; [apply NoDup_map_to_list | apply list.NoDup_filter, NoDup_map_to_list |].
  intros [k v]. by rewrite elem_of_map_to_list, map_lookup_filter_Some, list_elem_of_filter, elem_of_map_to_list, (comm (∧)).
Qed.

Lemma count_range {V} (f : Slot -> string) (h : string) (g : UID * V -> option Slot) (P : UID * V -> Prop)
    `{!forall x, Decision (P x)} (m : gmap UID V) :
  (forall x, P x <-> exists s, g x = Some s /\ f s = h) ->
  count f h (omap g (range m)) = Z.of_nat (size (filter P m)).
Proof.
  intros Hg. rewrite (count_perm f h _ (omap g (map_to_list m))) by (by rewrite range_perm).
  rewrite <- length_map_to_list, map_to_list_filtered. induction (map_to_list m) as [| x xs IH]; [done |].
  rewrite filter_cons_length. change (omap g (x :: xs)) with (match g x with Some y => y :: omap g xs | None => omap g xs end).
  specialize (Hg x). destruct (g x) as [s |] eqn:E.
  - rewrite tally_cons, IH. destruct (decide (P x)) as [Hp | Hp].
    + apply Hg in Hp as (t & [= <-] & <-). rewrite String.eqb_refl. lia.
    + destruct (String.eqb_spec (f s) h) as [Eh | Eh]; [exfalso; apply Hp, Hg; by exists s | lia].
  - rewrite IH. destruct (decide (P x)) as [Hp | Hp]; [apply Hg in Hp as (t & ? & _); done | lia].
Qed.

Lemma slotPhase_iff p : slotPhase p = true <-> p = "Queued" \/ p = "Running".
Proof. unfold slotPhase. rewrite orb_true_iff, !String.eqb_eq. done. Qed.

Lemma grant_lives_iff g now : grant_lives g now = true <-> gnInUse g = true \/ now < gnExpires g.
Proof. unfold grant_lives, Before. rewrite orb_true_iff, Z.ltb_lt. done. Qed.

Lemma runs_iff profiles l v : lgProfileUIDs l = uidsOf profiles ->
  slotPhase (fvPhase v) && negb (orphanedLocked l v) = true <-> runs profiles v.
Proof.
  intros Hp. unfold runs, orphanedLocked. rewrite Hp, andb_true_iff, slotPhase_iff. unfold uidsOf. rewrite lookup_fmap.
  destruct (profiles !! fvProfile v) as [p |]; cbn; [| by intuition].
  rewrite negb_andb, orb_true_iff, !negb_involutive, !String.eqb_eq. done.
Qed.

Lemma promised_iff now l x : promised now l x <->
  bool_decide (gnKind x.2 = GrantDispatch) && grant_lives x.2 now
  && negb (from_option (fun e => slotPhase (fvPhase (enView e))) false (lgFiles l !! x.1)) = true.
Proof.
  unfold promised. rewrite !andb_true_iff, bool_decide_eq_true, grant_lives_iff, negb_true_iff.
  destruct (lgFiles l !! x.1) as [e |]; cbn; [| tauto]. rewrite <- not_true_iff_false, slotPhase_iff. tauto.
Qed.

Lemma some_if (b : bool) (s : Slot) (f : Slot -> string) h :
  b = true /\ f s = h <-> exists t, (if b then Some s else None) = Some t /\ f t = h.
Proof.
  destruct b; split; [intros [_ E]; by exists s | by intros (t & [= <-] & E) | by intros [? _] | by intros (t & ? & _)].
Qed.

Lemma in_use_taken profiles now l h : lgProfileUIDs l = uidsOf profiles ->
  count slHardware h (taken now l) = class_in_use profiles now l h /\
  count slProfile h (taken now l) = profile_in_use profiles now l h.
Proof.
  intros Hp. unfold taken, class_in_use, profile_in_use. rewrite !count_app. unfold block_slots, grant_slots. split; f_equal.
  all: apply count_range; intros x; cbv zeta.
  all: by rewrite ?promised_iff, <- ?(runs_iff profiles l (enView x.2) Hp), <- some_if.
Qed.

(** A quarter of the streams, rounded up, as the floats have it. *)
Lemma quarter_up s : 0 < s < 1024 -> int_ceil (fmul (of_int s) videoStreamShare) = (s + 3) / 4.
Proof.
  intros Hs. assert (forallb (fun s => int_ceil (fmul (of_int (Z.of_nat s)) videoStreamShare) =? (Z.of_nat s + 3) / 4) (seq 1 1023) = true) as Hall.
  { vm_compute. reflexivity. }
  rewrite forallb_forall in Hall. specialize (Hall (Z.to_nat s)). rewrite Z2Nat.id in Hall by lia. apply Z.eqb_eq, Hall, in_seq. lia.
Qed.

Lemma budget_spelled inp l class : (forall c, is_int32 (at_ (lgSlots l) c)) -> piVideoStreams inp < 1024 ->
  at_ (budget_now inp l).1 class = class_budget inp l class.
Proof.
  intros Hi Hstr. unfold budget_now, class_budget. destruct (Z.ltb_spec 0 (piVideoStreams inp)) as [Hpos | Hpos].
  2:{ rewrite decide_False by lia. by destruct (lgSlots l !! HardwareIntel). }
  destruct (lgSlots l !! HardwareIntel) as [n |] eqn:E; cbn [fst].
  2:{ case_decide as Hd; [| done]. destruct Hd as [-> _]. unfold at_. change "intel" with HardwareIntel. rewrite E. cbn. lia. }
  destruct (decide (class = HardwareIntel)) as [-> | Hne].
  2:{ rewrite decide_False by (intros [? _]; done). unfold at_. by rewrite lookup_insert_ne. }
  rewrite decide_True by done. unfold at_ at 1. rewrite lookup_insert_eq. cbn [from_option default]. rewrite E. cbn [from_option default].
  specialize (Hi HardwareIntel). unfold at_, is_int32 in Hi. rewrite E in Hi. cbn in Hi.
  assert (VideoAllowance (videoEngines (default zero_Device (piDevices inp !! HardwareIntel))) (piVideoStreams inp) =
    Z.max 0 (engines inp - (piVideoStreams inp + 3) / 4)) as ->.
  { unfold VideoAllowance, engines. rewrite (proj2 (Z.leb_gt (piVideoStreams inp) 0) Hpos), (quarter_up (piVideoStreams inp)) by lia. change "intel" with HardwareIntel.
    pose proof (Z.div_le_mono 4 (piVideoStreams inp + 3) 4). assert (1 <= (piVideoStreams inp + 3) / 4) by (apply Z.div_le_lower_bound; lia).
    destruct (piDevices inp !! HardwareIntel) as [d |]; cbn [default from_option];
      [| assert (videoEngines zero_Device = 0) as -> by (vm_compute; reflexivity); lia].
    unfold videoEngines. rewrite map_fold_foldr.
    change (id d) with d. match goal with |- context [foldr (uncurry ?f) 0 ?xs] => assert (foldr (uncurry f) 0 xs = foldr Z.max 0 xs.*2) as -> end.
    { induction (map_to_list (dvLimits d)) as [| [k x] xs IH]; cbn in *; lia. }
    lia. }
  unfold id. apply wrap32_id. unfold is_int32, two_p31 in *. lia.
Qed.

(** An expired grant's file waits out a backoff, so no pass that takes its
    grant makes it another. *)
Lemma p_open_grants inp now l u : sound l ->
  lgGrants (p_open inp now l) !! u = (g ← lgGrants l !! u; if grant_lives g now then Some g else None) /\
  (forall g, lgGrants l !! u = Some g -> grant_lives g now = false -> onBackoffLocked u now (p_open inp now l) = true).
Proof.
  intros Hs. destruct (reroute_calm inp now (pass_open inp now l)) as ((_ & Hg & Hb) & _). fold (p_open inp now l) in *.
  unfold onBackoffLocked. rewrite Hg, Hb. unfold pass_open. set (k := upd _ _).
  destruct (expire_spec now k) as (_ & _ & Hgr & Hbo). rewrite Hgr, Hbo. unfold k. cbn. split; [done |].
  intros g -> Hl. rewrite Hl. cbn. assert (grantBackoffMin <= next_delay (lgBackoffs l !! u)) as Hd.
  { apply next_delay_bounds. intros p. apply (so_backoffs l Hs). }
  unfold grantBackoffMin, Minute in Hd. unfold Before, Add. lia.
Qed.

Lemma p_open_files inp now l : lgFiles (p_open inp now l) = lgFiles l.
Proof.
  unfold p_open. rewrite (st_files (pass_open inp now l)) by apply reroute_calm. by destruct (pass_open_spec inp now l) as (-> & _).
Qed.

Lemma p_open_backoffs inp now l u : sound l -> lgGrants l !! u = None -> lgBackoffs (p_open inp now l) !! u = lgBackoffs l !! u.
Proof.
  intros Hs Hn. destruct (reroute_calm inp now (pass_open inp now l)) as ((_ & _ & Hb) & _). fold (p_open inp now l) in *.
  rewrite Hb. unfold pass_open. set (k := upd _ _). destruct (expire_spec now k) as (_ & _ & _ & Hbo). rewrite Hbo. unfold k. cbn. by rewrite Hn.
Qed.

(** What a pass forgets first was no longer in use. *)
Lemma p_open_in_use profiles inp now l h : sound l ->
  class_in_use profiles now (p_open inp now l) h = class_in_use profiles now l h /\
  profile_in_use profiles now (p_open inp now l) h = profile_in_use profiles now l h.
Proof.
  intros Hs. pose proof (p_open_files inp now l) as Ef. assert (forall x, promised now (p_open inp now l) x <-> promised now l x) as Hpr.
  { intros x. unfold promised. by rewrite Ef. }
  assert (forall (Q : UID * grant -> Prop) `{!forall x, Decision (Q x)},
    filter (fun x => promised now (p_open inp now l) x /\ Q x) (lgGrants (p_open inp now l)) =
    filter (fun x => promised now l x /\ Q x) (lgGrants l)) as Hf.
  { intros Q HQ. apply map_eq. intros u. apply option_eq. intros g. rewrite !map_lookup_filter_Some, Hpr.
    destruct (p_open_grants inp now l u Hs) as [-> _]. destruct (lgGrants l !! u) as [g' |]; cbn; [| done].
    destruct (grant_lives g' now) eqn:E; [done |]. split; [by intros [? _] |]. intros ([= ->] & (_ & Hl & _) & _). cbn in Hl.
    apply grant_lives_iff in Hl. congruence. }
  unfold class_in_use, profile_in_use. by rewrite Ef, !Hf.
Qed.

(** C9. A pass never fills a class or a profile past its slots: however the
    files are ordered, what runs, is queued to or is promised a start is
    afterwards within the class's budget and the profile's limit, or no more
    than it was. The budget is the slots', and of the intel class, while Plex
    converts video, no more than its engines less one for each four streams
    begun. That is for counts that fit their types: fewer than 2^31 / 3 files,
    slots of 32 bits, and fewer than 1,024 streams, within which the code's
    floating-point quarter is computed to be the whole number here. *)
Theorem pass_within_slots (inp : PassInputs) (now : Time) (l : Ledger) :
  reachable l -> lgRebuilt l = true -> Z.of_nat (3 * size (lgFiles l)) < two_p31 -> (forall c, is_int32 (at_ (lgSlots l) c)) ->
  piVideoStreams inp < 1024 ->
  let profiles := piProfiles inp in
  let l' := (Pass inp now l).2 in
  (forall class, class_in_use profiles now l' class <= Z.max (class_in_use profiles now l class) (class_budget inp l class)) /\
  (forall name p, profiles !! name = Some p -> 0 < pvMaxConcurrent p ->
    profile_in_use profiles now l' name <= Z.max (profile_in_use profiles now l name) (pvMaxConcurrent p)).
Proof using named_plain.
  intros Hreach Hr Hsize Hint Hstr. pose proof (reachable_sound l Hreach) as Hs. cbv zeta. rewrite Pass_eq by done. cbn [snd].
  set (l1 := p_open inp now l). set (profiles := piProfiles inp).
  assert (sound l1) as Hs1 by by apply p_open_sound.
  destruct (reroute_calm inp now (pass_open inp now l)) as ((Hst & Hg & _) & _). fold (p_open inp now l) in Hst, Hg. fold l1 in Hst, Hg.
  assert (lgProfileUIDs l1 = uidsOf profiles) as Eu.
  { rewrite (st_uids _ _ Hst). by destruct (pass_open_spec inp now l) as (_ & _ & _ & _ & _ & _ & ?). }
  destruct (p_done_spec inp now l1 Hs1) as (Hdone & _). assert (lgProfileUIDs (p_done inp now l1) = uidsOf profiles) as Eu'
    by (by rewrite (st_uids _ _ Hdone)).
  assert (lgFiles l1 = lgFiles l /\ lgSlots l1 = lgSlots l) as [Ef Esl].
  { rewrite (st_files _ _ Hst), (st_slots _ _ Hst).
    by destruct (pass_open_spec inp now l) as (? & _ & _ & ? & _). }
  assert (budget_now inp l1 = budget_now inp l) as Eb by (unfold budget_now; by rewrite Esl).
  assert (Z.of_nat (length (taken now l1) + length (cdSlot <$> (p_classes inp now l1).1)) < two_p31) as Hlen.
  { destruct (sizes inp now l1 Hs1) as [L1 L2]. rewrite Ef in *. rewrite length_fmap.
    assert (length (p_classes inp now l1).1 <= length (candidatesLocked inp now l1).1)%nat.
    { unfold p_classes, assignClasses. etrans; [apply assign_loop_length |]. by rewrite (SliceStable_perm cdSlot). }
    lia. }
  destruct (Admit_bound (cdSlot <$> (p_classes inp now l1).1) (taken now l1) (agBudget (assignment inp now l1)) Hlen) as [Hh Hp].
  cbn [agBudget assignment bgSlots bgProfileLimits] in Hh, Hp.
  assert (forall f h, f = slHardware \/ f = slProfile -> count f h (taken now (p_done inp now l1)) = count f h (taken now l1 ++ p_admitted inp now l1)) as Hc.
  { intros f h Hf. rewrite (count_perm _ _ _ _ (p_done_taken inp now l1 Hs1)), !count_app. f_equal. by apply granted_slots_count. }
  split.
  - intros class. rewrite <- (proj1 (p_open_in_use profiles inp now l _ Hs)). fold l1.
    rewrite <- (proj1 (in_use_taken profiles now l1 class Eu)), <- (proj1 (in_use_taken profiles now _ class Eu')),
      <- (budget_spelled inp l class), <- Eb by done.
    rewrite Hc by (by left). apply Hh.
  - intros name p Hname Hpos. rewrite <- (proj2 (p_open_in_use profiles inp now l _ Hs)). fold l1.
    rewrite <- (proj2 (in_use_taken profiles now l1 name Eu)), <- (proj2 (in_use_taken profiles now _ name Eu')).
    assert (at_ (profileLimits (piProfiles inp)) name = pvMaxConcurrent p) as El.
    { unfold at_, profileLimits. rewrite lookup_fmap. erewrite (map_lookup_filter_Some_2 _ _ name p); done. }
    rewrite Hc, <- El by (by right). apply Hp. by rewrite El.
Qed.

(** ** Each file that competes is answered *)

Lemma answered_granted inp now l uid e : sound l -> lgFiles l !! uid = Some e -> uid ∈ (p_items inp now l).*1 ->
  exists class, lgGrants (p_done inp now l) !! uid = Some (new_grant now GrantDispatch class (fvProfile (enView e))) /\
    lgWaits (p_done inp now l) !! uid = None.
Proof using named_plain.
  intros Hs He Hd. destruct (p_done_spec inp now l Hs) as (_ & _ & Hg & Hn & _ & Hw). destruct (p_wait_spec inp now l uid Hs) as [_ W2].
  apply list_elem_of_fmap in Hd as ([u g] & E & Hd). cbn in E. subst u. pose proof Hd as Hit.
  apply elem_of_p_items in Hd as (c & Hcq & Ha & Eu & ->); [| done]. exists (slHardware (cdSlot c)).
  pose proof Hcq as Hq. apply queued_of in Hq as (v & f & Hv & _ & Ec).
  assert (v = uid) as -> by (rewrite Eu, Ec; done). assert (f = e) as -> by congruence. split.
  - rewrite Hg, (issue_in _ _ uid (new_grant now GrantDispatch (slHardware (cdSlot c)) (fvProfile (cdView c)))); [| done |].
    + do 2 f_equal. by rewrite Ec.
    + unfold p_grants. rewrite list.elem_of_app. by left.
  - rewrite Hw, W2, p_dispatch_waits, bool_decide_eq_true_2; [done | exact (list_elem_of_fmap_2 fst _ _ Hit) |].
    unfold waiting. rewrite list.elem_of_app. intros [Hj | Hj].
    + apply list_elem_of_fmap in Hj as (d & Ed & Hj). rewrite list_elem_of_In in Hj. apply filter_In in Hj as [Hj Hna].
      apply list_elem_of_In in Hj. assert (c = d) as <- by (apply (queued_inj inp now l); congruence).
      by apply unadmitted_spec in Hna.
    + apply (p_classes_disjoint inp now l uid); [| done]. rewrite Eu. by apply (list_elem_of_fmap_2 cdUID).
Qed.

Lemma ungranted_waits inp now l uid : sound l -> uid ∈ cdUID <$> (candidatesLocked inp now l).1 -> uid ∉ (p_items inp now l).*1 ->
  uid ∈ waiting inp now l.
Proof using named_plain.
  intros Hs Hi Hd. rewrite <- p_classes_uids, list.elem_of_app in Hi. unfold waiting. rewrite list.elem_of_app.
  destruct Hi as [Hi | Hi]; [left | by right].
  apply list_elem_of_fmap in Hi as (c & E & Hcq). apply list_elem_of_fmap. exists c. split; [done |].
  rewrite list_elem_of_In, filter_In, <- list_elem_of_In. split; [done |]. apply unadmitted_spec; [done | done |]. intros Ha. apply Hd.
  rewrite E. apply (list_elem_of_fmap_2 fst _ (cdUID c, new_grant now GrantDispatch (slHardware (cdSlot c)) (fvProfile (cdView c)))).
  apply elem_of_p_items; [done |]. by exists c.
Qed.

(** C10. Nobody waits unanswered: after a pass, every Planned file that
    competes in it holds a dispatch grant of a class, just made, and no wait
    reason; or it holds none, and a reason why it waits is set for its planner to
    write. *)
Theorem candidates_answered (inp : PassInputs) (now : Time) (l : Ledger) (uid : UID) (e : entry) :
  reachable l -> lgRebuilt l = true -> lgFiles l !! uid = Some e ->
  competes inp now (p_open inp now l) uid (enView e) = true ->
  let l' := (Pass inp now l).2 in
  (exists class, lgGrants l' !! uid = Some (new_grant now GrantDispatch class (fvProfile (enView e))) /\ lgWaits l' !! uid = None) \/
  ((forall g, lgGrants l' !! uid = Some g -> gnKind g = GrantGraftSlot) /\
   exists w, lgWaits l' !! uid = Some w /\ wtCause w ∈ [ReasonWaitingForGPU; ReasonPoolDraining; ReasonWaitingForSlot]).
Proof using named_plain.
  intros Hreach Hr He Hc. pose proof (reachable_sound l Hreach) as Hs. cbv zeta. rewrite Pass_eq by done. cbn [snd]. set (l1 := p_open inp now l) in *.
  assert (sound l1) as Hs1 by by apply p_open_sound.
  assert (lgFiles l1 !! uid = Some e) as He1.
  { unfold l1, p_open. rewrite (st_files (pass_open inp now l)) by apply reroute_calm. by destruct (pass_open_spec inp now l) as (-> & _). }
  destruct (decide (uid ∈ (p_items inp now l1).*1)) as [Hd | Hd]; [left; by apply answered_granted |].
  destruct (p_done_spec inp now l1 Hs1) as (_ & _ & Hg & Hn & Hu & Hw). destruct (p_wait_spec inp now l1 uid Hs1) as [W1 _].
  right. destruct W1 as (w & Hwf & Ew).
  { apply ungranted_waits; [done | | done]. apply (list_elem_of_fmap_2 cdUID _ (candidate_of inp uid e)), candidates_spec. by exists uid, e. }
  split; [| exists w; by rewrite Hw]. intros g. rewrite Hg, issue_lookup by done. apply competes_ungranted in Hc as (Hnone & Hph & _).
  intros [Hin | [_ Hin]]; [| congruence]. unfold p_grants in Hin. rewrite !list.elem_of_app in Hin. destruct Hin as [Hin | [Hin | Hin]].
  - exfalso. apply Hd. exact (list_elem_of_fmap_2 fst _ _ Hin).
  - exfalso. apply elem_of_fill_items in Hin as (name & f & _ & _ & Hf & Hb); [| by apply p_wait_uids].
    rewrite (st_files _ _ (p_wait_still inp now l1)) in Hf. assert (f = e) as -> by congruence.
    unfold inBacklogLocked in Hb. rewrite Hph in Hb. cbn in Hb. by rewrite !andb_false_r in Hb.
  - by apply elem_of_graft_items in Hin as (-> & _).
Qed.

(** ** The window *)

(** Whether a walk of the files counts [x] for [p]. *)
Definition counted {A} l (profiles : gmap string A) (p : string) (x : UID * entry) : bool :=
  let v := enView x.2 in
  if windowPhase (fvPhase v) && bool_decide (is_Some (profiles !! fvProfile v)) then String.eqb (fvProfile v) p
  else match lgGrants l !! x.1 with
       | Some g => bool_decide (gnKind g = GrantWindow) && String.eqb (gnProfile g) p
       | None => false
       end.

Lemma openCounts_spec {A} l (profiles : gmap string A) p : is_Some (profiles !! p) ->
  at_ (openCounts l profiles) p = Z.of_nat (length (List.filter (counted l profiles p) (range (lgFiles l)))).
Proof.
  intros Hp. unfold openCounts. set (init := (fun _ => 0) <$> profiles).
  assert (at_ init p = 0) as Hi by (unfold init, at_; rewrite lookup_fmap; by destruct (profiles !! p)).
  assert (forall q, is_Some (init !! q) <-> is_Some (profiles !! q)) as Hd.
  { intros q. unfold init. rewrite lookup_fmap. destruct (profiles !! q); split; try done; intros [? ?]; done. }
  clearbody init. enough (forall out : gmap string Z, (forall q, is_Some (out !! q) <-> is_Some (profiles !! q)) -> forall xs : list (string * entry),
    at_ (fold_left (count_open l) xs out) p = at_ out p + Z.of_nat (length (List.filter (counted l profiles p) xs))) as He.
  { rewrite (He init Hd). lia. }
  clear init Hi Hd. intros out Hd xs. revert out Hd. induction xs as [| [u e] xs IH]; intros out Hd; cbn [fold_left List.filter]; [cbn; lia |].
  assert (forall q n, out !! q = Some n -> (forall r, is_Some (<[q := n + 1]> out !! r) <-> is_Some (profiles !! r)) /\
    at_ (<[q := n + 1]> out) p = at_ out p + if String.eqb q p then 1 else 0) as Hins.
  { intros q n Hq. split.
    - intros r. rewrite <- Hd. destruct (decide (q = r)) as [-> | Hne]; [rewrite lookup_insert_eq, Hq | rewrite lookup_insert_ne by done; done].
      split; intros _; by eexists.
    - unfold at_. destruct (String.eqb_spec q p) as [-> | Hne]; [rewrite lookup_insert_eq, Hq; cbn; lia |].
      rewrite lookup_insert_ne by done. lia. }
  set (out' := count_open l out (u, e)).
  assert ((forall r, is_Some (out' !! r) <-> is_Some (profiles !! r)) /\ at_ out' p = at_ out p + if counted l profiles p (u, e) then 1 else 0) as [Hd' Ha].
  { assert (forall o : gmap string Z, o = (match lgGrants l !! u with
        | Some g => if bool_decide (gnKind g = GrantWindow) then match out !! gnProfile g with Some n => <[gnProfile g := n + 1]> out | None => out end else out
        | None => out end) -> (forall r, is_Some (o !! r) <-> is_Some (profiles !! r)) /\
        at_ o p = at_ out p + if match lgGrants l !! u with Some g => bool_decide (gnKind g = GrantWindow) && String.eqb (gnProfile g) p | None => false end then 1 else 0) as Hgr.
    { intros o ->. destruct (lgGrants l !! u) as [g |]; [| split; [done | lia]]. case_bool_decide; cbn [andb]; [| split; [done | lia]].
      destruct (out !! gnProfile g) as [n |] eqn:E; [by apply Hins |]. split; [done |].
      destruct (String.eqb_spec (gnProfile g) p) as [<- |]; [| lia]. apply Hd in Hp as [? ?]. congruence. }
    unfold out', count_open, counted. cbn [fst snd]. destruct (out !! fvProfile (enView e)) as [n |] eqn:E.
    - rewrite (bool_decide_eq_true_2 (is_Some (profiles !! _))) by (apply Hd; by eexists). rewrite andb_true_r.
      destruct (windowPhase (fvPhase (enView e))); [by apply Hins | by apply Hgr].
    - rewrite (bool_decide_eq_false_2 (is_Some (profiles !! _))) by (rewrite <- Hd, E; by intros [? ?]). rewrite andb_false_r. by apply Hgr. }
  rewrite (IH out' Hd'), Ha. destruct (counted l profiles p (u, e)); cbn [length]; lia.
Qed.

Lemma length_filter_union {A} (f g : string * A -> bool) (us : list string) (xs : list (string * A)) :
  NoDup xs.*1 -> NoDup us -> (forall u, u ∈ us -> u ∈ xs.*1) ->
  (forall x, x ∈ xs -> g x = f x || bool_decide (x.1 ∈ us)) -> (forall x, x ∈ xs -> x.1 ∈ us -> f x = false) ->
  length (List.filter g xs) = (length (List.filter f xs) + length us)%nat.
Proof.
  intros Hx Hu Hsub Hg Hf. assert (us ≡ₚ (List.filter (fun x => bool_decide (x.1 ∈ us)) xs).*1) as Hp.
  { apply NoDup_Permutation; [done | by apply (NoDup_fmap_filter fst) |]. intros u. rewrite list_elem_of_fmap. split.
    - intros Hi. pose proof (Hsub u Hi) as Hj. apply list_elem_of_fmap in Hj as (x & -> & Hj). exists x. split; [done |].
      rewrite list_elem_of_In, filter_In, <- list_elem_of_In. split; [done |]. by apply bool_decide_eq_true.
    - intros (x & -> & Hi). rewrite list_elem_of_In in Hi. apply filter_In in Hi as [_ Hi]. by apply bool_decide_eq_true in Hi. }
  rewrite Hp at 1. rewrite length_fmap. clear Hp Hsub Hx Hu. induction xs as [| x xs IH]; cbn; [done |].
  rewrite (Hg x) by (by left). specialize (IH (fun y Hy => Hg y ltac:(by right)) (fun y Hy => Hf y ltac:(by right))).
  case_bool_decide as E; [rewrite (Hf x ltac:(by left) E) | rewrite orb_false_r; destruct (f x)]; cbn; lia.
Qed.

Lemma p_wait_counts inp now l p : sound l -> is_Some (piProfiles inp !! p) ->
  at_ (openCounts (p_wait inp now l) (piProfiles inp)) p = at_ (openCounts l (piProfiles inp)) p.
Proof using named_plain.
  intros Hs Hp. rewrite !openCounts_spec by done. rewrite (st_files _ _ (p_wait_still inp now l)). do 2 f_equal.
  apply filter_ext_elem. intros [u e] Hi%elem_of_range. unfold counted. cbn [fst snd].
  assert (lgGrants (p_wait inp now l) = issue (p_items inp now l) (lgGrants l)) as ->.
  { assert (quiet (p_dispatch inp now l) (p_wait inp now l)) as (_ & -> & _) by apply waitReasons_quiet. apply grantDispatch_spec. }
  destruct (decide (u ∈ (p_items inp now l).*1)) as [Hu | Hu]; [| by rewrite issue_other].
  apply p_items_planned in Hu as (f & Hf & Hc); [| done]. assert (f = e) as -> by congruence.
  apply competes_ungranted in Hc as (_ & Hph & _ & Hin). by rewrite Hph, bool_decide_eq_true_2.
Qed.

Lemma elem_of_fill_uids {A} l (profiles : gmap string A) now p u e : filed_uids l -> is_Some (profiles !! p) ->
  lgFiles l !! u = Some e -> inBacklogLocked l u e p now = true ->
  u ∈ (fill_items l profiles now).*1 <-> u ∈ (window_items l now (openCounts l profiles) p).*1.
Proof.
  intros Hf [a Hp] He Hb. split.
  - intros ([v g] & -> & Hi)%list_elem_of_fmap. unfold fill_items in Hi. rewrite list_elem_of_In, in_flat_map in Hi.
    destruct Hi as ([q b] & Hq & Hi). apply list_elem_of_In in Hi. pose proof Hi as Hj.
    apply elem_of_window_items in Hj as (_ & f & Hv & Hbf); [| done]. cbn in *. assert (f = e) as -> by congruence.
    unfold inBacklogLocked in *. bools. assert (q = p) as -> by congruence. exact (list_elem_of_fmap_2 fst _ _ Hi).
  - intros ([v g] & -> & Hi)%list_elem_of_fmap. apply (list_elem_of_fmap_2 fst _ (v, g)). unfold fill_items.
    rewrite list_elem_of_In, in_flat_map. exists (p, a). split; [by apply list_elem_of_In, elem_of_range | by apply list_elem_of_In].
Qed.

(** What a pass grants after its dispatches. *)
Definition p_later inp now l : list (UID * grant) :=
  fill_items (p_wait inp now l) (piProfiles inp) now ++ graft_items inp (p_window inp now l) now.

Lemma p_later_spec inp now l : sound l ->
  lgGrants (p_done inp now l) = issue (p_later inp now l) (lgGrants (p_wait inp now l)) /\ NoDup (p_later inp now l).*1 /\
  (forall u, u ∈ (p_later inp now l).*1 -> lgGrants (p_wait inp now l) !! u = None).
Proof using named_plain.
  intros Hs. destruct (p_done_spec inp now l Hs) as (_ & _ & Hg & Hn & Hu & _).
  assert (lgGrants (p_wait inp now l) = issue (p_items inp now l) (lgGrants l)) as Gw.
  { assert (quiet (p_dispatch inp now l) (p_wait inp now l)) as (_ & -> & _) by apply waitReasons_quiet. apply grantDispatch_spec. }
  unfold p_grants in *. fold (p_later inp now l) in Hg, Hn, Hu. rewrite fmap_app in Hn, Hu. apply list.NoDup_app in Hn as (_ & Hd & Hn). split_and!.
  - by rewrite Hg, issue_app, Gw.
  - done.
  - intros u Hi. rewrite Gw, issue_other by (intros Hj; by apply (Hd u)). apply Hu. rewrite list.elem_of_app. by right.
Qed.

(** A walk of the files counts the places just given, and no others. *)
Lemma counted_after inp now l p u e : sound l -> is_Some (piProfiles inp !! p) -> lgFiles l !! u = Some e ->
  let lw := p_wait inp now l in let us := (window_items lw now (openCounts lw (piProfiles inp)) p).*1 in
  counted (p_done inp now l) (piProfiles inp) p (u, e) = counted lw (piProfiles inp) p (u, e) || bool_decide (u ∈ us) /\
  (u ∈ us -> counted lw (piProfiles inp) p (u, e) = false).
Proof using named_plain.
  intros Hs Hp Hi lw us. destruct (p_later_spec inp now l Hs) as (Hg & Hn & Hnone). fold lw in Hg, Hnone.
  pose proof (p_wait_uids inp now l Hs) as Huid. fold lw in Huid.
  rewrite <- (st_files _ _ (p_wait_still inp now l)) in Hi. fold lw in Hi. unfold counted. cbn [fst snd]. rewrite Hg.
  destruct (decide (u ∈ us)) as [Hu | Hu].
  - rewrite (bool_decide_eq_true_2 (u ∈ us)), orb_true_r by done. unfold us in Hu. apply list_elem_of_fmap in Hu as ([v g] & E & Hu). cbn in E. subst v.
    pose proof Hu as Hw. apply elem_of_window_items in Hw as (-> & f & Hf & Hb); [| done]. assert (f = e) as -> by congruence.
    unfold inBacklogLocked in Hb. bools. match goal with E : windowPhase _ = false |- _ => rewrite E end. cbn [andb].
    match goal with E : lgGrants lw !! u = None |- _ => rewrite E end. split; [| done].
    rewrite (issue_in _ _ u (new_grant now GrantWindow "" p)); [cbn; by rewrite String.eqb_refl | done |].
    unfold p_later. rewrite list.elem_of_app. left. unfold fill_items. rewrite list_elem_of_In, in_flat_map. destruct Hp as [a Hp].
    exists (p, a). split; [by apply list_elem_of_In, elem_of_range | by apply list_elem_of_In].
  - rewrite (bool_decide_eq_false_2 (u ∈ us)), orb_false_r by done. split; [| done]. case_match; [done |].
    destruct (decide (u ∈ (p_later inp now l).*1)) as [Hx | Hx]; [| by rewrite issue_other].
    rewrite (Hnone u Hx). apply list_elem_of_fmap in Hx as ([v g] & E & Hx). cbn in E. subst v. rewrite (issue_in _ _ u g) by done.
    apply list.elem_of_app in Hx as [Hx | Hx]; [| by apply elem_of_graft_items in Hx as (-> & _)].
    pose proof Hx as Hy. apply elem_of_fill_items in Hy as (q & f & Hq & -> & Hf & Hb); [| done]. cbn.
    destruct (String.eqb_spec q p) as [-> | Hne]; [| done]. exfalso. apply Hu.
    apply (elem_of_fill_uids lw (piProfiles inp) now p u f); [done | done | done | done |]. exact (list_elem_of_fmap_2 fst _ _ Hx).
Qed.

(** The places a profile's files take in a pass: as many as the window has, or
    the backlog. *)
Lemma p_done_counts inp now l p : sound l -> is_Some (piProfiles inp !! p) ->
  at_ (openCounts (p_done inp now l) (piProfiles inp)) p =
  at_ (openCounts l (piProfiles inp)) p +
  Z.of_nat (length (window_items (p_wait inp now l) now (openCounts (p_wait inp now l) (piProfiles inp)) p)).
Proof using named_plain.
  intros Hs Hp. rewrite <- (p_wait_counts inp now l p Hs Hp). destruct (p_done_spec inp now l Hs) as (Hst & _).
  pose proof (p_wait_uids inp now l Hs) as Huid. pose proof (st_files _ _ (p_wait_still inp now l)) as Fw.
  rewrite !openCounts_spec by done. rewrite (st_files _ _ Hst), Fw, <- Nat2Z.inj_add. f_equal. rewrite <- (length_fmap fst (window_items _ _ _ _)).
  apply length_filter_union.
  - apply NoDup_range.
  - by apply window_items_uids.
  - intros u ([v g] & -> & Hi)%list_elem_of_fmap. apply elem_of_window_items in Hi as (_ & e & He & _); [| done].
    apply (list_elem_of_fmap_2 fst _ (v, e)). apply elem_of_range. by rewrite <- Fw.
  - intros [u e] Hi%elem_of_range. by apply counted_after.
  - intros [u e] Hi%elem_of_range. by apply counted_after.
Qed.

(** In the code's own count and backlog. *)
Lemma p_done_window inp now l (p : string) : sound l -> is_Some (piProfiles inp !! p) ->
  let before := at_ (openCounts l (piProfiles inp)) p in
  let after := at_ (openCounts (p_done inp now l) (piProfiles inp)) p in
  (0 < lgWindow l -> after <= Z.max before (lgWindow l)) /\
  (lgWindow l <= 0 \/ after < lgWindow l ->
    List.filter (fun x => inBacklogLocked (p_done inp now l) x.1 x.2 p now) (range (lgFiles l)) = []).
Proof using named_plain.
  intros Hs1 Hp. cbv zeta. rename l into l1. set (lw := p_wait inp now l1).
  assert (lgWindow lw = lgWindow l1) as Ew by (apply (st_window _ _ (p_wait_still inp now l1))).
  pose proof (p_done_counts inp now l1 p Hs1 Hp) as Hc. rewrite <- (p_wait_counts inp now l1 p Hs1 Hp) in Hc |- *. fold lw in Hc |- *.
  rewrite Hc. unfold window_items. rewrite Ew, length_fmap, length_take. split.
  { intros Hw. rewrite (proj2 (Z.ltb_lt 0 (lgWindow l1)) Hw). lia. }
  intros Hfree. destruct (p_done_spec inp now l1 Hs1) as (Hst & Hb & _). destruct (p_later_spec inp now l1 Hs1) as (Hg & Hn & Hnone). fold lw in Hg, Hnone.
  pose proof (p_wait_uids inp now l1 Hs1) as Huid. fold lw in Huid.
  assert (lgFiles (p_done inp now l1) = lgFiles lw) as Ef by (rewrite (st_files _ _ Hst); symmetry; apply p_wait_still).
  assert (lgBackoffs (p_done inp now l1) = lgBackoffs lw) as Eb.
  { rewrite Hb. assert (quiet (p_dispatch inp now l1) lw) as (_ & _ & ->) by apply waitReasons_quiet. symmetry. apply grantDispatch_spec. }
  rewrite <- (st_files _ _ (p_wait_still inp now l1)). fold lw.
  destruct (List.filter _ _) as [| [u e] xs] eqn:E; [done |]. exfalso.
  assert (In (u, e) (List.filter (fun x => inBacklogLocked (p_done inp now l1) x.1 x.2 p now) (range (lgFiles lw)))) as Hin by (rewrite E; by left).
  apply filter_In in Hin as [Hi Hbl]. apply list_elem_of_In, elem_of_range in Hi. cbn in Hbl.
  assert (u ∉ (p_later inp now l1).*1) as Hu.
  { intros ([v g] & -> & Hj)%list_elem_of_fmap. cbn in *. unfold inBacklogLocked in Hbl. rewrite Hg, (issue_in _ _ v g) in Hbl by done. bools. done. }
  assert (inBacklogLocked lw u e p now = true) as Hbw.
  { rewrite <- Hbl. unfold inBacklogLocked, onBackoffLocked. by rewrite Hg, issue_other, Eb. }
  apply Hu. unfold p_later. fold lw. rewrite fmap_app, list.elem_of_app. left.
  apply (elem_of_fill_uids lw (piProfiles inp) now p u e); [done | done | done | done |].
  assert (e ∈ backlogLocked lw p now) as He by (apply elem_of_backlog; [done | by exists u]).
  unfold window_items. rewrite <- list_fmap_compose. apply list_elem_of_fmap. exists e. split; [symmetry; by apply Huid |].
  rewrite take_ge; [done |]. rewrite Ew. destruct (Z.ltb_spec 0 (lgWindow l1)); [lia | done].
Qed.

(** *** The window, of the data alone *)

Definition window_phases : list string := ["Pending"; "Planned"; "Queued"; "Running"; "Swapping"].

Lemma windowPhase_iff ph : windowPhase ph = true <-> ph ∈ window_phases.
Proof.
  unfold windowPhase, window_phases. rewrite !orb_true_iff, !String.eqb_eq, !list.elem_of_cons, list.elem_of_nil.
  unfold TranscodePhasePending, TranscodePhasePlanned, TranscodePhaseQueued, TranscodePhaseRunning, TranscodePhaseSwapping. tauto.
Qed.

(** A file takes a place in [p]'s window: its block is in a window phase, of
    that profile; or, unless its block has its place in another profile listed,
    it holds an invitation there that is taken or has not expired. *)
Definition takes_place (profiles : gmap string ProfileView) (now : Time) l (p : string) (x : UID * entry) : Prop :=
  let v := enView x.2 in
  if decide (fvPhase v ∈ window_phases /\ is_Some (profiles !! fvProfile v)) then fvProfile v = p
  else match lgGrants l !! x.1 with
       | Some g => gnKind g = GrantWindow /\ gnProfile g = p /\ (gnInUse g = true \/ now < gnExpires g)
       | None => False
       end.

#[export] Instance takes_place_dec profiles now l p x : Decision (takes_place profiles now l p x).
Proof. unfold takes_place. cbv zeta. case_decide; [apply _ |]. destruct (lgGrants l !! x.1); apply _. Defined.

Definition window_taken (profiles : gmap string ProfileView) (now : Time) l (p : string) : Z :=
  Z.of_nat (size (filter (takes_place profiles now l p) (lgFiles l))).

(** A file [p] might invite: eligible, of that profile, out of the window,
    without a verdict on it, a grant or a backoff to wait out. *)
Definition invitable (now : Time) l (p : string) (u : UID) (e : entry) : Prop :=
  let v := enView e in
  fvProfile v = p /\ fvEligible v = true /\ fvPhase v ∉ window_phases /\ fvVerdictHolds v = false /\
  lgGrants l !! u = None /\ forall b, lgBackoffs l !! u = Some b -> boUntil b <= now.

(** The order of the invitations: the higher priority, then the lower key. *)
Definition invited_first (e f : entry) : Prop :=
  fvPriority (enView f) < fvPriority (enView e) \/
  (fvPriority (enView e) = fvPriority (enView f) /\ String.ltb (enKey e) (enKey f) = true).

Lemma inBacklog_iff l u e p now : inBacklogLocked l u e p now = true <-> invitable now l p u e.
Proof.
  unfold inBacklogLocked, invitable, onBackoffLocked. cbv zeta.
  rewrite !andb_true_iff, !negb_true_iff, String.eqb_eq, bool_decide_eq_true, <- windowPhase_iff, not_true_iff_false.
  assert (match lgBackoffs l !! u with Some b => Before now (boUntil b) | None => false end = false <->
    forall b, lgBackoffs l !! u = Some b -> boUntil b <= now) as ->; [| tauto].
  destruct (lgBackoffs l !! u) as [b |]; [| done]. unfold Before. rewrite Z.ltb_ge. split; [by intros ? ? [= <-] | intros Hb; by apply Hb].
Qed.

Lemma filter_range {V} (p : UID * V -> bool) (P : UID * V -> Prop) `{!forall x, Decision (P x)} (m : gmap UID V) :
  (forall u v, m !! u = Some v -> p (u, v) = true <-> P (u, v)) ->
  length (List.filter p (range m)) = size (filter P m).
Proof.
  intros Hp. rewrite (filter_length_perm p _ _ (range_perm m)), <- length_map_to_list, map_to_list_filtered.
  assert (forall x, x ∈ map_to_list m -> p x = true <-> P x) as Hx by (intros [u v] Hi%elem_of_map_to_list; by apply Hp).
  induction (map_to_list m) as [| x xs IH]; [done |]. rewrite filter_cons_length. cbn [List.filter].
  specialize (IH (fun y Hy => Hx y ltac:(by right))). specialize (Hx x ltac:(by left)). destruct (decide (P x)) as [Hy | Hy].
  - rewrite (proj2 Hx Hy). cbn. lia.
  - destruct (p x); [by exfalso; apply Hy, Hx | done].
Qed.

(** Where every grant is alive, the code's count is that. *)
Lemma openCounts_taken (profiles : gmap string ProfileView) now l p : is_Some (profiles !! p) ->
  (forall u g, lgGrants l !! u = Some g -> grant_lives g now = true) ->
  at_ (openCounts l profiles) p = window_taken profiles now l p.
Proof.
  intros Hp Hl. rewrite openCounts_spec by done. unfold window_taken. f_equal. apply filter_range. intros u e _.
  unfold counted, takes_place. cbn [fst snd]. destruct (windowPhase (fvPhase (enView e)) && _) eqn:E.
  - apply andb_true_iff in E as [E1 E2]. apply bool_decide_eq_true in E2. rewrite decide_True by (by rewrite <- windowPhase_iff).
    by rewrite String.eqb_eq.
  - rewrite decide_False by (rewrite <- windowPhase_iff; intros [E1 E2]; by rewrite E1, bool_decide_eq_true_2 in E).
    destruct (lgGrants l !! u) as [g |] eqn:Eg; [| done]. rewrite andb_true_iff, bool_decide_eq_true, String.eqb_eq.
    pose proof (proj1 (grant_lives_iff g now) (Hl u g Eg)). tauto.
Qed.

Lemma p_open_taken inp now l p : sound l ->
  window_taken (piProfiles inp) now (p_open inp now l) p = window_taken (piProfiles inp) now l p.
Proof.
  intros Hs. unfold window_taken. rewrite p_open_files. do 2 f_equal. apply map_filter_ext. intros u e _. unfold takes_place. cbn [fst snd].
  case_decide; [done |]. destruct (p_open_grants inp now l u Hs) as [-> _]. destruct (lgGrants l !! u) as [g |]; cbn; [| done].
  destruct (grant_lives g now) eqn:E; [done |]. split; [done |]. intros (_ & _ & Hl). apply grant_lives_iff in Hl. congruence.
Qed.

Lemma p_open_live inp now l u g : sound l -> lgGrants (p_open inp now l) !! u = Some g -> grant_lives g now = true.
Proof.
  intros Hs. destruct (p_open_grants inp now l u Hs) as [-> _]. destruct (lgGrants l !! u) as [h |]; cbn; [| done].
  destruct (grant_lives h now) eqn:E; [| done]. by intros [= <-].
Qed.

Lemma p_done_live inp now l u g : sound l -> (forall u g, lgGrants l !! u = Some g -> grant_lives g now = true) ->
  lgGrants (p_done inp now l) !! u = Some g -> grant_lives g now = true.
Proof using named_plain.
  intros Hs Hl. destruct (p_done_spec inp now l Hs) as (_ & _ & -> & Hn & _). rewrite issue_lookup by done.
  intros [Hi | [_ Hi]]; [| by apply (Hl u)]. apply p_grants_kind in Hi as (k & c & q & _ & ->); [| done].
  apply grant_lives_iff. right. unfold new_grant, Add, grantTTL, Minute. cbn. lia.
Qed.

(** Who is new in [p]'s window was the best of its backlog. *)
Lemma p_done_best inp now l u e g : sound l -> lgFiles l !! u = Some e -> lgGrants l !! u = None ->
  lgGrants (p_done inp now l) !! u = Some g -> gnKind g = GrantWindow ->
  is_Some (piProfiles inp !! gnProfile g) /\ invitable now l (gnProfile g) u e /\
  forall v f, lgFiles l !! v = Some f -> invitable now (p_done inp now l) (gnProfile g) v f -> invited_first e f.
Proof using named_plain.
  intros Hs He Hnone Hg Hk. destruct (p_done_spec inp now l Hs) as (Hst & Hb & Hgr & Hn & Hu & _). rewrite Hgr, issue_lookup in Hg by done.
  destruct Hg as [Hg | [_ Hg]]; [| congruence]. pose proof (p_wait_uids inp now l Hs) as Huid. set (lw := p_wait inp now l) in *.
  assert (lgFiles lw = lgFiles l) as Fw by apply (st_files _ _ (p_wait_still inp now l)).
  assert (lgBackoffs lw = lgBackoffs l) as Bw.
  { assert (quiet (p_dispatch inp now l) lw) as (_ & _ & ->) by apply waitReasons_quiet. apply grantDispatch_spec. }
  pose proof Hg as Hi. unfold p_grants in Hi. rewrite !list.elem_of_app in Hi. destruct Hi as [Hi | [Hi | Hi]].
  { apply elem_of_p_items in Hi as (c & _ & _ & _ & ->); [| done]. done. }
  2:{ by apply elem_of_graft_items in Hi as (-> & _). }
  fold lw in Hi. pose proof Hi as Hj. apply elem_of_fill_items in Hj as (p & e' & Hp & -> & He' & Hbl); [| done]. cbn [gnProfile new_grant] in *.
  assert (e' = e) as -> by congruence. split; [done |]. split.
  { apply inBacklog_iff. unfold inBacklogLocked, onBackoffLocked in *. rewrite Bw in Hbl. bools. subst p.
    rewrite Hnone. rewrite String.eqb_refl. repeat match goal with E : _ = true |- _ => rewrite E | E : _ = false |- _ => rewrite E end. done. }
  intros v f Hf Hinv. apply inBacklog_iff in Hinv.
  assert (u ∈ (window_items lw now (openCounts lw (piProfiles inp)) p).*1) as Hw.
  { apply (elem_of_fill_uids lw (piProfiles inp) now p u e); try done. exact (list_elem_of_fmap_2 fst _ _ Hi). }
  assert (lgGrants (p_done inp now l) !! v = None) as Hv by (unfold inBacklogLocked in Hinv; bools; done).
  assert (v ∉ (p_grants inp now l).*1) as Hvn.
  { intros ([w h] & -> & Hx)%list_elem_of_fmap. rewrite Hgr, (issue_in _ _ w h) in Hv; done. }
  assert (inBacklogLocked lw v f p now = true) as Hvw.
  { rewrite <- Hinv. unfold inBacklogLocked, onBackoffLocked. destruct (p_later_spec inp now l Hs) as (Hgl & _). fold lw in Hgl.
    rewrite Hgl, issue_other, Hb, Bw; [done |]. intros Hx. apply Hvn. unfold p_grants. rewrite fmap_app, list.elem_of_app. by right. }
  apply list_elem_of_fmap in Hw as ([w h] & Ew & Hw). cbn in Ew. subst w. unfold window_items in Hw.
  apply list_elem_of_fmap in Hw as (e2 & [= Eu Eh] & Hw).
  set (n := if 0 <? lgWindow lw then _ else _) in *. set (bs := backlogLocked lw p now) in *.
  assert (e2 = e) as ->.
  { assert (e2 ∈ bs) as Hx by (by eapply sublist_subseteq; [apply sublist_take |]). apply elem_of_backlog in Hx as (w & Hx & _); [| done].
    pose proof (Huid w e2 Hx). congruence. }
  assert (f ∉ take n bs) as Hnf.
  { intros Hx. apply Hvn. unfold p_grants. rewrite fmap_app, list.elem_of_app. right. rewrite fmap_app, list.elem_of_app. left. fold lw.
    apply (elem_of_fill_uids lw (piProfiles inp) now p v f); try done; [congruence |].
    unfold window_items. fold bs n. rewrite <- list_fmap_compose. apply list_elem_of_fmap. exists f. split; [| done]. cbn. symmetry. apply Huid. congruence. }
  assert (f ∈ bs) as Hfb by (apply elem_of_backlog; [done | exists v; split; [congruence | done]]).
  set (slot := fun e => mkSlot (enKey e) "" "" (fvPriority (enView e)) 0).
  assert (StronglySorted (fun x y => AdmitsBefore (slot x) (slot y) = true) bs) as Hsort.
  { apply (sorted_by slot). apply (NoDup_fmap_2_strong (fun e => enKey e)).
    - intros x y Hx Hy E. rewrite list_elem_of_fmap in Hx, Hy. destruct Hx as ([a ?] & -> & Hx), Hy as ([b ?] & -> & Hy).
      rewrite list_elem_of_In, filter_In, <- list_elem_of_In, elem_of_range, Fw in Hx, Hy. cbn in *.
      assert (a = b) as -> by (eapply filed_key_inj; [done | apply Hx | apply Hy | done]). destruct Hx, Hy. congruence.
    - apply (NoDup_fmap_1 (fun e => fvUID (enView e))). pose proof (backlog_uids lw p now Huid) as Hbu. unfold backlogLocked in Hbu.
      match type of Hbu with NoDup (_ <$> SliceStable _ ?xs) =>
        assert (SliceStable backlogBefore xs ≡ₚ xs) as Hp2 by apply (SliceStable_perm slot xs) end. by rewrite Hp2 in Hbu. }
  assert (AdmitsBefore (slot e) (slot f) = true) as Hlt.
  { by apply (sorted_take (fun x y => AdmitsBefore (slot x) (slot y) = true) bs n). }
  apply AdmitsBefore_spec in Hlt. cbn in Hlt. unfold invited_first. destruct Hlt as [? | (? & [? | [_ ?]])]; [by left | lia | by right].
Qed.

(** C14. The window is filled, not overfilled, and fairly. After a pass a
    profile's files, in its window or invited to it, take no more places than
    the window has, or than they took; while a place is free none is left that
    it might invite, eligible, of the profile, out of the window and with no
    verdict, grant or backoff; and who is newly invited is such a file, of a
    higher priority than every one left out, or the lower key at the same. A
    place is counted once, as [openCounts] does and [open] does not
    ([open_counts_differ]): in the window of a listed profile, a file takes its
    place there and not where an invitation names. *)
Theorem window_filled (inp : PassInputs) (now : Time) (l : Ledger) (p : string) :
  reachable l -> lgRebuilt l = true -> is_Some (piProfiles inp !! p) ->
  let l' := (Pass inp now l).2 in
  let before := window_taken (piProfiles inp) now l p in
  let after := window_taken (piProfiles inp) now l' p in
  (0 < lgWindow l -> after <= Z.max before (lgWindow l)) /\
  (lgWindow l <= 0 \/ after < lgWindow l -> forall u e, lgFiles l' !! u = Some e -> ~ invitable now l' p u e) /\
  (forall u e g, lgFiles l !! u = Some e -> lgGrants l !! u = None -> lgGrants l' !! u = Some g ->
    gnKind g = GrantWindow -> gnProfile g = p ->
    invitable now l p u e /\ forall v f, lgFiles l !! v = Some f -> invitable now l' p v f -> invited_first e f).
Proof using named_plain.
  intros Hreach Hr Hp. pose proof (reachable_sound l Hreach) as Hs. cbv zeta. rewrite Pass_eq by done. cbn [snd].
  pose proof (p_open_taken inp now l p Hs) as Et. pose proof (p_open_files inp now l) as Ef. pose proof (p_open_backoffs inp now l) as Hb.
  pose proof (p_open_grants inp now l) as Hg. pose proof (p_open_sound inp now l Hs) as Hs1.
  assert (lgWindow (p_open inp now l) = lgWindow l) as Ew.
  { unfold p_open. rewrite (st_window (pass_open inp now l)) by apply reroute_calm. by destruct (pass_open_spec inp now l) as (_ & _ & _ & _ & ? & _). }
  pose proof (p_open_live inp now l) as Hl. set (l1 := p_open inp now l) in *.
  assert (forall u g, lgGrants l1 !! u = Some g -> grant_lives g now = true) as Hl1 by (intros u g; by apply Hl).
  assert (forall u g, lgGrants (p_done inp now l1) !! u = Some g -> grant_lives g now = true) as Hl2 by (intros u g; by apply p_done_live).
  rewrite <- Et, <- Ef, <- Ew, <- (openCounts_taken _ now l1), <- (openCounts_taken _ now (p_done inp now l1)) by done.
  destruct (p_done_window inp now l1 p Hs1 Hp) as [H1 H2]. destruct (p_done_spec inp now l1 Hs1) as (Hst & _). split_and!; [done | |].
  - intros Hfree u e He Hinv. rewrite (st_files _ _ Hst) in He. specialize (H2 Hfree).
    assert ((u, e) ∈ List.filter (fun x => inBacklogLocked (p_done inp now l1) x.1 x.2 p now) (range (lgFiles l1))) as Hx.
    { rewrite list_elem_of_In, filter_In, <- list_elem_of_In, elem_of_range. split; [done |]. by apply inBacklog_iff. }
    rewrite H2 in Hx. by apply not_elem_of_nil in Hx.
  - intros u e g He Hnone Hgr Hk Hpr. destruct (Hg u Hs) as [Hg1 _]. rewrite Hnone in Hg1. cbn in Hg1.
    destruct (p_done_best inp now l1 u e g Hs1 He Hg1 Hgr Hk) as (_ & Hinv & Hbest). rewrite Hpr in *. split; [| done].
    destruct Hinv as (? & ? & ? & ? & _ & Hback). unfold invitable. split_and!; try done. intros b Hbk. apply Hback. by rewrite (Hb u Hs Hnone).
Qed.

(** ** A file's view *)

(** [e'] is no older than [e]. *)
Definition no_older (e' e : entry) : Prop := stale (enView e') (enView e) = false.

Lemma no_older_refl e : no_older e e.
Proof. unfold no_older, stale. rewrite Z.ltb_irrefl, Z.eqb_refl, Z.ltb_irrefl. done. Qed.

Lemma stale_ext v w c : fvSeq v = fvSeq w -> fvPhase v = fvPhase w -> stale v c = stale w c.
Proof. unfold stale. by intros -> ->. Qed.

Lemma observe_files v now l uid e : sound l -> fvKey v = named (fvUID v) -> lgFiles l !! uid = Some e ->
  match lgFiles (observeLocked v now l).2 !! uid with
  | Some e' => no_older e' e
  | None => fvUID v <> uid /\ fvKey v = named uid
  end.
Proof.
  intros Hs Hv He. unfold observeLocked. destruct (retire_other_spec v l Hs Hv) as (Hs' & _ & _ & Hu).
  set (l1 := retire_other v l) in *. destruct (Hu uid) as [[Ef _] | (Ef & _ & Hne & Hn)].
  - rewrite He in Ef. destruct (decide (uid = fvUID v)) as [-> | Hne].
    + rewrite Ef. destruct (stale v (enView e)) eqn:E; cbn [snd]; [rewrite Ef; apply no_older_refl |].
      destruct (store_spec v (Some e) now l1) as (-> & _). rewrite lookup_insert_eq. unfold no_older. cbn.
      destruct (filled_same v (Some e) l1) as (_ & _ & F3 & F4). by rewrite (stale_ext _ v).
    + assert (forall cur, lgFiles (storeLocked v cur now l1) !! uid = Some e) as Hst.
      { intros cur. destruct (store_spec v cur now l1) as (-> & _). by rewrite lookup_insert_ne. }
      destruct (lgFiles l1 !! fvUID v) as [c |]; [destruct (stale v (enView c)) |]; cbn [snd]; rewrite ?Hst, ?Ef; apply no_older_refl.
  - assert (forall cur, lgFiles (storeLocked v cur now l1) !! uid = None) as Hst.
    { intros cur. destruct (store_spec v cur now l1) as (-> & _). by rewrite lookup_insert_ne. }
    destruct (lgFiles l1 !! fvUID v) as [c |]; [destruct (stale v (enView c)) |]; cbn [snd]; rewrite ?Hst, ?Ef; done.
Qed.

Lemma signal_files l : lgFiles (signalLocked l) = lgFiles l.
Proof. done. Qed.

Lemma Pass_files inp now l : sound l -> lgFiles (Pass inp now l).2 = lgFiles l.
Proof using named_plain.
  intros Hs. destruct (pass_open_spec inp now l) as (Ef & _ & Er & _). destruct (lgRebuilt l) eqn:Hr.
  - rewrite Pass_eq by done. cbn [snd]. destruct (p_done_spec inp now (p_open inp now l) (p_open_sound inp now l Hs)) as ([-> _ _ _ _ _ _ _] & _).
    unfold p_open. by rewrite (st_files (pass_open inp now l)) by apply reroute_calm.
  - unfold Pass. by rewrite Er.
Qed.

Lemma files_kept o l uid e : sound l -> of_object o -> lgFiles l !! uid = Some e ->
  (forall v started now, o = OQuorum v started now true -> fvUID v = uid -> started <= enObservedAt e) ->
  match lgFiles (run_op o l) !! uid with
  | Some e' => no_older e' e
  | None => o = OForget (named uid) \/ exists v, observed o = Some v /\ fvUID v <> uid /\ fvKey v = named uid
  end.
Proof using named_plain.
  intros Hs Ho He Hq.
  assert (forall v now, observed o = Some v -> lgFiles (run_op o l) = lgFiles (observeLocked v now l).2 ->
    match lgFiles (run_op o l) !! uid with
    | Some e' => no_older e' e
    | None => o = OForget (named uid) \/ exists v, observed o = Some v /\ fvUID v <> uid /\ fvKey v = named uid
    end) as Hobs.
  { intros v now Hov ->. pose proof (observe_files v now l uid e Hs (Ho v Hov) He) as Hf. case_match; [done |]. right. by exists v. }
  assert (lgFiles (run_op o l) = lgFiles l -> match lgFiles (run_op o l) !! uid with
    | Some e' => no_older e' e
    | None => o = OForget (named uid) \/ exists v, observed o = Some v /\ fvUID v <> uid /\ fvKey v = named uid
    end) as Hsame by (intros ->; rewrite He; apply no_older_refl).
  destruct o.
  - by apply (Hobs v now).
  - cbn [run_op]. unfold Forget. destruct (lgByKey l !! key) as [u |] eqn:E; cbn [snd]; [| rewrite He; apply no_older_refl].
    rewrite signal_files. destruct (retire_spec u l) as (-> & _).
    destruct (decide (uid = u)) as [-> | Hne]; [| rewrite lookup_delete_ne, He by done; apply no_older_refl].
    rewrite lookup_delete_eq. left. apply (so_keys l Hs) in E as [-> _]. done.
  - apply Hsame. cbn [run_op]. unfold TakeGrant. destruct (lgGrants l !! uid0) as [g |]; [by destruct (grant_lives g now) | done].
  - by apply Hsame.
  - apply Hsame. cbn [run_op]. unfold Release. by destruct (lgGrants l !! uid0).
  - apply Hsame. cbn [run_op]. unfold ReleaseUnconfirmed. destruct (lgGrants l !! uid0) as [g |]; [by destruct (gnInUse g) | done].
  - apply Hsame. cbn [run_op]. unfold NoteLeaseMissing. destruct missing; cbn [negb]; [by destruct (lgLeaseMissingSince l !! uid0) | done].
  - apply Hsame. cbn [run_op]. unfold PublishFailed. by destruct err.
  - apply Hsame. cbn [run_op]. unfold WithdrawFailed. by destruct err.
  - apply Hsame. cbn [run_op]. unfold Reroute. cbv zeta. unfold enqueueLocked. destruct (lgFiles _ !! uid0); [by destruct (lgWaker _) | done].
  - by apply Hsame.
  - apply Hsame. cbn [run_op]. by apply Pass_files.
  - destruct replace; [| by apply (Hobs v now)]. destruct (lgFiles l !! fvUID v) as [c |] eqn:E.
    + destruct (decide (fvUID v = uid)) as [Eu | Hne].
      * apply (Hobs v now); [done |]. cbn [run_op]. unfold observeQuorum. rewrite E. assert (c = e) as -> by congruence.
        pose proof (Hq v started now eq_refl Eu). assert (Before (enObservedAt e) started = false) as -> by (unfold Before; lia). done.
      * destruct (Before (enObservedAt c) started) eqn:Eb.
        -- cbn [run_op]. unfold observeQuorum. rewrite E, Eb. cbn [negb]. destruct (store_spec v (Some c) now l) as (-> & _).
           rewrite lookup_insert_ne, He by done. apply no_older_refl.
        -- apply (Hobs v now); [done |]. cbn [run_op]. unfold observeQuorum. by rewrite E, Eb.
    + apply (Hobs v now); [done |]. cbn [run_op]. unfold observeQuorum. by rewrite E.
  - by apply (Hobs v now).
  - by apply Hsame.
  - by apply Hsame.
  - by apply Hsame.
  - by apply Hsame.
  - by apply Hsame.
Qed.

(** [v] is older than [w]: of a lower seq, or at the same of an earlier phase,
    Queued before Running and both before the rest. *)
Definition older (v w : FileView) : Prop :=
  fvSeq v < fvSeq w \/
  (fvSeq v = fvSeq w /\
   ((fvPhase v = "Queued" /\ fvPhase w <> "Queued") \/ (fvPhase v = "Running" /\ fvPhase w <> "Queued" /\ fvPhase w <> "Running"))).

Lemma stale_older v w : stale v w = false -> ~ older v w.
Proof.
  unfold stale, older, rank, TranscodePhaseQueued, TranscodePhaseRunning. rewrite orb_false_iff, andb_false_iff, Z.ltb_ge, Z.eqb_neq.
  intros [H1 H2] [H3 | [H3 H4]]; [lia |]. destruct H2 as [? | H2]; [lia |].
  destruct (String.eqb_spec (fvPhase v) "Queued"), (String.eqb_spec (fvPhase w) "Queued");
    destruct (String.eqb_spec (fvPhase v) "Running"), (String.eqb_spec (fvPhase w) "Running"); try lia; intuition congruence.
Qed.

(** C12. A file's recorded view goes only forward: whatever is observed, and in
    whatever order it arrives, it is never replaced by an older one, of a lower
    seq or of an earlier phase at the same seq, save by a resync that began after
    it was observed. The file itself is dropped in two ways only: it is forgotten
    under its name, or a view arrives of another object with its name, however
    old that view is. So a late view of a deleted predecessor does free the slot
    of the file that runs under the name now ([late_predecessor_frees_slot]),
    which the comment on [Observe] rules out. *)
Theorem view_never_goes_back (o : aop) (l : Ledger) (uid : UID) (e : entry) :
  reachable l -> of_object o -> lgFiles l !! uid = Some e ->
  (forall v started now, o = OQuorum v started now true -> fvUID v = uid -> started <= enObservedAt e) ->
  match lgFiles (run_op o l) !! uid with
  | Some e' => ~ older (enView e') (enView e)
  | None => o = OForget (named uid) \/ exists v, observed o = Some v /\ fvUID v <> uid /\ fvKey v = named uid
  end.
Proof using named_plain.
  intros Hr Ho He Hq. pose proof (files_kept o l uid e (reachable_sound l Hr) Ho He Hq) as Hf. case_match; [| done]. by apply stale_older.
Qed.

(** ** A grant's life *)

(** [v] is past what a grant of [kind] was made for: a dispatch grant's file
    is seen again at all; an invitation's is in the window; a graft slot's graft
    is queued, or runs by itself. *)
Definition is_past (kind : GrantKind) (v : FileView) : Prop :=
  match kind with
  | GrantDispatch => True
  | GrantWindow => fvPhase v ∈ window_phases
  | GrantGraftSlot => fvGraftPhase v = "Queued" \/ (fvGraftPhase v = "Running" /\ fvGraftReason v <> "JoinedTranscode")
  | GrantNone => False
  end.

(** [v] is recorded: of its file nothing is, or nothing newer, or a resync began
    after what is. *)
Definition is_recorded (o : aop) l (v : FileView) : Prop :=
  forall c, lgFiles l !! fvUID v = Some c ->
    ~ older v (enView c) \/ exists started now, o = OQuorum v started now true /\ enObservedAt c < started.

(** What the file of a grant just made is: planned and free to start; to be
    invited; or its graft waiting for a slot. *)
Definition earns (inp : PassInputs) (now : Time) l (uid : UID) (e : entry) (kind : GrantKind) (class profile : string) : Prop :=
  let v := enView e in
  match kind with
  | GrantDispatch =>
      fvPhase v = "Planned" /\ fvProfile v = profile /\ class <> "" /\ fvSuspended v = false /\
      (fvNextAttemptAt v = 0 \/ fvNextAttemptAt v <= now) /\ (fvEligibleKnown v = true -> fvEligible v = true) /\
      is_Some (piProfiles inp !! profile)
  | GrantWindow => invitable now l profile uid e /\ class = "" /\ is_Some (piProfiles inp !! profile)
  | GrantGraftSlot =>
      fvGraftPhase v = "Waiting" /\ fvGraftReason v = "WaitingForSlot" /\ fvJoinedGraft v = false /\ class = "" /\ profile = ""
  | GrantNone => False
  end.

(** The ways the grant of [uid] changes. *)
Inductive grant_rule (o : aop) (l : Ledger) (uid : UID) : option grant -> option grant -> Prop :=
  | gr_keep g : grant_rule o l uid g g
  | gr_issued inp now kind class profile e : o = OPass inp now -> lgRebuilt l = true -> lgFiles l !! uid = Some e ->
      (forall b, lgBackoffs l !! uid = Some b -> boUntil b <= now) -> earns inp now l uid e kind class profile ->
      grant_rule o l uid None (Some (mkGrant kind class profile (now + 120 * Second) false))
  | gr_taken now g : o = OTake uid now -> gnInUse g = true \/ now < gnExpires g ->
      grant_rule o l uid (Some g) (Some (mkGrant (gnKind g) (gnClass g) (gnProfile g) (gnExpires g) true))
  | gr_expired inp now g : o = OPass inp now -> gnInUse g = false -> gnExpires g <= now -> grant_rule o l uid (Some g) None
  | gr_spent v g : observed o = Some v -> fvUID v = uid -> is_recorded o l v -> gnInUse g = false -> is_past (gnKind g) v ->
      grant_rule o l uid (Some g) None
  | gr_returned now g : o = OConfirm uid \/ o = ORelease uid now \/ (o = OReleaseUnconfirmed uid /\ gnInUse g = true) ->
      grant_rule o l uid (Some g) None
  | gr_retired g : lgFiles (run_op o l) !! uid = None -> grant_rule o l uid (Some g) None.

Lemma gr_same o l uid g g' : g' = g -> grant_rule o l uid g g'.
Proof. intros ->. constructor. Qed.

Lemma signal_grants l : lgGrants (signalLocked l) = lgGrants l.
Proof. done. Qed.

Lemma p_classes_class inp now l c : c ∈ (p_classes inp now l).1 -> slHardware (cdSlot c) <> "".
Proof.
  unfold p_classes, assignClasses. generalize (SliceStable (fun c d => AdmitsBefore (cdSlot c) (cdSlot d)) (candidatesLocked inp now l).1) as xs.
  intros xs. generalize (free_of (bgSlots (agBudget (assignment inp now l))) (candidatesLocked inp now l).2),
    (tally slProfile (candidatesLocked inp now l).2). induction xs as [| x xs IH]; intros free per; cbn; [by intros ?%not_elem_of_nil |].
  specialize (IH free per) as IH1. destruct (String.eqb_spec (class_of (assignment inp now l) (at_ free) (cdView x)) "") as [E | E].
  { by destruct (assign_loop (assignment inp now l) xs free per). }
  case_match; [by destruct (assign_loop (assignment inp now l) xs free per) |].
  match goal with |- context [let '(_, _) := ?e in _] => destruct e as [qs hs] eqn:Eq end.
  intros [-> | Hi]%list.elem_of_cons; [done |].
  case_match; match type of Eq with assign_loop _ _ ?f ?q = _ => specialize (IH f q) end; rewrite Eq in IH; by apply IH.
Qed.

(** What a pass grants was earned. *)
Lemma p_grants_earned inp now l u g : sound l -> (u, g) ∈ p_grants inp now l ->
  exists e kind class profile, lgFiles l !! u = Some e /\ g = new_grant now kind class profile /\
    (forall b, lgBackoffs l !! u = Some b -> boUntil b <= now) /\ earns inp now l u e kind class profile.
Proof using named_plain.
  intros Hs Hi. destruct (p_done_spec inp now l Hs) as (_ & _ & Hgr & Hn & Hu & _).
  destruct (Hu u) as (Hnone & Hback & [e He]); [by apply (list_elem_of_fmap_2 fst _ (u, g)) |]. exists e.
  assert (forall b, lgBackoffs l !! u = Some b -> boUntil b <= now) as Hbk.
  { intros b Hb. unfold onBackoffLocked in Hback. rewrite Hb in Hback. unfold Before in Hback. lia. }
  pose proof Hi as Hj. unfold p_grants in Hj. rewrite !list.elem_of_app in Hj. destruct Hj as [Hj | [Hj | Hj]].
  - apply elem_of_p_items in Hj as (c & Hc & _ & -> & ->); [| done]. pose proof (p_classes_class inp now l c Hc) as Hcls.
    apply queued_of in Hc as (v & f & Hv & Hcomp & Ec). assert (cdUID c = v) as Ev by (by rewrite Ec). rewrite Ev in *.
    assert (f = e) as -> by congruence. assert (cdView c = enView e) as -> by (by rewrite Ec).
    exists GrantDispatch, (slHardware (cdSlot c)), (fvProfile (enView e)). split_and!; [done | done | done |].
    unfold competes, IsZero, After in Hcomp. bools. unfold earns. split_and!; try done; [| destruct (fvEligibleKnown (enView e)), (fvEligible (enView e)); done].
    destruct (Z.eqb_spec (fvNextAttemptAt (enView e)) 0); [by left | right; cbn in *; lia].
  - pose proof Hj as Hf. apply elem_of_fill_items in Hf as (p & f & Hp & -> & Hf & _); [| by apply p_wait_uids].
    rewrite (st_files _ _ (p_wait_still inp now l)) in Hf. assert (f = e) as -> by congruence.
    exists GrantWindow, "", p. split_and!; [done | done | done |]. split_and!; [| done | done].
    destruct (p_done_best inp now l u e (new_grant now GrantWindow "" p) Hs He Hnone) as (_ & ? & _); [| done | done].
    rewrite Hgr. by apply issue_in.
  - pose proof Hj as Hf. apply elem_of_graft_items in Hf as (-> & _). exists GrantGraftSlot, "", "". split_and!; [done | done | done |].
    apply graft_items_waiting in Hj as (f & Hf & Hw). rewrite (st_files (p_wait inp now l)), (st_files _ _ (p_wait_still inp now l)) in Hf.
    2:{ apply fillWindow_spec. by apply p_wait_uids. }
    assert (f = e) as -> by congruence. unfold earns. tauto.
Qed.

Lemma Pass_rule inp now l uid : sound l ->
  grant_rule (OPass inp now) l uid (lgGrants l !! uid) (lgGrants (Pass inp now l).2 !! uid).
Proof using named_plain.
  intros Hs. destruct (p_open_grants inp now l uid Hs) as [Hg Hb].
  assert (forall g, grant_lives g now = false -> grant_rule (OPass inp now) l uid (Some g) None) as Hexp.
  { intros g E. apply orb_false_iff in E as [E1 E2]. unfold Before in E2. apply (gr_expired _ _ _ inp now); [done | done | lia]. }
  destruct (lgRebuilt l) eqn:Hr.
  - rewrite Pass_eq by done. cbn [snd]. pose proof (p_open_backoffs inp now l uid Hs) as Hbo. pose proof (p_open_files inp now l) as Ef.
    set (l1 := p_open inp now l) in *. assert (sound l1) as Hs1 by by apply p_open_sound.
    destruct (p_done_spec inp now l1 Hs1) as (_ & _ & Hgr & Hn & Hu & _). rewrite Hgr.
    destruct (decide (uid ∈ (p_grants inp now l1).*1)) as [Hi | Hi].
    + destruct (Hu uid Hi) as (Hnone & Hback & _). apply list_elem_of_fmap in Hi as ([v g] & E & Hi). cbn in E. subst v.
      rewrite (issue_in _ _ uid g) by done. destruct (lgGrants l !! uid) as [h |] eqn:E.
      * rewrite Hnone in Hg. cbn in Hg. destruct (grant_lives h now) eqn:El; [done |]. rewrite (Hb h eq_refl El) in Hback. done.
      * destruct (p_grants_earned inp now l1 uid g Hs1 Hi) as (e & kind & class & profile & He & -> & Hbk & Hearn). rewrite (Hbo eq_refl), Ef in *.
        apply (gr_issued _ _ _ inp now kind class profile e); [done | done | done | done |].
        destruct kind; unfold earns, invitable in *; [done | | done | done]. rewrite Hnone, (Hbo eq_refl) in Hearn. by rewrite E.
    + rewrite issue_other, Hg by done. destruct (lgGrants l !! uid) as [h |]; cbn; [| constructor].
      destruct (grant_lives h now) eqn:El; [constructor | by apply Hexp].
  - rewrite (so_rebuilt l Hs Hr), lookup_empty in *. cbn in Hg. unfold Pass.
    destruct (pass_open_spec inp now l) as (_ & _ & -> & _). rewrite Hr. cbn [negb snd].
    destruct (reroute_calm inp now (pass_open inp now l)) as ((_ & E & _) & _). rewrite <- E. fold (p_open inp now l). rewrite Hg. constructor.
Qed.

Lemma spent_past g v cur l : gnKind g <> GrantNone -> grant_spent g (filled v cur l) = true -> is_past (gnKind g) v.
Proof.
  intros Hk. destruct (filled_same v cur l) as (_ & _ & _ & Ep). unfold grant_spent, is_past, graftHoldsSlot, holds_graft. rewrite Ep.
  assert (fvGraftPhase (filled v cur l) = fvGraftPhase v /\ fvGraftReason (filled v cur l) = fvGraftReason v) as [-> ->].
  { unfold filled. destruct cur as [c |]; [destruct (negb (fvEligibleKnown v)) |]; case_match; done. }
  destruct (gnKind g); [done | by rewrite windowPhase_iff | done |].
  rewrite orb_true_iff, andb_true_iff, negb_true_iff, !String.eqb_eq, String.eqb_neq. done.
Qed.

Lemma store_rule o v cur now l l1 uid : sound l -> observed o = Some v -> fvUID v = uid -> is_recorded o l v ->
  lgGrants l1 !! uid = lgGrants l !! uid -> grant_rule o l uid (lgGrants l !! uid) (lgGrants (storeLocked v cur now l1) !! uid).
Proof.
  intros Hs Ho Hu Hr Hg. destruct (store_spec v cur now l1) as (_ & _ & _ & _ & Eg & _). rewrite Eg, bool_decide_eq_true_2, Hg by done.
  destruct (lgGrants l !! uid) as [g |] eqn:E; cbn; [| constructor]. destruct (negb (gnInUse g) && _) eqn:Eu; [| constructor]. bools.
  apply (gr_spent _ _ _ v); try done. eapply spent_past; [by apply (so_grants l Hs uid) | done].
Qed.

Lemma observe_rule o v now l uid : sound l -> observed o = Some v -> fvKey v = named (fvUID v) ->
  lgFiles (run_op o l) = lgFiles (observeLocked v now l).2 -> lgGrants (run_op o l) = lgGrants (observeLocked v now l).2 ->
  grant_rule o l uid (lgGrants l !! uid) (lgGrants (run_op o l) !! uid).
Proof.
  intros Hs Ho Hv Hf ->. unfold observeLocked in *. destruct (retire_other_spec v l Hs Hv) as (_ & _ & _ & Hu).
  set (l1 := retire_other v l) in *.
  assert (lgFiles l1 !! fvUID v = lgFiles l !! fvUID v) as Ev by (by destruct (Hu (fvUID v)) as [[? _] | (_ & _ & ? & _)]).
  assert (forall cur, lgFiles (run_op o l) = lgFiles (storeLocked v cur now l1) -> is_recorded o l v ->
    grant_rule o l uid (lgGrants l !! uid) (lgGrants (storeLocked v cur now l1) !! uid)) as Hst.
  { intros cur Hfs Hrec. destruct (decide (fvUID v = uid)) as [Eu | Hne].
    - apply store_rule; try done. by destruct (Hu uid) as [[_ ?] | (_ & _ & ? & _)].
    - destruct (store_spec v cur now l1) as (Ef & _ & _ & _ & Eg & _). rewrite Eg, bool_decide_eq_false_2 by done.
      destruct (Hu uid) as [[_ ->] | (Efn & -> & _)]; [constructor |]. destruct (lgGrants l !! uid); [| constructor].
      apply gr_retired. by rewrite Hfs, Ef, lookup_insert_ne. }
  assert (lgFiles (run_op o l) = lgFiles l1 -> grant_rule o l uid (lgGrants l !! uid) (lgGrants l1 !! uid)) as Hre.
  { intros Hfs. destruct (Hu uid) as [[_ ->] | (Efn & -> & _)]; [constructor |]. destruct (lgGrants l !! uid); [| constructor].
    apply gr_retired. by rewrite Hfs. }
  rewrite Ev in *. destruct (lgFiles l !! fvUID v) as [c |] eqn:Ec; [destruct (stale v (enView c)) eqn:Es |]; cbn [snd] in *; [by apply Hre | |];
    (apply Hst; [done |]); intros c' Hc'; rewrite Ec in Hc'; [| done]. injection Hc' as <-. left. by apply stale_older.
Qed.

Lemma quorum_rule v started now l uid : sound l -> fvKey v = named (fvUID v) ->
  grant_rule (OQuorum v started now true) l uid (lgGrants l !! uid) (lgGrants (run_op (OQuorum v started now true) l) !! uid).
Proof.
  intros Hs Hv. destruct (lgFiles l !! fvUID v) as [c |] eqn:E; [destruct (Before (enObservedAt c) started) eqn:Eb |].
  - cbn [run_op]. unfold observeQuorum. rewrite E, Eb. cbn [negb]. destruct (decide (fvUID v = uid)) as [Eu | Hne].
    + apply store_rule; try done. intros c' Hc'. right. exists started, now. split; [done |]. unfold Before in Eb.
      assert (c' = c) as -> by congruence. lia.
    + destruct (store_spec v (Some c) now l) as (_ & _ & _ & _ & Eg & _). rewrite Eg, bool_decide_eq_false_2 by done. constructor.
  - apply (observe_rule _ v now); try done; cbn [run_op]; unfold observeQuorum; by rewrite E, Eb.
  - apply (observe_rule _ v now); try done; cbn [run_op]; unfold observeQuorum; by rewrite E.
Qed.

(** C11. A grant lives as the rules say, through every interleaving. A pass of
    a rebuilt ledger makes it, for two minutes, for a file it knows that holds
    none and waits out no backoff: to start one that is planned, not suspended,
    due and not known to be ineligible; to invite one that may be; or to start a
    graft that waits for its slot. Nothing replaces it. One a planner took ends
    only when that planner confirms or releases it or the file is gone; one
    nobody took, when a pass finds it expired, when the planner confirms or
    releases it, or when a view of its file is recorded that is past it: for a
    start any view, for an invitation one in the window, for a graft slot one
    whose graft holds it. *)
Theorem grants_follow_rules (o : aop) (l : Ledger) (uid : UID) : reachable l -> of_object o ->
  grant_rule o l uid (lgGrants l !! uid) (lgGrants (run_op o l) !! uid).
Proof using named_plain.
  intros Hr Ho. pose proof (reachable_sound l Hr) as Hs. destruct o.
  - apply (observe_rule _ v now); try done. by apply Ho.
  - cbn [run_op]. unfold Forget. destruct (lgByKey l !! key) as [u |] eqn:E; [| constructor]. cbn [snd].
    destruct (retire_spec u l) as (Ef & Eg & _). rewrite signal_grants, Eg. destruct (decide (uid = u)) as [-> | Hne]; [rewrite lookup_delete_eq | rewrite lookup_delete_ne by done; constructor].
    destruct (lgGrants l !! u); [| constructor]. apply gr_retired. cbn [run_op]. unfold Forget. rewrite E. cbn [snd].
    by rewrite signal_files, Ef, lookup_delete_eq.
  - cbn [run_op]. unfold TakeGrant. destruct (lgGrants l !! uid0) as [g |] eqn:E; [| constructor]. destruct (grant_lives g now) eqn:El; [| constructor].
    cbn. destruct (decide (uid0 = uid)) as [-> | Hne]; [rewrite lookup_insert_eq, E; apply (gr_taken _ _ _ now); [done | by apply grant_lives_iff] | rewrite lookup_insert_ne by done; constructor].
  - cbn. destruct (decide (uid0 = uid)) as [-> | Hne]; [rewrite lookup_delete_eq | rewrite lookup_delete_ne by done; constructor].
    destruct (lgGrants l !! uid); [| constructor]. apply (gr_returned _ _ _ 0). by left.
  - cbn [run_op]. unfold Release. destruct (lgGrants l !! uid0) as [g |] eqn:E; [| constructor]. cbn.
    destruct (decide (uid0 = uid)) as [-> | Hne]; [rewrite lookup_delete_eq, E | rewrite lookup_delete_ne by done; constructor].
    apply (gr_returned _ _ _ now). right. by left.
  - cbn [run_op]. unfold ReleaseUnconfirmed. destruct (lgGrants l !! uid0) as [g |] eqn:E; [destruct (gnInUse g) eqn:Eu |]; [cbn | constructor ..].
    destruct (decide (uid0 = uid)) as [-> | Hne]; [rewrite lookup_delete_eq, E | rewrite lookup_delete_ne by done; constructor].
    apply (gr_returned _ _ _ 0). right. by right.
  - apply gr_same. cbn [run_op]. unfold NoteLeaseMissing. destruct missing; cbn [negb]; [by destruct (lgLeaseMissingSince l !! uid0) | done].
  - apply gr_same. cbn [run_op]. unfold PublishFailed. by destruct err.
  - apply gr_same. cbn [run_op]. unfold WithdrawFailed. by destruct err.
  - apply gr_same. cbn [run_op]. unfold Reroute. cbv zeta. destruct (lgFiles _ !! uid0); [by rewrite enqueue_grants | done].
  - by apply gr_same.
  - by apply Pass_rule.
  - destruct replace; [by apply quorum_rule, Ho |]. apply (observe_rule _ v now); try done. by apply Ho.
  - apply (observe_rule _ v now); try done. by apply Ho.
  - by apply gr_same.
  - by apply gr_same.
  - by apply gr_same.
  - by apply gr_same.
  - by apply gr_same.
Qed.

(** ** When the next pass is due *)

Lemma soon_fold now ts next : now < next ->
  let r := fold_left (soon now) ts next in now < r /\ r <= next /\ forall t, t ∈ ts -> now < t -> r <= t.
Proof.
  cbn. revert next. induction ts as [| t ts IH]; intros next Hn; cbn [fold_left].
  { split_and!; [done | lia | by intros t ?%not_elem_of_nil]. }
  assert (now < soon now next t /\ soon now next t <= next /\ (now < t -> soon now next t <= t)) as (H1 & H2 & H3).
  { unfold soon, After, Before. destruct (Z.ltb_spec now t), (Z.ltb_spec t next); cbn; lia. }
  destruct (IH _ H1) as (I1 & I2 & I3). split_and!; [done | lia |]. intros u [-> | Hu]%list.elem_of_cons Hnow; [specialize (H3 Hnow); lia | by apply I3].
Qed.

(** Nothing waits past its time: the next pass is due within a minute, not
    sooner than a second, and by the first time, still to come, that a file's
    retry, an unused grant's expiry, a backoff's end or a pool's mark names. *)
Theorem pass_wakes_in_time (inp : PassInputs) (now : Time) (l : Ledger) :
  lgRebuilt l = true ->
  let due := (Pass inp now l).1 in
  let l' := (Pass inp now l).2 in
  Second <= due <= admissionBackstop /\ forall t, t ∈ wake_times l' -> now < t -> due <= Z.max (t - now) Second.
Proof.
  intros Hr. rewrite Pass_eq by done. unfold nextWakeLocked. cbn [fst snd]. set (l' := p_done _ _ _).
  destruct (soon_fold now (wake_times l') (Add now admissionBackstop)) as (H1 & H2 & H3).
  { unfold Add, admissionBackstop, Minute. lia. }
  set (r := fold_left (soon now) _ _) in *. unfold Add, admissionBackstop, Minute, Second in *.
  assert (Sub r now = r - now) as -> by (unfold Sub, MinInt64, MaxInt64, two_p63; lia). split; [lia |].
  intros t Ht Hnow. specialize (H3 t Ht Hnow). lia.
Qed.

(** However often its grants come to nothing, a file is offered again within
    half an hour. *)
Lemma backoff_bounded l uid b : reachable l -> lgBackoffs l !! uid = Some b -> Minute <= boDelay b <= 30 * Minute.
Proof using named_plain. intros Hr. apply (so_backoffs l (reachable_sound l Hr)). Qed.
End system.

(** ** Examples *)

#[local] Existing Instance ascii_unicode.
#[local] Existing Instance map_order.

Definition ex_named (u : UID) : NamespacedName := mkNN "m" u.

Lemma ex_named_plain u : no_sep "/"%char (nnNamespace (ex_named u)).
Proof. done. Qed.

Definition ex_view (uid : UID) (seq : Z) (phase : string) (hw : string) (known : bool) : FileView :=
  mkFileView uid (mkNN "m" uid) seq phase 0 (if slotPhase phase then "nvidia" else "") "" "hd" "" 0 0 false 0 hw true "hevc_nvenc" false false
    "" "" "" 0 known known false.

(** A GPU file runs, another is planned, a third is eligible. *)
Definition ex_ledger : Ledger :=
  run_op ORebuilt
    (run_op (OObserve (ex_view "c" 1 "" HardwareAuto true) 5)
      (run_op (OObserve (ex_view "b" 4 TranscodePhasePlanned HardwareGPU true) 5)
        (run_op (OObserve (ex_view "a" 7 TranscodePhaseRunning HardwareGPU true) 5)
          (NewLedger {[ "nvidia" := 1; "cpu" := 2 ]} 3 0)))).

Definition ex_inputs : PassInputs :=
  mkPassInputs {[ "hd" := mkProfileView "hd" "u" 50 0 HardwareAuto ]} {[ "nvidia" := true ]} ∅ ∅ ∅ ∅ 0.

Lemma ex_ledger_reachable : reachable ex_named ex_ledger.
Proof. unfold ex_ledger. repeat (apply reachable_op; [| by intros v [= <-]]). apply reachable_new. Defined.

(** The one slot is taken, so the second GPU file waits for it. *)
Lemma pass_within_slots_witness :
  class_in_use (piProfiles ex_inputs) 9 (Pass ex_inputs 9 ex_ledger).2 "nvidia" <=
  Z.max (class_in_use (piProfiles ex_inputs) 9 ex_ledger "nvidia") (class_budget ex_inputs ex_ledger "nvidia").
Proof.
  refine (proj1 (pass_within_slots ex_named ex_named_plain ex_inputs 9 ex_ledger ex_ledger_reachable _ _ _ _) "nvidia").
  - vm_compute. reflexivity.
  - vm_compute. reflexivity.
  - intros c. change (lgSlots ex_ledger) with ({[ "nvidia" := 1; "cpu" := 2 ]} : gmap string Z). unfold at_, is_int32.
    destruct (decide (c = "nvidia")) as [-> |]; [vm_compute; split; congruence |].
    destruct (decide (c = "cpu")) as [-> |]; [vm_compute; split; congruence |].
    rewrite lookup_insert_ne, lookup_singleton_ne by done. vm_compute. split; congruence.
  - vm_compute. reflexivity.
Defined.

Definition ex_entry (uid : UID) (seq : Z) (phase : string) (hw : string) : entry :=
  mkEntry (filled (ex_view uid seq phase hw true) None (NewLedger ∅ 0 0)) 5 ("m/" +:+ uid).

Lemma candidates_answered_witness :
  let l' := (Pass ex_inputs 9 ex_ledger).2 in
  (exists class, lgGrants l' !! "b" = Some (new_grant 9 GrantDispatch class
      (fvProfile (enView (ex_entry "b" 4 TranscodePhasePlanned HardwareGPU)))) /\ lgWaits l' !! "b" = None) \/
  ((forall g, lgGrants l' !! "b" = Some g -> gnKind g = GrantGraftSlot) /\
   exists w, lgWaits l' !! "b" = Some w /\ wtCause w ∈ [ReasonWaitingForGPU; ReasonPoolDraining; ReasonWaitingForSlot]).
Proof.
  refine (candidates_answered ex_named ex_named_plain ex_inputs 9 ex_ledger "b" (ex_entry "b" 4 TranscodePhasePlanned HardwareGPU)
    ex_ledger_reachable _ _ _).
  - vm_compute. reflexivity.
  - vm_compute. reflexivity.
  - vm_compute. reflexivity.
Defined.

(** Two files hold places; the third gets the last one. *)
Lemma window_filled_witness :
  window_taken (piProfiles ex_inputs) 9 (Pass ex_inputs 9 ex_ledger).2 "hd" <=
  Z.max (window_taken (piProfiles ex_inputs) 9 ex_ledger "hd") (lgWindow ex_ledger).
Proof.
  refine (proj1 (window_filled ex_named ex_named_plain ex_inputs 9 ex_ledger "hd" ex_ledger_reachable _ _) _).
  - vm_compute. reflexivity.
  - vm_compute. by eexists.
  - vm_compute. reflexivity.
Defined.

(** A Planned view of the running file that arrives late changes nothing. *)
Definition ex_late : aop := OObserve (ex_view "a" 6 TranscodePhasePlanned HardwareGPU true) 9.

Lemma view_never_goes_back_witness :
  match lgFiles (run_op ex_late ex_ledger) !! "a" with
  | Some e' => ~ older (enView e') (enView (ex_entry "a" 7 TranscodePhaseRunning HardwareGPU))
  | None => ex_late = OForget (ex_named "a") \/ exists v, observed ex_late = Some v /\ fvUID v <> "a" /\ fvKey v = ex_named "a"
  end.
Proof.
  refine (view_never_goes_back ex_named ex_named_plain ex_late ex_ledger "a" (ex_entry "a" 7 TranscodePhaseRunning HardwareGPU)
    ex_ledger_reachable _ _ _).
  - by intros v [= <-].
  - vm_compute. reflexivity.
  - discriminate.
Defined.

Lemma grants_follow_rules_witness :
  grant_rule (OPass ex_inputs 9) ex_ledger "c" (lgGrants ex_ledger !! "c") (lgGrants (run_op (OPass ex_inputs 9) ex_ledger) !! "c").
Proof. refine (grants_follow_rules ex_named ex_named_plain (OPass ex_inputs 9) ex_ledger "c" ex_ledger_reachable _). discriminate. Defined.

(** What that pass does: the eligible file is invited, the GPU file waits. *)
Example ex_pass :
  let '(due, l') := Pass ex_inputs 9 ex_ledger in
  due = Minute /\ lgGrants l' !! "c" = Some (new_grant 9 GrantWindow "" "hd") /\ lgGrants l' !! "b" = None /\
  lgWaits l' !! "b" = Some (mkWait WaitingForGPU ReasonWaitingForGPU).
Proof. vm_compute. done. Qed.

Lemma pass_wakes_in_time_witness :
  let due := (Pass ex_inputs 9 ex_ledger).1 in
  let l' := (Pass ex_inputs 9 ex_ledger).2 in
  Second <= due <= admissionBackstop /\ forall t, t ∈ wake_times l' -> 9 < t -> due <= Z.max (t - 9) Second.
Proof.
  assert (lgRebuilt ex_ledger = true) as Hr by (vm_compute; reflexivity).
  exact (pass_wakes_in_time ex_inputs 9 ex_ledger Hr).
Defined.

(** The two counts of a window differ on a file whose window grant, in use, is
    another profile's than its block's. *)
Lemma open_counts_differ :
  let g := mkGrant GrantWindow "" "uhd" 99 true in
  let l := ex_ledger <| lgGrants := {[ "a" := g ]} |> in
  let profiles : gmap string unit := {[ "hd" := tt; "uhd" := tt ]} in
  open l "uhd" = 1 /\ at_ (openCounts l profiles) "uhd" = 0.
Proof. vm_compute. done. Qed.

(** A view of a deleted file that arrives after its name was taken again
    retires the new file, older though it is: the running transcode's slot is
    free, and the pass gives it to another. *)
Lemma late_predecessor_frees_slot :
  let late := (ex_view "old" 3 TranscodePhaseSucceeded HardwareGPU true) <| fvKey := mkNN "m" "a" |> in
  let l' := Observe late 8 ex_ledger in
  lgFiles l' !! "a" = None /\ count slHardware "nvidia" (taken 9 (pass_open ex_inputs 9 ex_ledger)) = 1 /\
  count slHardware "nvidia" (taken 9 (pass_open ex_inputs 9 l')) = 0 /\
  lgGrants (Pass ex_inputs 9 l').2 !! "b" = Some (new_grant 9 GrantDispatch "nvidia" "hd").
Proof. vm_compute. done. Qed.
